(* ===== verification/_CoqProject ===== *)
-Q . S2P
Prelude.v
Ram.v
Mmu.v
Image.v
ObjectFormat.v
ArchiveFormat.v
BootFormat.v
BootProof.v
BootValid.v
BootInfoValid.v
Linker.v
LinkerSymbols.v
LinkerLayout.v
LinkerReloc.v
LinkerImage.v
LinkerProof.v
LinkerFiles.v
Interrupt.v
Bus.v
Ring.v
Timer.v
Uart.v
IrqController.v
Isa.v
CpuCore.v
CpuInv.v
CpuExec.v
CpuVector.v
Cpu.v
CpuSafety.v
CpuStep.v
CpuIsolation.v
CpuPrecise.v
CpuRun.v
Vm.v
VmDevices.v
VmProof.v
VmRun.v
VmRace.v
SystemInfo.v
DeviceAbi.v
Keyboard.v
DisplayQueue.v
Display.v
DeviceManager.v
DeviceAlloc.v
DeviceAttach.v
DeviceHotplug.v
Counter.v
CpuArith.v
CpuStack.v
CpuFloat.v
KernelList.v
KernelMem.v
Pmm.v
KernelMmu.v
Heap.v
HeapProof.v
KernelRuntime.v
