(* ===== verification/Prelude.v ===== *)
(** * RISC-MV: a verified model of the virtual machine and its kernel

    RISC-MV is a multi-core 64-bit virtual machine in C with plug-in devices, a
    guest kernel and the tools that build guest programs.  This library models
    the machine, its devices, the memory management of the kernel, the file
    formats and the linker as executable definitions translated from the sources,
    and proves the properties the rest of the system relies on.

    ** The parts and where they are modelled

    Foundations.
    - Prelude: 64-bit integers with their wrap-around, bit and little-endian
      lemmas, and the [Exec] monad: a C function that returns 0 or 1 and
      mutates its arguments is a function from the state to an optional result
      and the new state, so that what it changed before failing is kept.  The
      judgements [keeps], [never_fails], [clean] and [stays] are the proof rules.
    - Ring: the circular buffers of several devices and of the kernel.

    The machine.
    - Ram (src/ram.c): memory as a finite map of bytes with a size; aligned host
      accesses and byte loops, block copies, atomics, lock stripes.
    - Mmu (src/mmu.c): the three-level page-table walk.
    - Interrupt (src/interrupt.c): per-core controllers and the router.
    - Bus (src/bus.c): device windows, ROM and RAM.  A [World] holds what device
      callbacks share (RAM, router, device contexts); the class [DeviceLaws] is
      what the bus asks of a device, [DevInv] the devices' own invariant.
    - Timer (src/timer.c), IrqController (src/irq_controller.c), Uart
      (src/uart.c), SystemInfo (src/system_info.c): devices, each with its
      instance of [DeviceLaws].
    - Isa (include/isa.h), CpuCore, CpuExec, CpuVector, Cpu: the processor of
      src/cpu.c and src/cpu_vector.c with the clocks of src/vm_clock.c; one
      definition per handler, under its C name.  Floating point is that of the
      standard library's [SpecFloat]; NaN payloads are the parameter [HostNan].
    - CpuInv, CpuSafety, CpuStep: the invariant [machine_wf] and the interfaces
      ([BusClosed], [FetchClosed], [UserClosed], [PrivClosed], [StepClosed]) that
      say what each layer of the processor may do to a predicate; every handler
      is proved once against them, and each property instantiates them.
    - Vm (src/vm.c), VmDevices (src/core_control.c, src/system_control.c): cores
      and hardware threads, their activation, stop and reset, the rounds of the
      worker threads, warm reset and the run loop.  Vm runs whole rounds of the
      workers one after another, in any order ([worker_step]): a serial schedule,
      which no lock of the program enforces.  VmProof holds its invariant.
      VmRace is the control plane at the grain of single atomic accesses, where
      the steps of different workers interleave; it keeps of a CPU only whether
      it has halted and whether it has executed an instruction.

    Plug-in devices.
    - DeviceAbi (include/device_abi.h): what a module and the manager exchange.
    - Keyboard, Display, DisplayQueue, Counter (devices/keyboard,
      devices/display, devices/sample_counter, src/keyboard_input.c,
      src/display_queue.c, src/headless_display.c): the modules and the host
      side of their queues.
    - DeviceManager (src/device_manager.c): attaching and detaching modules,
      allocation of windows and interrupt lines, the hub registers.  A module is
      a parameter; [ModuleLaws] is what the manager relies on and Counter
      discharges it.  DeviceAlloc, DeviceAttach and DeviceHotplug hold the proofs.

    The kernel.
    - KernelMem: physical memory as the kernel sees it.  Pmm (kernel/pmm.c): the
      page allocator.  KernelMmu (kernel/mmu.c): page tables and bootstrap.
    - Heap, HeapProof (kernel/heap.c): the heap in its window of virtual
      addresses, over the two allocators above.
    - KernelList, KernelRuntime (kernel/runtime.c): intrusive lists over a shared
      memory of nodes, byte queues and bitmaps.

    The tools and the file formats.
    - Image: bytes, little-endian fields and string tables of a file image.
    - ObjectFormat (tools/object/object_format.c): the encoder, the decoder and
      the rules of object files.  ArchiveFormat (tools/object/archive_format.c,
      tools/archive/main.c): the same for archives, and the archiver.
    - BootFormat (src/boot_format.c): checksums, executable images and the boot
      information block.  BootProof holds the algebra of the checksum, BootValid
      and BootInfoValid what validation accepts.
    - Linker (tools/linker/main.c): from the bytes of the input files to those
      of the image, one definition per function.  LinkerSymbols, LinkerLayout,
      LinkerReloc and LinkerImage hold the proofs of its passes, LinkerProof
      and LinkerFiles compose them.

    ** What the theorems show

    - Ram: writes change exactly their bytes and read back at any alignment; the
      fast and the portable paths are indistinguishable; block copies terminate
      and copy; the two-stripe locking is ordered.
    - Mmu: the walk refines a declarative specification of page tables; it is
      uniform on pages, never maps a page half outside RAM, and its permissions
      form a lattice.
    - Interrupt: in every reachable state each core serves at most one line and no
      deliverable line waits for an idle core; raised lines are not lost; the
      compare-and-swap loop is linearizable.
    - Bus: decoding is exclusive, mapping and unmapping are inverse.
    - Timer, IrqController, Uart: batching of ticks is unobservable; refused
      register writes change nothing; bytes come out in the order they went in.
      Keyboard: the two queues refine an abstract stream of keys; a key is lost
      exactly when it finds the queue of the device full.
    - CpuPrecise, over CpuIsolation: a step in user mode keeps every privileged
      register or enters a handler, at the address its entry of the vector table
      holds, with the registers of the program and with the frame as its only
      write; an instruction that raises an exception has no effect on the
      registers.  CpuRun: the machine
      invariant over whole runs, failing steps, which interrupt is accepted and
      what that changes, and what ends the run loop, round by round, with its
      fuel.  CpuStack: handler entry and IRET, CALL and RET, PUSH
      and POP are inverse.  CpuArith, CpuFloat: what flags, comparisons, division,
      conversions and lanes mean.
    - VmRun: between rounds the count of active threads is that of the threads
      that are active, in every state a serial schedule reaches; scheduling is
      fair; commands and resets do what their registers say, and no instruction
      or register write changes a running thread of another slot.  VmRace: up to
      the threads in transit the count is right between the steps of concurrent
      commands too; a restart that overtakes the end of the previous
      run is lost ([restart_race]).
    - DeviceHotplug: attaching and detaching keep the slots, the interrupt lines
      and the bus consistent and are atomic.  DeviceAlloc: windows are found first
      fit whenever they exist.  Display, DisplayQueue: a valid mode shows the frame
      buffer of the guest, any other reports the error of its first failing
      condition; no frame is leaked or freed twice.
    - Pmm, KernelMmu, HeapProof: no page or block is handed out twice, the
      bootstrap tables map the kernel with the permissions of its sections, the
      heap finds a block whenever one exists and merges free neighbours.
    - ObjectFormat: decoding inverts encoding, and decoding an arbitrary file
      never reads outside it and yields only objects that satisfy the rules;
      ArchiveFormat: the same for archives, and the archiver keeps its inputs.
    - BootValid: an image is accepted exactly when its header, ranges and
      checksum are right, and a changed byte is detected.  BootInfoValid: an
      accepted boot information block lies inside memory.
    - Linker: the table of globals is exact or the link is refused
      ([collect_globals_exact]); exactly the members that are needed are taken
      from archives ([extract_archives_exact]); the sections follow each other
      from the base address on, each at the next page ([link_layout_correct]);
      every byte of the image is that of the last relocation whose field covers
      it, or else the byte of its section ([link_files_correct], from the bytes
      of the input files on), and the sections become the segments of the image
      ([link_image_correct]).

    ** Fuel

    Loops whose bound is not structural carry fuel: block copies take the number
    of bytes (a chunk is never empty), the vector accesses the segment width, the
    lowest-bit scan 64, the run loop its number of rounds, with a theorem that
    more fuel changes nothing once the run has ended.  The heap walks take one
    round per possible block of the window, which the invariant bounds, malloc
    its two passes; the selection of a thread takes the number of threads; the
    search for a window takes the number of windows already placed, which
    [allocate_bars_first_fit] shows to be enough; the flush of the UART takes
    the number of queued bytes.  The chain from a symbol to its address takes
    three steps, one more than any chain has ([symbol_address_resolve]); the
    rounds over archives one more than the members that are left to take.

    ** Not modelled

    Spinning on locks (each locked region is one atomic step), memory fences,
    messages on stderr, host windows, host threads and dynamic libraries.  The
    host's allocator succeeds, or what it returns is an argument.  The scheduler,
    processes and file systems of the kernel, the block device, the assembler
    and compiler, the options and the map file of the linker. *)
From stdpp Require Import base list numbers gmap option.
From Stdlib Require Import ZArith Lia Bool.

#[local] Open Scope Z_scope.

(** ** Machine integers

    A w-bit C integer is a [Z]; every C operation that can leave the range is
    followed by the wrap-around the language prescribes. *)

Definition UINT64_MAX : Z := 0xFFFFFFFFFFFFFFFF.
Definition SIZE_MAX : Z := UINT64_MAX.

Definition is_u8 (x : Z) : Prop := 0 <= x < 0x100.
Definition is_u32 (x : Z) : Prop := 0 <= x < 0x100000000.
Definition is_u64 (x : Z) : Prop := 0 <= x < 0x10000000000000000.

Definition wrap8 (x : Z) : Z := x mod 0x100.
Definition wrap32 (x : Z) : Z := x mod 0x100000000.
Definition wrap64 (x : Z) : Z := x mod 0x10000000000000000.

Definition not64 (x : Z) : Z := wrap64 (Z.lnot x).
Definition shl64 (x n : Z) : Z := wrap64 (Z.shiftl x n).

(** [(x & mask) != 0]. *)
Definition has_bits (x mask : Z) : bool := negb (Z.land x mask =? 0).

(** The two's complement reading of a 64-bit word. *)
Definition signed64 (x : Z) : Z :=
  if x <? 0x8000000000000000 then x else x - 0x10000000000000000.

Arguments UINT64_MAX : simpl never.
Arguments SIZE_MAX : simpl never.
Arguments wrap8 : simpl never.
Arguments wrap32 : simpl never.
Arguments wrap64 : simpl never.
Arguments not64 : simpl never.
Arguments shl64 : simpl never.
Arguments has_bits : simpl never.
Arguments signed64 : simpl never.

Ltac unfold_ints :=
  unfold is_u8, is_u32, is_u64, wrap8, wrap32, wrap64, SIZE_MAX, UINT64_MAX in *.

(** [zlia] decides linear goals over the machine-integer predicates, with
    [mod] and [/] by constants expanded. *)
Ltac zlia := unfold_ints; Z.to_euclidean_division_equations; lia.

Create HintDb u64.

Lemma wrap8_u8 x : is_u8 (wrap8 x).
Proof. zlia. Qed.

Lemma wrap32_u32 x : is_u32 (wrap32 x).
Proof. zlia. Qed.

Lemma wrap64_u64 x : is_u64 (wrap64 x).
Proof. zlia. Qed.

Lemma wrap64_id x : is_u64 x -> wrap64 x = x.
Proof. intros H. apply Z.mod_small, H. Qed.

Lemma wrap8_id x : is_u8 x -> wrap8 x = x.
Proof. intros H. apply Z.mod_small, H. Qed.

Lemma not64_u64 x : is_u64 (not64 x).
Proof. apply wrap64_u64. Qed.

Lemma shl64_u64 x n : is_u64 (shl64 x n).
Proof. apply wrap64_u64. Qed.

Lemma u8_u64 x : is_u8 x -> is_u64 x.
Proof. zlia. Qed.

Lemma u32_u64 x : is_u32 x -> is_u64 x.
Proof. zlia. Qed.

(** ** Bitwise operations on bounded integers *)

Lemma land_ones_bound n x y : 0 <= n -> 0 <= x < 2 ^ n -> 0 <= y -> 0 <= Z.land x y < 2 ^ n.
Proof.
  intros Hn Hx Hy. split; [apply Z.land_nonneg; lia|].
  rewrite <-(Z.mod_small x (2 ^ n)) by done. rewrite <-Z.land_ones by done.
  rewrite <-Z.land_assoc, (Z.land_comm _ y), Z.land_assoc, Z.land_ones by done.
  apply Z.mod_pos_bound. lia.
Qed.

Lemma testbit_above n x i : 0 <= n -> 0 <= x < 2 ^ n -> n <= i -> Z.testbit x i = false.
Proof.
  intros Hn Hx Hi. rewrite <-(Z.mod_small x (2 ^ n)) by done.
  apply Z.mod_pow2_bits_high. lia.
Qed.

Lemma bits_bound n x :
  0 <= n -> 0 <= x -> (forall i, n <= i -> Z.testbit x i = false) -> x < 2 ^ n.
Proof.
  intros Hn Hx Hb. assert (x = x mod 2 ^ n) as ->; [|apply Z.mod_pos_bound; lia].
  apply Z.bits_inj'. intros i Hi. destruct (Z.lt_ge_cases i n).
  - by rewrite Z.mod_pow2_bits_low.
  - rewrite Z.mod_pow2_bits_high by lia. auto.
Qed.

Lemma lor_bound n x y :
  0 <= n -> 0 <= x < 2 ^ n -> 0 <= y < 2 ^ n -> 0 <= Z.lor x y < 2 ^ n.
Proof.
  intros Hn Hx Hy. assert (0 <= Z.lor x y) by (apply Z.lor_nonneg; lia).
  split; [done|]. apply bits_bound; [done..|]. intros i Hi.
  by rewrite Z.lor_spec, !(testbit_above n) by lia.
Qed.

Lemma lxor_bound n x y :
  0 <= n -> 0 <= x < 2 ^ n -> 0 <= y < 2 ^ n -> 0 <= Z.lxor x y < 2 ^ n.
Proof.
  intros Hn Hx Hy. assert (0 <= Z.lxor x y) by (apply Z.lxor_nonneg; lia).
  split; [done|]. apply bits_bound; [done..|]. intros i Hi.
  by rewrite Z.lxor_spec, !(testbit_above n) by lia.
Qed.

Lemma land_u64 x y : is_u64 x -> is_u64 y -> is_u64 (Z.land x y).
Proof. intros Hx Hy. apply (land_ones_bound 64); [lia|apply Hx|apply Hy]. Qed.

Lemma lor_u64 x y : is_u64 x -> is_u64 y -> is_u64 (Z.lor x y).
Proof. intros Hx Hy. by apply (lor_bound 64). Qed.

Lemma lxor_u64 x y : is_u64 x -> is_u64 y -> is_u64 (Z.lxor x y).
Proof. intros Hx Hy. by apply (lxor_bound 64). Qed.

Lemma lor_u8 x y : is_u8 x -> is_u8 y -> is_u8 (Z.lor x y).
Proof. intros Hx Hy. by apply (lor_bound 8). Qed.

Lemma land_u8 x y : is_u8 x -> is_u8 y -> is_u8 (Z.land x y).
Proof. intros Hx Hy. apply (land_ones_bound 8); [lia|apply Hx|apply Hy]. Qed.

Lemma lxor_u8 x y : is_u8 x -> is_u8 y -> is_u8 (Z.lxor x y).
Proof. intros Hx Hy. by apply (lxor_bound 8). Qed.

Lemma shiftr_u64 x n : is_u64 x -> 0 <= n -> is_u64 (Z.shiftr x n).
Proof.
  intros Hx Hn. unfold is_u64 in *. rewrite Z.shiftr_div_pow2 by done.
  split; [apply Z.div_pos; lia|]. apply Z.div_lt_upper_bound; nia.
Qed.

#[export] Hint Resolve wrap8_u8 wrap32_u32 wrap64_u64 not64_u64 shl64_u64
  land_u64 lor_u64 lxor_u64 shiftr_u64 : u64.
#[export] Hint Resolve u8_u64 u32_u64 | 10 : u64.

Lemma land_low_mask x n : 0 <= n -> Z.land x (2 ^ n - 1) = x mod 2 ^ n.
Proof. intros Hn. rewrite <-Z.land_ones by done. by rewrite Z.ones_equiv, Z.sub_1_r. Qed.

Lemma has_bits_pow2 x n : 0 <= n -> has_bits x (2 ^ n) = Z.testbit x n.
Proof.
  intros Hn. unfold has_bits. destruct (Z.testbit x n) eqn:Hb.
  - rewrite negb_true_iff, Z.eqb_neq. intros H0.
    apply (f_equal (fun y => Z.testbit y n)) in H0.
    rewrite Z.land_spec, Hb, Z.pow2_bits_true, Z.bits_0 in H0 by done. done.
  - rewrite negb_false_iff, Z.eqb_eq. apply Z.bits_inj'. intros i Hi.
    rewrite Z.land_spec, Z.pow2_bits_eqb, Z.bits_0 by done.
    destruct (Z.eqb_spec n i); subst; [by rewrite Hb|by rewrite andb_false_r].
Qed.

Lemma lor_shiftl_add a b n : 0 <= n -> 0 <= a < 2 ^ n -> Z.lor a (Z.shiftl b n) = a + b * 2 ^ n.
Proof.
  intros Hn Ha. rewrite <-Z.shiftl_mul_pow2 by done.
  rewrite <-Z.add_lor_land, <-(Z.add_0_r (Z.lor _ _)) at 1. f_equal. symmetry.
  apply Z.bits_inj'. intros i Hi. rewrite Z.land_spec, Z.bits_0.
  destruct (Z.lt_ge_cases i n).
  - by rewrite Z.shiftl_spec_low, andb_false_r by lia.
  - by rewrite (testbit_above n) by lia.
Qed.

(** ** Little-endian byte strings

    [or_bytes] is the loop [result |= (uint64_t)byte[i] << (i * 8)] that the
    sources repeat; [byte_at v i] is [(uint8_t)(v >> (i * 8))].
    [bytes_to_int] and [int_to_bytes] are their arithmetic meaning. *)

Fixpoint or_bytes (result i : Z) (bytes : list Z) : Z :=
  match bytes with
  | [] => result
  | b :: rest => or_bytes (Z.lor result (shl64 b (i * 8))) (i + 1) rest
  end.

Definition byte_at (value i : Z) : Z := wrap8 (Z.shiftr value (i * 8)).

Fixpoint bytes_to_int (bytes : list Z) : Z :=
  match bytes with
  | [] => 0
  | b :: rest => b + 256 * bytes_to_int rest
  end.

Definition int_to_bytes (n : Z) (value : Z) : list Z := byte_at value <$> seqZ 0 n.

Arguments byte_at : simpl never.
Arguments int_to_bytes : simpl never.

Lemma byte_at_u8 v i : is_u8 (byte_at v i).
Proof. apply wrap8_u8. Qed.
#[export] Hint Resolve byte_at_u8 : u64.

Lemma int_to_bytes_u8 n v : Forall is_u8 (int_to_bytes n v).
Proof. apply Forall_fmap, Forall_true. intros i. apply byte_at_u8. Qed.

Lemma length_int_to_bytes n v : length (int_to_bytes n v) = Z.to_nat n.
Proof. unfold int_to_bytes. by rewrite length_fmap, length_seqZ. Qed.

Lemma bytes_to_int_bound l :
  Forall is_u8 l -> 0 <= bytes_to_int l < 256 ^ Z.of_nat (length l).
Proof.
  induction 1 as [|b l Hb Hl IH]; simpl; [lia|].
  rewrite Nat2Z.inj_succ, Z.pow_succ_r by lia. unfold is_u8 in Hb. lia.
Qed.

Lemma bytes_to_int_u64 l : Forall is_u8 l -> (length l <= 8)%nat -> is_u64 (bytes_to_int l).
Proof.
  intros Hl Hn. pose proof (bytes_to_int_bound l Hl) as [H1 H2]. split; [done|].
  eapply Z.lt_le_trans; [apply H2|]. change 0x10000000000000000 with (256 ^ 8).
  apply Z.pow_le_mono_r; lia.
Qed.

Lemma or_bytes_spec l result i :
  0 <= i -> 0 <= result < 256 ^ i -> i + Z.of_nat (length l) <= 8 -> Forall is_u8 l ->
  or_bytes result i l = result + 256 ^ i * bytes_to_int l.
Proof.
  revert result i. induction l as [|b l IH]; intros result i Hi Hr Hlen Hl; simpl; [lia|].
  inversion_clear Hl as [|? ? Hb Hl']. simpl in Hlen.
  assert (256 ^ i = 2 ^ (i * 8)) as Hpow.
  { rewrite Z.mul_comm, Z.pow_mul_r by lia. done. }
  assert (256 ^ (i + 1) = 256 ^ i * 256) as Hsucc by (rewrite Z.pow_add_r; lia).
  assert (256 ^ (i + 1) <= 256 ^ 8) by (apply Z.pow_le_mono_r; lia).
  change (256 ^ 8) with 0x10000000000000000 in *. unfold is_u8 in Hb.
  assert (Z.lor result (shl64 b (i * 8)) = result + 256 ^ i * b) as ->.
  { unfold shl64. rewrite wrap64_id, lor_shiftl_add; [nia..|].
    rewrite Z.shiftl_mul_pow2 by lia. unfold is_u64. nia. }
  rewrite IH; [|nia..|done]. nia.
Qed.

(** The byte-assembling loop computes the little-endian value. *)
Lemma or_bytes_correct l :
  Forall is_u8 l -> (length l <= 8)%nat -> or_bytes 0 0 l = bytes_to_int l.
Proof. intros Hl Hn. rewrite or_bytes_spec; simpl; [lia..|done]. Qed.

Lemma byte_at_succ v i : 0 <= i -> byte_at v (i + 1) = byte_at (v / 256) i.
Proof.
  intros Hi. unfold byte_at. rewrite !Z.shiftr_div_pow2 by lia. f_equal.
  replace ((i + 1) * 8) with (8 + i * 8) by lia.
  rewrite Z.pow_add_r, <-Z.div_div by lia. done.
Qed.

Lemma int_to_bytes_succ n v :
  0 <= n -> int_to_bytes (n + 1) v = wrap8 v :: int_to_bytes n (v / 256).
Proof.
  intros Hn. unfold int_to_bytes. rewrite seqZ_cons, fmap_cons by lia. f_equal.
  replace (Z.pred (n + 1)) with n by lia. change (Z.succ 0) with (1 + 0).
  rewrite <-(fmap_add_seqZ 1 0), <-list_fmap_compose.
  apply list_fmap_ext. intros k x Hx%lookup_seqZ. cbn.
  rewrite Z.add_comm. apply byte_at_succ. lia.
Qed.

(** Splitting a value into [n] bytes and reassembling truncates it. *)
Lemma bytes_to_int_to_bytes (n : nat) v :
  bytes_to_int (int_to_bytes (Z.of_nat n) v) = v mod 256 ^ Z.of_nat n.
Proof.
  revert v. induction n as [|n IH]; intros v; [by rewrite Z.mod_1_r|].
  rewrite Nat2Z.inj_succ, <-Z.add_1_r, int_to_bytes_succ by lia. cbn [bytes_to_int].
  rewrite IH, Z.pow_add_r, (Z.mul_comm (256 ^ _)), Z.pow_1_r by lia.
  rewrite Z.rem_mul_r by lia. done.
Qed.

Lemma int_to_bytes_to_int l :
  Forall is_u8 l -> int_to_bytes (Z.of_nat (length l)) (bytes_to_int l) = l.
Proof.
  induction 1 as [|b l Hb Hl IH]; [done|]. simpl length.
  rewrite Nat2Z.inj_succ, <-Z.add_1_r, int_to_bytes_succ by lia. cbn [bytes_to_int].
  set (k := bytes_to_int l) in *. unfold is_u8 in Hb. f_equal; [zlia|].
  rewrite <-IH at 2. f_equal. zlia.
Qed.

(** ** Single-bit masks *)

Definition bit64 (n : Z) : Z := shl64 1 n.
Arguments bit64 : simpl never.

Lemma bit64_pow2 n : 0 <= n < 64 -> bit64 n = 2 ^ n.
Proof.
  intros Hn. unfold bit64, shl64. rewrite Z.shiftl_1_l. apply wrap64_id. split; [lia|].
  change 0x10000000000000000 with (2 ^ 64). apply Z.pow_lt_mono_r; lia.
Qed.

Lemma bit64_u64 n : is_u64 (bit64 n).
Proof. apply shl64_u64. Qed.
#[export] Hint Resolve bit64_u64 : u64.

Lemma has_bits_bit64 x n : 0 <= n < 64 -> has_bits x (bit64 n) = Z.testbit x n.
Proof. intros Hn. rewrite bit64_pow2 by done. apply has_bits_pow2. lia. Qed.

Lemma testbit_not64 x i : 0 <= i < 64 -> Z.testbit (not64 x) i = negb (Z.testbit x i).
Proof.
  intros Hi. unfold not64, wrap64. change 0x10000000000000000 with (2 ^ 64).
  rewrite Z.mod_pow2_bits_low by lia. apply Z.lnot_spec. lia.
Qed.

Lemma testbit_set_bit x n i :
  0 <= n < 64 -> 0 <= i -> Z.testbit (Z.lor x (bit64 n)) i = Z.testbit x i || (n =? i).
Proof. intros Hn Hi. by rewrite Z.lor_spec, bit64_pow2, Z.pow2_bits_eqb by lia. Qed.

Lemma testbit_u64_high x i : is_u64 x -> 64 <= i -> Z.testbit x i = false.
Proof. intros Hx Hi. apply (testbit_above 64); [lia|exact Hx|lia]. Qed.

Lemma testbit_clear_bit x n i :
  is_u64 x -> 0 <= n < 64 -> 0 <= i ->
  Z.testbit (Z.land x (not64 (bit64 n))) i = Z.testbit x i && negb (n =? i).
Proof.
  intros Hx Hn Hi. rewrite Z.land_spec. destruct (Z.lt_ge_cases i 64).
  - by rewrite testbit_not64, bit64_pow2, Z.pow2_bits_eqb by lia.
  - by rewrite testbit_u64_high by done.
Qed.

(** Clearing bits of a word. *)
Lemma land_not64 x y : is_u64 x -> Z.land x (not64 y) = Z.ldiff x y.
Proof.
  intros Hx. apply Z.bits_inj'. intros i Hi. rewrite Z.land_spec, Z.ldiff_spec.
  destruct (Z.lt_ge_cases i 64); [by rewrite testbit_not64|]. by rewrite testbit_u64_high.
Qed.

Lemma land_not32 x y : is_u32 x -> Z.land x (wrap32 (Z.lnot y)) = Z.ldiff x y.
Proof.
  intros Hx. apply Z.bits_inj'. intros i Hi. rewrite Z.land_spec, Z.ldiff_spec.
  unfold wrap32. change 0x100000000 with (2 ^ 32). destruct (Z.lt_ge_cases i 32).
  - by rewrite Z.mod_pow2_bits_low, Z.lnot_spec by lia.
  - rewrite (testbit_above 32 x i); [done|lia|exact Hx|lia].
Qed.

(** No bit from [k] on is set. *)
Lemma ldiff_ones_0 x k : 0 <= k -> 0 <= x -> Z.ldiff x (Z.ones k) = 0 <-> x < 2 ^ k.
Proof.
  intros Hk Hx. rewrite Z.ldiff_ones_r, Z.shiftr_div_pow2, Z.shiftl_mul_pow2 by lia.
  pose proof (Z.pow_pos_nonneg 2 k). pose proof (Z.div_pos x (2 ^ k)). split; intros H1.
  - assert (x / 2 ^ k = 0) as Hd by nia. apply Z.div_small_iff in Hd; lia.
  - by rewrite Z.div_small by lia.
Qed.

(** The test [value & (value - 1)] for powers of two. *)
Lemma land_pred_pow2 value : 0 < value < 2 ^ 64 -> Z.land value (value - 1) = 0 <-> exists k, 0 <= k < 64 /\ value = 2 ^ k.
Proof.
  intros Hv. split.
  - intros Hl. exists (Z.log2 value). pose proof (Z.log2_spec value ltac:(lia)) as [Hlo Hhi].
    pose proof (Z.log2_nonneg value). assert (Z.log2 value < 64) by (apply Z.log2_lt_pow2; lia).
    split; [lia|]. destruct (Z.eq_dec value (2 ^ Z.log2 value)) as [|Hne]; [done|]. exfalso.
    assert (Z.testbit (Z.land value (value - 1)) (Z.log2 value) = true) as Hb; [|by rewrite Hl, Z.testbit_0_l in Hb].
    rewrite Z.land_spec, Z.bit_log2 by lia. cbn [andb].
    assert (Z.log2 (value - 1) = Z.log2 value) as <- by (apply Z.log2_unique; lia).
    apply Z.bit_log2. lia.
  - intros (k & Hk & ->). replace (2 ^ k - 1) with (Z.ones k) by (rewrite Z.ones_equiv; lia).
    rewrite Z.land_ones by lia. apply Z.mod_same. lia.
Qed.

(** Two words with the same bits are equal. *)
Lemma u64_bits_eq x y :
  is_u64 x -> is_u64 y -> (forall i, 0 <= i < 64 -> Z.testbit x i = Z.testbit y i) -> x = y.
Proof.
  intros Hx Hy H. apply Z.bits_inj'. intros i Hi. destruct (Z.lt_ge_cases i 64); [by apply H|].
  by rewrite !testbit_u64_high by done.
Qed.

(** ** Stateful, fallible code

    A C function that mutates its arguments and returns 0 or 1 (with an output
    parameter on success) is a state transformer whose result is an [option];
    the state survives a failure, as it does in C.  [if (!f(...)) return 0;]
    is [exec_bind]. *)

Definition Exec (S A : Type) : Type := S -> option A * S.

#[export] Instance Exec_ret S : MRet (Exec S) := fun A a s => (Some a, s).

Definition exec_bind {S A B} (m : Exec S A) (f : A -> Exec S B) : Exec S B := fun s =>
  match m s with
  | (Some a, s') => f a s'
  | (None, s') => (None, s')
  end.

Declare Scope exec_scope.
Delimit Scope exec_scope with exec.
Notation "x ← m ; f" := (exec_bind m (fun x => f)) : exec_scope.
Notation "' x ← m ; f" := (exec_bind m (fun x => f)) : exec_scope.
Notation "m ;; f" := (exec_bind m (fun _ => f)) : exec_scope.

Definition exec_fail {S A} : Exec S A := fun s => (None, s).
Definition exec_get {S} : Exec S S := fun s => (Some s, s).
Definition exec_modify {S} (f : S -> S) : Exec S unit := fun s => (Some tt, f s).
Definition exec_guard {S} (b : bool) : Exec S unit := if b then mret tt else exec_fail.
Definition exec_of_option {S A} (o : option A) : Exec S A := fun s => (o, s).

(** Running a sub-computation on a failure-tolerant path: the C idiom
    [ok = f(...)], the outcome as a boolean. *)
Definition exec_try {S A} (m : Exec S A) : Exec S (option A) :=
  fun s => let '(r, s') := m s in (Some r, s').

(** *** Three judgements on computations

    - [keeps I m Q]: the state predicate [I] is invariant under [m], whether it
      succeeds or fails, and a returned value satisfies [Q];
    - [never_fails m]: [m] never fails;
    - [clean P R m]: started in [P], a failing run of [m] stays within the
      preorder [R]. *)

Section judgements.
Context {S : Type}.

Definition keeps {A} (I : S -> Prop) (m : Exec S A) (Q : A -> Prop) : Prop :=
  forall s, I s -> I (m s).2 /\ forall a, (m s).1 = Some a -> Q a.

Definition never_fails {A} (m : Exec S A) : Prop := forall s, exists a, (m s).1 = Some a.

Definition clean {A} (P : S -> Prop) (R : S -> S -> Prop) (m : Exec S A) : Prop :=
  forall s, P s -> (m s).1 = None -> R s (m s).2.

Lemma keeps_ret {A} I (a : A) (Q : A -> Prop) : Q a -> keeps I (mret a) Q.
Proof. intros HQ s Hs. split; [done|]. by intros ? [= <-]. Qed.

Lemma keeps_bind {A B} I (m : Exec S A) (f : A -> Exec S B) Q Q' :
  keeps I m Q -> (forall a, Q a -> keeps I (f a) Q') -> keeps I (exec_bind m f) Q'.
Proof.
  intros Hm Hf s Hs. unfold exec_bind. specialize (Hm s Hs).
  destruct (m s) as [[a|] s'] eqn:E; simpl in *.
  - destruct Hm as [HI HQ]. apply Hf; auto.
  - destruct Hm as [HI _]. split; [done|]. by intros ? [=].
Qed.

Lemma keeps_fail {A} I (Q : A -> Prop) : keeps I exec_fail Q.
Proof. intros s Hs. split; [done|]. by intros ? [=]. Qed.

Lemma keeps_get I : keeps I exec_get I.
Proof. intros s Hs. split; [done|]. by intros ? [= <-]. Qed.

Lemma keeps_modify I f : (forall s, I s -> I (f s)) -> keeps I (exec_modify f) (fun _ => True).
Proof. intros Hf s Hs. split; [by apply Hf|done]. Qed.

Lemma keeps_guard I b : keeps I (exec_guard b) (fun _ => b = true).
Proof. destruct b; [by apply keeps_ret|apply keeps_fail]. Qed.

Lemma keeps_of_option {A} I (o : option A) (Q : A -> Prop) :
  (forall a, o = Some a -> Q a) -> keeps I (exec_of_option o) Q.
Proof. intros Ho s Hs. split; [done|]. exact Ho. Qed.

Lemma keeps_try {A} I (m : Exec S A) Q :
  keeps I m Q -> keeps I (exec_try m) (fun o => forall a, o = Some a -> Q a).
Proof.
  intros Hm s Hs. specialize (Hm s Hs). unfold exec_try.
  destruct (m s) as [r s']. simpl in *. destruct Hm. split; [done|]. by intros ? [= <-].
Qed.

Lemma keeps_mono {A} I (m : Exec S A) (Q Q' : A -> Prop) :
  keeps I m Q -> (forall a, Q a -> Q' a) -> keeps I m Q'.
Proof. intros Hm HQ s Hs. destruct (Hm s Hs). eauto. Qed.

Lemma keeps_if {A} I (b : bool) (m1 m2 : Exec S A) Q :
  (b = true -> keeps I m1 Q) -> (b = false -> keeps I m2 Q) -> keeps I (if b then m1 else m2) Q.
Proof. destruct b; auto. Qed.

Lemma keeps_absurd {A} I (m : Exec S A) Q (P : Prop) : P -> (P -> False) -> keeps I m Q.
Proof. tauto. Qed.

Lemma total_ret {A} (a : A) : never_fails (mret a : Exec S A).
Proof. intros s. by exists a. Qed.

Lemma total_get : never_fails (exec_get : Exec S S).
Proof. intros s. by exists s. Qed.

Lemma total_modify f : never_fails (exec_modify f : Exec S unit).
Proof. intros s. by exists tt. Qed.

Lemma total_bind {A B} (m : Exec S A) (f : A -> Exec S B) :
  never_fails m -> (forall a, never_fails (f a)) -> never_fails (exec_bind m f).
Proof.
  intros Hm Hf s. unfold exec_bind. destruct (Hm s) as [a Ha].
  destruct (m s) as [r s']. simpl in Ha. subst r. apply Hf.
Qed.

Lemma total_if {A} (b : bool) (m1 m2 : Exec S A) :
  never_fails m1 -> never_fails m2 -> never_fails (if b then m1 else m2).
Proof. by destruct b. Qed.

Context (P : S -> Prop) (R : S -> S -> Prop) `{!PreOrder R}.

Lemma clean_total {A} (m : Exec S A) : never_fails m -> clean P R m.
Proof. intros Hm s _ Hs. destruct (Hm s) as [a Ha]. congruence. Qed.

Lemma clean_fail {A} : clean P R (exec_fail : Exec S A).
Proof. by intros s _ _. Qed.

Lemma clean_of_option {A} (o : option A) : clean P R (exec_of_option o : Exec S A).
Proof. by intros s _ _. Qed.

Lemma clean_if {A} (b : bool) (m1 m2 : Exec S A) :
  clean P R m1 -> clean P R m2 -> clean P R (if b then m1 else m2).
Proof. by destruct b. Qed.

(** A computation that stays in [P] and [R] whether it fails or not, with a
    result in [Q]. *)
Definition stays {A} (m : Exec S A) (Q : A -> Prop) : Prop :=
  forall s0, P s0 -> keeps (fun s => P s /\ R s0 s) m Q.

Lemma stays_clean {A} (m : Exec S A) Q : stays m Q -> clean P R m.
Proof. intros Hm s Hs _. by destruct (Hm s Hs s (conj Hs (reflexivity s))) as [[_ ?] _]. Qed.

(** It may precede anything that is clean. *)
Lemma clean_bind {A B} (m : Exec S A) (f : A -> Exec S B) Q :
  stays m Q -> (forall a, Q a -> clean P R (f a)) -> clean P R (exec_bind m f).
Proof.
  intros Hm Hf s Hs. unfold exec_bind.
  destruct (Hm s Hs s (conj Hs (reflexivity s))) as [[HP HR] HQ].
  destruct (m s) as [[a|] s']; simpl in *; [|done].
  intros E. etrans; [exact HR|]. apply Hf; auto.
Qed.

Lemma clean_bind_total {A B} (m : Exec S A) (f : A -> Exec S B) :
  clean P R m -> (forall a, never_fails (f a)) -> clean P R (exec_bind m f).
Proof.
  intros Hm Hf s Hs. unfold exec_bind. specialize (Hm s Hs).
  destruct (m s) as [[a|] s']; simpl in *; [|by auto].
  intros E. destruct (Hf a s') as [b Hb]. congruence.
Qed.
End judgements.

Create HintDb exec.
#[export] Hint Resolve keeps_ret keeps_fail keeps_get total_ret total_get total_modify
  clean_fail clean_of_option : exec.

(** ** Generic facts about lists used as arrays *)

(** [l[i]] for an index the code has checked; [0] outside the array. *)
Definition arr_get (l : list Z) (i : Z) : Z := nth (Z.to_nat i) l 0.
Definition arr_set (l : list Z) (i v : Z) : list Z := <[Z.to_nat i := v]> l.

Lemma arr_get_Forall (P : Z -> Prop) l i : P 0 -> Forall P l -> P (arr_get l i).
Proof.
  intros H0 Hl. unfold arr_get. revert i. rewrite Forall_forall in Hl. intros i.
  destruct (nth_in_or_default (Z.to_nat i) l 0) as [Hin| ->]; [|done].
  by apply Hl.
Qed.

Lemma arr_set_Forall (P : Z -> Prop) l i v : P v -> Forall P l -> Forall P (arr_set l i v).
Proof. intros Hv Hl. by apply Forall_insert. Qed.

Lemma length_arr_set l i v : length (arr_set l i v) = length l.
Proof. apply length_insert. Qed.

Lemma arr_get_set l i v : 0 <= i < Z.of_nat (length l) -> arr_get (arr_set l i v) i = v.
Proof.
  intros Hi. unfold arr_get, arr_set. rewrite nth_lookup, list_lookup_insert_eq by lia. done.
Qed.

Lemma arr_get_set_ne l i j v :
  0 <= i -> 0 <= j -> i <> j -> arr_get (arr_set l i v) j = arr_get l j.
Proof.
  intros Hi Hj Hij. unfold arr_get, arr_set.
  rewrite !nth_lookup, list_lookup_insert_ne by lia. done.
Qed.

Arguments arr_get : simpl never.
Arguments arr_set : simpl never.
