(* ===== verification/Ram.v ===== *)
(** Guest physical memory: src/ram.c, include/ram.h.

    [RAM] is the byte array with its size.  Reads and writes have two paths in
    the code: a single host load or store when the access is naturally aligned
    and of width 1, 2, 4 or 8 (a little-endian host, as the VM's supported
    targets are), and a loop over the bytes under the striped locks otherwise.
    Both are modelled and shown equal.  The spin locks themselves bracket one
    call and do not change the data.  A [RAM *] is the array it points to; its
    NULL tests have no counterpart. *)

From S2P Require Import Prelude.
From stdpp Require Import base list numbers gmap option.
From Stdlib Require Import ZArith Lia Bool.

#[local] Open Scope Z_scope.

(** [data] holds the bytes that were written; a byte that never was is the 0
    of the zeroed allocation. *)
Record RAM := mkRAM { ram_data : gmap Z Z; ram_size : Z }.

Definition ram_byte (r : RAM) (a : Z) : Z := default 0 (ram_data r !! a).
Definition ram_set_byte (r : RAM) (a v : Z) : RAM :=
  mkRAM (<[a := v]> (ram_data r)) (ram_size r).

(** [start <= size && width <= size - start] on 64-bit operands. *)
Definition ram_contains (r : RAM) (address width : Z) : bool :=
  (address <=? SIZE_MAX) && (address <=? ram_size r) && (width <=? ram_size r - address).

Definition ram_range_valid (r : RAM) (address width : Z) : bool :=
  negb (width =? 0) && negb (8 <? width) && ram_contains r address width.

Definition RAM_LOCK_GRANULARITY : Z := 64.
Definition RAM_LOCK_STRIPE_COUNT : Z := 256.

Definition lock_index (address : Z) : Z :=
  (address / RAM_LOCK_GRANULARITY) mod RAM_LOCK_STRIPE_COUNT.

(** The stripes [lock_range] takes, in the order it takes them. *)
Definition lock_range (address width : Z) : list Z :=
  let start_lock := lock_index address in
  let end_lock := lock_index (wrap64 (address + width - 1)) in
  let first := if start_lock <? end_lock then start_lock else end_lock in
  let second := if start_lock <? end_lock then end_lock else start_lock in
  if second =? first then [first] else [first; second].

Definition naturally_aligned (address width : Z) : bool :=
  Z.land address (wrap64 (width - 1)) =? 0.

(** The [switch (width)] of the aligned path. *)
Definition host_width (width : Z) : bool :=
  (width =? 1) || (width =? 2) || (width =? 4) || (width =? 8).

Definition ram_bytes (r : RAM) (address width : Z) : list Z :=
  ram_byte r <$> seqZ address width.

(** [__atomic_load_n] and [__atomic_store_n] of a [width]-byte integer. *)
Definition atomic_load_n (r : RAM) (address width : Z) : Z :=
  bytes_to_int (ram_bytes r address width).

Fixpoint store_bytes (r : RAM) (address : Z) (bytes : list Z) : RAM :=
  match bytes with
  | [] => r
  | b :: rest => store_bytes (ram_set_byte r address b) (address + 1) rest
  end.

Definition atomic_store_n (r : RAM) (address width value : Z) : RAM :=
  store_bytes r address (int_to_bytes width (value mod 2 ^ (8 * width))).

(** The byte loops of [ram_read] and [ram_write]. *)
Definition read_byte_loop (r : RAM) (address width : Z) : Z :=
  or_bytes 0 0 (ram_bytes r address width).

Fixpoint write_byte_loop (n : nat) (r : RAM) (address i value : Z) : RAM :=
  match n with
  | O => r
  | S n => write_byte_loop n (ram_set_byte r (address + i) (byte_at value i))
             address (i + 1) value
  end.

Definition ram_read (r : RAM) (address width : Z) : option Z :=
  if negb (ram_range_valid r address width) then None
  else if naturally_aligned address width && host_width width
  then Some (atomic_load_n r address width)
  else Some (read_byte_loop r address width).

Definition ram_write (r : RAM) (address width value : Z) : option RAM :=
  if negb (ram_range_valid r address width) then None
  else if naturally_aligned address width && host_width width
  then Some (atomic_store_n r address width value)
  else Some (write_byte_loop (Z.to_nat width) r address 0 value).

(** ** Block transfers *)

Definition block_chunk_width (address remaining : Z) : Z :=
  if (8 <=? remaining) && (Z.land address 7 =? 0) then 8
  else if (4 <=? remaining) && (Z.land address 3 =? 0) then 4
  else if (2 <=? remaining) && (Z.land address 1 =? 0) then 2
  else 1.

(** [while (copied < size)]: every pass copies at least one byte, so [size]
    passes of fuel are enough. *)
Fixpoint read_block_loop (fuel : nat) (r : RAM) (address size copied : Z) : option (list Z) :=
  if negb (copied <? size) then Some []
  else match fuel with
  | O => None
  | S fuel =>
      let cursor := wrap64 (address + copied) in
      let width := block_chunk_width cursor (size - copied) in
      match ram_read r cursor width with
      | None => None
      | Some value =>
          match read_block_loop fuel r address size (copied + width) with
          | None => None
          | Some rest => Some (int_to_bytes width value ++ rest)
          end
      end
  end.

Definition ram_read_block (r : RAM) (address size : Z) : option (list Z) :=
  if negb (ram_contains r address size) then None
  else read_block_loop (Z.to_nat size) r address size 0.

Fixpoint write_block_loop (fuel : nat) (r : RAM) (address : Z) (source : list Z)
    (size copied : Z) : option RAM :=
  if negb (copied <? size) then Some r
  else match fuel with
  | O => None
  | S fuel =>
      let cursor := wrap64 (address + copied) in
      let width := block_chunk_width cursor (size - copied) in
      let value := or_bytes 0 0 (take (Z.to_nat width) (drop (Z.to_nat copied) source)) in
      match ram_write r cursor width value with
      | None => None
      | Some r' => write_block_loop fuel r' address source size (copied + width)
      end
  end.

Definition ram_write_block (r : RAM) (address : Z) (buffer : list Z) : option RAM :=
  let size := Z.of_nat (length buffer) in
  if negb (ram_contains r address size) then None
  else write_block_loop (Z.to_nat size) r address buffer size 0.

(** ** Atomic read-modify-write *)

Definition atomic64_address_valid (r : RAM) (address : Z) : bool :=
  naturally_aligned address 8 && ram_range_valid r address 8.

(** Returns the new [*expected] and the memory. *)
Definition ram_compare_exchange64 (r : RAM) (address expected desired : Z) : option (Z * RAM) :=
  if negb (atomic64_address_valid r address) then None
  else
    let current := atomic_load_n r address 8 in
    if current =? expected then Some (expected, atomic_store_n r address 8 desired)
    else Some (current, r).

Definition ram_exchange64 (r : RAM) (address value : Z) : option (Z * RAM) :=
  if negb (atomic64_address_valid r address) then None
  else Some (atomic_load_n r address 8, atomic_store_n r address 8 value).

Definition ram_fetch_add64 (r : RAM) (address value : Z) : option (Z * RAM) :=
  if negb (atomic64_address_valid r address) then None
  else
    let current := atomic_load_n r address 8 in
    Some (current, atomic_store_n r address 8 (wrap64 (current + value))).

(** The portable [#else] bodies of the three operations, under one stripe. *)
Definition ram_compare_exchange64_portable (r : RAM) (address expected desired : Z) :
    option (Z * RAM) :=
  if negb (atomic64_address_valid r address) then None
  else
    let current := read_byte_loop r address 8 in
    if current =? expected
    then Some (expected, write_byte_loop 8 r address 0 desired)
    else Some (current, r).

Definition ram_exchange64_portable (r : RAM) (address value : Z) : option (Z * RAM) :=
  if negb (atomic64_address_valid r address) then None
  else Some (read_byte_loop r address 8, write_byte_loop 8 r address 0 value).

Definition ram_fetch_add64_portable (r : RAM) (address value : Z) : option (Z * RAM) :=
  if negb (atomic64_address_valid r address) then None
  else
    let current := read_byte_loop r address 8 in
    Some (current, write_byte_loop 8 r address 0 (wrap64 (current + value))).

Arguments ram_contains : simpl never.
Arguments ram_range_valid : simpl never.
Arguments ram_read : simpl never.
Arguments ram_write : simpl never.
Arguments naturally_aligned : simpl never.

(** ** Well-formed memories *)

Definition ram_wf (r : RAM) : Prop :=
  is_u64 (ram_size r) /\ map_Forall (fun _ b => is_u8 b) (ram_data r).

Lemma ram_byte_u8 r a : ram_wf r -> is_u8 (ram_byte r a).
Proof.
  intros [_ Hd]. unfold ram_byte. destruct (ram_data r !! a) as [b|] eqn:E; simpl; [|zlia].
  exact (Hd a b E).
Qed.

Lemma ram_bytes_u8 r a w : ram_wf r -> Forall is_u8 (ram_bytes r a w).
Proof. intros Hr. apply Forall_fmap, Forall_true. intros b. by apply ram_byte_u8. Qed.

Lemma length_ram_bytes r a w : length (ram_bytes r a w) = Z.to_nat w.
Proof. unfold ram_bytes. by rewrite length_fmap, length_seqZ. Qed.

Lemma ram_contains_true r a w :
  ram_wf r -> ram_contains r a w = true <-> a + w <= ram_size r /\ a <= ram_size r.
Proof. intros [Hs _]. unfold ram_contains. rewrite !andb_true_iff, !Z.leb_le. zlia. Qed.

Lemma ram_range_valid_true r a w :
  0 <= w -> ram_wf r -> ram_range_valid r a w = true <-> 1 <= w <= 8 /\ a + w <= ram_size r.
Proof.
  intros Hw Hr. unfold ram_range_valid.
  rewrite !andb_true_iff, ram_contains_true, !negb_true_iff, Z.eqb_neq, Z.ltb_ge by done. lia.
Qed.

Lemma ram_range_valid_intro r a w :
  ram_wf r -> 1 <= w <= 8 -> a + w <= ram_size r -> ram_range_valid r a w = true.
Proof. intros Hr Hw Ha. apply ram_range_valid_true; (done || lia). Qed.

(** ** The byte loops and the host accesses agree *)

Lemma store_bytes_size r a l : ram_size (store_bytes r a l) = ram_size r.
Proof. revert r a. induction l as [|b l IH]; intros r a; simpl; [done|by rewrite IH]. Qed.

Lemma store_bytes_wf r a l : ram_wf r -> Forall is_u8 l -> ram_wf (store_bytes r a l).
Proof.
  intros Hr Hl. revert r a Hr. induction Hl as [|b l Hb Hl IH]; intros r a Hr; [done|].
  apply IH. destruct Hr as [Hs Hd]. split; [done|]. by apply map_Forall_insert_2.
Qed.

Lemma ram_byte_set r a v b :
  ram_byte (ram_set_byte r a v) b = if b =? a then v else ram_byte r b.
Proof.
  unfold ram_byte, ram_set_byte. simpl. rewrite lookup_insert.
  destruct (Z.eqb_spec b a); case_decide; by subst.
Qed.

Lemma store_bytes_byte r a l b :
  ram_byte (store_bytes r a l) b =
    if a <=? b then default (ram_byte r b) (l !! Z.to_nat (b - a)) else ram_byte r b.
Proof.
  revert r a. induction l as [|x l IH]; intros r a; simpl; [by destruct (a <=? b)|].
  rewrite IH, ram_byte_set.
  destruct (Z.eqb_spec b a) as [->|Hne].
  - rewrite (proj2 (Z.leb_gt (a + 1) a)), Z.leb_refl, Z.sub_diag by lia. done.
  - destruct (Z.leb_spec a b), (Z.leb_spec (a + 1) b); [|lia..|done].
    replace (Z.to_nat (b - a)) with (S (Z.to_nat (b - (a + 1)))) by lia. done.
Qed.

Lemma write_byte_loop_store n r a i v :
  write_byte_loop n r a i v = store_bytes r (a + i) (byte_at v <$> seqZ i (Z.of_nat n)).
Proof.
  revert r i. induction n as [|n IH]; intros r i; [done|].
  rewrite Nat2Z.inj_succ, seqZ_cons, fmap_cons by lia. cbn [write_byte_loop store_bytes].
  rewrite IH. f_equal; [lia|]. do 2 f_equal; lia.
Qed.

Lemma byte_at_mod v w i : 0 <= i < w -> byte_at (v mod 2 ^ (8 * w)) i = byte_at v i.
Proof.
  intros Hi. unfold byte_at, wrap8. change 0x100 with (2 ^ 8).
  apply Z.bits_inj'. intros k Hk. destruct (Z.lt_ge_cases k 8).
  - rewrite !Z.mod_pow2_bits_low, !Z.shiftr_spec by lia.
    rewrite Z.mod_pow2_bits_low by lia. done.
  - by rewrite !Z.mod_pow2_bits_high by lia.
Qed.

Lemma int_to_bytes_mod v w : int_to_bytes w (v mod 2 ^ (8 * w)) = int_to_bytes w v.
Proof.
  unfold int_to_bytes. apply list_fmap_ext. intros k i Hi%lookup_seqZ.
  apply byte_at_mod. lia.
Qed.

Lemma write_loop_atomic_store r a w v :
  0 <= w -> write_byte_loop (Z.to_nat w) r a 0 v = atomic_store_n r a w v.
Proof.
  intros Hw. unfold atomic_store_n. rewrite int_to_bytes_mod, write_byte_loop_store.
  by rewrite Z2Nat.id, Z.add_0_r by done.
Qed.

Lemma read_loop_atomic_load r a w :
  ram_wf r -> w <= 8 -> read_byte_loop r a w = atomic_load_n r a w.
Proof.
  intros Hr Hw. apply or_bytes_correct; [by apply ram_bytes_u8|].
  rewrite length_ram_bytes. lia.
Qed.

(** ** Reads and writes *)

Lemma ram_read_spec r a w :
  ram_wf r -> 0 <= w ->
  ram_read r a w = if ram_range_valid r a w then Some (atomic_load_n r a w) else None.
Proof.
  intros Hr Hw. unfold ram_read. destruct (ram_range_valid r a w) eqn:E; simpl; [|done].
  apply ram_range_valid_true in E; [|done..].
  destruct (naturally_aligned a w && host_width w); [done|].
  rewrite read_loop_atomic_load by (done || lia). done.
Qed.

Lemma ram_write_spec r a w v :
  0 <= w ->
  ram_write r a w v =
    if ram_range_valid r a w then Some (store_bytes r a (int_to_bytes w v)) else None.
Proof.
  intros Hw. unfold ram_write. destruct (ram_range_valid r a w) eqn:E; simpl; [|done].
  rewrite write_loop_atomic_store by done. unfold atomic_store_n.
  rewrite int_to_bytes_mod. by destruct (naturally_aligned a w && host_width w).
Qed.

Lemma atomic_load_u64 r a w : ram_wf r -> w <= 8 -> is_u64 (atomic_load_n r a w).
Proof.
  intros Hr Hw. apply bytes_to_int_u64; [by apply ram_bytes_u8|].
  rewrite length_ram_bytes. lia.
Qed.

Lemma ram_read_u64 r a w v : ram_wf r -> 0 <= w -> ram_read r a w = Some v -> is_u64 v.
Proof.
  intros Hr Hw. rewrite ram_read_spec by done.
  destruct (ram_range_valid r a w) eqn:E; [|done]. intros [= <-].
  apply ram_range_valid_true in E; [|done..]. apply atomic_load_u64; [done|lia].
Qed.

Lemma ram_write_wf r a w v r' :
  ram_wf r -> 0 <= w -> ram_write r a w v = Some r' -> ram_wf r' /\ ram_size r' = ram_size r.
Proof.
  intros Hr Hw. rewrite ram_write_spec by done. destruct (ram_range_valid r a w); [|done].
  intros [= <-]. split; [|apply store_bytes_size].
  apply store_bytes_wf; [done|]. apply int_to_bytes_u8.
Qed.

Lemma ram_bytes_store_same r a l :
  ram_bytes (store_bytes r a l) a (Z.of_nat (length l)) = l.
Proof.
  apply list_eq. intros i. unfold ram_bytes. rewrite list_lookup_fmap.
  destruct (seqZ a (Z.of_nat (length l)) !! i) as [b|] eqn:E; simpl.
  - apply lookup_seqZ in E as [-> Hi]. rewrite store_bytes_byte.
    rewrite (proj2 (Z.leb_le _ _)) by lia. replace (Z.to_nat _) with i by lia.
    destruct (lookup_lt_is_Some_2 l i) as [x Hx]; [lia|]. by rewrite Hx.
  - apply lookup_ge_None in E. rewrite length_seqZ in E.
    symmetry. apply lookup_ge_None. lia.
Qed.

Lemma ram_bytes_store_disjoint r a l b w :
  b + w <= a \/ a + Z.of_nat (length l) <= b ->
  ram_bytes (store_bytes r a l) b w = ram_bytes r b w.
Proof.
  intros Hd. unfold ram_bytes. apply list_fmap_ext. intros i x Hx%lookup_seqZ.
  rewrite store_bytes_byte. destruct (Z.leb_spec a x); [|done].
  rewrite lookup_ge_None_2 by lia. done.
Qed.

Lemma atomic_load_store_same r a w v :
  0 <= w -> atomic_load_n (store_bytes r a (int_to_bytes w v)) a w = v mod 2 ^ (8 * w).
Proof.
  intros Hw. unfold atomic_load_n.
  assert (w = Z.of_nat (length (int_to_bytes w v))) as Hlen.
  { rewrite length_int_to_bytes. lia. }
  rewrite Hlen at 2. rewrite ram_bytes_store_same.
  rewrite <-(Z2Nat.id w) at 1 by done. rewrite bytes_to_int_to_bytes, Z2Nat.id by done.
  by rewrite Z.pow_mul_r by lia.
Qed.

Lemma ram_bytes_app r a n m :
  0 <= n -> 0 <= m -> ram_bytes r a (n + m) = ram_bytes r a n ++ ram_bytes r (a + n) m.
Proof. intros Hn Hm. unfold ram_bytes. by rewrite seqZ_app, fmap_app by done. Qed.

Lemma store_bytes_app r a l1 l2 :
  store_bytes r a (l1 ++ l2) =
  store_bytes (store_bytes r a l1) (a + Z.of_nat (length l1)) l2.
Proof.
  revert r a. induction l1 as [|b l1 IH]; intros r a; simpl.
  - by rewrite Z.add_0_r.
  - rewrite IH. f_equal. lia.
Qed.

Lemma int_to_bytes_load r a w :
  ram_wf r -> 0 <= w -> int_to_bytes w (atomic_load_n r a w) = ram_bytes r a w.
Proof.
  intros Hr Hw. pose proof (int_to_bytes_to_int (ram_bytes r a w)) as H.
  rewrite length_ram_bytes, Z2Nat.id in H by done. by apply H, ram_bytes_u8.
Qed.

(** ** Block transfers *)

Lemma block_chunk_width_bound a n :
  1 <= n -> 1 <= block_chunk_width a n <= 8 /\ block_chunk_width a n <= n.
Proof.
  intros Hn. unfold block_chunk_width.
  repeat match goal with
  | |- context [if ?k <=? n then _ else _] => destruct (Z.leb_spec k n); simpl
  | |- context [(?k <=? n) && ?b] => destruct (Z.leb_spec k n); simpl; [destruct b|]
  end; lia.
Qed.

Lemma read_block_loop_correct fuel r a size copied :
  ram_wf r -> 0 <= a -> a + size <= ram_size r -> 0 <= copied <= size ->
  size - copied <= Z.of_nat fuel ->
  read_block_loop fuel r a size copied = Some (ram_bytes r (a + copied) (size - copied)).
Proof.
  intros Hr Ha Hsz. revert copied. induction fuel as [|fuel IH]; intros copied Hc Hf; cbn.
  - rewrite (proj2 (Z.ltb_ge _ _)) by lia. by replace (size - copied) with 0 by lia.
  - destruct (Z.ltb_spec copied size) as [Hlt|Hge]; cbn;
      [|by replace (size - copied) with 0 by lia].
    assert (wrap64 (a + copied) = a + copied) as ->.
    { apply wrap64_id. destruct Hr as [Hs _]. zlia. }
    destruct (block_chunk_width_bound (a + copied) (size - copied)) as [Hw1 Hw2]; [lia|].
    set (w := block_chunk_width _ _) in *.
    rewrite ram_read_spec, ram_range_valid_intro by (done || lia).
    rewrite IH, int_to_bytes_load by (done || lia).
    replace (size - copied) with (w + (size - (copied + w))) by lia.
    rewrite ram_bytes_app by lia. by rewrite Z.add_assoc.
Qed.

Lemma write_block_loop_correct fuel r a l copied :
  ram_wf r -> Forall is_u8 l -> 0 <= a -> a + Z.of_nat (length l) <= ram_size r ->
  0 <= copied <= Z.of_nat (length l) -> Z.of_nat (length l) - copied <= Z.of_nat fuel ->
  write_block_loop fuel r a l (Z.of_nat (length l)) copied =
    Some (store_bytes r (a + copied) (drop (Z.to_nat copied) l)).
Proof.
  intros Hr Hl Ha. revert r copied Hr.
  induction fuel as [|fuel IH]; intros r copied Hr Hsz Hc Hf; cbn.
  - rewrite (proj2 (Z.ltb_ge _ _)), drop_ge by lia. done.
  - destruct (Z.ltb_spec copied (Z.of_nat (length l))) as [Hlt|Hge]; cbn;
      [|rewrite drop_ge by lia; done].
    assert (wrap64 (a + copied) = a + copied) as ->.
    { apply wrap64_id. destruct Hr as [Hs _]. zlia. }
    destruct (block_chunk_width_bound (a + copied) (Z.of_nat (length l) - copied))
      as [Hw1 Hw2]; [lia|].
    set (w := block_chunk_width _ _) in *.
    set (chunk := take (Z.to_nat w) (drop (Z.to_nat copied) l)).
    assert (length chunk = Z.to_nat w) as Hlen.
    { unfold chunk. rewrite length_take, length_drop. lia. }
    assert (Forall is_u8 chunk) as Hchunk by by apply Forall_take, Forall_drop.
    rewrite ram_write_spec, ram_range_valid_intro by (done || lia).
    rewrite or_bytes_correct by (done || lia).
    assert (int_to_bytes w (bytes_to_int chunk) = chunk) as ->.
    { rewrite <-(int_to_bytes_to_int chunk) at 2 by done. f_equal. lia. }
    rewrite IH; [|by apply store_bytes_wf|rewrite store_bytes_size; lia|lia..].
    rewrite <-(take_drop (Z.to_nat w) (drop (Z.to_nat copied) l)) at 1.
    rewrite store_bytes_app, drop_drop. fold chunk. rewrite Hlen.
    do 2 f_equal; [lia|]. f_equal. lia.
Qed.

(** A block read returns the bytes, or fails outside the memory. *)
Lemma ram_read_block_spec r a n :
  ram_wf r -> 0 <= a -> 0 <= n ->
  ram_read_block r a n = if ram_contains r a n then Some (ram_bytes r a n) else None.
Proof.
  intros Hr Ha Hn. unfold ram_read_block. destruct (ram_contains r a n) eqn:E; [|done]. cbn [negb].
  apply ram_contains_true in E; [|done]. rewrite read_block_loop_correct by (done || lia). by rewrite Z.add_0_r, Z.sub_0_r.
Qed.

(** * Properties *)

(** A small memory for the witnesses: sixteen bytes 1, 2, ..., 16. *)
Definition demo_ram : RAM := store_bytes (mkRAM ∅ 16) 0 (seqZ 1 16).

Lemma demo_ram_wf : ram_wf demo_ram.
Proof.
  split; [by vm_compute|]. apply store_bytes_wf; [split; [by vm_compute|by intros ? ? ?]|].
  repeat constructor; zlia.
Qed.

(** A successful write followed by a read of the same range, at any
    alignment and any width the code accepts, returns the low bytes of the
    written value. *)
Theorem ram_write_read_roundtrip r a w v r' :
  ram_wf r -> 0 <= w -> ram_write r a w v = Some r' ->
  ram_read r' a w = Some (v mod 2 ^ (8 * w)).
Proof.
  intros Hr Hw H. destruct (ram_write_wf _ _ _ _ _ Hr Hw H) as [Hr' Hs].
  rewrite ram_write_spec in H by done. rewrite ram_read_spec by done.
  destruct (ram_range_valid r a w) eqn:E; [|done]. injection H as <-.
  apply ram_range_valid_true in E; [|done..].
  rewrite ram_range_valid_intro by (done || lia). by rewrite atomic_load_store_same.
Qed.

Lemma ram_write_read_roundtrip_witness :
  exists r', ram_write demo_ram 5 3 0x11223344 = Some r' /\ ram_read r' 5 3 = Some 0x223344.
Proof.
  destruct (ram_write demo_ram 5 3 0x11223344) as [r'|] eqn:E; [|by vm_compute in E].
  exists r'. split; [done|].
  apply (ram_write_read_roundtrip demo_ram 5 3 0x11223344 r' demo_ram_wf ltac:(lia) E).
Defined.

(** A write changes exactly the bytes of its range: byte [b] of the new
    memory is the corresponding byte of the value inside the range and the old
    byte outside; it fails exactly when the range is empty, wider than 8 or
    leaves the memory. *)
Theorem ram_write_bytes_exact r a w v :
  ram_wf r -> 0 <= a -> 0 <= w ->
  match ram_write r a w v with
  | Some r' => 1 <= w <= 8 /\ a + w <= ram_size r /\ ram_size r' = ram_size r /\
      forall b, ram_byte r' b =
        if (a <=? b) && (b <? a + w) then byte_at v (b - a) else ram_byte r b
  | None => w = 0 \/ 8 < w \/ ram_size r < a + w
  end.
Proof.
  intros Hr Ha Hw. rewrite ram_write_spec by done.
  destruct (ram_range_valid r a w) eqn:E.
  - apply ram_range_valid_true in E as [E1 E2]; [|done..].
    split_and!; [lia..|apply store_bytes_size|]. intros b. rewrite store_bytes_byte.
    destruct (Z.leb_spec a b), (Z.ltb_spec b (a + w)); simpl; try done.
    + unfold int_to_bytes. rewrite list_lookup_fmap, lookup_seqZ_lt by lia. simpl.
      f_equal. lia.
    + rewrite lookup_ge_None_2; [done|]. rewrite length_int_to_bytes. lia.
  - assert (~ (1 <= w <= 8 /\ a + w <= ram_size r)); [|lia].
    intros Hc. apply ram_range_valid_true in Hc; [|done..]. congruence.
Qed.

Lemma ram_write_bytes_exact_witness :
  ram_wf demo_ram /\
  (forall r', ram_write demo_ram 15 2 7 = Some r' -> False) /\
  (15 + 2 > ram_size demo_ram).
Proof.
  pose proof (ram_write_bytes_exact demo_ram 15 2 7 demo_ram_wf ltac:(lia) ltac:(lia)) as H.
  split; [exact demo_ram_wf|]. change (ram_size demo_ram) with 16 in *. split; [|lia].
  intros r' E. rewrite E in H. lia.
Defined.

(** C31: the aligned host load and the byte loop of [ram_read] return the same
    value, and the aligned host store and the byte loop of [ram_write] leave
    the same memory, so the path an access takes is not observable; the same
    holds of the three 64-bit atomics and their portable bodies. *)
Theorem ram_paths_agree r a :
  ram_wf r ->
  (forall w, 0 <= w <= 8 -> atomic_load_n r a w = read_byte_loop r a w) /\
  (forall w v, 0 <= w -> atomic_store_n r a w v = write_byte_loop (Z.to_nat w) r a 0 v) /\
  (forall e d, ram_compare_exchange64 r a e d = ram_compare_exchange64_portable r a e d) /\
  (forall v, ram_exchange64 r a v = ram_exchange64_portable r a v) /\
  (forall v, ram_fetch_add64 r a v = ram_fetch_add64_portable r a v).
Proof.
  intros Hr. assert (read_byte_loop r a 8 = atomic_load_n r a 8) as Hl
    by (apply read_loop_atomic_load; [done|lia]).
  assert (forall v, write_byte_loop 8 r a 0 v = atomic_store_n r a 8 v) as Hs
    by (intros v; by apply (write_loop_atomic_store r a 8)).
  split_and!.
  - intros w Hw. symmetry. apply read_loop_atomic_load; [done|lia].
  - intros w v Hw. by rewrite write_loop_atomic_store.
  - intros e d. unfold ram_compare_exchange64, ram_compare_exchange64_portable.
    by rewrite Hl, Hs.
  - intros v. unfold ram_exchange64, ram_exchange64_portable. by rewrite Hl, Hs.
  - intros v. unfold ram_fetch_add64, ram_fetch_add64_portable. by rewrite Hl, Hs.
Qed.

Lemma ram_paths_agree_witness : atomic_load_n demo_ram 8 4 = read_byte_loop demo_ram 8 4.
Proof. apply (proj1 (ram_paths_agree demo_ram 8 demo_ram_wf) 4). lia. Defined.

(** The chunked block copies terminate within their bound and do what a
    byte copy does: a block write of in-range bytes succeeds, reading the block
    back returns the buffer, and every byte outside the block is unchanged. *)
Theorem ram_block_roundtrip r a buffer :
  ram_wf r -> Forall is_u8 buffer -> 0 <= a ->
  a + Z.of_nat (length buffer) <= ram_size r ->
  exists r', ram_write_block r a buffer = Some r' /\
    ram_wf r' /\ ram_size r' = ram_size r /\
    ram_read_block r' a (Z.of_nat (length buffer)) = Some buffer /\
    (forall b, b < a \/ a + Z.of_nat (length buffer) <= b -> ram_byte r' b = ram_byte r b).
Proof.
  intros Hr Hl Ha Hsz. exists (store_bytes r a buffer).
  assert (ram_wf (store_bytes r a buffer)) as Hr' by by apply store_bytes_wf.
  split_and!; [|done|apply store_bytes_size| |].
  - unfold ram_write_block. rewrite (proj2 (ram_contains_true r _ _ Hr)) by lia. cbn.
    rewrite write_block_loop_correct by (done || lia). by rewrite Z.add_0_r.
  - unfold ram_read_block.
    rewrite (proj2 (ram_contains_true _ _ _ Hr')) by (rewrite store_bytes_size; lia). cbn.
    rewrite read_block_loop_correct; [|done|done|rewrite store_bytes_size; lia|lia..].
    by rewrite Z.add_0_r, Z.sub_0_r, ram_bytes_store_same.
  - intros b Hb. rewrite store_bytes_byte. destruct (Z.leb_spec a b); [|done].
    rewrite lookup_ge_None_2 by lia. done.
Qed.

Lemma ram_block_roundtrip_witness :
  exists r', ram_write_block demo_ram 3 [9; 8; 7; 6; 5; 4; 3; 2; 1; 0; 255] = Some r' /\
    ram_read_block r' 3 11 = Some [9; 8; 7; 6; 5; 4; 3; 2; 1; 0; 255].
Proof.
  destruct (ram_block_roundtrip demo_ram 3 [9; 8; 7; 6; 5; 4; 3; 2; 1; 0; 255]
              demo_ram_wf ltac:(repeat constructor; zlia) ltac:(lia) ltac:(done))
    as (r' & H1 & _ & _ & H2 & _).
  by exists r'.
Defined.

(** [lock_range] takes one or two distinct stripes of the table, always in
    increasing order (the discipline that rules out a circular wait between two
    accesses), and they cover every byte of the access. *)
Theorem lock_range_ordered address width :
  is_u64 address -> 1 <= width <= 8 -> address + width <= UINT64_MAX ->
  (forall l, l ∈ lock_range address width -> 0 <= l < RAM_LOCK_STRIPE_COUNT) /\
  match lock_range address width with
  | [_] => True
  | [first; second] => first < second
  | _ => False
  end /\
  (forall i, 0 <= i < width -> lock_index (address + i) ∈ lock_range address width).
Proof.
  intros Ha Hw Hb. unfold lock_range, lock_index, RAM_LOCK_GRANULARITY, RAM_LOCK_STRIPE_COUNT.
  rewrite (wrap64_id (address + width - 1)) by zlia.
  set (s := address / 64 mod 256). set (e := (address + width - 1) / 64 mod 256).
  assert (0 <= s < 256 /\ 0 <= e < 256) as [Hs He] by (subst s e; zlia).
  assert (forall i, 0 <= i < width ->
    (address + i) / 64 mod 256 = s \/ (address + i) / 64 mod 256 = e) as Hmid.
  { intros i Hi. subst s e.
    assert ((address + i) / 64 = address / 64 \/ (address + i) / 64 = (address + width - 1) / 64)
      as [->| ->] by zlia; auto. }
  destruct (Z.ltb_spec s e); destruct (Z.eqb_spec e s); destruct (Z.eqb_spec s e);
    try lia; (split_and!; [intros l; rewrite !elem_of_cons, elem_of_nil; lia|lia|]);
    intros i Hi; rewrite !elem_of_cons; destruct (Hmid i Hi) as [-> | ->]; auto;
    left; lia.
Qed.

Lemma lock_range_ordered_witness :
  lock_range 16383 8 = [0; 255] /\ (forall l, l ∈ lock_range 16383 8 -> 0 <= l < 256).
Proof.
  split; [by vm_compute|].
  exact (proj1 (lock_range_ordered 16383 8 ltac:(zlia) ltac:(lia) ltac:(zlia))).
Defined.
