(* ===== verification/Mmu.v ===== *)
(** The hardware page-table walk: src/mmu.c, include/mmu.h.

    Three-level tables of 512 eight-byte entries over a 39-bit virtual address,
    with 1 GiB, 2 MiB and 4 KiB leaves.  [mmu_translate] is the code's loop;
    [translates] is the relation it implements.  The output parameter
    [*physical_address], written only on [MMU_RESULT_OK], is the [inl] of the
    result; an error code is its [inr]. *)

From S2P Require Import Prelude Ram.
From stdpp Require Import base list numbers gmap option.
From Stdlib Require Import ZArith Lia Bool.

#[local] Open Scope Z_scope.

Definition MMU_PAGE_SHIFT : Z := 12.
Definition MMU_PAGE_SIZE : Z := 0x1000.
Definition MMU_PAGE_MASK : Z := MMU_PAGE_SIZE - 1.
Definition MMU_LARGE_PAGE_SHIFT : Z := 21.
Definition MMU_GIGA_PAGE_SHIFT : Z := 30.
Definition MMU_TABLE_ENTRY_SIZE : Z := 8.
Definition MMU_VIRTUAL_ADDRESS_LIMIT : Z := 0x8000000000.

Definition MMU_PTE_VALID : Z := 0x1.
Definition MMU_PTE_READ : Z := 0x2.
Definition MMU_PTE_WRITE : Z := 0x4.
Definition MMU_PTE_EXECUTE : Z := 0x8.
Definition MMU_PTE_USER : Z := 0x10.

Definition MMU_PTE_PERMISSION_MASK : Z :=
  Z.lor (Z.lor MMU_PTE_READ MMU_PTE_WRITE) MMU_PTE_EXECUTE.
Definition MMU_PTE_ADDRESS_MASK : Z := not64 MMU_PAGE_MASK.
Definition MMU_PTE_RESERVED_LOW_MASK : Z :=
  Z.land MMU_PAGE_MASK
    (not64 (Z.lor (Z.lor MMU_PTE_VALID MMU_PTE_PERMISSION_MASK) MMU_PTE_USER)).

Inductive MmuAccess :=
  | MMU_ACCESS_READ
  | MMU_ACCESS_WRITE
  | MMU_ACCESS_EXECUTE
  | MMU_ACCESS_ATOMIC.

#[export] Instance MmuAccess_eq_dec : EqDecision MmuAccess.
Proof. solve_decision. Defined.

Inductive MmuResult :=
  | MMU_RESULT_OK
  | MMU_RESULT_INVALID_VIRTUAL_ADDRESS
  | MMU_RESULT_INVALID_ROOT
  | MMU_RESULT_NOT_PRESENT
  | MMU_RESULT_MALFORMED_ENTRY
  | MMU_RESULT_PERMISSION_DENIED.

#[export] Instance MmuResult_eq_dec : EqDecision MmuResult.
Proof. solve_decision. Defined.

Definition physical_range_valid (r : RAM) (address width : Z) : bool :=
  ram_contains r address width.

Definition mmu_root_valid (r : RAM) (root_address : Z) : bool :=
  (Z.land root_address MMU_PAGE_MASK =? 0) && physical_range_valid r root_address MMU_PAGE_SIZE.

Definition permission_granted (pte : Z) (user_mode : bool) (access : MmuAccess) : bool :=
  if user_mode && negb (has_bits pte MMU_PTE_USER) then false
  else match access with
  | MMU_ACCESS_READ => has_bits pte MMU_PTE_READ
  | MMU_ACCESS_WRITE => has_bits pte MMU_PTE_WRITE
  | MMU_ACCESS_EXECUTE => has_bits pte MMU_PTE_EXECUTE
  | MMU_ACCESS_ATOMIC =>
      Z.land pte (Z.lor MMU_PTE_READ MMU_PTE_WRITE) =? Z.lor MMU_PTE_READ MMU_PTE_WRITE
  end.

Definition entry_address (table_address virtual_address shift : Z) : Z :=
  let index := Z.land (Z.shiftr virtual_address shift) 0x1FF in
  wrap64 (table_address + index * MMU_TABLE_ENTRY_SIZE).

(** The loop of [mmu_translate] over [shifts], from [level] on. *)
Fixpoint mmu_walk (r : RAM) (user_mode : bool) (virtual_address : Z) (access : MmuAccess)
    (level : Z) (shifts : list Z) (table_address : Z) : Z + MmuResult :=
  match shifts with
  | [] => inr MMU_RESULT_MALFORMED_ENTRY
  | shift :: rest =>
      match ram_read r (entry_address table_address virtual_address shift)
              MMU_TABLE_ENTRY_SIZE with
      | None => inr MMU_RESULT_INVALID_ROOT
      | Some pte =>
          if negb (has_bits pte MMU_PTE_VALID) then inr MMU_RESULT_NOT_PRESENT
          else if has_bits pte MMU_PTE_RESERVED_LOW_MASK ||
                  (has_bits pte MMU_PTE_WRITE && negb (has_bits pte MMU_PTE_READ))
          then inr MMU_RESULT_MALFORMED_ENTRY
          else
            let permissions := Z.land pte MMU_PTE_PERMISSION_MASK in
            let next_address := Z.land pte MMU_PTE_ADDRESS_MASK in
            if permissions =? 0 then
              if (level =? 2) || has_bits pte MMU_PTE_USER ||
                 negb (mmu_root_valid r next_address)
              then inr MMU_RESULT_MALFORMED_ENTRY
              else mmu_walk r user_mode virtual_address access (level + 1) rest next_address
            else
              let leaf_size := shl64 1 shift in
              let leaf_mask := leaf_size - 1 in
              if has_bits next_address leaf_mask then inr MMU_RESULT_MALFORMED_ENTRY
              else if negb (permission_granted pte user_mode access)
              then inr MMU_RESULT_PERMISSION_DENIED
              else if (next_address <? ram_size r) &&
                      negb (physical_range_valid r next_address leaf_size)
              then inr MMU_RESULT_MALFORMED_ENTRY
              else inl (Z.lor next_address (Z.land virtual_address leaf_mask))
      end
  end.

Definition mmu_shifts : list Z :=
  [MMU_GIGA_PAGE_SHIFT; MMU_LARGE_PAGE_SHIFT; MMU_PAGE_SHIFT].

Definition mmu_translate (r : RAM) (root_address : Z) (user_mode : bool)
    (virtual_address : Z) (access : MmuAccess) : Z + MmuResult :=
  if MMU_VIRTUAL_ADDRESS_LIMIT <=? virtual_address
  then inr MMU_RESULT_INVALID_VIRTUAL_ADDRESS
  else if negb (mmu_root_valid r root_address) then inr MMU_RESULT_INVALID_ROOT
  else mmu_walk r user_mode virtual_address access 0 mmu_shifts root_address.

Arguments entry_address : simpl never.
Arguments mmu_root_valid : simpl never.
Arguments physical_range_valid : simpl never.
Arguments permission_granted : simpl never.

(** ** The specification of the walk *)

(** The entry is present, has no reserved bit and is not write-only. *)
Definition pte_wellformed (pte : Z) : bool :=
  has_bits pte MMU_PTE_VALID && negb (has_bits pte MMU_PTE_RESERVED_LOW_MASK) &&
  (negb (has_bits pte MMU_PTE_WRITE) || has_bits pte MMU_PTE_READ).

Definition pte_leaf (pte : Z) : bool := negb (Z.land pte MMU_PTE_PERMISSION_MASK =? 0).
Definition pte_address (pte : Z) : Z := Z.land pte MMU_PTE_ADDRESS_MASK.

(** [leaf_of r va shifts table pte shift]: starting at [table], following
    non-leaf entries for the address bits named by [shifts], the walk ends in
    the leaf entry [pte], which maps [2 ^ shift] bytes. *)
Inductive leaf_of (r : RAM) (va : Z) : list Z -> Z -> Z -> Z -> Prop :=
  | leaf_here shift rest table pte :
      ram_read r (entry_address table va shift) MMU_TABLE_ENTRY_SIZE = Some pte ->
      pte_wellformed pte = true -> pte_leaf pte = true ->
      leaf_of r va (shift :: rest) table pte shift
  | leaf_below shift rest table pte pte' shift' :
      rest <> [] ->
      ram_read r (entry_address table va shift) MMU_TABLE_ENTRY_SIZE = Some pte ->
      pte_wellformed pte = true -> pte_leaf pte = false ->
      has_bits pte MMU_PTE_USER = false ->
      mmu_root_valid r (pte_address pte) = true ->
      leaf_of r va rest (pte_address pte) pte' shift' ->
      leaf_of r va (shift :: rest) table pte' shift'.

(** The leaf maps an aligned block that does not straddle the end of RAM. *)
Definition leaf_placed (r : RAM) (pte shift : Z) : Prop :=
  pte_address pte mod 2 ^ shift = 0 /\
  (pte_address pte < ram_size r -> pte_address pte + 2 ^ shift <= ram_size r).

Definition translates (r : RAM) (root : Z) (user : bool) (va : Z) (access : MmuAccess)
    (pa : Z) : Prop :=
  va < MMU_VIRTUAL_ADDRESS_LIMIT /\ mmu_root_valid r root = true /\
  exists pte shift, leaf_of r va mmu_shifts root pte shift /\
    leaf_placed r pte shift /\ permission_granted pte user access = true /\
    pa = pte_address pte + va mod 2 ^ shift.

(** ** Facts about entries *)

Lemma shl64_one s : 0 <= s < 64 -> shl64 1 s = 2 ^ s.
Proof.
  intros Hs. unfold shl64. rewrite Z.shiftl_1_l. apply wrap64_id. split; [lia|].
  change 0x10000000000000000 with (2 ^ 64). apply Z.pow_lt_mono_r; lia.
Qed.

Lemma has_bits_low_mask x s : 0 <= s -> has_bits x (2 ^ s - 1) = negb (x mod 2 ^ s =? 0).
Proof. intros Hs. unfold has_bits. by rewrite land_low_mask. Qed.

Lemma lor_aligned base off s :
  0 <= s -> base mod 2 ^ s = 0 -> 0 <= off < 2 ^ s -> Z.lor base off = base + off.
Proof.
  intros Hs Hb Ho. rewrite Z.lor_comm.
  rewrite (Z.div_mod base (2 ^ s)) by lia. rewrite Hb, Z.add_0_r, Z.mul_comm.
  rewrite <-Z.shiftl_mul_pow2 by lia. rewrite lor_shiftl_add by lia.
  rewrite Z.shiftl_mul_pow2; lia.
Qed.

Lemma entry_address_page va va' s table :
  12 <= s -> va / MMU_PAGE_SIZE = va' / MMU_PAGE_SIZE ->
  entry_address table va s = entry_address table va' s.
Proof.
  intros Hs Hp. unfold entry_address. rewrite !Z.shiftr_div_pow2 by lia.
  replace (2 ^ s) with (MMU_PAGE_SIZE * 2 ^ (s - 12)).
  - rewrite <-!Z.div_div by (unfold MMU_PAGE_SIZE; lia). by rewrite Hp.
  - change MMU_PAGE_SIZE with (2 ^ 12). rewrite <-Z.pow_add_r by lia. f_equal. lia.
Qed.

Lemma pte_address_u64 pte : is_u64 (pte_address pte).
Proof.
  unfold pte_address, is_u64.
  assert (Z.land pte MMU_PTE_ADDRESS_MASK = Z.land pte MMU_PTE_ADDRESS_MASK mod 2 ^ 64) as ->;
    [|apply Z.mod_pos_bound; lia].
  rewrite <-Z.land_ones, <-Z.land_assoc by lia. done.
Qed.

Lemma pte_address_page pte : pte_address pte mod MMU_PAGE_SIZE = 0.
Proof.
  unfold pte_address. change MMU_PAGE_SIZE with (2 ^ 12). rewrite <-Z.land_ones by lia.
  rewrite <-Z.land_assoc. change (Z.land MMU_PTE_ADDRESS_MASK (Z.ones 12)) with 0.
  apply Z.land_0_r.
Qed.

Lemma pte_wellformed_split pte :
  pte_wellformed pte = true <->
  has_bits pte MMU_PTE_VALID = true /\
  has_bits pte MMU_PTE_RESERVED_LOW_MASK ||
    (has_bits pte MMU_PTE_WRITE && negb (has_bits pte MMU_PTE_READ)) = false.
Proof.
  unfold pte_wellformed.
  destruct (has_bits pte MMU_PTE_VALID), (has_bits pte MMU_PTE_RESERVED_LOW_MASK),
    (has_bits pte MMU_PTE_WRITE), (has_bits pte MMU_PTE_READ); simpl; intuition congruence.
Qed.

(** ** The walk implements its specification *)

Lemma mmu_walk_sound r user va access level shifts table pa :
  ram_wf r -> Forall (fun s => 0 <= s < 64) shifts ->
  mmu_walk r user va access level shifts table = inl pa ->
  level + Z.of_nat (length shifts) = 3 ->
  exists pte shift, leaf_of r va shifts table pte shift /\
    leaf_placed r pte shift /\ permission_granted pte user access = true /\
    pa = pte_address pte + va mod 2 ^ shift.
Proof.
  intros Hr Hsh. revert level table. induction Hsh as [|shift rest Hs Hrest IH];
    intros level table; [done|]. cbn [mmu_walk length].
  destruct (ram_read _ _ _) as [pte|] eqn:Hread; [|done].
  destruct (has_bits pte MMU_PTE_VALID) eqn:Hv; cbn [negb]; [|done].
  destruct (_ || _) eqn:Hwf; [done|]. fold (pte_address pte).
  assert (pte_wellformed pte = true) as Hpte by (apply pte_wellformed_split; auto).
  destruct (Z.eqb_spec (Z.land pte MMU_PTE_PERMISSION_MASK) 0) as [Hp|Hp].
  - destruct (Z.eqb_spec level 2); [done|]. cbn [orb].
    destruct (has_bits pte MMU_PTE_USER) eqn:Hu; [done|]. cbn [orb].
    destruct (mmu_root_valid r (pte_address pte)) eqn:Hroot; cbn [negb]; [|done].
    intros Hw Hl. destruct (IH (level + 1) (pte_address pte) Hw) as (pte' & s' & Hleaf & ?); [lia|].
    exists pte', s'. split; [|done]. eapply leaf_below; eauto.
    + by intros ->.
    + unfold pte_leaf. by rewrite Hp.
  - rewrite shl64_one, has_bits_low_mask, land_low_mask by lia.
    destruct (Z.eqb_spec (pte_address pte mod 2 ^ shift) 0) as [Ha|]; cbn [negb]; [|done].
    destruct (permission_granted pte user access) eqn:Hg; cbn [negb]; [|done].
    destruct ((_ <? _) && _) eqn:Hb; [done|]. intros [= <-] _.
    exists pte, shift. split_and!; [|split; [done|]|done|].
    + apply leaf_here; [done..|]. unfold pte_leaf. by rewrite (proj2 (Z.eqb_neq _ _)).
    + intros Hlt. rewrite (proj2 (Z.ltb_lt _ _) Hlt) in Hb. cbn [andb] in Hb.
      apply negb_false_iff, (ram_contains_true r _ _ Hr) in Hb. lia.
    + apply lor_aligned with shift; [lia|done|]. apply Z.mod_pos_bound. lia.
Qed.

Lemma mmu_walk_complete r user va access level shifts table pte shift :
  ram_wf r -> Forall (fun s => 0 <= s < 64) shifts ->
  level + Z.of_nat (length shifts) = 3 ->
  leaf_of r va shifts table pte shift ->
  leaf_placed r pte shift -> permission_granted pte user access = true ->
  mmu_walk r user va access level shifts table = inl (pte_address pte + va mod 2 ^ shift).
Proof.
  intros Hr Hsh Hlev Hleaf [Hal Hpl] Hg. revert level Hlev.
  induction Hleaf as [shift rest table pte Hread Hwf Hl|
    shift rest table pte pte' shift' Hne Hread Hwf Hl Hu Hroot Hleaf IH];
    intros level Hlev; cbn [mmu_walk]; rewrite Hread;
    apply pte_wellformed_split in Hwf as [-> ->]; cbn [negb]; fold (pte_address pte);
    unfold pte_leaf in Hl; inversion_clear Hsh as [|? ? Hs Hsh0].
  - apply negb_true_iff in Hl. rewrite Hl, shl64_one, has_bits_low_mask, Hal, Hg by lia.
    cbn [negb Z.eqb]. destruct (Z.ltb_spec (pte_address pte) (ram_size r)) as [Hlt|]; cbn [andb].
    + rewrite (proj2 (ram_contains_true r _ _ Hr)) by lia. cbn [negb].
      rewrite land_low_mask by lia. f_equal. apply lor_aligned with shift; [lia|done|].
      apply Z.mod_pos_bound. lia.
    + rewrite land_low_mask by lia. f_equal. apply lor_aligned with shift; [lia|done|].
      apply Z.mod_pos_bound. lia.
  - apply negb_false_iff in Hl. rewrite Hl, Hu, Hroot. cbn [orb negb].
    cbn [length] in Hlev. destruct rest as [|s rest]; [done|]. cbn [length] in Hlev.
    rewrite (proj2 (Z.eqb_neq level 2)) by lia. cbn [orb].
    apply IH; [done..|]. cbn [length]. lia.
Qed.

Lemma mmu_shifts_ok : Forall (fun s => 0 <= s < 64) mmu_shifts.
Proof. unfold mmu_shifts. repeat apply Forall_cons_2; [by vm_compute..|apply Forall_nil_2]. Qed.

Lemma mmu_translate_iff r root user va access pa :
  ram_wf r -> mmu_translate r root user va access = inl pa <-> translates r root user va access pa.
Proof.
  intros Hr. unfold mmu_translate, translates.
  destruct (Z.leb_spec MMU_VIRTUAL_ADDRESS_LIMIT va); [split; [done|lia]|].
  destruct (mmu_root_valid r root); cbn [negb]; [|split; [done|by intros (_ & ? & _)]].
  split.
  - intros Hw. split_and!; [done..|].
    eapply mmu_walk_sound; [done|apply mmu_shifts_ok|done|done].
  - intros (_ & _ & pte & shift & Hl & Hp & Hg & ->).
    apply mmu_walk_complete; auto using mmu_shifts_ok.
Qed.

(** ** Consequences used by the CPU *)

Lemma mmu_walk_same_page r user va va' access level shifts table :
  ram_wf r -> Forall (fun s => 12 <= s < 64) shifts ->
  va / MMU_PAGE_SIZE = va' / MMU_PAGE_SIZE ->
  mmu_walk r user va' access level shifts table =
  match mmu_walk r user va access level shifts table with
  | inl pa => inl (pa + (va' - va))
  | inr e => inr e
  end.
Proof.
  intros Hr Hsh Hp. revert level table. induction Hsh as [|shift rest Hs _ IH];
    intros level table; [done|]. cbn [mmu_walk].
  rewrite (entry_address_page va va') by (done || lia).
  destruct (ram_read _ _ _) as [pte|]; [|done].
  destruct (negb _); [done|]. destruct (_ || _); [done|]. fold (pte_address pte).
  destruct (Z.eqb_spec (Z.land pte MMU_PTE_PERMISSION_MASK) 0).
  - destruct (_ || _); [done|]. apply IH.
  - rewrite shl64_one, has_bits_low_mask, !land_low_mask by lia.
    destruct (Z.eqb_spec (pte_address pte mod 2 ^ shift) 0) as [Ha|]; cbn [negb]; [|done].
    destruct (negb _); [done|]. destruct ((_ <? _) && _); [done|].
    rewrite !lor_aligned with (s := shift) by (lia || done || (apply Z.mod_pos_bound; lia)).
    f_equal. enough (va' / 2 ^ shift = va / 2 ^ shift) by
      (rewrite !Z.mod_eq by lia; nia).
    replace (2 ^ shift) with (MMU_PAGE_SIZE * 2 ^ (shift - 12)).
    + rewrite <-!Z.div_div by (unfold MMU_PAGE_SIZE; lia). by rewrite Hp.
    + change MMU_PAGE_SIZE with (2 ^ 12). rewrite <-Z.pow_add_r by lia. f_equal. lia.
Qed.

Lemma mmu_shifts_page : Forall (fun s => 12 <= s < 64) mmu_shifts.
Proof. unfold mmu_shifts. repeat apply Forall_cons_2; [by vm_compute..|apply Forall_nil_2]. Qed.

Lemma translate_same_page r root user va va' access :
  ram_wf r -> va / MMU_PAGE_SIZE = va' / MMU_PAGE_SIZE ->
  mmu_translate r root user va' access =
  match mmu_translate r root user va access with
  | inl pa => inl (pa + (va' - va))
  | inr e => inr e
  end.
Proof.
  intros Hr Hp. unfold mmu_translate.
  assert ((MMU_VIRTUAL_ADDRESS_LIMIT <=? va') = (MMU_VIRTUAL_ADDRESS_LIMIT <=? va)) as ->.
  { unfold MMU_VIRTUAL_ADDRESS_LIMIT, MMU_PAGE_SIZE in *.
    apply eq_true_iff_eq. rewrite !Z.leb_le. zlia. }
  destruct (_ <=? va); [done|]. destruct (negb _); [done|].
  by apply mmu_walk_same_page; [|apply mmu_shifts_page|].
Qed.

Lemma leaf_of_shift r va shifts table pte shift :
  leaf_of r va shifts table pte shift -> shift ∈ shifts.
Proof. induction 1; [left|by right]. Qed.

Lemma mmu_shifts_elem s : s ∈ mmu_shifts -> 12 <= s < 64.
Proof.
  unfold mmu_shifts. rewrite !elem_of_cons.
  intros [->|[->|[->|[]%elem_of_nil]]]; by vm_compute.
Qed.

(** The page a translated address falls in is aligned and on one side of the
    end of RAM. *)
Lemma translate_page_placed r root user va access pa :
  ram_wf r -> mmu_translate r root user va access = inl pa ->
  pa mod MMU_PAGE_SIZE = va mod MMU_PAGE_SIZE /\ 0 <= pa /\
  (pa - pa mod MMU_PAGE_SIZE + MMU_PAGE_SIZE <= ram_size r \/
   ram_size r <= pa - pa mod MMU_PAGE_SIZE).
Proof.
  intros Hr (_ & _ & pte & shift & Hl & [Hal Hpl] & _ & ->)%mmu_translate_iff; [|done].
  apply leaf_of_shift, mmu_shifts_elem in Hl.
  pose proof (pte_address_u64 pte) as Hb. pose proof (pte_address_page pte) as Hbp.
  unfold is_u64 in Hb. set (b := pte_address pte) in *.
  assert (2 ^ shift = MMU_PAGE_SIZE * 2 ^ (shift - 12)) as Hpow.
  { change MMU_PAGE_SIZE with (2 ^ 12). rewrite <-Z.pow_add_r by lia. f_equal. lia. }
  assert (0 < 2 ^ (shift - 12)) as Hk by lia. set (k := 2 ^ (shift - 12)) in *.
  rewrite Hpow in *. pose proof (Z.rem_mul_r va MMU_PAGE_SIZE k) as Hrem.
  rewrite Hrem by (unfold MMU_PAGE_SIZE; lia).
  pose proof (Z.mod_pos_bound (va / MMU_PAGE_SIZE) k Hk).
  set (q := va / MMU_PAGE_SIZE mod k) in *. unfold MMU_PAGE_SIZE in *.
  assert ((b + (va mod 4096 + 4096 * q)) mod 4096 = va mod 4096) as Hm.
  { rewrite <-Z.add_mod_idemp_l, Hbp by lia. rewrite Z.add_0_l, (Z.mul_comm 4096).
    rewrite Z.mod_add, Z.mod_mod by lia. done. }
  rewrite Hm. pose proof (Z.mod_pos_bound va 4096 ltac:(lia)).
  split_and!; [done|lia|]. destruct (Z.lt_ge_cases b (ram_size r)); [left|right]; nia.
Qed.

Lemma translate_u64 r root user va access pa :
  ram_wf r -> mmu_translate r root user va access = inl pa -> is_u64 pa.
Proof.
  intros Hr (_ & _ & pte & shift & Hl & [Hal _] & _ & ->)%mmu_translate_iff; [|done].
  apply leaf_of_shift, mmu_shifts_elem in Hl. pose proof (pte_address_u64 pte) as Hb.
  pose proof (Z.mod_pos_bound va (2 ^ shift) ltac:(lia)) as Hm. unfold is_u64 in *.
  change 0x10000000000000000 with (2 ^ 64) in *.
  assert (2 ^ 64 = 2 ^ shift * 2 ^ (64 - shift)) as E by (rewrite <-Z.pow_add_r by lia; f_equal; lia).
  apply Z.mod_divide in Hal as [q Hq]; [|lia]. rewrite Hq in *. split; [lia|]. rewrite E in *.
  assert (q < 2 ^ (64 - shift)) by nia. nia.
Qed.

Lemma mmu_result_never_ok r root user va access e :
  mmu_translate r root user va access = inr e -> e <> MMU_RESULT_OK.
Proof.
  unfold mmu_translate. destruct (_ <=? va); [by intros [= <-]|].
  destruct (negb _); [by intros [= <-]|].
  generalize root, 0. induction mmu_shifts as [|s shifts IH]; intros table level; simpl;
    [by intros [= <-]|].
  destruct (ram_read _ _ _); [|by intros [= <-]].
  repeat (case_match; try by intros [= <-]). apply IH.
Qed.

Lemma permission_granted_mode pte access :
  permission_granted pte true access = true -> permission_granted pte false access = true.
Proof. unfold permission_granted. simpl. by destruct (has_bits pte MMU_PTE_USER). Qed.

Lemma translate_user_supervisor r root va access pa :
  ram_wf r -> mmu_translate r root true va access = inl pa ->
  mmu_translate r root false va access = inl pa.
Proof.
  intros Hr (? & ? & pte & s & ? & ? & Hg & ?)%mmu_translate_iff; [|done].
  apply mmu_translate_iff; [done|]. split_and!; [done..|].
  exists pte, s. split_and!; [done..|by apply permission_granted_mode|done].
Qed.

(** Reading implies nothing, but a well-formed writable leaf is readable. *)
Lemma leaf_write_read r va shifts table pte shift user :
  leaf_of r va shifts table pte shift ->
  permission_granted pte user MMU_ACCESS_WRITE = true ->
  permission_granted pte user MMU_ACCESS_READ = true.
Proof.
  intros Hl. assert (pte_wellformed pte = true) as [_ Hwf]%pte_wellformed_split
    by (by induction Hl).
  unfold permission_granted. destruct (user && _); [done|].
  apply orb_false_iff in Hwf as [_ Hwf]. intros Hw. rewrite Hw in Hwf.
  by apply negb_false_iff in Hwf.
Qed.

Lemma translate_write_read r root user va pa :
  ram_wf r -> mmu_translate r root user va MMU_ACCESS_WRITE = inl pa ->
  mmu_translate r root user va MMU_ACCESS_READ = inl pa.
Proof.
  intros Hr (? & ? & pte & s & ? & ? & Hg & ?)%mmu_translate_iff; [|done].
  apply mmu_translate_iff; [done|]. split_and!; [done..|].
  exists pte, s. split_and!; [done..|by eapply leaf_write_read|done].
Qed.

Lemma permission_atomic pte user :
  permission_granted pte user MMU_ACCESS_ATOMIC =
  permission_granted pte user MMU_ACCESS_READ && permission_granted pte user MMU_ACCESS_WRITE.
Proof.
  unfold permission_granted. destruct (user && _); [done|].
  change MMU_PTE_READ with (2 ^ 1). change MMU_PTE_WRITE with (2 ^ 2).
  rewrite !has_bits_pow2 by lia. apply eq_true_iff_eq.
  rewrite Z.eqb_eq, andb_true_iff. split.
  - intros H. split; [apply (f_equal (fun x => Z.testbit x 1)) in H|
      apply (f_equal (fun x => Z.testbit x 2)) in H];
      rewrite Z.land_spec in H; apply andb_true_iff in H; tauto.
  - intros [H1 H2]. apply Z.bits_inj'. intros i Hi.
    rewrite Z.land_spec, Z.lor_spec, !Z.pow2_bits_eqb by lia.
    destruct (Z.eqb_spec 1 i), (Z.eqb_spec 2 i); subst; rewrite ?H1, ?H2; try done.
    by destruct (Z.testbit pte i).
Qed.

(** * Properties *)

Definition poke (a v : Z) (r : RAM) : RAM := store_bytes r a (int_to_bytes 8 v).

(** 32 KiB of RAM with a page table at 0x1000: virtual page 4 is a user
    read-write page, virtual page 5 a supervisor read-execute page. *)
Definition demo_tables : RAM :=
  poke 0x1000 0x2001 (poke 0x2000 0x3001
    (poke 0x3020 0x4017 (poke 0x3028 0x500B (mkRAM ∅ 0x8000)))).

Lemma poke_wf a v r : ram_wf r -> ram_wf (poke a v r).
Proof. intros Hr. apply store_bytes_wf; [done|]. apply int_to_bytes_u8. Qed.

Lemma empty_ram_wf n : is_u64 n -> ram_wf (mkRAM ∅ n).
Proof. intros Hn. split; [done|]. by intros ? ? ?. Qed.

Lemma demo_tables_wf : ram_wf demo_tables.
Proof. unfold demo_tables. repeat apply poke_wf. apply empty_ram_wf. by vm_compute. Qed.

(** C4: the table walk implements its specification: it returns physical
    address [pa] exactly when the virtual address is below 2^39, the root is a
    page inside RAM, following valid non-leaf entries reaches a well-formed
    leaf that grants the access in the given mode, the leaf's block is aligned
    and does not straddle the end of RAM, and [pa] is that block's base plus
    the offset of the address within the block. *)
Theorem mmu_translate_refines r root user va access pa :
  ram_wf r ->
  mmu_translate r root user va access = inl pa <-> translates r root user va access pa.
Proof. apply mmu_translate_iff. Qed.

Lemma mmu_translate_refines_witness :
  translates demo_tables 0x1000 true 0x4123 MMU_ACCESS_WRITE 0x4123 /\
  ~ translates demo_tables 0x1000 true 0x5123 MMU_ACCESS_EXECUTE 0x5123.
Proof.
  split.
  - apply (mmu_translate_refines demo_tables 0x1000 true 0x4123 MMU_ACCESS_WRITE 0x4123
             demo_tables_wf). by vm_compute.
  - intros H. apply (mmu_translate_refines demo_tables 0x1000 true 0x5123
      MMU_ACCESS_EXECUTE 0x5123 demo_tables_wf) in H. by vm_compute in H.
Defined.

(** Translation is uniform on a 4 KiB page: two addresses of one virtual
    page either both fail, with the same code, or map to addresses the same
    distance apart; so translating the first byte of an access translates all
    bytes of it that lie in that page. *)
Theorem mmu_translate_page_uniform r root user va va' access :
  ram_wf r -> va / MMU_PAGE_SIZE = va' / MMU_PAGE_SIZE ->
  mmu_translate r root user va' access =
  match mmu_translate r root user va access with
  | inl pa => inl (pa + (va' - va))
  | inr e => inr e
  end.
Proof. apply translate_same_page. Qed.

Lemma mmu_translate_page_uniform_witness :
  mmu_translate demo_tables 0x1000 true 0x4FFF MMU_ACCESS_READ = inl 0x4FFF.
Proof.
  rewrite (mmu_translate_page_uniform demo_tables 0x1000 true 0x4001 0x4FFF MMU_ACCESS_READ
             demo_tables_wf eq_refl).
  by vm_compute.
Defined.

(** The protection lattice of the MMU: what user mode may access,
    supervisor mode may access at the same physical address; a writable page is
    readable; and an atomic access is permitted exactly when both a read and a
    write are. *)
Theorem mmu_protection_lattice r root va pa :
  ram_wf r ->
  (forall access, mmu_translate r root true va access = inl pa ->
     mmu_translate r root false va access = inl pa) /\
  (forall user, mmu_translate r root user va MMU_ACCESS_WRITE = inl pa ->
     mmu_translate r root user va MMU_ACCESS_READ = inl pa) /\
  (forall user, mmu_translate r root user va MMU_ACCESS_ATOMIC = inl pa <->
     mmu_translate r root user va MMU_ACCESS_READ = inl pa /\
     mmu_translate r root user va MMU_ACCESS_WRITE = inl pa).
Proof.
  intros Hr. split_and!.
  - intros access. by apply translate_user_supervisor.
  - intros user. by apply translate_write_read.
  - intros user. rewrite !mmu_translate_iff by done. unfold translates. split.
    + intros (? & ? & pte & s & ? & ? & Hg & ?). rewrite permission_atomic in Hg.
      apply andb_true_iff in Hg as [? ?]. split; (split_and!; [done..|]); by exists pte, s.
    + intros [_ (? & ? & pte & s & Hl & ? & Hg & ?)]. split_and!; [done..|].
      exists pte, s. rewrite permission_atomic, Hg, (leaf_write_read _ _ _ _ _ _ _ Hl Hg).
      done.
Qed.

Lemma mmu_protection_lattice_witness :
  mmu_translate demo_tables 0x1000 true 0x4000 MMU_ACCESS_ATOMIC = inl 0x4000.
Proof.
  apply (mmu_protection_lattice demo_tables 0x1000 0x4000 0x4000 demo_tables_wf).
  split; by vm_compute.
Defined.

(** A translated address keeps its offset in the page, and the physical
    page it falls in lies wholly inside RAM or wholly at or above its end, so no
    single-page access is part RAM, part MMIO. *)
Theorem mmu_translate_page_bounds r root user va access pa :
  ram_wf r -> mmu_translate r root user va access = inl pa ->
  pa mod MMU_PAGE_SIZE = va mod MMU_PAGE_SIZE /\
  (pa - pa mod MMU_PAGE_SIZE + MMU_PAGE_SIZE <= ram_size r \/
   ram_size r <= pa - pa mod MMU_PAGE_SIZE).
Proof.
  intros Hr H. destruct (translate_page_placed _ _ _ _ _ _ Hr H) as (? & _ & ?). done.
Qed.

Lemma mmu_translate_page_bounds_witness : 0x5008 mod MMU_PAGE_SIZE = 8.
Proof.
  destruct (mmu_translate_page_bounds demo_tables 0x1000 false 0x5008 MMU_ACCESS_EXECUTE 0x5008
              demo_tables_wf ltac:(by vm_compute)) as [H _].
  exact H.
Defined.
