(* ===== verification/Image.v ===== *)
(** Binary images: the little-endian helpers and the size arithmetic that the
    file formats of tools/object/object_format.c and its siblings repeat.

    An image is a buffer of bytes.  A decoder reads it through [Parse]: a
    computation yields a value, reports an error, or overruns the buffer, so
    that the absence of overruns is a theorem about the decoder. *)

From S2P Require Import Prelude Ram.
From Stdlib Require Import ZArith Lia Bool.
From stdpp Require Import base list numbers gmap option.

#[local] Open Scope Z_scope.

(** ** Sizes *)

Definition add_size (left right : Z) : option Z :=
  if SIZE_MAX - right <? left then None else Some (left + right).

Definition multiply_size (left right : Z) : option Z :=
  if negb (left =? 0) && (SIZE_MAX / left <? right) then None else Some (left * right).

Definition range_valid (size offset length : Z) : bool := (offset <=? size) && (length <=? size - offset).

Definition power_of_two (value : Z) : bool := negb (value =? 0) && (Z.land value (value - 1) =? 0).

Lemma add_size_some a b c : add_size a b = Some c -> c = a + b /\ a + b <= SIZE_MAX.
Proof. unfold add_size. destruct (Z.ltb_spec (SIZE_MAX - b) a); [done|]. intros [= <-]. lia. Qed.

Lemma add_size_ok a b : a + b <= SIZE_MAX -> add_size a b = Some (a + b).
Proof. intros H. unfold add_size. by rewrite (proj2 (Z.ltb_ge _ _)) by lia. Qed.

Lemma multiply_size_ok a b : 0 <= a -> 0 < b -> a * b <= SIZE_MAX -> multiply_size a b = Some (a * b).
Proof.
  intros Ha Hb H. unfold multiply_size. destruct (Z.eqb_spec a 0) as [->|Hne]; [done|]. cbn [negb andb].
  rewrite (proj2 (Z.ltb_ge _ _)); [done|]. apply Z.div_le_lower_bound; lia.
Qed.

Lemma size_range_valid size offset length :
  range_valid size offset length = true <-> offset <= size /\ length <= size - offset.
Proof. unfold range_valid. by rewrite andb_true_iff, !Z.leb_le. Qed.

(** ** Writing *)

(** [for (i = 0; i < n; ++i) out[i] = (uint8_t)(value >> (i * 8));] *)
Definition write_u16 (data : RAM) (out value : Z) : RAM := write_byte_loop 2 data out 0 value.
Definition write_u32 (data : RAM) (out value : Z) : RAM := write_byte_loop 4 data out 0 value.
Definition write_u64 (data : RAM) (out value : Z) : RAM := write_byte_loop 8 data out 0 value.

(** A buffer of [size] zeros, [calloc(size, 1)]. *)
Definition zeroed (size : Z) : RAM := mkRAM ∅ size.

(** ** Reading *)

Inductive Parse (A : Type) :=
  | POk (a : A)
  | PError
  | POverrun.
Arguments POk {A} a.
Arguments PError {A}.
Arguments POverrun {A}.

#[export] Instance Parse_ret : MRet Parse := fun A a => POk a.
#[export] Instance Parse_bind : MBind Parse := fun A B f m =>
  match m with POk a => f a | PError => PError | POverrun => POverrun end.

Definition parse_guard (b : bool) : Parse unit := if b then POk tt else PError.
Definition parse_option {A} (o : option A) : Parse A := match o with Some a => POk a | None => PError end.

(** The bytes [a .. a + n) of a buffer. *)
Definition fetch (data : RAM) (a n : Z) : Parse (list Z) :=
  if (0 <=? a) && (a + n <=? ram_size data) then POk (ram_bytes data a n) else POverrun.

(** [value |= in[i] << (i * 8)] over [n] bytes. *)
Definition read_le (n : Z) (data : RAM) (a : Z) : Parse Z := bytes ← fetch data a n; mret (or_bytes 0 0 bytes).
Definition read_u16 : RAM -> Z -> Parse Z := read_le 2.
Definition read_u32 : RAM -> Z -> Parse Z := read_le 4.
Definition read_u64 : RAM -> Z -> Parse Z := read_le 8.

(** [memchr(data + a, 0, n)]: the distance to the first zero byte. *)
Fixpoint find_zero (n : nat) (data : RAM) (a length : Z) : Parse Z :=
  match n with
  | O => PError
  | S n =>
      byte ← fetch data a 1;
      if bool_decide (byte = [0]) then mret length else find_zero n data (a + 1) (length + 1)
  end.

(** ** Computations that stay inside the buffer *)

Definition inside {A} (m : Parse A) (Q : A -> Prop) : Prop :=
  match m with POk a => Q a | PError => True | POverrun => False end.

Lemma inside_bind {A B} (m : Parse A) (f : A -> Parse B) (Q : A -> Prop) (R : B -> Prop) :
  inside m Q -> (forall a, Q a -> inside (f a) R) -> inside (m ≫= f) R.
Proof. destruct m; cbn; auto. Qed.

Lemma inside_weaken {A} (m : Parse A) (Q R : A -> Prop) : inside m Q -> (forall a, Q a -> R a) -> inside m R.
Proof. destruct m; cbn; auto. Qed.

Lemma inside_ret {A} (a : A) (Q : A -> Prop) : Q a -> inside (mret a) Q.
Proof. done. Qed.

Lemma inside_guard b : inside (parse_guard b) (fun _ => b = true).
Proof. by destruct b. Qed.

Lemma inside_option {A} (o : option A) : inside (parse_option o) (fun a => o = Some a).
Proof. by destruct o. Qed.

Lemma inside_fetch data a n :
  0 <= a -> a + n <= ram_size data -> inside (fetch data a n) (fun l => l = ram_bytes data a n).
Proof. intros Ha Hn. unfold fetch. by rewrite (proj2 (Z.leb_le 0 a)), (proj2 (Z.leb_le _ (ram_size data))). Qed.

Lemma inside_read n data a :
  ram_wf data -> 0 <= n <= 8 -> 0 <= a -> a + n <= ram_size data ->
  inside (read_le n data a) (fun v => v = atomic_load_n data a n /\ 0 <= v < 2 ^ (8 * n)).
Proof.
  intros Hwf Hn Ha Hs. unfold read_le. eapply inside_bind; [by apply inside_fetch|]. intros l ->. cbn.
  pose proof (ram_bytes_u8 data a n Hwf) as H8. pose proof (length_ram_bytes data a n) as Hl.
  rewrite or_bytes_correct by (done || lia). split; [done|].
  pose proof (bytes_to_int_bound _ H8) as Hb. rewrite Hl, Z2Nat.id in Hb by lia.
  rewrite Z.pow_mul_r by lia. done.
Qed.

Lemma inside_find_zero n data a length :
  0 <= a -> a + Z.of_nat n <= ram_size data ->
  inside (find_zero n data a length)
    (fun v => length <= v < length + Z.of_nat n /\ forall i, 0 <= i < v - length -> ram_byte data (a + i) <> 0).
Proof.
  revert a length. induction n as [|n IH]; intros a length Ha Hs; cbn [find_zero]; [done|].
  eapply inside_bind; [apply inside_fetch; lia|]. intros l ->. case_bool_decide as Hb; cbn; [split; [lia|intros; lia]|].
  eapply inside_weaken; [apply IH; lia|]. cbn. intros v [Hv Hz]. split; [lia|]. intros i Hi. destruct (Z.eq_dec i 0) as [->|Hne].
  - rewrite Z.add_0_r. intros E. apply Hb. change (ram_bytes data a 1) with [ram_byte data a]. by rewrite E.
  - specialize (Hz (i - 1) ltac:(lia)). by replace (a + 1 + (i - 1)) with (a + i) in Hz by lia.
Qed.

(** ** What an image contains *)

(** The bytes [l] lie at [a]. *)
Definition holds_at (data : RAM) (a : Z) (l : list Z) : Prop := ram_bytes data a (Z.of_nat (length l)) = l.

(** [data'] differs from [data] inside the ranges [R] only. *)
Definition changes_within (R : list (Z * Z)) (data data' : RAM) : Prop :=
  ram_size data' = ram_size data /\ (ram_wf data -> ram_wf data') /\
  forall b, (forall r, r ∈ R -> b < r.1 \/ r.2 <= b) -> ram_byte data' b = ram_byte data b.

#[export] Instance changes_within_preorder R : PreOrder (changes_within R).
Proof.
  split; [done|]. intros d1 d2 d3 (H1 & H2 & H3) (H4 & H5 & H6). split_and!; [congruence|tauto|].
  intros b Hb. by rewrite H6, H3.
Qed.

Lemma changes_within_weaken R R' data data' :
  changes_within R data data' ->
  (forall r, r ∈ R -> exists r', r' ∈ R' /\ r'.1 <= r.1 /\ r.2 <= r'.2) -> changes_within R' data data'.
Proof.
  intros (H1 & H2 & H3) HR. split_and!; [done..|]. intros b Hb. apply H3. intros r Hr.
  destruct (HR r Hr) as (r' & Hr' & ? & ?). destruct (Hb r' Hr'); lia.
Qed.

Lemma changes_store R data a l lo hi :
  Forall is_u8 l -> (lo, hi) ∈ R -> lo <= a -> a + Z.of_nat (length l) <= hi ->
  changes_within R data (store_bytes data a l).
Proof.
  intros Hl Hin Hlo Hhi. split_and!; [apply store_bytes_size|intros; by apply store_bytes_wf|].
  intros b Hb. rewrite store_bytes_byte. specialize (Hb _ Hin). cbn in Hb.
  destruct (Z.leb_spec a b); [|done]. rewrite lookup_ge_None_2; [done|]. lia.
Qed.

Lemma holds_frame R data data' a l :
  holds_at data a l -> changes_within R data data' ->
  (forall r, r ∈ R -> a + Z.of_nat (length l) <= r.1 \/ r.2 <= a) -> holds_at data' a l.
Proof.
  intros H (_ & _ & Hsame) Hd. unfold holds_at in *. rewrite <- H at 2. unfold ram_bytes.
  apply list_fmap_ext. intros i b Hb%lookup_seqZ. apply Hsame. intros r Hr. specialize (Hd r Hr). lia.
Qed.

Lemma holds_store_same data a l : holds_at (store_bytes data a l) a l.
Proof. apply ram_bytes_store_same. Qed.

Lemma holds_store_other data a l b m :
  holds_at data b m -> b + Z.of_nat (length m) <= a \/ a + Z.of_nat (length l) <= b ->
  holds_at (store_bytes data a l) b m.
Proof. intros H Hd. unfold holds_at in *. by rewrite ram_bytes_store_disjoint. Qed.

Lemma write_loop_store n data out v : write_byte_loop n data out 0 v = store_bytes data out (int_to_bytes (Z.of_nat n) v).
Proof. rewrite write_byte_loop_store, Z.add_0_r. done. Qed.

(** Reading back what is there. *)
Lemma holds_fetch data a l n :
  holds_at data a l -> n = Z.of_nat (length l) -> 0 <= a -> a + n <= ram_size data -> fetch data a n = POk l.
Proof.
  intros H -> Ha Hn. unfold fetch. rewrite (proj2 (Z.leb_le 0 a)), (proj2 (Z.leb_le _ (ram_size data))) by lia.
  cbn. by rewrite H.
Qed.

Lemma holds_read n data a v :
  holds_at data a (int_to_bytes n v) -> 0 <= n <= 8 -> 0 <= v < 2 ^ (8 * n) -> 0 <= a -> a + n <= ram_size data ->
  read_le n data a = POk v.
Proof.
  intros H Hn Hv Ha Hs. unfold read_le.
  rewrite (holds_fetch data a _ n H) by (done || rewrite length_int_to_bytes; lia). cbn.
  rewrite or_bytes_correct by (apply int_to_bytes_u8 || rewrite length_int_to_bytes; lia).
  rewrite <- (Z2Nat.id n) by lia. rewrite bytes_to_int_to_bytes, Z2Nat.id by lia.
  unfold mret, Parse_ret. f_equal. rewrite Z.mod_small; [done|]. by rewrite Z.pow_mul_r in Hv by lia.
Qed.

Lemma holds_byte data a l i b : holds_at data a l -> l !! i = Some b -> ram_byte data (a + Z.of_nat i) = b.
Proof.
  intros H Hi. pose proof (lookup_lt_Some _ _ _ Hi) as Hlt. rewrite <- H in Hi. unfold ram_bytes in Hi.
  rewrite list_lookup_fmap, lookup_seqZ_lt in Hi by lia. by injection Hi as ->.
Qed.

(** A terminated string is found by [memchr]. *)
Lemma holds_find_zero n data a s length0 :
  holds_at data a (s ++ [0]) -> Forall (fun b => b <> 0) s -> (length s < n)%nat -> 0 <= a ->
  a + Z.of_nat (length s) + 1 <= ram_size data ->
  find_zero n data a length0 = POk (length0 + Z.of_nat (length s)).
Proof.
  revert n a length0. induction s as [|b s IH]; intros n a length0 H Hz Hn Ha Hs;
    (destruct n as [|n]; [cbn in Hn; lia|]); cbn [find_zero length] in *.
  - unfold fetch. rewrite (proj2 (Z.leb_le 0 a)), (proj2 (Z.leb_le _ (ram_size data))) by lia. cbn [andb mbind Parse_bind].
    change (ram_bytes data a 1) with [ram_byte data a].
    pose proof (holds_byte data a [0] 0 0 H eq_refl) as H0. cbn in H0. rewrite Z.add_0_r in H0. rewrite H0.
    rewrite bool_decide_eq_true_2 by done.
    unfold mret, Parse_ret. f_equal. lia.
  - apply Forall_cons_1 in Hz as [Hb Hz].
    unfold fetch. rewrite (proj2 (Z.leb_le 0 a)), (proj2 (Z.leb_le _ (ram_size data))) by lia. cbn [andb mbind Parse_bind].
    change (ram_bytes data a 1) with [ram_byte data a].
    pose proof (holds_byte data a _ 0 b H eq_refl) as H0. cbn in H0. rewrite Z.add_0_r in H0. rewrite H0.
    rewrite bool_decide_eq_false_2 by congruence.
    rewrite (IH n (a + 1) (length0 + 1)); [f_equal; lia| |done|lia|lia|lia].
    unfold holds_at in *. cbn [app length] in H. rewrite Nat2Z.inj_succ, <- Z.add_1_l, ram_bytes_app in H by lia.
    by injection H as _ H.
Qed.

(** The sum of a list of sizes. *)
Fixpoint sum_sizes (l : list Z) : Z := match l with [] => 0 | n :: l => n + sum_sizes l end.

Lemma sum_sizes_app l l' : sum_sizes (l ++ l') = sum_sizes l + sum_sizes l'.
Proof. induction l as [|n l IH]; cbn; lia. Qed.

Lemma sum_sizes_pos l : Forall (fun n => 0 <= n) l -> 0 <= sum_sizes l.
Proof. induction 1; cbn; lia. Qed.
