(* ===== verification/ObjectFormat.v ===== *)
(** The relocatable object format: tools/object/object_format.c.

    [cvm_object_encode] is [cvm_object_write] up to the image it hands to
    [fwrite], [cvm_object_decode] the decoder of [cvm_object_read]; opening and
    copying files is not modelled, and allocations of the host succeed.  A C
    string is the list of its bytes without the terminator; a section's data is
    the list of its [file_size] bytes. *)

From S2P Require Import Prelude Ram Image.
From Stdlib Require Import ZArith Lia Bool.
From stdpp Require Import base list numbers gmap option.

#[local] Open Scope Z_scope.

Definition OBJECT_HEADER_SIZE : Z := 80.
Definition OBJECT_SECTION_SIZE : Z := 48.
Definition OBJECT_SYMBOL_SIZE : Z := 32.
Definition OBJECT_RELOCATION_SIZE : Z := 32.

(** ["CVMOBJ2\0"] *)
Definition CVM_OBJECT_MAGIC : list Z := [67; 86; 77; 79; 66; 74; 50; 0].
Definition CVM_OBJECT_VERSION : Z := 2.
Definition CVM_OBJECT_MAX_SECTIONS : Z := 32.
Definition CVM_OBJECT_MAX_SYMBOLS : Z := 65536.
Definition CVM_OBJECT_MAX_RELOCATIONS : Z := 1048576.
Definition CVM_OBJECT_MAX_SIZE : Z := 64 * 1024 * 1024.

Definition CVM_OBJECT_SECTION_ALLOC : Z := Z.shiftl 1 0.
Definition CVM_OBJECT_SECTION_WRITE : Z := Z.shiftl 1 1.
Definition CVM_OBJECT_SECTION_EXECUTE : Z := Z.shiftl 1 2.
Definition CVM_OBJECT_SECTION_NOBITS : Z := Z.shiftl 1 3.

Definition CVM_OBJECT_SYMBOL_GLOBAL : Z := Z.shiftl 1 0.
Definition CVM_OBJECT_SYMBOL_DEFINED : Z := Z.shiftl 1 1.
Definition CVM_OBJECT_SYMBOL_ENTRY : Z := Z.shiftl 1 2.
Definition CVM_OBJECT_SYMBOL_WEAK : Z := Z.shiftl 1 3.
Definition CVM_OBJECT_SYMBOL_FUNCTION : Z := Z.shiftl 1 4.
Definition CVM_OBJECT_SYMBOL_OBJECT : Z := Z.shiftl 1 5.
Definition CVM_OBJECT_SYMBOL_COMMON : Z := Z.shiftl 1 6.

Definition CVM_OBJECT_RELOCATION_ABS32 : Z := 1.
Definition CVM_OBJECT_RELOCATION_ABS64 : Z := 2.
Definition CVM_OBJECT_RELOCATION_REL32 : Z := 3.

Definition CVM_OBJECT_UNDEFINED_SECTION : Z := 65535.
Definition CVM_OBJECT_ABSOLUTE_SECTION : Z := 65534.
Definition CVM_OBJECT_COMMON_SECTION : Z := 65533.

Record CvmObjectSection := mkSection {
  section_name : list Z;
  section_flags : Z;
  section_alignment : Z;
  section_data : list Z;
  section_memory_size : Z;
}.

Record CvmObjectSymbol := mkSymbol {
  symbol_name : list Z;
  symbol_section_index : Z;
  symbol_flags : Z;
  symbol_value : Z;
  symbol_size : Z;
}.

Record CvmObjectRelocation := mkRelocation {
  relocation_section_index : Z;
  relocation_type : Z;
  relocation_symbol_index : Z;
  relocation_offset : Z;
  relocation_addend : Z;
}.

Record CvmObjectFile := mkObject {
  sections : list CvmObjectSection;
  symbols : list CvmObjectSymbol;
  relocations : list CvmObjectRelocation;
}.

#[export] Instance CvmObjectSection_inhabited : Inhabited CvmObjectSection := populate (mkSection [] 0 0 [] 0).

Definition file_size (s : CvmObjectSection) : Z := Z.of_nat (length (section_data s)).
Definition section_count (o : CvmObjectFile) : Z := Z.of_nat (length (sections o)).
Definition symbol_count (o : CvmObjectFile) : Z := Z.of_nat (length (symbols o)).
Definition relocation_count (o : CvmObjectFile) : Z := Z.of_nat (length (relocations o)).

Definition cvm_object_relocation_width (type : Z) : Z :=
  if (type =? CVM_OBJECT_RELOCATION_ABS32) || (type =? CVM_OBJECT_RELOCATION_REL32) then 4
  else if type =? CVM_OBJECT_RELOCATION_ABS64 then 8
  else 0.

(** ** The rules of the format *)

Definition section_valid (section : CvmObjectSection) : bool :=
  let flags := section_flags section in
  let allowed := Z.lor (Z.lor (Z.lor CVM_OBJECT_SECTION_ALLOC CVM_OBJECT_SECTION_WRITE)
                          CVM_OBJECT_SECTION_EXECUTE) CVM_OBJECT_SECTION_NOBITS in
  let nobits := has_bits flags CVM_OBJECT_SECTION_NOBITS in
  negb (match section_name section with [] => true | _ => false end ||
        negb (power_of_two (section_alignment section)) ||
        negb (Z.ldiff flags allowed =? 0) ||
        negb (has_bits flags CVM_OBJECT_SECTION_ALLOC) ||
        (has_bits flags CVM_OBJECT_SECTION_WRITE && has_bits flags CVM_OBJECT_SECTION_EXECUTE) ||
        (section_memory_size section <? file_size section) ||
        (nobits && negb (file_size section =? 0))).

Definition symbol_valid (object : CvmObjectFile) (symbol : CvmObjectSymbol) : bool :=
  let flags := symbol_flags symbol in
  let index := symbol_section_index symbol in
  let allowed := Z.lor (Z.lor (Z.lor (Z.lor (Z.lor (Z.lor CVM_OBJECT_SYMBOL_GLOBAL CVM_OBJECT_SYMBOL_DEFINED)
    CVM_OBJECT_SYMBOL_ENTRY) CVM_OBJECT_SYMBOL_WEAK) CVM_OBJECT_SYMBOL_FUNCTION) CVM_OBJECT_SYMBOL_OBJECT)
    CVM_OBJECT_SYMBOL_COMMON in
  let defined := has_bits flags CVM_OBJECT_SYMBOL_DEFINED in
  let common := has_bits flags CVM_OBJECT_SYMBOL_COMMON in
  let section := sections object !!! Z.to_nat index in
  negb (match symbol_name symbol with [] => true | _ => false end ||
        negb (Z.ldiff flags allowed =? 0) ||
        (has_bits flags CVM_OBJECT_SYMBOL_FUNCTION && has_bits flags CVM_OBJECT_SYMBOL_OBJECT) ||
        (has_bits flags CVM_OBJECT_SYMBOL_WEAK && negb (has_bits flags CVM_OBJECT_SYMBOL_GLOBAL)) ||
        (common && (defined || negb (has_bits flags CVM_OBJECT_SYMBOL_GLOBAL) ||
                    negb (index =? CVM_OBJECT_COMMON_SECTION) || (symbol_size symbol =? 0) ||
                    negb (power_of_two (symbol_value symbol)))) ||
        (defined && negb (index =? CVM_OBJECT_ABSOLUTE_SECTION) && (section_count object <=? index)) ||
        (negb defined && negb common && negb (index =? CVM_OBJECT_UNDEFINED_SECTION)) ||
        (has_bits flags CVM_OBJECT_SYMBOL_ENTRY && (negb defined || common)) ||
        (defined && negb (index =? CVM_OBJECT_ABSOLUTE_SECTION) &&
         ((section_memory_size section <? symbol_value symbol) ||
          (section_memory_size section - symbol_value symbol <? symbol_size symbol)))).

Definition relocation_valid (object : CvmObjectFile) (relocation : CvmObjectRelocation) : bool :=
  let index := relocation_section_index relocation in
  let width := cvm_object_relocation_width (relocation_type relocation) in
  let section := sections object !!! Z.to_nat index in
  negb ((section_count object <=? index) || (width =? 0) ||
        (symbol_count object <=? relocation_symbol_index relocation) ||
        (file_size section <? relocation_offset relocation) ||
        (file_size section - relocation_offset relocation <? width)).

Definition object_valid (object : CvmObjectFile) : bool :=
  negb ((section_count object =? 0) || (CVM_OBJECT_MAX_SECTIONS <? section_count object) ||
        (CVM_OBJECT_MAX_SYMBOLS <? symbol_count object) ||
        (CVM_OBJECT_MAX_RELOCATIONS <? relocation_count object)) &&
  forallb section_valid (sections object) &&
  forallb (symbol_valid object) (symbols object) &&
  forallb (relocation_valid object) (relocations object).

(** ** Encoding *)

(** [add_size(cursor, ..., &cursor)] over a loop. *)
Fixpoint add_sizes (cursor : Z) (l : list Z) : option Z :=
  match l with
  | [] => Some cursor
  | n :: l => match add_size cursor n with Some cursor => add_sizes cursor l | None => None end
  end.

(** [strlen(name) + 1] *)
Definition string_length (name : list Z) : Z := Z.of_nat (length name) + 1.

Definition write_string (data : RAM) (a : Z) (name : list Z) : RAM := store_bytes data a (name ++ [0]).

Fixpoint write_sections (l : list CvmObjectSection) (i string_offset string_cursor file_cursor : Z)
    (data : RAM) : RAM * Z :=
  match l with
  | [] => (data, string_cursor)
  | section :: l =>
      let entry := OBJECT_HEADER_SIZE + i * OBJECT_SECTION_SIZE in
      let data := write_u32 data (entry + 0x00) (string_cursor - string_offset) in
      let data := write_u32 data (entry + 0x04) (section_flags section) in
      let data := write_u64 data (entry + 0x08) (section_alignment section) in
      let data := write_u64 data (entry + 0x10) file_cursor in
      let data := write_u64 data (entry + 0x18) (file_size section) in
      let data := write_u64 data (entry + 0x20) (section_memory_size section) in
      let data := write_string data string_cursor (section_name section) in
      let data := store_bytes data file_cursor (section_data section) in
      write_sections l (i + 1) string_offset (string_cursor + string_length (section_name section))
        (file_cursor + file_size section) data
  end.

Fixpoint write_symbols (l : list CvmObjectSymbol) (table i string_offset string_cursor : Z) (data : RAM) : RAM :=
  match l with
  | [] => data
  | symbol :: l =>
      let entry := table + i * OBJECT_SYMBOL_SIZE in
      let data := write_u32 data (entry + 0x00) (string_cursor - string_offset) in
      let data := write_u16 data (entry + 0x04) (symbol_section_index symbol) in
      let data := write_u16 data (entry + 0x06) (symbol_flags symbol) in
      let data := write_u64 data (entry + 0x08) (symbol_value symbol) in
      let data := write_u64 data (entry + 0x10) (symbol_size symbol) in
      let data := write_string data string_cursor (symbol_name symbol) in
      write_symbols l table (i + 1) string_offset (string_cursor + string_length (symbol_name symbol)) data
  end.

Fixpoint write_relocations (l : list CvmObjectRelocation) (table i : Z) (data : RAM) : RAM :=
  match l with
  | [] => data
  | relocation :: l =>
      let entry := table + i * OBJECT_RELOCATION_SIZE in
      let data := write_u16 data (entry + 0x00) (relocation_section_index relocation) in
      let data := write_u16 data (entry + 0x02) (relocation_type relocation) in
      let data := write_u32 data (entry + 0x04) (relocation_symbol_index relocation) in
      let data := write_u64 data (entry + 0x08) (relocation_offset relocation) in
      let data := write_u64 data (entry + 0x10) (relocation_addend relocation) in
      write_relocations l table (i + 1) data
  end.

Definition write_header (object : CvmObjectFile)
    (section_bytes symbol_bytes string_offset string_size size : Z) (data : RAM) : RAM :=
  let data := store_bytes data 0 CVM_OBJECT_MAGIC in
  let data := write_u32 data 0x08 CVM_OBJECT_VERSION in
  let data := write_u32 data 0x0C (section_count object) in
  let data := write_u32 data 0x10 (symbol_count object) in
  let data := write_u32 data 0x14 (relocation_count object) in
  let data := write_u64 data 0x18 OBJECT_HEADER_SIZE in
  let data := write_u64 data 0x20 (OBJECT_HEADER_SIZE + section_bytes) in
  let data := write_u64 data 0x28 (OBJECT_HEADER_SIZE + section_bytes + symbol_bytes) in
  let data := write_u64 data 0x30 string_offset in
  let data := write_u64 data 0x38 string_size in
  write_u64 data 0x40 size.

Definition cvm_object_encode (object : CvmObjectFile) : option RAM :=
  if negb (object_valid object) then None
  else
    section_bytes ← multiply_size (section_count object) OBJECT_SECTION_SIZE;
    symbol_bytes ← multiply_size (symbol_count object) OBJECT_SYMBOL_SIZE;
    relocation_bytes ← multiply_size (relocation_count object) OBJECT_RELOCATION_SIZE;
    cursor ← add_size OBJECT_HEADER_SIZE section_bytes;
    cursor ← add_size cursor symbol_bytes;
    string_offset ← add_size cursor relocation_bytes;
    cursor ← add_sizes string_offset ((fun s => string_length (section_name s)) <$> sections object);
    cursor ← add_sizes cursor ((fun s => string_length (symbol_name s)) <$> symbols object);
    let string_size := cursor - string_offset in
    cursor ← add_sizes cursor (file_size <$> sections object);
    if CVM_OBJECT_MAX_SIZE <? cursor then None
    else
      let data := write_header object section_bytes symbol_bytes string_offset string_size cursor (zeroed cursor) in
      let '(data, string_cursor) :=
        write_sections (sections object) 0 string_offset string_offset (string_offset + string_size) data in
      let data := write_symbols (symbols object) (OBJECT_HEADER_SIZE + section_bytes) 0 string_offset
                    string_cursor data in
      Some (write_relocations (relocations object) (OBJECT_HEADER_SIZE + section_bytes + symbol_bytes) 0 data).

(** ** Decoding *)

Definition read_name (data : RAM) (file_size string_offset string_size relative : Z) : Parse (list Z) :=
  if string_size <=? relative then PError
  else
    let start := string_offset + relative in
    let maximum := string_size - relative in
    length ← find_zero (Z.to_nat maximum) data start 0;
    if (length =? 0) || (file_size <=? start + length) then PError
    else fetch data start length.

Fixpoint read_sections (n : nat) (data : RAM) (section_offset i string_offset string_size : Z) :
    Parse (list CvmObjectSection) :=
  match n with
  | O => mret []
  | S n =>
      let entry := section_offset + i * OBJECT_SECTION_SIZE in
      flags ← read_u32 data (entry + 0x04);
      alignment ← read_u64 data (entry + 0x08);
      data_offset ← read_u64 data (entry + 0x10);
      file_size64 ← read_u64 data (entry + 0x18);
      memory_size ← read_u64 data (entry + 0x20);
      relative ← read_u32 data (entry + 0x00);
      name ← read_name data (ram_size data) string_offset string_size relative;
      parse_guard (range_valid (ram_size data) data_offset file_size64 && negb (SIZE_MAX <? file_size64));;
      bytes ← fetch data data_offset file_size64;
      rest ← read_sections n data section_offset (i + 1) string_offset string_size;
      mret (mkSection name flags alignment bytes memory_size :: rest)
  end.

Fixpoint read_symbols (n : nat) (data : RAM) (symbol_offset i string_offset string_size : Z) :
    Parse (list CvmObjectSymbol) :=
  match n with
  | O => mret []
  | S n =>
      let entry := symbol_offset + i * OBJECT_SYMBOL_SIZE in
      section_index ← read_u16 data (entry + 0x04);
      flags ← read_u16 data (entry + 0x06);
      value ← read_u64 data (entry + 0x08);
      size ← read_u64 data (entry + 0x10);
      relative ← read_u32 data (entry + 0x00);
      name ← read_name data (ram_size data) string_offset string_size relative;
      rest ← read_symbols n data symbol_offset (i + 1) string_offset string_size;
      mret (mkSymbol name section_index flags value size :: rest)
  end.

Fixpoint read_relocations (n : nat) (data : RAM) (relocation_offset i : Z) : Parse (list CvmObjectRelocation) :=
  match n with
  | O => mret []
  | S n =>
      let entry := relocation_offset + i * OBJECT_RELOCATION_SIZE in
      section_index ← read_u16 data (entry + 0x00);
      type ← read_u16 data (entry + 0x02);
      symbol_index ← read_u32 data (entry + 0x04);
      offset ← read_u64 data (entry + 0x08);
      addend ← read_u64 data (entry + 0x10);
      rest ← read_relocations n data relocation_offset (i + 1);
      mret (mkRelocation section_index type symbol_index offset (signed64 addend) :: rest)
  end.

Definition cvm_object_decode (data : RAM) : Parse CvmObjectFile :=
  let size := ram_size data in
  if (size <? OBJECT_HEADER_SIZE) || (CVM_OBJECT_MAX_SIZE <? size) then PError
  else
    section_count ← read_u32 data 0x0C;
    symbol_count ← read_u32 data 0x10;
    relocation_count ← read_u32 data 0x14;
    section_offset ← read_u64 data 0x18;
    symbol_offset ← read_u64 data 0x20;
    relocation_offset ← read_u64 data 0x28;
    string_offset ← read_u64 data 0x30;
    string_size ← read_u64 data 0x38;
    encoded_size ← read_u64 data 0x40;
    magic ← fetch data 0 8;
    version ← read_u32 data 0x08;
    parse_guard (negb (negb (bool_decide (magic = CVM_OBJECT_MAGIC)) || negb (version =? CVM_OBJECT_VERSION) ||
      negb (encoded_size =? size) || (section_count =? 0) || (CVM_OBJECT_MAX_SECTIONS <? section_count) ||
      (CVM_OBJECT_MAX_SYMBOLS <? symbol_count) || (CVM_OBJECT_MAX_RELOCATIONS <? relocation_count)));;
    section_bytes ← parse_option (multiply_size section_count OBJECT_SECTION_SIZE);
    symbol_bytes ← parse_option (multiply_size symbol_count OBJECT_SYMBOL_SIZE);
    relocation_bytes ← parse_option (multiply_size relocation_count OBJECT_RELOCATION_SIZE);
    parse_guard (range_valid size section_offset section_bytes && range_valid size symbol_offset symbol_bytes &&
      range_valid size relocation_offset relocation_bytes && range_valid size string_offset string_size &&
      negb (SIZE_MAX <? string_offset) && negb (SIZE_MAX <? string_size));;
    sections ← read_sections (Z.to_nat section_count) data section_offset 0 string_offset string_size;
    symbols ← read_symbols (Z.to_nat symbol_count) data symbol_offset 0 string_offset string_size;
    relocations ← read_relocations (Z.to_nat relocation_count) data relocation_offset 0;
    let object := mkObject sections symbols relocations in
    parse_guard (object_valid object);;
    mret object.

(** ** Well-formed objects *)

(** The values a field can hold: C strings without their terminator, integers
    of the widths the structures give them. *)
Definition is_string (s : list Z) : Prop := Forall (fun b => 0 < b < 256) s.

Record section_wf (s : CvmObjectSection) : Prop := {
  swf_name : is_string (section_name s);
  swf_flags : 0 <= section_flags s < 2 ^ 32;
  swf_alignment : is_u64 (section_alignment s);
  swf_data : Forall is_u8 (section_data s);
  swf_memory : is_u64 (section_memory_size s);
}.

Record symbol_wf (s : CvmObjectSymbol) : Prop := {
  ywf_name : is_string (symbol_name s);
  ywf_index : 0 <= symbol_section_index s < 2 ^ 16;
  ywf_flags : 0 <= symbol_flags s < 2 ^ 16;
  ywf_value : is_u64 (symbol_value s);
  ywf_size : is_u64 (symbol_size s);
}.

Record relocation_wf (r : CvmObjectRelocation) : Prop := {
  rwf_index : 0 <= relocation_section_index r < 2 ^ 16;
  rwf_type : 0 <= relocation_type r < 2 ^ 16;
  rwf_symbol : 0 <= relocation_symbol_index r < 2 ^ 32;
  rwf_offset : is_u64 (relocation_offset r);
  rwf_addend : - 2 ^ 63 <= relocation_addend r < 2 ^ 63;
}.

Record object_wf (o : CvmObjectFile) : Prop := {
  owf_sections : Forall section_wf (sections o);
  owf_symbols : Forall symbol_wf (symbols o);
  owf_relocations : Forall relocation_wf (relocations o);
}.

(** ** The decoder stays inside its input *)

(** Step over a read whose range is known to be inside. *)
Ltac inside_read_step :=
  eapply inside_bind;
  [ first [ apply inside_read; [done|lia|lia|lia] | apply inside_fetch; lia | apply inside_guard | apply inside_option ]
  | let v := fresh "v" in let H := fresh "Hv" in intros v H; cbv beta in H ].

Lemma signed64_bounds x : is_u64 x -> - 2 ^ 63 <= signed64 x < 2 ^ 63.
Proof. unfold signed64, is_u64. destruct (Z.ltb_spec x 0x8000000000000000); lia. Qed.

Lemma read_name_inside data string_offset string_size relative :
  0 <= string_offset -> string_offset + string_size <= ram_size data -> 0 <= relative ->
  ram_wf data -> inside (read_name data (ram_size data) string_offset string_size relative) is_string.
Proof.
  intros Hs0 Hs Hr Hwf. unfold read_name. destruct (Z.leb_spec string_size relative); [done|].
  eapply inside_bind; [apply inside_find_zero; lia|]. intros n [Hn Hz].
  destruct (_ || _) eqn:E; [done|]. apply orb_false_iff in E as [_ E%Z.leb_gt].
  eapply inside_weaken; [apply inside_fetch; lia|]. intros l ->. apply list.Forall_forall. intros b Hb.
  apply list_elem_of_fmap in Hb as (i & -> & Hi%elem_of_seqZ). pose proof (ram_byte_u8 data i Hwf) as H8.
  specialize (Hz (i - (string_offset + relative)) ltac:(lia)). unfold is_u8 in H8.
  replace (string_offset + relative + (i - (string_offset + relative))) with i in Hz by lia. lia.
Qed.

Lemma read_sections_inside n data section_offset i string_offset string_size :
  ram_wf data -> 0 <= section_offset -> 0 <= i ->
  section_offset + (i + Z.of_nat n) * OBJECT_SECTION_SIZE <= ram_size data ->
  0 <= string_offset -> string_offset + string_size <= ram_size data ->
  inside (read_sections n data section_offset i string_offset string_size) (Forall section_wf).
Proof.
  unfold OBJECT_SECTION_SIZE. intros Hwf Ho. revert i. induction n as [|n IH]; intros i Hi Hs Hs0 Hs1; [constructor|].
  cbn [read_sections]. unfold OBJECT_SECTION_SIZE. do 6 inside_read_step.
  eapply inside_bind; [apply read_name_inside; [lia..|done]|]. intros name Hname.
  inside_read_step. apply andb_true_iff in Hv5 as [Hv5%size_range_valid _]. inside_read_step.
  eapply inside_bind; [apply IH; lia|]. intros rest Hrest. constructor; [|done]. subst. destruct_and?.
  split; cbn; try done. by apply ram_bytes_u8.
Qed.

Lemma read_symbols_inside n data symbol_offset i string_offset string_size :
  ram_wf data -> 0 <= symbol_offset -> 0 <= i ->
  symbol_offset + (i + Z.of_nat n) * OBJECT_SYMBOL_SIZE <= ram_size data ->
  0 <= string_offset -> string_offset + string_size <= ram_size data ->
  inside (read_symbols n data symbol_offset i string_offset string_size) (Forall symbol_wf).
Proof.
  unfold OBJECT_SYMBOL_SIZE. intros Hwf Ho. revert i. induction n as [|n IH]; intros i Hi Hs Hs0 Hs1; [constructor|].
  cbn [read_symbols]. unfold OBJECT_SYMBOL_SIZE. do 5 inside_read_step.
  eapply inside_bind; [apply read_name_inside; [lia..|done]|]. intros name Hname.
  eapply inside_bind; [apply IH; lia|]. intros rest Hrest. constructor; [|done]. destruct_and?. by split.
Qed.

Lemma read_relocations_inside n data relocation_offset i :
  ram_wf data -> 0 <= relocation_offset -> 0 <= i ->
  relocation_offset + (i + Z.of_nat n) * OBJECT_RELOCATION_SIZE <= ram_size data ->
  inside (read_relocations n data relocation_offset i) (Forall relocation_wf).
Proof.
  unfold OBJECT_RELOCATION_SIZE. intros Hwf Ho. revert i. induction n as [|n IH]; intros i Hi Hs; [constructor|].
  cbn [read_relocations]. unfold OBJECT_RELOCATION_SIZE. do 5 inside_read_step.
  eapply inside_bind; [apply IH; lia|]. intros rest Hrest. constructor; [|done]. destruct_and?. split; cbn; try done.
  by apply signed64_bounds.
Qed.

Lemma multiply_size_some a b c : multiply_size a b = Some c -> c = a * b.
Proof. unfold multiply_size. destruct (_ && _); [done|]. by intros [= <-]. Qed.

Lemma decode_inside data : ram_wf data -> inside (cvm_object_decode data) (fun o => object_wf o /\ object_valid o = true).
Proof.
  intros Hwf. unfold cvm_object_decode.
  destruct (Z.ltb_spec (ram_size data) OBJECT_HEADER_SIZE) as [|Hs]; [done|]. cbn [orb].
  destruct (Z.ltb_spec CVM_OBJECT_MAX_SIZE (ram_size data)) as [|Hmax]; [done|].
  unfold OBJECT_HEADER_SIZE, CVM_OBJECT_MAX_SIZE in *.
  do 11 inside_read_step. do 5 inside_read_step.
  rewrite !andb_true_iff, !size_range_valid in Hv14. destruct Hv14 as (((((R1 & R2) & R3) & R4) & _) & _).
  apply multiply_size_some in Hv11, Hv12, Hv13.
  unfold OBJECT_SECTION_SIZE, OBJECT_SYMBOL_SIZE, OBJECT_RELOCATION_SIZE in *.
  eapply inside_bind; [apply read_sections_inside; [done|unfold OBJECT_SECTION_SIZE; lia..]|]. intros ss Hss.
  eapply inside_bind; [apply read_symbols_inside; [done|unfold OBJECT_SYMBOL_SIZE; lia..]|]. intros sy Hsy.
  eapply inside_bind; [apply read_relocations_inside; [done|unfold OBJECT_RELOCATION_SIZE; lia..]|]. intros re Hre.
  inside_read_step. by split.
Qed.

(** ** The layout the encoder produces *)

Definition section_strings (l : list CvmObjectSection) : Z := sum_sizes ((fun s => string_length (section_name s)) <$> l).
Definition symbol_strings (l : list CvmObjectSymbol) : Z := sum_sizes ((fun s => string_length (symbol_name s)) <$> l).
Definition section_files (l : list CvmObjectSection) : Z := sum_sizes (file_size <$> l).

(** What [write_sections] leaves behind. *)
Fixpoint sections_at (data : RAM) (l : list CvmObjectSection) (i string_offset string_cursor file_cursor : Z) : Prop :=
  match l with
  | [] => True
  | s :: l =>
      let entry := OBJECT_HEADER_SIZE + i * OBJECT_SECTION_SIZE in
      (holds_at data (entry + 0x00) (int_to_bytes 4 (string_cursor - string_offset)) /\
       holds_at data (entry + 0x04) (int_to_bytes 4 (section_flags s)) /\
       holds_at data (entry + 0x08) (int_to_bytes 8 (section_alignment s)) /\
       holds_at data (entry + 0x10) (int_to_bytes 8 file_cursor) /\
       holds_at data (entry + 0x18) (int_to_bytes 8 (file_size s)) /\
       holds_at data (entry + 0x20) (int_to_bytes 8 (section_memory_size s)) /\
       holds_at data string_cursor (section_name s ++ [0]) /\
       holds_at data file_cursor (section_data s)) /\
      sections_at data l (i + 1) string_offset (string_cursor + string_length (section_name s))
        (file_cursor + file_size s)
  end.

Fixpoint symbols_at (data : RAM) (l : list CvmObjectSymbol) (table i string_offset string_cursor : Z) : Prop :=
  match l with
  | [] => True
  | s :: l =>
      let entry := table + i * OBJECT_SYMBOL_SIZE in
      (holds_at data (entry + 0x00) (int_to_bytes 4 (string_cursor - string_offset)) /\
       holds_at data (entry + 0x04) (int_to_bytes 2 (symbol_section_index s)) /\
       holds_at data (entry + 0x06) (int_to_bytes 2 (symbol_flags s)) /\
       holds_at data (entry + 0x08) (int_to_bytes 8 (symbol_value s)) /\
       holds_at data (entry + 0x10) (int_to_bytes 8 (symbol_size s)) /\
       holds_at data string_cursor (symbol_name s ++ [0])) /\
      symbols_at data l table (i + 1) string_offset (string_cursor + string_length (symbol_name s))
  end.

Fixpoint relocations_at (data : RAM) (l : list CvmObjectRelocation) (table i : Z) : Prop :=
  match l with
  | [] => True
  | r :: l =>
      let entry := table + i * OBJECT_RELOCATION_SIZE in
      (holds_at data (entry + 0x00) (int_to_bytes 2 (relocation_section_index r)) /\
       holds_at data (entry + 0x02) (int_to_bytes 2 (relocation_type r)) /\
       holds_at data (entry + 0x04) (int_to_bytes 4 (relocation_symbol_index r)) /\
       holds_at data (entry + 0x08) (int_to_bytes 8 (relocation_offset r)) /\
       holds_at data (entry + 0x10) (int_to_bytes 8 (relocation_addend r))) /\
      relocations_at data l table (i + 1)
  end.

(** A field is intact after a sequence of stores elsewhere. *)
Ltac holds_step :=
  first [ apply holds_store_same
        | apply holds_store_other; [|rewrite ?length_app, ?length_int_to_bytes; cbn [length]; lia] ].

Ltac stores :=
  unfold write_u16, write_u32, write_u64, write_string in *; rewrite ?write_loop_store in *;
  change (Z.of_nat 2) with 2 in *; change (Z.of_nat 4) with 4 in *; change (Z.of_nat 8) with 8 in *.

(** A sequence of stores inside the range [lo, hi) of [R]. *)
Ltac changes_step lo hi :=
  etrans; [|eapply (changes_store _ _ _ _ lo hi);
    [first [apply int_to_bytes_u8 | done] | first [by left | by right; left | by right; right; left]
    |lia|rewrite ?length_app, ?length_int_to_bytes; cbn [length]; lia]].

Lemma string_bytes s : is_string s -> Forall is_u8 (s ++ [0]).
Proof.
  intros Hs. apply list.Forall_app. split; [|by apply list.Forall_singleton].
  eapply Forall_impl; [|exact Hs]. unfold is_u8. intros b ?. lia.
Qed.

Lemma string_length_pos s : 0 < string_length s.
Proof. unfold string_length. lia. Qed.

Lemma section_strings_pos l : 0 <= section_strings l.
Proof. apply sum_sizes_pos, Forall_fmap, list.Forall_forall. intros s _. cbn. pose proof (string_length_pos (section_name s)). lia. Qed.

Lemma symbol_strings_pos l : 0 <= symbol_strings l.
Proof. apply sum_sizes_pos, Forall_fmap, list.Forall_forall. intros s _. cbn. pose proof (string_length_pos (symbol_name s)). lia. Qed.

Lemma section_files_pos l : 0 <= section_files l.
Proof. apply sum_sizes_pos, Forall_fmap, list.Forall_forall. intros s _. unfold file_size. cbn. lia. Qed.

Lemma sections_frame R data data' l i so sc fc :
  sections_at data l i so sc fc -> changes_within R data data' ->
  (forall r, r ∈ R ->
    (OBJECT_HEADER_SIZE + (i + Z.of_nat (length l)) * OBJECT_SECTION_SIZE <= r.1 \/
     r.2 <= OBJECT_HEADER_SIZE + i * OBJECT_SECTION_SIZE) /\
    (sc + section_strings l <= r.1 \/ r.2 <= sc) /\ (fc + section_files l <= r.1 \/ r.2 <= fc)) ->
  sections_at data' l i so sc fc.
Proof.
  revert i sc fc. induction l as [|s l IH]; intros i sc fc H Hch HR; [done|].
  destruct H as [(H1 & H2 & H3 & H4 & H5 & H6 & H7 & H8) H]. cbn [sections_at].
  assert (forall r, r ∈ R ->
    (OBJECT_HEADER_SIZE + (i + 1 + Z.of_nat (length l)) * OBJECT_SECTION_SIZE <= r.1 \/
     r.2 <= OBJECT_HEADER_SIZE + i * OBJECT_SECTION_SIZE) /\
    (sc + string_length (section_name s) + section_strings l <= r.1 \/ r.2 <= sc) /\
    (fc + file_size s + section_files l <= r.1 \/ r.2 <= fc)) as HR'.
  { intros r Hr. specialize (HR r Hr). unfold section_strings, section_files in *. cbn [length fmap list_fmap sum_sizes] in HR. 
    rewrite Nat2Z.inj_succ in HR. lia. }
  pose proof (section_strings_pos l). pose proof (section_files_pos l). pose proof (string_length_pos (section_name s)).
  unfold OBJECT_HEADER_SIZE, OBJECT_SECTION_SIZE, string_length, file_size in *.
  split.
  - split_and!; (eapply holds_frame; [eassumption|exact Hch|]; intros r Hr; destruct (HR' r Hr) as (? & ? & ?);
      rewrite ?length_app, ?length_int_to_bytes; cbn [length]; lia).
  - apply IH; [done|done|]. intros r Hr. destruct (HR' r Hr) as (? & ? & ?). lia.
Qed.

Lemma write_sections_spec l i so sc fc data :
  Forall section_wf l -> 0 <= i ->
  OBJECT_HEADER_SIZE + (i + Z.of_nat (length l)) * OBJECT_SECTION_SIZE <= sc -> sc + section_strings l <= fc ->
  let '(data', sc') := write_sections l i so sc fc data in
  sc' = sc + section_strings l /\ sections_at data' l i so sc fc /\
  changes_within [(OBJECT_HEADER_SIZE + i * OBJECT_SECTION_SIZE,
                   OBJECT_HEADER_SIZE + (i + Z.of_nat (length l)) * OBJECT_SECTION_SIZE);
                  (sc, sc + section_strings l); (fc, fc + section_files l)] data data'.
Proof.
  revert i sc fc data. induction l as [|s l IH]; intros i sc fc data Hwf Hi Hsc Hfc.
  { cbn. split_and!; [unfold section_strings; cbn; lia|done..]. }
  apply Forall_cons_1 in Hwf as [Hs Hwf]. cbn [write_sections].
  pose proof (section_strings_pos l) as Hp1. pose proof (section_files_pos l) as Hp2.
  assert (section_strings (s :: l) = string_length (section_name s) + section_strings l) as Es by done.
  assert (section_files (s :: l) = file_size s + section_files l) as Ef by done.
  rewrite Es, Ef in *. cbn [length] in *. rewrite Nat2Z.inj_succ in *.
  set (e := OBJECT_HEADER_SIZE + i * OBJECT_SECTION_SIZE) in *.
  assert (OBJECT_HEADER_SIZE + (i + Z.succ (Z.of_nat (length l))) * OBJECT_SECTION_SIZE = e + 48 + Z.of_nat (length l) * 48) as Ee.
  { unfold e, OBJECT_HEADER_SIZE, OBJECT_SECTION_SIZE. lia. }
  assert (OBJECT_HEADER_SIZE + (i + 1) * OBJECT_SECTION_SIZE = e + 48) as Ee1.
  { unfold e, OBJECT_HEADER_SIZE, OBJECT_SECTION_SIZE. lia. }
  assert (OBJECT_HEADER_SIZE + (i + 1 + Z.of_nat (length l)) * OBJECT_SECTION_SIZE = e + 48 + Z.of_nat (length l) * 48) as Ee2.
  { unfold e, OBJECT_HEADER_SIZE, OBJECT_SECTION_SIZE. lia. }
  rewrite Ee in *. clearbody e. stores.
  set (data1 := store_bytes (store_bytes (store_bytes _ _ _) _ _) fc (section_data s)).
  specialize (IH (i + 1) (sc + string_length (section_name s)) (fc + file_size s) data1 Hwf ltac:(lia)).
  rewrite Ee1, Ee2 in IH. specialize (IH ltac:(pose proof (string_length_pos (section_name s)); lia) ltac:(unfold file_size; lia)).
  destruct (write_sections l (i + 1) so _ _ data1) as [data' sc']. destruct IH as (-> & Hat & Hch).
  pose proof (string_bytes _ (swf_name _ Hs)) as Hsb. pose proof (swf_data _ Hs) as Hdb.
  assert (Z.of_nat (length (section_name s ++ [0])) = string_length (section_name s)) as Hsl.
  { rewrite length_app. unfold string_length. cbn. lia. }
  assert (Z.of_nat (length (section_data s)) = file_size s) as Hfl by done.
  pose proof (string_length_pos (section_name s)) as Hsp.
  assert (0 <= file_size s) as Hfp by (unfold file_size; lia).
  split_and!; [lia| |].
  - cbn [sections_at]. split; [|exact Hat].
    assert (forall a b, holds_at data1 a b ->
      (a + Z.of_nat (length b) <= e + 48 \/ a = sc /\ Z.of_nat (length b) = string_length (section_name s) \/
       a = fc /\ Z.of_nat (length b) = file_size s) -> holds_at data' a b) as Hkeep.
    { intros a b Hab Hcase. eapply holds_frame; [exact Hab|exact Hch|].
      intros r Hr. rewrite !elem_of_cons in Hr. destruct Hr as [->|[->|[->|[]%elem_of_nil]]]; cbn; lia. }
    replace (OBJECT_HEADER_SIZE + i * OBJECT_SECTION_SIZE) with e by (unfold OBJECT_HEADER_SIZE, OBJECT_SECTION_SIZE in *; lia).
    split_and!; (apply Hkeep; [|rewrite ?Hsl, ?Hfl, ?length_int_to_bytes; lia]); unfold data1;
      repeat (first [apply holds_store_same | apply holds_store_other; [|rewrite ?Hsl, ?Hfl, ?length_int_to_bytes; lia]]).
  - transitivity data1.
    + unfold data1.
      etrans; [|eapply (changes_store _ _ _ _ fc (fc + (file_size s + section_files l))); [done|by right; right; left|lia|lia]].
      etrans; [|eapply (changes_store _ _ _ _ sc (sc + (string_length (section_name s) + section_strings l)));
        [done|by right; left|lia|rewrite Hsl; lia]].
      do 6 (etrans; [|eapply (changes_store _ _ _ _ e (e + 48 + Z.of_nat (length l) * 48));
        [apply int_to_bytes_u8|by left|lia|rewrite length_int_to_bytes; lia]]). done.
    + eapply changes_within_weaken; [exact Hch|]. intros r Hr. rewrite !elem_of_cons in Hr.
      destruct Hr as [->|[->|[->|[]%elem_of_nil]]].
      * eexists. split; [by left|]. cbn. lia.
      * eexists. split; [by right; left|]. cbn. lia.
      * eexists. split; [by right; right; left|]. cbn. lia.
Qed.

Lemma write_symbols_spec l table i so sc data :
  Forall symbol_wf l -> 0 <= i -> table + (i + Z.of_nat (length l)) * OBJECT_SYMBOL_SIZE <= sc ->
  let data' := write_symbols l table i so sc data in
  symbols_at data' l table i so sc /\
  changes_within [(table + i * OBJECT_SYMBOL_SIZE, table + (i + Z.of_nat (length l)) * OBJECT_SYMBOL_SIZE);
                  (sc, sc + symbol_strings l)] data data'.
Proof.
  revert i sc data. induction l as [|s l IH]; intros i sc data Hwf Hi Hsc; [done|].
  apply Forall_cons_1 in Hwf as [Hs Hwf]. cbn [write_symbols].
  pose proof (symbol_strings_pos l) as Hp1.
  assert (symbol_strings (s :: l) = string_length (symbol_name s) + symbol_strings l) as Es by done.
  rewrite Es in *. cbn [length] in *. rewrite Nat2Z.inj_succ in *.
  set (e := table + i * OBJECT_SYMBOL_SIZE) in *.
  assert (table + (i + Z.succ (Z.of_nat (length l))) * OBJECT_SYMBOL_SIZE = e + 32 + Z.of_nat (length l) * 32 /\
    table + (i + 1) * OBJECT_SYMBOL_SIZE = e + 32 /\
    table + (i + 1 + Z.of_nat (length l)) * OBJECT_SYMBOL_SIZE = e + 32 + Z.of_nat (length l) * 32) as (Ee & Ee1 & Ee2).
  { unfold e, OBJECT_SYMBOL_SIZE. lia. }
  rewrite Ee in *. stores.
  set (data1 := store_bytes (store_bytes (store_bytes _ _ _) _ _) sc (symbol_name s ++ [0])).
  pose proof (string_length_pos (symbol_name s)) as Hsp.
  specialize (IH (i + 1) (sc + string_length (symbol_name s)) data1 Hwf ltac:(lia)).
  rewrite Ee1, Ee2 in IH. specialize (IH ltac:(lia)). set (data' := write_symbols l table (i + 1) so _ data1) in *.
  destruct IH as (Hat & Hch). pose proof (string_bytes _ (ywf_name _ Hs)) as Hsb.
  assert (Z.of_nat (length (symbol_name s ++ [0])) = string_length (symbol_name s)) as Hsl.
  { rewrite length_app. unfold string_length. cbn. lia. }
  split.
  - cbn [symbols_at]. split; [|exact Hat]. fold e.
    assert (forall a b, holds_at data1 a b ->
      (a + Z.of_nat (length b) <= e + 32 \/ a = sc /\ Z.of_nat (length b) = string_length (symbol_name s)) ->
      holds_at data' a b) as Hkeep.
    { intros a b Hab Hcase. eapply holds_frame; [exact Hab|exact Hch|].
      intros r Hr. rewrite !elem_of_cons in Hr. destruct Hr as [->|[->|[]%elem_of_nil]]; cbn; lia. }
    split_and!; (apply Hkeep; [|rewrite ?Hsl, ?length_int_to_bytes; lia]); unfold data1;
      repeat (first [apply holds_store_same | apply holds_store_other; [|rewrite ?Hsl, ?length_int_to_bytes; lia]]).
  - transitivity data1.
    + unfold data1.
      etrans; [|eapply (changes_store _ _ _ _ sc (sc + (string_length (symbol_name s) + symbol_strings l)));
        [done|by right; left|lia|rewrite Hsl; lia]].
      do 5 (etrans; [|eapply (changes_store _ _ _ _ e (e + 32 + Z.of_nat (length l) * 32));
        [apply int_to_bytes_u8|by left|lia|rewrite length_int_to_bytes; lia]]). done.
    + eapply changes_within_weaken; [exact Hch|]. intros r Hr. rewrite !elem_of_cons in Hr.
      destruct Hr as [->|[->|[]%elem_of_nil]].
      * eexists. split; [by left|]. cbn. lia.
      * eexists. split; [by right; left|]. cbn. lia.
Qed.

Lemma write_relocations_spec l table i data :
  0 <= i ->
  let data' := write_relocations l table i data in
  relocations_at data' l table i /\
  changes_within [(table + i * OBJECT_RELOCATION_SIZE, table + (i + Z.of_nat (length l)) * OBJECT_RELOCATION_SIZE)] data data'.
Proof.
  revert i data. induction l as [|s l IH]; intros i data Hi; [done|]. cbn [write_relocations length].
  rewrite Nat2Z.inj_succ. set (e := table + i * OBJECT_RELOCATION_SIZE) in *.
  assert (table + (i + Z.succ (Z.of_nat (length l))) * OBJECT_RELOCATION_SIZE = e + 32 + Z.of_nat (length l) * 32 /\
    table + (i + 1) * OBJECT_RELOCATION_SIZE = e + 32 /\
    table + (i + 1 + Z.of_nat (length l)) * OBJECT_RELOCATION_SIZE = e + 32 + Z.of_nat (length l) * 32) as (Ee & Ee1 & Ee2).
  { unfold e, OBJECT_RELOCATION_SIZE. lia. }
  rewrite Ee in *. stores. set (data1 := store_bytes (store_bytes (store_bytes _ _ _) _ _) (e + 0x10) _).
  specialize (IH (i + 1) data1 ltac:(lia)). rewrite Ee1, Ee2 in IH.
  set (data' := write_relocations l table (i + 1) data1) in *. destruct IH as (Hat & Hch). split.
  - cbn [relocations_at]. split; [|exact Hat]. fold e.
    assert (forall a b, holds_at data1 a b -> a + Z.of_nat (length b) <= e + 32 -> holds_at data' a b) as Hkeep.
    { intros a b Hab Hcase. eapply holds_frame; [exact Hab|exact Hch|].
      intros r ->%list_elem_of_singleton. cbn. lia. }
    split_and!; (apply Hkeep; [|rewrite length_int_to_bytes; lia]); unfold data1;
      repeat (first [apply holds_store_same | apply holds_store_other; [|rewrite ?length_int_to_bytes; lia]]).
  - transitivity data1.
    + unfold data1. do 5 (etrans; [|eapply (changes_store _ _ _ _ e (e + 32 + Z.of_nat (length l) * 32));
        [apply int_to_bytes_u8|by left|lia|rewrite length_int_to_bytes; lia]]). done.
    + eapply changes_within_weaken; [exact Hch|]. intros r ->%list_elem_of_singleton.
      eexists. split; [by left|]. cbn. lia.
Qed.

(** The tables survive writes elsewhere. *)
Lemma symbols_frame R data data' l table i so sc :
  symbols_at data l table i so sc -> changes_within R data data' ->
  (forall r, r ∈ R ->
    (table + (i + Z.of_nat (length l)) * OBJECT_SYMBOL_SIZE <= r.1 \/ r.2 <= table + i * OBJECT_SYMBOL_SIZE) /\
    (sc + symbol_strings l <= r.1 \/ r.2 <= sc)) ->
  symbols_at data' l table i so sc.
Proof.
  revert i sc. induction l as [|s l IH]; intros i sc H Hch HR; [done|].
  destruct H as [(H1 & H2 & H3 & H4 & H5 & H6) H]. cbn [symbols_at].
  assert (forall r, r ∈ R ->
    (table + (i + 1 + Z.of_nat (length l)) * OBJECT_SYMBOL_SIZE <= r.1 \/ r.2 <= table + i * OBJECT_SYMBOL_SIZE) /\
    (sc + string_length (symbol_name s) + symbol_strings l <= r.1 \/ r.2 <= sc)) as HR'.
  { intros r Hr. specialize (HR r Hr). unfold symbol_strings in *. cbn [length fmap list_fmap sum_sizes] in HR.
    rewrite Nat2Z.inj_succ in HR. lia. }
  pose proof (symbol_strings_pos l). pose proof (string_length_pos (symbol_name s)).
  unfold OBJECT_SYMBOL_SIZE, string_length in *. split.
  - split_and!; (eapply holds_frame; [eassumption|exact Hch|]; intros r Hr; destruct (HR' r Hr) as (? & ?);
      rewrite ?length_app, ?length_int_to_bytes; cbn [length]; lia).
  - apply IH; [done|done|]. intros r Hr. destruct (HR' r Hr) as (? & ?). lia.
Qed.

(** ** Reading it back *)

Lemma read_name_ok data so ss a name :
  holds_at data a (name ++ [0]) -> is_string name -> name <> [] -> 0 <= so <= a ->
  a + string_length name <= so + ss -> so + ss <= ram_size data ->
  read_name data (ram_size data) so ss (a - so) = POk name.
Proof.
  intros H Hs Hne Ha Hend Hsize. unfold read_name, string_length in *.
  rewrite (proj2 (Z.leb_gt ss (a - so))) by lia. replace (so + (a - so)) with a by lia.
  rewrite (holds_find_zero _ data a name 0); [|done| |lia|lia|lia].
  2:{ eapply Forall_impl; [|exact Hs]. intros b Hb. cbn in Hb. lia. }
  cbn [mbind Parse_bind]. rewrite Z.add_0_l.
  destruct name as [|b name]; [done|]. rewrite (proj2 (Z.eqb_neq _ 0)), (proj2 (Z.leb_gt _ _)) by (cbn [length] in *; lia).
  cbn [orb]. apply holds_fetch; [|done|lia|lia].
  unfold holds_at in *. rewrite length_app, Nat2Z.inj_add, ram_bytes_app in H by lia.
  by apply app_inj_1 in H as [H _]; [|rewrite length_ram_bytes; lia].
Qed.

(** Step over a field that is known. *)
Ltac read_step H :=
  rewrite (holds_read _ _ _ _ H) by (done || lia); cbn [mbind Parse_bind].

Lemma read_sections_ok l data i so ss sc fc :
  sections_at data l i so sc fc -> Forall section_wf l -> Forall (fun s => section_name s <> []) l -> 0 <= i ->
  ram_size data <= CVM_OBJECT_MAX_SIZE ->
  OBJECT_HEADER_SIZE + (i + Z.of_nat (length l)) * OBJECT_SECTION_SIZE <= ram_size data ->
  0 <= so <= sc -> sc + section_strings l <= so + ss -> so + ss <= ram_size data ->
  0 <= fc -> fc + section_files l <= ram_size data ->
  read_sections (length l) data OBJECT_HEADER_SIZE i so ss = POk l.
Proof.
  revert i sc fc. induction l as [|s l IH]; intros i sc fc Hat Hwf Hne Hi Hmax He Hso Hss Hsz Hfc Hff; [done|].
  apply Forall_cons_1 in Hwf as [Hs Hwf]. apply Forall_cons_1 in Hne as [Hn Hne].
  destruct Hat as [(H1 & H2 & H3 & H4 & H5 & H6 & H7 & H8) Hat].
  pose proof (section_strings_pos l) as Hp1. pose proof (section_files_pos l) as Hp2.
  pose proof (string_length_pos (section_name s)) as Hp3.
  assert (section_strings (s :: l) = string_length (section_name s) + section_strings l) as Es by done.
  assert (section_files (s :: l) = file_size s + section_files l) as Ef by done. rewrite Es, Ef in *.
  assert (0 <= file_size s) as Hfp by (unfold file_size; lia).
  pose proof (swf_flags _ Hs). pose proof (swf_alignment _ Hs) as Ha. pose proof (swf_memory _ Hs) as Hm.
  unfold OBJECT_HEADER_SIZE, OBJECT_SECTION_SIZE, CVM_OBJECT_MAX_SIZE, is_u64 in *. cbn [length] in *.
  rewrite Nat2Z.inj_succ in He. cbn [read_sections]. unfold read_u32, read_u64, OBJECT_SECTION_SIZE.
  read_step H2. read_step H3. read_step H4. read_step H5. read_step H6. read_step H1.
  rewrite (read_name_ok data so ss sc (section_name s)) by (done || apply Hs || lia). cbn [mbind Parse_bind].
  rewrite (proj2 (size_range_valid _ _ _)), (proj2 (Z.ltb_ge SIZE_MAX _)) by (unfold SIZE_MAX, UINT64_MAX; lia).
  cbn [andb negb parse_guard mbind Parse_bind].
  rewrite (holds_fetch data fc _ _ H8) by (done || unfold file_size in *; lia). cbn [mbind Parse_bind].
  rewrite (IH (i + 1) _ _ Hat Hwf Hne) by lia. cbn [mbind Parse_bind mret Parse_ret]. by destruct s.
Qed.

Lemma read_symbols_ok l data table i so ss sc :
  symbols_at data l table i so sc -> Forall symbol_wf l -> Forall (fun s => symbol_name s <> []) l -> 0 <= i -> 0 <= table ->
  ram_size data <= CVM_OBJECT_MAX_SIZE ->
  table + (i + Z.of_nat (length l)) * OBJECT_SYMBOL_SIZE <= ram_size data ->
  0 <= so <= sc -> sc + symbol_strings l <= so + ss -> so + ss <= ram_size data ->
  read_symbols (length l) data table i so ss = POk l.
Proof.
  revert i sc. induction l as [|s l IH]; intros i sc Hat Hwf Hne Hi Ht Hmax He Hso Hss Hsz; [done|].
  apply Forall_cons_1 in Hwf as [Hs Hwf]. apply Forall_cons_1 in Hne as [Hn Hne].
  destruct Hat as [(H1 & H2 & H3 & H4 & H5 & H6) Hat].
  pose proof (symbol_strings_pos l) as Hp1. pose proof (string_length_pos (symbol_name s)) as Hp3.
  assert (symbol_strings (s :: l) = string_length (symbol_name s) + symbol_strings l) as Es by done. rewrite Es in *.
  pose proof (ywf_index _ Hs). pose proof (ywf_flags _ Hs). pose proof (ywf_value _ Hs) as Hv. pose proof (ywf_size _ Hs) as Hz.
  unfold OBJECT_SYMBOL_SIZE, CVM_OBJECT_MAX_SIZE, is_u64 in *. cbn [length] in *.
  rewrite Nat2Z.inj_succ in He. cbn [read_symbols]. unfold read_u16, read_u32, read_u64, OBJECT_SYMBOL_SIZE.
  read_step H2. read_step H3. read_step H4. read_step H5. read_step H1.
  rewrite (read_name_ok data so ss sc (symbol_name s)) by (done || apply Hs || lia). cbn [mbind Parse_bind].
  rewrite (IH (i + 1) _ Hat Hwf Hne) by lia. cbn [mbind Parse_bind mret Parse_ret]. by destruct s.
Qed.

Lemma signed64_wrap v : - 2 ^ 63 <= v < 2 ^ 63 -> signed64 (wrap64 v) = v.
Proof.
  intros Hv. unfold signed64, wrap64. change 0x10000000000000000 with (2 ^ 64).
  change 0x8000000000000000 with (2 ^ 63). destruct (Z.lt_ge_cases v 0).
  - replace (v mod 2 ^ 64) with (v + 2 ^ 64) by (apply (Z.mod_unique _ _ (-1)); lia).
    rewrite (proj2 (Z.ltb_ge _ _)) by lia. lia.
  - rewrite Z.mod_small by lia. rewrite (proj2 (Z.ltb_lt _ _)) by lia. done.
Qed.

Lemma int_to_bytes_wrap v : int_to_bytes 8 v = int_to_bytes 8 (wrap64 v).
Proof. symmetry. apply (int_to_bytes_mod v 8). Qed.

Lemma read_relocations_ok l data table i :
  relocations_at data l table i -> Forall relocation_wf l -> 0 <= i -> 0 <= table ->
  table + (i + Z.of_nat (length l)) * OBJECT_RELOCATION_SIZE <= ram_size data ->
  read_relocations (length l) data table i = POk l.
Proof.
  revert i. induction l as [|r l IH]; intros i Hat Hwf Hi Ht He; [done|].
  apply Forall_cons_1 in Hwf as [Hr Hwf]. destruct Hat as [(H1 & H2 & H3 & H4 & H5) Hat].
  pose proof (rwf_index _ Hr). pose proof (rwf_type _ Hr). pose proof (rwf_symbol _ Hr).
  pose proof (rwf_offset _ Hr) as Ho. rewrite int_to_bytes_wrap in H5.
  pose proof (wrap64_u64 (relocation_addend r)) as Hw.
  unfold OBJECT_RELOCATION_SIZE, is_u64 in *. cbn [length] in *.
  rewrite Nat2Z.inj_succ in He. cbn [read_relocations]. unfold read_u16, read_u32, read_u64, OBJECT_RELOCATION_SIZE.
  read_step H1. read_step H2. read_step H3. read_step H4. read_step H5.
  rewrite (IH (i + 1) Hat Hwf) by lia. cbn [mbind Parse_bind mret Parse_ret].
  rewrite signed64_wrap by apply Hr. by destruct r.
Qed.

(** The header fields, each where the decoder looks for it. *)
Definition header_at (data : RAM) (o : CvmObjectFile) (symbol_table relocation_table so ss size : Z) : Prop :=
  holds_at data 0 CVM_OBJECT_MAGIC /\
  holds_at data 0x08 (int_to_bytes 4 CVM_OBJECT_VERSION) /\
  holds_at data 0x0C (int_to_bytes 4 (section_count o)) /\
  holds_at data 0x10 (int_to_bytes 4 (symbol_count o)) /\
  holds_at data 0x14 (int_to_bytes 4 (relocation_count o)) /\
  holds_at data 0x18 (int_to_bytes 8 OBJECT_HEADER_SIZE) /\
  holds_at data 0x20 (int_to_bytes 8 symbol_table) /\
  holds_at data 0x28 (int_to_bytes 8 relocation_table) /\
  holds_at data 0x30 (int_to_bytes 8 so) /\
  holds_at data 0x38 (int_to_bytes 8 ss) /\
  holds_at data 0x40 (int_to_bytes 8 size).

Lemma write_header_spec o sb yb so ss size data :
  let data' := write_header o sb yb so ss size data in
  header_at data' o (OBJECT_HEADER_SIZE + sb) (OBJECT_HEADER_SIZE + sb + yb) so ss size /\
  changes_within [(0, OBJECT_HEADER_SIZE)] data data'.
Proof.
  unfold write_header, header_at. stores.
  assert (Z.of_nat (length CVM_OBJECT_MAGIC) = 8) as Hm by done. split.
  - split_and!; repeat (first [apply holds_store_same
      | apply holds_store_other; [|rewrite ?Hm, ?length_int_to_bytes; lia]]).
  - unfold OBJECT_HEADER_SIZE at 4.
    do 10 (etrans; [|eapply (changes_store _ _ _ _ 0 80);
      [apply int_to_bytes_u8|by left|lia|rewrite length_int_to_bytes; lia]]).
    eapply (changes_store _ _ _ _ 0 80); [|by left|lia|rewrite Hm; lia].
    repeat constructor; unfold is_u8; lia.
Qed.

Lemma header_frame R data data' o st rt so ss size :
  header_at data o st rt so ss size -> changes_within R data data' ->
  (forall r, r ∈ R -> OBJECT_HEADER_SIZE <= r.1) -> header_at data' o st rt so ss size.
Proof.
  intros H Hch HR. unfold header_at, OBJECT_HEADER_SIZE in *. destruct_and! H.
  assert (Z.of_nat (length CVM_OBJECT_MAGIC) = 8) as Hm by done.
  split_and!; (eapply holds_frame; [eassumption|exact Hch|]; intros r Hr; specialize (HR r Hr);
    rewrite ?Hm, ?length_int_to_bytes; lia).
Qed.

Lemma add_sizes_ok c l :
  Forall (fun n => 0 <= n) l -> c + sum_sizes l <= SIZE_MAX -> add_sizes c l = Some (c + sum_sizes l).
Proof.
  intros Hl. revert c. induction Hl as [|n l Hn Hl IH]; intros c Hc; cbn [add_sizes sum_sizes] in *; [f_equal; lia|].
  pose proof (sum_sizes_pos l Hl). rewrite add_size_ok by lia. rewrite IH by lia. f_equal. lia.
Qed.

(** ** The layout of an image *)

Definition symbol_table (o : CvmObjectFile) : Z := OBJECT_HEADER_SIZE + section_count o * OBJECT_SECTION_SIZE.
Definition relocation_table (o : CvmObjectFile) : Z := symbol_table o + symbol_count o * OBJECT_SYMBOL_SIZE.
Definition string_table (o : CvmObjectFile) : Z := relocation_table o + relocation_count o * OBJECT_RELOCATION_SIZE.
Definition string_table_size (o : CvmObjectFile) : Z := section_strings (sections o) + symbol_strings (symbols o).
Definition object_size (o : CvmObjectFile) : Z := string_table o + string_table_size o + section_files (sections o).

(** An image that holds [o]. *)
Record image_of (o : CvmObjectFile) (data : RAM) : Prop := {
  image_size : ram_size data = object_size o;
  image_header : header_at data o (symbol_table o) (relocation_table o) (string_table o) (string_table_size o) (object_size o);
  image_sections : sections_at data (sections o) 0 (string_table o) (string_table o) (string_table o + string_table_size o);
  image_symbols : symbols_at data (symbols o) (symbol_table o) 0 (string_table o) (string_table o + section_strings (sections o));
  image_relocations : relocations_at data (relocations o) (relocation_table o) 0;
}.

(** The tables follow one another without overlap. *)
Lemma layout_facts o :
  OBJECT_HEADER_SIZE <= symbol_table o <= relocation_table o /\ relocation_table o <= string_table o /\
  0 <= section_strings (sections o) /\ 0 <= symbol_strings (symbols o) /\ 0 <= section_files (sections o).
Proof.
  pose proof (section_strings_pos (sections o)). pose proof (symbol_strings_pos (symbols o)).
  pose proof (section_files_pos (sections o)).
  unfold string_table, relocation_table, symbol_table, section_count, symbol_count, relocation_count,
    OBJECT_HEADER_SIZE, OBJECT_SECTION_SIZE, OBJECT_SYMBOL_SIZE, OBJECT_RELOCATION_SIZE. lia.
Qed.

Ltac unfold_layout :=
  unfold object_size, string_table_size, string_table, relocation_table, symbol_table, OBJECT_HEADER_SIZE,
    OBJECT_SECTION_SIZE, OBJECT_SYMBOL_SIZE, OBJECT_RELOCATION_SIZE in *.

Lemma fmap_sizes_pos {A} (f : A -> Z) l : (forall x, 0 <= f x) -> Forall (fun n => 0 <= n) (f <$> l).
Proof. intros H. apply Forall_fmap, list.Forall_forall. intros x _. apply H. Qed.

(** The size computation of [cvm_object_write], without its overflow checks. *)
Lemma cvm_object_encode_eq o :
  object_valid o = true -> object_size o <= CVM_OBJECT_MAX_SIZE ->
  cvm_object_encode o =
    let data := write_header o (section_count o * OBJECT_SECTION_SIZE) (symbol_count o * OBJECT_SYMBOL_SIZE)
                  (string_table o) (string_table_size o) (object_size o) (zeroed (object_size o)) in
    let '(data, string_cursor) :=
      write_sections (sections o) 0 (string_table o) (string_table o) (string_table o + string_table_size o) data in
    let data := write_symbols (symbols o) (symbol_table o) 0 (string_table o) string_cursor data in
    Some (write_relocations (relocations o) (relocation_table o) 0 data).
Proof.
  intros Hv Hs. unfold cvm_object_encode. rewrite Hv. cbn [negb].
  destruct (layout_facts o) as (L1 & L2 & L3 & L4 & L5).
  assert (0 <= section_count o /\ 0 <= symbol_count o /\ 0 <= relocation_count o) as (C1 & C2 & C3)
    by (unfold section_count, symbol_count, relocation_count; lia).
  assert (CVM_OBJECT_MAX_SIZE < SIZE_MAX) as Hmax by done.
  unfold_layout. rewrite !multiply_size_ok by lia. cbn [mbind option_bind].
  do 3 (rewrite add_size_ok by lia; cbn [mbind option_bind]).
  assert (forall s, 0 <= string_length s) as Hp by (intros s; pose proof (string_length_pos s); lia).
  unfold section_strings, symbol_strings, section_files in *.
  rewrite add_sizes_ok by (lia || apply fmap_sizes_pos; done). cbn [mbind option_bind].
  rewrite add_sizes_ok by (lia || apply fmap_sizes_pos; done). cbn [mbind option_bind].
  rewrite add_sizes_ok by (lia || apply fmap_sizes_pos; intros; unfold file_size; lia). cbn [mbind option_bind].
  rewrite (proj2 (Z.ltb_ge _ _)) by lia.
  match goal with |- context [write_header _ _ _ _ ?s _ _] => set (ssz := s) end.
  assert (ssz = sum_sizes ((fun s => string_length (section_name s)) <$> sections o) +
                sum_sizes ((fun s => string_length (symbol_name s)) <$> symbols o)) as -> by (unfold ssz; lia).
  set (s1 := sum_sizes ((fun s => string_length (section_name s)) <$> sections o)) in *.
  set (s2 := sum_sizes ((fun s => string_length (symbol_name s)) <$> symbols o)) in *.
  rewrite (Z.add_assoc _ s1 s2).
  match goal with |- context [write_sections ?l 0 ?a ?b ?c ?d] => destruct (write_sections l 0 a b c d) end.
  reflexivity.
Qed.

Lemma encode_image o :
  object_wf o -> object_valid o = true -> object_size o <= CVM_OBJECT_MAX_SIZE ->
  exists data, cvm_object_encode o = Some data /\ image_of o data.
Proof.
  intros [W1 W2 W3] Hv Hs. rewrite cvm_object_encode_eq by done. cbv zeta.
  destruct (layout_facts o) as (L1 & L2 & L3 & L4 & L5).
  destruct (write_header_spec o (section_count o * OBJECT_SECTION_SIZE) (symbol_count o * OBJECT_SYMBOL_SIZE)
    (string_table o) (string_table_size o) (object_size o) (zeroed (object_size o))) as [Hh Ch].
  set (d0 := write_header _ _ _ _ _ _ _) in *. clearbody d0.
  pose proof (write_sections_spec (sections o) 0 (string_table o) (string_table o) (string_table o + string_table_size o) d0 W1) as Hsec.
  destruct (write_sections _ _ _ _ _ d0) as [d1 sc].
  destruct Hsec as (-> & Hsec & C1); [lia|unfold_layout; unfold section_count in *; lia|unfold_layout; lia|].
  destruct (write_symbols_spec (symbols o) (symbol_table o) 0 (string_table o)
    (string_table o + section_strings (sections o)) d1 W2) as [Hsym C2];
    [lia|unfold_layout; unfold symbol_count in *; lia|].
  set (d2 := write_symbols _ _ _ _ _ d1) in *. clearbody d2.
  destruct (write_relocations_spec (relocations o) (relocation_table o) 0 d2) as [Hrel C3]; [lia|].
  set (d3 := write_relocations _ _ _ d2) in *. clearbody d3.
  exists d3. split; [done|]. rewrite !Z.add_0_l in *.
  fold (section_count o) in *. fold (symbol_count o) in *. fold (relocation_count o) in *.
  split.
  - destruct C3 as [-> _], C2 as [-> _], C1 as [-> _], Ch as [-> _]. done.
  - eapply header_frame; [|exact C3|]; [eapply header_frame; [|exact C2|]; [eapply header_frame; [exact Hh|exact C1|]|]|].
    all: intros r Hr; rewrite !elem_of_cons in Hr; unfold_layout.
    + destruct Hr as [->|[->|[->|[]%elem_of_nil]]]; cbn; lia.
    + destruct Hr as [->|[->|[]%elem_of_nil]]; cbn; lia.
    + destruct Hr as [->|[]%elem_of_nil]; cbn; lia.
  - eapply sections_frame; [eapply sections_frame; [exact Hsec|exact C2|]|exact C3|].
    all: intros r Hr; rewrite !elem_of_cons in Hr; fold (section_count o); rewrite !Z.add_0_l; unfold_layout.
    + destruct Hr as [->|[->|[]%elem_of_nil]]; cbn; lia.
    + destruct Hr as [->|[]%elem_of_nil]; cbn; lia.
  - eapply symbols_frame; [exact Hsym|exact C3|].
    intros r Hr; rewrite !elem_of_cons in Hr; fold (symbol_count o); rewrite !Z.add_0_l; unfold_layout.
    destruct Hr as [->|[]%elem_of_nil]; cbn; lia.
  - exact Hrel.
Qed.

(** A valid object names its sections and symbols and respects the limits. *)
Lemma object_valid_facts o :
  object_valid o = true ->
  (0 < section_count o <= CVM_OBJECT_MAX_SECTIONS /\ symbol_count o <= CVM_OBJECT_MAX_SYMBOLS /\
   relocation_count o <= CVM_OBJECT_MAX_RELOCATIONS) /\
  Forall (fun s => section_name s <> []) (sections o) /\ Forall (fun s => symbol_name s <> []) (symbols o).
Proof.
  unfold object_valid. rewrite !andb_true_iff, negb_true_iff, !orb_false_iff. intros ((((((H1 & H2) & H3) & H4) & Hs) & Hy) & _).
  apply Z.eqb_neq in H1. apply Z.ltb_ge in H2, H3, H4. split_and!; try (unfold section_count in *; lia).
  - apply list.Forall_forall. intros s Hin%list_elem_of_In. apply (proj1 (forallb_forall _ _) Hs) in Hin.
    unfold section_valid in Hin. by destruct (section_name s).
  - apply list.Forall_forall. intros s Hin%list_elem_of_In. apply (proj1 (forallb_forall _ _) Hy) in Hin.
    unfold symbol_valid in Hin. by destruct (symbol_name s).
Qed.

Lemma decode_image o data :
  object_wf o -> object_valid o = true -> object_size o <= CVM_OBJECT_MAX_SIZE -> image_of o data ->
  cvm_object_decode data = POk o.
Proof.
  intros [W1 W2 W3] Hv Hs [Isz (H1 & H2 & H3 & H4 & H5 & H6 & H7 & H8 & H9 & H10 & H11) I1 I2 I3].
  destruct (object_valid_facts o Hv) as ((V1 & V2 & V3) & N1 & N2).
  destruct (layout_facts o) as (L1 & L2 & L3 & L4 & L5).
  assert (0 <= symbol_count o /\ 0 <= relocation_count o) as (P2 & P3)
    by (unfold symbol_count, relocation_count; lia).
  unfold CVM_OBJECT_MAX_SECTIONS, CVM_OBJECT_MAX_SYMBOLS, CVM_OBJECT_MAX_RELOCATIONS, CVM_OBJECT_MAX_SIZE in *.
  assert (OBJECT_HEADER_SIZE <= object_size o) as Hge by (unfold_layout; lia).
  assert (string_table o + string_table_size o + section_files (sections o) = object_size o) as Hend by done.
  assert (0 <= string_table_size o) as Hss by (unfold string_table_size; lia).
  unfold cvm_object_decode. rewrite (proj2 (Z.ltb_ge _ _)), (proj2 (Z.ltb_ge CVM_OBJECT_MAX_SIZE _)) by (rewrite Isz; unfold_layout; unfold CVM_OBJECT_MAX_SIZE; lia).
  cbn [orb]. unfold read_u32, read_u64. unfold OBJECT_HEADER_SIZE in *.
  read_step H3. read_step H4. read_step H5. read_step H6. read_step H7. read_step H8. read_step H9. read_step H10. read_step H11.
  rewrite (holds_fetch data 0 _ 8 H1) by (done || lia). cbn [mbind Parse_bind]. read_step H2.
  rewrite bool_decide_eq_true_2, !Z.eqb_refl, (proj2 (Z.eqb_neq (section_count o) 0)) by (done || lia).
  unfold CVM_OBJECT_MAX_SECTIONS, CVM_OBJECT_MAX_SYMBOLS, CVM_OBJECT_MAX_RELOCATIONS.
  rewrite Isz, Z.eqb_refl, (proj2 (Z.ltb_ge 32 _)), (proj2 (Z.ltb_ge 65536 _)), (proj2 (Z.ltb_ge 1048576 _)) by lia.
  cbn [negb orb andb parse_guard mbind Parse_bind].
  assert (2 ^ 32 < SIZE_MAX) as HM by done.
  rewrite !multiply_size_ok by (done || unfold OBJECT_SECTION_SIZE, OBJECT_SYMBOL_SIZE, OBJECT_RELOCATION_SIZE; lia).
  cbn [parse_option mbind Parse_bind].
  rewrite !(proj2 (size_range_valid _ _ _)) by (unfold_layout; lia).
  rewrite (proj2 (Z.ltb_ge SIZE_MAX (string_table o))), (proj2 (Z.ltb_ge SIZE_MAX (string_table_size o))) by lia.
  cbn [negb orb andb parse_guard mbind Parse_bind].
  unfold section_count, symbol_count, relocation_count. rewrite !Nat2Z.id.
  rewrite (read_sections_ok _ _ _ _ _ _ _ I1) by (done || unfold CVM_OBJECT_MAX_SIZE; unfold_layout; unfold section_count in *; lia).
  cbn [mbind Parse_bind].
  rewrite (read_symbols_ok _ _ _ _ _ _ _ I2) by (done || unfold CVM_OBJECT_MAX_SIZE; unfold_layout; unfold symbol_count in *; lia).
  cbn [mbind Parse_bind].
  rewrite (read_relocations_ok _ _ _ _ I3) by (done || unfold_layout; unfold relocation_count in *; lia).
  cbn [mbind Parse_bind]. destruct o as [ss ys rs]. cbn [sections symbols relocations]. rewrite Hv. done.
Qed.

(** ** The format keeps its promise *)

(** A small object: [.text] of four bytes with a relocated call, a zeroed
    [.bss], a defined entry symbol and an undefined one. *)
Definition demo_object : CvmObjectFile :=
  mkObject
    [mkSection [46; 116] 5 16 [1; 2; 3; 4] 4; mkSection [46; 98] 11 8 [] 64]
    [mkSymbol [95; 115] 0 7 0 4; mkSymbol [112] CVM_OBJECT_UNDEFINED_SECTION 1 0 0]
    [mkRelocation 0 CVM_OBJECT_RELOCATION_REL32 1 0 (-4)].

Lemma demo_object_wf : object_wf demo_object.
Proof.
  split; repeat constructor; cbn; unfold is_u64; try lia; done.
Qed.

(** C15: An object file survives being written and read back.  For every object
    that the format's rules accept and whose image fits the size limit,
    [cvm_object_write] produces an image of exactly the computed size, and
    [cvm_object_read] of that image succeeds and yields the same sections
    (names, flags, alignment, contents, memory size), the same symbols and the
    same relocations, negative addends included. *)
Theorem object_roundtrip o :
  object_wf o -> object_valid o = true -> object_size o <= CVM_OBJECT_MAX_SIZE ->
  exists image, cvm_object_encode o = Some image /\ ram_size image = object_size o /\
                cvm_object_decode image = POk o.
Proof.
  intros Hwf Hv Hs. destruct (encode_image o Hwf Hv Hs) as (image & He & Hi).
  exists image. split_and!; [done|apply Hi|by apply decode_image].
Qed.

Lemma object_roundtrip_witness :
  object_valid demo_object = true /\
  exists image, cvm_object_encode demo_object = Some image /\ ram_size image = 287 /\
                cvm_object_decode image = POk demo_object.
Proof.
  split; [reflexivity|]. change 287 with (object_size demo_object).
  apply (object_roundtrip demo_object demo_object_wf); [reflexivity|]. vm_compute. discriminate.
Defined.

(** What [object_valid] says of a relocation: the patched field lies in the
    bytes of the section it names. *)
Lemma relocations_in_sections o :
  object_valid o = true ->
  Forall (fun r => exists s, sections o !! Z.to_nat (relocation_section_index r) = Some s /\
    relocation_offset r + cvm_object_relocation_width (relocation_type r) <= file_size s) (relocations o).
Proof.
  intros Hv. destruct (object_valid_facts o Hv) as ((Hpos & _) & _). unfold section_count in Hpos.
  unfold object_valid in Hv. rewrite !andb_true_iff in Hv. destruct Hv as (_ & Hr). apply list.Forall_forall.
  intros r Hin%list_elem_of_In. apply (proj1 (forallb_forall _ _) Hr) in Hin.
  unfold relocation_valid in Hin. rewrite negb_true_iff, !orb_false_iff in Hin.
  destruct Hin as ((((H1%Z.leb_gt & _) & _) & _) & H5%Z.ltb_ge). unfold section_count in H1.
  destruct (lookup_lt_is_Some_2 (sections o) (Z.to_nat (relocation_section_index r))) as [s Hs]; [lia|].
  exists s. split; [done|]. erewrite list_lookup_total_correct in H5 by done. lia.
Qed.

(** C16: The decoder is safe on hostile input.  Whatever bytes the file holds,
    [cvm_object_read] never reads outside them, however its counts, offsets and
    string positions are chosen; and an object that it does return has
    fields of the widths of the structures, names without zero bytes, and
    satisfies every rule of [object_valid]: section indices, symbol values and
    relocated fields lie inside the sections they name. *)
Theorem object_decode_safe data :
  ram_wf data ->
  cvm_object_decode data <> POverrun /\
  (forall o, cvm_object_decode data = POk o ->
     object_wf o /\ object_valid o = true /\
     Forall (fun r => exists s, sections o !! Z.to_nat (relocation_section_index r) = Some s /\
       relocation_offset r + cvm_object_relocation_width (relocation_type r) <= file_size s) (relocations o)).
Proof.
  intros Hwf. pose proof (decode_inside data Hwf) as H. split.
  - intros E. by rewrite E in H.
  - intros o E. rewrite E in H. destruct H as [W V]. split_and!; [exact W|exact V|by apply relocations_in_sections].
Qed.

Lemma object_decode_safe_witness :
  cvm_object_decode (store_bytes (zeroed 80) 0 CVM_OBJECT_MAGIC) = PError /\
  cvm_object_decode (store_bytes (zeroed 80) 0 CVM_OBJECT_MAGIC) <> POverrun.
Proof.
  split; [vm_compute; reflexivity|]. apply (object_decode_safe (store_bytes (zeroed 80) 0 CVM_OBJECT_MAGIC)).
  apply store_bytes_wf; [done|]. repeat constructor; vm_compute; discriminate.
Defined.
