(* ===== verification/ArchiveFormat.v ===== *)
(** The archive format: tools/object/archive_format.c, and how tools/archive/main.c
    fills an archive.

    [cvm_archive_encode] is [cvm_archive_write] up to the image it hands to
    [fwrite], [cvm_archive_decode] is [cvm_archive_read] after the file is in
    memory; allocations of the host succeed.  The string and size helpers of
    archive_format.c repeat those of object_format.c and share their models. *)

From S2P Require Import Prelude Ram Image ObjectFormat.
From Stdlib Require Import ZArith Lia Bool.
From stdpp Require Import base list numbers gmap option.

#[local] Open Scope Z_scope.

Definition ARCHIVE_HEADER_SIZE : Z := 64.
Definition ARCHIVE_MEMBER_SIZE : Z := 32.
Definition ARCHIVE_SYMBOL_SIZE : Z := 16.

(** ["CVMAR1\0\0"] *)
Definition CVM_ARCHIVE_MAGIC : list Z := [67; 86; 77; 65; 82; 49; 0; 0].
Definition CVM_ARCHIVE_VERSION : Z := 1.
Definition CVM_ARCHIVE_MAX_MEMBERS : Z := 4096.
Definition CVM_ARCHIVE_MAX_SYMBOLS : Z := 1048576.
Definition CVM_ARCHIVE_MAX_SIZE : Z := 256 * 1024 * 1024.
Definition CVM_ARCHIVE_SYMBOL_ENTRY : Z := Z.shiftl 1 0.

Record CvmArchiveMember := mkMember {
  member_name : list Z;
  member_data : list Z;
}.

Record CvmArchiveSymbol := mkArchiveSymbol {
  archive_symbol_name : list Z;
  archive_symbol_member : Z;
  archive_symbol_flags : Z;
}.

Record CvmArchive := mkArchive {
  members : list CvmArchiveMember;
  archive_symbols : list CvmArchiveSymbol;
}.

Definition member_size (m : CvmArchiveMember) : Z := Z.of_nat (length (member_data m)).
Definition member_count (a : CvmArchive) : Z := Z.of_nat (length (members a)).
Definition archive_symbol_count (a : CvmArchive) : Z := Z.of_nat (length (archive_symbols a)).

(** ** The rules of the format *)

Definition empty_name (name : list Z) : bool := match name with [] => true | _ => false end.

(** The inner loop of [archive_valid]: no earlier member has this name. *)
Definition member_name_unique (earlier : list CvmArchiveMember) (m : CvmArchiveMember) : bool :=
  forallb (fun e => negb (bool_decide (member_name m = member_name e))) earlier.

Fixpoint members_valid (earlier l : list CvmArchiveMember) : bool :=
  match l with
  | [] => true
  | m :: l =>
      negb (empty_name (member_name m) || (member_size m =? 0) || (CVM_OBJECT_MAX_SIZE <? member_size m)) &&
      member_name_unique earlier m && members_valid (earlier ++ [m]) l
  end.

(** [~CVM_ARCHIVE_SYMBOL_ENTRY] as a 32-bit mask. *)
Definition archive_symbol_valid (a : CvmArchive) (s : CvmArchiveSymbol) : bool :=
  negb (empty_name (archive_symbol_name s) || (member_count a <=? archive_symbol_member s) ||
        negb (Z.land (archive_symbol_flags s) (wrap32 (Z.lnot CVM_ARCHIVE_SYMBOL_ENTRY)) =? 0)).

Definition archive_valid (a : CvmArchive) : bool :=
  negb ((member_count a =? 0) || (CVM_ARCHIVE_MAX_MEMBERS <? member_count a) ||
        (CVM_ARCHIVE_MAX_SYMBOLS <? archive_symbol_count a)) &&
  members_valid [] (members a) && forallb (archive_symbol_valid a) (archive_symbols a).

(** ** Encoding *)

Definition align_size (value alignment : Z) : option Z :=
  let mask := alignment - 1 in
  if SIZE_MAX - mask <? value then None else Some (Z.land (wrap64 (value + mask)) (not64 mask)).

Fixpoint add_members (cursor : Z) (l : list CvmArchiveMember) : option Z :=
  match l with
  | [] => Some cursor
  | m :: l => cursor ← add_size cursor (member_size m); cursor ← align_size cursor 8; add_members cursor l
  end.

(** The result of [align_size] is ignored where the cursor was aligned before. *)
Definition align_cursor (cursor : Z) : Z := default cursor (align_size cursor 8).

Fixpoint write_members (l : list CvmArchiveMember) (i string_offset string_cursor data_cursor : Z) (data : RAM) :
    RAM * Z :=
  match l with
  | [] => (data, string_cursor)
  | m :: l =>
      let entry := ARCHIVE_HEADER_SIZE + i * ARCHIVE_MEMBER_SIZE in
      let data := write_u32 data (entry + 0x00) (string_cursor - string_offset) in
      let data := write_u64 data (entry + 0x08) data_cursor in
      let data := write_u64 data (entry + 0x10) (member_size m) in
      let data := write_string data string_cursor (member_name m) in
      let data := store_bytes data data_cursor (member_data m) in
      write_members l (i + 1) string_offset (string_cursor + string_length (member_name m))
        (align_cursor (data_cursor + member_size m)) data
  end.

Fixpoint write_archive_symbols (l : list CvmArchiveSymbol) (table i string_offset string_cursor : Z) (data : RAM) : RAM :=
  match l with
  | [] => data
  | s :: l =>
      let entry := table + i * ARCHIVE_SYMBOL_SIZE in
      let data := write_u32 data (entry + 0x00) (string_cursor - string_offset) in
      let data := write_u32 data (entry + 0x04) (archive_symbol_member s) in
      let data := write_u32 data (entry + 0x08) (archive_symbol_flags s) in
      let data := write_string data string_cursor (archive_symbol_name s) in
      write_archive_symbols l table (i + 1) string_offset (string_cursor + string_length (archive_symbol_name s)) data
  end.

Definition write_archive_header (a : CvmArchive) (member_bytes string_offset string_size size : Z) (data : RAM) : RAM :=
  let data := store_bytes data 0 CVM_ARCHIVE_MAGIC in
  let data := write_u32 data 0x08 CVM_ARCHIVE_VERSION in
  let data := write_u32 data 0x0C (member_count a) in
  let data := write_u32 data 0x10 (archive_symbol_count a) in
  let data := write_u64 data 0x18 ARCHIVE_HEADER_SIZE in
  let data := write_u64 data 0x20 (ARCHIVE_HEADER_SIZE + member_bytes) in
  let data := write_u64 data 0x28 string_offset in
  let data := write_u64 data 0x30 string_size in
  write_u64 data 0x38 size.

Definition cvm_archive_encode (a : CvmArchive) : option RAM :=
  if negb (archive_valid a) then None
  else
    member_bytes ← multiply_size (member_count a) ARCHIVE_MEMBER_SIZE;
    symbol_bytes ← multiply_size (archive_symbol_count a) ARCHIVE_SYMBOL_SIZE;
    cursor ← add_size ARCHIVE_HEADER_SIZE member_bytes;
    string_offset ← add_size cursor symbol_bytes;
    cursor ← add_sizes string_offset ((fun m => string_length (member_name m)) <$> members a);
    cursor ← add_sizes cursor ((fun s => string_length (archive_symbol_name s)) <$> archive_symbols a);
    let string_size := cursor - string_offset in
    cursor ← align_size cursor 8;
    cursor ← add_members cursor (members a);
    if CVM_ARCHIVE_MAX_SIZE <? cursor then None
    else
      let data := write_archive_header a member_bytes string_offset string_size cursor (zeroed cursor) in
      let '(data, string_cursor) :=
        write_members (members a) 0 string_offset string_offset (align_cursor (string_offset + string_size)) data in
      Some (write_archive_symbols (archive_symbols a) (ARCHIVE_HEADER_SIZE + member_bytes) 0 string_offset
              string_cursor data).

(** ** Decoding *)

Fixpoint read_members (n : nat) (data : RAM) (member_offset i string_offset string_size : Z) :
    Parse (list CvmArchiveMember) :=
  match n with
  | O => mret []
  | S n =>
      let entry := member_offset + i * ARCHIVE_MEMBER_SIZE in
      data_offset ← read_u64 data (entry + 0x08);
      data_size ← read_u64 data (entry + 0x10);
      relative ← read_u32 data (entry + 0x00);
      name ← read_name data (ram_size data) string_offset string_size relative;
      parse_guard (negb ((data_size =? 0) || (CVM_OBJECT_MAX_SIZE <? data_size) || (SIZE_MAX <? data_size) ||
        negb (range_valid (ram_size data) data_offset data_size)));;
      bytes ← fetch data data_offset data_size;
      rest ← read_members n data member_offset (i + 1) string_offset string_size;
      mret (mkMember name bytes :: rest)
  end.

Fixpoint read_archive_symbols (n : nat) (data : RAM) (symbol_offset i string_offset string_size : Z) :
    Parse (list CvmArchiveSymbol) :=
  match n with
  | O => mret []
  | S n =>
      let entry := symbol_offset + i * ARCHIVE_SYMBOL_SIZE in
      member_index ← read_u32 data (entry + 0x04);
      flags ← read_u32 data (entry + 0x08);
      relative ← read_u32 data (entry + 0x00);
      name ← read_name data (ram_size data) string_offset string_size relative;
      rest ← read_archive_symbols n data symbol_offset (i + 1) string_offset string_size;
      mret (mkArchiveSymbol name member_index flags :: rest)
  end.

Definition cvm_archive_decode (data : RAM) : Parse CvmArchive :=
  let size := ram_size data in
  if (size <? ARCHIVE_HEADER_SIZE) || (CVM_ARCHIVE_MAX_SIZE <? size) then PError
  else
    member_count ← read_u32 data 0x0C;
    symbol_count ← read_u32 data 0x10;
    member_offset ← read_u64 data 0x18;
    symbol_offset ← read_u64 data 0x20;
    string_offset ← read_u64 data 0x28;
    string_size ← read_u64 data 0x30;
    magic ← fetch data 0 8;
    version ← read_u32 data 0x08;
    encoded_size ← read_u64 data 0x38;
    parse_guard (negb (negb (bool_decide (magic = CVM_ARCHIVE_MAGIC)) || negb (version =? CVM_ARCHIVE_VERSION) ||
      negb (encoded_size =? size) || (member_count =? 0) || (CVM_ARCHIVE_MAX_MEMBERS <? member_count) ||
      (CVM_ARCHIVE_MAX_SYMBOLS <? symbol_count)));;
    member_bytes ← parse_option (multiply_size member_count ARCHIVE_MEMBER_SIZE);
    symbol_bytes ← parse_option (multiply_size symbol_count ARCHIVE_SYMBOL_SIZE);
    parse_guard (range_valid size member_offset member_bytes && range_valid size symbol_offset symbol_bytes &&
      range_valid size string_offset string_size && negb (SIZE_MAX <? string_offset) && negb (SIZE_MAX <? string_size));;
    members ← read_members (Z.to_nat member_count) data member_offset 0 string_offset string_size;
    symbols ← read_archive_symbols (Z.to_nat symbol_count) data symbol_offset 0 string_offset string_size;
    let archive := mkArchive members symbols in
    parse_guard (archive_valid archive);;
    mret archive.

(** ** The archiver *)

(** [base_name]: what follows the last slash or backslash. *)
Fixpoint base_name_from (name path : list Z) : list Z :=
  match path with
  | [] => name
  | c :: path => base_name_from (if (c =? 47) || (c =? 92) then path else name) path
  end.
Definition base_name (path : list Z) : list Z := base_name_from path path.

(** The symbols an object exports to the index. *)
Definition exported (s : CvmObjectSymbol) : bool :=
  negb ((Z.land (symbol_flags s) CVM_OBJECT_SYMBOL_GLOBAL =? 0) ||
        (Z.land (symbol_flags s) (Z.lor CVM_OBJECT_SYMBOL_DEFINED CVM_OBJECT_SYMBOL_COMMON) =? 0)).

Definition index_symbol (member_index : Z) (s : CvmObjectSymbol) : CvmArchiveSymbol :=
  mkArchiveSymbol (symbol_name s) member_index
    (if negb (Z.land (symbol_flags s) CVM_OBJECT_SYMBOL_ENTRY =? 0) then CVM_ARCHIVE_SYMBOL_ENTRY else 0).

(** The symbol loop of [create_archive], with the capacity of its table. *)
Fixpoint index_symbols (l : list CvmObjectSymbol) (member_index : Z) (index : list CvmArchiveSymbol) (capacity : Z) :
    option (list CvmArchiveSymbol * Z) :=
  match l with
  | [] => Some (index, capacity)
  | s :: l =>
      if negb (exported s) then index_symbols l member_index index capacity
      else
        capacity ← (if Z.of_nat (length index) =? capacity then
                      let grown := if capacity =? 0 then 16 else capacity * 2 in
                      if CVM_ARCHIVE_MAX_SYMBOLS <? grown then None else Some grown
                    else Some capacity);
        index_symbols l member_index (index ++ [index_symbol member_index s]) capacity
  end.

(** An input is its path and the bytes of the file. *)
Fixpoint collect_members (l : list (list Z * RAM)) (done : list CvmArchiveMember) (index : list CvmArchiveSymbol)
    (capacity : Z) : option CvmArchive :=
  match l with
  | [] => Some (mkArchive done index)
  | (path, file) :: l =>
      let name := base_name path in
      let m := mkMember name (ram_bytes file 0 (ram_size file)) in
      if empty_name name || negb (member_name_unique done m) then None
      else match cvm_object_decode file with
      | POk object =>
          if (ram_size file <=? 0) || (CVM_OBJECT_MAX_SIZE <? ram_size file) then None
          else
            '(index, capacity) ← index_symbols (symbols object) (Z.of_nat (length done)) index capacity;
            collect_members l (done ++ [m]) index capacity
      | _ => None
      end
  end.

Definition create_archive (inputs : list (list Z * RAM)) : option RAM :=
  if (Z.of_nat (length inputs) <=? 0) || (CVM_ARCHIVE_MAX_MEMBERS <? Z.of_nat (length inputs)) then None
  else a ← collect_members inputs [] [] 0; cvm_archive_encode a.

(** ** Well-formed archives *)

Record member_wf (m : CvmArchiveMember) : Prop := {
  mwf_name : is_string (member_name m);
  mwf_data : Forall is_u8 (member_data m);
}.

Record archive_symbol_wf (s : CvmArchiveSymbol) : Prop := {
  awf_name : is_string (archive_symbol_name s);
  awf_member : 0 <= archive_symbol_member s < 2 ^ 32;
  awf_flags : 0 <= archive_symbol_flags s < 2 ^ 32;
}.

Record archive_wf (a : CvmArchive) : Prop := {
  awf_members : Forall member_wf (members a);
  awf_symbols : Forall archive_symbol_wf (archive_symbols a);
}.

(** ** The decoder stays inside its input *)

Lemma read_members_inside n data member_offset i string_offset string_size :
  ram_wf data -> 0 <= member_offset -> 0 <= i ->
  member_offset + (i + Z.of_nat n) * ARCHIVE_MEMBER_SIZE <= ram_size data ->
  0 <= string_offset -> string_offset + string_size <= ram_size data ->
  inside (read_members n data member_offset i string_offset string_size) (Forall member_wf).
Proof.
  unfold ARCHIVE_MEMBER_SIZE. intros Hwf Ho. revert i. induction n as [|n IH]; intros i Hi Hs Hs0 Hs1; [constructor|].
  cbn [read_members]. unfold ARCHIVE_MEMBER_SIZE. do 3 inside_read_step.
  eapply inside_bind; [apply read_name_inside; [lia..|done]|]. intros name Hname.
  inside_read_step. rewrite negb_true_iff, !orb_false_iff, negb_false_iff, size_range_valid in Hv2.
  inside_read_step. eapply inside_bind; [apply IH; lia|]. intros rest Hrest. constructor; [|done]. subst.
  split; [done|by apply ram_bytes_u8].
Qed.

Lemma read_archive_symbols_inside n data symbol_offset i string_offset string_size :
  ram_wf data -> 0 <= symbol_offset -> 0 <= i ->
  symbol_offset + (i + Z.of_nat n) * ARCHIVE_SYMBOL_SIZE <= ram_size data ->
  0 <= string_offset -> string_offset + string_size <= ram_size data ->
  inside (read_archive_symbols n data symbol_offset i string_offset string_size) (Forall archive_symbol_wf).
Proof.
  unfold ARCHIVE_SYMBOL_SIZE. intros Hwf Ho. revert i. induction n as [|n IH]; intros i Hi Hs Hs0 Hs1; [constructor|].
  cbn [read_archive_symbols]. unfold ARCHIVE_SYMBOL_SIZE. do 3 inside_read_step.
  eapply inside_bind; [apply read_name_inside; [lia..|done]|]. intros name Hname.
  eapply inside_bind; [apply IH; lia|]. intros rest Hrest. constructor; [|done]. destruct_and?. by split.
Qed.

Lemma archive_decode_inside data : ram_wf data -> inside (cvm_archive_decode data) (fun a => archive_wf a /\ archive_valid a = true).
Proof.
  intros Hwf. unfold cvm_archive_decode.
  destruct (Z.ltb_spec (ram_size data) ARCHIVE_HEADER_SIZE) as [|Hs]; [done|]. cbn [orb].
  destruct (Z.ltb_spec CVM_ARCHIVE_MAX_SIZE (ram_size data)) as [|Hmax]; [done|].
  unfold ARCHIVE_HEADER_SIZE, CVM_ARCHIVE_MAX_SIZE in *.
  do 13 inside_read_step.
  rewrite !andb_true_iff, !size_range_valid in Hv11. destruct Hv11 as ((((R1 & R2) & R3) & _) & _).
  apply multiply_size_some in Hv9, Hv10.
  unfold ARCHIVE_MEMBER_SIZE, ARCHIVE_SYMBOL_SIZE in *.
  eapply inside_bind; [apply read_members_inside; [done|unfold ARCHIVE_MEMBER_SIZE; lia..]|]. intros ms Hms.
  eapply inside_bind; [apply read_archive_symbols_inside; [done|unfold ARCHIVE_SYMBOL_SIZE; lia..]|]. intros sy Hsy.
  inside_read_step. by split.
Qed.

(** ** The layout the encoder produces *)

Definition align8 (value : Z) : Z := (value + 7) / 8 * 8.

Lemma align8_le value : value <= align8 value < value + 8.
Proof. unfold align8. pose proof (Z.div_mod (value + 7) 8). pose proof (Z.mod_pos_bound (value + 7) 8). lia. Qed.

Lemma align_size_8 value : 0 <= value -> value + 7 <= SIZE_MAX -> align_size value 8 = Some (align8 value).
Proof.
  intros H0 H. unfold align_size. rewrite (proj2 (Z.ltb_ge _ _)) by lia. f_equal.
  unfold SIZE_MAX, UINT64_MAX in H. rewrite wrap64_id by (unfold is_u64; lia).
  rewrite land_not64 by (unfold is_u64; lia). change (8 - 1) with (Z.ones 3).
  rewrite Z.ldiff_ones_r, Z.shiftr_div_pow2, Z.shiftl_mul_pow2 by lia. done.
Qed.

Lemma align_cursor_8 value : 0 <= value -> value + 7 <= SIZE_MAX -> align_cursor value = align8 value.
Proof. intros H0 H. unfold align_cursor. by rewrite align_size_8. Qed.

Definition member_strings (l : list CvmArchiveMember) : Z := sum_sizes ((fun m => string_length (member_name m)) <$> l).
Definition index_strings (l : list CvmArchiveSymbol) : Z := sum_sizes ((fun s => string_length (archive_symbol_name s)) <$> l).

(** Where the data of the members ends, each padded to eight bytes. *)
Fixpoint members_end (cursor : Z) (l : list CvmArchiveMember) : Z :=
  match l with [] => cursor | m :: l => members_end (align8 (cursor + member_size m)) l end.

Lemma member_size_pos m : 0 <= member_size m.
Proof. unfold member_size. lia. Qed.

Lemma members_end_le cursor l : cursor <= members_end cursor l.
Proof.
  revert cursor. induction l as [|m l IH]; intros cursor; cbn; [lia|]. pose proof (member_size_pos m).
  specialize (IH (align8 (cursor + member_size m))). pose proof (align8_le (cursor + member_size m)). lia.
Qed.

Lemma member_strings_pos l : 0 <= member_strings l.
Proof. apply sum_sizes_pos, fmap_sizes_pos. intros m. pose proof (string_length_pos (member_name m)). lia. Qed.

Lemma index_strings_pos l : 0 <= index_strings l.
Proof. apply sum_sizes_pos, fmap_sizes_pos. intros m. pose proof (string_length_pos (archive_symbol_name m)). lia. Qed.

Lemma add_members_ok cursor l :
  0 <= cursor -> members_end cursor l <= CVM_ARCHIVE_MAX_SIZE -> add_members cursor l = Some (members_end cursor l).
Proof.
  assert (CVM_ARCHIVE_MAX_SIZE + 7 <= SIZE_MAX) as HM by done.
  revert cursor. induction l as [|m l IH]; intros cursor H0 H; cbn [add_members members_end] in *; [done|].
  pose proof (member_size_pos m). pose proof (align8_le (cursor + member_size m)).
  pose proof (members_end_le (align8 (cursor + member_size m)) l).
  rewrite add_size_ok by lia. cbn [mbind option_bind]. rewrite align_size_8 by lia. cbn [mbind option_bind].
  apply IH; lia.
Qed.

(** The members of an image: entry, name and data of each. *)
Fixpoint members_at (data : RAM) (l : list CvmArchiveMember) (i string_offset string_cursor data_cursor : Z) : Prop :=
  match l with
  | [] => True
  | m :: l =>
      let entry := ARCHIVE_HEADER_SIZE + i * ARCHIVE_MEMBER_SIZE in
      (holds_at data (entry + 0x00) (int_to_bytes 4 (string_cursor - string_offset)) /\
       holds_at data (entry + 0x08) (int_to_bytes 8 data_cursor) /\
       holds_at data (entry + 0x10) (int_to_bytes 8 (member_size m)) /\
       holds_at data string_cursor (member_name m ++ [0]) /\
       holds_at data data_cursor (member_data m)) /\
      members_at data l (i + 1) string_offset (string_cursor + string_length (member_name m))
        (align8 (data_cursor + member_size m))
  end.

Fixpoint index_at (data : RAM) (l : list CvmArchiveSymbol) (table i string_offset string_cursor : Z) : Prop :=
  match l with
  | [] => True
  | s :: l =>
      let entry := table + i * ARCHIVE_SYMBOL_SIZE in
      (holds_at data (entry + 0x00) (int_to_bytes 4 (string_cursor - string_offset)) /\
       holds_at data (entry + 0x04) (int_to_bytes 4 (archive_symbol_member s)) /\
       holds_at data (entry + 0x08) (int_to_bytes 4 (archive_symbol_flags s)) /\
       holds_at data string_cursor (archive_symbol_name s ++ [0])) /\
      index_at data l table (i + 1) string_offset (string_cursor + string_length (archive_symbol_name s))
  end.

Lemma length_string name : Z.of_nat (length (name ++ [0])) = string_length name.
Proof. rewrite length_app. unfold string_length. cbn. lia. Qed.

Lemma members_frame R data data' l i so sc dc :
  members_at data l i so sc dc -> changes_within R data data' ->
  (forall r, r ∈ R ->
    (ARCHIVE_HEADER_SIZE + (i + Z.of_nat (length l)) * ARCHIVE_MEMBER_SIZE <= r.1 \/
     r.2 <= ARCHIVE_HEADER_SIZE + i * ARCHIVE_MEMBER_SIZE) /\
    (sc + member_strings l <= r.1 \/ r.2 <= sc) /\ (members_end dc l <= r.1 \/ r.2 <= dc)) ->
  members_at data' l i so sc dc.
Proof.
  revert i sc dc. induction l as [|m l IH]; intros i sc dc H Hch HR; [done|].
  destruct H as [(H1 & H2 & H3 & H4 & H5) H]. cbn [members_at].
  assert (member_strings (m :: l) = string_length (member_name m) + member_strings l) as Es by done.
  pose proof (member_strings_pos l). pose proof (string_length_pos (member_name m)). pose proof (member_size_pos m).
  pose proof (align8_le (dc + member_size m)). pose proof (members_end_le (align8 (dc + member_size m)) l).
  rewrite Es in HR. cbn [length members_end] in HR. rewrite Nat2Z.inj_succ in HR.
  unfold ARCHIVE_HEADER_SIZE, ARCHIVE_MEMBER_SIZE in *. split.
  - split_and!; (eapply holds_frame; [eassumption|exact Hch|]; intros r Hr; destruct (HR r Hr) as (? & ? & ?);
      rewrite ?length_string, ?length_int_to_bytes; fold (member_size m); lia).
  - apply IH; [done|done|]. intros r Hr. destruct (HR r Hr) as (? & ? & ?). lia.
Qed.

(** One entry written, the rest as the induction leaves it. *)
Lemma write_members_spec l i so sc dc data :
  Forall member_wf l -> 0 <= i -> 0 <= dc -> members_end dc l <= CVM_ARCHIVE_MAX_SIZE ->
  ARCHIVE_HEADER_SIZE + (i + Z.of_nat (length l)) * ARCHIVE_MEMBER_SIZE <= sc -> sc + member_strings l <= dc ->
  let '(data', sc') := write_members l i so sc dc data in
  sc' = sc + member_strings l /\ members_at data' l i so sc dc /\
  changes_within [(ARCHIVE_HEADER_SIZE + i * ARCHIVE_MEMBER_SIZE,
                   ARCHIVE_HEADER_SIZE + (i + Z.of_nat (length l)) * ARCHIVE_MEMBER_SIZE);
                  (sc, sc + member_strings l); (dc, members_end dc l)] data data'.
Proof.
  assert (CVM_ARCHIVE_MAX_SIZE + 7 <= SIZE_MAX) as HM by done.
  revert i sc dc data. induction l as [|m l IH]; intros i sc dc data Hwf Hi Hdc Hend Hsc Hfc.
  { cbn. split_and!; [unfold member_strings; cbn; lia|done..]. }
  apply Forall_cons_1 in Hwf as [Hm Hwf]. cbn [write_members members_end] in *.
  assert (member_strings (m :: l) = string_length (member_name m) + member_strings l) as Es by done.
  pose proof (member_strings_pos l) as Hp1. pose proof (string_length_pos (member_name m)) as Hp2.
  pose proof (member_size_pos m) as Hp3. pose proof (align8_le (dc + member_size m)) as Hal.
  pose proof (members_end_le (align8 (dc + member_size m)) l) as Hle.
  rewrite align_cursor_8 by lia. set (dc' := align8 (dc + member_size m)) in *.
  rewrite Es in *. cbn [length] in *. rewrite Nat2Z.inj_succ in *.
  set (e := ARCHIVE_HEADER_SIZE + i * ARCHIVE_MEMBER_SIZE) in *.
  assert (ARCHIVE_HEADER_SIZE + (i + Z.succ (Z.of_nat (length l))) * ARCHIVE_MEMBER_SIZE = e + 32 + Z.of_nat (length l) * 32 /\
    ARCHIVE_HEADER_SIZE + (i + 1) * ARCHIVE_MEMBER_SIZE = e + 32 /\
    ARCHIVE_HEADER_SIZE + (i + 1 + Z.of_nat (length l)) * ARCHIVE_MEMBER_SIZE = e + 32 + Z.of_nat (length l) * 32)
    as (Ee & Ee1 & Ee2) by (unfold e, ARCHIVE_HEADER_SIZE, ARCHIVE_MEMBER_SIZE; lia).
  rewrite Ee in *. stores.
  set (data1 := store_bytes (store_bytes (store_bytes _ _ _) _ _) dc (member_data m)).
  specialize (IH (i + 1) (sc + string_length (member_name m)) dc' data1 Hwf ltac:(lia) ltac:(lia) Hend).
  rewrite Ee1, Ee2 in IH. specialize (IH ltac:(lia) ltac:(lia)).
  destruct (write_members l (i + 1) so _ _ data1) as [data' sc']. destruct IH as (-> & Hat & Hch).
  pose proof (string_bytes _ (mwf_name _ Hm)) as Hsb. pose proof (mwf_data _ Hm) as Hdb.
  pose proof (length_string (member_name m)) as Hsl.
  assert (Z.of_nat (length (member_data m)) = member_size m) as Hfl by done.
  split_and!; [lia| |].
  - cbn [members_at]. split; [|exact Hat]. fold e.
    assert (forall a b, holds_at data1 a b ->
      (a + Z.of_nat (length b) <= e + 32 \/ a = sc /\ Z.of_nat (length b) = string_length (member_name m) \/
       a = dc /\ Z.of_nat (length b) = member_size m) -> holds_at data' a b) as Hkeep.
    { intros a b Hab Hcase. eapply holds_frame; [exact Hab|exact Hch|].
      intros r Hr. rewrite !elem_of_cons in Hr. destruct Hr as [->|[->|[->|[]%elem_of_nil]]]; cbn; lia. }
    split_and!; (apply Hkeep; [|rewrite ?Hsl, ?Hfl, ?length_int_to_bytes; lia]); unfold data1;
      repeat (first [apply holds_store_same | apply holds_store_other; [|rewrite ?Hsl, ?Hfl, ?length_int_to_bytes; lia]]).
  - transitivity data1.
    + unfold data1.
      etrans; [|eapply (changes_store _ _ _ _ dc (members_end dc' l)); [done|by right; right; left|lia|lia]].
      etrans; [|eapply (changes_store _ _ _ _ sc (sc + (string_length (member_name m) + member_strings l)));
        [done|by right; left|lia|rewrite Hsl; lia]].
      do 3 (etrans; [|eapply (changes_store _ _ _ _ e (e + 32 + Z.of_nat (length l) * 32));
        [apply int_to_bytes_u8|by left|lia|rewrite length_int_to_bytes; lia]]). done.
    + eapply changes_within_weaken; [exact Hch|]. intros r Hr. rewrite !elem_of_cons in Hr.
      destruct Hr as [->|[->|[->|[]%elem_of_nil]]].
      * eexists. split; [by left|]. cbn. lia.
      * eexists. split; [by right; left|]. cbn. lia.
      * eexists. split; [by right; right; left|]. cbn. lia.
Qed.

Lemma write_archive_symbols_spec l table i so sc data :
  Forall archive_symbol_wf l -> 0 <= i -> table + (i + Z.of_nat (length l)) * ARCHIVE_SYMBOL_SIZE <= sc ->
  let data' := write_archive_symbols l table i so sc data in
  index_at data' l table i so sc /\
  changes_within [(table + i * ARCHIVE_SYMBOL_SIZE, table + (i + Z.of_nat (length l)) * ARCHIVE_SYMBOL_SIZE);
                  (sc, sc + index_strings l)] data data'.
Proof.
  revert i sc data. induction l as [|s l IH]; intros i sc data Hwf Hi Hsc; [done|].
  apply Forall_cons_1 in Hwf as [Hs Hwf]. cbn [write_archive_symbols].
  pose proof (index_strings_pos l) as Hp1. pose proof (string_length_pos (archive_symbol_name s)) as Hsp.
  assert (index_strings (s :: l) = string_length (archive_symbol_name s) + index_strings l) as Es by done.
  rewrite Es in *. cbn [length] in *. rewrite Nat2Z.inj_succ in *.
  set (e := table + i * ARCHIVE_SYMBOL_SIZE) in *.
  assert (table + (i + Z.succ (Z.of_nat (length l))) * ARCHIVE_SYMBOL_SIZE = e + 16 + Z.of_nat (length l) * 16 /\
    table + (i + 1) * ARCHIVE_SYMBOL_SIZE = e + 16 /\
    table + (i + 1 + Z.of_nat (length l)) * ARCHIVE_SYMBOL_SIZE = e + 16 + Z.of_nat (length l) * 16) as (Ee & Ee1 & Ee2).
  { unfold e, ARCHIVE_SYMBOL_SIZE. lia. }
  rewrite Ee in *. stores.
  set (data1 := store_bytes (store_bytes (store_bytes _ _ _) _ _) sc (archive_symbol_name s ++ [0])).
  specialize (IH (i + 1) (sc + string_length (archive_symbol_name s)) data1 Hwf ltac:(lia)).
  rewrite Ee1, Ee2 in IH. specialize (IH ltac:(lia)). set (data' := write_archive_symbols l table (i + 1) so _ data1) in *.
  destruct IH as (Hat & Hch). pose proof (string_bytes _ (awf_name _ Hs)) as Hsb.
  pose proof (length_string (archive_symbol_name s)) as Hsl. split.
  - cbn [index_at]. split; [|exact Hat]. fold e.
    assert (forall a b, holds_at data1 a b ->
      (a + Z.of_nat (length b) <= e + 16 \/ a = sc /\ Z.of_nat (length b) = string_length (archive_symbol_name s)) ->
      holds_at data' a b) as Hkeep.
    { intros a b Hab Hcase. eapply holds_frame; [exact Hab|exact Hch|].
      intros r Hr. rewrite !elem_of_cons in Hr. destruct Hr as [->|[->|[]%elem_of_nil]]; cbn; lia. }
    split_and!; (apply Hkeep; [|rewrite ?Hsl, ?length_int_to_bytes; lia]); unfold data1;
      repeat (first [apply holds_store_same | apply holds_store_other; [|rewrite ?Hsl, ?length_int_to_bytes; lia]]).
  - transitivity data1.
    + unfold data1.
      etrans; [|eapply (changes_store _ _ _ _ sc (sc + (string_length (archive_symbol_name s) + index_strings l)));
        [done|by right; left|lia|rewrite Hsl; lia]].
      do 3 (etrans; [|eapply (changes_store _ _ _ _ e (e + 16 + Z.of_nat (length l) * 16));
        [apply int_to_bytes_u8|by left|lia|rewrite length_int_to_bytes; lia]]). done.
    + eapply changes_within_weaken; [exact Hch|]. intros r Hr. rewrite !elem_of_cons in Hr.
      destruct Hr as [->|[->|[]%elem_of_nil]].
      * eexists. split; [by left|]. cbn. lia.
      * eexists. split; [by right; left|]. cbn. lia.
Qed.

(** ** Reading it back *)

Lemma read_members_ok l data i so ss sc dc :
  members_at data l i so sc dc -> Forall member_wf l ->
  Forall (fun m => member_name m <> [] /\ 0 < member_size m <= CVM_OBJECT_MAX_SIZE) l -> 0 <= i ->
  ram_size data <= CVM_ARCHIVE_MAX_SIZE ->
  ARCHIVE_HEADER_SIZE + (i + Z.of_nat (length l)) * ARCHIVE_MEMBER_SIZE <= ram_size data ->
  0 <= so <= sc -> sc + member_strings l <= so + ss -> so + ss <= ram_size data ->
  0 <= dc -> members_end dc l <= ram_size data ->
  read_members (length l) data ARCHIVE_HEADER_SIZE i so ss = POk l.
Proof.
  revert i sc dc. induction l as [|m l IH]; intros i sc dc Hat Hwf Hne Hi Hmax He Hso Hss Hsz Hdc Hend; [done|].
  apply Forall_cons_1 in Hwf as [Hm Hwf]. apply Forall_cons_1 in Hne as [[Hn Hms] Hne].
  destruct Hat as [(H1 & H2 & H3 & H4 & H5) Hat].
  assert (member_strings (m :: l) = string_length (member_name m) + member_strings l) as Es by done.
  pose proof (member_strings_pos l) as Hp1. pose proof (string_length_pos (member_name m)) as Hp3.
  cbn [members_end] in Hend. pose proof (align8_le (dc + member_size m)) as Hal.
  pose proof (members_end_le (align8 (dc + member_size m)) l) as Hle. rewrite Es in *.
  unfold ARCHIVE_HEADER_SIZE, ARCHIVE_MEMBER_SIZE, CVM_ARCHIVE_MAX_SIZE, CVM_OBJECT_MAX_SIZE in *. cbn [length] in *.
  rewrite Nat2Z.inj_succ in He. cbn [read_members]. unfold read_u32, read_u64, ARCHIVE_MEMBER_SIZE.
  read_step H2. read_step H3. read_step H1.
  rewrite (read_name_ok data so ss sc (member_name m)) by (done || apply Hm || lia). cbn [mbind Parse_bind].
  rewrite (proj2 (size_range_valid _ _ _)), (proj2 (Z.ltb_ge SIZE_MAX _)), (proj2 (Z.eqb_neq _ 0)), (proj2 (Z.ltb_ge CVM_OBJECT_MAX_SIZE _))
    by (unfold CVM_OBJECT_MAX_SIZE, SIZE_MAX, UINT64_MAX; lia).
  cbn [andb orb negb parse_guard mbind Parse_bind].
  rewrite (holds_fetch data dc _ _ H5) by (done || unfold member_size in *; lia). cbn [mbind Parse_bind].
  rewrite (IH (i + 1) _ _ Hat Hwf Hne) by lia. cbn [mbind Parse_bind mret Parse_ret]. by destruct m.
Qed.

Lemma read_archive_symbols_ok l data table i so ss sc :
  index_at data l table i so sc -> Forall archive_symbol_wf l -> Forall (fun s => archive_symbol_name s <> []) l ->
  0 <= i -> 0 <= table -> ram_size data <= CVM_ARCHIVE_MAX_SIZE ->
  table + (i + Z.of_nat (length l)) * ARCHIVE_SYMBOL_SIZE <= ram_size data ->
  0 <= so <= sc -> sc + index_strings l <= so + ss -> so + ss <= ram_size data ->
  read_archive_symbols (length l) data table i so ss = POk l.
Proof.
  revert i sc. induction l as [|s l IH]; intros i sc Hat Hwf Hne Hi Ht Hmax He Hso Hss Hsz; [done|].
  apply Forall_cons_1 in Hwf as [Hs Hwf]. apply Forall_cons_1 in Hne as [Hn Hne].
  destruct Hat as [(H1 & H2 & H3 & H4) Hat].
  pose proof (index_strings_pos l) as Hp1. pose proof (string_length_pos (archive_symbol_name s)) as Hp3.
  assert (index_strings (s :: l) = string_length (archive_symbol_name s) + index_strings l) as Es by done. rewrite Es in *.
  pose proof (awf_member _ Hs). pose proof (awf_flags _ Hs).
  unfold ARCHIVE_SYMBOL_SIZE, CVM_ARCHIVE_MAX_SIZE in *. cbn [length] in *.
  rewrite Nat2Z.inj_succ in He. cbn [read_archive_symbols]. unfold read_u32, ARCHIVE_SYMBOL_SIZE.
  read_step H2. read_step H3. read_step H1.
  rewrite (read_name_ok data so ss sc (archive_symbol_name s)) by (done || apply Hs || lia). cbn [mbind Parse_bind].
  rewrite (IH (i + 1) _ Hat Hwf Hne) by lia. cbn [mbind Parse_bind mret Parse_ret]. by destruct s.
Qed.

(** The header fields, each where the decoder looks for it. *)
Definition archive_header_at (data : RAM) (a : CvmArchive) (index_table so ss size : Z) : Prop :=
  holds_at data 0 CVM_ARCHIVE_MAGIC /\
  holds_at data 0x08 (int_to_bytes 4 CVM_ARCHIVE_VERSION) /\
  holds_at data 0x0C (int_to_bytes 4 (member_count a)) /\
  holds_at data 0x10 (int_to_bytes 4 (archive_symbol_count a)) /\
  holds_at data 0x18 (int_to_bytes 8 ARCHIVE_HEADER_SIZE) /\
  holds_at data 0x20 (int_to_bytes 8 index_table) /\
  holds_at data 0x28 (int_to_bytes 8 so) /\
  holds_at data 0x30 (int_to_bytes 8 ss) /\
  holds_at data 0x38 (int_to_bytes 8 size).

Lemma write_archive_header_spec a mb so ss size data :
  let data' := write_archive_header a mb so ss size data in
  archive_header_at data' a (ARCHIVE_HEADER_SIZE + mb) so ss size /\
  changes_within [(0, ARCHIVE_HEADER_SIZE)] data data'.
Proof.
  unfold write_archive_header, archive_header_at. stores.
  assert (Z.of_nat (length CVM_ARCHIVE_MAGIC) = 8) as Hm by done. split.
  - split_and!; repeat (first [apply holds_store_same
      | apply holds_store_other; [|rewrite ?Hm, ?length_int_to_bytes; lia]]).
  - unfold ARCHIVE_HEADER_SIZE at 3.
    do 8 (etrans; [|eapply (changes_store _ _ _ _ 0 64);
      [apply int_to_bytes_u8|by left|lia|rewrite length_int_to_bytes; lia]]).
    eapply (changes_store _ _ _ _ 0 64); [|by left|lia|rewrite Hm; lia].
    repeat constructor; unfold is_u8; lia.
Qed.

Lemma archive_header_frame R data data' a it so ss size :
  archive_header_at data a it so ss size -> changes_within R data data' ->
  (forall r, r ∈ R -> ARCHIVE_HEADER_SIZE <= r.1) -> archive_header_at data' a it so ss size.
Proof.
  intros H Hch HR. unfold archive_header_at, ARCHIVE_HEADER_SIZE in *. destruct_and! H.
  assert (Z.of_nat (length CVM_ARCHIVE_MAGIC) = 8) as Hm by done.
  split_and!; (eapply holds_frame; [eassumption|exact Hch|]; intros r Hr; specialize (HR r Hr);
    rewrite ?Hm, ?length_int_to_bytes; lia).
Qed.

(** ** The layout of an image *)

Definition index_table (a : CvmArchive) : Z := ARCHIVE_HEADER_SIZE + member_count a * ARCHIVE_MEMBER_SIZE.
Definition archive_strings (a : CvmArchive) : Z := index_table a + archive_symbol_count a * ARCHIVE_SYMBOL_SIZE.
Definition archive_strings_size (a : CvmArchive) : Z := member_strings (members a) + index_strings (archive_symbols a).
Definition member_area (a : CvmArchive) : Z := align8 (archive_strings a + archive_strings_size a).
Definition archive_size (a : CvmArchive) : Z := members_end (member_area a) (members a).

Record archive_image (a : CvmArchive) (data : RAM) : Prop := {
  ai_size : ram_size data = archive_size a;
  ai_header : archive_header_at data a (index_table a) (archive_strings a) (archive_strings_size a) (archive_size a);
  ai_members : members_at data (members a) 0 (archive_strings a) (archive_strings a) (member_area a);
  ai_index : index_at data (archive_symbols a) (index_table a) 0 (archive_strings a)
               (archive_strings a + member_strings (members a));
}.

Lemma archive_layout_facts a :
  ARCHIVE_HEADER_SIZE <= index_table a <= archive_strings a /\
  0 <= member_strings (members a) /\ 0 <= index_strings (archive_symbols a) /\
  archive_strings a + archive_strings_size a <= member_area a < archive_strings a + archive_strings_size a + 8 /\
  member_area a <= archive_size a /\ 0 <= member_count a /\ 0 <= archive_symbol_count a.
Proof.
  pose proof (member_strings_pos (members a)). pose proof (index_strings_pos (archive_symbols a)).
  pose proof (align8_le (archive_strings a + archive_strings_size a)).
  pose proof (members_end_le (member_area a) (members a)).
  unfold archive_size, member_area, archive_strings, index_table, member_count, archive_symbol_count,
    ARCHIVE_HEADER_SIZE, ARCHIVE_MEMBER_SIZE, ARCHIVE_SYMBOL_SIZE in *. lia.
Qed.

(** The size computation of [cvm_archive_write], without its overflow checks. *)
Lemma cvm_archive_encode_eq a :
  archive_valid a = true -> archive_size a <= CVM_ARCHIVE_MAX_SIZE ->
  cvm_archive_encode a =
    let data := write_archive_header a (member_count a * ARCHIVE_MEMBER_SIZE)
                  (archive_strings a) (archive_strings_size a) (archive_size a) (zeroed (archive_size a)) in
    let '(data, string_cursor) :=
      write_members (members a) 0 (archive_strings a) (archive_strings a) (member_area a) data in
    Some (write_archive_symbols (archive_symbols a) (index_table a) 0 (archive_strings a) string_cursor data).
Proof.
  intros Hv Hs. unfold cvm_archive_encode. rewrite Hv. cbn [negb].
  destruct (archive_layout_facts a) as (L1 & L2 & L3 & L4 & L5 & C1 & C2).
  assert (CVM_ARCHIVE_MAX_SIZE + 7 < SIZE_MAX) as Hmax by done.
  assert (forall s, 0 <= string_length s) as Hp by (intros s; pose proof (string_length_pos s); lia).
  unfold archive_strings, archive_strings_size, index_table, ARCHIVE_HEADER_SIZE, ARCHIVE_MEMBER_SIZE, ARCHIVE_SYMBOL_SIZE in L1, L4.
  unfold ARCHIVE_HEADER_SIZE, ARCHIVE_MEMBER_SIZE, ARCHIVE_SYMBOL_SIZE.
  rewrite !multiply_size_ok by lia. cbn [mbind option_bind].
  do 2 (rewrite add_size_ok by lia; cbn [mbind option_bind]).
  unfold member_strings, index_strings in *.
  rewrite add_sizes_ok by (lia || apply fmap_sizes_pos; done). cbn [mbind option_bind].
  rewrite add_sizes_ok by (lia || apply fmap_sizes_pos; done). cbn [mbind option_bind].
  change (64 + member_count a * 32 + archive_symbol_count a * 16) with (archive_strings a) in *.
  fold (member_strings (members a)) (index_strings (archive_symbols a)) in *.
  replace (archive_strings a + member_strings (members a) + index_strings (archive_symbols a))
    with (archive_strings a + archive_strings_size a) by (unfold archive_strings_size; lia).
  replace (archive_strings a + archive_strings_size a - archive_strings a) with (archive_strings_size a) by lia.
  unfold archive_strings_size in *.
  rewrite align_cursor_8, align_size_8 by lia. cbn [mbind option_bind].
  rewrite add_members_ok by (unfold archive_size, member_area, archive_strings_size in *; lia). cbn [mbind option_bind].
  rewrite (proj2 (Z.ltb_ge _ _)) by done. reflexivity.
Qed.

Ltac unfold_archive := unfold archive_strings, index_table, member_count, archive_symbol_count,
  ARCHIVE_HEADER_SIZE, ARCHIVE_MEMBER_SIZE, ARCHIVE_SYMBOL_SIZE in *.

Lemma archive_encode_image a :
  archive_wf a -> archive_valid a = true -> archive_size a <= CVM_ARCHIVE_MAX_SIZE ->
  exists data, cvm_archive_encode a = Some data /\ archive_image a data.
Proof.
  intros [W1 W2] Hv Hs. rewrite cvm_archive_encode_eq by done. cbv zeta.
  destruct (archive_layout_facts a) as (L1 & L2 & L3 & L4 & L5 & C1 & C2).
  assert (archive_strings_size a = member_strings (members a) + index_strings (archive_symbols a)) as Ess by done.
  assert (ARCHIVE_HEADER_SIZE = 64) as E0 by done.
  assert (index_table a = 64 + Z.of_nat (length (members a)) * ARCHIVE_MEMBER_SIZE) as E1 by done.
  assert (archive_strings a = index_table a + Z.of_nat (length (archive_symbols a)) * ARCHIVE_SYMBOL_SIZE) as E2 by done.
  destruct (write_archive_header_spec a (member_count a * ARCHIVE_MEMBER_SIZE) (archive_strings a)
    (archive_strings_size a) (archive_size a) (zeroed (archive_size a))) as [Hh Ch].
  set (d0 := write_archive_header _ _ _ _ _ _) in *. clearbody d0.
  pose proof (write_members_spec (members a) 0 (archive_strings a) (archive_strings a) (member_area a) d0 W1) as Hm.
  destruct (write_members _ _ _ _ _ d0) as [d1 sc].
  destruct Hm as (-> & Hm & Cm); [lia|lia|done|rewrite Z.add_0_l; lia|lia|].
  destruct (write_archive_symbols_spec (archive_symbols a) (index_table a) 0 (archive_strings a)
    (archive_strings a + member_strings (members a)) d1 W2) as [Hi Ci]; [lia|rewrite Z.add_0_l; lia|].
  set (d2 := write_archive_symbols _ _ _ _ _ d1) in *. clearbody d2.
  exists d2. split; [done|]. rewrite !Z.add_0_l in *.
  split.
  - destruct Ci as [-> _], Cm as [-> _], Ch as [-> _]. done.
  - eapply archive_header_frame; [|exact Ci|]; [eapply archive_header_frame; [exact Hh|exact Cm|]|].
    all: intros r Hr; rewrite !elem_of_cons in Hr.
    + destruct Hr as [->|[->|[->|[]%elem_of_nil]]]; cbn; lia.
    + destruct Hr as [->|[->|[]%elem_of_nil]]; cbn; lia.
  - eapply members_frame; [exact Hm|exact Ci|]. intros r Hr; rewrite !elem_of_cons in Hr. rewrite !Z.add_0_l.
    fold (archive_size a). destruct Hr as [->|[->|[]%elem_of_nil]]; cbn; lia.
  - exact Hi.
Qed.

Lemma members_valid_Forall earlier l :
  members_valid earlier l = true ->
  Forall (fun m => member_name m <> [] /\ 0 < member_size m <= CVM_OBJECT_MAX_SIZE) l.
Proof.
  revert earlier. induction l as [|m l IH]; intros earlier; cbn [members_valid]; [constructor|].
  rewrite !andb_true_iff, negb_true_iff, !orb_false_iff. intros ((((H1 & H2%Z.eqb_neq) & H3%Z.ltb_ge) & _) & H).
  constructor; [|by eapply IH]. split; [|pose proof (member_size_pos m); lia]. by destruct (member_name m).
Qed.

Lemma archive_valid_facts a :
  archive_valid a = true ->
  0 < member_count a <= CVM_ARCHIVE_MAX_MEMBERS /\ archive_symbol_count a <= CVM_ARCHIVE_MAX_SYMBOLS /\
  Forall (fun m => member_name m <> [] /\ 0 < member_size m <= CVM_OBJECT_MAX_SIZE) (members a) /\
  Forall (fun s => archive_symbol_name s <> []) (archive_symbols a).
Proof.
  unfold archive_valid. rewrite !andb_true_iff, negb_true_iff, !orb_false_iff.
  intros ((((H1%Z.eqb_neq & H2%Z.ltb_ge) & H3%Z.ltb_ge) & Hm%members_valid_Forall) & Hy).
  split_and!; try done; try (unfold member_count in *; lia).
  apply list.Forall_forall. intros s Hin%list_elem_of_In. apply (proj1 (forallb_forall _ _) Hy) in Hin.
  unfold archive_symbol_valid in Hin. by destruct (archive_symbol_name s).
Qed.

Lemma archive_decode_image a data :
  archive_wf a -> archive_valid a = true -> archive_size a <= CVM_ARCHIVE_MAX_SIZE -> archive_image a data ->
  cvm_archive_decode data = POk a.
Proof.
  intros [W1 W2] Hv Hs [Isz (H1 & H2 & H3 & H4 & H5 & H6 & H7 & H8 & H9) I1 I2].
  destruct (archive_valid_facts a Hv) as (V1 & V2 & N1 & N2).
  destruct (archive_layout_facts a) as (L1 & L2 & L3 & L4 & L5 & C1 & C2).
  assert (archive_strings_size a = member_strings (members a) + index_strings (archive_symbols a)) as Ess by done.
  assert (ARCHIVE_HEADER_SIZE = 64) as E0 by done.
  assert (index_table a = 64 + member_count a * ARCHIVE_MEMBER_SIZE) as E1 by done.
  assert (archive_strings a = index_table a + archive_symbol_count a * ARCHIVE_SYMBOL_SIZE) as E2 by done.
  assert (CVM_ARCHIVE_MAX_SIZE = 268435456 /\ CVM_ARCHIVE_MAX_MEMBERS = 4096 /\ CVM_ARCHIVE_MAX_SYMBOLS = 1048576) as (M1 & M2 & M3) by done.
  assert (268435456 < SIZE_MAX) as HM by done.
  unfold cvm_archive_decode.
  rewrite (proj2 (Z.ltb_ge _ _)), (proj2 (Z.ltb_ge CVM_ARCHIVE_MAX_SIZE _)) by (rewrite Isz; lia).
  cbn [orb]. unfold read_u32, read_u64.
  read_step H3. read_step H4. read_step H5. read_step H6. read_step H7. read_step H8.
  rewrite (holds_fetch data 0 _ 8 H1) by (done || lia). cbn [mbind Parse_bind]. read_step H2. read_step H9.
  rewrite bool_decide_eq_true_2, !Z.eqb_refl, (proj2 (Z.eqb_neq (member_count a) 0)) by (done || lia).
  rewrite Isz, Z.eqb_refl, (proj2 (Z.ltb_ge CVM_ARCHIVE_MAX_MEMBERS _)), (proj2 (Z.ltb_ge CVM_ARCHIVE_MAX_SYMBOLS _)) by lia.
  cbn [negb orb andb parse_guard mbind Parse_bind].
  assert (ARCHIVE_MEMBER_SIZE = 32 /\ ARCHIVE_SYMBOL_SIZE = 16) as (K1 & K2) by done.
  rewrite !multiply_size_ok by lia. cbn [parse_option mbind Parse_bind].
  rewrite !(proj2 (size_range_valid _ _ _)) by lia.
  rewrite (proj2 (Z.ltb_ge SIZE_MAX (archive_strings a))), (proj2 (Z.ltb_ge SIZE_MAX (archive_strings_size a))) by lia.
  cbn [negb orb andb parse_guard mbind Parse_bind].
  unfold member_count, archive_symbol_count. rewrite !Nat2Z.id. fold (archive_size a) in *.
  rewrite (read_members_ok _ _ _ _ _ _ _ I1) by (done || (try fold (archive_size a)); unfold member_count, archive_symbol_count in *; lia).
  cbn [mbind Parse_bind].
  rewrite (read_archive_symbols_ok _ _ _ _ _ _ _ I2) by (done || unfold member_count, archive_symbol_count in *; lia).
  cbn [mbind Parse_bind]. destruct a as [ms ys]. cbn [members archive_symbols]. rewrite Hv. done.
Qed.

(** ** The archiver *)

(** What the symbol loop appends for one object. *)
Definition object_index (member_index : Z) (object : CvmObjectFile) : list CvmArchiveSymbol :=
  index_symbol member_index <$> filter (fun s => exported s = true) (symbols object).

(** The capacities the doubling reaches. *)
Definition capacity_ok (capacity : Z) : Prop := capacity = 0 \/ exists k, 0 <= k <= 16 /\ capacity = 16 * 2 ^ k.

Lemma capacity_ok_max capacity : capacity_ok capacity -> 0 <= capacity <= CVM_ARCHIVE_MAX_SYMBOLS.
Proof.
  unfold CVM_ARCHIVE_MAX_SYMBOLS. intros [->|(k & Hk & ->)]; [lia|].
  pose proof (Z.pow_le_mono_r 2 k 16). pose proof (Z.pow_pos_nonneg 2 k). lia.
Qed.

Lemma capacity_grow capacity :
  capacity_ok capacity -> capacity < CVM_ARCHIVE_MAX_SYMBOLS ->
  let grown := if capacity =? 0 then 16 else capacity * 2 in
  capacity_ok grown /\ capacity < grown <= CVM_ARCHIVE_MAX_SYMBOLS.
Proof.
  unfold CVM_ARCHIVE_MAX_SYMBOLS. intros [->|(k & Hk & ->)] Hlt; cbn zeta.
  { cbn [Z.eqb]. split; [right; exists 0; split; [lia|done]|lia]. }
  pose proof (Z.pow_pos_nonneg 2 k ltac:(lia) ltac:(lia)) as Hp.
  rewrite (proj2 (Z.eqb_neq _ 0)) by lia.
  assert (k < 16) as Hk' by (destruct (Z.eq_dec k 16) as [->|]; [cbn in Hlt; lia|lia]).
  pose proof (Z.pow_le_mono_r 2 (k + 1) 16 ltac:(lia) ltac:(lia)) as Hle. rewrite Z.pow_add_r in Hle by lia.
  change (2 ^ 16) with 65536 in Hle. change (2 ^ 1) with 2 in Hle.
  split; [right; exists (k + 1); rewrite Z.pow_add_r by lia; change (2 ^ 1) with 2; lia|lia].
Qed.

Lemma index_symbols_spec l i index capacity :
  capacity_ok capacity -> Z.of_nat (length index) <= capacity ->
  let new := index_symbol i <$> filter (fun s => exported s = true) l in
  if Z.of_nat (length (index ++ new)) <=? CVM_ARCHIVE_MAX_SYMBOLS then
    exists capacity', index_symbols l i index capacity = Some (index ++ new, capacity') /\
      capacity_ok capacity' /\ Z.of_nat (length (index ++ new)) <= capacity'
  else index_symbols l i index capacity = None.
Proof.
  revert index capacity. induction l as [|s l IH]; intros index capacity Hc Hl; cbv zeta.
  { cbn [filter list_filter fmap list_fmap index_symbols]. rewrite app_nil_r.
    pose proof (capacity_ok_max _ Hc). rewrite (proj2 (Z.leb_le _ _)) by lia. eauto. }
  cbn [index_symbols]. destruct (exported s) eqn:Es; cbn [negb].
  2:{ rewrite filter_cons_False by congruence. by apply IH. }
  rewrite filter_cons_True by done. cbn [fmap list_fmap].
  set (new := index_symbol i <$> filter _ l). rewrite (cons_middle _ index), (app_assoc index [_] new).
  pose proof (capacity_ok_max _ Hc) as Hmax.
  destruct (Z.eqb_spec (Z.of_nat (length index)) capacity) as [E|E].
  - destruct (Z.lt_ge_cases capacity CVM_ARCHIVE_MAX_SYMBOLS) as [Hlt|Hge].
    + destruct (capacity_grow capacity Hc Hlt) as [Hg Hgm]. rewrite (proj2 (Z.ltb_ge _ _)) by lia.
      cbn [mbind option_bind]. apply IH; [done|]. rewrite length_app. cbn [length]. lia.
    + rewrite (proj2 (Z.leb_gt _ _)) by (rewrite !length_app; cbn [length]; lia).
      rewrite (proj2 (Z.ltb_lt _ _)); [done|]. destruct (Z.eqb_spec capacity 0); unfold CVM_ARCHIVE_MAX_SYMBOLS in *; lia.
  - cbn [mbind option_bind]. apply IH; [done|]. rewrite length_app. cbn [length]. lia.
Qed.

Lemma base_name_string name path : is_string name -> is_string path -> is_string (base_name_from name path).
Proof.
  revert name. induction path as [|c path IH]; intros name Hn Hp; cbn [base_name_from]; [done|].
  apply Forall_cons_1 in Hp as [_ Hp]. apply IH; [|done]. by destruct (_ || _).
Qed.

(** Names a decoder returns are C strings. *)
Lemma decode_symbol_names data o :
  ram_wf data -> cvm_object_decode data = POk o -> Forall (fun s => is_string (symbol_name s) /\ symbol_name s <> []) (symbols o).
Proof.
  intros Hwf Hd. pose proof (decode_inside data Hwf) as H. rewrite Hd in H. destruct H as [[_ Hs _] Hv].
  apply object_valid_facts in Hv as (_ & _ & Hn). apply list.Forall_and. split; [|done].
  eapply list.Forall_impl; [exact Hs|]. by intros s [].
Qed.

(** The archive of a list of inputs and the objects they contain. *)
Definition input_member (input : list Z * RAM) : CvmArchiveMember :=
  mkMember (base_name input.1) (ram_bytes input.2 0 (ram_size input.2)).

Fixpoint index_of (i : Z) (objects : list CvmObjectFile) : list CvmArchiveSymbol :=
  match objects with [] => [] | o :: objects => object_index i o ++ index_of (i + 1) objects end.

Definition archive_of (inputs : list (list Z * RAM)) (objects : list CvmObjectFile) : CvmArchive :=
  mkArchive (input_member <$> inputs) (index_of 0 objects).

(** Which inputs make an archive. *)
Record archivable (inputs : list (list Z * RAM)) (objects : list CvmObjectFile) : Prop := {
  arc_count : 0 < Z.of_nat (length inputs) <= CVM_ARCHIVE_MAX_MEMBERS;
  arc_objects : Forall2 (fun input object => cvm_object_decode input.2 = POk object) inputs objects;
  arc_names : NoDup (base_name ∘ fst <$> inputs) /\ Forall (fun input => base_name input.1 <> []) inputs;
  arc_symbols : Z.of_nat (length (index_of 0 objects)) <= CVM_ARCHIVE_MAX_SYMBOLS;
  arc_size : archive_size (archive_of inputs objects) <= CVM_ARCHIVE_MAX_SIZE;
}.

Lemma unique_iff earlier m : member_name_unique earlier m = true <-> member_name m ∉ (member_name <$> earlier).
Proof.
  unfold member_name_unique. rewrite forallb_forall, list_elem_of_fmap. split.
  - intros H (e & E & He%list_elem_of_In). specialize (H e He). rewrite negb_true_iff, bool_decide_eq_false in H. done.
  - intros H e He%list_elem_of_In. rewrite negb_true_iff, bool_decide_eq_false. intros E. apply H. eauto.
Qed.

Lemma decode_size data o : cvm_object_decode data = POk o -> 0 < ram_size data <= CVM_OBJECT_MAX_SIZE.
Proof.
  unfold cvm_object_decode, OBJECT_HEADER_SIZE. destruct (Z.ltb_spec (ram_size data) 80); [done|].
  destruct (Z.ltb_spec CVM_OBJECT_MAX_SIZE (ram_size data)); [done|]. lia.
Qed.

(** The loop over the inputs succeeds exactly on inputs with fresh names that
    decode and whose exports fit the index. *)
Lemma collect_members_spec inputs earlier index capacity :
  capacity_ok capacity -> Z.of_nat (length index) <= capacity ->
  forall a, collect_members inputs earlier index capacity = Some a <->
  exists objects, Forall2 (fun input object => cvm_object_decode input.2 = POk object) inputs objects /\
    NoDup (base_name ∘ fst <$> inputs) /\
    Forall (fun input => base_name input.1 <> [] /\ base_name input.1 ∉ (member_name <$> earlier)) inputs /\
    Z.of_nat (length (index ++ index_of (Z.of_nat (length earlier)) objects)) <= CVM_ARCHIVE_MAX_SYMBOLS /\
    a = mkArchive (earlier ++ (input_member <$> inputs)) (index ++ index_of (Z.of_nat (length earlier)) objects).
Proof.
  revert earlier index capacity. induction inputs as [|[path file] inputs IH]; intros earlier index capacity Hc Hl a; cbn [collect_members].
  { pose proof (capacity_ok_max _ Hc). split.
    - intros [= <-]. exists []. cbn [index_of fmap list_fmap]. rewrite !app_nil_r. split_and!; try constructor; lia.
    - intros (objects & Ho%Forall2_nil_inv_l & _ & _ & _ & ->). subst objects. cbn [index_of fmap list_fmap]. by rewrite !app_nil_r. }
  set (m := mkMember _ _). assert (m = input_member (path, file)) as Em by done.
  assert (member_name m = base_name path) as En by done.
  destruct (empty_name (base_name path) || negb (member_name_unique earlier m)) eqn:Eg.
  { split; [done|]. intros (objects & _ & _ & Hf & _). apply Forall_cons_1 in Hf as [[Hne Hu] _].
    apply orb_true_iff in Eg as [Eg|Eg].
    - cbn [fst] in Hne. by destruct (base_name path).
    - rewrite negb_true_iff in Eg. apply not_true_iff_false in Eg. rewrite unique_iff in Eg. done. }
  apply orb_false_iff in Eg as [Eg1 Eg2]. rewrite negb_false_iff, unique_iff, En in Eg2.
  destruct (cvm_object_decode file) as [o| |] eqn:Ed.
  2,3: split; [done|]; intros (objects & Ho & _); apply Forall2_cons_inv_l in Ho as (o & ? & Ho & _); cbn in Ho; congruence.
  pose proof (decode_size _ _ Ed) as Hsz.
  rewrite (proj2 (Z.leb_gt _ _)), (proj2 (Z.ltb_ge _ _)) by lia. cbn [orb].
  pose proof (index_symbols_spec (symbols o) (Z.of_nat (length earlier)) index capacity Hc Hl) as Hix. cbv zeta in Hix.
  fold (object_index (Z.of_nat (length earlier)) o) in Hix.
  assert (forall os, index_of (Z.of_nat (length earlier)) (o :: os) =
    object_index (Z.of_nat (length earlier)) o ++ index_of (Z.of_nat (length (earlier ++ [m]))) os) as Eidx.
  { intros os. cbn [index_of]. do 2 f_equal. rewrite length_app. cbn. lia. }
  destruct (Z.leb_spec (Z.of_nat (length (index ++ object_index (Z.of_nat (length earlier)) o))) CVM_ARCHIVE_MAX_SYMBOLS) as [Hle|Hgt].
  - destruct Hix as (capacity' & -> & Hc' & Hl'). cbn [mbind option_bind]. rewrite (IH _ _ _ Hc' Hl'). split.
    + intros (objects & Ho & Hnd & Hf & Hn & ->). exists (o :: objects). rewrite Eidx.
      rewrite <- !app_assoc in Hn |- *. split_and!; [by constructor| | |done|by rewrite <- app_assoc].
      * cbn [fmap list_fmap]. apply list.NoDup_cons. split; [|done]. intros (i & Ei & Hi)%list_elem_of_fmap.
        rewrite list.Forall_forall in Hf. destruct (Hf i Hi) as [_ Hni]. apply Hni. rewrite fmap_app.
        apply elem_of_app. right. cbn in Ei |- *. rewrite <- Ei. by left.
      * constructor; [split; [cbn [fst]; by destruct (base_name path)|done]|].
        eapply list.Forall_impl; [exact Hf|]. intros i [H1 H2]. split; [done|]. rewrite fmap_app in H2. set_solver.
    + intros (objects & Ho & Hnd & Hf & Hn & ->). apply Forall2_cons_inv_l in Ho as (o' & os & Eo & Ho & ->).
      cbn in Eo. rewrite Ed in Eo. injection Eo as <-. rewrite Eidx in Hn |- *. rewrite app_assoc in Hn |- *.
      exists os. cbn [fmap list_fmap] in Hnd. apply list.NoDup_cons in Hnd as [Hni Hnd]. apply Forall_cons_1 in Hf as [_ Hf].
      split_and!; [done|done| |done|cbn [fmap list_fmap]; by rewrite <- (app_assoc earlier)].
      apply list.Forall_forall. intros i Hi. rewrite list.Forall_forall in Hf. destruct (Hf i Hi) as [H1 H2]. split; [done|].
      rewrite fmap_app, elem_of_app. intros [H|H]; [done|]. apply list_elem_of_singleton in H. apply Hni.
      apply list_elem_of_fmap. exists i. split; [|done]. cbn. rewrite H. done.
  - rewrite Hix. split; [done|]. intros (objects & Ho & _ & _ & Hn & _). exfalso.
    apply Forall2_cons_inv_l in Ho as (o' & os & Eo & Ho & ->). cbn in Eo. rewrite Ed in Eo. injection Eo as <-.
    rewrite Eidx, app_assoc, length_app in Hn. lia.
Qed.

Lemma members_valid_intro earlier l :
  NoDup (member_name <$> l) ->
  Forall (fun m => (member_name m <> [] /\ 0 < member_size m <= CVM_OBJECT_MAX_SIZE) /\ member_name m ∉ (member_name <$> earlier)) l ->
  members_valid earlier l = true.
Proof.
  revert earlier. induction l as [|m l IH]; intros earlier Hnd Hf; cbn [members_valid]; [done|].
  apply Forall_cons_1 in Hf as [[[Hne Hsz] Hni] Hf]. cbn [fmap list_fmap] in Hnd. apply list.NoDup_cons in Hnd as [Hm Hnd].
  rewrite !andb_true_iff, unique_iff. split_and!; [|done|].
  - rewrite (proj2 (Z.eqb_neq _ 0)), (proj2 (Z.ltb_ge _ _)) by lia. by destruct (member_name m).
  - apply IH; [done|]. apply list.Forall_forall. intros x Hx. rewrite list.Forall_forall in Hf.
    destruct (Hf x Hx) as [H1 H2]. split; [done|]. rewrite fmap_app, elem_of_app. intros [H|H]; [done|].
    apply list_elem_of_singleton in H. apply Hm. apply list_elem_of_fmap. eauto.
Qed.

(** What the index lists: a symbol of an object, under the number of its member. *)
Lemma elem_of_index i objects x :
  x ∈ index_of i objects <->
  exists k o s, objects !! k = Some o /\ s ∈ symbols o /\ exported s = true /\ x = index_symbol (i + Z.of_nat k) s.
Proof.
  revert i. induction objects as [|o objects IH]; intros i; cbn [index_of].
  { split; [by intros H%elem_of_nil|]. intros (k & o & s & Hk & _). done. }
  rewrite elem_of_app, IH. unfold object_index. rewrite list_elem_of_fmap. split.
  - intros [(s & -> & [He Hs]%list_elem_of_filter)|(k & o' & s & Hk & Hs & He & ->)].
    + exists O, o, s. rewrite Z.add_0_r. done.
    + exists (S k), o', s. split_and!; [done..|]. f_equal. lia.
  - intros ([|k] & o' & s & Hk & Hs & He & ->).
    + left. injection Hk as ->. exists s. rewrite list_elem_of_filter, Z.add_0_r. done.
    + right. exists k, o', s. split_and!; [done..|]. f_equal. lia.
Qed.

(** The inputs as the host hands them over. *)
Definition inputs_wf (inputs : list (list Z * RAM)) : Prop :=
  Forall (fun input => is_string input.1 /\ ram_wf input.2) inputs.

Lemma input_member_size input : 0 <= ram_size input.2 -> member_size (input_member input) = ram_size input.2.
Proof. intros H. unfold member_size. cbn. rewrite length_ram_bytes. lia. Qed.

Lemma archivable_valid inputs objects :
  inputs_wf inputs -> archivable inputs objects ->
  archive_wf (archive_of inputs objects) /\ archive_valid (archive_of inputs objects) = true.
Proof.
  intros Hwf [Hc Ho [Hnd Hne] Hy Hs]. unfold inputs_wf in Hwf. rewrite list.Forall_forall in Hwf, Hne.
  pose proof (Forall2_length Ho) as Hlen.
  assert (forall i, i ∈ inputs -> 0 < ram_size i.2 <= CVM_OBJECT_MAX_SIZE) as Hsz.
  { intros i Hi. apply list_elem_of_lookup in Hi as [k Hk]. destruct (Forall2_lookup_l _ _ _ _ _ Ho Hk) as (o & _ & Hd).
    by eapply decode_size. }
  assert (forall x, x ∈ index_of 0 objects -> is_string (archive_symbol_name x) /\ archive_symbol_name x <> [] /\
     0 <= archive_symbol_member x < Z.of_nat (length inputs) /\ (archive_symbol_flags x = 0 \/ archive_symbol_flags x = 1)) as Hidx.
  { intros x (k & o & s & Hk & Hs' & _ & ->)%elem_of_index. destruct (Forall2_lookup_r _ _ _ _ _ Ho Hk) as (i & Hi & Hd).
    pose proof (lookup_lt_Some _ _ _ Hi). pose proof (proj2 (Hwf i (list_elem_of_lookup_2 _ _ _ Hi))) as Hr.
    pose proof (decode_symbol_names _ _ Hr Hd) as Hn. rewrite list.Forall_forall in Hn. destruct (Hn s Hs').
    cbn [index_symbol archive_symbol_name archive_symbol_member archive_symbol_flags].
    split_and!; [done|done|lia|lia|]. destruct (negb _); [by right|by left]. }
  unfold CVM_ARCHIVE_MAX_MEMBERS in Hc. split; [split|].
  - apply Forall_fmap, list.Forall_forall. intros i Hi. destruct (Hwf i Hi) as [H1 H2]. split; cbn.
    + by apply base_name_string.
    + by apply ram_bytes_u8.
  - apply list.Forall_forall. intros x Hx. destruct (Hidx x Hx) as (H1 & _ & H3 & H4).
    split; [done|lia|destruct H4 as [-> | ->]; lia].
  - unfold archive_valid, member_count, archive_symbol_count. cbn [archive_of members archive_symbols]. rewrite length_fmap.
    rewrite !andb_true_iff. split_and!.
    + rewrite (proj2 (Z.eqb_neq _ 0)), (proj2 (Z.ltb_ge CVM_ARCHIVE_MAX_MEMBERS _)), (proj2 (Z.ltb_ge _ _)); [done|lia|..|lia].
      unfold CVM_ARCHIVE_MAX_MEMBERS. lia.
    + apply members_valid_intro; [by rewrite <- list_fmap_compose|]. apply Forall_fmap, list.Forall_forall. intros i Hi.
      specialize (Hsz i Hi). cbn [compose]. rewrite input_member_size by lia.
      split; [split; [by apply Hne|done]|]. by intros ?%elem_of_nil.
    + apply forallb_forall. intros x Hx%list_elem_of_In. destruct (Hidx x Hx) as (H1 & H2 & H3 & H4).
      unfold archive_symbol_valid, member_count. cbn [archive_of members]. rewrite length_fmap, (proj2 (Z.leb_gt _ _)) by lia.
      destruct (archive_symbol_name x) as [|c n]; [done|]. cbn [empty_name orb]. destruct H4 as [-> | ->]; done.
Qed.

(** What a successful size computation says. *)
Lemma align_size_some value c : 0 <= value -> align_size value 8 = Some c -> c = align8 value /\ value + 7 <= SIZE_MAX.
Proof.
  intros H0 H. destruct (Z.le_gt_cases (value + 7) SIZE_MAX) as [Hle|Hgt].
  - rewrite align_size_8 in H by done. by injection H.
  - unfold align_size in H. by rewrite (proj2 (Z.ltb_lt _ _)) in H by lia.
Qed.

Lemma add_sizes_some c l d : add_sizes c l = Some d -> d = c + sum_sizes l.
Proof.
  revert c. induction l as [|n l IH]; intros c; cbn [add_sizes sum_sizes]; [intros [= <-]; lia|].
  destruct (add_size c n) as [e|] eqn:E; [|done]. apply add_size_some in E as [-> _]. intros ->%IH. lia.
Qed.

Lemma add_members_some c l d : 0 <= c -> add_members c l = Some d -> d = members_end c l.
Proof.
  revert c. induction l as [|m l IH]; intros c Hc; cbn [add_members members_end]; [by intros [= <-]|].
  destruct (add_size c (member_size m)) as [e|] eqn:E; [|done]. apply add_size_some in E as [-> _]. cbn [mbind option_bind].
  pose proof (member_size_pos m). pose proof (align8_le (c + member_size m)).
  destruct (align_size (c + member_size m) 8) as [e|] eqn:E; [|done]. apply align_size_some in E as [-> _]; [|lia].
  cbn [mbind option_bind]. apply IH. lia.
Qed.

Lemma encode_size_bound a image : cvm_archive_encode a = Some image -> archive_size a <= CVM_ARCHIVE_MAX_SIZE.
Proof.
  unfold cvm_archive_encode. destruct (negb (archive_valid a)); [done|].
  destruct (archive_layout_facts a) as (L1 & L2 & L3 & L4 & L5 & C1 & C2).
  assert (0 <= index_table a) as L0 by (change ARCHIVE_HEADER_SIZE with 64 in *; lia).
  intros (mb & E1%multiply_size_some & (sb & E2%multiply_size_some & (c1 & [E3 _]%add_size_some & (so & [E4 _]%add_size_some & H)
    %bind_Some)%bind_Some)%bind_Some)%bind_Some.
  apply bind_Some in H as (c2 & E5%add_sizes_some & H). apply bind_Some in H as (c3 & E6%add_sizes_some & H).
  fold (member_strings (members a)) in E5. fold (index_strings (archive_symbols a)) in E6.
  assert (so = archive_strings a) as -> by (unfold_archive; lia).
  assert (c3 = archive_strings a + archive_strings_size a) as -> by (unfold archive_strings_size; lia).
  apply bind_Some in H as (c4 & E7 & H). apply align_size_some in E7 as [-> _]; [|unfold archive_strings_size; lia].
  apply bind_Some in H as (c5 & E8 & H). apply add_members_some in E8 as ->; [|fold (member_area a); lia].
  fold (member_area a) in H. fold (archive_size a) in H. destruct (Z.ltb_spec CVM_ARCHIVE_MAX_SIZE (archive_size a)); [done|lia].
Qed.

(** C20: archiving is lossless and complete.  [create_archive] produces an image
    exactly when there are between one and 4096 inputs that decode as objects,
    have distinct non-empty base names, and fit the limits of the index and of
    the file.  Reading the image back gives every input unchanged under its base
    name and an index of exactly the global symbols the objects define, each
    under the number of its member. *)
Theorem archive_tool_correct inputs :
  inputs_wf inputs ->
  (forall image, create_archive inputs = Some image ->
     exists objects, archivable inputs objects /\ cvm_archive_decode image = POk (archive_of inputs objects)) /\
  (forall objects, archivable inputs objects -> exists image, create_archive inputs = Some image).
Proof.
  intros Hwf.
  assert (forall objects, archivable inputs objects -> exists image, create_archive inputs = Some image /\
    cvm_archive_decode image = POk (archive_of inputs objects)) as Hok.
  { intros objects Ha. destruct (archivable_valid _ _ Hwf Ha) as [W V]. destruct Ha as [Hc Ho [Hnd Hne] Hy Hs].
    destruct (archive_encode_image _ W V Hs) as (image & He & Hi). exists image.
    split; [|by apply archive_decode_image]. unfold create_archive.
    rewrite (proj2 (Z.leb_gt _ _)), (proj2 (Z.ltb_ge _ _)) by lia. cbn [orb].
    rewrite (proj2 (collect_members_spec inputs [] [] 0 (or_introl eq_refl) ltac:(cbn; lia) (archive_of inputs objects))); [done|].
    exists objects. split_and!; [done|done| |done|done].
    eapply list.Forall_impl; [exact Hne|]. intros i Hi'. split; [done|]. by intros ?%elem_of_nil. }
  split; [|intros objects Ha; destruct (Hok objects Ha) as (image & He & _); eauto].
  intros image Hcr. unfold create_archive in Hcr.
  destruct (Z.leb_spec (Z.of_nat (length inputs)) 0) as [|Hpos]; [done|].
  destruct (Z.ltb_spec CVM_ARCHIVE_MAX_MEMBERS (Z.of_nat (length inputs))) as [|Hmax]; [done|]. cbn [orb] in Hcr.
  destruct (collect_members inputs [] [] 0) as [a|] eqn:Ec; [|done]. cbn [mbind option_bind] in Hcr.
  apply collect_members_spec in Ec as (objects & Ho & Hnd & Hf & Hn & ->); [|by left|cbn; lia].
  change (mkArchive _ _) with (archive_of inputs objects) in Hcr.
  assert (archivable inputs objects) as Ha.
  { split; [lia|done| |done|by eapply encode_size_bound].
    split; [done|]. eapply list.Forall_impl; [exact Hf|]. by intros i [? _]. }
  exists objects. split; [done|]. destruct (archivable_valid _ _ Hwf Ha) as [W V]. destruct Ha as [_ _ _ _ Hs].
  destruct (archive_encode_image _ W V Hs) as (image' & He & Hi). rewrite He in Hcr. injection Hcr as <-.
  by apply archive_decode_image.
Qed.

(** The small object of ObjectFormat, archived twice. *)
Definition demo_image : RAM := default (zeroed 0) (cvm_object_encode demo_object).
Definition demo_inputs : list (list Z * RAM) := [([100; 47; 97], demo_image); ([98], demo_image)].

Lemma demo_image_wf : ram_wf demo_image.
Proof.
  split; [split; [vm_compute; discriminate|vm_compute; reflexivity]|].
  assert (bool_decide (map_Forall (fun _ b => 0 <= b <= 255) (ram_data demo_image)) = true) as H by (vm_compute; reflexivity).
  apply bool_decide_eq_true in H. intros a b Hb. specialize (H a b Hb). unfold is_u8. cbn in H. lia.
Qed.

Lemma archive_tool_correct_witness :
  exists image, create_archive demo_inputs = Some image /\
    exists objects, cvm_archive_decode image = POk (archive_of demo_inputs objects) /\
      member_name <$> members (archive_of demo_inputs objects) = [[97]; [98]].
Proof.
  assert (inputs_wf demo_inputs) as Hwf.
  { apply list.Forall_cons. split; [|apply list.Forall_cons; split; [|constructor]].
    all: split; [repeat constructor|apply demo_image_wf]. }
  destruct (archive_tool_correct demo_inputs Hwf) as [Hread Hmake].
  destruct (Hmake [demo_object; demo_object]) as [image Hi].
  - split; [vm_compute; split; [reflexivity|discriminate]|repeat constructor| |vm_compute; discriminate|vm_compute; discriminate].
    split; [|repeat constructor; discriminate]. apply (bool_decide_unpack _). vm_compute. exact I.
  - exists image. split; [exact Hi|]. destruct (Hread image Hi) as (objects & _ & Hd). exists objects. split; [exact Hd|reflexivity].
Defined.
