(* ===== verification/BootFormat.v ===== *)
(** The boot formats of src/boot_format.c: EXF kernel images and the BootInfo
    block that a loader hands to the kernel.

    The structures are encoded field by field at constant offsets; an encoder
    is the table of its fields.  Validation runs in [Check]: it passes with a
    value, rejects with a status, or reads outside its buffer. *)

From S2P Require Import Prelude Ram Image.
From Stdlib Require Import ZArith Lia Bool.
From stdpp Require Import base list numbers gmap option.

#[local] Open Scope Z_scope.

(** ** Statuses and checks *)

Inductive CvmBootFormatStatus :=
  | CVM_BOOT_FORMAT_OK
  | CVM_BOOT_FORMAT_INVALID_ARGUMENT
  | CVM_BOOT_FORMAT_TRUNCATED
  | CVM_BOOT_FORMAT_BAD_MAGIC
  | CVM_BOOT_FORMAT_UNSUPPORTED
  | CVM_BOOT_FORMAT_BAD_LAYOUT
  | CVM_BOOT_FORMAT_BAD_CHECKSUM
  | CVM_BOOT_FORMAT_BAD_SEGMENT
  | CVM_BOOT_FORMAT_BAD_ENTRY.

#[export] Instance CvmBootFormatStatus_eq : EqDecision CvmBootFormatStatus.
Proof. solve_decision. Defined.

Inductive Check (A : Type) :=
  | Pass (a : A)
  | Reject (s : CvmBootFormatStatus)
  | Overrun.
Arguments Pass {A} a.
Arguments Reject {A} s.
Arguments Overrun {A}.

#[export] Instance Check_ret : MRet Check := fun A a => Pass a.
#[export] Instance Check_bind : MBind Check := fun A B f m =>
  match m with Pass a => f a | Reject s => Reject s | Overrun => Overrun end.

(** [if (condition) return fail(status, ...)] *)
Definition reject_if (condition : bool) (status : CvmBootFormatStatus) : Check unit :=
  if condition then Reject status else Pass tt.

(** Reading the buffer. *)
Definition peek {A} (p : Parse A) : Check A :=
  match p with POk a => Pass a | PError => Reject CVM_BOOT_FORMAT_INVALID_ARGUMENT | POverrun => Overrun end.

(** ** Constants *)

(** ["RMVEXF01"], ["CVMBOOT1"], ["CVMVIRT1"] *)
Definition RISC_MV_EXF_MAGIC : list Z := [82; 77; 86; 69; 88; 70; 48; 49].
Definition CVM_BOOTINFO_MAGIC : list Z := [67; 86; 77; 66; 79; 79; 84; 49].
Definition CVM_BOOT_VIRTUAL_HANDOFF_MAGIC : list Z := [67; 86; 77; 86; 73; 82; 84; 49].

Definition CVM_KERNEL_FORMAT_MAJOR : Z := 1.
Definition CVM_KERNEL_FORMAT_MINOR : Z := 0.
Definition CVM_BOOTINFO_VERSION_MAJOR : Z := 1.
Definition CVM_BOOTINFO_VERSION_MINOR : Z := 0.
Definition CVM_KERNEL_HEADER_SIZE : Z := 128.
Definition CVM_KERNEL_SEGMENT_SIZE : Z := 64.
Definition CVM_KERNEL_MAX_SEGMENTS : Z := 64.
Definition CVM_BOOTINFO_HEADER_SIZE : Z := 256.
Definition CVM_MEMORY_MAP_ENTRY_SIZE : Z := 32.
Definition CVM_BOOT_VIRTUAL_HANDOFF_SIZE : Z := 64.
Definition RARCH_M64_ISA_ID : Z := 0x34364152.
Definition CVM_ISA_VERSION : Z := 1.
Definition CVM_BYTE_ORDER_LITTLE : Z := 1.
Definition CVM_ADDRESS_BITS : Z := 64.
Definition CVM_SEGMENT_LOAD : Z := 1.
Definition CVM_KERNEL_FLAG_RELOCATABLE_PHYSICAL : Z := Z.shiftl 1 0.
Definition CVM_SEGMENT_READ : Z := Z.shiftl 1 0.
Definition CVM_SEGMENT_WRITE : Z := Z.shiftl 1 1.
Definition CVM_SEGMENT_EXECUTE : Z := Z.shiftl 1 2.
Definition CVM_BOOTINFO_FLAG_MMU_ENABLED : Z := Z.shiftl 1 0.
Definition CVM_BOOTINFO_FLAG_INITRD_PRESENT : Z := Z.shiftl 1 1.
Definition CVM_BOOTINFO_FLAG_COMMAND_LINE_PRESENT : Z := Z.shiftl 1 2.
Definition CVM_BOOTINFO_FLAG_RANDOM_SEED_VALID : Z := Z.shiftl 1 3.
Definition CVM_BOOTINFO_FLAG_GPT_BOOT : Z := Z.shiftl 1 4.
Definition CVM_BOOTINFO_FLAG_FALLBACK_BOOT : Z := Z.shiftl 1 5.
Definition CVM_MEMORY_USABLE : Z := 1.
Definition CVM_MEMORY_MMIO : Z := 8.
Definition KERNEL_HEADER_CRC_OFFSET : Z := 0x58.
Definition KERNEL_PAYLOAD_CRC_OFFSET : Z := 0x5C.
Definition BOOTINFO_CHECKSUM_OFFSET : Z := 0xF0.

(** ** Field tables *)

(** A field is its offset and its bytes; [write_u16_le(output + 0x08, v)] is
    the field [(0x08, le16 v)], [memcpy(output + 0x00, s, 8)] is [(0x00, s)]. *)
Definition le8 (v : Z) : list Z := int_to_bytes 1 v.
Definition le16 (v : Z) : list Z := int_to_bytes 2 v.
Definition le32 (v : Z) : list Z := int_to_bytes 4 v.
Definition le64 (v : Z) : list Z := int_to_bytes 8 v.

Definition store_fields (data : RAM) (a : Z) (fields : list (Z * list Z)) : RAM :=
  foldl (fun data field => store_bytes data (a + field.1) field.2) data fields.

(** [memset(output, 0, size)] and the fields. *)
Definition encode_fields (data : RAM) (a size : Z) (fields : list (Z * list Z)) : RAM :=
  store_fields (store_bytes data a (replicate (Z.to_nat size) 0)) a fields.

Definition read_u8 : RAM -> Z -> Parse Z := read_le 1.

(** ** Helpers of boot_format.c *)

Definition add_u64 (left right : Z) : option Z :=
  if UINT64_MAX - left <? right then None else Some (left + right).

Definition is_power_of_two_u64 (value : Z) : bool := negb (value =? 0) && (Z.land value (value - 1) =? 0).

Definition all_zero (data : list Z) : bool := forallb (fun b => b =? 0) data.

(** One bit of the checksum; the mask is [(uint32_t)-(int32_t)(crc & 1)]. *)
Definition crc32_bit (crc : Z) : Z :=
  let mask := wrap32 (- Z.land crc 1) in
  Z.lxor (Z.shiftr crc 1) (Z.land 0xEDB88320 mask).

Definition crc32_byte (crc byte : Z) : Z := Nat.iter 8 crc32_bit (Z.lxor crc byte).

(** The loop over the bytes, [i] the index of the first. *)
Fixpoint crc32_loop (crc : Z) (data : list Z) (i zero_offset zero_size : Z) : Z :=
  match data with
  | [] => crc
  | b :: data =>
      let byte := if (zero_offset <=? i) && (i - zero_offset <? zero_size) then 0 else b in
      crc32_loop (crc32_byte crc byte) data (i + 1) zero_offset zero_size
  end.

Definition crc32_with_zero_range (data : list Z) (zero_offset zero_size : Z) : Z :=
  Z.lxor (crc32_loop 0xFFFFFFFF data 0 zero_offset zero_size) 0xFFFFFFFF.

Definition cvm_crc32 (data : list Z) : Z := crc32_with_zero_range data (Z.of_nat (length data)) 0.

Definition ranges_overlap (left_base left_size right_base right_size : Z) : bool :=
  match add_u64 left_base left_size, add_u64 right_base right_size with
  | Some left_end, Some right_end => (left_base <? right_end) && (right_base <? left_end)
  | _, _ => true
  end.

(** ** Kernel images *)

Record CvmKernelHeader := mkKernelHeader {
  kh_magic : list Z;
  kh_format_major : Z;
  kh_format_minor : Z;
  kh_header_size : Z;
  kh_flags : Z;
  kh_isa_id : Z;
  kh_isa_version : Z;
  kh_address_bits : Z;
  kh_byte_order : Z;
  kh_segment_count : Z;
  kh_segment_entry_size : Z;
  kh_segment_table_offset : Z;
  kh_entry_physical_address : Z;
  kh_image_file_size : Z;
  kh_required_cpu_features : Z;
  kh_build_id : list Z;
  kh_header_crc32 : Z;
  kh_payload_crc32 : Z;
  kh_entry_virtual_address : Z;
  kh_virtual_base : Z;
  kh_virtual_size : Z;
  kh_reserved : list Z;
}.

Definition set_header_crc32 (crc : Z) (h : CvmKernelHeader) : CvmKernelHeader :=
  mkKernelHeader (kh_magic h) (kh_format_major h) (kh_format_minor h) (kh_header_size h) (kh_flags h) (kh_isa_id h)
    (kh_isa_version h) (kh_address_bits h) (kh_byte_order h) (kh_segment_count h) (kh_segment_entry_size h)
    (kh_segment_table_offset h) (kh_entry_physical_address h) (kh_image_file_size h) (kh_required_cpu_features h)
    (kh_build_id h) crc (kh_payload_crc32 h) (kh_entry_virtual_address h) (kh_virtual_base h) (kh_virtual_size h)
    (kh_reserved h).

Definition set_payload_crc32 (crc : Z) (h : CvmKernelHeader) : CvmKernelHeader :=
  mkKernelHeader (kh_magic h) (kh_format_major h) (kh_format_minor h) (kh_header_size h) (kh_flags h) (kh_isa_id h)
    (kh_isa_version h) (kh_address_bits h) (kh_byte_order h) (kh_segment_count h) (kh_segment_entry_size h)
    (kh_segment_table_offset h) (kh_entry_physical_address h) (kh_image_file_size h) (kh_required_cpu_features h)
    (kh_build_id h) (kh_header_crc32 h) crc (kh_entry_virtual_address h) (kh_virtual_base h) (kh_virtual_size h)
    (kh_reserved h).

Definition kernel_header_fields (h : CvmKernelHeader) : list (Z * list Z) :=
  [(0x00, kh_magic h);
   (0x08, le16 (kh_format_major h));
   (0x0A, le16 (kh_format_minor h));
   (0x0C, le32 (kh_header_size h));
   (0x10, le64 (kh_flags h));
   (0x18, le32 (kh_isa_id h));
   (0x1C, le32 (kh_isa_version h));
   (0x20, le8 (kh_address_bits h));
   (0x21, le8 (kh_byte_order h));
   (0x22, le16 (kh_segment_count h));
   (0x24, le32 (kh_segment_entry_size h));
   (0x28, le64 (kh_segment_table_offset h));
   (0x30, le64 (kh_entry_physical_address h));
   (0x38, le64 (kh_image_file_size h));
   (0x40, le64 (kh_required_cpu_features h));
   (0x48, kh_build_id h);
   (0x58, le32 (kh_header_crc32 h));
   (0x5C, le32 (kh_payload_crc32 h));
   (0x60, le64 (kh_entry_virtual_address h));
   (0x68, le64 (kh_virtual_base h));
   (0x70, le64 (kh_virtual_size h));
   (0x78, kh_reserved h)].

Definition cvm_kernel_header_encode (data : RAM) (output : Z) (h : CvmKernelHeader) : RAM :=
  encode_fields data output CVM_KERNEL_HEADER_SIZE (kernel_header_fields h).

Definition cvm_kernel_header_decode (data : RAM) (input : Z) : Parse CvmKernelHeader :=
  magic ← fetch data (input + 0x00) 8;
  format_major ← read_u16 data (input + 0x08);
  format_minor ← read_u16 data (input + 0x0A);
  header_size ← read_u32 data (input + 0x0C);
  flags ← read_u64 data (input + 0x10);
  isa_id ← read_u32 data (input + 0x18);
  isa_version ← read_u32 data (input + 0x1C);
  address_bits ← read_u8 data (input + 0x20);
  byte_order ← read_u8 data (input + 0x21);
  segment_count ← read_u16 data (input + 0x22);
  segment_entry_size ← read_u32 data (input + 0x24);
  segment_table_offset ← read_u64 data (input + 0x28);
  entry_physical_address ← read_u64 data (input + 0x30);
  image_file_size ← read_u64 data (input + 0x38);
  required_cpu_features ← read_u64 data (input + 0x40);
  build_id ← fetch data (input + 0x48) 16;
  header_crc32 ← read_u32 data (input + 0x58);
  payload_crc32 ← read_u32 data (input + 0x5C);
  entry_virtual_address ← read_u64 data (input + 0x60);
  virtual_base ← read_u64 data (input + 0x68);
  virtual_size ← read_u64 data (input + 0x70);
  reserved ← fetch data (input + 0x78) 8;
  mret (mkKernelHeader magic format_major format_minor header_size flags isa_id isa_version address_bits byte_order
          segment_count segment_entry_size segment_table_offset entry_physical_address image_file_size
          required_cpu_features build_id header_crc32 payload_crc32 entry_virtual_address virtual_base virtual_size
          reserved).

Record CvmKernelSegment := mkKernelSegment {
  ks_type : Z;
  ks_flags : Z;
  ks_file_offset : Z;
  ks_load_address : Z;
  ks_virtual_address : Z;
  ks_file_size : Z;
  ks_memory_size : Z;
  ks_alignment : Z;
  ks_reserved : Z;
}.

Definition kernel_segment_fields (s : CvmKernelSegment) : list (Z * list Z) :=
  [(0x00, le32 (ks_type s));
   (0x04, le32 (ks_flags s));
   (0x08, le64 (ks_file_offset s));
   (0x10, le64 (ks_load_address s));
   (0x18, le64 (ks_virtual_address s));
   (0x20, le64 (ks_file_size s));
   (0x28, le64 (ks_memory_size s));
   (0x30, le64 (ks_alignment s));
   (0x38, le64 (ks_reserved s))].

Definition cvm_kernel_segment_encode (data : RAM) (output : Z) (s : CvmKernelSegment) : RAM :=
  encode_fields data output CVM_KERNEL_SEGMENT_SIZE (kernel_segment_fields s).

Definition cvm_kernel_segment_decode (data : RAM) (input : Z) : Parse CvmKernelSegment :=
  type ← read_u32 data (input + 0x00);
  flags ← read_u32 data (input + 0x04);
  file_offset ← read_u64 data (input + 0x08);
  load_address ← read_u64 data (input + 0x10);
  virtual_address ← read_u64 data (input + 0x18);
  file_size ← read_u64 data (input + 0x20);
  memory_size ← read_u64 data (input + 0x28);
  alignment ← read_u64 data (input + 0x30);
  reserved ← read_u64 data (input + 0x38);
  mret (mkKernelSegment type flags file_offset load_address virtual_address file_size memory_size alignment reserved).

Definition cvm_kernel_image_finalize (image : RAM) : Check RAM :=
  let image_size := ram_size image in
  reject_if (image_size <? CVM_KERNEL_HEADER_SIZE) CVM_BOOT_FORMAT_INVALID_ARGUMENT;;
  header ← peek (cvm_kernel_header_decode image 0);
  reject_if (negb (kh_image_file_size header =? image_size) || negb (kh_header_size header =? CVM_KERNEL_HEADER_SIZE))
    CVM_BOOT_FORMAT_BAD_LAYOUT;;
  payload ← peek (fetch image CVM_KERNEL_HEADER_SIZE (image_size - CVM_KERNEL_HEADER_SIZE));
  let header := set_payload_crc32 (cvm_crc32 payload) (set_header_crc32 0 header) in
  let image := cvm_kernel_header_encode image 0 header in
  bytes ← peek (fetch image 0 CVM_KERNEL_HEADER_SIZE);
  let header := set_header_crc32 (crc32_with_zero_range bytes KERNEL_HEADER_CRC_OFFSET 4) header in
  mret (cvm_kernel_header_encode image 0 header).

(** The inner loop over the segments before the current one. *)
Fixpoint check_previous (n : nat) (image : RAM) (table_offset previous : Z) (segment : CvmKernelSegment) : Check unit :=
  match n with
  | O => mret tt
  | S n =>
      other ← peek (cvm_kernel_segment_decode image (table_offset + previous * CVM_KERNEL_SEGMENT_SIZE));
      reject_if (ranges_overlap (ks_load_address segment) (ks_memory_size segment) (ks_load_address other)
                   (ks_memory_size other)) CVM_BOOT_FORMAT_BAD_SEGMENT;;
      reject_if (ranges_overlap (ks_virtual_address segment) (ks_memory_size segment) (ks_virtual_address other)
                   (ks_memory_size other)) CVM_BOOT_FORMAT_BAD_SEGMENT;;
      check_previous n image table_offset (previous + 1) segment
  end.

(** [add_u64] that rejects the segment when it overflows. *)
Definition segment_end (address size : Z) : Check Z :=
  match add_u64 address size with Some e => Pass e | None => Reject CVM_BOOT_FORMAT_BAD_SEGMENT end.

(** The body of the loop over the segments: whether the entry lies in it. *)
Definition check_segment (image : RAM) (header : CvmKernelHeader) (relocatable : bool) (table_offset table_end i : Z) :
    Check bool :=
  segment ← peek (cvm_kernel_segment_decode image (table_offset + i * CVM_KERNEL_SEGMENT_SIZE));
  reject_if (negb (ks_type segment =? CVM_SEGMENT_LOAD) ||
    negb (Z.land (ks_flags segment) (wrap32 (Z.lnot (Z.lor (Z.lor CVM_SEGMENT_READ CVM_SEGMENT_WRITE) CVM_SEGMENT_EXECUTE))) =? 0) ||
    (Z.land (ks_flags segment) CVM_SEGMENT_READ =? 0) || negb (ks_reserved segment =? 0)) CVM_BOOT_FORMAT_BAD_SEGMENT;;
  reject_if ((ks_memory_size segment =? 0) || (ks_memory_size segment <? ks_file_size segment) ||
    negb (is_power_of_two_u64 (ks_alignment segment)) ||
    negb (ks_load_address segment mod ks_alignment segment =? 0) ||
    negb (ks_virtual_address segment mod ks_alignment segment =? 0)) CVM_BOOT_FORMAT_BAD_SEGMENT;;
  load_end ← segment_end (ks_load_address segment) (ks_memory_size segment);
  virtual_end ← segment_end (ks_virtual_address segment) (ks_memory_size segment);
  reject_if (relocatable &&
    ((ks_virtual_address segment <? kh_virtual_base header) ||
     negb (ks_virtual_address segment - kh_virtual_base header =? ks_load_address segment) ||
     (kh_virtual_size header <? virtual_end - kh_virtual_base header))) CVM_BOOT_FORMAT_BAD_SEGMENT;;
  reject_if (negb (ks_file_size segment =? 0) &&
    ((ks_file_offset segment <? table_end) ||
     match add_u64 (ks_file_offset segment) (ks_file_size segment) with
     | Some file_end => ram_size image <? file_end
     | None => true
     end)) CVM_BOOT_FORMAT_BAD_SEGMENT;;
  check_previous (Z.to_nat i) image table_offset 0 segment;;
  let entry := if relocatable then kh_entry_virtual_address header else kh_entry_physical_address header in
  let segment_entry_base := if relocatable then ks_virtual_address segment else ks_load_address segment in
  let segment_entry_end := if relocatable then virtual_end else load_end in
  mret (negb (Z.land (ks_flags segment) CVM_SEGMENT_EXECUTE =? 0) && (segment_entry_base <=? entry) &&
        (entry <? segment_entry_end)).

Fixpoint check_segments (n : nat) (image : RAM) (header : CvmKernelHeader) (relocatable : bool)
    (table_offset table_end i : Z) (entry_found : bool) : Check bool :=
  match n with
  | O => mret entry_found
  | S n =>
      here ← check_segment image header relocatable table_offset table_end i;
      check_segments n image header relocatable table_offset table_end (i + 1) (if here : bool then true else entry_found)
  end.

Definition is_relocatable (header : CvmKernelHeader) : bool :=
  negb (Z.land (kh_flags header) CVM_KERNEL_FLAG_RELOCATABLE_PHYSICAL =? 0).

(** The address rules of the header. *)
Definition check_geometry (header : CvmKernelHeader) : Check unit :=
  if is_relocatable header then
    reject_if ((kh_virtual_size header =? 0) ||
      match add_u64 (kh_virtual_base header) (kh_virtual_size header) with
      | None => true
      | Some virtual_end =>
          (kh_entry_virtual_address header <? kh_virtual_base header) ||
          (virtual_end <=? kh_entry_virtual_address header) ||
          negb (kh_entry_physical_address header =? kh_entry_virtual_address header - kh_virtual_base header)
      end) CVM_BOOT_FORMAT_BAD_LAYOUT
  else
    reject_if (negb (kh_entry_virtual_address header =? 0) || negb (kh_virtual_base header =? 0) ||
      negb (kh_virtual_size header =? 0)) CVM_BOOT_FORMAT_UNSUPPORTED.

Definition cvm_kernel_image_validate (image : RAM) : Check CvmKernelHeader :=
  let image_size := ram_size image in
  reject_if (image_size <? CVM_KERNEL_HEADER_SIZE) CVM_BOOT_FORMAT_TRUNCATED;;
  header ← peek (cvm_kernel_header_decode image 0);
  reject_if (negb (bool_decide (kh_magic header = RISC_MV_EXF_MAGIC))) CVM_BOOT_FORMAT_BAD_MAGIC;;
  reject_if (negb (kh_format_major header =? CVM_KERNEL_FORMAT_MAJOR) ||
    (CVM_KERNEL_FORMAT_MINOR <? kh_format_minor header)) CVM_BOOT_FORMAT_UNSUPPORTED;;
  reject_if (negb (kh_header_size header =? CVM_KERNEL_HEADER_SIZE) ||
    negb (kh_segment_entry_size header =? CVM_KERNEL_SEGMENT_SIZE) || (kh_segment_count header =? 0) ||
    (CVM_KERNEL_MAX_SEGMENTS <? kh_segment_count header)) CVM_BOOT_FORMAT_BAD_LAYOUT;;
  reject_if (negb (Z.land (kh_flags header) (not64 CVM_KERNEL_FLAG_RELOCATABLE_PHYSICAL) =? 0) ||
    negb (kh_isa_id header =? RARCH_M64_ISA_ID) || negb (kh_isa_version header =? CVM_ISA_VERSION) ||
    negb (kh_address_bits header =? CVM_ADDRESS_BITS) || negb (kh_byte_order header =? CVM_BYTE_ORDER_LITTLE))
    CVM_BOOT_FORMAT_UNSUPPORTED;;
  reject_if (negb (all_zero (kh_reserved header))) CVM_BOOT_FORMAT_UNSUPPORTED;;
  reject_if (negb (kh_image_file_size header =? image_size)) CVM_BOOT_FORMAT_BAD_LAYOUT;;
  reject_if ((kh_segment_table_offset header <? CVM_KERNEL_HEADER_SIZE) ||
    negb (Z.land (kh_segment_table_offset header) 7 =? 0) || (SIZE_MAX <? kh_segment_table_offset header))
    CVM_BOOT_FORMAT_BAD_LAYOUT;;
  table_size ← match multiply_size (kh_segment_count header) CVM_KERNEL_SEGMENT_SIZE with
               | Some n => Pass n
               | None => Reject CVM_BOOT_FORMAT_BAD_LAYOUT
               end;
  let table_offset := kh_segment_table_offset header in
  reject_if ((image_size <? table_offset) || (image_size - table_offset <? table_size)) CVM_BOOT_FORMAT_TRUNCATED;;
  let table_end := table_offset + table_size in
  bytes ← peek (fetch image 0 CVM_KERNEL_HEADER_SIZE);
  reject_if (negb (kh_header_crc32 header =? crc32_with_zero_range bytes KERNEL_HEADER_CRC_OFFSET 4))
    CVM_BOOT_FORMAT_BAD_CHECKSUM;;
  payload ← peek (fetch image CVM_KERNEL_HEADER_SIZE (image_size - CVM_KERNEL_HEADER_SIZE));
  reject_if (negb (kh_payload_crc32 header =? cvm_crc32 payload)) CVM_BOOT_FORMAT_BAD_CHECKSUM;;
  check_geometry header;;
  entry_found ← check_segments (Z.to_nat (kh_segment_count header)) image header (is_relocatable header)
                  table_offset table_end 0 false;
  reject_if (negb entry_found) CVM_BOOT_FORMAT_BAD_ENTRY;;
  mret header.

(** ** BootInfo *)

Record CvmBootInfo := mkBootInfo {
  bi_magic : list Z;
  bi_version_major : Z;
  bi_version_minor : Z;
  bi_header_size : Z;
  bi_total_size : Z;
  bi_flags : Z;
  bi_boot_cpu_id : Z;
  bi_reserved0 : Z;
  bi_memory_map_offset : Z;
  bi_memory_map_count : Z;
  bi_memory_map_entry_size : Z;
  bi_ram_base : Z;
  bi_ram_size : Z;
  bi_kernel_entry : Z;
  bi_kernel_physical_base : Z;
  bi_kernel_physical_size : Z;
  bi_initrd_base : Z;
  bi_initrd_size : Z;
  bi_command_line_offset : Z;
  bi_command_line_size : Z;
  bi_reserved1 : Z;
  bi_vio_hub_base : Z;
  bi_system_info_base : Z;
  bi_system_control_base : Z;
  bi_irq_controller_base : Z;
  bi_core_control_base : Z;
  bi_timer_base : Z;
  bi_uart_base : Z;
  bi_boot_device_slot : Z;
  bi_boot_partition_index : Z;
  bi_boot_partition_lba : Z;
  bi_boot_partition_sectors : Z;
  bi_page_size : Z;
  bi_physical_address_bits : Z;
  bi_virtual_address_bits : Z;
  bi_random_seed : list Z;
  bi_checksum : Z;
  bi_reserved : list Z;
}.

Definition boot_info_fields (b : CvmBootInfo) : list (Z * list Z) :=
  [(0x00, bi_magic b);
   (0x08, le16 (bi_version_major b));
   (0x0A, le16 (bi_version_minor b));
   (0x0C, le32 (bi_header_size b));
   (0x10, le32 (bi_total_size b));
   (0x14, le32 (bi_flags b));
   (0x18, le32 (bi_boot_cpu_id b));
   (0x1C, le32 (bi_reserved0 b));
   (0x20, le64 (bi_memory_map_offset b));
   (0x28, le32 (bi_memory_map_count b));
   (0x2C, le32 (bi_memory_map_entry_size b));
   (0x30, le64 (bi_ram_base b));
   (0x38, le64 (bi_ram_size b));
   (0x40, le64 (bi_kernel_entry b));
   (0x48, le64 (bi_kernel_physical_base b));
   (0x50, le64 (bi_kernel_physical_size b));
   (0x58, le64 (bi_initrd_base b));
   (0x60, le64 (bi_initrd_size b));
   (0x68, le64 (bi_command_line_offset b));
   (0x70, le32 (bi_command_line_size b));
   (0x74, le32 (bi_reserved1 b));
   (0x78, le64 (bi_vio_hub_base b));
   (0x80, le64 (bi_system_info_base b));
   (0x88, le64 (bi_system_control_base b));
   (0x90, le64 (bi_irq_controller_base b));
   (0x98, le64 (bi_core_control_base b));
   (0xA0, le64 (bi_timer_base b));
   (0xA8, le64 (bi_uart_base b));
   (0xB0, le32 (bi_boot_device_slot b));
   (0xB4, le32 (bi_boot_partition_index b));
   (0xB8, le64 (bi_boot_partition_lba b));
   (0xC0, le64 (bi_boot_partition_sectors b));
   (0xC8, le32 (bi_page_size b));
   (0xCC, le16 (bi_physical_address_bits b));
   (0xCE, le16 (bi_virtual_address_bits b));
   (0xD0, bi_random_seed b);
   (0xF0, le32 (bi_checksum b));
   (0xF4, bi_reserved b)].

Definition cvm_boot_info_encode (data : RAM) (output : Z) (b : CvmBootInfo) : RAM :=
  encode_fields data output CVM_BOOTINFO_HEADER_SIZE (boot_info_fields b).

Definition cvm_boot_info_decode (data : RAM) (input : Z) : Parse CvmBootInfo :=
  magic ← fetch data (input + 0x00) 8;
  version_major ← read_u16 data (input + 0x08);
  version_minor ← read_u16 data (input + 0x0A);
  header_size ← read_u32 data (input + 0x0C);
  total_size ← read_u32 data (input + 0x10);
  flags ← read_u32 data (input + 0x14);
  boot_cpu_id ← read_u32 data (input + 0x18);
  reserved0 ← read_u32 data (input + 0x1C);
  memory_map_offset ← read_u64 data (input + 0x20);
  memory_map_count ← read_u32 data (input + 0x28);
  memory_map_entry_size ← read_u32 data (input + 0x2C);
  ram_base ← read_u64 data (input + 0x30);
  ram_size ← read_u64 data (input + 0x38);
  kernel_entry ← read_u64 data (input + 0x40);
  kernel_physical_base ← read_u64 data (input + 0x48);
  kernel_physical_size ← read_u64 data (input + 0x50);
  initrd_base ← read_u64 data (input + 0x58);
  initrd_size ← read_u64 data (input + 0x60);
  command_line_offset ← read_u64 data (input + 0x68);
  command_line_size ← read_u32 data (input + 0x70);
  reserved1 ← read_u32 data (input + 0x74);
  vio_hub_base ← read_u64 data (input + 0x78);
  system_info_base ← read_u64 data (input + 0x80);
  system_control_base ← read_u64 data (input + 0x88);
  irq_controller_base ← read_u64 data (input + 0x90);
  core_control_base ← read_u64 data (input + 0x98);
  timer_base ← read_u64 data (input + 0xA0);
  uart_base ← read_u64 data (input + 0xA8);
  boot_device_slot ← read_u32 data (input + 0xB0);
  boot_partition_index ← read_u32 data (input + 0xB4);
  boot_partition_lba ← read_u64 data (input + 0xB8);
  boot_partition_sectors ← read_u64 data (input + 0xC0);
  page_size ← read_u32 data (input + 0xC8);
  physical_address_bits ← read_u16 data (input + 0xCC);
  virtual_address_bits ← read_u16 data (input + 0xCE);
  random_seed ← fetch data (input + 0xD0) 32;
  checksum ← read_u32 data (input + 0xF0);
  reserved ← fetch data (input + 0xF4) 12;
  mret (mkBootInfo magic version_major version_minor header_size total_size flags boot_cpu_id reserved0
          memory_map_offset memory_map_count memory_map_entry_size ram_base ram_size kernel_entry
          kernel_physical_base kernel_physical_size initrd_base initrd_size command_line_offset command_line_size
          reserved1 vio_hub_base system_info_base system_control_base irq_controller_base core_control_base
          timer_base uart_base boot_device_slot boot_partition_index boot_partition_lba boot_partition_sectors
          page_size physical_address_bits virtual_address_bits random_seed checksum reserved).

Record CvmBootVirtualHandoff := mkVirtualHandoff {
  vh_magic : list Z;
  vh_kernel_virtual_base : Z;
  vh_kernel_virtual_size : Z;
  vh_initial_page_table_root : Z;
  vh_direct_map_base : Z;
  vh_direct_map_size : Z;
  vh_page_table_physical_base : Z;
  vh_page_table_physical_size : Z;
}.

Definition virtual_handoff_fields (v : CvmBootVirtualHandoff) : list (Z * list Z) :=
  [(0x00, vh_magic v);
   (0x08, le64 (vh_kernel_virtual_base v));
   (0x10, le64 (vh_kernel_virtual_size v));
   (0x18, le64 (vh_initial_page_table_root v));
   (0x20, le64 (vh_direct_map_base v));
   (0x28, le64 (vh_direct_map_size v));
   (0x30, le64 (vh_page_table_physical_base v));
   (0x38, le64 (vh_page_table_physical_size v))].

Definition cvm_boot_virtual_handoff_encode (data : RAM) (output : Z) (v : CvmBootVirtualHandoff) : RAM :=
  encode_fields data output CVM_BOOT_VIRTUAL_HANDOFF_SIZE (virtual_handoff_fields v).

Definition cvm_boot_virtual_handoff_decode (data : RAM) (input : Z) : Parse CvmBootVirtualHandoff :=
  magic ← fetch data (input + 0x00) 8;
  kernel_virtual_base ← read_u64 data (input + 0x08);
  kernel_virtual_size ← read_u64 data (input + 0x10);
  initial_page_table_root ← read_u64 data (input + 0x18);
  direct_map_base ← read_u64 data (input + 0x20);
  direct_map_size ← read_u64 data (input + 0x28);
  page_table_physical_base ← read_u64 data (input + 0x30);
  page_table_physical_size ← read_u64 data (input + 0x38);
  mret (mkVirtualHandoff magic kernel_virtual_base kernel_virtual_size initial_page_table_root direct_map_base
          direct_map_size page_table_physical_base page_table_physical_size).

Record CvmMemoryMapEntry := mkMemoryMapEntry {
  mm_base : Z;
  mm_length : Z;
  mm_type : Z;
  mm_attributes : Z;
  mm_reserved : Z;
}.

Definition memory_map_entry_fields (e : CvmMemoryMapEntry) : list (Z * list Z) :=
  [(0x00, le64 (mm_base e));
   (0x08, le64 (mm_length e));
   (0x10, le32 (mm_type e));
   (0x14, le32 (mm_attributes e));
   (0x18, le64 (mm_reserved e))].

Definition cvm_memory_map_entry_encode (data : RAM) (output : Z) (e : CvmMemoryMapEntry) : RAM :=
  encode_fields data output CVM_MEMORY_MAP_ENTRY_SIZE (memory_map_entry_fields e).

Definition cvm_memory_map_entry_decode (data : RAM) (input : Z) : Parse CvmMemoryMapEntry :=
  base ← read_u64 data (input + 0x00);
  length ← read_u64 data (input + 0x08);
  type ← read_u32 data (input + 0x10);
  attributes ← read_u32 data (input + 0x14);
  reserved ← read_u64 data (input + 0x18);
  mret (mkMemoryMapEntry base length type attributes reserved).

Definition cvm_boot_info_finalize (data : RAM) : Check RAM :=
  let data_size := ram_size data in
  reject_if (data_size <? CVM_BOOTINFO_HEADER_SIZE) CVM_BOOT_FORMAT_INVALID_ARGUMENT;;
  info ← peek (cvm_boot_info_decode data 0);
  reject_if ((bi_total_size info <? CVM_BOOTINFO_HEADER_SIZE) || (data_size <? bi_total_size info))
    CVM_BOOT_FORMAT_BAD_LAYOUT;;
  let data := write_u32 data BOOTINFO_CHECKSUM_OFFSET 0 in
  bytes ← peek (fetch data 0 (bi_total_size info));
  mret (write_u32 data BOOTINFO_CHECKSUM_OFFSET (cvm_crc32 bytes)).

(** The rules on the MMU handoff; [ram_end] was computed before. *)
Definition handoff_rejected (info : CvmBootInfo) (handoff : CvmBootVirtualHandoff) (ram_end : Z) : bool :=
  let virtual_limit := if bi_virtual_address_bits info =? 64 then UINT64_MAX else Z.shiftl 1 (bi_virtual_address_bits info) in
  let page := bi_page_size info in
  negb (bool_decide (vh_magic handoff = CVM_BOOT_VIRTUAL_HANDOFF_MAGIC)) ||
  (vh_kernel_virtual_size handoff =? 0) || negb (vh_kernel_virtual_base handoff mod page =? 0) ||
  match add_u64 (vh_kernel_virtual_base handoff) (vh_kernel_virtual_size handoff) with
  | None => true
  | Some kernel_virtual_end =>
      (virtual_limit <? kernel_virtual_end) || (bi_kernel_entry info <? vh_kernel_virtual_base handoff) ||
      (kernel_virtual_end <=? bi_kernel_entry info)
  end ||
  (bi_kernel_physical_size info =? 0) || negb (bi_kernel_physical_base info mod page =? 0) ||
  match add_u64 (bi_kernel_physical_base info) (bi_kernel_physical_size info) with
  | None => true
  | Some kernel_physical_end => ram_end <? kernel_physical_end
  end ||
  negb (vh_initial_page_table_root handoff mod page =? 0) || negb (vh_direct_map_base handoff mod page =? 0) ||
  (vh_direct_map_size handoff <? bi_ram_size info) ||
  match add_u64 (vh_direct_map_base handoff) (vh_direct_map_size handoff) with
  | None => true
  | Some direct_map_end => virtual_limit <? direct_map_end
  end ||
  (vh_page_table_physical_size handoff =? 0) || negb (vh_page_table_physical_base handoff mod page =? 0) ||
  negb (vh_page_table_physical_size handoff mod page =? 0) ||
  match add_u64 (vh_page_table_physical_base handoff) (vh_page_table_physical_size handoff) with
  | None => true
  | Some page_table_end =>
      (ram_end <? page_table_end) || (vh_initial_page_table_root handoff <? vh_page_table_physical_base handoff) ||
      (page_table_end - page <? vh_initial_page_table_root handoff)
  end.

Fixpoint check_memory_map (n : nat) (data : RAM) (map_offset i previous_end : Z) : Check unit :=
  match n with
  | O => mret tt
  | S n =>
      entry ← peek (cvm_memory_map_entry_decode data (map_offset + i * CVM_MEMORY_MAP_ENTRY_SIZE));
      reject_if ((mm_length entry =? 0) || (mm_type entry <? CVM_MEMORY_USABLE) || (CVM_MEMORY_MMIO <? mm_type entry) ||
        negb (mm_reserved entry =? 0)) CVM_BOOT_FORMAT_BAD_LAYOUT;;
      match add_u64 (mm_base entry) (mm_length entry) with
      | None => Reject CVM_BOOT_FORMAT_BAD_LAYOUT
      | Some end_ =>
          reject_if (negb (i =? 0) && (mm_base entry <? previous_end)) CVM_BOOT_FORMAT_BAD_LAYOUT;;
          check_memory_map n data map_offset (i + 1) end_
      end
  end.

Definition bootinfo_known_flags : Z :=
  Z.lor (Z.lor (Z.lor (Z.lor (Z.lor CVM_BOOTINFO_FLAG_MMU_ENABLED CVM_BOOTINFO_FLAG_INITRD_PRESENT)
    CVM_BOOTINFO_FLAG_COMMAND_LINE_PRESENT) CVM_BOOTINFO_FLAG_RANDOM_SEED_VALID) CVM_BOOTINFO_FLAG_GPT_BOOT)
    CVM_BOOTINFO_FLAG_FALLBACK_BOOT.

Definition flag_set (flags flag : Z) : bool := negb (Z.land flags flag =? 0).

(** The command line is described, ends with a zero byte, or is absent. *)
Definition check_command_line (data : RAM) (info : CvmBootInfo) : Check unit :=
  if flag_set (bi_flags info) CVM_BOOTINFO_FLAG_COMMAND_LINE_PRESENT then
    reject_if ((bi_command_line_size info =? 0) || (bi_command_line_offset info <? CVM_BOOTINFO_HEADER_SIZE) ||
      (bi_total_size info <? bi_command_line_offset info) ||
      (bi_total_size info - bi_command_line_offset info <? bi_command_line_size info)) CVM_BOOT_FORMAT_BAD_LAYOUT;;
    last ← peek (read_u8 data (bi_command_line_offset info + bi_command_line_size info - 1));
    reject_if (negb (last =? 0)) CVM_BOOT_FORMAT_BAD_LAYOUT
  else
    reject_if (negb (bi_command_line_offset info =? 0) || negb (bi_command_line_size info =? 0))
      CVM_BOOT_FORMAT_BAD_LAYOUT.

Definition cvm_boot_info_validate (data : RAM) : Check CvmBootInfo :=
  let data_size := ram_size data in
  reject_if (data_size <? CVM_BOOTINFO_HEADER_SIZE) CVM_BOOT_FORMAT_TRUNCATED;;
  info ← peek (cvm_boot_info_decode data 0);
  reject_if (negb (bool_decide (bi_magic info = CVM_BOOTINFO_MAGIC))) CVM_BOOT_FORMAT_BAD_MAGIC;;
  reject_if (negb (bi_version_major info =? CVM_BOOTINFO_VERSION_MAJOR) ||
    (CVM_BOOTINFO_VERSION_MINOR <? bi_version_minor info)) CVM_BOOT_FORMAT_UNSUPPORTED;;
  reject_if (negb (bi_header_size info =? CVM_BOOTINFO_HEADER_SIZE) ||
    (bi_total_size info <? CVM_BOOTINFO_HEADER_SIZE) || (data_size <? bi_total_size info)) CVM_BOOT_FORMAT_BAD_LAYOUT;;
  reject_if (negb (Z.land (bi_flags info) (wrap32 (Z.lnot bootinfo_known_flags)) =? 0) ||
    negb (bi_reserved0 info =? 0) || negb (bi_reserved1 info =? 0) || negb (all_zero (bi_reserved info)))
    CVM_BOOT_FORMAT_UNSUPPORTED;;
  bytes ← peek (fetch data 0 (bi_total_size info));
  reject_if (negb (bi_checksum info =? crc32_with_zero_range bytes BOOTINFO_CHECKSUM_OFFSET 4))
    CVM_BOOT_FORMAT_BAD_CHECKSUM;;
  ram_end ← match add_u64 (bi_ram_base info) (bi_ram_size info) with
            | Some ram_end => if bi_ram_size info =? 0 then Reject CVM_BOOT_FORMAT_BAD_LAYOUT else Pass ram_end
            | None => Reject CVM_BOOT_FORMAT_BAD_LAYOUT
            end;
  reject_if (negb (bi_page_size info =? 4096) || (bi_physical_address_bits info =? 0) ||
    (64 <? bi_physical_address_bits info) || (bi_virtual_address_bits info =? 0) ||
    (64 <? bi_virtual_address_bits info)) CVM_BOOT_FORMAT_UNSUPPORTED;;
  (if flag_set (bi_flags info) CVM_BOOTINFO_FLAG_MMU_ENABLED then
     reject_if (bi_memory_map_offset info <? CVM_BOOTINFO_HEADER_SIZE + CVM_BOOT_VIRTUAL_HANDOFF_SIZE)
       CVM_BOOT_FORMAT_BAD_LAYOUT;;
     handoff ← peek (cvm_boot_virtual_handoff_decode data CVM_BOOTINFO_HEADER_SIZE);
     reject_if (handoff_rejected info handoff ram_end) CVM_BOOT_FORMAT_BAD_LAYOUT
   else mret tt);;
  reject_if ((bi_memory_map_count info =? 0) || negb (bi_memory_map_entry_size info =? CVM_MEMORY_MAP_ENTRY_SIZE) ||
    (bi_memory_map_offset info <? CVM_BOOTINFO_HEADER_SIZE) || (SIZE_MAX <? bi_memory_map_offset info))
    CVM_BOOT_FORMAT_BAD_LAYOUT;;
  map_size ← match multiply_size (bi_memory_map_count info) CVM_MEMORY_MAP_ENTRY_SIZE with
             | Some n => Pass n
             | None => Reject CVM_BOOT_FORMAT_BAD_LAYOUT
             end;
  reject_if ((bi_total_size info <? bi_memory_map_offset info) ||
    (bi_total_size info - bi_memory_map_offset info <? map_size)) CVM_BOOT_FORMAT_TRUNCATED;;
  check_memory_map (Z.to_nat (bi_memory_map_count info)) data (bi_memory_map_offset info) 0 0;;
  let has_initrd := flag_set (bi_flags info) CVM_BOOTINFO_FLAG_INITRD_PRESENT in
  reject_if (negb (Bool.eqb has_initrd (negb (bi_initrd_size info =? 0))) ||
    (negb has_initrd && negb (bi_initrd_base info =? 0))) CVM_BOOT_FORMAT_BAD_LAYOUT;;
  check_command_line data info;;
  reject_if (flag_set (bi_flags info) CVM_BOOTINFO_FLAG_GPT_BOOT &&
    ((bi_boot_partition_index info =? 0) || (bi_boot_partition_sectors info =? 0))) CVM_BOOT_FORMAT_BAD_LAYOUT;;
  mret info.
