(* ===== verification/BootProof.v ===== *)
(** Properties of the boot formats: the structures survive encoding, the
    checksum detects every change of one byte, validation accepts exactly the
    images the format describes and finalisation makes an image acceptable. *)

From S2P Require Import Prelude Ram Image BootFormat.
From Stdlib Require Import ZArith Lia Bool.
From stdpp Require Import base list numbers gmap option.

#[local] Open Scope Z_scope.

(** ** Structures as contiguous fields *)

(** The bytes of a structure, read piece by piece. *)
Fixpoint pieces (data : RAM) (a offset : Z) (sizes : list Z) : list (list Z) :=
  match sizes with
  | [] => []
  | n :: sizes => ram_bytes data (a + offset) n :: pieces data a (offset + n) sizes
  end.

Lemma concat_pieces data a offset sizes :
  Forall (fun n => 0 <= n) sizes -> concat (pieces data a offset sizes) = ram_bytes data (a + offset) (sum_sizes sizes).
Proof.
  intros H. revert offset. induction H as [|n sizes Hn Hs IH]; intros offset; cbn [pieces concat sum_sizes]; [done|].
  rewrite IH, ram_bytes_app by (done || by apply sum_sizes_pos). by rewrite Z.add_assoc.
Qed.

Lemma concat_inj (l1 l2 : list (list Z)) :
  Forall2 (fun x y => length x = length y) l1 l2 -> concat l1 = concat l2 -> l1 = l2.
Proof.
  induction 1 as [|x y l1 l2 Hl H IH]; cbn [concat]; [done|]. intros E.
  apply app_inj_1 in E as [-> E]; [|done]. by rewrite (IH E).
Qed.

(** The fields follow one another from [offset] on. *)
Fixpoint contiguous (offset : Z) (fields : list (Z * list Z)) : Prop :=
  match fields with
  | [] => True
  | f :: fields => f.1 = offset /\ contiguous (offset + Z.of_nat (length f.2)) fields
  end.

Definition fields_bytes (fields : list (Z * list Z)) : list Z := concat (snd <$> fields).

Lemma store_fields_contiguous fields data a offset :
  contiguous offset fields -> store_fields data a fields = store_bytes data (a + offset) (fields_bytes fields).
Proof.
  unfold fields_bytes. revert data offset. induction fields as [|[o l] fields IH]; intros data offset; [done|].
  cbn [contiguous fst snd]. intros [-> H]. change (store_fields data a ((offset, l) :: fields))
    with (store_fields (store_bytes data (a + offset) l) a fields). rewrite (IH _ _ H).
  cbn [fmap list_fmap snd concat]. rewrite store_bytes_app. f_equal. lia.
Qed.

(** What is left of an encoded structure. *)
Lemma encode_fields_spec data a size fields :
  contiguous 0 fields -> Z.of_nat (length (fields_bytes fields)) = size -> Forall is_u8 (fields_bytes fields) ->
  let data' := encode_fields data a size fields in
  ram_bytes data' a size = fields_bytes fields /\ changes_within [(a, a + size)] data data'.
Proof.
  intros Hc Hl H8. cbv zeta. unfold encode_fields. rewrite (store_fields_contiguous _ _ _ 0) by done. rewrite Z.add_0_r.
  split; [rewrite <- Hl; apply ram_bytes_store_same|].
  etrans; [|eapply (changes_store _ _ _ _ a (a + size)); [done|by left|lia|lia]].
  eapply (changes_store _ _ _ _ a (a + size)); [|by left|lia|rewrite length_replicate; lia].
  apply Forall_replicate. unfold is_u8. lia.
Qed.

(** Reading a field that is known. *)
Lemma piece_read n data a v :
  ram_bytes data a n = int_to_bytes n v -> 0 <= n <= 8 -> 0 <= v < 2 ^ (8 * n) -> 0 <= a -> a + n <= ram_size data ->
  read_le n data a = POk v.
Proof.
  intros H Hn Hv Ha Hs. apply holds_read; [|done..]. unfold holds_at. rewrite length_int_to_bytes, Z2Nat.id by lia. done.
Qed.

Lemma piece_fetch n data a l : ram_bytes data a n = l -> 0 <= a -> a + n <= ram_size data -> fetch data a n = POk l.
Proof. intros <- Ha Hs. unfold fetch. by rewrite (proj2 (Z.leb_le 0 a)), (proj2 (Z.leb_le _ (ram_size data))). Qed.

(** A word of [p.2] bytes. *)
Definition word_ok (p : Z * Z) : Prop := 0 <= p.1 < 2 ^ (8 * p.2).
Definition bytes_ok (p : list Z * Z) : Prop := Z.of_nat (length p.1) = p.2 /\ Forall is_u8 p.1.

#[local] Arguments word_ok : simpl never.
#[local] Arguments bytes_ok : simpl never.
#[local] Arguments int_to_bytes : simpl never.
#[local] Arguments ram_bytes : simpl never.
#[local] Arguments le8 : simpl never.
#[local] Arguments le16 : simpl never.
#[local] Arguments le32 : simpl never.
#[local] Arguments le64 : simpl never.

Lemma load_word data a n : ram_wf data -> 0 <= n -> word_ok (atomic_load_n data a n, n).
Proof.
  intros Hwf Hn. unfold word_ok, atomic_load_n. cbn [fst snd]. pose proof (ram_bytes_u8 data a n Hwf) as H8.
  pose proof (bytes_to_int_bound _ H8) as Hb. rewrite length_ram_bytes, Z2Nat.id in Hb by lia. rewrite Z.pow_mul_r by lia. exact Hb.
Qed.

Lemma load_bytes data a n : ram_wf data -> 0 <= n -> bytes_ok (ram_bytes data a n, n).
Proof. intros Hwf Hn. split; cbn [fst snd]; [rewrite length_ram_bytes; lia|by apply ram_bytes_u8]. Qed.

Lemma read_load n data a :
  ram_wf data -> 0 <= n <= 8 -> 0 <= a -> a + n <= ram_size data -> read_le n data a = POk (atomic_load_n data a n).
Proof.
  intros Hwf Hn Ha Hs. unfold read_le. rewrite (piece_fetch _ _ _ _ eq_refl) by done. cbn [mbind Parse_bind].
  rewrite or_bytes_correct; [done|by apply ram_bytes_u8|rewrite length_ram_bytes; lia].
Qed.

(** Tactics over the field tables. *)
Ltac decode_loads := unfold read_u8, read_u16, read_u32, read_u64;
  repeat (first [rewrite read_load by (done || lia) | rewrite (piece_fetch _ _ _ _ eq_refl) by lia];
          cbn [mbind Parse_bind]).

Ltac lengths_ok := repeat match goal with |- context [length (int_to_bytes ?n ?v)] => rewrite (length_int_to_bytes n v) end.

(** ** The codec of each structure *)

Definition codec_wf {A} (words : A -> list (Z * Z)) (blocks : A -> list (list Z * Z)) (x : A) : Prop :=
  Forall word_ok (words x) /\ Forall bytes_ok (blocks x).

Record Codec {A} (size : Z) (words : A -> list (Z * Z)) (blocks : A -> list (list Z * Z))
    (fields : A -> list (Z * list Z)) (decode : RAM -> Z -> Parse A) : Prop := {
  codec_size : 0 <= size;
  codec_fields : forall x, codec_wf words blocks x -> contiguous 0 (fields x) /\
    Z.of_nat (length (fields_bytes (fields x))) = size /\ Forall is_u8 (fields_bytes (fields x));
  codec_decode : forall data a, ram_wf data -> 0 <= a -> a + size <= ram_size data ->
    exists x, decode data a = POk x /\ codec_wf words blocks x /\ ram_bytes data a size = fields_bytes (fields x);
  codec_inj : forall x y, codec_wf words blocks x -> codec_wf words blocks y ->
    fields_bytes (fields x) = fields_bytes (fields y) -> x = y;
}.

Section codec.
  Context {A : Type} {size : Z} {words : A -> list (Z * Z)} {blocks : A -> list (list Z * Z)}
          {fields : A -> list (Z * list Z)} {decode : RAM -> Z -> Parse A}.
  Context (C : Codec size words blocks fields decode).

  (** Decoding finds exactly the structure whose bytes are there. *)
Lemma codec_decode_iff data a x :
    ram_wf data -> 0 <= a -> a + size <= ram_size data ->
    decode data a = POk x <-> codec_wf words blocks x /\ ram_bytes data a size = fields_bytes (fields x).
Proof using C.
    intros Hwf Ha Hs. destruct (codec_decode _ _ _ _ _ C data a Hwf Ha Hs) as (y & Hd & Hy & Hb). split.
    - rewrite Hd. intros [= <-]. done.
    - intros [Hx Hxb]. rewrite Hd. f_equal. apply (codec_inj _ _ _ _ _ C); [done|done|congruence].
  Qed.

Lemma codec_encode data a x :
    codec_wf words blocks x ->
    ram_bytes (encode_fields data a size (fields x)) a size = fields_bytes (fields x) /\
    changes_within [(a, a + size)] data (encode_fields data a size (fields x)).
Proof using C.
    intros Hx. destruct (codec_fields _ _ _ _ _ C x Hx) as (H1 & H2 & H3). by apply encode_fields_spec.
  Qed.

  (** What is encoded is decoded. *)
Lemma codec_roundtrip data a x :
    ram_wf data -> 0 <= a -> a + size <= ram_size data -> codec_wf words blocks x ->
    decode (encode_fields data a size (fields x)) a = POk x.
Proof using C.
    intros Hwf Ha Hs Hx. destruct (codec_encode data a x Hx) as [Hb (Hz & Hw & _)].
    apply codec_decode_iff; [by apply Hw|done|by rewrite Hz|done].
  Qed.
End codec.

Lemma word_inj n v v' : 0 <= n -> word_ok (v, n) -> word_ok (v', n) -> int_to_bytes n v = int_to_bytes n v' -> v = v'.
Proof.
  unfold word_ok. cbn [fst snd]. intros Hn Hv Hv' E. apply (f_equal bytes_to_int) in E.
  rewrite <- (Z2Nat.id n) in E by done. rewrite !bytes_to_int_to_bytes, Z2Nat.id in E by done.
  rewrite Z.pow_mul_r in Hv, Hv' by lia. change (2 ^ 8) with 256 in *. by rewrite !Z.mod_small in E.
Qed.

(** The three obligations of a codec, from its tables. *)
Ltac codec_unfold_wf H := let Hw := fresh "Hw" in let Hb := fresh "Hb" in
  destruct H as [Hw Hb]; cbn in Hw, Hb; repeat (apply list.Forall_cons in Hw as [? Hw]); clear Hw;
  repeat (apply list.Forall_cons in Hb as [[? ?] Hb]); clear Hb; cbn [fst snd] in *.

Ltac codec_layout := refine (conj _ (conj _ _));
  [ cbn [contiguous fst snd]; unfold le8, le16, le32, le64; lengths_ok; split_and!; (done || lia)
  | unfold fields_bytes; cbn [fmap list_fmap snd concat]; rewrite ?length_app; unfold le8, le16, le32, le64; lengths_ok; cbn [length]; lia
  | unfold fields_bytes; cbn [fmap list_fmap snd concat]; repeat (apply list.Forall_app_2; [first [apply int_to_bytes_u8|done]|]); constructor ].

Ltac codec_loaded := split; cbn;
  repeat (apply list.Forall_cons; split; [first [apply load_word | apply load_bytes]; (done || lia)|]); constructor.

Ltac codec_fields_inj E := apply concat_inj in E;
  [ cbn in E
  | cbn; repeat (apply list.Forall2_cons; split; [unfold le8, le16, le32, le64; lengths_ok; (done || lia)|]); constructor ].

Lemma cons_split {A} (x y : A) l k : x :: l = y :: k -> x = y /\ l = k.
Proof. by intros [= -> ->]. Qed.

Ltac codec_same E := cbn in *; repeat (apply cons_split in E as [? E]); clear E; unfold le8, le16, le32, le64 in *;
  f_equal; try done; (eapply word_inj; [|eassumption..]; lia).

(** The obligations, the sizes of the fields given. *)
Ltac codec_proof def fields sizes := split;
  [ lia
  | let x := fresh "x" in let Hx := fresh "Hx" in intros x Hx; codec_unfold_wf Hx; destruct x; cbn in *; codec_layout
  | let data := fresh "data" in let a := fresh "a" in
    intros data a Hwf Ha Hs; unfold def; decode_loads; eexists; split; [reflexivity|]; split;
    [ codec_loaded
    | unfold fields_bytes, fields, le8, le16, le32, le64; cbn; rewrite !int_to_bytes_load by (done || lia);
      etrans; [|exact (eq_sym (concat_pieces data a 0 sizes ltac:(repeat constructor; lia)))]; by rewrite Z.add_0_r ]
  | let x := fresh "x" in let y := fresh "y" in let E := fresh "E" in
    intros x y Hx Hy E; codec_unfold_wf Hx; codec_unfold_wf Hy; codec_fields_inj E; destruct x, y; codec_same E ].

(** *** Kernel header *)

Definition kernel_header_words (h : CvmKernelHeader) : list (Z * Z) :=
  [(kh_format_major h, 2); (kh_format_minor h, 2); (kh_header_size h, 4); (kh_flags h, 8); (kh_isa_id h, 4);
   (kh_isa_version h, 4); (kh_address_bits h, 1); (kh_byte_order h, 1); (kh_segment_count h, 2);
   (kh_segment_entry_size h, 4); (kh_segment_table_offset h, 8); (kh_entry_physical_address h, 8);
   (kh_image_file_size h, 8); (kh_required_cpu_features h, 8); (kh_header_crc32 h, 4); (kh_payload_crc32 h, 4);
   (kh_entry_virtual_address h, 8); (kh_virtual_base h, 8); (kh_virtual_size h, 8)].
Definition kernel_header_blocks (h : CvmKernelHeader) : list (list Z * Z) :=
  [(kh_magic h, 8); (kh_build_id h, 16); (kh_reserved h, 8)].

Lemma kernel_header_codec :
  Codec CVM_KERNEL_HEADER_SIZE kernel_header_words kernel_header_blocks kernel_header_fields cvm_kernel_header_decode.
Proof.
  unfold CVM_KERNEL_HEADER_SIZE.
  codec_proof cvm_kernel_header_decode kernel_header_fields [8;2;2;4;8;4;4;1;1;2;4;8;8;8;8;16;4;4;8;8;8;8].
Qed.

(** *** The other structures *)

Definition kernel_segment_words (s : CvmKernelSegment) : list (Z * Z) :=
  [(ks_type s, 4); (ks_flags s, 4); (ks_file_offset s, 8); (ks_load_address s, 8); (ks_virtual_address s, 8);
   (ks_file_size s, 8); (ks_memory_size s, 8); (ks_alignment s, 8); (ks_reserved s, 8)].
Definition kernel_segment_blocks (s : CvmKernelSegment) : list (list Z * Z) := [].

Lemma kernel_segment_codec :
  Codec CVM_KERNEL_SEGMENT_SIZE kernel_segment_words kernel_segment_blocks kernel_segment_fields cvm_kernel_segment_decode.
Proof. unfold CVM_KERNEL_SEGMENT_SIZE. codec_proof cvm_kernel_segment_decode kernel_segment_fields [4;4;8;8;8;8;8;8;8]. Qed.

Definition boot_info_words (b : CvmBootInfo) : list (Z * Z) :=
  [(bi_version_major b, 2); (bi_version_minor b, 2); (bi_header_size b, 4); (bi_total_size b, 4); (bi_flags b, 4);
   (bi_boot_cpu_id b, 4); (bi_reserved0 b, 4); (bi_memory_map_offset b, 8); (bi_memory_map_count b, 4);
   (bi_memory_map_entry_size b, 4); (bi_ram_base b, 8); (bi_ram_size b, 8); (bi_kernel_entry b, 8);
   (bi_kernel_physical_base b, 8); (bi_kernel_physical_size b, 8); (bi_initrd_base b, 8); (bi_initrd_size b, 8);
   (bi_command_line_offset b, 8); (bi_command_line_size b, 4); (bi_reserved1 b, 4); (bi_vio_hub_base b, 8);
   (bi_system_info_base b, 8); (bi_system_control_base b, 8); (bi_irq_controller_base b, 8);
   (bi_core_control_base b, 8); (bi_timer_base b, 8); (bi_uart_base b, 8); (bi_boot_device_slot b, 4);
   (bi_boot_partition_index b, 4); (bi_boot_partition_lba b, 8); (bi_boot_partition_sectors b, 8);
   (bi_page_size b, 4); (bi_physical_address_bits b, 2); (bi_virtual_address_bits b, 2); (bi_checksum b, 4)].
Definition boot_info_blocks (b : CvmBootInfo) : list (list Z * Z) :=
  [(bi_magic b, 8); (bi_random_seed b, 32); (bi_reserved b, 12)].

Lemma boot_info_codec :
  Codec CVM_BOOTINFO_HEADER_SIZE boot_info_words boot_info_blocks boot_info_fields cvm_boot_info_decode.
Proof.
  unfold CVM_BOOTINFO_HEADER_SIZE. codec_proof cvm_boot_info_decode boot_info_fields
    [8;2;2;4;4;4;4;4;8;4;4;8;8;8;8;8;8;8;8;4;4;8;8;8;8;8;8;8;4;4;8;8;4;2;2;32;4;12].
Qed.

Definition virtual_handoff_words (v : CvmBootVirtualHandoff) : list (Z * Z) :=
  [(vh_kernel_virtual_base v, 8); (vh_kernel_virtual_size v, 8); (vh_initial_page_table_root v, 8);
   (vh_direct_map_base v, 8); (vh_direct_map_size v, 8); (vh_page_table_physical_base v, 8);
   (vh_page_table_physical_size v, 8)].
Definition virtual_handoff_blocks (v : CvmBootVirtualHandoff) : list (list Z * Z) := [(vh_magic v, 8)].

Lemma virtual_handoff_codec :
  Codec CVM_BOOT_VIRTUAL_HANDOFF_SIZE virtual_handoff_words virtual_handoff_blocks virtual_handoff_fields
    cvm_boot_virtual_handoff_decode.
Proof.
  unfold CVM_BOOT_VIRTUAL_HANDOFF_SIZE.
  codec_proof cvm_boot_virtual_handoff_decode virtual_handoff_fields [8;8;8;8;8;8;8;8].
Qed.

Definition memory_map_entry_words (e : CvmMemoryMapEntry) : list (Z * Z) :=
  [(mm_base e, 8); (mm_length e, 8); (mm_type e, 4); (mm_attributes e, 4); (mm_reserved e, 8)].
Definition memory_map_entry_blocks (e : CvmMemoryMapEntry) : list (list Z * Z) := [].

Lemma memory_map_entry_codec :
  Codec CVM_MEMORY_MAP_ENTRY_SIZE memory_map_entry_words memory_map_entry_blocks memory_map_entry_fields
    cvm_memory_map_entry_decode.
Proof.
  unfold CVM_MEMORY_MAP_ENTRY_SIZE. codec_proof cvm_memory_map_entry_decode memory_map_entry_fields [8;8;4;4;8].
Qed.

(** ** The checksum *)

Lemma crc32_bit_cases c : crc32_bit c = if Z.testbit c 0 then Z.lxor (Z.shiftr c 1) 0xEDB88320 else Z.shiftr c 1.
Proof.
  unfold crc32_bit. assert (Z.land c 1 = if Z.odd c then 1 else 0) as ->.
  { change 1 with (Z.ones 1) at 1. rewrite Z.land_ones by lia. apply Zmod_odd. }
  rewrite Z.bit0_odd. destruct (Z.odd c); [done|]. cbn. by rewrite Z.lxor_0_r.
Qed.

Lemma crc32_bit_top c : is_u32 c -> Z.testbit (crc32_bit c) 31 = Z.testbit c 0.
Proof.
  intros Hc. rewrite crc32_bit_cases.
  assert (Z.testbit (Z.shiftr c 1) 31 = false) as Hs.
  { rewrite Z.shiftr_spec by lia. apply (testbit_above 32); [lia|exact Hc|lia]. }
  destruct (Z.testbit c 0); [|done]. rewrite Z.lxor_spec, Hs. done.
Qed.

Lemma crc32_bit_u32 c : is_u32 c -> is_u32 (crc32_bit c).
Proof.
  intros Hc. rewrite crc32_bit_cases. unfold is_u32 in *.
  assert (0 <= Z.shiftr c 1 < 2 ^ 32) as Hs.
  { rewrite Z.shiftr_div_pow2 by lia. split; [apply Z.div_pos; lia|]. apply Z.div_lt_upper_bound; lia. }
  destruct (Z.testbit c 0); [|done]. apply (lxor_bound 32); lia.
Qed.

Lemma crc32_bit_inj c c' : is_u32 c -> is_u32 c' -> crc32_bit c = crc32_bit c' -> c = c'.
Proof.
  intros Hc Hc' E. assert (Z.testbit c 0 = Z.testbit c' 0) as E0.
  { by rewrite <- (crc32_bit_top c), <- (crc32_bit_top c'), E. }
  assert (Z.shiftr c 1 = Z.shiftr c' 1) as Es.
  { rewrite !crc32_bit_cases, <- E0 in E. destruct (Z.testbit c 0); [|done]. apply (f_equal (Z.lxor 0xEDB88320)) in E.
    rewrite !(Z.lxor_comm 0xEDB88320), !Z.lxor_assoc, Z.lxor_nilpotent, !Z.lxor_0_r in E. done. }
  apply Z.bits_inj'. intros i Hi. destruct (Z.eq_dec i 0) as [->|Hne]; [done|].
  apply (f_equal (fun z => Z.testbit z (i - 1))) in Es. rewrite !Z.shiftr_spec in Es by lia.
  by replace (i - 1 + 1) with i in Es by lia.
Qed.

Lemma crc32_iter_u32 n c : is_u32 c -> is_u32 (Nat.iter n crc32_bit c).
Proof. intros Hc. induction n as [|n IH]; [done|]. by apply crc32_bit_u32. Qed.

Lemma crc32_iter_inj n c c' : is_u32 c -> is_u32 c' -> Nat.iter n crc32_bit c = Nat.iter n crc32_bit c' -> c = c'.
Proof.
  intros Hc Hc'. induction n as [|n IH]; [done|]. cbn [Nat.iter]. intros E. apply IH.
  apply crc32_bit_inj; [by apply crc32_iter_u32..|done].
Qed.

Lemma byte_u32 b : is_u8 b -> is_u32 b.
Proof. unfold is_u8, is_u32. lia. Qed.

Lemma lxor_u32 c b : is_u32 c -> is_u32 b -> is_u32 (Z.lxor c b).
Proof. unfold is_u32. intros Hc Hb. apply (lxor_bound 32); lia. Qed.

Lemma lxor_inj_r a b c : Z.lxor a b = Z.lxor a c -> b = c.
Proof. intros E. apply (f_equal (Z.lxor a)) in E. by rewrite <- !Z.lxor_assoc, Z.lxor_nilpotent, !Z.lxor_0_l in E. Qed.

Lemma crc32_byte_u32 c b : is_u32 c -> is_u8 b -> is_u32 (crc32_byte c b).
Proof. intros Hc Hb. unfold crc32_byte. apply crc32_iter_u32, lxor_u32; [done|by apply byte_u32]. Qed.

(** The state after a byte determines the state before it, and the byte. *)
Lemma crc32_byte_inj c c' b b' :
  is_u32 c -> is_u32 c' -> is_u8 b -> is_u8 b' -> crc32_byte c b = crc32_byte c' b' -> Z.lxor c b = Z.lxor c' b'.
Proof.
  unfold crc32_byte. intros Hc Hc' Hb Hb' E.
  exact (crc32_iter_inj 8 _ _ (lxor_u32 _ _ Hc (byte_u32 _ Hb)) (lxor_u32 _ _ Hc' (byte_u32 _ Hb')) E).
Qed.

#[local] Opaque crc32_byte.

Definition zeroed_at (zo zs i : Z) : bool := (zo <=? i) && (i - zo <? zs).

Definition counted (zo zs i b : Z) : Z := if zeroed_at zo zs i then 0 else b.

Lemma crc32_loop_cons b l i zo zs c :
  crc32_loop c (b :: l) i zo zs = crc32_loop (crc32_byte c (counted zo zs i b)) l (i + 1) zo zs.
Proof. reflexivity. Qed.

Lemma counted_u8 zo zs i b : is_u8 b -> is_u8 (counted zo zs i b).
Proof. unfold counted. destruct (zeroed_at zo zs i); [unfold is_u8; lia|done]. Qed.

#[local] Opaque crc32_loop.

Lemma crc32_loop_u32 l i zo zs c : Forall is_u8 l -> is_u32 c -> is_u32 (crc32_loop c l i zo zs).
Proof.
  intros Hl. revert i c. induction Hl as [|b l Hb Hl IH]; intros i c Hc; [assumption|].
  rewrite crc32_loop_cons. apply IH, crc32_byte_u32; [assumption|]. by apply counted_u8.
Qed.

Lemma crc32_loop_inj l i zo zs c c' :
  Forall is_u8 l -> is_u32 c -> is_u32 c' -> crc32_loop c l i zo zs = crc32_loop c' l i zo zs -> c = c'.
Proof.
  intros Hl. revert i c c'. induction Hl as [|b l Hb Hl IH]; intros i c c' Hc Hc' E; [exact E|].
  rewrite !crc32_loop_cons in E. pose proof (counted_u8 zo zs i b Hb) as Hb0. apply IH in E; [|by apply crc32_byte_u32..].
  apply crc32_byte_inj in E; [|assumption..]. rewrite !(Z.lxor_comm _ (counted _ _ _ _)) in E. by apply lxor_inj_r in E.
Qed.

(** Bytes in the zeroed range do not count. *)
Lemma crc32_loop_same l l' i zo zs c :
  length l = length l' ->
  (forall k, (k < length l)%nat -> zeroed_at zo zs (i + Z.of_nat k) = false -> l !! k = l' !! k) ->
  crc32_loop c l i zo zs = crc32_loop c l' i zo zs.
Proof.
  revert l' i c. induction l as [|b l IH]; intros [|b' l'] i c Hl H; try discriminate Hl; [reflexivity|].
  cbn [length] in *. rewrite !crc32_loop_cons. rewrite (IH l' (i + 1)); [|lia|].
  - do 2 f_equal. unfold counted. destruct (zeroed_at zo zs i) eqn:E; [reflexivity|].
    specialize (H O ltac:(lia)). rewrite Z.add_0_r in H. specialize (H E). by injection H as ->.
  - intros k Hk Hz. specialize (H (S k) ltac:(lia)). cbn in H. apply H.
    by replace (i + Z.of_nat (S k)) with (i + 1 + Z.of_nat k) by lia.
Qed.

(** A change of one byte outside the zeroed range changes the checksum. *)
Lemma crc32_loop_detects l i zo zs c k b b' :
  Forall is_u8 l -> is_u32 c -> l !! k = Some b -> is_u8 b' -> b' <> b -> zeroed_at zo zs (i + Z.of_nat k) = false ->
  crc32_loop c (<[k := b']> l) i zo zs <> crc32_loop c l i zo zs.
Proof.
  intros Hl. revert i c k. induction Hl as [|x l Hx Hl IH]; intros i c k Hc Hk Hb' Hne Hz; [discriminate Hk|].
  destruct k as [|k].
  - injection Hk as ->. cbn [insert list_insert]. rewrite !crc32_loop_cons. rewrite Z.add_0_r in Hz. unfold counted. rewrite Hz.
    intros E. apply crc32_loop_inj in E; [|assumption|by apply crc32_byte_u32..].
    apply crc32_byte_inj in E; [|assumption..]. by apply lxor_inj_r in E.
  - cbn [insert list_insert]. rewrite !crc32_loop_cons. apply IH; [|assumption..|].
    + apply crc32_byte_u32; [assumption|]. by apply counted_u8.
    + by replace (i + 1 + Z.of_nat k) with (i + Z.of_nat (S k)) by lia.
Qed.

Lemma crc32_u32 l zo zs : Forall is_u8 l -> is_u32 (crc32_with_zero_range l zo zs).
Proof. intros Hl. apply lxor_u32; [apply crc32_loop_u32; [done|]|]; unfold is_u32; lia. Qed.

Lemma crc32_detects l zo zs k b b' :
  Forall is_u8 l -> l !! k = Some b -> is_u8 b' -> b' <> b -> zeroed_at zo zs (Z.of_nat k) = false ->
  crc32_with_zero_range (<[k := b']> l) zo zs <> crc32_with_zero_range l zo zs.
Proof.
  intros Hl Hk Hb' Hne Hz E. unfold crc32_with_zero_range in E. rewrite !(Z.lxor_comm _ 0xFFFFFFFF) in E.
  apply lxor_inj_r in E. by eapply (crc32_loop_detects l 0) in E; [|done|unfold is_u32; lia|done|done|done|].
Qed.

Lemma crc32_same l l' zo zs :
  length l = length l' -> (forall k, (k < length l)%nat -> zeroed_at zo zs (Z.of_nat k) = false -> l !! k = l' !! k) ->
  crc32_with_zero_range l zo zs = crc32_with_zero_range l' zo zs.
Proof. intros Hl H. unfold crc32_with_zero_range. f_equal. by apply crc32_loop_same. Qed.
