(* ===== verification/BootValid.v ===== *)
(** What [cvm_kernel_image_validate] accepts: a declarative description of EXF
    images, the proof that validation decides it without leaving its buffer,
    and that finalisation produces images it accepts. *)

From S2P Require Import Prelude Ram Image BootFormat BootProof.
From Stdlib Require Import ZArith Lia Bool.
From stdpp Require Import base list numbers gmap option.

#[local] Open Scope Z_scope.

(** ** Checks that stay inside the buffer *)

Definition checks {A} (m : Check A) (Q : A -> Prop) : Prop :=
  match m with Pass a => Q a | Reject _ => True | Overrun => False end.

Lemma checks_bind {A B} (m : Check A) (f : A -> Check B) (Q : A -> Prop) (R : B -> Prop) :
  checks m Q -> (forall a, Q a -> checks (f a) R) -> checks (m ≫= f) R.
Proof. destruct m; cbn; auto. Qed.

Lemma checks_ret {A} (a : A) (Q : A -> Prop) : Q a -> checks (mret a) Q.
Proof. done. Qed.

Lemma checks_reject {A} (c : bool) s (m : Check A) (R : A -> Prop) :
  (c = false -> checks m R) -> checks (reject_if c s;; m) R.
Proof. destruct c; cbn; auto. Qed.

Lemma checks_reject_last (c : bool) s : checks (reject_if c s) (fun _ => c = false).
Proof. by destruct c. Qed.

Lemma checks_peek {A B} (p : Parse A) a (f : A -> Check B) (R : B -> Prop) :
  p = POk a -> checks (f a) R -> checks (peek p ≫= f) R.
Proof. by intros ->. Qed.

Lemma add_u64_spec a b : is_u64 a -> is_u64 b ->
  add_u64 a b = if a + b <=? UINT64_MAX then Some (a + b) else None.
Proof.
  intros Ha Hb. unfold add_u64. destruct (Z.ltb_spec (UINT64_MAX - a) b), (Z.leb_spec (a + b) UINT64_MAX); done || lia.
Qed.

(** ** Images *)

Definition relocatable_ok (h : CvmKernelHeader) : Prop :=
  if is_relocatable h then
    0 < kh_virtual_size h /\ kh_virtual_base h + kh_virtual_size h <= UINT64_MAX /\
    kh_virtual_base h <= kh_entry_virtual_address h < kh_virtual_base h + kh_virtual_size h /\
    kh_entry_physical_address h = kh_entry_virtual_address h - kh_virtual_base h
  else kh_entry_virtual_address h = 0 /\ kh_virtual_base h = 0 /\ kh_virtual_size h = 0.

(** The rules for one segment. *)
Record segment_ok (h : CvmKernelHeader) (image_size table_end : Z) (s : CvmKernelSegment) : Prop := {
  so_type : ks_type s = CVM_SEGMENT_LOAD /\ ks_reserved s = 0;
  so_flags : ks_flags s < 8 /\ Z.testbit (ks_flags s) 0 = true;
  so_size : 0 < ks_memory_size s /\ ks_file_size s <= ks_memory_size s;
  so_alignment : exists k, 0 <= k < 64 /\ ks_alignment s = 2 ^ k;
  so_aligned : ks_load_address s mod ks_alignment s = 0 /\ ks_virtual_address s mod ks_alignment s = 0;
  so_ends : ks_load_address s + ks_memory_size s <= UINT64_MAX /\ ks_virtual_address s + ks_memory_size s <= UINT64_MAX;
  so_relocatable : is_relocatable h = true ->
    ks_virtual_address s = kh_virtual_base h + ks_load_address s /\
    ks_virtual_address s + ks_memory_size s <= kh_virtual_base h + kh_virtual_size h;
  so_file : ks_file_size s = 0 \/ table_end <= ks_file_offset s /\ ks_file_offset s + ks_file_size s <= image_size;
}.

Definition apart (a n b m : Z) : Prop := a + n <= b \/ b + m <= a.

(** Neither their load ranges nor their virtual ranges meet. *)
Definition segments_apart (s t : CvmKernelSegment) : Prop :=
  apart (ks_load_address s) (ks_memory_size s) (ks_load_address t) (ks_memory_size t) /\
  apart (ks_virtual_address s) (ks_memory_size s) (ks_virtual_address t) (ks_memory_size t).

(** The entry point lies in the executable segment [s]. *)
Definition holds_entry (h : CvmKernelHeader) (s : CvmKernelSegment) : Prop :=
  Z.testbit (ks_flags s) 2 = true /\
  if is_relocatable h then
    ks_virtual_address s <= kh_entry_virtual_address h < ks_virtual_address s + ks_memory_size s
  else ks_load_address s <= kh_entry_physical_address h < ks_load_address s + ks_memory_size s.

Definition header_wf : CvmKernelHeader -> Prop := codec_wf kernel_header_words kernel_header_blocks.
Definition kernel_segment_wf : CvmKernelSegment -> Prop := codec_wf kernel_segment_words kernel_segment_blocks.

(** The segment table at [offset]. *)
Definition table_holds (image : RAM) (offset : Z) (segments : list CvmKernelSegment) : Prop :=
  forall k s, segments !! k = Some s ->
    kernel_segment_wf s /\
    ram_bytes image (offset + Z.of_nat k * CVM_KERNEL_SEGMENT_SIZE) CVM_KERNEL_SEGMENT_SIZE = fields_bytes (kernel_segment_fields s).

(** A header that names this format and describes a file of [image_size] bytes. *)
Record header_ok (image_size : Z) (h : CvmKernelHeader) : Prop := {
  ho_magic : kh_magic h = RISC_MV_EXF_MAGIC;
  ho_version : kh_format_major h = CVM_KERNEL_FORMAT_MAJOR /\ kh_format_minor h = CVM_KERNEL_FORMAT_MINOR;
  ho_sizes : kh_header_size h = CVM_KERNEL_HEADER_SIZE /\ kh_segment_entry_size h = CVM_KERNEL_SEGMENT_SIZE /\
    kh_image_file_size h = image_size;
  ho_abi : kh_flags h < 2 /\ kh_isa_id h = RARCH_M64_ISA_ID /\ kh_isa_version h = CVM_ISA_VERSION /\
    kh_address_bits h = CVM_ADDRESS_BITS /\ kh_byte_order h = CVM_BYTE_ORDER_LITTLE;
  ho_reserved : kh_reserved h = replicate 8 0;
  ho_count : 0 < kh_segment_count h <= CVM_KERNEL_MAX_SEGMENTS;
  ho_table : CVM_KERNEL_HEADER_SIZE <= kh_segment_table_offset h /\ kh_segment_table_offset h mod 8 = 0 /\
    kh_segment_table_offset h + kh_segment_count h * CVM_KERNEL_SEGMENT_SIZE <= image_size;
  ho_relocatable : relocatable_ok h;
}.

(** The segments of an image and their relation to the header. *)
Record segments_ok (image_size : Z) (h : CvmKernelHeader) (segments : list CvmKernelSegment) : Prop := {
  ss_count : Z.of_nat (length segments) = kh_segment_count h;
  ss_each : Forall (segment_ok h image_size (kh_segment_table_offset h + kh_segment_count h * CVM_KERNEL_SEGMENT_SIZE)) segments;
  ss_apart : forall i j s t, segments !! i = Some s -> segments !! j = Some t -> i <> j -> segments_apart s t;
  ss_entry : Exists (holds_entry h) segments;
}.

Definition checksums_ok (image : RAM) (h : CvmKernelHeader) : Prop :=
  kh_header_crc32 h = crc32_with_zero_range (ram_bytes image 0 CVM_KERNEL_HEADER_SIZE) KERNEL_HEADER_CRC_OFFSET 4 /\
  kh_payload_crc32 h = cvm_crc32 (ram_bytes image CVM_KERNEL_HEADER_SIZE (ram_size image - CVM_KERNEL_HEADER_SIZE)).

(** An EXF image. *)
Record exf_image (image : RAM) (h : CvmKernelHeader) : Prop := {
  exf_size : CVM_KERNEL_HEADER_SIZE <= ram_size image;
  exf_header : header_wf h /\ ram_bytes image 0 CVM_KERNEL_HEADER_SIZE = fields_bytes (kernel_header_fields h);
  exf_rules : header_ok (ram_size image) h;
  exf_checksums : checksums_ok image h;
  exf_segments : exists segments, table_holds image (kh_segment_table_offset h) segments /\ segments_ok (ram_size image) h segments;
}.

(** ** Bits and bytes of the rules *)

Lemma mask8_zero x : is_u32 x ->
  Z.land x (wrap32 (Z.lnot (Z.lor (Z.lor CVM_SEGMENT_READ CVM_SEGMENT_WRITE) CVM_SEGMENT_EXECUTE))) = 0 <-> x < 8.
Proof.
  intros Hx. rewrite land_not32 by done. change (Z.lor _ _) with (Z.ones 3).
  rewrite ldiff_ones_0 by (unfold is_u32 in Hx; lia). done.
Qed.

Lemma mask2_zero x : is_u64 x -> Z.land x (not64 CVM_KERNEL_FLAG_RELOCATABLE_PHYSICAL) = 0 <-> x < 2.
Proof.
  intros Hx. rewrite land_not64 by done. change CVM_KERNEL_FLAG_RELOCATABLE_PHYSICAL with (Z.ones 1).
  rewrite ldiff_ones_0 by (unfold is_u64 in Hx; lia). done.
Qed.

Lemma land_flag x k : 0 <= k -> (Z.land x (2 ^ k) =? 0) = negb (Z.testbit x k).
Proof. intros Hk. pose proof (has_bits_pow2 x k Hk) as H. unfold has_bits in H. destruct (Z.testbit x k), (Z.land x (2 ^ k) =? 0); done. Qed.

Lemma all_zero_spec l : all_zero l = true <-> l = replicate (length l) 0.
Proof.
  unfold all_zero. induction l as [|b l IH]; cbn; [done|]. rewrite andb_true_iff, Z.eqb_eq, IH. split.
  - intros [-> H]. congruence.
  - intros [= -> H]. split; [done|]. by rewrite <- H.
Qed.

Lemma land7 x : 0 <= x -> Z.land x 7 = x mod 8.
Proof. intros Hx. change 7 with (Z.ones 3). by rewrite Z.land_ones by lia. Qed.

Lemma power_of_two_u64_spec a : is_u64 a -> is_power_of_two_u64 a = true <-> exists k, 0 <= k < 64 /\ a = 2 ^ k.
Proof.
  intros Ha. unfold is_power_of_two_u64. rewrite andb_true_iff, negb_true_iff, Z.eqb_neq, Z.eqb_eq. split.
  - intros [H0 Hl]. apply land_pred_pow2; [|done]. unfold is_u64 in Ha. lia.
  - intros (k & Hk & E). assert (0 < a < 2 ^ 64) as Hr.
    { unfold is_u64 in Ha. pose proof (Z.pow_pos_nonneg 2 k). lia. }
    split; [lia|]. apply land_pred_pow2; eauto.
Qed.

(** ** The loop over the segments *)

Lemma overlap_apart a n b m :
  is_u64 a -> is_u64 n -> is_u64 b -> is_u64 m ->
  ranges_overlap a n b m = false <-> a + n <= UINT64_MAX /\ b + m <= UINT64_MAX /\ apart a n b m.
Proof.
  intros Ha Hn Hb Hm. unfold ranges_overlap, apart. rewrite !add_u64_spec by done.
  destruct (Z.leb_spec (a + n) UINT64_MAX), (Z.leb_spec (b + m) UINT64_MAX); try (split; [done|lia]).
  rewrite andb_false_iff, !Z.ltb_ge. lia.
Qed.

(** The conditions of [check_segment], in its order. *)
Definition segment_okb (h : CvmKernelHeader) (image_size table_end : Z) (s : CvmKernelSegment) : bool :=
  negb (negb (ks_type s =? CVM_SEGMENT_LOAD) ||
    negb (Z.land (ks_flags s) (wrap32 (Z.lnot (Z.lor (Z.lor CVM_SEGMENT_READ CVM_SEGMENT_WRITE) CVM_SEGMENT_EXECUTE))) =? 0) ||
    (Z.land (ks_flags s) CVM_SEGMENT_READ =? 0) || negb (ks_reserved s =? 0)) &&
  negb ((ks_memory_size s =? 0) || (ks_memory_size s <? ks_file_size s) || negb (is_power_of_two_u64 (ks_alignment s)) ||
    negb (ks_load_address s mod ks_alignment s =? 0) || negb (ks_virtual_address s mod ks_alignment s =? 0)) &&
  match add_u64 (ks_load_address s) (ks_memory_size s), add_u64 (ks_virtual_address s) (ks_memory_size s) with
  | Some _, Some virtual_end =>
      negb (is_relocatable h && ((ks_virtual_address s <? kh_virtual_base h) ||
        negb (ks_virtual_address s - kh_virtual_base h =? ks_load_address s) ||
        (kh_virtual_size h <? virtual_end - kh_virtual_base h)))
  | _, _ => false
  end &&
  negb (negb (ks_file_size s =? 0) && ((ks_file_offset s <? table_end) ||
    match add_u64 (ks_file_offset s) (ks_file_size s) with Some file_end => image_size <? file_end | None => true end)).

Definition apartb (s t : CvmKernelSegment) : bool :=
  negb (ranges_overlap (ks_load_address s) (ks_memory_size s) (ks_load_address t) (ks_memory_size t)) &&
  negb (ranges_overlap (ks_virtual_address s) (ks_memory_size s) (ks_virtual_address t) (ks_memory_size t)).

Definition entryb (h : CvmKernelHeader) (s : CvmKernelSegment) : bool :=
  let reloc := is_relocatable h in
  negb (Z.land (ks_flags s) CVM_SEGMENT_EXECUTE =? 0) &&
  ((if reloc then ks_virtual_address s else ks_load_address s) <=?
   (if reloc then kh_entry_virtual_address h else kh_entry_physical_address h)) &&
  ((if reloc then kh_entry_virtual_address h else kh_entry_physical_address h) <?
   (if reloc then ks_virtual_address s + ks_memory_size s else ks_load_address s + ks_memory_size s)).

Lemma segment_bounds s : kernel_segment_wf s ->
  is_u32 (ks_type s) /\ is_u32 (ks_flags s) /\ is_u64 (ks_file_offset s) /\ is_u64 (ks_load_address s) /\
  is_u64 (ks_virtual_address s) /\ is_u64 (ks_file_size s) /\ is_u64 (ks_memory_size s) /\ is_u64 (ks_alignment s).
Proof.
  intros [H _]. cbn in H. repeat (apply list.Forall_cons in H as [? H]). unfold word_ok in *. cbn [fst snd] in *.
  unfold is_u32, is_u64. split_and!; lia.
Qed.

Section segments.
  Context (image : RAM) (h : CvmKernelHeader) (offset table_end : Z) (segments : list CvmKernelSegment).
  Context (Hwf : ram_wf image) (Hoff : 0 <= offset)
          (Hin : offset + Z.of_nat (length segments) * CVM_KERNEL_SEGMENT_SIZE <= ram_size image)
          (Htable : table_holds image offset segments).

Lemma decode_segment k s :
    segments !! k = Some s -> cvm_kernel_segment_decode image (offset + Z.of_nat k * CVM_KERNEL_SEGMENT_SIZE) = POk s.
Proof using Hwf Hoff Hin Htable.
    intros Hk. pose proof (lookup_lt_Some _ _ _ Hk). unfold CVM_KERNEL_SEGMENT_SIZE in *.
    apply (codec_decode_iff kernel_segment_codec); [done|lia|unfold CVM_KERNEL_SEGMENT_SIZE; lia|]. by apply Htable.
  Qed.

Lemma check_previous_eq l pre s :
    segments = pre ++ l ++ drop (length pre + length l) segments ->
    check_previous (length l) image offset (Z.of_nat (length pre)) s =
    if forallb (apartb s) l then Pass tt else Reject CVM_BOOT_FORMAT_BAD_SEGMENT.
Proof using Hwf Hoff Hin Htable.
    revert pre. induction l as [|t l IH]; intros pre Hs; [done|]. cbn [length check_previous forallb].
    rewrite (decode_segment _ t) by (rewrite Hs, lookup_app_r, Nat.sub_diag by lia; done).
    cbn [peek mbind Check_bind]. unfold apartb at 1, reject_if.
    destruct (ranges_overlap (ks_load_address s) _ _ _); [done|]. cbn [negb andb mbind Check_bind].
    destruct (ranges_overlap (ks_virtual_address s) _ _ _); [done|]. cbn [negb andb mbind Check_bind].
    replace (Z.of_nat (length pre) + 1) with (Z.of_nat (length (pre ++ [t]))) by (rewrite length_app; cbn; lia).
    apply IH. rewrite length_app, <- app_assoc. cbn [length app] in *.
    by replace (length pre + 1 + length l)%nat with (length pre + S (length l))%nat by lia.
  Qed.

Lemma check_segment_eq k s :
    segments !! k = Some s ->
    check_segment image h (is_relocatable h) offset table_end (Z.of_nat k) =
    if segment_okb h (ram_size image) table_end s && forallb (apartb s) (take k segments)
    then Pass (entryb h s) else Reject CVM_BOOT_FORMAT_BAD_SEGMENT.
Proof using Hwf Hoff Hin Htable.
    intros Hk. unfold check_segment. rewrite (decode_segment k s Hk). cbn [peek mbind Check_bind].
    pose proof (lookup_lt_Some _ _ _ Hk) as Hlt. rewrite Nat2Z.id.
    pose proof (check_previous_eq (take k segments) [] s) as Hp. cbn [length app] in Hp.
    rewrite length_take, Nat.min_l, Nat.add_0_l in Hp by lia. rewrite take_drop in Hp. specialize (Hp eq_refl).
    change (Z.of_nat 0) with 0 in Hp. rewrite Hp. clear Hp. unfold segment_okb, segment_end, reject_if, entryb.
    destruct (negb (ks_type s =? _) || _ || _ || _); [done|]. cbn [negb andb mbind Check_bind].
    destruct ((ks_memory_size s =? 0) || _ || _ || _ || _); [done|]. cbn [negb andb mbind Check_bind].
    destruct (add_u64 (ks_load_address s) (ks_memory_size s)) as [le|] eqn:El; [|done]. cbn [negb andb mbind Check_bind].
    destruct (add_u64 (ks_virtual_address s) (ks_memory_size s)) as [ve|] eqn:Ev; [|done]. cbn [negb andb mbind Check_bind].
    destruct (is_relocatable h && _); [done|]. cbn [negb andb mbind Check_bind].
    destruct (negb (ks_file_size s =? 0) && _); [done|]. cbn [negb andb mbind Check_bind].
    destruct (forallb _ _); [|done]. cbn [mbind Check_bind mret Check_ret].
    assert (le = ks_load_address s + ks_memory_size s) as -> by (unfold add_u64 in El; destruct (_ <? _); by simplify_eq).
    assert (ve = ks_virtual_address s + ks_memory_size s) as -> by (unfold add_u64 in Ev; destruct (_ <? _); by simplify_eq).
    done.
  Qed.

  (** All segments from [rest] on pass, given those in [pre]. *)
Fixpoint segments_okb (pre rest : list CvmKernelSegment) : bool :=
    match rest with
    | [] => true
    | s :: rest => segment_okb h (ram_size image) table_end s && forallb (apartb s) pre && segments_okb (pre ++ [s]) rest
    end.

Lemma check_segments_eq rest pre found :
    segments = pre ++ rest ->
    check_segments (length rest) image h (is_relocatable h) offset table_end (Z.of_nat (length pre)) found =
    if segments_okb pre rest then Pass (found || existsb (entryb h) rest) else Reject CVM_BOOT_FORMAT_BAD_SEGMENT.
Proof using Hwf Hoff Hin Htable.
    revert pre found. induction rest as [|s rest IH]; intros pre found Hs; cbn [length check_segments segments_okb existsb].
    { by rewrite orb_false_r. }
    rewrite (check_segment_eq _ s) by (rewrite Hs, lookup_app_r, Nat.sub_diag by lia; done).
    replace (take (length pre) segments) with pre by (rewrite Hs, take_app_length; done).
    destruct (segment_okb _ _ _ s && forallb _ pre); [|done]. cbn [mbind Check_bind].
    replace (Z.of_nat (length pre) + 1) with (Z.of_nat (length (pre ++ [s]))) by (rewrite length_app; cbn; lia).
    rewrite IH by (rewrite <- app_assoc; done). cbn [andb]. destruct (segments_okb _ _); [|done].
    destruct (entryb h s), found; done.
  Qed.
End segments.

(** ** The conditions mean the rules *)

Lemma segment_okb_spec h image_size table_end s :
  kernel_segment_wf s -> is_u64 (kh_virtual_base h) -> is_u64 image_size ->
  segment_okb h image_size table_end s = true <-> segment_ok h image_size table_end s.
Proof.
  intros (B1 & B2 & B3 & B4 & B5 & B6 & B7 & B8)%segment_bounds Hv Hsz. unfold segment_okb.
  rewrite !add_u64_spec by done. rewrite !andb_true_iff, !negb_true_iff, !orb_false_iff, !negb_false_iff.
  change CVM_SEGMENT_READ with (2 ^ 0) at 2. rewrite land_flag, negb_false_iff by lia. rewrite !Z.eqb_eq, mask8_zero by done.
  rewrite power_of_two_u64_spec, Z.eqb_neq, Z.ltb_ge by done. split.
  - intros ((((((H1 & H2) & H3) & H4) & ((((H5 & H6) & H7) & H8) & H9)) & H10) & H11).
    destruct (Z.leb_spec (ks_load_address s + ks_memory_size s) UINT64_MAX); [|done].
    destruct (Z.leb_spec (ks_virtual_address s + ks_memory_size s) UINT64_MAX); [|done].
    split; try done; [unfold is_u64 in *; lia| |].
    + intros Hr. rewrite Hr, negb_true_iff in H10. cbn [andb] in H10.
      rewrite !orb_false_iff, negb_false_iff, Z.eqb_eq, !Z.ltb_ge in H10. lia.
    + destruct (Z.eqb_spec (ks_file_size s) 0) as [|Hf]; [by left|right]. cbn [negb andb] in H11.
      apply orb_false_iff in H11 as [H11%Z.ltb_ge H12].
      destruct (Z.leb_spec (ks_file_offset s + ks_file_size s) UINT64_MAX); [|done]. apply Z.ltb_ge in H12. lia.
  - intros [[T1 T2] [F1 F2] [S1 S2] A [A1 A2] [E1 E2] R F].
    rewrite (proj2 (Z.leb_le (ks_load_address s + _) _)), (proj2 (Z.leb_le (ks_virtual_address s + _) _)) by done.
    split_and!; try done; [lia| |].
    + rewrite negb_true_iff. destruct (is_relocatable h); [|done]. cbn [andb]. destruct (R eq_refl) as [R1 R2].
      rewrite !orb_false_iff, negb_false_iff, Z.eqb_eq, !Z.ltb_ge. unfold is_u64 in *. lia.
    + destruct (Z.eqb_spec (ks_file_size s) 0) as [|Hf]; [done|]. cbn [negb andb]. destruct F as [F|[F3 F4]]; [done|].
      rewrite (proj2 (Z.ltb_ge _ _)) by done. cbn [orb].
      rewrite (proj2 (Z.leb_le _ UINT64_MAX)) by (unfold is_u64, UINT64_MAX in *; lia). by apply Z.ltb_ge.
Qed.

Lemma apartb_spec s t :
  kernel_segment_wf s -> kernel_segment_wf t ->
  ks_load_address s + ks_memory_size s <= UINT64_MAX /\ ks_virtual_address s + ks_memory_size s <= UINT64_MAX ->
  ks_load_address t + ks_memory_size t <= UINT64_MAX /\ ks_virtual_address t + ks_memory_size t <= UINT64_MAX ->
  apartb s t = true <-> segments_apart s t.
Proof.
  intros (_ & _ & _ & B1 & B2 & _ & B3 & _)%segment_bounds (_ & _ & _ & B4 & B5 & _ & B6 & _)%segment_bounds [E1 E2] [E3 E4].
  unfold apartb, segments_apart. rewrite andb_true_iff, !negb_true_iff, !overlap_apart by done. tauto.
Qed.

Lemma segments_okb_spec image h table_end pre rest :
  Forall kernel_segment_wf (pre ++ rest) -> is_u64 (kh_virtual_base h) -> is_u64 (ram_size image) ->
  Forall (segment_ok h (ram_size image) table_end) pre ->
  segments_okb image h table_end pre rest = true <->
  Forall (segment_ok h (ram_size image) table_end) rest /\
  (forall i j s t, rest !! i = Some s -> (pre ++ rest) !! j = Some t -> (j < length pre + i)%nat -> segments_apart s t).
Proof.
  intros Hw Hv Hz. revert pre Hw. induction rest as [|s rest IH]; intros pre Hw Hpre; cbn [segments_okb].
  { split; [|done]. intros _. split; [constructor|]. done. }
  pose proof Hw as Hw'. apply list.Forall_app in Hw' as [Hwp Hws]. apply list.Forall_cons in Hws as [Hws Hwr].
  rewrite !andb_true_iff, segment_okb_spec by done. split.
  - intros ((Hs & Ha) & Hr). apply IH in Hr as [Hf Hp].
    2:{ rewrite <- app_assoc. done. }
    2:{ apply list.Forall_app. split; [done|]. by constructor. }
    split; [by constructor|]. intros [|i] j s' t Hi Hj Hlt.
    + injection Hi as <-. rewrite lookup_app_l in Hj by lia. apply apartb_spec; [done| |apply Hs| |].
      * rewrite list.Forall_forall in Hwp. apply Hwp. by eapply list_elem_of_lookup_2.
      * rewrite list.Forall_forall in Hpre. apply (so_ends _ _ _ _ (Hpre t (list_elem_of_lookup_2 _ _ _ Hj))).
      * apply (proj1 (forallb_forall _ _) Ha). by eapply list_elem_of_In, list_elem_of_lookup_2.
    + rewrite <- app_assoc, length_app in Hp. apply (Hp i j s' t Hi Hj). cbn. lia.
  - intros [Hf Hp]. apply list.Forall_cons in Hf as [Hs Hf]. split_and!; [done| |].
    + apply forallb_forall. intros t Ht%list_elem_of_In. apply apartb_spec; [done| |apply Hs| |].
      * rewrite list.Forall_forall in Hwp. by apply Hwp.
      * rewrite list.Forall_forall in Hpre. apply (so_ends _ _ _ _ (Hpre t Ht)).
      * apply list_elem_of_lookup in Ht as [j Hj]. apply (Hp O j s t); [done| |apply lookup_lt_Some in Hj; lia].
        by rewrite lookup_app_l by (by eapply lookup_lt_Some).
    + apply IH.
      * rewrite <- app_assoc. done.
      * apply list.Forall_app. split; [done|]. by constructor.
      * split; [done|]. intros i j s' t Hi Hj Hlt. rewrite <- app_assoc in Hj. rewrite length_app in Hlt. cbn in Hlt.
        apply (Hp (S i) j s' t Hi Hj). lia.
Qed.

Lemma entryb_spec h s : entryb h s = true <-> holds_entry h s.
Proof.
  unfold entryb, holds_entry. change CVM_SEGMENT_EXECUTE with (2 ^ 2). rewrite land_flag by lia.
  rewrite !andb_true_iff, negb_involutive, Z.leb_le, Z.ltb_lt. destruct (is_relocatable h); tauto.
Qed.

(** A table inside the image holds a list of segments. *)
Lemma table_exists image offset n :
  ram_wf image -> 0 <= offset -> offset + Z.of_nat n * CVM_KERNEL_SEGMENT_SIZE <= ram_size image ->
  exists segments, length segments = n /\ table_holds image offset segments.
Proof.
  intros Hwf Ho. induction n as [|n IH]; intros Hin.
  { exists []. split; [done|]. intros k s Hk. done. }
  unfold CVM_KERNEL_SEGMENT_SIZE in *. destruct IH as (segments & Hl & Ht); [lia|].
  destruct (codec_decode _ _ _ _ _ kernel_segment_codec image (offset + Z.of_nat n * 64)) as (s & _ & Hs & Hb);
    [done|lia|unfold CVM_KERNEL_SEGMENT_SIZE; lia|].
  exists (segments ++ [s]). split; [rewrite length_app; cbn; lia|]. intros k t Hk.
  apply lookup_app_Some in Hk as [Hk|[Hk1 Hk2]]; [by apply Ht|].
  apply list_lookup_singleton_Some in Hk2 as [E <-]. replace k with n by lia. done.
Qed.

Lemma header_bounds h : header_wf h ->
  (0 <= kh_format_minor h /\ 0 <= kh_segment_count h < 2 ^ 16) /\ is_u64 (kh_flags h) /\
  is_u64 (kh_segment_table_offset h) /\ is_u64 (kh_entry_physical_address h) /\ is_u64 (kh_entry_virtual_address h) /\
  is_u64 (kh_virtual_base h) /\ is_u64 (kh_virtual_size h) /\ length (kh_reserved h) = 8%nat /\
  is_u32 (kh_header_crc32 h).
Proof.
  intros [H B]. cbn in H, B. repeat (apply list.Forall_cons in H as [? H]). repeat (apply list.Forall_cons in B as [[? ?] B]).
  unfold word_ok in *. cbn [fst snd] in *. unfold is_u32, is_u64. split_and!; lia.
Qed.

Lemma geometry_pass h : header_wf h -> check_geometry h = Pass tt <-> relocatable_ok h.
Proof.
  intros (_ & _ & _ & B1 & B2 & B3 & B4 & _)%header_bounds. unfold check_geometry, relocatable_ok, reject_if.
  destruct (is_relocatable h).
  - rewrite add_u64_spec by done. destruct (Z.eqb_spec (kh_virtual_size h) 0) as [E|E].
    { cbn [orb]. split; [done|lia]. }
    cbn [orb]. destruct (Z.leb_spec (kh_virtual_base h + kh_virtual_size h) UINT64_MAX); [|split; [done|lia]].
    destruct (_ || _ || _) eqn:Ec; (split; [|]); try done.
    + intros (H1 & H2 & H3 & H4). exfalso. rewrite !orb_true_iff, negb_true_iff, Z.ltb_lt, Z.leb_le, Z.eqb_neq in Ec. lia.
    + intros _. rewrite !orb_false_iff, negb_false_iff, Z.ltb_ge, Z.leb_gt, Z.eqb_eq in Ec. unfold is_u64 in *. lia.
  - destruct (_ || _ || _) eqn:Ec; (split; [|]); try done.
    + intros (H1 & H2 & H3). by rewrite H1, H2, H3 in Ec.
    + intros _. rewrite !orb_false_iff, !negb_false_iff, !Z.eqb_eq in Ec. tauto.
Qed.

Lemma geometry_checks h : checks (check_geometry h) (fun _ => check_geometry h = Pass tt).
Proof.
  unfold check_geometry, reject_if. destruct (is_relocatable h); destruct (_ || _); done.
Qed.

(** Validation stays inside the image and accepts EXF images only. *)
Lemma validate_sound image : ram_wf image -> checks (cvm_kernel_image_validate image) (exf_image image).
Proof.
  intros Hwf. pose proof (proj1 Hwf) as Hsz. unfold cvm_kernel_image_validate. apply checks_reject. intros C0%Z.ltb_ge.
  destruct (codec_decode _ _ _ _ _ kernel_header_codec image 0) as (h & Hd & Hh & Hb); [done|lia|lia|].
  eapply checks_peek; [exact Hd|]. cbv beta.
  destruct (header_bounds h Hh) as ((B1 & B2) & B3 & B4 & B5 & B6 & B7 & B8 & B9 & _).
  apply checks_reject. intros C1%negb_false_iff%bool_decide_eq_true. 
  apply checks_reject. intros (C2%negb_false_iff%Z.eqb_eq & C3%Z.ltb_ge)%orb_false_iff.
  apply checks_reject. intros (((C4%negb_false_iff%Z.eqb_eq & C5%negb_false_iff%Z.eqb_eq)%orb_false_iff & C6%Z.eqb_neq)%orb_false_iff
    & C7%Z.ltb_ge)%orb_false_iff.
  apply checks_reject. intros ((((C8%negb_false_iff%Z.eqb_eq & C9%negb_false_iff%Z.eqb_eq)%orb_false_iff
    & C10%negb_false_iff%Z.eqb_eq)%orb_false_iff & C11%negb_false_iff%Z.eqb_eq)%orb_false_iff & C12%negb_false_iff%Z.eqb_eq)%orb_false_iff.
  apply mask2_zero in C8; [|done].
  apply checks_reject. intros C13%negb_false_iff%all_zero_spec. rewrite B9 in C13.
  apply checks_reject. intros C14%negb_false_iff%Z.eqb_eq.
  apply checks_reject. intros ((C15%Z.ltb_ge & C16%negb_false_iff%Z.eqb_eq)%orb_false_iff & _)%orb_false_iff.
  rewrite land7 in C16 by (unfold is_u64 in B4; lia).
  assert (2 ^ 32 < SIZE_MAX) as HM by done.
  rewrite multiply_size_ok by (unfold CVM_KERNEL_SEGMENT_SIZE; lia). cbn [mbind Check_bind].
  apply checks_reject. intros (C17%Z.ltb_ge & C18%Z.ltb_ge)%orb_false_iff.
  eapply checks_peek; [apply (piece_fetch _ _ _ _ eq_refl); unfold CVM_KERNEL_HEADER_SIZE in *; lia|]. cbv beta.
  apply checks_reject. intros C19%negb_false_iff%Z.eqb_eq.
  eapply checks_peek; [apply (piece_fetch _ _ _ _ eq_refl); unfold CVM_KERNEL_HEADER_SIZE in *; lia|]. cbv beta.
  apply checks_reject. intros C20%negb_false_iff%Z.eqb_eq.
  eapply checks_bind; [apply geometry_checks|]. intros [] C21. cbv beta in C21. apply geometry_pass in C21; [|done].
  assert (0 <= kh_segment_table_offset h) as H0 by (unfold is_u64 in B4; lia).
  destruct (table_exists image (kh_segment_table_offset h) (Z.to_nat (kh_segment_count h))) as (segs & Hl & Ht);
    [done|lia|rewrite Z2Nat.id by lia; lia|].
  set (tend := kh_segment_table_offset h + _).
  pose proof (check_segments_eq image h (kh_segment_table_offset h) tend segs Hwf ltac:(lia)
    ltac:(rewrite Hl, Z2Nat.id by lia; lia) Ht segs [] false eq_refl) as Heq.
  rewrite Hl in Heq. change (Z.of_nat (length [])) with 0 in Heq. rewrite Heq. clear Heq. cbn [orb].
  destruct (segments_okb image h tend [] segs) eqn:Eok; [|done]. cbn [mbind Check_bind].
  apply checks_reject. intros C22%negb_false_iff.
  assert (Forall kernel_segment_wf segs) as Hsw.
  { apply Forall_lookup. intros k s Hk. by apply (Ht k s). }
  apply segments_okb_spec in Eok as [Hall Hap]; [|done|done|done|constructor].
  apply checks_ret. split; [exact C0|exact (conj Hh Hb)| |exact (conj C19 C20)|].
  - assert (kh_format_minor h = CVM_KERNEL_FORMAT_MINOR) by (unfold CVM_KERNEL_FORMAT_MINOR in *; lia).
    split; first [assumption | by split_and! | lia].
  - exists segs. split; [done|]. split; [rewrite Hl, Z2Nat.id by lia; done|done| |].
    + intros i j s t Hi Hj Hne. destruct (Nat.lt_ge_cases j i).
      * apply (Hap i j s t Hi Hj). cbn. lia.
      * assert (segments_apart t s) as Ha by (apply (Hap j i t s Hj Hi); cbn; lia). unfold segments_apart, apart in *. tauto.
    + apply existsb_exists in C22 as (s & Hs & He). apply Exists_exists. exists s.
      split; [done|by apply entryb_spec].
Qed.

Lemma validate_complete image h : ram_wf image -> exf_image image h -> cvm_kernel_image_validate image = Pass h.
Proof.
  intros Hwf [C0 [Hh Hb] [R1 [R2 R2'] (R3 & R4 & R5) (R6 & R7 & R8 & R9 & R10) R11 R12 (R13 & R14 & R15) R16] [K1 K2]
    (segs & Ht & [S1 S2 S3 S4])].
  pose proof (proj1 Hwf) as Hsz. destruct (header_bounds h Hh) as ((B1 & B2) & B3 & B4 & B5 & B6 & B7 & B8 & B9 & _).
  unfold cvm_kernel_image_validate. rewrite (proj2 (Z.ltb_ge _ _)) by done. cbn [reject_if mbind Check_bind].
  rewrite (proj2 (codec_decode_iff kernel_header_codec image 0 h Hwf ltac:(lia) ltac:(lia)) (conj Hh Hb)).
  cbn [peek mbind Check_bind]. rewrite R1, bool_decide_eq_true_2 by done. cbn [negb reject_if mbind Check_bind].
  rewrite R2, R2', R3, R4, R5, R7, R8, R9, R10, R11, !Z.eqb_refl.
  rewrite (proj2 (Z.ltb_ge CVM_KERNEL_FORMAT_MINOR _)), (proj2 (Z.eqb_neq (kh_segment_count h) 0)),
    (proj2 (Z.ltb_ge CVM_KERNEL_MAX_SEGMENTS _)), (proj2 (mask2_zero _ B3)) by lia.
  cbn [negb orb reject_if mbind Check_bind Z.eqb].
  change (all_zero (replicate 8 0)) with true. cbn [negb reject_if mbind Check_bind].
  rewrite (proj2 (Z.ltb_ge (kh_segment_table_offset h) _)) by done. rewrite land7, R14 by (unfold is_u64 in B4; lia).
  rewrite (proj2 (Z.ltb_ge SIZE_MAX _)) by (unfold SIZE_MAX, UINT64_MAX, is_u64 in *; lia).
  cbn [negb orb reject_if mbind Check_bind Z.eqb].
  assert (2 ^ 32 < SIZE_MAX) as HM by done. unfold CVM_KERNEL_MAX_SEGMENTS in R12.
  rewrite multiply_size_ok by (unfold CVM_KERNEL_SEGMENT_SIZE; lia). cbn [mbind Check_bind].
  unfold CVM_KERNEL_SEGMENT_SIZE in R15.
  rewrite (proj2 (Z.ltb_ge (ram_size image) _)), (proj2 (Z.ltb_ge (ram_size image - _) _))
    by (unfold CVM_KERNEL_SEGMENT_SIZE; lia).
  cbn [orb reject_if mbind Check_bind].
  rewrite (piece_fetch _ image 0 _ eq_refl) by lia. cbn [peek mbind Check_bind]. rewrite K1, Z.eqb_refl.
  cbn [negb reject_if mbind Check_bind].
  rewrite (piece_fetch _ image _ _ eq_refl) by (unfold CVM_KERNEL_HEADER_SIZE in *; lia). cbn [peek mbind Check_bind]. rewrite K2, Z.eqb_refl.
  cbn [negb reject_if mbind Check_bind].
  rewrite (proj2 (geometry_pass h Hh) R16). cbn [mbind Check_bind].
  set (tend := kh_segment_table_offset h + _) in *.
  pose proof (check_segments_eq image h (kh_segment_table_offset h) tend segs Hwf ltac:(unfold is_u64 in B4; lia)
    ltac:(unfold CVM_KERNEL_SEGMENT_SIZE; lia) Ht segs [] false eq_refl) as Heq.
  change (Z.of_nat (length [])) with 0 in Heq. rewrite <- S1, Nat2Z.id, Heq. clear Heq. cbn [orb].
  rewrite (proj2 (segments_okb_spec image h tend [] segs ltac:(apply Forall_lookup; intros k s Hk; by apply (Ht k s)) B7 Hsz ltac:(constructor))).
  2:{ split; [done|]. intros i j s t Hi Hj Hlt. cbn in Hj, Hlt. apply (S3 i j); [done|done|lia]. }
  cbn [mbind Check_bind]. replace (existsb (entryb h) segs) with true; [done|]. symmetry.
  apply existsb_exists. apply Exists_exists in S4 as (s & Hs & He). exists s. split; [done|by apply entryb_spec].
Qed.

(** ** Checksums of an image *)

Lemma ram_bytes_set_in image i b a n :
  a <= i < a + n -> ram_bytes (ram_set_byte image i b) a n = <[Z.to_nat (i - a) := b]> (ram_bytes image a n).
Proof.
  intros Hi. apply list_eq. intros k. destruct (decide (k < Z.to_nat n)%nat) as [Hk|Hk].
  2:{ rewrite !lookup_ge_None_2; [done| |]; rewrite ?length_insert, length_ram_bytes; lia. }
  unfold ram_bytes at 1. rewrite list_lookup_fmap, lookup_seqZ_lt by lia. cbn [fmap option_fmap option_map].
  rewrite ram_byte_set. destruct (decide (k = Z.to_nat (i - a))) as [->|Hne].
  - rewrite list_lookup_insert_eq by (rewrite length_ram_bytes; lia). by rewrite (proj2 (Z.eqb_eq _ _)) by lia.
  - rewrite list_lookup_insert_ne by done. rewrite (proj2 (Z.eqb_neq _ _)) by lia. unfold ram_bytes.
    by rewrite list_lookup_fmap, lookup_seqZ_lt by lia.
Qed.

Lemma ram_bytes_set_out image i b a n : i < a \/ a + n <= i -> ram_bytes (ram_set_byte image i b) a n = ram_bytes image a n.
Proof.
  intros Hi. change (ram_set_byte image i b) with (store_bytes image i [b]). apply ram_bytes_store_disjoint. cbn [length]. lia.
Qed.

(** The header checksum lies behind 88 bytes that do not depend on it. *)
Lemma header_crc_split h :
  header_wf h -> exists p q, length p = 88%nat /\
    (forall c, fields_bytes (kernel_header_fields (set_header_crc32 c h)) = p ++ le32 c ++ q).
Proof.
  intros [Hw Hb]. cbn in Hb. repeat (apply list.Forall_cons in Hb as [[? ?] Hb]). cbn [fst snd] in *.
  exists (concat (snd <$> take 16 (kernel_header_fields h))), (concat (snd <$> drop 17 (kernel_header_fields h))). split.
  - destruct h. cbn -[le8 le16 le32 le64]. rewrite !length_app. unfold le8, le16, le32, le64. cbn in *.
    rewrite ?length_int_to_bytes. cbn [length]. lia.
  - intros c. destruct h. cbn -[le8 le16 le32 le64]. rewrite <- !app_assoc. done.
Qed.

Lemma set_header_crc32_id h : set_header_crc32 (kh_header_crc32 h) h = h.
Proof. by destruct h. Qed.

(** The checksum field as the bytes at 0x58. *)
Lemma header_crc_field h :
  header_wf h -> take 4 (drop 88 (fields_bytes (kernel_header_fields h))) = le32 (kh_header_crc32 h).
Proof.
  intros Hh. destruct (header_crc_split h Hh) as (p & q & Hp & E). specialize (E (kh_header_crc32 h)).
  rewrite set_header_crc32_id in E. rewrite E, <- Hp, drop_app_length.
  assert (length (le32 (kh_header_crc32 h)) = 4%nat) as H4 by (unfold le32; by rewrite length_int_to_bytes).
  rewrite <- H4 at 1. apply take_app_length.
Qed.

Lemma zeroed_at_crc k : zeroed_at KERNEL_HEADER_CRC_OFFSET 4 k = bool_decide (88 <= k < 92).
Proof.
  unfold zeroed_at, KERNEL_HEADER_CRC_OFFSET. case_bool_decide.
  - rewrite (proj2 (Z.leb_le _ _)), (proj2 (Z.ltb_lt _ _)) by lia. done.
  - apply andb_false_iff. rewrite Z.leb_gt, Z.ltb_ge. lia.
Qed.

(** Bytes outside the field. *)
Lemma header_crc_others h c k :
  header_wf h -> ~ (88 <= k < 92)%nat ->
  fields_bytes (kernel_header_fields (set_header_crc32 c h)) !! k = fields_bytes (kernel_header_fields h) !! k.
Proof.
  intros Hh Hk. destruct (header_crc_split h Hh) as (p & q & Hp & E). pose proof (E (kh_header_crc32 h)) as E0.
  rewrite set_header_crc32_id in E0. rewrite E, E0. destruct (Nat.lt_ge_cases k 88).
  - by rewrite !lookup_app_l by lia.
  - rewrite !(lookup_app_r p) by lia. unfold le32. by rewrite !lookup_app_r by (rewrite length_int_to_bytes; lia).
Qed.

Lemma header_crc_wf h c : header_wf h -> is_u32 c -> header_wf (set_header_crc32 c h) /\ header_wf (set_payload_crc32 c h).
Proof.
  intros [Hw Hb] Hc. destruct h. cbn in *. repeat (apply list.Forall_cons in Hw as [? Hw]).
  repeat (apply list.Forall_cons in Hb as [? Hb]). assert (word_ok (c, 4)) by exact Hc.
  split; (split; [repeat (apply list.Forall_cons; split; [done|]); constructor|]);
    repeat (apply list.Forall_cons; split; [done|]); constructor.
Qed.

Lemma header_ok_crc size h c d : header_ok size h -> header_ok size (set_header_crc32 c (set_payload_crc32 d h)).
Proof. intros [? ? ? ? ? ? ? ?]. by split. Qed.

Lemma segments_ok_crc size h c d segs : segments_ok size h segs -> segments_ok size (set_header_crc32 c (set_payload_crc32 d h)) segs.
Proof.
  intros [? H ? ?]. split; try done. eapply list.Forall_impl; [exact H|]. intros s [? ? ? ? ? ? ? ?]. by split.
Qed.

(** C17: validation of an EXF image is safe and exact.  Whatever bytes it is
    given, [cvm_kernel_image_validate] never reads outside them, and it accepts
    precisely the images whose header names the format and this machine, whose
    checksums match, whose segment table lies in the file, and whose segments
    are readable, aligned, inside the file, pairwise disjoint both in physical
    and in virtual memory, with the entry point in an executable one. *)
Theorem exf_validate_exact image :
  ram_wf image ->
  cvm_kernel_image_validate image <> Overrun /\
  (forall h, cvm_kernel_image_validate image = Pass h <-> exf_image image h).
Proof.
  intros Hwf. pose proof (validate_sound image Hwf) as Hs. split.
  - intros E. by rewrite E in Hs.
  - intros h. split; [|by apply validate_complete]. intros E. by rewrite E in Hs.
Qed.

(** Finalisation makes an image acceptable.  For an image whose header and
    segments satisfy the rules, whatever its checksum fields hold,
    [cvm_kernel_image_finalize] succeeds, changes nothing but the two checksums
    of the header, and validation accepts the result. *)
Lemma exf_finalize_validates image h segments :
  ram_wf image -> CVM_KERNEL_HEADER_SIZE <= ram_size image ->
  cvm_kernel_header_decode image 0 = POk h -> header_ok (ram_size image) h ->
  table_holds image (kh_segment_table_offset h) segments -> segments_ok (ram_size image) h segments ->
  exists image' c d, cvm_kernel_image_finalize image = Pass image' /\
    cvm_kernel_image_validate image' = Pass (set_header_crc32 c (set_payload_crc32 d h)) /\
    ram_size image' = ram_size image /\
    ram_bytes image' CVM_KERNEL_HEADER_SIZE (ram_size image - CVM_KERNEL_HEADER_SIZE) =
      ram_bytes image CVM_KERNEL_HEADER_SIZE (ram_size image - CVM_KERNEL_HEADER_SIZE) /\
    ram_wf image'.
Proof.
  intros Hwf Hsz Hd Hok Ht Hs. pose proof Hd as [Hh Hb]%(codec_decode_iff kernel_header_codec); [|done|lia|lia].
  change (header_wf h) in Hh. assert (CVM_KERNEL_HEADER_SIZE = 128) as E128 by done. rewrite E128 in *.
  set (payload := ram_bytes image 128 (ram_size image - 128)).
  assert (is_u32 (cvm_crc32 payload)) as Hp32 by (apply crc32_u32, ram_bytes_u8; done).
  set (h1 := set_payload_crc32 (cvm_crc32 payload) (set_header_crc32 0 h)).
  assert (header_wf h1) as Hh1.
  { apply header_crc_wf; [|done]. apply header_crc_wf; [done|unfold is_u32; lia]. }
  destruct (codec_encode kernel_header_codec image 0 h1 Hh1) as [Eb1 C1].
  set (image1 := cvm_kernel_header_encode image 0 h1). change (encode_fields _ _ _ _) with image1 in Eb1, C1. rewrite E128 in *.
  set (c := crc32_with_zero_range (ram_bytes image1 0 128) KERNEL_HEADER_CRC_OFFSET 4).
  assert (ram_wf image1) as Hwf1 by (by apply C1). assert (ram_size image1 = ram_size image) as Es1 by apply C1.
  assert (is_u32 c) as Hc32 by (apply crc32_u32, ram_bytes_u8; done).
  set (h2 := set_header_crc32 c h1). pose proof (proj1 (header_crc_wf h1 c Hh1 Hc32) : header_wf h2) as Hh2.
  destruct (codec_encode kernel_header_codec image1 0 h2 Hh2) as [Eb2 C2].
  set (image2 := cvm_kernel_header_encode image1 0 h2). change (encode_fields _ _ _ _) with image2 in Eb2, C2. rewrite E128 in *.
  assert (ram_wf image2) as Hwf2 by (by apply C2). assert (ram_size image2 = ram_size image) as Es2.
  { rewrite <- Es1. apply C2. }
  assert (forall a n, 128 <= a -> ram_bytes image2 a n = ram_bytes image a n) as Hsame.
  { intros a n Ha. unfold ram_bytes. apply list_fmap_ext. intros k x Hx%lookup_seqZ.
    destruct C2 as (_ & _ & ->); [|intros r ->%list_elem_of_singleton; cbn; lia].
    apply C1. intros r ->%list_elem_of_singleton. cbn. lia. }
  exists image2, c, (cvm_crc32 payload). split_and!; [| |done|by apply Hsame|done].
  - unfold cvm_kernel_image_finalize. rewrite (proj2 (Z.ltb_ge _ _)) by (rewrite E128; done). cbn [reject_if mbind Check_bind].
    rewrite Hd. cbn [peek mbind Check_bind]. destruct (ho_sizes _ _ Hok) as (-> & _ & ->). rewrite !Z.eqb_refl.
    cbn [negb orb reject_if mbind Check_bind]. rewrite (piece_fetch _ image _ payload) by (done || rewrite E128; lia).
    cbn [peek mbind Check_bind]. fold h1. fold image1. rewrite (piece_fetch _ image1 _ _ eq_refl) by (rewrite ?E128; lia).
    cbn [peek mbind Check_bind]. done.
  - apply validate_complete; [done|]. change (set_header_crc32 c (set_payload_crc32 (cvm_crc32 payload) h)) with h2.
    split; [rewrite Es2, E128; done|done|rewrite Es2; apply (header_ok_crc (ram_size image) h c (cvm_crc32 payload) Hok)| |].
    + split.
      * change (kh_header_crc32 h2) with c. unfold c. rewrite E128, Eb1, Eb2. apply crc32_same.
        { unfold h2. destruct (header_crc_split h1 Hh1) as (p & q & _ & E). pose proof (E (kh_header_crc32 h1)) as E1.
          rewrite set_header_crc32_id in E1. rewrite E, E1, !length_app. unfold le32. by rewrite !length_int_to_bytes. }
        intros k Hk Hz. rewrite zeroed_at_crc, bool_decide_eq_false in Hz. symmetry. apply header_crc_others; [done|lia].
      * change (kh_payload_crc32 h2) with (cvm_crc32 payload). rewrite E128, Es2, Hsame by lia. done.
    + exists segments. rewrite Es2. split; [|by apply (segments_ok_crc (ram_size image) h c (cvm_crc32 payload))].
      intros k s Hk. destruct (Ht k s Hk) as [Hw Hbs]. split; [done|]. rewrite <- Hbs. apply Hsame.
      destruct (ho_table _ _ Hok) as [Hto _]. change (kh_segment_table_offset h2) with (kh_segment_table_offset h).
      unfold CVM_KERNEL_HEADER_SIZE, CVM_KERNEL_SEGMENT_SIZE in *. lia.
Qed.

(** C18: corruption is detected.  Changing any single byte of an accepted image,
    wherever it lies, makes validation reject it: in the payload, in the header,
    in the checksum fields themselves. *)
Theorem exf_corruption_detected image h i b :
  ram_wf image -> cvm_kernel_image_validate image = Pass h ->
  0 <= i < ram_size image -> is_u8 b -> b <> ram_byte image i ->
  forall h', cvm_kernel_image_validate (ram_set_byte image i b) <> Pass h'.
Proof.
  intros Hwf Hv Hi Hb Hne h' Hv'.
  assert (ram_wf (ram_set_byte image i b)) as Hwf' by (apply (store_bytes_wf image i [b]); [done|by constructor]).
  pose proof (validate_sound _ Hwf) as V. rewrite Hv in V. pose proof (validate_sound _ Hwf') as V'. rewrite Hv' in V'.
  destruct V as [Hz [Hh E] _ [K1 K2] _], V' as [_ [Hh' E'] _ [K1' K2'] _]. unfold CVM_KERNEL_HEADER_SIZE in *.
  change (ram_size (ram_set_byte image i b)) with (ram_size image) in *.
  pose proof (ram_bytes_u8 image 0 128 Hwf) as H8. pose proof (ram_bytes_u8 image 128 (ram_size image - 128) Hwf) as P8.
  assert (forall a n k, 0 <= n -> (k < Z.to_nat n)%nat -> ram_bytes image a n !! k = Some (ram_byte image (a + Z.of_nat k))) as Hlook.
  { intros a n k Hn Hk. unfold ram_bytes. by rewrite list_lookup_fmap, lookup_seqZ_lt by lia. }
  destruct (Z.lt_ge_cases i 128) as [Hlt|Hge].
  - rewrite (ram_bytes_set_in image i b 0 128), Z.sub_0_r in K1', E' by lia. 
    pose proof (header_crc_field h Hh) as F. pose proof (header_crc_field h' Hh') as F'. rewrite <- E in F. rewrite <- E' in F'.
    pose proof (Hlook 0 128 (Z.to_nat i) ltac:(lia) ltac:(lia)) as Hat. rewrite Z2Nat.id, Z.add_0_l in Hat by lia.
    destruct (decide (88 <= i < 92)) as [Hin|Hout].
    + assert (kh_header_crc32 h = kh_header_crc32 h') as Ec.
      { rewrite K1, K1'. apply crc32_same; [by rewrite length_insert|]. intros k Hk Hz0.
        rewrite zeroed_at_crc, bool_decide_eq_false in Hz0. symmetry. apply list_lookup_insert_ne. lia. }
      rewrite Ec, <- F' in F. apply (f_equal (fun l => l !! (Z.to_nat i - 88)%nat)) in F.
      rewrite !lookup_take_lt, !lookup_drop in F by lia. replace (88 + (Z.to_nat i - 88))%nat with (Z.to_nat i) in F by lia.
      rewrite Hat, list_lookup_insert_eq in F by (rewrite length_ram_bytes; lia). congruence.
    + assert (le32 (kh_header_crc32 h) = le32 (kh_header_crc32 h')) as Ec.
      { rewrite <- F, <- F'. apply list_eq. intros k. destruct (decide (k < 4)%nat); [|by rewrite !lookup_take_ge by lia].
        rewrite !lookup_take_lt, !lookup_drop by lia. rewrite list_lookup_insert_ne by lia. done. }
      apply word_inj in Ec; [|lia|apply header_bounds, Hh|apply header_bounds, Hh'].
      rewrite K1, K1' in Ec. symmetry in Ec. revert Ec. apply (crc32_detects _ _ _ _ _ _ H8 Hat Hb Hne).
      rewrite zeroed_at_crc. apply bool_decide_eq_false. lia.
  - rewrite (ram_bytes_set_out image i b 0 128) in E' by lia. rewrite (ram_bytes_set_in image i b 128) in K2' by lia.
    assert (h = h') as <- by (apply (codec_inj _ _ _ _ _ kernel_header_codec); [done|done|congruence]).
    pose proof (Hlook 128 (ram_size image - 128) (Z.to_nat (i - 128)) ltac:(lia) ltac:(lia)) as Hat.
    replace (128 + Z.of_nat (Z.to_nat (i - 128))) with i in Hat by lia.
    rewrite K2 in K2'. unfold cvm_crc32 in K2'. rewrite length_insert in K2'. symmetry in K2'. revert K2'.
    apply (crc32_detects _ _ _ _ _ _ P8 Hat Hb Hne). unfold zeroed_at. apply andb_false_iff. rewrite Z.leb_gt, Z.ltb_ge. lia.
Qed.

(** *** A small image *)

Definition demo_header : CvmKernelHeader :=
  mkKernelHeader RISC_MV_EXF_MAGIC 1 0 128 0 RARCH_M64_ISA_ID 1 64 1 1 64 128 0x1000 196 0 (replicate 16 7) 0 0 0 0 0
    (replicate 8 0).
Definition demo_segment : CvmKernelSegment := mkKernelSegment 1 5 192 0x1000 0x1000 4 4 4096 0.
Definition demo_exf : RAM :=
  store_bytes (cvm_kernel_segment_encode (cvm_kernel_header_encode (zeroed 196) 0 demo_header) 128 demo_segment) 192
    [1; 2; 3; 4].
Definition demo_final : RAM := match cvm_kernel_image_finalize demo_exf with Pass image => image | _ => zeroed 0 end.

Lemma ram_wf_decide (image : RAM) :
  (0 <=? ram_size image) && (ram_size image <? 0x10000000000000000) &&
  bool_decide (map_Forall (fun _ b => 0 <= b <= 255) (ram_data image)) = true -> ram_wf image.
Proof.
  rewrite !andb_true_iff, Z.leb_le, Z.ltb_lt, bool_decide_eq_true. intros [H1 H2]. split; [done|].
  intros a b Hb. specialize (H2 a b Hb). unfold is_u8. cbn in H2. lia.
Qed.

Lemma exf_validate_exact_witness :
  exists h, cvm_kernel_image_validate demo_final = Pass h /\ exf_image demo_final h /\
            cvm_kernel_image_validate demo_exf = Reject CVM_BOOT_FORMAT_BAD_CHECKSUM.
Proof.
  assert (ram_wf demo_final) as Hwf by (apply ram_wf_decide; vm_compute; reflexivity).
  eexists. split; [vm_compute; reflexivity|]. split; [|vm_compute; reflexivity].
  apply (exf_validate_exact demo_final Hwf). vm_compute. reflexivity.
Defined.

Lemma exf_corruption_detected_witness :
  exists h, cvm_kernel_image_validate demo_final = Pass h /\
            ~ (exists h', cvm_kernel_image_validate (ram_set_byte demo_final 193 9) = Pass h').
Proof.
  eexists. split; [vm_compute; reflexivity|]. intros [h' E]. revert E.
  eapply (exf_corruption_detected demo_final).
  - apply ram_wf_decide. vm_compute. reflexivity.
  - vm_compute. reflexivity.
  - vm_compute. split; [discriminate|reflexivity].
  - vm_compute. split; [discriminate|reflexivity].
  - vm_compute. discriminate.
Defined.

Lemma exf_finalize_validates_witness :
  exists image' c d, cvm_kernel_image_finalize demo_exf = Pass image' /\
    cvm_kernel_image_validate image' = Pass (set_header_crc32 c (set_payload_crc32 d demo_header)).
Proof.
  destruct (exf_finalize_validates demo_exf demo_header [demo_segment]) as (image' & c & d & H1 & H2 & _).
  - apply ram_wf_decide. vm_compute. reflexivity.
  - vm_compute. discriminate.
  - vm_compute. reflexivity.
  - split; vm_compute; repeat split; try reflexivity; discriminate.
  - intros [|k] s Hk; [|done]. injection Hk as <-. split; [|vm_compute; reflexivity].
    split; [|constructor]. repeat (apply list.Forall_cons; split; [vm_compute; split; [discriminate|reflexivity]|]). constructor.
  - split; [reflexivity| | |].
    + constructor; [|constructor]. split; try (vm_compute; repeat split; (reflexivity || discriminate)).
      * exists 12. vm_compute. repeat split; (reflexivity || discriminate).
      * right. vm_compute. split; discriminate.
    + intros [|i] [|j] s t Hi Hj Hne; done.
    + constructor. vm_compute. repeat split; (reflexivity || discriminate).
  - exists image', c, d. split; [exact H1|exact H2].
Defined.
