(* ===== verification/BootInfoValid.v ===== *)
(** What [cvm_boot_info_validate] accepts, and where it leaves its buffer. *)

From S2P Require Import Prelude Ram Image BootFormat BootProof BootValid.
From Stdlib Require Import ZArith Lia Bool.
From stdpp Require Import base list numbers gmap option.

#[local] Open Scope Z_scope.

(** ** The memory map *)

Definition memory_entry_wf : CvmMemoryMapEntry -> Prop := codec_wf memory_map_entry_words memory_map_entry_blocks.

Definition memory_map_holds (data : RAM) (offset : Z) (entries : list CvmMemoryMapEntry) : Prop :=
  forall k e, entries !! k = Some e ->
    memory_entry_wf e /\
    ram_bytes data (offset + Z.of_nat k * CVM_MEMORY_MAP_ENTRY_SIZE) CVM_MEMORY_MAP_ENTRY_SIZE =
      fields_bytes (memory_map_entry_fields e).

Record memory_entry_ok (e : CvmMemoryMapEntry) : Prop := {
  eo_length : 0 < mm_length e;
  eo_type : CVM_MEMORY_USABLE <= mm_type e <= CVM_MEMORY_MMIO;
  eo_reserved : mm_reserved e = 0;
  eo_end : mm_base e + mm_length e <= UINT64_MAX;
}.

(** In ascending order, none meeting the next. *)
Definition memory_map_sorted (entries : list CvmMemoryMapEntry) : Prop :=
  forall i j e f, (i < j)%nat -> entries !! i = Some e -> entries !! j = Some f -> mm_base e + mm_length e <= mm_base f.

Lemma memory_entry_bounds e : memory_entry_wf e -> is_u64 (mm_base e) /\ is_u64 (mm_length e).
Proof.
  intros [H _]. cbn in H. repeat (apply list.Forall_cons in H as [? H]). unfold word_ok in *. cbn [fst snd] in *.
  unfold is_u64. split; lia.
Qed.

(** From entry [i] on, above [previous_end]. *)
Lemma check_memory_map_sound n data offset i previous_end :
  ram_wf data -> 0 <= offset -> 0 <= i -> offset + (i + Z.of_nat n) * CVM_MEMORY_MAP_ENTRY_SIZE <= ram_size data ->
  checks (check_memory_map n data offset i previous_end) (fun _ =>
    exists entries, length entries = n /\ memory_map_holds data (offset + i * CVM_MEMORY_MAP_ENTRY_SIZE) entries /\
      Forall memory_entry_ok entries /\ memory_map_sorted entries /\
      (i <> 0 -> forall e, e ∈ entries -> previous_end <= mm_base e)).
Proof.
  intros Hwf Ho. unfold CVM_MEMORY_MAP_ENTRY_SIZE. revert i previous_end.
  induction n as [|n IH]; intros i previous_end Hi Hin; cbn [check_memory_map].
  { apply checks_ret. exists []. split_and!; [done|by intros k e Hk|constructor|intros ? ? ? ? ? H; done|by intros _ e ?%elem_of_nil]. }
  destruct (codec_decode _ _ _ _ _ memory_map_entry_codec data (offset + i * 32)) as (e & Hd & He & Hb);
    [done|lia|unfold CVM_MEMORY_MAP_ENTRY_SIZE; lia|].
  eapply checks_peek; [exact Hd|]. cbv beta. destruct (memory_entry_bounds e He) as [B1 B2].
  apply checks_reject. intros (((C1%Z.eqb_neq & C2%Z.ltb_ge)%orb_false_iff & C3%Z.ltb_ge)%orb_false_iff & C4%negb_false_iff%Z.eqb_eq)%orb_false_iff.
  rewrite add_u64_spec by done. destruct (Z.leb_spec (mm_base e + mm_length e) UINT64_MAX) as [Hend|]; [|done].
  apply checks_reject. intros C5. assert (0 < mm_length e) as Hpos by (unfold is_u64 in B2; lia).
  pose proof (IH (i + 1) (mm_base e + mm_length e) ltac:(lia) ltac:(lia)) as Hrec.
  destruct (check_memory_map n data offset (i + 1) (mm_base e + mm_length e)); [|done|done]. cbn in Hrec |- *.
  destruct Hrec as (entries & Hl & Hh & Hf & Hs & Hp). specialize (Hp ltac:(lia)).
  exists (e :: entries). split_and!.
  - cbn. lia.
  - intros [|k] f Hk.
    + injection Hk as <-. rewrite Z.add_0_r. done.
    + destruct (Hh k f Hk) as [H1 H2]. split; [done|]. rewrite <- H2. f_equal. unfold CVM_MEMORY_MAP_ENTRY_SIZE. lia.
  - constructor; [by split|done].
  - intros [|p] [|q] f g Hab Ha Hb'; try lia.
    + injection Ha as <-. apply Hp. by eapply list_elem_of_lookup_2.
    + by apply (Hs p q); [lia|..].
  - intros Hne f [->|Hf']%elem_of_cons.
    + rewrite (proj2 (Z.eqb_neq i 0)) in C5 by done. cbn [negb andb] in C5. by apply Z.ltb_ge in C5.
    + specialize (Hp f Hf'). rewrite (proj2 (Z.eqb_neq i 0)) in C5 by done. cbn [negb andb] in C5. apply Z.ltb_ge in C5. lia.
Qed.

(** ** BootInfo blocks *)

Definition boot_info_wf : CvmBootInfo -> Prop := codec_wf boot_info_words boot_info_blocks.

(** The virtual memory handoff: the kernel's entry lies in its virtual image,
    the direct map covers the RAM, and the root table lies in the page tables,
    which lie in the RAM. *)
Record handoff_ok (info : CvmBootInfo) (v : CvmBootVirtualHandoff) : Prop := {
  vo_magic : vh_magic v = CVM_BOOT_VIRTUAL_HANDOFF_MAGIC;
  vo_aligned : vh_kernel_virtual_base v mod 4096 = 0 /\ bi_kernel_physical_base info mod 4096 = 0 /\
    vh_initial_page_table_root v mod 4096 = 0 /\ vh_direct_map_base v mod 4096 = 0 /\
    vh_page_table_physical_base v mod 4096 = 0;
  vo_entry : vh_kernel_virtual_base v <= bi_kernel_entry info < vh_kernel_virtual_base v + vh_kernel_virtual_size v;
  vo_kernel : 0 < bi_kernel_physical_size info /\
    bi_kernel_physical_base info + bi_kernel_physical_size info <= bi_ram_base info + bi_ram_size info;
  vo_direct : bi_ram_size info <= vh_direct_map_size v /\ vh_direct_map_base v + vh_direct_map_size v <= UINT64_MAX;
  vo_tables : vh_page_table_physical_base v <= vh_initial_page_table_root v /\
    vh_initial_page_table_root v + 4096 <= vh_page_table_physical_base v + vh_page_table_physical_size v /\
    vh_page_table_physical_base v + vh_page_table_physical_size v <= bi_ram_base info + bi_ram_size info;
}.

Record boot_info_ok (data : RAM) (info : CvmBootInfo) : Prop := {
  io_decoded : boot_info_wf info /\ ram_bytes data 0 CVM_BOOTINFO_HEADER_SIZE = fields_bytes (boot_info_fields info);
  io_size : CVM_BOOTINFO_HEADER_SIZE <= bi_total_size info <= ram_size data;
  io_checksum : bi_checksum info = crc32_with_zero_range (ram_bytes data 0 (bi_total_size info)) BOOTINFO_CHECKSUM_OFFSET 4;
  io_ram : 0 < bi_ram_size info /\ bi_ram_base info + bi_ram_size info <= UINT64_MAX;
  io_handoff : flag_set (bi_flags info) CVM_BOOTINFO_FLAG_MMU_ENABLED = true ->
    exists v, cvm_boot_virtual_handoff_decode data CVM_BOOTINFO_HEADER_SIZE = POk v /\ handoff_ok info v;
  io_map : exists entries, Z.of_nat (length entries) = bi_memory_map_count info /\ entries <> [] /\
    CVM_BOOTINFO_HEADER_SIZE <= bi_memory_map_offset info /\
    bi_memory_map_offset info + bi_memory_map_count info * CVM_MEMORY_MAP_ENTRY_SIZE <= bi_total_size info /\
    memory_map_holds data (bi_memory_map_offset info) entries /\
    Forall memory_entry_ok entries /\ memory_map_sorted entries;
  io_command_line : flag_set (bi_flags info) CVM_BOOTINFO_FLAG_COMMAND_LINE_PRESENT = true ->
    CVM_BOOTINFO_HEADER_SIZE <= bi_command_line_offset info /\ 0 < bi_command_line_size info /\
    bi_command_line_offset info + bi_command_line_size info <= bi_total_size info /\
    ram_byte data (bi_command_line_offset info + bi_command_line_size info - 1) = 0;
}.

Lemma boot_info_bounds info : boot_info_wf info ->
  is_u64 (bi_memory_map_offset info) /\ (0 <= bi_memory_map_count info < 2 ^ 32) /\ (0 <= bi_total_size info < 2 ^ 32) /\
  is_u64 (bi_ram_base info) /\ is_u64 (bi_ram_size info) /\ is_u64 (bi_kernel_entry info) /\
  is_u64 (bi_kernel_physical_base info) /\ is_u64 (bi_kernel_physical_size info) /\
  is_u64 (bi_command_line_offset info) /\ (0 <= bi_command_line_size info < 2 ^ 32).
Proof.
  intros [H _]. cbn in H. repeat (apply list.Forall_cons in H as [? H]). unfold word_ok in *. cbn [fst snd] in *.
  unfold is_u64. split_and!; lia.
Qed.

Lemma handoff_bounds v : codec_wf virtual_handoff_words virtual_handoff_blocks v ->
  is_u64 (vh_kernel_virtual_base v) /\ is_u64 (vh_kernel_virtual_size v) /\ is_u64 (vh_direct_map_base v) /\
  is_u64 (vh_direct_map_size v) /\ is_u64 (vh_page_table_physical_base v) /\ is_u64 (vh_page_table_physical_size v).
Proof.
  intros [H _]. cbn in H. repeat (apply list.Forall_cons in H as [? H]). unfold word_ok in *. cbn [fst snd] in *.
  unfold is_u64. split_and!; lia.
Qed.

Lemma handoff_sound info v :
  boot_info_wf info -> codec_wf virtual_handoff_words virtual_handoff_blocks v -> bi_page_size info = 4096 ->
  handoff_rejected info v (bi_ram_base info + bi_ram_size info) = false -> handoff_ok info v.
Proof.
  intros (_ & _ & _ & I1 & I2 & I3 & I4 & I5 & _)%boot_info_bounds (V1 & V2 & V3 & V4 & V5 & V6)%handoff_bounds Hpage.
  unfold handoff_rejected. rewrite Hpage, !add_u64_spec by done. rewrite !orb_false_iff, !negb_false_iff, !Z.eqb_eq, !Z.eqb_neq.
  rewrite bool_decide_eq_true, Z.ltb_ge.
  intros ((((((((((((((H1 & H2) & H3) & H4) & H5) & H6) & H7) & H8) & H9) & H10) & H11) & H12) & H13) & H14) & H15).
  destruct (Z.leb_spec (vh_kernel_virtual_base v + vh_kernel_virtual_size v) UINT64_MAX); [|done].
  destruct (Z.leb_spec (bi_kernel_physical_base info + bi_kernel_physical_size info) UINT64_MAX); [|done].
  destruct (Z.leb_spec (vh_direct_map_base v + vh_direct_map_size v) UINT64_MAX); [|done].
  destruct (Z.leb_spec (vh_page_table_physical_base v + vh_page_table_physical_size v) UINT64_MAX); [|done].
  rewrite !orb_false_iff, Z.ltb_ge, Z.ltb_ge, Z.leb_gt in H4. rewrite !orb_false_iff, !Z.ltb_ge in H15.
  rewrite Z.ltb_ge in H7. unfold is_u64 in *. split; [done|done|lia|lia|lia|lia].
Qed.

Lemma command_line_sound data info :
  ram_wf data -> boot_info_wf info -> bi_total_size info <= ram_size data ->
  checks (check_command_line data info) (fun _ =>
    flag_set (bi_flags info) CVM_BOOTINFO_FLAG_COMMAND_LINE_PRESENT = true ->
    CVM_BOOTINFO_HEADER_SIZE <= bi_command_line_offset info /\ 0 < bi_command_line_size info /\
    bi_command_line_offset info + bi_command_line_size info <= bi_total_size info /\
    ram_byte data (bi_command_line_offset info + bi_command_line_size info - 1) = 0).
Proof.
  intros Hwf (_ & _ & _ & _ & _ & _ & _ & _ & B1 & B2)%boot_info_bounds Hsz. unfold check_command_line, is_u64 in *.
  destruct (flag_set _ _) eqn:E.
  2:{ destruct (negb _ || negb _); done. }
  apply checks_reject. intros (((C1%Z.eqb_neq & C2%Z.ltb_ge)%orb_false_iff & C3%Z.ltb_ge)%orb_false_iff & C4%Z.ltb_ge)%orb_false_iff.
  eapply checks_peek; [apply read_load; [done|lia|lia|lia]|]. cbv beta.
  set (a := bi_command_line_offset info + bi_command_line_size info - 1).
  assert (atomic_load_n data a 1 = ram_byte data a) as ->.
  { change (ram_byte data a + 256 * 0 = ram_byte data a). lia. }
  unfold reject_if. destruct (Z.eqb_spec (ram_byte data a) 0); [|done]. cbn. intros _. split_and!; lia || done.
Qed.

(** Validation is safe on every block that has room for the handoff. *)
Lemma boot_info_sound data :
  ram_wf data -> CVM_BOOTINFO_HEADER_SIZE + CVM_BOOT_VIRTUAL_HANDOFF_SIZE <= ram_size data ->
  checks (cvm_boot_info_validate data) (boot_info_ok data).
Proof.
  intros Hwf Hroom. unfold cvm_boot_info_validate. assert (CVM_BOOTINFO_HEADER_SIZE = 256) as E256 by done.
  assert (CVM_BOOT_VIRTUAL_HANDOFF_SIZE = 64) as E64 by done. assert (2 ^ 40 < SIZE_MAX) as HM by done.
  apply checks_reject. intros C0%Z.ltb_ge.
  destruct (codec_decode _ _ _ _ _ boot_info_codec data 0) as (info & Hd & Hi & Hb); [done|lia|lia|].
  eapply checks_peek; [exact Hd|]. cbv beta. pose proof (boot_info_bounds info Hi) as (B1 & B2 & B3 & B4 & B5 & _). unfold is_u64 in B1.
  do 2 (apply checks_reject; intros _).
  apply checks_reject. intros ((_ & C1%Z.ltb_ge)%orb_false_iff & C2%Z.ltb_ge)%orb_false_iff.
  apply checks_reject. intros _.
  eapply checks_peek; [apply (piece_fetch _ _ _ _ eq_refl); lia|]. cbv beta.
  apply checks_reject. intros C3%negb_false_iff%Z.eqb_eq.
  rewrite add_u64_spec by done. destruct (Z.leb_spec (bi_ram_base info + bi_ram_size info) UINT64_MAX) as [Hram|]; [|done].
  destruct (Z.eqb_spec (bi_ram_size info) 0) as [|Hram0]; [done|]. cbn [mbind Check_bind].
  apply checks_reject. intros ((((C4%negb_false_iff%Z.eqb_eq & _)%orb_false_iff & _)%orb_false_iff & _)%orb_false_iff & _)%orb_false_iff.
  eapply (checks_bind _ _ (fun _ => flag_set (bi_flags info) CVM_BOOTINFO_FLAG_MMU_ENABLED = true ->
    exists v, cvm_boot_virtual_handoff_decode data CVM_BOOTINFO_HEADER_SIZE = POk v /\ handoff_ok info v)).
  { destruct (flag_set (bi_flags info) CVM_BOOTINFO_FLAG_MMU_ENABLED); [|done]. apply checks_reject. intros _.
    destruct (codec_decode _ _ _ _ _ virtual_handoff_codec data CVM_BOOTINFO_HEADER_SIZE) as (v & Hdv & Hv & _); [done|lia|lia|].
    eapply checks_peek; [exact Hdv|]. cbv beta. unfold reject_if. destruct (handoff_rejected _ _ _) eqn:Er; [done|]. cbn.
    intros _. exists v. split; [done|]. by apply handoff_sound. }
  intros _ Hhand. apply checks_reject.
  intros (((C5%Z.eqb_neq & _)%orb_false_iff & C6%Z.ltb_ge)%orb_false_iff & _)%orb_false_iff.
  rewrite multiply_size_ok by (unfold CVM_MEMORY_MAP_ENTRY_SIZE; lia). cbn [mbind Check_bind].
  apply checks_reject. intros (C7%Z.ltb_ge & C8%Z.ltb_ge)%orb_false_iff.
  eapply checks_bind; [apply check_memory_map_sound; [done|lia|lia|rewrite Z2Nat.id by lia; lia]|].
  intros _ (entries & Hl & Hmap & Hf & Hs & _). cbv zeta. apply checks_reject. intros _.
  eapply checks_bind; [apply command_line_sound; [done|done|lia]|]. intros [] Hcmd. cbv beta in Hcmd.
  apply checks_reject. intros _. apply checks_ret. split.
  - by split.
  - lia.
  - exact C3.
  - unfold is_u64 in B5. split; [lia|exact Hram].
  - exact Hhand.
  - exists entries. rewrite Z.mul_0_l, Z.add_0_r in Hmap. rewrite Hl, Z2Nat.id by lia.
    split_and!; [done| |lia|lia|exact Hmap|exact Hf|exact Hs]. intros ->. cbn in Hl. lia.
  - exact Hcmd.
Qed.

(** A header that fills its block and announces a handoff behind it. *)
Definition cut_boot_info : CvmBootInfo :=
  mkBootInfo CVM_BOOTINFO_MAGIC 1 0 256 256 CVM_BOOTINFO_FLAG_MMU_ENABLED 0 0 320 1 32 0 0x100000 0 0 0 0 0 0 0 0 0 0 0 0
    0 0 0 0 0 0 0 4096 64 39 (replicate 32 0) 0 (replicate 12 0).

Definition cut_block : RAM :=
  match cvm_boot_info_finalize (cvm_boot_info_encode (zeroed 256) 0 cut_boot_info) with Pass data => data | _ => zeroed 0 end.

(** C19: what [cvm_boot_info_validate] guarantees, and where it fails.  On every
    block of at least 320 bytes it stays inside the block, and what it accepts
    is consistent: the memory map lies in the block and is sorted and disjoint,
    the command line lies in it and is terminated, and under the MMU flag the
    entry, the direct map and the root table have the geometry the kernel relies
    on.  The bound is needed: on a block of 256 bytes, itself checksummed, whose
    flags announce a handoff, it reads the handoff behind the end of the block,
    because the map offset is compared with the size only later. *)
Theorem boot_info_validate_bounds :
  (forall data, ram_wf data -> CVM_BOOTINFO_HEADER_SIZE + CVM_BOOT_VIRTUAL_HANDOFF_SIZE <= ram_size data ->
     cvm_boot_info_validate data <> Overrun /\
     forall info, cvm_boot_info_validate data = Pass info -> boot_info_ok data info) /\
  (ram_size cut_block = CVM_BOOTINFO_HEADER_SIZE /\ cvm_boot_info_validate cut_block = Overrun).
Proof.
  split; [|split; vm_compute; reflexivity]. intros data Hwf Hsz. pose proof (boot_info_sound data Hwf Hsz) as H. split.
  - intros E. by rewrite E in H.
  - intros info E. by rewrite E in H.
Qed.

(** *** A small block *)

Definition demo_boot_info : CvmBootInfo :=
  mkBootInfo CVM_BOOTINFO_MAGIC 1 0 256 352 CVM_BOOTINFO_FLAG_MMU_ENABLED 0 0 320 1 32 0 0x100000 0x4000010
    0x10000 0x1000 0 0 0 0 0 0 0 0 0
    0 0 0 0 0 0 0 4096 64 39 (replicate 32 0) 0 (replicate 12 0).
Definition demo_handoff : CvmBootVirtualHandoff :=
  mkVirtualHandoff CVM_BOOT_VIRTUAL_HANDOFF_MAGIC 0x4000000 0x1000 0x20000 0x8000000 0x100000 0x20000 0x1000.
Definition demo_block : RAM :=
  match cvm_boot_info_finalize (cvm_memory_map_entry_encode (cvm_boot_virtual_handoff_encode
    (cvm_boot_info_encode (zeroed 352) 0 demo_boot_info) 256 demo_handoff) 320 (mkMemoryMapEntry 0 0x100000 1 3 0))
  with Pass data => data | _ => zeroed 0 end.

Lemma boot_info_validate_bounds_witness :
  exists info, cvm_boot_info_validate demo_block = Pass info /\ boot_info_ok demo_block info.
Proof.
  eexists. split; [vm_compute; reflexivity|].
  apply (proj1 boot_info_validate_bounds demo_block);
    [apply ram_wf_decide; vm_compute; reflexivity|vm_compute; discriminate|vm_compute; reflexivity].
Defined.
