(* ===== verification/Linker.v ===== *)
(** The linker: tools/linker/main.c, from the bytes of its input files to the
    bytes of the EXF image.

    [link_files] is [main] after the options are parsed: it tells objects from
    archives by their magic, extracts the members that are needed, resolves the
    global symbols, lays out the four output sections, patches the relocations
    and writes the image.  A function that returns 0 after a message is [None];
    the map file is text for the user and is not modelled; allocations of the
    host succeed. *)

From S2P Require Import Prelude Ram Image ObjectFormat ArchiveFormat BootFormat.
From Stdlib Require Import ZArith Lia Bool.
From stdpp Require Import base list numbers gmap option.

#[local] Open Scope Z_scope.

Definition LINKER_MAX_OBJECTS : Z := 4096.
Definition OUTPUT_SECTION_COUNT : nat := 4.
Definition PAGE_ALIGNMENT : Z := 4096.

Record GlobalDefinition := mkGlobal {
  gd_name : list Z;
  gd_object_index : nat;
  gd_symbol_index : nat;
  gd_common : bool;
  gd_common_size : Z;
  gd_common_alignment : Z;
  gd_common_address : Z;
}.

Record Placement := mkPlacement {
  pl_input_section : nat;
  pl_offset : Z;
  pl_present : bool;
}.

Record OutputSection := mkOutput {
  os_name : list Z;
  os_start : Z;
  os_memory_size : Z;
  os_file_size : Z;
  os_data : RAM;
  os_flags : Z;
  os_nobits : bool;
}.

#[export] Instance GlobalDefinition_inhabited : Inhabited GlobalDefinition := populate (mkGlobal [] 0 0 false 0 0 0).
#[export] Instance Placement_inhabited : Inhabited Placement := populate (mkPlacement 0 0 false).
#[export] Instance OutputSection_inhabited : Inhabited OutputSection := populate (mkOutput [] 0 0 0 (zeroed 0) 0 false).
#[export] Instance CvmObjectSymbol_inhabited : Inhabited CvmObjectSymbol := populate (mkSymbol [] 0 0 0 0).
#[export] Instance CvmObjectFile_inhabited : Inhabited CvmObjectFile := populate (mkObject [] [] []).
#[export] Instance CvmArchiveMember_inhabited : Inhabited CvmArchiveMember := populate (mkMember [] []).

(** ** Helpers *)

Definition align_up (value alignment : Z) : option Z :=
  if (alignment =? 0) || negb (Z.land alignment (alignment - 1) =? 0) then None
  else
    let mask := alignment - 1 in
    if UINT64_MAX - mask <? value then None else Some (Z.land (wrap64 (value + mask)) (not64 mask)).

(** [".text"], [".rodata"], [".data"], [".bss"] *)
Definition output_section_names : list (list Z) :=
  [[46; 116; 101; 120; 116]; [46; 114; 111; 100; 97; 116; 97]; [46; 100; 97; 116; 97]; [46; 98; 115; 115]].

(** The index of the first element of a list that satisfies a test. *)
Fixpoint index_where {A} (test : A -> bool) (l : list A) : option nat :=
  match l with
  | [] => None
  | x :: l => if test x then Some O else S <$> index_where test l
  end.

Definition output_section_index (name : list Z) : option nat :=
  index_where (fun n => bool_decide (name = n)) output_section_names.

Definition global_index (globals : list GlobalDefinition) (name : list Z) : option nat :=
  index_where (fun g => bool_decide (gd_name g = name)) globals.

Definition symbol_is (flag : Z) (s : CvmObjectSymbol) : bool := has_bits (symbol_flags s) flag.
Definition is_defined : CvmObjectSymbol -> bool := symbol_is CVM_OBJECT_SYMBOL_DEFINED.
Definition is_common : CvmObjectSymbol -> bool := symbol_is CVM_OBJECT_SYMBOL_COMMON.
Definition is_global : CvmObjectSymbol -> bool := symbol_is CVM_OBJECT_SYMBOL_GLOBAL.
Definition is_weak : CvmObjectSymbol -> bool := symbol_is CVM_OBJECT_SYMBOL_WEAK.
Definition is_entry : CvmObjectSymbol -> bool := symbol_is CVM_OBJECT_SYMBOL_ENTRY.

Definition symbol_at (objects : list CvmObjectFile) (object_index symbol_index : nat) : CvmObjectSymbol :=
  symbols (objects !!! object_index) !!! symbol_index.

(** ** Global symbols *)

(** [common ? 2 : weak ? 1 : 3] *)
Definition rank (common weak : bool) : Z := if common then 2 else if weak then 1 else 3.

Definition new_global (object_index symbol_index : nat) (s : CvmObjectSymbol) : GlobalDefinition :=
  let common := is_common s in
  mkGlobal (symbol_name s) object_index symbol_index common (if common then symbol_size s else 0)
    (if common then symbol_value s else 0) 0.

(** Two commons of one name: the larger size and the larger alignment. *)
Definition merge_common (g : GlobalDefinition) (s : CvmObjectSymbol) : GlobalDefinition :=
  mkGlobal (gd_name g) (gd_object_index g) (gd_symbol_index g) (gd_common g)
    (if gd_common_size g <? symbol_size s then symbol_size s else gd_common_size g)
    (if gd_common_alignment g <? symbol_value s then symbol_value s else gd_common_alignment g) (gd_common_address g).

(** The body of the first loop of [collect_globals]. *)
Definition collect_symbol (objects : list CvmObjectFile) (object_index symbol_index : nat) (s : CvmObjectSymbol)
    (globals : list GlobalDefinition) (entry : option (list Z)) : option (list GlobalDefinition * option (list Z)) :=
  let conflict := match entry with Some name => negb (bool_decide (name = symbol_name s)) | None => false end in
  if is_entry s && conflict then None
  else
    let entry := if is_entry s then Some (symbol_name s) else entry in
    let common := is_common s in
    if (negb (is_defined s) && negb common) || negb (is_global s) then Some (globals, entry)
    else
      match global_index globals (symbol_name s) with
      | None => Some (globals ++ [new_global object_index symbol_index s], entry)
      | Some existing =>
          let previous := globals !!! existing in
          let previous_symbol := symbol_at objects (gd_object_index previous) (gd_symbol_index previous) in
          let this_rank := rank common (is_weak s) in
          let previous_rank := rank (gd_common previous) (is_weak previous_symbol) in
          if (this_rank =? 3) && (previous_rank =? 3) then None
          else if common && gd_common previous then Some (<[existing := merge_common previous s]> globals, entry)
          else if previous_rank <? this_rank then
            Some (<[existing := new_global object_index symbol_index s]> globals, entry)
          else Some (globals, entry)
      end.

Fixpoint collect_symbols (objects : list CvmObjectFile) (object_index symbol_index : nat) (l : list CvmObjectSymbol)
    (globals : list GlobalDefinition) (entry : option (list Z)) : option (list GlobalDefinition * option (list Z)) :=
  match l with
  | [] => Some (globals, entry)
  | s :: l =>
      '(globals, entry) ← collect_symbol objects object_index symbol_index s globals entry;
      collect_symbols objects object_index (S symbol_index) l globals entry
  end.

Fixpoint collect_objects (objects : list CvmObjectFile) (object_index : nat) (l : list CvmObjectFile)
    (globals : list GlobalDefinition) (entry : option (list Z)) : option (list GlobalDefinition * option (list Z)) :=
  match l with
  | [] => Some (globals, entry)
  | o :: l =>
      '(globals, entry) ← collect_symbols objects object_index 0 (symbols o) globals entry;
      collect_objects objects (S object_index) l globals entry
  end.

(** A reference that nothing defines. *)
Definition unresolved (globals : list GlobalDefinition) (s : CvmObjectSymbol) : bool :=
  negb (is_defined s || is_common s) && negb (is_weak s) &&
  match global_index globals (symbol_name s) with Some _ => false | None => true end.

Definition collect_globals (objects : list CvmObjectFile) : option (list GlobalDefinition * option (list Z)) :=
  '(globals, entry) ← collect_objects objects 0 objects [] None;
  if existsb (fun o => existsb (unresolved globals) (symbols o)) objects then None else Some (globals, entry).

(** ** Layout *)

(** The section of an object that goes to output [output_index]: [None] when
    there are two, [Some None] when there is none. *)
Fixpoint find_section (output_index : nat) (l : list CvmObjectSection) (input : nat) (found : option nat) :
    option (option nat) :=
  match l with
  | [] => Some found
  | s :: l =>
      if bool_decide (output_section_index (section_name s) = Some output_index) then
        match found with
        | Some _ => None
        | None => find_section output_index l (S input) (Some input)
        end
      else find_section output_index l (S input) found
  end.

Definition placement_index (object_index output_index : nat) : nat := object_index * OUTPUT_SECTION_COUNT + output_index.

(** The loop over the objects for one output section. *)
Fixpoint place_objects (output_index : nat) (nobits : bool) (l : list CvmObjectFile) (object_index : nat) (cursor : Z)
    (placements : list Placement) : option (Z * list Placement) :=
  match l with
  | [] => Some (cursor, placements)
  | object :: l =>
      found ← find_section output_index (sections object) 0 None;
      match found with
      | None => place_objects output_index nobits l (S object_index) cursor placements
      | Some found =>
          let input := sections object !!! found in
          if negb (Bool.eqb (has_bits (section_flags input) CVM_OBJECT_SECTION_NOBITS) nobits) then None
          else
            cursor ← align_up cursor (section_alignment input);
            if UINT64_MAX - cursor <? section_memory_size input then None
            else
              let placements := <[placement_index object_index output_index := mkPlacement found cursor true]> placements in
              place_objects output_index nobits l (S object_index) (cursor + section_memory_size input) placements
      end
  end.

(** [output[i].start = start], then its sizes and its zeroed data. *)
Definition set_layout (start cursor : Z) (o : OutputSection) : OutputSection :=
  let file_size := if os_nobits o then 0 else cursor in
  mkOutput (os_name o) start cursor file_size (zeroed file_size) (os_flags o) (os_nobits o).

Fixpoint layout_sections (outputs : list OutputSection) (output_index : nat) (objects : list CvmObjectFile) (address : Z)
    (placements : list Placement) : option (list OutputSection * list Placement) :=
  match outputs with
  | [] => Some ([], placements)
  | o :: outputs =>
      address ← align_up address PAGE_ALIGNMENT;
      '(cursor, placements) ← place_objects output_index (os_nobits o) objects 0 0 placements;
      if UINT64_MAX - address <? cursor then None
      else
        '(rest, placements) ← layout_sections outputs (S output_index) objects (address + cursor) placements;
        Some (set_layout address cursor o :: rest, placements)
  end.

Definition set_data (data : RAM) (o : OutputSection) : OutputSection :=
  mkOutput (os_name o) (os_start o) (os_memory_size o) (os_file_size o) data (os_flags o) (os_nobits o).

(** The second loop: the contents of one input section. *)
Definition copy_section (object : CvmObjectFile) (object_index output_index : nat) (placements : list Placement)
    (outputs : list OutputSection) : option (list OutputSection) :=
  let placement := placements !!! placement_index object_index output_index in
  let output := outputs !!! output_index in
  if negb (pl_present placement) || os_nobits output then Some outputs
  else
    let input := sections object !!! pl_input_section placement in
    if (os_file_size output <? pl_offset placement) || (os_file_size output - pl_offset placement <? file_size input) then None
    else Some (<[output_index := set_data (store_bytes (os_data output) (pl_offset placement) (section_data input)) output]> outputs).

Fixpoint copy_outputs (n output_index : nat) (object : CvmObjectFile) (object_index : nat) (placements : list Placement)
    (outputs : list OutputSection) : option (list OutputSection) :=
  match n with
  | O => Some outputs
  | S n =>
      outputs ← copy_section object object_index output_index placements outputs;
      copy_outputs n (S output_index) object object_index placements outputs
  end.

Fixpoint copy_sections (l : list CvmObjectFile) (object_index : nat) (placements : list Placement)
    (outputs : list OutputSection) : option (list OutputSection) :=
  match l with
  | [] => Some outputs
  | object :: l =>
      outputs ← copy_outputs OUTPUT_SECTION_COUNT 0 object object_index placements outputs;
      copy_sections l (S object_index) placements outputs
  end.

Definition no_placement : Placement := mkPlacement 0 0 false.

Definition locate_sections (objects : list CvmObjectFile) (base : Z) (outputs : list OutputSection) :
    option (list OutputSection * list Placement) :=
  let placements := replicate (length objects * OUTPUT_SECTION_COUNT) no_placement in
  '(outputs, placements) ← layout_sections outputs 0 objects base placements;
  outputs ← copy_sections objects 0 placements outputs;
  Some (outputs, placements).

Definition placement_for_input (object : CvmObjectFile) (object_index input_section : nat) (placements : list Placement) :
    option Placement :=
  output ← output_section_index (section_name (sections object !!! input_section));
  let placement := placements !!! placement_index object_index output in
  if pl_present placement && (pl_input_section placement =? input_section)%nat then Some placement else None.

(** ** Common symbols *)

Definition set_common_address (address : Z) (g : GlobalDefinition) : GlobalDefinition :=
  mkGlobal (gd_name g) (gd_object_index g) (gd_symbol_index g) (gd_common g) (gd_common_size g) (gd_common_alignment g) address.

Fixpoint allocate_commons (start cursor : Z) (globals : list GlobalDefinition) : option (list GlobalDefinition * Z) :=
  match globals with
  | [] => Some ([], cursor)
  | g :: globals =>
      if negb (gd_common g) then
        '(globals, cursor) ← allocate_commons start cursor globals; Some (g :: globals, cursor)
      else if UINT64_MAX - cursor <? start then None
      else
        aligned ← align_up (start + cursor) (gd_common_alignment g);
        if aligned <? start then None
        else
          let cursor := aligned - start in
          if UINT64_MAX - cursor <? gd_common_size g then None
          else
            '(globals, cursor) ← allocate_commons start (cursor + gd_common_size g) globals;
            Some (set_common_address aligned g :: globals, cursor)
  end.

Definition set_memory_size (size : Z) (o : OutputSection) : OutputSection :=
  mkOutput (os_name o) (os_start o) size (os_file_size o) (os_data o) (os_flags o) (os_nobits o).

Definition allocate_common_symbols (globals : list GlobalDefinition) (outputs : list OutputSection) :
    option (list GlobalDefinition * list OutputSection) :=
  let bss := outputs !!! 3%nat in
  '(globals, cursor) ← allocate_commons (os_start bss) (os_memory_size bss) globals;
  Some (globals, <[3%nat := set_memory_size cursor bss]> outputs).

(** ** Addresses of symbols *)

Section addresses.
  Context (objects : list CvmObjectFile) (globals : list GlobalDefinition) (placements : list Placement)
          (outputs : list OutputSection).

  (** The address of a symbol that this object defines in a section. *)
Definition section_address (object_index : nat) (symbol : CvmObjectSymbol) : option Z :=
    let object := objects !!! object_index in
    let input := Z.to_nat (symbol_section_index symbol) in
    placement ← placement_for_input object object_index input placements;
    output_index ← output_section_index (section_name (sections object !!! input));
    let output := outputs !!! output_index in
    if (UINT64_MAX - pl_offset placement <? symbol_value symbol) ||
       (wrap64 (UINT64_MAX - pl_offset placement - symbol_value symbol) <? os_start output)
    then None else Some (os_start output + pl_offset placement + symbol_value symbol).

  (** [symbol_address]; the recursion goes to the definition of the symbol, so
      that three levels are enough. *)
Fixpoint symbol_address (fuel : nat) (object_index symbol_index : nat) : option Z :=
    match fuel with
    | O => None
    | S fuel =>
        let symbol := symbol_at objects object_index symbol_index in
        let undefined := if is_weak symbol then Some 0 else None in
        let here :=
          if negb (is_defined symbol) then
            match global_index globals (symbol_name symbol) with
            | None => undefined
            | Some index =>
                let definition := globals !!! index in
                symbol_address fuel (gd_object_index definition) (gd_symbol_index definition)
            end
          else if symbol_section_index symbol =? CVM_OBJECT_ABSOLUTE_SECTION then Some (symbol_value symbol)
          else section_address object_index symbol in
        if is_global symbol then
          match global_index globals (symbol_name symbol) with
          | None => undefined
          | Some index =>
              let definition := globals !!! index in
              if gd_common definition then Some (gd_common_address definition)
              else if negb (gd_object_index definition =? object_index)%nat ||
                      negb (gd_symbol_index definition =? symbol_index)%nat
              then symbol_address fuel (gd_object_index definition) (gd_symbol_index definition)
              else here
          end
        else here
    end.

Definition address_fuel : nat := 3.
End addresses.

(** ** Relocations *)

Definition INT32_MAX : Z := 0x7FFFFFFF.
Definition UINT32_MAX : Z := 0xFFFFFFFF.

Definition add_signed (value addend : Z) : option Z :=
  if 0 <=? addend then if UINT64_MAX - addend <? value then None else Some (value + addend)
  else
    let amount := - (addend + 1) + 1 in
    if value <? amount then None else Some (value - amount).

(** What is written for a relocation of [type] at [place]. *)
Definition encode_relocation (type place target : Z) : option Z :=
  if type =? CVM_OBJECT_RELOCATION_ABS32 then if UINT32_MAX <? target then None else Some target
  else if type =? CVM_OBJECT_RELOCATION_REL32 then
    let next := wrap64 (place + 4) in
    if next <=? target then
      let distance := target - next in
      if INT32_MAX <? distance then None else Some distance
    else
      let distance := next - target in
      if 0x80000000 <? distance then None else Some (wrap32 (0 - wrap32 distance))
  else Some target.

Definition write_le (data : RAM) (destination value : Z) (width : Z) : RAM :=
  write_byte_loop (Z.to_nat width) data destination 0 value.

Definition apply_relocation (objects : list CvmObjectFile) (globals : list GlobalDefinition) (placements : list Placement)
    (object_index : nat) (relocation : CvmObjectRelocation) (outputs : list OutputSection) : option (list OutputSection) :=
  let object := objects !!! object_index in
  let input := Z.to_nat (relocation_section_index relocation) in
  let width := cvm_object_relocation_width (relocation_type relocation) in
  output_index ← output_section_index (section_name (sections object !!! input));
  placement ← placement_for_input object object_index input placements;
  let output := outputs !!! output_index in
  if os_nobits output || (SIZE_MAX - pl_offset placement <? relocation_offset relocation) then None
  else
    let field := pl_offset placement + relocation_offset relocation in
    if (os_file_size output <? field) || (os_file_size output - field <? width) then None
    else
      symbol ← symbol_address objects globals placements outputs address_fuel object_index
                 (Z.to_nat (relocation_symbol_index relocation));
      target ← add_signed symbol (relocation_addend relocation);
      let place := wrap64 (os_start output + field) in
      encoded ← encode_relocation (relocation_type relocation) place target;
      Some (<[output_index := set_data (write_le (os_data output) field encoded width) output]> outputs).

Fixpoint apply_object (objects : list CvmObjectFile) (globals : list GlobalDefinition) (placements : list Placement)
    (object_index : nat) (l : list CvmObjectRelocation) (outputs : list OutputSection) : option (list OutputSection) :=
  match l with
  | [] => Some outputs
  | r :: l =>
      outputs ← apply_relocation objects globals placements object_index r outputs;
      apply_object objects globals placements object_index l outputs
  end.

Fixpoint apply_objects (objects : list CvmObjectFile) (globals : list GlobalDefinition) (placements : list Placement)
    (object_index : nat) (l : list CvmObjectFile) (outputs : list OutputSection) : option (list OutputSection) :=
  match l with
  | [] => Some outputs
  | o :: l =>
      outputs ← apply_object objects globals placements object_index (relocations o) outputs;
      apply_objects objects globals placements (S object_index) l outputs
  end.

Definition apply_relocations (objects : list CvmObjectFile) (globals : list GlobalDefinition) (placements : list Placement)
    (outputs : list OutputSection) : option (list OutputSection) :=
  apply_objects objects globals placements 0 objects outputs.

(** ** The image *)

(** [segment_count] and [payload_size]. *)
Fixpoint count_segments (outputs : list OutputSection) (segment_count payload_size : Z) : option (Z * Z) :=
  match outputs with
  | [] => Some (segment_count, payload_size)
  | o :: outputs =>
      if os_memory_size o =? 0 then count_segments outputs segment_count payload_size
      else if SIZE_MAX - payload_size <? os_file_size o then None
      else count_segments outputs (segment_count + 1) (payload_size + os_file_size o)
  end.

Fixpoint highest_end (outputs : list OutputSection) (virtual_end : Z) : option Z :=
  match outputs with
  | [] => Some virtual_end
  | o :: outputs =>
      if os_memory_size o =? 0 then highest_end outputs virtual_end
      else if UINT64_MAX - os_memory_size o <? os_start o then None
      else
        let end_ := os_start o + os_memory_size o in
        highest_end outputs (if virtual_end <? end_ then end_ else virtual_end)
  end.

Definition image_header (segment_count image_size entry virtual_base virtual_size : Z) (relocatable : bool) : CvmKernelHeader :=
  mkKernelHeader RISC_MV_EXF_MAGIC CVM_KERNEL_FORMAT_MAJOR CVM_KERNEL_FORMAT_MINOR CVM_KERNEL_HEADER_SIZE
    (if relocatable then CVM_KERNEL_FLAG_RELOCATABLE_PHYSICAL else 0) RARCH_M64_ISA_ID CVM_ISA_VERSION CVM_ADDRESS_BITS
    CVM_BYTE_ORDER_LITTLE segment_count CVM_KERNEL_SEGMENT_SIZE CVM_KERNEL_HEADER_SIZE
    (if relocatable then wrap64 (entry - virtual_base) else entry) image_size 0 (replicate 16 0) 0 0
    (if relocatable then entry else 0) (if relocatable then virtual_base else 0)
    (if relocatable then virtual_size else 0) (replicate 8 0).

Definition output_segment (o : OutputSection) (file_cursor virtual_base : Z) (relocatable : bool) : CvmKernelSegment :=
  mkKernelSegment CVM_SEGMENT_LOAD (os_flags o) file_cursor
    (if relocatable then wrap64 (os_start o - virtual_base) else os_start o) (os_start o) (os_file_size o)
    (os_memory_size o) PAGE_ALIGNMENT 0.

(** The loop that encodes the segments and copies their data. *)
Fixpoint write_segments (outputs : list OutputSection) (segment_index file_cursor virtual_base : Z) (relocatable : bool)
    (image : RAM) : RAM :=
  match outputs with
  | [] => image
  | o :: outputs =>
      if os_memory_size o =? 0 then write_segments outputs segment_index file_cursor virtual_base relocatable image
      else
        let image := cvm_kernel_segment_encode image
                       (CVM_KERNEL_HEADER_SIZE + segment_index * CVM_KERNEL_SEGMENT_SIZE)
                       (output_segment o file_cursor virtual_base relocatable) in
        let image := if os_file_size o =? 0 then image
                     else store_bytes image file_cursor (ram_bytes (os_data o) 0 (os_file_size o)) in
        let file_cursor := if os_file_size o =? 0 then file_cursor else file_cursor + os_file_size o in
        write_segments outputs (segment_index + 1) file_cursor virtual_base relocatable image
  end.

(** The image before it is finalised. *)
Definition build_image (outputs : list OutputSection) (entry virtual_base : Z) (relocatable : bool) : option RAM :=
  '(segment_count, payload_size) ← count_segments outputs 0 0;
  if segment_count =? 0 then None
  else
    let table_size := segment_count * CVM_KERNEL_SEGMENT_SIZE in
    if SIZE_MAX - CVM_KERNEL_HEADER_SIZE - table_size <? payload_size then None
    else
      let image_size := CVM_KERNEL_HEADER_SIZE + table_size + payload_size in
      virtual_end ← (if relocatable then highest_end outputs virtual_base else Some virtual_base);
      let header := image_header segment_count image_size entry virtual_base (virtual_end - virtual_base) relocatable in
      let image := cvm_kernel_header_encode (zeroed image_size) 0 header in
      Some (write_segments outputs 0 (CVM_KERNEL_HEADER_SIZE + table_size) virtual_base relocatable image).

Definition write_image (outputs : list OutputSection) (entry virtual_base : Z) (relocatable : bool) : option RAM :=
  image ← build_image outputs entry virtual_base relocatable;
  match cvm_kernel_image_finalize image with
  | Pass image =>
      match cvm_kernel_image_validate image with
      | Pass _ => Some image
      | _ => None
      end
  | _ => None
  end.

(** ** Archives *)

Record InputArchive := mkInputArchive {
  ia_archive : CvmArchive;
  ia_extracted : list bool;
}.

Definition object_defines (objects : list CvmObjectFile) (name : list Z) : bool :=
  existsb (fun o => existsb (fun s => is_global s && (is_defined s || is_common s) && bool_decide (symbol_name s = name))
                      (symbols o)) objects.

Definition object_needs (objects : list CvmObjectFile) (name : list Z) : bool :=
  negb (object_defines objects name) &&
  existsb (fun o => existsb (fun s => negb (is_defined s) && negb (is_common s) && negb (is_weak s) &&
                                      bool_decide (symbol_name s = name)) (symbols o)) objects.

Definition objects_have_entry (objects : list CvmObjectFile) : bool :=
  existsb (fun o => existsb is_entry (symbols o)) objects.

Definition append_object (objects : list CvmObjectFile) (object : CvmObjectFile) : option (list CvmObjectFile) :=
  if Z.of_nat (length objects) =? LINKER_MAX_OBJECTS then None else Some (objects ++ [object]).

(** Whether a symbol of the index makes its member needed. *)
Definition member_needed (objects : list CvmObjectFile) (entry_option : option (list Z)) (symbol : CvmArchiveSymbol) : bool :=
  let name := archive_symbol_name symbol in
  object_needs objects name ||
  match entry_option with
  | Some entry => bool_decide (entry = name) && negb (object_defines objects name)
  | None => negb (objects_have_entry objects) && negb (Z.land (archive_symbol_flags symbol) CVM_ARCHIVE_SYMBOL_ENTRY =? 0)
  end.

(** A file in memory. *)
Definition file_of (data : list Z) : RAM := store_bytes (zeroed (Z.of_nat (length data))) 0 data.

(** The loop over the index of one archive: it stops at the first extraction. *)
Fixpoint extract_member (l : list CvmArchiveSymbol) (objects : list CvmObjectFile) (entry_option : option (list Z))
    (input : InputArchive) : option (list CvmObjectFile * InputArchive * bool) :=
  match l with
  | [] => Some (objects, input, false)
  | symbol :: l =>
      let index := Z.to_nat (archive_symbol_member symbol) in
      if (ia_extracted input !!! index) || negb (member_needed objects entry_option symbol)
      then extract_member l objects entry_option input
      else
        let member := members (ia_archive input) !!! index in
        match cvm_object_decode (file_of (member_data member)) with
        | POk object =>
            objects ← append_object objects object;
            Some (objects, mkInputArchive (ia_archive input) (<[index := true]> (ia_extracted input)), true)
        | _ => None
        end
  end.

(** One pass over the archives. *)
Fixpoint extract_pass (archives : list InputArchive) (objects : list CvmObjectFile) (entry_option : option (list Z))
    (progress : bool) : option (list CvmObjectFile * list InputArchive * bool) :=
  match archives with
  | [] => Some (objects, [], progress)
  | input :: archives =>
      '(objects, input, found) ← extract_member (archive_symbols (ia_archive input)) objects entry_option input;
      '(objects, archives, progress) ← extract_pass archives objects entry_option (progress || found);
      Some (objects, input :: archives, progress)
  end.

(** [do ... while (progress)] *)
Fixpoint extract_loop (fuel : nat) (archives : list InputArchive) (objects : list CvmObjectFile)
    (entry_option : option (list Z)) : option (list CvmObjectFile) :=
  match fuel with
  | O => None
  | S fuel =>
      '(objects, archives, progress) ← extract_pass archives objects entry_option false;
      if progress : bool then extract_loop fuel archives objects entry_option else Some objects
  end.

Definition member_total (archives : list InputArchive) : nat :=
  sum_list_with (fun a => length (ia_extracted a)) archives.

(** Every pass that makes progress extracts a member. *)
Definition extract_archives (archives : list InputArchive) (objects : list CvmObjectFile) (entry_option : option (list Z)) :
    option (list CvmObjectFile) :=
  extract_loop (S (member_total archives)) archives objects entry_option.

(** ** The linker *)

(** [read_magic] and the reader it selects. *)
Fixpoint read_inputs (files : list RAM) (objects : list CvmObjectFile) (archives : list InputArchive) :
    option (list CvmObjectFile * list InputArchive) :=
  match files with
  | [] => Some (objects, archives)
  | file :: files =>
      match fetch file 0 8 with
      | POk magic =>
          if bool_decide (magic = CVM_OBJECT_MAGIC) then
            match cvm_object_decode file with
            | POk object => objects ← append_object objects object; read_inputs files objects archives
            | _ => None
            end
          else if bool_decide (magic = CVM_ARCHIVE_MAGIC) then
            match cvm_archive_decode file with
            | POk archive =>
                read_inputs files objects (archives ++ [mkInputArchive archive (replicate (length (members archive)) false)])
            | _ => None
            end
          else None
      | _ => None
      end
  end.

Definition initial_outputs : list OutputSection :=
  let o n flags nobits := mkOutput (output_section_names !!! n) 0 0 0 (zeroed 0) flags nobits in
  [o 0%nat (Z.lor CVM_SEGMENT_READ CVM_SEGMENT_EXECUTE) false;
   o 1%nat CVM_SEGMENT_READ false;
   o 2%nat (Z.lor CVM_SEGMENT_READ CVM_SEGMENT_WRITE) false;
   o 3%nat (Z.lor CVM_SEGMENT_READ CVM_SEGMENT_WRITE) true].

(** The entry symbol must lie in [.text]. *)
Definition entry_in_text (objects : list CvmObjectFile) (definition : GlobalDefinition) : bool :=
  let object := objects !!! gd_object_index definition in
  let symbol := symbol_at objects (gd_object_index definition) (gd_symbol_index definition) in
  negb ((symbol_section_index symbol =? CVM_OBJECT_ABSOLUTE_SECTION) ||
        (section_count object <=? symbol_section_index symbol) ||
        negb (bool_decide (output_section_index
          (section_name (sections object !!! Z.to_nat (symbol_section_index symbol))) = Some O))).

(** From the objects to the laid out and patched sections and the entry address. *)
Definition link_sections (objects : list CvmObjectFile) (entry_option : option (list Z)) (base : Z) :
    option (list OutputSection * Z) :=
  if (length objects =? 0)%nat then None
  else
    '(globals, object_entry) ← collect_globals objects;
    entry_name ← match entry_option with Some name => Some name | None => object_entry end;
    entry_global ← global_index globals entry_name;
    if negb (entry_in_text objects (globals !!! entry_global)) then None
    else
      '(outputs, placements) ← locate_sections objects base initial_outputs;
      '(globals, outputs) ← allocate_common_symbols globals outputs;
      outputs ← apply_relocations objects globals placements outputs;
      let definition := globals !!! entry_global in
      entry ← symbol_address objects globals placements outputs address_fuel (gd_object_index definition)
                (gd_symbol_index definition);
      Some (outputs, entry).

Definition link_files (files : list RAM) (entry_option : option (list Z)) (base : Z) (relocatable : bool) : option RAM :=
  if negb (Z.land base (PAGE_ALIGNMENT - 1) =? 0) then None
  else
    '(objects, archives) ← read_inputs files [] [];
    objects ← extract_archives archives objects entry_option;
    '(outputs, entry) ← link_sections objects entry_option base;
    write_image outputs entry base relocatable.
