(* ===== verification/LinkerSymbols.v ===== *)
(** Global symbol resolution of the linker: [collect_globals] decides whether
    the objects can be linked and finds, for every name, the definition that
    the rules of the object format select. *)

From S2P Require Import Prelude Ram Image ObjectFormat ArchiveFormat BootFormat Linker.
From Stdlib Require Import ZArith Lia Bool.
From stdpp Require Import base list numbers gmap option.

#[local] Open Scope Z_scope.

(** ** The rules *)

(** A symbol with the indices of its object and of its place in it. *)
Definition Located : Type := nat * nat * CvmObjectSymbol.

Fixpoint number_symbols (k i : nat) (l : list CvmObjectSymbol) : list Located :=
  match l with [] => [] | s :: l => (k, i, s) :: number_symbols k (S i) l end.

Fixpoint number_objects (k : nat) (l : list CvmObjectFile) : list Located :=
  match l with [] => [] | o :: l => number_symbols k 0 (symbols o) ++ number_objects (S k) l end.

(** Every symbol of the objects, in the order of the command line. *)
Definition all_symbols (objects : list CvmObjectFile) : list Located := number_objects 0 objects.

(** [x] offers a definition of [name]. *)
Definition offers (name : list Z) (x : Located) : Prop :=
  is_global x.2 = true /\ (is_defined x.2 || is_common x.2) = true /\ symbol_name x.2 = name.
#[export] Instance offers_dec name x : Decision (offers name x) := _.

Definition strong (x : Located) : bool := negb (is_common x.2) && negb (is_weak x.2).

Definition global_of (x : Located) : GlobalDefinition := new_global x.1.1 x.1.2 x.2.

(** Commons are merged to the largest size and the largest alignment. *)
Definition common_of (x : Located) (l : list Located) : GlobalDefinition :=
  mkGlobal (symbol_name x.2) x.1.1 x.1.2 true
    (fold_left Z.max ((fun y : Located => symbol_size y.2) <$> l) (symbol_size x.2))
    (fold_left Z.max ((fun y : Located => symbol_value y.2) <$> l) (symbol_value x.2)) 0.

(** Among the definitions offered for a name, a strong one is selected; when
    there is none, the commons together; otherwise the first weak one. *)
Definition select (l : list Located) : option GlobalDefinition :=
  match filter (fun x => strong x = true) l with
  | x :: _ => Some (global_of x)
  | [] =>
      match filter (fun x : Located => is_common x.2 = true) l with
      | x :: rest => Some (common_of x rest)
      | [] => global_of <$> head l
      end
  end.

Definition offered (l : list Located) (name : list Z) : list Located := filter (offers name) l.

(** At most one strong definition of every name. *)
Definition one_strong (l : list Located) : Prop :=
  forall name, (length (filter (fun x => strong x = true) (offered l name)) <= 1)%nat.

(** The names of the symbols marked as entry. *)
Definition entry_names (l : list Located) : list (list Z) :=
  (fun x : Located => symbol_name x.2) <$> filter (fun x : Located => is_entry x.2 = true) l.
Definition one_entry (l : list Located) : Prop := forall n m, n ∈ entry_names l -> m ∈ entry_names l -> n = m.

(** Every reference that is not weak is offered a definition. *)
Definition all_resolved (l : list Located) : Prop :=
  forall x, x ∈ l -> (is_defined x.2 || is_common x.2) = false -> is_weak x.2 = false -> offered l (symbol_name x.2) <> [].

Definition linkable (objects : list CvmObjectFile) : Prop :=
  one_strong (all_symbols objects) /\ one_entry (all_symbols objects) /\ all_resolved (all_symbols objects).

(** The definition that a table of globals has for a name. *)
Definition global_at (globals : list GlobalDefinition) (name : list Z) : option GlobalDefinition :=
  i ← global_index globals name; globals !! i.

(** ** Searching *)

Section index_where.
  Context {A : Type} (test : A -> bool).

Lemma index_where_Some l i : index_where test l = Some i -> exists x, l !! i = Some x /\ test x = true.
Proof.
  revert i. induction l as [|y l IH]; intros i; cbn; [done|]. destruct (test y) eqn:E.
  - intros [= <-]. by exists y.
  - destruct (index_where test l) as [j|]; [|done]. intros [= <-]. by apply IH.
Qed.

Lemma index_where_None l : index_where test l = None <-> forall x, x ∈ l -> test x = false.
Proof.
  induction l as [|y l IH]; cbn; [split; [intros _ x Hx; by apply elem_of_nil in Hx|done]|].
  destruct (test y) eqn:E.
  - split; [done|]. intros H. specialize (H y (list_elem_of_here _ _)). congruence.
  - destruct (index_where test l) as [j|] eqn:F; cbn.
    + split; [done|]. intros H. exfalso. assert (Some j = None) as G by (apply IH; intros x Hx; by apply H, list_elem_of_further). done.
    + split; [|done]. intros _ x [->|Hx]%elem_of_cons; [done|]. by apply IH.
Qed.

Lemma index_where_app l l' :
  index_where test (l ++ l') =
    match index_where test l with Some i => Some i | None => Nat.add (length l) <$> index_where test l' end.
Proof.
  induction l as [|y l IH]; cbn; [by destruct (index_where test l')|]. destruct (test y); [done|]. rewrite IH.
  destruct (index_where test l), (index_where test l'); done.
Qed.

Lemma index_where_insert l i x y :
  l !! i = Some x -> test y = test x -> index_where test (<[i := y]> l) = index_where test l.
Proof.
  revert i. induction l as [|z l IH]; intros [|i] Hi E; try done.
  - injection Hi as ->. cbn. by rewrite E.
  - change (<[S i := y]> (z :: l)) with (z :: <[i := y]> l). cbn [index_where]. by rewrite (IH i Hi E).
Qed.
End index_where.

Lemma global_index_Some globals name i :
  global_index globals name = Some i -> exists g, globals !! i = Some g /\ gd_name g = name.
Proof. intros (g & H1 & H2)%index_where_Some. apply bool_decide_eq_true in H2. by exists g. Qed.

Lemma global_at_None globals name : global_at globals name = None <-> global_index globals name = None.
Proof.
  unfold global_at. destruct (global_index globals name) as [i|] eqn:E; [|done].
  apply global_index_Some in E as (g & E & _). cbn. by rewrite E.
Qed.

Lemma global_at_Some globals name g :
  global_at globals name = Some g -> exists i, global_index globals name = Some i /\ globals !! i = Some g /\ gd_name g = name.
Proof.
  unfold global_at. destruct (global_index globals name) as [i|] eqn:E; [|done]. cbn. intros H. exists i.
  destruct (global_index_Some _ _ _ E) as (g' & H' & En). split_and!; [done|done|congruence].
Qed.

(** A new name at the end, and a new definition of a name that is there. *)
Lemma global_at_app globals g name :
  global_at globals (gd_name g) = None ->
  global_at (globals ++ [g]) name = if decide (gd_name g = name) then Some g else global_at globals name.
Proof.
  intros Hn. destruct (decide (gd_name g = name)) as [<-|Hne].
  - apply global_at_None in Hn. unfold global_at, global_index in *. rewrite index_where_app, Hn. cbn.
    rewrite bool_decide_eq_true_2 by done. cbn. rewrite Nat.add_0_r, lookup_app_r, Nat.sub_diag by lia. done.
  - unfold global_at, global_index. rewrite index_where_app.
    destruct (index_where _ globals) as [i|] eqn:E.
    + cbn. destruct (index_where_Some _ _ _ E) as (x & Hx & _). rewrite lookup_app_l; [done|].
      by eapply lookup_lt_Some.
    + cbn. by rewrite bool_decide_eq_false_2.
Qed.

Lemma global_at_insert globals i g g' name :
  global_index globals (gd_name g) = Some i -> gd_name g' = gd_name g ->
  global_at (<[i := g']> globals) name = if decide (gd_name g = name) then Some g' else global_at globals name.
Proof.
  intros Hi En. destruct (global_index_Some _ _ _ Hi) as (x & Hx & Ex).
  assert (global_index (<[i := g']> globals) name = global_index globals name) as Eidx.
  { unfold global_index. apply (index_where_insert _ _ _ x); [done|]. by rewrite En, Ex. }
  unfold global_at. rewrite Eidx. destruct (decide (gd_name g = name)) as [<-|Hne].
  - rewrite Hi. cbn. apply list_lookup_insert_eq. by eapply lookup_lt_Some.
  - destruct (global_index globals name) as [j|] eqn:Ej; [|done]. cbn. apply list_lookup_insert_ne. intros ->.
    destruct (global_index_Some _ _ _ Ej) as (y & Hy & Ey). congruence.
Qed.

(** ** The table after a prefix of the symbols *)

Lemma filter_snoc {A} (P : A -> Prop) `{forall x, Decision (P x)} l x :
  filter P (l ++ [x]) = filter P l ++ (if decide (P x) then [x] else []).
Proof. rewrite list.filter_app. cbn. by destruct (decide (P x)). Qed.

Lemma offered_snoc l x name : offered (l ++ [x]) name = offered l name ++ (if decide (offers name x) then [x] else []).
Proof. apply filter_snoc. Qed.

(** How strong a selected definition is. *)
Definition strength (x : Located) : Z := rank (is_common x.2) (is_weak x.2).

Lemma strength_strong x : (strength x =? 3) = strong x.
Proof. unfold strength, rank, strong. destruct (is_common x.2), (is_weak x.2); done. Qed.

Lemma strength_3 x : strength x = 3 <-> strong x = true.
Proof. rewrite <- strength_strong. by rewrite Z.eqb_eq. Qed.

(** The definition selected from [l ++ [x]], by cases on what [l] selects. *)
Inductive selects : list Located -> GlobalDefinition -> Prop :=
| selects_strong l x rest : filter (fun x => strong x = true) l = x :: rest -> selects l (global_of x)
| selects_common l x rest :
    filter (fun x => strong x = true) l = [] -> filter (fun x : Located => is_common x.2 = true) l = x :: rest ->
    selects l (common_of x rest)
| selects_weak x l :
    filter (fun x => strong x = true) (x :: l) = [] -> filter (fun x : Located => is_common x.2 = true) (x :: l) = [] ->
    selects (x :: l) (global_of x).

Lemma select_Some l g : select l = Some g <-> selects l g.
Proof.
  unfold select. split.
  - destruct (filter _ l) as [|x rest] eqn:E; [|intros [= <-]; by eapply selects_strong].
    destruct (filter (fun x : Located => is_common x.2 = true) l) as [|x rest] eqn:F; [|intros [= <-]; by apply selects_common].
    destruct l as [|x l]; [done|]. intros [= <-]. by apply selects_weak.
  - intros [l' x rest E|l' x rest E F|x l' E F]; by rewrite E, ?F.
Qed.

Lemma select_None l : select l = None <-> l = [].
Proof.
  split; [|by intros ->]. unfold select. destruct (filter _ l); [|done].
  destruct (filter (fun x : Located => is_common x.2 = true) l); [|done]. by destruct l.
Qed.

(** The located symbol a definition stands for. *)
Definition stands_for (objects : list CvmObjectFile) (g : GlobalDefinition) (x : Located) : Prop :=
  gd_object_index g = x.1.1 /\ gd_symbol_index g = x.1.2 /\ gd_name g = symbol_name x.2 /\
  gd_common g = is_common x.2 /\ symbol_at objects x.1.1 x.1.2 = x.2.

Lemma filter_head {A} (P : A -> Prop) `{forall x, Decision (P x)} l x rest : filter P l = x :: rest -> P x /\ x ∈ l.
Proof. intros E. apply (proj1 (list_elem_of_filter P l x)). rewrite E. apply list_elem_of_here. Qed.

Lemma filter_nil {A} (P : A -> Prop) `{forall x, Decision (P x)} l x : filter P l = [] -> x ∈ l -> ~ P x.
Proof. intros E Hx HP. assert (elem_of x (filter P l)) as H' by (by apply (proj2 (list_elem_of_filter P l x))). rewrite E in H'. by apply elem_of_nil in H'. Qed.

Lemma selects_in objects l g :
  (forall x, x ∈ l -> symbol_at objects x.1.1 x.1.2 = x.2) -> selects l g -> exists x, x ∈ l /\ stands_for objects g x.
Proof.
  intros Hl Hg. revert Hl. destruct Hg as [l' x rest E|l' x rest E F|x l' E F]; intros Hl.
  - destruct (filter_head _ _ _ _ E) as [_ Hx]. exists x. split; [done|]. repeat split; auto.
  - destruct (filter_head _ _ _ _ F) as [Hc Hx]. exists x. split; [done|]. by repeat split; auto.
  - exists x. split; [set_solver|]. repeat split. apply Hl. set_solver.
Qed.

Lemma fold_max_snoc l a b : fold_left Z.max (l ++ [b]) a = if fold_left Z.max l a <? b then b else fold_left Z.max l a.
Proof. rewrite fold_left_app. cbn. destruct (Z.ltb_spec (fold_left Z.max l a) b); lia. Qed.

Lemma common_snoc x rest y : merge_common (common_of x rest) y.2 = common_of x (rest ++ [y]).
Proof. unfold merge_common, common_of. cbn [gd_name gd_object_index gd_symbol_index gd_common gd_common_size gd_common_alignment gd_common_address]. rewrite !fmap_app. cbn [fmap list_fmap]. by rewrite !fold_max_snoc. Qed.

Lemma rank_of objects g x : stands_for objects g x ->
  rank (gd_common g) (is_weak (symbol_at objects (gd_object_index g) (gd_symbol_index g))) = strength x.
Proof. intros (-> & -> & _ & -> & ->). done. Qed.

Lemma strength_range x : strength x = 1 \/ strength x = 2 \/ strength x = 3.
Proof. unfold strength, rank. destruct (is_common x.2), (is_weak x.2); auto. Qed.

Lemma strength_common x : is_common x.2 = true <-> strength x = 2.
Proof. unfold strength, rank. destruct (is_common x.2), (is_weak x.2); split; done || lia. Qed.

(** What a further definition changes. *)
Definition combine (g : GlobalDefinition) (previous : Z) (x : Located) : GlobalDefinition :=
  if is_common x.2 && gd_common g then merge_common g x.2 else if previous <? strength x then global_of x else g.

Lemma select_snoc_new l x : l = [] -> select (l ++ [x]) = Some (global_of x).
Proof.
  intros ->. cbn [app]. unfold select, filter. cbn. destruct (decide (strong x = true)) as [|Hs]; [done|].
  destruct (decide (is_common x.2 = true)) as [Hc|]; [|done]. unfold common_of, global_of, new_global. cbn. by rewrite Hc.
Qed.

Lemma select_snoc objects l g x :
  (forall y, y ∈ l -> symbol_at objects y.1.1 y.1.2 = y.2) -> selects l g ->
  let previous := rank (gd_common g) (is_weak (symbol_at objects (gd_object_index g) (gd_symbol_index g))) in
  (previous = 3 <-> filter (fun x => strong x = true) l <> []) /\
  (previous = 3 -> strength x <> 3 -> select (l ++ [x]) = Some g /\ combine g previous x = g) /\
  (previous <> 3 -> select (l ++ [x]) = Some (combine g previous x)).
Proof.
  intros Hl Hg. cbv zeta. unfold select. rewrite !filter_snoc. pose proof (strength_range x) as Hx.
  revert Hl. destruct Hg as [l x0 rest E|l x0 rest E F|x0 l E F]; intros Hl.
  - destruct (filter_head _ _ _ _ E) as [Hs Hin]. rewrite (rank_of objects (global_of x0) x0) by (repeat split; auto).
    apply strength_3 in Hs. rewrite E, Hs. split_and!; [done| |done]. intros _ Hn. cbn [app]. split; [done|].
    unfold combine. rewrite (proj2 (Z.ltb_ge 3 (strength x))) by lia.
    assert (gd_common (global_of x0) = false) as ->; [|by rewrite andb_false_r].
    cbn. destruct (is_common x0.2) eqn:Ec; [|done]. apply strength_common in Ec. lia.
  - destruct (filter_head _ _ _ _ F) as [Hc Hin]. rewrite (rank_of objects (common_of x0 rest) x0) by (by repeat split; auto).
    apply strength_common in Hc as Hc2. rewrite E, Hc2. split_and!; [done|done|]. intros _. unfold combine. cbn [gd_common common_of app].
    rewrite andb_true_r. destruct (decide (strong x = true)) as [Hs|Hs].
    + cbn [app]. apply strength_3 in Hs. rewrite Hs. destruct (is_common x.2) eqn:Ex; [|done]. apply strength_common in Ex. lia.
    + rewrite F. cbn [app]. destruct (decide (is_common x.2 = true)) as [Ex|Ex].
      * rewrite Ex. by rewrite common_snoc.
      * apply not_true_is_false in Ex as ->. rewrite app_nil_r. rewrite <- strength_3 in Hs.
        by rewrite (proj2 (Z.ltb_ge 2 (strength x))) by lia.
  - rewrite (rank_of objects (global_of x0) x0) by (repeat split; apply Hl, list_elem_of_here). rewrite E, F.
    assert (strength x0 = 1) as ->.
    { pose proof (strength_range x0) as [H|[H|H]]; [done|..].
      - apply strength_common in H. by apply (filter_nil _ _ x0) in F; [|apply list_elem_of_here].
      - apply strength_3 in H. by apply (filter_nil _ _ x0) in E; [|apply list_elem_of_here]. }
    assert (is_common x0.2 = false) as E0. { apply not_true_is_false. by apply (filter_nil _ _ x0) in F; [|apply list_elem_of_here]. }
    split_and!; [done|done|]. intros _. unfold combine. cbn [gd_common global_of new_global]. rewrite E0, andb_false_r. cbn [app].
    destruct (decide (strong x = true)) as [Hs|Hs].
    + cbn [app]. apply strength_3 in Hs. by rewrite Hs.
    + cbn [app]. destruct (decide (is_common x.2 = true)) as [Ex|Ex].
      * apply strength_common in Ex as Es. rewrite Es. cbn. unfold common_of, global_of, new_global. cbn. by rewrite Ex.
      * cbn. rewrite (proj2 (Z.ltb_ge 1 (strength x))); [done|]. rewrite strength_common in Ex. rewrite <- strength_3 in Hs. lia.
Qed.

(** What the table holds after the symbols [seen]. *)
Record table (seen : list Located) (globals : list GlobalDefinition) (entry : option (list Z)) : Prop := {
  t_names : NoDup (gd_name <$> globals);
  t_at : forall name, global_at globals name = select (offered seen name);
  t_strong : one_strong seen;
  t_one_entry : one_entry seen;
  t_entry : entry = head (entry_names seen);
}.

Lemma entry_names_snoc l x : entry_names (l ++ [x]) = entry_names l ++ (if is_entry x.2 then [symbol_name x.2] else []).
Proof.
  unfold entry_names. rewrite filter_snoc, fmap_app. f_equal.
  destruct (decide (is_entry x.2 = true)) as [->|E]; [done|]. by apply not_true_is_false in E as ->.
Qed.

Lemma one_strong_app l l' : one_strong (l ++ l') -> one_strong l.
Proof.
  intros H name. specialize (H name). unfold offered in *. rewrite !list.filter_app, length_app in H. lia.
Qed.

Lemma one_entry_app l l' : one_entry (l ++ l') -> one_entry l.
Proof.
  intros H n m Hn Hm. apply H; unfold entry_names in *; rewrite list.filter_app, fmap_app, elem_of_app; auto.
Qed.

Lemma one_entry_snoc l x entry :
  one_entry l -> entry = head (entry_names l) ->
  let conflict := is_entry x.2 && match entry with Some name => negb (bool_decide (name = symbol_name x.2)) | None => false end in
  (conflict = true -> ~ one_entry (l ++ [x])) /\
  (conflict = false -> one_entry (l ++ [x]) /\
     (if is_entry x.2 then Some (symbol_name x.2) else entry) = head (entry_names (l ++ [x]))).
Proof.
  intros Hl ->. cbv zeta. unfold one_entry in *. rewrite entry_names_snoc. destruct (is_entry x.2); cbn [andb].
  2:{ rewrite app_nil_r. done. }
  destruct (entry_names l) as [|n names]; cbn [head].
  { split; [done|]. intros _. split; [|done]. intros a b Ha Hb. cbn in Ha, Hb. apply list_elem_of_singleton in Ha, Hb. congruence. }
  destruct (bool_decide (n = symbol_name x.2)) eqn:E; cbn [negb]; (split; [|intros ?; try done]); try done.
  - apply bool_decide_eq_true in E as <-. cbn. split; [|done]. intros a b Ha Hb. apply Hl.
    + cbn in Ha. rewrite elem_of_cons, elem_of_app, list_elem_of_singleton in Ha. rewrite elem_of_cons. tauto.
    + cbn in Hb. rewrite elem_of_cons, elem_of_app, list_elem_of_singleton in Hb. rewrite elem_of_cons. tauto.
  - intros _ H. apply bool_decide_eq_false in E. apply E, H; cbn; rewrite elem_of_cons, ?elem_of_app, ?list_elem_of_singleton; auto.
Qed.

Lemma offers_here x : is_global x.2 = true -> (is_defined x.2 || is_common x.2) = true -> offers (symbol_name x.2) x.
Proof. done. Qed.

Lemma strong_count l x name :
  (length (filter (fun x => strong x = true) (offered (l ++ [x]) name)) =
   length (filter (fun x => strong x = true) (offered l name)) + (if decide (offers name x /\ strong x = true) then 1 else 0))%nat.
Proof.
  rewrite offered_snoc. destruct (decide (offers name x)) as [Ho|Ho].
  - rewrite filter_snoc, length_app. destruct (decide (strong x = true)), (decide (offers name x /\ strong x = true)); done || tauto.
  - rewrite app_nil_r. destruct (decide _) as [[? _]|]; [done|]. lia.
Qed.

(** A symbol that offers nothing leaves the table. *)
Lemma table_skip seen globals entry x :
  table seen globals entry -> (forall name, ~ offers name x) -> one_entry (seen ++ [x]) ->
  forall entry', entry' = head (entry_names (seen ++ [x])) -> table (seen ++ [x]) globals entry'.
Proof.
  intros [H1 H2 H3 H4 H5] Hx He entry' Hh. split; [done| | |done|done].
  - intros name. rewrite offered_snoc, decide_False by apply Hx. by rewrite app_nil_r.
  - intros name. rewrite strong_count, decide_False by (intros [? _]; by eapply Hx). specialize (H3 name). lia.
Qed.

(** A symbol that offers a definition. *)
Lemma table_offer seen globals entry x globals' :
  table seen globals entry -> one_entry (seen ++ [x]) ->
  is_global x.2 = true -> (is_defined x.2 || is_common x.2) = true ->
  NoDup (gd_name <$> globals') ->
  (forall name, global_at globals' name =
     if decide (symbol_name x.2 = name) then select (offered seen name ++ [x]) else global_at globals name) ->
  (strong x = true -> filter (fun x => strong x = true) (offered seen (symbol_name x.2)) = []) ->
  forall entry', entry' = head (entry_names (seen ++ [x])) -> table (seen ++ [x]) globals' entry'.
Proof.
  intros [H1 H2 H3 H4 H5] He Hg Hd Hn Hat Hs entry' Hh. split; [done| | |done|done].
  - intros name. rewrite offered_snoc, Hat. destruct (decide (symbol_name x.2 = name)) as [<-|Hne].
    + by rewrite decide_True by by apply offers_here.
    + rewrite decide_False by (intros (_ & _ & ?); done). by rewrite app_nil_r, H2.
  - intros name. rewrite strong_count. destruct (decide _) as [[(_ & _ & <-) Hx]|]; [by rewrite Hs|]. specialize (H3 name). lia.
Qed.

Lemma names_insert (globals : list GlobalDefinition) (i : nat) g g' :
  globals !! i = Some g -> gd_name g' = gd_name g -> gd_name <$> <[i := g']> globals = gd_name <$> globals.
Proof. intros Hi E. rewrite list_fmap_insert, E. apply list_insert_id. by rewrite list_lookup_fmap, Hi. Qed.

Lemma names_app (globals : list GlobalDefinition) g :
  NoDup (gd_name <$> globals) -> global_at globals (gd_name g) = None -> NoDup (gd_name <$> (globals ++ [g])).
Proof.
  intros Hn Hg. rewrite fmap_app. apply list.NoDup_app. split_and!; [done| |apply NoDup_singleton].
  intros n Hin. apply list_elem_of_fmap in Hin as (g' & -> & Hin). cbn. rewrite list_elem_of_singleton. intros E.
  apply global_at_None in Hg. unfold global_index in Hg. rewrite index_where_None in Hg. specialize (Hg g' Hin).
  apply bool_decide_eq_false in Hg. done.
Qed.

Lemma global_of_name x : gd_name (global_of x) = symbol_name x.2.
Proof. done. Qed.

Lemma combine_name g previous x : gd_name g = symbol_name x.2 -> gd_name (combine g previous x) = gd_name g.
Proof. intros E. unfold combine. destruct (_ && _); [done|]. by destruct (_ <? _). Qed.

(** The loop body is one step of the selection. *)
Lemma collect_symbol_step objects seen globals entry x :
  table seen globals entry -> (forall y, y ∈ seen -> symbol_at objects y.1.1 y.1.2 = y.2) ->
  match collect_symbol objects x.1.1 x.1.2 x.2 globals entry with
  | Some (globals', entry') => table (seen ++ [x]) globals' entry'
  | None => ~ (one_strong (seen ++ [x]) /\ one_entry (seen ++ [x]))
  end.
Proof.
  intros HT Hat. pose proof HT as [H1 H2 H3 H4 H5].
  destruct (one_entry_snoc seen x entry H4 H5) as [Hbad Hgood]. unfold collect_symbol. cbv zeta in *.
  destruct (is_entry x.2 && _); [intros [_ He]; by apply Hbad|]. destruct (Hgood eq_refl) as [He Hh]. clear Hbad Hgood.
  destruct (_ || negb (is_global x.2)) eqn:Eskip.
  { eapply table_skip; [done| |done|done]. intros name (Hg & Hd & _). rewrite Hg, orb_false_r in Eskip.
    destruct (is_defined x.2), (is_common x.2); done. }
  apply orb_false_iff in Eskip as [Ed Eg]. apply negb_false_iff in Eg.
  assert ((is_defined x.2 || is_common x.2) = true) as Ed'. { by destruct (is_defined x.2), (is_common x.2). }
  pose proof (H2 (symbol_name x.2)) as Hsel. destruct (global_index globals (symbol_name x.2)) as [i|] eqn:Ei.
  2:{ pose proof (proj2 (global_at_None _ _) Ei) as Hn. rewrite Hn in Hsel. symmetry in Hsel. apply select_None in Hsel.
      eapply table_offer; [done|done|done|done| | |by rewrite Hsel|done].
      - by apply (names_app globals (global_of x)).
      - intros name. rewrite (global_at_app globals (global_of x)) by done. rewrite global_of_name.
        destruct (decide _) as [<-|]; [|done]. symmetry. by apply select_snoc_new. }
  destruct (global_index_Some _ _ _ Ei) as (g & Hgi & Eg'). rewrite (list_lookup_total_correct _ _ _ Hgi).
  unfold global_at in Hsel. rewrite Ei in Hsel. cbn in Hsel. rewrite Hgi in Hsel. symmetry in Hsel. apply select_Some in Hsel.
  destruct (select_snoc objects _ _ x (fun y Hy => Hat y (proj2 (proj1 (list_elem_of_filter _ _ _) Hy))) Hsel)
    as (Hp3 & Hkeep & Hnew).
  change (filter (offers (symbol_name x.2)) seen) with (offered seen (symbol_name x.2)) in *.
  fold (strength x). set (previous := rank (gd_common g) _) in *.
  assert (forall g', select (offered seen (symbol_name x.2) ++ [x]) = Some g' -> gd_name g' = gd_name g ->
            (strong x = true -> filter (fun x => strong x = true) (offered seen (symbol_name x.2)) = []) ->
            forall entry', entry' = head (entry_names (seen ++ [x])) -> table (seen ++ [x]) (<[i := g']> globals) entry') as Hput.
  { intros g' Hg' En Hs entry' He'. eapply table_offer; [done|done|done|done| | |done|done].
    - by rewrite (names_insert _ _ g).
    - intros name. rewrite (global_at_insert _ _ g g' name); [|by rewrite Eg'|done]. rewrite Eg'.
      destruct (decide _) as [<-|]; done. }
  destruct ((strength x =? 3) && (previous =? 3)) eqn:E33.
  { intros [Hs _]. apply andb_true_iff in E33 as [Ex3 Ep3]. rewrite strength_strong in Ex3. apply Z.eqb_eq in Ep3.
    apply Hp3 in Ep3. specialize (Hs (symbol_name x.2)). rewrite strong_count in Hs.
    rewrite decide_True in Hs by (split; [by apply offers_here|done]).
    destruct (filter (fun x => strong x = true) (offered seen (symbol_name x.2))); [done|cbn in Hs; lia]. }
  assert (strong x = true -> filter (fun x => strong x = true) (offered seen (symbol_name x.2)) = []) as Hs.
  { intros Hs. rewrite <- strength_strong in Hs. rewrite Hs in E33. cbn [andb] in E33.
    destruct (filter _ (offered seen _)) eqn:Ef; [done|]. exfalso. apply Z.eqb_neq in E33. by apply E33, Hp3. }
  assert (select (offered seen (symbol_name x.2) ++ [x]) = Some (combine g previous x)) as Hc.
  { destruct (Z.eq_dec previous 3) as [Ep|Ep]; [|by apply Hnew].
    assert (strength x <> 3) as Hx3. { intros Ex. rewrite Ex, Ep in E33. done. }
    destruct (Hkeep Ep Hx3) as [Hk1 Hk2]. rewrite Hk2. exact Hk1. }
  specialize (Hput _ Hc (combine_name _ _ _ Eg') Hs _ Hh). unfold combine in Hput.
  destruct (is_common x.2 && gd_common g); [done|]. destruct (previous <? strength x); [done|].
  by rewrite list_insert_id in Hput.
Qed.

(** ** All the symbols *)

Fixpoint collect_all (objects : list CvmObjectFile) (l : list Located) (globals : list GlobalDefinition)
    (entry : option (list Z)) : option (list GlobalDefinition * option (list Z)) :=
  match l with
  | [] => Some (globals, entry)
  | x :: l => '(globals, entry) ← collect_symbol objects x.1.1 x.1.2 x.2 globals entry; collect_all objects l globals entry
  end.

Lemma collect_all_app objects l l' globals entry :
  collect_all objects (l ++ l') globals entry =
    '(globals, entry) ← collect_all objects l globals entry; collect_all objects l' globals entry.
Proof.
  revert globals entry. induction l as [|x l IH]; intros globals entry; cbn; [done|].
  destruct (collect_symbol _ _ _ _ _ _) as [[g e]|]; [|done]. apply IH.
Qed.

Lemma collect_symbols_all objects k i l globals entry :
  collect_symbols objects k i l globals entry = collect_all objects (number_symbols k i l) globals entry.
Proof.
  revert i globals entry. induction l as [|s l IH]; intros i globals entry; cbn; [done|].
  destruct (collect_symbol _ _ _ _ _ _) as [[g e]|]; [|done]. apply IH.
Qed.

Lemma collect_objects_all objects k l globals entry :
  collect_objects objects k l globals entry = collect_all objects (number_objects k l) globals entry.
Proof.
  revert k globals entry. induction l as [|o l IH]; intros k globals entry; cbn; [done|].
  rewrite collect_all_app, collect_symbols_all. destruct (collect_all _ _ _ _) as [[g e]|]; [|done]. apply IH.
Qed.

Lemma number_symbols_elem k i l x :
  x ∈ number_symbols k i l <-> x.1.1 = k /\ (i <= x.1.2)%nat /\ l !! (x.1.2 - i)%nat = Some x.2.
Proof.
  revert i. induction l as [|s l IH]; intros i; cbn [number_symbols].
  { rewrite elem_of_nil. split; [done|]. intros (_ & _ & H). by rewrite lookup_nil in H. }
  rewrite elem_of_cons, IH. destruct x as [[k' i'] s']. cbn. split.
  - intros [[= -> -> ->]|(-> & Hi & H)]; [by rewrite Nat.sub_diag|]. split_and!; [done|lia|].
    by replace (i' - i)%nat with (S (i' - S i))%nat by lia.
  - intros (-> & Hi & H). destruct (decide (i' = i)) as [->|Hne].
    + rewrite Nat.sub_diag in H. left. by injection H as ->.
    + right. split_and!; [done|lia|]. by replace (i' - i)%nat with (S (i' - S i))%nat in H by lia.
Qed.

Lemma number_objects_elem k l x :
  x ∈ number_objects k l <->
    (k <= x.1.1)%nat /\ exists o, l !! (x.1.1 - k)%nat = Some o /\ symbols o !! x.1.2 = Some x.2.
Proof.
  revert k. induction l as [|o l IH]; intros k; cbn [number_objects].
  { rewrite elem_of_nil. split; [done|]. intros (_ & o & H & _). by rewrite lookup_nil in H. }
  rewrite elem_of_app, IH, number_symbols_elem, Nat.sub_0_r. split.
  - intros [(<- & _ & H)|(Hk & o' & H & Hs)].
    + split; [lia|]. exists o. by rewrite Nat.sub_diag.
    + split; [lia|]. exists o'. split; [|done]. by replace (x.1.1 - k)%nat with (S (x.1.1 - S k))%nat by lia.
  - intros (Hk & o' & H & Hs). destruct (decide (x.1.1 = k)) as [E|Hne].
    + left. rewrite E, Nat.sub_diag in H. injection H as ->. split_and!; [done|lia|done].
    + right. split; [lia|]. exists o'. split; [|done]. by replace (x.1.1 - k)%nat with (S (x.1.1 - S k))%nat in H by lia.
Qed.

(** The located symbols are the symbols of the objects. *)
Lemma all_symbols_elem objects x :
  x ∈ all_symbols objects <-> exists o, objects !! x.1.1 = Some o /\ symbols o !! x.1.2 = Some x.2.
Proof.
  unfold all_symbols. rewrite number_objects_elem, Nat.sub_0_r. split; [by intros [_ ?]|]. intros H. split; [lia|done].
Qed.

Lemma all_symbols_at objects x : x ∈ all_symbols objects -> symbol_at objects x.1.1 x.1.2 = x.2.
Proof.
  intros (o & Ho & Hs)%all_symbols_elem. unfold symbol_at.
  by rewrite (list_lookup_total_correct _ _ _ Ho), (list_lookup_total_correct _ _ _ Hs).
Qed.

Lemma collect_all_table objects seen l globals entry :
  table seen globals entry -> (forall y, y ∈ seen ++ l -> symbol_at objects y.1.1 y.1.2 = y.2) ->
  match collect_all objects l globals entry with
  | Some (globals', entry') => table (seen ++ l) globals' entry'
  | None => ~ (one_strong (seen ++ l) /\ one_entry (seen ++ l))
  end.
Proof.
  revert seen globals entry. induction l as [|x l IH]; intros seen globals entry HT Hat; cbn [collect_all].
  { by rewrite app_nil_r. }
  pose proof (collect_symbol_step objects seen globals entry x HT) as Hstep.
  assert (seen ++ x :: l = (seen ++ [x]) ++ l) as E by (by rewrite <- app_assoc). rewrite E in *.
  specialize (Hstep ltac:(intros y Hy; apply Hat; rewrite !elem_of_app; auto)).
  destruct (collect_symbol _ _ _ _ _ _) as [[g e]|]; cbn.
  - by apply IH.
  - intros [H1 H2]. apply Hstep. split; [by eapply one_strong_app|by eapply one_entry_app].
Qed.

Lemma table_nil : table [] [] None.
Proof. split; try done; [constructor|intros name; cbn; lia|intros n m Hn; by apply elem_of_nil in Hn]. Qed.

(** The check for unresolved references. *)
Lemma unresolved_spec objects globals :
  (forall name, global_at globals name = select (offered (all_symbols objects) name)) ->
  existsb (fun o => existsb (unresolved globals) (symbols o)) objects = false <-> all_resolved (all_symbols objects).
Proof.
  intros Hat. assert (forall s, unresolved globals s = true <->
    (is_defined s || is_common s) = false /\ is_weak s = false /\ offered (all_symbols objects) (symbol_name s) = []) as Hu.
  { intros s. unfold unresolved. rewrite !andb_true_iff, !negb_true_iff, <- select_None, <- Hat, global_at_None.
    destruct (global_index globals (symbol_name s)); split; intros H; try tauto; destruct_and?; done. }
  split.
  - intros H x Hx Hd Hw Hnil. apply all_symbols_elem in Hx as (o & Ho & Hs).
    assert (existsb (fun o => existsb (unresolved globals) (symbols o)) objects = true) as Ht; [|congruence].
    apply existsb_exists. exists o. split; [apply list_elem_of_In; by eapply list_elem_of_lookup_2|].
    apply existsb_exists. exists x.2. split; [apply list_elem_of_In; by eapply list_elem_of_lookup_2|]. by apply Hu.
  - intros H. apply not_true_is_false. intros (o & Ho & Hs)%existsb_exists. apply existsb_exists in Hs as (s & Hs & Hun).
    apply list_elem_of_In, list_elem_of_lookup in Ho as [k Ho]. apply list_elem_of_In, list_elem_of_lookup in Hs as [i Hs].
    apply Hu in Hun as (Hd & Hw & Hnil). refine (H (k, i, s) _ Hd Hw Hnil). apply all_symbols_elem. by exists o.
Qed.

Lemma collect_globals_table objects globals entry :
  collect_globals objects = Some (globals, entry) ->
  table (all_symbols objects) globals entry /\ all_resolved (all_symbols objects).
Proof.
  unfold collect_globals. rewrite collect_objects_all.
  pose proof (collect_all_table objects [] (number_objects 0 objects) [] None table_nil (all_symbols_at objects)) as H.
  fold (all_symbols objects) in H |- *. cbn [app] in H. destruct (collect_all _ _ _ _) as [[g e]|]; cbn; [|done].
  pose proof (unresolved_spec objects g (t_at _ _ _ H)) as Hu. destruct (existsb _ objects); [done|]. intros [= <- <-].
  split; [done|]. by apply Hu.
Qed.

Lemma collect_globals_none objects : collect_globals objects = None -> ~ linkable objects.
Proof.
  unfold collect_globals, linkable. rewrite collect_objects_all.
  pose proof (collect_all_table objects [] (number_objects 0 objects) [] None table_nil (all_symbols_at objects)) as H.
  fold (all_symbols objects) in H |- *. cbn [app] in H. destruct (collect_all _ _ _ _) as [[g e]|]; cbn; [|tauto].
  pose proof (unresolved_spec objects g (t_at _ _ _ H)) as Hu. destruct (existsb _ objects); [|done].
  intros _ (_ & _ & Hr). by apply Hu in Hr.
Qed.

(** C23: symbol resolution is exact.  [collect_globals] accepts the objects if
    and only if no name has two strong definitions, the entry marks agree and
    every reference that is not weak has a definition; and then its table has
    one row per defined name, with the definition the rules select: the strong
    one, else the commons merged to their largest size and alignment, else the
    first weak one; the entry name is the one that is marked. *)
Theorem collect_globals_exact objects :
  match collect_globals objects with
  | Some (globals, entry) =>
      linkable objects /\ NoDup (gd_name <$> globals) /\
      (forall name, global_at globals name = select (offered (all_symbols objects) name)) /\
      entry = head (entry_names (all_symbols objects))
  | None => ~ linkable objects
  end.
Proof.
  destruct (collect_globals objects) as [[globals entry]|] eqn:E; [|by apply collect_globals_none].
  apply collect_globals_table in E as [[H1 H2 H3 H4 H5] Hr]. done.
Qed.
