(* ===== verification/LinkerLayout.v ===== *)
(** The layout the linker gives to the sections of its objects: where
    [locate_sections] puts them, that they do not overlap, and what their
    bytes are. *)

From S2P Require Import Prelude Ram Image ObjectFormat ArchiveFormat BootFormat Linker.
From Stdlib Require Import ZArith Lia Bool.
From stdpp Require Import base list numbers gmap option.

#[local] Open Scope Z_scope.

(** ** Alignment *)

Lemma align_up_spec value alignment r :
  is_u64 value -> is_u64 alignment -> align_up value alignment = Some r ->
  value <= r < value + alignment /\ is_u64 r /\ r mod alignment = 0 /\ 0 < alignment.
Proof.
  intros Hv Ha. unfold align_up. destruct (Z.eqb_spec alignment 0) as [|Hnz]; [done|]. cbn [orb].
  destruct (Z.eqb_spec (Z.land alignment (alignment - 1)) 0) as [Hl|]; [|done]. cbn [negb].
  unfold is_u64 in *. apply land_pred_pow2 in Hl as (k & Hk & ->); [|lia].
  set (a := 2 ^ k) in *. destruct (Z.ltb_spec (UINT64_MAX - (a - 1)) value) as [|Hle]; [done|].
  change UINT64_MAX with (2 ^ 64 - 1) in Hle. intros [= <-]. rewrite wrap64_id by (unfold is_u64; lia).
  assert (Z.land (value + (a - 1)) (not64 (a - 1)) = (value + (a - 1)) / a * a) as ->.
  { rewrite land_not64 by (unfold is_u64; lia). replace (a - 1) with (Z.ones k) at 2 by (rewrite Z.ones_equiv; unfold a; lia).
    rewrite Z.ldiff_ones_r, Z.shiftr_div_pow2, Z.shiftl_mul_pow2 by lia. done. }
  pose proof (Z.div_mod (value + (a - 1)) a ltac:(lia)). pose proof (Z.mod_pos_bound (value + (a - 1)) a ltac:(lia)).
  split_and!; [lia..|apply Z.mod_mul; lia|lia].
Qed.

(** The first page boundary at or above [x]. *)
Definition page_up (x : Z) : Z := (x + 4095) / 4096 * 4096.

Lemma page_up_unique x r : x <= r < x + 4096 -> r mod 4096 = 0 -> r = page_up x.
Proof.
  intros Hr Hm. unfold page_up. apply Z.mod_divide in Hm as [q ->]; [|lia].
  f_equal. apply Z.div_unique with (r := x + 4095 - q * 4096); lia.
Qed.

Lemma page_up_id x : x mod 4096 = 0 -> page_up x = x.
Proof. intros Hx. symmetry. apply page_up_unique; [lia|done]. Qed.

(** ** Sections of one object *)

(** The output section a section goes to. *)
Definition goes_to (o : nat) (s : CvmObjectSection) : Prop := output_section_index (section_name s) = Some o.

Lemma find_section_spec o l input found r :
  find_section o l input found = Some r ->
  match found, r with
  | Some n, _ => r = Some n /\ forall m t, l !! m = Some t -> ~ goes_to o t
  | None, None => forall m t, l !! m = Some t -> ~ goes_to o t
  | None, Some n => (input <= n)%nat /\
      exists s, l !! (n - input)%nat = Some s /\ goes_to o s /\
                forall m t, l !! m = Some t -> goes_to o t -> m = (n - input)%nat
  end.
Proof.
  revert input found. induction l as [|s l IH]; intros input found; cbn [find_section].
  { intros [= <-]. destruct found as [n|]; [split; [done|]|]; intros m t H; by rewrite lookup_nil in H. }
  destruct (bool_decide _) eqn:E.
  - apply bool_decide_eq_true in E. destruct found as [n|]; [done|]. intros H. apply IH in H as [-> Hno].
    split; [done|]. exists s. rewrite Nat.sub_diag. split_and!; [done|done|]. intros [|m] t Ht Hg; [done|].
    cbn in Ht. by apply Hno in Ht.
  - apply bool_decide_eq_false in E. intros H. apply IH in H. destruct found as [n|].
    + destruct H as [-> Hno]. split; [done|]. intros [|m] t Ht; [by injection Ht as <-|]. by apply (Hno m).
    + destruct r as [n|].
      * destruct H as (Hn & s' & Hs & Hg & Hu). split; [lia|]. exists s'.
        replace (n - input)%nat with (S (n - S input))%nat by lia. split_and!; [done|done|].
        intros [|m] t Ht Hgt; [by injection Ht as <-|]. f_equal. by apply (Hu m t).
      * intros [|m] t Ht; [by injection Ht as <-|]. by apply (H m).
Qed.

Lemma find_section_found o object n :
  find_section o (sections object) 0 None = Some (Some n) ->
  exists s, sections object !! n = Some s /\ goes_to o s /\
            forall m t, sections object !! m = Some t -> goes_to o t -> m = n.
Proof. intros (_ & s & H)%find_section_spec. exists s. by rewrite Nat.sub_0_r in H. Qed.

Lemma find_section_absent o object m t :
  find_section o (sections object) 0 None = Some None -> sections object !! m = Some t -> ~ goes_to o t.
Proof. intros H%find_section_spec. apply H. Qed.

(** ** One output section *)

(** [p] is where the section of [object] for output [o] lies between [lo] and [hi]. *)
Record placed (o : nat) (nobits : bool) (object : CvmObjectFile) (lo hi : Z) (p : Placement) (s : CvmObjectSection) : Prop := {
  pd_section : sections object !! pl_input_section p = Some s;
  pd_goes : goes_to o s;
  pd_only : forall m t, sections object !! m = Some t -> goes_to o t -> m = pl_input_section p;
  pd_present : pl_present p = true;
  pd_nobits : has_bits (section_flags s) CVM_OBJECT_SECTION_NOBITS = nobits;
  pd_aligned : pl_offset p mod section_alignment s = 0;
  pd_inside : lo <= pl_offset p /\ pl_offset p + section_memory_size s <= hi;
}.

Lemma placed_weaken o nobits object lo hi lo' hi' p s :
  placed o nobits object lo hi p s -> lo' <= lo -> hi <= hi' -> placed o nobits object lo' hi' p s.
Proof. intros [H1 H2 H3 H4 H5 H6 [H7 H8]] Hl Hh. split; try done. lia. Qed.

(** What the loop over the objects [l], the first of index [k], leaves in the placements. *)
Record placing (o : nat) (nobits : bool) (l : list CvmObjectFile) (k : nat) (lo hi : Z) (before after : list Placement) : Prop := {
  pg_length : length after = length before;
  pg_other : forall i, (forall j, (j < length l)%nat -> i <> placement_index (k + j) o) -> after !! i = before !! i;
  pg_range : lo <= hi /\ is_u64 hi;
  pg_here : forall j object, l !! j = Some object ->
    match find_section o (sections object) 0 None with
    | None => False
    | Some None => after !! placement_index (k + j) o = before !! placement_index (k + j) o
    | Some (Some n) => exists p s, pl_input_section p = n /\ after !! placement_index (k + j) o = Some p /\
        placed o nobits object lo hi p s
    end;
  pg_apart : forall i j a b p q s t, (i < j)%nat -> l !! i = Some a -> l !! j = Some b ->
    after !! placement_index (k + i) o = Some p -> after !! placement_index (k + j) o = Some q ->
    placed o nobits a lo hi p s -> placed o nobits b lo hi q t -> 
    pl_offset p + section_memory_size s <= pl_offset q;
}.

Lemma placement_index_inj i o j u : (o < 4)%nat -> (u < 4)%nat -> placement_index i o = placement_index j u -> i = j /\ o = u.
Proof. unfold placement_index, OUTPUT_SECTION_COUNT. lia. Qed.

Lemma placed_found o nobits object lo hi p s :
  placed o nobits object lo hi p s -> forall r, find_section o (sections object) 0 None = Some r -> r = Some (pl_input_section p).
Proof.
  intros [H1 H2 H3 _ _ _ _] [n|] Hr.
  - apply find_section_found in Hr as (s' & Hs' & Hg & _). f_equal. by eapply H3.
  - by eapply find_section_absent in Hr.
Qed.

(** A placement that was there before the loop is not confused with the ones it makes. *)
Lemma placing_placed o nobits l k lo hi before after j object q t lo' hi' :
  placing o nobits l k lo hi before after -> l !! j = Some object -> after !! placement_index (k + j) o = Some q ->
  placed o nobits object lo' hi' q t -> placed o nobits object lo hi q t.
Proof.
  intros HP Hj Hq Ht. pose proof (pg_here _ _ _ _ _ _ _ _ HP j object Hj) as H.
  destruct (find_section _ _ _ _) as [r|] eqn:Er; [|done]. pose proof (placed_found _ _ _ _ _ _ _ Ht _ Er) as ->.
  destruct H as (p & s & Hn & Hp & Hpl). assert (p = q) as -> by congruence.
  pose proof (pd_section _ _ _ _ _ _ _ Hpl) as E1. pose proof (pd_section _ _ _ _ _ _ _ Ht) as E2. congruence.
Qed.

Lemma placing_nil o nobits k cursor before : is_u64 cursor -> placing o nobits [] k cursor cursor before before.
Proof. intros Hc. split; try done; lia. Qed.

(** An object without a section for this output. *)
Lemma placing_skip o nobits object l k lo hi before after :
  (o < 4)%nat -> find_section o (sections object) 0 None = Some None ->
  placing o nobits l (S k) lo hi before after -> placing o nobits (object :: l) k lo hi before after.
Proof.
  intros Ho Hf HP. pose proof HP as [H1 H2 H3 H4 H5].
  assert (forall i, (k + S i = S k + i)%nat) as Ek by lia. split; [done| |done| |].
  - intros i Hi. apply H2. intros j Hj. specialize (Hi (S j)). rewrite Ek in Hi. apply Hi. cbn. lia.
  - intros [|j] ob Hob; [|rewrite Ek; by apply H4]. injection Hob as <-. rewrite Hf, Nat.add_0_r.
    apply H2. intros j Hj E. apply placement_index_inj in E; lia.
  - intros [|i] [|j] a b p q s t Hij Ha Hb Hp Hq Hs Ht; try lia.
    + injection Ha as <-. by pose proof (placed_found _ _ _ _ _ _ _ Hs _ Hf).
    + rewrite Ek in Hp, Hq. apply (H5 i j a b p q s t); try done; lia.
Qed.

(** An object whose section is put at [offset]. *)
Lemma placing_cons o nobits object l k lo hi p s before after :
  (o < 4)%nat -> (placement_index k o < length before)%nat -> 0 <= section_memory_size s ->
  find_section o (sections object) 0 None = Some (Some (pl_input_section p)) ->
  placed o nobits object lo (pl_offset p + section_memory_size s) p s ->
  placing o nobits l (S k) (pl_offset p + section_memory_size s) hi (<[placement_index k o := p]> before) after ->
  placing o nobits (object :: l) k lo hi before after.
Proof.
  intros Ho Hlen Hm Hf Hpl HP. pose proof HP as [H1 H2 H3 H4 H5].
  assert (forall i, (k + S i = S k + i)%nat) as Ek by lia.
  assert (after !! placement_index k o = Some p) as Hp.
  { rewrite H2; [by apply list_lookup_insert_eq|]. intros j Hj E. apply placement_index_inj in E; lia. }
  destruct (pd_inside _ _ _ _ _ _ _ Hpl) as [Hlo _]. split.
  - rewrite H1. apply length_insert.
  - intros i Hi. rewrite H2; [apply list_lookup_insert_ne|].
    + intros E. apply (Hi O); [cbn; lia|]. by rewrite Nat.add_0_r.
    + intros j Hj. specialize (Hi (S j)). rewrite Ek in Hi. apply Hi. cbn. lia.
  - destruct H3. split; [lia|done].
  - intros [|j] ob Hob.
    + injection Hob as <-. rewrite Hf, Nat.add_0_r. exists p, s. split_and!; [done|done|]. eapply placed_weaken; [done|lia|lia].
    + rewrite Ek. specialize (H4 j ob Hob). destruct (find_section o (sections ob) 0 None) as [[n|]|]; [| |done].
      * destruct H4 as (p' & s' & Hn & Hp' & Hpl'). exists p', s'. split_and!; [done|done|]. eapply placed_weaken; [done|lia|lia].
      * rewrite H4. apply list_lookup_insert_ne. intros E. apply placement_index_inj in E; lia.
  - intros [|i] [|j] a b p1 q s1 t Hij Ha Hb Hp1 Hq Hs Ht; try lia.
    + injection Ha as <-. rewrite Nat.add_0_r in Hp1. assert (p1 = p) as -> by congruence. rewrite Ek in Hq.
      pose proof (placing_placed _ _ _ _ _ _ _ _ _ _ _ _ _ _ HP Hb Hq Ht) as [_ _ _ _ _ _ [Hlo' _]].
      pose proof (pd_section _ _ _ _ _ _ _ Hpl). pose proof (pd_section _ _ _ _ _ _ _ Hs). assert (s1 = s) as -> by congruence. lia.
    + rewrite Ek in Hp1, Hq. apply (H5 i j a b p1 q s1 t); try done; [lia|..]; by eapply placing_placed.
Qed.

Definition objects_ok (objects : list CvmObjectFile) : Prop := Forall (fun o => object_wf o /\ object_valid o = true) objects.

Lemma section_ok o n s :
  object_wf o /\ object_valid o = true -> sections o !! n = Some s -> section_wf s /\ section_valid s = true.
Proof.
  intros [[Hwf _ _] Hv] Hs. split; [by eapply list.Forall_lookup_1 in Hwf|].
  unfold object_valid in Hv. rewrite !andb_true_iff in Hv. destruct Hv as [[[_ Hv] _] _].
  rewrite forallb_forall in Hv. apply Hv, list_elem_of_In. by eapply list_elem_of_lookup_2.
Qed.

Lemma section_sizes s : section_wf s -> section_valid s = true ->
  is_u64 (section_memory_size s) /\ is_u64 (section_alignment s) /\ 0 <= file_size s <= section_memory_size s /\
  (has_bits (section_flags s) CVM_OBJECT_SECTION_NOBITS = true -> file_size s = 0).
Proof.
  intros [_ _ Ha _ Hm] Hv. unfold section_valid in Hv. apply negb_true_iff in Hv.
  rewrite !orb_false_iff in Hv. destruct Hv as [[_ Hf] Hn]. apply Z.ltb_ge in Hf.
  split_and!; [done|done|unfold file_size; lia|done|]. intros Hb. rewrite Hb in Hn. cbn in Hn.
  apply negb_false_iff, Z.eqb_eq in Hn. done.
Qed.

(** The loop over the objects places all their sections for the output. *)
Lemma place_objects_spec o nobits l k cursor before hi after :
  (o < 4)%nat -> objects_ok l -> is_u64 cursor -> length before = ((k + length l) * 4)%nat ->
  place_objects o nobits l k cursor before = Some (hi, after) -> placing o nobits l k cursor hi before after.
Proof.
  intros Ho. revert k cursor before. induction l as [|object l IH]; intros k cursor before Hok Hc Hlen; cbn [place_objects].
  { intros [= <- <-]. by apply placing_nil. }
  apply list.Forall_cons in Hok as [Hob Hok]. cbn [length] in Hlen.
  destruct (find_section o (sections object) 0 None) as [[n|]|] eqn:Ef; cbn; [| |done].
  2:{ intros H. apply placing_skip; [done|done|]. apply IH; [done|done| |done]. rewrite Hlen. lia. }
  destruct (find_section_found _ _ _ Ef) as (s & Hs & Hg & Hu). rewrite (list_lookup_total_correct _ _ _ Hs).
  destruct (section_ok _ _ _ Hob Hs) as [Hswf Hsv]. destruct (section_sizes s Hswf Hsv) as (Hm & Ha & _ & _).
  destruct (Bool.eqb _ nobits) eqn:Eb; [|done]. apply eqb_prop in Eb. cbn [negb].
  destruct (align_up cursor (section_alignment s)) as [offset|] eqn:Eal; cbn; [|done].
  destruct (align_up_spec _ _ _ Hc Ha Eal) as (Hof & Hofu & Hmod & _).
  destruct (Z.ltb_spec (UINT64_MAX - offset) (section_memory_size s)) as [|Hfit]; [done|].
  change UINT64_MAX with (2 ^ 64 - 1) in Hfit. intros H.
  apply (placing_cons o nobits object l k cursor hi (mkPlacement n offset true) s); [done| | |done| |].
  - rewrite Hlen. unfold placement_index, OUTPUT_SECTION_COUNT. lia.
  - unfold is_u64 in Hm. lia.
  - split; cbn; try done. lia.
  - apply IH; [done| | |done].
    + unfold is_u64 in *. cbn. lia.
    + rewrite length_insert, Hlen. lia.
Qed.

(** ** The four outputs *)

Lemma layout_fields start cursor o :
  os_start (set_layout start cursor o) = start /\ os_memory_size (set_layout start cursor o) = cursor /\
  os_file_size (set_layout start cursor o) = (if os_nobits o then 0 else cursor) /\
  os_flags (set_layout start cursor o) = os_flags o /\ os_nobits (set_layout start cursor o) = os_nobits o /\
  os_data (set_layout start cursor o) = zeroed (if os_nobits o then 0 else cursor).
Proof. done. Qed.

(** The sections for output [u] lie in its [hi] bytes, apart from each other. *)
Record arranged (objects : list CvmObjectFile) (u : nat) (nobits : bool) (hi : Z) (placements : list Placement) : Prop := {
  ar_here : forall k object, objects !! k = Some object ->
    match find_section u (sections object) 0 None with
    | None => False
    | Some None => exists p, placements !! placement_index k u = Some p /\ pl_present p = false
    | Some (Some n) => exists p s, pl_input_section p = n /\ placements !! placement_index k u = Some p /\
        placed u nobits object 0 hi p s
    end;
  ar_apart : forall i j a b p q s t, (i < j)%nat -> objects !! i = Some a -> objects !! j = Some b ->
    placements !! placement_index i u = Some p -> placements !! placement_index j u = Some q ->
    placed u nobits a 0 hi p s -> placed u nobits b 0 hi q t -> pl_offset p + section_memory_size s <= pl_offset q;
}.

(** Output section [u] after the first loop of [locate_sections]. *)
Record laid_out (objects : list CvmObjectFile) (u : nat) (initial output : OutputSection) (placements : list Placement) : Prop := {
  lo_flags : os_flags output = os_flags initial /\ os_nobits output = os_nobits initial;
  lo_start : os_start output mod PAGE_ALIGNMENT = 0 /\ 0 <= os_start output;
  lo_fits : 0 <= os_memory_size output /\ os_start output + os_memory_size output <= UINT64_MAX;
  lo_file : os_file_size output = if os_nobits output then 0 else os_memory_size output;
  lo_sections : arranged objects u (os_nobits output) (os_memory_size output) placements;
}.

Lemma arranged_frame objects u nobits hi before after :
  (forall k, (k < length objects)%nat -> after !! placement_index k u = before !! placement_index k u) ->
  arranged objects u nobits hi before -> arranged objects u nobits hi after.
Proof.
  intros E [H1 H2]. split.
  - intros k object Hk. specialize (H1 k object Hk). pose proof (E k (lookup_lt_Some _ _ _ Hk)) as Ek.
    destruct (find_section _ _ _ _) as [[n|]|]; [| |done]; setoid_rewrite Ek; done.
  - intros i j a b p q s t Hij Ha Hb. rewrite (E i), (E j) by (by eapply lookup_lt_Some). by apply H2.
Qed.

Lemma placing_arranged objects u nobits hi before after :
  (forall k, (k < length objects)%nat -> exists p, before !! placement_index k u = Some p /\ pl_present p = false) ->
  placing u nobits objects 0 0 hi before after -> arranged objects u nobits hi after.
Proof.
  intros Hb [_ _ _ H4 H5]. split; [|done]. intros k object Hk. specialize (H4 k object Hk).
  destruct (find_section _ _ _ _) as [[n|]|]; [done| |done]. rewrite Nat.add_0_l in H4. rewrite H4. apply Hb. by eapply lookup_lt_Some.
Qed.

(** What the first loop makes of the outputs from index [u] on. *)
Record layouts (objects : list CvmObjectFile) (u : nat) (address : Z) (initial result : list OutputSection)
    (before after : list Placement) : Prop := {
  ly_length : length after = length before /\ length result = length initial;
  ly_frame : forall v k, (v < u)%nat -> (k < length objects)%nat -> after !! placement_index k v = before !! placement_index k v;
  ly_each : forall i o, initial !! i = Some o -> exists out, result !! i = Some out /\
    laid_out objects (u + i) o out after /\ address <= os_start out /\ os_data out = zeroed (os_file_size out) /\ os_name out = os_name o;
  ly_order : forall i j a b, (i < j)%nat -> result !! i = Some a -> result !! j = Some b ->
    os_start a + os_memory_size a <= os_start b;
  ly_first : forall a, result !! 0%nat = Some a -> os_start a = page_up address;
  ly_next : forall i a b, result !! i = Some a -> result !! S i = Some b -> os_start b = page_up (os_start a + os_memory_size a);
}.

Lemma layout_sections_spec objects initial u address before result after :
  objects_ok objects -> (u + length initial = 4)%nat -> is_u64 address -> length before = (length objects * 4)%nat ->
  (forall v k, (u <= v < 4)%nat -> (k < length objects)%nat ->
     exists p, before !! placement_index k v = Some p /\ pl_present p = false) ->
  layout_sections initial u objects address before = Some (result, after) ->
  layouts objects u address initial result before after.
Proof.
  intros Hok. revert u address before result. induction initial as [|o initial IH]; intros u address before result Hu Ha Hlen Hfree;
    cbn [layout_sections].
  { intros [= <- <-]. by split. }
  cbn [length] in Hu. destruct (align_up address PAGE_ALIGNMENT) as [start|] eqn:Eal; cbn; [|done].
  destruct (align_up_spec _ PAGE_ALIGNMENT _ Ha ltac:(unfold PAGE_ALIGNMENT, is_u64; lia) Eal) as (Hst & Hsu & Hmod & _).
  destruct (place_objects u (os_nobits o) objects 0 0 before) as [[cursor mid]|] eqn:Ep; cbn; [|done].
  apply place_objects_spec in Ep; [|lia|done|unfold is_u64; lia|done].
  pose proof Ep as [P1 P2 [P3 P3'] P4 P5].
  destruct (Z.ltb_spec (UINT64_MAX - start) cursor) as [|Hfit]; [done|]. change UINT64_MAX with (2 ^ 64 - 1) in Hfit.
  destruct (layout_sections initial (S u) objects (start + cursor) mid) as [[rest final]|] eqn:Er; cbn; [|done].
  intros [= <- <-].
  assert (forall v k, v <> u -> (v < 4)%nat -> mid !! placement_index k v = before !! placement_index k v) as Hmid.
  { intros v k Hv Hv4. apply P2. intros j _ E. apply placement_index_inj in E; lia. }
  apply IH in Er as [[L1 L1'] L2 L3 L4 L5 L6].
  - split.
    + cbn. lia.
    + intros v k Hv Hk. rewrite L2 by lia. apply Hmid; lia.
    + intros [|i] o' Ho'.
      * injection Ho' as <-. eexists. split; [done|]. split; [|split_and!; [cbn; lia|done|done]]. rewrite Nat.add_0_r.
        split; cbn; try done; [unfold is_u64 in *; split; lia|unfold UINT64_MAX; lia|].
        eapply arranged_frame; [|eapply placing_arranged; [|exact Ep]]; [intros k Hk; apply L2; lia|].
        intros k Hk. apply Hfree; lia.
      * destruct (L3 i o' Ho') as (out & H1 & H2 & H3 & H4 & H5). exists out. rewrite Nat.add_succ_r.
        split_and!; [done|done|lia|done|done].
    + intros [|i] [|j] a b Hij Hi Hj; try lia.
      * injection Hi as <-. cbn in *. destruct (lookup_lt_is_Some_2 initial j) as [o' Ho'].
        { rewrite <- L1'. by eapply lookup_lt_Some. }
        destruct (L3 j o' Ho') as (out & H1 & _ & H3 & _). assert (Some out = Some b) as [= ->] by (transitivity (rest !! j); [by symmetry|exact Hj]). lia.
      * apply (L4 i j); [lia|done|done].
    + intros a [= <-]. by apply page_up_unique.
    + intros [|i] a b Hi Hj; [|by apply (L6 i)]. injection Hi as <-. by apply L5.
  - lia.
  - unfold is_u64 in *. lia.
  - lia.
  - intros v k Hv Hk. rewrite Hmid by lia. apply Hfree; lia.
Qed.

(** ** Copying the contents *)

(** The bytes of output [u] after the sections of the objects were copied. *)
Definition put (u k : nat) (placements : list Placement) (object : CvmObjectFile) (data : RAM) : RAM :=
  let p := placements !!! placement_index k u in
  if pl_present p then store_bytes data (pl_offset p) (section_data (sections object !!! pl_input_section p)) else data.

Fixpoint fill (u : nat) (l : list CvmObjectFile) (k : nat) (placements : list Placement) (data : RAM) : RAM :=
  match l with [] => data | object :: l => fill u l (S k) placements (put u k placements object data) end.

Definition refill (f : RAM -> RAM) (o : OutputSection) : OutputSection :=
  set_data (if os_nobits o then os_data o else f (os_data o)) o.

(** The range check of [copy_section] passes. *)
Definition copyable (object : CvmObjectFile) (k u : nat) (placements : list Placement) (o : OutputSection) : Prop :=
  let p := placements !!! placement_index k u in
  pl_present p = true -> os_nobits o = false ->
  pl_offset p + file_size (sections object !!! pl_input_section p) <= os_file_size o.

Lemma refill_id o : refill (fun d => d) o = o.
Proof. unfold refill, set_data. destruct o as [? ? ? ? ? ? n]; cbn. by destruct n. Qed.

Lemma copy_section_spec object k u placements outputs o :
  outputs !! u = Some o -> copyable object k u placements o ->
  copy_section object k u placements outputs = Some (<[u := refill (put u k placements object) o]> outputs).
Proof.
  intros Ho Hc. unfold copy_section, refill, put, copyable in *. cbv zeta in *.
  rewrite (list_lookup_total_correct _ _ _ Ho). set (p := placements !!! _) in *.
  destruct (pl_present p); cbn [negb orb].
  2:{ rewrite list_insert_id; [done|]. rewrite Ho. f_equal. destruct o as [? ? ? ? ? ? n]; cbn. by destruct n. }
  destruct (os_nobits o) eqn:En.
  { rewrite list_insert_id; [done|]. rewrite Ho. by destruct o. }
  specialize (Hc eq_refl eq_refl). unfold file_size in *.
  destruct (Z.ltb_spec (os_file_size o) (pl_offset p)); [lia|]. cbn [orb].
  destruct (Z.ltb_spec (os_file_size o - pl_offset p) (Z.of_nat (length (section_data (sections object !!! pl_input_section p))))); [lia|].
  done.
Qed.

Lemma copy_outputs_spec n u object k placements outputs :
  (forall v o, (u <= v < u + n)%nat -> outputs !! v = Some o -> copyable object k v placements o) -> (u + n <= length outputs)%nat ->
  exists result, copy_outputs n u object k placements outputs = Some result /\ length result = length outputs /\
    forall v, result !! v = if decide (u <= v < u + n)%nat then refill (put v k placements object) <$> outputs !! v else outputs !! v.
Proof.
  revert u outputs. induction n as [|n IH]; intros u outputs Hc Hl; cbn [copy_outputs].
  { exists outputs. split_and!; [done|done|]. intros v. by rewrite decide_False by lia. }
  destruct (lookup_lt_is_Some_2 outputs u ltac:(lia)) as [o Ho].
  rewrite (copy_section_spec _ _ _ _ _ o Ho) by (apply Hc; [lia|done]). cbn [mbind option_bind].
  destruct (IH (S u) (<[u := refill (put u k placements object) o]> outputs)) as (result & Hr & Hlr & Hv).
  - intros v x Hvv. rewrite list_lookup_insert_ne by lia. apply Hc. lia.
  - rewrite length_insert. lia.
  - exists result. split_and!; [done|by rewrite Hlr, length_insert|]. intros v. rewrite Hv.
    destruct (decide (v = u)) as [->|Hne].
    + rewrite decide_False, decide_True by lia. rewrite list_lookup_insert_eq by lia. by rewrite Ho.
    + rewrite list_lookup_insert_ne by done. destruct (decide (S u <= v < S u + n)%nat), (decide (u <= v < u + S n)%nat); done || lia.
Qed.

Lemma refill_refill f g o : refill f (refill g o) = refill (fun d => f (g d)) o.
Proof. unfold refill, set_data. destruct o as [? ? ? ? ? ? n]; cbn. by destruct n. Qed.

Lemma copyable_refill object k u placements f o : copyable object k u placements o -> copyable object k u placements (refill f o).
Proof. done. Qed.

Lemma copy_sections_spec l k placements outputs :
  length outputs = 4%nat ->
  (forall j object v o, l !! j = Some object -> outputs !! v = Some o -> copyable object (k + j) v placements o) ->
  exists result, copy_sections l k placements outputs = Some result /\
    forall v, result !! v = refill (fill v l k placements) <$> outputs !! v.
Proof.
  revert k outputs. induction l as [|object l IH]; intros k outputs Hlen Hc; cbn [copy_sections].
  { exists outputs. split; [done|]. intros v. cbn [fill]. destruct (outputs !! v) as [o|]; [|done]. cbn. by rewrite refill_id. }
  destruct (copy_outputs_spec OUTPUT_SECTION_COUNT 0 object k placements outputs) as (mid & Hm & Hlm & Hv).
  - intros v o _ Ho. rewrite <- (Nat.add_0_r k). by apply (Hc O).
  - rewrite Hlen. unfold OUTPUT_SECTION_COUNT. lia.
  - rewrite Hm. cbn [mbind option_bind].
    assert (forall v, mid !! v = refill (put v k placements object) <$> outputs !! v) as Hmid.
    { intros v. rewrite Hv. unfold OUTPUT_SECTION_COUNT. destruct (decide _) as [|Hn]; [done|].
      rewrite (proj2 (lookup_ge_None outputs v)) by lia. done. }
    destruct (IH (S k) mid) as (result & Hr & Hres).
    + lia.
    + intros j ob v o Hj Ho. rewrite Hmid in Ho. destruct (outputs !! v) as [o'|] eqn:Ho'; [|done].
      injection Ho as <-. apply copyable_refill. replace (S k + j)%nat with (k + S j)%nat by lia. by apply (Hc (S j)).
    + exists result. split; [done|]. intros v. rewrite Hres, Hmid. destruct (outputs !! v) as [o|]; [|done]. cbn.
      by rewrite refill_refill.
Qed.

(** The placed sections of the objects [l], the first of index [k]. *)
Definition section_at (u : nat) (nobits : bool) (hi : Z) (l : list CvmObjectFile) (k : nat) (placements : list Placement)
    (j : nat) (p : Placement) (s : CvmObjectSection) : Prop :=
  exists object, l !! j = Some object /\ placements !! placement_index (k + j) u = Some p /\ placed u nobits object 0 hi p s.

Definition outside (p : Placement) (s : CvmObjectSection) (b : Z) : Prop := b < pl_offset p \/ pl_offset p + file_size s <= b.

Lemma holds_bytes data data' a l :
  holds_at data a l -> (forall b, a <= b < a + Z.of_nat (length l) -> ram_byte data' b = ram_byte data b) -> holds_at data' a l.
Proof.
  unfold holds_at. intros H Hb. rewrite <- H at 2. unfold ram_bytes. apply list_fmap_ext. intros i b Hi. apply Hb.
  apply list_elem_of_lookup_2, elem_of_seqZ in Hi. lia.
Qed.

Lemma store_outside data a l b : b < a \/ a + Z.of_nat (length l) <= b -> ram_byte (store_bytes data a l) b = ram_byte data b.
Proof.
  intros H. rewrite store_bytes_byte. destruct (Z.leb_spec a b); [|done]. by rewrite lookup_ge_None_2 by lia.
Qed.

(** Every object either has no section for [u] or has it placed. *)
Definition settled (u : nat) (nobits : bool) (hi : Z) (l : list CvmObjectFile) (k : nat) (placements : list Placement) : Prop :=
  forall j object, l !! j = Some object ->
    exists p, placements !! placement_index (k + j) u = Some p /\
      (pl_present p = false \/ exists s, placed u nobits object 0 hi p s).

Lemma arranged_settled objects u nobits hi placements :
  arranged objects u nobits hi placements -> settled u nobits hi objects 0 placements.
Proof.
  intros [H _] k object Hk. specialize (H k object Hk). destruct (find_section _ _ _ _) as [[n|]|]; [| |done].
  - destruct H as (p & s & _ & Hp & Hs). exists p. split; [done|]. right. by exists s.
  - destruct H as (p & Hp & Hn). exists p. auto.
Qed.

Lemma put_placed u nobits hi k placements object data p s :
  placements !! placement_index k u = Some p -> placed u nobits object 0 hi p s ->
  put u k placements object data = store_bytes data (pl_offset p) (section_data s).
Proof.
  intros Hp Hs. unfold put. rewrite (list_lookup_total_correct _ _ _ Hp), (pd_present _ _ _ _ _ _ _ Hs).
  by rewrite (list_lookup_total_correct _ _ _ (pd_section _ _ _ _ _ _ _ Hs)).
Qed.

Lemma fill_outside u nobits hi l k placements data b :
  settled u nobits hi l k placements ->
  (forall j p s, section_at u nobits hi l k placements j p s -> outside p s b) ->
  ram_byte (fill u l k placements data) b = ram_byte data b.
Proof.
  revert k data. induction l as [|object l IH]; intros k data Hset Hout; cbn [fill]; [done|]. rewrite IH.
  - destruct (Hset O object eq_refl) as (p & Hp & [Hn|[s Hs]]); rewrite Nat.add_0_r in Hp.
    + unfold put. by rewrite (list_lookup_total_correct _ _ _ Hp), Hn.
    + rewrite (put_placed _ _ _ _ _ _ _ _ _ Hp Hs). apply store_outside.
      specialize (Hout O p s). unfold outside, file_size in Hout. destruct Hout as [H|H]; [|lia..].
      exists object. rewrite Nat.add_0_r. done.
  - intros j ob Hj. replace (S k + j)%nat with (k + S j)%nat by lia. by apply (Hset (S j)).
  - intros j p s (ob & Hj & Hp & Hs). apply (Hout (S j)). exists ob. by replace (k + S j)%nat with (S k + j)%nat by lia.
Qed.

Lemma fill_holds u nobits hi l k placements data :
  settled u nobits hi l k placements ->
  Forall (fun o => object_wf o /\ object_valid o = true) l ->
  (forall i j p q s t, (i < j)%nat -> section_at u nobits hi l k placements i p s -> section_at u nobits hi l k placements j q t ->
     pl_offset p + section_memory_size s <= pl_offset q) ->
  forall j p s, section_at u nobits hi l k placements j p s -> holds_at (fill u l k placements data) (pl_offset p) (section_data s).
Proof.
  revert k data. induction l as [|object l IH]; intros k data Hset Hok Hap j p s (ob & Hj & Hp & Hs); [done|].
  assert (settled u nobits hi l (S k) placements) as Hset'.
  { intros i ob' Hi. replace (S k + i)%nat with (k + S i)%nat by lia. by apply (Hset (S i)). }
  assert (forall i p s, section_at u nobits hi l (S k) placements i p s -> section_at u nobits hi (object :: l) k placements (S i) p s) as Hshift.
  { intros i p' s' (ob' & Hi & Hp' & Hs'). exists ob'. by replace (k + S i)%nat with (S k + i)%nat by lia. }
  apply list.Forall_cons in Hok as [Hob Hok]. cbn [fill]. destruct j as [|j].
  - injection Hj as <-. rewrite Nat.add_0_r in Hp. rewrite (put_placed _ _ _ _ _ _ _ _ _ Hp Hs).
    eapply holds_bytes; [apply holds_store_same|]. intros b Hb. eapply fill_outside; [done|]. intros i q t Hq. left.
    destruct (section_ok _ _ _ Hob (pd_section _ _ _ _ _ _ _ Hs)) as [W V]. destruct (section_sizes s W V) as (_ & _ & Hf & _).
    assert (pl_offset p + section_memory_size s <= pl_offset q); [|unfold file_size in *; lia].
    eapply (Hap O (S i)); [lia| |by apply Hshift]. exists object. by rewrite Nat.add_0_r.
  - eapply IH; [done|done| |].
    + intros i j' p' q' s' t' Hij Hi Hj'. eapply (Hap (S i) (S j')); [lia|by apply Hshift..].
    + exists ob. by replace (S k + j)%nat with (k + S j)%nat by lia.
Qed.

Lemma fill_wf u nobits hi l k placements data :
  settled u nobits hi l k placements -> Forall (fun o => object_wf o /\ object_valid o = true) l -> ram_wf data ->
  ram_wf (fill u l k placements data) /\ ram_size (fill u l k placements data) = ram_size data.
Proof.
  revert k data. induction l as [|object l IH]; intros k data Hset Hok Hwf; [done|]. apply list.Forall_cons in Hok as [Hob Hok].
  cbn [fill]. destruct (IH (S k) (put u k placements object data)) as [H1 H2]; [|done| |].
  { intros i ob' Hi. replace (S k + i)%nat with (k + S i)%nat by lia. by apply (Hset (S i)). }
  { destruct (Hset O object eq_refl) as (p & Hp & [Hn|[s Hs]]); rewrite Nat.add_0_r in Hp.
    - unfold put. by rewrite (list_lookup_total_correct _ _ _ Hp), Hn.
    - rewrite (put_placed _ _ _ _ _ _ _ _ _ Hp Hs). apply store_bytes_wf; [done|].
      by destruct (section_ok _ _ _ Hob (pd_section _ _ _ _ _ _ _ Hs)) as [[] _]. }
  split; [done|]. rewrite H2. unfold put. destruct (pl_present _); [apply store_bytes_size|done].
Qed.

(** ** The whole layout *)

Record layout_ok (objects : list CvmObjectFile) (base : Z) (outputs : list OutputSection) (placements : list Placement) : Prop := {
  lk_length : length outputs = 4%nat;
  lk_each : forall u o out, initial_outputs !! u = Some o -> outputs !! u = Some out ->
    laid_out objects u o out placements /\ base <= os_start out /\ ram_wf (os_data out) /\ ram_size (os_data out) = os_file_size out;
  lk_order : forall u v a b, (u < v)%nat -> outputs !! u = Some a -> outputs !! v = Some b ->
    os_start a + os_memory_size a <= os_start b;
  lk_first : forall a, outputs !! 0%nat = Some a -> os_start a = page_up base;
  lk_next : forall u a b, outputs !! u = Some a -> outputs !! S u = Some b -> os_start b = page_up (os_start a + os_memory_size a);
  lk_contents : forall u out k p s, outputs !! u = Some out -> os_nobits out = false ->
    section_at u false (os_memory_size out) objects 0 placements k p s -> holds_at (os_data out) (pl_offset p) (section_data s);
  lk_gaps : forall u out b, outputs !! u = Some out -> os_nobits out = false ->
    (forall k p s, section_at u false (os_memory_size out) objects 0 placements k p s -> outside p s b) -> ram_byte (os_data out) b = 0;
}.

Lemma zeroed_wf n : is_u64 n -> ram_wf (zeroed n).
Proof. intros Hn. split; [done|]. apply map_Forall_empty. Qed.

Lemma zeroed_byte n b : ram_byte (zeroed n) b = 0.
Proof. done. Qed.

Lemma section_at_apart objects u nobits hi placements i j p q s t :
  arranged objects u nobits hi placements -> (i < j)%nat ->
  section_at u nobits hi objects 0 placements i p s -> section_at u nobits hi objects 0 placements j q t ->
  pl_offset p + section_memory_size s <= pl_offset q.
Proof. intros [_ H] Hij (a & Ha & Hp & Hs) (b & Hb & Hq & Ht). by eapply (H i j). Qed.

(** The range check of the copy never fails. *)
Lemma laid_out_copyable objects u o out placements j object :
  objects_ok objects -> laid_out objects u o out placements -> objects !! j = Some object ->
  copyable object j u placements out.
Proof.
  intros Hok [_ _ _ Hf Har] Hj Hpr Hnb. rewrite Hnb in *.
  destruct (arranged_settled _ _ _ _ _ Har j object Hj) as (p & Hp & Hcase). rewrite Nat.add_0_l in Hp.
  rewrite (list_lookup_total_correct _ _ _ Hp) in *. destruct Hcase as [Hn|[s Hs]]; [congruence|].
  pose proof (pd_section _ _ _ _ _ _ _ Hs) as Hsec. rewrite (list_lookup_total_correct _ _ _ Hsec), Hf.
  assert (object_wf object /\ object_valid object = true) as Hob by (exact (list.Forall_lookup_1 _ _ _ _ Hok Hj)).
  destruct (section_ok _ _ _ Hob Hsec) as [W V]. destruct (section_sizes s W V) as (_ & _ & Hfs & _).
  destruct (pd_inside _ _ _ _ _ _ _ Hs). lia.
Qed.

Lemma laid_out_refill objects u o out placements f :
  laid_out objects u o out placements -> laid_out objects u o (refill f out) placements.
Proof. intros [H1 H2 H3 H4 H5]. by split. Qed.

Lemma locate_sections_ok objects base outputs placements :
  objects_ok objects -> is_u64 base -> locate_sections objects base initial_outputs = Some (outputs, placements) ->
  layout_ok objects base outputs placements.
Proof.
  intros Hok Hb. unfold locate_sections.
  set (before := replicate (length objects * OUTPUT_SECTION_COUNT) no_placement).
  destruct (layout_sections initial_outputs 0 objects base before) as [[mid pls]|] eqn:El; cbn; [|done].
  apply layout_sections_spec in El as [[L1 L1'] L2 L3 L4 L5 L6]; [|done|done|done|unfold before, OUTPUT_SECTION_COUNT; by rewrite length_replicate|].
  2:{ intros v k Hv Hk. exists no_placement. split; [|done]. unfold before, placement_index, OUTPUT_SECTION_COUNT.
      apply lookup_replicate_2. lia. }
  assert (length mid = 4%nat) as Hmid by done.
  assert (forall v out, mid !! v = Some out -> exists o, initial_outputs !! v = Some o) as Hini.
  { intros v out Hv. apply lookup_lt_is_Some_2. rewrite <- L1'. by eapply lookup_lt_Some. }
  destruct (copy_sections_spec objects 0 pls mid Hmid) as (result & Hres & Hv).
  { intros j object v out Hj Hout. destruct (Hini _ _ Hout) as [o Ho]. destruct (L3 v o Ho) as (out' & Ho' & Hl & _).
    assert (out' = out) as -> by congruence. by eapply laid_out_copyable. }
  rewrite Hres. cbn. intros [= <- <-].
  assert (forall v out, result !! v = Some out -> exists o out0, initial_outputs !! v = Some o /\ mid !! v = Some out0 /\
            out = refill (fill v objects 0 pls) out0 /\ laid_out objects v o out0 pls /\ base <= os_start out0 /\
            os_data out0 = zeroed (os_file_size out0)) as Hfrom.
  { intros v out Hout. rewrite Hv in Hout. destruct (mid !! v) as [out0|] eqn:E0; [|done]. injection Hout as <-.
    destruct (Hini _ _ E0) as [o Ho]. destruct (L3 v o Ho) as (out' & Ho' & Hl & Hs & Hd & _).
    assert (out' = out0) as -> by congruence. exists o, out0. done. }
  split.
  - assert (forall v, result !! v = None <-> mid !! v = None) as Hn.
    { intros v. rewrite Hv. by destruct (mid !! v). }
    pose proof (proj1 (lookup_ge_None result (length result)) (proj2 (lookup_ge_None _ _) (Nat.le_refl _))).
    pose proof (proj1 (lookup_ge_None mid (length result)) (proj1 (Hn _) (proj2 (lookup_ge_None result _) (Nat.le_refl _)))).
    pose proof (proj1 (lookup_ge_None result (length mid)) (proj2 (Hn _) (proj2 (lookup_ge_None mid _) (Nat.le_refl _)))). lia.
  - intros u o out Ho Hout. destruct (Hfrom _ _ Hout) as (o' & out0 & Ho' & _ & -> & Hl & Hs & Hd).
    assert (o' = o) as -> by congruence. split_and!; [by apply laid_out_refill|done|..].
    all: cbn; rewrite Hd; pose proof Hl as [_ [_ Hst] [Hm Hfit] Hf Har]; destruct (os_nobits out0) eqn:En; rewrite ?Hf; try done.
    all: assert (is_u64 (os_memory_size out0)) as Hmu by (unfold is_u64, UINT64_MAX in *; lia).
    all: apply arranged_settled in Har; by apply (fill_wf u false _ objects 0 pls (zeroed (os_memory_size out0)) Har Hok (zeroed_wf _ Hmu)).
  - intros u v a b Huv Ha Hb'. destruct (Hfrom _ _ Ha) as (? & a0 & _ & Ha0 & -> & _). destruct (Hfrom _ _ Hb') as (? & b0 & _ & Hb0 & -> & _).
    by apply (L4 u v a0 b0).
  - intros a Ha. destruct (Hfrom _ _ Ha) as (? & a0 & _ & Ha0 & -> & _). exact (L5 a0 Ha0).
  - intros u a b Ha Hb'. destruct (Hfrom _ _ Ha) as (? & a0 & _ & Ha0 & -> & _). destruct (Hfrom _ _ Hb') as (? & b0 & _ & Hb0 & -> & _).
    exact (L6 u a0 b0 Ha0 Hb0).
  - intros u out k p s Hout Hnb Hsec. destruct (Hfrom _ _ Hout) as (o & out0 & _ & _ & -> & Hl & _ & Hd).
    cbn in *. rewrite Hnb, Hd. pose proof (lo_sections _ _ _ _ _ Hl) as Har. rewrite Hnb in Har.
    eapply fill_holds; [by apply arranged_settled|done| |done]. intros i j p' q s' t Hij. by apply (section_at_apart objects).
  - intros u out b Hout Hnb Hb'. destruct (Hfrom _ _ Hout) as (o & out0 & _ & _ & -> & Hl & _ & Hd).
    cbn in *. rewrite Hnb, Hd. pose proof (lo_sections _ _ _ _ _ Hl) as Har. rewrite Hnb in Har.
    rewrite (fill_outside u false (os_memory_size out0)); [done|by apply arranged_settled|done].
Qed.

Lemma output_section_index_lt name u : output_section_index name = Some u -> (u < 4)%nat.
Proof.
  unfold output_section_index, output_section_names. cbn [index_where].
  repeat (destruct (bool_decide _); [intros [= <-]; lia|]; cbn). done.
Qed.

(** Every section with one of the four names has its place, where the code looks for it. *)
Lemma section_placed objects base outputs placements k object n s u :
  layout_ok objects base outputs placements -> objects !! k = Some object -> sections object !! n = Some s -> goes_to u s ->
  exists p o out, initial_outputs !! u = Some o /\ outputs !! u = Some out /\ laid_out objects u o out placements /\
    placement_for_input object k n placements = Some p /\ pl_input_section p = n /\
    placements !! placement_index k u = Some p /\ placed u (os_nobits out) object 0 (os_memory_size out) p s.
Proof.
  intros HL Hk Hn Hg. pose proof (output_section_index_lt _ _ Hg) as Hu.
  destruct (lookup_lt_is_Some_2 initial_outputs u Hu) as [o Ho].
  destruct (lookup_lt_is_Some_2 outputs u ltac:(rewrite (lk_length _ _ _ _ HL); done)) as [out Hout].
  destruct (lk_each _ _ _ _ HL _ _ _ Ho Hout) as (Hl & _).
  pose proof (ar_here _ _ _ _ _ (lo_sections _ _ _ _ _ Hl) k object Hk) as H.
  destruct (find_section u (sections object) 0 None) as [[m|]|] eqn:Ef; [| |done].
  - destruct H as (p & s' & Hm & Hp & Hpl). assert (n = m) as <-. { rewrite <- Hm. by eapply (pd_only _ _ _ _ _ _ _ Hpl). }
    pose proof (pd_section _ _ _ _ _ _ _ Hpl) as Hs'. rewrite Hm, Hn in Hs'. injection Hs' as <-.
    exists p, o, out. split_and!; try done. unfold placement_for_input. rewrite (list_lookup_total_correct _ _ _ Hn).
    unfold goes_to in Hg. rewrite Hg. cbn [mbind option_bind]. rewrite (list_lookup_total_correct _ _ _ Hp).
    by rewrite (pd_present _ _ _ _ _ _ _ Hpl), Hm, Nat.eqb_refl.
  - by eapply find_section_absent in Ef.
Qed.

(** An aligned offset in a page-aligned section is an aligned address, for alignments up to a page. *)
Lemma aligned_address start offset s :
  section_wf s -> section_valid s = true -> section_alignment s <= PAGE_ALIGNMENT ->
  start mod PAGE_ALIGNMENT = 0 -> offset mod section_alignment s = 0 -> (start + offset) mod section_alignment s = 0.
Proof.
  intros [_ _ Ha _ _] Hv Hle Hst Hof. unfold section_valid in Hv. apply negb_true_iff in Hv. rewrite !orb_false_iff in Hv.
  destruct Hv as [[[[[[_ Hp] _] _] _] _] _]. apply negb_false_iff in Hp. unfold power_of_two in Hp.
  rewrite andb_true_iff, negb_true_iff, Z.eqb_neq, Z.eqb_eq in Hp. destruct Hp as [Hnz Hl].
  unfold is_u64 in Ha. apply land_pred_pow2 in Hl as (k & Hk & E); [|lia]. rewrite E in *. unfold PAGE_ALIGNMENT in *.
  change 4096 with (2 ^ 12) in *. assert (k <= 12) as Hk12. { destruct (Z.le_gt_cases k 12); [done|]. pose proof (Z.pow_lt_mono_r 2 12 k). lia. }
  apply Z.mod_divide in Hst as [q ->]; [|lia]. rewrite Z.add_mod, Hof by lia. replace (2 ^ 12) with (2 ^ (12 - k) * 2 ^ k).
  - by rewrite Z.mul_assoc, Z.mod_mul by lia.
  - rewrite <- Z.pow_add_r by lia. f_equal. lia.
Qed.

(** An object whose code wants two pages of alignment. *)
Definition wide_object : CvmObjectFile :=
  mkObject [mkSection [46; 116; 101; 120; 116] 5 8192 [1; 2; 3; 4] 4] [mkSymbol [97] 0 7 0 4] [].

(** C24: the layout of the linker.  The first output section starts at the page
    boundary at or above the base, each other one at the first page boundary
    behind its predecessor; so they start on pages, in order, without overlap,
    and they do not pass the end of the address space.
    Every input section with one of their names lies in its output section at
    an offset aligned as it asks, sections of different objects do not overlap
    and keep the order of the command line; the data of an output section are
    the bytes of its input sections and zero elsewhere.  The address of a
    section is aligned as well when its alignment is at most a page; a larger
    alignment is not honoured, since only the offset is rounded up. *)
Theorem link_layout_correct :
  (forall objects base outputs placements,
     objects_ok objects -> is_u64 base -> locate_sections objects base initial_outputs = Some (outputs, placements) ->
     layout_ok objects base outputs placements /\
     forall k object n s u, objects !! k = Some object -> sections object !! n = Some s -> goes_to u s ->
       exists p out, outputs !! u = Some out /\ placement_for_input object k n placements = Some p /\
         placed u (os_nobits out) object 0 (os_memory_size out) p s /\
         (section_alignment s <= PAGE_ALIGNMENT -> (os_start out + pl_offset p) mod section_alignment s = 0)) /\
  (object_valid wide_object = true /\
   exists outputs placements out p, locate_sections [wide_object] 0x1000 initial_outputs = Some (outputs, placements) /\
     outputs !! 0%nat = Some out /\ placement_for_input wide_object 0 0 placements = Some p /\
     (os_start out + pl_offset p) mod 8192 = 4096).
Proof.
  split.
  - intros objects base outputs placements Hok Hb Hl. pose proof (locate_sections_ok _ _ _ _ Hok Hb Hl) as HL. split; [done|].
    intros k object n s u Hk Hn Hg. destruct (section_placed _ _ _ _ _ _ _ _ _ HL Hk Hn Hg) as (p & o & out & _ & Ho & Hlo & Hp & _ & _ & Hpl).
    exists p, out. split_and!; [done|done|done|]. intros Ha.
    destruct (section_ok object n s (list.Forall_lookup_1 _ _ _ _ Hok Hk) Hn) as [W V].
    apply aligned_address; try done; [apply Hlo|by apply (pd_aligned _ _ _ _ _ _ _ Hpl)].
  - split; [vm_compute; reflexivity|]. do 4 eexists. split; [vm_compute; reflexivity|]. split; [reflexivity|]. split; [reflexivity|].
    vm_compute. reflexivity.
Qed.

Lemma wide_object_ok : objects_ok [wide_object].
Proof. apply list.Forall_cons. split; [|constructor]. split; [|reflexivity]. split; repeat constructor; cbn; unfold is_u64; try lia; done. Qed.

Lemma link_layout_correct_witness :
  exists outputs placements, locate_sections [wide_object] 0x4000 initial_outputs = Some (outputs, placements) /\
    layout_ok [wide_object] 0x4000 outputs placements.
Proof.
  do 2 eexists. split; [vm_compute; reflexivity|].
  apply (proj1 link_layout_correct [wide_object] 0x4000); [exact wide_object_ok|unfold is_u64; lia|vm_compute; reflexivity].
Defined.
