(* ===== verification/LinkerReloc.v ===== *)
(** Addresses and relocations of the linker: what [symbol_address] returns,
    where common symbols are put, and what [apply_relocations] leaves in the
    sections. *)

From S2P Require Import Prelude Ram Image ObjectFormat ArchiveFormat BootFormat Linker LinkerSymbols LinkerLayout.
From Stdlib Require Import ZArith Lia Bool.
From stdpp Require Import base list numbers gmap option.

#[local] Open Scope Z_scope.

(** ** The address of a symbol *)

Section resolve.
  Context (objects : list CvmObjectFile) (globals : list GlobalDefinition) (placements : list Placement)
          (outputs : list OutputSection).

  (** Of a symbol its own object defines. *)
Definition defined_address (k i : nat) : option Z :=
    let s := symbol_at objects k i in
    if symbol_section_index s =? CVM_OBJECT_ABSOLUTE_SECTION then Some (symbol_value s)
    else section_address objects placements outputs k s.

  (** Of any symbol: a local definition is its own, every other symbol means
      the global definition of its name, and a weak one without it is zero. *)
Definition resolve (k i : nat) : option Z :=
    let s := symbol_at objects k i in
    if is_global s || negb (is_defined s) then
      match global_at globals (symbol_name s) with
      | None => if is_weak s then Some 0 else None
      | Some g => if gd_common g then Some (gd_common_address g) else defined_address (gd_object_index g) (gd_symbol_index g)
      end
    else defined_address k i.

  (** Every row of the table points to a symbol that defines its name. *)
Definition globals_sound : Prop :=
    forall name g, global_at globals name = Some g ->
      let s := symbol_at objects (gd_object_index g) (gd_symbol_index g) in
      is_global s = true /\ symbol_name s = name /\ (gd_common g = false -> is_defined s = true).

Lemma global_at_index name i : global_index globals name = Some i -> global_at globals name = Some (globals !!! i).
Proof.
  intros E. unfold global_at. rewrite E. cbn. destruct (global_index_Some _ _ _ E) as (g & Hg & _).
  by rewrite Hg, (list_lookup_total_correct _ _ _ Hg).
Qed.

  (** The definition of a global symbol is found in one step. *)
Lemma definition_address fuel name i :
  globals_sound -> global_index globals name = Some i ->
  let g := globals !!! i in
  symbol_address objects globals placements outputs (S fuel) (gd_object_index g) (gd_symbol_index g) =
    if gd_common g then Some (gd_common_address g) else defined_address (gd_object_index g) (gd_symbol_index g).
Proof.
  intros Hs Hi. cbv zeta. destruct (Hs name _ (global_at_index _ _ Hi)) as (Hg & Hn & Hd).
  cbn [symbol_address]. rewrite Hg, Hn, Hi. destruct (gd_common (globals !!! i)); [done|].
  rewrite !Nat.eqb_refl. cbn [negb orb]. by rewrite Hd.
Qed.

(** Two levels of recursion are enough. *)
Lemma symbol_address_resolve fuel k i :
  globals_sound -> (2 <= fuel)%nat -> symbol_address objects globals placements outputs fuel k i = resolve k i.
Proof.
  intros Hs Hf. destruct fuel as [|[|fuel]]; [lia|lia|]. unfold resolve.
  change (symbol_address objects globals placements outputs (S (S fuel)) k i) with
    (let symbol := symbol_at objects k i in
     let undefined := if is_weak symbol then Some 0 else None in
     let recur index := symbol_address objects globals placements outputs (S fuel) (gd_object_index (globals !!! index))
                          (gd_symbol_index (globals !!! index)) in
     let here := if negb (is_defined symbol) then
                   match global_index globals (symbol_name symbol) with None => undefined | Some index => recur index end
                 else defined_address k i in
     if is_global symbol then
       match global_index globals (symbol_name symbol) with
       | None => undefined
       | Some index => if gd_common (globals !!! index) then Some (gd_common_address (globals !!! index))
           else if negb (gd_object_index (globals !!! index) =? k)%nat || negb (gd_symbol_index (globals !!! index) =? i)%nat
           then recur index else here
       end
     else here).
  cbv zeta. set (s := symbol_at objects k i).
  destruct (global_index globals (symbol_name s)) as [index|] eqn:Ei.
  - rewrite (global_at_index _ _ Ei). pose proof (definition_address fuel _ _ Hs Ei) as Hd. cbv zeta in Hd. rewrite Hd.
    destruct (Hs _ _ (global_at_index _ _ Ei)) as (_ & _ & Hdef).
    destruct (is_global s) eqn:Eg; cbn [orb].
    + destruct (gd_common (globals !!! index)); [done|].
      destruct (Nat.eqb_spec (gd_object_index (globals !!! index)) k) as [Ek|]; [|done].
      destruct (Nat.eqb_spec (gd_symbol_index (globals !!! index)) i) as [Esi|]; [|done]. cbn [negb orb].
      destruct (is_defined s); cbn [negb]; [by rewrite Ek, Esi|done].
    + by destruct (is_defined s).
  - rewrite (proj2 (global_at_None _ _) Ei). by destruct (is_global s), (is_defined s).
Qed.
End resolve.

(** ** Common symbols *)

(** A row with its address: commons get one, the others keep theirs. *)
Definition addressed (g g' : GlobalDefinition) : Prop :=
  if gd_common g then exists a, is_u64 a /\ g' = set_common_address a g else g' = g.

(** The commons of [l] lie one behind the other between [lo] and [hi], aligned. *)
Fixpoint commons_within (l : list GlobalDefinition) (lo hi : Z) : Prop :=
  match l with
  | [] => lo <= hi
  | g :: l =>
      if gd_common g then
        lo <= gd_common_address g /\ gd_common_address g mod gd_common_alignment g = 0 /\
        commons_within l (gd_common_address g + gd_common_size g) hi
      else commons_within l lo hi
  end.

Definition commons_u64 (l : list GlobalDefinition) : Prop :=
  Forall (fun g => is_u64 (gd_common_size g) /\ is_u64 (gd_common_alignment g)) l.

Lemma allocate_commons_spec start cursor l l' hi :
  is_u64 start -> is_u64 cursor -> commons_u64 l -> allocate_commons start cursor l = Some (l', hi) ->
  Forall2 addressed l l' /\ commons_within l' (start + cursor) (start + hi) /\ cursor <= hi /\ is_u64 hi.
Proof.
  intros Hs. revert cursor l'. induction l as [|g l IH]; intros cursor l' Hc Hl; cbn [allocate_commons].
  { intros [= <- <-]. split_and!; [constructor|cbn; lia|lia|done]. }
  apply list.Forall_cons in Hl as [[Hsz Hal] Hl]. destruct (gd_common g) eqn:Eg; cbn [negb].
  2:{ destruct (allocate_commons start cursor l) as [[r h]|] eqn:Er; cbn; [|done]. intros [= <- <-].
      destruct (IH cursor r Hc Hl Er) as (H1 & H2 & H3 & H4). split_and!; [|cbn; by rewrite Eg|done|done].
      constructor; [|done]. unfold addressed. by rewrite Eg. }
  destruct (Z.ltb_spec (UINT64_MAX - cursor) start) as [|Hfit]; [done|].
  destruct (align_up (start + cursor) (gd_common_alignment g)) as [a|] eqn:Ea; cbn; [|done].
  unfold is_u64, UINT64_MAX in *. apply align_up_spec in Ea as (Hr & Hau & Hm & _); [|unfold is_u64; lia|unfold is_u64; lia].
  unfold is_u64 in Hau. destruct (Z.ltb_spec a start) as [|Hge]; [done|].
  destruct (Z.ltb_spec (0xFFFFFFFFFFFFFFFF - (a - start)) (gd_common_size g)) as [|Hfit']; [done|].
  destruct (allocate_commons start (a - start + gd_common_size g) l) as [[r h]|] eqn:Er; cbn; [|done].
  intros [= <- <-]. destruct (IH (a - start + gd_common_size g) r ltac:(lia) Hl Er) as (H1 & H2 & H3 & H4). split_and!; [|cbn; rewrite Eg; split_and!; [lia|done|]|lia|lia|lia].
  - constructor; [|done]. unfold addressed. rewrite Eg. by exists a.
  - by replace (a + gd_common_size g) with (start + (a - start + gd_common_size g)) by lia.
Qed.

Lemma addressed_same g g' : addressed g g' ->
  gd_name g' = gd_name g /\ gd_object_index g' = gd_object_index g /\ gd_symbol_index g' = gd_symbol_index g /\
  gd_common g' = gd_common g /\ gd_common_size g' = gd_common_size g /\ gd_common_alignment g' = gd_common_alignment g.
Proof. unfold addressed. destruct (gd_common g) eqn:E; [intros (a & _ & ->)|intros ->]; by cbn. Qed.

Lemma addressed_index l l' name : Forall2 addressed l l' -> global_index l' name = global_index l name.
Proof.
  unfold global_index. induction 1 as [|g g' l l' Hg _ IH]; cbn [index_where]; [done|]. rewrite IH.
  by rewrite (proj1 (addressed_same _ _ Hg)).
Qed.

Lemma addressed_at l l' name :
  Forall2 addressed l l' -> match global_at l' name with
                            | Some g' => exists g, global_at l name = Some g /\ addressed g g'
                            | None => global_at l name = None
                            end.
Proof.
  intros HF. unfold global_at. rewrite (addressed_index l l') by done. destruct (global_index l name) as [i|] eqn:E; [|done].
  destruct (global_index_Some _ _ _ E) as (g & Hg & _). cbn. rewrite Hg.
  destruct (Forall2_lookup_l _ _ _ _ _ HF Hg) as (g' & Hg' & Ha). rewrite Hg'. by exists g.
Qed.

Lemma addressed_sound objects l l' : Forall2 addressed l l' -> globals_sound objects l -> globals_sound objects l'.
Proof.
  intros HF Hs name g' Hg'. pose proof (addressed_at l l' name HF) as H. rewrite Hg' in H. destruct H as (g & Hg & Ha).
  destruct (addressed_same _ _ Ha) as (_ & -> & -> & -> & _). by apply Hs.
Qed.

(** What the table of [collect_globals] has for a name. *)
Lemma table_row objects globals entry name g :
  table (all_symbols objects) globals entry -> global_at globals name = Some g ->
  exists x, x ∈ all_symbols objects /\ offers name x /\ stands_for objects g x.
Proof.
  intros HT Hg. rewrite (t_at _ _ _ HT) in Hg. apply select_Some in Hg.
  destruct (selects_in objects (offered (all_symbols objects) name) g) as (x & Hx & Hsf); [|done|].
  - intros x Hx. apply all_symbols_at. by apply list_elem_of_filter in Hx as [_ Hx].
  - apply list_elem_of_filter in Hx as [Ho Hx]. by exists x.
Qed.

Lemma table_sound objects globals entry : table (all_symbols objects) globals entry -> globals_sound objects globals.
Proof.
  intros HT name g Hg. destruct (table_row _ _ _ _ _ HT Hg) as (x & _ & (Hgl & Hd & Hn) & (E1 & E2 & _ & E4 & E5)).
  cbv zeta. rewrite E1, E2, E5, E4. split_and!; [done|done|]. intros Hc. by rewrite Hc, orb_false_r in Hd.
Qed.

Lemma symbol_of objects x : objects_ok objects -> x ∈ all_symbols objects ->
  exists o, objects !! x.1.1 = Some o /\ symbols o !! x.1.2 = Some x.2 /\ symbol_wf x.2 /\ symbol_valid o x.2 = true /\
            object_wf o /\ object_valid o = true.
Proof.
  intros Hok (o & Ho & Hs)%all_symbols_elem. exists o. destruct (list.Forall_lookup_1 _ _ _ _ Hok Ho) as [Hwf Hv].
  split_and!; [done|done|by apply (list.Forall_lookup_1 _ _ _ _ (owf_symbols _ Hwf) Hs)| |done|done].
  unfold object_valid in Hv. rewrite !andb_true_iff in Hv. destruct Hv as [[_ Hv] _].
  rewrite forallb_forall in Hv. apply Hv, list_elem_of_In. by eapply list_elem_of_lookup_2.
Qed.

Lemma fold_max_u64 l a : is_u64 a -> Forall is_u64 l -> is_u64 (fold_left Z.max l a).
Proof. intros Ha Hl. revert a Ha. induction Hl as [|b l Hb Hl IH]; intros a Ha; cbn; [done|]. apply IH. unfold is_u64 in *. lia. Qed.

Lemma names_at (globals : list GlobalDefinition) g i :
  NoDup (gd_name <$> globals) -> globals !! i = Some g -> global_at globals (gd_name g) = Some g.
Proof.
  intros Hn Hg. destruct (global_index globals (gd_name g)) as [j|] eqn:Ej.
  - unfold global_at. rewrite Ej. cbn. destruct (global_index_Some _ _ _ Ej) as (g' & Hg' & E). rewrite Hg'. f_equal.
    assert (i = j) as ->; [|congruence]. eapply NoDup_lookup; [exact Hn|..]; rewrite list_lookup_fmap; [by rewrite Hg|rewrite Hg'; cbn; by rewrite E].
  - unfold global_index in Ej. rewrite index_where_None in Ej. specialize (Ej g ltac:(by eapply list_elem_of_lookup_2)).
    by apply bool_decide_eq_false in Ej.
Qed.

Lemma table_commons_u64 objects globals entry :
  objects_ok objects -> table (all_symbols objects) globals entry -> commons_u64 globals.
Proof.
  intros Hok HT. apply list.Forall_forall. intros g Hg. apply list_elem_of_lookup in Hg as [i Hg].
  pose proof (names_at _ _ _ (t_names _ _ _ HT) Hg) as Hat. rewrite (t_at _ _ _ HT) in Hat. apply select_Some in Hat.
  set (l := offered (all_symbols objects) (gd_name g)) in *.
  assert (forall x, x ∈ l -> is_u64 (symbol_size x.2) /\ is_u64 (symbol_value x.2)) as Hu.
  { intros x Hx. apply list_elem_of_filter in Hx as [_ Hx]. destruct (symbol_of _ _ Hok Hx) as (o & _ & _ & [] & _). done. }
  assert (is_u64 0) as H0 by (unfold is_u64; lia). clearbody l.
  revert Hu. destruct Hat as [l x rest E|l x rest E F|x l E F]; intros Hu.
  - destruct (filter_head _ _ _ _ E) as [_ Hx]. destruct (Hu x Hx). unfold global_of, new_global. cbn. by destruct (is_common x.2).
  - assert (forall y, y ∈ x :: rest -> y ∈ l) as Hin. { intros y Hy. rewrite <- F in Hy. by apply list_elem_of_filter in Hy as [_ Hy]. }
    cbn. destruct (Hu x (Hin x ltac:(apply list_elem_of_here))).
    split; apply fold_max_u64; try done; apply list.Forall_forall; intros v Hv; apply list_elem_of_fmap in Hv as (y & -> & Hy);
      apply Hu, Hin; by apply list_elem_of_further.
  - destruct (Hu x ltac:(apply list_elem_of_here)). unfold global_of, new_global. cbn. by destruct (is_common x.2).
Qed.

(** ** One relocation *)

(** The geometry of an output section, without its data. *)
Definition bare (o : OutputSection) : OutputSection := set_data (zeroed 0) o.

Lemma bare_set_data d o : bare (set_data d o) = bare o.
Proof. done. Qed.

Lemma bare_lookup (outputs outputs' : list OutputSection) (u : nat) :
  bare <$> outputs' = bare <$> outputs -> bare (outputs' !!! u) = bare (outputs !!! u).
Proof.
  intros E. assert ((bare <$> outputs') !! u = (bare <$> outputs) !! u) as Eu by (by rewrite E). rewrite !list_lookup_fmap in Eu.
  destruct (outputs !! u) as [o|] eqn:Ho, (outputs' !! u) as [o'|] eqn:Ho'; try done.
  - rewrite (list_lookup_total_correct _ _ _ Ho), (list_lookup_total_correct _ _ _ Ho'). by apply (inj Some) in Eu.
  - by rewrite !list_lookup_total_alt, Ho, Ho'.
Qed.

Lemma bare_fields o o' : bare o' = bare o ->
  os_start o' = os_start o /\ os_memory_size o' = os_memory_size o /\ os_file_size o' = os_file_size o /\
  os_flags o' = os_flags o /\ os_nobits o' = os_nobits o /\ os_name o' = os_name o.
Proof. destruct o, o'. unfold bare, set_data. cbn. intros [= -> -> -> -> -> ->]. done. Qed.

Lemma section_address_bare objects placements outputs outputs' k s :
  bare <$> outputs' = bare <$> outputs -> section_address objects placements outputs' k s = section_address objects placements outputs k s.
Proof.
  intros E. unfold section_address. destruct (placement_for_input _ _ _ _) as [p|]; [|done]. cbn [mbind option_bind].
  destruct (output_section_index _) as [u|]; [|done]. cbn [mbind option_bind]. by destruct (bare_fields _ _ (bare_lookup _ _ u E)) as (-> & _).
Qed.

Lemma symbol_address_bare objects globals placements outputs outputs' fuel k i :
  bare <$> outputs' = bare <$> outputs ->
  symbol_address objects globals placements outputs' fuel k i = symbol_address objects globals placements outputs fuel k i.
Proof.
  intros E. revert k i. induction fuel as [|fuel IH]; intros k i; cbn [symbol_address]; [done|].
  rewrite (section_address_bare _ _ _ _ _ _ E).
  destruct (global_index _ _) as [index|]; [by rewrite !IH|done].
Qed.

(** A field of [width] bytes at [p_field] of output [p_output], and what is stored there. *)
Record Patch := mkPatch {
  p_output : nat;
  p_field : Z;
  p_value : Z;
  p_width : Z;
}.

(** The patch a relocation asks for. *)
Definition patch_of (objects : list CvmObjectFile) (globals : list GlobalDefinition) (placements : list Placement)
    (outputs : list OutputSection) (k : nat) (r : CvmObjectRelocation) : option Patch :=
  let object := objects !!! k in
  let input := Z.to_nat (relocation_section_index r) in
  let width := cvm_object_relocation_width (relocation_type r) in
  u ← output_section_index (section_name (sections object !!! input));
  p ← placement_for_input object k input placements;
  let o := outputs !!! u in
  if os_nobits o || (SIZE_MAX - pl_offset p <? relocation_offset r) then None
  else
    let field := pl_offset p + relocation_offset r in
    if (os_file_size o <? field) || (os_file_size o - field <? width) then None
    else
      symbol ← symbol_address objects globals placements outputs address_fuel k (Z.to_nat (relocation_symbol_index r));
      target ← add_signed symbol (relocation_addend r);
      v ← encode_relocation (relocation_type r) (wrap64 (os_start o + field)) target;
      Some (mkPatch u field v width).

Definition write_patch (outputs : list OutputSection) (p : Patch) : list OutputSection :=
  let o := outputs !!! p_output p in
  <[p_output p := set_data (store_bytes (os_data o) (p_field p) (int_to_bytes (p_width p) (p_value p))) o]> outputs.

Lemma write_le_store data a v w : 0 <= w -> write_le data a v w = store_bytes data a (int_to_bytes w v).
Proof. intros Hw. unfold write_le. rewrite write_loop_store. by rewrite Z2Nat.id. Qed.

Lemma width_cases t : cvm_object_relocation_width t = 4 \/ cvm_object_relocation_width t = 8 \/ cvm_object_relocation_width t = 0.
Proof. unfold cvm_object_relocation_width. destruct (_ || _); [auto|]. destruct (_ =? _); auto. Qed.

Lemma apply_relocation_patch objects globals placements k r outputs :
  apply_relocation objects globals placements k r outputs =
    p ← patch_of objects globals placements outputs k r; Some (write_patch outputs p).
Proof.
  unfold apply_relocation, patch_of. cbv zeta.
  destruct (output_section_index _) as [u|]; [|done]. cbn [mbind option_bind].
  destruct (placement_for_input _ _ _ _) as [p|]; [|done]. cbn [mbind option_bind].
  destruct (os_nobits _ || _); [done|]. destruct (_ || _); [done|].
  destruct (symbol_address _ _ _ _ _ _ _) as [s|]; [|done]. cbn [mbind option_bind].
  destruct (add_signed s _) as [t|]; [|done]. cbn [mbind option_bind].
  destruct (encode_relocation _ _ _) as [v|]; [|done]. cbn [mbind option_bind]. unfold write_patch. cbn [p_output p_field p_value p_width].
  rewrite write_le_store; [done|]. destruct (width_cases (relocation_type r)) as [->|[->| ->]]; lia.
Qed.

Lemma patch_of_bare objects globals placements outputs outputs' k r :
  bare <$> outputs' = bare <$> outputs ->
  patch_of objects globals placements outputs' k r = patch_of objects globals placements outputs k r.
Proof.
  intros E. unfold patch_of. cbv zeta. rewrite (symbol_address_bare _ _ _ _ _ _ _ _ E).
  destruct (output_section_index _) as [u|]; [|done]. cbn [mbind option_bind].
  destruct (bare_fields _ _ (bare_lookup _ _ u E)) as (-> & _ & -> & _ & -> & _). done.
Qed.

Lemma write_patch_bare outputs p : bare <$> write_patch outputs p = bare <$> outputs.
Proof.
  unfold write_patch. rewrite list_fmap_insert, bare_set_data. destruct (lt_dec (p_output p) (length outputs)) as [Hl|Hl].
  - apply list_insert_id. rewrite list_lookup_fmap. by rewrite (list_lookup_lookup_total_lt _ _ Hl).
  - apply list_insert_ge. rewrite length_fmap. lia.
Qed.

(** ** All relocations *)

Fixpoint number_relocations (k : nat) (l : list CvmObjectFile) : list (nat * CvmObjectRelocation) :=
  match l with [] => [] | o :: l => (pair k <$> relocations o) ++ number_relocations (S k) l end.

Definition all_relocations (objects : list CvmObjectFile) : list (nat * CvmObjectRelocation) := number_relocations 0 objects.

Fixpoint apply_all (objects : list CvmObjectFile) (globals : list GlobalDefinition) (placements : list Placement)
    (l : list (nat * CvmObjectRelocation)) (outputs : list OutputSection) : option (list OutputSection) :=
  match l with
  | [] => Some outputs
  | x :: l => outputs ← apply_relocation objects globals placements x.1 x.2 outputs; apply_all objects globals placements l outputs
  end.

Lemma apply_all_app objects globals placements l l' outputs :
  apply_all objects globals placements (l ++ l') outputs =
    outputs ← apply_all objects globals placements l outputs; apply_all objects globals placements l' outputs.
Proof.
  revert outputs. induction l as [|x l IH]; intros outputs; cbn [apply_all app]; [done|].
  destruct (apply_relocation _ _ _ _ _ _); [|done]. apply IH.
Qed.

Lemma apply_relocations_all objects globals placements outputs :
  apply_relocations objects globals placements outputs = apply_all objects globals placements (all_relocations objects) outputs.
Proof.
  unfold apply_relocations, all_relocations. generalize 0%nat as k. generalize objects at 2 4 as l.
  intros l. revert outputs. induction l as [|o l IH]; intros outputs k; cbn [apply_objects number_relocations]; [done|].
  rewrite apply_all_app. assert (forall rs outputs, apply_object objects globals placements k rs outputs =
                                   apply_all objects globals placements (pair k <$> rs) outputs) as ->.
  { induction rs as [|r rs IHr]; intros out; cbn [apply_object apply_all fmap list_fmap]; [done|]. cbn [fst snd].
    destruct (apply_relocation _ _ _ _ _ _); [|done]. apply IHr. }
  destruct (apply_all _ _ _ _ _); [|done]. apply IH.
Qed.

Lemma number_relocations_elem k l x :
  x ∈ number_relocations k l <-> (k <= x.1)%nat /\ exists o, l !! (x.1 - k)%nat = Some o /\ x.2 ∈ relocations o.
Proof.
  revert k. induction l as [|o l IH]; intros k; cbn [number_relocations].
  { rewrite elem_of_nil. split; [done|]. intros (_ & o & H & _). by rewrite lookup_nil in H. }
  rewrite elem_of_app, IH, list_elem_of_fmap. split.
  - intros [(r & -> & Hr)|(Hk & o' & H & Hr)].
    + split; [cbn; lia|]. exists o. cbn. by rewrite Nat.sub_diag.
    + split; [lia|]. exists o'. split; [|done]. by replace (x.1 - k)%nat with (S (x.1 - S k))%nat by lia.
  - intros (Hk & o' & H & Hr). destruct (decide (x.1 = k)) as [E|Hne].
    + left. rewrite E, Nat.sub_diag in H. injection H as ->. exists x.2. split; [|done]. rewrite <- E. by destruct x.
    + right. split; [lia|]. exists o'. split; [|done]. by replace (x.1 - k)%nat with (S (x.1 - S k))%nat in H by lia.
Qed.

Lemma all_relocations_elem objects x :
  x ∈ all_relocations objects <-> exists o, objects !! x.1 = Some o /\ x.2 ∈ relocations o.
Proof.
  unfold all_relocations. rewrite number_relocations_elem, Nat.sub_0_r. split; [by intros [_ ?]|]. intros H. split; [lia|done].
Qed.

(** The loops write the patches of the relocations, one after the other. *)
Lemma apply_all_patches objects globals placements l outputs result :
  apply_all objects globals placements l outputs = Some result ->
  exists patches, Forall2 (fun x p => patch_of objects globals placements outputs x.1 x.2 = Some p) l patches /\
    result = fold_left write_patch patches outputs.
Proof.
  revert outputs. induction l as [|x l IH]; intros outputs; cbn [apply_all].
  { intros [= <-]. exists []. by split. }
  rewrite apply_relocation_patch. destruct (patch_of _ _ _ _ _ _) as [p|] eqn:Ep; [|done]. cbn [mbind option_bind].
  intros (ps & HF & ->)%IH. exists (p :: ps). split; [|done]. constructor; [done|].
  eapply list.Forall2_impl; [exact HF|]. intros y q Hq. cbv beta in Hq |- *.
  by rewrite (patch_of_bare _ _ _ outputs (write_patch outputs p)) in Hq by apply write_patch_bare.
Qed.

Definition covers (p : Patch) (u : nat) (b : Z) : Prop := p_output p = u /\ p_field p <= b < p_field p + p_width p.

Lemma int_to_bytes_length w v : 0 <= w -> Z.of_nat (length (int_to_bytes w v)) = w.
Proof. intros Hw. rewrite length_int_to_bytes. lia. Qed.

Lemma write_patch_lookup outputs p u out :
  outputs !! u = Some out -> exists out', write_patch outputs p !! u = Some out' /\
    (if decide (p_output p = u)
     then out' = set_data (store_bytes (os_data out) (p_field p) (int_to_bytes (p_width p) (p_value p))) out else out' = out).
Proof.
  intros Hu. unfold write_patch. destruct (decide (p_output p = u)) as [->|Hne].
  - rewrite list_lookup_insert_eq by (by eapply lookup_lt_Some). by rewrite (list_lookup_total_correct _ _ _ Hu); eauto.
  - rewrite list_lookup_insert_ne by done. eauto.
Qed.

(** Bytes that no patch covers stay. *)
Lemma patches_outside patches outputs u out :
  Forall (fun p => 0 <= p_width p) patches -> outputs !! u = Some out ->
  exists out', fold_left write_patch patches outputs !! u = Some out' /\ bare out' = bare out /\
    ram_size (os_data out') = ram_size (os_data out) /\ (ram_wf (os_data out) -> ram_wf (os_data out')) /\
    forall b, (forall p, p ∈ patches -> ~ covers p u b) -> ram_byte (os_data out') b = ram_byte (os_data out) b.
Proof.
  intros Hw. revert outputs out. induction Hw as [|p ps Hp Hps IH]; intros outputs out Hu; cbn [fold_left].
  { exists out. by split_and!. }
  destruct (write_patch_lookup outputs p u out Hu) as (mid & Hm & Hcase).
  destruct (IH _ _ Hm) as (out' & H1 & H2 & H3 & H4 & H5). exists out'.
  destruct (decide (p_output p = u)) as [E|Hne]; subst mid.
  - split_and!; [done|by rewrite H2| | |].
    + rewrite H3. apply store_bytes_size.
    + intros Hwf. apply H4. cbn. apply store_bytes_wf; [done|]. apply int_to_bytes_u8.
    + intros b Hb. rewrite H5 by (intros q Hq; apply Hb; by apply list_elem_of_further). cbn. apply store_outside.
      rewrite int_to_bytes_length by done. specialize (Hb p ltac:(apply list_elem_of_here)). unfold covers in Hb. lia.
  - split_and!; [done|done|done|done|]. intros b Hb. apply H5. intros q Hq. apply Hb. by apply list_elem_of_further.
Qed.

(** A byte that a patch covers and no later one does is there at the end. *)
Lemma patches_byte patches outputs i p u out b :
  Forall (fun p => 0 <= p_width p) patches -> patches !! i = Some p -> outputs !! u = Some out -> covers p u b ->
  (forall j q, (i < j)%nat -> patches !! j = Some q -> ~ covers q u b) ->
  exists out', fold_left write_patch patches outputs !! u = Some out' /\
    ram_byte (os_data out') b = byte_at (p_value p) (b - p_field p).
Proof.
  intros Hw. revert outputs out i. induction Hw as [|q ps Hq Hps IH]; intros outputs out i Hi Hu Hc Hap; [done|]. cbn [fold_left].
  destruct (write_patch_lookup outputs q u out Hu) as (mid & Hm & Hcase). destruct i as [|i].
  - injection Hi as ->. destruct Hc as [Eu Hc]. rewrite decide_True in Hcase by done.
    destruct (patches_outside ps _ u mid Hps Hm) as (out' & H1 & _ & _ & _ & H5). exists out'. split; [done|]. rewrite H5.
    + subst mid. cbn. rewrite store_bytes_byte. destruct (Z.leb_spec (p_field p) b); [|lia].
      unfold int_to_bytes. rewrite list_lookup_fmap, lookup_seqZ_lt by lia. cbn. f_equal. lia.
    + intros q' Hq'. apply list_elem_of_lookup in Hq' as [j Hj]. apply (Hap (S j) q'); [lia|done].
  - eapply (IH _ mid i); [done|done|done|]. intros j q' Hij Hj. apply (Hap (S j)); [lia|done].
Qed.

(** ** What the fields mean *)

(** The address that a field of a relocation of [type] at [place] denotes. *)
Definition relocation_value (type place v : Z) : Z :=
  if type =? CVM_OBJECT_RELOCATION_REL32 then wrap64 (place + 4 + (if v <? 2 ^ 31 then v else v - 2 ^ 32)) else v.

Lemma encode_meaning type place target v :
  is_u64 place -> is_u64 target -> cvm_object_relocation_width type <> 0 -> encode_relocation type place target = Some v ->
  0 <= v < 2 ^ (8 * cvm_object_relocation_width type) /\ relocation_value type place v = target.
Proof.
  unfold encode_relocation, relocation_value, cvm_object_relocation_width, UINT32_MAX, INT32_MAX. intros Hp Ht Hw.
  destruct (Z.eqb_spec type CVM_OBJECT_RELOCATION_ABS32) as [->|]; cbn [orb].
  { change (CVM_OBJECT_RELOCATION_ABS32 =? CVM_OBJECT_RELOCATION_REL32) with false. unfold is_u64 in Ht.
    destruct (Z.ltb_spec 0xFFFFFFFF target); [done|]. intros [= <-]. split; [lia|done]. }
  destruct (Z.eqb_spec type CVM_OBJECT_RELOCATION_REL32) as [->|].
  2:{ intros [= <-]. destruct (type =? CVM_OBJECT_RELOCATION_ABS64); [|done]. split; [exact Ht|done]. }
  pose proof (wrap64_u64 (place + 4)) as Hn.
  assert (forall d, wrap64 (place + 4 + d) = wrap64 (wrap64 (place + 4) + d)) as Hwrap.
  { intros d. unfold wrap64. by rewrite Z.add_mod_idemp_l. }
  rewrite Hwrap. set (next := wrap64 (place + 4)) in *. clearbody next. unfold is_u64 in *.
  destruct (Z.leb_spec next target).
  - destruct (Z.ltb_spec 0x7FFFFFFF (target - next)); [done|]. intros [= <-]. split; [lia|].
    rewrite (proj2 (Z.ltb_lt _ _)) by lia. replace (next + (target - next)) with target by lia. by apply wrap64_id.
  - destruct (Z.ltb_spec 0x80000000 (next - target)); [done|]. intros [= <-].
    assert (wrap32 (0 - wrap32 (next - target)) = 2 ^ 32 - (next - target)) as ->.
    { unfold wrap32. rewrite (Z.mod_small (next - target)) by lia. symmetry. apply (Z.mod_unique_pos _ _ (-1)); lia. }
    split; [lia|]. rewrite (proj2 (Z.ltb_ge _ _)) by lia. replace (next + _) with target by lia. by apply wrap64_id.
Qed.

Lemma add_signed_spec s a t : is_u64 s -> - 2 ^ 63 <= a < 2 ^ 63 -> add_signed s a = Some t -> t = s + a /\ is_u64 t.
Proof.
  unfold add_signed, is_u64, UINT64_MAX. intros Hs Ha. destruct (Z.leb_spec 0 a).
  - destruct (Z.ltb_spec (0xFFFFFFFFFFFFFFFF - a) s); [done|]. intros [= <-]. lia.
  - destruct (Z.ltb_spec s (- (a + 1) + 1)); [done|]. intros [= <-]. lia.
Qed.

(** ** Patches in the layout *)

(** The parts of an output section that the relocations use. *)
Definition same_frame (o o' : OutputSection) : Prop :=
  os_start o' = os_start o /\ os_file_size o' = os_file_size o /\ os_nobits o' = os_nobits o.

Lemma relocation_ok objects k object r :
  objects_ok objects -> objects !! k = Some object -> r ∈ relocations object ->
  relocation_wf r /\ exists s, sections object !! Z.to_nat (relocation_section_index r) = Some s /\
    section_wf s /\ section_valid s = true /\
    cvm_object_relocation_width (relocation_type r) <> 0 /\
    relocation_offset r + cvm_object_relocation_width (relocation_type r) <= file_size s /\
    exists y, symbols object !! Z.to_nat (relocation_symbol_index r) = Some y.
Proof.
  intros Hok Hk Hr. destruct (list.Forall_lookup_1 _ _ _ _ Hok Hk) as [Hwf Hv].
  assert (relocation_wf r) as Hrw by (eapply list.Forall_forall; [apply (owf_relocations _ Hwf)|done]). split; [done|].
  assert (relocation_valid object r = true) as Hrv.
  { pose proof Hv as Hv'. unfold object_valid in Hv'. rewrite !andb_true_iff in Hv'. destruct Hv' as [_ Hv'].
    rewrite forallb_forall in Hv'. by apply Hv', list_elem_of_In. }
  unfold relocation_valid in Hrv. apply negb_true_iff in Hrv. rewrite !orb_false_iff in Hrv.
  destruct Hrv as [[[[H1 H2] H3] H4] H5]. apply Z.leb_gt in H1, H3. apply Z.eqb_neq in H2. apply Z.ltb_ge in H4, H5.
  destruct Hrw as [R1 R2 R3 R4 R5]. unfold section_count, symbol_count in *.
  destruct (lookup_lt_is_Some_2 (sections object) (Z.to_nat (relocation_section_index r)) ltac:(lia)) as [s Hs].
  rewrite (list_lookup_total_correct _ _ _ Hs) in *. exists s.
  destruct (section_ok object _ s (conj Hwf Hv) Hs) as [W V].
  split_and!; [done|done|done|done|lia|]. apply lookup_lt_is_Some_2. lia.
Qed.

(** Where a relocation is, and what is written there. *)
Record patched (objects : list CvmObjectFile) (globals : list GlobalDefinition) (placements : list Placement)
    (laid outputs : list OutputSection) (k : nat) (r : CvmObjectRelocation) (P : Patch)
    (object : CvmObjectFile) (s : CvmObjectSection) (p : Placement) (out : OutputSection) : Prop := {
  pt_wf : relocation_wf r;
  pt_object : objects !! k = Some object;
  pt_section : sections object !! Z.to_nat (relocation_section_index r) = Some s;
  pt_output : laid !! p_output P = Some out /\ os_nobits out = false;
  pt_placement : placements !! placement_index k (p_output P) = Some p /\ pl_input_section p = Z.to_nat (relocation_section_index r);
  pt_placed : placed (p_output P) false object 0 (os_memory_size out) p s;
  pt_field : p_field P = pl_offset p + relocation_offset r;
  pt_width : p_width P = cvm_object_relocation_width (relocation_type r) /\ 0 < p_width P;
  pt_inside : 0 <= relocation_offset r /\ relocation_offset r + p_width P <= file_size s;
  pt_value : exists S T,
    symbol_address objects globals placements outputs address_fuel k (Z.to_nat (relocation_symbol_index r)) = Some S /\
    add_signed S (relocation_addend r) = Some T /\
    encode_relocation (relocation_type r) (wrap64 (os_start out + p_field P)) T = Some (p_value P);
}.

Lemma patch_of_spec objects globals placements base laid outputs k object r P :
  objects_ok objects -> layout_ok objects base laid placements ->
  (forall u o, laid !! u = Some o -> exists o', outputs !! u = Some o' /\ same_frame o o') ->
  objects !! k = Some object -> r ∈ relocations object ->
  patch_of objects globals placements outputs k r = Some P ->
  exists s p out, patched objects globals placements laid outputs k r P object s p out.
Proof.
  intros Hok HL Hsame Hk Hr. destruct (relocation_ok _ _ _ _ Hok Hk Hr) as (Hrw & s & Hs & W & V & Hw & Hin & _).
  unfold patch_of. cbv zeta. rewrite (list_lookup_total_correct _ _ _ Hk), (list_lookup_total_correct _ _ _ Hs).
  destruct (output_section_index (section_name s)) as [u|] eqn:Eu; [|done]. cbn [mbind option_bind].
  destruct (section_placed _ _ _ _ _ _ _ _ _ HL Hk Hs Eu) as (p & o & out & _ & Hout & _ & -> & Hpn & Hpp & Hpl).
  cbn [mbind option_bind]. destruct (Hsame _ _ Hout) as (out' & Hout' & E1 & E2 & E3).
  rewrite (list_lookup_total_correct _ _ _ Hout'), E1, E2, E3. destruct (os_nobits out) eqn:En; [done|]. cbn [orb].
  destruct (SIZE_MAX - pl_offset p <? relocation_offset r); [done|]. destruct (_ || _); [done|].
  destruct (symbol_address _ _ _ _ _ _ _) as [S|] eqn:ES; [|done]. cbn [mbind option_bind].
  destruct (add_signed S _) as [T|] eqn:ET; [|done]. cbn [mbind option_bind].
  destruct (encode_relocation _ _ _) as [v|] eqn:Ev; [|done]. cbn [mbind option_bind]. intros [= <-].
  pose proof (rwf_offset _ Hrw) as R4. unfold is_u64 in R4. exists s, p, out. split; cbn [p_output p_field p_value p_width]; try done.
  - split; [done|]. destruct (width_cases (relocation_type r)) as [->|[->|?]]; lia.
  - lia.
  - exists S, T. done.
Qed.

(** Byte [d] of the field of relocation [x], the one of index [i], lies in the
    field of a relocation that is applied later. *)
Definition overwritten (objects : list CvmObjectFile) (i : nat) (x : nat * CvmObjectRelocation) (d : Z) : Prop :=
  exists j y, (i < j)%nat /\ all_relocations objects !! j = Some y /\ x.1 = y.1 /\
    relocation_section_index x.2 = relocation_section_index y.2 /\
    relocation_offset y.2 <= relocation_offset x.2 + d < relocation_offset y.2 + cvm_object_relocation_width (relocation_type y.2).

(** Only fields of one section of one object can overlap: those of different
    sections lie in different placed sections. *)
Lemma patches_meet objects globals placements base laid outputs x y P Q object object' s t p q out out' b :
  objects_ok objects -> layout_ok objects base laid placements ->
  patched objects globals placements laid outputs x.1 x.2 P object s p out ->
  patched objects globals placements laid outputs y.1 y.2 Q object' t q out' ->
  covers P (p_output P) b -> covers Q (p_output P) b ->
  x.1 = y.1 /\ relocation_section_index x.2 = relocation_section_index y.2 /\
  relocation_offset y.2 <= relocation_offset x.2 + (b - p_field P)
    < relocation_offset y.2 + cvm_object_relocation_width (relocation_type y.2).
Proof.
  intros Hok HL [[A0 _ _ _ _] A1 A2 [A3 A3'] [A4 A4'] A5 A6 [A7 A7'] [A8 A8'] _] [[B0 _ _ _ _] B1 B2 [B3 B3'] [B4 B4'] B5 B6 [B7 B7'] [B8 B8'] _] [_ C] [E D].
  rewrite E in *. assert (out' = out) as -> by congruence.
  destruct (initial_outputs !! p_output P) as [o|] eqn:Ho.
  2:{ apply lookup_ge_None in Ho. apply lookup_lt_Some in A3. rewrite (lk_length _ _ _ _ HL) in A3. cbn in Ho. lia. }
  destruct (lk_each _ _ _ _ HL _ _ _ Ho A3) as (Hlo & _). pose proof (lo_sections _ _ _ _ _ Hlo) as Har. rewrite A3' in Har.
  destruct (section_ok object _ s (list.Forall_lookup_1 _ _ _ _ Hok A1) A2) as [W V].
  destruct (section_ok object' _ t (list.Forall_lookup_1 _ _ _ _ Hok B1) B2) as [W' V'].
  destruct (section_sizes s W V) as (_ & _ & Hs & _). destruct (section_sizes t W' V') as (_ & _ & Ht & _).
  destruct (lt_eq_lt_dec x.1 y.1) as [[Hlt|Heq]|Hgt].
  - pose proof (ar_apart _ _ _ _ _ Har _ _ _ _ _ _ _ _ Hlt A1 B1 A4 B4 A5 B5). lia.
  - assert (object' = object) as -> by (rewrite Heq in A1; congruence). assert (q = p) as -> by (rewrite Heq in A4; congruence).
    assert (relocation_section_index x.2 = relocation_section_index y.2) as Hsec by (rewrite A4' in B4'; lia).
    rewrite B7 in *. split_and!; [done|done|lia|lia].
  - pose proof (ar_apart _ _ _ _ _ Har _ _ _ _ _ _ _ _ Hgt B1 A1 B4 A4 B5 A5). lia.
Qed.

(** ** Addresses in the layout *)

(** The address of a symbol that is defined in a section lies in that section. *)
Lemma section_address_in objects placements base laid outputs x a :
  objects_ok objects -> layout_ok objects base laid placements ->
  (forall u o, laid !! u = Some o -> exists o', outputs !! u = Some o' /\ same_frame o o') ->
  x ∈ all_symbols objects -> is_defined x.2 = true -> symbol_section_index x.2 <> CVM_OBJECT_ABSOLUTE_SECTION ->
  section_address objects placements outputs x.1.1 x.2 = Some a ->
  exists object s p u out, objects !! x.1.1 = Some object /\ sections object !! Z.to_nat (symbol_section_index x.2) = Some s /\
    goes_to u s /\ laid !! u = Some out /\ placed u (os_nobits out) object 0 (os_memory_size out) p s /\
    a = os_start out + pl_offset p + symbol_value x.2 /\ symbol_value x.2 <= section_memory_size s /\ is_u64 a.
Proof.
  intros Hok HL Hsame Hx Hd Habs. destruct (symbol_of _ _ Hok Hx) as (object & Hk & Hi & [Y1 Y2 Y3 Y4 Y5] & Hv & Hwf & Hov).
  unfold symbol_valid in Hv. apply negb_true_iff in Hv. rewrite !orb_false_iff in Hv. fold (is_defined x.2) in Hv.
  destruct Hv as [[[[_ Hcnt] _] _] Hval]. unfold is_defined, symbol_is in Hd. rewrite Hd in Hcnt, Hval.
  rewrite (proj2 (Z.eqb_neq _ _) Habs) in Hcnt, Hval. cbn [negb andb] in Hcnt, Hval. apply Z.leb_gt in Hcnt. unfold section_count in Hcnt.
  destruct (lookup_lt_is_Some_2 (sections object) (Z.to_nat (symbol_section_index x.2)) ltac:(lia)) as [s Hs].
  rewrite (list_lookup_total_correct _ _ _ Hs) in Hval. apply orb_false_iff in Hval as [Hval _]. apply Z.ltb_ge in Hval.
  unfold section_address. rewrite (list_lookup_total_correct _ _ _ Hk), (list_lookup_total_correct _ _ _ Hs).
  destruct (output_section_index (section_name s)) as [u|] eqn:Eu.
  2:{ unfold placement_for_input. by rewrite (list_lookup_total_correct _ _ _ Hs), Eu. }
  destruct (section_placed _ _ _ _ _ _ _ _ _ HL Hk Hs Eu) as (p & o & out & _ & Hout & Hlo & -> & _ & _ & Hpl).
  cbn [mbind option_bind]. destruct (Hsame _ _ Hout) as (out' & Hout' & E1 & _). rewrite (list_lookup_total_correct _ _ _ Hout'), E1.
  destruct (pd_inside _ _ _ _ _ _ _ Hpl) as [Hoff Hfit]. destruct (lo_start _ _ _ _ _ Hlo) as [_ Hst].
  destruct (Z.ltb_spec (UINT64_MAX - pl_offset p) (symbol_value x.2)) as [|H1]; [done|]. cbn [orb].
  unfold UINT64_MAX, is_u64 in *. rewrite wrap64_id by (unfold is_u64; lia).
  destruct (Z.ltb_spec (0xFFFFFFFFFFFFFFFF - pl_offset p - symbol_value x.2) (os_start out)) as [|H2]; [done|]. intros [= <-].
  exists object, s, p, u, out. split_and!; try done; lia.
Qed.

Lemma defined_u64 objects placements base laid outputs x a :
  objects_ok objects -> layout_ok objects base laid placements ->
  (forall u o, laid !! u = Some o -> exists o', outputs !! u = Some o' /\ same_frame o o') ->
  x ∈ all_symbols objects -> is_defined x.2 = true -> defined_address objects placements outputs x.1.1 x.1.2 = Some a -> is_u64 a.
Proof.
  intros Hok HL Hsame Hx Hd. unfold defined_address. rewrite (all_symbols_at _ _ Hx).
  destruct (Z.eqb_spec (symbol_section_index x.2) CVM_OBJECT_ABSOLUTE_SECTION).
  - intros [= <-]. by destruct (symbol_of _ _ Hok Hx) as (? & _ & _ & [] & _).
  - intros (? & ? & ? & ? & ? & ? & ? & ? & ? & ? & ? & ? & ?)%(section_address_in _ _ _ _ _ _ _ Hok HL Hsame Hx Hd); done.
Qed.

(** Every address the linker resolves is a 64-bit number. *)
Lemma resolve_u64 objects globals globals' placements base laid outputs entry x a :
  objects_ok objects -> layout_ok objects base laid placements ->
  (forall u o, laid !! u = Some o -> exists o', outputs !! u = Some o' /\ same_frame o o') ->
  table (all_symbols objects) globals entry -> Forall2 addressed globals globals' ->
  x ∈ all_symbols objects -> resolve objects globals' placements outputs x.1.1 x.1.2 = Some a -> is_u64 a.
Proof.
  intros Hok HL Hsame HT HF Hx. unfold resolve. rewrite (all_symbols_at _ _ Hx).
  destruct (is_global x.2 || negb (is_defined x.2)) eqn:Eg.
  2:{ apply orb_false_iff in Eg as [_ Ed]. apply negb_false_iff in Ed. by eapply defined_u64. }
  pose proof (addressed_at globals globals' (symbol_name x.2) HF) as Hat. destruct (global_at globals' _) as [g'|].
  2:{ destruct (is_weak x.2); [|done]. intros [= <-]. unfold is_u64. lia. }
  destruct Hat as (g & Hg & Ha). destruct (table_row _ _ _ _ _ HT Hg) as (y & Hy & (_ & Hd & _) & (E1 & E2 & _ & E4 & E5)).
  destruct (addressed_same _ _ Ha) as (_ & -> & -> & -> & _). destruct (gd_common g) eqn:Ec.
  - intros [= <-]. unfold addressed in Ha. rewrite Ec in Ha. by destruct Ha as (c & Hc & ->).
  - rewrite E1, E2. rewrite <- E4, orb_false_r in Hd. by eapply defined_u64.
Qed.
