(* ===== verification/LinkerImage.v ===== *)
(** The image the linker writes: for sections laid out as [locate_sections]
    does, [write_image] always produces an image that validation accepts, and
    its segments carry the sections. *)

From S2P Require Import Prelude Ram Image ObjectFormat ArchiveFormat BootFormat BootProof BootValid Linker LinkerLayout.
From Stdlib Require Import ZArith Lia Bool.
From stdpp Require Import base list numbers gmap option.

#[local] Open Scope Z_scope.

(** ** Segments *)

(** The output sections that become segments. *)
Definition live (outputs : list OutputSection) : list OutputSection := filter (fun o => os_memory_size o <> 0) outputs.

Definition payload (l : list OutputSection) : Z := sum_sizes (os_file_size <$> l).

(** The segments of the sections [l], the data of the first at [cursor]. *)
Fixpoint segments_at (l : list OutputSection) (cursor virtual_base : Z) (relocatable : bool) : list CvmKernelSegment :=
  match l with
  | [] => []
  | o :: l => output_segment o cursor virtual_base relocatable :: segments_at l (cursor + os_file_size o) virtual_base relocatable
  end.

Fixpoint write_live (l : list OutputSection) (i cursor virtual_base : Z) (relocatable : bool) (image : RAM) : RAM :=
  match l with
  | [] => image
  | o :: l =>
      let image := cvm_kernel_segment_encode image (CVM_KERNEL_HEADER_SIZE + i * CVM_KERNEL_SEGMENT_SIZE)
                     (output_segment o cursor virtual_base relocatable) in
      let image := store_bytes image cursor (ram_bytes (os_data o) 0 (os_file_size o)) in
      write_live l (i + 1) (cursor + os_file_size o) virtual_base relocatable image
  end.

Lemma live_cons o l : live (o :: l) = if decide (os_memory_size o = 0) then live l else o :: live l.
Proof.
  unfold live. rewrite filter_cons. destruct (decide (os_memory_size o = 0)), (decide (os_memory_size o <> 0)); done.
Qed.

Lemma write_segments_live l i cursor vb rel image :
  write_segments l i cursor vb rel image = write_live (live l) i cursor vb rel image.
Proof.
  revert i cursor image. induction l as [|o l IH]; intros i cursor image; cbn [write_segments]; [done|]. rewrite live_cons.
  destruct (Z.eqb_spec (os_memory_size o) 0) as [E|E].
  - rewrite decide_True by done. apply IH.
  - rewrite decide_False by done. cbn [write_live]. rewrite IH. destruct (Z.eqb_spec (os_file_size o) 0) as [->|]; [|done].
    by rewrite Z.add_0_r.
Qed.

Lemma count_segments_live l n size :
  Forall (fun o => 0 <= os_file_size o) l -> size + payload (live l) <= SIZE_MAX ->
  count_segments l n size = Some (n + Z.of_nat (length (live l)), size + payload (live l)).
Proof.
  intros Hl. revert n size. induction Hl as [|o l Ho Hl IH]; intros n size Hs; cbn [count_segments].
  { cbn. by rewrite !Z.add_0_r. }
  rewrite live_cons in *. destruct (Z.eqb_spec (os_memory_size o) 0) as [E|E].
  - rewrite decide_True in * by done. by apply IH.
  - rewrite decide_False in * by done. unfold payload in *. cbn [fmap list_fmap sum_sizes length] in *.
    assert (0 <= sum_sizes (os_file_size <$> live l)) as H0.
    { apply sum_sizes_pos, list.Forall_forall. intros z Hz. apply list_elem_of_fmap in Hz as (y & -> & Hy).
      apply list_elem_of_filter in Hy as [_ Hy]. by eapply list.Forall_forall in Hl. }
    rewrite (proj2 (Z.ltb_ge _ _)) by lia. rewrite IH by lia. f_equal. f_equal; lia.
Qed.

Lemma highest_end_live l v :
  Forall (fun o => os_start o + os_memory_size o <= UINT64_MAX) (live l) ->
  exists e, highest_end l v = Some e /\ v <= e /\ Forall (fun o => os_start o + os_memory_size o <= e) (live l) /\
    (v <= UINT64_MAX -> e <= UINT64_MAX) /\ (live l = [] -> e = v).
Proof.
  revert v. induction l as [|o l IH]; intros v Hl; cbn [highest_end].
  { exists v. split_and!; [done|lia|constructor|done|done]. }
  rewrite live_cons in *. destruct (Z.eqb_spec (os_memory_size o) 0) as [E|E].
  - rewrite decide_True in * by done. by apply IH.
  - rewrite decide_False in * by done. apply list.Forall_cons in Hl as [Ho Hl].
    rewrite (proj2 (Z.ltb_ge _ _)) by lia.
    destruct (IH (if v <? os_start o + os_memory_size o then os_start o + os_memory_size o else v) Hl) as (e & H1 & H2 & H3 & H4 & _).
    exists e. destruct (Z.ltb_spec v (os_start o + os_memory_size o)); (split_and!; [done|lia| |intros; apply H4; lia|done]);
      apply list.Forall_cons; (split; [lia|done]).
Qed.

Definition source_ok (o : OutputSection) : Prop :=
  0 <= os_file_size o /\ ram_wf (os_data o) /\ ram_size (os_data o) = os_file_size o.

Lemma segments_length l cursor vb rel : length (segments_at l cursor vb rel) = length l.
Proof. revert cursor. induction l as [|o l IH]; intros cursor; cbn; [done|]. by rewrite IH. Qed.

Lemma payload_nonneg l : Forall source_ok l -> 0 <= payload l.
Proof. intros H. apply sum_sizes_pos. induction H as [|o l [Ho _] _ IH]; cbn; constructor; done. Qed.

(** What the loop over the sections writes. *)
Lemma write_live_spec l i cursor vb rel image :
  Forall source_ok l -> Forall kernel_segment_wf (segments_at l cursor vb rel) ->
  CVM_KERNEL_HEADER_SIZE + (i + Z.of_nat (length l)) * CVM_KERNEL_SEGMENT_SIZE <= cursor ->
  let image' := write_live l i cursor vb rel image in
  changes_within [(CVM_KERNEL_HEADER_SIZE + i * CVM_KERNEL_SEGMENT_SIZE,
                   CVM_KERNEL_HEADER_SIZE + (i + Z.of_nat (length l)) * CVM_KERNEL_SEGMENT_SIZE);
                  (cursor, cursor + payload l)] image image' /\
  (forall k s, segments_at l cursor vb rel !! k = Some s ->
     ram_bytes image' (CVM_KERNEL_HEADER_SIZE + (i + Z.of_nat k) * CVM_KERNEL_SEGMENT_SIZE) CVM_KERNEL_SEGMENT_SIZE =
       fields_bytes (kernel_segment_fields s)) /\
  (forall k s o, segments_at l cursor vb rel !! k = Some s -> l !! k = Some o ->
     cursor <= ks_file_offset s /\ ks_file_offset s + ks_file_size s <= cursor + payload l /\
     ram_bytes image' (ks_file_offset s) (ks_file_size s) = ram_bytes (os_data o) 0 (os_file_size o)).
Proof.
  unfold CVM_KERNEL_HEADER_SIZE, CVM_KERNEL_SEGMENT_SIZE.
  intros Hl. revert i cursor image. induction Hl as [|o l [H0 [Hwf Hsz]] Hl IH]; intros i cursor image Hsw Hc; cbv zeta.
  { split_and!; [by cbn|done..]. }
  cbn [segments_at length write_live] in *. apply list.Forall_cons in Hsw as [Hs1 Hsw].
  unfold CVM_KERNEL_HEADER_SIZE, CVM_KERNEL_SEGMENT_SIZE.
  set (s1 := output_segment o cursor vb rel) in *. pose proof (payload_nonneg l Hl) as Hp0.
  assert (payload (o :: l) = os_file_size o + payload l) as Ep by done. rewrite Ep.
  destruct (codec_encode kernel_segment_codec image (128 + i * 64) s1 Hs1) as [Eb C1].
  change (encode_fields image (128 + i * 64) CVM_KERNEL_SEGMENT_SIZE (kernel_segment_fields s1)) with
    (cvm_kernel_segment_encode image (128 + i * 64) s1) in Eb, C1.
  set (image1 := cvm_kernel_segment_encode image (128 + i * 64) s1) in *. unfold CVM_KERNEL_SEGMENT_SIZE in Eb, C1.
  set (bytes := ram_bytes (os_data o) 0 (os_file_size o)).
  assert (Z.of_nat (length bytes) = os_file_size o) as Elen by (unfold bytes; rewrite length_ram_bytes; lia).
  assert (changes_within [(cursor, cursor + os_file_size o)] image1 (store_bytes image1 cursor bytes)) as C2.
  { apply (changes_store _ _ _ _ cursor (cursor + os_file_size o)); [by apply ram_bytes_u8|apply list_elem_of_here|lia|lia]. }
  destruct (IH (i + 1) (cursor + os_file_size o) (store_bytes image1 cursor bytes) Hsw ltac:(lia)) as (C3 & T & P).
  cbv zeta in C3, T, P. set (image' := write_live _ _ _ _ _ _) in *.
  assert (forall a n, n <= 64 -> a = 128 + i * 64 -> ram_bytes image' a n = ram_bytes image1 a n) as Hfirst.
  { intros a n Hn ->. unfold ram_bytes. apply list_fmap_ext. intros k b Hb%lookup_seqZ.
    destruct C3 as (_ & _ & ->); [destruct C2 as (_ & _ & ->); [done|]|]; intros r Hr; set_unfold in Hr; destruct_or?; subst; cbn; lia. }
  split_and!.
  - transitivity image1; [|transitivity (store_bytes image1 cursor bytes)].
    + eapply changes_within_weaken; [exact C1|]. intros r Hr%list_elem_of_singleton. subst r. eexists. split; [apply list_elem_of_here|]. cbn. lia.
    + eapply changes_within_weaken; [exact C2|]. intros r Hr%list_elem_of_singleton. subst r. eexists. split; [apply list_elem_of_further, list_elem_of_here|]. cbn. lia.
    + eapply changes_within_weaken; [exact C3|]. intros r Hr. apply elem_of_cons in Hr as [->|Hr%list_elem_of_singleton]; [|subst r].
      * eexists. split; [apply list_elem_of_here|]. cbn. lia.
      * eexists. split; [apply list_elem_of_further, list_elem_of_here|]. cbn. lia.
  - intros [|k] s Hk.
    + injection Hk as <-. rewrite Hfirst by lia. rewrite Z.add_0_r. exact Eb.
    + replace (i + Z.of_nat (S k)) with (i + 1 + Z.of_nat k) by lia. by apply T.
  - intros [|k] s out Hk Ho.
    + injection Hk as <-. injection Ho as <-. cbn [ks_file_offset ks_file_size output_segment s1]. split_and!; [lia|lia|].
      fold bytes. rewrite <- Elen. transitivity (ram_bytes (store_bytes image1 cursor bytes) cursor (Z.of_nat (length bytes))).
      * unfold ram_bytes. apply list_fmap_ext. intros j b Hb%lookup_seqZ. destruct C3 as (_ & _ & ->); [done|].
        intros r Hr. apply elem_of_cons in Hr as [->|Hr%list_elem_of_singleton]; [|subst r]; cbn; lia.
      * apply holds_store_same.
    + destruct (P k s out Hk Ho) as (P1 & P2 & P3). split_and!; [lia|lia|done].
Qed.

(** ** Sections that can be mapped *)

(** In address order, without overlap. *)
Fixpoint ordered (l : list OutputSection) : Prop :=
  match l with [] => True | o :: l => Forall (fun p => os_start o + os_memory_size o <= os_start p) l /\ ordered l end.

Record section_mapped (base : Z) (o : OutputSection) : Prop := {
  sm_flags : 0 <= os_flags o < 8 /\ Z.testbit (os_flags o) 0 = true;
  sm_start : os_start o mod PAGE_ALIGNMENT = 0 /\ base <= os_start o;
  sm_sizes : 0 <= os_file_size o <= os_memory_size o;
  sm_fits : os_start o + os_memory_size o <= UINT64_MAX;
  sm_data : ram_wf (os_data o) /\ ram_size (os_data o) = os_file_size o;
}.

Definition image_size (outputs : list OutputSection) : Z :=
  CVM_KERNEL_HEADER_SIZE + Z.of_nat (length (live outputs)) * CVM_KERNEL_SEGMENT_SIZE + payload (live outputs).

(** What [write_image] needs: the layout, an entry in an executable section and
    a size that a file can have. *)
Record mappable (outputs : list OutputSection) (base entry : Z) : Prop := {
  mp_count : (length outputs <= 4)%nat;
  mp_base : base mod PAGE_ALIGNMENT = 0 /\ is_u64 base;
  mp_each : Forall (section_mapped base) outputs;
  mp_order : ordered outputs;
  mp_entry : Exists (fun o => Z.testbit (os_flags o) 2 = true /\ os_start o <= entry < os_start o + os_memory_size o) outputs;
  mp_size : image_size outputs <= SIZE_MAX;
}.

Lemma live_elem o outputs : o ∈ live outputs <-> os_memory_size o <> 0 /\ o ∈ outputs.
Proof. unfold live. rewrite list_elem_of_filter. done. Qed.

Lemma ordered_live l : ordered l -> ordered (live l).
Proof.
  induction l as [|o l IH]; [done|]. intros [H1 H2]. rewrite live_cons. destruct (decide (os_memory_size o = 0)); [by apply IH|].
  split; [|by apply IH]. apply list.Forall_forall. intros p [_ Hp]%live_elem. by eapply list.Forall_forall in H1.
Qed.

Lemma ordered_lookup l i j a b : ordered l -> (i < j)%nat -> l !! i = Some a -> l !! j = Some b ->
  os_start a + os_memory_size a <= os_start b.
Proof.
  revert i j. induction l as [|o l IH]; intros i j Ho Hij Hi Hj; [done|]. destruct Ho as [H1 H2]. destruct i as [|i], j as [|j]; try lia.
  - injection Hi as ->. cbn in Hj. by apply (list.Forall_lookup_1 _ _ _ _ H1 Hj).
  - apply (IH i j); [done|lia|done|done].
Qed.

Lemma segments_lookup l cursor vb rel k s :
  segments_at l cursor vb rel !! k = Some s ->
  exists o c, l !! k = Some o /\ s = output_segment o c vb rel /\ (Forall source_ok l -> cursor <= c /\ c + os_file_size o <= cursor + payload l).
Proof.
  revert cursor k. induction l as [|o l IH]; intros cursor [|k] H; try done.
  - injection H as <-. exists o, cursor. split_and!; [done|done|]. intros Hl. apply list.Forall_cons in Hl as [[H0 _] Hl].
    pose proof (payload_nonneg l Hl). change (payload (o :: l)) with (os_file_size o + payload l). lia.
  - destruct (IH _ _ H) as (o' & c & H1 & H2 & H3). exists o', c. split_and!; [done|done|].
    intros Hl. apply list.Forall_cons in Hl as [[H0 _] Hl]. change (payload (o :: l)) with (os_file_size o + payload l).
    specialize (H3 Hl). lia.
Qed.

(** The rules for a segment, from the geometry of its section. *)
Lemma output_segment_ok o c base rel :
  section_mapped base o -> is_u64 base -> base mod PAGE_ALIGNMENT = 0 -> os_memory_size o <> 0 -> is_u64 c ->
  kernel_segment_wf (output_segment o c base rel) /\
  forall h size tend, (is_relocatable h = true -> rel = true /\ kh_virtual_base h = base /\
                         os_start o + os_memory_size o <= base + kh_virtual_size h) ->
    tend <= c /\ c + os_file_size o <= size -> segment_ok h size tend (output_segment o c base rel).
Proof.
  intros [[F1 F2] [S1 S2] [Z1 Z2] Ft _] Hb Hbm Hm Hc. unfold is_u64, UINT64_MAX, PAGE_ALIGNMENT in *.
  assert (wrap64 (os_start o - base) = os_start o - base) as Ew by (apply wrap64_id; unfold is_u64; lia).
  assert ((os_start o - base) mod 4096 = 0) as Em by (rewrite Zminus_mod, S1, Hbm; done).
  split.
  - split; [|constructor]. unfold kernel_segment_words, output_segment. cbn [ks_type ks_flags ks_file_offset ks_load_address
      ks_virtual_address ks_file_size ks_memory_size ks_alignment ks_reserved]. unfold PAGE_ALIGNMENT, CVM_SEGMENT_LOAD.
    repeat (apply list.Forall_cons; split; [unfold word_ok; cbn [fst snd]; destruct rel; rewrite ?Ew; lia|]). constructor.
  - intros h size tend Hr [T1 T2]. split; cbn; try done.
    + split; [lia|exact F2].
    + lia.
    + exists 12. done.
    + destruct rel; rewrite ?Ew; done.
    + destruct rel; rewrite ?Ew; unfold UINT64_MAX; lia.
    + intros Hrel. destruct (Hr Hrel) as (-> & -> & Hv). rewrite Ew. lia.
    + lia.
Qed.

(** ** The image *)

Lemma image_header_wf n size entry vb vs rel :
  0 <= n < 2 ^ 16 -> is_u64 size -> is_u64 entry -> is_u64 vb -> is_u64 vs -> header_wf (image_header n size entry vb vs rel).
Proof.
  intros Hn Hs He Hb Hv. pose proof (wrap64_u64 (entry - vb)) as Hw. unfold is_u64 in *. split.
  - unfold kernel_header_words, image_header. cbn -[word_ok wrap64].
    change CVM_KERNEL_FLAG_RELOCATABLE_PHYSICAL with 1.
    repeat (apply list.Forall_cons; split; [unfold word_ok, CVM_KERNEL_FORMAT_MAJOR, CVM_KERNEL_FORMAT_MINOR, CVM_KERNEL_HEADER_SIZE,
      RARCH_M64_ISA_ID, CVM_ISA_VERSION, CVM_ADDRESS_BITS, CVM_BYTE_ORDER_LITTLE,
      CVM_KERNEL_SEGMENT_SIZE; cbn [fst snd]; destruct rel; lia|]).
    constructor.
  - unfold kernel_header_blocks, image_header. cbn. repeat (apply list.Forall_cons; split; [split; [done|]|]); try constructor.
    all: repeat constructor.
Qed.

Lemma live_count outputs : (length (live outputs) <= length outputs)%nat.
Proof. apply length_filter. Qed.

Lemma mapped_sources base l : Forall (section_mapped base) l -> Forall source_ok l.
Proof. intros H. eapply list.Forall_impl; [exact H|]. intros o [_ _ [H1 _] _ [H2 H3]]. done. Qed.

Lemma mapped_live base outputs : Forall (section_mapped base) outputs -> Forall (section_mapped base) (live outputs).
Proof. intros H. apply list.Forall_forall. intros o [_ Ho]%live_elem. by eapply list.Forall_forall in H. Qed.

(** The entry lies in a section that becomes a segment. *)
Lemma mappable_entry outputs base entry : mappable outputs base entry ->
  exists k o, live outputs !! k = Some o /\ Z.testbit (os_flags o) 2 = true /\ os_start o <= entry < os_start o + os_memory_size o.
Proof.
  intros HM. pose proof (mp_entry _ _ _ HM) as He. apply Exists_exists in He as (o & Ho & Hf & Hr).
  apply list_elem_of_In in Ho. assert (o ∈ live outputs) as Hl by (apply live_elem; split; [lia|done]).
  apply list_elem_of_lookup in Hl as [k Hk]. by exists k, o.
Qed.

Definition table_end (outputs : list OutputSection) : Z :=
  CVM_KERNEL_HEADER_SIZE + Z.of_nat (length (live outputs)) * CVM_KERNEL_SEGMENT_SIZE.

(** The segments satisfy the rules of the format. *)
Lemma mappable_segments outputs base entry rel h :
  mappable outputs base entry ->
  kh_segment_count h = Z.of_nat (length (live outputs)) -> kh_segment_table_offset h = CVM_KERNEL_HEADER_SIZE ->
  is_relocatable h = rel ->
  (rel = true -> kh_virtual_base h = base /\ kh_entry_virtual_address h = entry /\
     Forall (fun o => os_start o + os_memory_size o <= base + kh_virtual_size h) (live outputs)) ->
  (rel = false -> kh_entry_physical_address h = entry) ->
  Forall kernel_segment_wf (segments_at (live outputs) (table_end outputs) base rel) /\
  segments_ok (image_size outputs) h (segments_at (live outputs) (table_end outputs) base rel).
Proof.
  intros HM Hn Ho Hrel Hr Hnr. destruct HM as [M1 [M2 M2'] M3 M4 M5 M6] eqn:EM. clear EM.
  pose proof (mapped_live _ _ M3) as ML. pose proof (mapped_sources _ _ ML) as MS. pose proof (payload_nonneg _ MS) as Hp.
  assert (forall k s, segments_at (live outputs) (table_end outputs) base rel !! k = Some s ->
            exists o c, live outputs !! k = Some o /\ section_mapped base o /\ os_memory_size o <> 0 /\
              s = output_segment o c base rel /\ table_end outputs <= c /\ c + os_file_size o <= image_size outputs /\ is_u64 c) as Hseg.
  { intros k s Hk. destruct (segments_lookup _ _ _ _ _ _ Hk) as (o & c & Hl & -> & Hc). specialize (Hc MS).
    pose proof (list.Forall_lookup_1 _ _ _ _ ML Hl) as Hm. assert (o ∈ live outputs) as Hin by (by eapply list_elem_of_lookup_2).
    apply live_elem in Hin as [Hnz _]. exists o, c. pose proof (sm_sizes _ _ Hm).
    unfold image_size, table_end, SIZE_MAX, UINT64_MAX, is_u64, CVM_KERNEL_HEADER_SIZE, CVM_KERNEL_SEGMENT_SIZE in *.
    split_and!; try done; lia. }
  split.
  - apply list.Forall_lookup. intros k s Hk. destruct (Hseg k s Hk) as (o & c & _ & Hm & Hnz & -> & _ & _ & Hc).
    by apply output_segment_ok.
  - split.
    + by rewrite segments_length, Hn.
    + rewrite Ho, Hn. fold (table_end outputs). apply list.Forall_lookup. intros k s Hk.
      destruct (Hseg k s Hk) as (o & c & Hl & Hm & Hnz & -> & C1 & C2 & Hc). apply output_segment_ok; try done.
      intros Hre. rewrite Hrel in Hre. destruct (Hr Hre) as (R1 & R2 & R3). split_and!; [done|done|].
      by apply (list.Forall_lookup_1 _ _ _ _ R3 Hl).
    + intros i j s t Hi Hj Hne. destruct (Hseg i s Hi) as (o & c & Hl & Hm & _ & -> & _).
      destruct (Hseg j t Hj) as (o' & c' & Hl' & Hm' & _ & -> & _).
      assert (os_start o + os_memory_size o <= os_start o' \/ os_start o' + os_memory_size o' <= os_start o) as Hap.
      { pose proof (ordered_live _ M4) as MO. destruct (lt_eq_lt_dec i j) as [[H|H]|H]; [left|done|right]; by eapply ordered_lookup. }
      pose proof (sm_start _ _ Hm). pose proof (sm_start _ _ Hm'). pose proof (sm_fits _ _ Hm). pose proof (sm_fits _ _ Hm').
      pose proof (sm_sizes _ _ Hm). pose proof (sm_sizes _ _ Hm'). unfold UINT64_MAX, is_u64 in *.
      unfold segments_apart, apart. cbn. destruct rel; rewrite ?wrap64_id by (unfold is_u64; lia); lia.
    + destruct (mappable_entry _ _ _ HM) as (k & o & Hk & Hf & He). apply Exists_exists.
      destruct (lookup_lt_is_Some_2 (segments_at (live outputs) (table_end outputs) base rel) k) as [s Hs].
      { rewrite segments_length. by eapply lookup_lt_Some. }
      exists s. split; [apply list_elem_of_In; by eapply list_elem_of_lookup_2|].
      destruct (Hseg k s Hs) as (o' & c & Hl & _ & _ & -> & _). assert (o' = o) as -> by congruence.
      split; [exact Hf|]. rewrite Hrel. cbn. destruct rel.
      * destruct (Hr eq_refl) as (_ & -> & _). done.
      * rewrite (Hnr eq_refl). done.
Qed.

Definition image_header_of (outputs : list OutputSection) (base entry virtual_end : Z) (rel : bool) : CvmKernelHeader :=
  image_header (Z.of_nat (length (live outputs))) (image_size outputs) entry base (virtual_end - base) rel.

Lemma header_of_ok outputs base entry e rel :
  mappable outputs base entry -> base <= e <= UINT64_MAX ->
  (rel = true -> Forall (fun o => os_start o + os_memory_size o <= e) (live outputs)) ->
  header_wf (image_header_of outputs base entry e rel) /\ header_ok (image_size outputs) (image_header_of outputs base entry e rel) /\
  is_relocatable (image_header_of outputs base entry e rel) = rel.
Proof.
  intros HM He Hrel. destruct (mappable_entry _ _ _ HM) as (k & o & Hk & _ & Hen).
  destruct HM as [M1 [M2 M2'] M3 M4 _ M6]. pose proof (mapped_live _ _ M3) as ML. pose proof (mapped_sources _ _ ML) as MS.
  pose proof (payload_nonneg _ MS) as Hp. pose proof (live_count outputs) as Hlc. pose proof (lookup_lt_Some _ _ _ Hk) as Hlt.
  destruct (list.Forall_lookup_1 _ _ _ _ ML Hk) as [_ [_ Hb] _ Hft _].
  unfold image_size, SIZE_MAX, UINT64_MAX, is_u64, CVM_KERNEL_HEADER_SIZE, CVM_KERNEL_SEGMENT_SIZE in *.
  assert (is_relocatable (image_header_of outputs base entry e rel) = rel) as Er by (by destruct rel).
  split_and!; [|split|done]; try done.
  - apply image_header_wf; unfold is_u64, image_size, CVM_KERNEL_HEADER_SIZE, CVM_KERNEL_SEGMENT_SIZE; lia.
  - cbn. destruct rel; split_and!; done.
  - cbn. unfold CVM_KERNEL_MAX_SEGMENTS. lia.
  - cbn. unfold CVM_KERNEL_HEADER_SIZE, CVM_KERNEL_SEGMENT_SIZE. split_and!; [done|done|lia].
  - unfold relocatable_ok. rewrite Er. destruct rel; [|done]. cbn. rewrite wrap64_id by (unfold is_u64; lia).
    pose proof (list.Forall_lookup_1 _ _ _ _ (Hrel eq_refl) Hk) as Hoe. cbn in Hoe. unfold UINT64_MAX. lia.
Qed.

(** The image before its checksums are set. *)
Lemma build_image_spec outputs base entry rel :
  mappable outputs base entry ->
  exists image h, let segments := segments_at (live outputs) (table_end outputs) base rel in
    build_image outputs entry base rel = Some image /\ ram_wf image /\ ram_size image = image_size outputs /\
    cvm_kernel_header_decode image 0 = POk h /\ header_ok (ram_size image) h /\
    kh_segment_table_offset h = CVM_KERNEL_HEADER_SIZE /\ kh_segment_count h = Z.of_nat (length (live outputs)) /\
    kh_entry_physical_address h = (if rel then entry - base else entry) /\
    table_holds image CVM_KERNEL_HEADER_SIZE segments /\ segments_ok (ram_size image) h segments /\
    forall k s o, segments !! k = Some s -> live outputs !! k = Some o ->
      CVM_KERNEL_HEADER_SIZE <= ks_file_offset s /\ ks_file_offset s + ks_file_size s <= ram_size image /\
      ram_bytes image (ks_file_offset s) (ks_file_size s) = ram_bytes (os_data o) 0 (os_file_size o).
Proof.
  intros HM. destruct (mappable_entry _ _ _ HM) as (k0 & o0 & Hk0 & _ & Hen0). pose proof HM as [M1 [M2 M2'] M3 M4 _ M6].
  pose proof (mapped_live _ _ M3) as ML. pose proof (mapped_sources _ _ ML) as MS. pose proof (payload_nonneg _ MS) as Hp.
  pose proof (live_count outputs) as Hlc. pose proof (lookup_lt_Some _ _ _ Hk0) as Hlt.
  destruct (highest_end_live outputs base) as (e & He & Hbe & Hall & Hmax & _).
  { apply list.Forall_forall. intros o Ho. eapply list.Forall_forall in ML; [|exact Ho]. apply ML. }
  assert (base <= UINT64_MAX) as HbM by (unfold is_u64, UINT64_MAX in *; lia). specialize (Hmax HbM).
  set (ve := if rel then e else base). assert (base <= ve <= UINT64_MAX) as Hve by (unfold ve; destruct rel; lia).
  destruct (header_of_ok outputs base entry ve rel HM Hve) as (Hhw & Hho & Hhr). { intros ->. done. }
  set (h := image_header_of outputs base entry ve rel) in *.
  destruct (mappable_segments outputs base entry rel h HM) as [Hsw Hso]; [done|done|done| | |].
  { intros ->. split_and!; [done|done|]. unfold h, image_header_of, image_header. cbn. eapply list.Forall_impl; [exact Hall|].
    intros o Ho. cbn in *. unfold ve. lia. }
  { intros ->. done. }
  set (image0 := cvm_kernel_header_encode (zeroed (image_size outputs)) 0 h).
  destruct (codec_encode kernel_header_codec (zeroed (image_size outputs)) 0 h Hhw) as [Eh C0].
  change (encode_fields _ _ _ _) with image0 in Eh, C0.
  destruct (write_live_spec (live outputs) 0 (table_end outputs) base rel image0 MS Hsw ltac:(unfold table_end; lia)) as (C1 & T & P).
  cbv zeta in C1, T, P. set (image := write_live _ _ _ _ _ _) in *.
  assert (ram_wf image) as Hwf.
  { apply C1, C0, zeroed_wf. unfold image_size, SIZE_MAX, UINT64_MAX, is_u64, CVM_KERNEL_HEADER_SIZE, CVM_KERNEL_SEGMENT_SIZE in *. lia. }
  assert (ram_size image = image_size outputs) as Hsz. { destruct C1 as [-> _]. by destruct C0 as [-> _]. }
  exists image, h. cbv zeta. rewrite Hsz.
  assert (128 <= image_size outputs) as H128 by (unfold image_size, CVM_KERNEL_HEADER_SIZE, CVM_KERNEL_SEGMENT_SIZE; lia).
  split_and!; [|exact Hwf|reflexivity| |exact Hho|reflexivity|reflexivity| | |exact Hso|].
  - unfold build_image. rewrite (count_segments_live outputs 0 0).
    + cbn [mbind option_bind]. rewrite !Z.add_0_l. rewrite (proj2 (Z.eqb_neq _ _)) by lia.
      unfold image_size, CVM_KERNEL_HEADER_SIZE, CVM_KERNEL_SEGMENT_SIZE in M6. rewrite (proj2 (Z.ltb_ge _ _)) by (unfold CVM_KERNEL_HEADER_SIZE, CVM_KERNEL_SEGMENT_SIZE; lia).
      assert ((if rel then highest_end outputs base else Some base) = Some ve) as -> by (unfold ve; by destruct rel).
      cbn [mbind option_bind]. rewrite write_segments_live. done.
    + eapply list.Forall_impl; [exact M3|]. intros o Ho. apply (sm_sizes _ _ Ho).
    + unfold image_size, CVM_KERNEL_HEADER_SIZE, CVM_KERNEL_SEGMENT_SIZE in M6. lia.
  - apply (codec_decode_iff kernel_header_codec); [done|lia|unfold CVM_KERNEL_HEADER_SIZE; lia|]. split; [done|]. rewrite <- Eh.
    unfold ram_bytes. apply list_fmap_ext. intros i b Hb%lookup_seqZ. apply C1. intros r Hr. unfold table_end, CVM_KERNEL_HEADER_SIZE in *.
    apply elem_of_cons in Hr as [->|Hr%list_elem_of_singleton]; [|subst r]; cbn; unfold CVM_KERNEL_SEGMENT_SIZE; lia.
  - cbn. destruct rel; [|done]. apply wrap64_id. destruct (list.Forall_lookup_1 _ _ _ _ ML Hk0) as [_ [_ Hb] _ Hft _].
    unfold is_u64, UINT64_MAX in *. lia.
  - intros k s Hk. split; [by apply (list.Forall_lookup_1 _ _ _ _ Hsw Hk)|]. exact (T k s Hk).
  - intros k s o Hk Ho. destruct (P k s o Hk Ho) as (P1 & P2 & P3). unfold table_end, image_size, CVM_KERNEL_HEADER_SIZE, CVM_KERNEL_SEGMENT_SIZE in *.
    split_and!; [lia|lia|done].
Qed.

(** The image that is written: accepted by validation, with the sections as segments. *)
Lemma write_image_spec outputs base entry rel :
  mappable outputs base entry ->
  exists image h, let segments := segments_at (live outputs) (table_end outputs) base rel in
    write_image outputs entry base rel = Some image /\ ram_wf image /\ ram_size image = image_size outputs /\ exf_image image h /\
    kh_segment_table_offset h = CVM_KERNEL_HEADER_SIZE /\ kh_segment_count h = Z.of_nat (length (live outputs)) /\
    kh_entry_physical_address h = (if rel then entry - base else entry) /\
    table_holds image CVM_KERNEL_HEADER_SIZE segments /\
    forall k s o, segments !! k = Some s -> live outputs !! k = Some o ->
      ram_bytes image (ks_file_offset s) (ks_file_size s) = ram_bytes (os_data o) 0 (os_file_size o).
Proof.
  intros HM. destruct (build_image_spec outputs base entry rel HM) as (image & h & Hb & Hwf & Hsz & Hd & Hho & Hto & Hsc & Hpe & Ht & Hs & Hp).
  cbv zeta in *. destruct (exf_finalize_validates image h _ Hwf ltac:(pose proof (ho_table _ _ Hho); unfold CVM_KERNEL_SEGMENT_SIZE in *; pose proof (ho_count _ _ Hho); lia) Hd Hho
    ltac:(rewrite Hto; exact Ht) Hs) as (image' & c & d & Hf & Hv & Hsz' & Hsame & Hwf').
  exists image', (set_header_crc32 c (set_payload_crc32 d h)).
  assert (forall a n, CVM_KERNEL_HEADER_SIZE <= a -> 0 <= n -> a + n <= ram_size image -> ram_bytes image' a n = ram_bytes image a n) as Hpart.
  { intros a n Ha Hn Han. apply list_fmap_ext. intros i b Hi%lookup_seqZ.
    assert (ram_bytes image' CVM_KERNEL_HEADER_SIZE (ram_size image - CVM_KERNEL_HEADER_SIZE) !! Z.to_nat (b - CVM_KERNEL_HEADER_SIZE) =
            ram_bytes image CVM_KERNEL_HEADER_SIZE (ram_size image - CVM_KERNEL_HEADER_SIZE) !! Z.to_nat (b - CVM_KERNEL_HEADER_SIZE)) as E by (by rewrite Hsame).
    unfold ram_bytes in E. rewrite !list_lookup_fmap, !lookup_seqZ_lt in E by lia. cbn in E. injection E as E.
    by replace (CVM_KERNEL_HEADER_SIZE + Z.of_nat (Z.to_nat (b - CVM_KERNEL_HEADER_SIZE))) with b in E by lia. }
  assert (exf_image image' (set_header_crc32 c (set_payload_crc32 d h))) as Hexf.
  { pose proof (validate_sound image' Hwf') as V. by rewrite Hv in V. }
  split_and!; [|exact Hwf'| |exact Hexf|exact Hto|exact Hsc|exact Hpe| |].
  - unfold write_image. rewrite Hb. cbn [mbind option_bind]. by rewrite Hf, Hv.
  - by rewrite Hsz'.
  - intros k s Hk. destruct (Ht k s Hk) as [W B]. split; [done|]. rewrite <- B. apply Hpart; unfold CVM_KERNEL_HEADER_SIZE, CVM_KERNEL_SEGMENT_SIZE; try lia.
    pose proof (lookup_lt_Some _ _ _ Hk) as Hlt. destruct (ho_table _ _ Hho) as (_ & _ & Hte). rewrite Hto in Hte. pose proof (ss_count _ _ _ Hs) as Hc.
    unfold CVM_KERNEL_HEADER_SIZE, CVM_KERNEL_SEGMENT_SIZE in *. lia.
  - intros k s o Hk Ho. destruct (Hp k s o Hk Ho) as (P1 & P2 & <-). apply Hpart; [done| |done].
    pose proof (ss_each _ _ _ Hs) as He. destruct (segments_lookup _ _ _ _ _ _ Hk) as (o' & c' & Ho' & -> & _). cbn.
    destruct HM as [_ _ M3 _ _ _]. pose proof (list.Forall_lookup_1 _ _ _ _ (mapped_live _ _ M3) Ho') as Hm. apply (sm_sizes _ _ Hm).
Qed.
