(* ===== verification/LinkerProof.v ===== *)
(** Linking as a whole: what [link_sections] makes of the objects. *)

From S2P Require Import Prelude Ram Image ObjectFormat ArchiveFormat BootFormat BootProof BootValid Linker LinkerSymbols LinkerLayout LinkerReloc LinkerImage.
From Stdlib Require Import ZArith Lia Bool.
From stdpp Require Import base list numbers gmap option.

#[local] Open Scope Z_scope.

(** ** The specification *)

(** The rows of the table are the selected definitions, commons with an address. *)
Definition resolution (objects : list CvmObjectFile) (globals : list GlobalDefinition) : Prop :=
  NoDup (gd_name <$> globals) /\
  forall name, match global_at globals name with
               | Some g' => exists g, select (offered (all_symbols objects) name) = Some g /\ addressed g g'
               | None => select (offered (all_symbols objects) name) = None
               end.

(** The output section and the offset in it of the field of a relocation. *)
Definition field_of (objects : list CvmObjectFile) (placements : list Placement) (x : nat * CvmObjectRelocation) : option (nat * Z) :=
  let object := objects !!! x.1 in
  let input := Z.to_nat (relocation_section_index x.2) in
  u ← output_section_index (section_name (sections object !!! input));
  p ← placement_for_input object x.1 input placements;
  Some (u, pl_offset p + relocation_offset x.2).

(** The field of [x], relocation number [i], denotes the address of its symbol
    plus the addend: [V] is the number that does, and the field holds its bytes,
    but for those that a later relocation overwrites. *)
Definition relocated (objects : list CvmObjectFile) (globals : list GlobalDefinition) (placements : list Placement)
    (outputs : list OutputSection) (i : nat) (x : nat * CvmObjectRelocation) : Prop :=
  let width := cvm_object_relocation_width (relocation_type x.2) in
  exists u field out S V, field_of objects placements x = Some (u, field) /\ outputs !! u = Some out /\ os_nobits out = false /\
    resolve objects globals placements outputs x.1 (Z.to_nat (relocation_symbol_index x.2)) = Some S /\
    is_u64 (S + relocation_addend x.2) /\ 0 <= V < 2 ^ (8 * width) /\
    relocation_value (relocation_type x.2) (os_start out + field) V = S + relocation_addend x.2 /\
    (forall d, 0 <= d < width -> ~ overwritten objects i x d -> ram_byte (os_data out) (field + d) = byte_at V d) /\
    ((forall d, 0 <= d < width -> ~ overwritten objects i x d) -> bytes_to_int (ram_bytes (os_data out) field width) = V).

Definition in_field (objects : list CvmObjectFile) (placements : list Placement) (u : nat) (b : Z) : Prop :=
  exists x field, x ∈ all_relocations objects /\ field_of objects placements x = Some (u, field) /\
    field <= b < field + cvm_object_relocation_width (relocation_type x.2).

(** [out] is [laid] with its relocations applied and, for [.bss], with room for the commons. *)
Record finished (objects : list CvmObjectFile) (globals : list GlobalDefinition) (placements : list Placement) (u : nat)
    (laid out : OutputSection) : Prop := {
  fi_start : os_start out = os_start laid;
  fi_file : os_file_size out = os_file_size laid;
  fi_flags : os_flags out = os_flags laid /\ os_nobits out = os_nobits laid;
  fi_memory : u <> 3%nat -> os_memory_size out = os_memory_size laid;
  fi_commons : u = 3%nat -> is_u64 (os_memory_size out) /\
    commons_within globals (os_start laid + os_memory_size laid) (os_start out + os_memory_size out);
  fi_data : ram_wf (os_data out) /\ ram_size (os_data out) = os_file_size out;
  fi_bytes : forall b, ~ in_field objects placements u b -> ram_byte (os_data out) b = ram_byte (os_data laid) b;
}.

Record linked (objects : list CvmObjectFile) (base : Z) (globals : list GlobalDefinition) (placements : list Placement)
    (laid outputs : list OutputSection) : Prop := {
  ln_resolution : resolution objects globals;
  ln_layout : layout_ok objects base laid placements;
  ln_length : length outputs = 4%nat;
  ln_finished : forall u o out, laid !! u = Some o -> outputs !! u = Some out -> finished objects globals placements u o out;
  ln_relocated : forall i x, all_relocations objects !! i = Some x -> relocated objects globals placements outputs i x;
}.

(** ** The steps *)

Lemma initial_nobits u o : initial_outputs !! u = Some o -> os_nobits o = bool_decide (u = 3%nat).
Proof. destruct u as [|[|[|[|u]]]]; intros [= <-]; done. Qed.

Lemma addressed_names globals globals' : Forall2 addressed globals globals' -> gd_name <$> globals' = gd_name <$> globals.
Proof. induction 1 as [|g g' l l' Hg _ IH]; [done|]. cbn. f_equal; [apply (addressed_same _ _ Hg)|done]. Qed.

Lemma resolution_of objects globals globals' entry :
  table (all_symbols objects) globals entry -> Forall2 addressed globals globals' -> resolution objects globals'.
Proof.
  intros HT HF. split; [rewrite (addressed_names _ _ HF); apply (t_names _ _ _ HT)|].
  intros name. pose proof (addressed_at globals globals' name HF) as H. rewrite (t_at _ _ _ HT) in H. done.
Qed.

(** What [allocate_common_symbols] does to the table and to [.bss]. *)
Lemma allocate_spec objects base globals entry placements laid globals' outputs :
  objects_ok objects -> layout_ok objects base laid placements -> table (all_symbols objects) globals entry ->
  allocate_common_symbols globals laid = Some (globals', outputs) ->
  Forall2 addressed globals globals' /\
  exists bss hi, laid !! 3%nat = Some bss /\ outputs = <[3%nat := set_memory_size hi bss]> laid /\ is_u64 hi /\
    commons_within globals' (os_start bss + os_memory_size bss) (os_start bss + hi).
Proof.
  intros Hok HL HT. unfold allocate_common_symbols. cbv zeta.
  destruct (lookup_lt_is_Some_2 laid 3%nat ltac:(rewrite (lk_length _ _ _ _ HL); lia)) as [bss Hb].
  rewrite (list_lookup_total_correct _ _ _ Hb).
  destruct (allocate_commons _ _ _) as [[g hi]|] eqn:E; [|done]. cbn. intros [= <- <-].
  destruct (lk_each _ _ _ _ HL 3%nat _ bss eq_refl Hb) as (Hlo & _). destruct (lo_start _ _ _ _ _ Hlo) as [_ H0].
  destruct (lo_fits _ _ _ _ _ Hlo) as [H1 H2]. unfold UINT64_MAX in H2.
  apply allocate_commons_spec in E as (A1 & A2 & A3 & A4); [|unfold is_u64; lia|unfold is_u64; lia|by eapply table_commons_u64].
  split; [done|]. exists bss, hi. done.
Qed.

Lemma set_memory_frame objects base placements laid bss hi u o :
  layout_ok objects base laid placements -> laid !! 3%nat = Some bss -> laid !! u = Some o ->
  exists o', <[3%nat := set_memory_size hi bss]> laid !! u = Some o' /\ same_frame o o' /\
    os_flags o' = os_flags o /\ os_data o' = os_data o /\ (u <> 3%nat -> o' = o) /\ (u = 3%nat -> os_memory_size o' = hi).
Proof.
  intros HL Hb Hu. destruct (decide (u = 3%nat)) as [->|Hne].
  - rewrite list_lookup_insert_eq by (by eapply lookup_lt_Some). assert (bss = o) as -> by congruence.
    eexists. split; [done|]. done.
  - rewrite list_lookup_insert_ne by done. exists o. done.
Qed.

Lemma bytes_of_field data a w v : holds_at data a (int_to_bytes w v) -> 0 <= w -> 0 <= v < 2 ^ (8 * w) -> bytes_to_int (ram_bytes data a w) = v.
Proof.
  intros H Hw Hv. unfold holds_at in H. rewrite int_to_bytes_length in H by done. rewrite H.
  rewrite <- (Z2Nat.id w) by done. rewrite bytes_to_int_to_bytes, Z2Nat.id by done. apply Z.mod_small.
  change 256 with (2 ^ 8). by rewrite <- Z.pow_mul_r by lia.
Qed.

Lemma field_of_patched objects globals placements laid outputs base x P object s p out :
  layout_ok objects base laid placements ->
  patched objects globals placements laid outputs x.1 x.2 P object s p out ->
  field_of objects placements x = Some (p_output P, p_field P).
Proof.
  intros HL [_ A1 A2 [A3 _] [A4 A4'] A5 A6 _ _ _]. unfold field_of. cbv zeta.
  rewrite (list_lookup_total_correct _ _ _ A1), (list_lookup_total_correct _ _ _ A2).
  pose proof (pd_goes _ _ _ _ _ _ _ A5) as Hg. unfold goes_to in Hg. rewrite Hg. cbn [mbind option_bind].
  destruct (section_placed _ _ _ _ _ _ _ _ _ HL A1 A2 Hg) as (p' & _ & _ & _ & _ & _ & -> & _ & Hp' & _).
  cbn [mbind option_bind]. rewrite A6. congruence.
Qed.

Lemma resolve_bare objects globals placements outputs outputs' k i :
  bare <$> outputs' = bare <$> outputs -> resolve objects globals placements outputs' k i = resolve objects globals placements outputs k i.
Proof.
  intros E. unfold resolve, defined_address.
  destruct (is_global _ || _); [destruct (global_at _ _); [|done]|]; by rewrite !(section_address_bare _ _ _ _ _ _ E).
Qed.

(** A field that holds what its patch says denotes what its relocation says. *)
Lemma patched_relocated objects base globals entry globals' placements laid outputs result i x P object s p out0 o out :
  objects_ok objects -> layout_ok objects base laid placements ->
  table (all_symbols objects) globals entry -> Forall2 addressed globals globals' ->
  (forall u o, laid !! u = Some o -> exists o', outputs !! u = Some o' /\ same_frame o o') ->
  bare <$> result = bare <$> outputs -> x ∈ all_relocations objects ->
  patched objects globals' placements laid outputs x.1 x.2 P object s p out0 ->
  same_frame out0 o -> result !! p_output P = Some out -> bare out = bare o ->
  (forall d, 0 <= d < p_width P -> ~ overwritten objects i x d ->
     ram_byte (os_data out) (p_field P + d) = byte_at (p_value P) d) -> relocated objects globals' placements result i x.
Proof.
  intros Hok HL HT HF Hsame Hbare Hx Hpt (F1 & F2 & F3) Hout Hb Hh.
  pose proof Hpt as [A0 A1 A2 [A3 A3'] _ A5 A6 [A7 A7'] [A8 A8'] (S & T & ES & ET & EV)].
  destruct (bare_fields _ _ Hb) as (G1 & _ & _ & _ & G5 & _).
  destruct (relocation_ok objects x.1 object x.2) as (_ & _ & _ & _ & _ & _ & _ & y & Hy); [done|done| |].
  { apply all_relocations_elem in Hx as (object' & Hk & Hr). congruence. }
  rewrite (symbol_address_resolve objects globals' placements outputs) in ES;
    [|eapply addressed_sound; [done|by eapply table_sound]|unfold address_fuel; lia].
  assert (is_u64 S) as HS.
  { eapply (resolve_u64 objects globals globals' placements base laid outputs entry (x.1, Z.to_nat (relocation_symbol_index x.2), y)); try done.
    apply all_symbols_elem. by exists object. }
  apply add_signed_spec in ET as [-> HT64]; [|done|apply (rwf_addend _ A0)].
  destruct (lk_each _ _ _ _ HL (p_output P) (initial_outputs !!! p_output P) out0) as (Hlo & _); [|done|].
  { apply list_lookup_lookup_total_lt. pose proof (lookup_lt_Some _ _ _ A3). rewrite (lk_length _ _ _ _ HL) in *. done. }
  destruct (lo_start _ _ _ _ _ Hlo) as [_ Hst]. destruct (lo_fits _ _ _ _ _ Hlo) as [_ Hft]. destruct (pd_inside _ _ _ _ _ _ _ A5) as [Hp0 Hp1].
  destruct (section_ok object _ s (list.Forall_lookup_1 _ _ _ _ Hok A1) A2) as [W V]. destruct (section_sizes s W V) as (_ & _ & Hfs & _).
  assert (is_u64 (os_start out0 + p_field P)) as Hplace by (unfold is_u64, UINT64_MAX in *; lia).
  rewrite wrap64_id in EV by done. apply encode_meaning in EV as [Hv Hval]; [|done|done|lia].
  unfold relocated. cbv zeta. rewrite <- A7 in *.
  exists (p_output P), (p_field P), out, S, (p_value P). split_and!; [by eapply field_of_patched|done|by rewrite G5, F3| |done|lia|lia| |done|].
  - by rewrite (resolve_bare _ _ _ outputs).
  - by rewrite G1, F1.
  - intros Hno. apply bytes_of_field; [|lia|done]. unfold holds_at. rewrite int_to_bytes_length by lia.
    unfold ram_bytes, int_to_bytes. apply list_eq. intros n. rewrite !list_lookup_fmap.
    destruct (decide (Z.of_nat n < p_width P)); [|by rewrite !lookup_seqZ_ge by lia].
    rewrite !lookup_seqZ_lt by lia. cbn. f_equal. rewrite Z.add_0_l. apply Hh; [lia|]. apply Hno. lia.
Qed.

(** The relocations. *)
Lemma relocations_spec objects base globals entry globals' placements laid outputs result :
  objects_ok objects -> layout_ok objects base laid placements ->
  table (all_symbols objects) globals entry -> Forall2 addressed globals globals' ->
  (forall u o, laid !! u = Some o -> exists o', outputs !! u = Some o' /\ same_frame o o') ->
  apply_relocations objects globals' placements outputs = Some result ->
  bare <$> result = bare <$> outputs /\
  (forall u o, outputs !! u = Some o -> exists out, result !! u = Some out /\ bare out = bare o /\
     ram_size (os_data out) = ram_size (os_data o) /\ (ram_wf (os_data o) -> ram_wf (os_data out)) /\
     forall b, ~ in_field objects placements u b -> ram_byte (os_data out) b = ram_byte (os_data o) b) /\
  (forall i x, all_relocations objects !! i = Some x -> relocated objects globals' placements result i x).
Proof.
  intros Hok HL HT HF Hsame. rewrite apply_relocations_all. intros (ps & HFp & ->)%apply_all_patches.
  assert (forall i x P, all_relocations objects !! i = Some x -> ps !! i = Some P ->
            exists object s p out, patched objects globals' placements laid outputs x.1 x.2 P object s p out) as Hpatch.
  { intros i x P Hx HP. pose proof (Forall2_lookup_lr _ _ _ _ _ _ HFp Hx HP) as E. cbn in E.
    assert (x ∈ all_relocations objects) as Hin by (by eapply list_elem_of_lookup_2).
    apply all_relocations_elem in Hin as (object & Hk & Hr). exists object.
    by apply (patch_of_spec objects globals' placements base laid outputs x.1 object x.2 P). }
  assert (Forall (fun P => 0 <= p_width P) ps) as Hw.
  { apply list.Forall_lookup. intros i P HP. destruct (Forall2_lookup_r _ _ _ _ _ HFp HP) as (x & Hx & _).
    destruct (Hpatch i x P Hx HP) as (? & ? & ? & ? & Hpt). pose proof (pt_width _ _ _ _ _ _ _ _ _ _ _ _ Hpt). lia. }
  assert (bare <$> fold_left write_patch ps outputs = bare <$> outputs) as Hbare.
  { clear. revert outputs. induction ps as [|P ps IH]; intros outputs; cbn [fold_left]; [done|]. by rewrite IH, write_patch_bare. }
  split_and!; [done| |].
  - intros u o Ho. destruct (patches_outside ps outputs u o Hw Ho) as (out & H1 & H2 & H3 & H4 & H5). exists out.
    split_and!; [done..|]. intros b Hb. apply H5. intros P HP [Eu Hc]. apply Hb.
    apply list_elem_of_lookup in HP as [i HP]. destruct (Forall2_lookup_r _ _ _ _ _ HFp HP) as (x & Hx & _).
    destruct (Hpatch i x P Hx HP) as (object & s & p & out0 & Hpt). exists x, (p_field P).
    split_and!; [by eapply list_elem_of_lookup_2| |lia|rewrite <- (proj1 (pt_width _ _ _ _ _ _ _ _ _ _ _ _ Hpt)); lia].
    rewrite (field_of_patched _ _ _ _ _ _ _ _ _ _ _ _ HL Hpt). by rewrite Eu.
  - intros i x Hx. assert (x ∈ all_relocations objects) as Hx' by (by eapply list_elem_of_lookup_2).
    destruct (Forall2_lookup_l _ _ _ _ _ HFp Hx) as (P & HP & _).
    destruct (Hpatch i x P Hx HP) as (object & s & p & out0 & Hpt). destruct (pt_output _ _ _ _ _ _ _ _ _ _ _ _ Hpt) as [A3 _].
    destruct (Hsame _ _ A3) as (o & Ho & Hfr).
    destruct (patches_outside ps outputs _ o Hw Ho) as (out & Hout & Hb & _).
    eapply (patched_relocated objects base globals entry globals' placements laid outputs _ i x P); try done.
    intros d Hd Hno.
    destruct (patches_byte ps outputs i P (p_output P) o (p_field P + d) Hw HP Ho) as (out' & Hout' & Hbyte); [split; [done|lia]| |].
    { intros j Q Hij HQ Hc. destruct (Forall2_lookup_r _ _ _ _ _ HFp HQ) as (y & Hy & _).
      destruct (Hpatch j y Q Hy HQ) as (? & ? & ? & ? & Hpt'). apply Hno. exists j, y.
      destruct (patches_meet _ _ _ _ _ _ x y P Q _ _ _ _ _ _ _ _ (p_field P + d) Hok HL Hpt Hpt') as (? & ? & ?); [split; [done|lia]|done|].
      split_and!; try done; lia. }
    assert (out' = out) as -> by congruence. rewrite Hbyte. f_equal. lia.
Qed.

(** The symbol of the entry is defined in [.text]. *)
Lemma entry_in_text_spec objects globals entry name i :
  objects_ok objects -> table (all_symbols objects) globals entry -> global_index globals name = Some i ->
  entry_in_text objects (globals !!! i) = true ->
  exists x, x ∈ all_symbols objects /\ offers name x /\ stands_for objects (globals !!! i) x /\ is_defined x.2 = true /\
    gd_common (globals !!! i) = false /\ symbol_section_index x.2 <> CVM_OBJECT_ABSOLUTE_SECTION /\
    exists object s, objects !! x.1.1 = Some object /\ sections object !! Z.to_nat (symbol_section_index x.2) = Some s /\ goes_to 0 s.
Proof.
  intros Hok HT Hi He. pose proof (global_at_index _ _ _ Hi) as Hat.
  destruct (table_row _ _ _ _ _ HT Hat) as (x & Hx & Ho & Hst). exists x. pose proof Hst as (E1 & E2 & E3 & E4 & E5).
  destruct (symbol_of _ _ Hok Hx) as (object & Hk & Hsy & [Y1 Y2 Y3 Y4 Y5] & Hv & _ & _).
  unfold entry_in_text in He. cbv zeta in He. rewrite E1, E2, E5 in He. apply negb_true_iff in He.
  rewrite !orb_false_iff in He. destruct He as [[He1 He2] He3]. apply Z.eqb_neq in He1.
  rewrite (list_lookup_total_correct _ _ _ Hk) in He2, He3. apply Z.leb_gt in He2. unfold section_count in He2.
  destruct (lookup_lt_is_Some_2 (sections object) (Z.to_nat (symbol_section_index x.2)) ltac:(lia)) as [s Hs].
  rewrite (list_lookup_total_correct _ _ _ Hs) in He3. apply negb_false_iff, bool_decide_eq_true in He3.
  assert (is_common x.2 = false) as Hc.
  { apply not_true_is_false. intros Hc. unfold symbol_valid in Hv. apply negb_true_iff in Hv. rewrite !orb_false_iff in Hv.
    destruct Hv as [[[[[_ Hcm] _] _] _] _]. unfold is_common, symbol_is in Hc. rewrite Hc in Hcm. cbn [andb] in Hcm.
    rewrite !orb_false_iff in Hcm. destruct Hcm as [[[_ Hcm] _] _]. apply negb_false_iff, Z.eqb_eq in Hcm.
    destruct (list.Forall_lookup_1 _ _ _ _ Hok Hk) as [_ Hov]. unfold object_valid in Hov. rewrite !andb_true_iff, negb_true_iff, !orb_false_iff in Hov.
    destruct Hov as [[[[[[_ Hmx] _] _] _] _] _]. apply Z.ltb_ge in Hmx. unfold section_count, CVM_OBJECT_MAX_SECTIONS, CVM_OBJECT_COMMON_SECTION in *. lia. }
  split_and!; [done|done|done| |by rewrite E4|done|by exists object, s].
  destruct Ho as (_ & Hd & _). by rewrite Hc, orb_false_r in Hd.
Qed.

(** The entry address is the one of its symbol and lies in [.text]. *)
Definition entry_ok (objects : list CvmObjectFile) (entry_option : option (list Z)) (globals : list GlobalDefinition)
    (placements : list Placement) (outputs : list OutputSection) (entry : Z) : Prop :=
  exists name g text, (match entry_option with Some n => Some n | None => head (entry_names (all_symbols objects)) end) = Some name /\
    global_at globals name = Some g /\
    resolve objects globals placements outputs (gd_object_index g) (gd_symbol_index g) = Some entry /\
    outputs !! 0%nat = Some text /\ os_start text <= entry <= os_start text + os_memory_size text.

(** What the last steps leave of an output section. *)
Lemma finished_of objects base globals globals' placements laid bss hi (result : list OutputSection) u o out :
  layout_ok objects base laid placements -> Forall2 addressed globals globals' -> laid !! 3%nat = Some bss -> is_u64 hi ->
  commons_within globals' (os_start bss + os_memory_size bss) (os_start bss + hi) ->
  (forall u o, <[3%nat := set_memory_size hi bss]> laid !! u = Some o -> exists out, result !! u = Some out /\ bare out = bare o /\
     ram_size (os_data out) = ram_size (os_data o) /\ (ram_wf (os_data o) -> ram_wf (os_data out)) /\
     forall b, ~ in_field objects placements u b -> ram_byte (os_data out) b = ram_byte (os_data o) b) ->
  laid !! u = Some o -> result !! u = Some out -> finished objects globals' placements u o out.
Proof.
  intros HL HF Hbss Hhi Hcw Hres Ho Hout.
  destruct (set_memory_frame _ _ _ _ bss hi u o HL Hbss Ho) as (o' & H1 & (F1 & F2 & F3) & H3 & H4 & H5 & H6).
  destruct (Hres _ _ H1) as (out' & Hout' & Hbo & R1 & R2 & R3). assert (out' = out) as -> by congruence.
  destruct (bare_fields _ _ Hbo) as (B1 & B2 & B3 & B4 & B5 & _).
  destruct (lk_each _ _ _ _ HL u (initial_outputs !!! u) o) as (_ & _ & Hwf & Hsz); [|done|].
  { apply list_lookup_lookup_total_lt. pose proof (lookup_lt_Some _ _ _ Ho). rewrite (lk_length _ _ _ _ HL) in *. done. }
  split.
  - by rewrite B1, F1.
  - by rewrite B3, F2.
  - by rewrite B4, B5, F3, H3.
  - intros Hu. by rewrite B2, H5.
  - intros Hu. rewrite B1, B2, F1, H6 by done. subst u. assert (bss = o) as -> by congruence. done.
  - split; [apply R2; by rewrite H4|]. by rewrite R1, H4, Hsz, B3, F2.
  - intros b Hin. by rewrite R3, H4.
Qed.

(** The address of the entry symbol. *)
Lemma entry_address objects base globals globals' object_entry placements laid outputs name i a :
  objects_ok objects -> layout_ok objects base laid placements ->
  (forall u o, laid !! u = Some o -> exists o', outputs !! u = Some o' /\ same_frame o o') ->
  table (all_symbols objects) globals object_entry -> Forall2 addressed globals globals' ->
  global_index globals name = Some i -> entry_in_text objects (globals !!! i) = true ->
  resolve objects globals' placements outputs (gd_object_index (globals' !!! i)) (gd_symbol_index (globals' !!! i)) = Some a ->
  global_at globals' name = Some (globals' !!! i) /\
  exists text, laid !! 0%nat = Some text /\ os_start text <= a <= os_start text + os_memory_size text.
Proof.
  intros Hok HL Hsame HT HF Ei Et Es.
  destruct (entry_in_text_spec _ _ _ _ _ Hok HT Ei Et) as (x & Hx & Ho & (E1 & E2 & E3 & E4 & E5) & Hd & Hc & Habs & object & s & Hk & Hs & Hg).
  assert (global_index globals' name = Some i) as Ei' by (by rewrite (addressed_index globals)).
  pose proof (global_at_index _ _ _ Ei') as Hat'. pose proof (addressed_at globals globals' name HF) as Hat. rewrite Hat' in Hat.
  destruct Hat as (g & Hg0 & Hadd). rewrite (global_at_index _ _ _ Ei) in Hg0. injection Hg0 as <-.
  destruct (addressed_same _ _ Hadd) as (_ & A2 & A3 & A4 & _). split; [done|].
  unfold resolve in Es. rewrite A2, A3, E1, E2, E5 in Es. destruct Ho as (Hgl & _ & Hnm).
  rewrite Hgl, Hnm, Hat', A4, Hc in Es. cbn [orb] in Es.
  unfold defined_address in Es. rewrite A2, A3, E1, E2, E5, (proj2 (Z.eqb_neq _ _) Habs) in Es.
  destruct (section_address_in _ _ _ _ _ _ _ Hok HL Hsame Hx Hd Habs Es) as (object' & s' & p & u & out & Hk' & Hs' & Hg' & Hout & Hpl & -> & Hval & _).
  assert (object' = object) as -> by congruence. assert (s' = s) as -> by congruence.
  assert (u = 0%nat) as -> by (unfold goes_to in *; congruence). exists out. split; [done|]. destruct (pd_inside _ _ _ _ _ _ _ Hpl).
  destruct (symbol_of _ _ Hok Hx) as (_ & _ & _ & [_ _ _ Y4 _] & _). unfold is_u64 in Y4. lia.
Qed.

(** When [link_sections] succeeds, every global name has the definition the
    rules select; the sections of the objects lie in the four output sections
    as the layout promises; common symbols lie behind [.bss], aligned and apart
    from each other; every relocation field, but for bytes a later relocation
    overwrites, denotes the address of its symbol plus the addend; all other bytes are
    those of the objects; and the entry lies in [.text]. *)
Lemma link_sections_linked objects entry_option base outputs entry :
  objects_ok objects -> is_u64 base -> link_sections objects entry_option base = Some (outputs, entry) ->
  exists globals placements laid, linked objects base globals placements laid outputs /\
    entry_ok objects entry_option globals placements outputs entry.
Proof.
  intros Hok Hb. unfold link_sections. destruct (length objects =? 0)%nat; [done|].
  destruct (collect_globals objects) as [[globals oe]|] eqn:Ec; [|done]. cbn [mbind option_bind].
  apply collect_globals_table in Ec as [HT _]. pose proof (t_entry _ _ _ HT) as Hoe.
  destruct (match entry_option with Some n => Some n | None => oe end) as [name|] eqn:En; [|done]. cbn [mbind option_bind].
  destruct (global_index globals name) as [i|] eqn:Ei; [|done]. cbn [mbind option_bind].
  destruct (entry_in_text objects (globals !!! i)) eqn:Et; [|done]. cbn [negb].
  destruct (locate_sections objects base initial_outputs) as [[laid placements]|] eqn:El; [|done]. cbn [mbind option_bind].
  apply locate_sections_ok in El as HL; [|done|done].
  destruct (allocate_common_symbols globals laid) as [[globals' outs]|] eqn:Ea; [|done]. cbn [mbind option_bind].
  destruct (allocate_spec _ _ _ _ _ _ _ _ Hok HL HT Ea) as (HF & bss & hi & Hbss & -> & Hhi & Hcw).
  assert (forall u o, laid !! u = Some o -> exists o', <[3%nat := set_memory_size hi bss]> laid !! u = Some o' /\ same_frame o o') as Hsame.
  { intros u o Ho. destruct (set_memory_frame _ _ _ _ bss hi u o HL Hbss Ho) as (o' & H1 & H2 & _). by exists o'. }
  destruct (apply_relocations _ _ _ _) as [result|] eqn:Er; [|done]. cbn [mbind option_bind].
  destruct (relocations_spec _ _ _ _ _ _ _ _ _ Hok HL HT HF Hsame Er) as (Hbare & Hres & Hrel).
  destruct (symbol_address _ _ _ _ _ _ _) as [a|] eqn:Es; [|done]. cbn [mbind option_bind]. intros [= -> ->].
  exists globals', placements, laid. split.
  - split; [by eapply resolution_of|done| | |done].
    + assert (length (bare <$> outputs) = length (bare <$> <[3%nat := set_memory_size hi bss]> laid)) as E by (by rewrite Hbare).
      rewrite !length_fmap, length_insert, (lk_length _ _ _ _ HL) in E. done.
    + intros u o out Ho Hout. by eapply (finished_of objects base globals globals' placements laid bss hi outputs).
  - rewrite (symbol_address_resolve objects globals' placements outputs) in Es;
      [|eapply addressed_sound; [done|by eapply table_sound]|unfold address_fuel; lia].
    pose proof Es as Es'. rewrite (resolve_bare _ _ _ (<[3%nat := set_memory_size hi bss]> laid)) in Es' by done.
    destruct (entry_address _ _ _ _ _ _ _ _ _ _ _ Hok HL Hsame HT HF Ei Et Es') as (Hat & text0 & Ht0 & Hr).
    destruct (set_memory_frame _ _ _ _ bss hi 0%nat text0 HL Hbss Ht0) as (t1 & H1 & _ & _ & _ & H5 & _). rewrite (H5 ltac:(lia)) in H1.
    destruct (Hres _ _ H1) as (text & Htext & Hbt & _). destruct (bare_fields _ _ Hbt) as (B1 & B2 & _).
    exists name, (globals' !!! i), text. rewrite B1, B2. split_and!; [|done..|lia|lia]. rewrite Hoe in En. by destruct entry_option.
Qed.

(** ** The image of linked sections *)

Lemma linked_ordered objects base globals placements laid outputs :
  linked objects base globals placements laid outputs -> ordered outputs.
Proof.
  intros HL. pose proof (ln_layout _ _ _ _ _ _ HL) as HY. pose proof (ln_length _ _ _ _ _ _ HL) as Hlen.
  assert (forall u v a b, (u < v)%nat -> outputs !! u = Some a -> outputs !! v = Some b -> os_start a + os_memory_size a <= os_start b) as Hord.
  { intros u v a b Huv Ha Hb. pose proof (lookup_lt_Some _ _ _ Hb) as Hv4. pose proof (lookup_lt_Some _ _ _ Ha) as Hu4.
    destruct (lookup_lt_is_Some_2 laid u ltac:(rewrite (lk_length _ _ _ _ HY); lia)) as [a0 Ha0].
    destruct (lookup_lt_is_Some_2 laid v ltac:(rewrite (lk_length _ _ _ _ HY); lia)) as [b0 Hb0].
    destruct (ln_finished _ _ _ _ _ _ HL _ _ _ Ha0 Ha) as [A1 _ _ A4 _ _ _]. destruct (ln_finished _ _ _ _ _ _ HL _ _ _ Hb0 Hb) as [B1 _ _ _ _ _ _].
    rewrite A1, B1, A4 by lia. by apply (lk_order _ _ _ _ HY u v). }
  clear -Hord. induction outputs as [|o l IH]; [done|]. split.
  - apply list.Forall_lookup. intros j p Hj. by apply (Hord 0%nat (S j) o p); [lia|..].
  - apply IH. intros u v a b Huv Ha Hb. by apply (Hord (S u) (S v)); [lia|..].
Qed.

Lemma linked_mappable objects base globals placements laid outputs text bss entry :
  linked objects base globals placements laid outputs -> is_u64 base -> base mod PAGE_ALIGNMENT = 0 ->
  outputs !! 0%nat = Some text -> os_start text <= entry < os_start text + os_memory_size text ->
  outputs !! 3%nat = Some bss -> os_start bss + os_memory_size bss <= UINT64_MAX ->
  image_size outputs <= SIZE_MAX -> mappable outputs base entry.
Proof.
  intros HL Hb Hbm Ht He Hs Hfit Hsz. pose proof (ln_layout _ _ _ _ _ _ HL) as HY. pose proof (ln_length _ _ _ _ _ _ HL) as Hlen.
  assert (forall u out, outputs !! u = Some out -> section_mapped base out /\ (u = 0%nat -> Z.testbit (os_flags out) 2 = true)) as Heach.
  { intros u out Hout. pose proof (lookup_lt_Some _ _ _ Hout) as Hu4. rewrite Hlen in Hu4.
    destruct (lookup_lt_is_Some_2 laid u ltac:(rewrite (lk_length _ _ _ _ HY); lia)) as [o Ho].
    destruct (lookup_lt_is_Some_2 initial_outputs u Hu4) as [i Hi].
    destruct (lk_each _ _ _ _ HY u i o Hi Ho) as ([[L1 L1'] [L2 L2'] [L3 L3'] L4 _] & Hbase & _ & _).
    destruct (ln_finished _ _ _ _ _ _ HL _ _ _ Ho Hout) as [F1 F2 [F3 F3'] F4 F5 [F6 F6'] _].
    assert (os_flags out = os_flags i) as Efl by congruence.
    assert (0 <= os_flags i < 8 /\ Z.testbit (os_flags i) 0 = true /\ (u = 0%nat -> Z.testbit (os_flags i) 2 = true)) as (I1 & I2 & I3).
    { clear -Hi. destruct u as [|[|[|[|u]]]]; [injection Hi as <-; by vm_compute..|done]. }
    rewrite <- Efl in I1, I2, I3. split; [|done]. pose proof (initial_nobits _ _ Hi) as Hnb.
    destruct (decide (u = 3%nat)) as [->|Hne].
    - destruct (F5 eq_refl) as [Hmu _]. assert (out = bss) as -> by congruence. rewrite bool_decide_eq_true_2 in Hnb by done.
      unfold is_u64 in Hmu. split; [done|rewrite F1; done| |done|done]. rewrite F2, L4, L1', Hnb. lia.
    - rewrite bool_decide_eq_false_2 in Hnb by done. split; [done|rewrite F1; done| | |done].
      + rewrite F2, F4, L4, L1', Hnb by done. lia.
      + by rewrite F1, F4. }
  split.
  - lia.
  - done.
  - apply list.Forall_lookup. intros u out Hout. by apply (Heach u).
  - by eapply linked_ordered.
  - apply Exists_exists. exists text. split; [apply list_elem_of_In; by eapply list_elem_of_lookup_2|]. split; [by apply (Heach 0%nat)|done].
  - done.
Qed.

(** C22: the linked image.  When the sections are linked, the entry is before the
    end of [.text], [.bss] with its commons ends inside the address space and
    the image fits a file, [write_image] succeeds: validation accepts the
    image, its entry point is the entry address, and every output section that
    is not empty is a segment at its address, with its flags and sizes, whose
    bytes in the file are the section's.  With [--physical-relocatable] the
    physical addresses count from the base. *)
Theorem link_image_correct objects entry_option base rel outputs entry text bss :
  objects_ok objects -> is_u64 base -> base mod PAGE_ALIGNMENT = 0 ->
  link_sections objects entry_option base = Some (outputs, entry) ->
  outputs !! 0%nat = Some text -> entry < os_start text + os_memory_size text ->
  outputs !! 3%nat = Some bss -> os_start bss + os_memory_size bss <= UINT64_MAX -> image_size outputs <= SIZE_MAX ->
  exists image h, write_image outputs entry base rel = Some image /\ cvm_kernel_image_validate image = Pass h /\
    kh_entry_physical_address h = (if rel then entry - base else entry) /\
    forall out, out ∈ outputs -> os_memory_size out <> 0 ->
      exists k s, 0 <= k < kh_segment_count h /\
        cvm_kernel_segment_decode image (CVM_KERNEL_HEADER_SIZE + k * CVM_KERNEL_SEGMENT_SIZE) = POk s /\
        ks_virtual_address s = os_start out /\ ks_load_address s = (if rel then os_start out - base else os_start out) /\
        ks_flags s = os_flags out /\ ks_memory_size s = os_memory_size out /\ ks_file_size s = os_file_size out /\
        ram_bytes image (ks_file_offset s) (ks_file_size s) = ram_bytes (os_data out) 0 (os_file_size out).
Proof.
  intros Hok Hb Hbm Hl Ht He Hs Hfit Hsz.
  destruct (link_sections_linked _ _ _ _ _ Hok Hb Hl) as (globals & placements & laid & HL & (name & g & text' & _ & _ & _ & Ht' & Hr)).
  assert (text' = text) as -> by congruence.
  pose proof (linked_mappable _ _ _ _ _ _ _ _ entry HL Hb Hbm Ht ltac:(lia) Hs Hfit Hsz) as HM.
  destruct (write_image_spec outputs base entry rel HM) as (image & h & Hw & Hwf & Hisz & Hexf & Hto & Hsc & Hpe & Htb & Hp). cbv zeta in *.
  exists image, h. split_and!; [done|by apply validate_complete|done|]. intros out Hout Hnz.
  assert (out ∈ live outputs) as Hin by (by apply live_elem). apply list_elem_of_lookup in Hin as [k Hk].
  pose proof (lookup_lt_Some _ _ _ Hk) as Hlt.
  destruct (lookup_lt_is_Some_2 (segments_at (live outputs) (table_end outputs) base rel) k ltac:(by rewrite segments_length)) as [s Hsg].
  destruct (segments_lookup _ _ _ _ _ _ Hsg) as (o' & c & Ho' & Es & _). assert (o' = out) as -> by congruence.
  destruct (Htb k s Hsg) as [Hsw Hsb]. destruct (ho_table _ _ (exf_rules _ _ Hexf)) as (_ & _ & Hend).
  rewrite Hto, Hsc in Hend. unfold CVM_KERNEL_HEADER_SIZE, CVM_KERNEL_SEGMENT_SIZE in Hend.
  exists (Z.of_nat k), s. rewrite Hsc. split_and!; [lia|lia| | | | | | |by apply (Hp k s out)].
  { apply (codec_decode_iff kernel_segment_codec); [done|..|by split]; unfold CVM_KERNEL_HEADER_SIZE, CVM_KERNEL_SEGMENT_SIZE; lia. }
  all: rewrite Es; try reflexivity. cbn. destruct rel; [|done]. apply wrap64_id.
  destruct HM as [_ _ M3 _ _ _]. destruct (list.Forall_lookup_1 _ _ _ _ (mapped_live _ _ M3) Hk) as [_ [_ Hsb'] Hsz' Hft _].
  unfold is_u64, UINT64_MAX in *. lia.
Qed.

(** ** A small program *)

(** ["_start"] refers to ["foo"] of the second object, by a relative field in
    its code and by an absolute one in its data; ["buf"] is a common symbol. *)
Definition demo_main : CvmObjectFile :=
  mkObject
    [mkSection [46; 116; 101; 120; 116] 5 16 (replicate 16 0) 16; mkSection [46; 100; 97; 116; 97] 3 8 (replicate 8 0) 8]
    [mkSymbol [95; 115] 0 7 0 0; mkSymbol [102] 65535 1 0 0]
    [mkRelocation 0 CVM_OBJECT_RELOCATION_REL32 1 4 0; mkRelocation 1 CVM_OBJECT_RELOCATION_ABS64 1 0 4].
Definition demo_lib : CvmObjectFile :=
  mkObject [mkSection [46; 116; 101; 120; 116] 5 16 [7; 7; 7; 7] 4] [mkSymbol [102] 0 3 0 4; mkSymbol [98] 65533 65 8 32] [].

Lemma demo_objects_ok : objects_ok [demo_main; demo_lib].
Proof.
  repeat (apply list.Forall_cons; split; [|]); [..|constructor]; (split; [|reflexivity]); split; repeat constructor; cbn; unfold is_u64; try lia; done.
Qed.

(** What comes out: the absolute field of [.data] holds the address of
    ["foo"] plus 4, and [.bss] has room for the common symbol. *)
Example demo_linked :
  exists outputs entry, link_sections [demo_main; demo_lib] None 0x10000 = Some (outputs, entry) /\ entry = 0x10000 /\
    (exists globals placements laid, linked [demo_main; demo_lib] 0x10000 globals placements laid outputs /\
       entry_ok [demo_main; demo_lib] None globals placements outputs entry) /\
    (os_start <$> outputs) = [0x10000; 0x11000; 0x11000; 0x12000] /\
    ((fun o => ram_bytes (os_data o) 0 8) <$> outputs !! 2%nat) = Some [20; 0; 1; 0; 0; 0; 0; 0] /\
    (os_memory_size <$> outputs) = [20; 0; 8; 32].
Proof.
  do 2 eexists. split; [vm_compute; reflexivity|]. split; [reflexivity|]. split; [|vm_compute; done].
  apply (link_sections_linked [demo_main; demo_lib] None 0x10000); [exact demo_objects_ok|unfold is_u64; lia|vm_compute; reflexivity].
Qed.

Lemma link_image_correct_witness :
  exists image h outputs entry, link_sections [demo_main; demo_lib] None 0x10000 = Some (outputs, entry) /\
    write_image outputs entry 0x10000 true = Some image /\ cvm_kernel_image_validate image = Pass h /\
    kh_entry_physical_address h = 0.
Proof.
  destruct (link_sections [demo_main; demo_lib] None 0x10000) as [[outputs entry]|] eqn:E; [|exfalso; revert E; vm_compute; discriminate].
  pose proof E as E'. vm_compute in E'.
  destruct (outputs !! 0%nat) as [text|] eqn:Et; [|exfalso; injection E' as <- <-; discriminate Et].
  destruct (outputs !! 3%nat) as [bss|] eqn:Eb; [|exfalso; injection E' as <- <-; discriminate Eb].
  destruct (link_image_correct [demo_main; demo_lib] None 0x10000 true outputs entry text bss) as (image & h & Hw & Hv & He & _).
  - exact demo_objects_ok.
  - unfold is_u64. lia.
  - reflexivity.
  - exact E.
  - exact Et.
  - injection E' as <- <-. vm_compute in Et. injection Et as <-. vm_compute. reflexivity.
  - exact Eb.
  - injection E' as <- <-. vm_compute in Eb. injection Eb as <-. vm_compute. discriminate.
  - injection E' as <- <-. vm_compute. discriminate.
  - exists image, h, outputs, entry. split_and!; [reflexivity|exact Hw|exact Hv|]. rewrite He. injection E' as _ <-. reflexivity.
Defined.
