(* ===== verification/LinkerFiles.v ===== *)
(** The linker from its input files: which members of the archives it extracts,
    that the extraction ends, and what it writes in the end. *)

From S2P Require Import Prelude Ram Image ObjectFormat ArchiveFormat BootFormat BootProof BootValid Linker LinkerSymbols LinkerLayout LinkerReloc LinkerImage LinkerProof.
From Stdlib Require Import ZArith Lia Bool.
From stdpp Require Import base list numbers gmap option relations.

#[local] Open Scope Z_scope.

(** ** Extraction as a relation *)

Definition LinkState : Type := list CvmObjectFile * list InputArchive.

(** The member that a symbol of the index of [input] stands for. *)
Definition member_of (input : InputArchive) (symbol : CvmArchiveSymbol) : nat := Z.to_nat (archive_symbol_member symbol).
Definition member_file (input : InputArchive) (symbol : CvmArchiveSymbol) : RAM :=
  file_of (member_data (members (ia_archive input) !!! member_of input symbol)).
Definition mark (input : InputArchive) (symbol : CvmArchiveSymbol) : InputArchive :=
  mkInputArchive (ia_archive input) (<[member_of input symbol := true]> (ia_extracted input)).

(** A symbol of [input] whose member is still in the archive and needed. *)
Definition wants (entry_option : option (list Z)) (objects : list CvmObjectFile) (input : InputArchive) (symbol : CvmArchiveSymbol) : Prop :=
  symbol ∈ archive_symbols (ia_archive input) /\ ia_extracted input !! member_of input symbol = Some false /\
  member_needed objects entry_option symbol = true.

(** One member is extracted. *)
Inductive pull (entry_option : option (list Z)) : LinkState -> LinkState -> Prop :=
| pull_member objects before input after symbol object :
    wants entry_option objects input symbol -> cvm_object_decode (member_file input symbol) = POk object ->
    Z.of_nat (length objects) <> LINKER_MAX_OBJECTS ->
    pull entry_option (objects, before ++ input :: after) (objects ++ [object], before ++ mark input symbol :: after).

(** Nothing is needed any more. *)
Definition complete (entry_option : option (list Z)) (st : LinkState) : Prop :=
  forall input symbol, input ∈ st.2 -> ~ wants entry_option st.1 input symbol.

(** A needed member is no object, or there are too many objects. *)
Definition stuck (entry_option : option (list Z)) (st : LinkState) : Prop :=
  exists input symbol, input ∈ st.2 /\ wants entry_option st.1 input symbol /\
    (Z.of_nat (length st.1) = LINKER_MAX_OBJECTS \/ forall object, cvm_object_decode (member_file input symbol) <> POk object).

Record archive_ready (input : InputArchive) : Prop := {
  rd_wf : archive_wf (ia_archive input);
  rd_valid : archive_valid (ia_archive input) = true;
  rd_extracted : length (ia_extracted input) = length (members (ia_archive input));
}.

Definition remaining (input : InputArchive) : nat := length (filter (fun b => b = false) (ia_extracted input)).
Definition remaining_all (archives : list InputArchive) : nat := sum_list_with remaining archives.

Lemma remaining_total archives : (remaining_all archives <= member_total archives)%nat.
Proof.
  induction archives as [|a l IH]; [done|]. unfold remaining_all, member_total in *. cbn [sum_list_with].
  apply Nat.add_le_mono; [apply length_filter|exact IH].
Qed.

Lemma mark_ready input symbol : archive_ready input -> archive_ready (mark input symbol).
Proof. intros [H1 H2 H3]. split; [done|done|]. cbn. by rewrite length_insert. Qed.

Lemma remaining_mark input symbol :
  ia_extracted input !! member_of input symbol = Some false -> (remaining (mark input symbol) < remaining input)%nat.
Proof.
  unfold remaining, mark. cbn [ia_extracted]. generalize (member_of input symbol) as i. generalize (ia_extracted input) as l.
  induction l as [|b l IH]; intros [|i] Hi; try done.
  - injection Hi as ->. change (<[0%nat := true]> (false :: l)) with (true :: l). rewrite !filter_cons.
    rewrite decide_False, decide_True by done. cbn [length]. lia.
  - change (<[S i := true]> (b :: l)) with (b :: <[i := true]> l). specialize (IH i Hi). rewrite !filter_cons.
    destruct (decide (b = false)); cbn [length]; lia.
Qed.

(** The members a symbol of a valid index names exist. *)
Lemma symbol_member input symbol : archive_ready input -> symbol ∈ archive_symbols (ia_archive input) ->
  (member_of input symbol < length (ia_extracted input))%nat.
Proof.
  intros [[_ Hs] Hv Hl] Hin. rewrite Hl. eapply list.Forall_forall in Hs; [|exact Hin]. destruct Hs as [_ Hm _].
  unfold archive_valid in Hv. rewrite !andb_true_iff in Hv. destruct Hv as [_ Hv]. rewrite forallb_forall in Hv.
  specialize (Hv symbol ltac:(by apply list_elem_of_In)). unfold archive_symbol_valid in Hv. rewrite negb_true_iff, !orb_false_iff in Hv.
  destruct Hv as [[_ Hv] _]. apply Z.leb_gt in Hv. unfold member_count in Hv. unfold member_of. lia.
Qed.

(** ** One archive *)

Lemma extract_member_spec entry_option l objects input :
  archive_ready input -> (forall symbol, symbol ∈ l -> symbol ∈ archive_symbols (ia_archive input)) ->
  match extract_member l objects entry_option input with
  | Some (objects', input', true) => exists symbol object, symbol ∈ l /\ wants entry_option objects input symbol /\
      cvm_object_decode (member_file input symbol) = POk object /\ Z.of_nat (length objects) <> LINKER_MAX_OBJECTS /\
      objects' = objects ++ [object] /\ input' = mark input symbol
  | Some (objects', input', false) => objects' = objects /\ input' = input /\
      forall symbol, symbol ∈ l -> ~ wants entry_option objects input symbol
  | None => exists symbol, symbol ∈ l /\ wants entry_option objects input symbol /\
      (Z.of_nat (length objects) = LINKER_MAX_OBJECTS \/ forall object, cvm_object_decode (member_file input symbol) <> POk object)
  end.
Proof.
  intros Hr. induction l as [|symbol l IH]; intros Hin; cbn [extract_member].
  { split_and!; [done|done|]. intros s Hs. by apply elem_of_nil in Hs. }
  pose proof (Hin symbol ltac:(apply list_elem_of_here)) as Hsym. specialize (IH (fun s Hs => Hin s (list_elem_of_further _ _ _ Hs))).
  pose proof (symbol_member _ _ Hr Hsym) as Hlt. fold (member_of input symbol).
  destruct (lookup_lt_is_Some_2 _ _ Hlt) as [b Hb]. rewrite (list_lookup_total_correct _ _ _ Hb).
  destruct (b || negb (member_needed objects entry_option symbol)) eqn:Eskip.
  - assert (~ wants entry_option objects input symbol) as Hno.
    { intros (_ & Hf & Hn). rewrite Hb in Hf. injection Hf as ->. by rewrite Hn in Eskip. }
    destruct (extract_member l objects entry_option input) as [[[objects' input'] [|]]|].
    + destruct IH as (s & o & Hs & H). exists s, o. split; [by apply list_elem_of_further|done].
    + destruct IH as (-> & -> & H). split_and!; [done|done|]. intros s [->|Hs]%elem_of_cons; [done|by apply H].
    + destruct IH as (s & Hs & H). exists s. split; [by apply list_elem_of_further|done].
  - apply orb_false_iff in Eskip as [-> Hn]. apply negb_false_iff in Hn.
    assert (wants entry_option objects input symbol) as Hw by done. fold (member_file input symbol).
    destruct (cvm_object_decode (member_file input symbol)) as [object| |] eqn:Ed.
    + unfold append_object. destruct (Z.eqb_spec (Z.of_nat (length objects)) LINKER_MAX_OBJECTS) as [E|E]; cbn [mbind option_bind].
      * exists symbol. split_and!; [apply list_elem_of_here|done|by left].
      * exists symbol, object. split_and!; try done. apply list_elem_of_here.
    + exists symbol. split_and!; [apply list_elem_of_here|done|]. right. intros object. by rewrite Ed.
    + exists symbol. split_and!; [apply list_elem_of_here|done|]. right. intros object. by rewrite Ed.
Qed.

(** ** Passes and the loop *)

Lemma extract_pass_spec entry_option rest objects progress before :
  Forall archive_ready rest ->
  match extract_pass rest objects entry_option progress with
  | Some (objects', rest', progress') =>
      rtc (pull entry_option) (objects, before ++ rest) (objects', before ++ rest') /\ Forall archive_ready rest' /\
      (remaining_all rest' <= remaining_all rest)%nat /\
      (if progress' then progress = true \/ (remaining_all rest' < remaining_all rest)%nat
       else progress = false /\ objects' = objects /\ rest' = rest /\ complete entry_option (objects, rest))
  | None => exists st, rtc (pull entry_option) (objects, before ++ rest) st /\ stuck entry_option st
  end.
Proof.
  intros Hr. revert objects progress before. induction Hr as [|input rest Hi Hr IH]; intros objects progress before; cbn [extract_pass].
  { split_and!; [done|constructor|done|]. destruct progress; [by left|]. split_and!; try done.
    intros a s Ha. by apply elem_of_nil in Ha. }
  pose proof (extract_member_spec entry_option (archive_symbols (ia_archive input)) objects input Hi (fun s Hs => Hs)) as Hm.
  destruct (extract_member _ objects entry_option input) as [[[objects1 input1] found]|]; cbn [mbind option_bind].
  2:{ destruct Hm as (s & _ & Hw & Hst). exists (objects, before ++ input :: rest). split; [done|]. exists input, s. split_and!; [|done|done].
      cbn [snd]. rewrite elem_of_app. right. apply list_elem_of_here. }
  assert (archive_ready input1 /\ (remaining input1 <= remaining input)%nat /\ (found = true -> (remaining input1 < remaining input)%nat) /\
          rtc (pull entry_option) (objects, before ++ input :: rest) (objects1, before ++ input1 :: rest) /\
          (found = false -> objects1 = objects /\ input1 = input /\ forall s, ~ wants entry_option objects input s)) as (R1 & R2 & R3 & R4 & R5).
  { destruct found.
    - destruct Hm as (s & object & _ & Hw & Hd & Hl & -> & ->). pose proof (remaining_mark input s (proj1 (proj2 Hw))).
      split_and!; [by apply mark_ready|lia|done| |done]. apply rtc_once. by econstructor.
    - destruct Hm as (-> & -> & Hno). split_and!; [done|done|done|done|]. intros _. split_and!; [done|done|]. intros s Hw. by apply (Hno s); [apply Hw|]. }
  specialize (IH objects1 (progress || found) (before ++ [input1])). rewrite <- !app_assoc in IH. cbn [app] in IH.
  destruct (extract_pass rest objects1 entry_option (progress || found)) as [[[objects2 rest2] progress2]|]; cbn [mbind option_bind].
  - destruct IH as (I1 & I2 & I3 & I4). rewrite <- app_assoc in I1. cbn [app] in I1. split_and!.
    + by transitivity (objects1, before ++ input1 :: rest).
    + by constructor.
    + unfold remaining_all in *. cbn [sum_list_with]. lia.
    + unfold remaining_all in *. cbn [sum_list_with]. destruct progress2.
      * destruct progress, found; cbn [orb] in I4; try (by left); right; destruct I4 as [?|?]; try done; try specialize (R3 eq_refl); lia.
      * destruct I4 as (E & -> & -> & Hc). apply orb_false_iff in E as [-> ->]. destruct (R5 eq_refl) as (-> & -> & Hno).
        split_and!; try done. intros a s [->|Ha]%elem_of_cons; [apply Hno|by apply Hc].
  - destruct IH as (st & I1 & I2). exists st. split; [|done]. by transitivity (objects1, before ++ input1 :: rest).
Qed.

Lemma extract_loop_spec entry_option fuel archives objects :
  Forall archive_ready archives -> (remaining_all archives < fuel)%nat ->
  match extract_loop fuel archives objects entry_option with
  | Some objects' => exists archives', rtc (pull entry_option) (objects, archives) (objects', archives') /\ complete entry_option (objects', archives')
  | None => exists st, rtc (pull entry_option) (objects, archives) st /\ stuck entry_option st
  end.
Proof.
  revert archives objects. induction fuel as [|fuel IH]; intros archives objects Hr Hf; [lia|]. cbn [extract_loop].
  pose proof (extract_pass_spec entry_option archives objects false [] Hr) as Hp. cbn [app] in Hp.
  destruct (extract_pass archives objects entry_option false) as [[[objects1 archives1] progress]|]; cbn [mbind option_bind]; [|done].
  destruct Hp as (P1 & P2 & P3 & P4). destruct progress.
  - destruct P4 as [?|P4]; [done|]. specialize (IH archives1 objects1 P2 ltac:(lia)).
    destruct (extract_loop fuel archives1 objects1 entry_option) as [objects'|].
    + destruct IH as (archives' & I1 & I2). exists archives'. split; [|done]. by transitivity (objects1, archives1).
    + destruct IH as (st & I1 & I2). exists st. split; [|done]. by transitivity (objects1, archives1).
  - destruct P4 as (_ & -> & -> & Hc). exists archives. done.
Qed.

(** C25: extraction from archives ends and is exact.  Starting from archives
    that were read, [extract_archives] always returns: with the objects after
    extracting, one at a time, members that were needed when they were taken,
    until no member left in an archive is needed; or with a failure, only when
    it came to a needed member that is no object or when the table of objects
    is full. *)
Theorem extract_archives_exact archives objects entry_option :
  Forall archive_ready archives ->
  match extract_archives archives objects entry_option with
  | Some objects' => exists archives', rtc (pull entry_option) (objects, archives) (objects', archives') /\ complete entry_option (objects', archives')
  | None => exists st, rtc (pull entry_option) (objects, archives) st /\ stuck entry_option st
  end.
Proof. intros Hr. apply extract_loop_spec; [done|]. pose proof (remaining_total archives). lia. Qed.

(** ** From files to the image *)

Lemma file_of_wf data : Forall is_u8 data -> Z.of_nat (length data) <= CVM_OBJECT_MAX_SIZE -> ram_wf (file_of data).
Proof.
  intros H8 Hl. unfold file_of. apply store_bytes_wf; [|done]. apply zeroed_wf. unfold is_u64, CVM_OBJECT_MAX_SIZE in *. lia.
Qed.

Lemma decoded_ok data object : ram_wf data -> cvm_object_decode data = POk object -> object_wf object /\ object_valid object = true.
Proof. intros Hwf Hd. pose proof (decode_inside data Hwf) as H. by rewrite Hd in H. Qed.

Lemma member_file_wf input symbol :
  archive_ready input -> symbol ∈ archive_symbols (ia_archive input) -> ram_wf (member_file input symbol).
Proof.
  intros Hr Hs. pose proof (symbol_member _ _ Hr Hs) as Hlt. destruct Hr as [[Hm _] Hv Hl]. rewrite Hl in Hlt.
  destruct (lookup_lt_is_Some_2 _ _ Hlt) as [m Hi]. unfold member_file. rewrite (list_lookup_total_correct _ _ _ Hi).
  apply file_of_wf; [apply (list.Forall_lookup_1 _ _ _ _ Hm Hi)|]. unfold archive_valid in Hv. rewrite !andb_true_iff in Hv.
  destruct Hv as [[_ Hv] _]. apply members_valid_Forall in Hv. apply (list.Forall_lookup_1 _ _ _ _ Hv Hi).
Qed.

(** Extraction keeps the objects and the archives in order. *)
Definition state_ok (st : LinkState) : Prop := objects_ok st.1 /\ Forall archive_ready st.2.

Lemma pull_ok entry_option st st' : pull entry_option st st' -> state_ok st -> state_ok st'.
Proof.
  intros [objects before input after symbol object Hw Hd Hl] [Ho Ha]. cbn in *. apply list.Forall_app in Ha as [Hb Ha].
  apply list.Forall_cons in Ha as [Hi Ha]. split; cbn.
  - apply list.Forall_app. split; [done|]. apply list.Forall_cons. split; [|constructor].
    eapply decoded_ok; [|exact Hd]. apply member_file_wf; [done|apply Hw].
  - apply list.Forall_app. split; [done|]. apply list.Forall_cons. split; [by apply mark_ready|done].
Qed.

Lemma pulls_ok entry_option st st' : rtc (pull entry_option) st st' -> state_ok st -> state_ok st'.
Proof. induction 1 as [st|st st1 st2 Hp _ IH]; intros Hok; [done|]. apply IH. by eapply pull_ok. Qed.

Lemma read_inputs_ok files objects archives st :
  Forall ram_wf files -> state_ok (objects, archives) -> read_inputs files objects archives = Some st -> state_ok st.
Proof.
  intros Hf. revert objects archives. induction Hf as [|file files Hwf Hf IH]; intros objects archives [Ho Ha]; cbn [read_inputs].
  { by intros [= <-]. }
  destruct (fetch file 0 8) as [magic| |]; try done. destruct (bool_decide (magic = CVM_OBJECT_MAGIC)).
  - destruct (cvm_object_decode file) as [object| |] eqn:Ed; try done. unfold append_object.
    destruct (_ =? _); [done|]. cbn [mbind option_bind]. apply IH. split; [|done]. apply list.Forall_app. split; [done|].
    apply list.Forall_cons. split; [by eapply decoded_ok|constructor].
  - destruct (bool_decide (magic = CVM_ARCHIVE_MAGIC)); [|done].
    destruct (cvm_archive_decode file) as [archive| |] eqn:Ed; try done. apply IH. split; [done|]. apply list.Forall_app. split; [done|].
    apply list.Forall_cons. split; [|constructor]. pose proof (archive_decode_inside file Hwf) as H. rewrite Ed in H. destruct H as [W V].
    split; [done|done|]. cbn. apply length_replicate.
Qed.

Lemma link_sections_linkable objects entry_option base r : link_sections objects entry_option base = Some r -> linkable objects.
Proof.
  unfold link_sections. destruct (length objects =? 0)%nat; [done|].
  destruct (collect_globals objects) as [[g e]|] eqn:Ec; [|done]. intros _.
  apply collect_globals_table in Ec as [[_ _ H1 H2 _] H3]. done.
Qed.

Lemma write_image_valid outputs entry base rel image :
  write_image outputs entry base rel = Some image -> exists h, cvm_kernel_image_validate image = Pass h.
Proof.
  unfold write_image. destruct (build_image _ _ _ _) as [i|]; [|done]. cbn [mbind option_bind].
  destruct (cvm_kernel_image_finalize i) as [i'| |]; try done. destruct (cvm_kernel_image_validate i') as [h| |] eqn:E; try done.
  intros [= <-]. by exists h.
Qed.

(** C21: the linker.  When [link_files] writes an image, whatever the bytes of
    its input files were, the objects it linked are the ones on the command
    line followed by members pulled from the archives because they were
    needed, until none was; they are well formed; [.text] starts at the base
    address, which is page aligned, and each further output section at the
    first page behind its predecessor; every symbol is resolved to the
    definition the rules select; every relocation is resolved to the address of
    its symbol plus the addend, and its field holds the number that denotes it,
    but for bytes of it that the field of a later relocation overwrites (the
    format does not forbid overlapping fields); the entry lies in [.text]; and
    the image is one that validation accepts. *)
Theorem link_files_correct files entry_option base rel image :
  Forall ram_wf files -> is_u64 base -> link_files files entry_option base rel = Some image ->
  base mod PAGE_ALIGNMENT = 0 /\
  exists inputs archives objects archives' outputs entry globals placements laid h,
    read_inputs files [] [] = Some (inputs, archives) /\
    rtc (pull entry_option) (inputs, archives) (objects, archives') /\ complete entry_option (objects, archives') /\
    objects_ok objects /\ linkable objects /\ linked objects base globals placements laid outputs /\
    entry_ok objects entry_option globals placements outputs entry /\
    (exists text, outputs !! 0%nat = Some text /\ os_start text = base) /\
    (forall u a b, laid !! u = Some a -> outputs !! S u = Some b -> os_start b = page_up (os_start a + os_memory_size a)) /\
    (forall i x, all_relocations objects !! i = Some x -> relocated objects globals placements outputs i x) /\
    write_image outputs entry base rel = Some image /\ cvm_kernel_image_validate image = Pass h.
Proof.
  intros Hf Hb. unfold link_files. destruct (Z.eqb_spec (Z.land base (PAGE_ALIGNMENT - 1)) 0) as [Hal|]; [|done]. cbn [negb].
  destruct (read_inputs files [] []) as [[inputs archives]|] eqn:Er; [|done]. cbn [mbind option_bind].
  pose proof (read_inputs_ok _ _ _ _ Hf (conj (Forall_nil_2 _) (Forall_nil_2 _)) Er) as Hst.
  destruct (extract_archives archives inputs entry_option) as [objects|] eqn:Ee; [|done]. cbn [mbind option_bind].
  pose proof (extract_loop_spec entry_option _ archives inputs (proj2 Hst) ltac:(apply Nat.lt_succ_r, remaining_total)) as Hx.
  unfold extract_archives in Ee. rewrite Ee in Hx. destruct Hx as (archives' & Hp & Hc).
  destruct (pulls_ok _ _ _ Hp Hst) as [Hok _]. cbn in Hok.
  destruct (link_sections objects entry_option base) as [[outputs entry]|] eqn:El; [|done]. cbn [mbind option_bind]. intros Hw.
  destruct (link_sections_linked _ _ _ _ _ Hok Hb El) as (globals & placements & laid & HL & Hen).
  destruct (write_image_valid _ _ _ _ _ Hw) as [h Hv].
  assert (base mod PAGE_ALIGNMENT = 0) as Hbm.
  { change (PAGE_ALIGNMENT - 1) with (Z.ones 12) in Hal. by rewrite Z.land_ones in Hal by lia. }
  split; [done|]. pose proof (ln_layout _ _ _ _ _ _ HL) as HY. pose proof (ln_length _ _ _ _ _ _ HL) as Hlen.
  assert (forall u out, outputs !! u = Some out -> exists o, laid !! u = Some o /\ os_start out = os_start o) as Hlaid.
  { intros u out Hout. destruct (lookup_lt_is_Some_2 laid u) as [o Ho].
    { rewrite (lk_length _ _ _ _ HY), <- Hlen. by eapply lookup_lt_Some. }
    exists o. split; [done|]. apply (fi_start _ _ _ _ _ _ (ln_finished _ _ _ _ _ _ HL _ _ _ Ho Hout)). }
  exists inputs, archives, objects, archives', outputs, entry, globals, placements, laid, h. split_and!; try done.
  - by eapply link_sections_linkable.
  - destruct (lookup_lt_is_Some_2 outputs 0 ltac:(lia)) as [text Ht]. exists text. split; [done|].
    destruct (Hlaid _ _ Ht) as (o & Ho & ->). rewrite (lk_first _ _ _ _ HY o Ho). by apply page_up_id.
  - intros u a b Ha Hb'. destruct (Hlaid _ _ Hb') as (o & Ho & ->). by apply (lk_next _ _ _ _ HY u).
  - apply (ln_relocated _ _ _ _ _ _ HL).
Qed.

(** ** The small program in an object file and an archive *)

Definition main_file : RAM := default (zeroed 0) (cvm_object_encode demo_main).
Definition lib_file : RAM :=
  default (zeroed 0) (create_archive [([108], default (zeroed 0) (cvm_object_encode demo_lib))]).
Definition lib_archive : InputArchive :=
  mkInputArchive (match cvm_archive_decode lib_file with POk a => a | _ => mkArchive [] [] end) [false].

Lemma demo_files_wf : Forall ram_wf [main_file; lib_file].
Proof. repeat (apply list.Forall_cons; split); [..|constructor]; apply ram_wf_decide; vm_compute; reflexivity. Qed.

Lemma lib_archive_ready : archive_ready lib_archive.
Proof.
  assert (ram_wf lib_file) as Hwf by (apply ram_wf_decide; vm_compute; reflexivity).
  assert (exists a, cvm_archive_decode lib_file = POk a /\ length (members a) = 1%nat) as (a & E & L).
  { eexists. split; [vm_compute; reflexivity|]. reflexivity. }
  pose proof (archive_decode_inside lib_file Hwf) as H. unfold lib_archive. revert H E L. generalize (cvm_archive_decode lib_file).
  intros r H -> L. destruct H as [W V]. split; [exact W|exact V|]. cbn. by rewrite L.
Qed.

Lemma extract_archives_exact_witness :
  exists objects archives', extract_archives [lib_archive] [demo_main] None = Some objects /\ length objects = 2%nat /\
    rtc (pull None) ([demo_main], [lib_archive]) (objects, archives') /\ complete None (objects, archives').
Proof.
  pose proof (extract_archives_exact [lib_archive] [demo_main] None) as H.
  destruct (extract_archives [lib_archive] [demo_main] None) as [objects|] eqn:E; [|exfalso; clear H; revert E; vm_compute; discriminate].
  destruct H as (archives' & H1 & H2).
  - apply list.Forall_cons. split; [exact lib_archive_ready|constructor].
  - exists objects, archives'. split_and!; [reflexivity| |exact H1|exact H2].
    assert (length <$> extract_archives [lib_archive] [demo_main] None = Some 2%nat) as L by (vm_compute; reflexivity).
    rewrite E in L. by injection L.
Defined.

Lemma link_files_correct_witness :
  exists image h, link_files [main_file; lib_file] None 0x10000 false = Some image /\ cvm_kernel_image_validate image = Pass h.
Proof.
  destruct (link_files [main_file; lib_file] None 0x10000 false) as [image|] eqn:E; [|exfalso; revert E; vm_compute; discriminate].
  destruct (link_files_correct [main_file; lib_file] None 0x10000 false image demo_files_wf ltac:(unfold is_u64; lia) E)
    as (_ & _ & _ & _ & _ & _ & _ & _ & _ & _ & h & _ & _ & _ & _ & _ & _ & _ & _ & _ & _ & _ & Hv).
  exists image, h. split; [reflexivity|exact Hv].
Defined.
