(* ===== verification/Interrupt.v ===== *)
(** Interrupt delivery: src/interrupt.c, include/interrupt.h,
    include/interrupt_protocol.h.

    An [InterruptController] is the word of lines pending at one hardware
    thread.  The [InterruptRouter] owns the array of controllers it targets
    ([targets[i]] are distinct objects in the code) and routes the 48 external
    lines to them; lines 48 to 63 are inter-processor interrupts.  The router
    lock brackets each operation, so an operation is one step of the model. *)

From S2P Require Import Prelude.
From stdpp Require Import base list numbers option.
From Stdlib Require Import ZArith Lia Bool.

#[local] Open Scope Z_scope.

Definition INTERRUPT_LINE_COUNT : Z := 64.
Definition INTERRUPT_EXTERNAL_LINE_COUNT : Z := 48.
Definition INTERRUPT_IPI_LINE_BASE : Z := INTERRUPT_EXTERNAL_LINE_COUNT.
Definition INTERRUPT_EXTERNAL_LINE_MASK : Z := bit64 INTERRUPT_EXTERNAL_LINE_COUNT - 1.

(** ** Controllers *)

Definition interrupt_controller_init : Z := 0.

Definition interrupt_controller_raise (pending line : Z) : option Z :=
  if INTERRUPT_LINE_COUNT <=? line then None else Some (Z.lor pending (bit64 line)).

Definition interrupt_controller_clear (pending line : Z) : option Z :=
  if INTERRUPT_LINE_COUNT <=? line then None
  else Some (Z.land pending (not64 (bit64 line))).

(** [while ((value & 1) == 0)]; a non-zero 64-bit word needs at most 63 passes. *)
Fixpoint lowest_set_bit_loop (fuel : nat) (value bit : Z) : Z :=
  match fuel with
  | O => bit
  | S fuel =>
      if Z.land value 1 =? 0 then lowest_set_bit_loop fuel (Z.shiftr value 1) (bit + 1)
      else bit
  end.

Definition lowest_set_bit (value : Z) : Z := lowest_set_bit_loop 64 value 0.

(** One pass of the compare-and-swap loop of [interrupt_controller_take_next]:
    the line it selects and the word it tries to install. *)
Definition take_attempt (current : Z) : option (Z * Z) :=
  if current =? 0 then None
  else
    let ipi_available := Z.land current (not64 INTERRUPT_EXTERNAL_LINE_MASK) in
    let selected := lowest_set_bit (if negb (ipi_available =? 0) then ipi_available else current) in
    Some (selected, Z.land current (not64 (bit64 selected))).

(** The loop under interference.  Each element of [observed] is what one
    [atomic_compare_exchange_weak] found: the word in memory and whether the
    weak exchange failed spuriously.  [None]: still retrying when the
    observations end; [Some None]: returned 0; [Some (Some (line, m, d))]:
    returned [line] by replacing the word [m] found in memory by [d]. *)
Fixpoint take_next_loop (observed : list (Z * bool)) (current : Z) :
    option (option (Z * Z * Z)) :=
  match take_attempt current with
  | None => Some None
  | Some (selected, desired) =>
      match observed with
      | [] => None
      | (memory, spurious) :: rest =>
          if (memory =? current) && negb spurious
          then Some (Some (selected, memory, desired))
          else take_next_loop rest memory
      end
  end.

(** Without interference the first exchange succeeds. *)
Definition interrupt_controller_take_next (pending : Z) : option (Z * Z) := take_attempt pending.

(** ** The router *)

Record InterruptRouter := mkRouter {
  targets : list Z;
  routes : list Z;
  enabled : Z;
  pending : Z;
  active : Z;
  programmable : bool
}.

Definition target_count (r : InterruptRouter) : Z := Z.of_nat (length (targets r)).

Definition set_targets v r := mkRouter v (routes r) (enabled r) (pending r) (active r) (programmable r).
Definition set_routes v r := mkRouter (targets r) v (enabled r) (pending r) (active r) (programmable r).
Definition set_enabled v r := mkRouter (targets r) (routes r) v (pending r) (active r) (programmable r).
Definition set_pending v r := mkRouter (targets r) (routes r) (enabled r) v (active r) (programmable r).
Definition set_active v r := mkRouter (targets r) (routes r) (enabled r) (pending r) v (programmable r).

Definition external_lines : list Z := seqZ 0 INTERRUPT_EXTERNAL_LINE_COUNT.

Definition target_has_active_locked (r : InterruptRouter) (target : Z) : bool :=
  existsb (fun line => has_bits (active r) (bit64 line) && (arr_get (routes r) line =? target))
    external_lines.

(** The scan of [dispatch_target_locked] for the first deliverable line. *)
Fixpoint dispatch_scan (r : InterruptRouter) (deliverable target : Z) (lines : list Z) :
    InterruptRouter :=
  match lines with
  | [] => r
  | line :: rest =>
      let bit := bit64 line in
      if negb (has_bits deliverable bit) || negb (arr_get (routes r) line =? target)
      then dispatch_scan r deliverable target rest
      else
        let r := set_pending (Z.land (pending r) (not64 bit)) r in
        let r := set_active (Z.lor (active r) bit) r in
        match interrupt_controller_raise (arr_get (targets r) target) line with
        | Some p => set_targets (arr_set (targets r) target p) r
        | None => r
        end
  end.

Definition dispatch_target_locked (r : InterruptRouter) (target : Z) : InterruptRouter :=
  if (target_count r <=? target) || target_has_active_locked r target then r
  else
    let deliverable :=
      Z.land (Z.land (pending r) (enabled r)) INTERRUPT_EXTERNAL_LINE_MASK in
    dispatch_scan r deliverable target external_lines.

Definition dispatch_all_locked (r : InterruptRouter) : InterruptRouter :=
  fold_left dispatch_target_locked (seqZ 0 (target_count r)) r.

(** [interrupt_router_init] over controllers in any state. *)
Definition interrupt_router_init (controllers : list Z) : option InterruptRouter :=
  if Z.of_nat (length controllers) =? 0 then None
  else Some (mkRouter controllers (replicate 64 0) UINT64_MAX 0 0 false).

Definition interrupt_router_set_route (r : InterruptRouter) (line target_index : Z) :
    bool * InterruptRouter :=
  if (INTERRUPT_LINE_COUNT <=? line) || (target_count r <=? target_index) then (false, r)
  else if programmable r &&
          ((INTERRUPT_EXTERNAL_LINE_COUNT <=? line) || has_bits (active r) (bit64 line))
  then (false, r)
  else
    let r := set_routes (arr_set (routes r) line target_index) r in
    (true, if programmable r then dispatch_target_locked r target_index else r).

Definition interrupt_router_raise (r : InterruptRouter) (line : Z) : bool * InterruptRouter :=
  if INTERRUPT_LINE_COUNT <=? line then (false, r)
  else if negb (programmable r) then
    let target := arr_get (routes r) line in
    if target <? target_count r then
      match interrupt_controller_raise (arr_get (targets r) target) line with
      | Some p => (true, set_targets (arr_set (targets r) target p) r)
      | None => (false, r)
      end
    else (false, r)
  else if INTERRUPT_EXTERNAL_LINE_COUNT <=? line then (false, r)
  else
    let bit := bit64 line in
    let r := set_pending (Z.lor (pending r) bit) r in
    (true, if negb (has_bits (active r) bit)
           then dispatch_target_locked r (arr_get (routes r) line) else r).

Definition interrupt_router_clear (r : InterruptRouter) (line : Z) : bool * InterruptRouter :=
  if INTERRUPT_LINE_COUNT <=? line then (false, r)
  else if programmable r then
    if INTERRUPT_EXTERNAL_LINE_COUNT <=? line then (false, r)
    else
      let bit := bit64 line in
      let target := arr_get (routes r) line in
      let r := set_pending (Z.land (pending r) (not64 bit)) r in
      if has_bits (active r) bit then
        let r := set_active (Z.land (active r) (not64 bit)) r in
        if target <? target_count r then
          let r := match interrupt_controller_clear (arr_get (targets r) target) line with
                   | Some p => set_targets (arr_set (targets r) target p) r
                   | None => r
                   end in
          (true, dispatch_target_locked r target)
        else (true, r)
      else (true, r)
  else
    let target := arr_get (routes r) line in
    if target <? target_count r then
      match interrupt_controller_clear (arr_get (targets r) target) line with
      | Some p => (true, set_targets (arr_set (targets r) target p) r)
      | None => (false, r)
      end
    else (false, r).

Definition interrupt_router_programmable_reset (r : InterruptRouter) : InterruptRouter :=
  mkRouter ((fun _ => interrupt_controller_init) <$> targets r) (replicate 64 0) 0 0 0 true.

Definition mask_external (mask : Z) : bool :=
  Z.land mask (not64 INTERRUPT_EXTERNAL_LINE_MASK) =? 0.

Definition interrupt_router_set_enabled (r : InterruptRouter) (mask : Z) : bool * InterruptRouter :=
  if negb (mask_external mask) || negb (programmable r) then (false, r)
  else (true, dispatch_all_locked (set_enabled mask r)).

Definition interrupt_router_enable_lines (r : InterruptRouter) (mask : Z) : bool * InterruptRouter :=
  if negb (mask_external mask) || negb (programmable r) then (false, r)
  else (true, dispatch_all_locked (set_enabled (Z.lor (enabled r) mask) r)).

Definition interrupt_router_disable_lines (r : InterruptRouter) (mask : Z) :
    bool * InterruptRouter :=
  if negb (mask_external mask) || negb (programmable r) then (false, r)
  else (true, set_enabled (Z.land (enabled r) (not64 mask)) r).

Definition interrupt_router_get_route (r : InterruptRouter) (line : Z) : option Z :=
  if INTERRUPT_EXTERNAL_LINE_COUNT <=? line then None else Some (arr_get (routes r) line).

Definition interrupt_router_eoi (r : InterruptRouter) (line : Z) : bool * InterruptRouter :=
  if INTERRUPT_EXTERNAL_LINE_COUNT <=? line then (false, r)
  else
    let bit := bit64 line in
    if negb (programmable r) || negb (has_bits (active r) bit) then (false, r)
    else
      let target := arr_get (routes r) line in
      let r := set_active (Z.land (active r) (not64 bit)) r in
      (true, dispatch_target_locked r target).

Arguments take_attempt : simpl never.
Arguments lowest_set_bit : simpl never.
Arguments external_lines : simpl never.
Arguments INTERRUPT_EXTERNAL_LINE_COUNT : simpl never.
Arguments INTERRUPT_LINE_COUNT : simpl never.

Ltac line_lia := unfold INTERRUPT_EXTERNAL_LINE_COUNT, INTERRUPT_LINE_COUNT in *; lia.

(** ** Bits of the line masks *)

Lemma external_mask_bits i :
  0 <= i -> Z.testbit INTERRUPT_EXTERNAL_LINE_MASK i = (i <? INTERRUPT_EXTERNAL_LINE_COUNT).
Proof.
  intros Hi. change INTERRUPT_EXTERNAL_LINE_MASK with (Z.ones 48).
  destruct (Z.ltb_spec i INTERRUPT_EXTERNAL_LINE_COUNT).
  - apply Z.ones_spec_low. line_lia.
  - apply Z.ones_spec_high. line_lia.
Qed.

Lemma mask_external_bits mask i :
  is_u64 mask -> mask_external mask = true -> INTERRUPT_EXTERNAL_LINE_COUNT <= i ->
  Z.testbit mask i = false.
Proof.
  intros Hm H Hi. unfold mask_external in H. apply Z.eqb_eq in H.
  destruct (Z.lt_ge_cases i 64); [|by apply testbit_u64_high].
  apply (f_equal (fun x => Z.testbit x i)) in H.
  rewrite Z.land_spec, testbit_not64, external_mask_bits, Z.bits_0 in H by line_lia.
  rewrite (proj2 (Z.ltb_ge _ _)) in H by done. by rewrite andb_true_r in H.
Qed.

Lemma land_one_testbit v : Z.land v 1 = 0 <-> Z.testbit v 0 = false.
Proof.
  pose proof (has_bits_pow2 v 0 ltac:(lia)) as H. unfold has_bits in H.
  change (2 ^ 0) with 1 in H. rewrite <-H, negb_false_iff, Z.eqb_eq. done.
Qed.

Lemma lowest_set_bit_loop_spec fuel v b k :
  0 <= k < Z.of_nat fuel -> Z.testbit v k = true ->
  (forall j, 0 <= j < k -> Z.testbit v j = false) ->
  lowest_set_bit_loop fuel v b = b + k.
Proof.
  revert v b k. induction fuel as [|fuel IH]; intros v b k Hk Hv Hlow; simpl; [lia|].
  destruct (Z.eqb_spec (Z.land v 1) 0) as [H0|H0].
  - apply land_one_testbit in H0. assert (k <> 0) by (intros ->; congruence).
    rewrite (IH _ _ (k - 1)); [lia|lia|..].
    + rewrite Z.shiftr_spec by lia. by replace (k - 1 + 1) with k by lia.
    + intros j Hj. rewrite Z.shiftr_spec by lia. apply Hlow. lia.
  - assert (~ 0 < k) as ?; [|lia]. intros Hpos. apply H0, land_one_testbit, Hlow. lia.
Qed.

(** The least set bit of a non-zero word exists. *)
Lemma least_bit_exists v :
  is_u64 v -> v <> 0 ->
  exists k, 0 <= k < 64 /\ Z.testbit v k = true /\ forall j, 0 <= j < k -> Z.testbit v j = false.
Proof.
  intros Hv Hne.
  assert (forall n : nat, (exists k, 0 <= k < Z.of_nat n /\ Z.testbit v k = true /\
      forall j, 0 <= j < k -> Z.testbit v j = false) \/
    (forall j, 0 <= j < Z.of_nat n -> Z.testbit v j = false)) as Hscan.
  { induction n as [|n [(k & Hk & ?)|Hn]]; [right; lia| |].
    - left. exists k. split; [lia|done].
    - destruct (Z.testbit v (Z.of_nat n)) eqn:E.
      + left. exists (Z.of_nat n). split_and!; [lia..|done|]. intros j Hj. apply Hn. lia.
      + right. intros j Hj. destruct (decide (j = Z.of_nat n)) as [->|]; [done|].
        apply Hn. lia. }
  destruct (Hscan 64%nat) as [(k & Hk & ?)|Hz]; [by exists k|].
  destruct Hne. apply u64_bits_eq; [done|by vm_compute|]. intros i Hi.
  rewrite Z.bits_0. by apply Hz.
Qed.

Lemma lowest_set_bit_correct v :
  is_u64 v -> v <> 0 ->
  0 <= lowest_set_bit v < 64 /\ Z.testbit v (lowest_set_bit v) = true /\
  forall j, 0 <= j < lowest_set_bit v -> Z.testbit v j = false.
Proof.
  intros Hv Hne. destruct (least_bit_exists v Hv Hne) as (k & Hk & Hset & Hlow).
  unfold lowest_set_bit. rewrite (lowest_set_bit_loop_spec 64 v 0 k) by done.
  by rewrite Z.add_0_l.
Qed.

(** ** Dispatch *)

Definition deliverable (r : InterruptRouter) (t l : Z) : Prop :=
  0 <= l < INTERRUPT_EXTERNAL_LINE_COUNT /\ Z.testbit (pending r) l = true /\
  Z.testbit (enabled r) l = true /\ arr_get (routes r) l = t.

Definition busy (r : InterruptRouter) (t : Z) : Prop :=
  exists l, 0 <= l < INTERRUPT_EXTERNAL_LINE_COUNT /\ Z.testbit (active r) l = true /\
    arr_get (routes r) l = t.

(** The effect of delivering line [l] to target [t]. *)
Definition deliver (r : InterruptRouter) (t l : Z) : InterruptRouter :=
  mkRouter (arr_set (targets r) t (Z.lor (arr_get (targets r) t) (bit64 l))) (routes r)
    (enabled r) (Z.land (pending r) (not64 (bit64 l))) (Z.lor (active r) (bit64 l))
    (programmable r).

Lemma target_has_active_busy r t : target_has_active_locked r t = true <-> busy r t.
Proof.
  unfold target_has_active_locked, busy, external_lines. rewrite existsb_exists.
  setoid_rewrite <-list_elem_of_In. setoid_rewrite elem_of_seqZ.
  split; intros (l & H); exists l; rewrite andb_true_iff, Z.eqb_eq in *.
  - destruct H as [Hl [Ha Hr]]. rewrite has_bits_bit64 in Ha by line_lia. split_and!; done || lia.
  - destruct H as (Hl & Ha & Hr). rewrite has_bits_bit64 by line_lia. split_and!; done || line_lia.
Qed.

Lemma deliverable_bits r l :
  0 <= l < INTERRUPT_EXTERNAL_LINE_COUNT ->
  has_bits (Z.land (Z.land (pending r) (enabled r)) INTERRUPT_EXTERNAL_LINE_MASK) (bit64 l) =
  Z.testbit (pending r) l && Z.testbit (enabled r) l.
Proof.
  intros Hl. rewrite has_bits_bit64, !Z.land_spec, external_mask_bits by line_lia.
  rewrite (proj2 (Z.ltb_lt _ _)), andb_true_r by lia. done.
Qed.

Lemma dispatch_scan_spec r t lines :
  let d := Z.land (Z.land (pending r) (enabled r)) INTERRUPT_EXTERNAL_LINE_MASK in
  (forall l, l ∈ lines -> 0 <= l < INTERRUPT_EXTERNAL_LINE_COUNT) ->
  (dispatch_scan r d t lines = r /\ forall l, l ∈ lines -> ~ deliverable r t l) \/
  (exists l before after, lines = before ++ l :: after /\ deliverable r t l /\
     (forall l', l' ∈ before -> ~ deliverable r t l') /\
     dispatch_scan r d t lines = deliver r t l).
Proof.
  intros d. induction lines as [|l lines IH]; intros Hin.
  - left. split; [done|]. by intros l ?%elem_of_nil.
  - assert (0 <= l < INTERRUPT_EXTERNAL_LINE_COUNT) as Hl by (apply Hin; left).
    assert (deliverable r t l <->
      has_bits d (bit64 l) = true /\ (arr_get (routes r) l =? t) = true) as Hd.
    { unfold deliverable, d. rewrite deliverable_bits, andb_true_iff, Z.eqb_eq by done. tauto. }
    cbn [dispatch_scan]. destruct (negb _ || negb _) eqn:E.
    + assert (~ deliverable r t l) as Hn.
      { rewrite Hd. intros [H1 H2]. by rewrite H1, H2 in E. }
      destruct IH as [[-> Hnone]|(l' & b & a & -> & H1 & H2 & H3)].
      { intros l' ?. apply Hin. by right. }
      * left. split; [done|]. intros l' [->|?]%elem_of_cons; auto.
      * right. exists l', (l :: b), a. split_and!; [done..| |done].
        intros l'' [->|?]%elem_of_cons; auto.
    + right. exists l, [], lines. apply orb_false_iff in E as [E1%negb_false_iff E2%negb_false_iff].
      split_and!; [done|by apply Hd|by intros ? ?%elem_of_nil|].
      unfold interrupt_controller_raise. rewrite (proj2 (Z.leb_gt _ _)) by line_lia. done.
Qed.

Lemma seqZ_split_elem m n b l a x :
  seqZ m n = b ++ l :: a -> m <= x < l -> x ∈ b.
Proof.
  intros H Hx. assert (seqZ m n !! length b = Some l) as Hl.
  { rewrite H, lookup_app_r, Nat.sub_diag by lia. done. }
  apply lookup_seqZ in Hl as [Hl1 Hl2].
  apply list_elem_of_lookup. exists (Z.to_nat (x - m)).
  rewrite <-(lookup_app_l b (l :: a)), <-H by lia. rewrite lookup_seqZ_lt by lia. f_equal. lia.
Qed.

(** [dispatch_target_locked] delivers the least deliverable line of an idle
    target and otherwise changes nothing. *)
Lemma dispatch_spec r t :
  (dispatch_target_locked r t = r /\
     (target_count r <= t \/ busy r t \/ forall l, ~ deliverable r t l)) \/
  (exists l, t < target_count r /\ ~ busy r t /\ deliverable r t l /\
     (forall l', l' < l -> ~ deliverable r t l') /\ dispatch_target_locked r t = deliver r t l).
Proof.
  unfold dispatch_target_locked. destruct (Z.leb_spec (target_count r) t); [by left; auto|].
  cbn [orb]. destruct (target_has_active_locked r t) eqn:Hb.
  { left. split; [done|]. right; left. by apply target_has_active_busy. }
  destruct (dispatch_scan_spec r t external_lines) as [[-> Hn]|(l & b & a & Hs & Hd & Hn & ->)].
  { intros l. unfold external_lines. rewrite elem_of_seqZ. lia. }
  - left. split; [done|]. do 2 right. intros l Hd. apply (Hn l); [|done].
    unfold external_lines. apply elem_of_seqZ. destruct Hd. lia.
  - right. exists l. split_and!; [done| |done| |done].
    + intros Hbusy%target_has_active_busy. congruence.
    + intros l' Hlt Hd'. apply (Hn l'); [|done].
      eapply seqZ_split_elem; [exact Hs|]. destruct Hd'. lia.
Qed.

(** ** The router invariant *)

Definition router_basic (r : InterruptRouter) : Prop :=
  0 < target_count r <= SIZE_MAX /\ length (routes r) = 64%nat /\
  Forall (fun t => 0 <= t < target_count r) (routes r) /\
  is_u64 (enabled r) /\ is_u64 (pending r) /\ is_u64 (active r) /\ Forall is_u64 (targets r).

(** No target has two lines in service: delivery is not re-entrant. *)
Definition one_active (r : InterruptRouter) : Prop :=
  forall l1 l2, 0 <= l1 < INTERRUPT_EXTERNAL_LINE_COUNT ->
    0 <= l2 < INTERRUPT_EXTERNAL_LINE_COUNT ->
    Z.testbit (active r) l1 = true -> Z.testbit (active r) l2 = true ->
    arr_get (routes r) l1 = arr_get (routes r) l2 -> l1 = l2.

(** Only external lines are masked, latched or in service. *)
Definition external_only (r : InterruptRouter) : Prop :=
  forall l, INTERRUPT_EXTERNAL_LINE_COUNT <= l ->
    Z.testbit (pending r) l = false /\ Z.testbit (active r) l = false /\
    Z.testbit (enabled r) l = false.

(** No target idles while an enabled line routed to it is pending. *)
Definition conserved (r : InterruptRouter) (t : Z) : Prop :=
  (exists l, deliverable r t l) -> busy r t.

Definition router_core (r : InterruptRouter) : Prop :=
  router_basic r /\ one_active r /\ external_only r.

Definition router_inv (r : InterruptRouter) : Prop :=
  router_basic r /\
  (programmable r = true -> one_active r /\ external_only r /\ forall t, conserved r t).

Lemma route_in_range r l : router_basic r -> 0 <= arr_get (routes r) l < target_count r.
Proof.
  intros (Hc & Hlen & Hr & _). apply (arr_get_Forall (fun t => 0 <= t < target_count r)); [lia|done].
Qed.

Lemma target_u64 r t : router_basic r -> is_u64 (arr_get (targets r) t).
Proof. intros (_ & _ & _ & _ & _ & _ & Ht). by apply arr_get_Forall; [by vm_compute|]. Qed.

Lemma deliver_bits r t l i :
  router_basic r -> 0 <= l < INTERRUPT_EXTERNAL_LINE_COUNT -> 0 <= i ->
  Z.testbit (pending (deliver r t l)) i = Z.testbit (pending r) i && negb (l =? i) /\
  Z.testbit (active (deliver r t l)) i = Z.testbit (active r) i || (l =? i).
Proof.
  intros (_ & _ & _ & _ & Hp & _) Hl Hi. simpl.
  rewrite testbit_clear_bit, testbit_set_bit by (done || line_lia). done.
Qed.

Lemma deliver_basic r t l :
  router_basic r -> 0 <= l < INTERRUPT_EXTERNAL_LINE_COUNT -> router_basic (deliver r t l).
Proof.
  intros Hb Hl. pose proof (target_u64 r t Hb). destruct Hb as (H1 & H2 & H3 & H4 & H5 & H6 & H7).
  unfold router_basic, target_count, deliver in *. simpl. rewrite length_arr_set.
  split; [done|]. split_and!; auto with u64. apply arr_set_Forall; auto with u64.
Qed.

Lemma deliver_core r t l :
  router_core r -> ~ busy r t -> deliverable r t l -> router_core (deliver r t l).
Proof.
  intros (Hb & Hone & Hext) Hidle (Hl & Hp & He & Hr). split_and!; [by apply deliver_basic|..].
  - intros l1 l2 H1 H2. rewrite (proj2 (deliver_bits r t l l1 Hb Hl ltac:(lia))).
    rewrite (proj2 (deliver_bits r t l l2 Hb Hl ltac:(lia))), !orb_true_iff, !Z.eqb_eq. simpl.
    intros [A1|<-] [A2|<-] Heq; [by apply Hone|..|done]; destruct Hidle.
    + exists l1. split_and!; [lia..|done|congruence].
    + exists l2. split_and!; [lia..|done|congruence].
  - intros i Hi. destruct (deliver_bits r t l i Hb Hl ltac:(line_lia)) as [-> ->].
    destruct (Hext i Hi) as (-> & -> & ?). rewrite (proj2 (Z.eqb_neq _ _)) by lia. done.
Qed.

Lemma busy_deliver r t l t' :
  router_basic r -> 0 <= l < INTERRUPT_EXTERNAL_LINE_COUNT -> busy r t' -> busy (deliver r t l) t'.
Proof.
  intros Hb Hl (l' & ? & Ha & ?). exists l'. split_and!; [lia..| |done].
  rewrite (proj2 (deliver_bits r t l l' Hb Hl ltac:(lia))), Ha. done.
Qed.

Lemma deliver_conserved_self r t l :
  router_basic r -> deliverable r t l -> conserved (deliver r t l) t.
Proof.
  intros Hb (Hl & _ & _ & Hr) _. exists l. split_and!; [lia..| |done].
  rewrite (proj2 (deliver_bits r t l l Hb Hl ltac:(lia))), Z.eqb_refl. by rewrite orb_true_r.
Qed.

Lemma deliver_conserved_other r t l t' :
  router_basic r -> 0 <= l < INTERRUPT_EXTERNAL_LINE_COUNT ->
  conserved r t' -> conserved (deliver r t l) t'.
Proof.
  intros Hb Hl Hc (l' & Hl' & Hp & He & Hr). apply busy_deliver; [done..|]. apply Hc.
  exists l'. rewrite (proj1 (deliver_bits r t l l' Hb Hl ltac:(lia))) in Hp.
  apply andb_true_iff in Hp as [Hp _]. done.
Qed.

Lemma dispatch_core r t : router_core r -> router_core (dispatch_target_locked r t).
Proof.
  intros Hc. destruct (dispatch_spec r t) as [[-> _]|(l & _ & Hi & Hd & _ & ->)]; [done|].
  by apply deliver_core.
Qed.

Lemma dispatch_fields r t :
  routes (dispatch_target_locked r t) = routes r /\
  enabled (dispatch_target_locked r t) = enabled r /\
  programmable (dispatch_target_locked r t) = programmable r /\
  target_count (dispatch_target_locked r t) = target_count r.
Proof.
  destruct (dispatch_spec r t) as [[-> _]|(l & _ & _ & _ & _ & ->)]; [done|].
  unfold target_count. simpl. by rewrite length_arr_set.
Qed.

(** A target out of range has no route to it. *)
Lemma conserved_out_of_range r t : router_basic r -> target_count r <= t -> conserved r t.
Proof.
  intros Hb Ht (l & _ & _ & _ & Hr). pose proof (route_in_range r l Hb). lia.
Qed.

Lemma dispatch_conserved r t t' :
  router_basic r -> (t' <> t -> conserved r t') -> conserved (dispatch_target_locked r t) t'.
Proof.
  intros Hb Hc. destruct (dispatch_spec r t) as [[-> Hwhy]|(l & _ & _ & Hd & _ & ->)];
    (destruct (decide (t' = t)) as [->|]; [|auto using deliver_conserved_other]).
  - destruct Hwhy as [?|[?|Hn]]; [by apply conserved_out_of_range|by intros _|].
    intros [l Hd]. by destruct (Hn l).
  - by apply deliver_conserved_self.
  - destruct Hd. by apply deliver_conserved_other; auto.
Qed.

Lemma dispatch_all_inv r :
  router_core r -> router_core (dispatch_all_locked r) /\
  (forall t, conserved (dispatch_all_locked r) t) /\
  programmable (dispatch_all_locked r) = programmable r.
Proof.
  intros Hc. unfold dispatch_all_locked.
  assert (forall ts r0, router_core r0 ->
    let r' := fold_left dispatch_target_locked ts r0 in
    router_core r' /\ programmable r' = programmable r0 /\ target_count r' = target_count r0 /\
    (forall t, conserved r0 t \/ t ∈ ts -> conserved r' t)) as Hfold.
  { induction ts as [|t0 ts IH]; intros r0 H0; simpl.
    - split_and!; [done..|]. by intros t [?|?%elem_of_nil].
    - destruct (IH (dispatch_target_locked r0 t0)) as (? & ? & ? & Hcons);
        [by apply dispatch_core|].
      destruct (dispatch_fields r0 t0) as (_ & _ & Hp & Hn).
      split_and!; [done|congruence..|]. intros t Ht. apply Hcons.
      destruct (decide (t = t0)) as [->|].
      + left. by apply dispatch_conserved; [apply H0|].
      + destruct Ht as [?|[?|?]%elem_of_cons]; [|done|by right].
        left. apply dispatch_conserved; [apply H0|done]. }
  destruct (Hfold (seqZ 0 (target_count r)) r Hc) as (Hcore & ? & Hn & Hcons).
  split_and!; [done| |done]. intros t.
  destruct (decide (t < target_count r)); [|apply conserved_out_of_range; [apply Hcore|lia]].
  destruct (decide (0 <= t)).
  - apply Hcons. right. apply elem_of_seqZ. lia.
  - intros (l' & _ & _ & _ & Hr). pose proof (route_in_range _ l' (proj1 Hcore)). lia.
Qed.

(** ** Every operation preserves the invariant *)

Lemma router_init_inv controllers r :
  Forall is_u64 controllers -> Z.of_nat (length controllers) <= SIZE_MAX ->
  interrupt_router_init controllers = Some r -> router_inv r.
Proof.
  intros Hc Hmax. unfold interrupt_router_init. destruct (Z.eqb_spec (Z.of_nat (length controllers)) 0);
    [done|]. intros [= <-]. split; [|done]. unfold router_basic, target_count. simpl.
  split; [lia|]. split_and!; [done| |by vm_compute..|done].
  repeat (apply Forall_cons_2; [lia|]). apply Forall_nil_2.
Qed.

Lemma router_reset_inv r : router_inv r -> router_inv (interrupt_router_programmable_reset r).
Proof.
  intros [(Hc & _) _]. unfold target_count in Hc. split.
  - unfold router_basic, target_count. simpl. rewrite length_fmap.
    split; [lia|]. split_and!; [done| |by vm_compute..|].
    + repeat (apply Forall_cons_2; [lia|]). apply Forall_nil_2.
    + apply Forall_fmap, Forall_true. by vm_compute.
  - intros _. split_and!.
    + intros l1 l2 _ _ H. simpl in H. by rewrite Z.bits_0 in H.
    + intros l _. simpl. by rewrite !Z.bits_0.
    + intros t (l & _ & H & _). simpl in H. by rewrite Z.bits_0 in H.
Qed.

(** A change of the controllers only does not touch the invariant. *)
Lemma set_targets_inv r t p :
  router_inv r -> is_u64 p -> router_inv (set_targets (arr_set (targets r) t p) r).
Proof.
  intros [(H1 & H2 & H3 & H4 & H5 & H6 & H7) Hp] Hu. split; [|exact Hp].
  unfold router_basic, target_count in *. simpl. rewrite length_arr_set.
  split; [done|]. split_and!; try done. by apply arr_set_Forall.
Qed.

Lemma raise_u64 p line p' :
  is_u64 p -> interrupt_controller_raise p line = Some p' -> is_u64 p'.
Proof.
  intros Hp. unfold interrupt_controller_raise. destruct (_ <=? _); [done|].
  intros [= <-]. auto with u64.
Qed.

Lemma clear_u64 p line p' :
  is_u64 p -> interrupt_controller_clear p line = Some p' -> is_u64 p'.
Proof.
  intros Hp. unfold interrupt_controller_clear. destruct (_ <=? _); [done|].
  intros [= <-]. auto with u64.
Qed.

Lemma inv_core r : router_inv r -> programmable r = true -> router_core r.
Proof. intros [Hb Hp] HP. destruct (Hp HP) as (? & ? & _). by split_and!. Qed.

Lemma core_inv r : router_core r -> (forall t, conserved r t) -> router_inv r.
Proof. intros (? & ? & ?) ?. by split. Qed.

(** Dispatching to [t] restores the invariant when only [t] may be starved. *)
Lemma dispatch_restores r t :
  router_core r -> (forall t', t' <> t -> conserved r t') ->
  router_inv (dispatch_target_locked r t).
Proof.
  intros Hc Hcons. apply core_inv; [by apply dispatch_core|].
  intros t'. apply dispatch_conserved; [apply Hc|apply Hcons].
Qed.

Lemma set_route_inv r line t :
  router_inv r -> 0 <= line -> 0 <= t -> router_inv (interrupt_router_set_route r line t).2.
Proof.
  intros Hinv Hl Ht. unfold interrupt_router_set_route.
  destruct (Z.leb_spec INTERRUPT_LINE_COUNT line); [done|].
  destruct (Z.leb_spec (target_count r) t); [done|]. cbn [orb].
  destruct Hinv as [Hb HP].
  assert (router_basic (set_routes (arr_set (routes r) line t) r)) as Hb'.
  { destruct Hb as (? & ? & ? & ?). unfold router_basic, target_count in *. simpl.
    rewrite length_arr_set. split; [done|]. split_and!; try tauto. by apply arr_set_Forall. }
  destruct (programmable r) eqn:Hprog; cbn [andb];
    [|cbn; rewrite Hprog; split; [done|cbn; congruence]].
  destruct (HP eq_refl) as (Hone & Hext & Hcons).
  destruct (Z.leb_spec INTERRUPT_EXTERNAL_LINE_COUNT line); [by split|]. cbn [orb].
  rewrite has_bits_bit64 by line_lia.
  destruct (Z.testbit (active r) line) eqn:Ha; [by split|]. simpl. rewrite Hprog.
  destruct Hb as (_ & Hlen & _).
  assert (forall l, 0 <= l -> arr_get (arr_set (routes r) line t) l =
    if line =? l then t else arr_get (routes r) l) as Hroute.
  { intros l Hl0. destruct (Z.eqb_spec line l) as [->|]; [|by apply arr_get_set_ne].
    apply arr_get_set. line_lia. }
  apply dispatch_restores; [split_and!; [done| |done]|].
  - intros l1 l2 L1 L2 A1 A2. simpl in *. rewrite !Hroute by lia.
    destruct (Z.eqb_spec line l1), (Z.eqb_spec line l2); subst; try congruence.
    by apply Hone.
  - intros t' Hne (l & Hl0 & Hp & He & Hr). simpl in *. rewrite Hroute in Hr by lia.
    revert Hr. destruct (Z.eqb_spec line l) as [->|]; intros Hr; [congruence|].
    destruct (Hcons t') as (l' & ? & ? & ?); [by exists l|].
    exists l'. simpl. rewrite Hroute by lia.
    destruct (Z.eqb_spec line l') as [->|]; [congruence|done].
Qed.

Lemma raise_inv r line :
  router_inv r -> 0 <= line -> router_inv (interrupt_router_raise r line).2.
Proof.
  intros Hinv Hl. unfold interrupt_router_raise.
  destruct (Z.leb_spec INTERRUPT_LINE_COUNT line); [done|].
  destruct (programmable r) eqn:Hprog; cbn [negb].
  - destruct (Z.leb_spec INTERRUPT_EXTERNAL_LINE_COUNT line); [done|]. cbn [snd].
    pose proof (inv_core r Hinv Hprog) as (Hb & Hone & Hext).
    destruct Hinv as [_ (_ & _ & Hcons)]; [done|].
    rewrite has_bits_bit64 by line_lia. simpl.
    set (r' := set_pending _ r).
    assert (router_core r') as Hcore.
    { split_and!; [|done|].
      - destruct Hb as (? & ? & ? & ? & ? & ? & ?). unfold router_basic. simpl.
        split; [done|]. split_and!; auto with u64.
      - intros i Hi. destruct (Hext i Hi) as (E & ? & ?). simpl.
        rewrite testbit_set_bit, E, (proj2 (Z.eqb_neq _ _)) by line_lia. done. }
    assert (forall t, t <> arr_get (routes r) line -> conserved r' t) as Hother.
    { intros t Hne (l & Hl0 & Hp & He & Hr). simpl in *.
      rewrite testbit_set_bit in Hp by line_lia. revert Hp.
      destruct (Z.eqb_spec line l); [congruence|]. rewrite orb_false_r. intros Hp. destruct (Hcons t) as (l' & ?); [by exists l|]. by exists l'. }
    destruct (Z.testbit (active r) line) eqn:Ha; simpl; [|by apply dispatch_restores].
    apply core_inv; [done|]. intros t.
    destruct (decide (t = arr_get (routes r) line)) as [->|]; [|auto].
    intros _. exists line. split_and!; [lia..|done|done].
  - pose proof (target_u64 r (arr_get (routes r) line) (proj1 Hinv)) as Ht.
    destruct (_ <? _); [|done].
    destruct (interrupt_controller_raise _ line) as [p|] eqn:E; [|done].
    apply set_targets_inv; [done|]. by eapply raise_u64.
Qed.

(** Ending the service of [line] can starve only its target. *)
Lemma end_service r line :
  router_core r -> (forall t, conserved r t) -> 0 <= line < INTERRUPT_EXTERNAL_LINE_COUNT ->
  let r' := set_active (Z.land (active r) (not64 (bit64 line))) r in
  router_core r' /\ forall t, t <> arr_get (routes r) line -> conserved r' t.
Proof.
  intros (Hb & Hone & Hext) Hcons Hl r'.
  assert (forall i, 0 <= i -> Z.testbit (active r') i = Z.testbit (active r) i && negb (line =? i))
    as Hbit.
  { intros i Hi. destruct Hb as (_ & _ & _ & _ & _ & ? & _). apply testbit_clear_bit; line_lia || done. }
  split; [split_and!|].
  - destruct Hb as (? & ? & ? & ? & ? & ? & ?). unfold router_basic, r'. simpl.
    split; [done|]. split_and!; auto with u64.
  - intros l1 l2 H1 H2. rewrite !Hbit, !andb_true_iff by lia. intros [? _] [? _]. by apply Hone.
  - intros i Hi. rewrite Hbit by line_lia. destruct (Hext i Hi) as (? & -> & ?). done.
  - intros t Hne (l & Hd). destruct (Hcons t) as (l' & Hl' & Ha & Hr); [by exists l|].
    exists l'. rewrite Hbit, Ha by lia. split_and!; [lia..| |done].
    destruct (Z.eqb_spec line l'); [by subst|done].
Qed.

Lemma set_targets_core r t p :
  router_core r -> is_u64 p -> router_core (set_targets (arr_set (targets r) t p) r).
Proof.
  intros ((H1 & H2 & H3 & H4 & H5 & H6 & H7) & Ho & He) Hu. split_and!; [|done..].
  unfold router_basic, target_count in *. simpl. rewrite length_arr_set.
  split; [done|]. split_and!; try done. by apply arr_set_Forall.
Qed.

Lemma clear_pending_core r line :
  router_core r -> (forall t, conserved r t) -> 0 <= line < INTERRUPT_EXTERNAL_LINE_COUNT ->
  let r' := set_pending (Z.land (pending r) (not64 (bit64 line))) r in
  router_core r' /\ forall t, conserved r' t.
Proof.
  intros (Hb & Hone & Hext) Hcons Hl r'.
  assert (forall i, 0 <= i -> Z.testbit (pending r') i = Z.testbit (pending r) i && negb (line =? i))
    as Hbit.
  { intros i Hi. destruct Hb as (_ & _ & _ & _ & ? & _). apply testbit_clear_bit; line_lia || done. }
  split; [split_and!; [|done|]|].
  - destruct Hb as (? & ? & ? & ? & ? & ? & ?). unfold router_basic, r'. simpl.
    split; [done|]. split_and!; auto with u64.
  - intros i Hi. rewrite Hbit by line_lia. destruct (Hext i Hi) as (-> & ? & ?). done.
  - intros t (l & Hl0 & Hp & He & Hr). rewrite Hbit in Hp by lia.
    apply andb_true_iff in Hp as [Hp _]. destruct (Hcons t) as (l' & ?); [by exists l|]. by exists l'.
Qed.

Lemma clear_inv r line :
  router_inv r -> 0 <= line -> router_inv (interrupt_router_clear r line).2.
Proof.
  intros Hinv Hl. unfold interrupt_router_clear.
  destruct (Z.leb_spec INTERRUPT_LINE_COUNT line); [done|].
  pose proof (target_u64 r (arr_get (routes r) line) (proj1 Hinv)) as Ht.
  destruct (programmable r) eqn:Hprog.
  - destruct (Z.leb_spec INTERRUPT_EXTERNAL_LINE_COUNT line); [done|].
    pose proof (inv_core r Hinv Hprog) as Hcore. destruct Hinv as [_ (_ & _ & Hcons)]; [done|].
    destruct (clear_pending_core r line Hcore Hcons) as [Hc1 Hcons1]; [line_lia|].
    set (r1 := set_pending _ r) in *. destruct (has_bits (active r1) (bit64 line)).
    + destruct (end_service r1 line Hc1 Hcons1) as [Hc2 Hcons2]; [line_lia|].
      set (r2 := set_active _ r1) in *.
      rewrite (proj2 (Z.ltb_lt _ _)) by apply (route_in_range r line (proj1 Hcore)).
      destruct (interrupt_controller_clear _ line) as [p|] eqn:E; cbn [snd].
      * apply dispatch_restores; [|exact Hcons2]. apply set_targets_core; [done|].
        exact (clear_u64 _ _ _ Ht E).
      * by apply dispatch_restores.
    + by apply core_inv.
  - destruct (_ <? _); [|done].
    destruct (interrupt_controller_clear _ line) as [p|] eqn:E; [|done].
    apply set_targets_inv; [done|]. exact (clear_u64 _ _ _ Ht E).
Qed.

Lemma eoi_inv r line :
  router_inv r -> 0 <= line -> router_inv (interrupt_router_eoi r line).2.
Proof.
  intros Hinv Hl. unfold interrupt_router_eoi.
  destruct (Z.leb_spec INTERRUPT_EXTERNAL_LINE_COUNT line); [done|].
  destruct (programmable r) eqn:Hprog; [|done]. cbn [negb orb].
  destruct (has_bits _ _); [|done]. cbn [negb snd].
  pose proof (inv_core r Hinv Hprog) as Hcore. destruct Hinv as [_ (_ & _ & Hcons)]; [done|].
  destruct (end_service r line Hcore Hcons) as [? ?]; [line_lia|]. by apply dispatch_restores.
Qed.

Lemma set_enabled_core r mask :
  router_core r -> is_u64 mask ->
  (forall i, INTERRUPT_EXTERNAL_LINE_COUNT <= i -> Z.testbit mask i = false) ->
  router_core (set_enabled mask r).
Proof.
  intros ((? & ? & ? & ? & ? & ? & ?) & Hone & Hext) Hm Hbits. split_and!; [by split; [|split_and!]|done|].
  intros i Hi. destruct (Hext i Hi) as (? & ? & _). auto.
Qed.

(** The three writes of the enable mask share one shape. *)
Lemma enable_change_inv r mask' :
  router_inv r -> programmable r = true -> is_u64 mask' ->
  (forall i, INTERRUPT_EXTERNAL_LINE_COUNT <= i -> Z.testbit mask' i = false) ->
  router_inv (dispatch_all_locked (set_enabled mask' r)).
Proof.
  intros Hinv Hprog Hm Hbits.
  destruct (dispatch_all_inv (set_enabled mask' r)) as (? & ? & _); [|by apply core_inv].
  apply set_enabled_core; auto using inv_core.
Qed.

Lemma set_enabled_inv r mask :
  router_inv r -> is_u64 mask -> router_inv (interrupt_router_set_enabled r mask).2.
Proof.
  intros Hinv Hm. unfold interrupt_router_set_enabled.
  destruct (mask_external mask) eqn:E; [|done]. destruct (programmable r) eqn:P; [|done].
  apply enable_change_inv; [done..|]. intros i Hi. by apply mask_external_bits.
Qed.

Lemma enable_lines_inv r mask :
  router_inv r -> is_u64 mask -> router_inv (interrupt_router_enable_lines r mask).2.
Proof.
  intros Hinv Hm. unfold interrupt_router_enable_lines.
  destruct (mask_external mask) eqn:E; [|done]. destruct (programmable r) eqn:P; [|done].
  destruct (inv_core r Hinv P) as ((_ & _ & _ & ? & _) & _ & Hext).
  apply enable_change_inv; [done..|auto with u64|]. intros i Hi.
  rewrite Z.lor_spec, (mask_external_bits mask i) by done.
  destruct (Hext i Hi) as (_ & _ & ->). done.
Qed.

Lemma disable_lines_inv r mask :
  router_inv r -> is_u64 mask -> router_inv (interrupt_router_disable_lines r mask).2.
Proof.
  intros Hinv Hm. unfold interrupt_router_disable_lines.
  destruct (mask_external mask) eqn:E; [|done]. destruct (programmable r) eqn:P; [|done].
  pose proof (inv_core r Hinv P) as Hcore. destruct Hinv as [_ (_ & _ & Hcons)]; [done|].
  destruct Hcore as (Hb & Hone & Hext). cbn [negb orb snd].
  assert (forall i, 0 <= i -> Z.testbit (Z.land (enabled r) (not64 mask)) i = true ->
    Z.testbit (enabled r) i = true) as Hsub.
  { intros i Hi. rewrite Z.land_spec, andb_true_iff. tauto. }
  apply core_inv; [apply set_enabled_core; [by split_and!|destruct Hb as (_&_&_&?&_); auto with u64|]|].
  - intros i Hi. rewrite Z.land_spec. destruct (Hext i Hi) as (_ & _ & ->). done.
  - intros t (l & Hl & Hp & He & Hr). destruct (Hcons t) as (l' & ?); [|by exists l'].
    exists l. split_and!; [lia..|done| |done]. apply Hsub; [lia|done].
Qed.

(** ** The router as a state machine *)

(** One operation of the router, by any thread or device. *)
Inductive RouterOp :=
  | OpSetRoute (line target : Z)
  | OpRaise (line : Z)
  | OpClear (line : Z)
  | OpReset
  | OpSetEnabled (mask0 : Z)
  | OpEnableLines (mask0 : Z)
  | OpDisableLines (mask0 : Z)
  | OpEoi (line : Z)
  | OpTakeNext (target : Z).

(** Arguments are the unsigned C values the operations receive. *)
Definition op_args_ok (op : RouterOp) : Prop :=
  match op with
  | OpSetRoute line target => 0 <= line /\ 0 <= target
  | OpRaise line | OpClear line | OpEoi line => 0 <= line
  | OpSetEnabled m | OpEnableLines m | OpDisableLines m => is_u64 m
  | OpTakeNext t => 0 <= t
  | OpReset => True
  end.

Definition router_apply (r : InterruptRouter) (op : RouterOp) : InterruptRouter :=
  match op with
  | OpSetRoute line target => (interrupt_router_set_route r line target).2
  | OpRaise line => (interrupt_router_raise r line).2
  | OpClear line => (interrupt_router_clear r line).2
  | OpReset => interrupt_router_programmable_reset r
  | OpSetEnabled m => (interrupt_router_set_enabled r m).2
  | OpEnableLines m => (interrupt_router_enable_lines r m).2
  | OpDisableLines m => (interrupt_router_disable_lines r m).2
  | OpEoi line => (interrupt_router_eoi r line).2
  | OpTakeNext t =>
      match interrupt_controller_take_next (arr_get (targets r) t) with
      | Some (_, p) => set_targets (arr_set (targets r) t p) r
      | None => r
      end
  end.

Inductive router_reachable : InterruptRouter -> Prop :=
  | reach_init controllers r :
      Forall is_u64 controllers -> Z.of_nat (length controllers) <= SIZE_MAX ->
      interrupt_router_init controllers = Some r -> router_reachable r
  | reach_op r op : router_reachable r -> op_args_ok op -> router_reachable (router_apply r op).

Lemma take_attempt_u64 p l d : is_u64 p -> take_attempt p = Some (l, d) -> is_u64 d.
Proof.
  intros Hp. unfold take_attempt. destruct (p =? 0); [done|]. intros [= <- <-]. auto with u64.
Qed.

Lemma take_attempt_None p : take_attempt p = None -> p = 0.
Proof. unfold take_attempt. destruct (Z.eqb_spec p 0); done. Qed.

Lemma router_apply_inv r op : router_inv r -> op_args_ok op -> router_inv (router_apply r op).
Proof.
  intros Hr Ha. destruct op; simpl in *;
    try match goal with H : _ /\ _ |- _ => destruct H end;
    auto using set_route_inv, raise_inv, clear_inv, router_reset_inv, set_enabled_inv,
      enable_lines_inv, disable_lines_inv, eoi_inv.
  unfold interrupt_controller_take_next. destruct (take_attempt _) as [[l p]|] eqn:E; [|done].
  apply set_targets_inv; [done|]. eapply take_attempt_u64; [|exact E].
  apply target_u64, Hr.
Qed.

(** * Properties *)

(** A two-target programmable router with lines 3 and 5 enabled, line 3 in
    service at target 0 and line 5 waiting for it. *)
Definition demo_router : InterruptRouter :=
  mkRouter [bit64 3; 0] (replicate 64 0) (Z.lor (bit64 3) (bit64 5)) (bit64 5) (bit64 3) true.

Lemma demo_router_reachable : router_reachable demo_router.
Proof.
  assert (router_reachable (mkRouter [0; 0] (replicate 64 0) UINT64_MAX 0 0 false)) as H0.
  { apply (reach_init [0; 0]); [|by vm_compute|done]. repeat constructor; by vm_compute. }
  pose proof (reach_op _ OpReset H0 I) as H1.
  pose proof (reach_op _ (OpSetEnabled (Z.lor (bit64 3) (bit64 5))) H1
                ltac:(by vm_compute)) as H2.
  pose proof (reach_op _ (OpRaise 3) H2 ltac:(by vm_compute)) as H3.
  pose proof (reach_op _ (OpRaise 5) H3 ltac:(by vm_compute)) as H4.
  by vm_compute in H4.
Qed.

(** C27: in every state of the programmable router that any sequence of its
    operations can reach, each target has at most one line in service, no
    target is idle while an enabled line routed to it is pending, only external
    lines are enabled, pending or in service, and every route names an existing
    target. *)
Theorem router_reachable_safe r :
  router_reachable r -> programmable r = true ->
  one_active r /\ (forall t, conserved r t) /\ external_only r /\
  (forall l, 0 <= arr_get (routes r) l < target_count r).
Proof.
  intros Hreach Hprog. assert (router_inv r) as Hinv.
  { clear Hprog. induction Hreach; [by eapply router_init_inv|by apply router_apply_inv]. }
  destruct Hinv as [Hb HP]. destruct (HP Hprog) as (? & ? & ?).
  split_and!; [done..|]. intros l. by apply route_in_range.
Qed.

Lemma router_reachable_safe_witness : conserved demo_router 0 /\ deliverable demo_router 0 5.
Proof.
  destruct (router_reachable_safe demo_router demo_router_reachable eq_refl) as (_ & Hc & _).
  split; [exact (Hc 0)|]. split_and!; by vm_compute.
Defined.

(** Dispatch is by fixed priority: when the target exists and is idle, the
    lowest-numbered line that is pending, enabled and routed to it moves from
    pending to in-service and its bit is set in that target's controller, with
    everything else unchanged; otherwise the router does not change. *)
Theorem dispatch_fixed_priority r t :
  (dispatch_target_locked r t = r /\
     (target_count r <= t \/ busy r t \/ forall l, ~ deliverable r t l)) \/
  (exists l, t < target_count r /\ ~ busy r t /\ deliverable r t l /\
     (forall l', l' < l -> ~ deliverable r t l') /\
     dispatch_target_locked r t =
       mkRouter (arr_set (targets r) t (Z.lor (arr_get (targets r) t) (bit64 l))) (routes r)
         (enabled r) (Z.land (pending r) (not64 (bit64 l))) (Z.lor (active r) (bit64 l))
         (programmable r)).
Proof. apply dispatch_spec. Qed.

(** [interrupt_controller_take_next] returns 0 exactly when nothing is
    pending; otherwise it takes an inter-processor line if one is pending and
    an external line if not, the lowest-numbered of its class, and clears
    exactly that line. *)
Theorem take_next_priority p :
  is_u64 p ->
  match interrupt_controller_take_next p with
  | None => p = 0
  | Some (l, p') =>
      0 <= l < INTERRUPT_LINE_COUNT /\ Z.testbit p l = true /\
      (forall i, 0 <= i < INTERRUPT_LINE_COUNT -> Z.testbit p i = true ->
         (INTERRUPT_IPI_LINE_BASE <= i -> INTERRUPT_IPI_LINE_BASE <= l <= i) /\
         (l < INTERRUPT_IPI_LINE_BASE -> l <= i)) /\
      (forall i, 0 <= i -> Z.testbit p' i = Z.testbit p i && negb (l =? i))
  end.
Proof.
  intros Hp. unfold interrupt_controller_take_next, take_attempt.
  destruct (Z.eqb_spec p 0) as [->|Hne]; [done|].
  set (ipi := Z.land p (not64 INTERRUPT_EXTERNAL_LINE_MASK)).
  assert (is_u64 ipi) as Hu by (unfold ipi; auto with u64).
  assert (forall i, 0 <= i < 64 -> Z.testbit ipi i =
    Z.testbit p i && negb (i <? INTERRUPT_EXTERNAL_LINE_COUNT)) as Hbit.
  { intros i Hi. unfold ipi. rewrite Z.land_spec, testbit_not64, external_mask_bits by lia. done. }
  unfold INTERRUPT_IPI_LINE_BASE. destruct (Z.eqb_spec ipi 0) as [H0|H0]; cbn [negb].
  - destruct (lowest_set_bit_correct p Hp Hne) as (Hl & Hset & Hlow).
    assert (forall i, 0 <= i < 64 -> Z.testbit p i = true -> i < INTERRUPT_EXTERNAL_LINE_COUNT)
      as Hext.
    { intros i Hi Hpi. pose proof (Hbit i Hi) as Hb. rewrite H0, Z.bits_0, Hpi in Hb.
      destruct (Z.ltb_spec i INTERRUPT_EXTERNAL_LINE_COUNT); done. }
    split_and!; [line_lia..|done| |intros i Hi; apply testbit_clear_bit; done || lia].
    intros i Hi Hpi. pose proof (Hext i Hi Hpi). split; [lia|]. intros _.
    destruct (Z.lt_ge_cases i (lowest_set_bit p)); [|done]. rewrite Hlow in Hpi by lia. done.
  - destruct (lowest_set_bit_correct ipi Hu H0) as (Hl & Hset & Hlow).
    rewrite Hbit, andb_true_iff, negb_true_iff, Z.ltb_ge in Hset by lia.
    destruct Hset as [Hset Hge].
    split_and!; [line_lia..|done| |intros i Hi; apply testbit_clear_bit; done || lia].
    intros i Hi Hpi. split; [intros Hipi; split; [done|]|lia].
    destruct (Z.lt_ge_cases i (lowest_set_bit ipi)) as [Hlt|]; [|done].
    specialize (Hlow i ltac:(lia)). rewrite Hbit, Hpi in Hlow by line_lia.
    apply negb_false_iff, Z.ltb_lt in Hlow. lia.
Qed.

Lemma take_next_priority_witness :
  interrupt_controller_take_next (Z.lor (bit64 2) (bit64 50)) = Some (50, bit64 2) /\
  (forall i, 0 <= i -> Z.testbit (bit64 2) i = Z.testbit (Z.lor (bit64 2) (bit64 50)) i && negb (50 =? i)).
Proof.
  split; [by vm_compute|].
  exact (proj2 (proj2 (proj2 (take_next_priority (Z.lor (bit64 2) (bit64 50)) ltac:(by vm_compute))))).
Defined.

(** Under any interference the compare-and-swap loop of
    [interrupt_controller_take_next] is atomic: if it returns a line, the word
    it replaced at that instant was the memory's and the exchange is the
    sequential operation on it; it returns 0 only after reading 0; and the first
    exchange that finds the word unchanged ends the loop. *)
Theorem take_next_linearizable observed current :
  match take_next_loop observed current with
  | None => True
  | Some None => 0 ∈ current :: (fst <$> observed)
  | Some (Some (l, m, d)) =>
      interrupt_controller_take_next m = Some (l, d) /\ (m, false) ∈ observed
  end /\
  (forall l d rest, interrupt_controller_take_next current = Some (l, d) ->
     take_next_loop ((current, false) :: rest) current = Some (Some (l, current, d))).
Proof.
  split.
  - revert current. induction observed as [|[m spurious] rest IH]; intros current; simpl;
      destruct (take_attempt current) as [[l d]|] eqn:E; try done;
      try (apply take_attempt_None in E as ->; left).
    destruct ((m =? current) && negb spurious) eqn:C.
    + apply andb_true_iff in C as [->%Z.eqb_eq Hs]. apply negb_true_iff in Hs as ->.
      split; [done|left].
    + specialize (IH m). destruct (take_next_loop rest m) as [[[[l' m'] d']|]|]; [|by right|done].
      destruct IH. split; [done|by right].
  - intros l d rest H. simpl. unfold interrupt_controller_take_next in H.
    by rewrite H, Z.eqb_refl.
Qed.

(** ** Latched lines *)

(** The line is waiting at the router or in service. *)
Definition latched (r : InterruptRouter) (l : Z) : bool :=
  Z.testbit (pending r) l || Z.testbit (active r) l.

Lemma dispatch_latched r t l :
  router_basic r -> 0 <= l -> latched r l = true -> latched (dispatch_target_locked r t) l = true.
Proof.
  intros Hb Hl Hlat. destruct (dispatch_spec r t) as [[-> _]|(k & _ & _ & [Hk _] & _ & ->)]; [done|].
  unfold latched in *. destruct (deliver_bits r t k l Hb Hk Hl) as [-> ->].
  destruct (k =? l), (Z.testbit (pending r) l), (Z.testbit (active r) l); done.
Qed.

Lemma dispatch_all_latched r l :
  router_core r -> 0 <= l -> latched r l = true -> latched (dispatch_all_locked r) l = true.
Proof.
  intros Hc Hl. unfold dispatch_all_locked. generalize (seqZ 0 (target_count r)) as ts.
  intros ts. revert r Hc. induction ts as [|t ts IH]; intros r Hc Hlat; simpl; [done|].
  apply IH; [by apply dispatch_core|]. apply dispatch_latched; [apply Hc|done..].
Qed.

Lemma clear_bit_latched x line l b :
  is_u64 x -> 0 <= line < 64 -> 0 <= l -> line <> l ->
  Z.testbit (Z.land x (not64 (bit64 line))) l || b = Z.testbit x l || b.
Proof.
  intros Hx Hline Hl Hne. rewrite testbit_clear_bit, (proj2 (Z.eqb_neq _ _)) by done.
  by rewrite andb_true_r.
Qed.

(** Ending the service of another line, and dispatching, keeps a line latched. *)
Lemma end_service_latched r line t l :
  router_core r -> 0 <= line < INTERRUPT_EXTERNAL_LINE_COUNT -> 0 <= l -> line <> l ->
  latched r l = true ->
  latched (dispatch_target_locked (set_active (Z.land (active r) (not64 (bit64 line))) r) t) l = true.
Proof.
  intros (Hb & _) Hline Hl Hne Hlat. destruct Hb as (? & ? & ? & ? & ? & ? & ?).
  apply dispatch_latched; [unfold router_basic; simpl; split; [done|]; split_and!; auto with u64|done|].
  unfold latched in *. simpl. rewrite orb_comm, clear_bit_latched, orb_comm by (done || line_lia).
  done.
Qed.

Definition releases (op : RouterOp) (l : Z) : bool :=
  match op with
  | OpClear line | OpEoi line => line =? l
  | OpReset => true
  | _ => false
  end.

Lemma clear_latched r line l :
  router_inv r -> programmable r = true -> 0 <= line -> 0 <= l -> line <> l ->
  latched r l = true -> latched (interrupt_router_clear r line).2 l = true.
Proof.
  intros Hinv Hprog Hline Hl Hne Hlat. unfold interrupt_router_clear. rewrite Hprog.
  destruct (Z.leb_spec INTERRUPT_LINE_COUNT line); [done|].
  destruct (Z.leb_spec INTERRUPT_EXTERNAL_LINE_COUNT line); [done|].
  pose proof (inv_core r Hinv Hprog) as Hcore. destruct Hinv as [Hb (_ & _ & Hcons)]; [done|].
  pose proof (target_u64 r (arr_get (routes r) line) Hb) as Ht.
  destruct (clear_pending_core r line Hcore Hcons) as [Hc1 Hcons1]; [line_lia|].
  set (r1 := set_pending _ r) in *.
  assert (latched r1 l = true) as Hl1.
  { unfold latched in *. simpl. destruct Hb as (_ & _ & _ & _ & ? & _).
    by rewrite clear_bit_latched by (done || line_lia). }
  destruct (has_bits _ _); [|done].
  rewrite (proj2 (Z.ltb_lt _ _)) by apply (route_in_range r line Hb).
  destruct (interrupt_controller_clear _ line) as [p|] eqn:E; cbn [snd].
  - apply (end_service_latched (set_targets (arr_set (targets r1) (arr_get (routes r) line) p) r1));
      [|line_lia|done..]. apply set_targets_core; [done|]. exact (clear_u64 _ _ _ Ht E).
  - apply end_service_latched; [done|line_lia|done..].
Qed.

Lemma raise_latched r line l :
  router_inv r -> programmable r = true -> 0 <= line < INTERRUPT_EXTERNAL_LINE_COUNT -> 0 <= l ->
  latched r l = true \/ l = line -> latched (interrupt_router_raise r line).2 l = true.
Proof.
  intros [Hb _] Hprog Hline Hl Hor. unfold interrupt_router_raise.
  rewrite (proj2 (Z.leb_gt _ _)), Hprog by line_lia. cbn [negb].
  rewrite (proj2 (Z.leb_gt _ line)) by lia. cbn [snd]. set (r' := set_pending _ r).
  assert (router_basic r') as Hb'.
  { destruct Hb as (? & ? & ? & ? & ? & ? & ?). unfold router_basic, r'. simpl.
    split; [done|]. split_and!; auto with u64. }
  assert (latched r' l = true) as Hl'.
  { unfold latched in *. simpl. rewrite testbit_set_bit by line_lia.
    destruct Hor as [Hor| ->]; [|by rewrite Z.eqb_refl, orb_true_r].
    destruct (Z.testbit (pending r) l); [done|]. simpl in Hor. rewrite Hor. apply orb_true_r. }
  destruct (negb _); [by apply dispatch_latched|done].
Qed.

Lemma router_apply_latched r op l :
  router_inv r -> programmable r = true -> op_args_ok op -> 0 <= l -> releases op l = false ->
  latched r l = true -> latched (router_apply r op) l = true.
Proof.
  intros Hinv Hprog Ha Hl Hrel Hlat. pose proof (inv_core r Hinv Hprog) as Hcore.
  destruct op; simpl in *; try done.
  - pose proof (set_route_inv r line target Hinv (proj1 Ha) (proj2 Ha)) as Hb.
    unfold interrupt_router_set_route in *. destruct (_ || _); [done|].
    destruct (programmable r && _); [done|]. simpl in *. rewrite Hprog in *.
    destruct (dispatch_spec (set_routes (arr_set (routes r) line target) r) target)
      as [[-> _]|(k & _ & _ & [Hk _] & _ & ->)]; [done|].
    unfold latched in *. simpl. destruct Hcore as ((_ & _ & _ & _ & ? & _) & _).
    rewrite testbit_clear_bit, testbit_set_bit by (done || line_lia).
    destruct (k =? l), (Z.testbit (pending r) l), (Z.testbit (active r) l); done.
  - destruct (Z.lt_ge_cases line INTERRUPT_EXTERNAL_LINE_COUNT).
    + apply raise_latched; auto with lia.
    + unfold interrupt_router_raise. rewrite Hprog, (proj2 (Z.leb_le INTERRUPT_EXTERNAL_LINE_COUNT line)) by lia.
      by destruct (_ <=? line).
  - apply clear_latched; auto. by apply Z.eqb_neq.
  - unfold interrupt_router_set_enabled. destruct (mask_external mask0) eqn:E; [|done].
    rewrite Hprog. apply dispatch_all_latched; [|done..].
    apply set_enabled_core; [done..|]. intros i Hi. by apply mask_external_bits.
  - unfold interrupt_router_enable_lines. destruct (mask_external mask0) eqn:E; [|done].
    rewrite Hprog. apply dispatch_all_latched; [|done..].
    destruct Hcore as ((? & ? & ? & ? & ?) & ? & Hext).
    apply set_enabled_core; [by split_and!|auto with u64|]. intros i Hi.
    rewrite Z.lor_spec, (mask_external_bits mask0 i) by done.
    destruct (Hext i Hi) as (_ & _ & ->). done.
  - unfold interrupt_router_disable_lines. by destruct (_ || _).
  - unfold interrupt_router_eoi. destruct (Z.leb_spec INTERRUPT_EXTERNAL_LINE_COUNT line); [done|].
    destruct (_ || _); [done|]. apply end_service_latched; [done|line_lia|done| |done].
    by apply Z.eqb_neq.
  - by destruct (interrupt_controller_take_next _) as [[? ?]|].
Qed.

(** C28: interrupts are not lost: a raise of an external line at a programmable
    router succeeds and leaves the line pending or in service, and from then on
    every router operation keeps it so, except clearing that line, ending its
    service, or resetting the router. *)
Theorem raise_not_lost r line op l :
  router_inv r -> programmable r = true ->
  0 <= line < INTERRUPT_EXTERNAL_LINE_COUNT -> op_args_ok op -> 0 <= l ->
  (interrupt_router_raise r line).1 = true /\
  latched (interrupt_router_raise r line).2 line = true /\
  (releases op l = false -> latched r l = true -> latched (router_apply r op) l = true).
Proof.
  intros Hinv Hprog Hline Hop Hl. split_and!.
  - unfold interrupt_router_raise. rewrite (proj2 (Z.leb_gt _ _)), Hprog by line_lia. cbn [negb].
    by rewrite (proj2 (Z.leb_gt _ line)) by lia.
  - apply raise_latched; auto with lia.
  - by apply router_apply_latched.
Qed.

Lemma raise_not_lost_witness :
  latched (interrupt_router_raise demo_router 7).2 7 = true /\
  latched (router_apply demo_router (OpEoi 3)) 5 = true.
Proof.
  assert (router_inv demo_router) as Hinv.
  { assert (forall q, router_reachable q -> router_inv q) as H.
    { induction 1; [by eapply router_init_inv|by apply router_apply_inv]. }
    apply H, demo_router_reachable. }
  destruct (raise_not_lost demo_router 7 (OpEoi 3) 5 Hinv eq_refl ltac:(by vm_compute)
              ltac:(by vm_compute) ltac:(lia)) as (_ & H1 & H2).
  split; [exact H1|]. apply H2; by vm_compute.
Defined.
