(* ===== verification/Bus.v ===== *)
(** The system bus: src/bus.c, include/bus.h.

    A [World] is the store the callbacks share: guest RAM (devices reach it by
    DMA), the interrupt router handed to [bus_tick], and the contexts of all
    devices, of a type [D] the bus never inspects.  A [BusDevice] is its four
    optional function pointers; [context] is captured by the functions.  The
    mapping locks bracket one call and have no counterpart here. *)

From S2P Require Import Prelude Ram Interrupt.
From stdpp Require Import base list numbers option.
From Stdlib Require Import ZArith Lia Bool.

#[local] Open Scope Z_scope.

Definition BUS_MAX_DEVICES : Z := 64.

Section bus.
Context {D : Type}.

Record World := mkWorld { w_ram : RAM; w_router : option InterruptRouter; w_dev : D }.

Definition set_w_ram (v : RAM) (w : World) : World := mkWorld v (w_router w) (w_dev w).
Definition set_w_router v (w : World) : World := mkWorld (w_ram w) v (w_dev w).
Definition set_w_dev (v : D) (w : World) : World := mkWorld (w_ram w) (w_router w) v.

Record BusDevice := mkBusDevice {
  dev_read : option (World -> Z -> Z -> option Z * World);
  dev_write : option (World -> Z -> Z -> Z -> bool * World);
  dev_tick : option (World -> Z -> World);
  dev_reset : option (World -> World)
}.

Definition no_device : BusDevice := mkBusDevice None None None None.

Record BusMapping := mkMapping {
  map_base : Z;
  map_size : Z;
  map_device : BusDevice;
  map_present : bool
}.

Definition free_mapping : BusMapping := mkMapping 0 0 no_device false.

Record BusRomMapping := mkRom {
  rom_base : Z;
  rom_size : Z;
  rom_data : list Z;
  rom_present : bool
}.

Definition no_rom : BusRomMapping := mkRom 0 0 [] false.

Record Bus := mkBus {
  bus_world : World;
  mappings : list BusMapping;
  bus_rom : BusRomMapping;
  mapping_count : Z
}.

Definition bus_ram (b : Bus) : RAM := w_ram (bus_world b).
Definition set_world (w : World) (b : Bus) : Bus :=
  mkBus w (mappings b) (bus_rom b) (mapping_count b).
Definition set_bus_ram (r : RAM) (b : Bus) : Bus := set_world (set_w_ram r (bus_world b)) b.

Definition range_valid (base size : Z) : bool :=
  negb (size =? 0) && (base <=? UINT64_MAX - (size - 1)).

Definition ranges_overlap (first_base first_size second_base second_size : Z) : bool :=
  let first_end := wrap64 (first_base + first_size - 1) in
  let second_end := wrap64 (second_base + second_size - 1) in
  (first_base <=? second_end) && (second_base <=? first_end).

Definition mapping_contains (m : BusMapping) (address width : Z) : bool :=
  if address <? map_base m then false
  else
    let offset := address - map_base m in
    (offset <? map_size m) && (width <=? map_size m - offset).

Definition rom_contains (rom : BusRomMapping) (address width : Z) : bool :=
  if negb (rom_present rom) || (address <? rom_base rom) then false
  else
    let offset := address - rom_base rom in
    (offset <? rom_size rom) && (width <=? rom_size rom - offset).

Definition rom_read (rom : BusRomMapping) (address width : Z) : option Z :=
  if (width =? 0) || (8 <? width) || negb (rom_contains rom address width) then None
  else
    let offset := address - rom_base rom in
    Some (or_bytes 0 0 (take (Z.to_nat width) (drop (Z.to_nat offset) (rom_data rom)))).

(** The first present mapping that contains the whole access. *)
Fixpoint find_mapping (ms : list BusMapping) (address width : Z) : option BusMapping :=
  match ms with
  | [] => None
  | m :: rest =>
      if map_present m && mapping_contains m address width then Some m
      else find_mapping rest address width
  end.

Definition lock_mapping_for_address (b : Bus) (address width : Z) : option BusMapping :=
  find_mapping (mappings b) address width.

Definition bus_init (w : World) : Bus := mkBus w (replicate 64 free_mapping) no_rom 0.

(** The loop of [bus_map_device]: [None] when a present mapping overlaps,
    otherwise the first free index, or [free_index] when none is found. *)
Fixpoint map_scan (ms : list BusMapping) (base size i free_index : Z) : option Z :=
  match ms with
  | [] => Some free_index
  | m :: rest =>
      if negb (map_present m)
      then map_scan rest base size (i + 1)
             (if free_index =? BUS_MAX_DEVICES then i else free_index)
      else if ranges_overlap base size (map_base m) (map_size m) then None
      else map_scan rest base size (i + 1) free_index
  end.

Definition device_empty (d : BusDevice) : bool :=
  match d with
  | mkBusDevice None None None None => true
  | _ => false
  end.

Definition bus_map_device (b : Bus) (base size : Z) (device : BusDevice) : bool * Bus :=
  if negb (range_valid base size) || device_empty device then (false, b)
  else if negb (ram_size (bus_ram b) =? 0) &&
          ranges_overlap base size 0 (ram_size (bus_ram b)) then (false, b)
  else if BUS_MAX_DEVICES <=? mapping_count b then (false, b)
  else if rom_present (bus_rom b) &&
          ranges_overlap base size (rom_base (bus_rom b)) (rom_size (bus_rom b))
  then (false, b)
  else match map_scan (mappings b) base size 0 BUS_MAX_DEVICES with
  | None => (false, b)
  | Some free_index =>
      if free_index =? BUS_MAX_DEVICES then (false, b)
      else (true, mkBus (bus_world b)
                    (<[Z.to_nat free_index := mkMapping base size device true]> (mappings b))
                    (bus_rom b) (mapping_count b + 1))
  end.

Definition bus_map_rom (b : Bus) (base : Z) (data : list Z) : bool * Bus :=
  let size := Z.of_nat (length data) in
  if (size =? 0) || negb (range_valid base size) ||
     (negb (ram_size (bus_ram b) =? 0) && ranges_overlap base size 0 (ram_size (bus_ram b)))
  then (false, b)
  else if rom_present (bus_rom b) then (false, b)
  else if existsb (fun m => map_present m && ranges_overlap base size (map_base m) (map_size m))
            (mappings b) then (false, b)
  else (true, mkBus (bus_world b) (mappings b) (mkRom base size data true) (mapping_count b)).

(** The index of the mapping [bus_unmap_device] removes. *)
Fixpoint unmap_scan (ms : list BusMapping) (base size : Z) (i : nat) : option nat :=
  match ms with
  | [] => None
  | m :: rest =>
      if negb (map_present m) || negb (map_base m =? base) || negb (map_size m =? size)
      then unmap_scan rest base size (S i)
      else Some i
  end.

Definition bus_unmap_device (b : Bus) (base size : Z) : bool * Bus :=
  if negb (range_valid base size) then (false, b)
  else match unmap_scan (mappings b) base size 0 with
  | Some i => (true, mkBus (bus_world b) (<[i := free_mapping]> (mappings b)) (bus_rom b)
                       (mapping_count b - 1))
  | None => (false, b)
  end.

Definition bus_fetch (b : Bus) (address width : Z) : option Z :=
  if (width =? 0) || (8 <? width) then None
  else if ram_contains (bus_ram b) address width then ram_read (bus_ram b) address width
  else rom_read (bus_rom b) address width.

Definition bus_read (address width : Z) : Exec Bus Z := fun b =>
  if (width =? 0) || (8 <? width) then (None, b)
  else match lock_mapping_for_address b address width with
  | Some m =>
      match dev_read (map_device m) with
      | None => (None, b)
      | Some read =>
          let '(v, w) := read (bus_world b) (address - map_base m) width in
          (v, set_world w b)
      end
  | None =>
      match rom_read (bus_rom b) address width with
      | Some v => (Some v, b)
      | None =>
          if negb (ram_contains (bus_ram b) address width) then (None, b)
          else (ram_read (bus_ram b) address width, b)
      end
  end.

Definition bus_write (address width value : Z) : Exec Bus unit := fun b =>
  if (width =? 0) || (8 <? width) then (None, b)
  else match lock_mapping_for_address b address width with
  | Some m =>
      match dev_write (map_device m) with
      | None => (None, b)
      | Some write =>
          let '(ok, w) := write (bus_world b) (address - map_base m) width value in
          (if ok then Some tt else None, set_world w b)
      end
  | None =>
      if rom_contains (bus_rom b) address width then (None, b)
      else if negb (ram_contains (bus_ram b) address width) then (None, b)
      else match ram_write (bus_ram b) address width value with
      | Some r => (Some tt, set_bus_ram r b)
      | None => (None, b)
      end
  end.

(** The three atomics reach RAM only; the result is the old word. *)
Definition bus_atomic (address : Z) (op : RAM -> option (Z * RAM)) : Exec Bus Z := fun b =>
  if negb (ram_contains (bus_ram b) address 8) then (None, b)
  else match op (bus_ram b) with
  | Some (v, r) => (Some v, set_bus_ram r b)
  | None => (None, b)
  end.

Definition bus_compare_exchange64 (address expected desired : Z) : Exec Bus Z :=
  bus_atomic address (fun r => ram_compare_exchange64 r address expected desired).
Definition bus_exchange64 (address value : Z) : Exec Bus Z :=
  bus_atomic address (fun r => ram_exchange64 r address value).
Definition bus_fetch_add64 (address value : Z) : Exec Bus Z :=
  bus_atomic address (fun r => ram_fetch_add64 r address value).

Definition tick_mapping (ticks : Z) (w : World) (m : BusMapping) : World :=
  if map_present m then
    match dev_tick (map_device m) with Some tick => tick w ticks | None => w end
  else w.

Definition bus_tick (b : Bus) (ticks : Z) : Bus :=
  if ticks =? 0 then b
  else set_world (fold_left (tick_mapping ticks) (mappings b) (bus_world b)) b.

Definition reset_mapping (w : World) (m : BusMapping) : World :=
  if map_present m then
    match dev_reset (map_device m) with Some reset => reset w | None => w end
  else w.

Definition bus_reset (b : Bus) : Bus :=
  set_world (fold_left reset_mapping (mappings b) (bus_world b)) b.

End bus.

Arguments World : clear implicits.
Arguments BusDevice : clear implicits.
Arguments BusMapping : clear implicits.
Arguments Bus : clear implicits.
Arguments mkWorld {D} _ _ _.

Arguments bus_ram {D} _ : simpl never.
Arguments lock_mapping_for_address {D} _ _ _ : simpl never.

(** ** What a device promises the bus

    The callbacks keep RAM well-formed and of the same size, keep the router's
    invariant and the invariant of the contexts, and a read returns a 64-bit
    value. *)

(** The invariant of the device contexts, chosen with [D]. *)
Class DevInv (D : Type) := dev_inv : D -> Prop.

Definition world_wf `{DI : DevInv D} (w : World D) : Prop :=
  ram_wf (w_ram w) /\ (forall r, w_router w = Some r -> router_inv r) /\ dev_inv (w_dev w).

Definition world_step `{DI : DevInv D} (w w' : World D) : Prop :=
  world_wf w -> world_wf w' /\ ram_size (w_ram w') = ram_size (w_ram w).

Class DeviceLaws `{DI : DevInv D} (d : BusDevice D) : Prop := {
  dl_read f w off width : dev_read d = Some f -> world_wf w -> 0 <= off ->
    world_step w (f w off width).2 /\ (forall v, (f w off width).1 = Some v -> is_u64 v);
  dl_write f w off width v : dev_write d = Some f -> world_wf w -> 0 <= off -> is_u64 v ->
    world_step w (f w off width v).2;
  dl_tick f w ticks : dev_tick d = Some f -> is_u64 ticks -> world_step w (f w ticks);
  dl_reset f w : dev_reset d = Some f -> world_step w (f w)
}.

#[export] Instance world_step_preorder `{DI : DevInv D} : PreOrder (@world_step D _).
Proof.
  split; [by intros w Hw|]. intros w1 w2 w3 H12 H23 Hw.
  destruct (H12 Hw) as [Hw2 E2]. destruct (H23 Hw2) as [Hw3 E3]. split; [done|congruence].
Qed.

(** ** The bus invariant *)

Definition disjoint_ranges (b1 s1 b2 s2 : Z) : Prop := b1 + s1 <= b2 \/ b2 + s2 <= b1.

Definition region_ok (base size : Z) : Prop := 0 <= base /\ 0 < size /\ base + size <= UINT64_MAX + 1.

Section bus_facts.
Context `{DI : DevInv D}.
Implicit Types (b : Bus D) (m : BusMapping D).

Record mapping_ok (b : Bus D) (m : BusMapping D) : Prop := {
  mo_region : region_ok (map_base m) (map_size m);
  mo_ram : ram_size (bus_ram b) <= map_base m;
  mo_rom : rom_present (bus_rom b) = true ->
    disjoint_ranges (map_base m) (map_size m) (rom_base (bus_rom b)) (rom_size (bus_rom b));
  mo_device : DeviceLaws (map_device m)
}.

Definition rom_ok (b : Bus D) : Prop :=
  rom_present (bus_rom b) = true ->
  region_ok (rom_base (bus_rom b)) (rom_size (bus_rom b)) /\
  ram_size (bus_ram b) <= rom_base (bus_rom b) /\
  rom_size (bus_rom b) = Z.of_nat (length (rom_data (bus_rom b))) /\
  Forall is_u8 (rom_data (bus_rom b)).

Definition present_count (ms : list (BusMapping D)) : Z :=
  Z.of_nat (length (List.filter map_present ms)).

Record bus_wf (b : Bus D) : Prop := {
  bw_world : world_wf (bus_world b);
  bw_length : length (mappings b) = 64%nat;
  bw_count : mapping_count b = present_count (mappings b);
  bw_mapping i m : mappings b !! i = Some m -> map_present m = true -> mapping_ok b m;
  bw_free i m : mappings b !! i = Some m -> map_present m = false -> m = free_mapping;
  bw_disjoint i j mi mj : i <> j -> mappings b !! i = Some mi -> mappings b !! j = Some mj ->
    map_present mi = true -> map_present mj = true ->
    disjoint_ranges (map_base mi) (map_size mi) (map_base mj) (map_size mj);
  bw_rom : rom_ok b
}.

Lemma range_valid_true base size :
  is_u64 base -> is_u64 size -> range_valid base size = true <-> region_ok base size.
Proof.
  intros Hb Hs. unfold range_valid, region_ok.
  rewrite andb_true_iff, negb_true_iff, Z.eqb_neq, Z.leb_le. zlia.
Qed.

Lemma ranges_overlap_false (b1 s1 b2 s2 : Z) :
  region_ok b1 s1 -> region_ok b2 s2 ->
  ranges_overlap b1 s1 b2 s2 = false <-> disjoint_ranges b1 s1 b2 s2.
Proof.
  unfold region_ok, UINT64_MAX. intros H1 H2. unfold ranges_overlap, disjoint_ranges.
  rewrite !wrap64_id by (unfold is_u64; lia). rewrite andb_false_iff, !Z.leb_gt. lia.
Qed.

Lemma find_mapping_Some ms a w m :
  find_mapping ms a w = Some m ->
  exists i, ms !! i = Some m /\ map_present m = true /\ mapping_contains m a w = true.
Proof.
  induction ms as [|m0 ms IH]; simpl; [done|]. destruct (_ && _) eqn:E.
  - intros [= ->]. apply andb_true_iff in E as [? ?]. by exists 0%nat.
  - intros H. destruct (IH H) as (i & ?). by exists (S i).
Qed.

Lemma find_mapping_None ms a w i m :
  find_mapping ms a w = None -> ms !! i = Some m -> map_present m = true ->
  mapping_contains m a w = false.
Proof.
  revert i. induction ms as [|m0 ms IH]; simpl; [done|]. intros i.
  destruct (_ && _) eqn:E; [done|]. intros Hf Hi Hp. destruct i as [|i]; [|by eapply IH].
  injection Hi as ->. by rewrite Hp in E.
Qed.

Lemma mapping_contains_true m a w :
  mapping_contains m a w = true <->
  map_base m <= a < map_base m + map_size m /\ a + w <= map_base m + map_size m.
Proof.
  unfold mapping_contains. destruct (Z.ltb_spec a (map_base m)); [split; [done|lia]|].
  rewrite andb_true_iff, Z.ltb_lt, Z.leb_le. lia.
Qed.

Lemma rom_contains_true (rom : BusRomMapping) a w :
  rom_contains rom a w = true <->
  rom_present rom = true /\ rom_base rom <= a < rom_base rom + rom_size rom /\
  a + w <= rom_base rom + rom_size rom.
Proof.
  unfold rom_contains. destruct (rom_present rom); simpl; [|split; [done|tauto]].
  destruct (Z.ltb_spec a (rom_base rom)); [split; [done|lia]|].
  rewrite andb_true_iff, Z.ltb_lt, Z.leb_le. lia.
Qed.

(** ** Address decoding is exclusive *)

Lemma device_excludes_ram b i m a w :
  bus_wf b -> mappings b !! i = Some m -> map_present m = true -> 1 <= w ->
  mapping_contains m a w = true -> ram_contains (bus_ram b) a w = false.
Proof.
  intros Hb Hi Hp Hw Hc. apply not_true_iff_false. rewrite ram_contains_true by apply Hb.
  apply mapping_contains_true in Hc. destruct (bw_mapping b Hb i m Hi Hp) as [_ Hr _ _]. lia.
Qed.

Lemma device_excludes_rom b i m a w :
  bus_wf b -> mappings b !! i = Some m -> map_present m = true -> 1 <= w ->
  mapping_contains m a w = true -> rom_contains (bus_rom b) a w = false.
Proof.
  intros Hb Hi Hp Hw Hc. apply not_true_iff_false. rewrite rom_contains_true.
  apply mapping_contains_true in Hc. intros (Hrp & Hrom).
  destruct (bw_mapping b Hb i m Hi Hp) as [_ _ Hr _]. specialize (Hr Hrp).
  unfold disjoint_ranges in Hr. lia.
Qed.

Lemma rom_excludes_ram b a w :
  bus_wf b -> 1 <= w -> rom_contains (bus_rom b) a w = true -> ram_contains (bus_ram b) a w = false.
Proof.
  intros Hb Hw (Hp & Hc)%rom_contains_true. apply not_true_iff_false.
  rewrite ram_contains_true by apply Hb. destruct (bw_rom b Hb Hp) as (_ & Hr & _). lia.
Qed.

Lemma device_unique b i j mi mj a w :
  bus_wf b -> mappings b !! i = Some mi -> mappings b !! j = Some mj ->
  map_present mi = true -> map_present mj = true -> 1 <= w ->
  mapping_contains mi a w = true -> mapping_contains mj a w = true -> i = j.
Proof.
  intros Hb Hi Hj Hpi Hpj Hw Hci Hcj. destruct (decide (i = j)) as [|Hne]; [done|].
  apply mapping_contains_true in Hci, Hcj.
  pose proof (bw_disjoint b Hb i j mi mj Hne Hi Hj Hpi Hpj) as Hd.
  unfold disjoint_ranges in Hd. lia.
Qed.

(** ** Bus accesses preserve the invariant *)

Lemma set_world_wf b w :
  bus_wf b -> world_wf w -> ram_size (w_ram w) = ram_size (bus_ram b) -> bus_wf (set_world w b).
Proof.
  intros [H1 H2 H3 H4 H5 H6 H7] Hw Hs. split; [done..| | | |]; simpl; [|done|done|].
  - intros i m Hi Hp. destruct (H4 i m Hi Hp) as [A B C E].
    split; [done| |done|done]. unfold bus_ram in *. simpl. by rewrite Hs.
  - intros Hp. destruct (H7 Hp) as (? & ? & ?). unfold bus_ram in *. simpl. by rewrite Hs.
Qed.

Lemma set_bus_ram_wf b r :
  bus_wf b -> ram_wf r -> ram_size r = ram_size (bus_ram b) -> bus_wf (set_bus_ram r b).
Proof.
  intros Hb Hr Hs. destruct (bw_world b Hb) as (_ & ? & ?). apply set_world_wf; [done| |done].
  by split_and!.
Qed.

Lemma world_step_wf b w :
  bus_wf b -> world_step (bus_world b) w -> bus_wf (set_world w b).
Proof. intros Hb Hw. destruct (Hw (bw_world b Hb)). by apply set_world_wf. Qed.

Lemma rom_read_u64 b a w v : bus_wf b -> rom_read (bus_rom b) a w = Some v -> is_u64 v.
Proof.
  intros Hb. unfold rom_read. destruct (_ || _) eqn:E; [done|]. intros [= <-].
  apply orb_false_iff in E as [E Hc%negb_false_iff]. apply orb_false_iff in E as [_ E%Z.ltb_ge].
  apply rom_contains_true in Hc as [Hp _]. destruct (bw_rom b Hb Hp) as (_ & _ & _ & Hd).
  assert (Forall is_u8 (take (Z.to_nat w) (drop (Z.to_nat (a - rom_base (bus_rom b)))
    (rom_data (bus_rom b))))) as Hf by by apply Forall_take, Forall_drop.
  rewrite or_bytes_correct; [apply bytes_to_int_u64|..]; try done; rewrite length_take; lia.
Qed.

Lemma bus_fetch_u64 b a w v : bus_wf b -> 0 <= w -> bus_fetch b a w = Some v -> is_u64 v.
Proof.
  intros Hb Hw. unfold bus_fetch. destruct (_ || _); [done|].
  destruct (ram_contains _ _ _); [apply ram_read_u64; [apply Hb|done]|by apply rom_read_u64].
Qed.

Lemma find_mapping_device b a w m :
  bus_wf b -> lock_mapping_for_address b a w = Some m ->
  DeviceLaws (map_device m) /\ 0 <= a - map_base m.
Proof.
  intros Hb (i & Hi & Hp & Hc)%find_mapping_Some. apply mapping_contains_true in Hc.
  split; [|lia]. apply (bw_mapping b Hb i m Hi Hp).
Qed.

(** [b] is a well-formed successor of [b0]: the same map, the same amount of RAM. *)
Definition bus_like (b0 b : Bus D) : Prop :=
  bus_wf b /\ ram_size (bus_ram b) = ram_size (bus_ram b0) /\
  mappings b = mappings b0 /\ bus_rom b = bus_rom b0.

Lemma bus_like_refl b : bus_wf b -> bus_like b b.
Proof. done. Qed.

Lemma bus_like_trans b0 b1 b2 : bus_like b0 b1 -> bus_like b1 b2 -> bus_like b0 b2.
Proof. intros (? & ? & ? & ?) (? & ? & ? & ?). split_and!; [done|congruence..]. Qed.

Lemma keeps_bus_wf {A} (m : Exec (Bus D) A) Q :
  (forall b0, keeps (bus_like b0) m Q) -> keeps bus_wf m Q.
Proof.
  intros H b Hb. destruct (H b b (bus_like_refl b Hb)) as [(? & _) ?]. done.
Qed.

Lemma world_step_like b0 b w :
  bus_like b0 b -> world_step (bus_world b) w -> bus_like b0 (set_world w b).
Proof.
  intros (Hb & ? & ? & ?) Hw. destruct (Hw (bw_world b Hb)) as [_ E].
  split_and!; [by apply world_step_wf| |done|done]. unfold bus_ram in *. simpl. congruence.
Qed.

Lemma set_bus_ram_like b0 b r :
  bus_like b0 b -> ram_wf r -> ram_size r = ram_size (bus_ram b) -> bus_like b0 (set_bus_ram r b).
Proof.
  intros (Hb & ? & ? & ?) Hr E. split_and!; [by apply set_bus_ram_wf| |done|done].
  unfold bus_ram in *. simpl. congruence.
Qed.

Lemma bus_read_keeps b0 a w : 0 <= w -> keeps (bus_like b0) (bus_read (D:=D) a w) is_u64.
Proof.
  intros Hw b Hl. pose proof (proj1 Hl) as Hb. unfold bus_read. destruct (_ || _); [by split|].
  destruct (lock_mapping_for_address b a w) as [m|] eqn:Hm.
  - destruct (find_mapping_device b a w m Hb Hm) as [Hd Hoff].
    destruct (dev_read (map_device m)) as [f|] eqn:Hf; [|by split].
    destruct (dl_read f (bus_world b) (a - map_base m) w Hf (bw_world b Hb) Hoff) as [Hs Hv].
    destruct (f _ _ _) as [v w'] eqn:E. simpl in *. split; [by apply world_step_like|done].
  - destruct (rom_read (bus_rom b) a w) as [v|] eqn:Hr.
    { split; [done|]. intros ? [= <-]. by eapply rom_read_u64. }
    destruct (negb _); [by split|]. split; [done|]. intros v Hv.
    eapply ram_read_u64; [apply Hb|done|exact Hv].
Qed.

Lemma bus_write_keeps b0 a w v :
  0 <= w -> is_u64 v -> keeps (bus_like b0) (bus_write (D:=D) a w v) (fun _ => True).
Proof.
  intros Hw Hv b Hl. pose proof (proj1 Hl) as Hb. unfold bus_write. destruct (_ || _); [by split|].
  destruct (lock_mapping_for_address b a w) as [m|] eqn:Hm.
  - destruct (find_mapping_device b a w m Hb Hm) as [Hd Hoff].
    destruct (dev_write (map_device m)) as [f|] eqn:Hf; [|by split].
    pose proof (dl_write f (bus_world b) (a - map_base m) w v Hf (bw_world b Hb) Hoff Hv) as Hs.
    destruct (f _ _ _ _) as [ok w'] eqn:E. simpl in *. split; [by apply world_step_like|done].
  - destruct (rom_contains _ _ _); [by split|]. destruct (negb _); [by split|].
    destruct (ram_write _ _ _ _) as [r|] eqn:E; [|by split]. split; [|done].
    destruct (ram_write_wf _ _ _ _ _ (proj1 (bw_world b Hb)) Hw E). by apply set_bus_ram_like.
Qed.

(** An atomic on RAM that keeps it well-formed keeps the bus well-formed. *)
Lemma bus_atomic_keeps b0 a op :
  (forall r v r', ram_wf r -> op r = Some (v, r') ->
     is_u64 v /\ ram_wf r' /\ ram_size r' = ram_size r) ->
  keeps (bus_like b0) (bus_atomic (D:=D) a op) is_u64.
Proof.
  intros Hop b Hl. pose proof (proj1 Hl) as Hb. unfold bus_atomic. destruct (negb _); [by split|].
  destruct (op (bus_ram b)) as [[v r']|] eqn:E; [|by split].
  destruct (Hop _ _ _ (proj1 (bw_world b Hb)) E) as (? & ? & ?).
  split; [by apply set_bus_ram_like|]. by intros ? [= <-].
Qed.

Lemma atomic_store_wf r a w v :
  ram_wf r -> ram_wf (atomic_store_n r a w v) /\ ram_size (atomic_store_n r a w v) = ram_size r.
Proof.
  intros Hr. split; [|apply store_bytes_size]. apply store_bytes_wf; [done|]. apply int_to_bytes_u8.
Qed.

Lemma bus_compare_exchange64_keeps b0 a e d :
  is_u64 e -> keeps (bus_like b0) (bus_compare_exchange64 (D:=D) a e d) is_u64.
Proof.
  intros He. apply bus_atomic_keeps. intros r v r' Hr. unfold ram_compare_exchange64.
  destruct (negb _); [done|]. pose proof (atomic_load_u64 r a 8 Hr).
  destruct (_ =? _); intros [= <- <-]; [|auto with lia].
  destruct (atomic_store_wf r a 8 d Hr). auto.
Qed.

Lemma bus_exchange64_keeps b0 a v : keeps (bus_like b0) (bus_exchange64 (D:=D) a v) is_u64.
Proof.
  apply bus_atomic_keeps. intros r x r' Hr. unfold ram_exchange64.
  destruct (negb _); [done|]. intros [= <- <-]. destruct (atomic_store_wf r a 8 v Hr).
  auto using atomic_load_u64 with lia.
Qed.

Lemma bus_fetch_add64_keeps b0 a v :
  keeps (bus_like b0) (bus_fetch_add64 (D:=D) a v) is_u64.
Proof.
  apply bus_atomic_keeps. intros r x r' Hr. unfold ram_fetch_add64.
  destruct (negb _); [done|]. intros [= <- <-].
  destruct (atomic_store_wf r a 8 (wrap64 (atomic_load_n r a 8 + v)) Hr).
  auto using atomic_load_u64 with lia.
Qed.

(** Callbacks run over all mappings in turn. *)
Lemma fold_world_step b (f : World D -> BusMapping D -> World D) :
  (forall i m w, mappings b !! i = Some m -> world_step w (f w m)) ->
  world_step (bus_world b) (fold_left f (mappings b) (bus_world b)).
Proof.
  generalize (bus_world b) as w. induction (mappings b) as [|m ms IH]; intros w Hf; simpl; [done|].
  etrans; [by apply (Hf 0%nat)|]. apply IH. intros i m' w' Hi. by apply (Hf (S i)).
Qed.

Lemma bus_tick_like b ticks : bus_wf b -> is_u64 ticks -> bus_like b (bus_tick b ticks).
Proof.
  intros Hb Ht. pose proof (bus_like_refl b Hb). unfold bus_tick. destruct (_ =? _); [done|].
  apply world_step_like; [done|]. apply fold_world_step. intros i m w Hi. unfold tick_mapping.
  destruct (map_present m) eqn:Hp; [|done]. destruct (dev_tick (map_device m)) eqn:Hf; [|done].
  destruct (bw_mapping b Hb i m Hi Hp) as [_ _ _ Hd]. by apply (dl_tick _ w ticks Hf).
Qed.

Lemma bus_tick_wf b ticks : bus_wf b -> is_u64 ticks -> bus_wf (bus_tick b ticks).
Proof. intros. by apply bus_tick_like. Qed.

Lemma bus_reset_wf b : bus_wf b -> bus_wf (bus_reset b).
Proof.
  intros Hb. unfold bus_reset. apply world_step_wf; [done|].
  apply fold_world_step. intros i m w Hi. unfold reset_mapping.
  destruct (map_present m) eqn:Hp; [|done]. destruct (dev_reset (map_device m)) eqn:Hf; [|done].
  destruct (bw_mapping b Hb i m Hi Hp) as [_ _ _ Hd]. by apply (dl_reset _ w Hf).
Qed.

(** ** Mapping and unmapping *)

Lemma map_scan_spec ms base size i free k :
  map_scan (D:=D) ms base size i free = Some k ->
  (forall j m, ms !! j = Some m -> map_present m = true ->
     ranges_overlap base size (map_base m) (map_size m) = false) /\
  (k = free \/ exists j m, ms !! j = Some m /\ map_present m = false /\ k = i + Z.of_nat j).
Proof.
  revert i free. induction ms as [|m ms IH]; intros i free; simpl.
  { intros [= <-]. split; [done|by left]. }
  destruct (map_present m) eqn:Hp; simpl.
  - destruct (ranges_overlap _ _ _ _) eqn:Ho; [done|]. intros H.
    destruct (IH _ _ H) as [H1 H2]. split.
    + intros [|j] m' Hj Hpm; [by injection Hj as <-|by eapply H1].
    + destruct H2 as [|(j & m' & ? & ? & ->)]; [by left|]. right. exists (S j), m'.
      split_and!; [done..|lia].
  - intros H. destruct (IH _ _ H) as [H1 H2]. split.
    + intros [|j] m' Hj Hpm; [|by eapply H1]. injection Hj as <-. congruence.
    + destruct H2 as [->|(j & m' & ? & ? & ->)].
      * destruct (_ =? _); [|by left]. right. exists 0%nat, m. split_and!; [done..|lia].
      * right. exists (S j), m'. split_and!; [done..|lia].
Qed.

Lemma present_count_insert ms i m m0 :
  ms !! i = Some m0 ->
  present_count (<[i := m]> ms) =
  present_count ms + Z.b2z (map_present m) - Z.b2z (map_present m0).
Proof.
  unfold present_count. revert i. induction ms as [|m1 ms IH]; intros i; [done|].
  destruct i as [|i]; simpl.
  - intros [= ->]. destruct (map_present m), (map_present m0); simpl; lia.
  - intros Hi. specialize (IH i Hi). destruct (map_present m1); simpl; lia.
Qed.

Lemma unmap_scan_spec ms base size i k :
  unmap_scan (D:=D) ms base size i = Some k ->
  exists j m, k = (i + j)%nat /\ ms !! j = Some m /\ map_present m = true /\
    map_base m = base /\ map_size m = size.
Proof.
  revert i. induction ms as [|m ms IH]; intros i; simpl; [done|].
  destruct (map_present m) eqn:Hp; simpl; [|].
  - destruct (Z.eqb_spec (map_base m) base); simpl; [destruct (Z.eqb_spec (map_size m) size); simpl|].
    + intros [= <-]. exists 0%nat, m. split_and!; [lia|done..].
    + intros H. destruct (IH _ H) as (j & m' & -> & ?). exists (S j), m'. split; [lia|done].
    + intros H. destruct (IH _ H) as (j & m' & -> & ?). exists (S j), m'. split; [lia|done].
  - intros H. destruct (IH _ H) as (j & m' & -> & ?). exists (S j), m'. split; [lia|done].
Qed.

Lemma bus_init_wf (w : World D) : world_wf w -> bus_wf (bus_init w).
Proof.
  intros Hw. unfold bus_init.
  assert (forall i (m : BusMapping D), replicate 64 free_mapping !! i = Some m -> m = free_mapping)
    as Hall by (intros i m H; by apply lookup_replicate in H as [-> _]).
  split; simpl; [done|done|done|..|done].
  - intros i m Hi. by rewrite (Hall i m Hi).
  - intros i m Hi _. by apply (Hall i).
  - intros i j mi mj _ Hi. by rewrite (Hall i mi Hi).
Qed.

Lemma free_range_above_ram b base size :
  bus_wf b -> region_ok base size ->
  negb (ram_size (bus_ram b) =? 0) && ranges_overlap base size 0 (ram_size (bus_ram b)) = false ->
  ram_size (bus_ram b) <= base.
Proof.
  intros Hb Hreg H. pose proof (proj1 (proj1 (bw_world b Hb))) as Hs. fold (bus_ram b) in Hs.
  destruct (Z.eqb_spec (ram_size (bus_ram b)) 0) as [->|Hne]; [apply Hreg|]. simpl in H.
  apply ranges_overlap_false in H; [|done|unfold region_ok; zlia].
  unfold disjoint_ranges, region_ok in *. lia.
Qed.

Lemma bus_map_device_spec b base size d b' :
  bus_wf b -> is_u64 base -> is_u64 size -> bus_map_device b base size d = (true, b') ->
  exists i, mappings b !! i = Some free_mapping /\ region_ok base size /\
    b' = mkBus (bus_world b) (<[i := mkMapping base size d true]> (mappings b)) (bus_rom b)
           (mapping_count b + 1) /\
    ram_size (bus_ram b) <= base /\
    (rom_present (bus_rom b) = true ->
       disjoint_ranges base size (rom_base (bus_rom b)) (rom_size (bus_rom b))) /\
    (forall j m, mappings b !! j = Some m -> map_present m = true ->
       disjoint_ranges base size (map_base m) (map_size m)).
Proof.
  intros Hb Hu1 Hu2. unfold bus_map_device.
  destruct (range_valid base size) eqn:Hrv; [|done]. apply range_valid_true in Hrv; [|done..].
  destruct (device_empty d); [done|]. cbn [negb orb].
  destruct (negb _ && _) eqn:Hram; [done|]. apply free_range_above_ram in Hram; [|done..].
  destruct (_ <=? _); [done|]. destruct (rom_present (bus_rom b) && _) eqn:Hrom; [done|].
  destruct (map_scan _ _ _ _ _) as [k|] eqn:Hscan; [|done].
  destruct (Z.eqb_spec k BUS_MAX_DEVICES) as [|Hk]; [done|]. intros [= <-].
  destruct (map_scan_spec _ _ _ _ _ _ Hscan) as [Hdis [->|(j & m & Hj & Hp & ->)]]; [done|].
  exists j. rewrite (bw_free b Hb j m Hj Hp) in Hj. split_and!; [done|done| |done|..].
  - by rewrite Z.add_0_l, Nat2Z.id.
  - intros Hrp. rewrite Hrp in Hrom. simpl in Hrom.
    apply ranges_overlap_false in Hrom; [done..|]. apply (bw_rom b Hb Hrp).
  - intros j' m' Hj' Hp'. apply ranges_overlap_false; [done|apply (bw_mapping b Hb j' m' Hj' Hp')|].
    by eapply Hdis.
Qed.

Lemma bus_map_device_wf b base size d :
  bus_wf b -> is_u64 base -> is_u64 size -> DeviceLaws d ->
  bus_wf (bus_map_device b base size d).2.
Proof.
  intros Hb Hu1 Hu2 Hd. destruct (bus_map_device b base size d) as [[|] b'] eqn:E; simpl.
  - destruct (bus_map_device_spec b base size d b' Hb Hu1 Hu2 E)
      as (i & Hi & Hreg & -> & Hram & Hrom & Hdis).
    pose proof (lookup_lt_Some _ _ _ Hi) as Hlt.
    split; simpl; [apply Hb|by rewrite length_insert, (bw_length b Hb)| | | | |apply Hb].
    + rewrite (present_count_insert _ _ _ _ Hi), (bw_count b Hb). simpl. lia.
    + intros j m Hj Hp. rewrite list_lookup_insert in Hj. case_decide as Hij.
      * injection Hj as <-. by split.
      * destruct (bw_mapping b Hb j m Hj Hp) as [A B C E']. by split.
    + intros j m Hj Hp. rewrite list_lookup_insert in Hj. case_decide as Hij.
      * by injection Hj as <-.
      * by apply (bw_free b Hb j).
    + intros j k mj mk Hne Hj Hk Hpj Hpk. rewrite list_lookup_insert in Hj.
      case_decide as Hij; rewrite list_lookup_insert in Hk; case_decide as Hik.
      * destruct Hij, Hik. congruence.
      * injection Hj as <-. by apply (Hdis k).
      * injection Hk as <-. destruct (Hdis j mj Hj Hpj); [right|left]; done.
      * by apply (bw_disjoint b Hb j k).
  - unfold bus_map_device in E. repeat (case_match; simplify_eq; try done).
Qed.

Lemma bus_unmap_device_wf b base size : bus_wf b -> bus_wf (bus_unmap_device b base size).2.
Proof.
  intros Hb. unfold bus_unmap_device. destruct (negb _); [done|].
  destruct (unmap_scan _ _ _ _) as [i|] eqn:E; [|done]. simpl.
  destruct (unmap_scan_spec _ _ _ _ _ E) as (j & m & -> & Hj & Hp & _). simpl in *.
  assert (forall k mk, <[j := free_mapping]> (mappings b) !! k = Some mk -> map_present mk = true ->
    k <> j /\ mappings b !! k = Some mk) as Hold.
  { intros k mk Hk Hpk. rewrite list_lookup_insert in Hk. case_decide as Hjk.
    - by injection Hk as <-.
    - split; [|done]. intros ->. apply Hjk. split; [done|]. by eapply lookup_lt_Some. }
  split; simpl; [apply Hb|by rewrite length_insert, (bw_length b Hb)| | | | |apply Hb].
  - rewrite (present_count_insert _ _ _ _ Hj), Hp, (bw_count b Hb). simpl. lia.
  - intros k mk Hk Hpk. destruct (Hold k mk Hk Hpk) as [_ Hk'].
    destruct (bw_mapping b Hb k mk Hk' Hpk) as [A B C E']. by split.
  - intros k mk Hk Hpk. rewrite list_lookup_insert in Hk. case_decide as Hjk.
    + by injection Hk as <-.
    + by apply (bw_free b Hb k).
  - intros k l mk ml Hne Hk Hl Hpk Hpl. destruct (Hold k mk Hk Hpk), (Hold l ml Hl Hpl).
    by apply (bw_disjoint b Hb k l).
Qed.

Lemma bus_map_rom_wf b base data :
  bus_wf b -> is_u64 base -> Forall is_u8 data -> is_u64 (Z.of_nat (length data)) ->
  bus_wf (bus_map_rom b base data).2.
Proof.
  intros Hb Hu1 Hdata Hu2. unfold bus_map_rom. destruct (_ || _) eqn:Hg; [done|].
  apply orb_false_iff in Hg as [Hg Hram]. apply orb_false_iff in Hg as [_ Hrv%negb_false_iff].
  apply range_valid_true in Hrv; [|done..]. apply free_range_above_ram in Hram; [|done..].
  destruct (rom_present (bus_rom b)) eqn:Hnone; [done|]. destruct (existsb _ _) eqn:He; [done|].
  cbn [snd]. split; simpl; [apply Hb..| |apply Hb|apply Hb|by intros _].
  intros i m Hi Hp. destruct (bw_mapping b Hb i m Hi Hp) as [A B C E']. split; [done..| |done].
  intros _. simpl. rewrite <-not_true_iff_false, existsb_exists in He.
  assert (ranges_overlap base (Z.of_nat (length data)) (map_base m) (map_size m) = false) as Ho.
  { apply not_true_iff_false. intros Ho. apply He. exists m. rewrite Hp, Ho. split; [|done].
    apply list_elem_of_In, list_elem_of_lookup. by exists i. }
  apply ranges_overlap_false in Ho; [|done..]. destruct Ho; [right|left]; done.
Qed.
End bus_facts.

(** * Properties *)

#[export] Instance unit_dev_inv : DevInv unit := fun _ => True.

(** A register that always reads 42 and ignores writes. *)
Definition demo_device : BusDevice unit :=
  mkBusDevice (Some (fun w off width => (Some 42, w)))
    (Some (fun w off width v => (true, w))) None None.

#[export] Instance demo_device_laws : DeviceLaws demo_device.
Proof.
  split; try done.
  - intros f w off width [= <-] Hw Hoff. split; [done|]. intros v [= <-]. by vm_compute.
  - intros f w off width v [= <-] Hw _ _. done.
Qed.

(** 4 KiB of RAM, a two-byte ROM at 0x2000 and the demo device at 0x3000. *)
Definition demo_bus : Bus unit :=
  (bus_map_device (bus_map_rom (bus_init (mkWorld (mkRAM ∅ 0x1000) None tt)) 0x2000 [7; 9]).2
     0x3000 16 demo_device).2.

Lemma demo_bus_wf : bus_wf demo_bus.
Proof.
  apply bus_map_device_wf; [|by vm_compute..|apply demo_device_laws].
  apply bus_map_rom_wf; [|by vm_compute| |by vm_compute].
  - apply bus_init_wf. split_and!; [split; [by vm_compute|by intros ? ? ?]|done|done].
  - repeat constructor; zlia.
Qed.

(** C29: the bus invariant (every present mapping and the ROM lie above RAM, no
    two of them overlap, all stay within the 64-bit address space, the count is
    the number of present mappings, free slots are clear) holds initially and
    is preserved by mapping a device, unmapping, mapping a ROM, ticking and
    resetting, whether they succeed or not. *)
Theorem bus_wf_preserved `{DI : DevInv D} (b : Bus D) :
  (forall w, world_wf w -> bus_wf (bus_init (D:=D) w)) /\
  (bus_wf b ->
   (forall base size d, is_u64 base -> is_u64 size -> DeviceLaws d ->
      bus_wf (bus_map_device b base size d).2) /\
   (forall base size, bus_wf (bus_unmap_device b base size).2) /\
   (forall base data, is_u64 base -> Forall is_u8 data -> is_u64 (Z.of_nat (length data)) ->
      bus_wf (bus_map_rom b base data).2) /\
   (forall ticks, is_u64 ticks -> bus_wf (bus_tick b ticks)) /\
   bus_wf (bus_reset b)).
Proof.
  split; [apply bus_init_wf|]. intros Hb.
  split_and!; auto using bus_map_device_wf, bus_unmap_device_wf, bus_map_rom_wf,
    bus_tick_wf, bus_reset_wf.
Qed.

Lemma bus_wf_preserved_witness : bus_wf (bus_unmap_device demo_bus 0x3000 16).2.
Proof.
  destruct (proj2 (bus_wf_preserved demo_bus) demo_bus_wf) as (_ & H & _).
  exact (H 0x3000 16).
Defined.

(** C30: address decoding is exclusive and order-independent: a data access
    inside a device's window runs that device's callback, whichever slot it
    occupies, at the offset from its base; one inside the ROM reads its bytes
    and cannot write them; one inside RAM reads and writes RAM; any other
    access fails and changes nothing. *)
Theorem bus_decode_exclusive `{DI : DevInv D} (b : Bus D) a w v :
  bus_wf b -> 1 <= w <= 8 ->
  (forall i m, mappings b !! i = Some m -> map_present m = true -> mapping_contains m a w = true ->
     bus_read a w b = match dev_read (map_device m) with
       | Some f => let '(x, w') := f (bus_world b) (a - map_base m) w in (x, set_world w' b)
       | None => (None, b) end /\
     bus_write a w v b = match dev_write (map_device m) with
       | Some f => let '(ok, w') := f (bus_world b) (a - map_base m) w v in
                   (if ok then Some tt else None, set_world w' b)
       | None => (None, b) end) /\
  (rom_contains (bus_rom b) a w = true ->
     bus_read a w b = (rom_read (bus_rom b) a w, b) /\ bus_write a w v b = (None, b) /\
     bus_fetch b a w = rom_read (bus_rom b) a w) /\
  (ram_contains (bus_ram b) a w = true ->
     bus_read a w b = (ram_read (bus_ram b) a w, b) /\
     bus_write a w v b = match ram_write (bus_ram b) a w v with
       | Some r => (Some tt, set_bus_ram r b) | None => (None, b) end /\
     bus_fetch b a w = ram_read (bus_ram b) a w) /\
  (lock_mapping_for_address b a w = None -> rom_contains (bus_rom b) a w = false ->
   ram_contains (bus_ram b) a w = false ->
     bus_read a w b = (None, b) /\ bus_write a w v b = (None, b) /\ bus_fetch b a w = None).
Proof.
  intros Hb Hw. unfold bus_read, bus_write, bus_fetch.
  rewrite (proj2 (Z.eqb_neq w 0)), (proj2 (Z.ltb_ge 8 w)) by lia. cbn [orb].
  assert (forall P : Prop, (rom_contains (bus_rom b) a w = true \/ ram_contains (bus_ram b) a w = true) ->
    (lock_mapping_for_address b a w = None -> P) -> P) as Hnodev.
  { intros P Hor HP. destruct (lock_mapping_for_address b a w) as [m|] eqn:E; [|auto].
    apply find_mapping_Some in E as (i & Hi & Hp & Hc).
    pose proof (device_excludes_ram b i m a w Hb Hi Hp ltac:(lia) Hc).
    pose proof (device_excludes_rom b i m a w Hb Hi Hp ltac:(lia) Hc). intuition congruence. }
  assert (rom_contains (bus_rom b) a w = false -> rom_read (bus_rom b) a w = None) as Hnorom.
  { intros E. unfold rom_read. rewrite E. by rewrite !orb_true_r. }
  split_and!.
  - intros i m Hi Hp Hc. destruct (lock_mapping_for_address b a w) as [m'|] eqn:E.
    + apply find_mapping_Some in E as (j & Hj & Hpj & Hcj).
      assert (i = j) as -> by (eapply (device_unique b i j m m' a w); done || lia).
      assert (m' = m) as -> by congruence. done.
    + unfold lock_mapping_for_address in E. eapply find_mapping_None in E; [|done..]. congruence.
  - intros Hc. apply (Hnodev _ (or_introl Hc)). intros ->.
    rewrite (rom_excludes_ram b a w Hb ltac:(lia) Hc), Hc.
    assert (exists x, rom_read (bus_rom b) a w = Some x) as [x ->]; [|done].
    unfold rom_read. rewrite Hc, (proj2 (Z.eqb_neq w 0)), (proj2 (Z.ltb_ge 8 w)) by lia.
    by eexists.
  - intros Hc. apply (Hnodev _ (or_intror Hc)). intros ->.
    destruct (rom_contains (bus_rom b) a w) eqn:Hr.
    { pose proof (rom_excludes_ram b a w Hb ltac:(lia) Hr). congruence. }
    by rewrite Hnorom, Hc.
  - intros -> Hr Hm. by rewrite Hnorom, Hr, Hm.
Qed.

Lemma bus_decode_exclusive_witness :
  bus_read 0x3008 8 demo_bus = (Some 42, set_world (bus_world demo_bus) demo_bus) /\
  bus_write 0x2000 1 5 demo_bus = (None, demo_bus).
Proof.
  destruct (bus_decode_exclusive demo_bus 0x3008 8 0 demo_bus_wf ltac:(lia)) as (H1 & _).
  destruct (bus_decode_exclusive demo_bus 0x2000 1 5 demo_bus_wf ltac:(lia)) as (_ & H2 & _).
  split.
  - destruct (H1 0%nat (mkMapping 0x3000 16 demo_device true)) as [H _];
      [reflexivity..|]. rewrite H. reflexivity.
  - destruct H2 as (_ & H & _); [by vm_compute|]. exact H.
Defined.

(** Unmapping undoes mapping: after a successful [bus_map_device],
    [bus_unmap_device] of the same window succeeds and restores the bus
    exactly. *)
Theorem bus_map_unmap_roundtrip `{DI : DevInv D} (b b' : Bus D) base size d :
  bus_wf b -> is_u64 base -> is_u64 size ->
  bus_map_device b base size d = (true, b') ->
  bus_unmap_device b' base size = (true, b).
Proof.
  intros Hb Hu1 Hu2 E.
  destruct (bus_map_device_spec b base size d b' Hb Hu1 Hu2 E)
    as (i & Hi & Hreg & -> & _ & _ & Hdis).
  pose proof (lookup_lt_Some _ _ _ Hi) as Hlt.
  unfold bus_unmap_device. rewrite (proj2 (range_valid_true _ _ Hu1 Hu2) Hreg). cbn [negb].
  destruct (unmap_scan _ base size 0) as [k|] eqn:Hs; simpl in Hs.
  - destruct (unmap_scan_spec _ _ _ _ _ Hs) as (j & m & -> & Hj & Hp & Hbase & Hsize).
    simpl in *. assert (j = i) as ->.
    { destruct (decide (j = i)) as [|Hne]; [done|].
      rewrite list_lookup_insert_ne in Hj by done. specialize (Hdis j m Hj Hp).
      unfold disjoint_ranges, region_ok in *. lia. }
    rewrite list_insert_insert_eq, list_insert_id by done.
    destruct b as [w ms rom n]. simpl. do 2 f_equal. lia.
  - exfalso. revert Hs. clear -Hlt. simpl. generalize 0%nat. revert i Hlt.
    induction (mappings b) as [|m ms IH]; intros i Hlt n; simpl in *; [lia|].
    destruct i as [|i]; simpl; [by rewrite !Z.eqb_refl|].
    destruct (_ || _); [|done]. apply IH. lia.
Qed.

Lemma bus_map_unmap_roundtrip_witness :
  (bus_map_device demo_bus 0x4000 8 demo_device).1 = true /\
  bus_unmap_device (bus_map_device demo_bus 0x4000 8 demo_device).2 0x4000 8 = (true, demo_bus).
Proof.
  assert ((bus_map_device demo_bus 0x4000 8 demo_device).1 = true) as E by reflexivity.
  assert (is_u64 0x4000) as H1 by (split; reflexivity || lia).
  assert (is_u64 8) as H2 by (split; reflexivity || lia).
  split; [exact E|].
  refine (bus_map_unmap_roundtrip demo_bus _ 0x4000 8 demo_device demo_bus_wf H1 H2 _).
  rewrite <-E. apply surjective_pairing.
Defined.
