(* ===== verification/Ring.v ===== *)
(** Ring buffers: an array of slots, the index of the oldest element and a
    count, as the UART (src/uart.c), the display queue (src/display_queue.c) and
    the kernel's byte queue (kernel/runtime.c) keep them.  [ring] is the queue a
    ring represents; the lemmas say what a store behind the newest element and
    an advance of the head do to it. *)

From S2P Require Import Prelude.
From Stdlib Require Import ZArith Lia Bool.
From stdpp Require Import base list numbers option.

#[local] Open Scope Z_scope.

Section ring.
Context {A : Type} `{Inhabited A}.
Implicit Types slots : list A.

(** [slots[i]] and [slots[i] = v] for an index in range. *)
Definition slot_get slots (i : Z) : A := slots !!! Z.to_nat i.
Definition slot_set slots (i : Z) (v : A) : list A := <[Z.to_nat i := v]> slots.

Definition capacity slots : Z := Z.of_nat (length slots).

(** The elements from the oldest to the newest. *)
Definition ring slots (head count : Z) : list A :=
  (fun i => slot_get slots ((head + i) mod capacity slots)) <$> seqZ 0 count.

Record ring_ok slots (head count : Z) : Prop := {
  ring_head : 0 <= head < capacity slots;
  ring_count : 0 <= count <= capacity slots;
}.

Lemma capacity_set slots i v : capacity (slot_set slots i v) = capacity slots.
Proof. unfold capacity, slot_set. by rewrite length_insert. Qed.

Lemma slot_get_same slots i v : 0 <= i < capacity slots -> slot_get (slot_set slots i v) i = v.
Proof.
  unfold capacity, slot_get, slot_set. intros Hi.
  apply list_lookup_total_insert_eq. lia.
Qed.

Lemma slot_get_other slots i j v : 0 <= i -> 0 <= j -> i <> j -> slot_get (slot_set slots i v) j = slot_get slots j.
Proof. intros Hi Hj Hne. unfold slot_get, slot_set. apply list_lookup_total_insert_ne. lia. Qed.

Lemma length_ring slots head count : 0 <= count -> Z.of_nat (length (ring slots head count)) = count.
Proof. intros Hc. unfold ring. rewrite length_fmap, length_seqZ. lia. Qed.

Lemma ring_empty slots head : ring slots head 0 = [].
Proof. done. Qed.

Lemma ring_index c head x : 0 <= head < c -> 0 <= x <= c ->
  (head + x) mod c = if head + x <? c then head + x else head + x - c.
Proof.
  intros Hh Hx. destruct (Z.ltb_spec (head + x) c); [apply Z.mod_small; lia|].
  symmetry. apply (Z.mod_unique _ _ 1); lia.
Qed.

Lemma ring_push_store slots head count v :
  ring_ok slots head count -> count < capacity slots ->
  let slots' := slot_set slots ((head + count) mod capacity slots) v in
  ring slots' head (count + 1) = ring slots head count ++ [v] /\ ring_ok slots' head (count + 1).
Proof.
  intros [Hh Hc] Hlt slots'. assert (capacity slots' = capacity slots) as Hcap by apply capacity_set.
  pose proof (Z.mod_pos_bound (head + count) (capacity slots) ltac:(lia)).
  split; [|split; lia]. unfold ring. rewrite Hcap. rewrite seqZ_app, fmap_app by lia. f_equal.
  - apply list_fmap_ext. intros i j Hj%lookup_seqZ. pose proof (Z.mod_pos_bound (head + j) (capacity slots) ltac:(lia)).
    apply slot_get_other; [lia|lia|].
    rewrite !ring_index by lia.
    destruct (Z.ltb_spec (head + count) (capacity slots)), (Z.ltb_spec (head + j) (capacity slots)); lia.
  - rewrite Z.add_0_l, (seqZ_cons count 1), fmap_cons by lia. cbn [Z.pred Z.add]. f_equal.
    apply slot_get_same. lia.
Qed.

Lemma ring_pop_head slots head count :
  ring_ok slots head count -> 0 < count ->
  ring slots head count = slot_get slots head :: ring slots ((head + 1) mod capacity slots) (count - 1) /\
  ring_ok slots ((head + 1) mod capacity slots) (count - 1).
Proof.
  intros [Hh Hc] H0. pose proof (Z.mod_pos_bound (head + 1) (capacity slots) ltac:(lia)). split; [|split; lia].
  unfold ring. rewrite seqZ_cons, fmap_cons, Z.add_0_r, Z.mod_small by lia. f_equal.
  apply list_eq. intros i. rewrite !list_lookup_fmap.
  destruct (decide (Z.of_nat i < count - 1)).
  - rewrite !lookup_seqZ_lt by lia. cbn. do 2 f_equal. rewrite Z.add_mod_idemp_l by lia. f_equal. lia.
  - by rewrite !lookup_seqZ_ge by lia.
Qed.

End ring.

Arguments ring : simpl never.
