(* ===== verification/Timer.v ===== *)
(** The timer device: src/timer.c, include/timer.h.

    [timer_read], [timer_write], [timer_tick] and [timer_reset] act on one
    [TimerDevice]; [timer_device_as_bus_device] installs them on the bus over a
    timer stored in the device contexts. *)

From S2P Require Import Prelude Interrupt Ram Bus.
From stdpp Require Import base list numbers option.
From Stdlib Require Import ZArith Lia Bool.

#[local] Open Scope Z_scope.

Definition TIMER_CONTROL_OFFSET : Z := 0.
Definition TIMER_COUNTER_OFFSET : Z := 8.
Definition TIMER_COMPARE_OFFSET : Z := 16.
Definition TIMER_STATUS_OFFSET : Z := 24.
Definition TIMER_CONTROL_ENABLE : Z := 1.
Definition TIMER_CONTROL_REPEAT : Z := 2.
Definition TIMER_CONTROL_IRQ_ENABLE : Z := 4.
Definition TIMER_STATUS_PENDING : Z := 1.
Definition TIMER_CONTROL_MASK : Z :=
  Z.lor (Z.lor TIMER_CONTROL_ENABLE TIMER_CONTROL_REPEAT) TIMER_CONTROL_IRQ_ENABLE.

Record TimerDevice := mkTimer {
  control : Z;
  counter : Z;
  compare : Z;
  status : Z;
  interrupt_line : Z
}.

Definition timer_read (t : TimerDevice) (offset width : Z) : option Z :=
  if negb (width =? 8) then None
  else if offset =? TIMER_CONTROL_OFFSET then Some (control t)
  else if offset =? TIMER_COUNTER_OFFSET then Some (counter t)
  else if offset =? TIMER_COMPARE_OFFSET then Some (compare t)
  else if offset =? TIMER_STATUS_OFFSET then Some (status t)
  else None.

Definition timer_write (t : TimerDevice) (offset width value : Z) : bool * TimerDevice :=
  let '(mkTimer c n k s l) := t in
  if negb (width =? 8) then (false, t)
  else if offset =? TIMER_CONTROL_OFFSET
  then (true, mkTimer (Z.land value TIMER_CONTROL_MASK) n k s l)
  else if offset =? TIMER_COUNTER_OFFSET then (true, mkTimer c value k s l)
  else if offset =? TIMER_COMPARE_OFFSET then (true, mkTimer c n value s l)
  else if offset =? TIMER_STATUS_OFFSET then
    (true, if has_bits value TIMER_STATUS_PENDING
           then mkTimer c n k (Z.land s (not64 TIMER_STATUS_PENDING)) l else t)
  else (false, t).

(** [interrupt_router_raise] on a router pointer that may be NULL. *)
Definition raise_line (router : option InterruptRouter) (line : Z) : option InterruptRouter :=
  match router with
  | Some r => Some (interrupt_router_raise r line).2
  | None => None
  end.

Definition timer_tick (t : TimerDevice) (ticks : Z) (router : option InterruptRouter) :
    TimerDevice * option InterruptRouter :=
  let '(mkTimer c n k s l) := t in
  if (ticks =? 0) || negb (has_bits c TIMER_CONTROL_ENABLE) then (t, router)
  else if k =? 0 then (mkTimer c (wrap64 (n + ticks)) k s l, router)
  else
    let until_compare := if n <? k then k - n else 0 in
    if negb (until_compare =? 0) && (ticks <? until_compare)
    then (mkTimer c (wrap64 (n + ticks)) k s l, router)
    else
      let remaining := if until_compare =? 0 then ticks else ticks - until_compare in
      let s := Z.lor s TIMER_STATUS_PENDING in
      let router := if has_bits c TIMER_CONTROL_IRQ_ENABLE then raise_line router l else router in
      if has_bits c TIMER_CONTROL_REPEAT
      then (mkTimer c (remaining mod k) k s l, router)
      else (mkTimer (Z.land c (not64 TIMER_CONTROL_ENABLE)) k k s l, router).

Definition timer_reset (t : TimerDevice) : TimerDevice := mkTimer 0 0 0 0 (interrupt_line t).

Definition timer_device_init (line : Z) : option TimerDevice :=
  if INTERRUPT_LINE_COUNT <=? line then None else Some (mkTimer 0 0 0 0 line).

(** ** On the bus *)

(** A place in the device contexts that holds a timer. *)
Class TimerSlot (D : Type) := {
  get_timer : D -> TimerDevice;
  put_timer : TimerDevice -> D -> D
}.

Definition timer_device_as_bus_device `{TimerSlot D} : BusDevice D := {|
  dev_read := Some (fun w offset width => (timer_read (get_timer (w_dev w)) offset width, w));
  dev_write := Some (fun w offset width value =>
    let '(ok, t) := timer_write (get_timer (w_dev w)) offset width value in
    (ok, set_w_dev (put_timer t (w_dev w)) w));
  dev_tick := Some (fun w ticks =>
    let '(t, router) := timer_tick (get_timer (w_dev w)) ticks (w_router w) in
    set_w_router router (set_w_dev (put_timer t (w_dev w)) w));
  dev_reset := Some (fun w =>
    set_w_dev (put_timer (timer_reset (get_timer (w_dev w))) (w_dev w)) w)
|}.

Definition timer_wf (t : TimerDevice) : Prop :=
  is_u64 (control t) /\ is_u64 (counter t) /\ is_u64 (compare t) /\ is_u64 (status t) /\
  0 <= interrupt_line t < INTERRUPT_LINE_COUNT.

Class TimerSlotLaws (D : Type) `{DevInv D, TimerSlot D} : Prop := {
  timer_slot_wf d : dev_inv d -> timer_wf (get_timer d);
  timer_slot_put d t : dev_inv d -> timer_wf t -> dev_inv (put_timer t d)
}.

Lemma timer_read_u64 t off w v : timer_wf t -> timer_read t off w = Some v -> is_u64 v.
Proof.
  intros (? & ? & ? & ? & _). unfold timer_read. repeat case_match; by intros; simplify_eq.
Qed.

Lemma timer_write_wf t off w v : timer_wf t -> is_u64 v -> timer_wf (timer_write t off w v).2.
Proof.
  intros Hwf Hv. pose proof Hwf as (? & ? & ? & ? & ?). destruct t as [c n k s l].
  assert (is_u64 TIMER_CONTROL_MASK) by by vm_compute.
  assert (forall c' n' k' s', is_u64 c' -> is_u64 n' -> is_u64 k' -> is_u64 s' ->
    timer_wf (mkTimer c' n' k' s' l)) as Hmk by done.
  unfold timer_write. simpl in *. destruct (negb _); [done|].
  destruct (off =? TIMER_CONTROL_OFFSET); [apply Hmk; auto with u64|].
  destruct (off =? TIMER_COUNTER_OFFSET); [apply Hmk; auto with u64|].
  destruct (off =? TIMER_COMPARE_OFFSET); [apply Hmk; auto with u64|].
  destruct (off =? TIMER_STATUS_OFFSET); [|done].
  destruct (has_bits v TIMER_STATUS_PENDING); [apply Hmk; auto with u64|done].
Qed.

Lemma timer_tick_wf t ticks router :
  timer_wf t -> is_u64 ticks -> timer_wf (timer_tick t ticks router).1.
Proof.
  intros Hwf Ht. pose proof Hwf as (? & ? & ? & ? & ?). destruct t as [c n k s l]. simpl in *.
  assert (forall c' n' s', is_u64 c' -> is_u64 n' -> is_u64 s' ->
    timer_wf (mkTimer c' n' k s' l)) as Hmk by done.
  unfold timer_tick. destruct (_ || _); [done|].
  destruct (Z.eqb_spec k 0); [apply Hmk; auto with u64|].
  destruct (_ && _); [apply Hmk; auto with u64|].
  assert (is_u64 (Z.lor s TIMER_STATUS_PENDING)) by (apply lor_u64; [done|by vm_compute]).
  destruct (has_bits c TIMER_CONTROL_REPEAT); apply Hmk; auto with u64.
  set (x := if _ =? 0 then _ else _). unfold is_u64 in *.
  pose proof (Z.mod_pos_bound x k ltac:(lia)). lia.
Qed.

Lemma raise_line_inv router line r :
  (forall q, router = Some q -> router_inv q) -> 0 <= line ->
  raise_line router line = Some r -> router_inv r.
Proof. intros Hr Hl. destruct router as [q|]; [|done]. intros [= <-]. apply raise_inv; auto. Qed.

Lemma timer_tick_router t ticks router r :
  timer_wf t -> (forall q, router = Some q -> router_inv q) ->
  (timer_tick t ticks router).2 = Some r -> router_inv r.
Proof.
  intros (_ & _ & _ & _ & Hl) Hr. destruct t as [c n k s l]. simpl in Hl. unfold timer_tick.
  destruct (_ || _); [apply Hr|]. destruct (k =? 0); [apply Hr|]. destruct (_ && _); [apply Hr|].
  destruct (has_bits c TIMER_CONTROL_IRQ_ENABLE), (has_bits c TIMER_CONTROL_REPEAT); cbn [snd];
    first [apply Hr | apply raise_line_inv; [done|lia]].
Qed.

Section timer_on_bus.
Context {D : Type} {DI : DevInv D} {TS : TimerSlot D} {TL : TimerSlotLaws D}.

#[export] Instance timer_device_laws : DeviceLaws (timer_device_as_bus_device (D:=D)).
Proof.
  split.
  - intros f w off width [= <-] Hw Hoff. split; [done|]. intros v.
    apply timer_read_u64, timer_slot_wf, Hw.
  - intros f w off width v [= <-] (Hr & Hq & Hd) Hoff Hv _.
    pose proof (timer_write_wf (get_timer (w_dev w)) off width v (timer_slot_wf _ Hd) Hv).
    destruct (timer_write _ _ _ _) as [ok t]. simpl in *.
    split; [split_and!; [done..|by apply timer_slot_put]|done].
  - intros f w ticks [= <-] Ht (Hr & Hq & Hd).
    pose proof (timer_tick_wf (get_timer (w_dev w)) ticks (w_router w) (timer_slot_wf _ Hd) Ht).
    pose proof (fun r => timer_tick_router (get_timer (w_dev w)) ticks (w_router w) r
      (timer_slot_wf _ Hd) Hq).
    destruct (timer_tick _ _ _) as [t router]. simpl in *.
    split; [split_and!; [done..|by apply timer_slot_put]|done].
  - intros f w [= <-] (Hr & Hq & Hd). split; [|done]. split_and!; [done..|].
    apply timer_slot_put; [done|]. destruct (timer_slot_wf _ Hd) as (_ & _ & _ & _ & ?).
    assert (is_u64 0) by by vm_compute. done.
Qed.
End timer_on_bus.

Arguments timer_tick : simpl never.

(** ** Closed forms of a tick *)

Lemma tick_disabled c n k s l x router :
  has_bits c TIMER_CONTROL_ENABLE = false ->
  timer_tick (mkTimer c n k s l) x router = (mkTimer c n k s l, router).
Proof. intros He. unfold timer_tick. rewrite He. by rewrite orb_true_r. Qed.

Lemma tick_free_running c n s l x router :
  has_bits c TIMER_CONTROL_ENABLE = true -> 0 < x ->
  timer_tick (mkTimer c n 0 s l) x router = (mkTimer c (wrap64 (n + x)) 0 s l, router).
Proof. intros He Hx. unfold timer_tick. by rewrite He, (proj2 (Z.eqb_neq x 0)) by lia. Qed.

(** Where counting resumes: a counter at or past the compare value fires at
    once and restarts from zero. *)
Definition resume_point (n k : Z) : Z := if n <? k then n else 0.
Definition fires (n k x : Z) : bool := (k <=? n) || (k <=? n + x).

Lemma tick_repeat c n k s l x router :
  has_bits c TIMER_CONTROL_ENABLE = true -> has_bits c TIMER_CONTROL_REPEAT = true ->
  is_u64 n -> is_u64 k -> 0 < k -> 0 < x ->
  timer_tick (mkTimer c n k s l) x router =
  (mkTimer c ((resume_point n k + x) mod k) k
     (if fires n k x then Z.lor s TIMER_STATUS_PENDING else s) l,
   if fires n k x && has_bits c TIMER_CONTROL_IRQ_ENABLE then raise_line router l else router).
Proof.
  intros He Hr Hn Hk Hk0 Hx. unfold timer_tick, resume_point, fires.
  rewrite He, Hr, (proj2 (Z.eqb_neq x 0)), (proj2 (Z.eqb_neq k 0)) by lia. cbn [negb orb].
  destruct (Z.ltb_spec n k), (Z.leb_spec k n); try lia; cbn [orb].
  - rewrite (proj2 (Z.eqb_neq (k - n) 0)) by lia. cbn [negb andb].
    destruct (Z.ltb_spec x (k - n)), (Z.leb_spec k (n + x)); try lia; cbn [andb].
    + rewrite wrap64_id, Z.mod_small by (unfold is_u64 in *; lia). done.
    + replace (x - (k - n)) with (n + x + (-1) * k) by lia. by rewrite Z.mod_add by lia.
  - cbn. done.
Qed.

Lemma tick_one_shot c n k s l x router :
  has_bits c TIMER_CONTROL_ENABLE = true -> has_bits c TIMER_CONTROL_REPEAT = false ->
  is_u64 n -> is_u64 k -> 0 < k -> 0 < x ->
  timer_tick (mkTimer c n k s l) x router =
  if fires n k x then
    (mkTimer (Z.land c (not64 TIMER_CONTROL_ENABLE)) k k (Z.lor s TIMER_STATUS_PENDING) l,
     if has_bits c TIMER_CONTROL_IRQ_ENABLE then raise_line router l else router)
  else (mkTimer c (n + x) k s l, router).
Proof.
  intros He Hr Hn Hk Hk0 Hx. unfold timer_tick, fires.
  rewrite He, Hr, (proj2 (Z.eqb_neq x 0)), (proj2 (Z.eqb_neq k 0)) by lia. cbn [negb orb].
  destruct (Z.ltb_spec n k), (Z.leb_spec k n); try lia; cbn [orb]; [|done].
  rewrite (proj2 (Z.eqb_neq (k - n) 0)) by lia. cbn [negb andb].
  destruct (Z.ltb_spec x (k - n)), (Z.leb_spec k (n + x)); try lia; [|done].
  by rewrite wrap64_id by (unfold is_u64 in *; lia).
Qed.

Lemma lor_idem_r s p : Z.lor (Z.lor s p) p = Z.lor s p.
Proof. by rewrite <-Z.lor_assoc, Z.lor_diag. Qed.

Lemma enable_cleared c :
  is_u64 c -> has_bits (Z.land c (not64 TIMER_CONTROL_ENABLE)) TIMER_CONTROL_ENABLE = false.
Proof.
  intros Hc. change TIMER_CONTROL_ENABLE with (bit64 0). rewrite has_bits_bit64 by lia.
  rewrite testbit_clear_bit by (done || lia). by rewrite andb_false_r.
Qed.

(** * Properties *)

(** A timer does not depend on how elapsed time is batched: ticking by
    [a] and then by [b] leaves the same registers as one tick of [a + b], in
    every mode (stopped, free running, one-shot, periodic) and from every
    well-formed state. *)
Theorem timer_tick_additive t a b router router' router'' :
  timer_wf t -> 0 < a -> 0 < b -> is_u64 (a + b) ->
  (timer_tick (timer_tick t a router).1 b router').1 = (timer_tick t (a + b) router'').1.
Proof.
  intros (Hc & Hn & Hk & _) Ha Hb Hab. destruct t as [c n k s l]. simpl in *.
  destruct (has_bits c TIMER_CONTROL_ENABLE) eqn:He.
  2: { rewrite (tick_disabled _ _ _ _ _ a) by done. cbn [fst].
       by rewrite !tick_disabled by done. }
  destruct (decide (k = 0)) as [->|Hk0].
  { rewrite !tick_free_running by (done || lia). cbn [fst].
    rewrite tick_free_running by (done || lia). cbn [fst]. f_equal. zlia. }
  assert (0 < k) by (unfold is_u64 in *; lia).
  destruct (has_bits c TIMER_CONTROL_REPEAT) eqn:Hr.
  - rewrite !tick_repeat by (done || lia). cbn [fst].
    set (n1 := (resume_point n k + a) mod k).
    assert (0 <= n1 < k) as Hn1 by (apply Z.mod_pos_bound; lia).
    rewrite tick_repeat by (done || unfold is_u64 in *; lia). cbn [fst].
    assert (resume_point n1 k = n1) as -> by (unfold resume_point; by rewrite (proj2 (Z.ltb_lt _ _)) by lia).
    f_equal.
    + unfold n1. rewrite Z.add_mod_idemp_l, Z.add_assoc by lia. done.
    + assert (n < k -> n + a < k -> n1 = n + a) as Hsmall.
      { intros. unfold n1, resume_point. rewrite (proj2 (Z.ltb_lt _ _)) by lia.
        apply Z.mod_small. unfold is_u64 in *. lia. }
      unfold fires. destruct (Z.leb_spec k n), (Z.leb_spec k (n + a)), (Z.leb_spec k n1),
        (Z.leb_spec k (n1 + b)), (Z.leb_spec k (n + (a + b))); cbn [orb];
        rewrite ?lor_idem_r; try done; lia.
  - rewrite !tick_one_shot by (done || lia). unfold fires at 1.
    destruct (Z.leb_spec k n), (Z.leb_spec k (n + a)); cbn [orb fst];
      try (rewrite tick_disabled by (by apply enable_cleared); unfold fires;
           rewrite ?(proj2 (Z.leb_le k n)), ?(proj2 (Z.leb_le k (n + (a + b)))), ?orb_true_r by lia;
           done).
    rewrite tick_one_shot by (done || unfold is_u64 in *; lia). unfold fires.
    rewrite (proj2 (Z.leb_gt k n)), (proj2 (Z.leb_gt k (n + a))), Z.add_assoc by lia. cbn [orb].
    by destruct (k <=? n + a + b).
Qed.

Lemma timer_tick_additive_witness :
  (timer_tick (timer_tick (mkTimer 3 90 100 0 0) 25 None).1 180 None).1 =
  (timer_tick (mkTimer 3 90 100 0 0) 205 None).1.
Proof.
  assert (timer_wf (mkTimer 3 90 100 0 0)) as Hwf by by vm_compute.
  assert (is_u64 (25 + 180)) as Hs by by vm_compute.
  exact (timer_tick_additive _ 25 180 None None None Hwf eq_refl eq_refl Hs).
Defined.

(** An enabled periodic timer whose counter is below the compare value
    advances modulo the compare value, sets PENDING exactly when the elapsed
    time reaches it, and raises its line exactly then if IRQs are enabled; an
    enabled one-shot timer counts up to the compare value, stops there with
    PENDING set and its ENABLE bit cleared, and does not fire again. *)
Theorem timer_tick_modes t x router :
  timer_wf t -> has_bits (control t) TIMER_CONTROL_ENABLE = true ->
  counter t < compare t -> 0 < x ->
  let fired := compare t <=? counter t + x in
  let irq := has_bits (control t) TIMER_CONTROL_IRQ_ENABLE in
  let t' := (timer_tick t x router).1 in
  (timer_tick t x router).2 =
    (if fired && irq then raise_line router (interrupt_line t) else router) /\
  status t' = (if fired then Z.lor (status t) TIMER_STATUS_PENDING else status t) /\
  (has_bits (control t) TIMER_CONTROL_REPEAT = true ->
     counter t' = (counter t + x) mod compare t /\ control t' = control t) /\
  (has_bits (control t) TIMER_CONTROL_REPEAT = false ->
     counter t' = Z.min (counter t + x) (compare t) /\
     has_bits (control t') TIMER_CONTROL_ENABLE = negb fired /\
     (fired = true -> forall y router', timer_tick t' y router' = (t', router'))).
Proof.
  intros (Hc & Hn & Hk & _) He Hlt Hx. destruct t as [c n k s l]. simpl in *.
  assert (0 < k) by (unfold is_u64 in *; lia).
  assert (fires n k x = (k <=? n + x)) as Hf.
  { unfold fires. by rewrite (proj2 (Z.leb_gt k n)) by lia. }
  destruct (has_bits c TIMER_CONTROL_REPEAT) eqn:Hr.
  - rewrite tick_repeat, Hf by (done || lia). cbn. unfold resume_point.
    rewrite (proj2 (Z.ltb_lt n k)) by lia. done.
  - rewrite tick_one_shot, Hf by (done || lia).
    destruct (Z.leb_spec k (n + x)); cbn; split_and!; try done.
    + intros _. split_and!; [lia|by apply enable_cleared|]. intros _ y router'.
      apply tick_disabled. by apply enable_cleared.
    + intros _. split_and!; [lia|done|done].
Qed.

Lemma timer_tick_modes_witness :
  counter (timer_tick (mkTimer 3 90 100 0 0) 25 None).1 = 15.
Proof.
  assert (timer_wf (mkTimer 3 90 100 0 0)) as Hwf by by vm_compute.
  destruct (timer_tick_modes (mkTimer 3 90 100 0 0) 25 None Hwf eq_refl eq_refl eq_refl)
    as (_ & _ & H & _).
  apply H. reflexivity.
Defined.
