(* ===== verification/Uart.v ===== *)
(** The UART: src/uart.c, include/uart.h.

    Two rings of bytes between the host and the guest, four registers and an
    interrupt line.  The host is a parameter [W]: the transmit callback is a
    function on it.  The device lock makes each operation atomic; in
    [uart_device_flush_tx] the callback runs between the steps of the loop. *)

From S2P Require Import Prelude Interrupt Ram Bus Ring Timer.
From Stdlib Require Import ZArith Lia Bool.
From stdpp Require Import base list numbers option.

#[local] Open Scope Z_scope.

Definition UART_FIFO_CAPACITY : Z := 256.
Definition UART_DEFAULT_BAUD : Z := 115200.
Definition UART_TXDATA_OFFSET : Z := 0.
Definition UART_RXDATA_OFFSET : Z := 8.
Definition UART_STATUS_OFFSET : Z := 16.
Definition UART_CONTROL_OFFSET : Z := 24.
Definition UART_BAUD_OFFSET : Z := 32.
Definition UART_IRQ_STATUS_OFFSET : Z := 40.
Definition UART_STATUS_RX_READY : Z := Z.shiftl 1 0.
Definition UART_STATUS_TX_READY : Z := Z.shiftl 1 1.
Definition UART_STATUS_RX_OVERRUN : Z := Z.shiftl 1 2.
Definition UART_STATUS_TX_OVERRUN : Z := Z.shiftl 1 3.
Definition UART_STATUS_TX_EMPTY : Z := Z.shiftl 1 4.
Definition UART_CONTROL_ENABLE : Z := Z.shiftl 1 0.
Definition UART_CONTROL_RX_IRQ_ENABLE : Z := Z.shiftl 1 1.
Definition UART_CONTROL_TX_IRQ_ENABLE : Z := Z.shiftl 1 2.
Definition UART_IRQ_RX_PENDING : Z := Z.shiftl 1 0.
Definition UART_IRQ_TX_PENDING : Z := Z.shiftl 1 1.
Definition UART_CONTROL_MASK : Z :=
  Z.lor (Z.lor UART_CONTROL_ENABLE UART_CONTROL_RX_IRQ_ENABLE) UART_CONTROL_TX_IRQ_ENABLE.
Definition UART_ERROR_STATUS_MASK : Z := Z.lor UART_STATUS_RX_OVERRUN UART_STATUS_TX_OVERRUN.
Definition UART_IRQ_STATUS_MASK : Z := Z.lor UART_IRQ_RX_PENDING UART_IRQ_TX_PENDING.

Section uart.
Context {W : Type}.

Record UartDevice := mkUart {
  rx_fifo : list Z;
  tx_fifo : list Z;
  rx_head : Z;
  rx_tail : Z;
  rx_count : Z;
  tx_head : Z;
  tx_tail : Z;
  tx_count : Z;
  u_control : Z;
  u_baud : Z;
  u_error_status : Z;
  u_irq_status : Z;
  u_interrupt_line : Z;
  tx_callback : option (W -> Z -> W);
}.

Definition set_rx (fifo : list Z) (head tail count : Z) (u : UartDevice) : UartDevice :=
  mkUart fifo (tx_fifo u) head tail count (tx_head u) (tx_tail u) (tx_count u) (u_control u) (u_baud u)
    (u_error_status u) (u_irq_status u) (u_interrupt_line u) (tx_callback u).
Definition set_tx (fifo : list Z) (head tail count : Z) (u : UartDevice) : UartDevice :=
  mkUart (rx_fifo u) fifo (rx_head u) (rx_tail u) (rx_count u) head tail count (u_control u) (u_baud u)
    (u_error_status u) (u_irq_status u) (u_interrupt_line u) (tx_callback u).
Definition set_u_control (v : Z) (u : UartDevice) : UartDevice :=
  mkUart (rx_fifo u) (tx_fifo u) (rx_head u) (rx_tail u) (rx_count u) (tx_head u) (tx_tail u) (tx_count u)
    v (u_baud u) (u_error_status u) (u_irq_status u) (u_interrupt_line u) (tx_callback u).
Definition set_u_baud (v : Z) (u : UartDevice) : UartDevice :=
  mkUart (rx_fifo u) (tx_fifo u) (rx_head u) (rx_tail u) (rx_count u) (tx_head u) (tx_tail u) (tx_count u)
    (u_control u) v (u_error_status u) (u_irq_status u) (u_interrupt_line u) (tx_callback u).
Definition set_u_error (v : Z) (u : UartDevice) : UartDevice :=
  mkUart (rx_fifo u) (tx_fifo u) (rx_head u) (rx_tail u) (rx_count u) (tx_head u) (tx_tail u) (tx_count u)
    (u_control u) (u_baud u) v (u_irq_status u) (u_interrupt_line u) (tx_callback u).
Definition set_u_irq (v : Z) (u : UartDevice) : UartDevice :=
  mkUart (rx_fifo u) (tx_fifo u) (rx_head u) (rx_tail u) (rx_count u) (tx_head u) (tx_tail u) (tx_count u)
    (u_control u) (u_baud u) (u_error_status u) v (u_interrupt_line u) (tx_callback u).

Definition uart_enabled (u : UartDevice) : bool := has_bits (u_control u) UART_CONTROL_ENABLE.

Definition uart_status_locked (u : UartDevice) : Z :=
  let status := u_error_status u in
  let status := if negb (rx_count u =? 0) then Z.lor status UART_STATUS_RX_READY else status in
  let status :=
    if uart_enabled u && (tx_count u <? UART_FIFO_CAPACITY) then Z.lor status UART_STATUS_TX_READY
    else status in
  if tx_count u =? 0 then Z.lor status UART_STATUS_TX_EMPTY else status.

Definition uart_read (u : UartDevice) (offset width : Z) : option Z * UartDevice :=
  if (offset =? UART_RXDATA_OFFSET) && (width =? 1) then
    if rx_count u =? 0 then (Some 0, u)
    else
      let value := slot_get (rx_fifo u) (rx_head u) in
      let u := set_rx (rx_fifo u) ((rx_head u + 1) mod UART_FIFO_CAPACITY) (rx_tail u) (rx_count u - 1) u in
      (Some value,
       if rx_count u =? 0 then set_u_irq (Z.land (u_irq_status u) (not64 UART_IRQ_RX_PENDING)) u else u)
  else if negb (width =? 8) then (None, u)
  else if offset =? UART_STATUS_OFFSET then (Some (uart_status_locked u), u)
  else if offset =? UART_CONTROL_OFFSET then (Some (u_control u), u)
  else if offset =? UART_BAUD_OFFSET then (Some (u_baud u), u)
  else if offset =? UART_IRQ_STATUS_OFFSET then (Some (u_irq_status u), u)
  else (None, u).

Definition uart_write (u : UartDevice) (offset width value : Z) : bool * UartDevice :=
  if (offset =? UART_TXDATA_OFFSET) && (width =? 1) then
    (true,
     if uart_enabled u then
       if tx_count u =? UART_FIFO_CAPACITY then
         set_u_error (Z.lor (u_error_status u) UART_STATUS_TX_OVERRUN) u
       else
         set_u_irq (Z.land (u_irq_status u) (not64 UART_IRQ_TX_PENDING))
           (set_tx (slot_set (tx_fifo u) (tx_tail u) (value mod 256)) (tx_head u)
              ((tx_tail u + 1) mod UART_FIFO_CAPACITY) (tx_count u + 1) u)
     else u)
  else if negb (width =? 8) then (false, u)
  else if offset =? UART_STATUS_OFFSET then
    (true, set_u_error (Z.land (u_error_status u) (not64 (Z.land value UART_ERROR_STATUS_MASK))) u)
  else if offset =? UART_CONTROL_OFFSET then (true, set_u_control (Z.land value UART_CONTROL_MASK) u)
  else if offset =? UART_BAUD_OFFSET then (true, set_u_baud value u)
  else if offset =? UART_IRQ_STATUS_OFFSET then
    (true, set_u_irq (Z.land (u_irq_status u) (not64 (Z.land value UART_IRQ_STATUS_MASK))) u)
  else (false, u).

(** The [for (;;)] of [uart_device_flush_tx]: every pass takes a byte from the
    queue, so its length bounds the passes. *)
Fixpoint flush_loop (fuel : nat) (u : UartDevice) (host : W) (delivered : Z) : Z * UartDevice * W :=
  match tx_callback u with
  | None => (delivered, u, host)
  | Some callback =>
      if tx_count u =? 0 then (delivered, u, host)
      else match fuel with
      | O => (delivered, u, host)
      | S fuel =>
          let value := slot_get (tx_fifo u) (tx_head u) in
          let u := set_tx (tx_fifo u) ((tx_head u + 1) mod UART_FIFO_CAPACITY) (tx_tail u) (tx_count u - 1) u in
          let u := if tx_count u =? 0 then set_u_irq (Z.lor (u_irq_status u) UART_IRQ_TX_PENDING) u else u in
          flush_loop fuel u (callback host value) (delivered + 1)
      end
  end.

Definition uart_device_flush_tx (u : UartDevice) (host : W) : Z * UartDevice * W :=
  flush_loop (Z.to_nat (tx_count u)) u host 0.

Definition uart_tick (u : UartDevice) (host : W) (ticks : Z) (router : option InterruptRouter) :
    UartDevice * W * option InterruptRouter :=
  if ticks =? 0 then (u, host, router)
  else
    let enabled := uart_enabled u in
    let '(u, host) := if enabled then let '(_, u, host) := uart_device_flush_tx u host in (u, host) else (u, host) in
    let u := if enabled && negb (rx_count u =? 0) then set_u_irq (Z.lor (u_irq_status u) UART_IRQ_RX_PENDING) u else u in
    let enabled_pending := Z.land (u_irq_status u)
      (Z.lor (if has_bits (u_control u) UART_CONTROL_RX_IRQ_ENABLE then UART_IRQ_RX_PENDING else 0)
             (if has_bits (u_control u) UART_CONTROL_TX_IRQ_ENABLE then UART_IRQ_TX_PENDING else 0)) in
    (u, host, if enabled && negb (enabled_pending =? 0) then raise_line router (u_interrupt_line u) else router).

Definition uart_device_init (line : Z) : option UartDevice :=
  if INTERRUPT_LINE_COUNT <=? line then None
  else
    let zeros := replicate (Z.to_nat UART_FIFO_CAPACITY) 0 in
    Some (mkUart zeros zeros 0 0 0 0 0 0 0 UART_DEFAULT_BAUD 0 0 line None).

Definition uart_reset (u : UartDevice) : UartDevice :=
  mkUart (rx_fifo u) (tx_fifo u) 0 0 0 0 0 0 0 UART_DEFAULT_BAUD 0 0 (u_interrupt_line u) (tx_callback u).

Definition uart_device_set_tx_callback (callback : option (W -> Z -> W)) (u : UartDevice) : UartDevice :=
  mkUart (rx_fifo u) (tx_fifo u) (rx_head u) (rx_tail u) (rx_count u) (tx_head u) (tx_tail u) (tx_count u)
    (u_control u) (u_baud u) (u_error_status u) (u_irq_status u) (u_interrupt_line u) callback.

Definition uart_device_receive_byte (u : UartDevice) (value : Z) : bool * UartDevice :=
  if negb (uart_enabled u) then (false, u)
  else if rx_count u =? UART_FIFO_CAPACITY then
    (false, set_u_irq (Z.lor (u_irq_status u) UART_IRQ_RX_PENDING)
              (set_u_error (Z.lor (u_error_status u) UART_STATUS_RX_OVERRUN) u))
  else
    (true, set_u_irq (Z.lor (u_irq_status u) UART_IRQ_RX_PENDING)
             (set_rx (slot_set (rx_fifo u) (rx_tail u) value) (rx_head u)
                ((rx_tail u + 1) mod UART_FIFO_CAPACITY) (rx_count u + 1) u)).

(** [while (accepted < size && uart_device_receive_byte(...)) ++accepted;] *)
Fixpoint uart_device_receive (u : UartDevice) (data : list Z) (accepted : Z) : Z * UartDevice :=
  match data with
  | [] => (accepted, u)
  | value :: data =>
      let '(ok, u) := uart_device_receive_byte u value in
      if ok then uart_device_receive u data (accepted + 1) else (accepted, u)
  end.

(** ** The queues *)

Definition rx_queue (u : UartDevice) : list Z := ring (rx_fifo u) (rx_head u) (rx_count u).
Definition tx_queue (u : UartDevice) : list Z := ring (tx_fifo u) (tx_head u) (tx_count u).

Record uart_wf (u : UartDevice) : Prop := {
  uart_rx : ring_ok (rx_fifo u) (rx_head u) (rx_count u);
  uart_tx : ring_ok (tx_fifo u) (tx_head u) (tx_count u);
  uart_rx_capacity : capacity (rx_fifo u) = UART_FIFO_CAPACITY;
  uart_tx_capacity : capacity (tx_fifo u) = UART_FIFO_CAPACITY;
  uart_rx_tail : rx_tail u = (rx_head u + rx_count u) mod UART_FIFO_CAPACITY;
  uart_tx_tail : tx_tail u = (tx_head u + tx_count u) mod UART_FIFO_CAPACITY;
  uart_rx_bytes : Forall is_u8 (rx_fifo u);
  uart_tx_bytes : Forall is_u8 (tx_fifo u);
  uart_registers : is_u64 (u_control u) /\ is_u64 (u_baud u) /\ is_u64 (u_error_status u) /\ is_u64 (u_irq_status u);
  uart_line : 0 <= u_interrupt_line u < INTERRUPT_LINE_COUNT;
}.

Lemma tail_after_pop c h n : 0 <= h < c -> 0 < n <= c -> ((h + 1) mod c + (n - 1)) mod c = (h + n) mod c.
Proof. intros Hh Hn. rewrite Z.add_mod_idemp_l by lia. f_equal. lia. Qed.

Lemma tail_after_push c t n h : 0 < c -> t = (h + n) mod c -> (t + 1) mod c = (h + (n + 1)) mod c.
Proof. intros Hc ->. rewrite Z.add_mod_idemp_l by lia. f_equal. lia. Qed.

Lemma slot_set_bytes slots i v : Forall is_u8 slots -> is_u8 v -> Forall is_u8 (slot_set slots i v).
Proof. intros Hs Hv. unfold slot_set. by apply Forall_insert. Qed.

Lemma slot_get_u8 slots i : Forall is_u8 slots -> 0 <= i < capacity slots -> is_u8 (slot_get slots i).
Proof.
  unfold capacity, slot_get. intros Hs Hi. apply (proj1 (list.Forall_forall _ _) Hs).
  apply list_elem_of_lookup_total_2. lia.
Qed.

Lemma uart_wf_irq u v : uart_wf u -> is_u64 v -> uart_wf (set_u_irq v u).
Proof. intros [H1 H2 H3 H4 H5 H6 H7 H8 (? & ? & ? & ?) ?] Hv. by split. Qed.

Lemma uart_wf_error u v : uart_wf u -> is_u64 v -> uart_wf (set_u_error v u).
Proof. intros [H1 H2 H3 H4 H5 H6 H7 H8 (? & ? & ? & ?) ?] Hv. by split. Qed.

Lemma uart_irq_u64 u : uart_wf u -> is_u64 (u_irq_status u).
Proof. intros H. apply (uart_registers _ H). Qed.

Lemma uart_error_u64 u : uart_wf u -> is_u64 (u_error_status u).
Proof. intros H. apply (uart_registers _ H). Qed.

(** Appending to the receive and to the transmit queue. *)
Lemma rx_push_spec u v :
  uart_wf u -> is_u8 v -> rx_count u < UART_FIFO_CAPACITY ->
  let u' := set_rx (slot_set (rx_fifo u) (rx_tail u) v) (rx_head u)
              ((rx_tail u + 1) mod UART_FIFO_CAPACITY) (rx_count u + 1) u in
  uart_wf u' /\ rx_queue u' = rx_queue u ++ [v].
Proof.
  intros [H1 H2 H3 H4 H5 H6 H7 H8 H9 H10] Hv Hlt u'.
  destruct (ring_push_store (rx_fifo u) (rx_head u) (rx_count u) v H1) as [Hq Hok]; [lia|].
  rewrite H3, <- H5 in Hq, Hok. split; [|exact Hq]. split; try done; cbn.
  - by rewrite capacity_set.
  - apply tail_after_push; [done|]. exact H5.
  - by apply slot_set_bytes.
Qed.

Lemma tx_push_spec u v :
  uart_wf u -> is_u8 v -> tx_count u < UART_FIFO_CAPACITY ->
  let u' := set_tx (slot_set (tx_fifo u) (tx_tail u) v) (tx_head u)
              ((tx_tail u + 1) mod UART_FIFO_CAPACITY) (tx_count u + 1) u in
  uart_wf u' /\ tx_queue u' = tx_queue u ++ [v].
Proof.
  intros [H1 H2 H3 H4 H5 H6 H7 H8 H9 H10] Hv Hlt u'.
  destruct (ring_push_store (tx_fifo u) (tx_head u) (tx_count u) v H2) as [Hq Hok]; [lia|].
  rewrite H4, <- H6 in Hq, Hok. split; [|exact Hq]. split; try done; cbn.
  - by rewrite capacity_set.
  - apply tail_after_push; [done|]. exact H6.
  - by apply slot_set_bytes.
Qed.

(** Taking the oldest byte. *)
Lemma rx_pop_spec u :
  uart_wf u -> rx_count u <> 0 ->
  let u' := set_rx (rx_fifo u) ((rx_head u + 1) mod UART_FIFO_CAPACITY) (rx_tail u) (rx_count u - 1) u in
  uart_wf u' /\ rx_queue u = slot_get (rx_fifo u) (rx_head u) :: rx_queue u' /\ is_u8 (slot_get (rx_fifo u) (rx_head u)).
Proof.
  intros [H1 H2 H3 H4 H5 H6 H7 H8 H9 H10] Hne u'. pose proof H1 as [Hh Hc]. rewrite H3 in Hh, Hc.
  destruct (ring_pop_head (rx_fifo u) (rx_head u) (rx_count u) H1) as [Hq Hok]; [lia|].
  rewrite H3 in Hq, Hok. split_and!; [|exact Hq|apply slot_get_u8; [done|by rewrite H3]..].
  split; try done; cbn. rewrite H5. symmetry. apply tail_after_pop; lia.
Qed.

Lemma tx_pop_spec u :
  uart_wf u -> tx_count u <> 0 ->
  let u' := set_tx (tx_fifo u) ((tx_head u + 1) mod UART_FIFO_CAPACITY) (tx_tail u) (tx_count u - 1) u in
  uart_wf u' /\ tx_queue u = slot_get (tx_fifo u) (tx_head u) :: tx_queue u'.
Proof.
  intros [H1 H2 H3 H4 H5 H6 H7 H8 H9 H10] Hne u'. pose proof H2 as [Hh Hc]. rewrite H4 in Hh, Hc.
  destruct (ring_pop_head (tx_fifo u) (tx_head u) (tx_count u) H2) as [Hq Hok]; [lia|].
  rewrite H4 in Hq, Hok. split; [|exact Hq].
  split; try done; cbn. rewrite H6. symmetry. apply tail_after_pop; lia.
Qed.

Lemma rx_count_queue u : uart_wf u -> Z.of_nat (length (rx_queue u)) = rx_count u.
Proof. intros [[_ Hc] _ _ _ _ _ _ _ _ _]. apply length_ring. lia. Qed.

Lemma tx_count_queue u : uart_wf u -> Z.of_nat (length (tx_queue u)) = tx_count u.
Proof. intros [_ [_ Hc] _ _ _ _ _ _ _ _]. apply length_ring. lia. Qed.

(** What the operations of one direction leave alone. *)
Definition same_rx (u u' : UartDevice) : Prop :=
  rx_queue u' = rx_queue u /\ u_control u' = u_control u /\ tx_callback u' = tx_callback u /\
  u_interrupt_line u' = u_interrupt_line u /\ u_baud u' = u_baud u.
Definition same_tx (u u' : UartDevice) : Prop :=
  tx_queue u' = tx_queue u /\ u_control u' = u_control u /\ tx_callback u' = tx_callback u /\
  u_interrupt_line u' = u_interrupt_line u /\ u_baud u' = u_baud u.

#[export] Instance same_rx_preorder : PreOrder same_rx.
Proof. split; [done|]. intros u1 u2 u3 (? & ? & ? & ? & ?) (? & ? & ? & ? & ?). unfold same_rx. split_and!; congruence. Qed.

Lemma receive_byte_spec u v :
  uart_wf u -> is_u8 v ->
  let result := uart_device_receive_byte u v in
  uart_wf result.2 /\ same_tx u result.2 /\
  if result.1 then uart_enabled u = true /\ rx_queue result.2 = rx_queue u ++ [v]
  else rx_queue result.2 = rx_queue u /\
    (uart_enabled u = false \/
     Z.of_nat (length (rx_queue u)) = UART_FIFO_CAPACITY /\ has_bits (u_error_status result.2) UART_STATUS_RX_OVERRUN = true).
Proof.
  intros Hwf Hv. pose proof (uart_irq_u64 _ Hwf). pose proof (uart_error_u64 _ Hwf).
  assert (is_u64 UART_IRQ_RX_PENDING /\ is_u64 UART_STATUS_RX_OVERRUN) as [? ?] by done.
  unfold uart_device_receive_byte. destruct (uart_enabled u) eqn:He; cbn [negb].
  2:{ cbn. split_and!; try done. by left. }
  destruct (Z.eqb_spec (rx_count u) UART_FIFO_CAPACITY) as [Hfull|Hn]; cbn [fst snd].
  - split_and!; try done.
    + apply uart_wf_irq; [by apply uart_wf_error; auto with u64|]. cbn. auto with u64.
    + right. rewrite rx_count_queue by done. split; [done|]. cbn.
      unfold has_bits. rewrite Z.land_lor_distr_l. apply negb_true_iff, Z.eqb_neq.
      intros Hz%Z.lor_eq_0_iff. destruct Hz as [_ Hz]. by vm_compute in Hz.
  - destruct (rx_push_spec u v Hwf Hv) as [Hwf' Hq].
    { pose proof (ring_count _ _ _ (uart_rx _ Hwf)). rewrite (uart_rx_capacity _ Hwf) in *. lia. }
    split_and!; try done. apply uart_wf_irq; [done|]. cbn. auto with u64.
Qed.

Lemma read_rx_spec u :
  uart_wf u ->
  match rx_queue u with
  | [] => uart_read u UART_RXDATA_OFFSET 1 = (Some 0, u)
  | v :: q => exists u', uart_read u UART_RXDATA_OFFSET 1 = (Some v, u') /\ uart_wf u' /\ rx_queue u' = q /\ same_tx u u' /\ is_u8 v
  end.
Proof.
  intros Hwf. unfold uart_read. cbn [Z.eqb andb]. change (UART_RXDATA_OFFSET =? UART_RXDATA_OFFSET) with true.
  change (1 =? 1) with true. cbn [andb]. pose proof (rx_count_queue _ Hwf) as Hc.
  destruct (Z.eqb_spec (rx_count u) 0) as [H0|Hne].
  - destruct (rx_queue u); [done|]. cbn in Hc. lia.
  - destruct (rx_pop_spec u Hwf Hne) as (Hwf' & Hq & H8). rewrite Hq. cbv zeta.
    destruct (_ =? 0); (eexists; split; [reflexivity|]); split_and!; try done.
    apply uart_wf_irq; [done|]. apply land_u64; [by apply uart_irq_u64|done].
Qed.

Lemma write_tx_spec u v :
  uart_wf u ->
  let result := uart_write u UART_TXDATA_OFFSET 1 v in
  result.1 = true /\ uart_wf result.2 /\ same_rx u result.2 /\
  (uart_enabled u = true -> Z.of_nat (length (tx_queue u)) < UART_FIFO_CAPACITY ->
    tx_queue result.2 = tx_queue u ++ [v mod 256]) /\
  (uart_enabled u = false \/ Z.of_nat (length (tx_queue u)) = UART_FIFO_CAPACITY -> tx_queue result.2 = tx_queue u).
Proof.
  intros Hwf. pose proof (uart_irq_u64 _ Hwf). pose proof (uart_error_u64 _ Hwf).
  assert (is_u64 UART_STATUS_TX_OVERRUN) by done. rewrite tx_count_queue by done.
  unfold uart_write. change ((UART_TXDATA_OFFSET =? UART_TXDATA_OFFSET) && (1 =? 1)) with true. cbv iota.
  destruct (uart_enabled u) eqn:He; cbn [fst snd]; [|by split_and!].
  destruct (Z.eqb_spec (tx_count u) UART_FIFO_CAPACITY) as [Hfull|Hn].
  - split_and!; try done; [apply uart_wf_error; auto with u64|]. intros _. lia.
  - destruct (tx_push_spec u (v mod 256) Hwf) as [Hwf' Hq].
    { unfold is_u8. apply Z.mod_pos_bound. lia. }
    { pose proof (ring_count _ _ _ (uart_tx _ Hwf)). rewrite (uart_tx_capacity _ Hwf) in *. lia. }
    split_and!; try done; [|intros [?|?]; [done|lia]].
    apply uart_wf_irq; [done|]. apply land_u64; done.
Qed.

(** The loop of [uart_device_flush_tx] hands the whole queue to the host. *)
Lemma flush_loop_spec u host callback n :
  uart_wf u -> tx_callback u = Some callback ->
  exists u', flush_loop (Z.to_nat (tx_count u)) u host n =
    (n + Z.of_nat (length (tx_queue u)), u', fold_left callback (tx_queue u) host) /\
    uart_wf u' /\ tx_queue u' = [] /\ same_rx u u' /\ rx_count u' = rx_count u /\
    (u_irq_status u' = if tx_count u =? 0 then u_irq_status u else Z.lor (u_irq_status u) UART_IRQ_TX_PENDING).
Proof.
  remember (tx_queue u) as q eqn:Hq. revert u host n Hq.
  induction q as [|v q IH]; intros u host n Hq Hwf Hcb; pose proof (tx_count_queue _ Hwf) as Hc; rewrite <- Hq in Hc; cbn in Hc.
  - rewrite <- Hc. change (Z.to_nat (Z.of_nat 0)) with O. cbn [flush_loop length fold_left]. rewrite Hcb, <- Hc. exists u.
    change (Z.of_nat 0) with 0. rewrite Z.add_0_r. by split_and!.
  - assert (tx_count u <> 0) as Hne by lia. destruct (tx_pop_spec u Hwf Hne) as [Hwf1 Hq1].
    rewrite <- Hq in Hq1. injection Hq1 as Hv Hrest.
    set (u1 := set_tx _ _ _ _ u) in *.
    replace (Z.to_nat (tx_count u)) with (S (length q)) by lia. cbn [flush_loop]. rewrite Hcb.
    rewrite (proj2 (Z.eqb_neq _ 0) Hne). cbv zeta. fold u1. rewrite <- Hv.
    set (u2 := if tx_count u1 =? 0 then set_u_irq (Z.lor (u_irq_status u1) UART_IRQ_TX_PENDING) u1 else u1).
    assert (uart_wf u2 /\ tx_queue u2 = q /\ tx_callback u2 = Some callback /\ same_rx u1 u2 /\ rx_count u2 = rx_count u1 /\
      tx_count u2 = tx_count u1 /\ tx_count u1 = Z.of_nat (length q)) as (Hwf2 & Hq2 & Hcb2 & Hs2 & Hr2 & Ht2 & Hn).
    { unfold u2. assert (tx_count u1 = Z.of_nat (length q)) as Hn by (cbn; lia).
      destruct (_ =? 0); split_and!; try done. apply uart_wf_irq; [done|].
      apply lor_u64; [by apply uart_irq_u64|done]. }
    destruct (IH u2 (callback host v) (n + 1) (eq_sym Hq2) Hwf2 Hcb2) as (u' & Hrun & Hwf' & He & Hs & Hr & Hi).
    rewrite Ht2, Hn, Nat2Z.id in Hrun. rewrite Hrun. exists u'. split; [f_equal; f_equal; cbn [length]; lia|].
    refine (conj Hwf' (conj He (conj _ (conj _ _)))).
    + transitivity u2; [|done]. by transitivity u1.
    + by rewrite Hr, Hr2.
    + rewrite Hi, Ht2. unfold u2. by destruct (tx_count u1 =? 0).
Qed.

Lemma flush_spec u host :
  uart_wf u ->
  exists u', uart_wf u' /\ same_rx u u' /\ rx_count u' = rx_count u /\
  match tx_callback u with
  | None => uart_device_flush_tx u host = (0, u, host) /\ u' = u
  | Some callback => uart_device_flush_tx u host =
      (Z.of_nat (length (tx_queue u)), u', fold_left callback (tx_queue u) host) /\ tx_queue u' = []
  end.
Proof.
  intros Hwf. unfold uart_device_flush_tx. destruct (tx_callback u) as [callback|] eqn:Hcb.
  - destruct (flush_loop_spec u host callback 0 Hwf Hcb) as (u' & Hrun & Hwf' & Hq & Hs & Hr & _).
    exists u'. by rewrite Hrun.
  - exists u. split_and!; try done. destruct (Z.to_nat _); cbn; by rewrite Hcb.
Qed.

Lemma uart_tick_spec u host ticks router :
  uart_wf u ->
  let result := uart_tick u host ticks router in
  uart_wf result.1.1 /\ rx_queue result.1.1 = rx_queue u /\ u_control result.1.1 = u_control u /\
  u_interrupt_line result.1.1 = u_interrupt_line u /\
  (result.2 = router \/ result.2 = raise_line router (u_interrupt_line u)) /\
  forall callback, 0 < ticks -> uart_enabled u = true -> tx_callback u = Some callback ->
    tx_queue result.1.1 = [] /\ result.1.2 = fold_left callback (tx_queue u) host.
Proof.
  intros Hwf. unfold uart_tick. destruct (Z.eqb_spec ticks 0) as [->|Ht]; cbn [fst snd].
  { split_and!; try done; by left. }
  destruct (flush_spec u host Hwf) as (u1 & Hwf1 & Hs & Hr & Hrun).
  assert (exists u2 host2, (if uart_enabled u then let '(_, v, w) := uart_device_flush_tx u host in (v, w) else (u, host)) = (u2, host2) /\
    uart_wf u2 /\ same_rx u u2 /\
    forall callback, uart_enabled u = true -> tx_callback u = Some callback ->
      tx_queue u2 = [] /\ host2 = fold_left callback (tx_queue u) host) as (u2 & host2 & Hflush & Hwf2 & Hs2 & Hdel).
  { destruct (uart_enabled u); [|by exists u, host]. destruct (tx_callback u) as [callback|] eqn:Hcb.
    - destruct Hrun as [Hrun Hq]. exists u1, (fold_left callback (tx_queue u) host). rewrite Hrun. split_and!; try done; try apply Hs.
      intros cb _ [= <-]. done.
    - destruct Hrun as [Hrun ->]. exists u, host. rewrite Hrun. by split_and!. }
  rewrite Hflush. set (u3 := if uart_enabled u && negb (rx_count u2 =? 0) then _ else u2).
  assert (uart_wf u3 /\ tx_queue u3 = tx_queue u2 /\ rx_queue u3 = rx_queue u2 /\ u_control u3 = u_control u2 /\
    u_interrupt_line u3 = u_interrupt_line u2) as (Hwf3 & H1 & H2 & H3 & H4).
  { unfold u3. destruct (_ && _); [|done]. split_and!; try done. apply uart_wf_irq; [done|].
    apply lor_u64; [by apply uart_irq_u64|done]. }
  destruct Hs2 as (S1 & S2 & S3 & S4 & S5). cbn [fst snd]. split_and!; try congruence; try done.
  - rewrite H4, S4. match goal with |- context [if ?c then _ else _] => destruct c end; [by right|by left].
  - intros callback _ He Hcb. rewrite H1. by apply Hdel.
Qed.

(** Every access of the guest keeps the device well formed. *)
Lemma uart_read_wf u off w :
  uart_wf u -> uart_wf (uart_read u off w).2 /\ forall v, (uart_read u off w).1 = Some v -> is_u64 v.
Proof.
  intros Hwf. pose proof (uart_registers _ Hwf) as (? & ? & ? & ?).
  destruct (decide (off = UART_RXDATA_OFFSET /\ w = 1)) as [[-> ->]|Hne].
  - pose proof (read_rx_spec u Hwf) as Hread. destruct (rx_queue u).
    + rewrite Hread. split; [done|]. by intros v [= <-].
    + destruct Hread as (u' & -> & Hwf' & _ & _ & H8). split; [done|]. intros v [= <-]. by apply u8_u64.
  - unfold uart_read. replace ((off =? UART_RXDATA_OFFSET) && (w =? 1)) with false.
    2:{ symmetry. apply andb_false_iff. destruct (Z.eqb_spec off UART_RXDATA_OFFSET), (Z.eqb_spec w 1); tauto. }
    repeat case_match; (split; [done|]); try done; intros v [= <-]; try done.
    assert (forall b, is_u64 (Z.shiftl 1 b) -> forall s, is_u64 s -> is_u64 (Z.lor s (Z.shiftl 1 b))) as Hor
      by (intros; by apply lor_u64).
    unfold uart_status_locked. repeat case_match; repeat (apply Hor; [done|]); done.
Qed.

Lemma uart_write_wf u off w v : uart_wf u -> is_u64 v -> uart_wf (uart_write u off w v).2.
Proof.
  intros Hwf Hv. pose proof Hwf as [H1 H2 H3 H4 H5 H6 H7 H8 (H9 & H10 & H11 & H12) H13].
  destruct (decide (off = UART_TXDATA_OFFSET /\ w = 1)) as [[-> ->]|Hne]; [by apply write_tx_spec|].
  unfold uart_write. replace ((off =? UART_TXDATA_OFFSET) && (w =? 1)) with false.
  2:{ symmetry. apply andb_false_iff. destruct (Z.eqb_spec off UART_TXDATA_OFFSET), (Z.eqb_spec w 1); tauto. }
  assert (is_u64 UART_CONTROL_MASK) by done.
  repeat case_match; cbn [snd]; try done;
    (split; try done; cbn; split_and!; try done; auto with u64).
Qed.

Lemma uart_reset_wf u : uart_wf u -> uart_wf (uart_reset u).
Proof.
  intros [H1 H2 H3 H4 H5 H6 H7 H8 (H9 & H10 & H11 & H12) H13].
  split; try done; cbn; split; rewrite ?H3, ?H4; unfold UART_FIFO_CAPACITY; lia.
Qed.

Lemma uart_init_wf line u : 0 <= line -> uart_device_init line = Some u -> uart_wf u.
Proof.
  unfold uart_device_init. intros Hl. destruct (Z.leb_spec INTERRUPT_LINE_COUNT line); [done|]. intros [= <-].
  assert (Forall is_u8 (replicate (Z.to_nat UART_FIFO_CAPACITY) 0)) as Hz by by apply Forall_replicate.
  assert (capacity (replicate (Z.to_nat UART_FIFO_CAPACITY) 0) = UART_FIFO_CAPACITY) as Hc.
  { unfold capacity. by rewrite length_replicate. }
  split; try done; cbn [rx_fifo tx_fifo rx_head rx_count tx_head tx_count]; split; rewrite Hc; unfold UART_FIFO_CAPACITY; lia.
Qed.

End uart.

Arguments UartDevice : clear implicits.

(** ** On the bus *)

(** A place in the device contexts that holds a UART, and the host behind it. *)
Class UartSlot (W D : Type) := {
  get_uart : D -> UartDevice W;
  put_uart : UartDevice W -> D -> D;
  get_host : D -> W;
  put_host : W -> D -> D
}.

Definition uart_device_as_bus_device `{UartSlot W D} : BusDevice D := {|
  dev_read := Some (fun w offset width =>
    let '(value, u) := uart_read (get_uart (w_dev w)) offset width in
    (value, set_w_dev (put_uart u (w_dev w)) w));
  dev_write := Some (fun w offset width value =>
    let '(ok, u) := uart_write (get_uart (w_dev w)) offset width value in
    (ok, set_w_dev (put_uart u (w_dev w)) w));
  dev_tick := Some (fun w ticks =>
    let '(u, host, router) := uart_tick (get_uart (w_dev w)) (get_host (w_dev w)) ticks (w_router w) in
    set_w_router router (set_w_dev (put_host host (put_uart u (w_dev w))) w));
  dev_reset := Some (fun w => set_w_dev (put_uart (uart_reset (get_uart (w_dev w))) (w_dev w)) w)
|}.

Class UartSlotLaws (W D : Type) `{DevInv D, UartSlot W D} : Prop := {
  uart_slot_wf d : dev_inv d -> uart_wf (get_uart d);
  uart_slot_put d u : dev_inv d -> uart_wf u -> dev_inv (put_uart u d);
  uart_host_put d host : dev_inv d -> dev_inv (put_host host d)
}.

Section uart_on_bus.
Context {W D : Type} {DI : DevInv D} {US : UartSlot W D} {UL : UartSlotLaws W D}.

#[export] Instance uart_device_laws : DeviceLaws (uart_device_as_bus_device (W:=W) (D:=D)).
Proof.
  split.
  - intros f w off width [= <-] (Hr & Hq & Hd) Hoff.
    destruct (uart_read_wf (get_uart (w_dev w)) off width (uart_slot_wf _ Hd)) as [Hwf Hv].
    destruct (uart_read _ _ _) as [value u]. cbn in *.
    split; [split; [split_and!; [done..|by apply uart_slot_put]|done]|done].
  - intros f w off width v [= <-] (Hr & Hq & Hd) Hoff Hv _.
    pose proof (uart_write_wf (get_uart (w_dev w)) off width v (uart_slot_wf _ Hd) Hv).
    destruct (uart_write _ _ _ _) as [ok u]. simpl in *.
    split; [split_and!; [done..|by apply uart_slot_put]|done].
  - intros f w ticks [= <-] Ht (Hr & Hq & Hd).
    pose proof (uart_tick_spec (get_uart (w_dev w)) (get_host (w_dev w)) ticks (w_router w) (uart_slot_wf _ Hd))
      as (Hwf & _ & _ & Hline & Hrouter & _).
    destruct (uart_tick _ _ _ _) as [[u host] router]. cbn [fst snd] in *.
    split; [|done]. split_and!; [done| |by apply uart_host_put, uart_slot_put].
    cbn. intros r Er. destruct Hrouter as [->|Hraise]; [by apply Hq|]. rewrite Er in Hraise.
    eapply raise_line_inv; [exact Hq| |by symmetry].
    pose proof (uart_line _ (uart_slot_wf _ Hd)). lia.
  - intros f w [= <-] (Hr & Hq & Hd). split; [|done]. split_and!; [done..|].
    apply uart_slot_put; [done|]. by apply uart_reset_wf, uart_slot_wf.
Qed.
End uart_on_bus.

(** ** Streams *)

(** Successive reads of the receive register. *)
Fixpoint read_rx {W} (n : nat) (u : UartDevice W) : list (option Z) * UartDevice W :=
  match n with
  | O => ([], u)
  | S n =>
      let '(value, u) := uart_read u UART_RXDATA_OFFSET 1 in
      let '(values, u) := read_rx n u in (value :: values, u)
  end.

(** Successive writes of the transmit register. *)
Definition write_tx {W} (data : list Z) (u : UartDevice W) : UartDevice W :=
  fold_left (fun u v => (uart_write u UART_TXDATA_OFFSET 1 v).2) data u.

Lemma read_rx_queue {W} (u : UartDevice W) q rest :
  uart_wf u -> rx_queue u = q ++ rest ->
  exists u', read_rx (length q) u = (Some <$> q, u') /\ uart_wf u' /\ rx_queue u' = rest.
Proof.
  revert u. induction q as [|v q IH]; intros u Hwf Hq; [by exists u|].
  pose proof (read_rx_spec u Hwf) as Hread. rewrite Hq in Hread. cbn [app] in Hread.
  destruct Hread as (u1 & Hrun & Hwf1 & Hq1 & _ & _).
  destruct (IH u1 Hwf1 Hq1) as (u' & Hrun' & Hwf' & Hq'). exists u'. cbn [read_rx length].
  rewrite Hrun, Hrun'. done.
Qed.

Lemma receive_spec {W} (u : UartDevice W) data n :
  uart_wf u -> Forall is_u8 data -> uart_enabled u = true ->
  exists taken u', uart_device_receive u data n = (n + Z.of_nat taken, u') /\ uart_wf u' /\
    rx_queue u' = rx_queue u ++ take taken data /\ tx_queue u' = tx_queue u /\ uart_enabled u' = true /\
    taken = Nat.min (length data) (Z.to_nat (UART_FIFO_CAPACITY - Z.of_nat (length (rx_queue u)))).
Proof.
  revert u n. induction data as [|v data IH]; intros u n Hwf Hd He.
  { exists 0%nat, u. cbn. rewrite app_nil_r, Z.add_0_r. done. }
  apply Forall_cons_1 in Hd as [Hv Hd]. pose proof (receive_byte_spec u v Hwf Hv) as (Hwf1 & (Ht & Hc & _) & Hres).
  cbn [uart_device_receive]. destruct (uart_device_receive_byte u v) as [ok u1]. cbn [fst snd] in *.
  assert (uart_enabled u1 = true) as He1 by (unfold uart_enabled in *; congruence).
  pose proof (rx_count_queue _ Hwf1) as Hn1. pose proof (ring_count _ _ _ (uart_rx _ Hwf1)) as Hcap1.
  rewrite (uart_rx_capacity _ Hwf1) in Hcap1. destruct ok.
  - destruct Hres as [_ Hq]. destruct (IH u1 (n + 1) Hwf1 Hd He1) as (k & u' & -> & Hwf' & Hq' & Ht' & He' & ->).
    exists (S (Nat.min (length data) (Z.to_nat (UART_FIFO_CAPACITY - Z.of_nat (length (rx_queue u1)))))), u'.
    split_and!; try done.
    + f_equal. lia.
    + rewrite Hq', Hq, <- app_assoc. done.
    + congruence.
    + rewrite Hq, length_app in *. cbn [length] in *. lia.
  - destruct Hres as [Hq [Hf|[Hfull _]]]; [congruence|]. exists 0%nat, u1. rewrite Z.add_0_r, app_nil_r.
    split_and!; try done. rewrite Hfull. lia.
Qed.

Lemma write_tx_queue {W} (u : UartDevice W) data :
  uart_wf u -> uart_enabled u = true ->
  Z.of_nat (length (tx_queue u)) + Z.of_nat (length data) <= UART_FIFO_CAPACITY ->
  uart_wf (write_tx data u) /\ tx_queue (write_tx data u) = tx_queue u ++ ((fun v => v mod 256) <$> data) /\
  same_rx u (write_tx data u).
Proof.
  unfold write_tx. revert u. induction data as [|v data IH]; intros u Hwf He Hfit.
  { cbn. by rewrite app_nil_r. }
  destruct (write_tx_spec u v Hwf) as (_ & Hwf1 & Hs & Hpush & _). cbn [fold_left length] in *.
  set (u1 := (uart_write u UART_TXDATA_OFFSET 1 v).2) in *. specialize (Hpush He ltac:(lia)).
  destruct (IH u1 Hwf1) as (Hwf' & Hq & Hs').
  - destruct Hs as (_ & Hc & _). unfold uart_enabled in *. congruence.
  - rewrite Hpush, length_app. cbn. lia.
  - split; [done|]. split; [|by transitivity u1]. rewrite Hq, Hpush, <- app_assoc. done.
Qed.

(** * Properties *)

(** A UART that is enabled, with a host that records what it is sent. *)
Definition demo_uart : UartDevice (list Z) :=
  set_u_control UART_CONTROL_ENABLE
    (uart_device_set_tx_callback (Some (fun sent v => sent ++ [v]))
       (default (mkUart [] [] 0 0 0 0 0 0 0 0 0 0 0 None) (uart_device_init 4))).

Lemma demo_uart_wf : uart_wf demo_uart.
Proof.
  destruct (uart_init_wf (W := list Z) 4 _ ltac:(lia) eq_refl) as [H1 H2 H3 H4 H5 H6 H7 H8 (H9 & H10 & H11 & H12) H13].
  by split.
Qed.

(** C40: nothing is lost, duplicated or reordered between host and guest.  What
    the host sends to an enabled UART is accepted up to the room left in the
    receive queue, and the guest's reads return exactly the accepted bytes, in
    order, behind those already queued; bytes the guest writes while there is
    room are handed to the host, in order and once, by the next tick, which
    leaves the transmit queue empty. *)
Theorem uart_streams {W} (u : UartDevice W) (host : W) callback input output ticks router :
  uart_wf u -> uart_enabled u = true -> tx_callback u = Some callback -> Forall is_u8 input -> 0 < ticks ->
  Z.of_nat (length (tx_queue u)) + Z.of_nat (length output) <= UART_FIFO_CAPACITY ->
  (let '(accepted, u1) := uart_device_receive u input 0 in
   accepted = Z.min (Z.of_nat (length input)) (UART_FIFO_CAPACITY - Z.of_nat (length (rx_queue u))) /\
   (read_rx (length (rx_queue u1)) u1).1 = Some <$> rx_queue u ++ take (Z.to_nat accepted) input) /\
  (let '(u1, host1, _) := uart_tick (write_tx output u) host ticks router in
   host1 = fold_left callback (tx_queue u ++ ((fun v => v mod 256) <$> output)) host /\
   tx_queue u1 = [] /\ rx_queue u1 = rx_queue u).
Proof.
  intros Hwf He Hcb Hin Ht Hfit. split.
  - destruct (receive_spec u input 0 Hwf Hin He) as (k & u1 & -> & Hwf1 & Hq & _ & _ & Hk).
    pose proof (rx_count_queue _ Hwf) as Hn. pose proof (ring_count _ _ _ (uart_rx _ Hwf)) as Hcap.
    rewrite (uart_rx_capacity _ Hwf) in Hcap. rewrite Z.add_0_l. split; [lia|].
    destruct (read_rx_queue u1 (rx_queue u1) [] Hwf1 ltac:(by rewrite app_nil_r)) as (u' & -> & _).
    by rewrite Nat2Z.id, <- Hq.
  - destruct (write_tx_queue u output Hwf He Hfit) as (Hwf1 & Hq & Hs).
    destruct Hs as (Hrx & Hc & Hcb1 & _).
    pose proof (uart_tick_spec (write_tx output u) host ticks router Hwf1) as (_ & Hrx2 & _ & _ & _ & Hdel).
    destruct (uart_tick (write_tx output u) host ticks router) as [[u1 host1] router1]. cbn [fst snd] in *.
    destruct (Hdel callback Ht) as [He1 Hh]; [unfold uart_enabled in *; congruence|congruence|].
    rewrite Hh, Hq. split_and!; [done|done|congruence].
Qed.

Lemma uart_streams_witness :
  (uart_device_receive demo_uart [104; 105] 0).1 = 2 /\
  (uart_tick (write_tx [111; 107] demo_uart) [] 1 None).1.2 = [111; 107].
Proof.
  destruct (uart_streams demo_uart [] (fun sent v => sent ++ [v]) [104; 105] [111; 107] 1 None demo_uart_wf eq_refl eq_refl)
    as [H1 H2]; [by repeat constructor|lia|by vm_compute|].
  split.
  - destruct (uart_device_receive demo_uart [104; 105] 0) as [accepted u1]. destruct H1 as [H1 _]. cbn [fst].
    rewrite H1. by vm_compute.
  - destruct (uart_tick (write_tx [111; 107] demo_uart) [] 1 None) as [[u1 host1] router1]. destruct H2 as [H2 _].
    cbn [fst snd]. rewrite H2. by vm_compute.
Defined.
