(* ===== verification/IrqController.v ===== *)
(** The programmable IRQ controller's registers: src/irq_controller.c,
    include/irq_controller.h, include/builtin_device_protocol.h.

    [device->router] is the platform's router, the [w_router] of the shared
    world; a handler takes and returns it with the device. *)

From S2P Require Import Prelude Interrupt Ram Bus.
From stdpp Require Import base list numbers option.
From Stdlib Require Import ZArith Lia Bool.

#[local] Open Scope Z_scope.

Definition IRQ_CONTROLLER_MAGIC : Z := 0x43515249.
Definition IRQ_CONTROLLER_VERSION : Z := 1.
Definition IRQ_CONTROLLER_MAGIC_OFFSET : Z := 0x00.
Definition IRQ_CONTROLLER_VERSION_OFFSET : Z := 0x08.
Definition IRQ_CONTROLLER_LINE_COUNT_OFFSET : Z := 0x10.
Definition IRQ_CONTROLLER_TARGET_COUNT_OFFSET : Z := 0x18.
Definition IRQ_CONTROLLER_ENABLE_OFFSET : Z := 0x20.
Definition IRQ_CONTROLLER_ENABLE_SET_OFFSET : Z := 0x28.
Definition IRQ_CONTROLLER_ENABLE_CLEAR_OFFSET : Z := 0x30.
Definition IRQ_CONTROLLER_PENDING_OFFSET : Z := 0x38.
Definition IRQ_CONTROLLER_ACTIVE_OFFSET : Z := 0x40.
Definition IRQ_CONTROLLER_LINE_SELECT_OFFSET : Z := 0x48.
Definition IRQ_CONTROLLER_ROUTE_OFFSET : Z := 0x50.
Definition IRQ_CONTROLLER_EOI_OFFSET : Z := 0x58.
Definition IRQ_CONTROLLER_RESULT_OFFSET : Z := 0x60.
Definition IRQ_CONTROLLER_FEATURES_OFFSET : Z := 0x68.
Definition IRQ_CONTROLLER_FEATURES : Z := 0x1F.
Definition IRQ_CONTROLLER_RESULT_NONE : Z := 0.
Definition IRQ_CONTROLLER_RESULT_SUCCESS : Z := 1.
Definition IRQ_CONTROLLER_RESULT_INVALID_LINE : Z := 2.
Definition IRQ_CONTROLLER_RESULT_INVALID_TARGET : Z := 3.
Definition IRQ_CONTROLLER_RESULT_BUSY : Z := 4.
Definition IRQ_CONTROLLER_RESULT_INVALID_MASK : Z := 5.
Definition IRQ_CONTROLLER_RESULT_NOT_ACTIVE : Z := 6.

Record IrqControllerDevice := mkIrqController { selected_line : Z; last_result : Z }.

Definition irq_controller_read (d : IrqControllerDevice) (r : InterruptRouter)
    (offset width : Z) : option Z :=
  if negb (width =? 8) then None
  else if offset =? IRQ_CONTROLLER_MAGIC_OFFSET then Some IRQ_CONTROLLER_MAGIC
  else if offset =? IRQ_CONTROLLER_VERSION_OFFSET then Some IRQ_CONTROLLER_VERSION
  else if offset =? IRQ_CONTROLLER_LINE_COUNT_OFFSET then Some INTERRUPT_EXTERNAL_LINE_COUNT
  else if offset =? IRQ_CONTROLLER_TARGET_COUNT_OFFSET then Some (target_count r)
  else if offset =? IRQ_CONTROLLER_ENABLE_OFFSET then Some (enabled r)
  else if offset =? IRQ_CONTROLLER_PENDING_OFFSET then Some (pending r)
  else if offset =? IRQ_CONTROLLER_ACTIVE_OFFSET then Some (active r)
  else if offset =? IRQ_CONTROLLER_LINE_SELECT_OFFSET then Some (selected_line d)
  else if offset =? IRQ_CONTROLLER_ROUTE_OFFSET then
    if INTERRUPT_EXTERNAL_LINE_COUNT <=? selected_line d then None
    else interrupt_router_get_route r (wrap32 (selected_line d))
  else if offset =? IRQ_CONTROLLER_RESULT_OFFSET then Some (last_result d)
  else if offset =? IRQ_CONTROLLER_FEATURES_OFFSET then Some IRQ_CONTROLLER_FEATURES
  else None.

Definition mask_valid (mask : Z) : bool := mask_external mask.

(** An enable-register write: an invalid mask, then the router's verdict. *)
Definition enable_write (d : IrqControllerDevice) (r : InterruptRouter) (value : Z)
    (op : InterruptRouter -> Z -> bool * InterruptRouter) :
    IrqControllerDevice * InterruptRouter :=
  if negb (mask_valid value)
  then (mkIrqController (selected_line d) IRQ_CONTROLLER_RESULT_INVALID_MASK, r)
  else
    let '(ok, r') := op r value in
    (mkIrqController (selected_line d)
       (if ok then IRQ_CONTROLLER_RESULT_SUCCESS else IRQ_CONTROLLER_RESULT_BUSY), r').

Definition irq_controller_write (d : IrqControllerDevice) (r : InterruptRouter)
    (offset width value : Z) : bool * (IrqControllerDevice * InterruptRouter) :=
  let result v := mkIrqController (selected_line d) v in
  if negb (width =? 8) then (false, (d, r))
  else if offset =? IRQ_CONTROLLER_ENABLE_OFFSET
  then (true, enable_write d r value interrupt_router_set_enabled)
  else if offset =? IRQ_CONTROLLER_ENABLE_SET_OFFSET
  then (true, enable_write d r value interrupt_router_enable_lines)
  else if offset =? IRQ_CONTROLLER_ENABLE_CLEAR_OFFSET
  then (true, enable_write d r value interrupt_router_disable_lines)
  else if offset =? IRQ_CONTROLLER_LINE_SELECT_OFFSET then
    (true, if INTERRUPT_EXTERNAL_LINE_COUNT <=? value
           then (result IRQ_CONTROLLER_RESULT_INVALID_LINE, r)
           else (mkIrqController value IRQ_CONTROLLER_RESULT_SUCCESS, r))
  else if offset =? IRQ_CONTROLLER_ROUTE_OFFSET then
    (true, if INTERRUPT_EXTERNAL_LINE_COUNT <=? selected_line d
           then (result IRQ_CONTROLLER_RESULT_INVALID_LINE, r)
           else if target_count r <=? value
           then (result IRQ_CONTROLLER_RESULT_INVALID_TARGET, r)
           else match interrupt_router_set_route r (wrap32 (selected_line d)) value with
                | (false, r') => (result IRQ_CONTROLLER_RESULT_BUSY, r')
                | (true, r') => (result IRQ_CONTROLLER_RESULT_SUCCESS, r')
                end)
  else if offset =? IRQ_CONTROLLER_EOI_OFFSET then
    (true, if INTERRUPT_EXTERNAL_LINE_COUNT <=? value
           then (result IRQ_CONTROLLER_RESULT_INVALID_LINE, r)
           else match interrupt_router_eoi r (wrap32 value) with
                | (false, r') => (result IRQ_CONTROLLER_RESULT_NOT_ACTIVE, r')
                | (true, r') => (result IRQ_CONTROLLER_RESULT_SUCCESS, r')
                end)
  else (false, (d, r)).

Definition irq_controller_reset (r : InterruptRouter) : IrqControllerDevice * InterruptRouter :=
  (mkIrqController 0 IRQ_CONTROLLER_RESULT_NONE, interrupt_router_programmable_reset r).

Definition irq_controller_device_init (r : InterruptRouter) :
    option (IrqControllerDevice * InterruptRouter) :=
  if target_count r =? 0 then None else Some (irq_controller_reset r).

(** ** On the bus *)

Class IrqSlot (D : Type) := {
  get_irq : D -> IrqControllerDevice;
  put_irq : IrqControllerDevice -> D -> D
}.

Definition irq_controller_device_as_bus_device `{IrqSlot D} : BusDevice D := {|
  dev_read := Some (fun w offset width =>
    (match w_router w with
     | None => None
     | Some r => irq_controller_read (get_irq (w_dev w)) r offset width
     end, w));
  dev_write := Some (fun w offset width value =>
    match w_router w with
    | None => (false, w)
    | Some r =>
        let '(ok, (d, r')) := irq_controller_write (get_irq (w_dev w)) r offset width value in
        (ok, set_w_router (Some r') (set_w_dev (put_irq d (w_dev w)) w))
    end);
  dev_tick := None;
  dev_reset := Some (fun w =>
    match w_router w with
    | None => w
    | Some r =>
        let '(d, r') := irq_controller_reset r in
        set_w_router (Some r') (set_w_dev (put_irq d (w_dev w)) w)
    end)
|}.

Definition irq_wf (d : IrqControllerDevice) : Prop :=
  0 <= selected_line d < INTERRUPT_EXTERNAL_LINE_COUNT /\ is_u64 (last_result d).

Class IrqSlotLaws (D : Type) `{DevInv D, IrqSlot D} : Prop := {
  irq_slot_wf d : dev_inv d -> irq_wf (get_irq d);
  irq_slot_put d x : dev_inv d -> irq_wf x -> dev_inv (put_irq x d)
}.

Arguments irq_controller_write : simpl never.

Lemma irq_result_wf d v : irq_wf d -> is_u64 v -> irq_wf (mkIrqController (selected_line d) v).
Proof. by intros [? _] ?. Qed.

(** What one register write does: a router operation with well-formed
    arguments, or nothing to the router. *)
Lemma irq_write_cases d r off w v :
  irq_wf d -> is_u64 v ->
  let '(ok, (d', r')) := irq_controller_write d r off w v in
  irq_wf d' /\
  (r' = r \/
   exists op, op_args_ok op /\ r' = router_apply r op /\
     (last_result d' = IRQ_CONTROLLER_RESULT_SUCCESS \/ r' = r)).
Proof.
  intros Hd Hv. pose proof (fun x => irq_result_wf d x Hd) as Hres.
  assert (forall k op, (k = OpSetEnabled v /\ op = interrupt_router_set_enabled \/
    k = OpEnableLines v /\ op = interrupt_router_enable_lines \/
    k = OpDisableLines v /\ op = interrupt_router_disable_lines) ->
    let '(d', r') := enable_write d r v op in
    irq_wf d' /\ (r' = r \/ exists op, op_args_ok op /\ r' = router_apply r op /\
      (last_result d' = IRQ_CONTROLLER_RESULT_SUCCESS \/ r' = r))) as Hen.
  { intros k op Hk. unfold enable_write. destruct (negb _); [split; [by apply Hres|by left]|].
    destruct (op r v) as [ok r'] eqn:E. split; [by apply Hres; destruct ok|].
    destruct ok; [|left; by destruct Hk as [[-> ->]|[[-> ->]|[-> ->]]];
      unfold interrupt_router_set_enabled, interrupt_router_enable_lines,
        interrupt_router_disable_lines in E; destruct (_ || _); simplify_eq].
    right. exists k. destruct Hk as [[-> ->]|[[-> ->]|[-> ->]]]; simpl; rewrite E; auto. }
  unfold irq_controller_write. destruct (negb _); [by auto|].
  destruct (off =? IRQ_CONTROLLER_ENABLE_OFFSET).
  { specialize (Hen (OpSetEnabled v) _ ltac:(by left)). by destruct (enable_write d r v _). }
  destruct (off =? IRQ_CONTROLLER_ENABLE_SET_OFFSET).
  { specialize (Hen (OpEnableLines v) _ ltac:(by right; left)). by destruct (enable_write d r v _). }
  destruct (off =? IRQ_CONTROLLER_ENABLE_CLEAR_OFFSET).
  { specialize (Hen (OpDisableLines v) _ ltac:(by right; right)).
    by destruct (enable_write d r v _). }
  destruct (off =? IRQ_CONTROLLER_LINE_SELECT_OFFSET).
  { destruct (Z.leb_spec INTERRUPT_EXTERNAL_LINE_COUNT v); [split; [by apply Hres|by left]|].
    split; [|by left]. split; [unfold is_u64 in Hv; simpl; lia|by vm_compute]. }
  pose proof Hd as [Hsel _]. unfold is_u64 in Hv.
  destruct (off =? IRQ_CONTROLLER_ROUTE_OFFSET).
  { rewrite (proj2 (Z.leb_gt _ _)) by lia.
    destruct (_ <=? v); [split; [by apply Hres|by left]|].
    destruct (interrupt_router_set_route _ _ v) as [[|] r'] eqn:E; (split; [by apply Hres|]).
    - right. exists (OpSetRoute (wrap32 (selected_line d)) v). simpl. rewrite E.
      split_and!; [zlia|lia|done|by left].
    - left. unfold interrupt_router_set_route in E.
      repeat (case_match; simplify_eq; try done). }
  destruct (off =? IRQ_CONTROLLER_EOI_OFFSET); [|by auto].
  destruct (_ <=? v); [split; [by apply Hres|by left]|].
  destruct (interrupt_router_eoi _ _) as [[|] r'] eqn:E; (split; [by apply Hres|]).
  - right. exists (OpEoi (wrap32 v)). simpl. rewrite E. split_and!; [zlia|done|by left].
  - left. unfold interrupt_router_eoi in E. repeat (case_match; simplify_eq; try done).
Qed.

(** A register write in full: the router invariant, and what the answer of
    the device says about the router. *)
Lemma irq_write_router d r off w v :
  irq_wf d -> is_u64 v -> router_inv r ->
  irq_wf (irq_controller_write d r off w v).2.1 /\
  router_inv (irq_controller_write d r off w v).2.2.
Proof.
  intros Hd Hv Hr. pose proof (irq_write_cases d r off w v Hd Hv) as H.
  destruct (irq_controller_write d r off w v) as [ok [d' r']]. simpl.
  destruct H as [? [->|(op & ? & -> & _)]]; [done|]. split; [done|]. by apply router_apply_inv.
Qed.

Lemma irq_read_u64 d r off w v :
  irq_wf d -> router_inv r -> irq_controller_read d r off w = Some v -> is_u64 v.
Proof.
  intros [Hsel Hd] [Hb _]. pose proof (fun l => route_in_range r l Hb) as Hroute.
  destruct Hb as ((? & Hmax) & _ & _ & ? & ? & ? & _). unfold SIZE_MAX, UINT64_MAX in Hmax.
  unfold irq_controller_read, interrupt_router_get_route.
  specialize (Hroute (wrap32 (selected_line d))).
  repeat match goal with |- (if ?b then _ else _) = _ -> _ => destruct b end;
    intros [= <-].
  all: first [assumption | unfold is_u64; line_lia | by vm_compute].
Qed.

Section irq_on_bus.
Context {D : Type} {DI : DevInv D} {IS : IrqSlot D} {IL : IrqSlotLaws D}.

#[export] Instance irq_controller_laws : DeviceLaws (irq_controller_device_as_bus_device (D:=D)).
Proof.
  split; [..|done|].
  - intros f w off width [= <-] (Hr & Hq & Hd) Hoff. split; [done|]. intros v. simpl.
    destruct (w_router w) as [r|]; [|done].
    apply irq_read_u64; [by apply irq_slot_wf|by apply Hq].
  - intros f w off width v [= <-] _ Hoff Hv Hw. pose proof Hw as (Hr & Hq & Hd).
    destruct (w_router w) as [r|] eqn:Ew; [|done].
    pose proof (irq_write_router (get_irq (w_dev w)) r off width v (irq_slot_wf _ Hd) Hv
      (Hq r eq_refl)) as [? ?].
    destruct (irq_controller_write _ _ _ _ _) as [ok [d r']]. simpl in *.
    split; [|done]. split_and!; [done|by intros ? [= <-]|by apply irq_slot_put].
  - intros f w [= <-] Hw. pose proof Hw as (Hr & Hq & Hd).
    destruct (w_router w) as [r|] eqn:Ew; [|done].
    split; [|done]. split_and!; simpl; [done| |].
    + intros ? [= <-]. by apply router_reset_inv, Hq.
    + apply irq_slot_put; [done|]. by vm_compute.
Qed.
End irq_on_bus.

(** * Properties *)

(** A write to the programmable IRQ controller keeps the router's
    invariant; a refused write changes nothing, and an accepted write whose
    RESULT register is not SUCCESS leaves the router as it was. *)
Theorem irq_write_reports d r off w v :
  irq_wf d -> is_u64 v -> router_inv r ->
  let '(ok, (d', r')) := irq_controller_write d r off w v in
  router_inv r' /\ irq_wf d' /\
  (ok = false -> d' = d /\ r' = r) /\
  (ok = true -> last_result d' <> IRQ_CONTROLLER_RESULT_SUCCESS -> r' = r).
Proof.
  intros Hd Hv Hr. pose proof (irq_write_router d r off w v Hd Hv Hr) as [H1 H2].
  pose proof (irq_write_cases d r off w v Hd Hv) as H.
  assert ((irq_controller_write d r off w v).1 = false ->
    (irq_controller_write d r off w v).2 = (d, r)) as Hfalse.
  { unfold irq_controller_write.
    repeat match goal with |- (if ?b then _ else _).1 = _ -> _ => destruct b; [done|] end.
    done. }
  destruct (irq_controller_write d r off w v) as [ok [d' r']]. cbn [fst snd] in *.
  split_and!; [done..| |].
  - intros E. by injection (Hfalse E) as -> ->.
  - intros _ Hne. destruct H as [_ [H|(_ & _ & _ & [H|H])]]; congruence.
Qed.

(** Programming a route through the registers reads back: when selecting
    a line and writing a target both answer SUCCESS, the ROUTE register reads
    that target, and the line is routed to it. *)
Theorem irq_route_roundtrip d r line target d1 r1 d2 r2 :
  irq_wf d -> router_inv r -> is_u64 line -> is_u64 target ->
  irq_controller_write d r IRQ_CONTROLLER_LINE_SELECT_OFFSET 8 line = (true, (d1, r1)) ->
  last_result d1 = IRQ_CONTROLLER_RESULT_SUCCESS ->
  irq_controller_write d1 r1 IRQ_CONTROLLER_ROUTE_OFFSET 8 target = (true, (d2, r2)) ->
  last_result d2 = IRQ_CONTROLLER_RESULT_SUCCESS ->
  irq_controller_read d2 r2 IRQ_CONTROLLER_ROUTE_OFFSET 8 = Some target /\
  arr_get (routes r2) line = target /\ target < target_count r2.
Proof.
  intros Hd [(_ & Hlen & _) _] Hline Htarget. unfold is_u64 in *.
  unfold irq_controller_write. simpl.
  destruct (Z.leb_spec INTERRUPT_EXTERNAL_LINE_COUNT line); intros [= <- <-]; [done|]. intros _.
  simpl. rewrite (proj2 (Z.leb_gt _ _)) by done.
  assert (wrap32 line = line) as -> by (unfold wrap32; rewrite Z.mod_small; line_lia).
  destruct (Z.leb_spec (target_count r) target) as [?|Hlt]; [by intros [= <- <-]|].
  unfold interrupt_router_set_route. destruct (_ || _); [by intros [= <- <-]|].
  destruct (_ && _); [by intros [= <- <-]|]. simpl. intros [= <- <-] _.
  unfold irq_controller_read, interrupt_router_get_route. simpl.
  assert (wrap32 line = line) as -> by (unfold wrap32; rewrite Z.mod_small; line_lia).
  rewrite !(proj2 (Z.leb_gt _ _)) by done.
  assert (arr_get (arr_set (routes r) line target) line = target) as E
    by (apply arr_get_set; rewrite Hlen; line_lia).
  destruct (programmable r); [|simpl; rewrite E; split_and!; [done..|exact Hlt]].
  destruct (dispatch_fields (set_routes (arr_set (routes r) line target) r) target)
    as (-> & _ & _ & ->). simpl. rewrite E. split_and!; [done..|exact Hlt].
Qed.

Definition demo_irq : IrqControllerDevice := mkIrqController 0 0.

Lemma demo_router_inv : router_inv demo_router.
Proof.
  assert (forall r, router_reachable r -> router_inv r) as H
    by (induction 1; [by eapply router_init_inv|by apply router_apply_inv]).
  apply H, demo_router_reachable.
Qed.

Lemma irq_write_reports_witness :
  router_inv (irq_controller_write demo_irq demo_router IRQ_CONTROLLER_EOI_OFFSET 8 3).2.2.
Proof.
  assert (irq_wf demo_irq) as Hd by by vm_compute.
  pose proof (irq_write_reports demo_irq demo_router IRQ_CONTROLLER_EOI_OFFSET 8 3 Hd
    ltac:(by vm_compute) demo_router_inv) as H.
  destruct (irq_controller_write _ _ _ _ _) as [ok [d' r']]. exact (proj1 H).
Defined.

Lemma irq_route_roundtrip_witness :
  exists d r, irq_controller_read d r IRQ_CONTROLLER_ROUTE_OFFSET 8 = Some 1 /\
    arr_get (routes r) 9 = 1.
Proof.
  assert (irq_wf demo_irq) as Hd by by vm_compute.
  destruct (irq_route_roundtrip demo_irq demo_router 9 1 _ _ _ _ Hd demo_router_inv
    ltac:(by vm_compute) ltac:(by vm_compute) eq_refl eq_refl eq_refl eq_refl) as (H1 & H2 & _).
  eexists _, _. exact (conj H1 H2).
Defined.
