(* ===== verification/Isa.v ===== *)
(** The instruction set's constants: include/isa.h. *)

From Stdlib Require Import ZArith.

#[local] Open Scope Z_scope.

Definition REGISTER_COUNT : Z := 16.
Definition REGISTER_SP : Z := 15.
Definition VECTOR_REGISTER_COUNT : Z := 16.
Definition VECTOR_REGISTER_SIZE : Z := 16.

Definition CPU_CONDITION_ALWAYS : Z := 0.
Definition CPU_CONDITION_EQ : Z := 1.
Definition CPU_CONDITION_NE : Z := 2.
Definition CPU_CONDITION_LT : Z := 3.
Definition CPU_CONDITION_LE : Z := 4.
Definition CPU_CONDITION_GT : Z := 5.
Definition CPU_CONDITION_GE : Z := 6.
Definition CPU_CONDITION_LTU : Z := 7.
Definition CPU_CONDITION_LEU : Z := 8.
Definition CPU_CONDITION_GTU : Z := 9.
Definition CPU_CONDITION_GEU : Z := 10.
Definition CPU_CONDITION_ORDERED : Z := 11.
Definition CPU_CONDITION_UNORDERED : Z := 12.
Definition CPU_CONDITION_COUNT : Z := 13.

Definition OP_HALT : Z := 0x00.
Definition OP_MOVI64 : Z := 0x01.
Definition OP_ADD : Z := 0x02.
Definition OP_LOAD8U : Z := 0x03.
Definition OP_STORE8 : Z := 0x04.
Definition OP_JUMP : Z := 0x05.
Definition OP_CALL : Z := 0x06.
Definition OP_RET : Z := 0x07.
Definition OP_MOV : Z := 0x08.
Definition OP_LOAD16U : Z := 0x09.
Definition OP_LOAD32U : Z := 0x0A.
Definition OP_LOAD64 : Z := 0x0B.
Definition OP_LOAD8S : Z := 0x0C.
Definition OP_LOAD16S : Z := 0x0D.
Definition OP_LOAD32S : Z := 0x0E.
Definition OP_STORE16 : Z := 0x0F.
Definition OP_STORE32 : Z := 0x10.
Definition OP_STORE64 : Z := 0x11.
Definition OP_SUB : Z := 0x12.
Definition OP_MUL : Z := 0x13.
Definition OP_DIVU : Z := 0x14.
Definition OP_DIVS : Z := 0x15.
Definition OP_MODU : Z := 0x16.
Definition OP_MODS : Z := 0x17.
Definition OP_AND : Z := 0x18.
Definition OP_OR : Z := 0x19.
Definition OP_XOR : Z := 0x1A.
Definition OP_NOT : Z := 0x1B.
Definition OP_SHL : Z := 0x1C.
Definition OP_SHR : Z := 0x1D.
Definition OP_SAR : Z := 0x1E.
Definition OP_CMP : Z := 0x1F.
Definition OP_JZ : Z := 0x20.
Definition OP_JNZ : Z := 0x21.
Definition OP_JLT : Z := 0x22.
Definition OP_JLE : Z := 0x23.
Definition OP_JGT : Z := 0x24.
Definition OP_JGE : Z := 0x25.
Definition OP_JLTU : Z := 0x26.
Definition OP_JLEU : Z := 0x27.
Definition OP_JGTU : Z := 0x28.
Definition OP_JGEU : Z := 0x29.
Definition OP_PUSH : Z := 0x2A.
Definition OP_POP : Z := 0x2B.
Definition OP_NOP : Z := 0x2C.
Definition OP_IRET : Z := 0x2D.
Definition OP_EI : Z := 0x2E.
Definition OP_DI : Z := 0x2F.
Definition OP_CAS64 : Z := 0x30.
Definition OP_XCHG64 : Z := 0x31.
Definition OP_ATOMIC_ADD64 : Z := 0x32.
Definition OP_FENCE : Z := 0x33.
Definition OP_COREID : Z := 0x34.
Definition OP_THREADID : Z := 0x35.
Definition OP_WAIT : Z := 0x36.
Definition OP_EXCAUSE : Z := 0x37.
Definition OP_EXADDR : Z := 0x38.
Definition OP_SETVBR : Z := 0x39.
Definition OP_GETVBR : Z := 0x3A.
Definition OP_GETMODE : Z := 0x3B.
Definition OP_ENTERUSER : Z := 0x3C.
Definition OP_SETPTBR : Z := 0x3D.
Definition OP_GETPTBR : Z := 0x3E.
Definition OP_MMUON : Z := 0x3F.
Definition OP_MMUOFF : Z := 0x40.
Definition OP_GETMMU : Z := 0x41.
Definition OP_EXPC : Z := 0x42.
Definition OP_EXINFO : Z := 0x43.
Definition OP_JUMPR : Z := 0x44.
Definition OP_CALLR : Z := 0x45.
Definition OP_SHLV : Z := 0x46.
Definition OP_SHRV : Z := 0x47.
Definition OP_SARV : Z := 0x48.
Definition OP_MOVI32U : Z := 0x49.
Definition OP_MOVI32S : Z := 0x4A.
Definition OP_ADDI32 : Z := 0x4B.
Definition OP_CMPI32 : Z := 0x4C.
Definition OP_ANDI32 : Z := 0x4D.
Definition OP_ORI32 : Z := 0x4E.
Definition OP_XORI32 : Z := 0x4F.
Definition OP_TESTI32 : Z := 0x50.
Definition OP_LEA : Z := 0x51.
Definition OP_LOAD8UO : Z := 0x52.
Definition OP_LOAD16UO : Z := 0x53.
Definition OP_LOAD32UO : Z := 0x54.
Definition OP_LOAD64O : Z := 0x55.
Definition OP_LOAD8SO : Z := 0x56.
Definition OP_LOAD16SO : Z := 0x57.
Definition OP_LOAD32SO : Z := 0x58.
Definition OP_STORE8O : Z := 0x59.
Definition OP_STORE16O : Z := 0x5A.
Definition OP_STORE32O : Z := 0x5B.
Definition OP_STORE64O : Z := 0x5C.
Definition OP_JUMPREL : Z := 0x5D.
Definition OP_BRCC : Z := 0x5E.
Definition OP_CALLREL : Z := 0x5F.
Definition OP_SEXT8 : Z := 0x60.
Definition OP_SEXT16 : Z := 0x61.
Definition OP_SEXT32 : Z := 0x62.
Definition OP_ZEXT8 : Z := 0x63.
Definition OP_ZEXT16 : Z := 0x64.
Definition OP_ZEXT32 : Z := 0x65.
Definition OP_SYSCALL : Z := 0x66.
Definition OP_SETKSP : Z := 0x67.
Definition OP_GETKSP : Z := 0x68.
Definition OP_VLOAD128 : Z := 0x69.
Definition OP_VSTORE128 : Z := 0x6A.
Definition OP_VMOV : Z := 0x6B.
Definition OP_VADD8 : Z := 0x6C.
Definition OP_VADD16 : Z := 0x6D.
Definition OP_VADD32 : Z := 0x6E.
Definition OP_VADD64 : Z := 0x6F.
Definition OP_VSUB8 : Z := 0x70.
Definition OP_VSUB16 : Z := 0x71.
Definition OP_VSUB32 : Z := 0x72.
Definition OP_VSUB64 : Z := 0x73.
Definition OP_VMUL8 : Z := 0x74.
Definition OP_VMUL16 : Z := 0x75.
Definition OP_VMUL32 : Z := 0x76.
Definition OP_VMUL64 : Z := 0x77.
Definition OP_VAND : Z := 0x78.
Definition OP_VOR : Z := 0x79.
Definition OP_VXOR : Z := 0x7A.
Definition OP_FLOAD32 : Z := 0x7B.
Definition OP_FLOAD64 : Z := 0x7C.
Definition OP_FSTORE32 : Z := 0x7D.
Definition OP_FSTORE64 : Z := 0x7E.
Definition OP_FADD32 : Z := 0x7F.
Definition OP_FADD64 : Z := 0x80.
Definition OP_FSUB32 : Z := 0x81.
Definition OP_FSUB64 : Z := 0x82.
Definition OP_FMUL32 : Z := 0x83.
Definition OP_FMUL64 : Z := 0x84.
Definition OP_FDIV32 : Z := 0x85.
Definition OP_FDIV64 : Z := 0x86.
Definition OP_FCMP32 : Z := 0x87.
Definition OP_FCMP64 : Z := 0x88.
Definition OP_FNEG32 : Z := 0x89.
Definition OP_FNEG64 : Z := 0x8A.
Definition OP_FABS32 : Z := 0x8B.
Definition OP_FABS64 : Z := 0x8C.
Definition OP_I32TOF32 : Z := 0x8D.
Definition OP_I64TOF64 : Z := 0x8E.
Definition OP_F32TOI32 : Z := 0x8F.
Definition OP_F64TOI64 : Z := 0x90.
Definition OP_VFADD32 : Z := 0x91.
Definition OP_VFADD64 : Z := 0x92.
Definition OP_VFSUB32 : Z := 0x93.
Definition OP_VFSUB64 : Z := 0x94.
Definition OP_VFMUL32 : Z := 0x95.
Definition OP_VFMUL64 : Z := 0x96.
Definition OP_VFDIV32 : Z := 0x97.
Definition OP_VFDIV64 : Z := 0x98.
Definition OP_F32TOF64 : Z := 0x99.
Definition OP_F64TOF32 : Z := 0x9A.
Definition OP_GETFPSTATUS : Z := 0x9B.
Definition OP_CLEARFPSTATUS : Z := 0x9C.

Definition OP_VECTOR_FIRST : Z := OP_VLOAD128.
Definition OP_VECTOR_LAST : Z := OP_CLEARFPSTATUS.
