(* ===== verification/CpuCore.v ===== *)
(** The processor's state, its memory accesses, its exceptions and the entry
    into privileged handlers: the first part of src/cpu.c, with include/cpu.h
    and include/cpu_internal.h.

    A [Machine] is one CPU and the bus it is stepped on ([cpu->bus], never NULL
    during a step; its RAM is the [ram] argument of the C functions).  A C
    function returning 0 or 1 is an [Exec (Machine D)]: 0 is failure, and the
    state changed so far is kept.  Messages on stderr are not modelled. *)

From S2P Require Import Prelude Ram Mmu Interrupt Bus Isa.
From stdpp Require Import base list numbers option.
From Stdlib Require Import ZArith Lia Bool.

#[local] Open Scope Z_scope.
#[local] Open Scope exec_scope.

Definition CPU_EXCEPTION_COUNT : Z := 12.
Definition CPU_VECTOR_INTERRUPT_BASE : Z := 0.
Definition CPU_VECTOR_EXCEPTION_BASE : Z := INTERRUPT_LINE_COUNT.
Definition CPU_VECTOR_SYSCALL : Z := CPU_VECTOR_EXCEPTION_BASE + CPU_EXCEPTION_COUNT.
Definition CPU_VECTOR_ENTRY_SIZE : Z := 8.
Definition CPU_VECTOR_ENTRY_COUNT : Z := CPU_VECTOR_SYSCALL + 1.
Definition CPU_VECTOR_TABLE_SIZE : Z := CPU_VECTOR_ENTRY_COUNT * CPU_VECTOR_ENTRY_SIZE.

(** ** enum CPUException *)
Definition CPU_EXCEPTION_NONE : Z := 0.
Definition CPU_EXCEPTION_ILLEGAL_INSTRUCTION : Z := 1.
Definition CPU_EXCEPTION_INSTRUCTION_ACCESS : Z := 2.
Definition CPU_EXCEPTION_DATA_ACCESS : Z := 3.
Definition CPU_EXCEPTION_DIVIDE_BY_ZERO : Z := 4.
Definition CPU_EXCEPTION_ARITHMETIC_OVERFLOW : Z := 5.
Definition CPU_EXCEPTION_STACK_FAULT : Z := 6.
Definition CPU_EXCEPTION_PRIVILEGE_VIOLATION : Z := 7.
Definition CPU_EXCEPTION_INSTRUCTION_PAGE_FAULT : Z := 8.
Definition CPU_EXCEPTION_LOAD_PAGE_FAULT : Z := 9.
Definition CPU_EXCEPTION_STORE_PAGE_FAULT : Z := 10.
Definition CPU_EXCEPTION_MMU_CONFIGURATION : Z := 11.

Inductive CPUMode := CPU_MODE_USER | CPU_MODE_SUPERVISOR.

#[export] Instance CPUMode_eq_dec : EqDecision CPUMode.
Proof. solve_decision. Defined.

(** ** enum CPUFloatingPointStatus, CPUExceptionInfo, CPUFlag *)
Definition CPU_FP_INVALID : Z := 0x1.
Definition CPU_FP_DIVIDE_BY_ZERO : Z := 0x2.
Definition CPU_FP_OVERFLOW : Z := 0x4.
Definition CPU_FP_UNDERFLOW : Z := 0x8.

Definition CPU_EINFO_BADADDR_VALID : Z := 0x1.
Definition CPU_EINFO_ACCESS_READ : Z := 0x2.
Definition CPU_EINFO_ACCESS_WRITE : Z := 0x4.
Definition CPU_EINFO_ACCESS_EXECUTE : Z := 0x8.
Definition CPU_EINFO_ACCESS_ATOMIC : Z := 0x10.
Definition CPU_EINFO_ORIGIN_USER : Z := 0x20.
Definition CPU_EINFO_MMU_ENABLED : Z := 0x40.
Definition CPU_EINFO_PAGE_INVALID_VA : Z := 0x100.
Definition CPU_EINFO_PAGE_INVALID_ROOT : Z := 0x200.
Definition CPU_EINFO_PAGE_NOT_PRESENT : Z := 0x400.
Definition CPU_EINFO_PAGE_MALFORMED : Z := 0x800.
Definition CPU_EINFO_PAGE_PERMISSION : Z := 0x1000.

Definition CPU_FLAG_ZERO : Z := 0x1.
Definition CPU_FLAG_NEGATIVE : Z := 0x2.
Definition CPU_FLAG_CARRY : Z := 0x4.
Definition CPU_FLAG_OVERFLOW : Z := 0x8.
Definition CPU_FLAG_INTERRUPT_ENABLE : Z := 0x10.
Definition CPU_FLAG_UNORDERED : Z := 0x20.

Definition REGISTER_BITS : Z := 64.
Definition SIGN_BIT : Z := 0x8000000000000000.
Definition CPU_FLAG_MASK : Z :=
  Z.lor CPU_FLAG_ZERO (Z.lor CPU_FLAG_NEGATIVE (Z.lor CPU_FLAG_CARRY
    (Z.lor CPU_FLAG_OVERFLOW (Z.lor CPU_FLAG_INTERRUPT_ENABLE CPU_FLAG_UNORDERED)))).
Definition CPU_SAVED_FLAG_EXCEPTION_FRAME : Z := 0x8000000000000000.
Definition CPU_SAVED_FLAG_USER_MODE : Z := 0x4000000000000000.

Record CPU := mkCPU {
  registers : list Z;
  vector_registers : list (list Z);
  pc : Z;
  flags : Z;
  fp_status : Z;
  vbr : Z;
  ptbr : Z;
  ksp : Z;
  epc : Z;
  ecause : Z;
  badaddr : Z;
  einfo : Z;
  instruction_pc : Z;
  core_id : Z;
  thread_id : Z;
  mode : CPUMode;
  halted : bool;
  waiting : bool;
  vbr_enabled : bool;
  ptbr_set : bool;
  mmu_enabled : bool;
  exception_pending : bool;
  exception_active : bool
}.

Definition set_registers (v : list Z) (c : CPU) : CPU :=
  mkCPU v (vector_registers c) (pc c) (flags c) (fp_status c) (vbr c) (ptbr c) (ksp c) (epc
    c) (ecause c) (badaddr c) (einfo c) (instruction_pc c) (core_id c) (thread_id c) (mode
    c) (halted c) (waiting c) (vbr_enabled c) (ptbr_set c) (mmu_enabled c)
    (exception_pending c) (exception_active c).
Definition set_vector_registers (v : list (list Z)) (c : CPU) : CPU :=
  mkCPU (registers c) v (pc c) (flags c) (fp_status c) (vbr c) (ptbr c) (ksp c) (epc c)
    (ecause c) (badaddr c) (einfo c) (instruction_pc c) (core_id c) (thread_id c) (mode c)
    (halted c) (waiting c) (vbr_enabled c) (ptbr_set c) (mmu_enabled c) (exception_pending
    c) (exception_active c).
Definition set_pc (v : Z) (c : CPU) : CPU :=
  mkCPU (registers c) (vector_registers c) v (flags c) (fp_status c) (vbr c) (ptbr c) (ksp
    c) (epc c) (ecause c) (badaddr c) (einfo c) (instruction_pc c) (core_id c) (thread_id c)
    (mode c) (halted c) (waiting c) (vbr_enabled c) (ptbr_set c) (mmu_enabled c)
    (exception_pending c) (exception_active c).
Definition set_flags (v : Z) (c : CPU) : CPU :=
  mkCPU (registers c) (vector_registers c) (pc c) v (fp_status c) (vbr c) (ptbr c) (ksp c)
    (epc c) (ecause c) (badaddr c) (einfo c) (instruction_pc c) (core_id c) (thread_id c)
    (mode c) (halted c) (waiting c) (vbr_enabled c) (ptbr_set c) (mmu_enabled c)
    (exception_pending c) (exception_active c).
Definition set_fp_status (v : Z) (c : CPU) : CPU :=
  mkCPU (registers c) (vector_registers c) (pc c) (flags c) v (vbr c) (ptbr c) (ksp c) (epc
    c) (ecause c) (badaddr c) (einfo c) (instruction_pc c) (core_id c) (thread_id c) (mode
    c) (halted c) (waiting c) (vbr_enabled c) (ptbr_set c) (mmu_enabled c)
    (exception_pending c) (exception_active c).
Definition set_vbr (v : Z) (c : CPU) : CPU :=
  mkCPU (registers c) (vector_registers c) (pc c) (flags c) (fp_status c) v (ptbr c) (ksp c)
    (epc c) (ecause c) (badaddr c) (einfo c) (instruction_pc c) (core_id c) (thread_id c)
    (mode c) (halted c) (waiting c) (vbr_enabled c) (ptbr_set c) (mmu_enabled c)
    (exception_pending c) (exception_active c).
Definition set_ptbr (v : Z) (c : CPU) : CPU :=
  mkCPU (registers c) (vector_registers c) (pc c) (flags c) (fp_status c) (vbr c) v (ksp c)
    (epc c) (ecause c) (badaddr c) (einfo c) (instruction_pc c) (core_id c) (thread_id c)
    (mode c) (halted c) (waiting c) (vbr_enabled c) (ptbr_set c) (mmu_enabled c)
    (exception_pending c) (exception_active c).
Definition set_ksp (v : Z) (c : CPU) : CPU :=
  mkCPU (registers c) (vector_registers c) (pc c) (flags c) (fp_status c) (vbr c) (ptbr c) v
    (epc c) (ecause c) (badaddr c) (einfo c) (instruction_pc c) (core_id c) (thread_id c)
    (mode c) (halted c) (waiting c) (vbr_enabled c) (ptbr_set c) (mmu_enabled c)
    (exception_pending c) (exception_active c).
Definition set_epc (v : Z) (c : CPU) : CPU :=
  mkCPU (registers c) (vector_registers c) (pc c) (flags c) (fp_status c) (vbr c) (ptbr c)
    (ksp c) v (ecause c) (badaddr c) (einfo c) (instruction_pc c) (core_id c) (thread_id c)
    (mode c) (halted c) (waiting c) (vbr_enabled c) (ptbr_set c) (mmu_enabled c)
    (exception_pending c) (exception_active c).
Definition set_ecause (v : Z) (c : CPU) : CPU :=
  mkCPU (registers c) (vector_registers c) (pc c) (flags c) (fp_status c) (vbr c) (ptbr c)
    (ksp c) (epc c) v (badaddr c) (einfo c) (instruction_pc c) (core_id c) (thread_id c)
    (mode c) (halted c) (waiting c) (vbr_enabled c) (ptbr_set c) (mmu_enabled c)
    (exception_pending c) (exception_active c).
Definition set_badaddr (v : Z) (c : CPU) : CPU :=
  mkCPU (registers c) (vector_registers c) (pc c) (flags c) (fp_status c) (vbr c) (ptbr c)
    (ksp c) (epc c) (ecause c) v (einfo c) (instruction_pc c) (core_id c) (thread_id c)
    (mode c) (halted c) (waiting c) (vbr_enabled c) (ptbr_set c) (mmu_enabled c)
    (exception_pending c) (exception_active c).
Definition set_einfo (v : Z) (c : CPU) : CPU :=
  mkCPU (registers c) (vector_registers c) (pc c) (flags c) (fp_status c) (vbr c) (ptbr c)
    (ksp c) (epc c) (ecause c) (badaddr c) v (instruction_pc c) (core_id c) (thread_id c)
    (mode c) (halted c) (waiting c) (vbr_enabled c) (ptbr_set c) (mmu_enabled c)
    (exception_pending c) (exception_active c).
Definition set_instruction_pc (v : Z) (c : CPU) : CPU :=
  mkCPU (registers c) (vector_registers c) (pc c) (flags c) (fp_status c) (vbr c) (ptbr c)
    (ksp c) (epc c) (ecause c) (badaddr c) (einfo c) v (core_id c) (thread_id c) (mode c)
    (halted c) (waiting c) (vbr_enabled c) (ptbr_set c) (mmu_enabled c) (exception_pending
    c) (exception_active c).
Definition set_core_id (v : Z) (c : CPU) : CPU :=
  mkCPU (registers c) (vector_registers c) (pc c) (flags c) (fp_status c) (vbr c) (ptbr c)
    (ksp c) (epc c) (ecause c) (badaddr c) (einfo c) (instruction_pc c) v (thread_id c)
    (mode c) (halted c) (waiting c) (vbr_enabled c) (ptbr_set c) (mmu_enabled c)
    (exception_pending c) (exception_active c).
Definition set_thread_id (v : Z) (c : CPU) : CPU :=
  mkCPU (registers c) (vector_registers c) (pc c) (flags c) (fp_status c) (vbr c) (ptbr c)
    (ksp c) (epc c) (ecause c) (badaddr c) (einfo c) (instruction_pc c) (core_id c) v (mode
    c) (halted c) (waiting c) (vbr_enabled c) (ptbr_set c) (mmu_enabled c)
    (exception_pending c) (exception_active c).
Definition set_mode (v : CPUMode) (c : CPU) : CPU :=
  mkCPU (registers c) (vector_registers c) (pc c) (flags c) (fp_status c) (vbr c) (ptbr c)
    (ksp c) (epc c) (ecause c) (badaddr c) (einfo c) (instruction_pc c) (core_id c)
    (thread_id c) v (halted c) (waiting c) (vbr_enabled c) (ptbr_set c) (mmu_enabled c)
    (exception_pending c) (exception_active c).
Definition set_halted (v : bool) (c : CPU) : CPU :=
  mkCPU (registers c) (vector_registers c) (pc c) (flags c) (fp_status c) (vbr c) (ptbr c)
    (ksp c) (epc c) (ecause c) (badaddr c) (einfo c) (instruction_pc c) (core_id c)
    (thread_id c) (mode c) v (waiting c) (vbr_enabled c) (ptbr_set c) (mmu_enabled c)
    (exception_pending c) (exception_active c).
Definition set_waiting (v : bool) (c : CPU) : CPU :=
  mkCPU (registers c) (vector_registers c) (pc c) (flags c) (fp_status c) (vbr c) (ptbr c)
    (ksp c) (epc c) (ecause c) (badaddr c) (einfo c) (instruction_pc c) (core_id c)
    (thread_id c) (mode c) (halted c) v (vbr_enabled c) (ptbr_set c) (mmu_enabled c)
    (exception_pending c) (exception_active c).
Definition set_vbr_enabled (v : bool) (c : CPU) : CPU :=
  mkCPU (registers c) (vector_registers c) (pc c) (flags c) (fp_status c) (vbr c) (ptbr c)
    (ksp c) (epc c) (ecause c) (badaddr c) (einfo c) (instruction_pc c) (core_id c)
    (thread_id c) (mode c) (halted c) (waiting c) v (ptbr_set c) (mmu_enabled c)
    (exception_pending c) (exception_active c).
Definition set_ptbr_set (v : bool) (c : CPU) : CPU :=
  mkCPU (registers c) (vector_registers c) (pc c) (flags c) (fp_status c) (vbr c) (ptbr c)
    (ksp c) (epc c) (ecause c) (badaddr c) (einfo c) (instruction_pc c) (core_id c)
    (thread_id c) (mode c) (halted c) (waiting c) (vbr_enabled c) v (mmu_enabled c)
    (exception_pending c) (exception_active c).
Definition set_mmu_enabled (v : bool) (c : CPU) : CPU :=
  mkCPU (registers c) (vector_registers c) (pc c) (flags c) (fp_status c) (vbr c) (ptbr c)
    (ksp c) (epc c) (ecause c) (badaddr c) (einfo c) (instruction_pc c) (core_id c)
    (thread_id c) (mode c) (halted c) (waiting c) (vbr_enabled c) (ptbr_set c) v
    (exception_pending c) (exception_active c).
Definition set_exception_pending (v : bool) (c : CPU) : CPU :=
  mkCPU (registers c) (vector_registers c) (pc c) (flags c) (fp_status c) (vbr c) (ptbr c)
    (ksp c) (epc c) (ecause c) (badaddr c) (einfo c) (instruction_pc c) (core_id c)
    (thread_id c) (mode c) (halted c) (waiting c) (vbr_enabled c) (ptbr_set c) (mmu_enabled
    c) v (exception_active c).
Definition set_exception_active (v : bool) (c : CPU) : CPU :=
  mkCPU (registers c) (vector_registers c) (pc c) (flags c) (fp_status c) (vbr c) (ptbr c)
    (ksp c) (epc c) (ecause c) (badaddr c) (einfo c) (instruction_pc c) (core_id c)
    (thread_id c) (mode c) (halted c) (waiting c) (vbr_enabled c) (ptbr_set c) (mmu_enabled
    c) (exception_pending c) v.

Definition user_mode (m : CPUMode) : bool :=
  match m with CPU_MODE_USER => true | CPU_MODE_SUPERVISOR => false end.

Definition mode_code (m : CPUMode) : Z := if user_mode m then 0 else 1.

Record MemorySegment := mkSegment {
  seg_virtual_address : Z;
  seg_physical_address : Z;
  seg_width : Z;
  seg_byte_offset : Z
}.

Definition make_saved_flags (c : CPU) (exception_frame : bool) : Z :=
  let saved_flags := Z.land (flags c) CPU_FLAG_MASK in
  let saved_flags := if user_mode (mode c)
                     then Z.lor saved_flags CPU_SAVED_FLAG_USER_MODE else saved_flags in
  if exception_frame then Z.lor saved_flags CPU_SAVED_FLAG_EXCEPTION_FRAME else saved_flags.

(** The update of [set_exception]: the first exception of a step wins. *)
Definition record_exception (exception bad info : Z) (c : CPU) : CPU :=
  if exception_pending c then c
  else
    let info := if user_mode (mode c) then Z.lor info CPU_EINFO_ORIGIN_USER else info in
    let info := if mmu_enabled c then Z.lor info CPU_EINFO_MMU_ENABLED else info in
    set_einfo info (set_badaddr bad (set_ecause exception
      (set_epc (instruction_pc c) (set_exception_pending true c)))).

Definition access_exception_info (access : MmuAccess) : Z :=
  match access with
  | MMU_ACCESS_READ => CPU_EINFO_ACCESS_READ
  | MMU_ACCESS_WRITE => CPU_EINFO_ACCESS_WRITE
  | MMU_ACCESS_EXECUTE => CPU_EINFO_ACCESS_EXECUTE
  | MMU_ACCESS_ATOMIC =>
      Z.lor (Z.lor CPU_EINFO_ACCESS_READ CPU_EINFO_ACCESS_WRITE) CPU_EINFO_ACCESS_ATOMIC
  end.

Definition mmu_result_exception_info (result : MmuResult) : Z :=
  match result with
  | MMU_RESULT_OK => 0
  | MMU_RESULT_INVALID_VIRTUAL_ADDRESS => CPU_EINFO_PAGE_INVALID_VA
  | MMU_RESULT_INVALID_ROOT => CPU_EINFO_PAGE_INVALID_ROOT
  | MMU_RESULT_NOT_PRESENT => CPU_EINFO_PAGE_NOT_PRESENT
  | MMU_RESULT_MALFORMED_ENTRY => CPU_EINFO_PAGE_MALFORMED
  | MMU_RESULT_PERMISSION_DENIED => CPU_EINFO_PAGE_PERMISSION
  end.

Definition page_fault_for_access (access : MmuAccess) : Z :=
  match access with
  | MMU_ACCESS_EXECUTE => CPU_EXCEPTION_INSTRUCTION_PAGE_FAULT
  | MMU_ACCESS_READ => CPU_EXCEPTION_LOAD_PAGE_FAULT
  | _ => CPU_EXCEPTION_STORE_PAGE_FAULT
  end.

(** [ram_range_valid] of cpu.c, which has no bound on the width. *)
Definition cpu_ram_range_valid (r : RAM) (address width : Z) : bool :=
  if address <=? SIZE_MAX
  then (address <=? ram_size r) && (width <=? ram_size r - address)
  else false.

Definition sign_extend (value width : Z) : Z :=
  if 8 <=? width then value
  else
    let bits := width * 8 in
    let sign := shl64 1 (bits - 1) in
    if has_bits value sign then Z.lor value (shl64 UINT64_MAX bits) else value.

Definition set_zero_negative_flags (result : Z) (c : CPU) : CPU :=
  let f := Z.land (flags c) CPU_FLAG_INTERRUPT_ENABLE in
  let f := if result =? 0 then Z.lor f CPU_FLAG_ZERO else f in
  let f := if has_bits result SIGN_BIT then Z.lor f CPU_FLAG_NEGATIVE else f in
  set_flags f c.

Definition or_flag (cond : bool) (flag : Z) (c : CPU) : CPU :=
  if cond then set_flags (Z.lor (flags c) flag) c else c.

Definition set_add_flags (left right result : Z) (c : CPU) : CPU :=
  or_flag (has_bits (Z.land (not64 (Z.lxor left right)) (Z.lxor left result)) SIGN_BIT)
    CPU_FLAG_OVERFLOW
    (or_flag (result <? left) CPU_FLAG_CARRY (set_zero_negative_flags result c)).

Definition set_sub_flags (left right result : Z) (c : CPU) : CPU :=
  or_flag (has_bits (Z.land (Z.lxor left right) (Z.lxor left result)) SIGN_BIT)
    CPU_FLAG_OVERFLOW
    (or_flag (right <=? left) CPU_FLAG_CARRY (set_zero_negative_flags result c)).

Definition get_register (c : CPU) (r : Z) : Z := arr_get (registers c) r.
Definition set_register (r v : Z) (c : CPU) : CPU := set_registers (arr_set (registers c) r v) c.
Definition get_vector (c : CPU) (r : Z) : list Z := nth (Z.to_nat r) (vector_registers c) [].
Definition set_vector (r : Z) (v : list Z) (c : CPU) : CPU :=
  set_vector_registers (<[Z.to_nat r := v]> (vector_registers c)) c.

Record Machine (D : Type) := mkMachine { cpu : CPU; bus : Bus D }.
Arguments mkMachine {D} _ _.
Arguments cpu {D} _.
Arguments bus {D} _.

Definition set_cpu {D} (c : CPU) (s : Machine D) : Machine D := mkMachine c (bus s).
Definition set_bus {D} (b : Bus D) (s : Machine D) : Machine D := mkMachine (cpu s) b.
Definition machine_ram {D} (s : Machine D) : RAM := bus_ram (bus s).

(** Indexing a table of handlers given by its designated initialisers. *)
Fixpoint handler_lookup {H} (table : list (Z * H)) (opcode : Z) : option H :=
  match table with
  | [] => None
  | (op, h) :: rest => if op =? opcode then Some h else handler_lookup rest opcode
  end.

Section core.
Context {D : Type}.
Abbreviation M := (Exec (Machine D)).

Definition read_cpu {A} (f : CPU -> A) : M A := fun s => (Some (f (cpu s)), s).
Definition modify_cpu (f : CPU -> CPU) : M unit := fun s => (Some tt, set_cpu (f (cpu s)) s).
Definition read_ram {A} (f : RAM -> A) : M A := fun s => (Some (f (machine_ram s)), s).
Definition on_bus {A} (m : Exec (Bus D) A) : M A := fun s =>
  let '(r, b) := m (bus s) in (r, set_bus b s).

(** [ram_write] on the machine's RAM. *)
Definition ram_store (address width value : Z) : Exec (Bus D) unit := fun b =>
  match ram_write (bus_ram b) address width value with
  | Some r => (Some tt, set_bus_ram r b)
  | None => (None, b)
  end.

Definition set_exception {A} (exception bad info : Z) : M A := fun s =>
  (None, set_cpu (record_exception exception bad info (cpu s)) s).

Definition require_supervisor : M unit :=
  m ← read_cpu mode;
  if user_mode m then set_exception CPU_EXCEPTION_PRIVILEGE_VIOLATION 0 0 else mret tt.

Definition cpu_internal_illegal_instruction {A} : M A :=
  set_exception CPU_EXCEPTION_ILLEGAL_INSTRUCTION 0 0.

Definition set_access_exception {A} (exception address : Z) (access : MmuAccess)
    (mmu_result : MmuResult) : M A :=
  set_exception exception address
    (Z.lor (Z.lor CPU_EINFO_BADADDR_VALID (access_exception_info access))
       (mmu_result_exception_info mmu_result)).

(** [if (report_fault) return set_access_exception(...); return 0;] *)
Definition fault {A} (report : bool) (exception address : Z) (access : MmuAccess)
    (mmu_result : MmuResult) : M A :=
  if report then set_access_exception exception address access mmu_result else exec_fail.

Definition translate_address (virtual_address : Z) (access : MmuAccess) (report_fault : bool) :
    M Z := fun s =>
  if negb (mmu_enabled (cpu s)) then (Some virtual_address, s)
  else match mmu_translate (machine_ram s) (ptbr (cpu s)) (user_mode (mode (cpu s)))
               virtual_address access with
  | inl physical_address => (Some physical_address, s)
  | inr result =>
      fault report_fault (page_fault_for_access access) virtual_address access result s
  end.

(** The loop of [build_memory_segments]; [room] is [2 - count]. *)
Fixpoint segment_loop (room : nat) (cursor remaining byte_offset : Z) (access : MmuAccess)
    (report_fault : bool) : M (list MemorySegment) :=
  if remaining =? 0 then mret []
  else match room with
  | O => exec_fail
  | S room =>
      let page_remaining := MMU_PAGE_SIZE - Z.land cursor MMU_PAGE_MASK in
      let chunk := if remaining <? page_remaining then remaining else page_remaining in
      physical_address ← translate_address cursor access report_fault;
      rest ← segment_loop room (wrap64 (cursor + chunk)) (remaining - chunk)
               (byte_offset + chunk) access report_fault;
      mret (mkSegment cursor physical_address chunk byte_offset :: rest)
  end.

Definition build_memory_segments (virtual_address width : Z) (access : MmuAccess)
    (physical_exception : Z) (report_fault : bool) : M (list MemorySegment) :=
  mmu ← read_cpu mmu_enabled;
  if (width =? 0) || (VECTOR_REGISTER_SIZE <? width) ||
     (UINT64_MAX - (width - 1) <? virtual_address)
  then fault report_fault (if mmu then page_fault_for_access access else physical_exception)
         virtual_address access
         (if mmu then MMU_RESULT_INVALID_VIRTUAL_ADDRESS else MMU_RESULT_OK)
  else if negb mmu then mret [mkSegment virtual_address virtual_address width 0]
  else segment_loop 2 virtual_address width 0 access report_fault.

(** One access of the loop of [memory_read]. *)
Definition read_segment (seg : MemorySegment) (access : MmuAccess) (use_bus : bool) : M Z :=
  if bool_decide (access = MMU_ACCESS_EXECUTE)
  then fun s => (bus_fetch (bus s) (seg_physical_address seg) (seg_width seg), s)
  else if use_bus then on_bus (bus_read (seg_physical_address seg) (seg_width seg))
  else fun s => (ram_read (machine_ram s) (seg_physical_address seg) (seg_width seg), s).

Fixpoint read_segments (segs : list MemorySegment) (access : MmuAccess) (use_bus : bool)
    (physical_exception : Z) (report_fault : bool) (result : Z) : M Z :=
  match segs with
  | [] => mret result
  | seg :: rest =>
      part ← exec_try (read_segment seg access use_bus);
      match part with
      | None => fault report_fault physical_exception (seg_virtual_address seg) access
                  MMU_RESULT_OK
      | Some part =>
          read_segments rest access use_bus physical_exception report_fault
            (Z.lor result (shl64 part (seg_byte_offset seg * 8)))
      end
  end.

Definition memory_read (virtual_address width : Z) (access : MmuAccess) (use_bus : bool)
    (physical_exception : Z) (report_fault : bool) : M Z :=
  segs ← build_memory_segments virtual_address width access physical_exception report_fault;
  read_segments segs access use_bus physical_exception report_fault 0.

(** The loop that checks every segment against RAM. *)
Fixpoint check_segments (segs : list MemorySegment) (access : MmuAccess)
    (physical_exception : Z) (report_fault : bool) : M unit :=
  match segs with
  | [] => mret tt
  | seg :: rest =>
      ok ← read_ram (fun r => cpu_ram_range_valid r (seg_physical_address seg) (seg_width seg));
      if ok then check_segments rest access physical_exception report_fault
      else fault report_fault physical_exception (seg_virtual_address seg) access MMU_RESULT_OK
  end.

Fixpoint write_segments (segs : list MemorySegment) (access : MmuAccess) (use_bus : bool)
    (physical_exception : Z) (report_fault : bool) (value : Z) : M unit :=
  match segs with
  | [] => mret tt
  | seg :: rest =>
      let part := Z.shiftr value (seg_byte_offset seg * 8) in
      let store := if use_bus then bus_write else ram_store in
      ok ← exec_try (on_bus (store (seg_physical_address seg) (seg_width seg) part));
      match ok with
      | None => fault report_fault physical_exception (seg_virtual_address seg) access
                  MMU_RESULT_OK
      | Some _ => write_segments rest access use_bus physical_exception report_fault value
      end
  end.

Definition memory_write (virtual_address width : Z) (access : MmuAccess) (use_bus : bool)
    (physical_exception : Z) (report_fault : bool) (value : Z) : M unit :=
  segs ← build_memory_segments virtual_address width access physical_exception report_fault;
  (if use_bus then mret tt else check_segments segs access physical_exception report_fault);;
  write_segments segs access use_bus physical_exception report_fault value.

Definition cpu_internal_data_read (address width : Z) : M Z :=
  memory_read address width MMU_ACCESS_READ true CPU_EXCEPTION_DATA_ACCESS true.

Definition cpu_internal_data_write (address width value : Z) : M unit :=
  memory_write address width MMU_ACCESS_WRITE true CPU_EXCEPTION_DATA_ACCESS true value.

Definition vector_memory_segments (address : Z) (access : MmuAccess) : M (list MemorySegment) :=
  segs ← build_memory_segments address VECTOR_REGISTER_SIZE access CPU_EXCEPTION_DATA_ACCESS true;
  check_segments segs access CPU_EXCEPTION_DATA_ACCESS true;;
  mret segs.

(** [value[at + i] = bytes[i]] for each [i] in turn. *)
Fixpoint put_bytes (value : list Z) (at_ : Z) (bytes : list Z) : list Z :=
  match bytes with
  | [] => value
  | b :: rest => put_bytes (arr_set value at_ b) (at_ + 1) rest
  end.

Definition vector_chunk (seg : MemorySegment) (consumed : Z) : Z :=
  let chunk := seg_width seg - consumed in if 8 <? chunk then 8 else chunk.

(** The [while (consumed < width)] loops; a chunk is never empty, so [width]
    rounds of fuel suffice. *)
Fixpoint vector_read_loop (fuel : nat) (seg : MemorySegment) (consumed : Z) (value : list Z) :
    M (list Z) :=
  if negb (consumed <? seg_width seg) then mret value
  else match fuel with
  | O => exec_fail
  | S fuel =>
      let chunk := vector_chunk seg consumed in
      part ← read_ram (fun r => ram_read r (wrap64 (seg_physical_address seg + consumed)) chunk);
      match part with
      | None => set_access_exception CPU_EXCEPTION_DATA_ACCESS
                  (wrap64 (seg_virtual_address seg + consumed)) MMU_ACCESS_READ MMU_RESULT_OK
      | Some part =>
          vector_read_loop fuel seg (consumed + chunk)
            (put_bytes value (seg_byte_offset seg + consumed) (int_to_bytes chunk part))
      end
  end.

Fixpoint vector_read_segments (segs : list MemorySegment) (value : list Z) : M (list Z) :=
  match segs with
  | [] => mret value
  | seg :: rest =>
      value ← vector_read_loop (Z.to_nat (seg_width seg)) seg 0 value;
      vector_read_segments rest value
  end.

Definition cpu_internal_vector_read (address : Z) : M (list Z) :=
  segs ← vector_memory_segments address MMU_ACCESS_READ;
  vector_read_segments segs (replicate 16 0).

Fixpoint vector_write_loop (fuel : nat) (seg : MemorySegment) (consumed : Z) (value : list Z) :
    M unit :=
  if negb (consumed <? seg_width seg) then mret tt
  else match fuel with
  | O => exec_fail
  | S fuel =>
      let chunk := vector_chunk seg consumed in
      let part := or_bytes 0 0 (take (Z.to_nat chunk)
                    (drop (Z.to_nat (seg_byte_offset seg + consumed)) value)) in
      ok ← exec_try (on_bus (ram_store (wrap64 (seg_physical_address seg + consumed)) chunk part));
      match ok with
      | None => set_access_exception CPU_EXCEPTION_DATA_ACCESS
                  (wrap64 (seg_virtual_address seg + consumed)) MMU_ACCESS_WRITE MMU_RESULT_OK
      | Some _ => vector_write_loop fuel seg (consumed + chunk) value
      end
  end.

Fixpoint vector_write_segments (segs : list MemorySegment) (value : list Z) : M unit :=
  match segs with
  | [] => mret tt
  | seg :: rest =>
      vector_write_loop (Z.to_nat (seg_width seg)) seg 0 value;;
      vector_write_segments rest value
  end.

Definition cpu_internal_vector_write (address : Z) (value : list Z) : M unit :=
  segs ← vector_memory_segments address MMU_ACCESS_WRITE;
  vector_write_segments segs value.

Definition ram_write_accessible (virtual_address width : Z) (report_fault : bool) : M unit :=
  segs ← build_memory_segments virtual_address width MMU_ACCESS_WRITE CPU_EXCEPTION_STACK_FAULT
           report_fault;
  check_segments segs MMU_ACCESS_WRITE CPU_EXCEPTION_STACK_FAULT report_fault.

Definition instruction_address_valid_for_mode (address : Z) (m : CPUMode) (report_fault : bool) :
    M unit := fun s =>
  match (if mmu_enabled (cpu s)
         then mmu_translate (machine_ram s) (ptbr (cpu s)) (user_mode m) address MMU_ACCESS_EXECUTE
         else inl address) with
  | inr result => fault report_fault CPU_EXCEPTION_INSTRUCTION_PAGE_FAULT address
                    MMU_ACCESS_EXECUTE result s
  | inl physical_address =>
      match bus_fetch (bus s) physical_address 1 with
      | None => fault report_fault CPU_EXCEPTION_INSTRUCTION_ACCESS address
                  MMU_ACCESS_EXECUTE MMU_RESULT_OK s
      | Some _ => (Some tt, s)
      end
  end.

Definition instruction_address_valid (address : Z) : M unit :=
  m ← read_cpu mode;
  instruction_address_valid_for_mode address m true.

(** The common part of [fetch_u8], [fetch_u32_le] and [fetch_u64_le]. *)
Definition fetch_bytes (width : Z) : M Z :=
  at_ ← read_cpu pc;
  value ← memory_read at_ width MMU_ACCESS_EXECUTE false CPU_EXCEPTION_INSTRUCTION_ACCESS true;
  modify_cpu (fun c => set_pc (wrap64 (pc c + width)) c);;
  mret value.

Definition fetch_u8 : M Z := value ← fetch_bytes 1; mret (wrap8 value).
Definition cpu_internal_fetch_u8 : M Z := fetch_u8.
Definition fetch_u64_le : M Z := fetch_bytes 8.
Definition fetch_u32_le : M Z := value ← fetch_bytes 4; mret (wrap32 value).

Definition register_valid (reg : Z) : M unit :=
  if reg <? REGISTER_COUNT then mret tt else set_exception CPU_EXCEPTION_ILLEGAL_INSTRUCTION 0 0.

Definition fetch_register : M Z := reg ← fetch_u8; register_valid reg;; mret reg.

Definition fetch_register_pair : M (Z * Z) :=
  first ← fetch_u8;
  second ← fetch_u8;
  register_valid first;;
  register_valid second;;
  mret (first, second).

Definition stack_push_u64 (value : Z) : M unit :=
  sp ← read_cpu (fun c => get_register c REGISTER_SP);
  if sp <? 8
  then set_access_exception CPU_EXCEPTION_STACK_FAULT sp MMU_ACCESS_WRITE MMU_RESULT_OK
  else
    let next_sp := sp - 8 in
    memory_write next_sp 8 MMU_ACCESS_WRITE false CPU_EXCEPTION_STACK_FAULT true value;;
    modify_cpu (set_register REGISTER_SP next_sp).

Definition stack_pop_u64 : M Z :=
  sp ← read_cpu (fun c => get_register c REGISTER_SP);
  value ← memory_read sp 8 MMU_ACCESS_READ false CPU_EXCEPTION_STACK_FAULT true;
  modify_cpu (set_register REGISTER_SP (wrap64 (sp + 8)));;
  mret value.

Definition read_vector (vector_index : Z) : M Z :=
  c ← read_cpu id;
  if negb (vbr_enabled c) || (CPU_VECTOR_ENTRY_COUNT <=? vector_index) then exec_fail
  else
    let offset := wrap64 (vector_index * CPU_VECTOR_ENTRY_SIZE) in
    if UINT64_MAX - offset <? vbr c then exec_fail
    else
      let entry_address := vbr c + offset in
      valid ← read_ram (fun r => cpu_ram_range_valid r entry_address CPU_VECTOR_ENTRY_SIZE);
      exec_guard valid;;
      entry ← read_ram (fun r => ram_read r entry_address CPU_VECTOR_ENTRY_SIZE);
      handler ← exec_of_option entry;
      exec_guard (negb (handler =? UINT64_MAX));;
      instruction_address_valid_for_mode handler CPU_MODE_SUPERVISOR false;;
      mret handler.

(** The checks and stores of [enter_privileged_handler], run in supervisor
    mode; its outcome is [written]. *)
Definition write_handler_frame (previous_user : bool)
    (frame return_address saved_flags previous_sp : Z) : M unit :=
  ram_write_accessible frame 8 false;;
  ram_write_accessible (wrap64 (frame + 8)) 8 false;;
  (if previous_user then ram_write_accessible (wrap64 (frame + 16)) 8 false else mret tt);;
  memory_write frame 8 MMU_ACCESS_WRITE false CPU_EXCEPTION_STACK_FAULT false return_address;;
  memory_write (wrap64 (frame + 8)) 8 MMU_ACCESS_WRITE false CPU_EXCEPTION_STACK_FAULT false
    saved_flags;;
  if previous_user
  then memory_write (wrap64 (frame + 16)) 8 MMU_ACCESS_WRITE false CPU_EXCEPTION_STACK_FAULT
         false previous_sp
  else mret tt.

Definition enter_privileged_handler (handler return_address : Z) (exception_frame : bool) :
    M unit :=
  c ← read_cpu id;
  let previous_mode := mode c in
  let previous_user := user_mode previous_mode in
  let previous_sp := get_register c REGISTER_SP in
  let stack_top := if previous_user then ksp c else previous_sp in
  let frame_size := if previous_user then 24 else 16 in
  let saved_flags := make_saved_flags c exception_frame in
  if stack_top <? frame_size
  then set_access_exception CPU_EXCEPTION_STACK_FAULT stack_top MMU_ACCESS_WRITE MMU_RESULT_OK
  else
    let frame := stack_top - frame_size in
    modify_cpu (set_mode CPU_MODE_SUPERVISOR);;
    written ← exec_try (write_handler_frame previous_user frame return_address saved_flags
                previous_sp);
    match written with
    | None =>
        modify_cpu (fun c => set_register REGISTER_SP previous_sp (set_mode previous_mode c));;
        set_access_exception CPU_EXCEPTION_STACK_FAULT frame MMU_ACCESS_WRITE MMU_RESULT_OK
    | Some _ =>
        modify_cpu (fun c =>
          set_waiting false (set_pc handler
            (set_flags (Z.land (flags c) (not64 CPU_FLAG_INTERRUPT_ENABLE))
              (set_register REGISTER_SP frame c))))
    end.

(** A cause outside the enumeration becomes an illegal instruction. *)
Definition clamp_cause (c : CPU) : CPU :=
  let exception := wrap32 (ecause c) in
  if (exception <=? CPU_EXCEPTION_NONE) || (CPU_EXCEPTION_COUNT <=? exception)
  then set_ecause CPU_EXCEPTION_ILLEGAL_INSTRUCTION c else c.

Definition deliver_exception : M unit :=
  modify_cpu clamp_cause;;
  c ← read_cpu id;
  exec_guard (negb (exception_active c));;
  handler ← read_vector (CPU_VECTOR_EXCEPTION_BASE + wrap32 (ecause c));
  enter_privileged_handler handler (epc c) true;;
  modify_cpu (fun c => set_exception_active true (set_exception_pending false c)).

End core.

Arguments set_exception {D A} _ _ _ _ : simpl never.
Arguments set_access_exception {D A} _ _ _ _ _ : simpl never.
Arguments fault {D A} _ _ _ _ _ _ : simpl never.
Arguments record_exception : simpl never.
Arguments set_zero_negative_flags : simpl never.
Arguments set_add_flags : simpl never.
Arguments set_sub_flags : simpl never.
Arguments make_saved_flags : simpl never.
Arguments machine_ram {D} _ : simpl never.
