(* ===== verification/CpuInv.v ===== *)
(** The processor's invariant and the frame rules of its memory accesses.

    [machine_wf] is the type invariant of a CPU on its bus.  [BusClosed I],
    [FaultClosed I] and [FetchClosed I] are the interfaces the shared operations
    of src/cpu.c (translated loads and stores, faults, fetches) rely on to
    preserve a predicate [I]: they change only the bus, the exception registers
    and the program counter.  Each client
    property instantiates [I]. *)

From S2P Require Import Prelude Ram Mmu Interrupt Bus Isa CpuCore.
From stdpp Require Import base list numbers option.
From Stdlib Require Import ZArith Lia Bool.

#[local] Open Scope Z_scope.
#[local] Open Scope exec_scope.

Definition vector_ok (v : list Z) : Prop := length v = 16%nat /\ Forall is_u8 v.

Record cpu_wf (c : CPU) : Prop := {
  cw_registers : length (registers c) = 16%nat /\ Forall is_u64 (registers c);
  cw_vectors : length (vector_registers c) = 16%nat /\ Forall vector_ok (vector_registers c);
  cw_pc : is_u64 (pc c);
  cw_flags : is_u64 (flags c);
  cw_fp_status : is_u64 (fp_status c);
  cw_vbr : is_u64 (vbr c);
  cw_ptbr : is_u64 (ptbr c);
  cw_ksp : is_u64 (ksp c);
  cw_epc : is_u64 (epc c);
  cw_ecause : is_u64 (ecause c);
  cw_badaddr : is_u64 (badaddr c);
  cw_einfo : is_u64 (einfo c);
  cw_instruction_pc : is_u64 (instruction_pc c);
  cw_core_id : is_u32 (core_id c);
  cw_thread_id : is_u32 (thread_id c);
  cw_mmu : mmu_enabled c = true -> ptbr_set c = true
}.

Section inv.
Context {D : Type} {DI : DevInv D}.
Implicit Types (s : Machine D) (I : Machine D -> Prop).

(** A vector table that is set lies in RAM; a page-table root that is set is a
    page of RAM. *)
Record machine_wf s : Prop := {
  mw_cpu : cpu_wf (cpu s);
  mw_bus : bus_wf (bus s);
  mw_vbr : vbr_enabled (cpu s) = true ->
    Z.land (vbr (cpu s)) 7 = 0 /\
    cpu_ram_range_valid (machine_ram s) (vbr (cpu s)) CPU_VECTOR_TABLE_SIZE = true;
  mw_ptbr : ptbr_set (cpu s) = true -> mmu_root_valid (machine_ram s) (ptbr (cpu s)) = true
}.

(** Closed under what an access that reports no fault does. *)
Class BusClosed (I : Machine D -> Prop) : Prop := {
  fc_wf s : I s -> machine_wf s;
  fc_bus s b : I s -> bus_like (bus s) b -> I (set_bus b s)
}.

(** Closed under faults, if they are reported. *)
Class FaultClosed (I : Machine D -> Prop) (report : bool) : Prop :=
  fault_closed : report = true -> forall s e b i, I s -> is_u64 e -> is_u64 b -> is_u64 i ->
    I (set_cpu (record_exception e b i (cpu s)) s).

Class FetchClosed (I : Machine D -> Prop) : Prop := {
  fetch_bus : BusClosed I;
  fc_pc s v : I s -> is_u64 v -> I (set_cpu (set_pc v (cpu s)) s);
  fc_exception s e b i : I s -> is_u64 e -> is_u64 b -> is_u64 i ->
    I (set_cpu (record_exception e b i (cpu s)) s)
}.
#[export] Existing Instance fetch_bus.

#[export] Instance silent_closed I : FaultClosed I false.
Proof. done. Qed.
#[export] Instance fetch_fault_closed I report : FetchClosed I -> FaultClosed I report.
Proof. intros HI _. apply fc_exception. Qed.

Lemma machine_ram_wf s : machine_wf s -> ram_wf (machine_ram s).
Proof. intros Hs. apply (bw_world _ (mw_bus s Hs)). Qed.

Lemma register_u64 c r : cpu_wf c -> is_u64 (get_register c r).
Proof. intros Hc. apply (arr_get_Forall is_u64); [by vm_compute|apply Hc]. Qed.

Lemma vector_reg_ok c r : cpu_wf c -> 0 <= r < 16 -> vector_ok (get_vector c r).
Proof.
  intros Hc Hr. destruct (cw_vectors c Hc) as [Hl Hv]. unfold get_vector.
  rewrite Forall_forall in Hv. apply Hv, nth_In. lia.
Qed.

Lemma set_register_wf c r v : cpu_wf c -> is_u64 v -> cpu_wf (set_register r v c).
Proof.
  intros [[? ?]] Hv. split; simpl; try done. rewrite length_arr_set.
  split; [done|]. by apply arr_set_Forall.
Qed.

Lemma set_vector_wf c r v : cpu_wf c -> vector_ok v -> cpu_wf (set_vector r v c).
Proof.
  intros [? [? ?]] Hv. split; simpl; try done. rewrite length_insert.
  split; [done|]. by apply Forall_insert.
Qed.

Lemma record_exception_wf c e b i :
  cpu_wf c -> is_u64 e -> is_u64 b -> is_u64 i -> cpu_wf (record_exception e b i c).
Proof.
  intros Hc He Hb Hi. unfold record_exception. destruct (exception_pending c); [done|].
  destruct Hc. split; simpl; try done.
  assert (is_u64 CPU_EINFO_ORIGIN_USER) by by vm_compute.
  assert (is_u64 CPU_EINFO_MMU_ENABLED) by by vm_compute.
  destruct (user_mode (mode c)), (mmu_enabled c); auto with u64.
Qed.

Lemma record_exception_control c e b i :
  let c' := record_exception e b i c in
  registers c' = registers c /\ vector_registers c' = vector_registers c /\
  pc c' = pc c /\ flags c' = flags c /\ fp_status c' = fp_status c /\
  vbr c' = vbr c /\ ptbr c' = ptbr c /\ ksp c' = ksp c /\
  instruction_pc c' = instruction_pc c /\ core_id c' = core_id c /\ thread_id c' = thread_id c /\
  mode c' = mode c /\ halted c' = halted c /\ waiting c' = waiting c /\
  vbr_enabled c' = vbr_enabled c /\ ptbr_set c' = ptbr_set c /\ mmu_enabled c' = mmu_enabled c /\
  exception_active c' = exception_active c.
Proof. unfold record_exception. by destruct (exception_pending c). Qed.

(** Replacing the bus by a successor, or the CPU by one with the same control
    registers, preserves the invariant. *)
Lemma machine_wf_bus s b : machine_wf s -> bus_like (bus s) b -> machine_wf (set_bus b s).
Proof.
  intros [Hc Hb Hv Hp] (Hb' & E & _). split; simpl; [done|done|..];
    unfold machine_ram, mmu_root_valid, physical_range_valid, ram_contains, cpu_ram_range_valid
      in *; simpl; by rewrite E.
Qed.

Lemma machine_wf_cpu s c :
  machine_wf s -> cpu_wf c -> vbr c = vbr (cpu s) -> vbr_enabled c = vbr_enabled (cpu s) ->
  ptbr c = ptbr (cpu s) -> ptbr_set c = ptbr_set (cpu s) -> machine_wf (set_cpu c s).
Proof.
  intros [_ Hb Hv Hp] Hc E1 E2 E3 E4. split; simpl; [done|done|..]; by rewrite ?E1, ?E2, ?E3, ?E4.
Qed.

#[export] Instance machine_wf_closed : FetchClosed machine_wf.
Proof.
  split; [split; [done|apply machine_wf_bus]|..].
  - intros s v Hs Hv. apply machine_wf_cpu; [done| |done..]. destruct (mw_cpu s Hs). by split.
  - intros s e b i Hs He Hb Hi.
    pose proof (record_exception_control (cpu s) e b i) as H. simpl in H. destruct_and! H.
    apply machine_wf_cpu; [done| |done..]. by apply record_exception_wf; [apply mw_cpu|..].
Qed.
End inv.

(** ** Frame rules *)

Lemma keeps_true {S A} (I : S -> Prop) (m : Exec S A) Q : keeps I m Q -> keeps I m (fun _ => True).
Proof. intros H. by eapply keeps_mono. Qed.

(** [ok = f(...); if (!ok) ...] *)
Lemma keeps_try_bind {S A B} (I : S -> Prop) (m : Exec S A) (f : A -> Exec S B) g Q Q' :
  keeps I m Q -> (forall a, Q a -> keeps I (f a) Q') -> keeps I g Q' ->
  keeps I (exec_bind (exec_try m)
             (fun o => match o with Some a => f a | None => g end)) Q'.
Proof.
  intros Hm Hf Hg. eapply keeps_bind; [by apply keeps_try|]. intros [a|] Ha; [|done].
  apply Hf. by apply Ha.
Qed.

Section frame.
Context {D : Type} {DI : DevInv D} (I : Machine D -> Prop) {BC : BusClosed I}.

Lemma read_cpu_keeps {A} (f : CPU -> A) (Q : A -> Prop) :
  (forall c, cpu_wf c -> Q (f c)) -> keeps I (read_cpu f) Q.
Proof.
  intros Hf s Hs. split; [done|]. intros a [= <-]. apply Hf, (mw_cpu s), (fc_wf s Hs).
Qed.

Lemma read_ram_keeps {A} (f : RAM -> A) (Q : A -> Prop) :
  (forall r, ram_wf r -> Q (f r)) -> keeps I (read_ram f) Q.
Proof.
  intros Hf s Hs. split; [done|]. intros a [= <-]. apply Hf, machine_ram_wf, (fc_wf s Hs).
Qed.

Lemma on_bus_keeps {A} (m : Exec (Bus D) A) Q :
  (forall b0, keeps (bus_like b0) m Q) -> keeps I (on_bus m) Q.
Proof.
  intros Hm s Hs. unfold on_bus.
  destruct (Hm (bus s) (bus s) (bus_like_refl _ (mw_bus s (fc_wf s Hs)))) as [Hl HQ].
  destruct (m (bus s)) as [r b]. simpl in *. split; [by apply fc_bus|done].
Qed.

Lemma access_info_u64 access result :
  is_u64 (Z.lor (Z.lor CPU_EINFO_BADADDR_VALID (access_exception_info access))
            (mmu_result_exception_info result)).
Proof. by destruct access, result; vm_compute. Qed.

Context {report : bool} {RC : FaultClosed I report}.

Lemma fault_keeps {A} e a access result (Q : A -> Prop) :
  is_u64 e -> is_u64 a -> keeps I (fault report e a access result) Q.
Proof.
  intros He Ha s Hs. unfold fault. destruct report; [|by split].
  split; [|by intros ? [=]]. apply fault_closed; [done..|]. apply access_info_u64.
Qed.

Lemma page_fault_u64 access : is_u64 (page_fault_for_access access).
Proof. by destruct access; vm_compute. Qed.

Lemma translate_address_keeps va access :
  is_u64 va -> keeps I (translate_address va access report) is_u64.
Proof.
  intros Hva s Hs. unfold translate_address. destruct (negb _).
  { split; [done|]. by intros ? [= <-]. }
  destruct (mmu_translate _ _ _ _ _) as [pa|e] eqn:E.
  - split; [done|]. intros ? [= <-]. eapply translate_u64; [|exact E].
    apply machine_ram_wf, (fc_wf s Hs).
  - apply fault_keeps; [apply page_fault_u64|done|done].
Qed.

Definition seg_ok (g : MemorySegment) : Prop :=
  is_u64 (seg_virtual_address g) /\ is_u64 (seg_physical_address g) /\
  1 <= seg_width g <= 16 /\ 0 <= seg_byte_offset g.

Lemma page_chunk cursor :
  1 <= MMU_PAGE_SIZE - Z.land cursor MMU_PAGE_MASK <= MMU_PAGE_SIZE.
Proof.
  change MMU_PAGE_MASK with (2 ^ 12 - 1). rewrite land_low_mask by lia.
  unfold MMU_PAGE_SIZE. Z.to_euclidean_division_equations. lia.
Qed.

Lemma segment_loop_keeps room cursor remaining off access :
  is_u64 cursor -> 0 <= remaining <= 16 -> 0 <= off ->
  keeps I (segment_loop room cursor remaining off access report) (Forall seg_ok).
Proof.
  revert cursor remaining off. induction room as [|room IH]; intros cursor remaining off Hc Hr Ho;
    cbn [segment_loop]; destruct (Z.eqb_spec remaining 0);
    try (apply keeps_ret; constructor); [apply keeps_fail|].
  pose proof (page_chunk cursor) as Hpage. set (left_in_page := MMU_PAGE_SIZE - _) in *.
  set (chunk := if _ <? _ then _ else _).
  assert (1 <= chunk <= remaining) as Hchunk
    by (unfold chunk; destruct (Z.ltb_spec remaining left_in_page); lia).
  eapply keeps_bind; [by apply translate_address_keeps|]. intros pa Hpa.
  eapply keeps_bind; [apply IH; [apply wrap64_u64|lia|lia]|]. intros rest Hrest.
  apply keeps_ret. constructor; [|done]. split_and!; simpl; (done || lia).
Qed.

Lemma build_memory_segments_keeps va width access e :
  is_u64 va -> 0 <= width -> is_u64 e ->
  keeps I (build_memory_segments va width access e report) (Forall seg_ok).
Proof.
  intros Hva Hw He. unfold build_memory_segments.
  eapply keeps_bind; [by apply (read_cpu_keeps _ (fun _ => True))|]. intros mmu _.
  destruct (_ || _) eqn:Eg.
  - apply fault_keeps; [destruct mmu; [apply page_fault_u64|done]|done].
  - rewrite !orb_false_iff, Z.eqb_neq, !Z.ltb_ge in Eg. unfold VECTOR_REGISTER_SIZE in Eg.
    destruct (negb mmu); [|by apply segment_loop_keeps; (done || lia)].
    apply keeps_ret. constructor; [|constructor]. split_and!; simpl; (done || lia).
Qed.

Lemma read_segment_keeps g access use_bus :
  seg_ok g -> keeps I (read_segment g access use_bus) is_u64.
Proof.
  intros (_ & _ & Hw & _). unfold read_segment. destruct (bool_decide _); [|destruct use_bus].
  - intros s Hs. split; [done|]. intros v Hv. eapply bus_fetch_u64; [|  |exact Hv]; [|lia].
    apply (mw_bus s), (fc_wf s Hs).
  - apply on_bus_keeps. intros b0. apply bus_read_keeps. lia.
  - intros s Hs. split; [done|]. intros v Hv. eapply ram_read_u64; [|  |exact Hv]; [|lia].
    apply machine_ram_wf, (fc_wf s Hs).
Qed.

Lemma read_segments_keeps segs access use_bus e result :
  Forall seg_ok segs -> is_u64 e -> is_u64 result ->
  keeps I (read_segments segs access use_bus e report result) is_u64.
Proof.
  intros Hsegs He. revert result. induction Hsegs as [|g segs Hg Hsegs IH]; intros result Hr; simpl.
  { by apply keeps_ret. }
  eapply keeps_bind; [by apply keeps_try, read_segment_keeps|]. intros [part|] Hp; simpl.
  - apply IH. auto with u64.
  - apply fault_keeps; [done|apply Hg].
Qed.

Lemma memory_read_keeps va width access use_bus e :
  is_u64 va -> 0 <= width -> is_u64 e ->
  keeps I (memory_read va width access use_bus e report) is_u64.
Proof.
  intros Hva Hw He. eapply keeps_bind; [by apply build_memory_segments_keeps|].
  intros segs Hsegs. apply read_segments_keeps; [done..|by vm_compute].
Qed.

Lemma check_segments_keeps segs access e :
  Forall seg_ok segs -> is_u64 e ->
  keeps I (check_segments segs access e report) (fun _ => True).
Proof.
  intros Hsegs He. induction Hsegs as [|g segs Hg Hsegs IH]; simpl; [by apply keeps_ret|].
  eapply keeps_bind; [by apply (read_ram_keeps _ (fun _ => True))|]. intros ok _.
  destruct ok; [done|]. apply fault_keeps; [done|apply Hg].
Qed.

Lemma ram_store_keeps b0 a w v : 0 <= w -> keeps (bus_like b0) (ram_store (D:=D) a w v) (fun _ => True).
Proof.
  intros Hw b Hl. unfold ram_store. destruct (ram_write _ _ _ _) as [r|] eqn:E; [|by split].
  split; [|done]. destruct (ram_write_wf _ _ _ _ _ (proj1 (bw_world b (proj1 Hl))) Hw E).
  by apply set_bus_ram_like.
Qed.

Lemma write_segments_keeps segs access use_bus e value :
  Forall seg_ok segs -> is_u64 e -> is_u64 value ->
  keeps I (write_segments segs access use_bus e report value) (fun _ => True).
Proof.
  intros Hsegs He Hv. induction Hsegs as [|g segs Hg Hsegs IH]; cbn [write_segments].
  { by apply keeps_ret. }
  eapply keeps_bind.
  { apply (keeps_try _ _ (fun _ => True)), on_bus_keeps. intros b0. destruct Hg as (_ & _ & ? & ?).
    destruct use_bus; [apply bus_write_keeps; [lia|]|apply ram_store_keeps; lia].
    apply shiftr_u64; [done|lia]. }
  intros [?|] _; [done|]. apply fault_keeps; [done|apply Hg].
Qed.

Lemma memory_write_keeps va width access use_bus e value :
  is_u64 va -> 0 <= width -> is_u64 e -> is_u64 value ->
  keeps I (memory_write va width access use_bus e report value) (fun _ => True).
Proof.
  intros Hva Hw He Hv. eapply keeps_bind; [by apply build_memory_segments_keeps|].
  intros segs Hsegs. apply (keeps_bind _ _ _ (fun _ => True)); [|intros ? _; by apply write_segments_keeps].
  destruct use_bus; [by apply keeps_ret|by apply check_segments_keeps].
Qed.

Lemma ram_write_accessible_keeps va width :
  is_u64 va -> 0 <= width -> keeps I (ram_write_accessible va width report) (fun _ => True).
Proof.
  intros Hva Hw. eapply keeps_bind.
  { apply build_memory_segments_keeps; [done..|by vm_compute]. }
  intros segs Hsegs. apply check_segments_keeps; [done|by vm_compute].
Qed.

Lemma instruction_address_valid_for_mode_keeps a m :
  is_u64 a -> keeps I (instruction_address_valid_for_mode a m report) (fun _ => True).
Proof.
  intros Ha s Hs. unfold instruction_address_valid_for_mode.
  destruct (if mmu_enabled (cpu s) then _ else _) as [pa|e].
  - destruct (bus_fetch _ _ _); [done|]. by apply fault_keeps; [vm_compute|..].
  - by apply fault_keeps; [vm_compute|..].
Qed.

End frame.

Section fetch.
Context {D : Type} {DI : DevInv D} (I : Machine D -> Prop) {FC : FetchClosed I}.

Lemma set_exception_keeps {A} e b i (Q : A -> Prop) :
  is_u64 e -> is_u64 b -> is_u64 i -> keeps I (set_exception e b i) Q.
Proof. intros He Hb Hi s Hs. split; [by apply fc_exception|]. by intros ? [=]. Qed.

Lemma set_access_exception_keeps {A} e a access result (Q : A -> Prop) :
  is_u64 e -> is_u64 a -> keeps I (set_access_exception e a access result) Q.
Proof. intros He Ha. apply set_exception_keeps; [done..|]. apply access_info_u64. Qed.

Lemma illegal_instruction_keeps {A} (Q : A -> Prop) :
  keeps I cpu_internal_illegal_instruction Q.
Proof. by apply set_exception_keeps; vm_compute. Qed.

Lemma require_supervisor_keeps : keeps I require_supervisor (fun _ => True).
Proof.
  eapply keeps_bind; [by apply (read_cpu_keeps I _ (fun _ => True))|]. intros m _.
  destruct (user_mode m); [by apply set_exception_keeps; vm_compute|by apply keeps_ret].
Qed.

Lemma register_valid_keeps r : keeps I (register_valid r) (fun _ => r < 16).
Proof.
  unfold register_valid. destruct (Z.ltb_spec r REGISTER_COUNT); [by apply keeps_ret|].
  by apply set_exception_keeps; vm_compute.
Qed.

Lemma instruction_address_valid_keeps a :
  is_u64 a -> keeps I (instruction_address_valid a) (fun _ => True).
Proof.
  intros Ha. eapply keeps_bind; [by apply (read_cpu_keeps I _ (fun _ => True))|].
  intros m _. by apply (instruction_address_valid_for_mode_keeps I).
Qed.

Lemma fetch_bytes_keeps width : 0 <= width -> keeps I (fetch_bytes width) is_u64.
Proof.
  intros Hw. eapply keeps_bind; [apply (read_cpu_keeps I _ is_u64), cw_pc|]. intros a Ha.
  eapply keeps_bind; [apply (memory_read_keeps I); [done..|by vm_compute]|]. intros v Hv.
  apply (keeps_bind _ _ _ (fun _ => True)); [|intros ? _; by apply keeps_ret].
  intros s Hs. split; [apply fc_pc; [done|apply wrap64_u64]|]. by intros.
Qed.

Lemma fetch_u8_keeps : keeps I fetch_u8 is_u8.
Proof.
  eapply keeps_bind; [apply fetch_bytes_keeps; lia|]. intros v _. apply keeps_ret, wrap8_u8.
Qed.

Lemma fetch_u32_keeps : keeps I fetch_u32_le is_u32.
Proof.
  eapply keeps_bind; [apply fetch_bytes_keeps; lia|]. intros v _. apply keeps_ret, wrap32_u32.
Qed.

Lemma fetch_u64_keeps : keeps I fetch_u64_le is_u64.
Proof. apply fetch_bytes_keeps. lia. Qed.

Definition reg_ok (r : Z) : Prop := 0 <= r < 16.

Lemma fetch_register_keeps : keeps I fetch_register reg_ok.
Proof.
  eapply keeps_bind; [apply fetch_u8_keeps|]. intros r Hr.
  eapply keeps_bind; [apply register_valid_keeps|]. intros ? Hv. apply keeps_ret.
  unfold reg_ok, is_u8 in *. lia.
Qed.

Lemma fetch_register_pair_keeps :
  keeps I fetch_register_pair (fun p => reg_ok p.1 /\ reg_ok p.2).
Proof.
  eapply keeps_bind; [apply fetch_u8_keeps|]. intros r1 H1.
  eapply keeps_bind; [apply fetch_u8_keeps|]. intros r2 H2.
  eapply keeps_bind; [apply register_valid_keeps|]. intros ? H3.
  eapply keeps_bind; [apply register_valid_keeps|]. intros ? H4. apply keeps_ret.
  unfold reg_ok, is_u8 in *. simpl. lia.
Qed.

Lemma read_register_keeps r : keeps I (read_cpu (fun c => get_register c r)) is_u64.
Proof. apply (read_cpu_keeps I). intros c Hc. by apply register_u64. Qed.
End fetch.

Section frame_entry.
Context {D : Type} {DI : DevInv D} (I : Machine D -> Prop) {BC : BusClosed I}.

Lemma frame_write_keeps a v :
  is_u64 a -> is_u64 v ->
  keeps I (memory_write a 8 MMU_ACCESS_WRITE false CPU_EXCEPTION_STACK_FAULT false v)
    (fun _ => True).
Proof. intros Ha Hv. by apply (memory_write_keeps I); [|vm_compute..|]. Qed.

Lemma write_handler_frame_keeps user frame ret saved sp :
  is_u64 frame -> is_u64 ret -> is_u64 saved -> is_u64 sp ->
  keeps I (write_handler_frame user frame ret saved sp) (fun _ => True).
Proof.
  intros Hf Hr Hs Hsp. unfold write_handler_frame.
  assert (forall a, is_u64 a -> keeps I (ram_write_accessible a 8 false) (fun _ => True)) as Hacc
    by (intros a Ha; by apply (ram_write_accessible_keeps I)).
  pose proof frame_write_keeps as Hw. pose proof wrap64_u64 as Hwrap.
  eapply keeps_bind; [by apply Hacc|]. intros _ _.
  eapply keeps_bind; [by apply Hacc|]. intros _ _.
  eapply (keeps_bind _ _ _ (fun _ => True)).
  { destruct user; [by apply Hacc|by apply keeps_ret]. }
  intros _ _. eapply keeps_bind; [by apply Hw|]. intros _ _.
  eapply keeps_bind; [by apply Hw|]. intros _ _. destruct user; [by apply Hw|by apply keeps_ret].
Qed.
End frame_entry.

Lemma register_written c r v :
  cpu_wf c -> reg_ok r -> get_register (set_register r v c) r = v.
Proof.
  intros Hc Hr. unfold get_register, set_register. simpl. apply arr_get_set.
  destruct (cw_registers c Hc) as [-> _]. unfold reg_ok in Hr. lia.
Qed.
