(* ===== verification/CpuExec.v ===== *)
(** The scalar instruction handlers of src/cpu.c, the opcode table,
    [cpu_init], [cpu_set_vector_base].

    One definition per [execute_*] function, under the same name. *)

From S2P Require Import Prelude Ram Mmu Interrupt Bus Isa CpuCore.
From stdpp Require Import base list numbers option.
From Stdlib Require Import ZArith Lia Bool.

#[local] Open Scope Z_scope.
#[local] Open Scope exec_scope.

Definition twos_complement_magnitude (value : Z) : Z :=
  if has_bits value SIGN_BIT then wrap64 (not64 value + 1) else value.

Definition apply_twos_complement_sign (magnitude : Z) (negative : bool) : Z :=
  if negative then wrap64 (not64 magnitude + 1) else magnitude.

Definition arithmetic_shift_right (value amount : Z) : Z :=
  if amount =? 0 then value
  else
    let result := Z.shiftr value amount in
    if has_bits value SIGN_BIT
    then Z.lor result (shl64 UINT64_MAX (REGISTER_BITS - amount)) else result.

Definition extend_mask (width : Z) : Z :=
  if width =? 1 then 0xFF else if width =? 2 then 0xFFFF else 0xFFFFFFFF.

(** The flag tests of [evaluate_condition] and of the conditional jumps. *)
Definition flag_set (flag : Z) (c : CPU) : bool := has_bits (flags c) flag.

Definition condition_matches (condition : Z) (c : CPU) : bool :=
  let zero := flag_set CPU_FLAG_ZERO c in
  let negative := flag_set CPU_FLAG_NEGATIVE c in
  let carry := flag_set CPU_FLAG_CARRY c in
  let overflow := flag_set CPU_FLAG_OVERFLOW c in
  let unordered := flag_set CPU_FLAG_UNORDERED c in
  if condition =? CPU_CONDITION_ALWAYS then true
  else if condition =? CPU_CONDITION_EQ then zero
  else if condition =? CPU_CONDITION_NE then negb zero
  else if condition =? CPU_CONDITION_LT then negb unordered && negb (eqb negative overflow)
  else if condition =? CPU_CONDITION_LE
    then negb unordered && (zero || negb (eqb negative overflow))
  else if condition =? CPU_CONDITION_GT
    then negb unordered && negb zero && eqb negative overflow
  else if condition =? CPU_CONDITION_GE then negb unordered && eqb negative overflow
  else if condition =? CPU_CONDITION_LTU then negb carry
  else if condition =? CPU_CONDITION_LEU then negb carry || zero
  else if condition =? CPU_CONDITION_GTU then carry && negb zero
  else if condition =? CPU_CONDITION_GEU then carry
  else if condition =? CPU_CONDITION_ORDERED then negb unordered
  else unordered.

Section exec.
Context {D : Type}.
Abbreviation M := (Exec (Machine D)).

Definition reg (r : Z) : M Z := read_cpu (fun c => get_register c r).
Definition set_reg (r v : Z) : M unit := modify_cpu (set_register r v).

(** [cpu->registers[d] = v; set_zero_negative_flags(cpu, cpu->registers[d]);] *)
Definition set_reg_zn (r v : Z) : M unit :=
  set_reg r v;; modify_cpu (set_zero_negative_flags v).

Definition execute_nop : M unit := mret tt.

Definition execute_halt : M unit :=
  require_supervisor;;
  modify_cpu (fun c => set_halted true (set_waiting false c)).

Definition execute_wait : M unit := modify_cpu (set_waiting true).

Definition execute_movi64 : M unit :=
  destination ← fetch_register;
  immediate ← fetch_u64_le;
  set_reg destination immediate.

Definition execute_mov : M unit :=
  '(destination, source) ← fetch_register_pair;
  v ← reg source;
  set_reg destination v.

Definition fetch_register_immediate32 : M (Z * Z) :=
  r ← fetch_register;
  immediate ← fetch_u32_le;
  mret (r, immediate).

Definition execute_movi32u : M unit :=
  '(destination, immediate) ← fetch_register_immediate32;
  set_reg destination immediate.

Definition execute_movi32s : M unit :=
  '(destination, immediate) ← fetch_register_immediate32;
  set_reg destination (sign_extend immediate 4).

Definition execute_addi32 : M unit :=
  '(destination, immediate) ← fetch_register_immediate32;
  left ← reg destination;
  let right := sign_extend immediate 4 in
  let result := wrap64 (left + right) in
  set_reg destination result;;
  modify_cpu (set_add_flags left right result).

Definition execute_cmpi32 : M unit :=
  '(left_register, immediate) ← fetch_register_immediate32;
  left ← reg left_register;
  let right := sign_extend immediate 4 in
  modify_cpu (set_sub_flags left right (wrap64 (left - right))).

Definition execute_andi32 : M unit :=
  '(destination, immediate) ← fetch_register_immediate32;
  v ← reg destination;
  set_reg_zn destination (Z.land v immediate).

Definition execute_ori32 : M unit :=
  '(destination, immediate) ← fetch_register_immediate32;
  v ← reg destination;
  set_reg_zn destination (Z.lor v immediate).

Definition execute_xori32 : M unit :=
  '(destination, immediate) ← fetch_register_immediate32;
  v ← reg destination;
  set_reg_zn destination (Z.lxor v immediate).

Definition execute_testi32 : M unit :=
  '(left_register, immediate) ← fetch_register_immediate32;
  v ← reg left_register;
  modify_cpu (set_zero_negative_flags (Z.land v immediate)).

Definition execute_lea : M unit :=
  '(destination, base) ← fetch_register_pair;
  displacement ← fetch_u32_le;
  b ← reg base;
  set_reg destination (wrap64 (b + sign_extend displacement 4)).

Definition data_read (address width : Z) : M Z :=
  memory_read address width MMU_ACCESS_READ true CPU_EXCEPTION_DATA_ACCESS true.
Definition data_write (address width value : Z) : M unit :=
  memory_write address width MMU_ACCESS_WRITE true CPU_EXCEPTION_DATA_ACCESS true value.

Definition execute_load (width : Z) (is_signed : bool) : M unit :=
  '(destination, address_register) ← fetch_register_pair;
  address ← reg address_register;
  value ← data_read address width;
  set_reg destination (if is_signed then sign_extend value width else value).

Definition execute_load8u : M unit := execute_load 1 false.
Definition execute_load16u : M unit := execute_load 2 false.
Definition execute_load32u : M unit := execute_load 4 false.
Definition execute_load64 : M unit := execute_load 8 false.
Definition execute_load8s : M unit := execute_load 1 true.
Definition execute_load16s : M unit := execute_load 2 true.
Definition execute_load32s : M unit := execute_load 4 true.

Definition execute_store (width : Z) : M unit :=
  '(address_register, source) ← fetch_register_pair;
  address ← reg address_register;
  v ← reg source;
  data_write address width v.

Definition execute_store8 : M unit := execute_store 1.
Definition execute_store16 : M unit := execute_store 2.
Definition execute_store32 : M unit := execute_store 4.
Definition execute_store64 : M unit := execute_store 8.

Definition execute_load_offset (width : Z) (is_signed : bool) : M unit :=
  '(destination, base) ← fetch_register_pair;
  displacement ← fetch_u32_le;
  b ← reg base;
  value ← data_read (wrap64 (b + sign_extend displacement 4)) width;
  set_reg destination (if is_signed then sign_extend value width else value).

Definition execute_load8uo : M unit := execute_load_offset 1 false.
Definition execute_load16uo : M unit := execute_load_offset 2 false.
Definition execute_load32uo : M unit := execute_load_offset 4 false.
Definition execute_load64o : M unit := execute_load_offset 8 false.
Definition execute_load8so : M unit := execute_load_offset 1 true.
Definition execute_load16so : M unit := execute_load_offset 2 true.
Definition execute_load32so : M unit := execute_load_offset 4 true.

Definition execute_store_offset (width : Z) : M unit :=
  '(base, source) ← fetch_register_pair;
  displacement ← fetch_u32_le;
  b ← reg base;
  v ← reg source;
  data_write (wrap64 (b + sign_extend displacement 4)) width v.

Definition execute_store8o : M unit := execute_store_offset 1.
Definition execute_store16o : M unit := execute_store_offset 2.
Definition execute_store32o : M unit := execute_store_offset 4.
Definition execute_store64o : M unit := execute_store_offset 8.

Definition execute_add : M unit :=
  '(destination, source) ← fetch_register_pair;
  left ← reg destination;
  right ← reg source;
  let result := wrap64 (left + right) in
  set_reg destination result;;
  modify_cpu (set_add_flags left right result).

Definition execute_sub : M unit :=
  '(destination, source) ← fetch_register_pair;
  left ← reg destination;
  right ← reg source;
  let result := wrap64 (left - right) in
  set_reg destination result;;
  modify_cpu (set_sub_flags left right result).

Definition execute_mul : M unit :=
  '(destination, source) ← fetch_register_pair;
  left ← reg destination;
  right ← reg source;
  let result := wrap64 (left * right) in
  let overflow := negb (left =? 0) && (UINT64_MAX / left <? right) in
  set_reg_zn destination result;;
  modify_cpu (or_flag overflow CPU_FLAG_CARRY).

Definition execute_divu : M unit :=
  '(destination, source) ← fetch_register_pair;
  divisor ← reg source;
  if divisor =? 0 then set_exception CPU_EXCEPTION_DIVIDE_BY_ZERO 0 0
  else
    v ← reg destination;
    set_reg_zn destination (v / divisor).

Definition execute_modu : M unit :=
  '(destination, source) ← fetch_register_pair;
  divisor ← reg source;
  if divisor =? 0 then set_exception CPU_EXCEPTION_DIVIDE_BY_ZERO 0 0
  else
    v ← reg destination;
    set_reg_zn destination (v mod divisor).

Definition execute_divs : M unit :=
  '(destination, source) ← fetch_register_pair;
  dividend ← reg destination;
  divisor ← reg source;
  if divisor =? 0 then set_exception CPU_EXCEPTION_DIVIDE_BY_ZERO 0 0
  else if (dividend =? SIGN_BIT) && (divisor =? UINT64_MAX)
  then set_exception CPU_EXCEPTION_ARITHMETIC_OVERFLOW 0 0
  else
    let negative := has_bits (Z.lxor dividend divisor) SIGN_BIT in
    let result := twos_complement_magnitude dividend / twos_complement_magnitude divisor in
    set_reg_zn destination (apply_twos_complement_sign result negative).

Definition execute_mods : M unit :=
  '(destination, source) ← fetch_register_pair;
  dividend ← reg destination;
  divisor ← reg source;
  if divisor =? 0 then set_exception CPU_EXCEPTION_DIVIDE_BY_ZERO 0 0
  else
    let result := twos_complement_magnitude dividend mod twos_complement_magnitude divisor in
    set_reg_zn destination (apply_twos_complement_sign result (has_bits dividend SIGN_BIT)).

Definition execute_and : M unit :=
  '(destination, source) ← fetch_register_pair;
  left ← reg destination;
  right ← reg source;
  set_reg_zn destination (Z.land left right).

Definition execute_or : M unit :=
  '(destination, source) ← fetch_register_pair;
  left ← reg destination;
  right ← reg source;
  set_reg_zn destination (Z.lor left right).

Definition execute_xor : M unit :=
  '(destination, source) ← fetch_register_pair;
  left ← reg destination;
  right ← reg source;
  set_reg_zn destination (Z.lxor left right).

Definition execute_not : M unit :=
  destination ← fetch_register;
  v ← reg destination;
  set_reg_zn destination (not64 v).

Definition fetch_shift_operands : M (Z * Z) :=
  destination ← fetch_u8;
  amount ← fetch_u8;
  register_valid destination;;
  if REGISTER_BITS <=? amount
  then set_exception CPU_EXCEPTION_ILLEGAL_INSTRUCTION 0 0
  else mret (destination, amount).

Definition execute_shl : M unit :=
  '(destination, amount) ← fetch_shift_operands;
  v ← reg destination;
  set_reg_zn destination (shl64 v amount).

Definition execute_shr : M unit :=
  '(destination, amount) ← fetch_shift_operands;
  v ← reg destination;
  set_reg_zn destination (Z.shiftr v amount).

Definition execute_sar : M unit :=
  '(destination, amount) ← fetch_shift_operands;
  v ← reg destination;
  set_reg_zn destination (arithmetic_shift_right v amount).

Definition execute_shlv : M unit :=
  '(destination, amount_register) ← fetch_register_pair;
  a ← reg amount_register;
  v ← reg destination;
  set_reg_zn destination (shl64 v (Z.land a 63)).

Definition execute_shrv : M unit :=
  '(destination, amount_register) ← fetch_register_pair;
  a ← reg amount_register;
  v ← reg destination;
  set_reg_zn destination (Z.shiftr v (Z.land a 63)).

Definition execute_sarv : M unit :=
  '(destination, amount_register) ← fetch_register_pair;
  a ← reg amount_register;
  v ← reg destination;
  set_reg_zn destination (arithmetic_shift_right v (Z.land a 63)).

Definition execute_extend (width : Z) (is_signed : bool) : M unit :=
  '(destination, source) ← fetch_register_pair;
  v ← reg source;
  let value := Z.land v (extend_mask width) in
  set_reg destination (if is_signed then sign_extend value width else value).

Definition execute_sext8 : M unit := execute_extend 1 true.
Definition execute_sext16 : M unit := execute_extend 2 true.
Definition execute_sext32 : M unit := execute_extend 4 true.
Definition execute_zext8 : M unit := execute_extend 1 false.
Definition execute_zext16 : M unit := execute_extend 2 false.
Definition execute_zext32 : M unit := execute_extend 4 false.

Definition execute_cmp : M unit :=
  '(left_register, right_register) ← fetch_register_pair;
  left ← reg left_register;
  right ← reg right_register;
  modify_cpu (set_sub_flags left right (wrap64 (left - right))).

Definition jump_to (target : Z) : M unit := modify_cpu (set_pc target).

Definition execute_branch (condition : bool) : M unit :=
  target ← fetch_u64_le;
  if negb condition then mret tt
  else
    instruction_address_valid target;;
    jump_to target.

Definition execute_jump : M unit := execute_branch true.

Definition execute_jumpr : M unit :=
  target_register ← fetch_register;
  target ← reg target_register;
  instruction_address_valid target;;
  jump_to target.

Definition relative_target (displacement : Z) : M Z :=
  read_cpu (fun c => wrap64 (pc c + sign_extend displacement 4)).

Definition execute_jumprel : M unit :=
  displacement ← fetch_u32_le;
  target ← relative_target displacement;
  instruction_address_valid target;;
  jump_to target.

Definition evaluate_condition (condition : Z) : M bool :=
  if CPU_CONDITION_COUNT <=? condition
  then set_exception CPU_EXCEPTION_ILLEGAL_INSTRUCTION 0 0
  else read_cpu (condition_matches condition).

Definition execute_brcc : M unit :=
  condition ← fetch_u8;
  displacement ← fetch_u32_le;
  matches ← evaluate_condition condition;
  if negb matches then mret tt
  else
    target ← relative_target displacement;
    instruction_address_valid target;;
    jump_to target.

Definition branch_if (f : CPU -> bool) : M unit :=
  condition ← read_cpu f; execute_branch condition.

Definition execute_jz : M unit := branch_if (flag_set CPU_FLAG_ZERO).
Definition execute_jnz : M unit := branch_if (fun c => negb (flag_set CPU_FLAG_ZERO c)).
Definition execute_jlt : M unit := branch_if (fun c =>
  negb (flag_set CPU_FLAG_UNORDERED c) &&
  negb (eqb (flag_set CPU_FLAG_NEGATIVE c) (flag_set CPU_FLAG_OVERFLOW c))).
Definition execute_jle : M unit := branch_if (fun c =>
  negb (flag_set CPU_FLAG_UNORDERED c) &&
  (flag_set CPU_FLAG_ZERO c ||
   negb (eqb (flag_set CPU_FLAG_NEGATIVE c) (flag_set CPU_FLAG_OVERFLOW c)))).
Definition execute_jgt : M unit := branch_if (fun c =>
  negb (flag_set CPU_FLAG_UNORDERED c) && negb (flag_set CPU_FLAG_ZERO c) &&
  eqb (flag_set CPU_FLAG_NEGATIVE c) (flag_set CPU_FLAG_OVERFLOW c)).
Definition execute_jge : M unit := branch_if (fun c =>
  negb (flag_set CPU_FLAG_UNORDERED c) &&
  eqb (flag_set CPU_FLAG_NEGATIVE c) (flag_set CPU_FLAG_OVERFLOW c)).
Definition execute_jltu : M unit := branch_if (fun c => negb (flag_set CPU_FLAG_CARRY c)).
Definition execute_jleu : M unit := branch_if (fun c =>
  negb (flag_set CPU_FLAG_CARRY c) || flag_set CPU_FLAG_ZERO c).
Definition execute_jgtu : M unit := branch_if (fun c =>
  flag_set CPU_FLAG_CARRY c && negb (flag_set CPU_FLAG_ZERO c)).
Definition execute_jgeu : M unit := branch_if (flag_set CPU_FLAG_CARRY).

(** [stack_push_u64(cpu, ram, cpu->pc)] *)
Definition push_pc : M unit := p ← read_cpu pc; stack_push_u64 p.

Definition execute_call : M unit :=
  target ← fetch_u64_le;
  instruction_address_valid target;;
  push_pc;;
  jump_to target.

Definition execute_callr : M unit :=
  target_register ← fetch_register;
  target ← reg target_register;
  instruction_address_valid target;;
  push_pc;;
  jump_to target.

Definition execute_callrel : M unit :=
  displacement ← fetch_u32_le;
  target ← relative_target displacement;
  instruction_address_valid target;;
  push_pc;;
  jump_to target.

Definition execute_ret : M unit :=
  sp ← reg REGISTER_SP;
  return_address ← memory_read sp 8 MMU_ACCESS_READ false CPU_EXCEPTION_STACK_FAULT true;
  instruction_address_valid return_address;;
  set_reg REGISTER_SP (wrap64 (sp + 8));;
  jump_to return_address.

Definition execute_push : M unit :=
  source ← fetch_register;
  v ← reg source;
  stack_push_u64 v.

Definition execute_pop : M unit :=
  destination ← fetch_register;
  value ← stack_pop_u64;
  set_reg destination value.

Definition execute_ei : M unit :=
  require_supervisor;;
  modify_cpu (fun c => set_flags (Z.lor (flags c) CPU_FLAG_INTERRUPT_ENABLE) c).

Definition execute_di : M unit :=
  require_supervisor;;
  modify_cpu (fun c => set_flags (Z.land (flags c) (not64 CPU_FLAG_INTERRUPT_ENABLE)) c).

Definition stack_read (address : Z) : M Z :=
  memory_read address 8 MMU_ACCESS_READ false CPU_EXCEPTION_STACK_FAULT true.

(** The commit of [execute_iret], after every check has passed. *)
Definition iret_commit (return_mode : CPUMode) (sp saved_user_sp return_address saved_flags : Z)
    (c : CPU) : CPU :=
  let c := if user_mode return_mode
           then set_register REGISTER_SP saved_user_sp (set_ksp (wrap64 (sp + 24)) c)
           else set_register REGISTER_SP (wrap64 (sp + 16)) c in
  let c := set_mode return_mode
             (set_flags (Z.land saved_flags CPU_FLAG_MASK) (set_pc return_address c)) in
  if has_bits saved_flags CPU_SAVED_FLAG_EXCEPTION_FRAME then set_exception_active false c else c.

Definition execute_iret : M unit :=
  require_supervisor;;
  sp ← reg REGISTER_SP;
  if UINT64_MAX - 8 <? sp then exec_fail
  else
    return_address ← stack_read sp;
    saved_flags ← stack_read (wrap64 (sp + 8));
    let return_mode := if has_bits saved_flags CPU_SAVED_FLAG_USER_MODE
                       then CPU_MODE_USER else CPU_MODE_SUPERVISOR in
    saved_user_sp ← (if user_mode return_mode
                     then if UINT64_MAX - 24 <? sp then exec_fail
                          else stack_read (wrap64 (sp + 16))
                     else mret 0);
    if negb (user_mode return_mode) && (UINT64_MAX - 16 <? sp)
    then set_access_exception CPU_EXCEPTION_STACK_FAULT sp MMU_ACCESS_READ MMU_RESULT_OK
    else
      instruction_address_valid_for_mode return_address return_mode true;;
      modify_cpu (iret_commit return_mode sp saved_user_sp return_address saved_flags).

(** The address translation and the failing branch shared by the atomics. *)
Definition atomic_access (virtual_address : Z) (op : Z -> Exec (Bus D) Z) : M Z :=
  physical_address ← translate_address virtual_address MMU_ACCESS_ATOMIC true;
  result ← exec_try (on_bus (op physical_address));
  match result with
  | None => set_access_exception CPU_EXCEPTION_DATA_ACCESS virtual_address MMU_ACCESS_ATOMIC
              MMU_RESULT_OK
  | Some v => mret v
  end.

Definition execute_cas64 : M unit :=
  address_register ← fetch_u8;
  expected_register ← fetch_u8;
  desired_register ← fetch_u8;
  result_register ← fetch_u8;
  register_valid address_register;;
  register_valid expected_register;;
  register_valid desired_register;;
  register_valid result_register;;
  expected ← reg expected_register;
  virtual_address ← reg address_register;
  desired ← reg desired_register;
  observed ← atomic_access virtual_address
               (fun pa => bus_compare_exchange64 pa expected desired);
  set_reg result_register observed;;
  modify_cpu (fun c => set_flags (Z.land (flags c) CPU_FLAG_INTERRUPT_ENABLE) c);;
  modify_cpu (or_flag (observed =? expected) CPU_FLAG_ZERO).

Definition execute_xchg64 : M unit :=
  '(address_register, value_register) ← fetch_register_pair;
  virtual_address ← reg address_register;
  value ← reg value_register;
  old ← atomic_access virtual_address (fun pa => bus_exchange64 pa value);
  set_reg value_register old.

Definition execute_atomic_add64 : M unit :=
  address_register ← fetch_u8;
  value_register ← fetch_u8;
  result_register ← fetch_u8;
  register_valid address_register;;
  register_valid value_register;;
  register_valid result_register;;
  virtual_address ← reg address_register;
  value ← reg value_register;
  old ← atomic_access virtual_address (fun pa => bus_fetch_add64 pa value);
  set_reg result_register old.

(** [bus_memory_fence] orders host memory accesses only. *)
Definition execute_fence : M unit := mret tt.

(** The handlers that copy a control register. *)
Definition read_control (f : CPU -> Z) : M unit :=
  destination ← fetch_register;
  v ← read_cpu f;
  set_reg destination v.

Definition execute_coreid : M unit := read_control core_id.
Definition execute_threadid : M unit := read_control thread_id.
Definition execute_excause : M unit := read_control ecause.
Definition execute_exaddr : M unit := read_control badaddr.
Definition execute_expc : M unit := read_control epc.
Definition execute_exinfo : M unit := read_control einfo.

Definition cpu_set_vector_base (address : Z) : M unit :=
  valid ← read_ram (fun r => cpu_ram_range_valid r address CPU_VECTOR_TABLE_SIZE);
  if has_bits address 7 || negb valid then exec_fail
  else modify_cpu (fun c => set_vbr_enabled true (set_vbr address c)).

Definition execute_setvbr : M unit :=
  require_supervisor;;
  source ← fetch_register;
  address ← reg source;
  ok ← exec_try (cpu_set_vector_base address);
  match ok with
  | None => set_access_exception CPU_EXCEPTION_DATA_ACCESS address MMU_ACCESS_READ MMU_RESULT_OK
  | Some _ => mret tt
  end.

Definition execute_getvbr : M unit := require_supervisor;; read_control vbr.
Definition execute_getmode : M unit := read_control (fun c => mode_code (mode c)).

Definition execute_enteruser : M unit :=
  require_supervisor;;
  modify_cpu (set_mode CPU_MODE_USER).

Definition execute_syscall : M unit :=
  handler ← exec_try (read_vector CPU_VECTOR_SYSCALL);
  match handler with
  | None => set_exception CPU_EXCEPTION_ILLEGAL_INSTRUCTION 0 0
  | Some handler =>
      return_address ← read_cpu pc;
      enter_privileged_handler handler return_address false
  end.

Definition execute_setksp : M unit :=
  require_supervisor;;
  source ← fetch_register;
  v ← reg source;
  modify_cpu (set_ksp v).

Definition execute_getksp : M unit := require_supervisor;; read_control ksp.

Definition page_table_can_execute (r : RAM) (root : Z) (m : CPUMode) (address : Z) : bool :=
  match mmu_translate r root (user_mode m) address MMU_ACCESS_EXECUTE with
  | inl physical_address => cpu_ram_range_valid r physical_address 1
  | inr _ => false
  end.

Definition execute_setptbr : M unit :=
  require_supervisor;;
  source ← fetch_register;
  address ← reg source;
  root_ok ← read_ram (fun r => mmu_root_valid r address);
  if negb root_ok
  then set_access_exception CPU_EXCEPTION_MMU_CONFIGURATION address MMU_ACCESS_READ
         MMU_RESULT_INVALID_ROOT
  else
    c ← read_cpu id;
    can ← read_ram (fun r => page_table_can_execute r address (mode c) (pc c));
    if mmu_enabled c && negb can
    then set_access_exception CPU_EXCEPTION_MMU_CONFIGURATION (pc c) MMU_ACCESS_EXECUTE
           MMU_RESULT_OK
    else modify_cpu (fun c => set_ptbr_set true (set_ptbr address c)).

Definition execute_getptbr : M unit := require_supervisor;; read_control ptbr.

Definition execute_mmuon : M unit :=
  require_supervisor;;
  c ← read_cpu id;
  if mmu_enabled c then mret tt
  else
    root_ok ← read_ram (fun r => mmu_root_valid r (ptbr c));
    if negb (ptbr_set c) || negb root_ok
    then set_exception CPU_EXCEPTION_MMU_CONFIGURATION (ptbr c)
           (if ptbr_set c
            then Z.lor (Z.lor CPU_EINFO_BADADDR_VALID CPU_EINFO_ACCESS_READ)
                   CPU_EINFO_PAGE_INVALID_ROOT
            else CPU_EINFO_PAGE_INVALID_ROOT)
    else
      can ← read_ram (fun r => page_table_can_execute r (ptbr c) (mode c) (pc c));
      if negb can
      then set_access_exception CPU_EXCEPTION_MMU_CONFIGURATION (pc c) MMU_ACCESS_EXECUTE
             MMU_RESULT_OK
      else modify_cpu (set_mmu_enabled true).

Definition execute_mmuoff : M unit :=
  require_supervisor;;
  c ← read_cpu id;
  if negb (mmu_enabled c) then mret tt
  else
    valid ← read_ram (fun r => cpu_ram_range_valid r (pc c) 1);
    if negb valid
    then set_access_exception CPU_EXCEPTION_MMU_CONFIGURATION (pc c) MMU_ACCESS_EXECUTE
           MMU_RESULT_OK
    else modify_cpu (set_mmu_enabled false).

Definition execute_getmmu : M unit := read_control (fun c => if mmu_enabled c then 1 else 0).

(** The designated initialisers of [OPCODE_HANDLERS]; the other entries are NULL. *)
Definition OPCODE_HANDLERS : list (Z * M unit) :=
  [ (OP_HALT, execute_halt);
    (OP_MOVI64, execute_movi64);
    (OP_ADD, execute_add);
    (OP_LOAD8U, execute_load8u);
    (OP_STORE8, execute_store8);
    (OP_JUMP, execute_jump);
    (OP_CALL, execute_call);
    (OP_RET, execute_ret);
    (OP_MOV, execute_mov);
    (OP_LOAD16U, execute_load16u);
    (OP_LOAD32U, execute_load32u);
    (OP_LOAD64, execute_load64);
    (OP_LOAD8S, execute_load8s);
    (OP_LOAD16S, execute_load16s);
    (OP_LOAD32S, execute_load32s);
    (OP_STORE16, execute_store16);
    (OP_STORE32, execute_store32);
    (OP_STORE64, execute_store64);
    (OP_SUB, execute_sub);
    (OP_MUL, execute_mul);
    (OP_DIVU, execute_divu);
    (OP_DIVS, execute_divs);
    (OP_MODU, execute_modu);
    (OP_MODS, execute_mods);
    (OP_AND, execute_and);
    (OP_OR, execute_or);
    (OP_XOR, execute_xor);
    (OP_NOT, execute_not);
    (OP_SHL, execute_shl);
    (OP_SHR, execute_shr);
    (OP_SAR, execute_sar);
    (OP_CMP, execute_cmp);
    (OP_JZ, execute_jz);
    (OP_JNZ, execute_jnz);
    (OP_JLT, execute_jlt);
    (OP_JLE, execute_jle);
    (OP_JGT, execute_jgt);
    (OP_JGE, execute_jge);
    (OP_JLTU, execute_jltu);
    (OP_JLEU, execute_jleu);
    (OP_JGTU, execute_jgtu);
    (OP_JGEU, execute_jgeu);
    (OP_PUSH, execute_push);
    (OP_POP, execute_pop);
    (OP_NOP, execute_nop);
    (OP_IRET, execute_iret);
    (OP_EI, execute_ei);
    (OP_DI, execute_di);
    (OP_CAS64, execute_cas64);
    (OP_XCHG64, execute_xchg64);
    (OP_ATOMIC_ADD64, execute_atomic_add64);
    (OP_FENCE, execute_fence);
    (OP_COREID, execute_coreid);
    (OP_THREADID, execute_threadid);
    (OP_WAIT, execute_wait);
    (OP_EXCAUSE, execute_excause);
    (OP_EXADDR, execute_exaddr);
    (OP_SETVBR, execute_setvbr);
    (OP_GETVBR, execute_getvbr);
    (OP_GETMODE, execute_getmode);
    (OP_ENTERUSER, execute_enteruser);
    (OP_SETPTBR, execute_setptbr);
    (OP_GETPTBR, execute_getptbr);
    (OP_MMUON, execute_mmuon);
    (OP_MMUOFF, execute_mmuoff);
    (OP_GETMMU, execute_getmmu);
    (OP_EXPC, execute_expc);
    (OP_EXINFO, execute_exinfo);
    (OP_JUMPR, execute_jumpr);
    (OP_CALLR, execute_callr);
    (OP_SHLV, execute_shlv);
    (OP_SHRV, execute_shrv);
    (OP_SARV, execute_sarv);
    (OP_MOVI32U, execute_movi32u);
    (OP_MOVI32S, execute_movi32s);
    (OP_ADDI32, execute_addi32);
    (OP_CMPI32, execute_cmpi32);
    (OP_ANDI32, execute_andi32);
    (OP_ORI32, execute_ori32);
    (OP_XORI32, execute_xori32);
    (OP_TESTI32, execute_testi32);
    (OP_LEA, execute_lea);
    (OP_LOAD8UO, execute_load8uo);
    (OP_LOAD16UO, execute_load16uo);
    (OP_LOAD32UO, execute_load32uo);
    (OP_LOAD64O, execute_load64o);
    (OP_LOAD8SO, execute_load8so);
    (OP_LOAD16SO, execute_load16so);
    (OP_LOAD32SO, execute_load32so);
    (OP_STORE8O, execute_store8o);
    (OP_STORE16O, execute_store16o);
    (OP_STORE32O, execute_store32o);
    (OP_STORE64O, execute_store64o);
    (OP_JUMPREL, execute_jumprel);
    (OP_BRCC, execute_brcc);
    (OP_CALLREL, execute_callrel);
    (OP_SEXT8, execute_sext8);
    (OP_SEXT16, execute_sext16);
    (OP_SEXT32, execute_sext32);
    (OP_ZEXT8, execute_zext8);
    (OP_ZEXT16, execute_zext16);
    (OP_ZEXT32, execute_zext32);
    (OP_SYSCALL, execute_syscall);
    (OP_SETKSP, execute_setksp);
    (OP_GETKSP, execute_getksp) ].

End exec.

(** [cpu_init] with the zeroed structure. *)
Definition cpu_init : CPU :=
  mkCPU (replicate 16 0) (replicate 16 (replicate 16 0)) 0 0 0 0 0 0 0 0 0 0 0 0 0
    CPU_MODE_SUPERVISOR false false false false false false false.
