(* ===== verification/CpuVector.v ===== *)
(** The vector and floating-point unit: src/cpu_vector.c.

    A C [float] or [double] is its bit pattern, which is how the code moves it
    between memory, vector lanes and the host; [float_of_bits] and
    [bits_of_float] relate patterns to the IEEE-754 numbers of the standard
    library, whose operations round to nearest even as the host does.  IEEE-754
    leaves the payload of a NaN result to the host: it is the parameter
    [HostNan], about which the code relies on nothing but that it is a NaN. *)

From S2P Require Import Prelude Ram Mmu Interrupt Bus Isa CpuCore.
From stdpp Require Import base list numbers option.
From Stdlib Require Import ZArith Lia Bool SpecFloat.

#[local] Open Scope Z_scope.
#[local] Open Scope exec_scope.

(** ** IEEE-754 formats *)

Record Format := mkFormat { f_prec : Z; f_emax : Z; f_ebits : Z }.
Definition binary32 : Format := mkFormat 24 128 8.
Definition binary64 : Format := mkFormat 53 1024 11.

Definition f_emin (f : Format) : Z := 3 - f_emax f - f_prec f.
Definition f_mbits (f : Format) : Z := f_prec f - 1.
Definition f_width (f : Format) : Z := f_mbits f + f_ebits f + 1.

Definition float_of_bits (f : Format) (bits : Z) : spec_float :=
  let fraction := bits mod 2 ^ f_mbits f in
  let exponent := (bits / 2 ^ f_mbits f) mod 2 ^ f_ebits f in
  let s := Z.testbit bits (f_mbits f + f_ebits f) in
  if exponent =? 0 then
    match fraction with Z.pos m => S754_finite s m (f_emin f) | _ => S754_zero s end
  else if exponent =? 2 ^ f_ebits f - 1 then
    (if fraction =? 0 then S754_infinity s else S754_nan)
  else
    match fraction + 2 ^ f_mbits f with
    | Z.pos m => S754_finite s m (exponent + f_emin f - 1)
    | _ => S754_zero s
    end.

Definition sign_field (f : Format) (s : bool) : Z := if s then 2 ^ (f_mbits f + f_ebits f) else 0.

(** [nan] is the pattern of a NaN result. *)
Definition bits_of_float (f : Format) (nan : Z) (x : spec_float) : Z :=
  match x with
  | S754_zero s => sign_field f s
  | S754_infinity s => sign_field f s + (2 ^ f_ebits f - 1) * 2 ^ f_mbits f
  | S754_nan => nan
  | S754_finite s m e =>
      if Z.pos m <? 2 ^ f_mbits f then sign_field f s + Z.pos m
      else sign_field f s + (e - f_emin f + 1) * 2 ^ f_mbits f + (Z.pos m - 2 ^ f_mbits f)
  end.

Inductive FloatingPointOperation := FLOAT_ADD | FLOAT_SUBTRACT | FLOAT_MULTIPLY | FLOAT_DIVIDE.
Inductive VectorIntegerOperation :=
  | VECTOR_INTEGER_ADD | VECTOR_INTEGER_SUBTRACT | VECTOR_INTEGER_MULTIPLY.

(** The NaN patterns the host's arithmetic and conversions produce. *)
Class HostNan := {
  host_nan : Format -> FloatingPointOperation -> Z -> Z -> Z;
  host_nan_convert : Format -> Format -> Z -> Z
}.

Definition is_nan_bits (f : Format) (bits : Z) : Prop :=
  0 <= bits < 2 ^ f_width f /\ float_of_bits f bits = S754_nan.

Class HostNanLaws `{HostNan} : Prop := {
  host_nan_is_nan f op l r :
    f = binary32 \/ f = binary64 -> is_nan_bits f (host_nan f op l r);
  host_nan_convert_is_nan f g x :
    g = binary32 \/ g = binary64 -> is_nan_bits g (host_nan_convert f g x)
}.

Definition isnan (x : spec_float) : bool := match x with S754_nan => true | _ => false end.
Definition isinf (x : spec_float) : bool := match x with S754_infinity _ => true | _ => false end.
Definition isfinite (x : spec_float) : bool :=
  match x with S754_zero _ | S754_finite _ _ _ => true | _ => false end.
Definition is_zero (x : spec_float) : bool := match x with S754_zero _ => true | _ => false end.
Definition is_subnormal (f : Format) (x : spec_float) : bool :=
  match x with S754_finite _ m _ => Z.pos m <? 2 ^ f_mbits f | _ => false end.

(** [(intN_t)value] for a value in range: truncation towards zero. *)
Definition truncate_float (x : spec_float) : Z :=
  match x with
  | S754_finite s m e =>
      let magnitude := if 0 <=? e then Z.pos m * 2 ^ e else Z.pos m / 2 ^ (- e) in
      if s then - magnitude else magnitude
  | _ => 0
  end.

(** [(float)value], [(double)value] for an integer value. *)
Definition float_of_int (f : Format) (v : Z) : spec_float :=
  binary_normalize (f_prec f) (f_emax f) v 0 false.

Definition convert_float (g : Format) (x : spec_float) : spec_float :=
  match x with
  | S754_finite s m e => binary_round (f_prec g) (f_emax g) s m e
  | _ => x
  end.

Definition signed32 (x : Z) : Z :=
  let y := wrap32 x in if y <? 0x80000000 then y else y - 0x100000000.

(** ** Lanes *)

Definition read_lane (bytes : list Z) (lane width : Z) : Z :=
  or_bytes 0 0 (take (Z.to_nat width) (drop (Z.to_nat (lane * width)) bytes)).

Definition write_lane (bytes : list Z) (lane width value : Z) : list Z :=
  put_bytes bytes (lane * width) (int_to_bytes width value).

Definition zero_vector : list Z := replicate 16 0.

(** [read_float32] and [read_float64]: the bits of the lane. *)
Definition read_float (f : Format) (bytes : list Z) (lane : Z) : Z :=
  read_lane bytes lane (f_width f / 8).
Definition write_float (f : Format) (bytes : list Z) (lane bits : Z) : list Z :=
  write_lane bytes lane (f_width f / 8) bits.

Definition sf_calculate (f : Format) (x y : spec_float) (op : FloatingPointOperation) :
    spec_float :=
  match op with
  | FLOAT_ADD => SFadd (f_prec f) (f_emax f) x y
  | FLOAT_SUBTRACT => SFsub (f_prec f) (f_emax f) x y
  | FLOAT_MULTIPLY => SFmul (f_prec f) (f_emax f) x y
  | FLOAT_DIVIDE => SFdiv (f_prec f) (f_emax f) x y
  end.

(** [calculate_float32] and [calculate_float64]. *)
Definition calculate_float `{HostNan} (f : Format) (left right : Z)
    (op : FloatingPointOperation) : Z :=
  bits_of_float f (host_nan f op left right)
    (sf_calculate f (float_of_bits f left) (float_of_bits f right) op).

(** [update_float32_status] and [update_float64_status]: the new [fp_status]. *)
Definition update_float_status (f : Format) (status left right result : Z)
    (op : FloatingPointOperation) : Z :=
  let l := float_of_bits f left in
  let r := float_of_bits f right in
  let v := float_of_bits f result in
  let divide_by_zero :=
    match op with FLOAT_DIVIDE => is_zero r && negb (is_zero l) && isfinite l | _ => false end in
  let status := if isnan v then Z.lor status CPU_FP_INVALID else status in
  let status := if divide_by_zero then Z.lor status CPU_FP_DIVIDE_BY_ZERO else status in
  let status := if negb divide_by_zero && isfinite l && isfinite r && isinf v
                then Z.lor status CPU_FP_OVERFLOW else status in
  if negb (is_zero v) && is_subnormal f v then Z.lor status CPU_FP_UNDERFLOW else status.

Definition vector_integer (op : VectorIntegerOperation) (left right : Z) : Z :=
  match op with
  | VECTOR_INTEGER_ADD => wrap64 (left + right)
  | VECTOR_INTEGER_SUBTRACT => wrap64 (left - right)
  | VECTOR_INTEGER_MULTIPLY => wrap64 (left * right)
  end.

(** The lane loop of [execute_vector_integer]. *)
Definition vector_integer_result (op : VectorIntegerOperation) (width : Z)
    (left right : list Z) : list Z :=
  fold_left (fun result lane =>
      write_lane result lane width
        (vector_integer op (read_lane left lane width) (read_lane right lane width)))
    (seqZ 0 (VECTOR_REGISTER_SIZE / width)) zero_vector.

Definition bitwise_byte (opcode left right : Z) : Z :=
  if opcode =? OP_VAND then Z.land left right
  else if opcode =? OP_VOR then Z.lor left right
  else Z.lxor left right.

(** The lane loop of [execute_vector_float32] and [execute_vector_float64]:
    the result register and the status it accumulates. *)
Definition vector_float_result `{HostNan} (f : Format) (op : FloatingPointOperation)
    (lanes : Z) (left right : list Z) (status : Z) : list Z * Z :=
  fold_left (fun '(result, status) lane =>
      let l := read_float f left lane in
      let r := read_float f right lane in
      let value := calculate_float f l r op in
      (write_float f result lane value, update_float_status f status l r value op))
    (seqZ 0 lanes) (zero_vector, status).

(** The comparison of [execute_float_compare] on cleared flags: the flags to
    set, and whether the comparison is invalid. *)
Definition float_compare_flags (f : Format) (left right : Z) : Z * bool :=
  let l := float_of_bits f left in
  let r := float_of_bits f right in
  if isnan l || isnan r then (CPU_FLAG_UNORDERED, true)
  else if SFeqb l r then (Z.lor CPU_FLAG_ZERO CPU_FLAG_CARRY, false)
  else if SFltb l r then (CPU_FLAG_NEGATIVE, false)
  else (CPU_FLAG_CARRY, false).

(** The saturating conversions of [execute_f32toi32] and [execute_f64toi64]:
    [limit] is the float 2^31 or 2^63; the signed result and the invalid bit. *)
Definition float_to_int (f : Format) (bits n : Z) : Z * bool :=
  let v := float_of_bits f bits in
  let limit := float_of_int f (2 ^ n) in
  let low := float_of_int f (- 2 ^ n) in
  if isnan v then (0, true)
  else if SFleb limit v then (2 ^ n - 1, true)
  else if SFleb v low then (- 2 ^ n, SFltb v low)
  else (truncate_float v, false).

Section vector.
Context {D : Type} `{HN : HostNan}.
Abbreviation M := (Exec (Machine D)).

Definition fetch_general_register : M Z :=
  r ← cpu_internal_fetch_u8;
  if r <? REGISTER_COUNT then mret r else cpu_internal_illegal_instruction.

Definition fetch_vector_register : M Z :=
  r ← cpu_internal_fetch_u8;
  if r <? VECTOR_REGISTER_COUNT then mret r else cpu_internal_illegal_instruction.

Definition fetch_vector_pair : M (Z * Z) :=
  first ← fetch_vector_register;
  second ← fetch_vector_register;
  mret (first, second).

Definition fetch_vector_triple : M (Z * Z * Z) :=
  destination ← fetch_vector_register;
  left ← fetch_vector_register;
  right ← fetch_vector_register;
  mret (destination, left, right).

Definition general (r : Z) : M Z := read_cpu (fun c => get_register c r).
Definition vector (r : Z) : M (list Z) := read_cpu (fun c => get_vector c r).
Definition put_general (r v : Z) : M unit := modify_cpu (set_register r v).
Definition put_vector (r : Z) (v : list Z) : M unit := modify_cpu (set_vector r v).
Definition or_fp_status (cond : bool) (bit : Z) : M unit :=
  modify_cpu (fun c => if cond then set_fp_status (Z.lor (fp_status c) bit) c else c).

Definition execute_vload128 : M unit :=
  destination ← fetch_vector_register;
  address ← fetch_general_register;
  a ← general address;
  value ← cpu_internal_vector_read a;
  put_vector destination value.

Definition execute_vstore128 : M unit :=
  address ← fetch_general_register;
  source ← fetch_vector_register;
  a ← general address;
  v ← vector source;
  cpu_internal_vector_write a v.

Definition execute_vmov : M unit :=
  '(destination, source) ← fetch_vector_pair;
  v ← vector source;
  put_vector destination v.

Definition execute_vector_integer (width : Z) (operation : VectorIntegerOperation) : M unit :=
  '(destination, left_register, right_register) ← fetch_vector_triple;
  left ← vector left_register;
  right ← vector right_register;
  put_vector destination (vector_integer_result operation width left right).

Definition execute_vadd8 : M unit := execute_vector_integer 1 VECTOR_INTEGER_ADD.
Definition execute_vadd16 : M unit := execute_vector_integer 2 VECTOR_INTEGER_ADD.
Definition execute_vadd32 : M unit := execute_vector_integer 4 VECTOR_INTEGER_ADD.
Definition execute_vadd64 : M unit := execute_vector_integer 8 VECTOR_INTEGER_ADD.
Definition execute_vsub8 : M unit := execute_vector_integer 1 VECTOR_INTEGER_SUBTRACT.
Definition execute_vsub16 : M unit := execute_vector_integer 2 VECTOR_INTEGER_SUBTRACT.
Definition execute_vsub32 : M unit := execute_vector_integer 4 VECTOR_INTEGER_SUBTRACT.
Definition execute_vsub64 : M unit := execute_vector_integer 8 VECTOR_INTEGER_SUBTRACT.
Definition execute_vmul8 : M unit := execute_vector_integer 1 VECTOR_INTEGER_MULTIPLY.
Definition execute_vmul16 : M unit := execute_vector_integer 2 VECTOR_INTEGER_MULTIPLY.
Definition execute_vmul32 : M unit := execute_vector_integer 4 VECTOR_INTEGER_MULTIPLY.
Definition execute_vmul64 : M unit := execute_vector_integer 8 VECTOR_INTEGER_MULTIPLY.

Definition execute_vector_bitwise (opcode : Z) : M unit :=
  '(destination, left_register, right_register) ← fetch_vector_triple;
  left ← vector left_register;
  right ← vector right_register;
  put_vector destination (zip_with (bitwise_byte opcode) left right).

Definition execute_float_load (width : Z) : M unit :=
  destination ← fetch_vector_register;
  address ← fetch_general_register;
  a ← general address;
  value ← cpu_internal_data_read a width;
  put_vector destination (write_lane zero_vector 0 width value).

Definition execute_fload32 : M unit := execute_float_load 4.
Definition execute_fload64 : M unit := execute_float_load 8.

Definition execute_float_store (width : Z) : M unit :=
  address ← fetch_general_register;
  source ← fetch_vector_register;
  a ← general address;
  v ← vector source;
  cpu_internal_data_write a width (read_lane v 0 width).

Definition execute_fstore32 : M unit := execute_float_store 4.
Definition execute_fstore64 : M unit := execute_float_store 8.

(** [execute_scalar_float32] and [execute_scalar_float64]. *)
Definition execute_scalar_float (f : Format) (operation : FloatingPointOperation) : M unit :=
  '(destination, left_register, right_register) ← fetch_vector_triple;
  lv ← vector left_register;
  rv ← vector right_register;
  let left := read_float f lv 0 in
  let right := read_float f rv 0 in
  let value := calculate_float f left right operation in
  modify_cpu (fun c =>
    set_fp_status (update_float_status f (fp_status c) left right value operation) c);;
  put_vector destination (write_float f zero_vector 0 value).

Definition execute_fadd32 : M unit := execute_scalar_float binary32 FLOAT_ADD.
Definition execute_fadd64 : M unit := execute_scalar_float binary64 FLOAT_ADD.
Definition execute_fsub32 : M unit := execute_scalar_float binary32 FLOAT_SUBTRACT.
Definition execute_fsub64 : M unit := execute_scalar_float binary64 FLOAT_SUBTRACT.
Definition execute_fmul32 : M unit := execute_scalar_float binary32 FLOAT_MULTIPLY.
Definition execute_fmul64 : M unit := execute_scalar_float binary64 FLOAT_MULTIPLY.
Definition execute_fdiv32 : M unit := execute_scalar_float binary32 FLOAT_DIVIDE.
Definition execute_fdiv64 : M unit := execute_scalar_float binary64 FLOAT_DIVIDE.

Definition execute_float_compare (f : Format) : M unit :=
  '(left_register, right_register) ← fetch_vector_pair;
  lv ← vector left_register;
  rv ← vector right_register;
  let '(fl, invalid) := float_compare_flags f (read_float f lv 0) (read_float f rv 0) in
  modify_cpu (fun c =>
    set_flags (Z.lor (Z.land (flags c) CPU_FLAG_INTERRUPT_ENABLE) fl) c);;
  or_fp_status invalid CPU_FP_INVALID.

Definition execute_fcmp32 : M unit := execute_float_compare binary32.
Definition execute_fcmp64 : M unit := execute_float_compare binary64.

Definition float_sign_bits (width : Z) (absolute : bool) (bits : Z) : Z :=
  let sign := if width =? 4 then 0x80000000 else 0x8000000000000000 in
  if absolute then Z.land bits (not64 sign) else Z.lxor bits sign.

Definition execute_float_sign (width : Z) (absolute : bool) : M unit :=
  '(destination, source) ← fetch_vector_pair;
  v ← vector source;
  put_vector destination
    (write_lane zero_vector 0 width (float_sign_bits width absolute (read_lane v 0 width))).

Definition execute_fneg32 : M unit := execute_float_sign 4 false.
Definition execute_fneg64 : M unit := execute_float_sign 8 false.
Definition execute_fabs32 : M unit := execute_float_sign 4 true.
Definition execute_fabs64 : M unit := execute_float_sign 8 true.

(** An integer never converts to a NaN: the pattern 0 is not used. *)
Definition execute_i32tof32 : M unit :=
  destination ← fetch_vector_register;
  source ← fetch_general_register;
  v ← general source;
  put_vector destination (write_float binary32 zero_vector 0
    (bits_of_float binary32 0 (float_of_int binary32 (signed32 v)))).

Definition execute_i64tof64 : M unit :=
  destination ← fetch_vector_register;
  source ← fetch_general_register;
  v ← general source;
  put_vector destination (write_float binary64 zero_vector 0
    (bits_of_float binary64 0 (float_of_int binary64 (signed64 v)))).

Definition execute_float_to_int (f : Format) (n : Z) : M unit :=
  destination ← fetch_general_register;
  source ← fetch_vector_register;
  v ← vector source;
  let '(result, invalid) := float_to_int f (read_float f v 0) n in
  or_fp_status invalid CPU_FP_INVALID;;
  put_general destination (wrap64 result).

Definition execute_f32toi32 : M unit := execute_float_to_int binary32 31.
Definition execute_f64toi64 : M unit := execute_float_to_int binary64 63.

(** [execute_vector_float32] (four lanes) and [execute_vector_float64] (two). *)
Definition execute_vector_float (f : Format) (lanes : Z) (operation : FloatingPointOperation) :
    M unit :=
  '(destination, left_register, right_register) ← fetch_vector_triple;
  lv ← vector left_register;
  rv ← vector right_register;
  status ← read_cpu fp_status;
  let '(result, status) := vector_float_result f operation lanes lv rv status in
  modify_cpu (set_fp_status status);;
  put_vector destination result.

Definition execute_vfadd32 : M unit := execute_vector_float binary32 4 FLOAT_ADD.
Definition execute_vfadd64 : M unit := execute_vector_float binary64 2 FLOAT_ADD.
Definition execute_vfsub32 : M unit := execute_vector_float binary32 4 FLOAT_SUBTRACT.
Definition execute_vfsub64 : M unit := execute_vector_float binary64 2 FLOAT_SUBTRACT.
Definition execute_vfmul32 : M unit := execute_vector_float binary32 4 FLOAT_MULTIPLY.
Definition execute_vfmul64 : M unit := execute_vector_float binary64 2 FLOAT_MULTIPLY.
Definition execute_vfdiv32 : M unit := execute_vector_float binary32 4 FLOAT_DIVIDE.
Definition execute_vfdiv64 : M unit := execute_vector_float binary64 2 FLOAT_DIVIDE.

Definition convert_bits (f g : Format) (bits : Z) : Z :=
  bits_of_float g (host_nan_convert f g bits) (convert_float g (float_of_bits f bits)).

Definition execute_f32tof64 : M unit :=
  '(destination, source) ← fetch_vector_pair;
  v ← vector source;
  put_vector destination (write_float binary64 zero_vector 0
    (convert_bits binary32 binary64 (read_float binary32 v 0))).

Definition execute_f64tof32 : M unit :=
  '(destination, source) ← fetch_vector_pair;
  v ← vector source;
  let input := read_float binary64 v 0 in
  let value := convert_bits binary64 binary32 input in
  let x := float_of_bits binary32 value in
  or_fp_status (isfinite (float_of_bits binary64 input) && isinf x) CPU_FP_OVERFLOW;;
  or_fp_status (negb (is_zero x) && is_subnormal binary32 x) CPU_FP_UNDERFLOW;;
  put_vector destination (write_float binary32 zero_vector 0 value).

Definition execute_getfpstatus : M unit :=
  destination ← fetch_general_register;
  v ← read_cpu fp_status;
  put_general destination v.

Definition execute_clearfpstatus : M unit := modify_cpu (set_fp_status 0).

(** The entries of [VECTOR_HANDLERS] that are not NULL. *)
Definition VECTOR_HANDLERS : list (Z * M unit) :=
  [ (OP_VLOAD128, execute_vload128);
    (OP_VSTORE128, execute_vstore128);
    (OP_VMOV, execute_vmov);
    (OP_VADD8, execute_vadd8);
    (OP_VADD16, execute_vadd16);
    (OP_VADD32, execute_vadd32);
    (OP_VADD64, execute_vadd64);
    (OP_VSUB8, execute_vsub8);
    (OP_VSUB16, execute_vsub16);
    (OP_VSUB32, execute_vsub32);
    (OP_VSUB64, execute_vsub64);
    (OP_VMUL8, execute_vmul8);
    (OP_VMUL16, execute_vmul16);
    (OP_VMUL32, execute_vmul32);
    (OP_VMUL64, execute_vmul64);
    (OP_FLOAD32, execute_fload32);
    (OP_FLOAD64, execute_fload64);
    (OP_FSTORE32, execute_fstore32);
    (OP_FSTORE64, execute_fstore64);
    (OP_FADD32, execute_fadd32);
    (OP_FADD64, execute_fadd64);
    (OP_FSUB32, execute_fsub32);
    (OP_FSUB64, execute_fsub64);
    (OP_FMUL32, execute_fmul32);
    (OP_FMUL64, execute_fmul64);
    (OP_FDIV32, execute_fdiv32);
    (OP_FDIV64, execute_fdiv64);
    (OP_FCMP32, execute_fcmp32);
    (OP_FCMP64, execute_fcmp64);
    (OP_FNEG32, execute_fneg32);
    (OP_FNEG64, execute_fneg64);
    (OP_FABS32, execute_fabs32);
    (OP_FABS64, execute_fabs64);
    (OP_I32TOF32, execute_i32tof32);
    (OP_I64TOF64, execute_i64tof64);
    (OP_F32TOI32, execute_f32toi32);
    (OP_F64TOI64, execute_f64toi64);
    (OP_VFADD32, execute_vfadd32);
    (OP_VFADD64, execute_vfadd64);
    (OP_VFSUB32, execute_vfsub32);
    (OP_VFSUB64, execute_vfsub64);
    (OP_VFMUL32, execute_vfmul32);
    (OP_VFMUL64, execute_vfmul64);
    (OP_VFDIV32, execute_vfdiv32);
    (OP_VFDIV64, execute_vfdiv64);
    (OP_F32TOF64, execute_f32tof64);
    (OP_F64TOF32, execute_f64tof32);
    (OP_GETFPSTATUS, execute_getfpstatus);
    (OP_CLEARFPSTATUS, execute_clearfpstatus) ].

Definition cpu_vector_opcode (opcode : Z) : bool :=
  (OP_VECTOR_FIRST <=? opcode) && (opcode <=? OP_VECTOR_LAST).

Definition cpu_vector_execute (opcode : Z) : M unit :=
  if negb (cpu_vector_opcode opcode) then cpu_internal_illegal_instruction
  else if (opcode =? OP_VAND) || (opcode =? OP_VOR) || (opcode =? OP_VXOR)
  then execute_vector_bitwise opcode
  else match handler_lookup VECTOR_HANDLERS opcode with
  | Some handler => handler
  | None => cpu_internal_illegal_instruction
  end.

End vector.
