(* ===== verification/Cpu.v ===== *)
(** The processor's step, its interrupt check and its run loop: the end of
    src/cpu.c, and src/vm_clock.c.

    The interrupt controller of a CPU is a target of the world's router. *)

From S2P Require Import Prelude Ram Mmu Interrupt Bus Isa CpuCore CpuExec CpuVector.
From stdpp Require Import base list numbers option.
From Stdlib Require Import ZArith Lia Bool.

#[local] Open Scope Z_scope.
#[local] Open Scope exec_scope.

(** ** Clocks: src/vm_clock.c *)

Record ClockSource (C : Type) := mkClock { clock_poll : option (C -> Z * C); clock_context : C }.
Arguments mkClock {C} _ _.
Arguments clock_poll {C} _.
Arguments clock_context {C} _.

(** [source] is NULL for [None]. *)
Definition clock_source_poll {C} (source : option (ClockSource C)) :
    Z * option (ClockSource C) :=
  match source with
  | Some k =>
      match clock_poll k with
      | Some poll => let '(ticks, ctx) := poll (clock_context k) in
                     (ticks, Some (mkClock (clock_poll k) ctx))
      | None => (0, source)
      end
  | None => (0, None)
  end.

Record InstructionClock := mkInstructionClock { ticks_per_instruction : Z }.

Definition instruction_clock_poll (context : option InstructionClock) :
    Z * option InstructionClock :=
  match context with
  | None => (0, None)
  | Some clock => (ticks_per_instruction clock, Some clock)
  end.

Definition instruction_clock_init (ticks : Z) : option (ClockSource (option InstructionClock)) :=
  if ticks =? 0 then None
  else Some (mkClock (Some instruction_clock_poll) (Some (mkInstructionClock ticks))).

(** ** The step *)

Section cpu.
Context {D : Type} `{HN : HostNan}.
Abbreviation M := (Exec (Machine D)).

(** [OPCODE_HANDLERS[opcode]], then the vector unit, then an illegal opcode. *)
Definition dispatch_opcode (opcode : Z) : option (M unit) :=
  match handler_lookup OPCODE_HANDLERS opcode with
  | Some handler => Some handler
  | None => if cpu_vector_opcode opcode then Some (cpu_vector_execute opcode) else None
  end.

Definition begin_instruction (c : CPU) : CPU :=
  set_exception_pending false (set_instruction_pc (pc c) c).

(** [if (!cpu->exception_pending) set_exception(ILLEGAL_INSTRUCTION)]: for an
    exception not yet pending, [record_exception] has that guard itself. *)
Definition ensure_exception : M unit :=
  modify_cpu (record_exception CPU_EXCEPTION_ILLEGAL_INSTRUCTION 0 0).

Definition cpu_step : M unit :=
  c ← read_cpu id;
  if halted c || waiting c then mret tt
  else
    modify_cpu begin_instruction;;
    opcode ← exec_try fetch_u8;
    match opcode with
    | None => deliver_exception
    | Some opcode =>
        match dispatch_opcode opcode with
        | Some handler =>
            executed ← exec_try handler;
            match executed with
            | Some _ => mret tt
            | None => ensure_exception;; deliver_exception
            end
        | None => ensure_exception;; deliver_exception
        end
    end.

(** [interrupt_controller_take_next] on controller [target] of the router. *)
Definition take_next (target : Z) : Exec (Bus D) (option Z) := fun b =>
  match w_router (bus_world b) with
  | None => (Some None, b)
  | Some r =>
      match interrupt_controller_take_next (arr_get (targets r) target) with
      | None => (Some None, b)
      | Some (line, p) =>
          (Some (Some line),
           set_world (set_w_router (Some (set_targets (arr_set (targets r) target p) r))
                        (bus_world b)) b)
      end
  end.

(** [interrupts] is the CPU's controller, NULL for [None]. *)
Definition cpu_check_interrupt (interrupts : option Z) : M unit :=
  c ← read_cpu id;
  match interrupts with
  | None => mret tt
  | Some target =>
      if negb (has_bits (flags c) CPU_FLAG_INTERRUPT_ENABLE) then mret tt
      else
        taken ← on_bus (take_next target);
        match taken with
        | None => mret tt
        | Some line =>
            handler ← read_vector (CPU_VECTOR_INTERRUPT_BASE + line);
            return_address ← read_cpu pc;
            enter_privileged_handler handler return_address false
        end
  end.

(** ** The run loop

    [cpu_run] runs until the CPU halts or fails; the fuel counts its rounds. *)
Inductive RunResult := RunHalted | RunFailed | RunOutOfFuel.

Fixpoint run_loop {C} (fuel : nat) (interrupts : option Z) (clock : option (ClockSource C))
    (s : Machine D) : RunResult * Machine D :=
  if halted (cpu s) then (RunHalted, s)
  else match fuel with
  | O => (RunOutOfFuel, s)
  | S fuel =>
      match cpu_step s with
      | (None, s) => (RunFailed, s)
      | (Some _, s) =>
          let '(elapsed_ticks, clock) := clock_source_poll clock in
          let s := set_bus (bus_tick (bus s) elapsed_ticks) s in
          if halted (cpu s) then run_loop fuel interrupts clock s
          else match cpu_check_interrupt interrupts s with
          | (None, s) => (RunFailed, s)
          | (Some _, s) => run_loop fuel interrupts clock s
          end
      end
  end.

(** [controller] is the pending word of [interrupts]; [cpu_run] wraps it in a
    router of its own. *)
Definition cpu_run {C} (fuel : nat) (controller : option Z) (clock : option (ClockSource C))
    (s : Machine D) : RunResult * Machine D :=
  match controller with
  | None =>
      run_loop fuel None clock
        (set_bus (set_world (set_w_router None (bus_world (bus s))) (bus s)) s)
  | Some p =>
      match interrupt_router_init [p] with
      | None => (RunFailed, s)
      | Some r =>
          run_loop fuel (Some 0) clock
            (set_bus (set_world (set_w_router (Some r) (bus_world (bus s))) (bus s)) s)
      end
  end.

End cpu.
