(* ===== verification/CpuSafety.v ===== *)
(** Every instruction preserves every invariant that is closed under the
    updates instructions make.

    [UserClosed I]: closed under what any program may do (registers, condition
    flags, floating-point status, WAIT).  [PrivClosed I]: closed under what
    supervisor code may do as well.  [keeps] of each handler is proved once
    against these interfaces; the processor's type invariant and the user-mode
    confinement are instances. *)

From S2P Require Import Prelude Ram Mmu Interrupt Bus Isa CpuCore CpuInv CpuExec CpuVector Cpu.
From stdpp Require Import base list numbers option.
From Stdlib Require Import ZArith Lia Bool SpecFloat.

#[local] Open Scope Z_scope.
#[local] Open Scope exec_scope.

(** ** Results of the arithmetic are 64-bit *)

Lemma sign_extend_u64 v w : is_u64 v -> is_u64 (sign_extend v w).
Proof.
  intros Hv. unfold sign_extend. destruct (8 <=? w); [done|].
  destruct (has_bits _ _); auto with u64.
Qed.

Lemma asr_u64 v n : is_u64 v -> 0 <= n -> is_u64 (arithmetic_shift_right v n).
Proof.
  intros Hv Hn. unfold arithmetic_shift_right. destruct (n =? 0); [done|].
  destruct (has_bits _ _); auto with u64.
Qed.

Lemma div_u64 x y : is_u64 x -> is_u64 y -> (y =? 0) = false -> is_u64 (x / y).
Proof.
  intros Hx Hy Hz%Z.eqb_neq. unfold is_u64 in *. split; [apply Z.div_pos; lia|].
  apply Z.div_lt_upper_bound; nia.
Qed.

Lemma mod_u64 x y : is_u64 x -> is_u64 y -> (y =? 0) = false -> is_u64 (x mod y).
Proof.
  intros Hx Hy Hz%Z.eqb_neq. unfold is_u64 in *. pose proof (Z.mod_pos_bound x y). lia.
Qed.

Lemma magnitude_u64 x : is_u64 x -> is_u64 (twos_complement_magnitude x).
Proof. intros Hx. unfold twos_complement_magnitude. destruct (has_bits _ _); auto with u64. Qed.

Lemma apply_sign_u64 x b : is_u64 x -> is_u64 (apply_twos_complement_sign x b).
Proof. intros Hx. unfold apply_twos_complement_sign. destruct b; auto with u64. Qed.

Lemma magnitude_zero x :
  is_u64 x -> (x =? 0) = false -> (twos_complement_magnitude x =? 0) = false.
Proof.
  intros Hx Hz%Z.eqb_neq. apply Z.eqb_neq. unfold twos_complement_magnitude, not64.
  destruct (has_bits _ _); [|done]. unfold Z.lnot. zlia.
Qed.

Lemma if_u64 (b : bool) x y : is_u64 x -> is_u64 y -> is_u64 (if b then x else y).
Proof. by destruct b. Qed.

Lemma land63_nonneg a : is_u64 a -> 0 <= Z.land a 63.
Proof. intros. apply Z.land_nonneg. lia. Qed.

Lemma u8_nonneg x : is_u8 x -> 0 <= x.
Proof. unfold is_u8. lia. Qed.

#[export] Hint Resolve sign_extend_u64 asr_u64 div_u64 mod_u64 magnitude_u64 apply_sign_u64
  magnitude_zero if_u64 land63_nonneg u8_nonneg : u64.
#[export] Hint Extern 2 (0 <= Z.pos _) => apply Pos2Z.is_nonneg : u64.

(** ** Flag updates keep the interrupt-enable flag *)

Definition ie (f : Z) : bool := Z.testbit f 4.

(** An update of the flags that programs may make. *)
Definition flag_update (g : CPU -> CPU) : Prop :=
  forall c, exists f, g c = set_flags f c /\ (is_u64 (flags c) -> is_u64 f) /\ ie f = ie (flags c).

Lemma ie_land f : ie (Z.land f CPU_FLAG_INTERRUPT_ENABLE) = ie f.
Proof. unfold ie. rewrite Z.land_spec. apply andb_true_r. Qed.

Lemma ie_lor f x : ie x = false -> ie (Z.lor f x) = ie f.
Proof. unfold ie. intros Hx. rewrite Z.lor_spec, Hx. apply orb_false_r. Qed.

Lemma flag_update_compose g h :
  flag_update g -> flag_update h -> flag_update (fun c => h (g c)).
Proof.
  intros Hg Hh c. destruct (Hg c) as (f & -> & Hu & Hi).
  destruct (Hh (set_flags f c)) as (f' & -> & Hu' & Hi'). exists f'. simpl in *.
  split_and!; [done|auto|congruence].
Qed.

Lemma flag_update_zn v : flag_update (set_zero_negative_flags v).
Proof.
  intros c. eexists. split; [reflexivity|].
  assert (is_u64 CPU_FLAG_ZERO /\ is_u64 CPU_FLAG_NEGATIVE /\ is_u64 CPU_FLAG_INTERRUPT_ENABLE)
    as (? & ? & ?) by by vm_compute.
  destruct (v =? 0), (has_bits v SIGN_BIT); (split; [auto 6 with u64|]);
    by rewrite ?ie_lor, ie_land by done.
Qed.

Lemma flag_update_or b x : is_u64 x -> ie x = false -> flag_update (or_flag b x).
Proof.
  intros Hx Hi c. unfold or_flag. destruct b.
  - eexists. split; [reflexivity|]. split; [auto with u64|by apply ie_lor].
  - exists (flags c). by destruct c.
Qed.

Lemma flag_update_clear x :
  is_u64 x -> ie x = false ->
  flag_update (fun c => set_flags (Z.lor (Z.land (flags c) CPU_FLAG_INTERRUPT_ENABLE) x) c).
Proof.
  intros Hx Hi c. eexists. split; [reflexivity|].
  assert (is_u64 CPU_FLAG_INTERRUPT_ENABLE) by by vm_compute.
  split; [auto with u64|]. by rewrite ie_lor, ie_land by done.
Qed.

Lemma flag_update_mask :
  flag_update (fun c => set_flags (Z.land (flags c) CPU_FLAG_INTERRUPT_ENABLE) c).
Proof.
  intros c. eexists. split; [reflexivity|].
  assert (is_u64 CPU_FLAG_INTERRUPT_ENABLE) by by vm_compute.
  split; [auto with u64|apply ie_land].
Qed.

Lemma flag_update_add l r v : flag_update (set_add_flags l r v).
Proof.
  apply (flag_update_compose (fun c => or_flag (v <? l) CPU_FLAG_CARRY
    (set_zero_negative_flags v c)) (or_flag _ CPU_FLAG_OVERFLOW)); [|by apply flag_update_or].
  by apply (flag_update_compose _ (or_flag _ CPU_FLAG_CARRY)); [apply flag_update_zn|
    apply flag_update_or].
Qed.

Lemma flag_update_sub l r v : flag_update (set_sub_flags l r v).
Proof.
  apply (flag_update_compose (fun c => or_flag (r <=? l) CPU_FLAG_CARRY
    (set_zero_negative_flags v c)) (or_flag _ CPU_FLAG_OVERFLOW)); [|by apply flag_update_or].
  by apply (flag_update_compose _ (or_flag _ CPU_FLAG_CARRY)); [apply flag_update_zn|
    apply flag_update_or].
Qed.

(** ** The interfaces *)

Section closed.
Context {D : Type} {DI : DevInv D}.

Class UserClosed (I : Machine D -> Prop) : Prop := {
  uc_fetch : FetchClosed I;
  uc_register s r v : I s -> is_u64 v -> I (set_cpu (set_register r v (cpu s)) s);
  uc_vector s r v : I s -> vector_ok v -> I (set_cpu (set_vector r v (cpu s)) s);
  uc_flags s f : I s -> is_u64 f -> ie f = ie (flags (cpu s)) ->
    I (set_cpu (set_flags f (cpu s)) s);
  uc_fp_status s v : I s -> is_u64 v -> I (set_cpu (set_fp_status v (cpu s)) s);
  uc_waiting s : I s -> I (set_cpu (set_waiting true (cpu s)) s)
}.

(** What supervisor code may do besides: the clauses list the guards under
    which the handlers make each update. *)
Class PrivClosed (I : Machine D -> Prop) : Prop := {
  pc_user : UserClosed I;
  pc_halt s : I s -> I (set_cpu (set_halted true (set_waiting false (cpu s))) s);
  pc_flags s f : I s -> is_u64 f -> I (set_cpu (set_flags f (cpu s)) s);
  pc_mode s m : I s -> I (set_cpu (set_mode m (cpu s)) s);
  pc_ksp s v : I s -> is_u64 v -> I (set_cpu (set_ksp v (cpu s)) s);
  pc_active s : I s -> I (set_cpu (set_exception_active false (cpu s)) s);
  pc_waiting s b : I s -> I (set_cpu (set_waiting b (cpu s)) s);
  pc_vbr s a : I s -> is_u64 a -> has_bits a 7 = false ->
    cpu_ram_range_valid (machine_ram s) a CPU_VECTOR_TABLE_SIZE = true ->
    I (set_cpu (set_vbr_enabled true (set_vbr a (cpu s))) s);
  pc_ptbr s a : I s -> is_u64 a -> mmu_root_valid (machine_ram s) a = true ->
    I (set_cpu (set_ptbr_set true (set_ptbr a (cpu s))) s);
  pc_mmu s b : I s -> (b = true -> ptbr_set (cpu s) = true) ->
    I (set_cpu (set_mmu_enabled b (cpu s)) s)
}.

(** What the step does around an instruction. *)
Class StepClosed (I : Machine D -> Prop) : Prop := {
  sc_priv : PrivClosed I;
  sc_active s : I s -> I (set_cpu (set_exception_active true (cpu s)) s);
  pc_pending s b : I s -> I (set_cpu (set_exception_pending b (cpu s)) s);
  pc_ecause s v : I s -> is_u64 v -> I (set_cpu (set_ecause v (cpu s)) s);
  pc_begin s : I s -> I (set_cpu (set_instruction_pc (pc (cpu s)) (cpu s)) s)
}.
End closed.
#[export] Existing Instance uc_fetch.
#[export] Existing Instance pc_user.
#[export] Existing Instance sc_priv.

(** ** Unprivileged computations *)

(** Decomposes a computation along its binds, matches and conditionals; the
    leaves are resolved with the databases [exec] and [u64]. *)
Ltac keeps_step :=
  match goal with
  | |- keeps _ (exec_bind (exec_try _) (fun o => match o with Some _ => _ | None => _ end)) _ =>
      eapply keeps_try_bind; [solve [eauto 8 with exec u64]|intros ? ?|]
  | |- keeps _ (exec_bind (if _ then _ else _) _) _ =>
      eapply (keeps_bind _ _ _ (fun _ => True)); [|intros ? ?]
  | |- keeps _ (exec_bind _ _) _ => eapply keeps_bind; [solve [eauto 8 with exec u64]|intros ? ?]
  | |- keeps _ (if _ then _ else _) _ => apply keeps_if; intros ?
  | |- keeps _ (match ?p with pair _ _ => _ end) _ =>
      destruct p; cbn [fst snd] in *; destruct_and?
  | |- keeps _ (let x := _ in _) _ => cbv zeta
  | |- keeps _ _ _ => solve [eauto 8 with exec u64]
  end.
Ltac keeps_auto := repeat keeps_step.

#[export] Hint Extern 1 (keeps _ (set_exception _ 0 0) _) =>
  (apply set_exception_keeps; [apply _|by vm_compute..]) : exec.
#[export] Hint Extern 1 (keeps _ cpu_internal_illegal_instruction _) =>
  (apply illegal_instruction_keeps; apply _) : exec.
#[export] Hint Extern 1 (keeps _ (read_cpu (fun c => get_register c _)) _) =>
  (apply read_register_keeps; apply _) : exec.
#[export] Hint Extern 1 (keeps _ (read_ram _) _) =>
  (apply (read_ram_keeps _ _ (fun _ => True)); [apply _|done]) : exec.
#[export] Hint Extern 1 (keeps _ (set_access_exception _ _ _ _) _) =>
  (apply set_access_exception_keeps; [apply _|by vm_compute|solve [eauto with u64]]) : exec.

Ltac unfold_handler :=
  match goal with |- keeps _ ?h _ => let c := get_head h in unfold c end.
Ltac handler_keeps :=
  first [solve [eauto 8 with exec u64] | unfold_handler; solve [keeps_auto]].

(** *** Operations that only fetch and access memory *)
Section shared.
Context {D : Type} {DI : DevInv D} (I : Machine D -> Prop) {FC : FetchClosed I}.

Lemma reg_keeps r : keeps I (reg r) is_u64.
Proof. by apply (read_register_keeps I). Qed.

Lemma data_read_keeps a w : is_u64 a -> 0 <= w -> keeps I (data_read a w) is_u64.
Proof. intros Ha Hw. by apply (memory_read_keeps I); [..|vm_compute]. Qed.

Lemma data_write_keeps a w v :
  is_u64 a -> 0 <= w -> is_u64 v -> keeps I (data_write a w v) (fun _ => True).
Proof. intros Ha Hw Hv. by apply (memory_write_keeps I); [..|vm_compute|]. Qed.

Lemma stack_read_keeps a : is_u64 a -> keeps I (stack_read a) is_u64.
Proof. intros Ha. by apply (memory_read_keeps I); [..|vm_compute]. Qed.

Lemma fetch_immediate32_keeps :
  keeps I fetch_register_immediate32 (fun p => reg_ok p.1 /\ is_u64 p.2).
Proof.
  eapply keeps_bind; [by apply (fetch_register_keeps I)|]. intros r Hr.
  eapply keeps_bind; [by apply (fetch_u32_keeps I)|]. intros v Hv. apply keeps_ret. simpl.
  auto with u64.
Qed.

Lemma fetch_shift_keeps :
  keeps I fetch_shift_operands (fun p => reg_ok p.1 /\ 0 <= p.2 < 64).
Proof.
  eapply keeps_bind; [by apply (fetch_u8_keeps I)|]. intros r Hr.
  eapply keeps_bind; [by apply (fetch_u8_keeps I)|]. intros n Hn.
  eapply keeps_bind; [by apply (register_valid_keeps I)|]. intros ? Hv.
  destruct (Z.leb_spec REGISTER_BITS n); [by apply (set_exception_keeps I); vm_compute|].
  apply keeps_ret. simpl. unfold reg_ok, is_u8, REGISTER_BITS in *. lia.
Qed.

Lemma relative_target_keeps d : is_u64 d -> keeps I (relative_target d) is_u64.
Proof. intros Hd. apply (read_cpu_keeps I). auto with u64. Qed.

Lemma read_flag_keeps f : keeps I (read_cpu (A:=bool) f) (fun _ => True).
Proof. by apply (read_cpu_keeps I). Qed.

Lemma evaluate_condition_keeps n : keeps I (evaluate_condition n) (fun _ => True).
Proof. unfold evaluate_condition. apply keeps_if; intros; [|apply read_flag_keeps]. auto with exec. Qed.

Lemma extend_mask_u64 w : is_u64 (extend_mask w).
Proof. unfold extend_mask. by destruct (w =? 1), (w =? 2); vm_compute. Qed.

Lemma atomic_access_keeps a op :
  is_u64 a -> (forall pa b0, keeps (bus_like b0) (op pa) is_u64) ->
  keeps I (atomic_access a op) is_u64.
Proof.
  intros Ha Hop. eapply keeps_bind; [by apply (translate_address_keeps I)|]. intros pa _.
  eapply keeps_try_bind; [by apply (on_bus_keeps I); [apply Hop]|intros v Hv; by apply keeps_ret|].
  apply (set_access_exception_keeps I); [by vm_compute|done].
Qed.
End shared.
#[export] Hint Resolve extend_mask_u64 : u64.

Section user.
Context {D : Type} {DI : DevInv D} (I : Machine D -> Prop) {UC : UserClosed I}.

Lemma set_register_keeps r v :
  is_u64 v -> keeps I (modify_cpu (set_register r v)) (fun _ => True).
Proof. intros Hv s Hs. split; [by apply uc_register|done]. Qed.

Lemma flag_update_keeps g : flag_update g -> keeps I (modify_cpu g) (fun _ => True).
Proof.
  intros Hg s Hs. split; [|done]. unfold modify_cpu. simpl.
  destruct (Hg (cpu s)) as (f & -> & Hu & Hi). apply uc_flags; [done| |done].
  apply Hu, (mw_cpu s), (fc_wf s Hs).
Qed.

Lemma set_pc_keeps v : is_u64 v -> keeps I (modify_cpu (set_pc v)) (fun _ => True).
Proof. intros Hv s Hs. split; [by apply fc_pc|done]. Qed.

Lemma set_reg_keeps r v : is_u64 v -> keeps I (set_reg r v) (fun _ => True).
Proof. apply set_register_keeps. Qed.

Lemma set_reg_zn_keeps r v : is_u64 v -> keeps I (set_reg_zn r v) (fun _ => True).
Proof.
  intros Hv. eapply keeps_bind; [by apply set_reg_keeps|]. intros _ _.
  apply flag_update_keeps, flag_update_zn.
Qed.

Lemma jump_to_keeps v : is_u64 v -> keeps I (jump_to v) (fun _ => True).
Proof. apply set_pc_keeps. Qed.

#[local] Hint Resolve fetch_register_keeps fetch_register_pair_keeps fetch_u8_keeps
  fetch_u32_keeps fetch_u64_keeps register_valid_keeps
  instruction_address_valid_keeps instruction_address_valid_for_mode_keeps
  set_register_keeps set_reg_keeps set_reg_zn_keeps reg_keeps set_pc_keeps jump_to_keeps
  data_read_keeps data_write_keeps stack_read_keeps : exec.
#[local] Hint Resolve flag_update_keeps uc_fetch : exec.
#[local] Hint Resolve flag_update_zn flag_update_add flag_update_sub flag_update_mask : exec.
#[local] Hint Extern 1 (flag_update (or_flag _ _)) => (by apply flag_update_or; vm_compute) : exec.

Lemma stack_push_keeps v : is_u64 v -> keeps I (stack_push_u64 v) (fun _ => True).
Proof.
  intros Hv. eapply keeps_bind; [by apply (read_register_keeps I)|]. intros sp Hsp.
  destruct (Z.ltb_spec sp 8).
  - apply (set_access_exception_keeps I); [by vm_compute|done].
  - assert (is_u64 (sp - 8)) by zlia. eapply keeps_bind; [|intros _ _; by apply set_register_keeps].
    by apply (memory_write_keeps I); [..|vm_compute|].
Qed.

Lemma stack_pop_keeps : keeps I stack_pop_u64 is_u64.
Proof.
  eapply keeps_bind; [by apply (read_register_keeps I)|]. intros sp Hsp.
  eapply keeps_bind; [by apply (memory_read_keeps I); [..|vm_compute]|]. intros v Hv.
  eapply keeps_bind; [apply set_register_keeps; auto with u64|]. intros _ _. by apply keeps_ret.
Qed.

Lemma push_pc_keeps : keeps I push_pc (fun _ => True).
Proof.
  eapply keeps_bind; [apply (read_cpu_keeps I _ is_u64), cw_pc|]. intros p Hp.
  by apply stack_push_keeps.
Qed.

#[local] Hint Resolve stack_push_keeps stack_pop_keeps push_pc_keeps fetch_immediate32_keeps
  fetch_shift_keeps relative_target_keeps evaluate_condition_keeps read_flag_keeps : exec.

Lemma execute_branch_keeps b : keeps I (execute_branch b) (fun _ => True).
Proof. unfold execute_branch. keeps_auto. Qed.

Lemma branch_if_keeps f : keeps I (branch_if f) (fun _ => True).
Proof.
  eapply keeps_bind; [apply (read_flag_keeps I)|]. intros b _. apply execute_branch_keeps.
Qed.

Lemma execute_load_keeps w b : 0 <= w -> keeps I (execute_load w b) (fun _ => True).
Proof. intros Hw. unfold execute_load. keeps_auto. Qed.

Lemma execute_store_keeps w : 0 <= w -> keeps I (execute_store w) (fun _ => True).
Proof. intros Hw. unfold execute_store. keeps_auto. Qed.

Lemma execute_load_offset_keeps w b : 0 <= w -> keeps I (execute_load_offset w b) (fun _ => True).
Proof. intros Hw. unfold execute_load_offset. keeps_auto. Qed.

Lemma execute_store_offset_keeps w : 0 <= w -> keeps I (execute_store_offset w) (fun _ => True).
Proof. intros Hw. unfold execute_store_offset. keeps_auto. Qed.


Lemma execute_extend_keeps w b : keeps I (execute_extend w b) (fun _ => True).
Proof. unfold execute_extend. keeps_auto. Qed.

Lemma read_control_keeps f :
  (forall c, cpu_wf c -> is_u64 (f c)) -> keeps I (read_control f) (fun _ => True).
Proof.
  intros Hf. eapply keeps_bind; [by apply (fetch_register_keeps I)|]. intros r Hr.
  eapply keeps_bind; [by apply (read_cpu_keeps I _ is_u64)|]. intros v Hv. by apply set_reg_keeps.
Qed.

Lemma cas64_keeps : keeps I execute_cas64 (fun _ => True).
Proof.
  unfold execute_cas64. repeat keeps_step. eapply keeps_bind.
  { apply (atomic_access_keeps I); [done|]. intros. by apply bus_compare_exchange64_keeps. }
  intros v Hv. keeps_auto.
Qed.

Lemma xchg64_keeps : keeps I execute_xchg64 (fun _ => True).
Proof.
  unfold execute_xchg64. repeat keeps_step. eapply keeps_bind.
  { apply (atomic_access_keeps I); [done|]. intros. by apply bus_exchange64_keeps. }
  intros v Hv. keeps_auto.
Qed.

Lemma atomic_add64_keeps : keeps I execute_atomic_add64 (fun _ => True).
Proof.
  unfold execute_atomic_add64. repeat keeps_step. eapply keeps_bind.
  { apply (atomic_access_keeps I); [done|]. intros. by apply bus_fetch_add64_keeps. }
  intros v Hv. keeps_auto.
Qed.

Lemma wait_keeps : keeps I execute_wait (fun _ => True).
Proof. intros s Hs. split; [by apply uc_waiting|done]. Qed.

#[local] Hint Resolve cas64_keeps xchg64_keeps atomic_add64_keeps wait_keeps execute_branch_keeps
  branch_if_keeps execute_load_keeps execute_store_keeps execute_load_offset_keeps
  execute_store_offset_keeps execute_extend_keeps read_control_keeps
  cw_ecause cw_badaddr cw_epc cw_einfo : exec.
#[local] Hint Resolve cw_core_id cw_thread_id : u64.

Definition privileged_opcode (opcode : Z) : bool :=
  existsb (Z.eqb opcode)
    [OP_HALT; OP_IRET; OP_EI; OP_DI; OP_SETVBR; OP_GETVBR; OP_ENTERUSER; OP_SETPTBR; OP_GETPTBR;
     OP_MMUON; OP_MMUOFF; OP_SETKSP; OP_GETKSP].

Lemma getmode_keeps : keeps I execute_getmode (fun _ => True).
Proof. apply read_control_keeps. intros c _. by destruct (mode c); vm_compute. Qed.

Lemma getmmu_keeps : keeps I execute_getmmu (fun _ => True).
Proof. apply read_control_keeps. intros c _. by destruct (mmu_enabled c); vm_compute. Qed.

#[local] Hint Resolve getmode_keeps getmmu_keeps : exec.

(** Every handler outside the privileged ones and SYSCALL. *)
Lemma unprivileged_handlers_keep :
  Forall (fun '(op, h) => privileged_opcode op = false -> op <> OP_SYSCALL ->
    keeps I h (fun _ => True)) (OPCODE_HANDLERS (D:=D)).
Proof.
  unfold OPCODE_HANDLERS.
  repeat (apply Forall_cons_2;
    [intros Hp Hs; first [discriminate Hp | congruence | handler_keeps]|]).
  apply Forall_nil_2.
Qed.
End user.

(** ** The vector unit *)

Lemma put_bytes_ok value at_ bytes :
  vector_ok value -> Forall is_u8 bytes -> vector_ok (put_bytes value at_ bytes).
Proof.
  intros Hv Hb. revert value at_ Hv. induction Hb as [|b bytes Hb Hbs IH]; intros value at_ Hv;
    [done|]. apply IH. destruct Hv as [Hl Hv]. split; [by rewrite length_arr_set|].
  by apply arr_set_Forall.
Qed.

Lemma write_lane_ok value lane w x : vector_ok value -> vector_ok (write_lane value lane w x).
Proof. intros Hv. apply put_bytes_ok; [done|apply int_to_bytes_u8]. Qed.

Lemma zero_vector_ok : vector_ok zero_vector.
Proof. split; [done|]. apply Forall_replicate. by vm_compute. Qed.

Lemma read_lane_u64 value lane w : vector_ok value -> w <= 8 -> is_u64 (read_lane value lane w).
Proof.
  intros [_ Hv] Hw. unfold read_lane.
  assert (Forall is_u8 (take (Z.to_nat w) (drop (Z.to_nat (lane * w)) value)))
    by by apply Forall_take, Forall_drop.
  rewrite or_bytes_correct; [apply bytes_to_int_u64|..]; try done; rewrite length_take; lia.
Qed.

Lemma vector_integer_ok op w l r : vector_ok (vector_integer_result op w l r).
Proof.
  unfold vector_integer_result. generalize zero_vector_ok. generalize zero_vector.
  induction (seqZ 0 (VECTOR_REGISTER_SIZE / w)) as [|lane lanes IH]; intros v Hv; [done|].
  apply IH. by apply write_lane_ok.
Qed.

Lemma bitwise_byte_u8 opcode x y : is_u8 x -> is_u8 y -> is_u8 (bitwise_byte opcode x y).
Proof.
  intros Hx Hy. unfold bitwise_byte.
  destruct (_ =? _); [by apply land_u8|]. destruct (_ =? _); [by apply lor_u8|by apply lxor_u8].
Qed.

Lemma bitwise_ok opcode l r :
  vector_ok l -> vector_ok r -> vector_ok (zip_with (bitwise_byte opcode) l r).
Proof.
  intros [Hl Hfl] [Hr Hfr]. split; [rewrite length_zip_with; lia|]. clear Hl Hr.
  revert r Hfr. induction Hfl as [|x l Hx Hfl IH]; intros r Hfr; [constructor|].
  destruct Hfr as [|y r Hy Hfr]; [constructor|]. constructor; [by apply bitwise_byte_u8|auto].
Qed.

Lemma update_float_status_u64 f status l r v op :
  is_u64 status -> is_u64 (update_float_status f status l r v op).
Proof.
  intros Hs. assert (is_u64 CPU_FP_INVALID /\ is_u64 CPU_FP_DIVIDE_BY_ZERO /\
    is_u64 CPU_FP_OVERFLOW /\ is_u64 CPU_FP_UNDERFLOW) as (? & ? & ? & ?) by by vm_compute.
  unfold update_float_status. cbv zeta.
  set (b1 := isnan _). set (b2 := match op with FLOAT_DIVIDE => _ | _ => _ end).
  set (b3 := negb b2 && _ && _ && _). set (b4 := _ && is_subnormal _ _).
  destruct b1, b2, b3, b4; auto 8 with u64.
Qed.

Lemma vector_float_ok `{HostNan} f op lanes l r status :
  is_u64 status ->
  vector_ok (vector_float_result f op lanes l r status).1 /\
  is_u64 (vector_float_result f op lanes l r status).2.
Proof.
  intros Hs. unfold vector_float_result. generalize zero_vector_ok. generalize zero_vector.
  revert status Hs. induction (seqZ 0 lanes) as [|lane ls IH]; intros status Hs v Hv; [done|].
  apply IH; [by apply update_float_status_u64|by apply write_lane_ok].
Qed.

Section vector_shared.
Context {D : Type} {DI : DevInv D} (I : Machine D -> Prop) {FC : FetchClosed I}.

Lemma general_keeps r : keeps I (general r) is_u64.
Proof. by apply (read_register_keeps I). Qed.

Lemma vector_keeps r : reg_ok r -> keeps I (vector r) vector_ok.
Proof. intros Hr. apply (read_cpu_keeps I). intros c Hc. by apply vector_reg_ok. Qed.

Lemma fetch_general_keeps : keeps I fetch_general_register reg_ok.
Proof.
  eapply keeps_bind; [by apply (fetch_u8_keeps I)|]. intros r Hr.
  destruct (Z.ltb_spec r REGISTER_COUNT); [|by apply (illegal_instruction_keeps I)].
  apply keeps_ret. unfold reg_ok, is_u8, REGISTER_COUNT in *. lia.
Qed.

Lemma fetch_vector_keeps : keeps I fetch_vector_register reg_ok.
Proof. apply fetch_general_keeps. Qed.

Lemma fetch_vector_pair_keeps : keeps I fetch_vector_pair (fun p => reg_ok p.1 /\ reg_ok p.2).
Proof.
  eapply keeps_bind; [apply fetch_vector_keeps|]. intros r1 H1.
  eapply keeps_bind; [apply fetch_vector_keeps|]. intros r2 H2. by apply keeps_ret.
Qed.

Lemma fetch_vector_triple_keeps :
  keeps I fetch_vector_triple (fun p => (reg_ok p.1.1 /\ reg_ok p.1.2) /\ reg_ok p.2).
Proof.
  eapply keeps_bind; [apply fetch_vector_keeps|]. intros r1 H1.
  eapply keeps_bind; [apply fetch_vector_keeps|]. intros r2 H2.
  eapply keeps_bind; [apply fetch_vector_keeps|]. intros r3 H3. by apply keeps_ret.
Qed.

Lemma vector_segments_keeps a access :
  is_u64 a -> keeps I (vector_memory_segments a access) (Forall seg_ok).
Proof.
  intros Ha. eapply keeps_bind.
  { by apply (build_memory_segments_keeps I); [|vm_compute..]. }
  intros segs Hsegs. eapply keeps_bind; [|intros _ _; by apply keeps_ret].
  apply (check_segments_keeps I); [done|by vm_compute].
Qed.

Lemma vector_chunk_pos g n : n < seg_width g -> 1 <= vector_chunk g n <= 8.
Proof. unfold vector_chunk. destruct (Z.ltb_spec 8 (seg_width g - n)); lia. Qed.

Lemma vector_read_loop_keeps fuel g n value :
  seg_ok g -> vector_ok value -> keeps I (vector_read_loop fuel g n value) vector_ok.
Proof.
  intros Hg. revert n value. induction fuel as [|fuel IH]; intros n value Hv; cbn [vector_read_loop];
    destruct (Z.ltb_spec n (seg_width g)); simpl; try (by apply keeps_ret); [apply keeps_fail|].
  eapply keeps_bind; [apply (read_ram_keeps I _ (fun _ => True)); done|]. intros [part|] _.
  - apply IH. apply put_bytes_ok; [done|apply int_to_bytes_u8].
  - apply (set_access_exception_keeps I); [by vm_compute|apply wrap64_u64].
Qed.

Lemma vector_read_keeps a : is_u64 a -> keeps I (cpu_internal_vector_read a) vector_ok.
Proof.
  intros Ha. eapply keeps_bind; [by apply vector_segments_keeps|]. intros segs Hsegs.
  generalize zero_vector_ok. unfold zero_vector. generalize (replicate 16 0).
  induction Hsegs as [|g segs Hg Hsegs IH]; intros v Hv; [by apply keeps_ret|].
  eapply keeps_bind; [by apply vector_read_loop_keeps|]. intros v' Hv'. by apply IH.
Qed.

Lemma vector_write_loop_keeps fuel g n value :
  seg_ok g -> vector_ok value -> keeps I (vector_write_loop fuel g n value) (fun _ => True).
Proof.
  intros Hg Hv. revert n. induction fuel as [|fuel IH]; intros n; cbn [vector_write_loop];
    destruct (Z.ltb_spec n (seg_width g)); simpl; try (by apply keeps_ret); [apply keeps_fail|].
  eapply keeps_bind.
  { apply (keeps_try _ _ (fun _ => True)), (on_bus_keeps I). intros b0. apply ram_store_keeps.
    pose proof (vector_chunk_pos g n). lia. }
  intros [?|] _; [apply IH|].
  apply (set_access_exception_keeps I); [by vm_compute|apply wrap64_u64].
Qed.

Lemma vector_write_keeps a v :
  is_u64 a -> vector_ok v -> keeps I (cpu_internal_vector_write a v) (fun _ => True).
Proof.
  intros Ha Hv. eapply keeps_bind; [by apply vector_segments_keeps|]. intros segs Hsegs.
  induction Hsegs as [|g segs Hg Hsegs IH]; [by apply keeps_ret|].
  eapply keeps_bind; [by apply vector_write_loop_keeps|]. intros _ _. apply IH.
Qed.

Lemma internal_read_keeps a w : is_u64 a -> 0 <= w -> keeps I (cpu_internal_data_read a w) is_u64.
Proof. intros. by apply (data_read_keeps I). Qed.

Lemma internal_write_keeps a w v :
  is_u64 a -> 0 <= w -> is_u64 v -> keeps I (cpu_internal_data_write a w v) (fun _ => True).
Proof. intros. by apply (data_write_keeps I). Qed.
End vector_shared.

Section vector_user.
Context {D : Type} {DI : DevInv D} `{HN : HostNan} (I : Machine D -> Prop) {UC : UserClosed I}.

Lemma set_vector_keeps r v : vector_ok v -> keeps I (put_vector r v) (fun _ => True).
Proof. intros Hv s Hs. split; [by apply uc_vector|done]. Qed.

Lemma fp_update_keeps (g : CPU -> Z) :
  (forall c, cpu_wf c -> is_u64 (g c)) ->
  keeps I (modify_cpu (fun c => set_fp_status (g c) c)) (fun _ => True).
Proof.
  intros Hg s Hs. split; [|done]. apply uc_fp_status; [done|]. apply Hg, mw_cpu, (fc_wf s Hs).
Qed.

Lemma or_fp_status_keeps b x : is_u64 x -> keeps I (or_fp_status b x) (fun _ => True).
Proof.
  intros Hx. destruct b; simpl.
  - apply fp_update_keeps. intros c Hc. apply lor_u64; [apply Hc|done].
  - intros s Hs. split; [|done]. by destruct s as [c b].
Qed.

Lemma put_general_keeps r v : is_u64 v -> keeps I (put_general r v) (fun _ => True).
Proof. by apply (set_register_keeps I). Qed.

#[local] Hint Resolve set_vector_keeps general_keeps vector_keeps fetch_general_keeps
  fetch_vector_keeps fetch_vector_pair_keeps fetch_vector_triple_keeps vector_read_keeps
  vector_write_keeps internal_read_keeps internal_write_keeps put_general_keeps
  fp_update_keeps uc_fetch : exec.
#[local] Hint Resolve write_lane_ok zero_vector_ok vector_integer_ok bitwise_ok
  update_float_status_u64 cw_fp_status read_lane_u64 : u64.
#[local] Hint Extern 1 (keeps _ (or_fp_status _ _) _) =>
  (apply or_fp_status_keeps; by vm_compute) : exec.

Lemma vector_integer_keeps w op : keeps I (execute_vector_integer w op) (fun _ => True).
Proof. unfold execute_vector_integer. keeps_auto. Qed.

Lemma vector_bitwise_keeps op : keeps I (execute_vector_bitwise op) (fun _ => True).
Proof. unfold execute_vector_bitwise. keeps_auto. Qed.

Lemma float_load_keeps w : 0 <= w -> keeps I (execute_float_load w) (fun _ => True).
Proof. intros Hw. unfold execute_float_load. keeps_auto. Qed.

Lemma float_store_keeps w : 0 <= w <= 8 -> keeps I (execute_float_store w) (fun _ => True).
Proof. intros [Hw Hw8]. unfold execute_float_store. keeps_auto. Qed.

Lemma scalar_float_keeps f op : keeps I (execute_scalar_float f op) (fun _ => True).
Proof. unfold execute_scalar_float, write_float. keeps_auto. Qed.

Lemma float_compare_flags_ok f l r :
  is_u64 (float_compare_flags f l r).1 /\ ie (float_compare_flags f l r).1 = false.
Proof.
  unfold float_compare_flags. destruct (_ || _); [by vm_compute|].
  destruct (SFeqb _ _); [by vm_compute|]. destruct (SFltb _ _); by vm_compute.
Qed.

Lemma float_compare_keeps f : keeps I (execute_float_compare f) (fun _ => True).
Proof.
  unfold execute_float_compare. do 4 keeps_step.
  match goal with |- context [float_compare_flags ?f ?l ?r] =>
    pose proof (float_compare_flags_ok f l r) as [? ?];
    destruct (float_compare_flags f l r) as [fl invalid] end.
  eapply keeps_bind; [|intros _ _; auto with exec].
  apply (flag_update_keeps I). by apply flag_update_clear.
Qed.

Lemma float_sign_keeps w b : keeps I (execute_float_sign w b) (fun _ => True).
Proof. unfold execute_float_sign. keeps_auto. Qed.

Lemma float_to_int_keeps f n : keeps I (execute_float_to_int f n) (fun _ => True).
Proof.
  unfold execute_float_to_int. repeat keeps_step.
Qed.

Lemma vector_float_keeps f n op : keeps I (execute_vector_float f n op) (fun _ => True).
Proof.
  unfold execute_vector_float. repeat keeps_step.
  eapply keeps_bind; [apply (read_cpu_keeps I _ is_u64), cw_fp_status|]. intros status Hs.
  match goal with |- context [vector_float_result ?f ?op ?n ?l ?r ?s] =>
    pose proof (vector_float_ok f op n l r s Hs) as [? ?];
    destruct (vector_float_result f op n l r s) as [result status'] end.
  eapply keeps_bind; [|intros _ _; by apply set_vector_keeps].
  by apply (fp_update_keeps (fun _ => status')).
Qed.

Lemma getfpstatus_keeps : keeps I execute_getfpstatus (fun _ => True).
Proof.
  eapply keeps_bind; [apply (fetch_general_keeps I)|]. intros r Hr.
  eapply keeps_bind; [apply (read_cpu_keeps I _ is_u64), cw_fp_status|]. intros v Hv.
  by apply put_general_keeps.
Qed.

Lemma clearfpstatus_keeps : keeps I execute_clearfpstatus (fun _ => True).
Proof. apply (fp_update_keeps (fun _ => 0)). by vm_compute. Qed.

#[local] Hint Resolve vector_integer_keeps float_load_keeps float_store_keeps scalar_float_keeps
  float_compare_keeps float_sign_keeps float_to_int_keeps vector_float_keeps
  getfpstatus_keeps clearfpstatus_keeps : exec.
#[local] Hint Extern 1 (0 <= _ <= 8) => lia : exec.

Lemma vector_handlers_keep :
  Forall (fun p => keeps I p.2 (fun _ => True)) (VECTOR_HANDLERS (D:=D)).
Proof.
  unfold VECTOR_HANDLERS. repeat (apply Forall_cons_2; [simpl; handler_keeps|]).
  apply Forall_nil_2.
Qed.

Lemma handler_lookup_elem {H} (table : list (Z * H)) op h :
  handler_lookup table op = Some h -> (op, h) ∈ table.
Proof.
  induction table as [|[o k] table IH]; simpl; [done|]. destruct (Z.eqb_spec o op); [|].
  - intros [= ->]. subst. left.
  - intros E. right. auto.
Qed.

Lemma vector_execute_keeps op : keeps I (cpu_vector_execute op) (fun _ => True).
Proof.
  unfold cpu_vector_execute. destruct (negb _); [by apply (illegal_instruction_keeps I)|].
  destruct (_ || _); [apply vector_bitwise_keeps|].
  destruct (handler_lookup _ _) as [h|] eqn:E; [|by apply (illegal_instruction_keeps I)].
  apply handler_lookup_elem, list_elem_of_In in E.
  pose proof vector_handlers_keep as Hf. rewrite Forall_forall in Hf. exact (Hf _ E).
Qed.
End vector_user.
