(* ===== verification/CpuStep.v ===== *)
(** Privileged instructions, exceptions and the step preserve the invariant. *)

From S2P Require Import Prelude Ram Mmu Interrupt Bus Isa CpuCore CpuInv CpuExec CpuVector Cpu CpuSafety.
From stdpp Require Import base list numbers option.
From Stdlib Require Import ZArith Lia Bool.

#[local] Open Scope Z_scope.
#[local] Open Scope exec_scope.

Section priv.
Context {D : Type} {DI : DevInv D} (I : Machine D -> Prop) {PC : PrivClosed I}.

Lemma modify_keeps (g : CPU -> CPU) :
  (forall s, I s -> I (set_cpu (g (cpu s)) s)) -> keeps I (modify_cpu g) (fun _ => True).
Proof. intros Hg s Hs. split; [by apply Hg|done]. Qed.

(** Updates compose: the inner one first. *)
Lemma modify2_keeps (g h : CPU -> CPU) :
  (forall s, I s -> I (set_cpu (g (cpu s)) s)) -> (forall s, I s -> I (set_cpu (h (cpu s)) s)) ->
  keeps I (modify_cpu (fun c => h (g c))) (fun _ => True).
Proof.
  intros Hg Hh. apply modify_keeps. intros s Hs. exact (Hh _ (Hg s Hs)).
Qed.

Lemma cpu_id_keeps : keeps I (read_cpu id) cpu_wf.
Proof. by apply (read_cpu_keeps I). Qed.

Lemma supervisor_keeps : keeps I require_supervisor (fun _ => True).
Proof. apply (require_supervisor_keeps I). Qed.

#[local] Hint Resolve cpu_id_keeps supervisor_keeps : exec.

Lemma read_vector_keeps idx : keeps I (read_vector idx) is_u64.
Proof.
  eapply keeps_bind; [apply cpu_id_keeps|]. intros c Hc. destruct (_ || _); [apply keeps_fail|].
  cbv zeta. destruct (_ <? _); [apply keeps_fail|].
  eapply keeps_bind; [by apply (read_ram_keeps I _ (fun _ => True))|]. intros valid _.
  eapply keeps_bind; [apply keeps_guard|]. intros _ _.
  eapply keeps_bind.
  { apply (read_ram_keeps I _ (fun o => forall v, o = Some v -> is_u64 v)). intros r Hr v.
    apply ram_read_u64; [done|by vm_compute]. }
  intros entry He. eapply keeps_bind; [exact (keeps_of_option _ _ _ He)|]. intros h Hh.
  eapply keeps_bind; [apply keeps_guard|]. intros _ _.
  eapply keeps_bind; [by apply (instruction_address_valid_for_mode_keeps I)|]. intros _ _.
  by apply keeps_ret.
Qed.

Lemma saved_flags_u64 c b : cpu_wf c -> is_u64 (make_saved_flags c b).
Proof.
  intros Hc. pose proof (cw_flags c Hc). unfold make_saved_flags.
  assert (is_u64 CPU_FLAG_MASK /\ is_u64 CPU_SAVED_FLAG_USER_MODE /\
    is_u64 CPU_SAVED_FLAG_EXCEPTION_FRAME) as (? & ? & ?) by by vm_compute.
  destruct (user_mode _), b; auto 6 with u64.
Qed.

Lemma enter_keeps h ret b :
  is_u64 h -> is_u64 ret -> keeps I (enter_privileged_handler h ret b) (fun _ => True).
Proof.
  intros Hh Hr. eapply keeps_bind; [apply cpu_id_keeps|]. intros c Hc.
  pose proof (register_u64 c REGISTER_SP Hc) as Hsp. pose proof (cw_ksp c Hc) as Hk.
  cbv zeta. set (top := if user_mode (mode c) then ksp c else _).
  set (size := if user_mode (mode c) then 24 else 16).
  assert (is_u64 top) as Htop by (unfold top; by destruct (user_mode _)).
  assert (0 <= size) as Hsize by (unfold size; destruct (user_mode _); lia).
  destruct (Z.ltb_spec top size).
  { by apply (set_access_exception_keeps I); [vm_compute|]. }
  assert (is_u64 (top - size)) as Hframe by (unfold is_u64 in *; lia).
  eapply keeps_bind; [apply modify_keeps; intros; by apply pc_mode|]. intros _ _.
  eapply keeps_try_bind.
  - apply (write_handler_frame_keeps I); [done..| |done]. by apply saved_flags_u64.
  - intros _ _. apply modify_keeps. intros s Hs.
    apply (uc_register s REGISTER_SP (top - size)) in Hs; [|done].
    apply (pc_flags _ (Z.land (flags (cpu s)) (not64 CPU_FLAG_INTERRUPT_ENABLE))) in Hs;
      [|apply land_u64; [apply (mw_cpu _ (fc_wf _ Hs))|apply not64_u64]].
    apply (fc_pc _ h) in Hs; [|done]. exact (pc_waiting _ false Hs).
  - eapply keeps_bind; [|intros _ _; by apply (set_access_exception_keeps I); [vm_compute|]].
    apply modify2_keeps; intros s Hs; [by apply pc_mode|by apply uc_register].
Qed.

(** *** The privileged handlers *)

Lemma halt_keeps : keeps I execute_halt (fun _ => True).
Proof.
  eapply keeps_bind; [apply supervisor_keeps|]. intros _ _. apply modify_keeps, pc_halt.
Qed.

Lemma flags_keeps (g : CPU -> Z) :
  (forall c, cpu_wf c -> is_u64 (g c)) ->
  keeps I (modify_cpu (fun c => set_flags (g c) c)) (fun _ => True).
Proof.
  intros Hg. apply modify_keeps. intros s Hs. apply pc_flags; [done|].
  apply Hg, (mw_cpu _ (fc_wf _ Hs)).
Qed.

Lemma ei_keeps : keeps I execute_ei (fun _ => True).
Proof.
  eapply keeps_bind; [apply supervisor_keeps|]. intros _ _. apply flags_keeps. intros c Hc.
  apply lor_u64; [apply Hc|by vm_compute].
Qed.

Lemma di_keeps : keeps I execute_di (fun _ => True).
Proof.
  eapply keeps_bind; [apply supervisor_keeps|]. intros _ _. apply flags_keeps. intros c Hc.
  apply land_u64; [apply Hc|apply not64_u64].
Qed.

Lemma iret_commit_keeps m sp usp ret saved :
  is_u64 usp -> is_u64 ret -> is_u64 saved ->
  keeps I (modify_cpu (iret_commit m sp usp ret saved)) (fun _ => True).
Proof.
  intros Hu Hr Hf. apply modify_keeps. intros s Hs. unfold iret_commit.
  set (c1 := if user_mode m then _ else _).
  assert (I (set_cpu c1 s)) as H1.
  { unfold c1. destruct (user_mode m); [|apply uc_register; [done|apply wrap64_u64]].
    apply (pc_ksp s (wrap64 (sp + 24))) in Hs; [|apply wrap64_u64]. exact (uc_register _ _ usp Hs Hu). }
  apply (fc_pc _ ret) in H1; [|done].
  apply (pc_flags _ (Z.land saved CPU_FLAG_MASK)) in H1; [|by apply land_u64; [|vm_compute]].
  apply (pc_mode _ m) in H1. destruct (has_bits _ _); [exact (pc_active _ H1)|exact H1].
Qed.

Lemma iret_keeps : keeps I execute_iret (fun _ => True).
Proof.
  eapply keeps_bind; [apply supervisor_keeps|]. intros _ _.
  eapply keeps_bind; [apply (reg_keeps I)|]. intros sp Hsp. destruct (_ <? sp); [apply keeps_fail|].
  eapply keeps_bind; [by apply (stack_read_keeps I)|]. intros ret Hr.
  eapply keeps_bind; [apply (stack_read_keeps I), wrap64_u64|]. intros saved Hf. cbv zeta.
  apply (keeps_bind _ _ _ is_u64).
  { destruct (user_mode _); [|by apply keeps_ret; vm_compute].
    destruct (_ <? sp); [apply keeps_fail|apply (stack_read_keeps I), wrap64_u64]. }
  intros usp Hu. destruct (_ && _); [by apply (set_access_exception_keeps I); [vm_compute|]|].
  eapply keeps_bind; [by apply (instruction_address_valid_for_mode_keeps I)|]. intros _ _.
  by apply iret_commit_keeps.
Qed.

Lemma setvbr_keeps : keeps I execute_setvbr (fun _ => True).
Proof.
  eapply keeps_bind; [apply supervisor_keeps|]. intros _ _.
  eapply keeps_bind; [by apply (fetch_register_keeps I)|]. intros r Hr.
  eapply keeps_bind; [apply (reg_keeps I)|]. intros a Ha.
  eapply (keeps_try_bind _ _ _ _ (fun _ => True));
    [|intros; by apply keeps_ret|by apply (set_access_exception_keeps I); [vm_compute|]].
  intros s Hs. unfold cpu_set_vector_base, exec_bind, read_ram. simpl.
  destruct (has_bits a 7) eqn:E1; simpl; [by split|].
  destruct (cpu_ram_range_valid _ _ _) eqn:E2; simpl; [|by split].
  split; [by apply pc_vbr|done].
Qed.

Lemma setptbr_keeps : keeps I execute_setptbr (fun _ => True).
Proof.
  eapply keeps_bind; [apply supervisor_keeps|]. intros _ _.
  eapply keeps_bind; [by apply (fetch_register_keeps I)|]. intros r Hr.
  eapply keeps_bind; [apply (reg_keeps I)|]. intros a Ha.
  intros s Hs. unfold exec_bind, read_cpu, read_ram. cbv beta iota delta [id].
  destruct (mmu_root_valid _ a) eqn:Hroot; cbv beta iota delta [negb];
    [|by apply (set_access_exception_keeps I); [vm_compute|..]].
  pose proof (cw_pc _ (mw_cpu _ (fc_wf _ Hs))) as Hpc.
  destruct (_ && _).
  - by apply (set_access_exception_keeps I); [vm_compute|..].
  - split; [by apply pc_ptbr|done].
Qed.

Lemma mmuon_keeps : keeps I execute_mmuon (fun _ => True).
Proof.
  eapply keeps_bind; [apply supervisor_keeps|]. intros _ _.
  intros s Hs. pose proof (mw_cpu _ (fc_wf _ Hs)) as Hc.
  unfold exec_bind, read_cpu, read_ram. cbv beta iota delta [id]. destruct (mmu_enabled _); [by split|].
  destruct (_ || _) eqn:E.
  - apply (set_exception_keeps I); [by vm_compute|apply Hc| |done].
    by destruct (ptbr_set _); vm_compute.
  - apply orb_false_iff in E as [E%negb_false_iff _]. destruct (negb _).
    + apply (set_access_exception_keeps I); [by vm_compute|apply Hc|done].
    + split; [by apply pc_mmu|done].
Qed.

Lemma mmuoff_keeps : keeps I execute_mmuoff (fun _ => True).
Proof.
  eapply keeps_bind; [apply supervisor_keeps|]. intros _ _.
  intros s Hs. pose proof (mw_cpu _ (fc_wf _ Hs)) as Hc.
  unfold exec_bind, read_cpu, read_ram. cbv beta iota delta [id]. destruct (negb _); [by split|]. destruct (negb _).
  - apply (set_access_exception_keeps I); [by vm_compute|apply Hc|done].
  - split; [by apply pc_mmu|done].
Qed.

Lemma getcontrol_keeps (f : CPU -> Z) :
  (forall c, cpu_wf c -> is_u64 (f c)) ->
  keeps I (require_supervisor;; read_control f) (fun _ => True).
Proof.
  intros Hf. eapply keeps_bind; [apply supervisor_keeps|]. intros _ _.
  by apply (read_control_keeps I).
Qed.

Lemma setksp_keeps : keeps I execute_setksp (fun _ => True).
Proof.
  eapply keeps_bind; [apply supervisor_keeps|]. intros _ _.
  eapply keeps_bind; [by apply (fetch_register_keeps I)|]. intros r Hr.
  eapply keeps_bind; [apply (reg_keeps I)|]. intros a Ha. apply modify_keeps. intros s Hs.
  by apply pc_ksp.
Qed.

Lemma enteruser_keeps : keeps I execute_enteruser (fun _ => True).
Proof.
  eapply keeps_bind; [apply supervisor_keeps|]. intros _ _. apply modify_keeps. intros s Hs.
  by apply pc_mode.
Qed.

Lemma syscall_keeps : keeps I execute_syscall (fun _ => True).
Proof.
  eapply keeps_try_bind; [apply read_vector_keeps| |by apply (set_exception_keeps I); vm_compute].
  intros h Hh. eapply keeps_bind; [apply (read_cpu_keeps I _ is_u64), cw_pc|]. intros p Hp.
  by apply enter_keeps.
Qed.

Lemma scalar_handlers_keep :
  Forall (fun '(op, h) => keeps I h (fun _ => True)) (OPCODE_HANDLERS (D:=D)).
Proof.
  pose proof (unprivileged_handlers_keep I) as Hu. rewrite Forall_forall in Hu.
  apply Forall_forall. intros [op h] Hin. specialize (Hu _ Hin). simpl in Hu.
  destruct (privileged_opcode op || (op =? OP_SYSCALL)) eqn:E;
    [|apply orb_false_iff in E as [? ?%Z.eqb_neq]; auto].
  clear Hu. unfold OPCODE_HANDLERS in Hin. cbn [In] in Hin.
  repeat (destruct Hin as [[= <- <-]|Hin]; [first [discriminate E
    | apply halt_keeps | apply iret_keeps | apply ei_keeps | apply di_keeps | apply setvbr_keeps
    | apply getcontrol_keeps; (apply cw_vbr || apply cw_ptbr || apply cw_ksp)
    | apply enteruser_keeps | apply setptbr_keeps | apply mmuon_keeps | apply mmuoff_keeps
    | apply setksp_keeps | apply syscall_keeps]|]).
  done.
Qed.

Context `{HN : HostNan}.

Lemma dispatch_keeps op h : dispatch_opcode op = Some h -> keeps I h (fun _ => True).
Proof.
  unfold dispatch_opcode. destruct (handler_lookup _ op) as [h'|] eqn:E.
  - intros [= <-]. apply handler_lookup_elem, list_elem_of_In in E.
    pose proof scalar_handlers_keep as Hf. rewrite Forall_forall in Hf. exact (Hf _ E).
  - destruct (cpu_vector_opcode op); [|done]. intros [= <-]. apply (vector_execute_keeps I).
Qed.

Lemma ensure_exception_keeps : keeps I ensure_exception (fun _ => True).
Proof. apply modify_keeps. intros s Hs. by apply fc_exception; [|vm_compute..]. Qed.

Lemma take_next_keeps t b0 : keeps (bus_like b0) (take_next (D:=D) t) (fun _ => True).
Proof.
  intros b Hb. split; [|done]. unfold take_next.
  destruct (w_router (bus_world b)) as [r|] eqn:Er; [|done].
  unfold interrupt_controller_take_next.
  destruct (take_attempt (arr_get (targets r) t)) as [[l p]|] eqn:E; [|done]. simpl.
  apply world_step_like; [done|]. intros (Hr & Hq & Hd). split; [|done]. split_and!; [done| |done].
  intros ? [= <-]. specialize (Hq r Er). apply set_targets_inv; [done|].
  eapply take_attempt_u64; [|exact E]. apply target_u64, Hq.
Qed.

Lemma cpu_check_interrupt_keeps k : keeps I (cpu_check_interrupt k) (fun _ => True).
Proof.
  eapply keeps_bind; [apply cpu_id_keeps|]. intros c Hc. destruct k as [t|]; [|by apply keeps_ret].
  destruct (negb _); [by apply keeps_ret|].
  eapply keeps_bind; [apply (on_bus_keeps I), take_next_keeps|]. intros [line|] _;
    [|by apply keeps_ret].
  eapply keeps_bind; [apply read_vector_keeps|]. intros h Hh.
  eapply keeps_bind; [apply (read_cpu_keeps I _ is_u64), cw_pc|]. intros p Hp.
  by apply enter_keeps.
Qed.
End priv.

Section step.
Context {D : Type} {DI : DevInv D} `{HN : HostNan} (I : Machine D -> Prop) {SC : StepClosed I}.

Lemma deliver_exception_keeps : keeps I deliver_exception (fun _ => True).
Proof.
  eapply keeps_bind.
  { apply (modify_keeps I). intros s Hs. unfold clamp_cause. destruct (_ || _); [|by destruct s].
    by apply pc_ecause; [|vm_compute]. }
  intros _ _. eapply keeps_bind; [apply (cpu_id_keeps I)|]. intros c Hc.
  eapply keeps_bind; [apply keeps_guard|]. intros _ _.
  eapply keeps_bind; [apply (read_vector_keeps I)|]. intros h Hh.
  eapply keeps_bind; [apply (enter_keeps I); [done|by apply cw_epc]|]. intros _ _.
  apply (modify2_keeps I); intros s Hs; [by apply pc_pending|by apply sc_active].
Qed.

Lemma cpu_step_keeps : keeps I cpu_step (fun _ => True).
Proof.
  eapply keeps_bind; [apply (cpu_id_keeps I)|]. intros c Hc. destruct (_ || _); [by apply keeps_ret|].
  eapply keeps_bind.
  { apply (modify2_keeps I (fun c => set_instruction_pc (pc c) c) (set_exception_pending false));
      intros s Hs; [by apply pc_begin|by apply pc_pending]. }
  intros _ _. eapply keeps_try_bind; [by apply (fetch_u8_keeps I)| |apply deliver_exception_keeps].
  intros op Hop.
  assert (keeps I (ensure_exception;; deliver_exception) (fun _ => True)) as Hill.
  { eapply keeps_bind; [apply (ensure_exception_keeps I)|]. intros _ _. apply deliver_exception_keeps. }
  destruct (dispatch_opcode op) as [h|] eqn:E; [|done].
  eapply keeps_try_bind; [by eapply (dispatch_keeps I)|intros; by apply keeps_ret|done].
Qed.
End step.

(** ** The type invariant *)

Section wf.
Context {D : Type} {DI : DevInv D} `{HN : HostNan}.

#[export] Instance machine_wf_user : UserClosed (machine_wf (D:=D)).
Proof.
  split; [apply _|..]; intros s; intros; (apply machine_wf_cpu; [done| |done..]).
  - by apply set_register_wf; [apply mw_cpu|].
  - by apply set_vector_wf; [apply mw_cpu|].
  - destruct (mw_cpu s ltac:(done)). by split.
  - destruct (mw_cpu s ltac:(done)). by split.
  - destruct (mw_cpu s ltac:(done)). by split.
Qed.

Lemma machine_wf_vbr (s : Machine D) a :
  machine_wf s -> is_u64 a -> has_bits a 7 = false ->
  cpu_ram_range_valid (machine_ram s) a CPU_VECTOR_TABLE_SIZE = true ->
  machine_wf (set_cpu (set_vbr_enabled true (set_vbr a (cpu s))) s).
Proof.
  intros [[] Hb Hv Hp] Ha H7 Hr. split; [by split|done| |done]. intros _.
  split; [|done]. unfold has_bits in H7. by apply negb_false_iff, Z.eqb_eq in H7.
Qed.

Lemma machine_wf_ptbr (s : Machine D) a :
  machine_wf s -> is_u64 a -> mmu_root_valid (machine_ram s) a = true ->
  machine_wf (set_cpu (set_ptbr_set true (set_ptbr a (cpu s))) s).
Proof. intros [[] Hb Hv Hp] Ha Hr. split; [by split|done..]. Qed.

#[export] Instance machine_wf_step : StepClosed (machine_wf (D:=D)).
Proof.
  split; [split; [apply _|..]|..]; try (intros s; intros; apply machine_wf_cpu; [done| |done..];
    destruct (mw_cpu s ltac:(done)); by split).
  - apply machine_wf_vbr.
  - apply machine_wf_ptbr.
Qed.

Lemma cpu_step_wf s : machine_wf s -> machine_wf (cpu_step (D:=D) s).2.
Proof. intros Hs. by apply (cpu_step_keeps machine_wf). Qed.

Lemma cpu_check_interrupt_wf s k : machine_wf s -> machine_wf (cpu_check_interrupt (D:=D) k s).2.
Proof. intros Hs. by apply (cpu_check_interrupt_keeps machine_wf). Qed.

Lemma tick_wf (s : Machine D) n :
  machine_wf s -> is_u64 n -> machine_wf (set_bus (bus_tick (bus s) n) s).
Proof.
  intros Hs Hn. apply machine_wf_bus; [done|]. by apply bus_tick_like; [apply mw_bus|].
Qed.

(** A clock whose polls are 64-bit: an invariant of its context. *)
Definition clock_ok {C} (P : C -> Prop) (k : option (ClockSource C)) : Prop :=
  match k with
  | None => True
  | Some k =>
      P (clock_context k) /\
      forall poll, clock_poll k = Some poll ->
        forall x, P x -> is_u64 (poll x).1 /\ P (poll x).2
  end.

Lemma clock_source_poll_ok {C} (P : C -> Prop) k :
  clock_ok P k -> is_u64 (clock_source_poll k).1 /\ clock_ok P (clock_source_poll k).2.
Proof.
  destruct k as [[poll x]|]; simpl; [|by intros; vm_compute]. intros [Hx Hp].
  destruct poll as [poll|]; simpl; [|by split; [vm_compute|]].
  destruct (Hp poll eq_refl x Hx) as [H1 H2]. destruct (poll x) as [t x']. simpl in *.
  by split.
Qed.

Lemma run_loop_wf {C} (P : C -> Prop) fuel k clock s :
  machine_wf s -> clock_ok P clock -> machine_wf (run_loop (D:=D) fuel k clock s).2.
Proof.
  revert clock s. induction fuel as [|fuel IH]; intros clock s Hs Hk; simpl;
    destruct (halted (cpu s)); try done.
  pose proof (cpu_step_wf s Hs) as H1. destruct (cpu_step s) as [[u|] s1]; simpl in *; [|done].
  destruct (clock_source_poll_ok P clock Hk) as [Ht Hk'].
  destruct (clock_source_poll clock) as [t clock']. simpl in *.
  pose proof (tick_wf s1 t H1 Ht) as H2. set (s2 := set_bus _ s1) in *.
  destruct (halted _); [by apply IH|].
  pose proof (cpu_check_interrupt_wf s2 k H2) as H3.
  destruct (cpu_check_interrupt k s2) as [[u'|] s3]; simpl in *; [by apply IH|done].
Qed.

(** Fuel beyond the end of the run changes nothing. *)
Lemma run_loop_fuel {C} fuel fuel' k (clock : option (ClockSource C)) s :
  (fuel <= fuel')%nat -> (run_loop (D:=D) fuel k clock s).1 <> RunOutOfFuel ->
  run_loop fuel' k clock s = run_loop fuel k clock s.
Proof.
  revert fuel' clock s. induction fuel as [|fuel IH]; intros fuel' clock s Hle;
    destruct fuel' as [|fuel']; try lia; simpl; destruct (halted (cpu s)); try done.
  destruct (cpu_step s) as [[u|] s1]; [|done]. destruct (clock_source_poll clock) as [t clock'].
  destruct (halted _); [by apply IH; lia|].
  destruct (cpu_check_interrupt k _) as [[u'|] s3]; [by apply IH; lia|done].
Qed.
End wf.
