(* ===== verification/CpuIsolation.v ===== *)
(** User-mode confinement.

    [user_inv s0] collects what code in user mode cannot change; every
    unprivileged handler preserves it, the privileged ones raise a privilege
    violation, and the only way out of user mode is through the vector table
    onto the kernel stack. *)

From S2P Require Import Prelude Ram Mmu Interrupt Bus Isa CpuCore CpuInv CpuExec CpuVector Cpu CpuSafety CpuStep.
From stdpp Require Import base list numbers option.
From Stdlib Require Import ZArith Lia Bool.

#[local] Open Scope Z_scope.
#[local] Open Scope exec_scope.

(** The privileged state of a CPU, but for the mode and the flags. *)
Definition control_same (c c' : CPU) : Prop :=
  vbr c' = vbr c /\ vbr_enabled c' = vbr_enabled c /\ ptbr c' = ptbr c /\
  ptbr_set c' = ptbr_set c /\ mmu_enabled c' = mmu_enabled c /\ ksp c' = ksp c /\
  core_id c' = core_id c /\ thread_id c' = thread_id c /\ halted c' = halted c.

#[export] Instance control_same_preorder : PreOrder control_same.
Proof.
  split; [by intros c|]. unfold control_same. intros c1 c2 c3 H12 H23. destruct_and!.
  split_and!; congruence.
Qed.

Section isolation.
Context {D : Type} {DI : DevInv D} `{HN : HostNan}.
Implicit Types (s : Machine D).

Definition user_inv s0 s : Prop :=
  machine_wf s /\ mode (cpu s) = CPU_MODE_USER /\ control_same (cpu s0) (cpu s) /\
  exception_active (cpu s) = exception_active (cpu s0) /\
  ie (flags (cpu s)) = ie (flags (cpu s0)) /\ bus_like (bus s0) (bus s).

Lemma user_inv_start s : machine_wf s -> mode (cpu s) = CPU_MODE_USER -> user_inv s s.
Proof. intros Hs Hm. by split_and!; [..|apply bus_like_refl, mw_bus]. Qed.

Lemma user_inv_trans s0 s1 s2 : user_inv s0 s1 -> user_inv s1 s2 -> user_inv s0 s2.
Proof.
  intros (_ & _ & Hc1 & ? & ? & ?) (? & ? & Hc2 & ? & ? & ?).
  split_and!; [done..|by etrans|congruence|congruence|by eapply bus_like_trans].
Qed.

(** A change of the CPU alone that spares the privileged state. *)
Lemma user_inv_cpu s0 s c :
  user_inv s0 s -> machine_wf (set_cpu c s) -> control_same (cpu s) c ->
  mode c = mode (cpu s) -> exception_active c = exception_active (cpu s) ->
  ie (flags c) = ie (flags (cpu s)) -> user_inv s0 (set_cpu c s).
Proof.
  intros (_ & ? & Hc1 & ? & ? & ?) Hw Hc2 ? ? ?.
  split_and!; simpl; [done|congruence|by etrans|congruence|congruence|done].
Qed.

#[export] Instance user_inv_closed s0 : UserClosed (user_inv s0).
Proof.
  split; [split; [split|..]|..].
  - by intros s [? _].
  - intros s b Hu Hb. pose proof Hu as (Hs & ? & ? & ? & ? & Hb0).
    split_and!; [by apply machine_wf_bus|done..|]. by eapply bus_like_trans.
  - intros s v Hu Hv. apply user_inv_cpu; [done| |done..]. apply fc_pc; [apply Hu|done].
  - intros s e b i Hu He Hb Hi. pose proof (record_exception_control (cpu s) e b i) as H.
    simpl in H. destruct_and! H. apply user_inv_cpu; [done| |by split_and!|congruence..].
    apply fc_exception; [apply Hu|done..].
  - intros s r v Hu Hv. apply user_inv_cpu; [done| |done..]. apply uc_register; [apply Hu|done].
  - intros s r v Hu Hv. apply user_inv_cpu; [done| |done..]. apply uc_vector; [apply Hu|done].
  - intros s f Hu Hv Hi. apply user_inv_cpu; [done| |done..]. apply uc_flags; [apply Hu|done..].
  - intros s v Hu Hv. apply user_inv_cpu; [done| |done..]. apply uc_fp_status; [apply Hu|done].
  - intros s Hu. apply user_inv_cpu; [done| |done..]. apply uc_waiting, Hu.
Qed.

(** ** Privileged instructions *)

Lemma require_supervisor_user s :
  mode (cpu s) = CPU_MODE_USER ->
  require_supervisor s =
    (None, set_cpu (record_exception CPU_EXCEPTION_PRIVILEGE_VIOLATION 0 0 (cpu s)) s).
Proof. intros Hm. unfold require_supervisor, exec_bind, read_cpu. by rewrite Hm. Qed.

Lemma guarded_user {A} (f : unit -> Exec (Machine D) A) s :
  mode (cpu s) = CPU_MODE_USER ->
  exec_bind require_supervisor f s =
    (None, set_cpu (record_exception CPU_EXCEPTION_PRIVILEGE_VIOLATION 0 0 (cpu s)) s).
Proof. intros Hm. unfold exec_bind. by rewrite require_supervisor_user. Qed.

Lemma privileged_handlers_guarded :
  Forall (fun '(op, h) => privileged_opcode op = true -> forall s,
    mode (cpu s) = CPU_MODE_USER ->
    h s = (None, set_cpu (record_exception CPU_EXCEPTION_PRIVILEGE_VIOLATION 0 0 (cpu s)) s))
    (OPCODE_HANDLERS (D:=D)).
Proof.
  unfold OPCODE_HANDLERS.
  repeat (apply Forall_cons_2;
    [intros Hp s Hm; first [discriminate Hp | exact (guarded_user _ s Hm)]|]).
  apply Forall_nil_2.
Qed.

(** ** Entering a handler from user mode *)

Definition bus_only s0 s : Prop :=
  machine_wf s /\ cpu s = cpu s0 /\ bus_like (bus s0) (bus s).

#[export] Instance bus_only_closed s0 : BusClosed (bus_only s0).
Proof.
  split; [by intros s [? _]|]. intros s b (Hs & Hc & Hb0) Hb.
  split_and!; [by apply machine_wf_bus|done|by eapply bus_like_trans].
Qed.

(** The bus [b'] is [b] but for the contents of RAM. *)
Definition ram_written (b b' : Bus D) : Prop := exists r, b' = set_bus_ram r b.

#[export] Instance ram_written_preorder : PreOrder ram_written.
Proof.
  split.
  - intros [[]]. by eexists.
  - intros b1 b2 b3 [r1 ->] [r2 ->]. by exists r2.
Qed.

(** [m] touches nothing of the bus but RAM. *)
Definition ram_only {A} (m : Exec (Machine D) A) : Prop :=
  forall s, ram_written (bus s) (bus (m s).2).

Lemma ram_only_quiet {A} (m : Exec (Machine D) A) :
  (forall s, bus (m s).2 = bus s) -> ram_only m.
Proof. intros H s. by rewrite H. Qed.

Lemma ram_only_bind {A B} (m : Exec (Machine D) A) (f : A -> Exec (Machine D) B) :
  ram_only m -> (forall a, ram_only (f a)) -> ram_only (exec_bind m f).
Proof.
  intros Hm Hf s. unfold exec_bind. specialize (Hm s). destruct (m s) as [[a|] s']; [|done].
  etrans; [exact Hm|apply Hf].
Qed.

Lemma ram_only_fault {A} report e a access r :
  ram_only (fault report e a access r : Exec (Machine D) A).
Proof. apply ram_only_quiet. intros s. by destruct report. Qed.

Lemma ram_only_translate va access report : ram_only (translate_address va access report).
Proof.
  intros s. unfold translate_address. destruct (negb _); [done|].
  destruct (mmu_translate _ _ _ _ _); [done|]. apply ram_only_fault.
Qed.

Lemma ram_only_segments va width access e report :
  ram_only (build_memory_segments va width access e report).
Proof.
  assert (forall room cursor remaining off,
    ram_only (segment_loop room cursor remaining off access report)) as Hloop.
  { induction room as [|room IH]; intros cursor remaining off; cbn [segment_loop];
      (destruct (remaining =? 0); [by apply ram_only_quiet|]); [by apply ram_only_quiet|].
    apply ram_only_bind; [apply ram_only_translate|]. intros pa.
    apply ram_only_bind; [apply IH|]. intros rest. by apply ram_only_quiet. }
  apply ram_only_bind; [by apply ram_only_quiet|]. intros mmu.
  destruct (_ || _); [apply ram_only_fault|]. destruct (negb mmu); [by apply ram_only_quiet|].
  apply Hloop.
Qed.

Lemma ram_only_check segs access e report : ram_only (check_segments segs access e report).
Proof.
  induction segs as [|g segs IH]; [by apply ram_only_quiet|].
  apply ram_only_bind; [by apply ram_only_quiet|]. intros []; [apply IH|apply ram_only_fault].
Qed.

Lemma ram_only_write va width access e report v :
  ram_only (memory_write va width access false e report v).
Proof.
  apply ram_only_bind; [apply ram_only_segments|]. intros segs.
  apply ram_only_bind; [apply ram_only_check|]. intros _.
  induction segs as [|g segs IH]; [by apply ram_only_quiet|]. apply ram_only_bind.
  - intros s. unfold exec_try, on_bus, ram_store. destruct (ram_write _ _ _ _); [by eexists|done].
  - intros [[]|]; [apply IH|apply ram_only_fault].
Qed.

(** The frame of a handler goes to RAM: no device and no ROM is accessed. *)
Lemma ram_only_frame user frame ret saved sp :
  ram_only (write_handler_frame user frame ret saved sp).
Proof.
  assert (forall va, ram_only (ram_write_accessible va 8 false)) as Ha.
  { intros va. apply ram_only_bind; [apply ram_only_segments|]. intros; apply ram_only_check. }
  unfold write_handler_frame.
  do 2 (apply ram_only_bind; [apply Ha|intros _]).
  apply ram_only_bind; [destruct user; [apply Ha|by apply ram_only_quiet]|intros _].
  do 2 (apply ram_only_bind; [apply ram_only_write|intros _]).
  destruct user; [apply ram_only_write|by apply ram_only_quiet].
Qed.

(** What entering a handler does to the bus. *)
Definition frame_bus (b b' : Bus D) : Prop := bus_like b b' /\ ram_written b b'.

Definition frame_size (c : CPU) : Z := if user_mode (mode c) then 24 else 16.
Definition frame_top (c : CPU) : Z :=
  if user_mode (mode c) then ksp c else get_register c REGISTER_SP.

(** The CPU on entry to a handler: supervisor mode, interrupts off, the stack
    pointer at the frame. *)
Definition handler_cpu (handler : Z) (c : CPU) : CPU :=
  set_waiting false (set_pc handler
    (set_flags (Z.land (flags c) (not64 CPU_FLAG_INTERRUPT_ENABLE))
      (set_register REGISTER_SP (frame_top c - frame_size c) (set_mode CPU_MODE_SUPERVISOR c)))).

Lemma restore_cpu c :
  cpu_wf c ->
  set_register REGISTER_SP (get_register c REGISTER_SP)
    (set_mode (mode c) (set_mode CPU_MODE_SUPERVISOR c)) = c.
Proof.
  intros Hc. destruct (cw_registers c Hc) as [Hl _]. destruct c. unfold set_register, set_registers.
  simpl in *. f_equal. unfold get_register, arr_set, arr_get. simpl.
  apply list_insert_id. rewrite nth_lookup.
  destruct (lookup_lt_is_Some_2 registers (Z.to_nat REGISTER_SP)) as [x ->]; [|done].
  rewrite Hl. by vm_compute; lia.
Qed.

(** Entering a handler either succeeds, with the CPU of [handler_cpu], or
    restores the CPU and records a stack fault. *)
Lemma enter_spec h ret b s :
  machine_wf s -> is_u64 h -> is_u64 ret ->
  exists bus', frame_bus (bus s) bus' /\
  match enter_privileged_handler h ret b s with
  | (Some _, s') => s' = mkMachine (handler_cpu h (cpu s)) bus' /\ frame_size (cpu s) <= frame_top (cpu s)
  | (None, s') => exists a, is_u64 a /\
      s' = mkMachine (record_exception CPU_EXCEPTION_STACK_FAULT a
             (Z.lor (Z.lor CPU_EINFO_BADADDR_VALID CPU_EINFO_ACCESS_WRITE) 0) (cpu s)) bus'
  end.
Proof.
  intros Hs Hh Hr. pose proof (mw_cpu s Hs) as Hc. set (c := cpu s) in *.
  pose proof (register_u64 c REGISTER_SP Hc) as Hsp. pose proof (cw_ksp c Hc) as Hk.
  assert (is_u64 (frame_top c)) as Htop by (unfold frame_top; by destruct (user_mode _)).
  assert (0 <= frame_size c) as Hsize by (unfold frame_size; destruct (user_mode _); lia).
  unfold enter_privileged_handler, exec_bind at 1, read_cpu, id. fold c.
  fold (frame_top c) (frame_size c). destruct (Z.ltb_spec (frame_top c) (frame_size c)).
  { exists (bus s). split; [by split; [apply bus_like_refl, mw_bus|]|]. by exists (frame_top c). }
  assert (is_u64 (frame_top c - frame_size c)) as Hframe by (unfold is_u64 in *; lia).
  set (s1 := set_cpu (set_mode CPU_MODE_SUPERVISOR c) s).
  assert (machine_wf s1) as Hs1 by by apply pc_mode.
  destruct (write_handler_frame_keeps (bus_only s1) (user_mode (mode c))
    (frame_top c - frame_size c) ret (make_saved_flags c b) (get_register c REGISTER_SP)
    Hframe Hr (saved_flags_u64 c b Hc) Hsp s1) as [(_ & Hc2 & Hb2) _].
  { by split_and!; [..|apply bus_like_refl, mw_bus]. }
  pose proof (ram_only_frame (user_mode (mode c)) (frame_top c - frame_size c) ret
    (make_saved_flags c b) (get_register c REGISTER_SP) s1) as Hram.
  unfold exec_bind, modify_cpu, exec_try. cbn [fst snd].
  change (set_cpu (set_mode CPU_MODE_SUPERVISOR (cpu s)) s) with s1.
  destruct (write_handler_frame _ _ _ _ _ s1) as [[u|] s2]; cbn [fst snd] in Hc2, Hb2, Hram;
    exists (bus s2); (split; [split; [exact Hb2|exact Hram]|]); unfold set_cpu; rewrite Hc2; cbn [cpu s1 set_cpu].
  - done.
  - rewrite restore_cpu by done. by exists (frame_top c - frame_size c).
Qed.

(** ** The vector table *)

Definition vector_entry s (idx h : Z) : Prop :=
  vbr_enabled (cpu s) = true /\ idx < CPU_VECTOR_ENTRY_COUNT /\
  ram_read (machine_ram s) (vbr (cpu s) + idx * 8) 8 = Some h /\ h <> UINT64_MAX /\
  instruction_address_valid_for_mode h CPU_MODE_SUPERVISOR false s = (Some tt, s).

Lemma address_valid_silent s a m :
  exists o, instruction_address_valid_for_mode a m false s = (o, s).
Proof.
  unfold instruction_address_valid_for_mode, fault.
  destruct (if mmu_enabled (cpu s) then _ else _); [|by eexists].
  destruct (bus_fetch _ _ _); by eexists.
Qed.

Lemma read_vector_spec s idx :
  0 <= idx -> exists o, read_vector idx s = (o, s) /\ forall h, o = Some h -> vector_entry s idx h.
Proof.
  intros Hi. unfold read_vector, exec_bind at 1, read_cpu, id.
  destruct (vbr_enabled (cpu s)) eqn:Hv; simpl; [|by exists None].
  destruct (Z.leb_spec CPU_VECTOR_ENTRY_COUNT idx) as [|Hidx]; [by exists None|].
  assert (wrap64 (idx * CPU_VECTOR_ENTRY_SIZE) = idx * 8) as ->.
  { apply wrap64_id. change CPU_VECTOR_ENTRY_COUNT with 77 in Hidx.
    unfold is_u64, CPU_VECTOR_ENTRY_SIZE. lia. }
  destruct (_ <? _); [by exists None|]. unfold exec_bind, read_ram, exec_guard, exec_of_option.
  destruct (cpu_ram_range_valid _ _ _); [|by exists None]. simpl.
  destruct (ram_read (machine_ram s) (vbr (cpu s) + idx * 8) CPU_VECTOR_ENTRY_SIZE) as [h|] eqn:E;
    [|by exists None].
  destruct (Z.eqb_spec h UINT64_MAX); simpl; [by exists None|].
  destruct (address_valid_silent s h CPU_MODE_SUPERVISOR) as [o Ho]. rewrite Ho.
  destruct o as [[]|]; [|by exists None]. exists (Some h). split; [done|]. intros ? [= <-].
  by split_and!.
Qed.

(** ** Leaving user mode *)

Lemma user_record_exception s s1 e b i :
  user_inv s s1 -> is_u64 e -> is_u64 b -> is_u64 i ->
  user_inv s (set_cpu (record_exception e b i (cpu s1)) s1).
Proof. apply (fc_exception (I:=user_inv s)). Qed.

(** [s'] has entered, from [s1], the handler that entry [idx] of the vector
    table in [s1] names. *)
Definition entered s1 (idx : Z) s' : Prop := exists h b,
  vector_entry s1 idx h /\ frame_bus (bus s1) b /\ s' = mkMachine (handler_cpu h (cpu s1)) b.

Lemma vector_entry_u64 s idx h : machine_wf s -> vector_entry s idx h -> is_u64 h.
Proof.
  intros Hs (_ & _ & H & _). eapply ram_read_u64; [|  |exact H]; [by apply machine_ram_wf|lia].
Qed.

Lemma user_stack_fault s s1 b a :
  user_inv s s1 -> frame_bus (bus s1) b -> is_u64 a ->
  user_inv s (mkMachine (record_exception CPU_EXCEPTION_STACK_FAULT a
    (Z.lor (Z.lor CPU_EINFO_BADADDR_VALID CPU_EINFO_ACCESS_WRITE) 0) (cpu s1)) b).
Proof.
  intros Hu [Hb _] Ha. pose proof (fc_bus (I:=user_inv s) s1 b Hu Hb) as Hu'.
  assert (is_u64 CPU_EXCEPTION_STACK_FAULT) as H1 by by vm_compute.
  assert (is_u64 (Z.lor (Z.lor CPU_EINFO_BADADDR_VALID CPU_EINFO_ACCESS_WRITE) 0)) as H2
    by by vm_compute.
  exact (user_record_exception s (set_bus b s1) _ a _ Hu' H1 Ha H2).
Qed.

Lemma enter_user s s1 idx h ret b :
  user_inv s s1 -> vector_entry s1 idx h -> is_u64 ret ->
  match enter_privileged_handler h ret b s1 with
  | (Some _, s') => entered s1 idx s'
  | (None, s') => user_inv s s'
  end.
Proof.
  intros Hu He Hr. pose proof (proj1 Hu) as Hs.
  destruct (enter_spec h ret b s1 Hs (vector_entry_u64 s1 idx h Hs He) Hr) as (bus' & Hb' & H).
  destruct (enter_privileged_handler h ret b s1) as [[u|] s'].
  - destruct H as [-> _]. by exists h, bus'.
  - destruct H as (a & Ha' & ->). by apply user_stack_fault.
Qed.

Definition exception_index (idx : Z) : Prop :=
  CPU_VECTOR_EXCEPTION_BASE < idx < CPU_VECTOR_SYSCALL.

Lemma clamp_cause_wf c : cpu_wf c -> cpu_wf (clamp_cause c).
Proof.
  intros Hc. unfold clamp_cause. destruct (_ || _); [|done]. destruct Hc. by split.
Qed.

Lemma clamp_cause_range c : 0 < wrap32 (ecause (clamp_cause c)) < CPU_EXCEPTION_COUNT.
Proof.
  unfold clamp_cause. destruct (_ || _) eqn:E; [by vm_compute|].
  rewrite orb_false_iff, !Z.leb_gt in E. unfold CPU_EXCEPTION_NONE in E. lia.
Qed.

(** The vector an exception is delivered through. *)
Definition exception_vector (c : CPU) : Z := CPU_VECTOR_EXCEPTION_BASE + wrap32 (ecause c).

Lemma exception_vector_index c : exception_index (exception_vector (clamp_cause c)).
Proof.
  unfold exception_index, exception_vector, CPU_VECTOR_SYSCALL.
  pose proof (clamp_cause_range c). lia.
Qed.

(** Delivery enters the exception's handler, or leaves the CPU with its cause
    clamped, or records a stack fault. *)
Lemma deliver_spec s1 :
  machine_wf s1 ->
  let c2 := clamp_cause (cpu s1) in
  let s2 := set_cpu c2 s1 in
  exists bus', frame_bus (bus s1) bus' /\
  match deliver_exception s1 with
  | (Some _, s') => exception_active c2 = false /\ exists h,
      vector_entry s2 (exception_vector c2) h /\
      enter_privileged_handler h (epc c2) true s2 = (Some tt, mkMachine (handler_cpu h c2) bus') /\
      s' = mkMachine (set_exception_active true (set_exception_pending false (handler_cpu h c2))) bus'
  | (None, s') => s' = s2 \/ exists h a,
      vector_entry s2 (exception_vector c2) h /\ is_u64 a /\
      s' = mkMachine (record_exception CPU_EXCEPTION_STACK_FAULT a
             (Z.lor (Z.lor CPU_EINFO_BADADDR_VALID CPU_EINFO_ACCESS_WRITE) 0) c2) bus'
  end.
Proof.
  intros Hs1 c2 s2. assert (frame_bus (bus s1) (bus s1)) as Hrefl by by split; [apply bus_like_refl, mw_bus|].
  assert (machine_wf s2) as Hs2.
  { unfold s2. apply machine_wf_cpu; [done|by apply clamp_cause_wf, mw_cpu|..];
      unfold c2, clamp_cause; by destruct (_ || _). }
  unfold deliver_exception, exec_bind, modify_cpu, read_cpu, id, exec_guard.
  change (set_cpu (clamp_cause (cpu s1)) s1) with s2. change (cpu s2) with c2.
  destruct (exception_active c2); cbn [negb]; [by exists (bus s1); split; [|left]|].
  unfold mret, Exec_ret. fold (exception_vector c2).
  destruct (read_vector_spec s2 (exception_vector c2)) as ([h|] & -> & Hv);
    [|specialize (Hv h eq_refl)|by exists (bus s1); split; [|left]].
  { pose proof (exception_vector_index (cpu s1)) as Hidx. fold c2 in Hidx.
    unfold exception_index in Hidx. change CPU_VECTOR_EXCEPTION_BASE with 64 in Hidx. lia. }
  destruct (enter_spec h (epc c2) true s2 Hs2 (vector_entry_u64 s2 _ h Hs2 Hv)
    (cw_epc _ (mw_cpu s2 Hs2))) as (bus' & Hb & He).
  destruct (enter_privileged_handler h (epc c2) true s2) as [[[]|] s3] eqn:E; exists bus';
    (split; [done|]).
  - destruct He as [-> _]. split; [done|]. by exists h.
  - right. destruct He as (a & Ha & ->). by exists h, a.
Qed.

Lemma clamp_user s s1 : user_inv s s1 -> user_inv s (set_cpu (clamp_cause (cpu s1)) s1).
Proof.
  intros Hu. unfold clamp_cause. destruct (_ || _); [|by destruct s1].
  apply user_inv_cpu; [done| |done..]. by apply pc_ecause; [apply Hu|vm_compute].
Qed.

(** A delivery that fails leaves the CPU in user mode. *)
Lemma deliver_user s s1 s' :
  user_inv s s1 -> deliver_exception s1 = (None, s') -> user_inv s s'.
Proof.
  intros Hu E. pose proof (clamp_user s s1 Hu) as Hu2.
  destruct (deliver_spec s1 (proj1 Hu)) as (bus' & Hb & H). cbv zeta in H. rewrite E in H.
  destruct H as [->|(h & a & _ & Ha & ->)]; [done|].
  exact (user_stack_fault s _ bus' a Hu2 Hb Ha).
Qed.

Lemma syscall_user s s1 :
  user_inv s s1 ->
  match execute_syscall s1 with
  | (Some _, s') => entered s1 CPU_VECTOR_SYSCALL s'
  | (None, s') => user_inv s s'
  end.
Proof.
  intros Hu. unfold execute_syscall, exec_bind, exec_try.
  destruct (read_vector_spec s1 CPU_VECTOR_SYSCALL) as ([h|] & -> & Hv); [by vm_compute| |].
  - unfold read_cpu. specialize (Hv h eq_refl). apply (enter_user s s1 _ h _ _ Hu Hv).
    apply cw_pc, mw_cpu, Hu.
  - by apply user_record_exception; [|vm_compute..].
Qed.

Lemma dispatch_user s s1 op h :
  dispatch_opcode op = Some h -> user_inv s s1 ->
  match h s1 with
  | (Some _, s') => user_inv s s' \/ op = OP_SYSCALL /\ entered s1 CPU_VECTOR_SYSCALL s'
  | (None, s') => user_inv s s'
  end.
Proof.
  unfold dispatch_opcode. intros Hd Hu.
  assert (keeps (user_inv s) h (fun _ => True) -> match h s1 with
    | (Some _, s') => user_inv s s' \/ op = OP_SYSCALL /\ entered s1 CPU_VECTOR_SYSCALL s'
    | (None, s') => user_inv s s' end) as Hk.
  { intros Hk. destruct (Hk s1 Hu) as [H _]. destruct (h s1) as [[u|] s']; [by left|done]. }
  destruct (handler_lookup OPCODE_HANDLERS op) as [h'|] eqn:E.
  - injection Hd as ->. pose proof E as Hlook. apply handler_lookup_elem, list_elem_of_In in E.
    destruct (privileged_opcode op) eqn:Hp; [|destruct (Z.eqb_spec op OP_SYSCALL) as [->|Hne]].
    + pose proof privileged_handlers_guarded as Hg. rewrite Forall_forall in Hg.
      rewrite (Hg _ E Hp s1 (proj1 (proj2 Hu))). by apply user_record_exception; [|vm_compute..].
    + assert (Some h = Some execute_syscall) as [= ->] by (rewrite <-Hlook; reflexivity).
      pose proof (syscall_user s s1 Hu). destruct (execute_syscall s1) as [[u|] s']; auto.
    + pose proof (unprivileged_handlers_keep (user_inv s)) as Hf. rewrite Forall_forall in Hf.
      exact (Hk (Hf _ E Hp Hne)).
  - destruct (cpu_vector_opcode op); [|done]. injection Hd as <-.
    apply Hk, (vector_execute_keeps (user_inv s)).
Qed.
End isolation.

(** ** A concrete machine *)

(** 64 KiB of RAM and no device; in the vector table at 0x1000, interrupt line 5
    leads to 0x2500, the exceptions ILLEGAL_INSTRUCTION, DIVIDE_BY_ZERO and
    PRIVILEGE_VIOLATION to 0x2100, 0x2400 and 0x2700, and SYSCALL to 0x2000. *)
Definition demo_vectors : RAM :=
  poke 0x1208 0x2100 (poke 0x1220 0x2400 (poke 0x1238 0x2700 (poke 0x1260 0x2000
    (poke 0x1028 0x2500 (mkRAM ∅ 0x10000))))).

Definition demo_machine (m : CPUMode) (code : list Z) : Machine unit :=
  mkMachine
    (mkCPU (arr_set (replicate 16 0) 15 0x6000) (replicate 16 (replicate 16 0)) 0x100 0x10 0
       0x1000 0 0x8000 0 0 0 0 0 0 0 m false false true false false false false)
    (bus_init (mkWorld (store_bytes demo_vectors 0x100 code) None tt)).

#[export] Instance demo_nan : HostNan := {|
  host_nan f _ _ _ := (2 ^ (f_ebits f + 1) - 1) * 2 ^ (f_mbits f - 1);
  host_nan_convert _ g _ := (2 ^ (f_ebits g + 1) - 1) * 2 ^ (f_mbits g - 1)
|}.

Lemma demo_machine_wf m code : Forall is_u8 code -> machine_wf (demo_machine m code).
Proof.
  intros Hc. split.
  - assert (is_u64 0 /\ is_u64 0x100 /\ is_u64 0x10 /\ is_u64 0x1000 /\ is_u64 0x8000 /\
      is_u64 0x6000 /\ is_u32 0) as (? & ? & ? & ? & ? & ? & ?) by by vm_compute.
    unfold demo_machine. split; cbn [cpu registers vector_registers]; try assumption; [| |done];
      (split; [done|]).
    + apply arr_set_Forall; [done|]. by apply Forall_replicate.
    + apply Forall_replicate. apply zero_vector_ok.
  - apply bus_init_wf. split_and!; [|done|done]. apply store_bytes_wf; [|done].
    repeat apply poke_wf. by apply empty_ram_wf; vm_compute.
  - intros _. unfold demo_machine. cbn [cpu vbr]. split; [by vm_compute|].
    unfold cpu_ram_range_valid, machine_ram, bus_ram. simpl. by rewrite store_bytes_size.
  - done.
Qed.

(** * Properties *)

(** The thirteen privileged opcodes (HALT, IRET, EI, DI, SETVBR, GETVBR,
    ENTERUSER, SETPTBR, GETPTBR, MMUON, MMUOFF, SETKSP, GETKSP) do nothing in
    user mode but record a privilege violation: no operand is fetched, no
    register and no memory is touched. *)
Theorem privileged_opcode_traps {D} `{HN : HostNan} op (s : Machine D) :
  privileged_opcode op = true -> mode (cpu s) = CPU_MODE_USER ->
  exists h, dispatch_opcode op = Some h /\
    h s = (None, set_cpu (record_exception CPU_EXCEPTION_PRIVILEGE_VIOLATION 0 0 (cpu s)) s).
Proof.
  intros Hp Hm. pose proof Hp as Hin. unfold privileged_opcode in Hin.
  apply existsb_exists in Hin as (o & Hin & ->%Z.eqb_eq). cbn [In] in Hin.
  repeat (destruct Hin as [<-|Hin];
    [eexists; split; [reflexivity|exact (guarded_user _ s Hm)]|]). done.
Qed.

Lemma privileged_opcode_traps_witness :
  let s := demo_machine CPU_MODE_USER [] in
  exists h, dispatch_opcode OP_MMUOFF = Some h /\
    h s = (None, set_cpu (record_exception CPU_EXCEPTION_PRIVILEGE_VIOLATION 0 0 (cpu s)) s).
Proof.
  exact (privileged_opcode_traps OP_MMUOFF (demo_machine CPU_MODE_USER []) eq_refl eq_refl).
Defined.
