(* ===== verification/CpuPrecise.v ===== *)
(** Exceptions are precise.

    A handler that fails leaves every architectural register as it found it:
    only the program counter, the exception registers and the bus can differ.
    Every handler is a prefix that fetches, checks and accesses memory followed
    by updates that cannot fail; [clean] composes along that shape. *)

From S2P Require Import Prelude Ram Mmu Interrupt Bus Isa CpuCore CpuInv CpuExec CpuVector Cpu CpuSafety CpuStep CpuIsolation.
From stdpp Require Import base list numbers option.
From Stdlib Require Import ZArith Lia Bool.

#[local] Open Scope Z_scope.
#[local] Open Scope exec_scope.

Definition arch_same (c c' : CPU) : Prop :=
  registers c' = registers c /\ vector_registers c' = vector_registers c /\
  flags c' = flags c /\ fp_status c' = fp_status c /\ mode c' = mode c /\
  waiting c' = waiting c /\ exception_active c' = exception_active c /\
  control_same c c'.

#[export] Instance arch_same_preorder : PreOrder arch_same.
Proof.
  split; [by intros c|]. intros c1 c2 c3 (? & ? & ? & ? & ? & ? & ? & ?)
    (? & ? & ? & ? & ? & ? & ? & ?). split_and!; [congruence..|by etrans].
Qed.

Lemma total_of_modify {D} (g : CPU -> CPU) : never_fails (modify_cpu (D:=D) g).
Proof. intros s. by eexists. Qed.

Lemma total_of_read {D A} (f : CPU -> A) : never_fails (read_cpu (D:=D) f).
Proof. intros s. by eexists. Qed.

#[export] Hint Resolve total_of_modify total_of_read total_bind : exec.
#[export] Hint Extern 1 (never_fails (set_reg _ _)) => (apply total_of_modify) : exec.
#[export] Hint Extern 1 (never_fails (jump_to _)) => (apply total_of_modify) : exec.
#[export] Hint Extern 1 (never_fails (put_vector _ _)) => (apply total_of_modify) : exec.
#[export] Hint Extern 1 (never_fails (put_general _ _)) => (apply total_of_modify) : exec.
#[export] Hint Extern 1 (never_fails (or_fp_status _ _)) => (apply total_of_modify) : exec.
#[export] Hint Extern 1 (never_fails (reg _)) => (apply total_of_read) : exec.
#[export] Hint Extern 1 (never_fails (set_reg_zn _ _)) =>
  (apply total_bind; [apply total_of_modify|intros; apply total_of_modify]) : exec.

Section precise.
Context {D : Type} {DI : DevInv D} `{HN : HostNan}.
Implicit Types (s : Machine D).

Definition same_arch s s' : Prop := arch_same (cpu s) (cpu s').

#[export] Instance same_arch_preorder : PreOrder same_arch.
Proof. split; [by intros s|]. intros s1 s2 s3. unfold same_arch. by etrans. Qed.

Definition precise {A} (m : Exec (Machine D) A) : Prop := clean machine_wf same_arch m.

Definition prec_inv s0 s : Prop := machine_wf s /\ same_arch s0 s.

#[export] Instance prec_inv_closed s0 : FetchClosed (prec_inv s0).
Proof.
  split; [split|..].
  - by intros s [? _].
  - intros s b [Hs Ha] Hb. split; [by apply machine_wf_bus|done].
  - intros s v [Hs Ha] Hv. split; [by apply fc_pc|done].
  - intros s e b i [Hs Ha] He Hb Hi. split; [by apply fc_exception|].
    unfold same_arch in *. etrans; [exact Ha|].
    pose proof (record_exception_control (cpu s) e b i) as H. simpl in H. destruct_and! H.
    by split_and!.
Qed.

Lemma precise_bind {A B} (m : Exec (Machine D) A) (f : A -> Exec (Machine D) B) Q :
  (forall s0, keeps (prec_inv s0) m Q) -> (forall a, Q a -> precise (f a)) ->
  precise (exec_bind m f).
Proof. intros Hm. apply clean_bind; [apply _|]. intros s0 _. apply Hm. Qed.

Lemma precise_leaf {A} (m : Exec (Machine D) A) Q :
  (forall s0, keeps (prec_inv s0) m Q) -> precise m.
Proof. intros Hm. apply (stays_clean _ _ _ Q). intros s0 _. apply Hm. Qed.

Lemma precise_bind_total {A B} (m : Exec (Machine D) A) (f : A -> Exec (Machine D) B) :
  precise m -> (forall a, never_fails (f a)) -> precise (exec_bind m f).
Proof. apply clean_bind_total. Qed.

Lemma precise_total {A} (m : Exec (Machine D) A) : never_fails m -> precise m.
Proof. apply clean_total. Qed.
End precise.

(** The three shapes a computation can be clean by. *)
Ltac precise_step :=
  match goal with
  | |- precise (match ?p with pair _ _ => _ end) =>
      destruct p; cbn [fst snd] in *; destruct_and?
  | |- precise (let x := _ in _) => cbv zeta
  | |- precise _ => solve [apply precise_total; eauto 8 with exec]
  | |- precise (exec_bind _ _) =>
      eapply precise_bind; [intros ?; solve [eauto 8 with exec u64]|intros ? ?]
  | |- precise (exec_bind _ _) =>
      apply precise_bind_total; [solve [eauto with exec u64]|intros ?; solve [eauto 8 with exec]]
  | |- precise (if ?b then _ else _) => destruct b eqn:?
  | |- precise _ => solve [eauto with exec]
  | |- precise _ =>
      apply (precise_leaf _ (fun _ => True)); intros ?; solve [eauto 8 with exec u64]
  | |- precise _ => eapply precise_leaf; intros ?; solve [eauto 8 with exec u64]
  end.
Ltac precise_auto := repeat precise_step.

#[export] Hint Resolve fetch_register_keeps fetch_register_pair_keeps fetch_u8_keeps
  fetch_u32_keeps fetch_u64_keeps register_valid_keeps instruction_address_valid_keeps
  instruction_address_valid_for_mode_keeps require_supervisor_keeps
  reg_keeps data_read_keeps data_write_keeps stack_read_keeps fetch_immediate32_keeps
  fetch_shift_keeps relative_target_keeps read_flag_keeps evaluate_condition_keeps
  general_keeps vector_keeps fetch_general_keeps fetch_vector_keeps fetch_vector_pair_keeps
  fetch_vector_triple_keeps vector_read_keeps vector_write_keeps internal_read_keeps
  internal_write_keeps prec_inv_closed : exec.

Section handlers.
Context {D : Type} {DI : DevInv D} `{HN : HostNan}.
Implicit Types (s : Machine D).

Lemma push_precise v : is_u64 v -> precise (stack_push_u64 (D:=D) v).
Proof.
  intros Hv. eapply precise_bind; [intros s0; by apply (read_register_keeps (prec_inv s0))|].
  intros sp Hsp. destruct (Z.ltb_spec sp 8).
  - eapply precise_leaf. intros s0.
    apply (set_access_exception_keeps (prec_inv s0) _ _ _ _ (fun _ => True)); [by vm_compute|done].
  - assert (is_u64 (sp - 8)) by zlia. apply precise_bind_total; [|intros; apply total_of_modify].
    eapply precise_leaf. intros s0. by apply (memory_write_keeps (prec_inv s0)); [|vm_compute..|].
Qed.

Lemma pop_precise : precise (stack_pop_u64 (D:=D)).
Proof.
  eapply precise_bind; [intros s0; by apply (read_register_keeps (prec_inv s0))|]. intros sp Hsp.
  eapply precise_bind.
  { intros s0. by apply (memory_read_keeps (prec_inv s0)); [|vm_compute..]. }
  intros v Hv. apply precise_total. eauto with exec.
Qed.

Lemma push_pc_precise : precise (push_pc (D:=D)).
Proof.
  eapply precise_bind; [intros s0; apply (read_cpu_keeps (prec_inv s0) _ is_u64), cw_pc|].
  intros p Hp. by apply push_precise.
Qed.
#[local] Hint Resolve push_precise pop_precise push_pc_precise : exec.

Lemma branch_precise b : precise (execute_branch (D:=D) b).
Proof. unfold execute_branch. precise_auto. Qed.

Lemma branch_if_precise f : precise (branch_if (D:=D) f).
Proof.
  eapply precise_bind; [intros s0; apply (read_flag_keeps (prec_inv s0))|]. intros b _.
  apply branch_precise.
Qed.
#[local] Hint Resolve branch_precise branch_if_precise : exec.

Lemma load_precise w b : 0 <= w -> precise (execute_load (D:=D) w b).
Proof. intros Hw. unfold execute_load. precise_auto. Qed.
Lemma store_precise w : 0 <= w -> precise (execute_store (D:=D) w).
Proof. intros Hw. unfold execute_store. precise_auto. Qed.
Lemma load_offset_precise w b : 0 <= w -> precise (execute_load_offset (D:=D) w b).
Proof. intros Hw. unfold execute_load_offset. precise_auto. Qed.
Lemma store_offset_precise w : 0 <= w -> precise (execute_store_offset (D:=D) w).
Proof. intros Hw. unfold execute_store_offset. precise_auto. Qed.
Lemma extend_precise w b : precise (execute_extend (D:=D) w b).
Proof. unfold execute_extend. precise_auto. Qed.

Lemma fail_precise {A} : precise (exec_fail : Exec (Machine D) A).
Proof. by apply clean_fail; apply _. Qed.

Lemma exception_precise {A} e b i :
  is_u64 e -> is_u64 b -> is_u64 i -> precise (set_exception e b i : Exec (Machine D) A).
Proof.
  intros He Hb Hi. apply (precise_leaf _ (fun _ => True)). intros s0.
  by apply (set_exception_keeps (prec_inv s0)).
Qed.

Lemma access_exception_precise {A} e a access result :
  is_u64 e -> is_u64 a -> precise (set_access_exception e a access result : Exec (Machine D) A).
Proof. intros He Ha. apply exception_precise; [done..|]. apply access_info_u64. Qed.

Lemma control_precise f :
  (forall c, cpu_wf c -> is_u64 (f c)) -> precise (read_control (D:=D) f).
Proof.
  intros Hf. eapply precise_bind; [intros s0; by apply (fetch_register_keeps (prec_inv s0))|].
  intros r Hr. apply precise_total. eauto with exec.
Qed.

Lemma get_control_precise f :
  (forall c, cpu_wf c -> is_u64 (f c)) -> precise (D:=D) (require_supervisor;; read_control f).
Proof.
  intros Hf. eapply precise_bind; [intros s0; by apply (require_supervisor_keeps (prec_inv s0))|].
  intros _ _. by apply control_precise.
Qed.

Lemma atomic_leaf a op s0 :
  is_u64 a -> (forall pa b0, keeps (bus_like b0) (op pa) is_u64) ->
  keeps (prec_inv s0) (atomic_access (D:=D) a op) is_u64.
Proof. intros. by apply (atomic_access_keeps (prec_inv s0)). Qed.

Lemma cas64_precise : precise (execute_cas64 (D:=D)).
Proof.
  unfold execute_cas64. do 11 precise_step. eapply precise_bind.
  { intros s0. apply atomic_leaf; [done|]. intros. by apply bus_compare_exchange64_keeps. }
  intros v Hv. precise_auto.
Qed.

Lemma xchg64_precise : precise (execute_xchg64 (D:=D)).
Proof.
  unfold execute_xchg64. do 4 precise_step. eapply precise_bind.
  { intros s0. apply atomic_leaf; [done|]. intros. by apply bus_exchange64_keeps. }
  intros v Hv. precise_auto.
Qed.

Lemma atomic_add64_precise : precise (execute_atomic_add64 (D:=D)).
Proof.
  unfold execute_atomic_add64. do 8 precise_step. eapply precise_bind.
  { intros s0. apply atomic_leaf; [done|]. intros. by apply bus_fetch_add64_keeps. }
  intros v Hv. precise_auto.
Qed.

Lemma ret_precise : precise (execute_ret (D:=D)).
Proof.
  eapply precise_bind; [intros s0; by apply (reg_keeps (prec_inv s0))|]. intros sp Hsp.
  eapply precise_bind; [intros s0; by apply (stack_read_keeps (prec_inv s0))|].
  intros ret Hret. precise_auto.
Qed.

Lemma iret_precise : precise (execute_iret (D:=D)).
Proof.
  eapply precise_bind; [intros s0; by apply (require_supervisor_keeps (prec_inv s0))|]. intros _ _.
  eapply precise_bind; [intros s0; by apply (reg_keeps (prec_inv s0))|]. intros sp Hsp.
  destruct (_ <? sp); [apply fail_precise|].
  eapply precise_bind; [intros s0; by apply (stack_read_keeps (prec_inv s0))|]. intros ret Hret.
  eapply precise_bind; [intros s0; apply (stack_read_keeps (prec_inv s0)), wrap64_u64|].
  intros saved Hsaved. cbv zeta. apply (precise_bind _ _ (fun _ => True)).
  { intros s0. destruct (user_mode _); [|by apply keeps_ret].
    destruct (_ <? sp); [apply keeps_fail|].
    by eapply keeps_true, (stack_read_keeps (prec_inv s0)), wrap64_u64. }
  intros usp _. destruct (_ && _); [by apply access_exception_precise; [vm_compute|]|].
  eapply precise_bind.
  { intros s0. by apply (instruction_address_valid_for_mode_keeps (prec_inv s0)). }
  intros _ _. apply precise_total, total_of_modify.
Qed.

Lemma read_id_keeps s0 : keeps (prec_inv (D:=D) s0) (read_cpu id) cpu_wf.
Proof. by apply (read_cpu_keeps (prec_inv s0)). Qed.

Lemma read_ram_any {A} s0 (f : RAM -> A) : keeps (prec_inv (D:=D) s0) (read_ram f) (fun _ => True).
Proof. by apply (read_ram_keeps (prec_inv s0)). Qed.

Lemma setvbr_precise : precise (execute_setvbr (D:=D)).
Proof.
  eapply precise_bind; [intros s0; by apply (require_supervisor_keeps (prec_inv s0))|]. intros _ _.
  eapply precise_bind; [intros s0; by apply (fetch_register_keeps (prec_inv s0))|]. intros r Hr.
  eapply precise_bind; [intros s0; by apply (reg_keeps (prec_inv s0))|]. intros a Ha s Hs.
  unfold cpu_set_vector_base, exec_bind, exec_try, read_ram. cbv beta iota.
  destruct (_ || _); [|done]. intros E. by apply access_exception_precise; [vm_compute|..].
Qed.

Lemma setptbr_precise : precise (execute_setptbr (D:=D)).
Proof.
  eapply precise_bind; [intros s0; by apply (require_supervisor_keeps (prec_inv s0))|]. intros _ _.
  eapply precise_bind; [intros s0; by apply (fetch_register_keeps (prec_inv s0))|]. intros r Hr.
  eapply precise_bind; [intros s0; by apply (reg_keeps (prec_inv s0))|]. intros a Ha.
  eapply precise_bind; [intros s0; apply read_ram_any|]. intros ok _.
  destruct (negb ok); [by apply access_exception_precise; [vm_compute|]|].
  eapply precise_bind; [intros s0; apply read_id_keeps|]. intros c Hc.
  eapply precise_bind; [intros s0; apply read_ram_any|]. intros can _.
  destruct (_ && _); [apply access_exception_precise; [by vm_compute|apply Hc]|].
  apply precise_total, total_of_modify.
Qed.

Lemma mmuon_precise : precise (execute_mmuon (D:=D)).
Proof.
  eapply precise_bind; [intros s0; by apply (require_supervisor_keeps (prec_inv s0))|]. intros _ _.
  eapply precise_bind; [intros s0; apply read_id_keeps|]. intros c Hc.
  destruct (mmu_enabled c); [by apply precise_total, total_ret|].
  eapply precise_bind; [intros s0; apply read_ram_any|]. intros ok _. destruct (_ || _).
  { apply exception_precise; [by vm_compute|apply Hc|by destruct (ptbr_set c); vm_compute]. }
  eapply precise_bind; [intros s0; apply read_ram_any|]. intros can _. destruct (negb can).
  - apply access_exception_precise; [by vm_compute|apply Hc].
  - apply precise_total, total_of_modify.
Qed.

Lemma mmuoff_precise : precise (execute_mmuoff (D:=D)).
Proof.
  eapply precise_bind; [intros s0; by apply (require_supervisor_keeps (prec_inv s0))|]. intros _ _.
  eapply precise_bind; [intros s0; apply read_id_keeps|]. intros c Hc.
  destruct (negb _); [by apply precise_total, total_ret|].
  eapply precise_bind; [intros s0; apply read_ram_any|]. intros ok _. destruct (negb ok).
  - apply access_exception_precise; [by vm_compute|apply Hc].
  - apply precise_total, total_of_modify.
Qed.

Lemma enter_precise h ret b : is_u64 h -> is_u64 ret -> precise (enter_privileged_handler (D:=D) h ret b).
Proof.
  intros Hh Hr s Hs E. destruct (enter_spec h ret b s Hs Hh Hr) as (bus' & _ & H).
  destruct (enter_privileged_handler h ret b s) as [[u|] s']; [done|].
  destruct H as (a & _ & ->). unfold same_arch. simpl.
  set (i := Z.lor _ 0). pose proof (record_exception_control (cpu s) CPU_EXCEPTION_STACK_FAULT a i) as H.
  simpl in H. destruct_and! H. by split_and!.
Qed.

Lemma syscall_precise : precise (execute_syscall (D:=D)).
Proof.
  intros s Hs. unfold execute_syscall, exec_bind, exec_try.
  destruct (read_vector_spec s CPU_VECTOR_SYSCALL) as ([h|] & -> & Hv); [by vm_compute| |].
  - unfold read_cpu. specialize (Hv h eq_refl). apply enter_precise; [|apply Hs|done].
    by eapply vector_entry_u64.
  - by apply exception_precise; vm_compute.
Qed.

#[local] Hint Resolve cas64_precise xchg64_precise atomic_add64_precise ret_precise iret_precise
  setvbr_precise setptbr_precise mmuon_precise mmuoff_precise syscall_precise load_precise
  store_precise load_offset_precise store_offset_precise extend_precise control_precise
  get_control_precise fail_precise : exec.
#[local] Hint Resolve cw_ecause cw_badaddr cw_epc cw_einfo cw_vbr cw_ptbr cw_ksp : exec.
#[local] Hint Resolve cw_core_id cw_thread_id : u64.

Lemma getmode_precise : precise (execute_getmode (D:=D)).
Proof. apply control_precise. intros c _. by destruct (mode c); vm_compute. Qed.

Lemma getmmu_precise : precise (execute_getmmu (D:=D)).
Proof. apply control_precise. intros c _. by destruct (mmu_enabled c); vm_compute. Qed.
#[local] Hint Resolve getmode_precise getmmu_precise : exec.

Ltac unfold_precise :=
  match goal with |- precise ?h => let c := get_head h in unfold c end.
Ltac handler_precise :=
  first [solve [eauto 8 with exec u64] | unfold_precise; solve [precise_auto]
        | unfold_precise; solve [eauto 8 with exec u64]].

Lemma scalar_handlers_precise : Forall (fun p => precise p.2) (OPCODE_HANDLERS (D:=D)).
Proof.
  unfold OPCODE_HANDLERS. repeat (apply Forall_cons_2; [cbn [snd]; handler_precise|]).
  apply Forall_nil_2.
Qed.

Lemma vector_float_precise f n op : precise (execute_vector_float (D:=D) f n op).
Proof.
  unfold execute_vector_float. eapply precise_bind; [intros s0; eauto with exec|].
  intros [[d l] r] [[Hd Hl] Hr]. cbn [fst snd] in *. apply precise_total.
  repeat (apply total_bind; [apply total_of_read|intros ?]).
  destruct (vector_float_result _ _ _ _ _ _). eauto with exec.
Qed.

Lemma float_compare_precise f : precise (execute_float_compare (D:=D) f).
Proof.
  unfold execute_float_compare. eapply precise_bind; [intros s0; eauto with exec|].
  intros [l r] [Hl Hr]. cbn [fst snd] in *. apply precise_total.
  repeat (apply total_bind; [apply total_of_read|intros ?]).
  destruct (float_compare_flags _ _ _). eauto with exec.
Qed.

Lemma float_to_int_precise f n : precise (execute_float_to_int (D:=D) f n).
Proof.
  unfold execute_float_to_int. eapply precise_bind; [intros s0; eauto with exec|]. intros d Hd.
  eapply precise_bind; [intros s0; eauto with exec|]. intros r Hr. apply precise_total.
  apply total_bind; [apply total_of_read|intros v]. destruct (float_to_int _ _ _). eauto with exec.
Qed.

Lemma float_store_precise w : 0 <= w <= 8 -> precise (execute_float_store (D:=D) w).
Proof.
  intros [Hw Hw8]. unfold execute_float_store. do 4 precise_step.
  apply (precise_leaf _ (fun _ => True)). intros s0. apply (internal_write_keeps (prec_inv s0));
    [done..|]. by apply read_lane_u64.
Qed.

Lemma vector_integer_precise w op : precise (execute_vector_integer (D:=D) w op).
Proof. unfold execute_vector_integer. precise_auto. Qed.
Lemma float_load_precise w : 0 <= w -> precise (execute_float_load (D:=D) w).
Proof. intros Hw. unfold execute_float_load. precise_auto. Qed.
Lemma scalar_float_precise f op : precise (execute_scalar_float (D:=D) f op).
Proof. unfold execute_scalar_float. precise_auto. Qed.
Lemma float_sign_precise w b : precise (execute_float_sign (D:=D) w b).
Proof. unfold execute_float_sign. precise_auto. Qed.
Lemma vector_bitwise_precise op : precise (execute_vector_bitwise (D:=D) op).
Proof. unfold execute_vector_bitwise. precise_auto. Qed.

#[local] Hint Resolve vector_float_precise float_compare_precise float_to_int_precise
  float_store_precise vector_integer_precise float_load_precise scalar_float_precise
  float_sign_precise vector_bitwise_precise : exec.
#[local] Hint Extern 1 (0 <= _ <= 8) => lia : exec.

Lemma vector_handlers_precise : Forall (fun p => precise p.2) (VECTOR_HANDLERS (D:=D)).
Proof.
  unfold VECTOR_HANDLERS. repeat (apply Forall_cons_2; [cbn [snd]; handler_precise|]).
  apply Forall_nil_2.
Qed.

Lemma table_precise (table : list (Z * Exec (Machine D) unit)) op h :
  Forall (fun p => precise p.2) table -> handler_lookup table op = Some h -> precise h.
Proof.
  intros Hf E. apply handler_lookup_elem, list_elem_of_In in E. rewrite Forall_forall in Hf.
  exact (Hf _ E).
Qed.

Lemma dispatch_precise op h : dispatch_opcode op = Some h -> precise (D:=D) h.
Proof.
  unfold dispatch_opcode. destruct (handler_lookup OPCODE_HANDLERS op) as [h'|] eqn:E.
  - intros [= <-]. eapply table_precise; [apply scalar_handlers_precise|exact E].
  - destruct (cpu_vector_opcode op) eqn:Ev; [|done]. intros [= <-]. unfold cpu_vector_execute.
    rewrite Ev. cbn [negb]. destruct (_ || _); [apply vector_bitwise_precise|].
    destruct (handler_lookup VECTOR_HANDLERS op) as [h|] eqn:E';
      [by eapply table_precise; [apply vector_handlers_precise|]|].
    by apply exception_precise; vm_compute.
Qed.

(** ** What is known when an exception is delivered *)

(** An exception in flight names the instruction being executed, and nothing
    but delivery marks an exception as being handled. *)
Definition flight_inv s0 s : Prop :=
  machine_wf s /\ instruction_pc (cpu s) = instruction_pc (cpu s0) /\
  (exception_pending (cpu s) = true -> epc (cpu s) = instruction_pc (cpu s)) /\
  exception_active (cpu s) = false /\ bus_like (bus s0) (bus s).

Lemma flight_cpu s0 s c :
  flight_inv s0 s -> machine_wf (set_cpu c s) -> instruction_pc c = instruction_pc (cpu s) ->
  epc c = epc (cpu s) -> exception_pending c = exception_pending (cpu s) ->
  exception_active c = false -> flight_inv s0 (set_cpu c s).
Proof.
  intros (_ & H1 & H2 & _ & H4) Hw E1 E2 E3 E4. split_and!; simpl; [done|congruence| |done|done].
  rewrite E1, E2, E3. exact H2.
Qed.

Lemma flight_exception s0 s e b i :
  flight_inv s0 s -> is_u64 e -> is_u64 b -> is_u64 i ->
  flight_inv s0 (set_cpu (record_exception e b i (cpu s)) s) /\
  exception_pending (record_exception e b i (cpu s)) = true.
Proof.
  intros (Hw & H1 & H2 & H3 & H4) He Hb Hi. pose proof (fc_exception s e b i Hw He Hb Hi).
  unfold record_exception in *. destruct (exception_pending (cpu s)) eqn:Ep.
  - split; [split_and!; simpl; auto|done].
  - by split_and!.
Qed.

#[export] Instance flight_closed s0 : PrivClosed (flight_inv s0).
Proof.
  split; [split; [split; [split|..]|..]|..].
  - by intros s [? _].
  - intros s b (? & ? & ? & ? & ?) Hb.
    split_and!; [by apply machine_wf_bus|done..|by eapply bus_like_trans].
  - intros s v Hf Hv. apply flight_cpu; [done|apply fc_pc; [apply Hf|done]|done..|apply Hf].
  - intros s e b i Hf He Hb Hi. by apply flight_exception.
  - intros s r v Hf Hv. apply flight_cpu; [done|apply uc_register; [apply Hf|done]|done..|apply Hf].
  - intros s r v Hf Hv. apply flight_cpu; [done|apply uc_vector; [apply Hf|done]|done..|apply Hf].
  - intros s f Hf Hv Hi. apply flight_cpu; [done|apply uc_flags; [apply Hf|done..]|done..|apply Hf].
  - intros s v Hf Hv. apply flight_cpu; [done|apply uc_fp_status; [apply Hf|done]|done..|apply Hf].
  - intros s Hf. apply flight_cpu; [done|apply uc_waiting, Hf|done..|apply Hf].
  - intros s Hf. apply flight_cpu; [done|apply pc_halt, Hf|done..|apply Hf].
  - intros s f Hf Hv. apply flight_cpu; [done|apply pc_flags; [apply Hf|done..]|done..|apply Hf].
  - intros s m Hf. apply flight_cpu; [done|apply pc_mode, Hf|done..|apply Hf].
  - intros s v Hf Hv. apply flight_cpu; [done|apply pc_ksp; [apply Hf|done]|done..|apply Hf].
  - intros s Hf. by apply flight_cpu; [|apply pc_active, Hf|..].
  - intros s b Hf. apply flight_cpu; [done|apply pc_waiting, Hf|done..|apply Hf].
  - intros s a Hf Ha H7 Hr. apply flight_cpu; [done|apply pc_vbr; [apply Hf|done..]|done..|apply Hf].
  - intros s a Hf Ha Hr. apply flight_cpu; [done|apply pc_ptbr; [apply Hf|done..]|done..|apply Hf].
  - intros s b Hf Hb. apply flight_cpu; [done|apply pc_mmu; [apply Hf|done]|done..|apply Hf].
Qed.
End handlers.

(** ** A failing access always records an exception *)

Section faults.
Context {D : Type}.
Abbreviation M := (Exec (Machine D)).

Definition faults {A} (m : M A) : Prop :=
  forall s, (m s).1 = None -> exception_pending (cpu (m s).2) = true.

Lemma faults_bind {A B} (m : M A) (f : A -> M B) :
  faults m -> (forall a, faults (f a)) -> faults (exec_bind m f).
Proof.
  intros Hm Hf s. unfold exec_bind. specialize (Hm s). destruct (m s) as [[a|] s']; [apply Hf|intros _; by apply Hm].
Qed.

Lemma faults_total {A} (m : M A) : never_fails m -> faults m.
Proof. intros Hm s E. destruct (Hm s) as [a Ha]. congruence. Qed.

Lemma faults_exception {A} e b i : faults (set_exception e b i : M A).
Proof.
  intros s _. unfold set_exception, record_exception. cbn [snd set_cpu cpu].
  by destruct (exception_pending (cpu s)) eqn:E.
Qed.

Lemma faults_fault {A} e a access r : faults (fault true e a access r : M A).
Proof. apply faults_exception. Qed.

Lemma faults_translate va access : faults (translate_address va access true).
Proof.
  intros s. unfold translate_address. destruct (negb _); [done|].
  destruct (mmu_translate _ _ _ _ _); [done|]. apply faults_fault.
Qed.

Definition page_left (cursor : Z) : Z := MMU_PAGE_SIZE - Z.land cursor MMU_PAGE_MASK.

Lemma page_left_next cursor : page_left (wrap64 (cursor + page_left cursor)) = MMU_PAGE_SIZE.
Proof.
  unfold page_left. change MMU_PAGE_MASK with (2 ^ 12 - 1). rewrite !land_low_mask by lia.
  unfold MMU_PAGE_SIZE, wrap64. Z.to_euclidean_division_equations. lia.
Qed.

(** The room left suffices: an access of at most 16 bytes spans two pages. *)
Definition room_ok (room : nat) (cursor remaining : Z) : Prop :=
  match room with
  | O => remaining = 0
  | S O => 0 <= remaining <= page_left cursor
  | _ => 0 <= remaining <= 16
  end.

Lemma segment_loop_faults room cursor remaining off access :
  (room <= 2)%nat -> room_ok room cursor remaining ->
  faults (segment_loop room cursor remaining off access true).
Proof.
  revert cursor remaining off. induction room as [|room IH]; intros cursor remaining off Hroom Hok.
  { simpl in *. subst. apply faults_total, total_ret. }
  cbn [segment_loop]. destruct (Z.eqb_spec remaining 0); [apply faults_total, total_ret|].
  fold (page_left cursor). pose proof (page_left_next cursor) as Hnext.
  pose proof (page_chunk cursor) as Hpage. fold (page_left cursor) in Hpage.
  apply faults_bind; [apply faults_translate|]. intros pa.
  apply faults_bind; [|intros rest; apply faults_total, total_ret].
  apply IH; [lia|]. destruct room as [|[|room]]; simpl in *; try lia;
    destruct (Z.ltb_spec remaining (page_left cursor)); try lia.
  - pose proof (page_chunk (wrap64 (cursor + remaining))) as Hc.
    fold (page_left (wrap64 (cursor + remaining))) in Hc. lia.
  - rewrite Hnext. unfold MMU_PAGE_SIZE in *. lia.
Qed.

Lemma build_segments_faults va width access e :
  0 <= width -> faults (build_memory_segments va width access e true).
Proof.
  intros Hw. unfold build_memory_segments.
  apply faults_bind; [apply faults_total, total_of_read|]. intros mmu.
  destruct (_ || _) eqn:Eg; [apply faults_fault|].
  destruct (negb mmu); [apply faults_total, total_ret|].
  rewrite !orb_false_iff, Z.eqb_neq, !Z.ltb_ge in Eg. unfold VECTOR_REGISTER_SIZE in Eg.
  apply segment_loop_faults; [lia|]. simpl. lia.
Qed.

Lemma read_segments_faults segs access use_bus e result :
  faults (read_segments segs access use_bus e true result).
Proof.
  revert result. induction segs as [|g segs IH]; intros result; [apply faults_total, total_ret|].
  apply faults_bind; [apply faults_total; intros s; unfold exec_try; destruct (read_segment _ _ _ s);
    by eexists|].
  intros [part|]; [apply IH|apply faults_fault].
Qed.

Lemma memory_read_faults va width access use_bus e :
  0 <= width -> faults (memory_read va width access use_bus e true).
Proof.
  intros Hw. apply faults_bind; [by apply build_segments_faults|]. intros segs.
  apply read_segments_faults.
Qed.

Lemma fetch_u8_faults : faults fetch_u8.
Proof.
  apply faults_bind; [|intros v; apply faults_total, total_ret].
  apply faults_bind; [apply faults_total, total_of_read|]. intros a.
  apply faults_bind; [apply memory_read_faults; lia|]. intros v.
  apply faults_total. eauto with exec.
Qed.
End faults.

(** ** Fetching an opcode leaves the bus alone *)

Section quiet.
Context {D : Type}.
Abbreviation M := (Exec (Machine D)).

(** [m] changes nothing when it succeeds. *)
Definition quiet {A} (m : M A) : Prop := forall s a s', m s = (Some a, s') -> s' = s.

Lemma quiet_bind {A B} (m : M A) (f : A -> M B) :
  quiet m -> (forall a, quiet (f a)) -> quiet (exec_bind m f).
Proof.
  intros Hm Hf s b s'. unfold exec_bind. destruct (m s) as [[a|] s1] eqn:E; [|done].
  apply Hm in E as ->. apply Hf.
Qed.

Lemma quiet_ret {A} (a : A) : quiet (mret a : M A).
Proof. by intros s a' s' [= _ ->]. Qed.

Lemma quiet_read {A} (f : CPU -> A) : quiet (read_cpu (D:=D) f).
Proof. by intros s a' s' [= _ ->]. Qed.

Lemma quiet_fault {A} report e a access r : quiet (fault report e a access r : M A).
Proof. intros s v s'. by destruct report. Qed.

Lemma quiet_segments va width access e report :
  quiet (build_memory_segments (D:=D) va width access e report).
Proof.
  assert (forall room cursor remaining off,
    quiet (segment_loop (D:=D) room cursor remaining off access report)) as Hloop.
  { induction room as [|room IH]; intros cursor remaining off; cbn [segment_loop];
      (destruct (remaining =? 0); [apply quiet_ret|]); [done|].
    apply quiet_bind.
    - intros s pa s'. unfold translate_address. destruct (negb _); [congruence|].
      destruct (mmu_translate _ _ _ _ _); [congruence|apply quiet_fault].
    - intros pa. apply quiet_bind; [apply IH|]. intros; apply quiet_ret. }
  apply quiet_bind; [apply quiet_read|]. intros mmu.
  destruct (_ || _); [apply quiet_fault|]. destruct (negb mmu); [apply quiet_ret|apply Hloop].
Qed.

Lemma quiet_fetch va width e : quiet (memory_read (D:=D) va width MMU_ACCESS_EXECUTE false e true).
Proof.
  apply quiet_bind; [apply quiet_segments|]. intros segs. generalize 0.
  induction segs as [|g segs IH]; intros acc; [apply quiet_ret|]. apply quiet_bind.
  - intros s o s' [= _ <-]. done.
  - intros [v|]; [apply IH|apply quiet_fault].
Qed.

Lemma fetch_u8_some (s : Machine D) v s' :
  fetch_u8 s = (Some v, s') -> s' = set_cpu (set_pc (wrap64 (pc (cpu s) + 1)) (cpu s)) s.
Proof.
  unfold fetch_u8, fetch_bytes, exec_bind, read_cpu, modify_cpu.
  destruct (memory_read _ _ _ _ _ _ s) as [[x|] s1] eqn:E; [|done].
  apply quiet_fetch in E as ->. intros [= _ <-]. done.
Qed.
End quiet.

Lemma clamp_cause_same c :
  arch_same c (clamp_cause c) /\ epc (clamp_cause c) = epc c.
Proof. unfold clamp_cause. by destruct (_ || _). Qed.

Section step.
Context {D : Type} {DI : DevInv D} `{HN : HostNan}.
Implicit Types (s m : Machine D).

(** ** The step without the delivery of its exception *)

(** The CPU as the instruction at its [pc] begins. *)
Definition begun s : Machine D := set_cpu (begin_instruction (cpu s)) s.

(** The instruction itself: the opcode is fetched and executed; on failure an
    exception has been recorded. *)
Definition instruction : Exec (Machine D) unit :=
  modify_cpu begin_instruction;;
  opcode ← fetch_u8;
  match dispatch_opcode opcode with
  | Some handler =>
      executed ← exec_try handler;
      match executed with
      | Some _ => mret tt
      | None => ensure_exception;; exec_fail
      end
  | None => ensure_exception;; exec_fail
  end.

(** A step executes the instruction and, if it fails, delivers its exception. *)
Lemma step_instruction s :
  halted (cpu s) = false -> waiting (cpu s) = false ->
  cpu_step s = match instruction s with
               | (Some _, s') => (Some tt, s')
               | (None, m) => deliver_exception m
               end.
Proof.
  intros Hh Hw. unfold cpu_step, instruction, exec_bind, read_cpu, id. rewrite Hh, Hw. cbn [orb].
  unfold modify_cpu, exec_try. fold (begun s).
  destruct (fetch_u8 (begun s)) as [[op|] s2]; [|done].
  destruct (dispatch_opcode op) as [h|]; [|done]. by destruct (h s2) as [[[]|] s3].
Qed.

Lemma begun_wf s : machine_wf s -> machine_wf (begun s).
Proof. intros Hs. exact (pc_pending _ false (pc_begin s Hs)). Qed.

(** An instruction keeps every closed invariant; a failing one has an exception
    recorded and every architectural register intact. *)
Lemma instruction_spec s :
  machine_wf s ->
  (forall I, PrivClosed I -> I (begun s) -> I (instruction s).2) /\
  ((instruction s).1 = None ->
     exception_pending (cpu (instruction s).2) = true /\ same_arch s (instruction s).2).
Proof.
  intros Hs. pose proof (begun_wf s Hs) as Hs1. set (s1 := begun s) in *.
  unfold instruction, exec_bind, modify_cpu, exec_try.
  change (set_cpu (begin_instruction (cpu s)) s) with s1.
  assert (forall I, PrivClosed I -> I s1 -> I (fetch_u8 s1).2) as Hfetch.
  { intros I HI H1. by apply (fetch_u8_keeps I). }
  pose proof (fetch_u8_faults s1) as Hfault.
  destruct (fetch_u8_keeps (prec_inv s1) s1) as [[Hs2 Hsame] _]; [by split|].
  assert (same_arch s s1) as Hs01 by done.
  destruct (fetch_u8 s1) as [[op|] s2]; cbn [fst snd] in *;
    [|split; [exact Hfetch|]; intros _; split; [by apply Hfault|exact Hsame]].
  assert (forall s3, (forall I, PrivClosed I -> I s1 -> I s3) -> same_arch s1 s3 ->
    let s4 := set_cpu (record_exception CPU_EXCEPTION_ILLEGAL_INSTRUCTION 0 0 (cpu s3)) s3 in
    (forall I, PrivClosed I -> I s1 -> I s4) /\
      (None = None :> option unit -> exception_pending (cpu s4) = true /\ same_arch s s4)) as Hensure.
  { intros s3 HI3 Ha3 s4. split; [|intros _; split].
    - intros I HI H1. apply (ensure_exception_keeps I). by apply HI3.
    - by apply (faults_exception (A:=unit) CPU_EXCEPTION_ILLEGAL_INSTRUCTION 0 0 s3).
    - apply (fc_exception (I:=prec_inv s1) s3); [|by vm_compute..]. split; [|done].
      by apply HI3; [apply _|]. }
  destruct (dispatch_opcode op) as [h|] eqn:Ed; [|by apply Hensure].
  pose proof (dispatch_precise op h Ed s2 Hs2) as Hp.
  assert (forall I, PrivClosed I -> I s1 -> I (h s2).2) as Hk.
  { intros I HI H1. by apply (dispatch_keeps I op h Ed), Hfetch. }
  destruct (h s2) as [[[]|] s3]; cbn [fst snd] in *; [by split|].
  apply Hensure; [exact Hk|]. etrans; [exact Hsame|by apply Hp].
Qed.

(** ** An exception that is delivered *)

(** What an exception raised in [s], pending in [m] and delivered, leaves in
    [s']. *)
Definition delivered s m s' : Prop :=
  let c := cpu s in
  let c' := cpu s' in
  registers c' = arr_set (registers c) REGISTER_SP (frame_top c - frame_size c) /\
  vector_registers c' = vector_registers c /\ fp_status c' = fp_status c /\
  control_same c c' /\ epc c' = pc c /\ mode c' = CPU_MODE_SUPERVISOR /\
  flags c' = Z.land (flags c) (not64 CPU_FLAG_INTERRUPT_ENABLE) /\
  ecause c' = ecause (clamp_cause (cpu m)) /\
  vbr_enabled c = true /\ exception_index (exception_vector c') /\
  ram_read (machine_ram m) (vbr c + exception_vector c' * CPU_VECTOR_ENTRY_SIZE) 8 = Some (pc c') /\
  bus_like (bus s) (bus m) /\ frame_bus (bus m) (bus s') /\
  bus s' = bus (enter_privileged_handler (pc c') (pc c) true (set_cpu (clamp_cause (cpu m)) m)).2.

Lemma deliver_precise s u s' :
  machine_wf s -> (instruction s).1 = None ->
  deliver_exception (instruction s).2 = (Some u, s') ->
  exception_active (cpu s) = false /\ exception_active (cpu s') = true /\
  delivered s (instruction s).2 s'.
Proof.
  intros Hs Hi E. destruct (instruction_spec s Hs) as [HI Hf]. destruct (Hf Hi) as [Hpend Hsame].
  set (m := (instruction s).2) in *. destruct (clamp_cause_same (cpu m)) as [Hclamp Hcepc].
  assert (arch_same (cpu s) (clamp_cause (cpu m))) as Hsame2 by (etrans; [exact Hsame|exact Hclamp]).
  destruct (deliver_spec m (HI machine_wf _ (begun_wf s Hs))) as (bus' & Hbus & H). cbv zeta in H.
  rewrite E in H. destruct H as (Hact & h & Hvec & He & ->).
  pose proof (exception_vector_index (cpu m)) as Hidx.
  destruct Hsame2 as (Hr & Hv & Hfl & Hfp & Hm & Hwt & Hxa & Hctl).
  assert (exception_active (cpu s) = false) as Ha by congruence.
  destruct (HI (flight_inv (begun s)) _) as (Hm2 & Hipc & Hepc & _ & Hlike);
    [by split_and!; [apply begun_wf|..|apply bus_like_refl, (mw_bus s)]|].
  specialize (Hepc Hpend). rewrite Hipc in Hepc.
  change (instruction_pc (cpu (begun s))) with (pc (cpu s)) in Hepc.
  assert (epc (clamp_cause (cpu m)) = pc (cpu s)) as Hepc2 by congruence. rewrite Hepc2 in He.
  remember (clamp_cause (cpu m)) as c2 eqn:Ec2.
  assert (frame_top c2 = frame_top (cpu s) /\ frame_size c2 = frame_size (cpu s)) as [Ht Hz].
  { unfold frame_top, frame_size, get_register. rewrite Hm, Hr. by destruct Hctl as (_ & _ & _ & _ & _ & -> & _). }
  destruct Hvec as (Hvbr & _ & Hread & _). cbn [cpu set_cpu] in Hvbr, Hread.
  destruct (Hctl) as (Hvb & Hve & _).
  split; [done|]. split; [done|]. unfold delivered. cbv zeta. cbn [cpu bus].
  rewrite <-Ec2. unfold handler_cpu. rewrite Ht, Hz.
  split_and!; simpl; try done; try congruence.
  - rewrite <-Hvb. exact Hread.
  - by rewrite He.
Qed.

(** A delivery that fails marks no exception as being handled. *)
Lemma deliver_failed m s' :
  machine_wf m -> deliver_exception m = (None, s') ->
  exception_active (cpu s') = exception_active (cpu m).
Proof.
  intros Hm E. destruct (deliver_spec m Hm) as (bus' & _ & H). cbv zeta in H. rewrite E in H.
  destruct (clamp_cause_same (cpu m)) as [(_ & _ & _ & _ & _ & _ & Ha & _) _].
  destruct H as [->|(h & a & _ & _ & ->)]; [done|]. cbn [cpu]. set (i := Z.lor _ 0).
  pose proof (record_exception_control (clamp_cause (cpu m)) CPU_EXCEPTION_STACK_FAULT a i) as Hc.
  cbv zeta in Hc. destruct_and! Hc. congruence.
Qed.
End step.

(** * Properties *)

(** C1: user mode is confined.  A step that starts in user mode either stays
    there and leaves the vector base, page-table root, MMU switch, kernel
    stack, core identity, halt and interrupt-enable state as they were; or it
    ends in supervisor mode at the address the vector table holds, in the RAM
    of the moment of the trap, for its cause: the SYSCALL entry, if the opcode
    at the program counter is SYSCALL, else the entry of the exception recorded
    by the instruction.  Then every general register but the stack pointer,
    the vector registers, the floating-point status and the privileged state
    are those before the step, the stack pointer is 24 bytes below the kernel
    stack, the flags have lost interrupt-enable and nothing else, and since
    the trap nothing on the bus but RAM was written. *)
Theorem user_step_confined `{DI : DevInv D} `{HN : HostNan} (s : Machine D) :
  machine_wf s -> mode (cpu s) = CPU_MODE_USER ->
  let s' := (cpu_step s).2 in
  let c := cpu s in
  let c' := cpu s' in
  user_inv s s' \/
  exists idx b,
    (idx = CPU_VECTOR_SYSCALL /\ (fetch_u8 (begun s)).1 = Some OP_SYSCALL /\ b = bus s \/
     exception_index idx /\ (instruction s).1 = None /\ idx = exception_vector c' /\
       ecause c' = ecause (clamp_cause (cpu (instruction s).2)) /\ b = bus (instruction s).2) /\
    vbr_enabled c = true /\
    ram_read (bus_ram b) (vbr c + idx * CPU_VECTOR_ENTRY_SIZE) 8 = Some (pc c') /\
    mode c' = CPU_MODE_SUPERVISOR /\
    registers c' = arr_set (registers c) REGISTER_SP (ksp c - 24) /\
    vector_registers c' = vector_registers c /\ fp_status c' = fp_status c /\
    flags c' = Z.land (flags c) (not64 CPU_FLAG_INTERRUPT_ENABLE) /\
    control_same c c' /\ bus_like (bus s) b /\ bus_like b (bus s') /\ ram_written b (bus s').
Proof.
  intros Hs Hm s' c c'. pose proof (user_inv_start s Hs Hm) as Hu.
  destruct (halted (cpu s) || waiting (cpu s)) eqn:Eh.
  { left. unfold s', cpu_step, exec_bind, read_cpu, id. by rewrite Eh. }
  apply orb_false_iff in Eh as [Hh Hw]. pose proof (step_instruction s Hh Hw) as Estep.
  assert (user_inv s (begun s)) as Hu1
    by (apply user_inv_cpu; [done|by apply begun_wf|done..]).
  assert (forall r, instruction s = (None, r) -> user_inv s r) as Hfail.
  { unfold instruction, exec_bind, modify_cpu, exec_try. fold (begun s). intros r.
    destruct (fetch_u8_keeps (user_inv s) (begun s) Hu1) as [Hu2 _].
    destruct (fetch_u8 (begun s)) as [[op|] s2]; cbn [snd] in Hu2; [|by intros [= <-]].
    destruct (dispatch_opcode op) as [h|] eqn:Ed; [pose proof (dispatch_user s s2 op h Ed Hu2) as H;
      destruct (h s2) as [[u|] s3]; [done|]|]; intros [= <-];
      by apply user_record_exception; [|vm_compute..]. }
  pose proof (deliver_precise s) as Hdel. subst s' c'. rewrite Estep. clear Estep.
  destruct (instruction s) as [[u|] m] eqn:Ei; cbn [fst snd] in *.
  - clear Hdel Hfail. unfold instruction, exec_bind, modify_cpu, exec_try in Ei. fold (begun s) in Ei.
    destruct (fetch_u8_keeps (user_inv s) (begun s) Hu1) as [Hu2 _].
    destruct (fetch_u8 (begun s)) as [[op|] s2] eqn:Ef; cbn [fst snd] in Hu2; [|done].
    destruct (dispatch_opcode op) as [h|] eqn:Ed; [|done].
    pose proof (dispatch_user s s2 op h Ed Hu2) as H. destruct (h s2) as [[v|] s3]; [|done].
    injection Ei as _ <-. destruct H as [H|(-> & h' & b' & (Hv1 & _ & Hv2 & _) & [Hb1 Hb2] & ->)]; [by left|].
    right. exists CPU_VECTOR_SYSCALL, (bus s). apply fetch_u8_some in Ef as ->.
    split_and!; [by left|done|exact Hv2|done| |done|done|done|done
      |by apply bus_like_refl, mw_bus|exact Hb1|exact Hb2].
    cbn. unfold frame_top, frame_size. cbn. by rewrite Hm.
  - specialize (Hfail m eq_refl). destruct (deliver_exception m) as [[u|] s'] eqn:Ed; cbn [snd];
      [|left; by eapply deliver_user].
    right. destruct (Hdel u s' Hs eq_refl eq_refl) as (_ & _ &
      Hr & Hv & Hfp & Hctl & Hepc & Hmo & Hfl & Hec & Hvb & Hidx & Hread & Hb1 & [Hb2 Hb3] & _).
    exists (exception_vector (cpu s')), (bus m).
    split_and!; [by right|done|exact Hread|done| |done..].
    rewrite Hr. unfold frame_top, frame_size. by rewrite Hm.
Qed.

Lemma user_step_confined_witness :
  let s := demo_machine CPU_MODE_USER [OP_SYSCALL] in
  pc (cpu (cpu_step s).2) = 0x2000 /\
  registers (cpu (cpu_step s).2) = arr_set (registers (cpu s)) 15 (0x8000 - 24).
Proof.
  assert (Forall is_u8 [OP_SYSCALL]) as Hc by (apply Forall_cons_2; [by vm_compute|apply Forall_nil_2]).
  split; [vm_compute; reflexivity|].
  destruct (user_step_confined (demo_machine CPU_MODE_USER [OP_SYSCALL])
    (demo_machine_wf CPU_MODE_USER [OP_SYSCALL] Hc) eq_refl)
    as [H|(idx & b & _ & _ & _ & _ & H & _)]; [|exact H].
  exfalso. destruct H as (_ & H & _). vm_compute in H. discriminate H.
Defined.

(** C2: exceptions are precise.  When a step ends with an exception being
    handled, the instruction has failed and has had no effect on the
    registers: the general registers but the stack pointer, the vector
    registers, the floating-point status and the privileged state are those
    before the instruction, and the flags have lost interrupt-enable and
    nothing else; the exception address is the address of the instruction and
    the cause is the one the instruction recorded.  The CPU is in supervisor
    mode at the address that the entry of that cause holds in the vector table
    at the vector base, in the RAM the instruction left; the stack pointer is
    at the frame, and since the instruction failed the bus has changed by the
    frame that entering this handler from this address pushes, in RAM alone. *)
Theorem exception_entry_precise `{DI : DevInv D} `{HN : HostNan} (s : Machine D) :
  machine_wf s -> halted (cpu s) = false -> waiting (cpu s) = false ->
  exception_active (cpu s) = false -> exception_active (cpu (cpu_step s).2) = true ->
  let c := cpu s in
  let c' := cpu (cpu_step s).2 in
  let m := (instruction s).2 in
  (instruction s).1 = None /\
  registers c' = arr_set (registers c) REGISTER_SP (frame_top c - frame_size c) /\
  vector_registers c' = vector_registers c /\ fp_status c' = fp_status c /\
  control_same c c' /\ epc c' = pc c /\ mode c' = CPU_MODE_SUPERVISOR /\
  flags c' = Z.land (flags c) (not64 CPU_FLAG_INTERRUPT_ENABLE) /\
  ecause c' = ecause (clamp_cause (cpu m)) /\
  vbr_enabled c = true /\ exception_index (exception_vector c') /\
  ram_read (machine_ram m) (vbr c + exception_vector c' * CPU_VECTOR_ENTRY_SIZE) 8 = Some (pc c') /\
  bus_like (bus s) (bus m) /\ ram_written (bus m) (bus (cpu_step s).2) /\
  bus (cpu_step s).2 =
    bus (enter_privileged_handler (pc c') (pc c) true (set_cpu (clamp_cause (cpu m)) m)).2.
Proof.
  intros Hs Hh Hw Ha Ha'. cbv zeta. rewrite (step_instruction s Hh Hw) in *.
  destruct (instruction_spec s Hs) as [HI Hf].
  pose proof (deliver_precise s) as Hdel.
  pose proof (HI machine_wf _ (begun_wf s Hs)) as Hm.
  pose proof (HI (flight_inv (begun s)) _) as Hfl.
  destruct (instruction s) as [[u|] m]; cbn [fst snd] in *.
  { destruct Hfl as (_ & _ & _ & Hx & _); [|congruence].
    by split_and!; [apply begun_wf|..|apply bus_like_refl, (mw_bus s)]. }
  destruct (Hf eq_refl) as [_ (_ & _ & _ & _ & _ & _ & Hx & _)].
  destruct (deliver_exception m) as [[u|] s'] eqn:Ed; cbn [snd] in *.
  - destruct (Hdel u s' Hs eq_refl eq_refl) as (_ & _ & Hd). unfold delivered in Hd. cbv zeta in Hd.
    destruct Hd as (? & ? & ? & ? & ? & ? & ? & ? & ? & ? & ? & ? & [? ?] & ?). by split_and!.
  - rewrite (deliver_failed m s' Hm Ed) in Ha'. congruence.
Qed.

Lemma exception_entry_precise_witness :
  let s := demo_machine CPU_MODE_USER [OP_DIVU; 1; 2] in
  epc (cpu (cpu_step s).2) = 0x100 /\ pc (cpu (cpu_step s).2) = 0x2400 /\
  registers (cpu (cpu_step s).2) = arr_set (registers (cpu s)) 15 (0x8000 - 24).
Proof.
  set (s := demo_machine CPU_MODE_USER [OP_DIVU; 1; 2]).
  assert (machine_wf s) as Hs.
  { apply demo_machine_wf. repeat (apply Forall_cons_2; [by vm_compute|]). apply Forall_nil_2. }
  destruct (exception_entry_precise s Hs eq_refl eq_refl eq_refl ltac:(vm_compute; reflexivity))
    as (_ & H1 & _ & _ & _ & H5 & _).
  split; [exact H5|]. split; [vm_compute; reflexivity|exact H1].
Defined.
