(* ===== verification/CpuRun.v ===== *)
(** Whole runs of the processor: the transition system of steps, interrupt
    checks and clock ticks, its invariant, the run loop as a path of it, failing
    steps and the acceptance of interrupts. *)

From S2P Require Import Prelude Ram Mmu Interrupt Bus Isa CpuCore CpuInv CpuExec CpuVector Cpu CpuSafety CpuStep CpuIsolation CpuPrecise.
From stdpp Require Import base list numbers option relations.
From Stdlib Require Import ZArith Lia Bool.

#[local] Open Scope Z_scope.
#[local] Open Scope exec_scope.

Section run.
Context {D : Type} {DI : DevInv D} `{HN : HostNan}.
Implicit Types (s : Machine D) (b : Bus D).

(** ** The transition system *)

(** What a core does between two observations: an instruction, an interrupt
    check against a controller, or the devices' clock advancing. *)
Inductive machine_step : Machine D -> Machine D -> Prop :=
| ms_instruction s : machine_step s (cpu_step s).2
| ms_interrupt s controller : machine_step s (cpu_check_interrupt controller s).2
| ms_tick s ticks : is_u64 ticks -> machine_step s (set_bus (bus_tick (bus s) ticks) s).

(** The invariant: well-formed, on the bus the machine started with. *)
Definition on_bus_inv b s : Prop := machine_wf s /\ bus_like b (bus s).

#[export] Instance on_bus_step b : StepClosed (on_bus_inv b).
Proof.
  split; [split; [split; [split; [split|..]|..]|..]|..];
    try (by intros s [? _]);
    try (intros s x [? ?] Hx; split; [by apply machine_wf_bus|by eapply bus_like_trans]);
    intros s; intros; match goal with H : on_bus_inv _ s |- _ => destruct H as [? ?] end;
    (split; [|done]).
  all: first [by apply fc_pc | by apply fc_exception | by apply uc_register | by apply uc_vector
    | by apply uc_flags | by apply uc_fp_status | by apply uc_waiting | by apply pc_halt
    | by apply pc_flags | by apply pc_mode | by apply pc_ksp | by apply pc_active
    | by apply pc_waiting | by apply pc_vbr | by apply pc_ptbr | by apply pc_mmu
    | by apply sc_active | by apply pc_pending | by apply pc_ecause | by apply pc_begin].
Qed.

Lemma machine_step_inv b s s' : machine_step s s' -> on_bus_inv b s -> on_bus_inv b s'.
Proof.
  intros H Hs. destruct H as [s|s k|s n Hn].
  - by apply (cpu_step_keeps (on_bus_inv b)).
  - by apply (cpu_check_interrupt_keeps (on_bus_inv b)).
  - apply (fc_bus (I:=on_bus_inv b)); [done|]. apply bus_tick_like; [apply mw_bus, Hs|done].
Qed.

Lemma machine_steps_inv b s s' : rtc machine_step s s' -> on_bus_inv b s -> on_bus_inv b s'.
Proof. induction 1; eauto using machine_step_inv. Qed.

Lemma cpu_init_wf : cpu_wf cpu_init.
Proof.
  assert (is_u64 0 /\ is_u32 0) as [? ?] by by vm_compute.
  split; try done; split; try done; apply Forall_replicate; [done|apply zero_vector_ok].
Qed.

Lemma init_machine_wf b : bus_wf b -> machine_wf (mkMachine cpu_init b).
Proof. intros Hb. split; [apply cpu_init_wf|done..]. Qed.


(** ** Rounds of the run loop *)













(** ** Lines taken *)

(** [line] is what a controller with [pending] lines yields: an inter-processor
    line if one is pending, an external line if not, the lowest of its class. *)
Definition line_selected (pending line : Z) : Prop :=
  0 <= line < INTERRUPT_LINE_COUNT /\ Z.testbit pending line = true /\
  (forall i, 0 <= i < INTERRUPT_LINE_COUNT -> Z.testbit pending i = true ->
     (INTERRUPT_IPI_LINE_BASE <= i -> INTERRUPT_IPI_LINE_BASE <= line <= i) /\
     (line < INTERRUPT_IPI_LINE_BASE -> line <= i)).

Lemma take_next_selected p :
  is_u64 p ->
  if p =? 0 then interrupt_controller_take_next p = None
  else exists line, line_selected p line /\
    interrupt_controller_take_next p = Some (line, Z.clearbit p line).
Proof.
  intros Hp. pose proof (take_next_priority p Hp) as H. destruct (Z.eqb_spec p 0) as [->|Hne]; [done|].
  destruct (interrupt_controller_take_next p) as [[line p']|]; [|done].
  destruct H as (H1 & H2 & H3 & H4). exists line. split; [done|]. do 2 f_equal.
  apply Z.bits_inj'. intros i Hi. rewrite H4 by done.
  destruct (Z.eqb_spec line i) as [->|]; [by rewrite Z.clearbit_eq, andb_false_r|].
  by rewrite Z.clearbit_neq, andb_true_r.
Qed.

(** The converse of [read_vector_spec]: an entry that can be used is used. *)
Lemma vector_entry_read s idx h :
  machine_wf s -> 0 <= idx -> vector_entry s idx h -> read_vector idx s = (Some h, s).
Proof.
  intros Hs Hi (Hv & Hidx & Hread & Hne & Ha). pose proof (machine_ram_wf s Hs) as Hr.
  pose proof (cw_vbr _ (mw_cpu s Hs)) as Hvbr.
  assert (ram_range_valid (machine_ram s) (vbr (cpu s) + idx * 8) 8 = true) as Hrange.
  { unfold ram_read in Hread. by destruct (ram_range_valid _ _ _). }
  change CPU_VECTOR_ENTRY_COUNT with 77 in *.
  apply ram_range_valid_true in Hrange; [|lia|done].
  pose proof (proj1 Hr) as Hsz. unfold is_u64 in *.
  unfold read_vector, exec_bind at 1, read_cpu, id. rewrite Hv. cbn [negb orb].
  change CPU_VECTOR_ENTRY_COUNT with 77. destruct (Z.leb_spec 77 idx); [lia|].
  assert (wrap64 (idx * CPU_VECTOR_ENTRY_SIZE) = idx * 8) as ->.
  { apply wrap64_id. unfold is_u64, CPU_VECTOR_ENTRY_SIZE. lia. }
  destruct (Z.ltb_spec (UINT64_MAX - idx * 8) (vbr (cpu s))); [unfold UINT64_MAX in *; lia|].
  unfold exec_bind, read_ram, exec_guard, exec_of_option. change CPU_VECTOR_ENTRY_SIZE with 8.
  assert (cpu_ram_range_valid (machine_ram s) (vbr (cpu s) + idx * 8) 8 = true) as ->.
  { unfold cpu_ram_range_valid, SIZE_MAX, UINT64_MAX.
    destruct (Z.leb_spec (vbr (cpu s) + idx * 8) 0xFFFFFFFFFFFFFFFF); [|lia].
    apply andb_true_iff. rewrite !Z.leb_le. lia. }
  cbn. rewrite Hread. destruct (Z.eqb_spec h UINT64_MAX); [done|]. cbn. by rewrite Ha.
Qed.

(** * Properties *)

(** C3: the invariant.  From the reset state on a well-formed bus, whatever
    instructions, interrupts and clock ticks follow, the machine stays well
    formed: registers, vector registers and control registers keep their
    widths, a vector base that is set is an aligned table in RAM, a page-table
    root that is set is a page of RAM, and the MMU is on only with a root; the
    size of RAM, the mapped devices and the ROM are those of the start. *)
Theorem machine_invariant b s :
  bus_wf b -> rtc machine_step (mkMachine cpu_init b) s -> machine_wf s /\ bus_like b (bus s).
Proof.
  intros Hb H. apply (machine_steps_inv b _ _ H). split; [by apply init_machine_wf|].
  by apply bus_like_refl.
Qed.


(** A step that fails changes no architectural state.  It fails only when
    an exception cannot be delivered; the exception stays recorded and the
    general and vector registers, flags, floating-point status, mode, wait state
    and privileged registers are those before the instruction. *)
Theorem failed_step_precise s s' :
  machine_wf s -> cpu_step s = (None, s') ->
  arch_same (cpu s) (cpu s') /\ exception_pending (cpu s') = true /\ bus_like (bus s) (bus s').
Proof.
  intros Hs E. destruct (halted (cpu s) || waiting (cpu s)) eqn:Eh.
  { unfold cpu_step, exec_bind, read_cpu, id in E. by rewrite Eh in E. }
  apply orb_false_iff in Eh as [Hh Hw]. rewrite (step_instruction s Hh Hw) in E.
  destruct (instruction_spec s Hs) as [HI Hf].
  assert (on_bus_inv (bus s) (instruction s).2) as [Hm Hb].
  { apply (HI (on_bus_inv (bus s)) _). split; [by apply begun_wf|].
    exact (bus_like_refl _ (mw_bus s Hs)). }
  destruct (instruction s) as [[u|] m]; [done|]. cbn [fst snd] in *.
  destruct (Hf eq_refl) as [Hpend Hsame].
  assert (arch_same (cpu s) (clamp_cause (cpu m))) as Hclamp
    by (etrans; [exact Hsame|apply clamp_cause_same]).
  assert (exception_pending (clamp_cause (cpu m)) = true) as Hpend'
    by (unfold clamp_cause; by destruct (_ || _)).
  destruct (deliver_spec m Hm) as (bus' & [Hb' _] & H). cbv zeta in H. rewrite E in H.
  destruct H as [->|(h & a & _ & _ & ->)]; cbn [cpu bus set_cpu]; [done|].
  unfold record_exception. rewrite Hpend'. split_and!; [done..|by eapply bus_like_trans].
Qed.

(** The machine whose router has had [line] taken from target [t]. *)
Definition line_taken (r : InterruptRouter) (t line : Z) s : Machine D :=
  let r' := set_targets (arr_set (targets r) t (Z.clearbit (arr_get (targets r) t) line)) r in
  set_bus (set_world (set_w_router (Some r') (bus_world (bus s))) (bus s)) s.

(** C38: accepting an interrupt.  With interrupts disabled, or with no line
    pending, a check changes nothing.  Otherwise exactly one line is taken from
    the pending word of the controller: the lowest inter-processor line, or the
    lowest external one if no inter-processor line is pending; every other line
    and the rest of the router stay.  If the vector table holds a usable handler
    for that line and the frame can be pushed, the CPU is in that handler with
    interrupts off and no longer waiting, and nothing else on the bus but RAM,
    where the frame went, has changed.  If there is no usable handler nothing
    else has changed; if the frame cannot be pushed a stack fault is recorded,
    and the CPU is otherwise the one interrupted. *)
Theorem interrupt_accepted s t r :
  machine_wf s -> w_router (bus_world (bus s)) = Some r ->
  let pending := arr_get (targets r) t in
  if negb (has_bits (flags (cpu s)) CPU_FLAG_INTERRUPT_ENABLE) || (pending =? 0)
  then cpu_check_interrupt (Some t) s = (Some tt, s)
  else exists line, line_selected pending line /\
    let taken := line_taken r t line s in
    let idx := CPU_VECTOR_INTERRUPT_BASE + line in
    match cpu_check_interrupt (Some t) s with
    | (Some _, s') => exists h ram, vector_entry taken idx h /\
        s' = mkMachine (handler_cpu h (cpu s)) (set_bus_ram ram (bus taken)) /\
        bus_like (bus s) (bus s') /\
        enter_privileged_handler h (pc (cpu s)) false taken = (Some tt, s')
    | (None, s') =>
        (forall h, ~ vector_entry taken idx h) /\ s' = taken \/
        exists h a ram, vector_entry taken idx h /\
          enter_privileged_handler h (pc (cpu s)) false taken = (None, s') /\
          s' = mkMachine (record_exception CPU_EXCEPTION_STACK_FAULT a
                 (Z.lor CPU_EINFO_BADADDR_VALID CPU_EINFO_ACCESS_WRITE) (cpu s))
                 (set_bus_ram ram (bus taken))
    end.
Proof.
  intros Hs Hr pending.
  assert (is_u64 pending) as Hpu.
  { apply target_u64. destruct (bw_world _ (mw_bus s Hs)) as (_ & Hq & _). exact (proj1 (Hq r Hr)). }
  pose proof (take_next_selected pending Hpu) as Hsel.
  unfold cpu_check_interrupt, exec_bind, read_cpu, id, on_bus, take_next.
  destruct (has_bits _ _) eqn:Ee; cbn [negb orb]; [|done]. rewrite Hr. fold pending.
  destruct (Z.eqb_spec pending 0) as [|Hne]; [rewrite Hsel; by destruct s|].
  destruct Hsel as (line & Hline & Et). exists line. split; [done|]. rewrite Et. cbv zeta.
  change (set_bus (set_world (set_w_router (Some (set_targets (arr_set (targets r) t
    (Z.clearbit pending line)) r)) (bus_world (bus s))) (bus s)) s) with (line_taken r t line s).
  assert (bus_like (bus s) (bus (line_taken r t line s))) as Hlike.
  { pose proof (take_next_keeps t (bus s) (bus s)
      (bus_like_refl _ (mw_bus s Hs))) as [H _]. unfold take_next in H.
    rewrite Hr in H. fold pending in H. by rewrite Et in H. }
  assert (machine_wf (line_taken r t line s)) as Ht by by apply (machine_wf_bus s).
  assert (0 <= CPU_VECTOR_INTERRUPT_BASE + line) as Hl
    by (destruct Hline as [Hline _]; unfold CPU_VECTOR_INTERRUPT_BASE; lia).
  set (taken := line_taken r t line s) in *. assert (cpu taken = cpu s) as Ecpu by done. clearbody taken.
  destruct (read_vector_spec taken (CPU_VECTOR_INTERRUPT_BASE + line) Hl) as ([h|] & Erv & Hv);
    rewrite Erv.
  - specialize (Hv h eq_refl). rewrite Ecpu.
    destruct (enter_spec h (pc (cpu s)) false taken Ht (vector_entry_u64 _ _ h Ht Hv)
      (cw_pc _ (mw_cpu _ Hs))) as (bus' & [Hb' [ram ->]] & H).
    destruct (enter_privileged_handler _ _ _ _) as [[[]|] s'] eqn:Een.
    + destruct H as [-> _]. rewrite Ecpu in Een. exists h, ram. rewrite Ecpu.
      split_and!; [done|done| |exact Een].
      by eapply bus_like_trans.
    + destruct H as (a & _ & ->). rewrite Ecpu in Een |- *. right. exists h, a, ram. done.
  - left. split; [|done]. intros h Hh. rewrite (vector_entry_read _ _ h Ht Hl Hh) in Erv. done.
Qed.
End run.

(** ** The properties on concrete machines *)

Definition bare_bus : Bus unit := bus_init (mkWorld (mkRAM ∅ 0) None tt).

Lemma bare_bus_wf : bus_wf bare_bus.
Proof. apply bus_init_wf. split; [by apply empty_ram_wf; vm_compute|done]. Qed.

Lemma machine_invariant_witness :
  machine_wf (cpu_step (mkMachine cpu_init bare_bus)).2.
Proof.
  exact (proj1 (machine_invariant bare_bus _ bare_bus_wf
    (rtc_once _ _ (ms_instruction (mkMachine cpu_init bare_bus))))).
Defined.



Lemma failed_step_precise_witness :
  exception_pending (cpu (cpu_step (mkMachine cpu_init bare_bus)).2) = true.
Proof.
  exact (proj1 (proj2 (failed_step_precise (mkMachine cpu_init bare_bus)
    (cpu_step (mkMachine cpu_init bare_bus)).2 (init_machine_wf bare_bus bare_bus_wf)
    ltac:(vm_compute; reflexivity)))).
Defined.

(** A machine whose controller 0 has line 5 pending. *)
Definition pending_router : InterruptRouter := mkRouter [0x20] (replicate 64 0) UINT64_MAX 0 0 false.
Definition demo_pending : Machine unit :=
  set_bus (set_world (set_w_router (Some pending_router) (bus_world (bus (demo_machine CPU_MODE_USER []))))
    (bus (demo_machine CPU_MODE_USER []))) (demo_machine CPU_MODE_USER []).

Lemma demo_pending_wf : machine_wf demo_pending.
Proof.
  assert (machine_wf (demo_machine CPU_MODE_USER [])) as Hs by by apply demo_machine_wf.
  apply machine_wf_bus; [done|]. apply world_step_like; [by apply bus_like_refl, mw_bus|].
  intros (Hr & Hq & Hd). split; [|done]. split_and!; [done| |done]. intros ? [= <-].
  eapply (router_init_inv [0x20]); [by apply Forall_singleton|done|done].
Qed.

Lemma interrupt_accepted_witness :
  exists h ram, pc (cpu (cpu_check_interrupt (Some 0) demo_pending).2) = 0x2500 /\
    (cpu_check_interrupt (Some 0) demo_pending).2 =
      mkMachine (handler_cpu h (cpu demo_pending))
        (set_bus_ram ram (bus (line_taken pending_router 0 5 demo_pending))).
Proof.
  pose proof (interrupt_accepted demo_pending 0 pending_router demo_pending_wf eq_refl) as H.
  cbv zeta in H.
  assert (negb (has_bits (flags (cpu demo_pending)) CPU_FLAG_INTERRUPT_ENABLE) ||
    (arr_get (targets pending_router) 0 =? 0) = false) as E1 by (vm_compute; reflexivity).
  assert (pc (cpu (cpu_check_interrupt (Some 0) demo_pending).2) = 0x2500) as E2
    by (vm_compute; reflexivity).
  assert ((cpu_check_interrupt (Some 0) demo_pending).1 = Some tt) as E3 by (vm_compute; reflexivity).
  rewrite E1 in H. destruct H as (line & (Hl & Hbit & _) & H).
  assert (line = 5) as ->.
  { change (arr_get (targets pending_router) 0) with (2 ^ 5) in Hbit.
    rewrite Z.pow2_bits_eqb in Hbit by lia. apply Z.eqb_eq in Hbit. lia. }
  destruct (cpu_check_interrupt (Some 0) demo_pending) as [[u|] s']; [|discriminate E3].
  destruct H as (h & ram & _ & H & _). exists h, ram. split; [exact E2|exact H].
Defined.
