(* ===== verification/Vm.v ===== *)
(** The virtual machine: src/vm.c.

    The cores and their hardware threads live in the device contexts of the bus
    (class [VmSlot]), because the control devices reach them from inside a bus
    access.  A hardware thread's interrupt controller is the word of the router
    at its logical index.  While a core executes an instruction of a thread, the
    CPU is that of the [Machine]; it is stored back when the instruction ends.

    The functions are translated as they run without interference; VmRace has
    the interleavings of their atomic accesses.  A worker is the relation that
    repeats [core_worker_round]; creating and joining host threads are not
    modelled beyond the outcome they report. *)

From S2P Require Import Prelude Ram Mmu Interrupt Bus Isa CpuCore CpuExec CpuVector Cpu.
From stdpp Require Import base list numbers option relations.
From Stdlib Require Import ZArith Lia Bool.

#[local] Open Scope Z_scope.
#[local] Open Scope exec_scope.

Definition VM_MAX_CORES : Z := 64.
Definition VM_MAX_THREADS_PER_CORE : Z := 8.

Inductive HardwareThreadState :=
  | HARDWARE_THREAD_OFFLINE
  | HARDWARE_THREAD_STARTING
  | HARDWARE_THREAD_RUNNABLE
  | HARDWARE_THREAD_HALTED
  | HARDWARE_THREAD_WAITING.

#[export] Instance HardwareThreadState_eq_dec : EqDecision HardwareThreadState.
Proof. solve_decision. Defined.

Inductive VmSystemAction :=
  | VM_SYSTEM_ACTION_NONE
  | VM_SYSTEM_ACTION_SHUTDOWN
  | VM_SYSTEM_ACTION_WARM_RESET.

#[export] Instance VmSystemAction_eq_dec : EqDecision VmSystemAction.
Proof. solve_decision. Defined.

Record HardwareThread := mkThread {
  thread_cpu : CPU;
  thread_state : HardwareThreadState;
  thread_stop : bool;
}.

Definition set_thread_cpu v t := mkThread v (thread_state t) (thread_stop t).
Definition set_thread_state v t := mkThread (thread_cpu t) v (thread_stop t).
Definition set_thread_stop v t := mkThread (thread_cpu t) (thread_state t) v.

Record Core := mkCore {
  core_threads : list HardwareThread;
  next_thread : Z;
}.

Definition set_core_threads v c := mkCore v (next_thread c).
Definition set_next_thread v c := mkCore (core_threads c) v.
Definition thread_count (c : Core) : Z := Z.of_nat (length (core_threads c)).

Record VirtualMachine := mkVm {
  cores : list Core;
  threads_per_core : Z;
  logical_processor_count : Z;
  active_thread_count : Z;
  stop_requested : bool;
  failed : bool;
  system_action : VmSystemAction;
  reset_vector : Z;
}.

Definition core_count (v : VirtualMachine) : Z := Z.of_nat (length (cores v)).

Definition set_cores x v := mkVm x (threads_per_core v) (logical_processor_count v) (active_thread_count v)
  (stop_requested v) (failed v) (system_action v) (reset_vector v).
Definition set_active_thread_count x v := mkVm (cores v) (threads_per_core v) (logical_processor_count v) x
  (stop_requested v) (failed v) (system_action v) (reset_vector v).
Definition set_stop_requested x v := mkVm (cores v) (threads_per_core v) (logical_processor_count v)
  (active_thread_count v) x (failed v) (system_action v) (reset_vector v).
Definition set_failed x v := mkVm (cores v) (threads_per_core v) (logical_processor_count v)
  (active_thread_count v) (stop_requested v) x (system_action v) (reset_vector v).
Definition set_system_action x v := mkVm (cores v) (threads_per_core v) (logical_processor_count v)
  (active_thread_count v) (stop_requested v) (failed v) x (reset_vector v).
Definition set_reset_vector x v := mkVm (cores v) (threads_per_core v) (logical_processor_count v)
  (active_thread_count v) (stop_requested v) (failed v) (system_action v) x.

(** [&vm->cores[c].threads[t]] *)
Definition thread_at (v : VirtualMachine) (c t : Z) : option HardwareThread :=
  cores v !! Z.to_nat c ≫= fun core => core_threads core !! Z.to_nat t.

Definition update_core (c : Z) (f : Core -> Core) (v : VirtualMachine) : VirtualMachine :=
  set_cores (alter f (Z.to_nat c) (cores v)) v.

Definition update_thread (c t : Z) (f : HardwareThread -> HardwareThread) (v : VirtualMachine) : VirtualMachine :=
  update_core c (fun core => set_core_threads (alter f (Z.to_nat t) (core_threads core)) core) v.

Definition vm_hardware_thread (v : VirtualMachine) (core_id thread_id : Z) : option HardwareThread :=
  if (core_count v <=? core_id) || (threads_per_core v <=? thread_id) then None
  else thread_at v core_id thread_id.

(** [state == RUNNABLE || state == WAITING] *)
Definition running (s : HardwareThreadState) : bool :=
  bool_decide (s = HARDWARE_THREAD_RUNNABLE) || bool_decide (s = HARDWARE_THREAD_WAITING).

(** ** Operations on the structure *)

Definition finish_hardware_thread (c t : Z) (v : VirtualMachine) : VirtualMachine :=
  match thread_at v c t with
  | Some thread =>
      if negb (running (thread_state thread)) then v
      else
        let v := update_thread c t (fun th =>
          mkThread (set_halted true (set_waiting false (thread_cpu th))) HARDWARE_THREAD_HALTED false) v in
        let previous := active_thread_count v in
        let v := set_active_thread_count (wrap64 (previous - 1)) v in
        if previous =? 1 then set_stop_requested true v else v
  | None => v
  end.

(** The loop of [select_hardware_thread]: the index of the selected thread. *)
Fixpoint select_loop (checks : nat) (core : Core) : option Z * Core :=
  match checks with
  | O => (None, core)
  | S checks =>
      let index := next_thread core in
      let core := set_next_thread ((index + 1) mod thread_count core) core in
      match core_threads core !! Z.to_nat index with
      | Some thread =>
          if bool_decide (thread_state thread = HARDWARE_THREAD_RUNNABLE) then (Some index, core)
          else select_loop checks core
      | None => select_loop checks core
      end
  end.

Definition select_hardware_thread (core : Core) : option Z * Core :=
  select_loop (length (core_threads core)) core.

Definition vm_request_system_action (action : VmSystemAction) (v : VirtualMachine) : bool * VirtualMachine :=
  match action with
  | VM_SYSTEM_ACTION_NONE => (false, v)
  | _ =>
      if bool_decide (system_action v = VM_SYSTEM_ACTION_NONE)
      then (true, set_stop_requested true (set_system_action action v))
      else (false, v)
  end.

Definition vm_system_action (v : VirtualMachine) : VmSystemAction := system_action v.

Definition vm_request_hardware_thread_stop (core_id thread_id : Z) (v : VirtualMachine) : bool * VirtualMachine :=
  match vm_hardware_thread v core_id thread_id with
  | None => (false, v)
  | Some thread =>
      if negb (running (thread_state thread)) then (false, v)
      else (true, update_thread core_id thread_id (set_thread_stop true) v)
  end.

Definition vm_failure (v : VirtualMachine) : VirtualMachine := set_stop_requested true (set_failed true v).

(** ** The machine in the device contexts *)

Class VmSlot (D : Type) := {
  get_vm : D -> VirtualMachine;
  put_vm : VirtualMachine -> D -> D
}.

Section vm.
Context {D : Type} {VS : VmSlot D} `{HN : HostNan}.

Definition world_vm (w : World D) : VirtualMachine := get_vm (w_dev w).
Definition update_vm (f : VirtualMachine -> VirtualMachine) (w : World D) : World D :=
  set_w_dev (put_vm (f (world_vm w)) (w_dev w)) w.

Definition bus_vm (b : Bus D) : VirtualMachine := world_vm (bus_world b).
Definition update_bus_vm (f : VirtualMachine -> VirtualMachine) (b : Bus D) : Bus D :=
  set_world (update_vm f (bus_world b)) b.

(** [vm->interrupt_targets[...]]: thread [t] of core [c]. *)
Definition logical_index (v : VirtualMachine) (c t : Z) : Z := c * threads_per_core v + t.

(** [interrupt_controller_init(&thread->interrupts)] *)
Definition clear_controller (index : Z) (w : World D) : World D :=
  match w_router w with
  | Some r => set_w_router (Some (set_targets (arr_set (targets r) index interrupt_controller_init) r)) w
  | None => w
  end.

(** [rom] is the ROM of the bus, where [bus_fetch] looks beside RAM. *)
Definition vm_fetch (rom : BusRomMapping) (address : Z) (w : World D) : option Z :=
  bus_fetch (mkBus w [] rom 0) address 1.

(** A freshly initialised CPU that keeps its identity. *)
Definition fresh_cpu (entry : Z) (c : CPU) : CPU :=
  set_pc entry (set_thread_id (thread_id c) (set_core_id (core_id c) cpu_init)).

Definition vm_activate_hardware_thread (rom : BusRomMapping) (core_id thread_id entry_address : Z)
    (w : World D) : bool * World D :=
  let v := world_vm w in
  match vm_hardware_thread v core_id thread_id with
  | None => (false, w)
  | Some thread =>
      match vm_fetch rom entry_address w with
      | None => (false, w)
      | Some _ =>
          if stop_requested v then (false, w)
          else if negb (bool_decide (thread_state thread = HARDWARE_THREAD_OFFLINE)) then (false, w)
          else
            let w := update_vm (update_thread core_id thread_id (fun th =>
              mkThread (fresh_cpu entry_address (thread_cpu th)) HARDWARE_THREAD_STARTING false)) w in
            let w := clear_controller (logical_index v core_id thread_id) w in
            let w := update_vm (fun v => set_active_thread_count (wrap64 (active_thread_count v + 1)) v) w in
            (true, update_vm (update_thread core_id thread_id (set_thread_state HARDWARE_THREAD_RUNNABLE)) w)
      end
  end.

Definition vm_reset_hardware_thread (core_id thread_id : Z) (w : World D) : bool * World D :=
  let v := world_vm w in
  match vm_hardware_thread v core_id thread_id with
  | None => (false, w)
  | Some thread =>
      if negb (bool_decide (thread_state thread = HARDWARE_THREAD_OFFLINE)) &&
         negb (bool_decide (thread_state thread = HARDWARE_THREAD_HALTED)) then (false, w)
      else
        let w := update_vm (update_thread core_id thread_id (fun th =>
          mkThread (fresh_cpu 0 (thread_cpu th)) HARDWARE_THREAD_STARTING false)) w in
        let w := clear_controller (logical_index v core_id thread_id) w in
        (true, update_vm (update_thread core_id thread_id (set_thread_state HARDWARE_THREAD_OFFLINE)) w)
  end.

Definition vm_raise_hardware_thread_interrupt (core_id thread_id line : Z) (w : World D) : bool * World D :=
  let v := world_vm w in
  match vm_hardware_thread v core_id thread_id with
  | None => (false, w)
  | Some thread =>
      if (line <? INTERRUPT_IPI_LINE_BASE) || (INTERRUPT_LINE_COUNT <=? line) then (false, w)
      else if negb (running (thread_state thread)) then (false, w)
      else
        match w_router w with
        | None => (false, w)
        | Some r =>
            let index := logical_index v core_id thread_id in
            match interrupt_controller_raise (arr_get (targets r) index) line with
            | Some p => (true, set_w_router (Some (set_targets (arr_set (targets r) index p) r)) w)
            | None => (false, w)
            end
        end
  end.

Definition vm_route_interrupt (line logical_processor : Z) (w : World D) : bool * World D :=
  match w_router w with
  | None => (false, w)
  | Some r =>
      let '(ok, r) := interrupt_router_set_route r line logical_processor in (ok, set_w_router (Some r) w)
  end.

(** Run [m] on the CPU of a thread. *)
Definition on_thread {A} (c t : Z) (m : Exec (Machine D) A) : Exec (Bus D) A := fun b =>
  match thread_at (bus_vm b) c t with
  | None => (None, b)
  | Some thread =>
      let '(r, s) := m (mkMachine (thread_cpu thread) b) in
      (r, update_bus_vm (update_thread c t (set_thread_cpu (cpu s))) (bus s))
  end.

Definition vm_set_vector_base (logical_processor address : Z) : Exec (Bus D) unit := fun b =>
  let v := bus_vm b in
  if logical_processor_count v <=? logical_processor then (None, b)
  else
    let core_id := logical_processor / threads_per_core v in
    let thread_id := logical_processor mod threads_per_core v in
    match vm_hardware_thread v core_id thread_id with
    | None => (None, b)
    | Some _ => on_thread core_id thread_id (cpu_set_vector_base address) b
    end.

Definition vm_set_reset_vector (vector : Z) (b : Bus D) : bool * Bus D :=
  match bus_fetch b vector 1 with
  | None => (false, b)
  | Some _ =>
      let b := update_bus_vm (set_reset_vector vector) b in
      (true,
       match vm_hardware_thread (bus_vm b) 0 0 with
       | Some thread =>
           if bool_decide (thread_state thread = HARDWARE_THREAD_RUNNABLE)
           then update_bus_vm (update_thread 0 0 (fun th => set_thread_cpu (set_pc vector (thread_cpu th)) th)) b
           else b
       | None => b
       end)
  end.

(** ** Workers *)

(** One pass of the loop of [service_waiting_hardware_threads] over thread [t];
    [None] when the interrupt check failed. *)
Definition service_thread (c t : Z) (serviced : bool) : Exec (Bus D) bool := fun b =>
  match thread_at (bus_vm b) c t with
  | None => (Some serviced, b)
  | Some thread =>
      if negb (bool_decide (thread_state thread = HARDWARE_THREAD_WAITING)) then (Some serviced, b)
      else if thread_stop thread then
        (Some true, update_bus_vm (fun v => finish_hardware_thread c t (update_thread c t (set_thread_stop false) v)) b)
      else
        match on_thread c t (cpu_check_interrupt (Some (logical_index (bus_vm b) c t))) b with
        | (None, b) => (None, b)
        | (Some _, b) =>
            match thread_at (bus_vm b) c t with
            | Some thread =>
                if negb (waiting (thread_cpu thread)) &&
                   bool_decide (thread_state thread = HARDWARE_THREAD_WAITING)
                then (Some true, update_bus_vm (update_thread c t (set_thread_state HARDWARE_THREAD_RUNNABLE)) b)
                else (Some serviced, b)
            | None => (Some serviced, b)
            end
        end
  end.

Fixpoint service_loop (c : Z) (indices : list Z) (serviced : bool) : Exec (Bus D) bool :=
  match indices with
  | [] => mret serviced
  | t :: indices => serviced ← service_thread c t serviced; service_loop c indices serviced
  end.

Definition service_waiting_hardware_threads (c : Z) : Exec (Bus D) bool := fun b =>
  match cores (bus_vm b) !! Z.to_nat c with
  | Some core => service_loop c (seqZ 0 (thread_count core)) false b
  | None => (Some false, b)
  end.

(** After the instruction and the interrupt check of thread [t]. *)
Definition settle_thread (c t : Z) (v : VirtualMachine) : VirtualMachine :=
  match thread_at v c t with
  | None => v
  | Some thread =>
      if halted (thread_cpu thread) then finish_hardware_thread c t v
      else if thread_stop thread then finish_hardware_thread c t (update_thread c t (set_thread_stop false) v)
      else if waiting (thread_cpu thread) && bool_decide (thread_state thread = HARDWARE_THREAD_RUNNABLE)
      then update_thread c t (set_thread_state HARDWARE_THREAD_WAITING) v
      else v
  end.

(** The selected thread's turn. *)
Definition thread_turn (c t : Z) : Exec (Bus D) unit := fun b =>
  match thread_at (bus_vm b) c t with
  | None => (Some tt, b)
  | Some thread =>
      if thread_stop thread then
        (Some tt, update_bus_vm (fun v => finish_hardware_thread c t (update_thread c t (set_thread_stop false) v)) b)
      else
        let instruction :=
          cpu_step;;
          stopped ← read_cpu halted;
          if stopped : bool then mret tt else cpu_check_interrupt (Some (logical_index (bus_vm b) c t)) in
        match on_thread c t instruction b with
        | (None, b) => (None, b)
        | (Some _, b) => (Some tt, update_bus_vm (settle_thread c t) b)
        end
  end.

Inductive WorkerOutcome := WorkerContinues | WorkerExits (result : bool).

(** One pass of the loop of [core_worker] of core [c]. *)
Definition core_worker_round (c : Z) (b : Bus D) : WorkerOutcome * Bus D :=
  if stop_requested (bus_vm b) then (WorkerExits (negb (failed (bus_vm b))), b)
  else
    match service_waiting_hardware_threads c b with
    | (None, b) => (WorkerExits false, update_bus_vm vm_failure b)
    | (Some _, b) =>
        match cores (bus_vm b) !! Z.to_nat c with
        | None => (WorkerContinues, b)
        | Some core =>
            let '(selected, core) := select_hardware_thread core in
            let b := update_bus_vm (update_core c (fun _ => core)) b in
            match selected with
            | None => (WorkerContinues, b)
            | Some t =>
                match thread_turn c t b with
                | (None, b) => (WorkerExits false, update_bus_vm vm_failure b)
                | (Some _, b) => (WorkerContinues, b)
                end
            end
        end
    end.

(** One pass of the loop of [device_worker]; [elapsed] is what the host clock
    advanced, [waited] whether the poll timer worked. *)
Definition device_worker_round (elapsed : Z) (waited : bool) (b : Bus D) : WorkerOutcome * Bus D :=
  if stop_requested (bus_vm b) then (WorkerExits true, b)
  else
    let b := if 0 <? elapsed then bus_tick b elapsed else b in
    if waited then (WorkerContinues, b) else (WorkerExits false, update_bus_vm vm_failure b).

(** ** Initialisation and runs *)

Definition init_thread (c t : Z) : HardwareThread :=
  mkThread (set_thread_id t (set_core_id c cpu_init)) HARDWARE_THREAD_OFFLINE false.

Definition init_core (threads c : Z) : Core := mkCore (init_thread c <$> seqZ 0 threads) 0.

Definition vm_init (cores_wanted threads_wanted : Z) (w : World D) : bool * World D :=
  if (cores_wanted =? 0) || (VM_MAX_CORES <? cores_wanted) || (threads_wanted =? 0) ||
     (VM_MAX_THREADS_PER_CORE <? threads_wanted) || (SIZE_MAX / threads_wanted <? cores_wanted)
  then (false, w)
  else
    let logical_processors := cores_wanted * threads_wanted in
    let v := mkVm (init_core threads_wanted <$> seqZ 0 cores_wanted) threads_wanted logical_processors
               1 false false VM_SYSTEM_ACTION_NONE 0 in
    let v := update_thread 0 0 (set_thread_state HARDWARE_THREAD_RUNNABLE) v in
    match interrupt_router_init (replicate (Z.to_nat logical_processors) interrupt_controller_init) with
    | None => (false, w)
    | Some r => (true, set_w_router (Some r) (update_vm (fun _ => v) w))
    end.

(** [prepare_warm_reset]: the devices, then every thread of every core. *)
Definition reset_threads (v : VirtualMachine) : VirtualMachine :=
  set_cores (imap (fun c core =>
    mkCore (imap (fun t _ => init_thread (Z.of_nat c) (Z.of_nat t)) (core_threads core)) 0) (cores v)) v.

Definition reset_controllers (v : VirtualMachine) (w : World D) : World D :=
  foldl (fun w index => clear_controller index w) w
    (seqZ 0 (core_count v) ≫= fun c => logical_index v c <$> seqZ 0 (threads_per_core v)).

Definition prepare_warm_reset (b : Bus D) : Bus D :=
  let b := bus_reset b in
  let b := set_world (reset_controllers (bus_vm b) (bus_world b)) b in
  update_bus_vm (fun v =>
    let v := reset_threads v in
    let v := update_thread 0 0 (fun th =>
      mkThread (set_pc (reset_vector v) (thread_cpu th)) HARDWARE_THREAD_RUNNABLE (thread_stop th)) v in
    set_failed false (set_stop_requested false
      (set_system_action VM_SYSTEM_ACTION_NONE (set_active_thread_count 1 v)))) b.

(** One whole round of a worker, run without interference from the others: the
    schedules of this relation are serial, rounds of the workers one after
    another in any order.  The workers share no lock over a round; the
    interleavings of their single atomic accesses to the shared counters and
    states are those of [race_step] in VmRace.v. *)
Inductive worker_step : Bus D -> Bus D -> Prop :=
| ws_core c b : 0 <= c < core_count (bus_vm b) -> worker_step b (core_worker_round c b).2
| ws_device elapsed waited b : is_u64 elapsed -> worker_step b (device_worker_round elapsed waited b).2.

(** [run_workers]: the flags are cleared, the workers run until one of them has
    set [stop_requested], and [failed] decides the result; creating or joining
    a host thread can fail. *)
Definition clear_flags : Bus D -> Bus D := update_bus_vm (fun v => set_failed false (set_stop_requested false v)).

Inductive run_workers : Bus D -> bool -> Bus D -> Prop :=
| rw_no_device b : run_workers b false (clear_flags b)
| rw_stopped b b' : rtc worker_step (clear_flags b) b' -> stop_requested (bus_vm b') = true ->
    run_workers b (negb (failed (bus_vm b'))) b'
| rw_host_failed b b' : rtc worker_step (clear_flags b) b' -> run_workers b false (update_bus_vm vm_failure b').

(** [vm_run]: rounds of [run_workers] with a warm reset between them. *)
Inductive vm_run_loop : Bus D -> bool -> Bus D -> Prop :=
| vr_failed b b' : run_workers b false b' -> vm_run_loop b false b'
| vr_done b b' : run_workers b true b' ->
    vm_system_action (bus_vm b') <> VM_SYSTEM_ACTION_WARM_RESET -> vm_run_loop b true b'
| vr_reset b b1 r b' : run_workers b true b1 ->
    vm_system_action (bus_vm b1) = VM_SYSTEM_ACTION_WARM_RESET ->
    vm_run_loop (prepare_warm_reset b1) r b' -> vm_run_loop b r b'.

Definition vm_run (b : Bus D) (r : bool) (b' : Bus D) : Prop :=
  if (core_count (bus_vm b) =? 0) || (active_thread_count (bus_vm b) =? 0) ||
     negb (bool_decide (vm_system_action (bus_vm b) = VM_SYSTEM_ACTION_NONE))
  then r = false /\ b' = b
  else vm_run_loop b r b'.

End vm.
