(* ===== verification/VmDevices.v ===== *)
(** The devices that control the virtual machine: src/core_control.c,
    src/system_control.c and src/system_info.c. *)

From S2P Require Import Prelude Ram Mmu Interrupt Bus Isa CpuCore CpuExec CpuVector Cpu Vm.
From stdpp Require Import base list numbers option.
From Stdlib Require Import ZArith Lia Bool.

#[local] Open Scope Z_scope.

(** ** Core control *)

Definition CORE_CONTROL_TARGET_CORE_OFFSET : Z := 0.
Definition CORE_CONTROL_TARGET_THREAD_OFFSET : Z := 8.
Definition CORE_CONTROL_ENTRY_PC_OFFSET : Z := 16.
Definition CORE_CONTROL_COMMAND_OFFSET : Z := 24.
Definition CORE_CONTROL_STATUS_OFFSET : Z := 32.
Definition CORE_CONTROL_RESULT_OFFSET : Z := 40.
Definition CORE_CONTROL_IPI_LINE_OFFSET : Z := 48.

Definition CORE_CONTROL_COMMAND_NONE : Z := 0.
Definition CORE_CONTROL_COMMAND_START : Z := 1.
Definition CORE_CONTROL_COMMAND_STOP : Z := 2.
Definition CORE_CONTROL_COMMAND_RESET : Z := 3.
Definition CORE_CONTROL_COMMAND_IPI : Z := 4.

Definition CORE_CONTROL_STATUS_OFFLINE : Z := 0.
Definition CORE_CONTROL_STATUS_STARTING : Z := 1.
Definition CORE_CONTROL_STATUS_RUNNABLE : Z := 2.
Definition CORE_CONTROL_STATUS_HALTED : Z := 3.
Definition CORE_CONTROL_STATUS_WAITING : Z := 4.
Definition CORE_CONTROL_STATUS_INVALID : Z := UINT64_MAX.

Definition CORE_CONTROL_RESULT_NONE : Z := 0.
Definition CORE_CONTROL_RESULT_SUCCESS : Z := 1.
Definition CORE_CONTROL_RESULT_INVALID_TARGET : Z := 2.
Definition CORE_CONTROL_RESULT_INVALID_ENTRY : Z := 3.
Definition CORE_CONTROL_RESULT_INVALID_STATE : Z := 4.
Definition CORE_CONTROL_RESULT_INVALID_COMMAND : Z := 5.
Definition CORE_CONTROL_RESULT_INVALID_INTERRUPT : Z := 6.

Record CoreControlDevice := mkCoreControl {
  target_core : Z;
  target_thread : Z;
  entry_pc : Z;
  ipi_line : Z;
  core_last_command : Z;
  core_last_result : Z;
}.

Definition core_control_device_init : CoreControlDevice := mkCoreControl 0 0 0 0 0 0.

Definition set_target_core x d := mkCoreControl x (target_thread d) (entry_pc d) (ipi_line d) (core_last_command d) (core_last_result d).
Definition set_target_thread x d := mkCoreControl (target_core d) x (entry_pc d) (ipi_line d) (core_last_command d) (core_last_result d).
Definition set_entry_pc x d := mkCoreControl (target_core d) (target_thread d) x (ipi_line d) (core_last_command d) (core_last_result d).
Definition set_ipi_line x d := mkCoreControl (target_core d) (target_thread d) (entry_pc d) x (core_last_command d) (core_last_result d).
Definition set_core_command x d := mkCoreControl (target_core d) (target_thread d) (entry_pc d) (ipi_line d) x (core_last_result d).
Definition set_core_result x d := mkCoreControl (target_core d) (target_thread d) (entry_pc d) (ipi_line d) (core_last_command d) x.

Definition selected_thread (d : CoreControlDevice) (v : VirtualMachine) : option HardwareThread :=
  if (SIZE_MAX <? target_core d) || (SIZE_MAX <? target_thread d) then None
  else vm_hardware_thread v (target_core d) (target_thread d).

Definition selected_status (d : CoreControlDevice) (v : VirtualMachine) : Z :=
  match selected_thread d v with
  | None => CORE_CONTROL_STATUS_INVALID
  | Some thread =>
      match thread_state thread with
      | HARDWARE_THREAD_OFFLINE => CORE_CONTROL_STATUS_OFFLINE
      | HARDWARE_THREAD_STARTING => CORE_CONTROL_STATUS_STARTING
      | HARDWARE_THREAD_RUNNABLE => CORE_CONTROL_STATUS_RUNNABLE
      | HARDWARE_THREAD_HALTED => CORE_CONTROL_STATUS_HALTED
      | HARDWARE_THREAD_WAITING => CORE_CONTROL_STATUS_WAITING
      end
  end.

Definition core_control_read (d : CoreControlDevice) (v : VirtualMachine) (offset width : Z) : option Z :=
  if negb (width =? 8) then None
  else if offset =? CORE_CONTROL_TARGET_CORE_OFFSET then Some (target_core d)
  else if offset =? CORE_CONTROL_TARGET_THREAD_OFFSET then Some (target_thread d)
  else if offset =? CORE_CONTROL_ENTRY_PC_OFFSET then Some (entry_pc d)
  else if offset =? CORE_CONTROL_COMMAND_OFFSET then Some (core_last_command d)
  else if offset =? CORE_CONTROL_STATUS_OFFSET then Some (selected_status d v)
  else if offset =? CORE_CONTROL_RESULT_OFFSET then Some (core_last_result d)
  else if offset =? CORE_CONTROL_IPI_LINE_OFFSET then Some (ipi_line d)
  else None.

Class CoreControlSlot (D : Type) := {
  get_core_control : D -> CoreControlDevice;
  put_core_control : CoreControlDevice -> D -> D
}.

Section core_control.
Context {D : Type} {VS : VmSlot D} {CS : CoreControlSlot D}.
Implicit Types (w : World D).

Definition world_core_control w : CoreControlDevice := get_core_control (w_dev w).
Definition update_core_control (f : CoreControlDevice -> CoreControlDevice) w : World D :=
  set_w_dev (put_core_control (f (world_core_control w)) (w_dev w)) w.

(** [device->last_result = f(...) ? SUCCESS : INVALID_STATE] *)
Definition report_state (outcome : bool * World D) : World D :=
  let '(ok, w) := outcome in
  update_core_control
    (set_core_result (if ok then CORE_CONTROL_RESULT_SUCCESS else CORE_CONTROL_RESULT_INVALID_STATE)) w.

Definition core_execute_command (rom : BusRomMapping) (command : Z) (w : World D) : World D :=
  let thread := selected_thread (world_core_control w) (world_vm w) in
  let w := update_core_control (set_core_command command) w in
  let d := world_core_control w in
  if command =? CORE_CONTROL_COMMAND_NONE then update_core_control (set_core_result CORE_CONTROL_RESULT_NONE) w
  else
    match thread with
    | None => update_core_control (set_core_result CORE_CONTROL_RESULT_INVALID_TARGET) w
    | Some _ =>
        let core_id := target_core d in
        let thread_id := target_thread d in
        if command =? CORE_CONTROL_COMMAND_START then
          match vm_fetch rom (entry_pc d) w with
          | None => update_core_control (set_core_result CORE_CONTROL_RESULT_INVALID_ENTRY) w
          | Some _ => report_state (vm_activate_hardware_thread rom core_id thread_id (entry_pc d) w)
          end
        else if command =? CORE_CONTROL_COMMAND_STOP then
          let '(ok, v) := vm_request_hardware_thread_stop core_id thread_id (world_vm w) in
          report_state (ok, update_vm (fun _ => v) w)
        else if command =? CORE_CONTROL_COMMAND_RESET then
          report_state (vm_reset_hardware_thread core_id thread_id w)
        else if command =? CORE_CONTROL_COMMAND_IPI then
          if (ipi_line d <? INTERRUPT_IPI_LINE_BASE) || (INTERRUPT_LINE_COUNT <=? ipi_line d)
          then update_core_control (set_core_result CORE_CONTROL_RESULT_INVALID_INTERRUPT) w
          else report_state (vm_raise_hardware_thread_interrupt core_id thread_id (ipi_line d) w)
        else update_core_control (set_core_result CORE_CONTROL_RESULT_INVALID_COMMAND) w
    end.

Definition core_control_write (rom : BusRomMapping) (w : World D) (offset width value : Z) : bool * World D :=
  if negb (width =? 8) then (false, w)
  else if offset =? CORE_CONTROL_TARGET_CORE_OFFSET then (true, update_core_control (set_target_core value) w)
  else if offset =? CORE_CONTROL_TARGET_THREAD_OFFSET then (true, update_core_control (set_target_thread value) w)
  else if offset =? CORE_CONTROL_ENTRY_PC_OFFSET then (true, update_core_control (set_entry_pc value) w)
  else if offset =? CORE_CONTROL_IPI_LINE_OFFSET then (true, update_core_control (set_ipi_line value) w)
  else if offset =? CORE_CONTROL_COMMAND_OFFSET then (true, core_execute_command rom value w)
  else (false, w).

Definition core_control_reset (w : World D) : World D := update_core_control (fun _ => core_control_device_init) w.

Definition core_control_device_as_bus_device (rom : BusRomMapping) : BusDevice D := {|
  dev_read := Some (fun w offset width =>
    (core_control_read (world_core_control w) (world_vm w) offset width, w));
  dev_write := Some (core_control_write rom);
  dev_tick := None;
  dev_reset := Some core_control_reset
|}.

End core_control.

(** ** System control *)

Definition SYSTEM_CONTROL_MAGIC : Z := 0x4C525443.
Definition SYSTEM_CONTROL_VERSION : Z := 1.

Definition SYSTEM_CONTROL_MAGIC_OFFSET : Z := 0x00.
Definition SYSTEM_CONTROL_VERSION_OFFSET : Z := 0x08.
Definition SYSTEM_CONTROL_FEATURES_OFFSET : Z := 0x10.
Definition SYSTEM_CONTROL_COMMAND_OFFSET : Z := 0x18.
Definition SYSTEM_CONTROL_STATUS_OFFSET : Z := 0x20.
Definition SYSTEM_CONTROL_RESULT_OFFSET : Z := 0x28.
Definition SYSTEM_CONTROL_RESET_CAUSE_OFFSET : Z := 0x30.
Definition SYSTEM_CONTROL_RESET_COUNT_OFFSET : Z := 0x38.

Definition SYSTEM_CONTROL_FEATURE_SHUTDOWN : Z := Z.shiftl 1 0.
Definition SYSTEM_CONTROL_FEATURE_WARM_RESET : Z := Z.shiftl 1 1.

Definition SYSTEM_CONTROL_COMMAND_NONE : Z := 0.
Definition SYSTEM_CONTROL_COMMAND_SHUTDOWN : Z := 1.
Definition SYSTEM_CONTROL_COMMAND_WARM_RESET : Z := 2.

Definition SYSTEM_CONTROL_STATUS_RUNNING : Z := 0.
Definition SYSTEM_CONTROL_STATUS_SHUTDOWN_PENDING : Z := 1.
Definition SYSTEM_CONTROL_STATUS_RESET_PENDING : Z := 2.

Definition SYSTEM_CONTROL_RESULT_NONE : Z := 0.
Definition SYSTEM_CONTROL_RESULT_ACCEPTED : Z := 1.
Definition SYSTEM_CONTROL_RESULT_BUSY : Z := 2.
Definition SYSTEM_CONTROL_RESULT_INVALID_COMMAND : Z := 3.

Definition SYSTEM_CONTROL_RESET_CAUSE_POWER_ON : Z := 0.
Definition SYSTEM_CONTROL_RESET_CAUSE_SOFTWARE : Z := 1.

Record SystemControlDevice := mkSystemControl {
  system_last_command : Z;
  system_status : Z;
  system_last_result : Z;
  reset_cause : Z;
  reset_count : Z;
  warm_reset_pending : bool;
}.

Definition system_control_device_init : SystemControlDevice :=
  mkSystemControl 0 0 0 SYSTEM_CONTROL_RESET_CAUSE_POWER_ON 0 false.

(** The device and the machine it commands. *)
Definition system_execute_command (command : Z) (d : SystemControlDevice) (v : VirtualMachine) :
    SystemControlDevice * VirtualMachine :=
  let '(mkSystemControl _ status result cause count pending) := d in
  if command =? SYSTEM_CONTROL_COMMAND_NONE then
    (mkSystemControl command status SYSTEM_CONTROL_RESULT_NONE cause count pending, v)
  else if command =? SYSTEM_CONTROL_COMMAND_SHUTDOWN then
    match vm_request_system_action VM_SYSTEM_ACTION_SHUTDOWN v with
    | (true, v) => (mkSystemControl command SYSTEM_CONTROL_STATUS_SHUTDOWN_PENDING
                      SYSTEM_CONTROL_RESULT_ACCEPTED cause count pending, v)
    | (false, v) => (mkSystemControl command status SYSTEM_CONTROL_RESULT_BUSY cause count pending, v)
    end
  else if command =? SYSTEM_CONTROL_COMMAND_WARM_RESET then
    match vm_request_system_action VM_SYSTEM_ACTION_WARM_RESET v with
    | (true, v) => (mkSystemControl command SYSTEM_CONTROL_STATUS_RESET_PENDING
                      SYSTEM_CONTROL_RESULT_ACCEPTED cause count true, v)
    | (false, v) => (mkSystemControl command status SYSTEM_CONTROL_RESULT_BUSY cause count pending, v)
    end
  else (mkSystemControl command status SYSTEM_CONTROL_RESULT_INVALID_COMMAND cause count pending, v).

Definition system_control_read (d : SystemControlDevice) (offset width : Z) : option Z :=
  if negb (width =? 8) then None
  else if offset =? SYSTEM_CONTROL_MAGIC_OFFSET then Some SYSTEM_CONTROL_MAGIC
  else if offset =? SYSTEM_CONTROL_VERSION_OFFSET then Some SYSTEM_CONTROL_VERSION
  else if offset =? SYSTEM_CONTROL_FEATURES_OFFSET then
    Some (Z.lor SYSTEM_CONTROL_FEATURE_SHUTDOWN SYSTEM_CONTROL_FEATURE_WARM_RESET)
  else if offset =? SYSTEM_CONTROL_COMMAND_OFFSET then Some (system_last_command d)
  else if offset =? SYSTEM_CONTROL_STATUS_OFFSET then Some (system_status d)
  else if offset =? SYSTEM_CONTROL_RESULT_OFFSET then Some (system_last_result d)
  else if offset =? SYSTEM_CONTROL_RESET_CAUSE_OFFSET then Some (reset_cause d)
  else if offset =? SYSTEM_CONTROL_RESET_COUNT_OFFSET then Some (reset_count d)
  else None.

Definition system_control_write (d : SystemControlDevice) (v : VirtualMachine) (offset width value : Z) :
    bool * (SystemControlDevice * VirtualMachine) :=
  if negb (width =? 8) || negb (offset =? SYSTEM_CONTROL_COMMAND_OFFSET) then (false, (d, v))
  else (true, system_execute_command value d v).

Definition system_control_reset (d : SystemControlDevice) : SystemControlDevice :=
  if warm_reset_pending d then
    mkSystemControl SYSTEM_CONTROL_COMMAND_NONE SYSTEM_CONTROL_STATUS_RUNNING SYSTEM_CONTROL_RESULT_NONE
      SYSTEM_CONTROL_RESET_CAUSE_SOFTWARE (wrap64 (reset_count d + 1)) false
  else
    mkSystemControl SYSTEM_CONTROL_COMMAND_NONE SYSTEM_CONTROL_STATUS_RUNNING SYSTEM_CONTROL_RESULT_NONE
      (reset_cause d) (reset_count d) false.

Class SystemControlSlot (D : Type) := {
  get_system_control : D -> SystemControlDevice;
  put_system_control : SystemControlDevice -> D -> D
}.

Definition system_control_device_as_bus_device `{VmSlot D, SystemControlSlot D} : BusDevice D := {|
  dev_read := Some (fun w offset width => (system_control_read (get_system_control (w_dev w)) offset width, w));
  dev_write := Some (fun w offset width value =>
    let '(ok, (d, v)) := system_control_write (get_system_control (w_dev w)) (world_vm w) offset width value in
    (ok, update_vm (fun _ => v) (set_w_dev (put_system_control d (w_dev w)) w)));
  dev_tick := None;
  dev_reset := Some (fun w =>
    set_w_dev (put_system_control (system_control_reset (get_system_control (w_dev w))) (w_dev w)) w)
|}.
