(* ===== verification/VmProof.v ===== *)
(** The virtual machine's invariant: the shape of the machine, the identity of
    every hardware thread, the agreement of the scheduling states with the CPUs
    and the count of running threads, over every interleaving of the workers. *)

From S2P Require Import Prelude Ram Mmu Interrupt Bus Isa CpuCore CpuInv CpuExec CpuVector Cpu CpuSafety CpuStep CpuRun Vm VmDevices.
From stdpp Require Import base list numbers option relations.
From Stdlib Require Import ZArith Lia Bool.

#[local] Open Scope Z_scope.
#[local] Open Scope exec_scope.

(** ** Counting *)

Definition runs (th : HardwareThread) : Z := if running (thread_state th) then 1 else 0.

Fixpoint sum_of {A} (f : A -> Z) (l : list A) : Z := match l with [] => 0 | x :: l => f x + sum_of f l end.

Definition core_running (core : Core) : Z := sum_of runs (core_threads core).
Definition running_count (v : VirtualMachine) : Z := sum_of core_running (cores v).

Lemma sum_of_alter {A} (f : A -> Z) g l i x :
  l !! i = Some x -> sum_of f (alter g i l) = sum_of f l - f x + f (g x).
Proof.
  revert i. induction l as [|y l IH]; intros [|i] H; [done|done|injection H as ->; simpl; lia|].
  change (alter g (S i) (y :: l)) with (y :: alter g i l). cbn [sum_of]. rewrite (IH i H). lia.
Qed.

Lemma sum_of_ge {A} (f : A -> Z) l i x :
  (forall y, 0 <= f y) -> l !! i = Some x -> f x <= sum_of f l.
Proof.
  intros Hf. assert (forall l, 0 <= sum_of f l) as Hs.
  { intros k. induction k as [|y k IH]; simpl; [lia|specialize (Hf y); lia]. }
  revert i. induction l as [|y l IH]; intros [|i] H; [done|done|injection H as ->; simpl; specialize (Hs l); lia|].
  simpl. specialize (IH i H). specialize (Hf y). lia.
Qed.

Lemma sum_of_ext {A B} (f : A -> Z) (g : B -> Z) l l' :
  Forall2 (fun x y => f x = g y) l l' -> sum_of f l = sum_of g l'.
Proof. induction 1; simpl; congruence. Qed.

Lemma sum_of_bound {A} (f : A -> Z) l k :
  0 <= k -> Forall (fun x => f x <= k) l -> sum_of f l <= k * Z.of_nat (length l).
Proof. intros Hk. induction 1; cbn [sum_of length]; lia. Qed.

Lemma runs_bounds th : 0 <= runs th <= 1.
Proof. unfold runs. destruct (running _); lia. Qed.

Lemma runs_running th : running (thread_state th) = true -> runs th = 1.
Proof. unfold runs. by intros ->. Qed.

Lemma core_running_pos core : 0 <= core_running core.
Proof.
  unfold core_running. induction (core_threads core) as [|th l IH]; cbn [sum_of]; [lia|].
  pose proof (runs_bounds th). lia.
Qed.

(** ** Threads *)

Lemma thread_at_update c t f v c' t' :
  0 <= c -> 0 <= t -> 0 <= c' -> 0 <= t' ->
  thread_at (update_thread c t f v) c' t' =
    if decide (c = c' /\ t = t') then f <$> thread_at v c' t' else thread_at v c' t'.
Proof.
  intros. unfold thread_at, update_thread, update_core. cbn [cores set_cores].
  destruct (decide (c = c')) as [<-|Hc].
  - rewrite list_lookup_alter_eq. destruct (cores v !! Z.to_nat c) as [core|]; cbn [mbind option_bind fmap option_fmap option_map];
      [|by destruct (decide _)]. cbn [core_threads set_core_threads]. destruct (decide (t = t')) as [<-|Ht].
    + rewrite list_lookup_alter_eq, decide_True by done. done.
    + rewrite list_lookup_alter_ne, decide_False by (intuition lia). done.
  - rewrite list_lookup_alter_ne, decide_False by (intuition lia). done.
Qed.

Lemma thread_at_same c t f v th :
  0 <= c -> 0 <= t -> thread_at v c t = Some th -> thread_at (update_thread c t f v) c t = Some (f th).
Proof. intros ? ? H. rewrite thread_at_update, decide_True by done. by rewrite H. Qed.

Lemma running_count_update c t f v th :
  thread_at v c t = Some th ->
  running_count (update_thread c t f v) = running_count v - runs th + runs (f th).
Proof.
  unfold thread_at, running_count, update_thread, update_core. cbn [cores set_cores].
  destruct (cores v !! Z.to_nat c) as [core|] eqn:Ec; [|done]. cbn [mbind option_bind]. intros Ht.
  erewrite sum_of_alter by done. unfold core_running at 3. cbn [core_threads set_core_threads].
  erewrite sum_of_alter by done. unfold core_running. lia.
Qed.

Lemma runs_le_count v c t th : thread_at v c t = Some th -> runs th <= running_count v.
Proof.
  unfold thread_at, running_count. destruct (cores v !! Z.to_nat c) as [core|] eqn:Ec; [|done]. cbn. intros Ht.
  pose proof (sum_of_ge core_running _ _ _ core_running_pos Ec).
  pose proof (sum_of_ge runs _ _ _ (fun y => proj1 (runs_bounds y)) Ht). unfold core_running in *. lia.
Qed.

(** ** The invariant *)

(** Well-formed for a machine with [size] bytes of RAM. *)
Record cpu_ok (size : Z) (c : CPU) : Prop := {
  co_wf : cpu_wf c;
  co_vbr : vbr_enabled c = true ->
    Z.land (vbr c) 7 = 0 /\ cpu_ram_range_valid (mkRAM ∅ size) (vbr c) CPU_VECTOR_TABLE_SIZE = true;
  co_ptbr : ptbr_set c = true -> mmu_root_valid (mkRAM ∅ size) (ptbr c) = true
}.

Record thread_ok (size c t : Z) (th : HardwareThread) : Prop := {
  to_cpu : cpu_ok size (thread_cpu th);
  to_core : core_id (thread_cpu th) = c;
  to_thread : thread_id (thread_cpu th) = t;
  to_state : thread_state th <> HARDWARE_THREAD_STARTING;
}.

(** The scheduling state mirrors the CPU. *)
Definition agrees (th : HardwareThread) : Prop :=
  match thread_state th with
  | HARDWARE_THREAD_RUNNABLE => waiting (thread_cpu th) = false
  | HARDWARE_THREAD_WAITING => waiting (thread_cpu th) = true
  | HARDWARE_THREAD_HALTED => halted (thread_cpu th) = true
  | _ => True
  end.

Record vm_shape (v : VirtualMachine) : Prop := {
  vs_cores : 1 <= core_count v <= VM_MAX_CORES;
  vs_threads : 1 <= threads_per_core v <= VM_MAX_THREADS_PER_CORE;
  vs_logical : logical_processor_count v = core_count v * threads_per_core v;
  vs_core core : core ∈ cores v -> thread_count core = threads_per_core v /\ 0 <= next_thread core < threads_per_core v
}.

(** Why the workers stop: a failure, a requested action, or no thread is left. *)
Definition stop_reason (v : VirtualMachine) : Prop :=
  failed v = true \/ system_action v <> VM_SYSTEM_ACTION_NONE \/ active_thread_count v = 0.

Record vm_inv (size : Z) (v : VirtualMachine) : Prop := {
  vi_shape : vm_shape v;
  vi_thread c t th : 0 <= c -> 0 <= t -> thread_at v c t = Some th -> thread_ok size c t th;
  vi_agrees c t th : failed v = false -> 0 <= c -> 0 <= t -> thread_at v c t = Some th -> agrees th;
  vi_count : active_thread_count v = running_count v;
  vi_stop : active_thread_count v = 0 -> stop_requested v = true;
  vi_why : stop_requested v = true -> stop_reason v;
  vi_vector : is_u64 (reset_vector v);
}.

Lemma sum_of_pos {A} (f : A -> Z) l : (forall y, 0 <= f y) -> 0 <= sum_of f l.
Proof. intros Hf. induction l as [|y l IH]; cbn [sum_of]; [lia|specialize (Hf y); lia]. Qed.

Lemma count_bound v : vm_shape v -> 0 <= running_count v <= 512.
Proof.
  intros [H1 H2 _ H4]. unfold VM_MAX_CORES, VM_MAX_THREADS_PER_CORE in *. split; [apply sum_of_pos, core_running_pos|].
  transitivity (8 * Z.of_nat (length (cores v))); [|unfold core_count in *; lia].
  apply sum_of_bound; [lia|]. apply list.Forall_forall. intros core Hin. destruct (H4 core Hin) as [Ht _].
  unfold thread_count in Ht. unfold core_running.
  transitivity (1 * Z.of_nat (length (core_threads core))); [|lia].
  apply sum_of_bound; [lia|]. apply list.Forall_forall. intros th _. apply runs_bounds.
Qed.

Lemma shape_update c t f v : vm_shape v -> vm_shape (update_thread c t f v).
Proof.
  intros [H1 H2 H3 H4]. split; unfold core_count, update_thread, update_core in *;
    cbn [cores set_cores threads_per_core logical_processor_count] in *; rewrite ?length_alter; [done..|].
  intros core Hin. apply list_elem_of_lookup in Hin as [i Hi]. rewrite list_lookup_alter in Hi.
  destruct (decide _) as [<-|]; [|apply H4; by eapply list_elem_of_lookup_2].
  destruct (cores v !! Z.to_nat c) as [y|] eqn:Ey; [|done]. injection Hi as <-.
  unfold thread_count. cbn. rewrite length_alter. apply H4. by eapply list_elem_of_lookup_2.
Qed.

(** [v'] is [v] with one thread replaced and its counter adjusted. *)
Lemma vm_inv_replace size v v' c t f th :
  vm_inv size v -> 0 <= c -> 0 <= t -> thread_at v c t = Some th ->
  cores v' = cores (update_thread c t f v) -> threads_per_core v' = threads_per_core v ->
  logical_processor_count v' = logical_processor_count v ->
  thread_ok size c t (f th) -> (failed v' = false -> failed v = false /\ agrees (f th)) ->
  active_thread_count v' = active_thread_count v - runs th + runs (f th) ->
  (active_thread_count v' = 0 -> stop_requested v' = true) -> (stop_requested v' = true -> stop_reason v') ->
  is_u64 (reset_vector v') -> vm_inv size v'.
Proof.
  intros [Hs Ht Ha Hc Hst Hwhy Hrv] Hcp Htp Hth Ec Etp El Hok Hf Eact Hstop Hwhy' Hrv'.
  assert (forall c' t', thread_at v' c' t' = thread_at (update_thread c t f v) c' t') as Eat
    by (intros; unfold thread_at; by rewrite Ec).
  split.
  - pose proof (shape_update c t f v Hs) as [H1 H2 H3 H4]. unfold core_count in *.
    split; unfold core_count; rewrite ?Ec, ?Etp, ?El; done.
  - intros c' t' th' ? ?. rewrite Eat, thread_at_update by done. destruct (decide _) as [[<- <-]|]; [|by apply Ht].
    rewrite Hth. by intros [= <-].
  - intros c' t' th' [Hf1 Hf2]%Hf ? ?. rewrite Eat, thread_at_update by done.
    destruct (decide _) as [[<- <-]|]; [|by apply Ha]. rewrite Hth. by intros [= <-].
  - unfold running_count. rewrite Ec. fold (running_count (update_thread c t f v)).
    erewrite running_count_update by done. lia.
  - done.
  - done.
  - done.
Qed.

(** [v'] differs from [v] in its flags. *)
Lemma vm_inv_flags size v v' :
  vm_inv size v -> cores v' = cores v -> threads_per_core v' = threads_per_core v ->
  logical_processor_count v' = logical_processor_count v -> active_thread_count v' = active_thread_count v ->
  (failed v' = false -> failed v = false) -> (stop_requested v = true -> stop_requested v' = true \/ active_thread_count v <> 0) ->
  (stop_requested v' = true -> stop_reason v') -> is_u64 (reset_vector v') -> vm_inv size v'.
Proof.
  intros [Hs Ht Ha Hc Hst Hwhy Hrv] Ec Etp El Eact Hf Hstop Hwhy' Hrv'.
  assert (forall c' t', thread_at v' c' t' = thread_at v c' t') as Eat by (intros; unfold thread_at; by rewrite Ec).
  split.
  - destruct Hs as [H1 H2 H3 H4]. unfold core_count in *. split; unfold core_count; rewrite ?Ec, ?Etp, ?El; done.
  - intros c t th. rewrite Eat. apply Ht.
  - intros c t th ?%Hf. rewrite Eat. by apply Ha.
  - unfold running_count. rewrite Ec, Eact. done.
  - rewrite Eact. intros E. destruct (Hstop (Hst E)); [done|lia].
  - done.
  - done.
Qed.

(** A thread is replaced; the flags, and whether it runs, stay. *)
Lemma vm_inv_thread size v c t f th :
  vm_inv size v -> 0 <= c -> 0 <= t -> thread_at v c t = Some th -> thread_ok size c t (f th) ->
  (failed v = false -> agrees (f th)) -> runs (f th) = runs th -> vm_inv size (update_thread c t f v).
Proof.
  intros Hv Hc Ht Hth Hok Ha Hr. eapply (vm_inv_replace size v _ c t f th); try done.
  - intros Hf. by split; [|apply Ha].
  - cbn. lia.
  - apply (vi_stop _ _ Hv).
  - apply (vi_why _ _ Hv).
  - apply (vi_vector _ _ Hv).
Qed.

Lemma update_thread_compose c t f g v : update_thread c t f (update_thread c t g v) = update_thread c t (f ∘ g) v.
Proof.
  unfold update_thread, update_core. cbn [cores set_cores]. rewrite list_alter_alter_eq.
  match goal with |- set_cores ?x (set_cores _ _) = _ => change (set_cores x v = set_cores (alter (fun core => set_core_threads (alter (f ∘ g) (Z.to_nat t) (core_threads core)) core) (Z.to_nat c) (cores v)) v) end.
  f_equal.
  apply list_alter_ext; [|done]. intros core _. unfold compose. cbn. unfold set_core_threads. cbn.
  by rewrite list_alter_alter_eq.
Qed.

Lemma running_true s : running s = true <-> s = HARDWARE_THREAD_RUNNABLE \/ s = HARDWARE_THREAD_WAITING.
Proof. unfold running. by rewrite orb_true_iff, !bool_decide_eq_true. Qed.

(** A running thread, whose CPU and stop flag may just have changed, is finished. *)
Lemma finish_after size v c t g th :
  vm_inv size v -> 0 <= c -> 0 <= t -> thread_at v c t = Some th ->
  running (thread_state th) = true -> thread_state (g th) = thread_state th -> cpu_ok size (thread_cpu (g th)) ->
  core_id (thread_cpu (g th)) = c -> thread_id (thread_cpu (g th)) = t ->
  vm_inv size (finish_hardware_thread c t (update_thread c t g v)).
Proof.
  intros Hv Hc Ht Hth Hr Hst Hok Hi1 Hi2. unfold finish_hardware_thread.
  rewrite (thread_at_same c t g v th) by done. rewrite Hst, Hr. cbn [negb]. rewrite update_thread_compose.
  set (fin := fun th0 => _). set (v1 := update_thread c t (fin ∘ g) v).
  assert (runs th = 1) as Hr1 by (unfold runs; by rewrite Hr).
  assert (runs (fin (g th)) = 0) as Hr0 by done.
  pose proof (runs_le_count v c t th Hth) as Hle. pose proof (count_bound v (vi_shape _ _ Hv)) as Hb.
  pose proof (vi_count _ _ Hv) as Hcnt.
  assert (active_thread_count v1 = active_thread_count v) as Ea by done. rewrite Ea.
  assert (wrap64 (active_thread_count v - 1) = active_thread_count v - 1) as Hw
    by (apply wrap64_id; unfold is_u64; lia).
  rewrite Hw.
  assert (thread_ok size c t (fin (g th))) as Hokf.
  { split; try done. destruct Hok as [Hwf H2 H3]. split; [|done..]. by destruct Hwf. }
  destruct (Z.eqb_spec (active_thread_count v) 1) as [E1|E1];
    eapply (vm_inv_replace size v _ c t (fin ∘ g) th); try done; try apply (vi_vector _ _ Hv); cbn [active_thread_count set_active_thread_count set_stop_requested];
    try (unfold compose; lia).
  - right; right. cbn. lia.
  - intros [Hw1|[Hw1|Hw1]]%(vi_why _ _ Hv); [by left|by right; left|lia].
Qed.

Lemma update_thread_id c t v : update_thread c t id v = v.
Proof.
  unfold update_thread, update_core. rewrite (list_alter_id (fun core => _)).
  - by destruct v.
  - intros core. rewrite list_alter_id by done. by destruct core.
Qed.

(** ** A thread on a bus *)

Section machine.
Context {D : Type} {DI : DevInv D} `{HN : HostNan}.
Implicit Types (s : Machine D) (b : Bus D).

Lemma range_valid_size r r' a n : ram_size r = ram_size r' -> cpu_ram_range_valid r a n = cpu_ram_range_valid r' a n.
Proof. intros E. unfold cpu_ram_range_valid. by rewrite E. Qed.

Lemma root_valid_size r r' a : ram_size r = ram_size r' -> mmu_root_valid r a = mmu_root_valid r' a.
Proof. intros E. unfold mmu_root_valid, physical_range_valid, ram_contains. by rewrite E. Qed.

Lemma machine_of_cpu size c b :
  cpu_ok size c -> bus_wf b -> ram_size (bus_ram b) = size -> machine_wf (mkMachine c b).
Proof.
  intros [H1 H2 H3] Hb Hs. split; [done|done|..]; unfold machine_ram; cbn [cpu bus].
  - intros ?. rewrite (range_valid_size _ (mkRAM ∅ size)) by done. auto.
  - intros ?. rewrite (root_valid_size _ (mkRAM ∅ size)) by done. auto.
Qed.

Lemma cpu_of_machine size s : machine_wf s -> ram_size (bus_ram (bus s)) = size -> cpu_ok size (cpu s).
Proof.
  intros [H1 _ H2 H3] Hs. unfold machine_ram in *. split; [done|..].
  - intros ?. rewrite (range_valid_size _ (bus_ram (bus s))) by done. auto.
  - intros ?. rewrite (root_valid_size _ (bus_ram (bus s))) by done. auto.
Qed.

(** The machine runs thread [t] of core [c] on the bus [b]. *)
Definition thread_machine b c t s : Prop :=
  on_bus_inv b s /\ core_id (cpu s) = c /\ thread_id (cpu s) = t.

#[export] Instance thread_machine_step b c t : StepClosed (thread_machine b c t).
Proof.
  pose proof (on_bus_step b) as HS.
  split; [split; [split; [split; [split|..]|..]|..]|..];
    try (by intros s [[? _] _]);
    try (intros s x ([? ?] & ? & ?) Hx; split_and!; [split; [by apply machine_wf_bus|by eapply bus_like_trans]|done..]);
    intros s; intros; match goal with H : thread_machine _ _ _ s |- _ => destruct H as (H & ? & ?) end;
    try (pose proof (record_exception_control (cpu s)) as Hrec);
    (split_and!; [|try done..]).
  all: try first [by apply fc_pc | by apply uc_register | by apply uc_vector
    | by apply uc_flags | by apply uc_fp_status | by apply uc_waiting | by apply pc_halt
    | by apply pc_flags | by apply pc_mode | by apply pc_ksp | by apply pc_active
    | by apply pc_waiting | by apply pc_vbr | by apply pc_ptbr | by apply pc_mmu
    | by apply sc_active | by apply pc_pending | by apply pc_ecause | by apply pc_begin | by apply fc_exception].
  all: cbn [cpu set_cpu]; match goal with |- _ (record_exception ?e ?x ?i _) = _ => destruct (Hrec e x i); destruct_and?; congruence end.
Qed.
End machine.

(** ** The machine on its bus *)

(** The contexts hold a machine that satisfies its invariant. *)
Class VmSlotLaws (D : Type) (size : Z) `{DI : DevInv D, VS : VmSlot D} : Prop := {
  vm_slot_inv d : dev_inv d -> vm_inv size (get_vm d);
  vm_slot_put d v : dev_inv d -> vm_inv size v -> dev_inv (put_vm v d);
  vm_get_put d v : get_vm (put_vm v d) = v;
  vm_put_put d v v' : put_vm v (put_vm v' d) = put_vm v d
}.

(** The invariant of the contexts while a core executes a thread: besides, the
    thread's slot is untouched, in state and CPU. *)
Definition slot_held {D} (DI : DevInv D) {VS : VmSlot D} (c t : Z) (s0 : HardwareThreadState) (c0 : CPU) : DevInv D :=
  fun d => dev_inv d /\ exists th, thread_at (get_vm d) c t = Some th /\ thread_state th = s0 /\ thread_cpu th = c0.

Section vm_bus.
Context {D : Type} {size : Z} {DI : DevInv D} {VS : VmSlot D} {VL : VmSlotLaws D size} `{HN : HostNan}.
Implicit Types (b : Bus D) (w : World D) (v : VirtualMachine).

(** A device that leaves the CPU and the state of a running thread alone. *)
Definition control_laws (d : BusDevice D) : Prop :=
  forall c t s0 c0, 0 <= c -> 0 <= t -> running s0 = true -> @DeviceLaws D (slot_held DI c t s0 c0) d.

Record vm_bus (b : Bus D) : Prop := {
  vb_wf : bus_wf b;
  vb_size : ram_size (bus_ram b) = size;
  vb_laws i m : mappings b !! i = Some m -> map_present m = true -> control_laws (map_device m)
}.

Lemma vm_bus_inv b : vm_bus b -> vm_inv size (bus_vm b).
Proof. intros Hb. apply vm_slot_inv. apply (bw_world b (vb_wf b Hb)). Qed.

Lemma bus_vm_update f b : bus_vm (update_bus_vm f b) = f (bus_vm b).
Proof. apply vm_get_put. Qed.

Lemma update_bus_compose f g b : update_bus_vm f (update_bus_vm g b) = update_bus_vm (f ∘ g) b.
Proof.
  unfold update_bus_vm, set_world. cbn [bus_world mappings bus_rom mapping_count]. f_equal.
  unfold update_vm, world_vm, set_w_dev. cbn [w_ram w_router w_dev]. f_equal. by rewrite vm_put_put, vm_get_put.
Qed.

(** Replacing the machine by one that satisfies the invariant. *)
Lemma bus_wf_update f b : bus_wf b -> vm_inv size (f (bus_vm b)) -> bus_wf (update_bus_vm f b).
Proof.
  intros Hb Hv. apply set_world_wf; [done| |done].
  destruct (bw_world b Hb) as (H1 & H2 & H3). split_and!; [done..|]. by apply vm_slot_put.
Qed.

Lemma vm_bus_update f b : vm_bus b -> vm_inv size (f (bus_vm b)) -> vm_bus (update_bus_vm f b).
Proof. intros [H1 H2 H3] Hv. split; [by apply bus_wf_update|done|done]. Qed.

Lemma vm_bus_like b b' : vm_bus b -> bus_like b b' -> vm_bus b'.
Proof. intros [H1 H2 H3] (H4 & H5 & H6 & H7). split; [done|congruence|]. rewrite H6. done. Qed.

(** A bus on which a thread's slot is held satisfies the bus invariant for it,
    and gives the ordinary one back. *)
Lemma held_wf b c t th :
  vm_bus b -> 0 <= c -> 0 <= t -> thread_at (bus_vm b) c t = Some th -> running (thread_state th) = true ->
  @bus_wf D (slot_held DI c t (thread_state th) (thread_cpu th)) b.
Proof.
  intros [[W1 W2 W3 W4 W5 W6 W7] Hs Hl] Hc Ht Hth Hr. split; try done.
  - destruct W1 as (R1 & R2 & R3). split_and!; [done..|]. split; [done|]. by exists th.
  - intros i m Hi Hp. destruct (W4 i m Hi Hp) as [M1 M2 M3 M4]. split; try done. by eapply Hl.
Qed.

Lemma held_release b b' c t s0 c0 :
  vm_bus b -> @bus_like D (slot_held DI c t s0 c0) b b' ->
  vm_bus b' /\ exists th, thread_at (bus_vm b') c t = Some th /\ thread_state th = s0 /\ thread_cpu th = c0.
Proof.
  intros [[W1 W2 W3 W4 W5 W6 W7] Hs Hl] ([V1 V2 V3 V4 V5 V6 V7] & Es & Em & Er).
  destruct V1 as (R1 & R2 & R3 & th & Hth). split; [|by exists th]. split; [|congruence|by rewrite Em].
  split; try done. intros i m Hi Hp. destruct (V4 i m Hi Hp) as [M1 M2 M3 M4]. split; try done.
  rewrite Em in Hi. by apply (W4 i m Hi Hp).
Qed.

(** What a thread's computation leaves: the slot is as it was, the CPU that
    will be stored in it belongs to the same thread. *)
Lemma on_thread_spec {A} (m : Exec (Machine D) A) b c t th :
  vm_bus b -> 0 <= c -> 0 <= t -> thread_at (bus_vm b) c t = Some th -> running (thread_state th) = true ->
  (forall DI' : DevInv D, keeps (@thread_machine D DI' b c t) m (fun _ => True)) ->
  exists b' cpu' th',
    on_thread c t m b = ((m (mkMachine (thread_cpu th) b)).1, update_bus_vm (update_thread c t (set_thread_cpu cpu')) b') /\
    cpu' = cpu (m (mkMachine (thread_cpu th) b)).2 /\
    vm_bus b' /\ thread_at (bus_vm b') c t = Some th' /\ thread_state th' = thread_state th /\
    thread_cpu th' = thread_cpu th /\ cpu_ok size cpu' /\ core_id cpu' = c /\ thread_id cpu' = t.
Proof.
  intros Hb Hc Ht Hth Hr Hm. pose proof (vi_thread _ _ (vm_bus_inv b Hb) c t th Hc Ht Hth) as [O1 O2 O3 O4].
  pose proof (held_wf b c t th Hb Hc Ht Hth Hr) as Hheld.
  set (DI' := slot_held DI c t (thread_state th) (thread_cpu th)) in *.
  assert (@thread_machine D DI' b c t (mkMachine (thread_cpu th) b)) as Hinit.
  { split_and!; [|done..]. split; [|by apply bus_like_refl]. eapply machine_of_cpu; [done|done|apply Hb]. }
  destruct (Hm DI' _ Hinit) as [([Hwf Hlike] & E1 & E2) _].
  unfold on_thread. rewrite Hth. destruct (m _) as [r s]. cbn [fst snd] in *.
  destruct (held_release b (bus s) _ _ _ _ Hb Hlike) as (Hb' & th' & Hth' & Es & Ec).
  exists (bus s), (cpu s), th'. split_and!; try done.
  apply (cpu_of_machine (DI := DI') size s Hwf), Hb'.
Qed.

Lemma thread_ok_cpu th size' c t c' :
  thread_ok size' c t th -> cpu_ok size' c' -> core_id c' = c -> thread_id c' = t -> thread_ok size' c t (set_thread_cpu c' th).
Proof. intros [H1 H2 H3 H4] ? ? ?. by split. Qed.

(** Storing a CPU that agrees with the thread's state. *)
Lemma store_cpu_inv v c t th cpu' :
  vm_inv size v -> 0 <= c -> 0 <= t -> thread_at v c t = Some th -> cpu_ok size cpu' -> core_id cpu' = c ->
  thread_id cpu' = t -> (failed v = false -> agrees (set_thread_cpu cpu' th)) ->
  vm_inv size (update_thread c t (set_thread_cpu cpu') v).
Proof.
  intros Hv Hc Ht Hth Hok E1 E2 Ha. eapply vm_inv_thread; try done.
  apply thread_ok_cpu; try done. by apply (vi_thread _ _ Hv).
Qed.

(** After a failed check the machine is marked as failed, whatever the CPU is. *)
Lemma store_failed_inv v c t th cpu' :
  vm_inv size v -> 0 <= c -> 0 <= t -> thread_at v c t = Some th -> cpu_ok size cpu' -> core_id cpu' = c ->
  thread_id cpu' = t -> vm_inv size (vm_failure (update_thread c t (set_thread_cpu cpu') v)).
Proof.
  intros Hv Hc Ht Hth Hok E1 E2.
  eapply (vm_inv_replace size v _ c t (set_thread_cpu cpu') th); try done.
  - apply thread_ok_cpu; try done. by apply (vi_thread _ _ Hv).
  - cbn. unfold runs. cbn. lia.
  - by left.
  - apply (vi_vector _ _ Hv).
Qed.

Lemma check_keeps b c t k (DI' : DevInv D) : keeps (@thread_machine D DI' b c t) (cpu_check_interrupt k) (fun _ => True).
Proof. apply (cpu_check_interrupt_keeps (@thread_machine D DI' b c t)). Qed.

Lemma step_keeps b c t (DI' : DevInv D) : keeps (@thread_machine D DI' b c t) cpu_step (fun _ => True).
Proof. apply (cpu_step_keeps (@thread_machine D DI' b c t)). Qed.

Lemma finish_bus b c t g th :
  vm_bus b -> 0 <= c -> 0 <= t -> thread_at (bus_vm b) c t = Some th -> running (thread_state th) = true ->
  thread_state (g th) = thread_state th -> cpu_ok size (thread_cpu (g th)) -> core_id (thread_cpu (g th)) = c ->
  thread_id (thread_cpu (g th)) = t ->
  vm_bus (update_bus_vm (fun v => finish_hardware_thread c t (update_thread c t g v)) b).
Proof. intros Hb ? ? ? ? ? ? ? ?. apply vm_bus_update; [done|]. by eapply finish_after; [apply vm_bus_inv|..]. Qed.

(** [service_thread] keeps the invariant; a failing one once it is reported. *)
Lemma service_thread_bus b c t serviced :
  vm_bus b -> 0 <= c -> 0 <= t ->
  match service_thread c t serviced b with
  | (Some _, b') => vm_bus b'
  | (None, b') => vm_bus (update_bus_vm vm_failure b')
  end.
Proof.
  intros Hb Hc Ht. unfold service_thread. destruct (thread_at (bus_vm b) c t) as [th|] eqn:Hth; [|done].
  case_bool_decide as Hw; cbn [negb]; [|done].
  pose proof (vi_thread _ _ (vm_bus_inv b Hb) c t th Hc Ht Hth) as [O1 O2 O3 O4].
  assert (running (thread_state th) = true) as Hr by (rewrite running_true; auto).
  destruct (thread_stop th) eqn:Hstop.
  { by eapply finish_bus. }
  destruct (on_thread_spec (cpu_check_interrupt (Some (logical_index (bus_vm b) c t))) b c t th)
    as (b' & cpu' & th' & -> & -> & Hb' & Hth' & Es & Ec & Hok & E1 & E2); [done..|apply check_keeps|].
  set (cpu' := cpu (cpu_check_interrupt _ _).2) in *. clearbody cpu'.
  destruct (cpu_check_interrupt _ _).1.
  - rewrite bus_vm_update. rewrite (thread_at_same c t _ _ th') by done. cbn [thread_cpu thread_state set_thread_cpu].
    rewrite Es, Hw, bool_decide_eq_true_2, andb_true_r by done. destruct (waiting cpu') eqn:Hwait; cbn [negb].
    + apply vm_bus_update; [done|]. eapply store_cpu_inv; try done; [by apply vm_bus_inv|].
      intros _. unfold agrees. cbn. by rewrite Es, Hw.
    + rewrite update_bus_compose. apply vm_bus_update; [done|]. unfold compose. rewrite update_thread_compose.
      eapply vm_inv_thread; try done; [by apply vm_bus_inv|].
      by rewrite !runs_running by (done || by rewrite Es).
  - rewrite update_bus_compose. apply vm_bus_update; [done|]. eapply store_failed_inv; try done. by apply vm_bus_inv.
Qed.

Lemma service_loop_bus l b c serviced :
  vm_bus b -> 0 <= c -> Forall (fun t => 0 <= t) l ->
  match service_loop c l serviced b with
  | (Some _, b') => vm_bus b'
  | (None, b') => vm_bus (update_bus_vm vm_failure b')
  end.
Proof.
  intros Hb Hc Hl. revert b serviced Hb. induction Hl as [|t l Ht Hl IH]; intros b serviced Hb; [done|].
  cbn [service_loop]. unfold exec_bind. pose proof (service_thread_bus b c t serviced Hb Hc Ht) as Hs.
  destruct (service_thread c t serviced b) as [[r|] b']; [by apply IH|done].
Qed.

Lemma service_bus b c :
  vm_bus b -> 0 <= c ->
  match service_waiting_hardware_threads c b with
  | (Some _, b') => vm_bus b'
  | (None, b') => vm_bus (update_bus_vm vm_failure b')
  end.
Proof.
  intros Hb Hc. unfold service_waiting_hardware_threads. destruct (cores (bus_vm b) !! Z.to_nat c) as [core|]; [|done].
  apply service_loop_bus; [done..|]. apply list.Forall_forall. intros t [? _]%elem_of_seqZ. done.
Qed.

(** The thread that has just executed is finished, put to wait or left. *)
Lemma settle_inv v c t th cpu' :
  vm_inv size v -> 0 <= c -> 0 <= t -> thread_at v c t = Some th -> thread_state th = HARDWARE_THREAD_RUNNABLE ->
  cpu_ok size cpu' -> core_id cpu' = c -> thread_id cpu' = t ->
  vm_inv size (settle_thread c t (update_thread c t (set_thread_cpu cpu') v)).
Proof.
  intros Hv Hc Ht Hth Hs Hok E1 E2. unfold settle_thread. rewrite (thread_at_same c t _ v th) by done.
  cbn [thread_cpu thread_state thread_stop set_thread_cpu].
  assert (running (thread_state th) = true) as Hr by (rewrite running_true; auto).
  destruct (halted cpu'); [by eapply finish_after|].
  destruct (thread_stop th) eqn:Hstop; [rewrite update_thread_compose; by eapply finish_after|].
  rewrite Hs, bool_decide_eq_true_2, andb_true_r by done. destruct (waiting cpu') eqn:Hw.
  - rewrite update_thread_compose. eapply vm_inv_thread; try done. by rewrite !runs_running.
  - eapply store_cpu_inv; try done. intros _. unfold agrees. cbn. by rewrite Hs.
Qed.

Lemma instruction_keeps b c t k (DI' : DevInv D) :
  keeps (@thread_machine D DI' b c t)
    (cpu_step;; stopped ← read_cpu halted; if stopped : bool then mret tt else cpu_check_interrupt k) (fun _ => True).
Proof.
  eapply keeps_bind; [apply step_keeps|]. intros _ _.
  eapply keeps_bind; [apply (read_cpu_keeps (@thread_machine D DI' b c t) _ (fun _ => True)); done|].
  intros [] _; [by apply keeps_ret|apply check_keeps].
Qed.

Lemma thread_turn_bus b c t th :
  vm_bus b -> 0 <= c -> 0 <= t -> thread_at (bus_vm b) c t = Some th -> thread_state th = HARDWARE_THREAD_RUNNABLE ->
  match thread_turn c t b with
  | (Some _, b') => vm_bus b'
  | (None, b') => vm_bus (update_bus_vm vm_failure b')
  end.
Proof.
  intros Hb Hc Ht Hth Hs. unfold thread_turn. rewrite Hth.
  pose proof (vi_thread _ _ (vm_bus_inv b Hb) c t th Hc Ht Hth) as [O1 O2 O3 O4].
  assert (running (thread_state th) = true) as Hr by (rewrite running_true; auto).
  destruct (thread_stop th) eqn:Hstop; [by eapply finish_bus|].
  match goal with |- context [on_thread c t ?m b] =>
    destruct (on_thread_spec m b c t th) as (b' & cpu' & th' & -> & -> & Hb' & Hth' & Es & Ec & Hok & E1 & E2);
      [done..|intros; apply instruction_keeps|] end.
  match goal with |- context [set_thread_cpu (cpu ?x)] => set (cpu' := cpu x) in * end. clearbody cpu'.
  match goal with |- context [match ?r with Some _ => _ | None => _ end] => destruct r end;
    rewrite update_bus_compose; (apply vm_bus_update; [done|]); unfold compose.
  - eapply settle_inv; try done; [by apply vm_bus_inv|congruence].
  - eapply store_failed_inv; try done. by apply vm_bus_inv.
Qed.

(** *** Selection *)

Lemma select_thread_spec n core :
  0 <= next_thread core < thread_count core ->
  let '(sel, core') := select_loop n core in
  core_threads core' = core_threads core /\ 0 <= next_thread core' < thread_count core /\
  match sel with
  | Some t => 0 <= t < thread_count core /\
      exists th, core_threads core !! Z.to_nat t = Some th /\ thread_state th = HARDWARE_THREAD_RUNNABLE
  | None => True
  end.
Proof.
  revert core. induction n as [|n IH]; intros core Hn; cbn [select_loop]; [done|].
  set (core1 := set_next_thread _ core).
  assert (core_threads core1 = core_threads core /\ thread_count core1 = thread_count core) as [E1 E2] by done.
  assert (0 <= next_thread core1 < thread_count core) as Hn1 by (apply Z.mod_pos_bound; lia).
  specialize (IH core1). rewrite E1, E2 in IH. specialize (IH Hn1). rewrite E1.
  destruct (core_threads core !! Z.to_nat (next_thread core)) as [th|] eqn:Eth; [|exact IH].
  case_bool_decide; [|exact IH]. split_and!; try done; try lia. by exists th.
Qed.

(** *** Rounds *)

(** Selection moves the round-robin cursor only. *)
Lemma vm_inv_cursor v c core core' :
  vm_inv size v -> cores v !! Z.to_nat c = Some core -> core_threads core' = core_threads core ->
  0 <= next_thread core' < thread_count core -> vm_inv size (update_core c (fun _ => core') v).
Proof.
  intros [Hs Ht Ha Hc Hst Hwhy Hrv] Hcore Hth Hn.
  assert (forall c' t', thread_at (update_core c (fun _ => core') v) c' t' = thread_at v c' t') as Eat.
  { intros c' t'. unfold thread_at, update_core. cbn [cores set_cores]. rewrite list_lookup_alter.
    destruct (decide _) as [<-|]; [|done]. rewrite Hcore. cbn. by rewrite Hth. }
  split; try done.
  - destruct Hs as [H1 H2 H3 H4]. unfold core_count in *.
    split; unfold core_count, update_core; cbn [cores set_cores]; rewrite ?length_alter; try done.
    intros k Hk. apply list_elem_of_lookup in Hk as [i Hi]. rewrite list_lookup_alter in Hi.
    destruct (decide _) as [<-|]; [|apply H4; by eapply list_elem_of_lookup_2].
    rewrite Hcore in Hi. injection Hi as <-. destruct (H4 core) as [E1 E2]; [by eapply list_elem_of_lookup_2|].
    unfold thread_count in *. cbn [threads_per_core set_cores]. rewrite Hth. split; [done|lia].
  - intros c' t' th. rewrite Eat. apply Ht.
  - intros c' t' th. rewrite Eat. apply Ha.
  - cbn. rewrite Hc. unfold running_count, update_core. cbn [cores set_cores]. erewrite sum_of_alter by done.
    unfold core_running. rewrite Hth. lia.
Qed.

Lemma core_round_bus b c : vm_bus b -> 0 <= c -> vm_bus (core_worker_round c b).2.
Proof.
  intros Hb Hc. unfold core_worker_round. destruct (stop_requested (bus_vm b)); [done|].
  pose proof (service_bus b c Hb Hc) as Hs. destruct (service_waiting_hardware_threads c b) as [[r|] b1]; [|done].
  destruct (cores (bus_vm b1) !! Z.to_nat c) as [core|] eqn:Ecore; [|done].
  pose proof (vm_bus_inv b1 Hs) as Hv.
  destruct (vs_core _ (vi_shape _ _ Hv) core) as [Ht Hn]; [by eapply list_elem_of_lookup_2|].
  pose proof (select_thread_spec (length (core_threads core)) core ltac:(lia)) as Hsel. fold (select_hardware_thread core) in Hsel.
  destruct (select_hardware_thread core) as [sel core'] eqn:Esel. destruct Hsel as (E1 & E2 & Hsel).
  assert (vm_bus (update_bus_vm (update_core c (fun _ => core')) b1)) as Hb2.
  { apply vm_bus_update; [done|]. by eapply vm_inv_cursor. }
  destruct sel as [t|]; [|done]. destruct Hsel as (Htr & th & Hth & Hst).
  pose proof (thread_turn_bus (update_bus_vm (update_core c (fun _ => core')) b1) c t th Hb2 Hc ltac:(lia)) as Htt.
  destruct (thread_turn c t _) as [[u|] b2]; apply Htt; try done.
  all: rewrite bus_vm_update; unfold thread_at, update_core; cbn [cores set_cores];
    rewrite list_lookup_alter_eq, Ecore; cbn; by rewrite E1.
Qed.

Lemma vm_failure_inv v : vm_inv size v -> vm_inv size (vm_failure v).
Proof. intros Hv. eapply (vm_inv_flags size v); try done; [by left..|apply Hv]. Qed.

Lemma device_round_bus b n waited : vm_bus b -> is_u64 n -> vm_bus (device_worker_round n waited b).2.
Proof.
  intros Hb Hn. unfold device_worker_round. destruct (stop_requested (bus_vm b)); [done|].
  assert (vm_bus (if 0 <? n then bus_tick b n else b)) as Hb1.
  { destruct (0 <? n); [|done]. eapply vm_bus_like; [done|]. apply bus_tick_like; [apply Hb|done]. }
  destruct waited; cbn [snd]; [done|]. apply vm_bus_update; [done|]. by apply vm_failure_inv, vm_bus_inv.
Qed.

Lemma worker_step_bus b b' : worker_step b b' -> vm_bus b -> vm_bus b'.
Proof. intros [c b0 ?|? ? ? ?] Hb; [apply core_round_bus; [done|lia]|by apply device_round_bus]. Qed.

Lemma worker_steps_bus b b' : rtc worker_step b b' -> vm_bus b -> vm_bus b'.
Proof. induction 1; eauto using worker_step_bus. Qed.

Lemma clear_flags_bus b :
  vm_bus b -> failed (bus_vm b) = false -> active_thread_count (bus_vm b) <> 0 -> vm_bus (clear_flags b).
Proof.
  intros Hb Hf Ha. apply vm_bus_update; [done|]. eapply (vm_inv_flags size (bus_vm b)); try done; [by apply vm_bus_inv|by right|]. by apply (vi_vector _ _ (vm_bus_inv b Hb)).
Qed.

Lemma run_workers_bus b r b' :
  run_workers b r b' -> vm_bus b -> failed (bus_vm b) = false -> active_thread_count (bus_vm b) <> 0 ->
  vm_bus b' /\ (r = true -> failed (bus_vm b') = false /\ stop_requested (bus_vm b') = true).
Proof.
  intros Hr Hb Hf Ha. pose proof (clear_flags_bus b Hb Hf Ha) as Hc. destruct Hr as [b|b b' Hp Hs|b b' Hp].
  - by split.
  - split; [by eapply worker_steps_bus|]. intros H%negb_true_iff. done.
  - split; [|done]. apply vm_bus_update; [by eapply worker_steps_bus|].
    apply vm_failure_inv, vm_bus_inv. by eapply worker_steps_bus.
Qed.

(** *** Starting and restarting *)

Definition all_fresh v : Prop :=
  forall c t th, 0 <= c -> 0 <= t -> thread_at v c t = Some th -> th = init_thread c t.

Lemma set_ids_ok c t p : is_u32 c -> is_u32 t -> is_u64 p ->
  cpu_ok size (set_pc p (set_thread_id t (set_core_id c cpu_init))).
Proof. intros Hc Ht Hp. pose proof cpu_init_wf as Hi. split; [|done..]. destruct Hi. by split. Qed.

Lemma thread_at_bounds v c t th :
  vm_shape v -> 0 <= c -> 0 <= t -> thread_at v c t = Some th -> c < core_count v /\ t < threads_per_core v.
Proof.
  intros [H1 H2 H3 H4] Hc Ht. unfold thread_at. destruct (cores v !! Z.to_nat c) as [core|] eqn:E; [|done]. cbn.
  intros Hth. pose proof (lookup_lt_Some _ _ _ E). pose proof (lookup_lt_Some _ _ _ Hth).
  destruct (H4 core) as [Ht' _]; [by eapply list_elem_of_lookup_2|]. unfold core_count, thread_count in *. lia.
Qed.

Lemma thread_at_exists v c t :
  vm_shape v -> 0 <= c < core_count v -> 0 <= t < threads_per_core v -> exists th, thread_at v c t = Some th.
Proof.
  intros [H1 H2 H3 H4] Hc Ht. unfold thread_at, core_count in *.
  destruct (lookup_lt_is_Some_2 (cores v) (Z.to_nat c)) as [core E]; [lia|]. rewrite E. cbn.
  destruct (H4 core) as [Ht' _]; [by eapply list_elem_of_lookup_2|]. unfold thread_count in Ht'.
  apply lookup_lt_is_Some_2. lia.
Qed.

Lemma fresh_ok v c t :
  vm_shape v -> 0 <= c < core_count v -> 0 <= t < threads_per_core v -> thread_ok size c t (init_thread c t).
Proof.
  intros [H1 H2 H3 H4] Hc Ht. unfold VM_MAX_CORES, VM_MAX_THREADS_PER_CORE in *. split; [|done..].
  change (thread_cpu (init_thread c t)) with (set_thread_id t (set_core_id c cpu_init)).
  replace (set_thread_id t (set_core_id c cpu_init)) with (set_pc 0 (set_thread_id t (set_core_id c cpu_init))) by done.
  apply set_ids_ok; unfold is_u32, is_u64; lia.
Qed.

Lemma sum_of_zero {A} (f : A -> Z) l : (forall i x, l !! i = Some x -> f x = 0) -> sum_of f l = 0.
Proof.
  induction l as [|x l IH]; intros H; [done|]. cbn [sum_of]. rewrite (H 0%nat x) by done.
  rewrite IH; [done|]. intros i y Hi. by apply (H (S i)).
Qed.

Lemma fresh_count v : all_fresh v -> running_count v = 0.
Proof.
  intros Hf. apply sum_of_zero. intros i core Hi. apply sum_of_zero. intros j th Hj.
  assert (thread_at v (Z.of_nat i) (Z.of_nat j) = Some th) as Hth.
  { unfold thread_at. rewrite !Nat2Z.id, Hi. done. }
  apply Hf in Hth; [|lia..]. by subst th.
Qed.

(** A machine whose threads are all fresh, with thread 0 of core 0 started. *)
Lemma boot_inv v v' p :
  vm_shape v -> all_fresh v -> is_u64 p -> is_u64 (reset_vector v) ->
  v' = mkVm (cores (update_thread 0 0 (fun th => mkThread (set_pc p (thread_cpu th)) HARDWARE_THREAD_RUNNABLE (thread_stop th)) v))
         (threads_per_core v) (logical_processor_count v) 1 false false VM_SYSTEM_ACTION_NONE (reset_vector v) ->
  vm_inv size v'.
Proof.
  intros Hs Hf Hp Hrv ->. set (v0 := set_stop_requested true (set_active_thread_count 0 (set_failed false v))).
  assert (vm_shape v0) as Hs0 by (destruct Hs; by split).
  assert (all_fresh v0) as Hf0 by exact Hf.
  assert (vm_inv size v0) as Hv0.
  { split; try done.
    - intros c t th Hc Ht Hth. rewrite (Hf0 c t th Hc Ht Hth).
      destruct (thread_at_bounds v0 c t th Hs0 Hc Ht Hth). by apply (fresh_ok v0).
    - intros c t th _ Hc Ht Hth. by rewrite (Hf0 c t th Hc Ht Hth).
    - by rewrite fresh_count.
    - intros _. by right; right. }
  destruct (thread_at_exists v0 0 0 Hs0) as [th Hth]; [destruct Hs0; unfold core_count in *; lia|destruct Hs0; lia|].
  pose proof (Hf0 0 0 th ltac:(lia) ltac:(lia) Hth) as ->.
  eapply (vm_inv_replace size v0 _ 0 0 _ _ Hv0 ltac:(lia) ltac:(lia) Hth); try done.
  split; [|done..]. apply set_ids_ok; done || unfold is_u32; lia.
Qed.

Lemma vm_init_inv cores_wanted threads_wanted w w' :
  0 <= cores_wanted -> 0 <= threads_wanted -> vm_init cores_wanted threads_wanted w = (true, w') ->
  vm_inv size (world_vm w').
Proof.
  intros Hc Ht. unfold vm_init. destruct (_ || _) eqn:E; [done|]. rewrite !orb_false_iff in E.
  destruct E as ((((E1%Z.eqb_neq & E2%Z.ltb_ge) & E3%Z.eqb_neq) & E4%Z.ltb_ge) & _).
  destruct (interrupt_router_init _) as [r|]; [|done]. intros [= <-].
  unfold world_vm, set_w_router, update_vm, set_w_dev. cbn [w_dev]. rewrite vm_get_put.
  set (v := mkVm _ _ _ _ _ _ _ _).
  assert (vm_shape v) as Hs.
  { split; unfold core_count, v; cbn [cores threads_per_core logical_processor_count];
      rewrite ?length_fmap, ?length_seqZ, ?Z2Nat.id by lia; try lia.
    intros core (k & -> & _)%list_elem_of_fmap. unfold thread_count. cbn. rewrite length_fmap, length_seqZ. lia. }
  assert (all_fresh v) as Hf.
  { intros c t th Hc' Ht'. unfold thread_at, v. cbn [cores]. rewrite list_lookup_fmap.
    destruct (seqZ 0 cores_wanted !! Z.to_nat c) as [c'|] eqn:Ec; [|done]. cbn. apply lookup_seqZ in Ec as [Ec _].
    rewrite list_lookup_fmap. destruct (seqZ 0 threads_wanted !! Z.to_nat t) as [t'|] eqn:Et; [|done]. cbn.
    apply lookup_seqZ in Et as [Et _]. intros [= <-]. f_equal; lia. }
  eapply (boot_inv v _ 0 Hs Hf); [done..|]. unfold v, update_thread, update_core, set_cores. cbn. f_equal.
  apply list_alter_ext; [|done]. intros core Hcore. f_equal. apply list_alter_ext; [|done]. intros th Hth.
  rewrite (Hf 0 0 th); [done|lia..|]. unfold thread_at, v. cbn [cores]. by rewrite Hcore.
Qed.

Lemma reset_threads_fresh v : all_fresh (reset_threads v).
Proof.
  intros c t th Hc Ht. unfold thread_at, reset_threads. cbn [cores set_cores]. rewrite list_lookup_imap.
  destruct (cores v !! Z.to_nat c) as [core|]; [|done]. cbn. rewrite list_lookup_imap.
  destruct (core_threads core !! Z.to_nat t) as [th0|]; [|done]. cbn. intros [= <-]. by rewrite !Z2Nat.id.
Qed.

Lemma reset_threads_shape v : vm_shape v -> vm_shape (reset_threads v).
Proof.
  intros [H1 H2 H3 H4]. unfold core_count in *.
  split; unfold core_count, reset_threads; cbn [cores set_cores]; rewrite ?length_imap; try done.
  intros core [i Hi]%list_elem_of_lookup. rewrite list_lookup_imap in Hi.
  destruct (cores v !! i) as [core0|] eqn:E; [|done]. injection Hi as <-.
  destruct (H4 core0) as [Ht _]; [by eapply list_elem_of_lookup_2|]. unfold thread_count in *. cbn.
  rewrite length_imap. split; [done|lia].
Qed.

Lemma clear_controller_step i w : world_step w (clear_controller i w).
Proof.
  intros Hw. unfold clear_controller. destruct (w_router w) as [r|] eqn:E; [|done]. destruct Hw as (H1 & H2 & H3).
  split; [|done]. split_and!; [done| |done]. intros ? [= <-]. apply set_targets_inv; [by apply H2|by vm_compute].
Qed.

Lemma reset_controllers_step v w : world_step w (reset_controllers v w).
Proof.
  unfold reset_controllers. generalize (seqZ 0 (core_count v) ≫= fun c => logical_index v c <$> seqZ 0 (threads_per_core v)).
  intros l. revert w. induction l as [|i l IH]; intros w; [done|]. cbn [foldl]. etrans; [apply clear_controller_step|apply IH].
Qed.

Lemma clear_controller_vm i w : world_vm (clear_controller i w) = world_vm w.
Proof. unfold clear_controller. by destruct (w_router w). Qed.

Lemma reset_controllers_vm v w : world_vm (reset_controllers v w) = world_vm w.
Proof.
  unfold reset_controllers. generalize (seqZ 0 (core_count v) ≫= fun c => logical_index v c <$> seqZ 0 (threads_per_core v)).
  intros l. revert w. induction l as [|i l IH]; intros w; [done|]. cbn [foldl]. rewrite IH. apply clear_controller_vm.
Qed.

Lemma bus_reset_like b : bus_wf b -> bus_like b (bus_reset b).
Proof.
  intros Hb. unfold bus_reset. apply world_step_like; [by apply bus_like_refl|].
  apply fold_world_step. intros i m w Hi. unfold reset_mapping.
  destruct (map_present m) eqn:Hp; [|done]. destruct (dev_reset (map_device m)) eqn:Hf; [|done].
  destruct (bw_mapping b Hb i m Hi Hp) as [_ _ _ Hd]. by apply (dl_reset _ w Hf).
Qed.

(** What the machine is after a warm reset. *)
Definition rebooted (v v' : VirtualMachine) : Prop :=
  core_count v' = core_count v /\ threads_per_core v' = threads_per_core v /\ reset_vector v' = reset_vector v /\
  (forall c t th, 0 <= c -> 0 <= t -> thread_at v' c t = Some th ->
     th = if decide (c = 0 /\ t = 0)
          then mkThread (set_pc (reset_vector v) (thread_cpu (init_thread 0 0))) HARDWARE_THREAD_RUNNABLE false
          else init_thread c t) /\
  active_thread_count v' = 1 /\ stop_requested v' = false /\ failed v' = false /\ system_action v' = VM_SYSTEM_ACTION_NONE.

Lemma warm_reset_bus b :
  vm_bus b -> vm_bus (prepare_warm_reset b) /\ rebooted (bus_vm (bus_reset b)) (bus_vm (prepare_warm_reset b)).
Proof.
  intros Hb. unfold prepare_warm_reset. pose proof (vm_bus_like b _ Hb (bus_reset_like b (vb_wf b Hb))) as Hb1.
  set (b1 := bus_reset b) in *. clearbody b1.
  set (b2 := set_world (reset_controllers (bus_vm b1) (bus_world b1)) b1).
  assert (bus_vm b2 = bus_vm b1) as Ev by apply reset_controllers_vm.
  assert (vm_bus b2) as Hb2.
  { apply (vm_bus_like b1 _ Hb1). apply world_step_like; [apply bus_like_refl, Hb1|]. apply reset_controllers_step. }
  pose proof (vm_bus_inv b2 Hb2) as Hv. pose proof (reset_threads_fresh (bus_vm b2)) as Hf.
  pose proof (reset_threads_shape _ (vi_shape _ _ Hv)) as Hs. clearbody b2. split.
  - apply vm_bus_update; [done|]. eapply boot_inv; [exact Hs|exact Hf|apply (vi_vector _ _ Hv)..|]. reflexivity.
  - rewrite bus_vm_update, Ev in *. unfold rebooted. split_and!; try done.
    + unfold core_count. cbn. by rewrite length_alter, length_imap.
    + intros c t th Hc Ht Hth.
      assert (thread_at (update_thread 0 0 (fun th => mkThread (set_pc (reset_vector (bus_vm b1)) (thread_cpu th))
        HARDWARE_THREAD_RUNNABLE (thread_stop th)) (reset_threads (bus_vm b1))) c t = Some th) as Hth' by exact Hth.
      rewrite thread_at_update in Hth' by lia.
      destruct (thread_at (reset_threads (bus_vm b1)) c t) as [th0|] eqn:E0; [|by destruct (decide _) in Hth'].
      apply Hf in E0 as ->; [|done..]. destruct (decide (0 = c /\ 0 = t)) as [[<- <-]|Hne].
      * injection Hth' as <-. by rewrite decide_True.
      * injection Hth' as <-. rewrite decide_False by (intuition lia). done.
Qed.

Lemma vm_run_loop_bus b r b' :
  vm_run_loop b r b' -> vm_bus b -> failed (bus_vm b) = false -> active_thread_count (bus_vm b) <> 0 ->
  vm_bus b' /\ (r = true -> failed (bus_vm b') = false /\ stop_requested (bus_vm b') = true /\
                 system_action (bus_vm b') <> VM_SYSTEM_ACTION_WARM_RESET).
Proof.
  induction 1 as [b b' Hr|b b' Hr Ha|b b1 r b' Hr Ha _ IH]; intros Hb Hf Hact;
    destruct (run_workers_bus _ _ _ Hr Hb Hf Hact) as [Hb1 Hok].
  - by split.
  - split; [done|]. intros E. by destruct (Hok E).
  - destruct (warm_reset_bus b1 Hb1) as [Hb2 (_ & _ & _ & _ & E1 & _ & E2 & _)]. apply IH; [done..|]. by rewrite E1.
Qed.

(** *** The control operations *)

Lemma update_vm_compose f g w : update_vm f (update_vm g w) = update_vm (f ∘ g) w.
Proof. unfold update_vm, world_vm, set_w_dev. cbn [w_ram w_router w_dev]. by rewrite vm_put_put, vm_get_put. Qed.

Lemma update_vm_controller f i w : update_vm f (clear_controller i w) = clear_controller i (update_vm f w).
Proof.
  unfold clear_controller. change (w_router (update_vm f w)) with (w_router w). by destruct (w_router w).
Qed.

Lemma world_vm_update f w : world_vm (update_vm f w) = f (world_vm w).
Proof. apply vm_get_put. Qed.

(** A step of the control plane: it keeps the invariant and leaves the running
    threads' states and CPUs alone. *)
Definition control_step (w w' : World D) : Prop :=
  world_step w w' /\
  (world_wf w -> forall c t th, 0 <= c -> 0 <= t -> thread_at (world_vm w) c t = Some th ->
     running (thread_state th) = true ->
     exists th', thread_at (world_vm w') c t = Some th' /\ thread_state th' = thread_state th /\ thread_cpu th' = thread_cpu th).

#[export] Instance control_step_preorder : PreOrder control_step.
Proof.
  split; [split; [done|]; eauto|]. intros w1 w2 w3 [H1 H2] [H3 H4]. split; [by etrans|].
  intros Hw c t th Hc Ht Hth Hr. destruct (H2 Hw c t th Hc Ht Hth Hr) as (th2 & Hth2 & E1 & E2).
  destruct (H4 (proj1 (H1 Hw)) c t th2 Hc Ht Hth2) as (th3 & Hth3 & E3 & E4); [by rewrite E1|].
  exists th3. split_and!; [done|congruence..].
Qed.

(** The machine does not change. *)
Lemma control_step_same w w' : world_step w w' -> world_vm w' = world_vm w -> control_step w w'.
Proof. intros H E. split; [done|]. rewrite E. eauto. Qed.

Lemma world_wf_vm w : world_wf w -> vm_inv size (world_vm w).
Proof. intros (_ & _ & H). by apply vm_slot_inv. Qed.

Lemma update_vm_step f w : (world_wf w -> vm_inv size (f (world_vm w))) -> world_step w (update_vm f w).
Proof. intros H Hw. split; [|done]. pose proof (H Hw). destruct Hw as (H1 & H2 & H3). split_and!; [done..|]. by apply vm_slot_put. Qed.

Lemma clear_controller_control i w : control_step w (clear_controller i w).
Proof. apply control_step_same; [apply clear_controller_step|apply clear_controller_vm]. Qed.

(** One thread is replaced, a running one only in its stop flag. *)
Lemma update_thread_control f g c t th w :
  0 <= c -> 0 <= t -> thread_at (world_vm w) c t = Some th ->
  (world_wf w -> vm_inv size (f (world_vm w))) -> (cores (f (world_vm w)) = cores (update_thread c t g (world_vm w))) ->
  (running (thread_state th) = true -> thread_state (g th) = thread_state th /\ thread_cpu (g th) = thread_cpu th) ->
  control_step w (update_vm f w).
Proof.
  intros Hc Ht Hth Hinv Ec Hg. split; [by apply update_vm_step|]. intros Hw c' t' th' Hc' Ht' Hth' Hr.
  rewrite world_vm_update. unfold thread_at at 1. rewrite Ec. fold (thread_at (update_thread c t g (world_vm w)) c' t').
  rewrite thread_at_update by done. rewrite Hth'. destruct (decide _) as [[<- <-]|]; [|by exists th'].
  rewrite Hth in Hth'. injection Hth' as <-. exists (g th). by destruct (Hg Hr).
Qed.

Lemma vm_hardware_thread_some v c t th :
  vm_hardware_thread v c t = Some th -> c < core_count v /\ t < threads_per_core v /\ thread_at v c t = Some th.
Proof.
  unfold vm_hardware_thread. destruct (_ || _) eqn:E; [done|]. apply orb_false_iff in E as [E1%Z.leb_gt E2%Z.leb_gt]. done.
Qed.

Lemma fresh_thread_ok v c t th p s :
  vm_inv size v -> 0 <= c -> 0 <= t -> thread_at v c t = Some th -> is_u64 p -> s <> HARDWARE_THREAD_STARTING ->
  thread_ok size c t (mkThread (fresh_cpu p (thread_cpu th)) s false).
Proof.
  intros Hv Hc Ht Hth Hp Hs. destruct (vi_thread _ _ Hv c t th Hc Ht Hth) as [[O1 _ _] O2 O3 O4].
  split; [|done..]. apply set_ids_ok; [apply O1..|done].
Qed.

(** Starting a thread, as one update. *)
Lemma activate_eq rom c t p w th :
  vm_hardware_thread (world_vm w) c t = Some th -> is_Some (vm_fetch rom p w) ->
  stop_requested (world_vm w) = false -> thread_state th = HARDWARE_THREAD_OFFLINE ->
  vm_activate_hardware_thread rom c t p w =
    (true, clear_controller (logical_index (world_vm w) c t) (update_vm (fun v =>
       set_active_thread_count (wrap64 (active_thread_count v + 1))
         (update_thread c t (fun th => mkThread (fresh_cpu p (thread_cpu th)) HARDWARE_THREAD_RUNNABLE false) v)) w)).
Proof.
  intros Hth [x Hf] Hs Ho. unfold vm_activate_hardware_thread. rewrite Hth, Hf, Hs, Ho, bool_decide_eq_true_2 by done.
  cbn [negb]. rewrite !update_vm_controller, !update_vm_compose. f_equal. f_equal. unfold update_vm. f_equal. f_equal.
  unfold compose. unfold set_active_thread_count, update_thread, update_core, set_cores. cbn. f_equal.
  exact (f_equal cores (update_thread_compose c t (set_thread_state HARDWARE_THREAD_RUNNABLE)
    (fun th => mkThread (fresh_cpu p (thread_cpu th)) HARDWARE_THREAD_STARTING false) (world_vm w))).
Qed.

Lemma activate_control rom c t p w :
  0 <= c -> 0 <= t -> is_u64 p -> control_step w (vm_activate_hardware_thread rom c t p w).2.
Proof.
  intros Hc Ht Hp. destruct (vm_activate_hardware_thread rom c t p w) as [ok w'] eqn:E. cbn [snd].
  assert (w' = w \/ exists th, vm_hardware_thread (world_vm w) c t = Some th /\ is_Some (vm_fetch rom p w) /\
    stop_requested (world_vm w) = false /\ thread_state th = HARDWARE_THREAD_OFFLINE) as Hcase.
  { unfold vm_activate_hardware_thread in E. destruct (vm_hardware_thread _ _ _) as [th|]; [|left; congruence].
    destruct (vm_fetch rom p w) eqn:Ef; [|left; congruence].
    destruct (stop_requested (world_vm w)); [left; congruence|].
    case_bool_decide; [|left; cbn in E; congruence]. right. by exists th. }
  destruct Hcase as [->|(th & Hth & Hf & Hs & Ho)]; [done|].
  rewrite (activate_eq rom c t p w th) in E by done. injection E as _ <-.
  apply vm_hardware_thread_some in Hth as (_ & _ & Hth).
  etrans; [|apply clear_controller_control].
  eapply (update_thread_control _ (fun th => mkThread (fresh_cpu p (thread_cpu th)) HARDWARE_THREAD_RUNNABLE false) c t th);
    [done..| |done|by rewrite Ho].
  intros Hw%world_wf_vm. pose proof (vi_count _ _ Hw) as Hcnt. pose proof (count_bound _ (vi_shape _ _ Hw)) as Hb.
  assert (wrap64 (active_thread_count (world_vm w) + 1) = active_thread_count (world_vm w) + 1) as Hwr
    by (apply wrap64_id; unfold is_u64; lia).
  eapply (vm_inv_replace size (world_vm w) _ c t _ th); try done.
  - by eapply fresh_thread_ok.
  - cbn [active_thread_count set_active_thread_count]. rewrite Hwr, (runs_running (mkThread _ _ _)) by done.
    assert (runs th = 0) as -> by (unfold runs; by rewrite Ho). lia.
  - cbn [active_thread_count set_active_thread_count]. rewrite Hwr. lia.
  - intros Hst. change (stop_requested (world_vm w) = true) in Hst. congruence.
  - apply (vi_vector _ _ Hw).
Qed.

Lemma reset_eq c t w th :
  vm_hardware_thread (world_vm w) c t = Some th ->
  thread_state th = HARDWARE_THREAD_OFFLINE \/ thread_state th = HARDWARE_THREAD_HALTED ->
  vm_reset_hardware_thread c t w =
    (true, clear_controller (logical_index (world_vm w) c t)
       (update_vm (update_thread c t (fun th => mkThread (fresh_cpu 0 (thread_cpu th)) HARDWARE_THREAD_OFFLINE false)) w)).
Proof.
  intros Hth Hs. unfold vm_reset_hardware_thread. rewrite Hth.
  replace (negb _ && negb _) with false by (destruct Hs as [-> | ->]; done).
  rewrite !update_vm_controller, !update_vm_compose. f_equal. f_equal. unfold update_vm. f_equal. f_equal.
  unfold compose. apply update_thread_compose.
Qed.

Lemma reset_control c t w : 0 <= c -> 0 <= t -> control_step w (vm_reset_hardware_thread c t w).2.
Proof.
  intros Hc Ht. destruct (vm_hardware_thread (world_vm w) c t) as [th|] eqn:Hth.
  2:{ unfold vm_reset_hardware_thread. by rewrite Hth. }
  destruct (negb (bool_decide (thread_state th = HARDWARE_THREAD_OFFLINE)) &&
            negb (bool_decide (thread_state th = HARDWARE_THREAD_HALTED))) eqn:E.
  { unfold vm_reset_hardware_thread. by rewrite Hth, E. }
  assert (thread_state th = HARDWARE_THREAD_OFFLINE \/ thread_state th = HARDWARE_THREAD_HALTED) as Hs.
  { apply andb_false_iff in E as [E|E]; apply negb_false_iff, bool_decide_eq_true in E; auto. }
  rewrite (reset_eq c t w th) by done. cbn [snd]. apply vm_hardware_thread_some in Hth as (_ & _ & Hth).
  assert (running (thread_state th) = false) as Hr by by destruct Hs as [-> | ->].
  etrans; [|apply clear_controller_control].
  eapply (update_thread_control _ _ c t th); [done..| |done|by rewrite Hr].
  intros Hw%world_wf_vm. eapply vm_inv_thread; try done.
  - by eapply fresh_thread_ok.
  - unfold runs. by rewrite Hr.
Qed.

Lemma stop_control c t w :
  0 <= c -> 0 <= t -> control_step w (update_vm (fun _ => (vm_request_hardware_thread_stop c t (world_vm w)).2) w).
Proof.
  intros Hc Ht. unfold vm_request_hardware_thread_stop.
  destruct (vm_hardware_thread (world_vm w) c t) as [th|] eqn:Hth.
  2:{ cbn [snd]. apply (control_step_same _ _); [|apply world_vm_update]. apply update_vm_step, world_wf_vm. }
  destruct (running (thread_state th)) eqn:Hr; cbn [negb snd].
  2:{ apply (control_step_same _ _); [|apply world_vm_update]. apply update_vm_step, world_wf_vm. }
  apply vm_hardware_thread_some in Hth as (_ & _ & Hth).
  eapply (update_thread_control _ (set_thread_stop true) c t th); [done..| |done|done].
  intros Hw%world_wf_vm. eapply vm_inv_thread; try done.
  - destruct (vi_thread _ _ Hw c t th Hc Ht Hth). by split.
  - intros Hf. apply (vi_agrees _ _ Hw c t th Hf Hc Ht Hth).
Qed.

Lemma raise_control c t line w : control_step w (vm_raise_hardware_thread_interrupt c t line w).2.
Proof.
  unfold vm_raise_hardware_thread_interrupt. destruct (vm_hardware_thread _ _ _) as [th|]; [|done].
  destruct (_ || _) eqn:El; [done|]. destruct (negb _); [done|]. destruct (w_router w) as [r|] eqn:Er; [|done].
  destruct (interrupt_controller_raise _ line) as [p|] eqn:Ep; [|done]. cbn [snd].
  apply control_step_same; [|done]. intros (H1 & H2 & H3). split; [|done]. split_and!; [done| |done].
  intros ? [= <-]. apply set_targets_inv; [by apply H2|]. eapply raise_u64; [|exact Ep].
  apply target_u64. by apply H2.
Qed.

Lemma action_control action w : control_step w (update_vm (fun _ => (vm_request_system_action action (world_vm w)).2) w).
Proof.
  assert (control_step w (update_vm (fun _ => world_vm w) w)) as Hsame.
  { apply (control_step_same _ _); [|apply world_vm_update]. apply update_vm_step, world_wf_vm. }
  destruct action; cbn [vm_request_system_action]; [done|..]; (case_bool_decide as Ha; [|done]); cbn [snd].
  all: split; [apply update_vm_step|intros _ c t th _ _ Hth _; rewrite world_vm_update; by exists th].
  all: intros Hw%world_wf_vm; eapply (vm_inv_flags size (world_vm w)); try done; [by left|by right; left|apply (vi_vector _ _ Hw)].
Qed.

(** Callbacks that are control steps give the laws of a device, also while a
    thread's slot is held. *)
Lemma control_step_held c t s0 c0 w w' :
  0 <= c -> 0 <= t -> running s0 = true -> control_step w w' -> @world_step D (slot_held DI c t s0 c0) w w'.
Proof.
  intros Hc Ht Hr [H1 H2] (W1 & W2 & W3 & th & Hth & E1 & E2). assert (world_wf w) as Hw by done.
  destruct (H1 Hw) as [(V1 & V2 & V3) Hs]. split; [|done]. split_and!; [done..|]. split; [done|].
  destruct (H2 Hw c t th Hc Ht Hth) as (th' & Hth' & E3 & E4); [by rewrite E1|].
  exists th'. split_and!; [done|congruence..].
Qed.

Lemma control_device (d : BusDevice D) :
  (forall f w off width, dev_read d = Some f -> 0 <= off -> world_wf w ->
     control_step w (f w off width).2 /\ (forall x, (f w off width).1 = Some x -> is_u64 x)) ->
  (forall f w off width x, dev_write d = Some f -> 0 <= off -> is_u64 x -> world_wf w -> control_step w (f w off width x).2) ->
  dev_tick d = None -> (forall f w, dev_reset d = Some f -> world_wf w -> control_step w (f w)) ->
  DeviceLaws d /\ control_laws d.
Proof.
  intros Hr Hw Ht Hrs. split.
  - split.
    + intros f w off width Ef Hwf Ho. destruct (Hr f w off width Ef Ho Hwf) as [[? _] ?]. done.
    + intros f w off width v Ef Hwf Ho Hv. by destruct (Hw f w off width v Ef Ho Hv Hwf).
    + intros f w n Ef. congruence.
    + intros f w Ef Hwf. by destruct (Hrs f w Ef Hwf) as [H _]; apply H.
  - intros c t s0 c0 Hc Hth Hr0. split.
    + intros f w off width Ef Hwf Ho. assert (world_wf w) as Hw' by (destruct Hwf as (? & ? & ? & _); done).
      destruct (Hr f w off width Ef Ho Hw') as [? ?]. split; [by apply control_step_held|done].
    + intros f w off width v Ef Hwf Ho Hv. assert (world_wf w) as Hw' by (destruct Hwf as (? & ? & ? & _); done).
      by apply control_step_held, (Hw f).
    + intros f w n Ef. congruence.
    + intros f w Ef Hwf. assert (world_wf w) as Hw' by (destruct Hwf as (? & ? & ? & _); done).
      by apply (control_step_held c t s0 c0 w (f w) Hc Hth Hr0), Hwf; apply Hrs.
Qed.

End vm_bus.

(** ** The control devices *)

Record core_control_wf (d : CoreControlDevice) : Prop := {
  cc_target_core : is_u64 (target_core d);
  cc_target_thread : is_u64 (target_thread d);
  cc_entry : is_u64 (entry_pc d);
  cc_ipi : is_u64 (ipi_line d);
  cc_command : is_u64 (core_last_command d);
  cc_result : is_u64 (core_last_result d);
}.

Class CoreControlSlotLaws (D : Type) `{DevInv D, VmSlot D, CoreControlSlot D} : Prop := {
  cc_slot_wf d : dev_inv d -> core_control_wf (get_core_control d);
  cc_slot_put d x : dev_inv d -> core_control_wf x -> dev_inv (put_core_control x d);
  cc_get_put d x : get_core_control (put_core_control x d) = x;
  cc_get_vm d x : get_vm (put_core_control x d) = get_vm d;
  cc_put_vm d v : get_core_control (put_vm v d) = get_core_control d
}.

Section core_control.
Context {D : Type} {size : Z} {DI : DevInv D} {VS : VmSlot D} {VL : VmSlotLaws D size}
  {CS : CoreControlSlot D} {CL : CoreControlSlotLaws D} `{HN : HostNan}.
Implicit Types (w : World D).

Lemma world_core_wf w : world_wf w -> core_control_wf (world_core_control w).
Proof. intros (_ & _ & H). by apply cc_slot_wf. Qed.

Lemma update_core_control_step f w :
  (core_control_wf (world_core_control w) -> core_control_wf (f (world_core_control w))) ->
  control_step w (update_core_control f w).
Proof.
  intros Hf. apply control_step_same; [|apply cc_get_vm]. intros Hw. pose proof (Hf (world_core_wf w Hw)).
  destruct Hw as (H1 & H2 & H3). split; [|done]. split_and!; [done..|]. by apply cc_slot_put.
Qed.

Lemma result_step r w : is_u64 r -> control_step w (update_core_control (set_core_result r) w).
Proof. intros Hr. apply update_core_control_step. intros []. by split. Qed.

Lemma report_step w out : control_step w out.2 -> control_step w (report_state out).
Proof.
  destruct out as [ok w']. cbn [snd]. intros H. etrans; [exact H|]. apply result_step. destruct ok; by vm_compute.
Qed.

Lemma core_command_step rom command w : is_u64 command -> world_wf w -> control_step w (core_execute_command rom command w).
Proof.
  intros Hcmd Hwf. unfold core_execute_command.
  assert (control_step w (update_core_control (set_core_command command) w)) as H1.
  { apply update_core_control_step. intros []. by split. }
  set (w1 := update_core_control (set_core_command command) w) in *.
  destruct (world_core_wf w1 (proj1 (proj1 H1 Hwf))) as [C1 C2 C3 C4 C5 C6]. etrans; [exact H1|].
  assert (forall r, 0 <= r <= 6 -> control_step w1 (update_core_control (set_core_result r) w1)) as Hres.
  { intros r Hr. apply result_step. unfold is_u64. lia. }
  destruct (command =? CORE_CONTROL_COMMAND_NONE); [by apply Hres|].
  destruct (selected_thread _ _); [|by apply Hres].
  destruct (command =? CORE_CONTROL_COMMAND_START).
  { destruct (vm_fetch rom _ w1); [|by apply Hres]. apply report_step, activate_control; [apply C1|apply C2|done]. }
  destruct (command =? CORE_CONTROL_COMMAND_STOP).
  { pose proof (stop_control (target_core (world_core_control w1)) (target_thread (world_core_control w1)) w1
      (proj1 C1) (proj1 C2)) as Hst.
    destruct (vm_request_hardware_thread_stop _ _ _) as [ok v]. by apply report_step. }
  destruct (command =? CORE_CONTROL_COMMAND_RESET); [apply report_step, reset_control; [apply C1|apply C2]|].
  destruct (command =? CORE_CONTROL_COMMAND_IPI); [|by apply Hres].
  destruct (_ || _); [by apply Hres|]. apply report_step, raise_control.
Qed.

Lemma core_write_step rom w off width v : is_u64 v -> world_wf w -> control_step w (core_control_write rom w off width v).2.
Proof.
  intros Hv Hw. unfold core_control_write. repeat case_match; cbn [snd]; try done;
    first [apply core_command_step; done | apply update_core_control_step; intros []; by split].
Qed.

Lemma core_control_laws rom :
  DeviceLaws (core_control_device_as_bus_device (D:=D) rom) /\ control_laws (core_control_device_as_bus_device (D:=D) rom).
Proof.
  apply control_device; [..|done|].
  - intros f w off width [= <-] Ho Hw. split; [done|]. destruct (world_core_wf w Hw). cbn [fst].
    intros v. unfold core_control_read, selected_status.
    repeat case_match; intros; simplify_eq; try done; by vm_compute.
  - intros f w off width v [= <-] Ho Hv Hw. by apply core_write_step.
  - intros f w [= <-] Hw. apply update_core_control_step. intros _. split; by vm_compute.
Qed.

End core_control.

Record system_control_wf (d : SystemControlDevice) : Prop := {
  sc_command : is_u64 (system_last_command d);
  sc_status : is_u64 (system_status d);
  sc_result : is_u64 (system_last_result d);
  sc_cause : is_u64 (reset_cause d);
  sc_count : is_u64 (reset_count d);
}.

Class SystemControlSlotLaws (D : Type) `{DevInv D, VmSlot D, SystemControlSlot D} : Prop := {
  sc_slot_wf d : dev_inv d -> system_control_wf (get_system_control d);
  sc_slot_put d x : dev_inv d -> system_control_wf x -> dev_inv (put_system_control x d);
  sc_get_vm d x : get_vm (put_system_control x d) = get_vm d
}.

#[local] Arguments vm_request_system_action : simpl never.

(** What a command does to the machine is what the action request does. *)
Lemma system_command_spec command d v :
  is_u64 command -> system_control_wf d ->
  system_control_wf (system_execute_command command d v).1 /\
  exists action, (system_execute_command command d v).2 = (vm_request_system_action action v).2.
Proof.
  intros Hc [H1 H2 H3 H4 H5]. destruct d as [? ? ? ? ? ?]. cbn in *. unfold system_execute_command.
  destruct (_ =? SYSTEM_CONTROL_COMMAND_NONE).
  { split; [split; cbn; (assumption || by vm_compute)|]. by exists VM_SYSTEM_ACTION_NONE. }
  destruct (_ =? SYSTEM_CONTROL_COMMAND_SHUTDOWN).
  { destruct (vm_request_system_action VM_SYSTEM_ACTION_SHUTDOWN v) as [[] v'] eqn:E;
      (split; [split; cbn; (assumption || by vm_compute)|exists VM_SYSTEM_ACTION_SHUTDOWN; by rewrite E]). }
  destruct (_ =? SYSTEM_CONTROL_COMMAND_WARM_RESET).
  { destruct (vm_request_system_action VM_SYSTEM_ACTION_WARM_RESET v) as [[] v'] eqn:E;
      (split; [split; cbn; (assumption || by vm_compute)|exists VM_SYSTEM_ACTION_WARM_RESET; by rewrite E]). }
  split; [split; cbn; (assumption || by vm_compute)|]. by exists VM_SYSTEM_ACTION_NONE.
Qed.

Section system_control.
Context {D : Type} {size : Z} {DI : DevInv D} {VS : VmSlot D} {VL : VmSlotLaws D size}
  {SS : SystemControlSlot D} {SL : SystemControlSlotLaws D}.
Implicit Types (w : World D).

Lemma put_system_control_step d w :
  (world_wf w -> system_control_wf d) -> control_step w (set_w_dev (put_system_control d (w_dev w)) w).
Proof.
  intros Hd. apply control_step_same; [|apply sc_get_vm]. intros Hw. pose proof (Hd Hw).
  destruct Hw as (H1 & H2 & H3). split; [|done]. split_and!; [done..|]. by apply sc_slot_put.
Qed.

Lemma system_control_laws :
  DeviceLaws (system_control_device_as_bus_device (D:=D)) /\ control_laws (system_control_device_as_bus_device (D:=D)).
Proof.
  apply control_device; [..|done|].
  - intros f w off width [= <-] Ho (_ & _ & Hd). split; [done|]. destruct (sc_slot_wf _ Hd). cbn [fst].
    intros x. unfold system_control_read. repeat case_match; intros; simplify_eq; try done; by vm_compute.
  - intros f w off width x [= <-] Ho Hv Hw. unfold system_control_write.
    assert (world_vm w = get_vm (w_dev w)) as Ev by done.
    pose proof (system_command_spec x _ (world_vm w) Hv (sc_slot_wf _ (proj2 (proj2 Hw)))) as [Hwf [action Ea]].
    destruct (_ || _); cbn [snd].
    + etrans; [by apply put_system_control_step; intros (_ & _ & Hd); apply sc_slot_wf|].
      set (w1 := set_w_dev _ w). assert (world_vm w1 = world_vm w) as E1 by apply sc_get_vm. rewrite <- E1.
      apply (action_control VM_SYSTEM_ACTION_NONE w1).
    + destruct (system_execute_command x _ (world_vm w)) as [d' v']. cbn [fst snd] in *. subst v'.
      etrans; [by apply put_system_control_step|].
      set (w1 := set_w_dev _ w). assert (world_vm w1 = world_vm w) as E1 by apply sc_get_vm. rewrite <- E1.
      apply action_control.
  - intros f w [= <-] Hw. apply put_system_control_step. intros (_ & _ & Hd). destruct (sc_slot_wf _ Hd).
    unfold system_control_reset. destruct (warm_reset_pending _); split; cbn; auto with u64; by vm_compute.
Qed.

End system_control.
