(* ===== verification/VmRun.v ===== *)
(** What the virtual machine guarantees: the invariant of its workers, the
    outcome of a run, round-robin fairness, the start command, warm reset, and a
    machine with two cores on which they are exercised. *)

From S2P Require Import Prelude Ram Mmu Interrupt Bus Isa CpuCore CpuInv CpuExec CpuVector Cpu CpuSafety CpuStep CpuIsolation CpuRun Vm VmDevices VmProof.
From stdpp Require Import base list numbers option relations gmap.
From Stdlib Require Import ZArith Lia Bool.

#[local] Open Scope Z_scope.
#[local] Open Scope exec_scope.

(** ** The bus of the machine *)

Section machine_bus.
Context {D : Type} {size : Z} {DI : DevInv D} {VS : VmSlot D} {VL : VmSlotLaws D size}
  {CS : CoreControlSlot D} {CL : CoreControlSlotLaws D} {SS : SystemControlSlot D} {SL : SystemControlSlotLaws D}.
Implicit Types (b : Bus D) (d : BusDevice D) (w : World D).

(** A device that has nothing to do with the hardware threads: no access, tick
    or reset of it changes the virtual machine. *)
Record leaves_vm d : Prop := {
  lv_read f w off width : dev_read d = Some f -> world_vm (f w off width).2 = world_vm w;
  lv_write f w off width v : dev_write d = Some f -> world_vm (f w off width v).2 = world_vm w;
  lv_tick f w n : dev_tick d = Some f -> world_vm (f w n) = world_vm w;
  lv_reset f w : dev_reset d = Some f -> world_vm (f w) = world_vm w;
}.

(** What is mapped on the bus of a machine: the devices that command the
    hardware threads, and devices that do not touch them. *)
Definition machine_device d : Prop :=
  (exists rom, d = core_control_device_as_bus_device rom) \/ d = system_control_device_as_bus_device \/
  DeviceLaws d /\ leaves_vm d.

Record machine_bus b : Prop := {
  mb_wf : bus_wf b;
  mb_size : ram_size (bus_ram b) = size;
  mb_device i m : mappings b !! i = Some m -> map_present m = true -> machine_device (map_device m)
}.

Lemma machine_device_laws d : machine_device d -> DeviceLaws d /\ control_laws d.
Proof.
  intros [[rom ->]|[->|[Hd [L1 L2 L3 L4]]]]; [apply core_control_laws|apply system_control_laws|]. split; [done|].
  intros c t s0 c0 Hc Ht Hr. assert (forall w w', world_step w w' -> world_vm w' = world_vm w ->
    @world_step D (slot_held DI c t s0 c0) w w') as Hstep.
  { intros w w' H E. by apply control_step_held, control_step_same. }
  split.
  - intros f w off width Ef (W1 & W2 & W3 & _) Ho. destruct (dl_read f w off width Ef) as [H1 H2]; [done..|].
    split; [apply Hstep; [done|by apply L1]|done].
  - intros f w off width v Ef (W1 & W2 & W3 & _) Ho Hv. apply Hstep; [by apply dl_write|by apply L2].
  - intros f w n Ef Hn. apply Hstep; [by apply dl_tick|by apply L3].
  - intros f w Ef. apply Hstep; [by apply dl_reset|by apply L4].
Qed.

Lemma machine_vm_bus b : machine_bus b -> vm_bus (size:=size) b.
Proof. intros [H1 H2 H3]. split; [done|done|]. intros i m Hi Hp. by eapply machine_device_laws, H3. Qed.

Lemma machine_bus_map b base len d :
  machine_bus b -> is_u64 base -> is_u64 len -> machine_device d -> machine_bus (bus_map_device b base len d).2.
Proof.
  intros [Hb Hs Hl] Hu1 Hu2 Hd. pose proof (bus_map_device_wf b base len d Hb Hu1 Hu2 (proj1 (machine_device_laws d Hd))) as Hwf.
  destruct (bus_map_device b base len d) as [[|] b'] eqn:E; cbn [snd] in *.
  - destruct (bus_map_device_spec b base len d b' Hb Hu1 Hu2 E) as (i & Hi & _ & -> & _).
    split; [done|done|]. intros j m Hj Hp. cbn in Hj. rewrite list_lookup_insert in Hj. case_decide.
    + by injection Hj as <-.
    + by apply (Hl j m).
  - unfold bus_map_device in E. repeat case_match; simplify_eq; done.
Qed.
End machine_bus.

(** ** A concrete machine *)

Record Contexts := mkContexts {
  ctx_vm : VirtualMachine;
  ctx_core_control : CoreControlDevice;
  ctx_system_control : SystemControlDevice;
}.

#[export] Instance contexts_vm : VmSlot Contexts := {
  get_vm := ctx_vm;
  put_vm v d := mkContexts v (ctx_core_control d) (ctx_system_control d)
}.
#[export] Instance contexts_core_control : CoreControlSlot Contexts := {
  get_core_control := ctx_core_control;
  put_core_control x d := mkContexts (ctx_vm d) x (ctx_system_control d)
}.
#[export] Instance contexts_system_control : SystemControlSlot Contexts := {
  get_system_control := ctx_system_control;
  put_system_control x d := mkContexts (ctx_vm d) (ctx_core_control d) x
}.

Definition demo_size : Z := 4096.

#[export] Instance contexts_inv : DevInv Contexts := fun d =>
  vm_inv demo_size (ctx_vm d) /\ core_control_wf (ctx_core_control d) /\ system_control_wf (ctx_system_control d).

#[export] Instance contexts_vm_laws : VmSlotLaws Contexts demo_size.
Proof. split; [by intros d (? & _)|intros d v (_ & ? & ?) ?; by split_and!|done|by intros []]. Qed.
#[export] Instance contexts_core_laws : CoreControlSlotLaws Contexts.
Proof. split; [by intros d (_ & ? & _)|intros d v (? & _ & ?) ?; by split_and!|done..]. Qed.
#[export] Instance contexts_system_laws : SystemControlSlotLaws Contexts.
Proof. split; [by intros d (_ & _ & ?)|intros d v (? & ? & _) ?; by split_and!|done..]. Qed.

(** A HALT instruction at address 0; two cores of two threads; the control
    devices at their addresses. *)
Definition demo_memory : RAM := mkRAM {[ 0 := OP_HALT ]} demo_size.

Definition empty_vm : VirtualMachine := mkVm [] 0 0 0 false false VM_SYSTEM_ACTION_NONE 0.

Definition demo_vm_world : World Contexts :=
  (vm_init 2 2 (mkWorld demo_memory None (mkContexts empty_vm core_control_device_init system_control_device_init))).2.

Definition CORE_CONTROL_MMIO_BASE : Z := 0xFFFFFFFFFFFE0000.
Definition CORE_CONTROL_MMIO_SIZE : Z := 56.
Definition SYSTEM_CONTROL_MMIO_BASE : Z := 0xFFFFFFFFFFFC2000.
Definition SYSTEM_CONTROL_MMIO_SIZE : Z := 0x40.

Definition demo_bus (w : World Contexts) : Bus Contexts :=
  let b := bus_init w in
  let b := (bus_map_device b CORE_CONTROL_MMIO_BASE CORE_CONTROL_MMIO_SIZE (core_control_device_as_bus_device no_rom)).2 in
  (bus_map_device b SYSTEM_CONTROL_MMIO_BASE SYSTEM_CONTROL_MMIO_SIZE system_control_device_as_bus_device).2.

Definition demo_vm_bus : Bus Contexts := demo_bus demo_vm_world.

Lemma demo_memory_wf : ram_wf demo_memory.
Proof.
  split; [by vm_compute|]. intros a x Ha. cbn in Ha. apply lookup_singleton_Some in Ha as [<- <-]. by vm_compute.
Qed.

Lemma demo_world_wf : world_wf demo_vm_world.
Proof.
  split_and!.
  - apply demo_memory_wf.
  - intros r Hr. eapply (router_init_inv (replicate 4 0)); [by apply Forall_replicate|done|exact Hr].
  - split_and!; [|split; by vm_compute..].
    change (ctx_vm (w_dev demo_vm_world)) with (world_vm demo_vm_world).
    eapply (vm_init_inv (D:=Contexts) (size:=demo_size) 2 2); [done..|]. unfold demo_vm_world. apply surjective_pairing.
Qed.

Lemma demo_bus_ok w : world_wf w -> ram_size (w_ram w) = demo_size -> machine_bus (size:=demo_size) (demo_bus w).
Proof.
  intros Hw Hs. unfold demo_bus. cbv zeta. apply machine_bus_map; [|by vm_compute..|right; by left].
  apply machine_bus_map; [|by vm_compute..|left; by eexists].
  split; [by apply bus_init_wf|done|]. intros i m Hi. cbn [mappings bus_init] in Hi.
  by apply lookup_replicate in Hi as [-> _].
Qed.

Lemma demo_machine_bus : machine_bus (size:=demo_size) demo_vm_bus.
Proof. apply demo_bus_ok; [exact demo_world_wf|reflexivity]. Qed.

Lemma demo_vm_bus_ok : vm_bus (size:=demo_size) demo_vm_bus.
Proof. apply machine_vm_bus, demo_machine_bus. Qed.

(** ** The workers *)

Section theorems.
Context {D : Type} {size : Z} {DI : DevInv D} {VS : VmSlot D} {VL : VmSlotLaws D size} `{HN : HostNan}.
Implicit Types (b : Bus D) (w : World D).

(** C5: the invariant of the multi-core machine, over every serial schedule:
    whole rounds of the core workers and of the device worker, in any order and
    number, each round run without interference from the others (the grain of
    single atomic accesses is that of the race on the active counter).  Between
    two rounds, the counter of active threads is the
    number of threads that are runnable or waiting; when it reaches zero the
    machine is told to stop, and it is told to stop only then, on a failure or
    on a requested action.  Every thread of every core is there with its own
    core and thread number, its CPU is well-formed on the shared bus, and its
    scheduling state is what its CPU says. *)
Theorem vm_workers_invariant b b' :
  vm_bus (size:=size) b -> rtc worker_step b b' ->
  let v := bus_vm b' in
  active_thread_count v = running_count v /\
  (running_count v = 0 -> stop_requested v = true) /\
  (stop_requested v = true ->
     failed v = true \/ system_action v <> VM_SYSTEM_ACTION_NONE \/ running_count v = 0) /\
  (forall c t, 0 <= c < core_count v -> 0 <= t < threads_per_core v ->
     exists th, thread_at v c t = Some th /\ core_id (thread_cpu th) = c /\ thread_id (thread_cpu th) = t /\
       machine_wf (mkMachine (thread_cpu th) b') /\ (failed v = false -> agrees th)).
Proof.
  intros Hb Hr v. pose proof (worker_steps_bus b b' Hr Hb) as Hb'. pose proof (vm_bus_inv b' Hb') as Hv.
  fold v in Hv. split_and!; [apply Hv|rewrite <- (vi_count _ _ Hv); apply Hv|..].
  - intros Hs. rewrite <- (vi_count _ _ Hv). by apply Hv.
  - intros c t Hc Ht. destruct (thread_at_exists v c t (vi_shape _ _ Hv) Hc Ht) as [th Hth].
    destruct (vi_thread _ _ Hv c t th ltac:(lia) ltac:(lia) Hth) as [O1 O2 O3 O4].
    exists th. split_and!; [done..| |].
    + eapply machine_of_cpu; [done|apply Hb'|apply Hb'].
    + intros Hf. by apply (vi_agrees _ _ Hv c t th Hf ltac:(lia) ltac:(lia) Hth).
Qed.

(** C6: what the result of [vm_run] means.  A run that returns success has not
    failed and has no reset pending: either a shutdown was requested, or every
    hardware thread of the machine has halted or was never started.  This holds
    over any number of warm resets inside the run. *)
Theorem vm_run_outcome b r b' :
  vm_bus (size:=size) b -> failed (bus_vm b) = false -> vm_run b r b' ->
  vm_bus (size:=size) b' /\
  (r = true ->
     failed (bus_vm b') = false /\ system_action (bus_vm b') <> VM_SYSTEM_ACTION_WARM_RESET /\
     (system_action (bus_vm b') = VM_SYSTEM_ACTION_NONE ->
        forall c t th, thread_at (bus_vm b') c t = Some th -> running (thread_state th) = false)).
Proof.
  intros Hb Hf. unfold vm_run. destruct (_ || _) eqn:E.
  { intros [-> ->]. by split. }
  apply orb_false_iff in E as [[_ E%Z.eqb_neq]%orb_false_iff _]. intros Hr.
  destruct (vm_run_loop_bus _ _ _ Hr Hb Hf E) as [Hb' Hok]. split; [done|]. intros Et.
  destruct (Hok Et) as (H1 & H2 & H3). split_and!; [done..|]. intros H4 c t th Hth.
  pose proof (vm_bus_inv b' Hb') as Hv. pose proof (runs_le_count _ _ _ _ Hth) as Hle.
  destruct (vi_why _ _ Hv H2) as [?|[?|H0]]; [congruence|done|].
  rewrite (vi_count _ _ Hv) in H0. unfold runs in Hle. destruct (running (thread_state th)); [lia|done].
Qed.

(** An instruction of one thread leaves the slot of every running one. *)
Lemma instruction_untouched b c t th c' t' th' :
  vm_bus (size:=size) b -> 0 <= c -> 0 <= t -> thread_at (bus_vm b) c t = Some th ->
  0 <= c' -> 0 <= t' -> thread_at (bus_vm b) c' t' = Some th' -> running (thread_state th') = true ->
  exists th'', thread_at (bus_vm (bus (cpu_step (mkMachine (thread_cpu th) b)).2)) c' t' = Some th'' /\
    thread_state th'' = thread_state th' /\ thread_cpu th'' = thread_cpu th'.
Proof.
  intros Hb Hc Ht Hth Hc' Ht' Hth' Hr'. pose proof (held_wf b c' t' th' Hb Hc' Ht' Hth' Hr') as Hheld.
  set (DI' := slot_held DI c' t' (thread_state th') (thread_cpu th')) in *.
  destruct (vi_thread _ _ (vm_bus_inv b Hb) c t th Hc Ht Hth) as [O1 O2 O3 O4].
  assert (@thread_machine D DI' b c t (mkMachine (thread_cpu th) b)) as Hinit.
  { split_and!; [|done..]. split; [|by apply bus_like_refl]. eapply machine_of_cpu; [done|done|apply Hb]. }
  destruct (step_keeps b c t DI' _ Hinit) as [([_ Hlike] & _) _].
  by destruct (held_release b _ _ _ _ _ Hb Hlike) as [_ H].
Qed.

(** *** Fairness *)

(** How far the cursor is from thread [t]. *)
Definition distance (core : Core) (t : Z) : Z := (t - next_thread core) mod thread_count core.

Lemma select_loop_distance n core t th :
  0 <= next_thread core < thread_count core -> 0 <= t < thread_count core ->
  core_threads core !! Z.to_nat t = Some th -> thread_state th = HARDWARE_THREAD_RUNNABLE ->
  distance core t < Z.of_nat n ->
  let '(sel, core') := select_loop n core in
  sel = Some t \/ (is_Some sel /\ distance core' t < distance core t).
Proof.
  revert core. induction n as [|n IH]; intros core Hn Ht Hth Hs Hd.
  { unfold distance in Hd. pose proof (Z.mod_pos_bound (t - next_thread core) (thread_count core)). lia. }
  cbn [select_loop]. set (core1 := set_next_thread _ core).
  assert (core_threads core1 = core_threads core /\ thread_count core1 = thread_count core) as [E1 E2] by done.
  assert (0 <= next_thread core1 < thread_count core) as Hn1 by (apply Z.mod_pos_bound; lia).
  destruct (decide (next_thread core = t)) as [Et|Hne].
  { rewrite Et, E1, Hth, bool_decide_eq_true_2 by done. by left. }
  assert (distance core1 t = distance core t - 1) as Hstep.
  { unfold distance in *. rewrite E2. cbn [next_thread core1 set_next_thread].
    set (m := thread_count core) in *. set (k := next_thread core) in *.
    rewrite <- (Zminus_mod_idemp_r t ((k + 1) mod m)), Z.mod_mod, Zminus_mod_idemp_r by lia.
    replace (t - (k + 1)) with (t - k - 1) by lia.
    rewrite <- Zminus_mod_idemp_l. apply Z.mod_small.
    pose proof (Z.mod_pos_bound (t - k) m ltac:(lia)). split; [|lia].
    destruct (Z.eq_dec ((t - k) mod m) 0) as [E0|]; [|lia]. exfalso. apply Hne. fold k.
    apply Z.mod_divide in E0 as [q Hq]; [|lia]. assert (- m < q * m < m) as Hqm by lia.
    assert (q = 0) as -> by (clear - Hqm; nia). lia. }
  rewrite E1. destruct (core_threads core !! Z.to_nat (next_thread core)) as [th0|] eqn:E0.
  - case_bool_decide; [right; split; [done|lia]|].
    specialize (IH core1). rewrite E1, E2 in IH. specialize (IH Hn1 Ht Hth Hs ltac:(lia)).
    destruct (select_loop n core1) as [sel core']. destruct IH as [?|[? ?]]; [by left|right; split; [done|lia]].
  - specialize (IH core1). rewrite E1, E2 in IH. specialize (IH Hn1 Ht Hth Hs ltac:(lia)).
    destruct (select_loop n core1) as [sel core']. destruct IH as [?|[? ?]]; [by left|right; split; [done|lia]].
Qed.

(** C8: a runnable thread gets its turn.  Whatever the other threads of the core
    do between two selections (start, halt, wait, wake up), a thread that stays
    runnable is selected within as many selections as the core has threads, so
    no thread starves another. *)
Theorem round_robin_fair (rounds : nat -> Core) n t :
  (forall i, thread_count (rounds i) = n /\ 0 <= next_thread (rounds i) < n) ->
  (forall i, next_thread (rounds (S i)) = next_thread (select_hardware_thread (rounds i)).2) ->
  0 <= t < n ->
  (forall i, exists th, core_threads (rounds i) !! Z.to_nat t = Some th /\ thread_state th = HARDWARE_THREAD_RUNNABLE) ->
  exists i, (i < Z.to_nat n)%nat /\ (select_hardware_thread (rounds i)).1 = Some t.
Proof.
  intros Hshape Hnext Ht Hrun.
  assert (forall k i, distance (rounds i) t < Z.of_nat k ->
    exists j, (i <= j < i + k)%nat /\ (select_hardware_thread (rounds j)).1 = Some t) as Hmain.
  { induction k as [|k IH]; intros i Hd.
    { unfold distance in Hd. destruct (Hshape i) as [E ?].
      pose proof (Z.mod_pos_bound (t - next_thread (rounds i)) (thread_count (rounds i)) ltac:(lia)). lia. }
    destruct (Hshape i) as [E Hn]. destruct (Hrun i) as (th & Hth & Hs).
    pose proof (select_loop_distance (length (core_threads (rounds i))) (rounds i) t th) as Hsel.
    fold (select_hardware_thread (rounds i)) in Hsel. specialize (Hsel ltac:(lia) ltac:(lia) Hth Hs).
    assert (distance (rounds i) t < Z.of_nat (length (core_threads (rounds i)))) as Hlt.
    { apply Z.mod_pos_bound. unfold thread_count in *. lia. }
    specialize (Hsel Hlt).
    pose proof (select_thread_spec (length (core_threads (rounds i))) (rounds i) ltac:(lia)) as Hspec.
    fold (select_hardware_thread (rounds i)) in Hspec.
    destruct (select_hardware_thread (rounds i)) as [sel core'] eqn:Esel. destruct Hspec as (T1 & T2 & _).
    destruct Hsel as [->|[_ Hless]].
    { exists i. rewrite Esel. split; [lia|done]. }
    destruct (IH (S i)) as (j & Hj & Hsj); [|exists j; split; [lia|done]].
    destruct (Hshape (S i)) as [E' _]. unfold distance in *. rewrite Hnext, Esel, E'. cbn [snd].
    assert (thread_count core' = n) as En by (unfold thread_count in *; by rewrite T1).
    rewrite En in Hless. lia. }
  destruct (Hmain (Z.to_nat n) 0%nat) as (j & Hj & Hsj); [|exists j; split; [lia|done]].
  destruct (Hshape 0%nat) as [E _]. unfold distance. rewrite E.
  pose proof (Z.mod_pos_bound (t - next_thread (rounds 0%nat)) n ltac:(lia)). lia.
Qed.

(** *** Warm reset *)

Lemma clear_controller_get i w j r :
  w_router w = Some r -> 0 <= i -> 0 <= j ->
  exists r', w_router (clear_controller i w) = Some r' /\ length (targets r') = length (targets r) /\
    arr_get (targets r') j = if decide (i = j) then 0 else arr_get (targets r) j.
Proof.
  intros Hr Hi Hj. unfold clear_controller. rewrite Hr. eexists. split; [done|]. cbn [targets set_targets].
  split; [apply length_arr_set|]. unfold arr_get, arr_set, interrupt_controller_init. rewrite !nth_lookup, list_lookup_insert.
  destruct (decide (i = j)) as [->|Hne].
  - destruct (decide (_ /\ _)) as [_|Hn]; [done|]. rewrite lookup_ge_None_2; [done|]. apply not_and_r in Hn as [|]; lia.
  - by rewrite decide_False by lia.
Qed.

Lemma clear_controllers_zero l w j r :
  w_router w = Some r -> Forall (fun i => 0 <= i) l -> 0 <= j ->
  exists r', w_router (foldl (fun w index => clear_controller index w) w l) = Some r' /\
    (j ∈ l \/ arr_get (targets r) j = 0 -> arr_get (targets r') j = 0).
Proof.
  intros Hr Hl Hj. revert w r Hr. induction Hl as [|i l Hi Hl IH]; intros w r Hr; cbn [foldl].
  { exists r. split; [done|]. intros [[]%elem_of_nil|]; done. }
  destruct (clear_controller_get i w j r Hr Hi Hj) as (r1 & Hr1 & _ & Hg).
  destruct (IH _ r1 Hr1) as (r' & Hr' & Hz). exists r'. split; [done|]. intros H. apply Hz. rewrite Hg.
  rewrite elem_of_cons in H. destruct (decide (i = j)); [by right|]. destruct H as [[->|?]|?]; [done|by left|by right].
Qed.

(** A warm reset brings the machine back to its state after power-on, with
    memory kept.  Every thread of every core is initialised and offline, except
    that thread 0 of core 0 is runnable at the reset vector; every interrupt
    controller of a thread is empty; one thread is active, no action and no stop
    is pending, and the invariant holds, so the run can go on. *)
Theorem warm_reset_reboots b :
  vm_bus (size:=size) b ->
  vm_bus (size:=size) (prepare_warm_reset b) /\
  rebooted (bus_vm (bus_reset b)) (bus_vm (prepare_warm_reset b)) /\
  (forall r c t, w_router (bus_world (bus_reset b)) = Some r ->
     0 <= c < core_count (bus_vm (bus_reset b)) -> 0 <= t < threads_per_core (bus_vm (bus_reset b)) ->
     exists r', w_router (bus_world (prepare_warm_reset b)) = Some r' /\
       arr_get (targets r') (logical_index (bus_vm (bus_reset b)) c t) = 0).
Proof.
  intros Hb. destruct (warm_reset_bus b Hb) as [H1 H2]. split_and!; [done..|]. intros r c t Hr Hc Ht.
  set (v := bus_vm (bus_reset b)) in *.
  destruct (clear_controllers_zero (seqZ 0 (core_count v) ≫= fun c => logical_index v c <$> seqZ 0 (threads_per_core v))
    (bus_world (bus_reset b)) (logical_index v c t) r Hr) as (r' & Hr' & Hz).
  - apply list.Forall_forall. intros i (c' & Hi & Hc')%list_elem_of_bind.
    apply list_elem_of_fmap in Hi as (t' & -> & Ht'). apply elem_of_seqZ in Hc', Ht'. unfold logical_index. nia.
  - unfold logical_index. nia.
  - exists r'. split; [exact Hr'|]. apply Hz. left. apply list_elem_of_bind. exists c.
    split; [apply list_elem_of_fmap; exists t; split; [done|]|]; apply elem_of_seqZ; lia.
Qed.

End theorems.

(** ** Commands and running threads *)

Section untouched.
Context {D : Type} {size : Z} {DI : DevInv D} {VS : VmSlot D} {VL : VmSlotLaws D size}
  {CS : CoreControlSlot D} {CL : CoreControlSlotLaws D} {SS : SystemControlSlot D} {SL : SystemControlSlotLaws D}
  `{HN : HostNan}.
Implicit Types (b : Bus D).

(** A request to the system controller changes no thread. *)
Lemma system_write_cores d v offset width value : cores (system_control_write d v offset width value).2.2 = cores v.
Proof.
  unfold system_control_write, system_execute_command, vm_request_system_action. by repeat case_match; simplify_eq.
Qed.

(** The scheduling state and the CPU stored for thread [t] of core [c] in [v]
    are those of [th]. *)
Definition slot_unchanged (v : VirtualMachine) (c t : Z) (th : HardwareThread) : Prop :=
  exists th', thread_at v c t = Some th' /\ thread_state th' = thread_state th /\ thread_cpu th' = thread_cpu th.

(** C7: the CPU a core works on is its own.  Let the bus carry the core
    controller, the system controller and devices that do not touch the virtual
    machine, and take a thread that is runnable or waiting.  Whatever value is
    written, with whatever width, to whatever register of the core controller
    (a start, stop, reset or interrupt command for that very thread included)
    or of the system controller, and whatever instruction any running thread
    executes, the scheduling state and the CPU stored for the thread stay what
    they were: no command overwrites registers that a core is using, and
    storing a CPU back after its instruction loses no update. *)
Theorem running_threads_untouched b c t th :
  machine_bus (size:=size) b -> 0 <= c -> 0 <= t -> thread_at (bus_vm b) c t = Some th ->
  running (thread_state th) = true ->
  (forall rom offset width value, is_u64 value ->
     slot_unchanged (world_vm (core_control_write rom (bus_world b) offset width value).2) c t th) /\
  (forall d offset width value,
     slot_unchanged (system_control_write d (bus_vm b) offset width value).2.2 c t th) /\
  (forall c' t' th', 0 <= c' -> 0 <= t' -> thread_at (bus_vm b) c' t' = Some th' -> running (thread_state th') = true ->
     slot_unchanged (bus_vm (bus (cpu_step (mkMachine (thread_cpu th') b)).2)) c t th).
Proof.
  intros Hb Hc Ht Hth Hr. pose proof (bw_world b (mb_wf b Hb)) as Hw. split_and!.
  - intros rom offset width value Hv. by apply (proj2 (core_write_step rom (bus_world b) offset width value Hv Hw) Hw).
  - intros d offset width value. exists th. split; [|done]. unfold thread_at. by rewrite system_write_cores.
  - intros c' t' th' Hc' Ht' Hth' _. by apply (instruction_untouched b c' t' th'); [apply machine_vm_bus|..].
Qed.

End untouched.

(** ** The start command *)

Section start.
Context {D : Type} {size : Z} {DI : DevInv D} {VS : VmSlot D} {VL : VmSlotLaws D size}
  {CS : CoreControlSlot D} {CL : CoreControlSlotLaws D} `{HN : HostNan}.
Implicit Types (w : World D).

Lemma world_vm_control f w : world_vm (update_core_control f w) = world_vm w.
Proof. apply cc_get_vm. Qed.

Lemma control_get f w : world_core_control (update_core_control f w) = f (world_core_control w).
Proof. apply cc_get_put. Qed.

Lemma vm_fetch_ram rom p w w' : w_ram w' = w_ram w -> vm_fetch rom p w' = vm_fetch rom p w.
Proof. intros E. unfold vm_fetch, bus_fetch, bus_ram. cbn. by rewrite E. Qed.

(** Starting a hardware thread through the core control device, on every
    branch.  An unknown target, an entry address where nothing can be fetched
    and a thread that is not offline (or a machine that is stopping) are
    reported each by its own code and leave the machine as it is.  Otherwise the
    command reports success: the thread is runnable, its CPU is initialised,
    keeps its core and thread number and will execute at the entry address, the
    active counter has grown by one, and no other thread is touched. *)
Theorem core_start_command rom w :
  world_wf w ->
  let d := world_core_control w in
  let v := world_vm w in
  let w' := (core_control_write rom w CORE_CONTROL_COMMAND_OFFSET 8 CORE_CONTROL_COMMAND_START).2 in
  let result := core_last_result (world_core_control w') in
  match vm_hardware_thread v (target_core d) (target_thread d) with
  | None => result = CORE_CONTROL_RESULT_INVALID_TARGET /\ world_vm w' = v
  | Some th =>
      if negb (bool_decide (is_Some (vm_fetch rom (entry_pc d) w)))
      then result = CORE_CONTROL_RESULT_INVALID_ENTRY /\ world_vm w' = v
      else if stop_requested v || negb (bool_decide (thread_state th = HARDWARE_THREAD_OFFLINE))
      then result = CORE_CONTROL_RESULT_INVALID_STATE /\ world_vm w' = v
      else
        result = CORE_CONTROL_RESULT_SUCCESS /\
        active_thread_count (world_vm w') = active_thread_count v + 1 /\
        (forall c t, 0 <= c -> 0 <= t -> thread_at (world_vm w') c t =
           if decide (target_core d = c /\ target_thread d = t)
           then Some (mkThread (fresh_cpu (entry_pc d) (thread_cpu th)) HARDWARE_THREAD_RUNNABLE false)
           else thread_at v c t)
  end.
Proof.
  intros Hwf d v w' result. destruct (world_core_wf w Hwf) as [C1 C2 C3 C4 C5 C6]. fold d in C1, C2, C3.
  set (w1 := update_core_control (set_core_command CORE_CONTROL_COMMAND_START) w).
  assert (world_vm w1 = v) as Ev by apply world_vm_control.
  assert (world_core_control w1 = set_core_command CORE_CONTROL_COMMAND_START d) as Ed by apply control_get.
  assert (selected_thread d v = vm_hardware_thread v (target_core d) (target_thread d)) as Esel.
  { unfold selected_thread. rewrite (proj2 (Z.ltb_ge _ _)), (proj2 (Z.ltb_ge SIZE_MAX (target_thread d)));
      unfold SIZE_MAX, UINT64_MAX, is_u64 in *; [done|lia..]. }
  assert (w' = match vm_hardware_thread v (target_core d) (target_thread d) with
    | None => update_core_control (set_core_result CORE_CONTROL_RESULT_INVALID_TARGET) w1
    | Some _ => match vm_fetch rom (entry_pc d) w1 with
        | None => update_core_control (set_core_result CORE_CONTROL_RESULT_INVALID_ENTRY) w1
        | Some _ => report_state (vm_activate_hardware_thread rom (target_core d) (target_thread d) (entry_pc d) w1)
        end end) as Ew.
  { unfold w', core_control_write, core_execute_command. cbn [snd Z.eqb]. fold w1. fold d v. rewrite Esel, Ed. reflexivity. }
  rewrite (vm_fetch_ram rom (entry_pc d) w w1 eq_refl) in Ew.
  unfold result. rewrite Ew. clear Ew result w'.
  destruct (vm_hardware_thread v (target_core d) (target_thread d)) as [th|] eqn:Hth;
    [|rewrite control_get, world_vm_control; by rewrite Ev].
  destruct (vm_fetch rom (entry_pc d) w) as [x|] eqn:Hf.
  2:{ rewrite bool_decide_eq_false_2 by (by intros []). cbn [negb]. rewrite control_get, world_vm_control. by rewrite Ev. }
  rewrite bool_decide_eq_true_2 by done. cbn [negb].
  destruct (stop_requested v || _) eqn:E.
  - assert (vm_activate_hardware_thread rom (target_core d) (target_thread d) (entry_pc d) w1 = (false, w1)) as ->.
    { unfold vm_activate_hardware_thread. rewrite Ev, Hth, (vm_fetch_ram rom (entry_pc d) w w1 eq_refl), Hf.
      apply orb_true_iff in E as [->|E]; [done|]. rewrite E. by destruct (stop_requested v). }
    unfold report_state. rewrite control_get, world_vm_control. by rewrite Ev.
  - apply orb_false_iff in E as [Hs Ho%negb_false_iff%bool_decide_eq_true].
    rewrite (activate_eq rom _ _ _ w1 th) by (rewrite ?Ev, ?(vm_fetch_ram rom (entry_pc d) w w1 eq_refl), ?Hf; done).
    unfold report_state. rewrite control_get, world_vm_control, clear_controller_vm, world_vm_update, Ev.
    pose proof (world_wf_vm w Hwf) as Hv. fold v in Hv. pose proof (count_bound v (vi_shape _ _ Hv)).
    split_and!; [done| |].
    + cbn. rewrite wrap64_id; [done|]. rewrite (vi_count _ _ Hv). unfold is_u64. lia.
    + intros c t Hc Ht. apply vm_hardware_thread_some in Hth as (_ & _ & Hth).
      change (thread_at (update_thread (target_core d) (target_thread d) (fun th =>
        mkThread (fresh_cpu (entry_pc d) (thread_cpu th)) HARDWARE_THREAD_RUNNABLE false) v) c t =
        if decide (target_core d = c /\ target_thread d = t)
        then Some (mkThread (fresh_cpu (entry_pc d) (thread_cpu th)) HARDWARE_THREAD_RUNNABLE false)
        else thread_at v c t).
      rewrite thread_at_update by (apply C1 || apply C2 || done). destruct (decide _) as [[<- <-]|]; [|done]. by rewrite Hth.
Qed.

End start.

(** ** The machine at work *)

(** The boot thread executes HALT; it was the only one running. *)
Definition demo_halted : Bus Contexts := (core_worker_round 0 demo_vm_bus).2.

Lemma vm_workers_invariant_witness :
  stop_requested (bus_vm demo_vm_bus) = false /\ running_count (bus_vm demo_vm_bus) = 1 /\
  stop_requested (bus_vm demo_halted) = true.
Proof.
  split; [vm_compute; reflexivity|]. split; [vm_compute; reflexivity|].
  assert (rtc worker_step demo_vm_bus demo_halted) as Hr.
  { apply rtc_once. apply (ws_core 0 demo_vm_bus). vm_compute. split; [discriminate|reflexivity]. }
  destruct (vm_workers_invariant demo_vm_bus demo_halted demo_vm_bus_ok Hr) as (_ & H & _).
  apply H. vm_compute. reflexivity.
Defined.

Lemma clear_flags_same (b : Bus Contexts) :
  stop_requested (bus_vm b) = false -> failed (bus_vm b) = false -> clear_flags b = b.
Proof. destruct b as [[ram router [[] cc sc]] ms rom n]. cbn. by intros -> ->. Qed.

Lemma demo_run : vm_run demo_vm_bus true demo_halted.
Proof.
  assert (active_thread_count (bus_vm demo_vm_bus) = 1) as E1 by (vm_compute; reflexivity).
  assert (core_count (bus_vm demo_vm_bus) = 2) as E2 by (vm_compute; reflexivity).
  assert (vm_system_action (bus_vm demo_vm_bus) = VM_SYSTEM_ACTION_NONE) as E3 by (vm_compute; reflexivity).
  assert (clear_flags demo_vm_bus = demo_vm_bus) as E4 by (apply clear_flags_same; vm_compute; reflexivity).
  unfold vm_run. rewrite E1, E2, E3. cbn [Z.eqb orb]. rewrite bool_decide_eq_true_2 by reflexivity. cbn [negb].
  apply vr_done; [|vm_compute; discriminate].
  assert (negb (failed (bus_vm demo_halted)) = true) as <- by (vm_compute; reflexivity).
  apply rw_stopped; [|vm_compute; reflexivity]. rewrite E4. apply rtc_once, (ws_core 0 demo_vm_bus).
  rewrite E2. split; [discriminate|reflexivity].
Qed.

Lemma vm_run_outcome_witness :
  vm_run demo_vm_bus true demo_halted /\
  forall c t th, thread_at (bus_vm demo_halted) c t = Some th -> running (thread_state th) = false.
Proof.
  split; [exact demo_run|].
  destruct (vm_run_outcome demo_vm_bus true demo_halted demo_vm_bus_ok ltac:(vm_compute; reflexivity) demo_run) as [_ H].
  destruct (H eq_refl) as (_ & _ & H'). apply H'. vm_compute. reflexivity.
Defined.

Definition boot_thread : HardwareThread := set_thread_state HARDWARE_THREAD_RUNNABLE (init_thread 0 0).

Lemma demo_boot_thread : thread_at (bus_vm demo_vm_bus) 0 0 = Some boot_thread.
Proof. vm_compute. reflexivity. Qed.

(** The boot thread about to execute [STORE64 [r1], r2], which writes START to
    the command register of the core controller, with thread 1 of core 1 as the
    target. *)
Definition commander (th : HardwareThread) : HardwareThread :=
  set_thread_cpu (set_register 2 CORE_CONTROL_COMMAND_START
    (set_register 1 (CORE_CONTROL_MMIO_BASE + CORE_CONTROL_COMMAND_OFFSET) (set_pc 0x10 (thread_cpu th)))) th.

Definition demo_command_world : World Contexts :=
  mkWorld (store_bytes demo_memory 0x10 [OP_STORE64; 1; 2]) (w_router demo_vm_world)
    (mkContexts (update_thread 0 0 commander (ctx_vm (w_dev demo_vm_world)))
       (mkCoreControl 1 1 0 0 0 0) system_control_device_init).

Definition demo_command_bus : Bus Contexts := demo_bus demo_command_world.

Lemma demo_command_wf : world_wf demo_command_world.
Proof.
  destruct demo_world_wf as (H1 & H2 & H3 & H4 & H5). split_and!.
  - apply store_bytes_wf; [exact H1|]. repeat (apply list.Forall_cons; split; [by vm_compute|]). apply list.Forall_nil_2.
  - exact H2.
  - split_and!; [|split; by vm_compute|exact H5].
    eapply (vm_inv_thread demo_size _ 0 0 commander boot_thread H3); [lia|lia|vm_compute; reflexivity| |done|done].
    destruct (vi_thread _ _ H3 0 0 boot_thread (Z.le_refl 0) (Z.le_refl 0) eq_refl) as [[O1 _ _] _ _ _].
    split; [|done..]. split; [|done..]. destruct O1 as [[R1 R2] R3 R4 R5 R6 R7 R8 R9 R10 R11 R12 R13 R14 R15 R16].
    split; try assumption; [|by vm_compute]. split; [done|].
    repeat apply arr_set_Forall; [by vm_compute..|exact R2].
Qed.

(** The command starts thread 1 of core 1; the boot thread's slot stays. *)
Lemma running_threads_untouched_witness :
  let v := bus_vm (bus (cpu_step (mkMachine (thread_cpu (commander boot_thread)) demo_command_bus)).2) in
  slot_unchanged v 0 0 (commander boot_thread) /\
  (thread_state <$> thread_at v 1 1) = Some HARDWARE_THREAD_RUNNABLE /\
  (thread_state <$> thread_at (bus_vm demo_command_bus) 1 1) = Some HARDWARE_THREAD_OFFLINE.
Proof.
  assert (thread_at (bus_vm demo_command_bus) 0 0 = Some (commander boot_thread)) as Hth by (vm_compute; reflexivity).
  destruct (running_threads_untouched demo_command_bus 0 0 (commander boot_thread)
    (demo_bus_ok demo_command_world demo_command_wf ltac:(vm_compute; reflexivity))
    (Z.le_refl 0) (Z.le_refl 0) Hth eq_refl) as (_ & _ & H).
  split; [exact (H 0 0 (commander boot_thread) (Z.le_refl 0) (Z.le_refl 0) Hth eq_refl)|].
  split; vm_compute; reflexivity.
Defined.

Definition demo_core (k : Z) : Core := mkCore [boot_thread; boot_thread] k.

Lemma demo_core_next i :
  next_thread (demo_core (Z.of_nat (S i) mod 2)) = next_thread (select_hardware_thread (demo_core (Z.of_nat i mod 2))).2.
Proof.
  pose proof (Z.mod_pos_bound (Z.of_nat i) 2 ltac:(lia)) as H. cbn [next_thread demo_core].
  rewrite Nat2Z.inj_succ. assert (Z.of_nat i mod 2 = 0 \/ Z.of_nat i mod 2 = 1) as [E|E] by lia;
    rewrite E; unfold Z.succ; rewrite <- Zplus_mod_idemp_l, E; reflexivity.
Qed.

Lemma round_robin_fair_witness :
  exists i, (i < 2)%nat /\ (select_hardware_thread (demo_core (Z.of_nat i mod 2))).1 = Some 1.
Proof.
  apply (round_robin_fair (fun i => demo_core (Z.of_nat i mod 2)) 2 1).
  - intros i. split; [reflexivity|]. apply Z.mod_pos_bound. lia.
  - exact demo_core_next.
  - lia.
  - intros i. exists boot_thread. split; reflexivity.
Defined.

Lemma warm_reset_reboots_witness :
  rebooted (bus_vm (bus_reset demo_halted)) (bus_vm (prepare_warm_reset demo_halted)) /\
  running_count (bus_vm demo_halted) = 0 /\ running_count (bus_vm (prepare_warm_reset demo_halted)) = 1.
Proof.
  assert (vm_bus (size:=demo_size) demo_halted) as Hb.
  { apply core_round_bus; [exact demo_vm_bus_ok|apply Z.le_refl]. }
  destruct (warm_reset_reboots demo_halted Hb) as (_ & H & _). split; [exact H|].
  split; vm_compute; reflexivity.
Defined.

(** Core control set up to start thread 1 of core 1 at address 0. *)
Definition demo_start_world : World Contexts :=
  update_core_control (set_target_thread 1) (update_core_control (set_target_core 1) demo_vm_world).

Lemma demo_start_wf : world_wf demo_start_world.
Proof.
  destruct demo_world_wf as (H1 & H2 & H3 & H4 & H5). split_and!; [exact H1|exact H2|].
  split_and!; [exact H3| |exact H5]. split; by vm_compute.
Qed.

Lemma core_start_command_witness :
  let w' := (core_control_write no_rom demo_start_world CORE_CONTROL_COMMAND_OFFSET 8 CORE_CONTROL_COMMAND_START).2 in
  core_last_result (world_core_control w') = CORE_CONTROL_RESULT_SUCCESS /\
  active_thread_count (world_vm w') = 2.
Proof.
  pose proof (core_start_command no_rom demo_start_world demo_start_wf) as H. cbv zeta in H |- *.
  assert (vm_hardware_thread (world_vm demo_start_world) (target_core (world_core_control demo_start_world))
    (target_thread (world_core_control demo_start_world)) = Some (init_thread 1 1)) as E1 by (vm_compute; reflexivity).
  assert (bool_decide (is_Some (vm_fetch no_rom (entry_pc (world_core_control demo_start_world)) demo_start_world)) = true)
    as E2 by (vm_compute; reflexivity).
  assert (stop_requested (world_vm demo_start_world) = false) as E3 by (vm_compute; reflexivity).
  assert (active_thread_count (world_vm demo_start_world) = 1) as E4 by (vm_compute; reflexivity).
  rewrite E1, E2, E3, E4 in H. destruct H as (R1 & R2 & _). split; [exact R1|exact R2].
Defined.
