(* ===== verification/VmRace.v ===== *)
(** Interleavings of the control plane of src/vm.c.

    The core workers finish threads while a thread on another core starts,
    stops or resets threads through the core control device.  Each atomic access
    of [finish_hardware_thread], [vm_activate_hardware_thread],
    [vm_reset_hardware_thread] and [vm_request_hardware_thread_stop] is a step
    here, and so is each group of plain accesses to a CPU between two of them;
    the steps of different workers interleave freely.  The bus holds the
    device's lock during a register write, so at most one worker executes a
    command.  Of a CPU the model keeps the flag [halted] and whether it has
    executed an instruction since it was last initialised. *)

From S2P Require Import Prelude Vm VmProof.
From stdpp Require Import base list numbers option relations.
From Stdlib Require Import ZArith Lia Bool.

#[local] Open Scope Z_scope.

Record RaceThread := mkRaceThread {
  rt_state : HardwareThreadState;
  rt_stop : bool;
  rt_halted : bool;
  rt_executed : bool;
}.

Definition set_rt_state x th := mkRaceThread x (rt_stop th) (rt_halted th) (rt_executed th).
Definition set_rt_stop x th := mkRaceThread (rt_state th) x (rt_halted th) (rt_executed th).
Definition set_rt_halted x th := mkRaceThread (rt_state th) (rt_stop th) x (rt_executed th).
Definition set_rt_executed x th := mkRaceThread (rt_state th) (rt_stop th) (rt_halted th) x.
(** [cpu_init] and the identity and entry point that follow it. *)
Definition rt_init th := mkRaceThread (rt_state th) (rt_stop th) false false.

(** Where a worker is; the thread it works on, for commands also the thread
    that issued them. *)
Inductive WorkerPc :=
  | Working
  | FinishCpu (i : nat)
  | FinishStop (i : nat)
  | FinishCount (i : nat)
  | FinishLast
  | ActivateCas (u i : nat)
  | ActivateCpu (u i : nat)
  | ActivateStop (u i : nat)
  | ActivateCount (u i : nat)
  | ActivateState (u i : nat)
  | ResetCpu (u i : nat)
  | ResetStop (u i : nat)
  | ResetState (u i : nat)
  | StopStore (u i : nat).

Record Race := mkRace {
  race_threads : list RaceThread;
  race_workers : list WorkerPc;
  race_active : Z;
  race_stop : bool;
}.

(** The thread on whose behalf a worker executes a command. *)
Definition issuer (pc : WorkerPc) : option nat :=
  match pc with
  | ActivateCas u _ | ActivateCpu u _ | ActivateStop u _ | ActivateCount u _ | ActivateState u _
  | ResetCpu u _ | ResetStop u _ | ResetState u _ | StopStore u _ => Some u
  | _ => None
  end.

(** No worker holds the lock of the device. *)
Definition lock_free (s : Race) : Prop := Forall (fun pc => issuer pc = None) (race_workers s).

Definition goto (w : nat) (pc : WorkerPc) (s : Race) : Race :=
  mkRace (race_threads s) (<[w := pc]> (race_workers s)) (race_active s) (race_stop s).
Definition on_race (i : nat) (f : RaceThread -> RaceThread) (s : Race) : Race :=
  mkRace (alter f i (race_threads s)) (race_workers s) (race_active s) (race_stop s).
Definition add_active (n : Z) (s : Race) : Race :=
  mkRace (race_threads s) (race_workers s) (race_active s + n) (race_stop s).
Definition stop_race (s : Race) : Race := mkRace (race_threads s) (race_workers s) (race_active s) true.

Section race.
(** The core whose worker runs a thread: [i / threads_per_core]. *)
Variable core_of : nat -> nat.

Definition at_pc (s : Race) (w : nat) (pc : WorkerPc) : Prop := race_workers s !! w = Some pc.
Definition in_state (s : Race) (i : nat) (P : HardwareThreadState -> Prop) : Prop :=
  exists th, race_threads s !! i = Some th /\ P (rt_state th).

(** The accesses of [finish_hardware_thread]. *)
Inductive finish_step : Race -> Race -> Prop :=
| rs_finish_cas s w i : at_pc s w Working -> core_of i = w -> in_state s i (fun x => running x = true) ->
    finish_step s (goto w (FinishCpu i) (on_race i (set_rt_state HARDWARE_THREAD_HALTED) s))
| rs_finish_cpu s w i : at_pc s w (FinishCpu i) -> finish_step s (goto w (FinishStop i) (on_race i (set_rt_halted true) s))
| rs_finish_stop s w i : at_pc s w (FinishStop i) -> finish_step s (goto w (FinishCount i) (on_race i (set_rt_stop false) s))
| rs_finish_count s w i : at_pc s w (FinishCount i) ->
    finish_step s (goto w (if race_active s =? 1 then FinishLast else Working) (add_active (-1) s))
| rs_finish_last s w : at_pc s w FinishLast -> finish_step s (goto w Working (stop_race s)).

(** The accesses of the commands of the core control device. *)
Inductive command_step : Race -> Race -> Prop :=
(* vm_activate_hardware_thread *)
| rs_activate_load s w u i : at_pc s w Working -> core_of u = w -> lock_free s ->
    in_state s u (fun x => x = HARDWARE_THREAD_RUNNABLE) -> race_stop s = false -> command_step s (goto w (ActivateCas u i) s)
| rs_activate_fail s w u i : at_pc s w (ActivateCas u i) -> command_step s (goto w Working s)
| rs_activate_cas s w u i : at_pc s w (ActivateCas u i) -> in_state s i (fun x => x = HARDWARE_THREAD_OFFLINE) ->
    command_step s (goto w (ActivateCpu u i) (on_race i (set_rt_state HARDWARE_THREAD_STARTING) s))
| rs_activate_cpu s w u i : at_pc s w (ActivateCpu u i) -> command_step s (goto w (ActivateStop u i) (on_race i rt_init s))
| rs_activate_stop s w u i : at_pc s w (ActivateStop u i) ->
    command_step s (goto w (ActivateCount u i) (on_race i (set_rt_stop false) s))
| rs_activate_count s w u i : at_pc s w (ActivateCount u i) -> command_step s (goto w (ActivateState u i) (add_active 1 s))
| rs_activate_state s w u i : at_pc s w (ActivateState u i) ->
    command_step s (goto w Working (on_race i (set_rt_state HARDWARE_THREAD_RUNNABLE) s))
(* vm_reset_hardware_thread *)
| rs_reset_cas s w u i : at_pc s w Working -> core_of u = w -> lock_free s ->
    in_state s u (fun x => x = HARDWARE_THREAD_RUNNABLE) ->
    in_state s i (fun x => x = HARDWARE_THREAD_OFFLINE \/ x = HARDWARE_THREAD_HALTED) ->
    command_step s (goto w (ResetCpu u i) (on_race i (set_rt_state HARDWARE_THREAD_STARTING) s))
| rs_reset_cpu s w u i : at_pc s w (ResetCpu u i) -> command_step s (goto w (ResetStop u i) (on_race i rt_init s))
| rs_reset_stop s w u i : at_pc s w (ResetStop u i) ->
    command_step s (goto w (ResetState u i) (on_race i (set_rt_stop false) s))
| rs_reset_state s w u i : at_pc s w (ResetState u i) ->
    command_step s (goto w Working (on_race i (set_rt_state HARDWARE_THREAD_OFFLINE) s))
(* vm_request_hardware_thread_stop *)
| rs_stop_load s w u i : at_pc s w Working -> core_of u = w -> lock_free s ->
    in_state s u (fun x => x = HARDWARE_THREAD_RUNNABLE) -> in_state s i (fun x => running x = true) ->
    command_step s (goto w (StopStore u i) s)
| rs_stop_store s w u i : at_pc s w (StopStore u i) -> command_step s (goto w Working (on_race i (set_rt_stop true) s)).

(** The loop of [core_worker]: an instruction, and the exchanges with the
    waiting state. *)
Inductive turn_step : Race -> Race -> Prop :=
| rs_execute s w i th : at_pc s w Working -> core_of i = w -> race_threads s !! i = Some th ->
    rt_state th = HARDWARE_THREAD_RUNNABLE -> rt_halted th = false ->
    turn_step s (on_race i (set_rt_executed true) s)
| rs_wait s w i : at_pc s w Working -> core_of i = w -> in_state s i (fun x => x = HARDWARE_THREAD_RUNNABLE) ->
    turn_step s (on_race i (set_rt_state HARDWARE_THREAD_WAITING) s)
| rs_wake s w i : at_pc s w Working -> core_of i = w -> in_state s i (fun x => x = HARDWARE_THREAD_WAITING) ->
    turn_step s (on_race i (set_rt_state HARDWARE_THREAD_RUNNABLE) s).

Inductive race_step : Race -> Race -> Prop :=
| race_finish s s' : finish_step s s' -> race_step s s'
| race_command s s' : command_step s s' -> race_step s s'
| race_turn s s' : turn_step s s' -> race_step s s'.

(** ** What the counter means *)

Definition rt_runs (th : RaceThread) : Z := if running (rt_state th) then 1 else 0.

(** A thread that is counted while it does not run: it has halted and is not
    yet subtracted, or has been added and does not run yet. *)
Definition in_transit (pc : WorkerPc) : Z :=
  match pc with FinishCpu _ | FinishStop _ | FinishCount _ | ActivateState _ _ => 1 | _ => 0 end.

Definition threads_running (s : Race) : Z := sum_of rt_runs (race_threads s).
Definition threads_in_transit (s : Race) : Z := sum_of in_transit (race_workers s).

(** The thread a command prepares. *)
Definition prepares (pc : WorkerPc) : option nat :=
  match pc with
  | ActivateCpu _ i | ActivateStop _ i | ActivateCount _ i | ActivateState _ i
  | ResetCpu _ i | ResetStop _ i | ResetState _ i => Some i
  | _ => None
  end.

Record race_inv (s : Race) : Prop := {
  ri_count : race_active s = threads_running s + threads_in_transit s;
  ri_lock w w' pc pc' : at_pc s w pc -> at_pc s w' pc' -> is_Some (issuer pc) -> is_Some (issuer pc') -> w = w';
  ri_issuer w pc u : at_pc s w pc -> issuer pc = Some u ->
    core_of u = w /\ in_state s u (fun x => x = HARDWARE_THREAD_RUNNABLE);
  ri_prepares w pc i : at_pc s w pc -> prepares pc = Some i -> in_state s i (fun x => x = HARDWARE_THREAD_STARTING);
  ri_stop : race_stop s = true \/ (exists w, at_pc s w FinishLast) -> race_active s = 0;
}.

Lemma in_state_alter s i f u P n ws st :
  in_state (mkRace (alter f i (race_threads s)) ws n st) u P <->
  if decide (i = u) then exists th, race_threads s !! u = Some th /\ P (rt_state (f th)) else in_state s u P.
Proof.
  unfold in_state. cbn [race_threads]. destruct (decide (i = u)) as [<-|Hne].
  - rewrite list_lookup_alter_eq. split.
    + intros (th & H & HP). destruct (race_threads s !! i) as [th0|]; [|done]. injection H as <-. by exists th0.
    + intros (th & -> & HP). by exists (f th).
  - by rewrite list_lookup_alter_ne.
Qed.

(** A worker moves on and changes at most one thread. *)
Lemma race_inv_update s w pc pc' i f d n stop' :
  race_inv s -> at_pc s w pc ->
  sum_of rt_runs (alter f i (race_threads s)) = sum_of rt_runs (race_threads s) + d ->
  n = d + in_transit pc' - in_transit pc ->
  (is_Some (issuer pc') -> is_Some (issuer pc) \/ lock_free s) ->
  (forall w2 pc2 th, w2 <> w -> at_pc s w2 pc2 -> race_threads s !! i = Some th ->
     (issuer pc2 = Some i -> rt_state th = HARDWARE_THREAD_RUNNABLE -> rt_state (f th) = HARDWARE_THREAD_RUNNABLE) /\
     (prepares pc2 = Some i -> rt_state th = HARDWARE_THREAD_STARTING -> rt_state (f th) = HARDWARE_THREAD_STARTING)) ->
  let s' := mkRace (alter f i (race_threads s)) (<[w := pc']> (race_workers s)) (race_active s + n) stop' in
  (forall u, issuer pc' = Some u -> core_of u = w /\ in_state s' u (fun x => x = HARDWARE_THREAD_RUNNABLE)) ->
  (forall j, prepares pc' = Some j -> in_state s' j (fun x => x = HARDWARE_THREAD_STARTING)) ->
  (stop' = true \/ pc' = FinishLast \/ race_stop s = true \/ (exists w2, at_pc s w2 FinishLast) -> race_active s + n = 0) ->
  race_inv s'.
Proof.
  intros [I1 I2 I3 I4 I5] Hpc Hsum Hn Hlock Hother s' Hiss Hprep Hstop.
  assert (forall w2 pc2, at_pc s' w2 pc2 -> (w2 = w /\ pc2 = pc') \/ (w2 <> w /\ at_pc s w2 pc2)) as Hat.
  { intros w2 pc2 H. unfold at_pc, s' in *. cbn [race_workers] in *. rewrite list_lookup_insert in H.
    case_decide as E; [left; destruct E as [-> _]; by injection H as <-|right].
    split; [|done]. intros ->. apply E. split; [done|]. by eapply lookup_lt_Some. }
  assert (forall w2 pc2 u, w2 <> w -> at_pc s w2 pc2 ->
    (issuer pc2 = Some u -> in_state s' u (fun x => x = HARDWARE_THREAD_RUNNABLE)) /\
    (prepares pc2 = Some u -> in_state s' u (fun x => x = HARDWARE_THREAD_STARTING))) as Hkeep.
  { intros w2 pc2 u Hne H2. unfold s'. rewrite !in_state_alter. destruct (decide (i = u)) as [<-|].
    - split; intros H.
      + destruct (I3 _ _ _ H2 H) as [_ (th & Hth & Hs)]. exists th. split; [done|]. by apply (Hother w2 pc2 th).
      + destruct (I4 _ _ _ H2 H) as (th & Hth & Hs). exists th. split; [done|]. by apply (Hother w2 pc2 th).
    - split; intros H; [by apply (I3 _ _ _ H2 H)|by apply (I4 _ _ _ H2 H)]. }
  split.
  - unfold threads_running, threads_in_transit, s'. cbn [race_threads race_workers race_active]. rewrite Hsum, list_insert_alter.
    erewrite sum_of_alter by exact Hpc. unfold threads_running, threads_in_transit in I1. lia.
  - intros w1 w2 pc1 pc2 H1 H2 S1 S2. destruct (Hat _ _ H1) as [[-> ->]|[N1 A1]], (Hat _ _ H2) as [[-> ->]|[N2 A2]]; [done|..].
    + destruct (Hlock S1) as [S|S]; [by eapply I2|]. unfold lock_free in S. rewrite list.Forall_forall in S.
      destruct S2 as [? S2]. rewrite (S pc2) in S2; [done|]. by eapply list_elem_of_lookup_2.
    + destruct (Hlock S2) as [S|S]; [by eapply I2|]. unfold lock_free in S. rewrite list.Forall_forall in S.
      destruct S1 as [? S1]. rewrite (S pc1) in S1; [done|]. by eapply list_elem_of_lookup_2.
    + by eapply I2.
  - intros w2 pc2 u H2 Hu. destruct (Hat _ _ H2) as [[-> ->]|[N2 A2]]; [by apply Hiss|].
    split; [by apply (I3 _ _ _ A2 Hu)|by apply (Hkeep w2 pc2 u N2 A2)].
  - intros w2 pc2 u H2 Hu. destruct (Hat _ _ H2) as [[-> ->]|[N2 A2]]; [by apply Hprep|]. by apply (Hkeep w2 pc2 u N2 A2).
  - intros H. apply Hstop. destruct H as [H|[w2 H]]; [by left|]. destruct (Hat _ _ H) as [[_ <-]|[_ A2]]; [by right; left|].
    right; right; right. by exists w2.
Qed.

Lemma sum_change i f l th :
  l !! i = Some th -> sum_of rt_runs (alter f i l) = sum_of rt_runs l + (rt_runs (f th) - rt_runs th).
Proof. intros E. erewrite sum_of_alter by done. lia. Qed.

Lemma sum_same i f l : (forall th, rt_state (f th) = rt_state th) -> sum_of rt_runs (alter f i l) = sum_of rt_runs l + 0.
Proof.
  intros Hf. revert i. induction l as [|th l IH]; intros i; [by destruct i|]. destruct i as [|i].
  - change (alter f 0%nat (th :: l)) with (f th :: l). cbn [sum_of]. unfold rt_runs at 1 3. rewrite Hf. lia.
  - change (alter f (S i) (th :: l)) with (th :: alter f i l). cbn [sum_of]. rewrite IH. lia.
Qed.

Lemma rt_runs_pos th : 0 <= rt_runs th.
Proof. unfold rt_runs. destruct (running _); lia. Qed.

Lemma in_transit_pos pc : 0 <= in_transit pc.
Proof. destruct pc; cbn; lia. Qed.

Lemma running_ge s i : in_state s i (fun x => running x = true) -> 1 <= threads_running s.
Proof.
  intros (th & Hth & Hr). pose proof (sum_of_ge rt_runs _ _ _ rt_runs_pos Hth) as H.
  unfold threads_running, rt_runs in *. by rewrite Hr in H.
Qed.

Lemma transit_ge s w pc : at_pc s w pc -> in_transit pc <= threads_in_transit s.
Proof. intros H. by apply (sum_of_ge in_transit _ _ _ in_transit_pos H). Qed.

Lemma sums_pos s : 0 <= threads_running s /\ 0 <= threads_in_transit s.
Proof. split; apply sum_of_pos; [apply rt_runs_pos|apply in_transit_pos]. Qed.

(** A command in progress, or a thread not yet subtracted, keeps the machine up. *)
Lemma active_while_issued s w pc u : race_inv s -> at_pc s w pc -> issuer pc = Some u -> 1 <= race_active s.
Proof.
  intros Hs Hpc Hu. destruct (ri_issuer s Hs w pc u Hpc Hu) as [_ (th & Hth & E)].
  pose proof (running_ge s u ltac:(exists th; split; [done|by rewrite E])). destruct (sums_pos s).
  rewrite (ri_count s Hs). lia.
Qed.

Lemma active_in_transit s w pc : race_inv s -> at_pc s w pc -> in_transit pc = 1 -> 1 <= race_active s.
Proof.
  intros Hs Hpc Hu. pose proof (transit_ge s w pc Hpc). destruct (sums_pos s). rewrite (ri_count s Hs). lia.
Qed.

Lemma race_same s : s = mkRace (race_threads s) (race_workers s) (race_active s + 0) (race_stop s).
Proof. destruct s. cbn. f_equal. lia. Qed.

Lemma alter_same i (l : list RaceThread) : alter id i l = l.
Proof. by apply list_alter_id. Qed.

(** Nothing about stopping has changed. *)
Lemma stop_unchanged s pc' :
  race_inv s -> pc' <> FinishLast ->
  race_stop s = true \/ pc' = FinishLast \/ race_stop s = true \/ (exists w2, at_pc s w2 FinishLast) -> race_active s + 0 = 0.
Proof. intros Hs Hne H. rewrite Z.add_0_r. apply (ri_stop s Hs). destruct H as [|[|[|]]]; auto; done. Qed.

(** A worker moves on; the counter and the stop flag stay. *)
Lemma race_inv_goto s w pc pc' i f d :
  race_inv s -> at_pc s w pc -> pc' <> FinishLast ->
  sum_of rt_runs (alter f i (race_threads s)) = sum_of rt_runs (race_threads s) + d ->
  d + in_transit pc' = in_transit pc ->
  (is_Some (issuer pc') -> is_Some (issuer pc) \/ lock_free s) ->
  (forall w2 pc2 th, w2 <> w -> at_pc s w2 pc2 -> race_threads s !! i = Some th ->
     (issuer pc2 = Some i -> rt_state th = HARDWARE_THREAD_RUNNABLE -> rt_state (f th) = HARDWARE_THREAD_RUNNABLE) /\
     (prepares pc2 = Some i -> rt_state th = HARDWARE_THREAD_STARTING -> rt_state (f th) = HARDWARE_THREAD_STARTING)) ->
  (forall u, issuer pc' = Some u -> core_of u = w /\
     in_state (goto w pc' (on_race i f s)) u (fun x => x = HARDWARE_THREAD_RUNNABLE)) ->
  (forall j, prepares pc' = Some j -> in_state (goto w pc' (on_race i f s)) j (fun x => x = HARDWARE_THREAD_STARTING)) ->
  race_inv (goto w pc' (on_race i f s)).
Proof.
  intros Hs Hpc Hne Hsum Hd Hlock Hother Hiss Hprep.
  assert (goto w pc' (on_race i f s) = mkRace (alter f i (race_threads s)) (<[w := pc']> (race_workers s))
    (race_active s + 0) (race_stop s)) as E by (unfold goto, on_race; cbn; f_equal; lia).
  rewrite E in *. apply (race_inv_update s w pc pc' i f d 0 (race_stop s)); try done; [lia|].
  by apply stop_unchanged.
Qed.

(** The states of the threads do not change. *)
Lemma race_inv_quiet s w pc pc' i f :
  race_inv s -> at_pc s w pc -> pc' <> FinishLast -> (forall th, rt_state (f th) = rt_state th) ->
  in_transit pc' = in_transit pc -> (is_Some (issuer pc') -> is_Some (issuer pc) \/ lock_free s) ->
  (forall u, issuer pc' = Some u -> core_of u = w /\ in_state s u (fun x => x = HARDWARE_THREAD_RUNNABLE)) ->
  (forall j, prepares pc' = Some j -> in_state s j (fun x => x = HARDWARE_THREAD_STARTING)) ->
  race_inv (goto w pc' (on_race i f s)).
Proof.
  intros Hs Hpc Hne Hf Ht Hlock Hiss Hprep.
  assert (forall u P, in_state s u P -> in_state (goto w pc' (on_race i f s)) u P) as Hin.
  { intros u P (th & Hth & HP). unfold goto, on_race. cbn. apply in_state_alter.
    destruct (decide (i = u)) as [<-|]; exists th; [by rewrite Hf|done]. }
  eapply (race_inv_goto s w pc pc' i f 0); try done; [by apply sum_same|..].
  - intros w2 pc2 th _ _ _. by rewrite Hf.
  - intros u Hu. destruct (Hiss u Hu). auto.
  - auto.
Qed.

Lemma goto_alone w pc s i : goto w pc s = goto w pc (on_race i id s).
Proof. unfold goto, on_race. cbn. by rewrite alter_same. Qed.

Lemma on_race_alone s w pc i f : at_pc s w pc -> on_race i f s = goto w pc (on_race i f s).
Proof. intros H. unfold goto, on_race. cbn. f_equal. symmetry. by apply list_insert_id. Qed.

(** A thread of one core is not the issuer of a command of another, and a
    running thread is not being prepared. *)
Lemma foreign_thread s w i th w2 pc2 :
  race_inv s -> w2 <> w -> at_pc s w2 pc2 -> race_threads s !! i = Some th -> core_of i = w ->
  rt_state th <> HARDWARE_THREAD_STARTING -> issuer pc2 <> Some i /\ prepares pc2 <> Some i.
Proof.
  intros Hs Hne H2 Hth Hc Hst. split; intros E.
  - destruct (ri_issuer s Hs _ _ _ H2 E). congruence.
  - destruct (ri_prepares s Hs _ _ _ H2 E) as (th' & Hth' & E'). congruence.
Qed.

Ltac quiet i := eapply (race_inv_quiet _ _ _ _ i); try done; try (by intros; left).

(** While it is prepared, a thread belongs to one command. *)
Lemma prepared_alone s w pc i w2 pc2 :
  race_inv s -> w2 <> w -> at_pc s w pc -> at_pc s w2 pc2 -> prepares pc = Some i -> is_Some (issuer pc) ->
  issuer pc2 <> Some i /\ prepares pc2 <> Some i.
Proof.
  intros Hs Hne H1 H2 Hp Hi. destruct (ri_prepares s Hs _ _ _ H1 Hp) as (th & Hth & E). split; intros E2.
  - destruct (ri_issuer s Hs _ _ _ H2 E2) as [_ (th' & Hth' & E')]. congruence.
  - apply Hne. eapply (ri_lock s Hs); [exact H2|exact H1| |done]. by destruct pc2.
Qed.

Lemma rt_runs_state th x : rt_runs (set_rt_state x th) = if running x then 1 else 0.
Proof. done. Qed.

(** The compare-and-swap of a command: the thread starts to be prepared. *)
Lemma prepare_inv s w pc pc' u i th :
  race_inv s -> at_pc s w pc -> issuer pc' = Some u -> prepares pc' = Some i -> in_transit pc' = 0 -> in_transit pc = 0 ->
  (is_Some (issuer pc) \/ lock_free s) -> core_of u = w -> in_state s u (fun x => x = HARDWARE_THREAD_RUNNABLE) ->
  race_threads s !! i = Some th -> running (rt_state th) = false -> rt_state th <> HARDWARE_THREAD_STARTING ->
  race_inv (goto w pc' (on_race i (set_rt_state HARDWARE_THREAD_STARTING) s)).
Proof.
  intros Hs Hpc Hu Hp Ht' Ht Hl Hc (thu & Hthu & Eu) Hth Hr Hst.
  eapply (race_inv_goto s w pc pc' i _ 0); try done.
  - intros ->. done.
  - erewrite sum_change by done. rewrite rt_runs_state.
    assert (rt_runs th = 0) as -> by (unfold rt_runs; by rewrite Hr). change (if running HARDWARE_THREAD_STARTING then 1 else 0) with 0. lia.
  - lia.
  - intros w2 pc2 th2 Hne H2 Hth2. rewrite Hth in Hth2. injection Hth2 as <-. split; intros _ E; rewrite E in *; done.
  - intros u' Hu'. rewrite Hu in Hu'. injection Hu' as <-. split; [done|]. unfold goto, on_race. cbn. apply in_state_alter.
    rewrite decide_False; [by exists thu|]. intros ->. rewrite Hth in Hthu. injection Hthu as <-. by rewrite Eu in Hr.
  - intros j Hj. rewrite Hp in Hj. injection Hj as <-. unfold goto, on_race. cbn. apply in_state_alter.
    rewrite decide_True by done. by exists th.
Qed.

(** The final store of a command: the prepared thread gets its state. *)
Lemma settle_command_inv s w pc i x :
  race_inv s -> at_pc s w pc -> prepares pc = Some i -> is_Some (issuer pc) ->
  in_transit pc = (if running x then 1 else 0) ->
  race_inv (goto w Working (on_race i (set_rt_state x) s)).
Proof.
  intros Hs Hpc Hp Hi Ht. destruct (ri_prepares s Hs _ _ _ Hpc Hp) as (th & Hth & E).
  eapply (race_inv_goto s w pc Working i _ (if running x then 1 else 0)); try done.
  - erewrite sum_change by done. rewrite rt_runs_state.
    assert (rt_runs th = 0) as -> by (unfold rt_runs; by rewrite E). lia.
  - cbn. lia.
  - by intros [].
  - intros w2 pc2 th2 Hne H2 Hth2. by destruct (prepared_alone s w pc i w2 pc2 Hs Hne Hpc H2 Hp Hi).
Qed.

(** A worker changes the state of a thread of its own that runs. *)
Lemma own_thread_inv s w pc' i th x :
  race_inv s -> at_pc s w Working -> core_of i = w -> race_threads s !! i = Some th -> running (rt_state th) = true ->
  issuer pc' = None -> prepares pc' = None -> pc' <> FinishLast -> in_transit pc' = (if running x then 0 else 1) ->
  race_inv (goto w pc' (on_race i (set_rt_state x) s)).
Proof.
  intros Hs Hpc Hc Hth Hr Hi Hp Hne Ht.
  eapply (race_inv_goto s w Working pc' i _ (if running x then 0 else -1)); try done.
  - erewrite sum_change by done. rewrite rt_runs_state.
    assert (rt_runs th = 1) as -> by (unfold rt_runs; by rewrite Hr). destruct (running x); lia.
  - destruct (running x); cbn; lia.
  - rewrite Hi. by intros [].
  - intros w2 pc2 th2 Hne2 H2 Hth2. rewrite Hth in Hth2. injection Hth2 as <-.
    destruct (foreign_thread s w i th w2 pc2 Hs Hne2 H2 Hth Hc); [|done]. intros E. by rewrite E in Hr.
  - intros u Hu. congruence.
  - intros u Hu. congruence.
Qed.

(** A command moves on to its next access. *)
Lemma command_inv s w pc pc' u i f :
  race_inv s -> at_pc s w pc -> issuer pc = Some u -> prepares pc = Some i ->
  issuer pc' = Some u -> prepares pc' = Some i -> in_transit pc' = in_transit pc ->
  (forall th, rt_state (f th) = rt_state th) -> race_inv (goto w pc' (on_race i f s)).
Proof.
  intros Hs Hpc Hu Hp Hu' Hp' Ht Hf. eapply (race_inv_quiet s w pc pc' i f); try done.
  - intros ->. done.
  - intros _. left. by rewrite Hu.
  - intros x Hx. rewrite Hu' in Hx. injection Hx as <-. by apply (ri_issuer s Hs _ _ _ Hpc).
  - intros x Hx. rewrite Hp' in Hx. injection Hx as <-. by apply (ri_prepares s Hs _ _ _ Hpc).
Qed.

(** A worker that executes no command moves on. *)
Lemma plain_inv s w pc pc' i f :
  race_inv s -> at_pc s w pc -> issuer pc' = None -> prepares pc' = None -> pc' <> FinishLast ->
  in_transit pc' = in_transit pc -> (forall th, rt_state (f th) = rt_state th) -> race_inv (goto w pc' (on_race i f s)).
Proof.
  intros Hs Hpc Hi Hp Hne Ht Hf. eapply (race_inv_quiet s w pc pc' i f); try done; rewrite ?Hi, ?Hp; try done.
Qed.

(** A worker takes the lock for a command that has changed nothing yet. *)
Lemma take_lock_inv s w pc' u :
  race_inv s -> at_pc s w Working -> lock_free s -> core_of u = w ->
  in_state s u (fun x => x = HARDWARE_THREAD_RUNNABLE) -> issuer pc' = Some u -> prepares pc' = None -> in_transit pc' = 0 ->
  race_inv (goto w pc' s).
Proof.
  intros Hs Hpc Hl Hc Hu Hi Hp Ht. rewrite (goto_alone w pc' s 0%nat).
  eapply (race_inv_quiet s w Working pc' 0%nat id); try done; [by intros ->|by right| |by rewrite Hp].
  intros x Hx. rewrite Hi in Hx. by injection Hx as <-.
Qed.

Lemma finish_step_inv s s' : finish_step s s' -> race_inv s -> race_inv s'.
Proof.
  intros Hstep Hs. destruct Hstep.
  - destruct H1 as (th & Hth & Hr). by eapply own_thread_inv.
  - by eapply plain_inv.
  - by eapply plain_inv.
  - (* the counter drops *)
    pose proof (active_in_transit s w _ Hs H eq_refl) as Ha.
    assert (goto w (if race_active s =? 1 then FinishLast else Working) (add_active (-1) s) =
      mkRace (alter id i (race_threads s)) (<[w := if race_active s =? 1 then FinishLast else Working]> (race_workers s))
        (race_active s + -1) (race_stop s)) as -> by (unfold goto, add_active; cbn; by rewrite alter_same).
    apply (race_inv_update s w (FinishCount i) _ i id 0 (-1)); try done.
    + by apply sum_same.
    + destruct (race_active s =? 1); cbn; lia.
    + destruct (race_active s =? 1); by intros [].
    + intros u. by destruct (race_active s =? 1).
    + intros u. by destruct (race_active s =? 1).
    + destruct (Z.eqb_spec (race_active s) 1) as [->|]; [done|]. intros [E|[E|E]]; [|done|];
        pose proof (ri_stop s Hs); destruct_or?; intuition lia.
  - (* the machine is told to stop *)
    assert (race_active s = 0) as Ha by (apply (ri_stop s Hs); right; by exists w).
    assert (goto w Working (stop_race s) = mkRace (alter id 0%nat (race_threads s)) (<[w := Working]> (race_workers s))
      (race_active s + 0) true) as -> by (unfold goto, stop_race; cbn; rewrite alter_same; f_equal; lia).
    apply (race_inv_update s w FinishLast _ 0%nat id 0 0); try done; [by apply sum_same|by intros []|lia].
Qed.

Lemma command_step_inv s s' : command_step s s' -> race_inv s -> race_inv s'.
Proof.
  intros Hstep Hs. destruct Hstep.
  - by eapply take_lock_inv.
  - rewrite (goto_alone w Working s 0%nat). by eapply plain_inv.
  - destruct H0 as (th & Hth & E). destruct (ri_issuer s Hs _ _ _ H eq_refl) as [Hc Hu].
    eapply (prepare_inv s w (ActivateCas u i) _ u i th); try done; [by left|by rewrite E|by rewrite E].
  - by eapply command_inv.
  - by eapply command_inv.
  - (* the counter grows *)
    pose proof (active_while_issued s w _ u Hs H eq_refl) as Ha.
    destruct (ri_issuer s Hs _ _ _ H eq_refl) as [Hc Hu]. pose proof (ri_prepares s Hs _ _ _ H eq_refl) as Hp.
    assert (goto w (ActivateState u i) (add_active 1 s) =
      mkRace (alter id i (race_threads s)) (<[w := ActivateState u i]> (race_workers s)) (race_active s + 1) (race_stop s))
      as -> by (unfold goto, add_active; cbn; by rewrite alter_same).
    apply (race_inv_update s w (ActivateCount u i) _ i id 0 1); try done.
    + by apply sum_same.
    + intros _. by left.
    + intros x [= <-]. split; [done|]. rewrite alter_same. destruct Hu as (th & ? & ?). by exists th.
    + intros x [= <-]. rewrite alter_same. destruct Hp as (th & ? & ?). by exists th.
    + pose proof (ri_stop s Hs). intros [E|[E|E]]; [|done|]; destruct_or?; intuition lia.
  - by eapply settle_command_inv.
  - destruct H3 as (th & Hth & E).
    eapply (prepare_inv s w Working _ u i th); try done; [by right|by destruct E as [-> | ->]|by destruct E as [-> | ->]].
  - by eapply command_inv.
  - by eapply command_inv.
  - by eapply settle_command_inv.
  - by eapply take_lock_inv.
  - by eapply plain_inv.
Qed.

Lemma turn_step_inv s s' : turn_step s s' -> race_inv s -> race_inv s'.
Proof.
  intros Hstep Hs. destruct Hstep.
  - rewrite (on_race_alone s w Working) by done. by eapply plain_inv.
  - destruct H1 as (th & Hth & E). rewrite (on_race_alone s w Working) by done. eapply own_thread_inv; try done. by rewrite E.
  - destruct H1 as (th & Hth & E). rewrite (on_race_alone s w Working) by done. eapply own_thread_inv; try done. by rewrite E.
Qed.

Lemma race_step_inv s s' : race_step s s' -> race_inv s -> race_inv s'.
Proof. intros []; [by apply finish_step_inv|by apply command_step_inv|by apply turn_step_inv]. Qed.

Lemma race_steps_inv s s' : rtc race_step s s' -> race_inv s -> race_inv s'.
Proof. induction 1; eauto using race_step_inv. Qed.

(** After [vm_init]: thread 0 runs, all workers are in their loops. *)
Definition race_init (threads workers : nat) : Race :=
  mkRace (mkRaceThread HARDWARE_THREAD_RUNNABLE false false false ::
          replicate threads (mkRaceThread HARDWARE_THREAD_OFFLINE false false false))
    (replicate workers Working) 1 false.

Lemma sum_of_replicate {A} (f : A -> Z) n x : f x = 0 -> sum_of f (replicate n x) = 0.
Proof. intros E. induction n as [|n IH]; [done|]. cbn [replicate sum_of]. lia. Qed.

Lemma race_init_inv threads workers : race_inv (race_init threads workers).
Proof.
  assert (forall w pc, at_pc (race_init threads workers) w pc -> pc = Working) as Hat.
  { intros w pc H. unfold at_pc, race_init in H. cbn [race_workers] in H. by apply lookup_replicate in H as [-> _]. }
  split.
  - unfold threads_running, threads_in_transit, race_init. cbn [race_threads race_workers race_active sum_of].
    rewrite !sum_of_replicate by done. done.
  - intros w w' pc pc' H1 H2. rewrite (Hat _ _ H1). by intros [].
  - intros w pc u H1. by rewrite (Hat _ _ H1).
  - intros w pc i H1. by rewrite (Hat _ _ H1).
  - intros [|[w H]]; [done|]. by apply Hat in H.
Qed.

(** C9: the count of active threads is right under every interleaving of the
    workers' atomic accesses.  At any moment it is the number of runnable and
    waiting threads plus those being taken off or put on; and the machine is
    told to stop by a finishing thread only when no thread runs and none is
    being started, so a start command that succeeds is never lost to a stop of
    the whole machine. *)
Theorem active_count_linearizable threads workers s :
  rtc race_step (race_init threads workers) s ->
  race_active s = threads_running s + threads_in_transit s /\
  (race_stop s = true ->
     threads_running s = 0 /\ forall w pc, at_pc s w pc -> issuer pc = None /\ in_transit pc = 0).
Proof.
  intros Hr. pose proof (race_steps_inv _ _ Hr (race_init_inv threads workers)) as Hs.
  split; [apply Hs|]. intros Hst. pose proof (ri_stop s Hs (or_introl Hst)) as Ha. pose proof (ri_count s Hs) as Hc.
  destruct (sums_pos s). split; [lia|]. intros w pc Hpc. split.
  - destruct (issuer pc) as [u|] eqn:Hu; [|done]. pose proof (active_while_issued s w pc u Hs Hpc Hu). lia.
  - pose proof (transit_ge s w pc Hpc). pose proof (in_transit_pos pc). lia.
Qed.

End race.

(** ** A restart that is lost

    [finish_hardware_thread] publishes the state HALTED before it writes the
    CPU; another core can reset and start the thread in between. *)

Ltac race_find := first [reflexivity | lia | eexists; split; [reflexivity|cbn; auto] | repeat constructor].
Tactic Notation "race_take" uconstr(r) := eapply rtc_l; [first [eapply race_finish, r; race_find | eapply race_command, r; race_find | eapply race_turn, r; race_find]|]; cbn [goto on_race add_active stop_race race_threads race_workers race_active race_stop].

(** Two cores of one thread.  Core 0 starts thread 1, which runs and halts;
    core 0 resets and starts it again while core 1 is still finishing it.  The
    second start has succeeded and the thread is runnable, but its CPU is
    halted although it has not executed an instruction since. *)
Theorem restart_race :
  exists s, rtc (race_step (fun i => i)) (race_init 1 2) s /\
    race_workers s = [Working; Working] /\ race_stop s = false /\
    race_threads s !! 1%nat = Some (mkRaceThread HARDWARE_THREAD_RUNNABLE false true false).
Proof.
  eexists. split; [|split; [|split]].
  - unfold race_init. cbn [replicate].
    race_take (rs_activate_load (fun i => i) _ 0 0 1)%nat.
    race_take (rs_activate_cas (fun i => i) _ 0 0 1)%nat.
    race_take (rs_activate_cpu (fun i => i) _ 0 0 1)%nat.
    race_take (rs_activate_stop (fun i => i) _ 0 0 1)%nat.
    race_take (rs_activate_count (fun i => i) _ 0 0 1)%nat.
    race_take (rs_activate_state (fun i => i) _ 0 0 1)%nat.
    race_take (rs_execute (fun i => i) _ 1 1)%nat.
    race_take (rs_finish_cas (fun i => i) _ 1 1)%nat.
    race_take (rs_reset_cas (fun i => i) _ 0 0 1)%nat.
    race_take (rs_reset_cpu (fun i => i) _ 0 0 1)%nat.
    race_take (rs_reset_stop (fun i => i) _ 0 0 1)%nat.
    race_take (rs_reset_state (fun i => i) _ 0 0 1)%nat.
    race_take (rs_activate_load (fun i => i) _ 0 0 1)%nat.
    race_take (rs_activate_cas (fun i => i) _ 0 0 1)%nat.
    race_take (rs_activate_cpu (fun i => i) _ 0 0 1)%nat.
    race_take (rs_activate_stop (fun i => i) _ 0 0 1)%nat.
    race_take (rs_activate_count (fun i => i) _ 0 0 1)%nat.
    race_take (rs_activate_state (fun i => i) _ 0 0 1)%nat.
    race_take (rs_finish_cpu (fun i => i) _ 1 1)%nat.
    race_take (rs_finish_stop (fun i => i) _ 1 1)%nat.
    race_take (rs_finish_count (fun i => i) _ 1 1)%nat.
    apply rtc_refl.
  - reflexivity.
  - reflexivity.
  - reflexivity.
Qed.

Lemma active_count_linearizable_witness :
  exists s, rtc (race_step (fun i => i)) (race_init 0 1) s /\ race_stop s = true /\ threads_running s = 0.
Proof.
  assert (exists s, rtc (race_step (fun i => i)) (race_init 0 1) s /\ race_stop s = true) as (s & Hr & Hs).
  { eexists. split.
    - unfold race_init. cbn [replicate].
      race_take (rs_finish_cas (fun i => i) _ 0 0)%nat.
      race_take (rs_finish_cpu (fun i => i) _ 0 0)%nat.
      race_take (rs_finish_stop (fun i => i) _ 0 0)%nat.
      race_take (rs_finish_count (fun i => i) _ 0 0)%nat.
      race_take (rs_finish_last (fun i => i) _ 0)%nat.
      apply rtc_refl.
    - reflexivity. }
  exists s. split; [exact Hr|]. split; [exact Hs|].
  apply (active_count_linearizable (fun i => i) 0 1 s Hr). exact Hs.
Defined.
