(* ===== verification/SystemInfo.v ===== *)
(** The system information device of src/system_info.c: a read-only table that
    tells the guest how the machine is built.  The fields of the C structure
    carry the prefix [info_]. *)

From S2P Require Import Prelude Ram Interrupt Bus.
From stdpp Require Import base list numbers option.
From Stdlib Require Import ZArith Lia Bool.

#[local] Open Scope Z_scope.

Definition SYSTEM_INFO_MMIO_BASE : Z := 0xFFFFFFFFFFFC1000.
Definition SYSTEM_INFO_MMIO_SIZE : Z := 0x100.
Definition SYSTEM_INFO_MAGIC : Z := 0x464E4953.
Definition SYSTEM_INFO_VERSION : Z := 1.
Definition SYSTEM_INFO_ISA_VERSION : Z := 1.
Definition SYSTEM_INFO_MAGIC_OFFSET : Z := 0x00.
Definition SYSTEM_INFO_VERSION_OFFSET : Z := 0x08.
Definition SYSTEM_INFO_FEATURES_OFFSET : Z := 0x10.
Definition SYSTEM_INFO_RAM_BASE_OFFSET : Z := 0x18.
Definition SYSTEM_INFO_RAM_SIZE_OFFSET : Z := 0x20.
Definition SYSTEM_INFO_ROM_BASE_OFFSET : Z := 0x28.
Definition SYSTEM_INFO_ROM_SIZE_OFFSET : Z := 0x30.
Definition SYSTEM_INFO_RESET_VECTOR_OFFSET : Z := 0x38.
Definition SYSTEM_INFO_CORE_COUNT_OFFSET : Z := 0x40.
Definition SYSTEM_INFO_THREADS_PER_CORE_OFFSET : Z := 0x48.
Definition SYSTEM_INFO_LOGICAL_PROCESSORS_OFFSET : Z := 0x50.
Definition SYSTEM_INFO_PHYSICAL_BITS_OFFSET : Z := 0x58.
Definition SYSTEM_INFO_PAGE_SIZE_OFFSET : Z := 0x60.
Definition SYSTEM_INFO_VIRTUAL_BITS_OFFSET : Z := 0x68.
Definition SYSTEM_INFO_TIMER_FREQUENCY_OFFSET : Z := 0x70.
Definition SYSTEM_INFO_INTERRUPT_LINES_OFFSET : Z := 0x78.
Definition SYSTEM_INFO_VIO_HUB_BASE_OFFSET : Z := 0x80.
Definition SYSTEM_INFO_VIO_SLOT_COUNT_OFFSET : Z := 0x88.
Definition SYSTEM_INFO_DYNAMIC_MMIO_BASE_OFFSET : Z := 0x90.
Definition SYSTEM_INFO_DYNAMIC_MMIO_SIZE_OFFSET : Z := 0x98.
Definition SYSTEM_INFO_CONTROL_BASE_OFFSET : Z := 0xA0.
Definition SYSTEM_INFO_ISA_VERSION_OFFSET : Z := 0xA8.
Definition SYSTEM_INFO_EXTERNAL_IRQ_COUNT_OFFSET : Z := 0xB0.
Definition SYSTEM_INFO_IPI_BASE_OFFSET : Z := 0xB8.
Definition SYSTEM_INFO_IRQ_CONTROLLER_BASE_OFFSET : Z := 0xC0.
Definition SYSTEM_INFO_FEATURE_MMU : Z := Z.shiftl 1 0.
Definition SYSTEM_INFO_FEATURE_MULTICORE : Z := Z.shiftl 1 1.
Definition SYSTEM_INFO_FEATURE_INTERRUPTS : Z := Z.shiftl 1 2.
Definition SYSTEM_INFO_FEATURE_ATOMICS : Z := Z.shiftl 1 3.
Definition SYSTEM_INFO_FEATURE_SIMD : Z := Z.shiftl 1 4.
Definition SYSTEM_INFO_FEATURE_FLOATING_POINT : Z := Z.shiftl 1 5.
Definition SYSTEM_INFO_FEATURE_BOOT_ROM : Z := Z.shiftl 1 6.
Definition SYSTEM_INFO_FEATURE_VIO : Z := Z.shiftl 1 7.
Definition SYSTEM_INFO_FEATURE_SYSTEM_CONTROL : Z := Z.shiftl 1 8.
Definition SYSTEM_INFO_FEATURE_IRQ_CONTROLLER : Z := Z.shiftl 1 9.

Record SystemInfoDevice := mkSystemInfo {
  info_features : Z;
  info_ram_base : Z;
  info_ram_size : Z;
  info_rom_base : Z;
  info_rom_size : Z;
  info_reset_vector : Z;
  info_core_count : Z;
  info_threads_per_core : Z;
  info_logical_processor_count : Z;
  info_physical_address_bits : Z;
  info_page_size : Z;
  info_virtual_address_bits : Z;
  info_timer_frequency : Z;
  info_interrupt_line_count : Z;
  info_vio_hub_base : Z;
  info_vio_slot_count : Z;
  info_dynamic_mmio_base : Z;
  info_dynamic_mmio_size : Z;
  info_system_control_base : Z;
  info_external_interrupt_line_count : Z;
  info_ipi_line_base : Z;
  info_irq_controller_base : Z;
}.

Definition system_info_read (d : SystemInfoDevice) (offset width : Z) : option Z :=
  if negb (width =? 8) then None
  else if offset =? SYSTEM_INFO_MAGIC_OFFSET then Some SYSTEM_INFO_MAGIC
  else if offset =? SYSTEM_INFO_VERSION_OFFSET then Some SYSTEM_INFO_VERSION
  else if offset =? SYSTEM_INFO_FEATURES_OFFSET then Some (info_features d)
  else if offset =? SYSTEM_INFO_RAM_BASE_OFFSET then Some (info_ram_base d)
  else if offset =? SYSTEM_INFO_RAM_SIZE_OFFSET then Some (info_ram_size d)
  else if offset =? SYSTEM_INFO_ROM_BASE_OFFSET then Some (info_rom_base d)
  else if offset =? SYSTEM_INFO_ROM_SIZE_OFFSET then Some (info_rom_size d)
  else if offset =? SYSTEM_INFO_RESET_VECTOR_OFFSET then Some (info_reset_vector d)
  else if offset =? SYSTEM_INFO_CORE_COUNT_OFFSET then Some (info_core_count d)
  else if offset =? SYSTEM_INFO_THREADS_PER_CORE_OFFSET then Some (info_threads_per_core d)
  else if offset =? SYSTEM_INFO_LOGICAL_PROCESSORS_OFFSET then Some (info_logical_processor_count d)
  else if offset =? SYSTEM_INFO_PHYSICAL_BITS_OFFSET then Some (info_physical_address_bits d)
  else if offset =? SYSTEM_INFO_PAGE_SIZE_OFFSET then Some (info_page_size d)
  else if offset =? SYSTEM_INFO_VIRTUAL_BITS_OFFSET then Some (info_virtual_address_bits d)
  else if offset =? SYSTEM_INFO_TIMER_FREQUENCY_OFFSET then Some (info_timer_frequency d)
  else if offset =? SYSTEM_INFO_INTERRUPT_LINES_OFFSET then Some (info_interrupt_line_count d)
  else if offset =? SYSTEM_INFO_VIO_HUB_BASE_OFFSET then Some (info_vio_hub_base d)
  else if offset =? SYSTEM_INFO_VIO_SLOT_COUNT_OFFSET then Some (info_vio_slot_count d)
  else if offset =? SYSTEM_INFO_DYNAMIC_MMIO_BASE_OFFSET then Some (info_dynamic_mmio_base d)
  else if offset =? SYSTEM_INFO_DYNAMIC_MMIO_SIZE_OFFSET then Some (info_dynamic_mmio_size d)
  else if offset =? SYSTEM_INFO_CONTROL_BASE_OFFSET then Some (info_system_control_base d)
  else if offset =? SYSTEM_INFO_ISA_VERSION_OFFSET then Some SYSTEM_INFO_ISA_VERSION
  else if offset =? SYSTEM_INFO_EXTERNAL_IRQ_COUNT_OFFSET then Some (info_external_interrupt_line_count d)
  else if offset =? SYSTEM_INFO_IPI_BASE_OFFSET then Some (info_ipi_line_base d)
  else if offset =? SYSTEM_INFO_IRQ_CONTROLLER_BASE_OFFSET then Some (info_irq_controller_base d)
  else None.

Definition system_info_device_init (configuration device : SystemInfoDevice) : bool * SystemInfoDevice :=
  if (info_ram_size configuration =? 0) || (info_core_count configuration =? 0) ||
     (info_threads_per_core configuration =? 0) || (info_logical_processor_count configuration =? 0)
  then (false, device)
  else (true, configuration).

Class SystemInfoSlot (D : Type) := {
  get_system_info : D -> SystemInfoDevice
}.

Definition system_info_device_as_bus_device `{SystemInfoSlot D} : BusDevice D := {|
  dev_read := Some (fun w offset width => (system_info_read (get_system_info (w_dev w)) offset width, w));
  dev_write := None;
  dev_tick := None;
  dev_reset := None
|}.

(** Every field holds a 64-bit value. *)
Record system_info_wf (d : SystemInfoDevice) : Prop := {
  siw_features : is_u64 (info_features d);
  siw_ram_base : is_u64 (info_ram_base d);
  siw_ram_size : is_u64 (info_ram_size d);
  siw_rom_base : is_u64 (info_rom_base d);
  siw_rom_size : is_u64 (info_rom_size d);
  siw_reset_vector : is_u64 (info_reset_vector d);
  siw_core_count : is_u64 (info_core_count d);
  siw_threads_per_core : is_u64 (info_threads_per_core d);
  siw_logical_processor_count : is_u64 (info_logical_processor_count d);
  siw_physical_address_bits : is_u64 (info_physical_address_bits d);
  siw_page_size : is_u64 (info_page_size d);
  siw_virtual_address_bits : is_u64 (info_virtual_address_bits d);
  siw_timer_frequency : is_u64 (info_timer_frequency d);
  siw_interrupt_line_count : is_u64 (info_interrupt_line_count d);
  siw_vio_hub_base : is_u64 (info_vio_hub_base d);
  siw_vio_slot_count : is_u64 (info_vio_slot_count d);
  siw_dynamic_mmio_base : is_u64 (info_dynamic_mmio_base d);
  siw_dynamic_mmio_size : is_u64 (info_dynamic_mmio_size d);
  siw_system_control_base : is_u64 (info_system_control_base d);
  siw_external_interrupt_line_count : is_u64 (info_external_interrupt_line_count d);
  siw_ipi_line_base : is_u64 (info_ipi_line_base d);
  siw_irq_controller_base : is_u64 (info_irq_controller_base d)
}.

Class SystemInfoSlotLaws (D : Type) `{DevInv D, SystemInfoSlot D} : Prop :=
  si_slot_wf (d : D) : dev_inv d -> system_info_wf (get_system_info d).

(** What the bus asks of a device: reads change nothing and give 64-bit values;
    there is nothing to write, to tick or to reset. *)
#[export] Instance system_info_laws `{DI : DevInv D, SS : SystemInfoSlot D, !SystemInfoSlotLaws D} :
  DeviceLaws (system_info_device_as_bus_device (D:=D)).
Proof.
  split; try done. intros f w off width [= <-] (_ & _ & Hd) Ho. split; [by intros Hw|].
  intros v. cbn [fst]. apply si_slot_wf in Hd as Hi. destruct Hi.
  unfold system_info_read. repeat case_match; intros; simplify_eq; try done; by vm_compute.
Qed.

(** The table has one register per aligned offset up to the last one, and
    nothing else: it answers exactly the aligned 64-bit reads. *)
Lemma system_info_read_defined d offset width :
  is_Some (system_info_read d offset width) <->
  width = 8 /\ 0 <= offset <= SYSTEM_INFO_IRQ_CONTROLLER_BASE_OFFSET /\ offset mod 8 = 0.
Proof.
  unfold system_info_read. split.
  - intros [v Hv]. revert Hv. repeat case_match; try done; intros _;
      repeat match goal with H : _ = true |- _ => apply Z.eqb_eq in H | H : negb _ = false |- _ => apply negb_false_iff, Z.eqb_eq in H end;
      subst; split_and!; (done || by vm_compute).
  - intros (-> & [Ho Hm] & Ha). apply Z.div_exact in Ha; [|lia].
    assert (0 <= offset / 8 <= 24) as Hq.
    { split; [apply Z.div_pos; lia|]. apply Z.div_le_upper_bound; [lia|]. exact Hm. }
    remember (offset / 8) as q. clear Heqq. subst offset. cbn [negb Z.eqb].
    assert (q = 0 \/ q = 1 \/ q = 2 \/ q = 3 \/ q = 4 \/ q = 5 \/ q = 6 \/ q = 7 \/ q = 8 \/ q = 9 \/ q = 10 \/ q = 11 \/
            q = 12 \/ q = 13 \/ q = 14 \/ q = 15 \/ q = 16 \/ q = 17 \/ q = 18 \/ q = 19 \/ q = 20 \/ q = 21 \/
            q = 22 \/ q = 23 \/ q = 24) as Hc by lia.
    repeat (destruct Hc as [->|Hc]; [by eexists|]). subst q. by eexists.
Qed.
