(* ===== verification/DeviceAbi.v ===== *)
(** The interface between the device manager and the device modules:
    include/device_abi.h.

    [H] is the state of the host that a module reaches through the callbacks of
    [VmDeviceHostApi] (guest memory and the interrupt router); a callback that
    may be [NULL] is an option.  [S] is what a looked-up service is taken for. *)

From S2P Require Import Prelude.
From Stdlib Require Import ZArith Lia Bool String.
From stdpp Require Import base list numbers option.

#[local] Open Scope Z_scope.

Definition VM_DEVICE_ABI_VERSION : Z := 1.
Definition VM_DEVICE_NAME_CAPACITY : Z := 64.
Definition VM_DEVICE_MAX_BARS : Z := 4.
Definition VM_DEVICE_MAX_IRQS : Z := 4.

(** [sizeof] of the structures of the interface. *)
Definition sizeof_VmDeviceDescriptor : Z := 168.
Definition sizeof_VmDeviceResources : Z := 96.
Definition sizeof_VmDeviceHostApi : Z := 56.
Definition sizeof_VmDeviceModule : Z := 224.

Record VmDeviceDescriptor := mkDescriptor {
  desc_abi_version : Z;
  desc_struct_size : Z;
  device_class : Z;
  vendor_id : Z;
  device_id : Z;
  device_version : Z;
  desc_features : Z;
  desc_bar_count : Z;
  desc_irq_count : Z;
  desc_bar_sizes : list Z;
  desc_bar_alignments : list Z;
}.

Record VmDeviceResources := mkResources {
  res_struct_size : Z;
  bar_count : Z;
  irq_count : Z;
  bar_bases : list Z;
  bar_sizes : list Z;
  irqs : list Z;
}.

Record VmDeviceHostApi (H S : Type) := mkHostApi {
  api_abi_version : Z;
  api_struct_size : Z;
  dma_read : option (H -> Z -> Z -> option (list Z));
  dma_write : option (H -> Z -> list Z -> bool * H);
  raise_irq : option (H -> Z -> bool * H);
  get_service : option (string -> Z -> option S);
}.
Arguments mkHostApi {H S}.
Arguments api_abi_version {H S}.
Arguments api_struct_size {H S}.
Arguments dma_read {H S}.
Arguments dma_write {H S}.
Arguments raise_irq {H S}.
Arguments get_service {H S}.

(** [(void)host.raise_irq(host.context, irq)] behind its [NULL] check. *)
Definition raise_irq_opt {H S} (api : VmDeviceHostApi H S) (irq : Z) (host : H) : H :=
  match raise_irq api with
  | Some raise => (raise host irq).2
  | None => host
  end.
