(* ===== verification/Keyboard.v ===== *)
(** The path of a key press: the host's side of src/keyboard_input.c, which
    stamps every event with a sequence number and hands it to the registered
    sink, and the device module devices/keyboard/keyboard_device.c, which queues
    it for the guest.

    Pointers are numbers, 0 is [NULL].  The locks make each operation atomic.
    Messages for the host's log are not modelled. *)

From S2P Require Import Prelude Ring DeviceAbi.
From Stdlib Require Import ZArith Lia Bool String.
From stdpp Require Import base list numbers option.

#[local] Open Scope Z_scope.

Definition VM_KEYBOARD_HOST_VERSION : Z := 1.
Definition VM_KEYBOARD_SERVICE_NAME : string := "input.keyboard".
Definition sizeof_VmKeyboardHost : Z := 32.

Definition VM_KEYBOARD_CONTROL_OFFSET : Z := 0x00.
Definition VM_KEYBOARD_STATUS_OFFSET : Z := 0x08.
Definition VM_KEYBOARD_EVENT_COUNT_OFFSET : Z := 0x10.
Definition VM_KEYBOARD_EVENT_DATA_OFFSET : Z := 0x18.
Definition VM_KEYBOARD_CAPACITY_OFFSET : Z := 0x20.
Definition VM_KEYBOARD_IRQ_STATUS_OFFSET : Z := 0x28.
Definition VM_KEYBOARD_DROPPED_OFFSET : Z := 0x30.
Definition VM_KEYBOARD_VERSION_OFFSET : Z := 0x38.

Definition VM_KEYBOARD_CONTROL_ENABLE : Z := Z.shiftl 1 0.
Definition VM_KEYBOARD_CONTROL_IRQ_ENABLE : Z := Z.shiftl 1 1.
Definition VM_KEYBOARD_STATUS_EVENT_AVAILABLE : Z := Z.shiftl 1 0.
Definition VM_KEYBOARD_STATUS_OVERFLOW : Z := Z.shiftl 1 1.
Definition VM_KEYBOARD_IRQ_EVENT : Z := Z.shiftl 1 0.
Definition VM_KEYBOARD_IRQ_OVERFLOW : Z := Z.shiftl 1 1.

Definition VM_KEYBOARD_EVENT_USAGE_MASK : Z := 0xFFFF.
Definition VM_KEYBOARD_EVENT_DOWN : Z := Z.shiftl 1 16.
Definition VM_KEYBOARD_EVENT_REPEAT : Z := Z.shiftl 1 17.
Definition VM_KEYBOARD_EVENT_EXTENDED : Z := Z.shiftl 1 18.
Definition VM_KEYBOARD_EVENT_MODIFIERS_SHIFT : Z := 24.
Definition VM_KEYBOARD_EVENT_SEQUENCE_SHIFT : Z := 32.
Definition VM_KEYBOARD_EVENT_SEQUENCE_MASK : Z := Z.shiftl 0xFFFFFFFF 32.

Definition VM_KEYBOARD_QUEUE_CAPACITY : Z := 256.
Definition VM_KEYBOARD_PROTOCOL_VERSION : Z := 1.
Definition VM_KEY_NONE : Z := 0.

Definition KEYBOARD_CONTROL_MASK : Z := Z.lor VM_KEYBOARD_CONTROL_ENABLE VM_KEYBOARD_CONTROL_IRQ_ENABLE.

Definition vm_keyboard_event_make (usage : Z) (down repeat extended : bool) (modifiers : Z) : Z :=
  Z.lor (Z.lor (Z.lor (Z.lor usage
    (if down then VM_KEYBOARD_EVENT_DOWN else 0))
    (if repeat then VM_KEYBOARD_EVENT_REPEAT else 0))
    (if extended then VM_KEYBOARD_EVENT_EXTENDED else 0))
    (Z.shiftl modifiers VM_KEYBOARD_EVENT_MODIFIERS_SHIFT).

(** ** The host side *)

Record VmKeyboardHost (F : Type) := mkKeyboardHost {
  kh_version : Z;
  kh_struct_size : Z;
  kh_set_sink : option (F -> Z -> Z -> bool * F);
  kh_clear_sink : option (F -> Z -> Z -> bool * F);
}.
Arguments mkKeyboardHost {F}.
Arguments kh_version {F}.
Arguments kh_struct_size {F}.
Arguments kh_set_sink {F}.
Arguments kh_clear_sink {F}.

Record KeyboardInput := mkKeyboardInput {
  ki_sink : Z;
  ki_sink_context : Z;
  ki_sequence : Z;
}.

Definition set_sink (input : KeyboardInput) (sink sink_context : Z) : bool * KeyboardInput :=
  if sink =? 0 then (false, input)
  else if negb (ki_sink input =? 0) then (false, input)
  else (true, mkKeyboardInput sink sink_context (ki_sequence input)).

Definition clear_sink (input : KeyboardInput) (sink sink_context : Z) : bool * KeyboardInput :=
  if sink =? 0 then (false, input)
  else if negb (ki_sink input =? sink) || negb (ki_sink_context input =? sink_context) then (false, input)
  else (true, mkKeyboardInput 0 0 (ki_sequence input)).

Definition keyboard_input_init : KeyboardInput := mkKeyboardInput 0 0 0.

Definition keyboard_input_destroy (input : KeyboardInput) : KeyboardInput := mkKeyboardInput 0 0 0.

Definition keyboard_input_host : VmKeyboardHost KeyboardInput :=
  mkKeyboardHost VM_KEYBOARD_HOST_VERSION sizeof_VmKeyboardHost (Some set_sink) (Some clear_sink).

(** [invoke] is the code behind the function pointer of the sink. *)
Definition keyboard_input_emit {W} (invoke : Z -> Z -> Z -> W -> W) (event : Z) (input : KeyboardInput) (w : W) :
    bool * KeyboardInput * W :=
  if Z.land event VM_KEYBOARD_EVENT_USAGE_MASK =? VM_KEY_NONE then (false, input, w)
  else if ki_sink input =? 0 then (false, input, w)
  else
    let sequence := wrap32 (ki_sequence input + 1) in
    let input := mkKeyboardInput (ki_sink input) (ki_sink_context input) sequence in
    let event := Z.land event (not64 VM_KEYBOARD_EVENT_SEQUENCE_MASK) in
    let event := Z.lor event (Z.shiftl sequence VM_KEYBOARD_EVENT_SEQUENCE_SHIFT) in
    (true, input, invoke (ki_sink input) (ki_sink_context input) event w).

(** ** The device module *)

Record KeyboardDevice := mkKeyboard {
  kd_events : list Z;
  kd_head : Z;
  kd_tail : Z;
  kd_count : Z;
  kd_control : Z;
  kd_status : Z;
  kd_irq_status : Z;
  kd_dropped : Z;
  kd_irq : Z;
}.

Definition set_kd_queue events head tail count (k : KeyboardDevice) :=
  mkKeyboard events head tail count (kd_control k) (kd_status k) (kd_irq_status k) (kd_dropped k) (kd_irq k).
Definition set_kd_control v (k : KeyboardDevice) :=
  mkKeyboard (kd_events k) (kd_head k) (kd_tail k) (kd_count k) v (kd_status k) (kd_irq_status k) (kd_dropped k) (kd_irq k).
Definition set_kd_status v (k : KeyboardDevice) :=
  mkKeyboard (kd_events k) (kd_head k) (kd_tail k) (kd_count k) (kd_control k) v (kd_irq_status k) (kd_dropped k) (kd_irq k).
Definition set_kd_irq_status v (k : KeyboardDevice) :=
  mkKeyboard (kd_events k) (kd_head k) (kd_tail k) (kd_count k) (kd_control k) (kd_status k) v (kd_dropped k) (kd_irq k).
Definition set_kd_dropped v (k : KeyboardDevice) :=
  mkKeyboard (kd_events k) (kd_head k) (kd_tail k) (kd_count k) (kd_control k) (kd_status k) (kd_irq_status k) v (kd_irq k).

Section device.
Context {H S : Type} (api : VmDeviceHostApi H S).
Implicit Types (k : KeyboardDevice) (host : H).

Definition keyboard_enabled k : bool := has_bits (kd_control k) VM_KEYBOARD_CONTROL_ENABLE.

Definition keyboard_raise_irq k host : H := raise_irq_opt api (kd_irq k) host.

Definition keyboard_receive (event : Z) k host : KeyboardDevice * H :=
  if keyboard_enabled k then
    let k :=
      if kd_count k =? VM_KEYBOARD_QUEUE_CAPACITY then
        set_kd_irq_status (Z.lor (kd_irq_status k) VM_KEYBOARD_IRQ_OVERFLOW)
          (set_kd_status (Z.lor (kd_status k) VM_KEYBOARD_STATUS_OVERFLOW)
            (set_kd_dropped (wrap64 (kd_dropped k + 1)) k))
      else
        set_kd_irq_status (Z.lor (kd_irq_status k) VM_KEYBOARD_IRQ_EVENT)
          (set_kd_queue (slot_set (kd_events k) (kd_tail k) event) (kd_head k)
             ((kd_tail k + 1) mod VM_KEYBOARD_QUEUE_CAPACITY) (kd_count k + 1) k) in
    (k, if has_bits (kd_control k) VM_KEYBOARD_CONTROL_IRQ_ENABLE then keyboard_raise_irq k host else host)
  else (k, host).

Definition keyboard_read k (bar offset width : Z) : option Z * KeyboardDevice :=
  if negb (bar =? 0) || negb (width =? 8) then (None, k)
  else if offset =? VM_KEYBOARD_CONTROL_OFFSET then (Some (kd_control k), k)
  else if offset =? VM_KEYBOARD_STATUS_OFFSET then
    (Some (Z.lor (kd_status k) (if negb (kd_count k =? 0) then VM_KEYBOARD_STATUS_EVENT_AVAILABLE else 0)), k)
  else if offset =? VM_KEYBOARD_EVENT_COUNT_OFFSET then (Some (kd_count k), k)
  else if offset =? VM_KEYBOARD_EVENT_DATA_OFFSET then
    if negb (kd_count k =? 0) then
      let value := slot_get (kd_events k) (kd_head k) in
      let k := set_kd_queue (kd_events k) ((kd_head k + 1) mod VM_KEYBOARD_QUEUE_CAPACITY) (kd_tail k) (kd_count k - 1) k in
      (Some value,
       if kd_count k =? 0 then set_kd_irq_status (Z.land (kd_irq_status k) (not64 VM_KEYBOARD_IRQ_EVENT)) k else k)
    else (Some 0, k)
  else if offset =? VM_KEYBOARD_CAPACITY_OFFSET then (Some VM_KEYBOARD_QUEUE_CAPACITY, k)
  else if offset =? VM_KEYBOARD_IRQ_STATUS_OFFSET then (Some (kd_irq_status k), k)
  else if offset =? VM_KEYBOARD_DROPPED_OFFSET then (Some (kd_dropped k), k)
  else if offset =? VM_KEYBOARD_VERSION_OFFSET then (Some VM_KEYBOARD_PROTOCOL_VERSION, k)
  else (None, k).

Definition keyboard_write k host (bar offset width value : Z) : bool * KeyboardDevice * H :=
  if negb (bar =? 0) || negb (width =? 8) then (false, k, host)
  else if offset =? VM_KEYBOARD_CONTROL_OFFSET then
    let k := set_kd_control (Z.land value KEYBOARD_CONTROL_MASK) k in
    if negb (keyboard_enabled k) then
      (true, set_kd_irq_status 0 (set_kd_status 0 (set_kd_queue (kd_events k) 0 0 0 k)), host)
    else if has_bits (kd_control k) VM_KEYBOARD_CONTROL_IRQ_ENABLE && negb (kd_irq_status k =? 0) then
      (true, k, keyboard_raise_irq k host)
    else (true, k, host)
  else if offset =? VM_KEYBOARD_STATUS_OFFSET then
    (true, set_kd_status (Z.land (kd_status k) (not64 (Z.land value VM_KEYBOARD_STATUS_OVERFLOW))) k, host)
  else if offset =? VM_KEYBOARD_IRQ_STATUS_OFFSET then
    (true, set_kd_irq_status (Z.land (kd_irq_status k)
       (not64 (Z.land value (Z.lor VM_KEYBOARD_IRQ_EVENT VM_KEYBOARD_IRQ_OVERFLOW)))) k, host)
  else if offset =? VM_KEYBOARD_DROPPED_OFFSET then
    (true, if negb (value =? 0) then set_kd_dropped 0 k else k, host)
  else (false, k, host).

Definition keyboard_reset k : KeyboardDevice := mkKeyboard (kd_events k) 0 0 0 0 0 0 0 (kd_irq k).

End device.

(** [keyboard_create]: [receive] is the address of [keyboard_receive] and
    [memory] what [calloc] returns. *)
Definition keyboard_create {H F} (api : VmDeviceHostApi H (VmKeyboardHost F)) (resources : VmDeviceResources)
    (receive memory : Z) (front : F) : option KeyboardDevice * F :=
  if negb (api_abi_version api =? VM_DEVICE_ABI_VERSION) || (api_struct_size api <? sizeof_VmDeviceHostApi) then (None, front)
  else match get_service api with
  | None => (None, front)
  | Some lookup =>
      if (res_struct_size resources <? sizeof_VmDeviceResources) || negb (bar_count resources =? 1) || negb (irq_count resources =? 1)
      then (None, front)
      else match lookup VM_KEYBOARD_SERVICE_NAME VM_KEYBOARD_HOST_VERSION with
      | None => (None, front)
      | Some frontend =>
          if negb (kh_version frontend =? VM_KEYBOARD_HOST_VERSION) || (kh_struct_size frontend <? sizeof_VmKeyboardHost)
          then (None, front)
          else match kh_set_sink frontend, kh_clear_sink frontend with
          | Some set, Some _ =>
              if memory =? 0 then (None, front)
              else
                let keyboard := mkKeyboard (replicate (Z.to_nat VM_KEYBOARD_QUEUE_CAPACITY) 0) 0 0 0 0 0 0 0
                                  (slot_get (irqs resources) 0) in
                match set front receive memory with
                | (true, front) => (Some keyboard, front)
                | (false, front) => (None, front)
                end
          | _, _ => (None, front)
          end
      end
  end.

Definition keyboard_destroy {F} (frontend : VmKeyboardHost F) (receive memory : Z) (front : F) : F :=
  match kh_clear_sink frontend with
  | Some clear => (clear front receive memory).2
  | None => front
  end.

(** ** The queue *)

Definition key_queue (k : KeyboardDevice) : list Z := ring (kd_events k) (kd_head k) (kd_count k).

(** The overflow bit of the status register. *)
Definition key_overflow (k : KeyboardDevice) : bool := Z.testbit (kd_status k) 1.

Definition key_event (event : Z) : Prop := is_u64 event /\ Z.land event VM_KEYBOARD_EVENT_USAGE_MASK <> VM_KEY_NONE.

Record keyboard_wf (k : KeyboardDevice) : Prop := {
  kw_ring : ring_ok (kd_events k) (kd_head k) (kd_count k);
  kw_capacity : capacity (kd_events k) = VM_KEYBOARD_QUEUE_CAPACITY;
  kw_tail : kd_tail k = (kd_head k + kd_count k) mod VM_KEYBOARD_QUEUE_CAPACITY;
  kw_events : Forall key_event (key_queue k);
  kw_registers : is_u64 (kd_control k) /\ is_u64 (kd_status k) /\ is_u64 (kd_irq_status k) /\ is_u64 (kd_dropped k)
}.

(** Two devices with the same queue, well formed or not alike. *)
Lemma keyboard_wf_registers k k' :
  keyboard_wf k -> kd_events k' = kd_events k -> kd_head k' = kd_head k -> kd_tail k' = kd_tail k -> kd_count k' = kd_count k ->
  is_u64 (kd_control k') -> is_u64 (kd_status k') -> is_u64 (kd_irq_status k') -> is_u64 (kd_dropped k') ->
  keyboard_wf k' /\ key_queue k' = key_queue k.
Proof.
  intros [H1 H2 H3 H4 _] E1 E2 E3 E4 ? ? ? ?. assert (key_queue k' = key_queue k) as Eq by (unfold key_queue; congruence).
  split; [|done]. split; rewrite ?Eq, ?E1, ?E2, ?E3, ?E4; done.
Qed.

Lemma key_queue_length k : keyboard_wf k -> Z.of_nat (length (key_queue k)) = kd_count k.
Proof. intros [[_ Hc] _ _ _ _]. apply length_ring. lia. Qed.

Lemma keyboard_clear_wf k :
  keyboard_wf k -> keyboard_wf (set_kd_queue (kd_events k) 0 0 0 k) /\ key_queue (set_kd_queue (kd_events k) 0 0 0 k) = [].
Proof.
  intros [H1 H2 H3 H4 H5]. split; [|done]. split; try done. split; cbn; rewrite H2; unfold VM_KEYBOARD_QUEUE_CAPACITY; lia.
Qed.

Lemma key_push k event :
  keyboard_wf k -> key_event event -> kd_count k <> VM_KEYBOARD_QUEUE_CAPACITY ->
  let k' := set_kd_queue (slot_set (kd_events k) (kd_tail k) event) (kd_head k)
              ((kd_tail k + 1) mod VM_KEYBOARD_QUEUE_CAPACITY) (kd_count k + 1) k in
  keyboard_wf k' /\ key_queue k' = key_queue k ++ [event].
Proof.
  intros [H1 H2 H3 H4 H5] He Hne k'. pose proof H1 as [Hh Hc]. rewrite H2 in *.
  destruct (ring_push_store (kd_events k) (kd_head k) (kd_count k) event H1) as [Hq Hok]; [lia|].
  rewrite H2, <- H3 in Hq, Hok. split; [|exact Hq]. split; try done; cbn.
  - by rewrite capacity_set.
  - rewrite H3, Z.add_mod_idemp_l by done. f_equal. lia.
  - unfold key_queue. cbn. rewrite Hq. apply Forall_app. by split; [|apply Forall_singleton].
Qed.

Lemma key_pop k :
  keyboard_wf k -> kd_count k <> 0 ->
  let k' := set_kd_queue (kd_events k) ((kd_head k + 1) mod VM_KEYBOARD_QUEUE_CAPACITY) (kd_tail k) (kd_count k - 1) k in
  keyboard_wf k' /\ key_queue k = slot_get (kd_events k) (kd_head k) :: key_queue k' /\
  key_event (slot_get (kd_events k) (kd_head k)).
Proof.
  intros [H1 H2 H3 H4 H5] Hne k'. pose proof H1 as [Hh Hc]. rewrite H2 in *.
  destruct (ring_pop_head (kd_events k) (kd_head k) (kd_count k) H1) as [Hq Hok]; [lia|].
  rewrite H2 in Hq, Hok. unfold key_queue in H4. rewrite Hq in H4. apply Forall_cons_1 in H4 as [H4 H4'].
  split_and!; [|exact Hq|done]. split; try done. cbn. rewrite H3, Z.add_mod_idemp_l by done. f_equal. lia.
Qed.

Section device_facts.
Context {H S : Type} (api : VmDeviceHostApi H S).

Lemma keyboard_receive_spec k host event :
  keyboard_wf k -> key_event event ->
  let k' := (keyboard_receive api event k host).1 in
  keyboard_wf k' /\ keyboard_enabled k' = keyboard_enabled k /\
  if keyboard_enabled k then
    if kd_count k =? VM_KEYBOARD_QUEUE_CAPACITY
    then key_queue k' = key_queue k /\ kd_dropped k' = wrap64 (kd_dropped k + 1) /\ key_overflow k' = true
    else key_queue k' = key_queue k ++ [event] /\ kd_dropped k' = kd_dropped k /\ key_overflow k' = key_overflow k
  else k' = k.
Proof.
  intros Hwf Hev k'. subst k'. unfold keyboard_receive. destruct (keyboard_enabled k) eqn:He; [|done].
  cbv zeta. cbn [fst].
  pose proof (kw_registers _ Hwf) as (? & ? & ? & ?). destruct (Z.eqb_spec (kd_count k) VM_KEYBOARD_QUEUE_CAPACITY) as [Hf|Hf].
  - destruct (keyboard_wf_registers k (set_kd_irq_status (Z.lor (kd_irq_status k) VM_KEYBOARD_IRQ_OVERFLOW)
      (set_kd_status (Z.lor (kd_status k) VM_KEYBOARD_STATUS_OVERFLOW) (set_kd_dropped (wrap64 (kd_dropped k + 1)) k))) Hwf)
      as [Hwf' Hq]; try done; [by apply lor_u64|by apply lor_u64|apply wrap64_u64|].
    split_and!; try done. unfold key_overflow. cbn [kd_status set_kd_irq_status set_kd_status].
    by rewrite Z.lor_spec, orb_true_r.
  - destruct (key_push k event Hwf Hev Hf) as [Hwf1 Hq1]. set (k1 := set_kd_queue _ _ _ _ k) in *.
    destruct (keyboard_wf_registers k1 (set_kd_irq_status (Z.lor (kd_irq_status k) VM_KEYBOARD_IRQ_EVENT) k1) Hwf1)
      as [Hwf' Hq]; try done. by apply lor_u64.
Qed.

(** What a read of the event register returns and what every other read leaves. *)
Lemma keyboard_read_spec k bar offset width :
  keyboard_wf k ->
  let '(value, k') := keyboard_read k bar offset width in
  keyboard_wf k' /\ kd_control k' = kd_control k /\ kd_dropped k' = kd_dropped k /\ kd_status k' = kd_status k /\
  if (bar =? 0) && (width =? 8) && (offset =? VM_KEYBOARD_EVENT_DATA_OFFSET)
  then match key_queue k with
       | [] => value = Some 0 /\ key_queue k' = []
       | e :: q => value = Some e /\ key_queue k' = q /\ e <> 0
       end
  else key_queue k' = key_queue k.
Proof.
  intros Hwf. unfold keyboard_read. destruct (Z.eqb_spec bar 0), (Z.eqb_spec width 8); cbn [negb orb andb]; try by split_and!.
  destruct (Z.eqb_spec offset VM_KEYBOARD_EVENT_DATA_OFFSET) as [->|Hne]; [|repeat case_match; simplify_eq; by split_and!].
  cbn -[VM_KEYBOARD_QUEUE_CAPACITY]. pose proof (key_queue_length _ Hwf) as Hl. destruct (Z.eqb_spec (kd_count k) 0) as [E0|E0]; cbn [negb].
  { destruct (key_queue k) eqn:Eq; [|cbn in Hl; lia]. by split_and!. }
  destruct (key_pop k Hwf E0) as (Hwf1 & -> & Hev). set (k1 := set_kd_queue _ _ _ _ k) in *.
  assert (slot_get (kd_events k) (kd_head k) <> 0) as Hn.
  { intros E. rewrite E in Hev. by destruct Hev as [_ []]. }
  pose proof (kw_registers _ Hwf1) as (? & ? & ? & ?). destruct (_ =? 0); [|by split_and!].
  destruct (keyboard_wf_registers k1 (set_kd_irq_status (Z.land (kd_irq_status k1) (not64 VM_KEYBOARD_IRQ_EVENT)) k1) Hwf1)
    as [Hwf' Hq]; try done. by apply land_u64; auto with u64.
Qed.

(** What every write does to the queue, the counter and the overflow bit. *)
Lemma keyboard_write_spec k host offset width value :
  keyboard_wf k -> is_u64 value ->
  let k' := (keyboard_write api k host 0 offset width value).1.2 in
  let control := (width =? 8) && (offset =? VM_KEYBOARD_CONTROL_OFFSET) in
  let on := has_bits value VM_KEYBOARD_CONTROL_ENABLE in
  keyboard_wf k' /\
  keyboard_enabled k' = (if control then on else keyboard_enabled k) /\
  key_queue k' = (if control && negb on then [] else key_queue k) /\
  kd_dropped k' = (if (width =? 8) && (offset =? VM_KEYBOARD_DROPPED_OFFSET) && negb (value =? 0)
                   then 0 else kd_dropped k) /\
  key_overflow k' = (if control && negb on then false
                     else if (width =? 8) && (offset =? VM_KEYBOARD_STATUS_OFFSET) && Z.testbit value 1
                     then false else key_overflow k).
Proof.
  intros Hwf Hv. unfold keyboard_write. pose proof (kw_registers _ Hwf) as (? & ? & ? & ?).
  assert (is_u64 KEYBOARD_CONTROL_MASK) as Hm by done.
  destruct (Z.eqb_spec width 8); cbn [negb orb andb Z.eqb]; [|by split_and!].
  destruct (Z.eqb_spec offset VM_KEYBOARD_CONTROL_OFFSET) as [->|Hne1]; cbn [andb].
  - destruct (keyboard_wf_registers k (set_kd_control (Z.land value KEYBOARD_CONTROL_MASK) k) Hwf) as [Hwf1 Hq1]; try done; [by apply land_u64|].
    set (k1 := set_kd_control _ k) in *.
    assert (keyboard_enabled k1 = has_bits value VM_KEYBOARD_CONTROL_ENABLE) as Ee.
    { unfold keyboard_enabled, has_bits, k1. cbn [kd_control set_kd_control]. by rewrite <- Z.land_assoc. }
    rewrite Ee. destruct (has_bits value _) eqn:Eb; cbn [negb].
    + destruct (_ && negb _); by split_and!.
    + destruct (keyboard_clear_wf _ Hwf1) as [Hwf2 Hq2]. set (k2 := set_kd_queue _ 0 0 0 k1) in *.
      destruct (keyboard_wf_registers k2 (set_kd_irq_status 0 (set_kd_status 0 k2)) Hwf2) as [Hwf3 Hq3]; try done. by apply land_u64.
  - assert (forall k', kd_events k' = kd_events k -> kd_head k' = kd_head k -> kd_tail k' = kd_tail k -> kd_count k' = kd_count k ->
      kd_control k' = kd_control k -> is_u64 (kd_status k') -> is_u64 (kd_irq_status k') -> is_u64 (kd_dropped k') ->
      keyboard_wf k' /\ keyboard_enabled k' = keyboard_enabled k /\ key_queue k' = key_queue k) as Hgen.
    { intros k' E1 E2 E3 E4 E5 ? ? ?. destruct (keyboard_wf_registers k k' Hwf) as [Hwf' Hq]; try done; [by rewrite E5|].
      split_and!; try done. unfold keyboard_enabled. by rewrite E5. }
    destruct (Z.eqb_spec offset VM_KEYBOARD_STATUS_OFFSET) as [->|].
    { destruct (Hgen (set_kd_status (Z.land (kd_status k) (not64 (Z.land value VM_KEYBOARD_STATUS_OVERFLOW))) k))
        as (? & ? & ?); try done; try (cbn; by auto with u64).
      split_and!; try done. unfold key_overflow. cbn [fst snd kd_status set_kd_status andb].
      rewrite Z.land_spec, testbit_not64, Z.land_spec by lia.
      change (Z.testbit VM_KEYBOARD_STATUS_OVERFLOW 1) with true. rewrite andb_true_r.
      by destruct (Z.testbit value 1); rewrite ?andb_false_r, ?andb_true_r. }
    destruct (Z.eqb_spec offset VM_KEYBOARD_IRQ_STATUS_OFFSET) as [->|].
    { match goal with |- context [set_kd_irq_status ?v k] => destruct (Hgen (set_kd_irq_status v k)) as (? & ? & ?) end;
        try done; try (cbn; by auto with u64). }
    destruct (Z.eqb_spec offset VM_KEYBOARD_DROPPED_OFFSET) as [->|]; [|by split_and!].
    cbn [andb fst snd]. destruct (value =? 0); cbn [negb]; [by split_and!|].
    by destruct (Hgen (set_kd_dropped 0 k)) as (? & ? & ?).
Qed.

Lemma keyboard_reset_wf k : keyboard_wf k -> keyboard_wf (keyboard_reset k) /\ key_queue (keyboard_reset k) = [].
Proof.
  intros Hwf. destruct (keyboard_clear_wf _ Hwf) as [[H1 H2 H3 H4 _] _]. split; [|done]. by split.
Qed.

End device_facts.

(** ** From the host to the guest *)

(** The stamp of [keyboard_input_emit], as arithmetic: the low half of the event
    below the sequence number. *)
Definition stamp (sequence event : Z) : Z := event mod 2 ^ 32 + sequence * 2 ^ 32.

Lemma stamp_bits sequence event :
  is_u64 event ->
  Z.lor (Z.land event (not64 VM_KEYBOARD_EVENT_SEQUENCE_MASK)) (Z.shiftl sequence VM_KEYBOARD_EVENT_SEQUENCE_SHIFT) =
  stamp sequence event.
Proof.
  intros He. assert (Z.land event (not64 VM_KEYBOARD_EVENT_SEQUENCE_MASK) = event mod 2 ^ 32) as ->.
  { change (not64 VM_KEYBOARD_EVENT_SEQUENCE_MASK) with (2 ^ 32 - 1). by apply land_low_mask. }
  apply lor_shiftl_add; [done|]. apply Z.mod_pos_bound. done.
Qed.

Lemma stamp_event sequence event :
  is_u64 event -> is_u32 sequence -> Z.land event VM_KEYBOARD_EVENT_USAGE_MASK <> VM_KEY_NONE -> key_event (stamp sequence event).
Proof.
  unfold key_event, stamp, is_u64, is_u32. intros He Hs Hu. pose proof (Z.mod_pos_bound event (2 ^ 32) ltac:(done)) as Hm. split; [lia|].
  change VM_KEYBOARD_EVENT_USAGE_MASK with (2 ^ 16 - 1) in *. rewrite land_low_mask in * by done.
  replace (event mod 2 ^ 32 + sequence * 2 ^ 32) with (event mod 2 ^ 32 + sequence * 2 ^ 16 * 2 ^ 16) by lia.
  rewrite Z.mod_add by done. change (2 ^ 32) with (2 ^ 16 * 2 ^ 16).
  rewrite Z.rem_mul_r by done. rewrite (Z.mul_comm (2 ^ 16) (_ mod _)), Z.mod_add, Z.mod_mod by done. done.
Qed.

Section path.
Context {H S : Type} (api : VmDeviceHostApi H S) (receive memory : Z).

(** The input queue of the host, the device and what lies behind it. *)
Record KeyboardPath := mkKeyboardPath { kp_input : KeyboardInput; kp_device : KeyboardDevice; kp_host : H }.

(** The function pointer of the sink: the device registered [receive]. *)
Definition invoke_sink (sink context event : Z) (w : KeyboardDevice * H) : KeyboardDevice * H :=
  if (sink =? receive) && (context =? memory) then keyboard_receive api event w.1 w.2 else w.

Inductive KeyAction :=
  | PressKey (event : Z)
  | GuestRead (offset width : Z)
  | GuestWrite (offset width value : Z).

(** One action, with the event it delivers to the guest, if any. *)
Definition key_action (a : KeyAction) (p : KeyboardPath) : option Z * KeyboardPath :=
  match a with
  | PressKey event =>
      let '(_, input, (device, host)) := keyboard_input_emit invoke_sink event (kp_input p) (kp_device p, kp_host p) in
      (None, mkKeyboardPath input device host)
  | GuestRead offset width =>
      let '(value, device) := keyboard_read (kp_device p) 0 offset width in
      (if (width =? 8) && (offset =? VM_KEYBOARD_EVENT_DATA_OFFSET)
       then match value with Some 0 => None | _ => value end else None,
       mkKeyboardPath (kp_input p) device (kp_host p))
  | GuestWrite offset width value =>
      let '(_, device, host) := keyboard_write api (kp_device p) (kp_host p) 0 offset width value in
      (None, mkKeyboardPath (kp_input p) device host)
  end.

Fixpoint key_actions (l : list KeyAction) (p : KeyboardPath) : list Z * KeyboardPath :=
  match l with
  | [] => ([], p)
  | a :: l =>
      let '(delivered, p) := key_action a p in
      let '(rest, p) := key_actions l p in
      (option_list delivered ++ rest, p)
  end.

(** ** What the path promises: a bounded queue *)

(** The guest's view: whether the device is on, the events waiting, the count of
    lost ones, the overflow flag, and the last sequence number given. *)
Record KeyStream := mkStream {
  ks_enabled : bool;
  ks_queue : list Z;
  ks_dropped : Z;
  ks_overflow : bool;
  ks_sequence : Z;
}.

(** A press of a key takes the next sequence number.  It is queued when fewer
    than 256 events wait, lost and counted otherwise, ignored when the device
    is off. *)
Definition stream_press (event : Z) (q : KeyStream) : KeyStream :=
  if Z.land event 0xFFFF =? 0 then q
  else
    let sequence := (ks_sequence q + 1) mod 2 ^ 32 in
    if negb (ks_enabled q) then
      mkStream false (ks_queue q) (ks_dropped q) (ks_overflow q) sequence
    else if (length (ks_queue q) <? 256)%nat then
      mkStream true (ks_queue q ++ [stamp sequence event]) (ks_dropped q) (ks_overflow q) sequence
    else mkStream true (ks_queue q) ((ks_dropped q + 1) mod 2 ^ 64) true sequence.

Definition stream_action (a : KeyAction) (q : KeyStream) : option Z * KeyStream :=
  match a with
  | PressKey event => (None, stream_press event q)
  | GuestRead offset width =>
      if (width =? 8) && (offset =? VM_KEYBOARD_EVENT_DATA_OFFSET)
      then (head (ks_queue q),
            mkStream (ks_enabled q) (tail (ks_queue q)) (ks_dropped q) (ks_overflow q) (ks_sequence q))
      else (None, q)
  | GuestWrite offset width value =>
      (None,
       if negb (width =? 8) then q
       else if offset =? VM_KEYBOARD_CONTROL_OFFSET then
         if Z.testbit value 0
         then mkStream true (ks_queue q) (ks_dropped q) (ks_overflow q) (ks_sequence q)
         else mkStream false [] (ks_dropped q) false (ks_sequence q)
       else if (offset =? VM_KEYBOARD_STATUS_OFFSET) && Z.testbit value 1 then
         mkStream (ks_enabled q) (ks_queue q) (ks_dropped q) false (ks_sequence q)
       else if (offset =? VM_KEYBOARD_DROPPED_OFFSET) && negb (value =? 0) then
         mkStream (ks_enabled q) (ks_queue q) 0 (ks_overflow q) (ks_sequence q)
       else q)
  end.

Fixpoint stream_actions (l : list KeyAction) (q : KeyStream) : list Z * KeyStream :=
  match l with
  | [] => ([], q)
  | a :: l =>
      let '(delivered, q) := stream_action a q in
      let '(rest, q) := stream_actions l q in
      (option_list delivered ++ rest, q)
  end.

(** Every press among the actions with the stamp it gets, and whether the queue
    has room for it. *)
Fixpoint fates (l : list KeyAction) (q : KeyStream) : list (Z * bool) :=
  match l with
  | [] => []
  | a :: l =>
      match a with
      | PressKey event =>
          if Z.land event 0xFFFF =? 0 then []
          else [(stamp ((ks_sequence q + 1) mod 2 ^ 32) event, (length (ks_queue q) <? 256)%nat)]
      | _ => []
      end ++ fates l (stream_action a q).2
  end.

Definition accepted (f : list (Z * bool)) : list Z := (filter (fun x => x.2 = true) f).*1.
Definition lost (f : list (Z * bool)) : list Z := (filter (fun x => x.2 = false) f).*1.

(** What the path holds of the stream. *)
Definition stream_of (p : KeyboardPath) : KeyStream :=
  mkStream (keyboard_enabled (kp_device p)) (key_queue (kp_device p)) (kd_dropped (kp_device p))
    (key_overflow (kp_device p)) (ki_sequence (kp_input p)).

Definition action_ok (a : KeyAction) : Prop :=
  match a with
  | PressKey event => is_u64 event
  | GuestRead _ _ => True
  | GuestWrite _ _ value => is_u64 value
  end.

Record path_ok (p : KeyboardPath) : Prop := {
  po_wf : keyboard_wf (kp_device p);
  po_sink : ki_sink (kp_input p) = receive /\ ki_sink_context (kp_input p) = memory /\ receive <> 0
}.

Lemma press_refines event p :
  path_ok p -> is_u64 event ->
  let p' := (key_action (PressKey event) p).2 in
  path_ok p' /\ stream_of p' = stream_press event (stream_of p).
Proof.
  intros Hp Ha. pose proof Hp as [Hwf (Es & Ec & Hr)]. cbn [key_action].
  unfold keyboard_input_emit, stream_press. change VM_KEYBOARD_EVENT_USAGE_MASK with 0xFFFF. change VM_KEY_NONE with 0.
  destruct (Z.eqb_spec (Z.land event 0xFFFF) 0) as [Eu|Eu]; [by destruct p|].
  rewrite Es, (proj2 (Z.eqb_neq _ _) Hr). cbv zeta. cbn [ki_sink ki_sink_context]. unfold invoke_sink.
  rewrite Ec, !Z.eqb_refl. cbn [andb fst snd]. rewrite stamp_bits by done.
  change (wrap32 (ki_sequence (kp_input p) + 1)) with ((ki_sequence (kp_input p) + 1) mod 2 ^ 32).
  set (n := (ki_sequence (kp_input p) + 1) mod 2 ^ 32).
  assert (key_event (stamp n event)) as Hev by (apply stamp_event; [done|by apply Z.mod_pos_bound|done]).
  pose proof (keyboard_receive_spec api (kp_device p) (kp_host p) (stamp n event) Hwf Hev) as (Hwf' & Hon & Hq).
  pose proof (key_queue_length _ Hwf) as Hl.
  destruct (keyboard_receive api (stamp n event) _ _) as [k' host']. cbn [fst snd] in *.
  split; [by split|]. unfold stream_of. cbn [kp_device kp_input ki_sequence ks_enabled ks_queue ks_dropped ks_overflow ks_sequence].
  fold n. rewrite Hon. destruct (keyboard_enabled (kp_device p)); cbn [negb]; [|by rewrite Hq].
  destruct (Z.eqb_spec (kd_count (kp_device p)) VM_KEYBOARD_QUEUE_CAPACITY) as [E|E];
    destruct Hq as (-> & -> & ->); destruct (Nat.ltb_spec (length (key_queue (kp_device p))) 256); try done; exfalso;
    pose proof (ring_count _ _ _ (kw_ring _ Hwf)) as Hc; rewrite (kw_capacity _ Hwf) in Hc;
    unfold VM_KEYBOARD_QUEUE_CAPACITY in *; lia.
Qed.

(** One action of the path is one action of the stream. *)
Lemma key_action_refines a p :
  path_ok p -> action_ok a ->
  path_ok (key_action a p).2 /\
  ((key_action a p).1, stream_of (key_action a p).2) = stream_action a (stream_of p).
Proof.
  intros Hp Ha. pose proof Hp as [Hwf Hsink].
  destruct a as [event|offset width|offset width value]; cbn [stream_action].
  - destruct (press_refines event p Hp Ha) as [? <-]. split; [done|]. f_equal. cbn [key_action].
    by destruct (keyboard_input_emit _ _ _ _) as [[? ?] [? ?]].
  - cbn [key_action]. pose proof (keyboard_read_spec (kp_device p) 0 offset width Hwf) as Hread.
    destruct (keyboard_read (kp_device p) 0 offset width) as [value k']. destruct Hread as (Hwf' & Hctl & Hdr & Hst & Hq).
    cbn [fst snd]. split; [by split|]. change (0 =? 0) with true in Hq. cbn [andb] in Hq.
    assert (keyboard_enabled k' = keyboard_enabled (kp_device p)) as Hon by (unfold keyboard_enabled; by rewrite Hctl).
    assert (key_overflow k' = key_overflow (kp_device p)) as Hov by (unfold key_overflow; by rewrite Hst).
    unfold stream_of. cbn [kp_device kp_input ks_enabled ks_queue ks_dropped ks_overflow ks_sequence].
    rewrite Hon, Hov, Hdr. destruct (_ && _); [|by rewrite Hq].
    destruct (key_queue (kp_device p)) as [|e q]; destruct Hq as [-> Hq]; [by rewrite Hq|].
    destruct Hq as [-> Hn]. by destruct e.
  - cbn [key_action]. pose proof (keyboard_write_spec api (kp_device p) (kp_host p) offset width value Hwf Ha) as Hw.
    destruct (keyboard_write _ _ _ _ _ _ _) as [[ok k'] host']. cbn [fst snd] in *.
    destruct Hw as (Hwf' & Hon & Hq & Hdr & Hov). split; [by split|]. f_equal. unfold stream_of.
    cbn [kp_device kp_input ks_enabled ks_queue ks_dropped ks_overflow ks_sequence].
    rewrite Hon, Hq, Hdr, Hov. change VM_KEYBOARD_CONTROL_ENABLE with (2 ^ 0). rewrite has_bits_pow2 by lia.
    destruct (width =? 8); cbn [negb andb]; [|done].
    destruct (Z.eqb_spec offset VM_KEYBOARD_CONTROL_OFFSET) as [->|]; cbn [andb]; [by destruct (Z.testbit value 0)|].
    destruct (Z.eqb_spec offset VM_KEYBOARD_STATUS_OFFSET) as [->|]; cbn [andb]; [by destruct (Z.testbit value 1)|].
    by destruct (Z.eqb_spec offset VM_KEYBOARD_DROPPED_OFFSET) as [->|]; cbn [andb]; [destruct (value =? 0)|].
Qed.

Lemma key_actions_refine l p :
  path_ok p -> Forall action_ok l ->
  path_ok (key_actions l p).2 /\
  ((key_actions l p).1, stream_of (key_actions l p).2) = stream_actions l (stream_of p).
Proof.
  revert p. induction l as [|a l IH]; intros p Hp Hok; cbn [key_actions stream_actions]; [done|].
  apply Forall_cons_1 in Hok as [Ha Hok]. destruct (key_action_refines a p Hp Ha) as [Hp1 <-].
  destruct (key_action a p) as [d1 p1]. cbn [fst snd] in *. destruct (IH p1 Hp1 Hok) as [Hp2 <-].
  by destruct (key_actions l p1) as [d2 p2].
Qed.

End path.

Arguments KeyboardPath : clear implicits.
Arguments mkKeyboardPath {H}.

(** The actions do not turn the device off; they do not clear the counter. *)
Definition stays_on (a : KeyAction) : Prop :=
  match a with
  | GuestWrite offset 8 value => offset = VM_KEYBOARD_CONTROL_OFFSET -> Z.testbit value 0 = true
  | _ => True
  end.
Definition keeps_counter (a : KeyAction) : Prop :=
  match a with GuestWrite offset _ _ => offset <> VM_KEYBOARD_DROPPED_OFFSET | _ => True end.

Lemma fates_cons a l q : fates (a :: l) q = fates [a] q ++ fates l (stream_action a q).2.
Proof. cbn [fates]. by rewrite app_nil_r. Qed.

Lemma accepted_app f g : accepted (f ++ g) = accepted f ++ accepted g.
Proof. unfold accepted. by rewrite list.filter_app, fmap_app. Qed.

Lemma lost_app f g : lost (f ++ g) = lost f ++ lost g.
Proof. unfold lost. by rewrite list.filter_app, fmap_app. Qed.

Lemma stream_action_fate a q :
  ks_enabled q = true -> stays_on a ->
  let '(d, q') := stream_action a q in
  ks_enabled q' = true /\ option_list d ++ ks_queue q' = ks_queue q ++ accepted (fates [a] q) /\
  (is_u64 (ks_dropped q) -> keeps_counter a -> is_u64 (ks_dropped q') /\
     ks_dropped q' = (ks_dropped q + Z.of_nat (length (lost (fates [a] q)))) mod 2 ^ 64).
Proof.
  intros Hon Ha. assert (forall x, is_u64 x -> (x + Z.of_nat 0) mod 2 ^ 64 = x) as H0.
  { intros x Hx. rewrite Z.add_0_r. by apply Z.mod_small. }
  assert (option_list None ++ ks_queue q = ks_queue q ++ accepted []) as Hsame by by rewrite app_nil_r.
  destruct a as [event|offset width|offset width value]; cbn [stream_action fates]; rewrite ?app_nil_r.
  - unfold stream_press. destruct (_ =? 0); [by split_and!; [..|intros; split; [|symmetry; apply H0]]|].
    rewrite Hon. cbn [negb app].
    destruct (_ <? _)%nat; cbn; rewrite ?app_nil_r; (split_and!; [done..|intros Hd _]).
    + split; [done|]. symmetry. exact (H0 _ Hd).
    + split; [by apply Z.mod_pos_bound|done].
  - destruct (_ && _); [|by split_and!; [..|intros; split; [|symmetry; apply H0]]].
    destruct (ks_queue q) eqn:Eq; cbn; rewrite ?app_nil_r;
      by split_and!; [..|intros; split; [|symmetry; apply H0]].
  - cbn [option_list app]. destruct (Z.eqb_spec width 8) as [->|]; cbn [negb].
    + destruct (Z.eqb_spec offset VM_KEYBOARD_CONTROL_OFFSET) as [->|].
      { rewrite (Ha eq_refl). by split_and!; [..|intros; split; [|symmetry; apply H0]]. }
      destruct (_ && _); [by split_and!; [..|intros; split; [|symmetry; apply H0]]|].
      destruct (Z.eqb_spec offset VM_KEYBOARD_DROPPED_OFFSET) as [->|]; cbn [andb];
        [|by split_and!; [..|intros; split; [|symmetry; apply H0]]].
      by destruct (value =? 0); split_and!.
    + by split_and!; [..|intros; split; [|symmetry; apply H0]].
Qed.

Lemma stream_fates l q :
  ks_enabled q = true -> Forall stays_on l ->
  let '(delivered, q') := stream_actions l q in
  delivered ++ ks_queue q' = ks_queue q ++ accepted (fates l q) /\
  (is_u64 (ks_dropped q) -> Forall keeps_counter l ->
     ks_dropped q' = (ks_dropped q + Z.of_nat (length (lost (fates l q)))) mod 2 ^ 64).
Proof.
  revert q. induction l as [|a l IH]; intros q Hon Hl; cbn [stream_actions].
  { rewrite app_nil_r. split; [done|]. intros Hd _. rewrite Z.add_0_r. symmetry. by apply Z.mod_small. }
  apply Forall_cons_1 in Hl as [Ha Hl]. rewrite fates_cons.
  pose proof (stream_action_fate a q Hon Ha) as H1. destruct (stream_action a q) as [d q1]. cbn [snd].
  destruct H1 as (Hon1 & Hq1 & Hd1). specialize (IH q1 Hon1 Hl).
  destruct (stream_actions l q1) as [ds q2]. destruct IH as [Hq2 Hd2].
  rewrite accepted_app, lost_app, length_app. split.
  - by rewrite <-app_assoc, Hq2, app_assoc, Hq1, <-app_assoc.
  - intros Hd Hk. apply Forall_cons_1 in Hk as [Hka Hk]. destruct (Hd1 Hd Hka) as [Hu E1].
    rewrite (Hd2 Hu Hk), E1, Z.add_mod_idemp_l by done. f_equal. lia.
Qed.

(** * Properties *)

(** C37: key presses reach the guest in order, and a loss is never silent.  For
    any interleaving of key presses with reads and writes of the guest, the host
    side and the device together are a bounded queue: each press takes the next
    sequence number and, with the device on, is appended to the queue if fewer
    than 256 events wait, and is otherwise lost, counted and flagged; reading
    the event register takes the oldest event; writing the counter clears it and
    turning the device off empties the queue.  While the device stays on, the
    events read followed by those still queued are the ones queued at the start
    followed by exactly the presses that found room; and unless the guest clears
    it, the counter grows by exactly the number of presses that did not. *)
Theorem keyboard_stream {H S} (api : VmDeviceHostApi H S) receive memory (actions : list KeyAction) (p : KeyboardPath H) :
  path_ok receive memory p -> Forall action_ok actions ->
  let '(delivered, p') := key_actions api receive memory actions p in
  let fate := fates actions (stream_of p) in
  path_ok receive memory p' /\
  (delivered, stream_of p') = stream_actions actions (stream_of p) /\
  (keyboard_enabled (kp_device p) = true -> Forall stays_on actions ->
     delivered ++ key_queue (kp_device p') = key_queue (kp_device p) ++ accepted fate /\
     (Forall keeps_counter actions ->
        kd_dropped (kp_device p') = wrap64 (kd_dropped (kp_device p) + Z.of_nat (length (lost fate))))).
Proof.
  intros Hp Hok. destruct (key_actions_refine api receive memory actions p Hp Hok) as [Hp' Hr].
  destruct (key_actions api receive memory actions p) as [delivered p']. cbn [fst snd] in *.
  split_and!; [done|done|]. intros Hon Hs. pose proof (stream_fates actions (stream_of p) Hon Hs) as Hf.
  rewrite <-Hr in Hf. destruct Hf as [Hq Hd]. split; [exact Hq|]. intros Hk.
  apply Hd; [|done]. apply (kw_registers _ (po_wf _ _ _ Hp)).
Qed.

Definition demo_keyboard : KeyboardPath Z :=
  mkKeyboardPath (mkKeyboardInput 7 9 4294967294)
    (mkKeyboard (replicate (Z.to_nat VM_KEYBOARD_QUEUE_CAPACITY) 0) 255 255 0 3 0 0 0 5) 0.

Definition demo_keyboard_api : VmDeviceHostApi Z Z :=
  mkHostApi VM_DEVICE_ABI_VERSION sizeof_VmDeviceHostApi None None (Some (fun n irq => (true, n + 1))) None.

(** Two presses around the wrap of the queue and of the sequence number, read
    back by the guest, which also clears the counter. *)
Definition demo_keys : list KeyAction :=
  [PressKey 0x10004; PressKey 0; PressKey 5; GuestRead 0x18 8; GuestWrite 0x28 8 1; GuestRead 0x18 8; GuestRead 0x18 8;
   GuestWrite 0x30 8 1].

(** 257 presses: the last one is lost. *)
Definition demo_flood : list KeyAction := replicate 257 (PressKey 5).

Lemma demo_keyboard_ok : path_ok 7 9 demo_keyboard.
Proof. split; [split|]; try done. Qed.

Lemma keyboard_stream_witness :
  (key_actions demo_keyboard_api 7 9 demo_keys demo_keyboard).1 = [0xFFFFFFFF00010004; 5] /\
  path_ok 7 9 (key_actions demo_keyboard_api 7 9 demo_keys demo_keyboard).2 /\
  kd_dropped (kp_device (key_actions demo_keyboard_api 7 9 demo_flood demo_keyboard).2) = 1.
Proof.
  split; [by vm_compute|]. split.
  - pose proof (keyboard_stream demo_keyboard_api 7 9 demo_keys demo_keyboard demo_keyboard_ok
      ltac:(repeat constructor; done)) as H.
    destruct (key_actions demo_keyboard_api 7 9 demo_keys demo_keyboard) as [delivered p']. exact (proj1 H).
  - pose proof (keyboard_stream demo_keyboard_api 7 9 demo_flood demo_keyboard demo_keyboard_ok
      ltac:(apply Forall_replicate; done)) as H.
    destruct (key_actions demo_keyboard_api 7 9 demo_flood demo_keyboard) as [delivered p'].
    destruct H as (_ & _ & H). destruct H as [_ H]; [reflexivity|apply Forall_replicate; done|].
    cbn [snd]. rewrite H by (apply Forall_replicate; done). vm_compute. reflexivity.
Defined.
