(* ===== verification/DisplayQueue.v ===== *)
(** The queue of frames between the display device and the window:
    src/display_queue.c.

    Frames own their pixels, so the host's heap is part of the state: [HostHeap]
    maps the address of every live block to its bytes.  What [malloc] returns is
    an argument (0 when it fails); [free] of a block that is not live has no
    result.  The queue lock makes each operation atomic. *)

From S2P Require Import Prelude Ring.
From Stdlib Require Import ZArith Lia Bool.
From stdpp Require Import base list numbers option gmap.

#[local] Open Scope Z_scope.

Definition DISPLAY_FRAME_QUEUE_CAPACITY : Z := 3.
Definition VM_PIXEL_FORMAT_XRGB8888 : Z := 1.
Definition UINT32_MAX : Z := 0xFFFFFFFF.

(** ** The host's heap *)

Abbreviation HostHeap := (gmap Z (list Z)).

Definition host_free (block : Z) (heap : HostHeap) : option HostHeap :=
  if block =? 0 then Some heap
  else match heap !! block with
  | Some _ => Some (delete block heap)
  | None => None
  end.

Record DisplayFrame := mkFrame {
  frame_pixels : Z;
  frame_size : Z;
  frame_width : Z;
  frame_height : Z;
  frame_stride : Z;
  frame_format : Z;
  frame_number : Z;
}.

Definition empty_frame : DisplayFrame := mkFrame 0 0 0 0 0 0 0.

#[export] Instance frame_inhabited : Inhabited DisplayFrame := populate empty_frame.
#[export] Instance frame_eq_dec : EqDecision DisplayFrame.
Proof. solve_decision. Defined.

Definition display_frame_release (frame : DisplayFrame) (heap : HostHeap) : option (DisplayFrame * HostHeap) :=
  match host_free (frame_pixels frame) heap with
  | Some heap => Some (empty_frame, heap)
  | None => None
  end.

(** ** The queue *)

Record DisplayFrameQueue := mkFrameQueue {
  queue_frames : list DisplayFrame;
  queue_head : Z;
  queue_count : Z;
  queue_dropped : Z;
}.

Definition display_frame_queue_init : DisplayFrameQueue :=
  mkFrameQueue (replicate (Z.to_nat DISPLAY_FRAME_QUEUE_CAPACITY) empty_frame) 0 0 0.

(** [for (...) display_frame_release(&frames[i])] *)
Fixpoint release_frames (frames : list DisplayFrame) (heap : HostHeap) : option HostHeap :=
  match frames with
  | [] => Some heap
  | frame :: frames =>
      match display_frame_release frame heap with
      | Some (_, heap) => release_frames frames heap
      | None => None
      end
  end.

Definition display_frame_queue_destroy (q : DisplayFrameQueue) (heap : HostHeap) : option (DisplayFrameQueue * HostHeap) :=
  match release_frames (queue_frames q) heap with
  | Some heap => Some (display_frame_queue_init, heap)
  | None => None
  end.

(** [memcpy(buffer + offset, data, length data)] inside the buffer. *)
Definition overwrite (buffer : list Z) (offset : Z) (data : list Z) : list Z :=
  take (Z.to_nat offset) buffer ++ data ++ drop (Z.to_nat offset + length data) buffer.

(** The row of [packed_stride] bytes at [source + row * stride]. *)
Definition source_row (source : list Z) (packed_stride stride row : Z) : list Z :=
  take (Z.to_nat packed_stride) (drop (Z.to_nat (row * stride)) source).

Fixpoint copy_rows (rows : nat) (row packed_stride stride : Z) (source copy : list Z) : list Z :=
  match rows with
  | O => copy
  | S rows =>
      copy_rows rows (row + 1) packed_stride stride source
        (overwrite copy (row * packed_stride) (source_row source packed_stride stride row))
  end.

Definition frame_valid (width height stride format : Z) : bool :=
  negb ((width =? 0) || (height =? 0) || negb (format =? VM_PIXEL_FORMAT_XRGB8888) ||
        (UINT32_MAX / 4 <? width) || (stride <? width * 4) || (SIZE_MAX / stride <? height)).

Definition display_frame_queue_push (q : DisplayFrameQueue) (pixels : list Z) (width height stride format number copy : Z)
    (heap : HostHeap) : option (bool * DisplayFrameQueue * HostHeap) :=
  if negb (frame_valid width height stride format) then Some (false, q, heap)
  else
    let packed_stride := width * 4 in
    let size := packed_stride * height in
    if copy =? 0 then Some (false, q, heap)
    else
      let heap := <[copy := copy_rows (Z.to_nat height) 0 packed_stride stride pixels (replicate (Z.to_nat size) 0)]> heap in
      let replacement := mkFrame copy size width height packed_stride format number in
      let '(discarded, q) :=
        if queue_count q =? DISPLAY_FRAME_QUEUE_CAPACITY then
          (slot_get (queue_frames q) (queue_head q),
           mkFrameQueue (slot_set (queue_frames q) (queue_head q) empty_frame)
             ((queue_head q + 1) mod DISPLAY_FRAME_QUEUE_CAPACITY) (queue_count q - 1) (wrap64 (queue_dropped q + 1)))
        else (empty_frame, q) in
      let tail := (queue_head q + queue_count q) mod DISPLAY_FRAME_QUEUE_CAPACITY in
      let q := mkFrameQueue (slot_set (queue_frames q) tail replacement) (queue_head q) (queue_count q + 1) (queue_dropped q) in
      match display_frame_release discarded heap with
      | Some (_, heap) => Some (true, q, heap)
      | None => None
      end.

(** The loop of [display_frame_queue_take_latest] over [i < count]. *)
Fixpoint take_loop (rest : nat) (i : Z) (q : DisplayFrameQueue) (latest : DisplayFrame) (discarded : list DisplayFrame) :
    DisplayFrameQueue * DisplayFrame * list DisplayFrame :=
  match rest with
  | O => (q, latest, discarded)
  | S rest =>
      let index := (queue_head q + i) mod DISPLAY_FRAME_QUEUE_CAPACITY in
      let frame := slot_get (queue_frames q) index in
      let '(latest, discarded, dropped) :=
        if i + 1 =? queue_count q then (frame, discarded, queue_dropped q)
        else (latest, discarded ++ [frame], wrap64 (queue_dropped q + 1)) in
      take_loop rest (i + 1)
        (mkFrameQueue (slot_set (queue_frames q) index empty_frame) (queue_head q) (queue_count q) dropped) latest discarded
  end.

Definition display_frame_queue_take_latest (q : DisplayFrameQueue) (heap : HostHeap) :
    option (option DisplayFrame * DisplayFrameQueue * HostHeap) :=
  let '(q, latest, discarded) :=
    if negb (queue_count q =? 0) then
      let '(q, latest, discarded) := take_loop (Z.to_nat (queue_count q)) 0 q empty_frame [] in
      (mkFrameQueue (queue_frames q) 0 0 (queue_dropped q), latest, discarded)
    else (q, empty_frame, []) in
  match release_frames discarded heap with
  | None => None
  | Some heap => Some (if frame_pixels latest =? 0 then None else Some latest, q, heap)
  end.

Definition display_frame_queue_pending (q : DisplayFrameQueue) : Z := queue_count q.

Definition display_frame_queue_dropped (q : DisplayFrameQueue) : Z := queue_dropped q.

(** ** What the queue holds *)

(** The queued frames, the oldest first. *)
Definition frames_of (q : DisplayFrameQueue) : list DisplayFrame :=
  ring (queue_frames q) (queue_head q) (queue_count q).

(** The slots that are not in use are empty, so that no frame is owned twice. *)
Record queue_wf (q : DisplayFrameQueue) : Prop := {
  qw_length : length (queue_frames q) = 3%nat;
  qw_head : 0 <= queue_head q < 3;
  qw_count : 0 <= queue_count q <= 3;
  qw_free : ring (queue_frames q) ((queue_head q + queue_count q) mod 3) (3 - queue_count q) =
            replicate (Z.to_nat (3 - queue_count q)) empty_frame;
  qw_used : Forall (fun f => frame_pixels f <> 0) (frames_of q)
}.

(** The twelve shapes of the ring. *)
Ltac queue_cases q :=
  let H := fresh in
  intros H; destruct H as [?L ?Hh ?Hc ?Hfree ?Hused]; destruct q as [?slots ?head ?count ?dropped]; cbn in *;
  destruct slots as [|?a [|?b [|?c [|? ?]]]]; try done; clear L;
  match goal with h : Z, c : Z |- _ => idtac | _ => idtac end;
  match goal with
  | Hh : 0 <= ?h < 3, Hc : 0 <= ?n <= 3 |- _ =>
      assert (h = 0 \/ h = 1 \/ h = 2) as [-> | [-> | ->]] by lia; clear Hh;
      (assert (n = 0 \/ n = 1 \/ n = 2 \/ n = 3) as [-> | [-> | [-> | ->]]] by lia; clear Hc)
  end;
  vm_compute in Hfree, Hused; simplify_eq;
  repeat match goal with H : Forall _ (_ :: _) |- _ => apply Forall_cons_1 in H as [? ?] end.

Lemma queue_init_wf : queue_wf display_frame_queue_init.
Proof. by split. Qed.

Lemma queue_length q : queue_wf q -> Z.of_nat (length (frames_of q)) = queue_count q.
Proof. intros [_ _ Hc _ _]. apply length_ring. lia. Qed.

(** Every slot is a queued frame or empty. *)
Lemma queue_slots q : queue_wf q ->
  queue_frames q ≡ₚ frames_of q ++ replicate (Z.to_nat (3 - queue_count q)) empty_frame.
Proof. unfold frames_of. queue_cases q; vm_compute; solve_Permutation. Qed.

(** The frame a push throws away. *)
Definition displaced (q : DisplayFrameQueue) : DisplayFrame :=
  if queue_count q =? 3 then default empty_frame (head (frames_of q)) else empty_frame.

(** The queue after a push. *)
Definition pushed (q : DisplayFrameQueue) (frame : DisplayFrame) : DisplayFrameQueue :=
  let q :=
    if queue_count q =? DISPLAY_FRAME_QUEUE_CAPACITY then
      mkFrameQueue (slot_set (queue_frames q) (queue_head q) empty_frame)
        ((queue_head q + 1) mod DISPLAY_FRAME_QUEUE_CAPACITY) (queue_count q - 1) (wrap64 (queue_dropped q + 1))
    else q in
  mkFrameQueue (slot_set (queue_frames q) ((queue_head q + queue_count q) mod DISPLAY_FRAME_QUEUE_CAPACITY) frame)
    (queue_head q) (queue_count q + 1) (queue_dropped q).

Lemma pushed_spec q frame :
  queue_wf q -> frame_pixels frame <> 0 ->
  queue_wf (pushed q frame) /\
  frames_of (pushed q frame) = (if queue_count q =? 3 then drop 1 (frames_of q) else frames_of q) ++ [frame] /\
  queue_dropped (pushed q frame) = (if queue_count q =? 3 then wrap64 (queue_dropped q + 1) else queue_dropped q).
Proof.
  unfold frames_of. intros Hq Hf. revert Hq. queue_cases q; (split; [split|split]); try done; unfold frames_of;
    vm_compute; repeat constructor; done.
Qed.

Lemma push_equation q heap pixels width height stride format number copy :
  queue_wf q -> frame_valid width height stride format = true -> copy <> 0 ->
  let block := copy_rows (Z.to_nat height) 0 (width * 4) stride pixels (replicate (Z.to_nat (width * 4 * height)) 0) in
  let frame := mkFrame copy (width * 4 * height) width height (width * 4) format number in
  display_frame_queue_push q pixels width height stride format number copy heap =
    match host_free (frame_pixels (displaced q)) (<[copy := block]> heap) with
    | Some heap => Some (true, pushed q frame, heap)
    | None => None
    end.
Proof.
  intros Hq Hv Hc block frame. unfold display_frame_queue_push, displaced, pushed. rewrite Hv. cbn [negb].
  rewrite (proj2 (Z.eqb_neq _ _) Hc). fold block. fold frame. unfold display_frame_release.
  change DISPLAY_FRAME_QUEUE_CAPACITY with 3. destruct (Z.eqb_spec (queue_count q) 3) as [E|E]; cbv zeta iota beta; [|by destruct (host_free _ _)].
  assert (slot_get (queue_frames q) (queue_head q) = default empty_frame (head (frames_of q))) as ->; [|by destruct (host_free _ _)].
  unfold frames_of. revert Hq E. clear. queue_cases q; done.
Qed.

(** Taking the newest frame empties the queue and throws the others away. *)
Definition emptied (q : DisplayFrameQueue) : DisplayFrameQueue :=
  if queue_count q =? 0 then q
  else mkFrameQueue (replicate 3 empty_frame) 0 0
         (Nat.iter (Z.to_nat (queue_count q - 1)) (fun d => wrap64 (d + 1)) (queue_dropped q)).

Lemma take_equation q heap :
  queue_wf q ->
  display_frame_queue_take_latest q heap =
    match release_frames (removelast (frames_of q)) heap with
    | Some heap => Some (last (frames_of q), emptied q, heap)
    | None => None
    end.
Proof.
  intros Hq. unfold display_frame_queue_take_latest.
  assert ((if negb (queue_count q =? 0) then
      let '(q, latest, discarded) := take_loop (Z.to_nat (queue_count q)) 0 q empty_frame [] in
      (mkFrameQueue (queue_frames q) 0 0 (queue_dropped q), latest, discarded)
    else (q, empty_frame, [])) = (emptied q, default empty_frame (last (frames_of q)), removelast (frames_of q))) as ->.
  { unfold frames_of. revert Hq. queue_cases q; reflexivity. }
  destruct (release_frames _ heap); [|done]. pose proof (qw_used _ Hq) as Hu.
  destruct (last (frames_of q)) as [f|] eqn:E; [|done]. cbn.
  apply last_Some_elem_of, (proj1 (list.Forall_forall _ _) Hu) in E. by rewrite (proj2 (Z.eqb_neq _ _) E).
Qed.

Lemma emptied_spec q :
  queue_wf q ->
  queue_wf (emptied q) /\ frames_of (emptied q) = [] /\
  queue_dropped (emptied q) = Nat.iter (Z.to_nat (queue_count q - 1)) (fun d => wrap64 (d + 1)) (queue_dropped q).
Proof. unfold frames_of. queue_cases q; (split; [split|split]); try done; unfold frames_of; vm_compute; by constructor. Qed.

Lemma iter_wrap n d : is_u64 d -> Nat.iter n (fun d => wrap64 (d + 1)) d = wrap64 (d + Z.of_nat n).
Proof.
  intros Hd. induction n as [|n IH].
  - cbn. rewrite Z.add_0_r. by rewrite wrap64_id.
  - rewrite Nat.iter_succ, IH. unfold wrap64. rewrite Z.add_mod_idemp_l by done. f_equal. lia.
Qed.

(** The copy holds the rows of the source, one behind the other. *)
Definition rows_of (rows : nat) (row packed_stride stride : Z) (source : list Z) : list Z :=
  concat ((fun i => source_row source packed_stride stride i) <$> seqZ row (Z.of_nat rows)).

Lemma length_source_row source packed stride row height :
  0 <= packed <= stride -> 0 <= row < height -> stride * height <= Z.of_nat (length source) ->
  length (source_row source packed stride row) = Z.to_nat packed.
Proof.
  intros Hp Hr Hs. unfold source_row. rewrite length_take, length_drop.
  assert (row * stride + packed <= Z.of_nat (length source))
    by (pose proof (Z.mul_le_mono_nonneg_r row (height - 1) stride ltac:(lia) ltac:(lia)); lia).
  pose proof (Z.mul_nonneg_nonneg row stride ltac:(lia) ltac:(lia)). lia.
Qed.

Lemma copy_rows_spec rows row packed stride height source prefix rest :
  0 <= packed <= stride -> 0 <= row -> row + Z.of_nat rows <= height -> stride * height <= Z.of_nat (length source) ->
  Z.of_nat (length prefix) = row * packed -> Z.of_nat (length rest) = Z.of_nat rows * packed ->
  copy_rows rows row packed stride source (prefix ++ rest) = prefix ++ rows_of rows row packed stride source.
Proof.
  intros Hp Hr Hh Hs. revert row prefix rest Hr Hh. induction rows as [|rows IH]; intros row prefix rest Hr Hh Hl Hrest.
  { destruct rest; [|cbn in Hrest; lia]. done. }
  rewrite Nat2Z.inj_succ, Z.mul_succ_l in Hrest. pose proof (Z.mul_nonneg_nonneg (Z.of_nat rows) packed ltac:(lia) ltac:(lia)).
  cbn [copy_rows]. pose proof (length_source_row source packed stride row height Hp ltac:(lia) Hs) as Hrow.
  set (data := source_row source packed stride row) in *. unfold overwrite.
  rewrite take_app_length' by lia. rewrite drop_app_ge by lia. rewrite app_assoc.
  rewrite IH; [..|rewrite length_app; lia|rewrite length_drop; lia]; [|lia|lia].
  rewrite <- app_assoc. f_equal. unfold rows_of. rewrite Nat2Z.inj_succ, (seqZ_cons row) by lia. by rewrite Z.pred_succ.
Qed.

Lemma length_rows_of rows row packed stride height source :
  0 <= packed <= stride -> 0 <= row -> row + Z.of_nat rows <= height -> stride * height <= Z.of_nat (length source) ->
  Z.of_nat (length (rows_of rows row packed stride source)) = Z.of_nat rows * packed.
Proof.
  intros Hp Hr Hh Hs. revert row Hr Hh. induction rows as [|rows IH]; intros row Hr Hh; [done|].
  unfold rows_of in *. rewrite Nat2Z.inj_succ, seqZ_cons by lia. rewrite Z.pred_succ. cbn [fmap list_fmap concat].
  rewrite length_app, (length_source_row _ _ _ _ height) by lia. specialize (IH (row + 1) ltac:(lia) ltac:(lia)).
  rewrite Z.add_1_r in IH. rewrite Z.mul_succ_l. lia.
Qed.

Lemma frame_valid_spec width height stride format :
  frame_valid width height stride format = true ->
  width <> 0 /\ height <> 0 /\ format = VM_PIXEL_FORMAT_XRGB8888 /\ width <= UINT32_MAX / 4 /\ width * 4 <= stride /\ height <= SIZE_MAX / stride.
Proof.
  unfold frame_valid. rewrite negb_true_iff, !orb_false_iff, negb_false_iff, !Z.eqb_neq, Z.eqb_eq, !Z.ltb_ge. tauto.
Qed.

Lemma copied_frame width height stride format source :
  frame_valid width height stride format = true -> 0 <= width -> 0 <= height -> stride * height <= Z.of_nat (length source) ->
  copy_rows (Z.to_nat height) 0 (width * 4) stride source (replicate (Z.to_nat (width * 4 * height)) 0) =
  rows_of (Z.to_nat height) 0 (width * 4) stride source.
Proof.
  intros Hv Hw Hh Hs. apply frame_valid_spec in Hv as (? & ? & _ & _ & Hstride & _).
  apply (copy_rows_spec _ 0 (width * 4) stride height source []); try done; try lia.
  rewrite length_replicate. lia.
Qed.

(** ** Ownership *)

(** The queue, the host's heap and the frames the window has taken. *)
Record DisplaySystem := mkDisplaySystem {
  ds_queue : DisplayFrameQueue;
  ds_heap : HostHeap;
  ds_held : list DisplayFrame;
}.

Definition owned (s : DisplaySystem) : list Z := frame_pixels <$> frames_of (ds_queue s) ++ ds_held s.

(** The live blocks are exactly those of a list of owners, each owned once. *)
Record owns (blocks : list Z) (heap : HostHeap) : Prop := {
  ow_nodup : NoDup blocks;
  ow_nonzero : Forall (fun p => p <> 0) blocks;
  ow_live : dom heap = list_to_set blocks
}.

Record display_inv (s : DisplaySystem) : Prop := {
  di_queue : queue_wf (ds_queue s);
  di_dropped : is_u64 (queue_dropped (ds_queue s));
  di_owns : owns (owned s) (ds_heap s)
}.

Inductive DisplayOp :=
  | PushFrame (pixels : list Z) (width height stride format number copy : Z)
  | TakeLatest
  | ReleaseHeld (i : nat).

(** One operation; the frame a push adds or a take removes is the caller's. *)
Definition display_op (op : DisplayOp) (s : DisplaySystem) : option DisplaySystem :=
  match op with
  | PushFrame pixels width height stride format number copy =>
      '(_, q, heap) ← display_frame_queue_push (ds_queue s) pixels width height stride format number copy (ds_heap s);
      Some (mkDisplaySystem q heap (ds_held s))
  | TakeLatest =>
      '(frame, q, heap) ← display_frame_queue_take_latest (ds_queue s) (ds_heap s);
      Some (mkDisplaySystem q heap (option_list frame ++ ds_held s))
  | ReleaseHeld i =>
      match ds_held s !! i with
      | None => Some s
      | Some frame =>
          '(_, heap) ← display_frame_release frame (ds_heap s);
          Some (mkDisplaySystem (ds_queue s) heap (delete i (ds_held s)))
      end
  end.

(** [malloc] returns 0 or a block that is not in use. *)
Definition malloc_fresh (op : DisplayOp) (s : DisplaySystem) : Prop :=
  match op with
  | PushFrame _ _ _ _ _ _ copy => ds_heap s !! copy = None
  | _ => True
  end.

#[export] Instance owns_proper : Proper ((≡ₚ) ==> (=) ==> iff) owns.
Proof.
  assert (forall l l' heap, l ≡ₚ l' -> owns l heap -> owns l' heap) as Hdir.
  { intros l l' heap Hp [Hn Hz Hd]. split; [by rewrite <- Hp|by rewrite <- Hp|]. rewrite Hd. by apply list_to_set_perm_L. }
  intros l l' Hp heap ? <-. split; apply Hdir; done.
Qed.

Lemma owns_alloc blocks heap p block : owns blocks heap -> p <> 0 -> heap !! p = None -> owns (p :: blocks) (<[p := block]> heap).
Proof.
  intros [Hn Hz Hd] Hp Hf. apply not_elem_of_dom in Hf. rewrite Hd, elem_of_list_to_set in Hf. split.
  - by constructor.
  - by constructor.
  - by rewrite dom_insert_L, Hd.
Qed.

Lemma owns_free blocks heap p :
  owns (p :: blocks) heap -> host_free p heap = Some (delete p heap) /\ owns blocks (delete p heap).
Proof.
  intros [[Hp Hn]%NoDup_cons [Hp0 Hz]%Forall_cons_1 Hd]. cbn in Hd. assert (p ∈ dom heap) as [b Hb]%elem_of_dom by (rewrite Hd; set_solver).
  unfold host_free. rewrite (proj2 (Z.eqb_neq _ _) Hp0), Hb. split; [done|]. split; [done|done|].
  rewrite dom_delete_L, Hd. set_solver.
Qed.

(** Releasing frames, some of which may be empty. *)
Lemma owns_release frames blocks heap :
  owns (filter (fun p => p <> 0) (frame_pixels <$> frames) ++ blocks) heap ->
  exists heap', release_frames frames heap = Some heap' /\ owns blocks heap' /\ forall p, p ∈ blocks -> heap' !! p = heap !! p.
Proof.
  revert heap. induction frames as [|f frames IH]; intros heap Ho; [by exists heap|].
  cbn [fmap list_fmap release_frames] in *. unfold display_frame_release. rewrite filter_cons in Ho.
  destruct (decide (frame_pixels f <> 0)) as [Hf|Hf%Z.eq_dne].
  - cbn [app] in Ho. pose proof (ow_nodup _ _ Ho) as [Hnot _]%NoDup_cons. apply owns_free in Ho as [-> Ho].
    destruct (IH _ Ho) as (heap' & E & Ho' & Hs). exists heap'. split_and!; [done|done|].
    intros p Hp. rewrite Hs by done. apply lookup_delete_ne. intros <-. apply Hnot, elem_of_app. by right.
  - rewrite Hf. by apply IH.
Qed.

Lemma nonzero_filter (frames : list DisplayFrame) :
  Forall (fun f => frame_pixels f <> 0) frames -> filter (fun p => p <> 0) (frame_pixels <$> frames) = frame_pixels <$> frames.
Proof.
  induction 1 as [|f frames Hf _ IH]; [done|]. cbn [fmap list_fmap]. rewrite filter_cons_True by done. by f_equal.
Qed.

(** What is owned is live: an operation in any state that the others leave frees
    only live blocks, and owns what it leaves. *)
Lemma push_inv s pixels width height stride format number copy :
  display_inv s -> ds_heap s !! copy = None ->
  exists s', display_op (PushFrame pixels width height stride format number copy) s = Some s' /\ display_inv s'.
Proof.
  intros [Hq Hd Ho] Hfresh. cbn [display_op].
  destruct (frame_valid width height stride format) eqn:Hv.
  2:{ unfold display_frame_queue_push. rewrite Hv. cbn. destruct s. by eexists. }
  destruct (Z.eq_dec copy 0) as [->|Hc].
  { unfold display_frame_queue_push. rewrite Hv. cbn. destruct s. by eexists. }
  rewrite push_equation by done. cbv zeta. set (frame := mkFrame copy _ _ _ _ _ _). set (block := copy_rows _ _ _ _ _ _).
  destruct (pushed_spec (ds_queue s) frame Hq Hc) as (Hq' & Hf & Hdr).
  assert (is_u64 (queue_dropped (pushed (ds_queue s) frame))) as Hd' by (rewrite Hdr; destruct (_ =? 3); auto with u64).
  pose proof (owns_alloc _ _ copy block Ho Hc Hfresh) as Ho1. unfold displaced, owned in *.
  destruct (Z.eqb_spec (queue_count (ds_queue s)) 3) as [E3|E3].
  - pose proof (queue_length _ Hq) as Hlen. destruct (frames_of (ds_queue s)) as [|f fs] eqn:Efs; [cbn in Hlen; lia|].
    cbn in *. rewrite perm_swap in Ho1. apply owns_free in Ho1 as [-> Ho1]. eexists. split; [reflexivity|]. split; try done.
    unfold owned. cbn -[frames_of]. rewrite Hf, <- app_assoc, fmap_app in *.
    rewrite drop_0. cbn [app fmap list_fmap]. by rewrite <- Permutation_middle.
  - cbn [empty_frame frame_pixels host_free Z.eqb]. eexists. split; [reflexivity|]. split; try done.
    unfold owned. cbn -[frames_of]. rewrite Hf, <- app_assoc, fmap_app in *.
    cbn [app fmap list_fmap]. by rewrite <- Permutation_middle.
Qed.

Lemma take_inv s :
  display_inv s -> exists s', display_op TakeLatest s = Some s' /\ display_inv s'.
Proof.
  intros [Hq Hd Ho]. cbn [display_op]. rewrite take_equation by done. destruct (emptied_spec _ Hq) as (Hq' & Hf & Hdr).
  assert (owns ((frame_pixels <$> removelast (frames_of (ds_queue s))) ++
    (frame_pixels <$> option_list (last (frames_of (ds_queue s))) ++ ds_held s)) (ds_heap s)) as Ho1.
  { rewrite <- fmap_app, app_assoc. unfold owned in Ho. enough (removelast (frames_of (ds_queue s)) ++
      option_list (last (frames_of (ds_queue s))) = frames_of (ds_queue s)) as -> by done.
    destruct (frames_of (ds_queue s)) as [|f fs] using rev_ind; [done|]. rewrite removelast_last, last_snoc. done. }
  assert (Forall (fun f => frame_pixels f <> 0) (removelast (frames_of (ds_queue s)))) as Hnz.
  { pose proof (qw_used _ Hq) as Hu. destruct (frames_of (ds_queue s)) as [|f fs _] using rev_ind; [done|].
    rewrite removelast_last. by apply Forall_app in Hu as [? _]. }
  rewrite <- (nonzero_filter _ Hnz) in Ho1. apply owns_release in Ho1 as (heap' & -> & Ho1 & _). eexists. split; [reflexivity|]. split; [done| |].
  - cbn [ds_queue]. rewrite Hdr, iter_wrap by done. auto with u64.
  - unfold owned. cbn [ds_queue ds_held ds_heap]. by rewrite Hf.
Qed.

Lemma release_inv s i :
  display_inv s -> exists s', display_op (ReleaseHeld i) s = Some s' /\ display_inv s'.
Proof.
  intros [Hq Hd Ho]. cbn [display_op]. destruct (ds_held s !! i) as [f|] eqn:Ei; [|by exists s].
  unfold owned in Ho. rewrite (delete_Permutation _ _ _ Ei), <- Permutation_middle in Ho.
  apply owns_free in Ho as [Ef Ho]. unfold display_frame_release. rewrite Ef. eexists. split; [reflexivity|]. by split.
Qed.

Lemma display_op_inv op s :
  display_inv s -> malloc_fresh op s -> exists s', display_op op s = Some s' /\ display_inv s'.
Proof. destruct op; cbn [malloc_fresh]; [by apply push_inv|intros ? _; by apply take_inv|intros ? _; by apply release_inv]. Qed.

(** * Properties *)

Definition display_init : DisplaySystem := mkDisplaySystem display_frame_queue_init ∅ [].

Inductive display_step (s s' : DisplaySystem) : Prop :=
  | display_step_op op : malloc_fresh op s -> display_op op s = Some s' -> display_step s s'.

Lemma display_steps_inv s s' : rtc display_step s s' -> display_inv s -> display_inv s'.
Proof.
  induction 1 as [|s1 s2 s3 [op Hf Hop] _ IH]; [done|]. intros Hs. apply IH.
  destruct (display_op_inv op s1 Hs Hf) as (s' & E & Hs'). by rewrite E in Hop; simplify_eq.
Qed.

Lemma display_init_inv : display_inv display_init.
Proof. split; [apply queue_init_wf|done|]. split; [by constructor|by constructor|done]. Qed.

(** C36: the pixels of a frame are freed exactly once.  In every state that
    pushes, takes and releases can reach, no operation frees a block twice or a
    block it does not own, the live blocks are exactly those of the queued and
    of the taken frames, and destroying the queue and releasing the taken frames
    leaves nothing allocated. *)
Theorem display_frames_owned s :
  rtc display_step display_init s ->
  (forall op, malloc_fresh op s -> is_Some (display_op op s)) /\
  NoDup (owned s) /\ dom (ds_heap s) = list_to_set (owned s) /\
  exists q' heap', display_frame_queue_destroy (ds_queue s) (ds_heap s) = Some (q', heap') /\
    release_frames (ds_held s) heap' = Some ∅.
Proof.
  intros Hr. pose proof (display_steps_inv _ _ Hr display_init_inv) as Hs. pose proof Hs as [Hq Hd Ho]. split_and!.
  - intros op Hf. destruct (display_op_inv op s Hs Hf) as (s' & -> & _). done.
  - apply Ho.
  - apply Ho.
  - unfold owned in Ho. rewrite fmap_app in Ho. pose proof (nonzero_filter _ (qw_used _ Hq)) as Ef.
    pose proof (ow_nonzero _ _ Ho) as [_ Hh]%Forall_app.
    assert (owns (filter (fun p => p <> 0) (frame_pixels <$> queue_frames (ds_queue s)) ++ (frame_pixels <$> ds_held s)) (ds_heap s)) as Ho1.
    { rewrite (queue_slots _ Hq), fmap_app, filter_app, Ef, fmap_replicate.
      assert (forall n, filter (fun p : Z => p <> 0) (replicate n 0) = []) as -> by by induction n.
      by rewrite app_nil_r. }
    apply owns_release in Ho1 as (heap1 & E1 & Ho1 & _). unfold display_frame_queue_destroy. rewrite E1.
    rewrite <- (app_nil_r (_ <$> _)) in Ho1. rewrite <- (nonzero_filter (ds_held s)) in Ho1 by exact (proj1 (Forall_fmap _ _ _) Hh).
    apply owns_release in Ho1 as (heap2 & E2 & [_ _ Hdom] & _). do 2 eexists. split; [done|]. rewrite E2. f_equal.
    by apply dom_empty_inv_L.
Qed.

(** Five pushes of a two-by-one image, a take and the release of what was taken. *)
Definition demo_push (number copy : Z) : DisplayOp := PushFrame (seqZ 0 16) 2 1 16 1 number copy.

Definition demo_display_ops : list DisplayOp :=
  [demo_push 1 10; demo_push 2 20; demo_push 3 30; demo_push 4 40; TakeLatest; demo_push 5 20; ReleaseHeld 0].

Definition demo_display : DisplaySystem :=
  default display_init (foldl (fun s op => s ← s; display_op op s) (Some display_init) demo_display_ops).

Lemma display_frames_owned_witness :
  owned demo_display = [20] /\ dom (ds_heap demo_display) = {[20]} /\ queue_dropped (ds_queue demo_display) = 3 /\
  exists q' heap', display_frame_queue_destroy (ds_queue demo_display) (ds_heap demo_display) = Some (q', heap') /\
    release_frames (ds_held demo_display) heap' = Some ∅.
Proof.
  split; [by vm_compute|]. split; [by vm_compute|]. split; [by vm_compute|].
  apply (display_frames_owned demo_display). unfold demo_display, demo_display_ops.
  eapply rtc_l; [apply (display_step_op _ _ (demo_push 1 10)); by vm_compute|].
  eapply rtc_l; [apply (display_step_op _ _ (demo_push 2 20)); by vm_compute|].
  eapply rtc_l; [apply (display_step_op _ _ (demo_push 3 30)); by vm_compute|].
  eapply rtc_l; [apply (display_step_op _ _ (demo_push 4 40)); by vm_compute|].
  eapply rtc_l; [apply (display_step_op _ _ TakeLatest); by vm_compute|].
  eapply rtc_l; [apply (display_step_op _ _ (demo_push 5 20)); by vm_compute|].
  eapply rtc_l; [apply (display_step_op _ _ (ReleaseHeld 0)); by vm_compute|].
  vm_compute. apply rtc_refl.
Defined.
