(* ===== verification/Display.v ===== *)
(** The display device module devices/display/display_device.c and the display
    of src/headless_display.c that keeps the last frame.

    [H] is the state of the host behind the device interface, [F] that of the
    display the frames go to.  Blocks of host memory are byte lists; whether
    [malloc] and [realloc] succeed is an argument. *)

From S2P Require Import Prelude Ram DeviceAbi DisplayQueue.
From Stdlib Require Import ZArith Lia Bool String.
From stdpp Require Import base list numbers option.

#[local] Open Scope Z_scope.

Definition DISPLAY_MAX_WIDTH : Z := 1920.
Definition DISPLAY_MAX_HEIGHT : Z := 1080.

Definition DISPLAY_CONTROL_OFFSET : Z := 0x00.
Definition DISPLAY_WIDTH_OFFSET : Z := 0x08.
Definition DISPLAY_HEIGHT_OFFSET : Z := 0x10.
Definition DISPLAY_STRIDE_OFFSET : Z := 0x18.
Definition DISPLAY_FORMAT_OFFSET : Z := 0x20.
Definition DISPLAY_FRAMEBUFFER_OFFSET : Z := 0x28.
Definition DISPLAY_BUFFER_SIZE_OFFSET : Z := 0x30.
Definition DISPLAY_COMMAND_OFFSET : Z := 0x38.
Definition DISPLAY_STATUS_OFFSET : Z := 0x40.
Definition DISPLAY_FRAME_NUMBER_OFFSET : Z := 0x48.
Definition DISPLAY_IRQ_STATUS_OFFSET : Z := 0x50.
Definition DISPLAY_CAPABILITIES_OFFSET : Z := 0x58.
Definition DISPLAY_ERROR_CODE_OFFSET : Z := 0x60.

Definition DISPLAY_CONTROL_ENABLE : Z := Z.shiftl 1 0.
Definition DISPLAY_CONTROL_IRQ_ENABLE : Z := Z.shiftl 1 1.
Definition DISPLAY_COMMAND_PRESENT : Z := 1.
Definition DISPLAY_COMMAND_SET_MODE : Z := 2.
Definition DISPLAY_STATUS_READY : Z := Z.shiftl 1 0.
Definition DISPLAY_STATUS_BUSY : Z := Z.shiftl 1 1.
Definition DISPLAY_STATUS_ERROR : Z := Z.shiftl 1 2.
Definition DISPLAY_IRQ_PRESENT_COMPLETE : Z := Z.shiftl 1 0.
Definition DISPLAY_IRQ_ERROR : Z := Z.shiftl 1 1.
Definition DISPLAY_CAP_XRGB8888 : Z := Z.shiftl 1 0.
Definition DISPLAY_CAP_EXPLICIT_PRESENT : Z := Z.shiftl 1 1.
Definition DISPLAY_CAP_MODE_SET : Z := Z.shiftl 1 2.
Definition DISPLAY_CONTROL_MASK : Z := Z.lor DISPLAY_CONTROL_ENABLE DISPLAY_CONTROL_IRQ_ENABLE.

Definition VM_DISPLAY_SERVICE_NAME : string := "display.present".
Definition VM_DISPLAY_HOST_VERSION : Z := 1.
Definition sizeof_VmDisplayHost : Z := 32.

Inductive DisplayError :=
  | DISPLAY_ERROR_NONE
  | DISPLAY_ERROR_DISABLED
  | DISPLAY_ERROR_DIMENSIONS
  | DISPLAY_ERROR_FORMAT
  | DISPLAY_ERROR_STRIDE
  | DISPLAY_ERROR_BUFFER_SIZE
  | DISPLAY_ERROR_ALLOCATION
  | DISPLAY_ERROR_DMA
  | DISPLAY_ERROR_FRONTEND
  | DISPLAY_ERROR_COMMAND.

#[export] Instance display_error_eq_dec : EqDecision DisplayError.
Proof. solve_decision. Defined.

(** The value of an error in the register. *)
Definition display_error_code (e : DisplayError) : Z :=
  match e with
  | DISPLAY_ERROR_NONE => 0 | DISPLAY_ERROR_DISABLED => 1 | DISPLAY_ERROR_DIMENSIONS => 2 | DISPLAY_ERROR_FORMAT => 3
  | DISPLAY_ERROR_STRIDE => 4 | DISPLAY_ERROR_BUFFER_SIZE => 5 | DISPLAY_ERROR_ALLOCATION => 6 | DISPLAY_ERROR_DMA => 7
  | DISPLAY_ERROR_FRONTEND => 8 | DISPLAY_ERROR_COMMAND => 9
  end.

Record VmDisplayHost (F : Type) := mkDisplayHost {
  dh_version : Z;
  dh_struct_size : Z;
  dh_resize : option (F -> Z -> Z -> bool * F);
  dh_present : option (F -> list Z -> Z -> Z -> Z -> Z -> Z -> bool * F);
}.
Arguments mkDisplayHost {F}.
Arguments dh_version {F}.
Arguments dh_struct_size {F}.
Arguments dh_resize {F}.
Arguments dh_present {F}.

(** ** The device *)

(** The part a mode set or a present may change on the way. *)
Record DisplayDevice := mkDisplay {
  dd_control : Z;
  dd_width : Z;
  dd_height : Z;
  dd_stride : Z;
  dd_format : Z;
  dd_framebuffer : Z;
  dd_framebuffer_size : Z;
  dd_active : Z * Z * Z * Z;
  dd_status : Z;
  dd_irq_status : Z;
  dd_frame_number : Z;
  dd_error_code : DisplayError;
  dd_staging : list Z;
  dd_staging_capacity : Z;
  dd_irq : Z;
}.

Definition set_dd_control v d := mkDisplay v (dd_width d) (dd_height d) (dd_stride d) (dd_format d) (dd_framebuffer d)
  (dd_framebuffer_size d) (dd_active d) (dd_status d) (dd_irq_status d) (dd_frame_number d) (dd_error_code d) (dd_staging d) (dd_staging_capacity d) (dd_irq d).
Definition set_dd_mode width height stride format d := mkDisplay (dd_control d) width height stride format (dd_framebuffer d)
  (dd_framebuffer_size d) (dd_active d) (dd_status d) (dd_irq_status d) (dd_frame_number d) (dd_error_code d) (dd_staging d) (dd_staging_capacity d) (dd_irq d).
Definition set_dd_buffer base size d := mkDisplay (dd_control d) (dd_width d) (dd_height d) (dd_stride d) (dd_format d) base
  size (dd_active d) (dd_status d) (dd_irq_status d) (dd_frame_number d) (dd_error_code d) (dd_staging d) (dd_staging_capacity d) (dd_irq d).
Definition set_dd_active v d := mkDisplay (dd_control d) (dd_width d) (dd_height d) (dd_stride d) (dd_format d) (dd_framebuffer d)
  (dd_framebuffer_size d) v (dd_status d) (dd_irq_status d) (dd_frame_number d) (dd_error_code d) (dd_staging d) (dd_staging_capacity d) (dd_irq d).
Definition set_dd_status v d := mkDisplay (dd_control d) (dd_width d) (dd_height d) (dd_stride d) (dd_format d) (dd_framebuffer d)
  (dd_framebuffer_size d) (dd_active d) v (dd_irq_status d) (dd_frame_number d) (dd_error_code d) (dd_staging d) (dd_staging_capacity d) (dd_irq d).
Definition set_dd_irq_status v d := mkDisplay (dd_control d) (dd_width d) (dd_height d) (dd_stride d) (dd_format d) (dd_framebuffer d)
  (dd_framebuffer_size d) (dd_active d) (dd_status d) v (dd_frame_number d) (dd_error_code d) (dd_staging d) (dd_staging_capacity d) (dd_irq d).
Definition set_dd_frame_number v d := mkDisplay (dd_control d) (dd_width d) (dd_height d) (dd_stride d) (dd_format d) (dd_framebuffer d)
  (dd_framebuffer_size d) (dd_active d) (dd_status d) (dd_irq_status d) v (dd_error_code d) (dd_staging d) (dd_staging_capacity d) (dd_irq d).
Definition set_dd_error_code v d := mkDisplay (dd_control d) (dd_width d) (dd_height d) (dd_stride d) (dd_format d) (dd_framebuffer d)
  (dd_framebuffer_size d) (dd_active d) (dd_status d) (dd_irq_status d) (dd_frame_number d) v (dd_staging d) (dd_staging_capacity d) (dd_irq d).
Definition set_dd_staging staging size d := mkDisplay (dd_control d) (dd_width d) (dd_height d) (dd_stride d) (dd_format d) (dd_framebuffer d)
  (dd_framebuffer_size d) (dd_active d) (dd_status d) (dd_irq_status d) (dd_frame_number d) (dd_error_code d) staging size (dd_irq d).

Definition mode_of (d : DisplayDevice) : Z * Z * Z * Z := (dd_width d, dd_height d, dd_stride d, dd_format d).

Section display.
Context {H F : Type} (api : VmDeviceHostApi H (VmDisplayHost F)) (frontend : VmDisplayHost F).

(** The device with the states it reaches. *)
Record DisplayScene := mkScene { sc_display : DisplayDevice; sc_host : H; sc_front : F }.

Definition on_display (f : DisplayDevice -> DisplayDevice) (s : DisplayScene) : DisplayScene :=
  mkScene (f (sc_display s)) (sc_host s) (sc_front s).

Definition display_enabled (d : DisplayDevice) : bool := has_bits (dd_control d) DISPLAY_CONTROL_ENABLE.

Definition display_raise_irq (reason : Z) (s : DisplayScene) : DisplayScene :=
  let s := on_display (fun d => set_dd_irq_status (Z.lor (dd_irq_status d) reason) d) s in
  if has_bits (dd_control (sc_display s)) DISPLAY_CONTROL_IRQ_ENABLE
  then mkScene (sc_display s) (raise_irq_opt api (dd_irq (sc_display s)) (sc_host s)) (sc_front s)
  else s.

Definition display_set_error (error : DisplayError) (s : DisplayScene) : DisplayScene :=
  display_raise_irq DISPLAY_IRQ_ERROR
    (on_display (fun d => set_dd_error_code error (set_dd_status DISPLAY_STATUS_ERROR d)) s).

(** [display_validate_mode]: the size a frame needs, or the error it sets. *)
Definition validate_mode (d : DisplayDevice) : DisplayError + Z :=
  if (dd_width d =? 0) || (dd_height d =? 0) || (DISPLAY_MAX_WIDTH <? dd_width d) || (DISPLAY_MAX_HEIGHT <? dd_height d)
  then inl DISPLAY_ERROR_DIMENSIONS
  else if negb (dd_format d =? VM_PIXEL_FORMAT_XRGB8888) then inl DISPLAY_ERROR_FORMAT
  else
    let minimum_stride := wrap64 (dd_width d * 4) in
    if (dd_stride d <? minimum_stride) || (UINT32_MAX <? dd_stride d) then inl DISPLAY_ERROR_STRIDE
    else if UINT64_MAX / dd_stride d <? dd_height d then inl DISPLAY_ERROR_BUFFER_SIZE
    else
      let size := wrap64 (dd_stride d * dd_height d) in
      if SIZE_MAX <? size then inl DISPLAY_ERROR_BUFFER_SIZE else inr size.

Definition display_validate_mode (s : DisplayScene) : option Z * DisplayScene :=
  match validate_mode (sc_display s) with
  | inl error => (None, display_set_error error s)
  | inr size => (Some size, s)
  end.

(** The mode changed and the display refuses it. *)
Definition resize_frontend (s : DisplayScene) : bool * DisplayScene :=
  let d := sc_display s in
  match dh_resize frontend with
  | Some resize =>
      if bool_decide (dd_active d <> mode_of d) then
        let '(ok, front) := resize (sc_front s) (wrap32 (dd_width d)) (wrap32 (dd_height d)) in
        (ok, mkScene d (sc_host s) front)
      else (true, s)
  | None => (true, s)
  end.

Definition display_apply_mode (s : DisplayScene) : option Z * DisplayScene :=
  match display_validate_mode s with
  | (None, s) => (None, s)
  | (Some size, s) =>
      match resize_frontend s with
      | (false, s) => (None, display_set_error DISPLAY_ERROR_FRONTEND s)
      | (true, s) =>
          (Some size,
           on_display (fun d => set_dd_error_code DISPLAY_ERROR_NONE
             (set_dd_status (if display_enabled d then DISPLAY_STATUS_READY else 0)
               (set_dd_active (mode_of d) d))) s)
      end
  end.

Definition display_set_mode (s : DisplayScene) : DisplayScene := (display_apply_mode s).2.

(** [realloc] extends the block or, when [memory] is false, fails. *)
Definition ensure_staging (memory : bool) (required : Z) (s : DisplayScene) : bool * DisplayScene :=
  if required <=? dd_staging_capacity (sc_display s) then (true, s)
  else if negb memory then (false, display_set_error DISPLAY_ERROR_ALLOCATION s)
  else (true, on_display (fun d => set_dd_staging (resize (Z.to_nat required) 0 (dd_staging d)) required d) s).

(** [dma_read] into the front of the staging block. *)
Definition read_frame (required : Z) (s : DisplayScene) : bool * DisplayScene :=
  match dma_read api with
  | None => (false, s)
  | Some dma =>
      match dma (sc_host s) (dd_framebuffer (sc_display s)) required with
      | None => (false, s)
      | Some bytes => (true, on_display (fun d => set_dd_staging (overwrite (dd_staging d) 0 bytes) (dd_staging_capacity d) d) s)
      end
  end.

Definition present_frame (next_frame : Z) (s : DisplayScene) : bool * DisplayScene :=
  let d := sc_display s in
  match dh_present frontend with
  | None => (false, s)
  | Some present =>
      let '(ok, front) := present (sc_front s) (dd_staging d) (wrap32 (dd_width d)) (wrap32 (dd_height d))
                            (wrap32 (dd_stride d)) (wrap32 (dd_format d)) next_frame in
      (ok, mkScene d (sc_host s) front)
  end.

Definition display_present (memory : bool) (s : DisplayScene) : DisplayScene :=
  if negb (display_enabled (sc_display s)) then display_set_error DISPLAY_ERROR_DISABLED s
  else match display_apply_mode s with
  | (None, s) => s
  | (Some required, s) =>
      if dd_framebuffer_size (sc_display s) <? required then display_set_error DISPLAY_ERROR_BUFFER_SIZE s
      else match ensure_staging memory required s with
      | (false, s) => s
      | (true, s) =>
          let s := on_display (fun d => set_dd_error_code DISPLAY_ERROR_NONE (set_dd_status DISPLAY_STATUS_BUSY d)) s in
          match read_frame required s with
          | (false, s) => display_set_error DISPLAY_ERROR_DMA s
          | (true, s) =>
              let next_frame := wrap64 (dd_frame_number (sc_display s) + 1) in
              match present_frame next_frame s with
              | (false, s) => display_set_error DISPLAY_ERROR_FRONTEND s
              | (true, s) =>
                  display_raise_irq DISPLAY_IRQ_PRESENT_COMPLETE
                    (on_display (fun d => set_dd_status DISPLAY_STATUS_READY (set_dd_frame_number next_frame d)) s)
              end
          end
      end
  end.

Definition display_read (d : DisplayDevice) (bar offset width : Z) : option Z :=
  if negb (bar =? 0) || negb (width =? 8) then None
  else if offset =? DISPLAY_CONTROL_OFFSET then Some (dd_control d)
  else if offset =? DISPLAY_WIDTH_OFFSET then Some (dd_width d)
  else if offset =? DISPLAY_HEIGHT_OFFSET then Some (dd_height d)
  else if offset =? DISPLAY_STRIDE_OFFSET then Some (dd_stride d)
  else if offset =? DISPLAY_FORMAT_OFFSET then Some (dd_format d)
  else if offset =? DISPLAY_FRAMEBUFFER_OFFSET then Some (dd_framebuffer d)
  else if offset =? DISPLAY_BUFFER_SIZE_OFFSET then Some (dd_framebuffer_size d)
  else if offset =? DISPLAY_STATUS_OFFSET then Some (dd_status d)
  else if offset =? DISPLAY_FRAME_NUMBER_OFFSET then Some (dd_frame_number d)
  else if offset =? DISPLAY_IRQ_STATUS_OFFSET then Some (dd_irq_status d)
  else if offset =? DISPLAY_CAPABILITIES_OFFSET then
    Some (Z.lor (Z.lor DISPLAY_CAP_XRGB8888 DISPLAY_CAP_EXPLICIT_PRESENT) DISPLAY_CAP_MODE_SET)
  else if offset =? DISPLAY_ERROR_CODE_OFFSET then Some (display_error_code (dd_error_code d))
  else None.

Definition display_command (memory : bool) (value : Z) (s : DisplayScene) : DisplayScene :=
  if value =? DISPLAY_COMMAND_PRESENT then display_present memory s
  else if value =? DISPLAY_COMMAND_SET_MODE then display_set_mode s
  else display_set_error DISPLAY_ERROR_COMMAND s.

Definition display_write (memory : bool) (bar offset width value : Z) (s : DisplayScene) : bool * DisplayScene :=
  let d := sc_display s in
  if negb (bar =? 0) || negb (width =? 8) then (false, s)
  else if offset =? DISPLAY_CONTROL_OFFSET then
    (true, on_display (fun d =>
       let d := set_dd_control (Z.land value DISPLAY_CONTROL_MASK) d in
       if display_enabled d then set_dd_error_code DISPLAY_ERROR_NONE (set_dd_status DISPLAY_STATUS_READY d)
       else set_dd_status 0 d) s)
  else if offset =? DISPLAY_WIDTH_OFFSET then
    (true, on_display (set_dd_mode value (dd_height d) (dd_stride d) (dd_format d)) s)
  else if offset =? DISPLAY_HEIGHT_OFFSET then
    (true, on_display (set_dd_mode (dd_width d) value (dd_stride d) (dd_format d)) s)
  else if offset =? DISPLAY_STRIDE_OFFSET then
    (true, on_display (set_dd_mode (dd_width d) (dd_height d) value (dd_format d)) s)
  else if offset =? DISPLAY_FORMAT_OFFSET then
    (true, on_display (set_dd_mode (dd_width d) (dd_height d) (dd_stride d) value) s)
  else if offset =? DISPLAY_FRAMEBUFFER_OFFSET then (true, on_display (set_dd_buffer value (dd_framebuffer_size d)) s)
  else if offset =? DISPLAY_BUFFER_SIZE_OFFSET then (true, on_display (set_dd_buffer (dd_framebuffer d) value) s)
  else if offset =? DISPLAY_COMMAND_OFFSET then (true, display_command memory value s)
  else if offset =? DISPLAY_STATUS_OFFSET then
    (true, if has_bits value DISPLAY_STATUS_ERROR then
             on_display (fun d => set_dd_error_code DISPLAY_ERROR_NONE
               (set_dd_status (if display_enabled d then DISPLAY_STATUS_READY else 0) d)) s
           else s)
  else if offset =? DISPLAY_IRQ_STATUS_OFFSET then
    (true, on_display (fun d => set_dd_irq_status (Z.land (dd_irq_status d)
       (not64 (Z.land value (Z.lor DISPLAY_IRQ_PRESENT_COMPLETE DISPLAY_IRQ_ERROR)))) d) s)
  else (false, s).

Definition display_reset (d : DisplayDevice) : DisplayDevice :=
  mkDisplay 0 0 0 0 VM_PIXEL_FORMAT_XRGB8888 0 0 (0, 0, 0, 0) 0 0 0 DISPLAY_ERROR_NONE
    (dd_staging d) (dd_staging_capacity d) (dd_irq d).

End display.

Arguments DisplayScene : clear implicits.
Arguments mkScene {H F}.

Definition display_create {H F} (api : VmDeviceHostApi H (VmDisplayHost F)) (resources : VmDeviceResources) (memory : bool) :
    option (DisplayDevice * VmDisplayHost F) :=
  if negb (api_abi_version api =? VM_DEVICE_ABI_VERSION) || (api_struct_size api <? sizeof_VmDeviceHostApi) then None
  else match get_service api with
  | None => None
  | Some lookup =>
      if (res_struct_size resources <? sizeof_VmDeviceResources) || negb (bar_count resources =? 1) || negb (irq_count resources =? 1)
      then None
      else match lookup VM_DISPLAY_SERVICE_NAME VM_DISPLAY_HOST_VERSION with
      | None => None
      | Some frontend =>
          if negb (dh_version frontend =? VM_DISPLAY_HOST_VERSION) || (dh_struct_size frontend <? sizeof_VmDisplayHost) then None
          else match dh_present frontend with
          | None => None
          | Some _ =>
              if negb memory then None
              else Some (mkDisplay 0 0 0 0 VM_PIXEL_FORMAT_XRGB8888 0 0 (0, 0, 0, 0) 0 0 0 DISPLAY_ERROR_NONE [] 0
                           (default 0 (head (irqs resources))), frontend)
          end
      end
  end.

(** ** The headless display *)

Record HeadlessDisplay := mkHeadless {
  hd_frame : list Z;
  hd_frame_size : Z;
  hd_width : Z;
  hd_height : Z;
  hd_stride : Z;
  hd_format : Z;
  hd_frame_number : Z;
}.

Definition headless_display_init : HeadlessDisplay := mkHeadless [] 0 0 0 0 0 0.

Definition headless_resize (display : HeadlessDisplay) (width height : Z) : bool * HeadlessDisplay :=
  (negb (width =? 0) && negb (height =? 0), display).

Definition headless_present (memory : bool) (display : HeadlessDisplay) (pixels : list Z) (width height stride format number : Z) :
    bool * HeadlessDisplay :=
  if negb (frame_valid width height stride format) then (false, display)
  else
    let required := stride * height in
    if negb memory then (false, display)
    else (true, mkHeadless (take (Z.to_nat required) pixels) required width height stride format number).

Definition headless_display_host (memory : bool) : VmDisplayHost HeadlessDisplay :=
  mkDisplayHost VM_DISPLAY_HOST_VERSION sizeof_VmDisplayHost (Some headless_resize) (Some (headless_present memory)).

Definition headless_display_frame_info (display : HeadlessDisplay) : Z * Z * Z * Z * Z * Z :=
  (hd_frame_size display, hd_width display, hd_height display, hd_stride display, hd_format display, hd_frame_number display).

Definition headless_display_destroy (display : HeadlessDisplay) : HeadlessDisplay := headless_display_init.

Definition headless_display_copy_frame (display : HeadlessDisplay) (capacity : Z) : option (list Z) :=
  if capacity <? hd_frame_size display then None else Some (hd_frame display).

(** ** What a command reports *)

Record display_wf (d : DisplayDevice) : Prop := {
  dw_staging : Z.of_nat (length (dd_staging d)) = dd_staging_capacity d;
  dw_registers : is_u64 (dd_width d) /\ is_u64 (dd_height d) /\ is_u64 (dd_stride d) /\ is_u64 (dd_format d) /\
    is_u64 (dd_framebuffer d) /\ is_u64 (dd_framebuffer_size d)
}.

(** The registers a command leaves alone. *)
Definition settings (d : DisplayDevice) := (dd_control d, mode_of d, dd_framebuffer d, dd_framebuffer_size d, dd_irq d).

(** An error is reported, and nothing was shown. *)
Definition reports_error (e : DisplayError) (d d' : DisplayDevice) : Prop :=
  settings d' = settings d /\ dd_error_code d' = e /\ dd_status d' = DISPLAY_STATUS_ERROR /\
  dd_frame_number d' = dd_frame_number d /\ has_bits (dd_irq_status d') DISPLAY_IRQ_ERROR = true.

Lemma lor_has_bits a b : b <> 0 -> has_bits (Z.lor a b) b = true.
Proof.
  intros Hb. unfold has_bits. apply negb_true_iff, Z.eqb_neq. rewrite Z.land_lor_distr_l, Z.land_diag.
  intros [_ ?]%Z.lor_eq_0_iff. done.
Qed.

Section outcome.
Context {H F : Type} (api : VmDeviceHostApi H (VmDisplayHost F)) (frontend : VmDisplayHost F).
Implicit Types s : DisplayScene H F.

Lemma display_raise_irq_display reason s :
  sc_display (display_raise_irq api reason s) =
    set_dd_irq_status (Z.lor (dd_irq_status (sc_display s)) reason) (sc_display s) /\
  sc_front (display_raise_irq api reason s) = sc_front s.
Proof. unfold display_raise_irq. cbv zeta. by destruct (has_bits _ _). Qed.

Lemma set_error_reports e s d0 :
  settings (sc_display s) = settings d0 -> dd_frame_number (sc_display s) = dd_frame_number d0 ->
  reports_error e d0 (sc_display (display_set_error api e s)) /\ sc_front (display_set_error api e s) = sc_front s.
Proof.
  intros Hs Hn. unfold display_set_error. destruct (display_raise_irq_display DISPLAY_IRQ_ERROR
    (on_display (fun d => set_dd_error_code e (set_dd_status DISPLAY_STATUS_ERROR d)) s)) as [Ed Ef].
  rewrite Ef. split; [|done]. rewrite Ed. unfold reports_error. split_and!; try done. by apply lor_has_bits.
Qed.

(** The mode registers pass the checks exactly when ... *)
Lemma validate_mode_spec d size :
  display_wf d ->
  validate_mode d = inr size <->
  1 <= dd_width d <= DISPLAY_MAX_WIDTH /\ 1 <= dd_height d <= DISPLAY_MAX_HEIGHT /\ dd_format d = VM_PIXEL_FORMAT_XRGB8888 /\
  dd_width d * 4 <= dd_stride d <= UINT32_MAX /\ size = dd_stride d * dd_height d.
Proof.
  intros [_ (Hw & Hh & Hs & Hf & _ & _)]. unfold validate_mode, is_u64 in *.
  unfold DISPLAY_MAX_WIDTH, DISPLAY_MAX_HEIGHT, UINT32_MAX.
  destruct (Z.eqb_spec (dd_width d) 0), (Z.eqb_spec (dd_height d) 0), (Z.ltb_spec 1920 (dd_width d)), (Z.ltb_spec 1080 (dd_height d));
    cbn [orb]; try (split; [done|lia]).
  destruct (Z.eqb_spec (dd_format d) VM_PIXEL_FORMAT_XRGB8888); cbn [negb]; [|split; [done|tauto]].
  rewrite (wrap64_id (dd_width d * 4)) by (unfold is_u64; lia).
  destruct (Z.ltb_spec (dd_stride d) (dd_width d * 4)), (Z.ltb_spec 0xFFFFFFFF (dd_stride d)); cbn [orb]; try (split; [done|lia]).
  assert (0 <= dd_stride d * dd_height d < 2 ^ 43) as Hsz by nia.
  destruct (Z.ltb_spec (UINT64_MAX / dd_stride d) (dd_height d)) as [Hlt|Hge].
  - pose proof (Z.div_le_lower_bound UINT64_MAX (dd_stride d) (dd_height d) ltac:(lia)) as Hle.
    change UINT64_MAX with (2 ^ 64 - 1) in *. lia.
  - rewrite wrap64_id by (unfold is_u64; lia). destruct (Z.ltb_spec SIZE_MAX (dd_stride d * dd_height d)) as [Hl|_].
    + change SIZE_MAX with (2 ^ 64 - 1) in Hl. lia.
    + split; [intros [= <-]; lia|]. intros (_ & _ & _ & _ & ->). done.
Qed.

(** Every way a present can end before the frame is read. *)
Lemma apply_mode_reports s :
  match display_apply_mode api frontend s with
  | (None, s') => exists e, e <> DISPLAY_ERROR_NONE /\ reports_error e (sc_display s) (sc_display s')
  | (Some size, s') =>
      validate_mode (sc_display s) = inr size /\ sc_host s' = sc_host s /\
      sc_display s' = set_dd_error_code DISPLAY_ERROR_NONE
        (set_dd_status (if display_enabled (sc_display s) then DISPLAY_STATUS_READY else 0)
          (set_dd_active (mode_of (sc_display s)) (sc_display s)))
  end.
Proof.
  unfold display_apply_mode, display_validate_mode. destruct (validate_mode (sc_display s)) as [e|size] eqn:Ev.
  - exists e. split; [|by apply set_error_reports].
    intros ->. revert Ev. unfold validate_mode. by repeat case_match.
  - assert (sc_display (resize_frontend frontend s).2 = sc_display s /\ sc_host (resize_frontend frontend s).2 = sc_host s) as [Ed Eh].
    { unfold resize_frontend. destruct (dh_resize frontend) as [resize|]; [|done]. destruct (bool_decide _); [|done].
      by destruct (resize _ _ _). }
    destruct (resize_frontend frontend s) as [[|] s1]; cbn [snd] in Ed, Eh.
    + split_and!; [done|done|]. cbn. by rewrite Ed.
    + exists DISPLAY_ERROR_FRONTEND. split; [done|]. apply set_error_reports; by rewrite Ed.
Qed.

End outcome.

(** ** What a present promises *)

(** The bytes of a frame with the mode of the registers. *)
Definition frame_bytes (d : DisplayDevice) : Z := dd_stride d * dd_height d.

(** The framebuffer the registers describe can be shown: the device is enabled,
    the picture is at most 1920 by 1080 pixels of format XRGB8888, a line has
    room for its pixels (packed lines included), and the frame fits the buffer
    the guest gave and lies in memory. *)
Definition presentable (r : RAM) (d : DisplayDevice) : Prop :=
  Z.testbit (dd_control d) 0 = true /\
  1 <= dd_width d <= 1920 /\ 1 <= dd_height d <= 1080 /\ dd_format d = VM_PIXEL_FORMAT_XRGB8888 /\
  4 * dd_width d <= dd_stride d < 2 ^ 32 /\
  frame_bytes d <= dd_framebuffer_size d /\ dd_framebuffer d + frame_bytes d <= ram_size r.

(** The error a present ends with: the first thing that is wrong.  [staging]
    and [memory] say whether the host grants the memory that the device needs to
    enlarge its staging block and the display to keep the frame. *)
Definition present_outcome (staging memory : bool) (r : RAM) (d : DisplayDevice) : DisplayError :=
  if negb (Z.testbit (dd_control d) 0) then DISPLAY_ERROR_DISABLED
  else if negb (bool_decide (1 <= dd_width d <= 1920 /\ 1 <= dd_height d <= 1080)) then DISPLAY_ERROR_DIMENSIONS
  else if negb (bool_decide (dd_format d = VM_PIXEL_FORMAT_XRGB8888)) then DISPLAY_ERROR_FORMAT
  else if negb (bool_decide (4 * dd_width d <= dd_stride d < 2 ^ 32)) then DISPLAY_ERROR_STRIDE
  else if negb (bool_decide (frame_bytes d <= dd_framebuffer_size d)) then DISPLAY_ERROR_BUFFER_SIZE
  else if negb staging && bool_decide (dd_staging_capacity d < frame_bytes d) then DISPLAY_ERROR_ALLOCATION
  else if negb (bool_decide (dd_framebuffer d + frame_bytes d <= ram_size r)) then DISPLAY_ERROR_DMA
  else if negb memory then DISPLAY_ERROR_FRONTEND
  else DISPLAY_ERROR_NONE.

Lemma present_outcome_presentable r d :
  present_outcome true true r d = DISPLAY_ERROR_NONE <-> presentable r d.
Proof.
  unfold present_outcome, presentable. cbn [negb andb].
  destruct (Z.testbit (dd_control d) 0); cbn [negb]; [|by split; [|intros [? _]]].
  repeat case_bool_decide; cbn [negb]; (split; [try done; tauto|intros (_ & ? & ? & ? & ? & ? & ?); tauto || done]).
Qed.

(** The checks of the mode agree with the promise. *)
Lemma validate_mode_outcome d :
  display_wf d ->
  validate_mode d =
    if negb (bool_decide (1 <= dd_width d <= 1920 /\ 1 <= dd_height d <= 1080)) then inl DISPLAY_ERROR_DIMENSIONS
    else if negb (bool_decide (dd_format d = VM_PIXEL_FORMAT_XRGB8888)) then inl DISPLAY_ERROR_FORMAT
    else if negb (bool_decide (4 * dd_width d <= dd_stride d < 2 ^ 32)) then inl DISPLAY_ERROR_STRIDE
    else inr (frame_bytes d).
Proof.
  intros Hwf. destruct (decide (is_Some (maybe inr (validate_mode d)))) as [[size E]|E].
  - destruct (validate_mode d) as [e|size'] eqn:Ev; [done|]. apply (validate_mode_spec _ _ Hwf) in Ev as (? & ? & ? & ? & ->).
    unfold DISPLAY_MAX_WIDTH, DISPLAY_MAX_HEIGHT, UINT32_MAX in *.
    rewrite !bool_decide_eq_true_2 by (done || lia). done.
  - destruct Hwf as [_ (Hw & Hh & Hs & Hf & _ & _)]. unfold validate_mode, is_u64 in *.
    unfold DISPLAY_MAX_WIDTH, DISPLAY_MAX_HEIGHT, UINT32_MAX in *. revert E.
    destruct (Z.eqb_spec (dd_width d) 0), (Z.eqb_spec (dd_height d) 0), (Z.ltb_spec 1920 (dd_width d)), (Z.ltb_spec 1080 (dd_height d));
      cbn [orb]; try (rewrite (bool_decide_eq_false_2 (1 <= dd_width d <= 1920 /\ _)) by lia; done).
    rewrite (bool_decide_eq_true_2 (1 <= dd_width d <= 1920 /\ _)) by lia. cbn [negb].
    destruct (Z.eqb_spec (dd_format d) VM_PIXEL_FORMAT_XRGB8888);
      [rewrite (bool_decide_eq_true_2 (dd_format d = _)) by done|rewrite (bool_decide_eq_false_2 (dd_format d = _)) by done; done].
    cbn [negb]. rewrite (wrap64_id (dd_width d * 4)) by (unfold is_u64; lia).
    destruct (Z.ltb_spec (dd_stride d) (dd_width d * 4)), (Z.ltb_spec 0xFFFFFFFF (dd_stride d)); cbn [orb];
      try (rewrite (bool_decide_eq_false_2 (4 * dd_width d <= _ < _)) by lia; done).
    assert (0 <= dd_stride d * dd_height d < 2 ^ 43) as Hsz by nia.
    destruct (Z.ltb_spec (UINT64_MAX / dd_stride d) (dd_height d)) as [Hlt|Hge].
    + pose proof (Z.div_le_lower_bound UINT64_MAX (dd_stride d) (dd_height d) ltac:(lia)) as Hle.
      change UINT64_MAX with (2 ^ 64 - 1) in *. lia.
    + rewrite wrap64_id by (unfold is_u64; lia). destruct (Z.ltb_spec SIZE_MAX (dd_stride d * dd_height d)) as [Hl|_];
        [change SIZE_MAX with (2 ^ 64 - 1) in Hl; lia|]. intros []. by eexists.
Qed.

Section framebuffer.
Context {H : Type} (ram_of : H -> RAM) (api : VmDeviceHostApi H (VmDisplayHost HeadlessDisplay)).
Context (api_dma : dma_read api = Some (fun host a n => ram_read_block (ram_of host) a n)).
Implicit Types s : DisplayScene H HeadlessDisplay.

Abbreviation screen := headless_display_host.

Lemma apply_mode_headless memory s size :
  display_wf (sc_display s) -> validate_mode (sc_display s) = inr size ->
  exists d, display_apply_mode api (screen memory) s = (Some size, mkScene d (sc_host s) (sc_front s)) /\
    settings d = settings (sc_display s) /\ dd_frame_number d = dd_frame_number (sc_display s) /\
    dd_staging d = dd_staging (sc_display s) /\ dd_staging_capacity d = dd_staging_capacity (sc_display s).
Proof.
  intros Hwf Hv. pose proof Hv as Hm. apply (validate_mode_spec _ _ Hwf) in Hm as (Hw & Hh & _).
  unfold display_apply_mode, display_validate_mode. rewrite Hv.
  assert (resize_frontend (screen memory) s = (true, s)) as ->; [|destruct s; eexists; split; [reflexivity|done]].
  unfold resize_frontend. cbn [dh_resize headless_display_host]. destruct (bool_decide _); [|done].
  unfold headless_resize, DISPLAY_MAX_WIDTH, DISPLAY_MAX_HEIGHT, wrap32 in *. rewrite !Z.mod_small by lia.
  rewrite !(proj2 (Z.eqb_neq _ 0)) by lia. by destruct s.
Qed.

Lemma headless_present_frame memory d front size bytes rest number :
  display_wf d -> validate_mode d = inr size -> Z.of_nat (length bytes) = size ->
  headless_present memory front (bytes ++ rest) (wrap32 (dd_width d)) (wrap32 (dd_height d)) (wrap32 (dd_stride d))
    (wrap32 (dd_format d)) number =
  if memory then (true, mkHeadless bytes size (dd_width d) (dd_height d) (dd_stride d) (dd_format d) number)
  else (false, front).
Proof.
  intros Hwf Hv Hb. apply (validate_mode_spec _ _ Hwf) in Hv as (Hw & Hh & Hf & Hs & ->).
  unfold DISPLAY_MAX_WIDTH, DISPLAY_MAX_HEIGHT, UINT32_MAX, wrap32 in *. rewrite !Z.mod_small by (rewrite ?Hf; unfold VM_PIXEL_FORMAT_XRGB8888; lia).
  unfold headless_present. assert (frame_valid (dd_width d) (dd_height d) (dd_stride d) (dd_format d) = true) as ->.
  { unfold frame_valid. rewrite negb_true_iff, !orb_false_iff, negb_false_iff, !Z.eqb_neq, Z.eqb_eq, !Z.ltb_ge.
    split_and!; [lia|lia|done|change (UINT32_MAX / 4) with 1073741823; lia|lia|].
    apply Z.div_le_lower_bound; [lia|]. change SIZE_MAX with (2 ^ 64 - 1). nia. }
  cbn [negb]. destruct memory; [|done]. cbn [negb]. rewrite take_app_length' by lia. done.
Qed.

(** The end of a present whose mode is valid. *)
Lemma present_staged memory d0 d host front size :
  display_wf d0 -> validate_mode d0 = inr size -> settings d = settings d0 -> dd_frame_number d = dd_frame_number d0 ->
  size <= Z.of_nat (length (dd_staging d)) -> ram_wf (ram_of host) ->
  let s' := match read_frame api size (mkScene d host front) with
    | (false, s) => display_set_error api DISPLAY_ERROR_DMA s
    | (true, s) =>
        let next_frame := wrap64 (dd_frame_number (sc_display s) + 1) in
        match present_frame (screen memory) next_frame s with
        | (false, s) => display_set_error api DISPLAY_ERROR_FRONTEND s
        | (true, s) => display_raise_irq api DISPLAY_IRQ_PRESENT_COMPLETE
            (on_display (fun d => set_dd_status DISPLAY_STATUS_READY (set_dd_frame_number next_frame d)) s)
        end
    end in
  let r := ram_of host in
  if negb (ram_contains r (dd_framebuffer d0) size)
  then sc_front s' = front /\ reports_error DISPLAY_ERROR_DMA d0 (sc_display s')
  else if negb memory then sc_front s' = front /\ reports_error DISPLAY_ERROR_FRONTEND d0 (sc_display s')
  else sc_front s' = mkHeadless (ram_bytes r (dd_framebuffer d0) size) size (dd_width d0) (dd_height d0) (dd_stride d0) (dd_format d0)
         (wrap64 (dd_frame_number d0 + 1)) /\
       settings (sc_display s') = settings d0 /\ dd_frame_number (sc_display s') = wrap64 (dd_frame_number d0 + 1) /\
       dd_status (sc_display s') = DISPLAY_STATUS_READY /\ dd_error_code (sc_display s') = dd_error_code d /\
       has_bits (dd_irq_status (sc_display s')) DISPLAY_IRQ_PRESENT_COMPLETE = true.
Proof.
  intros Hwf Hv Hset Hn Hst Hr s' r. subst s'. unfold read_frame. rewrite api_dma.
  pose proof Hv as Hm. apply (validate_mode_spec _ _ Hwf) in Hm as (? & ? & _ & ? & Esz).
  assert (0 <= size) by nia. unfold settings, mode_of in Hset. injection Hset as Ec Ew Eh Es Ef Efb Efs Ei.
  cbn [sc_host sc_display]. rewrite Efb. pose proof (dw_registers _ Hwf) as (_ & _ & _ & _ & Hfb & _).
  rewrite ram_read_block_spec by (done || apply Hfb). fold r. destruct (ram_contains r (dd_framebuffer d0) size); cbn [negb].
  - cbv zeta. unfold present_frame. cbn [on_display sc_display sc_front sc_host set_dd_staging dd_staging dd_width dd_height
      dd_stride dd_format dd_frame_number headless_display_host dh_present].
    unfold overwrite. change (Z.to_nat 0) with 0%nat. rewrite !take_0, !app_nil_l.
    rewrite Ew, Eh, Es, Ef, Hn. rewrite (headless_present_frame memory d0 front size); [|done|done|rewrite length_ram_bytes; lia].
    destruct memory; cbn [negb].
    + match goal with |- context [display_raise_irq api ?reason ?s0] => destruct (display_raise_irq_display api reason s0) as [Ed Efr] end.
      rewrite Efr. split; [done|]. rewrite Ed. cbn. unfold settings, mode_of. cbn. rewrite Ec, Ew, Eh, Es, Ef, Efb, Efs, Ei.
      split_and!; try done. by apply lor_has_bits.
    + match goal with |- context [display_set_error api ?e ?s0] =>
        destruct (set_error_reports api e s0 d0) as [Hrep Hf]; [|done|by split] end.
      unfold settings, mode_of. cbn. congruence.
  - destruct (set_error_reports api DISPLAY_ERROR_DMA (mkScene d host front) d0) as [Hrep Hf]; [|done|by split].
    unfold settings, mode_of. cbn. congruence.
Qed.

(** The whole of [display_present], by its outcome. *)
Lemma display_present_outcome staging memory s :
  display_wf (sc_display s) -> ram_wf (ram_of (sc_host s)) ->
  let d := sc_display s in
  let r := ram_of (sc_host s) in
  let s' := display_present api (screen memory) staging s in
  match present_outcome staging memory r d with
  | DISPLAY_ERROR_NONE =>
      let number := wrap64 (dd_frame_number d + 1) in
      sc_front s' = mkHeadless (ram_bytes r (dd_framebuffer d) (frame_bytes d)) (frame_bytes d) (dd_width d) (dd_height d)
        (dd_stride d) (dd_format d) number /\
      settings (sc_display s') = settings d /\ dd_frame_number (sc_display s') = number /\
      dd_status (sc_display s') = DISPLAY_STATUS_READY /\ dd_error_code (sc_display s') = DISPLAY_ERROR_NONE /\
      has_bits (dd_irq_status (sc_display s')) DISPLAY_IRQ_PRESENT_COMPLETE = true
  | e => sc_front s' = sc_front s /\ reports_error e d (sc_display s')
  end.
Proof.
  intros Hwf Hr d r s'. subst s'. change (display_wf d) in Hwf. pose proof (validate_mode_outcome d Hwf) as Ev.
  unfold display_present, present_outcome. fold d.
  assert (display_enabled d = Z.testbit (dd_control d) 0) as He by exact (has_bits_pow2 (dd_control d) 0 ltac:(lia)).
  rewrite He. destruct (Z.testbit (dd_control d) 0); cbn [negb].
  2:{ destruct (set_error_reports api DISPLAY_ERROR_DISABLED s d eq_refl eq_refl) as [Hrep Hf]. by split. }
  assert (forall e, validate_mode d = inl e -> display_apply_mode api (screen memory) s = (None, display_set_error api e s)) as Hbad.
  { intros e E. unfold display_apply_mode, display_validate_mode. fold d. by rewrite E. }
  pose proof (fun e => set_error_reports api e s d eq_refl eq_refl) as Hrep.
  destruct (bool_decide (1 <= dd_width d <= 1920 /\ _)); cbn [negb] in *; [|rewrite (Hbad _ Ev); specialize (Hrep DISPLAY_ERROR_DIMENSIONS); tauto].
  destruct (bool_decide (dd_format d = _)); cbn [negb] in *; [|rewrite (Hbad _ Ev); specialize (Hrep DISPLAY_ERROR_FORMAT); tauto].
  destruct (bool_decide (4 * dd_width d <= _ < _)); cbn [negb] in *; [|rewrite (Hbad _ Ev); specialize (Hrep DISPLAY_ERROR_STRIDE); tauto].
  clear Hbad Hrep. set (size := frame_bytes d) in *.
  destruct (apply_mode_headless memory s size Hwf Ev) as (d1 & -> & Hset & Hn & Hst & Hcap). fold d in Hset, Hn, Hst, Hcap. cbn [sc_display].
  pose proof Ev as Hm. apply (validate_mode_spec _ _ Hwf) in Hm as (? & ? & _ & ? & _). assert (0 <= size) by (unfold size, frame_bytes; nia).
  assert (dd_framebuffer_size d1 = dd_framebuffer_size d) as -> by (unfold settings in Hset; congruence).
  destruct (Z.ltb_spec (dd_framebuffer_size d) size) as [Hlt|Hge].
  { rewrite bool_decide_eq_false_2 by lia. cbn [negb].
    destruct (set_error_reports api DISPLAY_ERROR_BUFFER_SIZE (mkScene d1 (sc_host s) (sc_front s)) d Hset Hn) as [Hrep Hf]. by split. }
  rewrite (bool_decide_eq_true_2 (size <= _)) by lia. cbn [negb].
  unfold ensure_staging. cbn [sc_display]. rewrite Hcap.
  pose proof (fun d2 Hset2 Hn2 Hst2 => present_staged memory d
    (set_dd_error_code DISPLAY_ERROR_NONE (set_dd_status DISPLAY_STATUS_BUSY d2)) (sc_host s) (sc_front s) size
    Hwf Ev Hset2 Hn2 Hst2 Hr) as Hend.
  cbv zeta in Hend. fold r in Hend.
  assert (ram_contains r (dd_framebuffer d) size = bool_decide (dd_framebuffer d + size <= ram_size r)) as Ec.
  { pose proof (dw_registers _ Hwf) as (_ & _ & _ & _ & Hfb & _). unfold is_u64 in Hfb.
    apply eq_true_iff_eq. rewrite bool_decide_eq_true, (ram_contains_true r _ _ Hr). lia. }
  rewrite Ec in Hend. fold d in Hend.
  destruct (Z.leb_spec size (dd_staging_capacity d)).
  - rewrite (bool_decide_eq_false_2 (_ < size)) by lia. rewrite andb_false_r.
    pose proof (dw_staging _ Hwf) as Hl.
    specialize (Hend d1 Hset Hn ltac:(cbn [dd_staging set_dd_error_code set_dd_status]; rewrite Hst; lia)). cbn [on_display sc_display sc_host sc_front].
    by destruct (bool_decide (_ <= ram_size r)), memory; cbn [negb] in *.
  - rewrite (bool_decide_eq_true_2 (_ < size)) by lia. destruct staging; cbn [negb andb].
    + specialize (Hend (set_dd_staging (resize (Z.to_nat size) 0 (dd_staging d1)) size d1) Hset Hn
        ltac:(cbn [dd_staging set_dd_error_code set_dd_status set_dd_staging]; rewrite length_resize; lia)).
      cbn [on_display sc_display sc_host sc_front].
      by destruct (bool_decide (_ <= ram_size r)), memory; cbn [negb andb] in *.
    + destruct (set_error_reports api DISPLAY_ERROR_ALLOCATION (mkScene d1 (sc_host s) (sc_front s)) d Hset Hn) as [Hrep Hf]. by split.
Qed.

(** * Properties *)

(** C35: what the guest draws is what the screen shows, and nothing else happens.
    If the host grants the memory it is asked for, a present command shows the
    frame exactly when the device is enabled, the picture is between 1 by 1 and
    1920 by 1080 pixels of format XRGB8888, the stride holds a line (packed
    lines included) and fits 32 bits, the frame fits the buffer size the guest
    gave and lies in guest memory: the screen then holds the bytes of guest
    memory at the framebuffer with the size, stride and format of the registers,
    under the next frame number, and the device reports success.  In every other
    case, memory that the host refuses to the device or to the display included,
    the device reports the error of the first condition that fails, the frame
    number stays, and the screen is as before. *)
Theorem display_shows_framebuffer staging memory s :
  display_wf (sc_display s) -> ram_wf (ram_of (sc_host s)) ->
  let d := sc_display s in
  let r := ram_of (sc_host s) in
  let '(ok, s') := display_write api (screen memory) staging 0 DISPLAY_COMMAND_OFFSET 8 DISPLAY_COMMAND_PRESENT s in
  let d' := sc_display s' in
  ok = true /\ settings d' = settings d /\
  (present_outcome true true r d = DISPLAY_ERROR_NONE <-> presentable r d) /\
  match present_outcome staging memory r d with
  | DISPLAY_ERROR_NONE =>
      let number := wrap64 (dd_frame_number d + 1) in
      sc_front s' = mkHeadless (ram_bytes r (dd_framebuffer d) (frame_bytes d)) (frame_bytes d) (dd_width d) (dd_height d)
        (dd_stride d) (dd_format d) number /\
      dd_frame_number d' = number /\ dd_status d' = DISPLAY_STATUS_READY /\ dd_error_code d' = DISPLAY_ERROR_NONE /\
      has_bits (dd_irq_status d') DISPLAY_IRQ_PRESENT_COMPLETE = true
  | e => sc_front s' = sc_front s /\ reports_error e d d'
  end.
Proof.
  intros Hwf Hr d r. pose proof (display_present_outcome staging memory s Hwf Hr) as Ho. cbv zeta in Ho. fold d r in Ho.
  change (display_write api (screen memory) staging 0 DISPLAY_COMMAND_OFFSET 8 DISPLAY_COMMAND_PRESENT s)
    with (true, display_present api (screen memory) staging s). cbv zeta beta iota.
  split; [done|]. pose proof (present_outcome_presentable r d) as Hp.
  destruct (present_outcome staging memory r d); cbv zeta in Ho |- *; destruct Ho as [? Ho];
    [destruct Ho as (? & ? & ? & ? & ?); by split_and!|..]; (split; [apply Ho|by split]).
Qed.

End framebuffer.

(** A two-by-two image with a padded stride, shown from a memory of forty bytes. *)
Definition demo_framebuffer : RAM := store_bytes (mkRAM ∅ 40) 0 (seqZ 100 40).

Definition demo_display_api : VmDeviceHostApi RAM (VmDisplayHost HeadlessDisplay) :=
  mkHostApi VM_DEVICE_ABI_VERSION sizeof_VmDeviceHostApi (Some (fun r a n => ram_read_block r a n)) None None None.

Definition demo_scene : DisplayScene RAM HeadlessDisplay :=
  mkScene (mkDisplay 3 2 2 12 1 5 24 (0, 0, 0, 0) 1 0 7 DISPLAY_ERROR_NONE [] 0 4) demo_framebuffer headless_display_init.

(** The same image in packed lines. *)
Definition demo_packed : DisplayScene RAM HeadlessDisplay :=
  mkScene (mkDisplay 3 2 2 8 1 5 24 (0, 0, 0, 0) 1 0 7 DISPLAY_ERROR_NONE [] 0 4) demo_framebuffer headless_display_init.

Lemma demo_framebuffer_wf : ram_wf demo_framebuffer.
Proof.
  apply store_bytes_wf; [split; [by vm_compute|by intros ? ? ?]|]. apply Forall_seqZ. unfold is_u8. lia.
Qed.

Lemma display_shows_framebuffer_witness :
  presentable demo_framebuffer (sc_display demo_packed) /\
  sc_front (display_write demo_display_api (headless_display_host true) true 0 DISPLAY_COMMAND_OFFSET 8 DISPLAY_COMMAND_PRESENT demo_scene).2 =
    mkHeadless (seqZ 105 24) 24 2 2 12 1 8 /\
  sc_front (display_write demo_display_api (headless_display_host true) true 0 DISPLAY_COMMAND_OFFSET 8 DISPLAY_COMMAND_PRESENT demo_packed).2 =
    mkHeadless (seqZ 105 16) 16 2 2 8 1 8.
Proof.
  split; [by vm_compute|].
  pose proof (display_shows_framebuffer (fun r => r) demo_display_api eq_refl true true demo_scene
    ltac:(split; [done|by repeat split]) demo_framebuffer_wf) as H1.
  pose proof (display_shows_framebuffer (fun r => r) demo_display_api eq_refl true true demo_packed
    ltac:(split; [done|by repeat split]) demo_framebuffer_wf) as H2.
  cbv zeta in H1, H2.
  change (present_outcome true true demo_framebuffer (sc_display demo_scene)) with DISPLAY_ERROR_NONE in H1.
  change (present_outcome true true demo_framebuffer (sc_display demo_packed)) with DISPLAY_ERROR_NONE in H2.
  destruct (display_write _ _ _ _ _ _ _ demo_scene) as [ok1 s1]. destruct (display_write _ _ _ _ _ _ _ demo_packed) as [ok2 s2].
  destruct H1 as (_ & _ & _ & H1 & _). destruct H2 as (_ & _ & _ & H2 & _). cbn [snd].
  split; [rewrite H1|rewrite H2]; by vm_compute.
Defined.
