(* ===== verification/DeviceManager.v ===== *)
(** The device manager: src/device_manager.c.

    The manager gives address windows (BARs) and interrupt lines to device
    modules, maps their windows on the bus and describes them to the guest
    through the hub registers.  Its state lives in the device contexts of the
    bus ([ManagerSlot]), because the callbacks it maps reach it from inside a
    bus access.  A module is code outside this file: [modules] gives the module
    at an address, and its functions act on the world with the device context
    they were created with.  The manager lock makes each operation atomic. *)

From S2P Require Import Prelude Ram Interrupt Bus DeviceAbi.
From Stdlib Require Import ZArith Lia Bool String.
From stdpp Require Import base list numbers option.

#[local] Open Scope Z_scope.

Definition DEVICE_MANAGER_MAX_SLOTS : Z := 16.
Definition DEVICE_MANAGER_MAX_SERVICES : Z := 16.
Definition DEVICE_MANAGER_DYNAMIC_MMIO_BASE : Z := 0xFFFFFFFFF0000000.
Definition DEVICE_MANAGER_DYNAMIC_MMIO_LIMIT : Z := 0xFFFFFFFFFFFBFFFF.
Definition DEVICE_MODULE_TICK_NANOSECONDS : Z := 1000000.

Definition VIO_HUB_MAGIC : Z := 0x314F4956.
Definition VIO_HUB_ABI_VERSION : Z := 2.
Definition VIO_HUB_MAGIC_OFFSET : Z := 0x00.
Definition VIO_HUB_ABI_OFFSET : Z := 0x08.
Definition VIO_HUB_SLOT_COUNT_OFFSET : Z := 0x10.
Definition VIO_HUB_GENERATION_OFFSET : Z := 0x18.
Definition VIO_HUB_EVENT_STATUS_OFFSET : Z := 0x20.
Definition VIO_HUB_EVENT_ACK_OFFSET : Z := 0x28.
Definition VIO_HUB_SLOT_BASE : Z := 0x100.
Definition VIO_HUB_SLOT_STRIDE : Z := 0xC0.
Definition VIO_SLOT_STATUS_OFFSET : Z := 0x00.
Definition VIO_SLOT_CLASS_OFFSET : Z := 0x08.
Definition VIO_SLOT_VENDOR_OFFSET : Z := 0x10.
Definition VIO_SLOT_DEVICE_OFFSET : Z := 0x18.
Definition VIO_SLOT_VERSION_OFFSET : Z := 0x20.
Definition VIO_SLOT_FEATURES_OFFSET : Z := 0x40.
Definition VIO_SLOT_DEVICE_ABI_OFFSET : Z := 0x48.
Definition VIO_SLOT_BAR_COUNT_OFFSET : Z := 0x50.
Definition VIO_SLOT_IRQ_COUNT_OFFSET : Z := 0x58.
Definition VIO_SLOT_BAR_BASE_OFFSETS : list Z := [0x28; 0x60; 0x70; 0x80].
Definition VIO_SLOT_BAR_SIZE_OFFSETS : list Z := [0x30; 0x68; 0x78; 0x88].
Definition VIO_SLOT_IRQ_OFFSETS : list Z := [0x38; 0x90; 0x98; 0xA0].
Definition VIO_SLOT_STATUS_PRESENT : Z := Z.shiftl 1 0.
Definition VIO_SLOT_STATUS_EXTERNAL : Z := Z.shiftl 1 1.
Definition VIO_HUB_EVENT_DEVICE_ADDED : Z := Z.shiftl 1 0.
Definition VIO_HUB_EVENT_DEVICE_REMOVED : Z := Z.shiftl 1 1.

Definition UINT32_MAX : Z := 0xFFFFFFFF.

(** ** State *)

Record DeviceManagerSlot := mkSlot {
  slot_present : bool;
  slot_external : bool;
  slot_descriptor : VmDeviceDescriptor;
  slot_resources : VmDeviceResources;
  slot_module : Z;
  device_context : Z;
  tick_remainder_nanoseconds : Z;
}.

Definition no_descriptor : VmDeviceDescriptor := mkDescriptor 0 0 0 0 0 0 0 0 0 [0; 0; 0; 0] [0; 0; 0; 0].
Definition no_resources : VmDeviceResources := mkResources 0 0 0 [0; 0; 0; 0] [0; 0; 0; 0] [0; 0; 0; 0].
Definition empty_slot : DeviceManagerSlot := mkSlot false false no_descriptor no_resources 0 0 0.

Record DeviceManagerService := mkService { service_name : string; service_version : Z; service_pointer : Z }.

Record DeviceManager := mkManager {
  slots : list DeviceManagerSlot;
  manager_present_count : Z;
  generation : Z;
  event_status : Z;
  irq_used : list bool;
  services : list DeviceManagerService;
}.

Definition set_slots v m := mkManager v (manager_present_count m) (generation m) (event_status m) (irq_used m) (services m).
Definition set_irq_used v m := mkManager (slots m) (manager_present_count m) (generation m) (event_status m) v (services m).
Definition set_event_status v m := mkManager (slots m) (manager_present_count m) (generation m) v (irq_used m) (services m).

Definition set_slot_present v s :=
  mkSlot v (slot_external s) (slot_descriptor s) (slot_resources s) (slot_module s) (device_context s) (tick_remainder_nanoseconds s).
Definition set_device_context v s :=
  mkSlot (slot_present s) (slot_external s) (slot_descriptor s) (slot_resources s) (slot_module s) v (tick_remainder_nanoseconds s).
Definition set_tick_remainder v s :=
  mkSlot (slot_present s) (slot_external s) (slot_descriptor s) (slot_resources s) (slot_module s) (device_context s) v.

Definition slot_at (m : DeviceManager) (i : Z) : DeviceManagerSlot := default empty_slot (slots m !! Z.to_nat i).
Definition put_slot (i : Z) (s : DeviceManagerSlot) (m : DeviceManager) : DeviceManager := set_slots (<[Z.to_nat i := s]> (slots m)) m.

Definition device_manager_init : DeviceManager :=
  mkManager (replicate (Z.to_nat DEVICE_MANAGER_MAX_SLOTS) empty_slot) 0 0 0 (replicate (Z.to_nat INTERRUPT_LINE_COUNT) false) [].

(** Element [i] of an array of the interface. *)
Definition field_at (l : list Z) (i : Z) : Z := default 0 (l !! Z.to_nat i).

(** ** Checks and searches *)

Definition bar_valid (size alignment : Z) : bool :=
  negb ((size =? 0) || (alignment =? 0) || negb (Z.land alignment (alignment - 1) =? 0)).

Definition descriptor_valid (d : VmDeviceDescriptor) : bool :=
  negb (negb (desc_abi_version d =? VM_DEVICE_ABI_VERSION) || (desc_struct_size d <? sizeof_VmDeviceDescriptor) ||
        (VM_DEVICE_MAX_BARS <? desc_bar_count d) || (VM_DEVICE_MAX_IRQS <? desc_irq_count d)) &&
  forallb (fun i => bar_valid (field_at (desc_bar_sizes d) i) (field_at (desc_bar_alignments d) i)) (seqZ 0 (desc_bar_count d)).

(** The first index of a slot that is not present, or the length. *)
Fixpoint free_slot_scan (l : list DeviceManagerSlot) (i : Z) : Z :=
  match l with
  | [] => i
  | s :: l => if slot_present s then free_slot_scan l (i + 1) else i
  end.

Definition free_slot_index (m : DeviceManager) : Z := free_slot_scan (slots m) 0.

Definition range_end (base size : Z) : option Z :=
  if (size =? 0) || (UINT64_MAX - (size - 1) <? base) then None else Some (base + size - 1).

Definition align_address (value alignment : Z) : option Z :=
  let mask := alignment - 1 in
  if UINT64_MAX - mask <? value then None else Some (Z.land (value + mask) (not64 mask)).

(** [for (line = first; line < limit; ++line) if (!irq_used[line]) ...] *)
Fixpoint free_irq_scan (n : nat) (line : Z) (used : list bool) : option Z :=
  match n with
  | O => None
  | S n => if default true (used !! Z.to_nat line) then free_irq_scan n (line + 1) used else Some line
  end.

Definition allocate_irq (m : DeviceManager) : option (Z * DeviceManager) :=
  match free_irq_scan (Z.to_nat (INTERRUPT_EXTERNAL_LINE_COUNT - 2)) 2 (irq_used m) with
  | Some line => Some (line, set_irq_used (<[Z.to_nat line := true]> (irq_used m)) m)
  | None => None
  end.

(** The BARs of a set of resources, as address and size. *)
Definition resource_bars (r : VmDeviceResources) : list (Z * Z) :=
  (fun i => (field_at (bar_bases r) i, field_at (bar_sizes r) i)) <$> seqZ 0 (bar_count r).

Definition manager_bars (m : DeviceManager) : list (Z * Z) :=
  flat_map (fun s => if slot_present s then resource_bars (slot_resources s) else []) (slots m).

(** One pass over the BARs: the greatest end of those in the way. *)
Fixpoint conflict_scan (bars : list (Z * Z)) (base size : Z) (greatest_end : option Z) : option Z :=
  match bars with
  | [] => greatest_end
  | (other_base, other_size) :: bars =>
      conflict_scan bars base size
        (if ranges_overlap base size other_base other_size then
           let other_end := wrap64 (other_base + other_size - 1) in
           match greatest_end with
           | Some greatest => Some (if greatest <? other_end then other_end else greatest)
           | None => Some other_end
           end
         else greatest_end)
  end.

Definition conflicting_bar_end (m : DeviceManager) (pending : list (Z * Z)) (base size : Z) : option Z :=
  conflict_scan (manager_bars m ++ pending) base size None.

(** The [for (;;)] of [allocate_bars]: every pass leaves at least one BAR behind
    the candidate, so their number bounds the passes. *)
Fixpoint allocate_bar (fuel : nat) (m : DeviceManager) (pending : list (Z * Z)) (size alignment candidate : Z) : option Z :=
  match align_address candidate alignment with
  | None => None
  | Some base =>
      match range_end base size with
      | None => None
      | Some last =>
          if DEVICE_MANAGER_DYNAMIC_MMIO_LIMIT <? last then None
          else match conflicting_bar_end m pending base size with
          | None => Some base
          | Some conflict_end =>
              if conflict_end =? UINT64_MAX then None
              else match fuel with
              | O => None
              | S fuel => allocate_bar fuel m pending size alignment (conflict_end + 1)
              end
          end
      end
  end.

Fixpoint allocate_bars_loop (m : DeviceManager) (wanted pending : list (Z * Z)) : option (list (Z * Z)) :=
  match wanted with
  | [] => Some pending
  | (size, alignment) :: wanted =>
      match allocate_bar (length (manager_bars m ++ pending)) m pending size alignment DEVICE_MANAGER_DYNAMIC_MMIO_BASE with
      | None => None
      | Some base => allocate_bars_loop m wanted (pending ++ [(base, size)])
      end
  end.

(** The BARs of a descriptor, with their addresses. *)
Definition allocate_bars (m : DeviceManager) (d : VmDeviceDescriptor) : option (list (Z * Z)) :=
  allocate_bars_loop m
    ((fun i => (field_at (desc_bar_sizes d) i, field_at (desc_bar_alignments d) i)) <$> seqZ 0 (desc_bar_count d)) [].

Definition publish_slot (index : Z) (m : DeviceManager) : DeviceManager :=
  mkManager (<[Z.to_nat index := set_slot_present true (slot_at m index)]> (slots m)) (manager_present_count m + 1)
    (wrap64 (generation m + 1)) (Z.lor (event_status m) VIO_HUB_EVENT_DEVICE_ADDED) (irq_used m) (services m).

(** ** Services and fixed devices *)

Definition register_service (m : DeviceManager) (name : string) (version service : Z) : bool * DeviceManager :=
  if (Z.of_nat (String.length name) =? 0) || (VM_DEVICE_NAME_CAPACITY <=? Z.of_nat (String.length name)) || (version =? 0) ||
     (service =? 0) || (DEVICE_MANAGER_MAX_SERVICES <=? Z.of_nat (length (services m))) then (false, m)
  else if existsb (fun s => (service_version s =? version) && String.eqb (service_name s) name) (services m) then (false, m)
  else (true, mkManager (slots m) (manager_present_count m) (generation m) (event_status m) (irq_used m)
                (services m ++ [mkService name version service])).

Fixpoint find_service (l : list DeviceManagerService) (name : string) (version : Z) : option Z :=
  match l with
  | [] => None
  | s :: l => if (service_version s =? version) && String.eqb (service_name s) name then Some (service_pointer s)
              else find_service l name version
  end.

(** The loop over the requested lines of a fixed device: each is external, not
    in use and not requested before. *)
Fixpoint fixed_irqs_free (m : DeviceManager) (lines seen : list Z) : bool :=
  match lines with
  | [] => true
  | line :: lines =>
      if (INTERRUPT_EXTERNAL_LINE_COUNT <=? line) || default true (irq_used m !! Z.to_nat line) then false
      else if existsb (Z.eqb line) seen then false
      else fixed_irqs_free m lines (seen ++ [line])
  end.

Definition resource_irqs (r : VmDeviceResources) : list Z := (fun i => field_at (irqs r) i) <$> seqZ 0 (irq_count r).

Definition fixed_bar_valid (d : VmDeviceDescriptor) (r : VmDeviceResources) (i : Z) : bool :=
  (field_at (bar_sizes r) i =? field_at (desc_bar_sizes d) i) &&
  (Z.land (field_at (bar_bases r) i) (field_at (desc_bar_alignments d) i - 1) =? 0) &&
  match range_end (field_at (bar_bases r) i) (field_at (bar_sizes r) i) with Some _ => true | None => false end.

Definition mark_irqs (lines : list Z) (used : list bool) : list bool :=
  fold_left (fun used line => <[Z.to_nat line := true]> used) lines used.

Definition publish_fixed (m : DeviceManager) (d : VmDeviceDescriptor) (r : VmDeviceResources) : option Z * DeviceManager :=
  if negb (descriptor_valid d) || (res_struct_size r <? sizeof_VmDeviceResources) ||
     negb (bar_count r =? desc_bar_count d) || negb (irq_count r =? desc_irq_count d) then (None, m)
  else
    let index := free_slot_index m in
    if index =? DEVICE_MANAGER_MAX_SLOTS then (None, m)
    else if negb (fixed_irqs_free m (resource_irqs r) []) then (None, m)
    else if negb (forallb (fixed_bar_valid d r) (seqZ 0 (bar_count r))) then (None, m)
    else
      let m := put_slot index (mkSlot false false d r 0 0 0) m in
      let m := set_irq_used (mark_irqs (resource_irqs r) (irq_used m)) m in
      (Some index, publish_slot index m).

(** ** Modules *)

Record VmDeviceModule (D : Type) := mkModule {
  mod_abi_version : Z;
  mod_struct_size : Z;
  mod_descriptor : VmDeviceDescriptor;
  mod_create : option (World D -> VmDeviceResources -> string -> bool * Z * World D);
  mod_destroy : option (World D -> Z -> World D);
  mod_read : option (World D -> Z -> Z -> Z -> Z -> option Z * World D);
  mod_write : option (World D -> Z -> Z -> Z -> Z -> Z -> bool * World D);
  mod_tick : option (World D -> Z -> Z -> World D);
  mod_reset : option (World D -> Z -> World D);
}.
Arguments mod_abi_version {D}.
Arguments mod_struct_size {D}.
Arguments mod_descriptor {D}.
Arguments mod_create {D}.
Arguments mod_destroy {D}.
Arguments mod_read {D}.
Arguments mod_write {D}.
Arguments mod_tick {D}.
Arguments mod_reset {D}.

(** A place in the device contexts that holds the manager. *)
Class ManagerSlot (D : Type) := {
  get_manager : D -> DeviceManager;
  put_manager : DeviceManager -> D -> D
}.

Section manager.
Context {D : Type} {MS : ManagerSlot D} (modules : Z -> VmDeviceModule D).
Implicit Types (w : World D) (b : Bus D).

Definition world_manager w : DeviceManager := get_manager (w_dev w).
Definition update_manager (f : DeviceManager -> DeviceManager) w : World D :=
  set_w_dev (put_manager (f (world_manager w)) (w_dev w)) w.

(** The services of the manager to the modules. *)
Definition host_dma_read w (physical_address size : Z) : option (list Z) :=
  if SIZE_MAX <? size then None else ram_read_block (w_ram w) physical_address size.

Definition host_dma_write w (physical_address : Z) (buffer : list Z) : bool * World D :=
  if SIZE_MAX <? Z.of_nat (length buffer) then (false, w)
  else match ram_write_block (w_ram w) physical_address buffer with
  | Some r => (true, set_w_ram r w)
  | None => (false, w)
  end.

Definition host_raise_irq w (irq : Z) : bool * World D :=
  match w_router w with
  | None => (false, w)
  | Some r => let '(ok, r) := interrupt_router_raise r irq in (ok, set_w_router (Some r) w)
  end.

Definition host_get_service w (name : string) (version : Z) : option Z := find_service (services (world_manager w)) name version.

Definition module_valid (module : VmDeviceModule D) : bool :=
  (mod_abi_version module =? VM_DEVICE_ABI_VERSION) && (sizeof_VmDeviceModule <=? mod_struct_size module) &&
  descriptor_valid (mod_descriptor module) && negb (desc_bar_count (mod_descriptor module) =? 0) &&
  match mod_create module, mod_destroy module, mod_read module, mod_write module with
  | Some _, Some _, Some _, _ => true
  | Some _, Some _, _, Some _ => true
  | _, _, _, _ => false
  end.

Definition release_irq (irq : Z) w : World D :=
  if INTERRUPT_EXTERNAL_LINE_COUNT <=? irq then w
  else
    let w := match w_router w with
             | Some r => set_w_router (Some (interrupt_router_clear r irq).2) w
             | None => w
             end in
    update_manager (fun m => set_irq_used (<[Z.to_nat irq := false]> (irq_used m)) m) w.

Definition release_irqs (lines : list Z) w : World D := fold_left (fun w line => release_irq line w) lines w.

(** The loop that gives a module its lines; when they run out, the ones already
    given are released. *)
Fixpoint allocate_irqs (n : nat) (allocated : list Z) w : option (list Z) * World D :=
  match n with
  | O => (Some allocated, w)
  | S n =>
      match allocate_irq (world_manager w) with
      | None => (None, release_irqs allocated w)
      | Some (line, m) => allocate_irqs n (allocated ++ [line]) (update_manager (fun _ => m) w)
      end
  end.

(** *** The callbacks on the bus: BAR [bar] of slot [index] *)

Definition module_bar_read (index bar : Z) w (offset width : Z) : option Z * World D :=
  let slot := slot_at (world_manager w) index in
  if (UINT32_MAX <? width) || (slot_module slot =? 0) then (None, w)
  else match mod_read (modules (slot_module slot)) with
  | None => (None, w)
  | Some read => read w (device_context slot) bar offset width
  end.

Definition module_bar_write (index bar : Z) w (offset width value : Z) : bool * World D :=
  let slot := slot_at (world_manager w) index in
  if (UINT32_MAX <? width) || (slot_module slot =? 0) then (false, w)
  else match mod_write (modules (slot_module slot)) with
  | None => (false, w)
  | Some write => write w (device_context slot) bar offset width value
  end.

(** Whole milliseconds go to the module, the rest is kept for the next tick. *)
Definition tick_split (ticks remainder : Z) : Z * Z :=
  let milliseconds := ticks / DEVICE_MODULE_TICK_NANOSECONDS in
  let remainder := ticks mod DEVICE_MODULE_TICK_NANOSECONDS + remainder in
  if DEVICE_MODULE_TICK_NANOSECONDS <=? remainder
  then (milliseconds + 1, remainder - DEVICE_MODULE_TICK_NANOSECONDS)
  else (milliseconds, remainder).

Definition module_tick (index : Z) w (ticks : Z) : World D :=
  let slot := slot_at (world_manager w) index in
  if slot_module slot =? 0 then w
  else match mod_tick (modules (slot_module slot)) with
  | None => w
  | Some tick =>
      let '(milliseconds, remainder) := tick_split ticks (tick_remainder_nanoseconds slot) in
      let w := update_manager (put_slot index (set_tick_remainder remainder slot)) w in
      if negb (milliseconds =? 0) then tick w (device_context slot) milliseconds else w
  end.

Definition module_reset (index : Z) w : World D :=
  let slot := slot_at (world_manager w) index in
  if slot_module slot =? 0 then w
  else
    let w := update_manager (put_slot index (set_tick_remainder 0 slot)) w in
    match mod_reset (modules (slot_module slot)) with
    | None => w
    | Some reset => reset w (device_context slot)
    end.

Definition bar_device (index bar : Z) : BusDevice D := {|
  dev_read := Some (module_bar_read index bar);
  dev_write := Some (module_bar_write index bar);
  dev_tick := if bar =? 0 then Some (module_tick index) else None;
  dev_reset := if bar =? 0 then Some (module_reset index) else None
|}.

(** *** Attaching and detaching *)

(** Maps the BARs from number [bar] on; the count of those mapped and the bus. *)
Fixpoint map_bars (index bar : Z) (bars : list (Z * Z)) b : Z * Bus D :=
  match bars with
  | [] => (bar, b)
  | (base, size) :: bars =>
      match bus_map_device b base size (bar_device index bar) with
      | (true, b) => map_bars index (bar + 1) bars b
      | (false, b) => (bar, b)
      end
  end.

Fixpoint unmap_bars (bar : Z) (bars : list (Z * Z)) b : Z * Bus D :=
  match bars with
  | [] => (bar, b)
  | (base, size) :: bars =>
      match bus_unmap_device b base size with
      | (true, b) => unmap_bars (bar + 1) bars b
      | (false, b) => (bar, b)
      end
  end.

(** [for (...) (void)bus_unmap_device(...)] and [(void)bus_map_device(...)] *)
Definition unmap_all (bars : list (Z * Z)) b : Bus D := fold_left (fun b bar => (bus_unmap_device b bar.1 bar.2).2) bars b.
Fixpoint remap_all (index bar : Z) (bars : list (Z * Z)) b : Bus D :=
  match bars with
  | [] => b
  | (base, size) :: bars => remap_all index (bar + 1) bars (bus_map_device b base size (bar_device index bar)).2
  end.

Definition on_world (f : World D -> World D) b : Bus D := set_world (f (bus_world b)) b.

Definition attach_resources (d : VmDeviceDescriptor) (bars : list (Z * Z)) (lines : list Z) : VmDeviceResources :=
  mkResources sizeof_VmDeviceResources (desc_bar_count d) (desc_irq_count d)
    (bars.*1 ++ replicate (4 - length bars) 0) (bars.*2 ++ replicate (4 - length bars) 0)
    (lines ++ replicate (4 - length lines) UINT32_MAX).

Definition attach_module (pointer : Z) (configuration : string) b : option Z * Bus D :=
  let module := modules pointer in
  if (pointer =? 0) || negb (module_valid module) then (None, b)
  else
    let manager := world_manager (bus_world b) in
    let index := free_slot_index manager in
    if index =? DEVICE_MANAGER_MAX_SLOTS then (None, b)
    else
      let descriptor := mod_descriptor module in
      match allocate_bars manager descriptor with
      | None => (None, b)
      | Some bars =>
          match allocate_irqs (Z.to_nat (desc_irq_count descriptor)) [] (bus_world b) with
          | (None, w) => (None, set_world w b)
          | (Some lines, w) =>
              let resources := attach_resources descriptor bars lines in
              let w := update_manager (put_slot index (mkSlot false true descriptor resources pointer 0 0)) w in
              match mod_create module with
              | None => (None, b)
              | Some create =>
                  let '(created, context, w) := create w resources configuration in
                  let w := update_manager (fun m => put_slot index (set_device_context context (slot_at m index)) m) w in
                  if negb created || (context =? 0) then
                    (None, set_world (update_manager (put_slot index empty_slot) (release_irqs lines w)) b)
                  else
                    let '(mapped, b) := map_bars index 0 bars (set_world w b) in
                    if mapped =? desc_bar_count descriptor then
                      (Some index, on_world (update_manager (publish_slot index)) b)
                    else
                      let b := unmap_all (take (Z.to_nat mapped) bars) b in
                      let w := match mod_destroy module with
                               | Some destroy => destroy (bus_world b) context
                               | None => bus_world b
                               end in
                      (None, set_world (update_manager (put_slot index empty_slot) (release_irqs lines w)) b)
              end
          end
      end.

Definition detach_module (index : Z) b : bool * Bus D :=
  if DEVICE_MANAGER_MAX_SLOTS <=? index then (false, b)
  else
    let slot := slot_at (world_manager (bus_world b)) index in
    if negb (slot_present slot) || negb (slot_external slot) || (slot_module slot =? 0) then (false, b)
    else
      let bars := resource_bars (slot_resources slot) in
      let '(unmapped, b) := unmap_bars 0 bars b in
      if negb (unmapped =? bar_count (slot_resources slot)) then
        (false, remap_all index 0 (take (Z.to_nat unmapped) bars) b)
      else
        let w := release_irqs (resource_irqs (slot_resources slot)) (bus_world b) in
        let w := match mod_destroy (modules (slot_module slot)) with
                 | Some destroy => if device_context slot =? 0 then w else destroy w (device_context slot)
                 | None => w
                 end in
        (true, set_world (update_manager (fun m =>
           mkManager (<[Z.to_nat index := empty_slot]> (slots m)) (manager_present_count m - 1) (wrap64 (generation m + 1))
             (Z.lor (event_status m) VIO_HUB_EVENT_DEVICE_REMOVED) (irq_used m) (services m)) w) b).

Definition device_manager_slot (m : DeviceManager) (index : Z) : option DeviceManagerSlot :=
  if (DEVICE_MANAGER_MAX_SLOTS <=? index) || negb (slot_present (slot_at m index)) then None else Some (slot_at m index).

Definition device_manager_destroy b : Bus D :=
  let b := fold_left (fun b index =>
             let slot := slot_at (world_manager (bus_world b)) index in
             if slot_present slot && slot_external slot then (detach_module index b).2 else b)
           (seqZ 0 DEVICE_MANAGER_MAX_SLOTS) b in
  on_world (update_manager (fun _ => device_manager_init)) b.

End manager.

(** ** The hub registers *)

(** The index of a field in a table of offsets. *)
Fixpoint field_index (offsets : list Z) (field i : Z) : option Z :=
  match offsets with
  | [] => None
  | offset :: offsets => if field =? offset then Some i else field_index offsets field (i + 1)
  end.

Definition bar_base_field (field : Z) : option Z := field_index VIO_SLOT_BAR_BASE_OFFSETS field 0.
Definition bar_size_field (field : Z) : option Z := field_index VIO_SLOT_BAR_SIZE_OFFSETS field 0.
Definition irq_field (field : Z) : option Z := field_index VIO_SLOT_IRQ_OFFSETS field 0.

Definition slot_value (s : DeviceManagerSlot) (field : Z) : Z :=
  let r := slot_resources s in
  let d := slot_descriptor s in
  if negb (slot_present s) then match irq_field field with Some _ => UINT64_MAX | None => 0 end
  else match bar_base_field field with
  | Some i => if i <? bar_count r then field_at (bar_bases r) i else 0
  | None =>
      match bar_size_field field with
      | Some i => if i <? bar_count r then field_at (bar_sizes r) i else 0
      | None =>
          match irq_field field with
          | Some i => if i <? irq_count r then field_at (irqs r) i else UINT64_MAX
          | None =>
              if field =? VIO_SLOT_STATUS_OFFSET then
                Z.lor VIO_SLOT_STATUS_PRESENT (if slot_external s then VIO_SLOT_STATUS_EXTERNAL else 0)
              else if field =? VIO_SLOT_CLASS_OFFSET then device_class d
              else if field =? VIO_SLOT_VENDOR_OFFSET then vendor_id d
              else if field =? VIO_SLOT_DEVICE_OFFSET then device_id d
              else if field =? VIO_SLOT_VERSION_OFFSET then device_version d
              else if field =? VIO_SLOT_FEATURES_OFFSET then desc_features d
              else if field =? VIO_SLOT_DEVICE_ABI_OFFSET then desc_abi_version d
              else if field =? VIO_SLOT_BAR_COUNT_OFFSET then bar_count r
              else if field =? VIO_SLOT_IRQ_COUNT_OFFSET then irq_count r
              else 0
          end
      end
  end.

Definition hub_read (m : DeviceManager) (offset width : Z) : option Z :=
  if negb (width =? 8) || negb (Z.land offset 7 =? 0) then None
  else if offset =? VIO_HUB_MAGIC_OFFSET then Some VIO_HUB_MAGIC
  else if offset =? VIO_HUB_ABI_OFFSET then Some VIO_HUB_ABI_VERSION
  else if offset =? VIO_HUB_SLOT_COUNT_OFFSET then Some DEVICE_MANAGER_MAX_SLOTS
  else if offset =? VIO_HUB_GENERATION_OFFSET then Some (generation m)
  else if offset =? VIO_HUB_EVENT_STATUS_OFFSET then Some (event_status m)
  else if offset <? VIO_HUB_SLOT_BASE then None
  else
    let relative := offset - VIO_HUB_SLOT_BASE in
    let slot_index := relative / VIO_HUB_SLOT_STRIDE in
    let field := relative mod VIO_HUB_SLOT_STRIDE in
    if DEVICE_MANAGER_MAX_SLOTS <=? slot_index then None
    else Some (slot_value (slot_at m slot_index) field).

Definition hub_write (m : DeviceManager) (offset width value : Z) : bool * DeviceManager :=
  if negb (width =? 8) || negb (offset =? VIO_HUB_EVENT_ACK_OFFSET) then (false, m)
  else (true, set_event_status (Z.land (event_status m) (not64 value)) m).

Definition device_manager_hub_as_bus_device `{ManagerSlot D} : BusDevice D := {|
  dev_read := Some (fun w offset width => (hub_read (world_manager w) offset width, w));
  dev_write := Some (fun w offset width value =>
    let '(ok, m) := hub_write (world_manager w) offset width value in (ok, update_manager (fun _ => m) w));
  dev_tick := None;
  dev_reset := None
|}.
