(* ===== verification/DeviceAlloc.v ===== *)
(** How the device manager chooses addresses (src/device_manager.c): first fit
    above the base of the dynamic window, proved correct and complete, with
    enough fuel for every set of windows. *)

From S2P Require Import Prelude Ram Interrupt Bus DeviceAbi DeviceManager.
From Stdlib Require Import ZArith Lia Bool.
From stdpp Require Import base list numbers option.

#[local] Open Scope Z_scope.

(** ** Alignment *)

Lemma alignment_pow2 size alignment :
  is_u64 alignment -> bar_valid size alignment = true -> size <> 0 /\ exists k, 0 <= k < 64 /\ alignment = 2 ^ k.
Proof.
  unfold bar_valid. rewrite negb_true_iff, !orb_false_iff, negb_false_iff, !Z.eqb_neq, Z.eqb_eq.
  intros Ha [[Hs H0] Hl]. split; [done|]. apply land_pred_pow2; [|done]. unfold is_u64 in Ha. lia.
Qed.

(** The address [align_address] returns is the least aligned one from [value] on. *)
Lemma align_address_spec value k :
  0 <= k < 64 -> is_u64 value ->
  match align_address value (2 ^ k) with
  | Some base => value <= base /\ is_u64 base /\ base mod 2 ^ k = 0 /\ forall x, value <= x -> x mod 2 ^ k = 0 -> base <= x
  | None => forall x, value <= x -> x mod 2 ^ k = 0 -> UINT64_MAX < x
  end.
Proof.
  intros Hk Hv. unfold align_address. set (a := 2 ^ k). assert (1 <= a) as Ha by (pose proof (Z.pow_pos_nonneg 2 k); unfold a; lia).
  assert (a <= 2 ^ 63) as Ha' by (apply Z.pow_le_mono_r; lia). unfold is_u64 in Hv.
  assert (forall x, value <= x -> x mod a = 0 -> (value + (a - 1)) / a * a <= x) as Hleast.
  { intros x Hx Hm. apply Z.mod_divide in Hm as [q ->]; [|lia]. apply Z.mul_le_mono_nonneg_r; [lia|].
    apply Z.lt_succ_r, Z.div_lt_upper_bound; lia. }
  pose proof (Z.div_mod (value + (a - 1)) a ltac:(lia)). pose proof (Z.mod_pos_bound (value + (a - 1)) a ltac:(lia)).
  change UINT64_MAX with (2 ^ 64 - 1). destruct (Z.ltb_spec (2 ^ 64 - 1 - (a - 1)) value) as [Hlt|Hge].
  - intros x Hx Hm. apply Z.mod_divide in Hm as [q ->]; [|lia].
    assert (2 ^ 64 = 2 ^ (64 - k) * a) as E by (unfold a; rewrite <- Z.pow_add_r by lia; f_equal; lia).
    enough (2 ^ (64 - k) <= q) by nia. apply Z.lt_pred_le. apply Z.mul_lt_mono_pos_r with a; lia.
  - assert (Z.land (value + (a - 1)) (not64 (a - 1)) = (value + (a - 1)) / a * a) as ->.
    { rewrite land_not64 by (unfold is_u64; lia). replace (a - 1) with (Z.ones k) at 2 by (rewrite Z.ones_equiv; unfold a; lia).
      rewrite Z.ldiff_ones_r, Z.shiftr_div_pow2, Z.shiftl_mul_pow2 by lia. done. }
    split_and!; [lia|unfold is_u64; lia|apply Z.mod_mul; lia|done].
Qed.

(** ** The search *)

Definition bar_end (bar : Z * Z) : Z := bar.1 + bar.2 - 1.

Definition bars_ok (bars : list (Z * Z)) : Prop := Forall (fun bar => region_ok bar.1 bar.2) bars.

(** A window at [base] would meet one of the BARs. *)
Definition blocked (bars : list (Z * Z)) (base size : Z) : Prop :=
  exists bar, bar ∈ bars /\ ~ disjoint_ranges base size bar.1 bar.2.

Lemma overlap_spec base size bar :
  region_ok base size -> region_ok bar.1 bar.2 ->
  ranges_overlap base size bar.1 bar.2 = true <-> ~ disjoint_ranges base size bar.1 bar.2.
Proof. intros H1 H2. rewrite <- ranges_overlap_false by done. by destruct (ranges_overlap _ _ _ _). Qed.

Lemma conflict_scan_spec bars base size greatest :
  region_ok base size -> bars_ok bars ->
  match conflict_scan bars base size greatest with
  | None => greatest = None /\ forall bar, bar ∈ bars -> disjoint_ranges base size bar.1 bar.2
  | Some last =>
      greatest = Some last \/ exists bar, bar ∈ bars /\ ~ disjoint_ranges base size bar.1 bar.2 /\ last = bar_end bar
  end.
Proof.
  intros Hr. revert greatest. induction bars as [|[ob os] bars IH]; intros greatest Hok; cbn [conflict_scan].
  { destruct greatest; [by left|]. split; [done|]. intros bar Hb%elem_of_nil. done. }
  apply Forall_cons_1 in Hok as [Ho Hok]. cbn [fst snd] in Ho.
  pose proof (overlap_spec base size (ob, os) Hr Ho) as Hov. cbn [fst snd] in Hov.
  assert (wrap64 (ob + os - 1) = bar_end (ob, os)) as Ew.
  { apply wrap64_id. unfold region_ok, UINT64_MAX in Ho. unfold is_u64, bar_end. cbn. lia. }
  specialize (IH (if ranges_overlap base size ob os then match greatest with
      | Some greatest => Some (if greatest <? bar_end (ob, os) then bar_end (ob, os) else greatest)
      | None => Some (bar_end (ob, os)) end else greatest) Hok).
  rewrite Ew. cbv zeta. destruct (conflict_scan bars base size _) as [last|].
  - destruct IH as [E|(bar & Hb & Hd & ->)].
    + destruct (ranges_overlap base size ob os); [|by left]. destruct greatest as [g|].
      * destruct (_ <? _); injection E as <-; [right|by left]. exists (ob, os). split_and!; [by left|by apply Hov|done].
      * injection E as <-. right. exists (ob, os). split_and!; [by left|by apply Hov|done].
    + right. exists bar. split_and!; [by right|done|done].
  - destruct IH as [E Hd]. destruct (ranges_overlap base size ob os) eqn:Eo; [by destruct greatest|]. split; [done|].
    intros bar [->|Hb]%elem_of_cons; [|by apply Hd]. cbn. by apply ranges_overlap_false.
Qed.

(** How many BARs end at or behind a candidate. *)
Definition bars_behind (bars : list (Z * Z)) (candidate : Z) : nat :=
  length (filter (fun bar => candidate <= bar_end bar) bars).

Lemma bars_behind_less bars candidate bar :
  bar ∈ bars -> candidate <= bar_end bar -> (bars_behind bars (bar_end bar + 1) < bars_behind bars candidate)%nat.
Proof.
  intros Hb Hc. apply list_elem_of_split in Hb as (l1 & l2 & ->). unfold bars_behind. rewrite !list.filter_app, !length_app.
  rewrite filter_cons_False by lia. rewrite filter_cons_True by done. cbn [length].
  assert (forall l, (length (filter (fun b => (bar_end bar + 1 <= bar_end b)%Z) l) <= length (filter (fun b => (candidate <= bar_end b)%Z) l))%nat) as Hm.
  { intros l. apply submseteq_length, sublist_submseteq. induction l as [|b l IH]; [done|]. rewrite !filter_cons.
    repeat case_decide; try lia; [by apply sublist_skip|by apply sublist_cons|done]. }
  pose proof (Hm l1). pose proof (Hm l2). lia.
Qed.

Section search.
Context (m : DeviceManager) (pending : list (Z * Z)) (size k : Z).
Context (size_ok : 0 < size <= UINT64_MAX) (k_ok : 0 <= k < 64) (bars_fine : bars_ok (manager_bars m ++ pending)).

Local Abbreviation bars := (manager_bars m ++ pending).

(** The addresses the search may return from [candidate] on. *)
Definition window (candidate x : Z) : Prop :=
  candidate <= x /\ x mod 2 ^ k = 0 /\ x + size - 1 <= DEVICE_MANAGER_DYNAMIC_MMIO_LIMIT.

(** First fit: the result is the least address of the window that is not
    blocked, and there is none exactly when all are. *)
Lemma allocate_bar_spec fuel candidate :
  is_u64 candidate -> (bars_behind bars candidate <= fuel)%nat ->
  match allocate_bar fuel m pending size (2 ^ k) candidate with
  | Some base => window candidate base /\ ~ blocked bars base size /\
      forall x, window candidate x -> x < base -> blocked bars x size
  | None => forall x, window candidate x -> blocked bars x size
  end.
Proof.
  revert candidate. induction fuel as [|fuel IH]; intros candidate Hc Hf; cbn [allocate_bar];
    pose proof (align_address_spec candidate k k_ok Hc) as Ha; destruct (align_address candidate (2 ^ k)) as [base|];
    try (intros x (Hx & Hm & Hl); specialize (Ha x Hx Hm); change DEVICE_MANAGER_DYNAMIC_MMIO_LIMIT with (2 ^ 64 - 1 - 262144) in Hl;
         change UINT64_MAX with (2 ^ 64 - 1) in Ha; lia).
  all: destruct Ha as (Hcb & Hb & Hm & Hleast).
  all: unfold range_end; rewrite (proj2 (Z.eqb_neq size 0)) by lia; cbn [orb].
  all: destruct (Z.ltb_spec (UINT64_MAX - (size - 1)) base) as [Hlt|Hge];
    [intros x (Hx & Hxm & Hl); specialize (Hleast x Hx Hxm); change DEVICE_MANAGER_DYNAMIC_MMIO_LIMIT with (2 ^ 64 - 1 - 262144) in Hl;
     change UINT64_MAX with (2 ^ 64 - 1) in Hlt; lia|].
  all: destruct (Z.ltb_spec DEVICE_MANAGER_DYNAMIC_MMIO_LIMIT (base + size - 1)) as [Hlt|Hle];
    [intros x (Hx & Hxm & Hl); specialize (Hleast x Hx Hxm); lia|].
  all: assert (region_ok base size) as Hr by (unfold region_ok, is_u64 in *; lia).
  all: unfold conflicting_bar_end; pose proof (conflict_scan_spec bars base size None Hr bars_fine) as Hs.
  all: destruct (conflict_scan bars base size None) as [last|];
    [|destruct Hs as [_ Hfree]; split_and!; [done|intros (bar & Hbar & []); by apply Hfree|
      intros x (Hx & Hxm & _) Hlt; specialize (Hleast x Hx Hxm); lia]].
  all: destruct Hs as [?|(bar & Hbar & Hov & ->)]; [done|].
  all: pose proof (proj1 (list.Forall_forall _ _) bars_fine bar Hbar) as Hbr; cbn in Hbr.
  all: assert (base <= bar_end bar /\ bar.1 <= base + size - 1) as [Hend Hstart]
    by (unfold disjoint_ranges, bar_end, region_ok in *; lia).
  all: assert (forall x, window candidate x -> x <= bar_end bar -> blocked bars x size) as Hskip
    by (intros x (Hx & Hxm & _) Hxe; specialize (Hleast x Hx Hxm); exists bar; split; [done|];
        unfold disjoint_ranges, bar_end, region_ok in *; lia).
  all: pose proof (bars_behind_less bars candidate bar Hbar ltac:(lia)) as Hless.
  1: lia.
  destruct (Z.eqb_spec (bar_end bar) UINT64_MAX) as [E|Hne].
  - intros x Hx. apply Hskip; [done|]. destruct Hx as (_ & _ & Hl). change DEVICE_MANAGER_DYNAMIC_MMIO_LIMIT with (2 ^ 64 - 1 - 262144) in Hl.
    change UINT64_MAX with (2 ^ 64 - 1) in E. lia.
  - specialize (IH (bar_end bar + 1)). assert (is_u64 (bar_end bar + 1)) as Hu.
    { unfold is_u64, region_ok, bar_end, UINT64_MAX in *. lia. }
    specialize (IH Hu ltac:(lia)). destruct (allocate_bar fuel m pending size (2 ^ k) (bar_end bar + 1)) as [res|].
    + destruct IH as ((Hr1 & Hr2 & Hr3) & Hnb & Hfirst). split_and!; [split_and!; [lia|done|done]|done|].
      intros x Hx Hlt. destruct (Z.le_gt_cases x (bar_end bar)); [by apply Hskip|]. apply Hfirst; [|done].
      destruct Hx as (? & ? & ?). split_and!; [lia|done|done].
    + intros x Hx. destruct (Z.le_gt_cases x (bar_end bar)); [by apply Hskip|]. apply IH.
      destruct Hx as (? & ? & ?). split_and!; [lia|done|done].
Qed.

End search.

(** ** All BARs of a device *)

(** The addresses at which a window of a given size and alignment may be. *)
Definition candidate (size alignment x : Z) : Prop :=
  DEVICE_MANAGER_DYNAMIC_MMIO_BASE <= x /\ x mod alignment = 0 /\ x + size - 1 <= DEVICE_MANAGER_DYNAMIC_MMIO_LIMIT.

(** [bars] is what first fit gives for the windows [wanted] (size and alignment)
    next to the ones already [taken]. *)
Inductive first_fit : list (Z * Z) -> list (Z * Z) -> list (Z * Z) -> Prop :=
  | first_fit_nil taken : first_fit taken [] []
  | first_fit_cons taken size alignment wanted base bars :
      candidate size alignment base -> ~ blocked taken base size ->
      (forall x, candidate size alignment x -> x < base -> blocked taken x size) ->
      first_fit (taken ++ [(base, size)]) wanted bars ->
      first_fit taken ((size, alignment) :: wanted) ((base, size) :: bars).

Definition wanted_ok (w : Z * Z) : Prop := 0 < w.1 <= UINT64_MAX /\ exists k, 0 <= k < 64 /\ w.2 = 2 ^ k.

Lemma bars_behind_bound bars c : (bars_behind bars c <= length bars)%nat.
Proof. unfold bars_behind. apply length_filter. Qed.

Lemma allocate_bars_loop_spec m wanted pending :
  bars_ok (manager_bars m ++ pending) -> Forall wanted_ok wanted ->
  match allocate_bars_loop m wanted pending with
  | Some result => exists bars, result = pending ++ bars /\ first_fit (manager_bars m ++ pending) wanted bars
  | None => exists done size alignment rest bars,
      wanted = done ++ (size, alignment) :: rest /\ first_fit (manager_bars m ++ pending) done bars /\
      forall x, candidate size alignment x -> blocked (manager_bars m ++ pending ++ bars) x size
  end.
Proof.
  revert pending. induction wanted as [|[size alignment] wanted IH]; intros pending Hok Hw; cbn [allocate_bars_loop].
  { exists []. rewrite app_nil_r. split; [done|constructor]. }
  apply Forall_cons_1 in Hw as [[Hs (k & Hk & Ek)] Hw]. cbn [fst snd] in Hs, Ek. subst alignment.
  pose proof (allocate_bar_spec m pending size k Hs Hk Hok (length (manager_bars m ++ pending)) DEVICE_MANAGER_DYNAMIC_MMIO_BASE
    ltac:(done) (bars_behind_bound _ _)) as Hspec.
  destruct (allocate_bar _ m pending size (2 ^ k) _) as [base|].
  - destruct Hspec as (Hwin & Hfree & Hleast). assert (region_ok base size) as Hr.
    { destruct Hwin as (Hlo & _ & Hhi). unfold region_ok, DEVICE_MANAGER_DYNAMIC_MMIO_BASE, DEVICE_MANAGER_DYNAMIC_MMIO_LIMIT, UINT64_MAX in *. lia. }
    specialize (IH (pending ++ [(base, size)])). rewrite app_assoc in IH.
    destruct (allocate_bars_loop m wanted _) as [result|]; cbn in IH.
    + destruct IH as (bars & -> & Hff); [|done|].
      { apply Forall_app. split; [done|]. by apply Forall_singleton. }
      exists ((base, size) :: bars). split; [by rewrite <- app_assoc|]. by constructor.
    + destruct IH as (done' & size' & alignment' & rest & bars & -> & Hff & Hblk); [|done|].
      { apply Forall_app. split; [done|]. by apply Forall_singleton. }
      exists ((size, 2 ^ k) :: done'), size', alignment', rest, ((base, size) :: bars). split_and!; [done|by constructor|].
      intros x Hx. specialize (Hblk x Hx). rewrite <- app_assoc in Hblk. exact Hblk.
  - exists [], size, (2 ^ k), wanted, []. split_and!; [done|constructor|]. intros x Hx. rewrite app_nil_r. by apply Hspec.
Qed.

(** The windows a descriptor asks for. *)
Definition wanted_bars (d : VmDeviceDescriptor) : list (Z * Z) :=
  (fun i => (field_at (desc_bar_sizes d) i, field_at (desc_bar_alignments d) i)) <$> seqZ 0 (desc_bar_count d).

(** The values of a descriptor fit their fields. *)
Definition descriptor_values (d : VmDeviceDescriptor) : Prop :=
  Forall is_u64 (desc_bar_sizes d) /\ Forall is_u64 (desc_bar_alignments d) /\ 0 <= desc_bar_count d /\ 0 <= desc_irq_count d.

Lemma field_at_u64 l i : Forall is_u64 l -> is_u64 (field_at l i).
Proof.
  intros Hl. unfold field_at. destruct (l !! Z.to_nat i) as [x|] eqn:E; [|done]. cbn.
  exact (proj1 (Forall_lookup _ _) Hl _ _ E).
Qed.

Lemma descriptor_wanted d :
  descriptor_values d -> descriptor_valid d = true ->
  Forall wanted_ok (wanted_bars d) /\ desc_bar_count d <= VM_DEVICE_MAX_BARS /\ desc_irq_count d <= VM_DEVICE_MAX_IRQS.
Proof.
  intros (Hs & Ha & Hb & Hi). unfold descriptor_valid. rewrite andb_true_iff, negb_true_iff, !orb_false_iff, !Z.ltb_ge, forallb_forall.
  intros [[[_ Hbc] Hic] Hbars]. split_and!; [|done|done]. apply Forall_fmap, list.Forall_forall. intros i Hin.
  specialize (Hbars i). rewrite <- list_elem_of_In in Hbars. specialize (Hbars Hin).
  pose proof (field_at_u64 (desc_bar_sizes d) i Hs) as Hsz. pose proof (field_at_u64 (desc_bar_alignments d) i Ha) as Hal.
  destruct (alignment_pow2 _ _ Hal Hbars) as [Hne Hk]. split; [|done]. cbn. unfold is_u64, UINT64_MAX in *. lia.
Qed.

(** * Properties *)

(** C34: address allocation is exactly first fit, and it always ends.  For any
    valid descriptor and any windows in use, every BAR gets the lowest address
    of the dynamic range that is aligned, fits and meets no window in use nor an
    earlier BAR of the same device; the request is refused only when some BAR
    has no such address at all. *)
Theorem allocate_bars_first_fit m d :
  bars_ok (manager_bars m) -> descriptor_values d -> descriptor_valid d = true ->
  match allocate_bars m d with
  | Some bars => first_fit (manager_bars m) (wanted_bars d) bars
  | None => exists done size alignment rest bars,
      wanted_bars d = done ++ (size, alignment) :: rest /\ first_fit (manager_bars m) done bars /\
      forall x, candidate size alignment x -> blocked (manager_bars m ++ bars) x size
  end.
Proof.
  intros Hok Hd Hv. destruct (descriptor_wanted d Hd Hv) as [Hw _].
  pose proof (allocate_bars_loop_spec m (wanted_bars d) [] ltac:(by rewrite app_nil_r) Hw) as Hspec.
  unfold allocate_bars. fold (wanted_bars d). rewrite app_nil_r in Hspec.
  destruct (allocate_bars_loop m (wanted_bars d) []); [|done]. by destruct Hspec as (bars & -> & ?).
Qed.

(** A device with a 4 KiB and a 64 KiB window, next to one at the base. *)
Definition demo_two_bars : VmDeviceDescriptor :=
  mkDescriptor 1 168 4 0x564D 0x1000 1 0 2 1 [4096; 65536; 0; 0] [4096; 65536; 0; 0].

Definition demo_manager : DeviceManager :=
  put_slot 0 (mkSlot true true no_descriptor (mkResources 96 1 0 [0xFFFFFFFFF0000000; 0; 0; 0] [40; 0; 0; 0] [0; 0; 0; 0]) 1 1 0)
    device_manager_init.

Lemma allocate_bars_first_fit_witness :
  allocate_bars demo_manager demo_two_bars = Some [(0xFFFFFFFFF0001000, 4096); (0xFFFFFFFFF0010000, 65536)] /\
  first_fit [(0xFFFFFFFFF0000000, 40)] [(4096, 4096); (65536, 65536)] [(0xFFFFFFFFF0001000, 4096); (0xFFFFFFFFF0010000, 65536)].
Proof.
  split; [by vm_compute|].
  pose proof (allocate_bars_first_fit demo_manager demo_two_bars) as Hff.
  assert (allocate_bars demo_manager demo_two_bars = Some [(0xFFFFFFFFF0001000, 4096); (0xFFFFFFFFF0010000, 65536)]) as E by by vm_compute.
  rewrite E in Hff. apply Hff.
  - change (manager_bars demo_manager) with [(0xFFFFFFFFF0000000, 40)]. repeat constructor; by vm_compute.
  - repeat constructor; by vm_compute.
  - by vm_compute.
Defined.
