(* ===== verification/DeviceAttach.v ===== *)
(** Attaching and detaching device modules (src/device_manager.c): what the
    manager and the bus agree on, and that every operation keeps it. *)

From S2P Require Import Prelude Ram Interrupt Bus DeviceAbi DeviceManager DeviceAlloc.
From Stdlib Require Import ZArith Lia Bool String.
From stdpp Require Import base list numbers option.

#[local] Open Scope Z_scope.

(** ** Groups of mappings on the bus *)

Section groups.
Context `{DI : DevInv D}.
Implicit Types (b : Bus D) (es : list (nat * BusMapping D)).

(** [b'] is [b] with the mappings [es] in slots that were free. *)
Record extends b es b' : Prop := {
  ex_world : bus_world b' = bus_world b;
  ex_rom : bus_rom b' = bus_rom b;
  ex_count : mapping_count b' = mapping_count b + Z.of_nat (length es);
  ex_nodup : NoDup es.*1;
  ex_free : Forall (fun e => mappings b !! e.1 = Some free_mapping) es;
  ex_mappings : mappings b' = foldr (fun e ms => <[e.1 := e.2]> ms) (mappings b) es
}.

Lemma fold_insert_other (ms : list (BusMapping D)) es k :
  k ∉ es.*1 -> foldr (fun e ms => <[e.1 := e.2]> ms) ms es !! k = ms !! k.
Proof.
  induction es as [|e es IH]; [done|]. cbn. intros [Hne Hk]%not_elem_of_cons.
  rewrite list_lookup_insert_ne by done. by apply IH.
Qed.

Lemma fold_insert_length (ms : list (BusMapping D)) es :
  length (foldr (fun e ms => <[e.1 := e.2]> ms) ms es) = length ms.
Proof. induction es as [|e es IH]; [done|]. cbn. by rewrite length_insert. Qed.

Lemma extends_nil b b' : extends b [] b' -> b' = b.
Proof. intros [H1 H2 H3 _ _ H6]. destruct b, b'. cbn in *. subst. f_equal. lia. Qed.

Lemma extends_refl b : extends b [] b.
Proof. split; try done; [cbn; lia|constructor]. Qed.

(** The first mapping of the group is there, and without it the rest is. *)
Lemma extends_head b k m es b' :
  extends b ((k, m) :: es) b' ->
  mappings b' !! k = Some m /\
  extends b es (mkBus (bus_world b') (<[k := free_mapping]> (mappings b')) (bus_rom b') (mapping_count b' - 1)).
Proof.
  intros [H1 H2 H3 [Hk Hn]%list.NoDup_cons [Hf Hfs]%Forall_cons_1 H6]. cbn in *.
  assert (foldr (fun e ms => <[e.1 := e.2]> ms) (mappings b) es !! k = Some free_mapping) as Hrest
    by (by rewrite fold_insert_other).
  pose proof (lookup_lt_Some _ _ _ Hrest). rewrite H6. split; [by rewrite list_lookup_insert_eq|].
  split; cbn; try done; [lia|]. rewrite list_insert_insert_eq. by apply list_insert_id.
Qed.

Lemma extends_elem b es b' k m : extends b es b' -> (k, m) ∈ es -> mappings b' !! k = Some m.
Proof.
  revert b'. induction es as [|[k0 m0] es IH]; intros b' He Hin; [by apply elem_of_nil in Hin|].
  pose proof (ex_nodup _ _ _ He) as [Hk0 _]%list.NoDup_cons. apply extends_head in He as [H0 He].
  apply elem_of_cons in Hin as [[= -> ->]|Hin]; [done|].
  specialize (IH _ He Hin). cbn in IH. rewrite list_lookup_insert_ne in IH; [done|].
  intros ->. apply Hk0. by apply (list_elem_of_fmap_2 fst) in Hin.
Qed.

(** Mappings outside the group stay. *)
Lemma extends_other b es b' k m :
  extends b es b' -> mappings b !! k = Some m -> map_present m = true -> mappings b' !! k = Some m.
Proof.
  intros He Hk Hp. rewrite (ex_mappings _ _ _ He), fold_insert_other; [done|].
  intros ([k' m'] & -> & Hin)%list_elem_of_fmap. pose proof (proj1 (list.Forall_forall _ _) (ex_free _ _ _ He) _ Hin) as Hf.
  cbn in *. rewrite Hf in Hk. by simplify_eq.
Qed.

(** Unmapping removes exactly the mapping with the given window. *)
Lemma bus_unmap_exact b k m :
  bus_wf b -> mappings b !! k = Some m -> map_present m = true -> is_u64 (map_base m) -> is_u64 (map_size m) ->
  bus_unmap_device b (map_base m) (map_size m) =
    (true, mkBus (bus_world b) (<[k := free_mapping]> (mappings b)) (bus_rom b) (mapping_count b - 1)).
Proof.
  intros Hb Hk Hp Hub Hus. destruct (bw_mapping b Hb k m Hk Hp) as [Hreg _ _ _]. unfold bus_unmap_device.
  rewrite (proj2 (range_valid_true _ _ Hub Hus) Hreg). cbn [negb].
  destruct (unmap_scan _ _ _ 0) as [j|] eqn:Hs.
  - destruct (unmap_scan_spec _ _ _ _ _ Hs) as (j' & m' & -> & Hj & Hp' & Eb & Es). cbn in *.
    destruct (decide (j' = k)) as [->|Hne]; [done|]. pose proof (bw_disjoint b Hb j' k m' m Hne Hj Hk Hp' Hp) as Hd.
    unfold disjoint_ranges, region_ok in *. lia.
  - exfalso. revert Hs. clear -Hk Hp. generalize 0%nat. revert k Hk.
    induction (mappings b) as [|m0 ms IH]; intros k Hk n; [done|]. cbn. destruct k as [|k]; cbn in Hk.
    + injection Hk as ->. by rewrite Hp, !Z.eqb_refl.
    + destruct (_ || _); [|done]. by eapply IH.
Qed.

(** Removing a present mapping keeps the bus well formed. *)
Lemma bus_remove_wf b k m :
  bus_wf b -> mappings b !! k = Some m -> map_present m = true -> is_u64 (map_base m) -> is_u64 (map_size m) ->
  bus_wf (mkBus (bus_world b) (<[k := free_mapping]> (mappings b)) (bus_rom b) (mapping_count b - 1)).
Proof.
  intros Hb Hk Hp Hub Hus. pose proof (bus_unmap_device_wf b (map_base m) (map_size m) Hb) as Hwf.
  by rewrite (bus_unmap_exact b k m) in Hwf.
Qed.

End groups.

(** ** What is asked of the manager's place and of the modules *)

Record descriptor_wf (d : VmDeviceDescriptor) : Prop := {
  dw_values : descriptor_values d;
  dw_fields : is_u64 (device_class d) /\ is_u64 (vendor_id d) /\ is_u64 (device_id d) /\ is_u64 (device_version d) /\
    is_u64 (desc_features d) /\ is_u64 (desc_abi_version d)
}.

Record resources_wf (r : VmDeviceResources) : Prop := {
  rw_bars : 0 <= bar_count r <= VM_DEVICE_MAX_BARS;
  rw_irqs : 0 <= irq_count r <= VM_DEVICE_MAX_IRQS;
  rw_bases : Forall is_u64 (bar_bases r);
  rw_sizes : Forall is_u64 (bar_sizes r);
  rw_lines : Forall is_u64 (irqs r)
}.

Record slot_wf (s : DeviceManagerSlot) : Prop := {
  sw_descriptor : descriptor_wf (slot_descriptor s);
  sw_resources : resources_wf (slot_resources s);
  sw_remainder : 0 <= tick_remainder_nanoseconds s < DEVICE_MODULE_TICK_NANOSECONDS
}.

Record manager_wf (m : DeviceManager) : Prop := {
  mw_slots : length (slots m) = Z.to_nat DEVICE_MANAGER_MAX_SLOTS;
  mw_slot : Forall slot_wf (slots m);
  mw_used : length (irq_used m) = Z.to_nat INTERRUPT_LINE_COUNT;
  mw_registers : is_u64 (generation m) /\ is_u64 (event_status m)
}.

Lemma empty_slot_wf : slot_wf empty_slot.
Proof. split; [split; [|done]|split|done]; repeat constructor; try done. Qed.

Lemma manager_init_wf : manager_wf device_manager_init.
Proof. split; try done. apply Forall_replicate, empty_slot_wf. Qed.

Class ManagerSlotLaws (D : Type) `{DI : DevInv D, MS : ManagerSlot D} : Prop := {
  ms_get_put d m : get_manager (put_manager m d) = m;
  ms_wf d : dev_inv d -> manager_wf (get_manager d);
  ms_put d m : dev_inv d -> manager_wf m -> dev_inv (put_manager m d)
}.

(** A module reaches guest memory and the interrupt router only through the
    manager's callbacks and its own context: it keeps the invariant of the world
    and does not touch the manager's tables; its reads are 64-bit values. *)
Definition module_step `{DI : DevInv D, MS : ManagerSlot D} (w w' : World D) : Prop :=
  world_step w w' /\ world_manager w' = world_manager w.

Class ModuleLaws `{DI : DevInv D, MS : ManagerSlot D} (modules : Z -> VmDeviceModule D) : Prop := {
  ml_descriptor p : descriptor_wf (mod_descriptor (modules p));
  ml_create p f w r c : mod_create (modules p) = Some f -> resources_wf r -> module_step w (f w r c).2;
  ml_destroy p f w x : mod_destroy (modules p) = Some f -> module_step w (f w x);
  ml_read p f w x bar off width : mod_read (modules p) = Some f -> world_wf w -> 0 <= off ->
    module_step w (f w x bar off width).2 /\ forall v, (f w x bar off width).1 = Some v -> is_u64 v;
  ml_write p f w x bar off width v : mod_write (modules p) = Some f -> world_wf w -> 0 <= off -> is_u64 v ->
    module_step w (f w x bar off width v).2;
  ml_tick p f w x ticks : mod_tick (modules p) = Some f -> is_u64 ticks -> module_step w (f w x ticks);
  ml_reset p f w x : mod_reset (modules p) = Some f -> module_step w (f w x)
}.

Section laws.
Context {D : Type} {DI : DevInv D} {MS : ManagerSlot D} {ML : ManagerSlotLaws D}.
Context {modules : Z -> VmDeviceModule D} {MOD : ModuleLaws modules}.
Implicit Types (w : World D) (b : Bus D).

Lemma world_manager_wf w : world_wf w -> manager_wf (world_manager w).
Proof. intros (_ & _ & Hd). by apply ms_wf. Qed.

Lemma update_manager_get f w : world_manager (update_manager f w) = f (world_manager w).
Proof. unfold world_manager, update_manager. cbn. apply ms_get_put. Qed.

Lemma update_manager_step f w : (manager_wf (world_manager w) -> manager_wf (f (world_manager w))) -> world_step w (update_manager f w).
Proof.
  intros Hf Hw. split; [|done]. pose proof (world_manager_wf w Hw). destruct Hw as (Hr & Hq & Hd).
  split_and!; [done|done|]. cbn. apply ms_put; [done|]. by apply Hf.
Qed.

Lemma slot_at_wf m i : manager_wf m -> slot_wf (slot_at m i).
Proof.
  intros Hm. unfold slot_at. destruct (slots m !! Z.to_nat i) as [s|] eqn:E; [|apply empty_slot_wf].
  exact (proj1 (Forall_lookup _ _) (mw_slot _ Hm) _ _ E).
Qed.

Lemma put_slot_wf i s m : slot_wf s -> manager_wf m -> manager_wf (put_slot i s m).
Proof. intros Hs [H1 H2 H3 H4]. split; cbn; [by rewrite length_insert|by apply Forall_insert|done|done]. Qed.

Lemma set_irq_used_wf used m : length used = length (irq_used m) -> manager_wf m -> manager_wf (set_irq_used used m).
Proof. intros Hl [H1 H2 H3 H4]. split; cbn; [done|done|by rewrite Hl|done]. Qed.

(** Time is neither lost nor invented: the milliseconds handed to the module and
    the rest kept add up to the time that has passed. *)
Lemma tick_split_spec ticks remainder :
  is_u64 ticks -> 0 <= remainder < DEVICE_MODULE_TICK_NANOSECONDS ->
  let '(milliseconds, remainder') := tick_split ticks remainder in
  milliseconds * DEVICE_MODULE_TICK_NANOSECONDS + remainder' = ticks + remainder /\
  0 <= remainder' < DEVICE_MODULE_TICK_NANOSECONDS /\ is_u64 milliseconds.
Proof.
  unfold tick_split, DEVICE_MODULE_TICK_NANOSECONDS, is_u64. intros Ht Hr.
  pose proof (Z.div_mod ticks 1000000 ltac:(lia)). pose proof (Z.mod_pos_bound ticks 1000000 ltac:(lia)).
  destruct (Z.leb_spec 1000000 (ticks mod 1000000 + remainder)); lia.
Qed.

Lemma tick_step index w ticks : is_u64 ticks -> world_step w (module_tick modules index w ticks).
Proof.
  intros Ht. unfold module_tick. destruct (_ =? 0); [done|]. destruct (mod_tick _) as [tick|] eqn:Et; [|done].
  set (slot := slot_at (world_manager w) index). intros Hw. pose proof (slot_at_wf _ index (world_manager_wf w Hw)) as Hs.
  pose proof (tick_split_spec ticks (tick_remainder_nanoseconds slot) Ht (sw_remainder _ Hs)) as Hsp.
  destruct (tick_split _ _) as [ms rest]. destruct Hsp as (_ & Hrest & Hms).
  assert (world_step w (update_manager (put_slot index (set_tick_remainder rest slot)) w)) as Hstep.
  { apply update_manager_step. apply put_slot_wf. destruct Hs. by split. }
  destruct (negb _); [|by apply Hstep]. destruct (Hstep Hw) as [Hw1 E1].
  destruct (ml_tick _ _ (update_manager (put_slot index (set_tick_remainder rest slot)) w) (device_context slot) ms Et Hms) as [Hst _].
  destruct (Hst Hw1) as [Hw2 E2]. split; [done|congruence].
Qed.

Lemma reset_step index w : world_step w (module_reset modules index w).
Proof.
  unfold module_reset. destruct (_ =? 0); [done|]. set (slot := slot_at (world_manager w) index).
  assert (world_step w (update_manager (put_slot index (set_tick_remainder 0 slot)) w)) as Hstep.
  { intros Hw. pose proof (slot_at_wf _ index (world_manager_wf w Hw)) as Hs. apply update_manager_step; [|done].
    apply put_slot_wf. destruct Hs. by split. }
  destruct (mod_reset _) as [reset|] eqn:Er; [|done]. etrans; [done|]. by apply (ml_reset _ _ _ _ Er).
Qed.

(** The BARs of a module are devices the bus accepts. *)
#[export] Instance bar_device_laws index bar : DeviceLaws (bar_device modules index bar).
Proof.
  split.
  - intros f w off width [= <-] Hw Ho. unfold module_bar_read. destruct (_ || _); [by split|].
    destruct (mod_read _) as [read|] eqn:Er; [|by split]. destruct (ml_read _ _ w (device_context (slot_at (world_manager w) index)) bar off width Er Hw Ho) as [[Hst _] Hv]. done.
  - intros f w off width v [= <-] Hw Ho Hv. unfold module_bar_write. destruct (_ || _); [done|].
    destruct (mod_write _) as [write|] eqn:Er; [|done]. by apply (ml_write _ _ _ _ _ _ _ _ Er Hw Ho Hv).
  - intros f w ticks. cbn. destruct (bar =? 0); [|done]. intros [= <-]. apply tick_step.
  - intros f w. cbn. destruct (bar =? 0); [|done]. intros [= <-]. apply reset_step.
Qed.

(** ** Mapping and unmapping the BARs of a module *)

Fixpoint bar_mappings (index bar : Z) (bars : list (Z * Z)) : list (BusMapping D) :=
  match bars with
  | [] => []
  | (base, size) :: bars => mkMapping base size (bar_device modules index bar) true :: bar_mappings index (bar + 1) bars
  end.

Definition bars_u64 (bars : list (Z * Z)) : Prop := Forall (fun bar => is_u64 bar.1 /\ is_u64 bar.2) bars.

Lemma extends_cons b k m es b' :
  mappings b !! k = Some free_mapping -> map_present m = true ->
  extends (mkBus (bus_world b) (<[k := m]> (mappings b)) (bus_rom b) (mapping_count b + 1)) es b' ->
  extends b ((k, m) :: es) b'.
Proof.
  intros Hk Hp [H1 H2 H3 H4 H5 H6]. cbn in *. pose proof (lookup_lt_Some _ _ _ Hk) as Hlt.
  assert (k ∉ es.*1) as Hne.
  { intros ([k' m'] & -> & Hin)%list_elem_of_fmap. pose proof (proj1 (list.Forall_forall _ _) H5 _ Hin) as Hf. cbn in Hf.
    rewrite list_lookup_insert_eq in Hf by done. by simplify_eq. }
  split; cbn; [done|done|lia|by constructor| |].
  - constructor; [done|]. apply list.Forall_forall. intros [k' m'] Hin. pose proof (proj1 (list.Forall_forall _ _) H5 _ Hin) as Hf. cbn in *.
    rewrite list_lookup_insert_ne in Hf; [done|]. intros ->. apply Hne. by apply (list_elem_of_fmap_2 fst) in Hin.
  - rewrite H6. clear -Hne. induction es as [|e es IH]; [done|]. cbn in *. apply not_elem_of_cons in Hne as [Hne Hes].
    rewrite IH by done. by apply list_insert_insert_ne.
Qed.

Lemma map_bars_spec index bar bars b :
  bus_wf b -> bars_u64 bars ->
  let '(n, b') := map_bars modules index bar bars b in
  exists es, extends b es b' /\ bus_wf b' /\ n = bar + Z.of_nat (length es) /\ (length es <= length bars)%nat /\
    es.*2 = bar_mappings index bar (take (length es) bars).
Proof.
  revert bar b. induction bars as [|[base size] bars IH]; intros bar b Hb Hu; cbn [map_bars].
  { exists []. split_and!; [apply extends_refl|done|cbn; lia|done|done]. }
  apply Forall_cons_1 in Hu as [[Hub Hus] Hu]. cbn in Hub, Hus.
  pose proof (bus_map_device_wf b base size (bar_device modules index bar) Hb Hub Hus (bar_device_laws index bar)) as Hwf.
  destruct (bus_map_device b base size (bar_device modules index bar)) as [[|] b1] eqn:E; cbn in Hwf.
  - destruct (bus_map_device_spec b base size _ b1 Hb Hub Hus E) as (k & Hk & _ & -> & _).
    specialize (IH (bar + 1) _ Hwf Hu). destruct (map_bars modules index (bar + 1) bars _) as [n b']. destruct IH as (es & Hex & Hb' & -> & Hl & E2).
    exists ((k, mkMapping base size (bar_device modules index bar) true) :: es). split_and!; [by apply extends_cons|done|cbn; lia|cbn; lia|].
    cbn. by rewrite E2.
  - assert (b1 = b) as ->. { unfold bus_map_device in E. repeat (case_match; simplify_eq; try done). }
    exists []. split_and!; [apply extends_refl|done|cbn; lia|cbn; lia|done].
Qed.

(** Unmapping a group, in the order it was mapped, gives the bus back. *)
Lemma unmap_group index bar bars es b b' :
  bus_wf b' -> extends b es b' -> es.*2 = bar_mappings index bar bars -> bars_u64 bars ->
  unmap_all bars b' = b /\ unmap_bars bar bars b' = (bar + Z.of_nat (length bars), b) /\ bus_wf b.
Proof.
  revert bar es b'. induction bars as [|[base size] bars IH]; intros bar es b' Hb He Es Hu.
  { destruct es; [|done]. apply extends_nil in He as ->. split_and!; [done| |done]. cbn. f_equal. lia. }
  destruct es as [|[k m] es]; [done|]. cbn in Es. injection Es as Em Es.
  apply Forall_cons_1 in Hu as [[Hub Hus] Hu]. cbn in Hub, Hus.
  destruct (extends_head _ _ _ _ _ He) as [Hk He']. cbn [unmap_bars]. unfold unmap_all. cbn [fold_left fst snd].
  pose proof (bus_unmap_exact b' k m Hb Hk) as Hex. pose proof (bus_remove_wf b' k m Hb Hk) as Hwf. subst m. cbn in Hex, Hwf.
  rewrite Hex by done. specialize (IH (bar + 1) es _ (Hwf eq_refl Hub Hus) He' Es Hu) as (H1 & H2 & H3).
  split_and!; [exact H1| |done]. rewrite H2. f_equal. cbn [length]. lia.
Qed.

(** ** Interrupt lines *)

Definition clear_irqs (lines : list Z) (used : list bool) : list bool :=
  fold_left (fun used line => <[Z.to_nat line := false]> used) lines used.

Lemma length_mark lines used : length (mark_irqs lines used) = length used.
Proof. unfold mark_irqs. revert used. induction lines as [|l lines IH]; intros used; [done|]. cbn. by rewrite IH, length_insert. Qed.

Lemma length_clear lines used : length (clear_irqs lines used) = length used.
Proof. unfold clear_irqs. revert used. induction lines as [|l lines IH]; intros used; [done|]. cbn. by rewrite IH, length_insert. Qed.

Lemma mark_lookup lines used l :
  0 <= l -> Forall (fun x => 0 <= x < Z.of_nat (length used)) lines ->
  mark_irqs lines used !! Z.to_nat l = if bool_decide (l ∈ lines) then Some true else used !! Z.to_nat l.
Proof.
  intros Hl. unfold mark_irqs. revert used. induction lines as [|x lines IH]; intros used Hr; [done|].
  apply Forall_cons_1 in Hr as [Hx Hr]. cbn. rewrite IH by by rewrite length_insert.
  destruct (decide (l = x)) as [->|Hne].
  - rewrite (bool_decide_eq_true_2 (x ∈ x :: lines)) by by left. rewrite list_lookup_insert_eq by lia. by destruct (bool_decide _).
  - rewrite list_lookup_insert_ne by lia. rewrite (bool_decide_ext (l ∈ x :: lines) (l ∈ lines)); [done|].
    rewrite elem_of_cons. tauto.
Qed.

Lemma clear_lookup lines used l :
  0 <= l -> Forall (fun x => 0 <= x < Z.of_nat (length used)) lines ->
  clear_irqs lines used !! Z.to_nat l = if bool_decide (l ∈ lines) then Some false else used !! Z.to_nat l.
Proof.
  intros Hl. unfold clear_irqs. revert used. induction lines as [|x lines IH]; intros used Hr; [done|].
  apply Forall_cons_1 in Hr as [Hx Hr]. cbn. rewrite IH by by rewrite length_insert.
  destruct (decide (l = x)) as [->|Hne].
  - rewrite (bool_decide_eq_true_2 (x ∈ x :: lines)) by by left. rewrite list_lookup_insert_eq by lia. by destruct (bool_decide _).
  - rewrite list_lookup_insert_ne by lia. rewrite (bool_decide_ext (l ∈ x :: lines) (l ∈ lines)); [done|].
    rewrite elem_of_cons. tauto.
Qed.

(** Lines that were free are free again after they were marked and cleared. *)
Lemma clear_mark lines used :
  Forall (fun x => 0 <= x < Z.of_nat (length used) /\ used !! Z.to_nat x = Some false) lines ->
  clear_irqs lines (mark_irqs lines used) = used.
Proof.
  intros Hr. assert (Forall (fun x => 0 <= x < Z.of_nat (length used)) lines) as Hr1 by (eapply list.Forall_impl; [exact Hr|]; by intros x []).
  apply list_eq. intros i. rewrite <- (Nat2Z.id i).
  rewrite clear_lookup by (lia || by rewrite length_mark). destruct (bool_decide_reflect (Z.of_nat i ∈ lines)) as [Hin|Hn].
  - by destruct (proj1 (list.Forall_forall _ _) Hr _ Hin).
  - rewrite mark_lookup by (lia || done). by rewrite (bool_decide_eq_false_2 _ Hn).
Qed.

Lemma free_irq_scan_spec n line used l :
  0 <= line -> free_irq_scan n line used = Some l ->
  line <= l < line + Z.of_nat n /\ used !! Z.to_nat l = Some false.
Proof.
  revert line. induction n as [|n IH]; intros line Hl; cbn [free_irq_scan]; [done|].
  destruct (used !! Z.to_nat line) as [[|]|] eqn:E; cbn.
  - intros H. apply IH in H as [? ?]; [|lia]. split; [lia|done].
  - intros [= <-]. split; [lia|done].
  - intros H. apply IH in H as [? ?]; [|lia]. split; [lia|done].
Qed.

(** A line that a module may be given. *)
Definition free_line (m : DeviceManager) (l : Z) : Prop :=
  2 <= l < INTERRUPT_EXTERNAL_LINE_COUNT /\ irq_used m !! Z.to_nat l = Some false.

Lemma free_line_range m lines :
  manager_wf m -> Forall (free_line m) lines -> Forall (fun x => 0 <= x < Z.of_nat (length (irq_used m))) lines.
Proof.
  intros Hm Hl. eapply list.Forall_impl; [exact Hl|]. intros x [Hx _]. rewrite (mw_used _ Hm). unfold INTERRUPT_EXTERNAL_LINE_COUNT in Hx.
  change (Z.of_nat (Z.to_nat INTERRUPT_LINE_COUNT)) with 64. lia.
Qed.

Lemma release_irq_step line w : 0 <= line -> world_step w (release_irq line w).
Proof.
  intros H0. unfold release_irq. destruct (_ <=? line); [done|]. etrans; [|apply update_manager_step; intros Hm; apply set_irq_used_wf; [apply length_insert|exact Hm]].
  intros Hw. destruct (w_router w) as [r|] eqn:Er; [|done]. destruct Hw as (H1 & H2 & H3).
  split; [|done]. split_and!; [done| |done]. cbn. intros r' [= <-]. apply clear_inv; [by apply H2|done].
Qed.

Lemma release_irqs_spec lines w :
  Forall (fun l => 0 <= l < INTERRUPT_EXTERNAL_LINE_COUNT) lines ->
  world_step w (release_irqs lines w) /\
  world_manager (release_irqs lines w) = set_irq_used (clear_irqs lines (irq_used (world_manager w))) (world_manager w).
Proof.
  unfold release_irqs. revert w. induction lines as [|l lines IH]; intros w Hl.
  { split; [done|]. cbn. by destruct (world_manager w). }
  apply Forall_cons_1 in Hl as [Hl Hls]. cbn [fold_left]. destruct (IH (release_irq l w) Hls) as [Hstep Em].
  split; [etrans; [apply release_irq_step, Hl|done]|]. rewrite Em.
  assert (world_manager (release_irq l w) = set_irq_used (<[Z.to_nat l := false]> (irq_used (world_manager w))) (world_manager w)) as ->; [|done].
  unfold release_irq. destruct (Z.leb_spec INTERRUPT_EXTERNAL_LINE_COUNT l); [lia|]. rewrite update_manager_get.
  by destruct (w_router w).
Qed.

Lemma allocate_irqs_spec n allocated w m :
  world_wf w -> Forall (free_line m) allocated -> NoDup allocated -> manager_wf m ->
  world_manager w = set_irq_used (mark_irqs allocated (irq_used m)) m ->
  let '(result, w') := allocate_irqs n allocated w in
  world_step w w' /\
  match result with
  | Some lines => length lines = (length allocated + n)%nat /\ Forall (free_line m) lines /\ NoDup lines /\
      world_manager w' = set_irq_used (mark_irqs lines (irq_used m)) m
  | None => world_manager w' = m
  end.
Proof.
  revert allocated w. induction n as [|n IH]; intros allocated w Hw Ha Hn Hm Em; cbn [allocate_irqs].
  { split_and!; try done. }
  pose proof (free_line_range m allocated Hm Ha) as Hrange. rewrite Em. unfold allocate_irq.
  destruct (free_irq_scan _ 2 _) as [line|] eqn:Es.
  - apply free_irq_scan_spec in Es as [Hline Hfree]; [|lia]. cbn [irq_used set_irq_used] in Hfree.
    change (2 + Z.of_nat (Z.to_nat (INTERRUPT_EXTERNAL_LINE_COUNT - 2))) with INTERRUPT_EXTERNAL_LINE_COUNT in Hline.
    rewrite mark_lookup in Hfree by (done || lia). destruct (bool_decide_reflect (line ∈ allocated)) as [|Hnot]; [done|].
    set (m1 := set_irq_used _ (set_irq_used _ m)). set (w1 := update_manager (fun _ => m1) w).
    assert (world_step w w1) as Hstep.
    { apply update_manager_step. intros _. apply set_irq_used_wf; [cbn; by rewrite length_insert|].
      apply set_irq_used_wf; [by rewrite length_mark|done]. }
    destruct (Hstep Hw) as [Hw1 _].
    assert (Forall (free_line m) (allocated ++ [line])) as Ha1 by (apply Forall_app; split; [done|by apply Forall_singleton]).
    assert (NoDup (allocated ++ [line])) as Hn1.
    { apply list.NoDup_app. split_and!; [done| |apply NoDup_singleton]. by intros x Hx ->%list_elem_of_singleton. }
    assert (world_manager w1 = set_irq_used (mark_irqs (allocated ++ [line]) (irq_used m)) m) as Em1.
    { unfold w1. rewrite update_manager_get. unfold m1, set_irq_used. cbn. f_equal. unfold mark_irqs. by rewrite fold_left_app. }
    specialize (IH (allocated ++ [line]) w1 Hw1 Ha1 Hn1 Hm Em1). destruct (allocate_irqs n _ w1) as [[lines|] w2]; destruct IH as [Hstep2 Hres].
    + split; [by etrans|]. destruct Hres as (Hl & ? & ? & ?). split_and!; try done. rewrite Hl, length_app. cbn. lia.
    + split; [by etrans|]. done.
  - assert (Forall (fun l => 0 <= l < INTERRUPT_EXTERNAL_LINE_COUNT) allocated) as Hext.
    { eapply list.Forall_impl; [exact Ha|]. intros x [Hx _]. lia. }
    destruct (release_irqs_spec allocated w Hext) as [Hstep Er]. split; [done|]. rewrite Er, Em. cbn.
    rewrite clear_mark; [by destruct m|]. apply list.Forall_forall. intros x Hx. split.
    + by apply (proj1 (list.Forall_forall _ _) Hrange).
    + by apply (proj1 (list.Forall_forall _ _) Ha).
Qed.

End laws.
