(* ===== verification/DeviceHotplug.v ===== *)
(** The device manager as a whole (src/device_manager.c): the invariant that
    ties its tables to the bus, and what attaching, detaching and publishing
    devices do to it. *)

From S2P Require Import Prelude Ram Interrupt Bus DeviceAbi DeviceManager DeviceAlloc DeviceAttach.
From Stdlib Require Import ZArith Lia Bool String.
From stdpp Require Import base list numbers option relations.

#[local] Open Scope Z_scope.

(** ** First fit, once more *)

Definition apart (bar bar' : Z * Z) : Prop := disjoint_ranges bar.1 bar.2 bar'.1 bar'.2.

Lemma apart_sym bar bar' : apart bar bar' -> apart bar' bar.
Proof. unfold apart, disjoint_ranges. lia. Qed.

Lemma not_blocked_apart taken base size :
  ~ blocked taken base size -> forall bar, bar ∈ taken -> apart (base, size) bar.
Proof.
  intros Hb bar Hin. unfold apart. cbn. destruct (decide (base + size <= bar.1)) as [|]; [by left|].
  destruct (decide (bar.1 + bar.2 <= base)) as [|]; [by right|]. exfalso. apply Hb. exists bar. split; [done|].
  unfold disjoint_ranges. lia.
Qed.

Lemma first_fit_spec taken wanted bars :
  first_fit taken wanted bars -> Forall wanted_ok wanted ->
  bars.*2 = wanted.*1 /\
  Forall (fun bar => region_ok bar.1 bar.2 /\ is_u64 bar.1 /\ is_u64 bar.2) bars /\
  (forall bar bar', bar ∈ bars -> bar' ∈ taken -> apart bar bar') /\
  (forall i j bar bar', i <> j -> bars !! i = Some bar -> bars !! j = Some bar' -> apart bar bar').
Proof.
  induction 1 as [taken|taken size alignment wanted base bars (Hlo & _ & Hhi) Hfree _ _ IH]; intros Hw.
  { split_and!; try done. by intros bar bar' Hb%elem_of_nil. }
  apply Forall_cons_1 in Hw as [[Hs _] Hw]. cbn in Hs. destruct (IH Hw) as (E2 & Hu & Ht & Hp).
  pose proof (not_blocked_apart _ _ _ Hfree) as Hhead.
  assert (forall bar, bar ∈ bars -> apart (base, size) bar) as Hrest.
  { intros bar Hb. apply apart_sym, Ht; [done|]. apply elem_of_app. right. by apply list_elem_of_singleton. }
  split_and!.
  - cbn. by rewrite E2.
  - constructor; [|done]. cbn.
    unfold region_ok, is_u64, DEVICE_MANAGER_DYNAMIC_MMIO_BASE, DEVICE_MANAGER_DYNAMIC_MMIO_LIMIT, UINT64_MAX in *. lia.
  - intros bar bar' [->|Hb]%elem_of_cons Hb'; [by apply Hhead|]. apply Ht; [done|]. apply elem_of_app. by left.
  - intros [|i] [|j] bar bar' Hne Hi Hj; cbn in Hi, Hj; [done|injection Hi as <-|injection Hj as <-|].
    + apply Hrest. by eapply list_elem_of_lookup_2.
    + apply apart_sym, Hrest. by eapply list_elem_of_lookup_2.
    + apply (Hp i j); [lia|done|done].
Qed.

(** ** Tables *)

Definition slot_irqs (s : DeviceManagerSlot) : list Z := if slot_present s then resource_irqs (slot_resources s) else [].
Definition slot_bars (s : DeviceManagerSlot) : list (Z * Z) := if slot_present s then resource_bars (slot_resources s) else [].
Definition present_irqs (m : DeviceManager) : list Z := flat_map slot_irqs (slots m).

(** A slot that a module occupies. *)
Definition plugged (s : DeviceManagerSlot) : bool := slot_present s && slot_external s.

Record tables_ok (m : DeviceManager) : Prop := {
  to_nodup : NoDup (present_irqs m);
  to_lines : Forall (fun l => 0 <= l < INTERRUPT_EXTERNAL_LINE_COUNT) (present_irqs m);
  to_used l : 0 <= l -> irq_used m !! Z.to_nat l = Some true <-> l ∈ present_irqs m;
  to_count : manager_present_count m = Z.of_nat (length (filter slot_present (slots m)));
  to_empty i s : slots m !! i = Some s -> slot_present s = false -> s = empty_slot;
  to_bars : bars_ok (manager_bars m);
  to_apart i j s s' bar bar' : i <> j -> slots m !! i = Some s -> slots m !! j = Some s' -> plugged s = true -> plugged s' = true ->
    bar ∈ resource_bars (slot_resources s) -> bar' ∈ resource_bars (slot_resources s') -> apart bar bar'
}.

(** Replacing a slot moves its part of a table. *)
Lemma flat_map_insert {A B} (f : A -> list B) l i x y :
  l !! i = Some x -> f x ++ flat_map f (<[i := y]> l) ≡ₚ f y ++ flat_map f l.
Proof.
  revert i. induction l as [|z l IH]; intros i; [done|]. destruct i as [|i]; cbn.
  - intros [= ->]. solve_Permutation.
  - intros Hi. specialize (IH i Hi). rewrite (Permutation_app_swap_app (f x)), IH, Permutation_app_swap_app. done.
Qed.

Lemma filter_insert_count l i s s' :
  l !! i = Some s ->
  Z.of_nat (length (filter slot_present (<[i := s']> l))) =
  Z.of_nat (length (filter slot_present l)) + Z.b2z (slot_present s') - Z.b2z (slot_present s).
Proof.
  revert i. induction l as [|z l IH]; intros i; [done|]. destruct i as [|i]; cbn [insert list_insert lookup list_lookup].
  - intros [= ->]. rewrite !filter_cons. destruct (slot_present s), (slot_present s'); repeat case_decide; cbn; try done; lia.
  - intros Hi. specialize (IH i Hi). rewrite !filter_cons. destruct (decide (Is_true (slot_present z))).
    + rewrite !length_cons, !Nat2Z.inj_succ. etrans; [apply (f_equal Z.succ IH)|lia].
    + exact IH.
Qed.

Lemma free_slot_scan_spec l i :
  let r := free_slot_scan l i in
  i <= r <= i + Z.of_nat (length l) /\
  (r < i + Z.of_nat (length l) -> exists s, l !! Z.to_nat (r - i) = Some s /\ slot_present s = false).
Proof.
  revert i. induction l as [|s l IH]; intros i; cbn [free_slot_scan]; [cbn; lia|].
  destruct (slot_present s) eqn:E.
  - destruct (IH (i + 1)) as [H1 H2]. cbn [length]. split; [lia|]. intros Hlt. destruct H2 as (s' & Hs & Hp); [lia|]. exists s'.
    replace (Z.to_nat (free_slot_scan l (i + 1) - i)) with (S (Z.to_nat (free_slot_scan l (i + 1) - (i + 1)))) by lia. done.
  - cbn [length]. split; [lia|]. intros _. exists s. by rewrite Z.sub_diag.
Qed.

Lemma free_slot_index_spec m :
  manager_wf m -> free_slot_index m <> DEVICE_MANAGER_MAX_SLOTS ->
  0 <= free_slot_index m < DEVICE_MANAGER_MAX_SLOTS /\
  exists s, slots m !! Z.to_nat (free_slot_index m) = Some s /\ slot_present s = false.
Proof.
  intros Hm Hne. destruct (free_slot_scan_spec (slots m) 0) as [H1 H2]. fold (free_slot_index m) in H1, H2.
  rewrite (mw_slots _ Hm) in H1, H2. unfold DEVICE_MANAGER_MAX_SLOTS in *. rewrite Z.sub_0_r in H2.
  split; [lia|]. apply H2. lia.
Qed.

(** The resources of a new module list its BARs and lines. *)
Lemma field_at_app l n x i : 0 <= i < Z.of_nat (length l) -> field_at (l ++ replicate n x) i = field_at l i.
Proof. intros Hi. unfold field_at. by rewrite lookup_app_l by lia. Qed.

Lemma fields_seq l : (fun i => field_at l i) <$> seqZ 0 (Z.of_nat (length l)) = l.
Proof.
  apply list_eq. intros i. rewrite list_lookup_fmap. destruct (decide (i < length l)%nat) as [Hlt|Hge].
  - rewrite lookup_seqZ_lt by lia. cbn. unfold field_at. rewrite Z.add_0_l, Nat2Z.id.
    destruct (lookup_lt_is_Some_2 l i Hlt) as [x ->]. done.
  - rewrite lookup_seqZ_ge by lia. by rewrite lookup_ge_None_2 by lia.
Qed.

Lemma attach_resources_bars d bars lines :
  Z.of_nat (length bars) = desc_bar_count d -> resource_bars (attach_resources d bars lines) = bars.
Proof.
  intros Hl. unfold resource_bars, attach_resources. cbn. rewrite <- Hl.
  apply list_eq. intros i. rewrite list_lookup_fmap. destruct (decide (i < length bars)%nat) as [Hlt|Hge].
  - rewrite lookup_seqZ_lt by lia. cbn. rewrite !field_at_app by (rewrite length_fmap; lia).
    unfold field_at. rewrite Z.add_0_l, Nat2Z.id, !list_lookup_fmap.
    destruct (lookup_lt_is_Some_2 bars i Hlt) as [[x y] ->]. done.
  - rewrite lookup_seqZ_ge by lia. by rewrite lookup_ge_None_2 by lia.
Qed.

Lemma attach_resources_irqs d bars lines :
  Z.of_nat (length lines) = desc_irq_count d -> resource_irqs (attach_resources d bars lines) = lines.
Proof.
  intros Hl. unfold resource_irqs, attach_resources. cbn. rewrite <- Hl. etrans; [|apply fields_seq].
  apply list_fmap_ext. intros i j Hj%lookup_seqZ. apply field_at_app. lia.
Qed.

Lemma attach_resources_wf d bars lines :
  descriptor_wf d -> desc_bar_count d <= VM_DEVICE_MAX_BARS -> desc_irq_count d <= VM_DEVICE_MAX_IRQS ->
  Forall (fun bar => is_u64 bar.1 /\ is_u64 bar.2) bars -> Forall (fun l => 0 <= l < INTERRUPT_EXTERNAL_LINE_COUNT) lines ->
  resources_wf (attach_resources d bars lines).
Proof.
  intros [(_ & _ & H1 & H2) _] Hb Hi Hbars Hlines. split; cbn; [done|done|..]; apply Forall_app; split.
  - apply Forall_fmap. eapply list.Forall_impl; [exact Hbars|]. by intros bar [].
  - by apply Forall_replicate.
  - apply Forall_fmap. eapply list.Forall_impl; [exact Hbars|]. by intros bar [].
  - by apply Forall_replicate.
  - eapply list.Forall_impl; [exact Hlines|]. intros l Hl. unfold is_u64, INTERRUPT_EXTERNAL_LINE_COUNT in *. lia.
  - by apply Forall_replicate.
Qed.

Section hotplug.
Context {D : Type} {DI : DevInv D} {MS : ManagerSlot D} {ML : ManagerSlotLaws D}.
Context (modules : Z -> VmDeviceModule D) {MOD : ModuleLaws modules}.
Implicit Types (w : World D) (b : Bus D).

Abbreviation manager_of b := (world_manager (bus_world b)).

(** The BARs of a slot are mapped, each once. *)
Definition group_mapped b (index : Z) (bars : list (Z * Z)) : Prop :=
  exists es, NoDup es.*1 /\ (forall k mp, (k, mp) ∈ es -> mappings b !! k = Some mp) /\
    es.*2 = bar_mappings (modules:=modules) index 0 bars.

(** The tables of the manager are consistent and describe the bus. *)
Record manager_bus b : Prop := {
  mb_bus : bus_wf b;
  mb_tables : tables_ok (manager_of b);
  mb_plugged i s : slots (manager_of b) !! i = Some s -> plugged s = true ->
    slot_module s <> 0 /\ group_mapped b (Z.of_nat i) (resource_bars (slot_resources s))
}.

(** The slot a module gets, before it is published. *)
Definition new_slot (p context : Z) (bars : list (Z * Z)) (lines : list Z) : DeviceManagerSlot :=
  mkSlot false true (mod_descriptor (modules p)) (attach_resources (mod_descriptor (modules p)) bars lines) p context 0.

(** Putting a slot back to empty and its lines to free undoes the allocation. *)
Lemma undo_tables m index s lines :
  manager_wf m -> tables_ok m -> 0 <= index -> (exists s0, slots m !! Z.to_nat index = Some s0 /\ slot_present s0 = false) ->
  Forall (free_line m) lines ->
  put_slot index empty_slot (set_irq_used (clear_irqs lines (irq_used (put_slot index s (set_irq_used (mark_irqs lines (irq_used m)) m))))
    (put_slot index s (set_irq_used (mark_irqs lines (irq_used m)) m))) = m.
Proof.
  intros Hm Ht Hi (s0 & Hs0 & Hp) Hl. rewrite (to_empty _ Ht _ _ Hs0 Hp) in Hs0.
  unfold put_slot, set_slots, set_irq_used. cbn. rewrite list_insert_insert_eq, list_insert_id by done.
  rewrite clear_mark; [by destruct m|]. pose proof (free_line_range m lines Hm Hl) as Hr.
  apply list.Forall_forall. intros x Hx. split; [by apply (proj1 (list.Forall_forall _ _) Hr)|].
  by apply (proj1 (list.Forall_forall _ _) Hl).
Qed.

Lemma free_lines_external m lines :
  Forall (free_line m) lines -> Forall (fun l => 0 <= l < INTERRUPT_EXTERNAL_LINE_COUNT) lines.
Proof. intros Hl. eapply list.Forall_impl; [exact Hl|]. intros x [Hx _]. lia. Qed.

(** What a failed attach leaves: the same tables and the same mappings. *)
Definition undone b b' : Prop :=
  bus_wf b' /\ manager_of b' = manager_of b /\ mappings b' = mappings b /\ mapping_count b' = mapping_count b /\ bus_rom b' = bus_rom b.

(** What a successful one adds. *)
Record attached b b' (p index : Z) (bars : list (Z * Z)) (lines : list Z) (context : Z) : Prop := {
  at_bus : bus_wf b';
  at_module : p <> 0 /\ module_valid (modules p) = true /\ context <> 0;
  at_index : 0 <= index < DEVICE_MANAGER_MAX_SLOTS;
  at_free : exists s, slots (manager_of b) !! Z.to_nat index = Some s /\ slot_present s = false;
  at_bars : first_fit (manager_bars (manager_of b)) (wanted_bars (mod_descriptor (modules p))) bars;
  at_lines : Forall (free_line (manager_of b)) lines /\ NoDup lines /\ Z.of_nat (length lines) = desc_irq_count (mod_descriptor (modules p));
  at_mapped : exists es, extends (set_world (bus_world b') b) es b' /\ es.*2 = bar_mappings (modules:=modules) index 0 bars;
  at_manager : manager_of b' = publish_slot index (put_slot index (new_slot p context bars lines)
    (set_irq_used (mark_irqs lines (irq_used (manager_of b))) (manager_of b)))
}.

Lemma set_world_undone b w :
  bus_wf b -> world_wf w -> ram_size (w_ram w) = ram_size (bus_ram b) -> world_manager w = manager_of b -> undone b (set_world w b).
Proof. intros Hb Hw Hr Em. split_and!; try done. by apply set_world_wf. Qed.

Lemma first_fit_length taken wanted bars : first_fit taken wanted bars -> length bars = length wanted.
Proof. induction 1; cbn; congruence. Qed.

Lemma length_wanted d : 0 <= desc_bar_count d -> Z.of_nat (length (wanted_bars d)) = desc_bar_count d.
Proof. intros H0. unfold wanted_bars. rewrite length_fmap, length_seqZ. lia. Qed.

Lemma publish_slot_wf index m : manager_wf m -> manager_wf (publish_slot index m).
Proof.
  intros Hm. pose proof (slot_at_wf m index Hm) as [? ? ?]. destruct Hm as [H1 H2 H3 [H4 H5]].
  split; cbn; [by rewrite length_insert|by apply Forall_insert|done|]. split; [auto with u64|]. by apply lor_u64.
Qed.

Lemma attach_spec p configuration b :
  manager_bus b ->
  let '(result, b') := attach_module modules p configuration b in
  match result with
  | None => undone b b'
  | Some index => exists bars lines context, attached b b' p index bars lines context
  end.
Proof.
  intros [Hb Ht _]. pose proof (bw_world b Hb) as Hw. pose proof (world_manager_wf _ Hw) as Hm.
  assert (undone b b) as Hsame by by split_and!.
  unfold attach_module. set (m := manager_of b) in *. set (d := mod_descriptor (modules p)).
  destruct (Z.eqb_spec p 0) as [|Hp]; [done|]. destruct (module_valid (modules p)) eqn:Hv; [|done]. cbn [orb negb].
  destruct (Z.eqb_spec (free_slot_index m) DEVICE_MANAGER_MAX_SLOTS) as [|Hidx]; [done|].
  destruct (free_slot_index_spec m Hm Hidx) as [Hrange Hfree]. set (index := free_slot_index m) in *.
  assert (descriptor_valid d = true) as Hdv.
  { revert Hv. unfold module_valid. fold d. destruct (descriptor_valid d); [done|]. by rewrite !andb_false_r. }
  pose proof (ml_descriptor (modules:=modules) p) as Hdw. fold d in Hdw.
  destruct (descriptor_wanted d (dw_values _ Hdw) Hdv) as (Hwant & Hbc & Hic).
  pose proof (allocate_bars_loop_spec m (wanted_bars d) [] ltac:(rewrite app_nil_r; apply Ht) Hwant) as Hbars.
  unfold allocate_bars. fold (wanted_bars d). rewrite app_nil_r in Hbars.
  destruct (allocate_bars_loop m (wanted_bars d) []) as [bars|]; [|done]. destruct Hbars as (bars' & -> & Hff). cbn [app].
  rename bars' into bars. destruct (first_fit_spec _ _ _ Hff Hwant) as (_ & Hbu & _).
  assert (Forall (fun bar => is_u64 bar.1 /\ is_u64 bar.2) bars) as Hu64.
  { eapply list.Forall_impl; [exact Hbu|]. by intros bar (_ & ? & ?). }
  destruct (dw_values _ Hdw) as (_ & _ & Hbc0 & Hic0).
  assert (Z.of_nat (length bars) = desc_bar_count d) as Hlen by (rewrite (first_fit_length _ _ _ Hff); by apply length_wanted).
  pose proof (allocate_irqs_spec (Z.to_nat (desc_irq_count d)) [] (bus_world b) m Hw ltac:(constructor) ltac:(constructor) Hm
    ltac:(fold m; by destruct m)) as Hirq.
  destruct (allocate_irqs _ [] (bus_world b)) as [[lines|] w1]; destruct Hirq as [Hstep1 Hirq].
  2:{ destruct (Hstep1 Hw) as [Hw1 Hr1]. by apply set_world_undone. }
  destruct Hirq as (Hll & Hfl & Hnd & Em1). cbn in Hll. pose proof (free_lines_external _ _ Hfl) as Hext.
  set (w2 := update_manager _ w1).
  assert (slot_wf (new_slot p 0 bars lines)) as Hsw.
  { split; [done| |done]. by apply attach_resources_wf. }
  assert (world_step w1 w2) as Hstep2 by by apply update_manager_step, put_slot_wf.
  assert (world_manager w2 = put_slot index (new_slot p 0 bars lines) (set_irq_used (mark_irqs lines (irq_used m)) m)) as Em2
    by (unfold w2; by rewrite update_manager_get, Em1).
  destruct (mod_create (modules p)) as [create|] eqn:Ec; [|done].
  destruct (ml_create p create w2 (attach_resources d bars lines) configuration Ec (sw_resources _ Hsw)) as [Hstep3 Em3].
  destruct (create w2 _ configuration) as [[created context] w3]. cbn [snd] in Hstep3, Em3.
  set (w4 := update_manager _ w3).
  assert (world_manager w4 = put_slot index (new_slot p context bars lines) (set_irq_used (mark_irqs lines (irq_used m)) m)) as Em4.
  { unfold w4. rewrite update_manager_get, Em3, Em2. unfold put_slot, set_slots, slot_at. cbn.
    rewrite list_lookup_insert_eq; [|rewrite (mw_slots _ Hm); lia]. cbn. by rewrite list_insert_insert_eq. }
  assert (world_step w3 w4) as Hstep4.
  { apply update_manager_step. intros Hm3. apply put_slot_wf; [|done]. pose proof (slot_at_wf _ index Hm3) as [? ? ?]. by split. }
  assert (world_wf w4 /\ ram_size (w_ram w4) = ram_size (bus_ram b)) as [Hw4 Hr4].
  { destruct (Hstep1 Hw) as [Hw1 E1]. destruct (Hstep2 Hw1) as [Hw2 E2]. destruct (Hstep3 Hw2) as [Hw3 E3]. destruct (Hstep4 Hw3) as [Hw4 E4].
    split; [done|]. unfold bus_ram. congruence. }
  assert (forall w, world_wf w -> ram_size (w_ram w) = ram_size (bus_ram b) -> world_manager w = world_manager w4 ->
    let w' := update_manager (put_slot index empty_slot) (release_irqs lines w) in
    world_wf w' /\ ram_size (w_ram w') = ram_size (bus_ram b) /\ world_manager w' = m) as Hundo.
  { intros w Hww Hrw Emw w'. destruct (release_irqs_spec lines w Hext) as [Hst Er]. destruct (Hst Hww) as [Hw5 E5].
    assert (world_step (release_irqs lines w) w') as Hst' by apply update_manager_step, put_slot_wf, empty_slot_wf.
    destruct (Hst' Hw5) as [Hw6 E6]. split_and!; [done|congruence|]. unfold w'. rewrite update_manager_get, Er, Emw, Em4.
    apply undo_tables; try done. apply Hrange. }
  destruct (negb created || (context =? 0)) eqn:Ecr.
  { destruct (Hundo w4 Hw4 Hr4 eq_refl) as (H1 & H2 & H3). by apply set_world_undone. }
  apply orb_false_iff in Ecr as [_ Hctx%Z.eqb_neq].
  pose proof (set_world_wf b w4 Hb Hw4 Hr4) as Hb4.
  pose proof (map_bars_spec (modules:=modules) index 0 bars (set_world w4 b) Hb4 Hu64) as Hmap.
  destruct (map_bars modules index 0 bars (set_world w4 b)) as [n b5]. destruct Hmap as (es & Hex & Hb5 & -> & Hle & Ees).
  pose proof (ex_world _ _ _ Hex) as Ew5. cbn in Ew5. rewrite Z.add_0_l.
  destruct (Z.eqb_spec (Z.of_nat (length es)) (desc_bar_count d)) as [Hall|Hsome].
  - assert (world_step w4 (update_manager (publish_slot index) w4)) as Hstep5 by apply update_manager_step, publish_slot_wf.
    destruct (Hstep5 Hw4) as [Hw5 E5]. rewrite take_ge in Ees by lia. exists bars, lines, context.
    assert (bus_ram b5 = w_ram w4) as Er5 by (unfold bus_ram; by rewrite Ew5).
    split; [|by split_and!|done|done|done| | |].
    + unfold on_world. rewrite Ew5. apply set_world_wf; [done|done|]. by rewrite Er5.
    + split_and!; [done|done|]. rewrite Hll. fold d. lia.
    + exists es. split; [|done]. destruct Hex as [_ H2 H3 H4 H5 H6]. by split.
    + unfold on_world. cbn. by rewrite update_manager_get, Ew5, Em4.
  - rewrite Nat2Z.id. assert (bars_u64 (take (length es) bars)) as Hu' by by apply Forall_take.
    destruct (unmap_group (modules:=modules) index 0 (take (length es) bars) es (set_world w4 b) b5 Hb5 Hex Ees Hu') as (-> & _ & _).
    cbn [bus_world set_world]. destruct (mod_destroy (modules p)) as [destroy|] eqn:Ed.
    + destruct (ml_destroy p destroy w4 context Ed) as [Hstd Emd]. destruct (Hstd Hw4) as [Hwd Erd].
      destruct (Hundo (destroy w4 context) Hwd ltac:(congruence) Emd) as (H1 & H2 & H3).
      exact (set_world_undone b _ Hb H1 H2 H3).
    + destruct (Hundo w4 Hw4 Hr4 eq_refl) as (H1 & H2 & H3). exact (set_world_undone b _ Hb H1 H2 H3).
Qed.

Lemma bar_mappings_elem index bar bars mp :
  mp ∈ bar_mappings (modules:=modules) index bar bars ->
  map_present mp = true /\ (map_base mp, map_size mp) ∈ bars.
Proof.
  revert bar. induction bars as [|[base size] bars IH]; intros bar; cbn; [by intros ?%elem_of_nil|].
  intros [->|Hin]%elem_of_cons; [split; [done|by left]|]. destruct (IH _ Hin). split; [done|by right].
Qed.

Lemma group_entry index bars (es : list (nat * BusMapping D)) k mp :
  es.*2 = bar_mappings (modules:=modules) index 0 bars -> (k, mp) ∈ es ->
  map_present mp = true /\ (map_base mp, map_size mp) ∈ bars.
Proof. intros Ees Hin. apply (bar_mappings_elem index 0). rewrite <- Ees. by apply (list_elem_of_fmap_2 snd) in Hin. Qed.

Lemma undone_inv b b' : manager_bus b -> undone b b' -> manager_bus b'.
Proof.
  intros [H1 H2 H3] (Hb' & Em & Emap & _ & _). split; [done|by rewrite Em|]. rewrite Em. intros i s Hi Hp.
  destruct (H3 i s Hi Hp) as [Hmod (es & Hn & Hes & E)]. split; [done|]. exists es. split_and!; [done| |done].
  intros k mp Hin. rewrite Emap. by apply Hes.
Qed.

(** The tables after a slot that was empty is filled with a published one. *)
Lemma publish_tables m index s used :
  manager_wf m -> tables_ok m -> 0 <= index ->
  (exists s0, slots m !! Z.to_nat index = Some s0 /\ slot_present s0 = false) ->
  let lines := resource_irqs (slot_resources s) in
  let bars := resource_bars (slot_resources s) in
  used = mark_irqs lines (irq_used m) -> NoDup lines ->
  Forall (fun l => 0 <= l < INTERRUPT_EXTERNAL_LINE_COUNT /\ irq_used m !! Z.to_nat l = Some false) lines -> bars_ok bars ->
  (slot_external s = true -> forall i s' bar bar', slots m !! i = Some s' -> plugged s' = true -> bar ∈ bars ->
     bar' ∈ resource_bars (slot_resources s') -> apart bar bar') ->
  let m' := publish_slot index (put_slot index s (set_irq_used used m)) in
  slots m' = <[Z.to_nat index := set_slot_present true s]> (slots m) /\ tables_ok m'.
Proof.
  intros Hm Ht Hi (s0 & Hs0 & Hp0) lines bars -> Hnd Hfree Hbars Hapart m'.
  pose proof (lookup_lt_Some _ _ _ Hs0) as Hlt.
  assert (slots m' = <[Z.to_nat index := set_slot_present true s]> (slots m)) as Es.
  { unfold m', publish_slot, put_slot, set_slots, slot_at. cbn. rewrite list_lookup_insert_eq by done. cbn. apply list_insert_insert_eq. }
  split; [done|].
  assert (present_irqs m' ≡ₚ lines ++ present_irqs m) as Ei.
  { unfold present_irqs. rewrite Es. pose proof (flat_map_insert slot_irqs (slots m) _ s0 (set_slot_present true s) Hs0) as Hf.
    unfold slot_irqs at 1 3 in Hf. by rewrite Hp0 in Hf. }
  assert (manager_bars m' ≡ₚ bars ++ manager_bars m) as Eb.
  { unfold manager_bars. rewrite Es. pose proof (flat_map_insert slot_bars (slots m) _ s0 (set_slot_present true s) Hs0) as Hf.
    unfold slot_bars at 1 3 in Hf. by rewrite Hp0 in Hf. }
  assert (Forall (fun x => 0 <= x < Z.of_nat (length (irq_used m))) lines) as Hr.
  { eapply list.Forall_impl; [exact Hfree|]. intros x [Hx _]. rewrite (mw_used _ Hm). unfold INTERRUPT_EXTERNAL_LINE_COUNT in Hx.
    change (Z.of_nat (Z.to_nat INTERRUPT_LINE_COUNT)) with 64. lia. }
  split.
  - rewrite Ei. apply list.NoDup_app. split_and!; [done| |apply Ht]. intros l Hl Hin.
    pose proof (proj1 (list.Forall_forall _ _) Hfree l Hl) as [Hx Hf]. cbn in Hx.
    apply (to_used _ Ht) in Hin; [congruence|lia].
  - rewrite Ei. apply Forall_app. split; [|apply Ht]. eapply list.Forall_impl; [exact Hfree|]. by intros x [].
  - intros l Hl. rewrite Ei, elem_of_app. unfold m'. cbn [irq_used publish_slot put_slot set_slots set_irq_used].
    rewrite mark_lookup by done. destruct (bool_decide_reflect (l ∈ lines)) as [Hin|Hn]; [tauto|]. rewrite (to_used _ Ht) by done. tauto.
  - rewrite Es, (filter_insert_count _ _ s0) by done. rewrite Hp0. unfold m'. cbn. rewrite (to_count _ Ht). lia.
  - intros i s' Hs' Hp. rewrite Es, list_lookup_insert in Hs'. case_decide; [by simplify_eq|]. by apply (to_empty _ Ht i).
  - unfold bars_ok. rewrite Eb. apply Forall_app. split; [done|apply Ht].
  - intros i j si sj bar bar' Hne Hsi Hsj Hpi Hpj Hbi Hbj. rewrite Es, list_lookup_insert in Hsi, Hsj.
    repeat case_decide; simplify_eq.
    + lia.
    + apply apart_sym, (Hapart Hpj i si); done.
    + apply (Hapart Hpi j sj); done.
    + by apply (to_apart _ Ht i j si sj).
Qed.

Lemma attached_inv b b' p index bars lines context :
  manager_bus b -> attached b b' p index bars lines context -> manager_bus b'.
Proof.
  intros [Hb Ht Hplug] [Hb' (Hp & Hv & Hc) Hidx Hfree Hff (Hfl & Hnd & Hll) (es & Hex & Ees) Em].
  pose proof (world_manager_wf _ (bw_world b Hb)) as Hm. pose proof (ml_descriptor (modules:=modules) p) as Hdw.
  set (d := mod_descriptor (modules p)) in *.
  assert (descriptor_valid d = true) as Hdv.
  { revert Hv. unfold module_valid. fold d. destruct (descriptor_valid d); [done|]. by rewrite !andb_false_r. }
  destruct (descriptor_wanted d (dw_values _ Hdw) Hdv) as (Hwant & _ & _).
  destruct (first_fit_spec _ _ _ Hff Hwant) as (_ & Hbu & Hap & _).
  assert (Z.of_nat (length bars) = desc_bar_count d) as Hlen.
  { rewrite (first_fit_length _ _ _ Hff). apply length_wanted. apply (dw_values _ Hdw). }
  pose proof (attach_resources_bars d bars lines Hlen) as Erb. pose proof (attach_resources_irqs d bars lines Hll) as Eri.
  destruct (publish_tables (manager_of b) index (new_slot p context bars lines) (mark_irqs lines (irq_used (manager_of b))) Hm Ht) as [Es Ht'];
    try done; cbn [slot_resources new_slot slot_external]; fold d; rewrite ?Erb, ?Eri; try done.
  - lia.
  - eapply list.Forall_impl; [exact Hfl|]. intros x [Hx Hf]. split; [lia|done].
  - eapply list.Forall_impl; [exact Hbu|]. by intros x [].
  - intros _ i s' bar bar' Hs' Hps Hin Hin'. apply Hap; [done|]. unfold manager_bars. apply list_elem_of_In, in_flat_map. exists s'.
    split; [by apply list_elem_of_In, (list_elem_of_lookup_2 _ i)|]. apply andb_true_iff in Hps as [Hps _]. rewrite Hps. by apply list_elem_of_In.
  - split; [done|by rewrite Em|]. intros i s Hi Hps. rewrite Em, Es, list_lookup_insert in Hi. case_decide as Hcase.
    + destruct Hcase as [<- _]. injection Hi as <-. split; [done|]. cbn [slot_resources set_slot_present new_slot]. fold d. rewrite Erb.
      rewrite Z2Nat.id by lia. exists es. split_and!; [apply Hex| |done]. intros k mp. by apply (extends_elem _ _ _ _ _ Hex).
    + destruct (Hplug i s Hi Hps) as [Hmod (es' & Hn' & Hes' & E')]. split; [done|]. exists es'. split_and!; [done| |done].
      intros k mp Hin. apply (extends_other _ _ _ _ _ Hex); [by apply Hes'|]. by apply (group_entry _ _ _ _ _ E' Hin).
Qed.

(** ** Detaching *)

Lemma fold_insert_elem (ms : list (BusMapping D)) (es : list (nat * BusMapping D)) k mp :
  NoDup es.*1 -> (k, mp) ∈ es -> (k < length ms)%nat -> foldr (fun e ms => <[e.1 := e.2]> ms) ms es !! k = Some mp.
Proof.
  induction es as [|[k0 m0] es IH]; [by intros _ ?%elem_of_nil|]. cbn. intros [Hk Hn]%list.NoDup_cons Hin Hlt.
  apply elem_of_cons in Hin as [[= -> ->]|Hin]; [apply list_lookup_insert_eq; by rewrite fold_insert_length|].
  rewrite list_lookup_insert_ne; [by apply IH|]. intros ->. apply Hk. by apply (list_elem_of_fmap_2 fst) in Hin.
Qed.

(** A group that is mapped can be taken away. *)
Lemma group_extends b (es : list (nat * BusMapping D)) :
  NoDup es.*1 -> (forall k mp, (k, mp) ∈ es -> mappings b !! k = Some mp) ->
  exists b0, extends b0 es b /\ forall k, k ∉ es.*1 -> mappings b0 !! k = mappings b !! k.
Proof.
  intros Hn Hes. set (fs := (fun e : nat * BusMapping D => (e.1, free_mapping (D:=D))) <$> es).
  assert (fs.*1 = es.*1) as Ek by (unfold fs; by rewrite <- list_fmap_compose).
  set (ms := foldr (fun e ms => <[e.1 := e.2]> ms) (mappings b) fs).
  exists (mkBus (bus_world b) ms (bus_rom b) (mapping_count b - Z.of_nat (length es))). split.
  2:{ cbn. intros k Hk. apply fold_insert_other. by rewrite Ek. }
  split; cbn; [done|done|lia|done| |].
  - apply list.Forall_forall. intros [k mp] Hin. cbn. apply fold_insert_elem; [by rewrite Ek| |by eapply lookup_lt_Some, Hes].
    unfold fs. apply list_elem_of_fmap. by exists (k, mp).
  - apply list_eq. intros k. destruct (decide (k ∈ es.*1)) as [Hin|Hn'].
    + apply list_elem_of_fmap in Hin as ([k' mp] & -> & Hin). cbn. rewrite (Hes _ _ Hin). symmetry.
      apply fold_insert_elem; [done|done|]. unfold ms. rewrite fold_insert_length. by eapply lookup_lt_Some, Hes.
    + rewrite fold_insert_other by done. unfold ms. rewrite fold_insert_other; [done|by rewrite Ek].
Qed.

(** The manager after the slot [index] was emptied. *)
Definition detached_manager (index : Z) (s : DeviceManagerSlot) (m : DeviceManager) : DeviceManager :=
  mkManager (<[Z.to_nat index := empty_slot]> (slots m)) (manager_present_count m - 1) (wrap64 (generation m + 1))
    (Z.lor (event_status m) VIO_HUB_EVENT_DEVICE_REMOVED) (clear_irqs (resource_irqs (slot_resources s)) (irq_used m)) (services m).

Lemma detached_tables m index s :
  manager_wf m -> tables_ok m -> slots m !! Z.to_nat index = Some s -> slot_present s = true ->
  tables_ok (detached_manager index s m).
Proof.
  intros Hm Ht Hs Hp. set (m' := detached_manager index s m). set (lines := resource_irqs (slot_resources s)).
  assert (present_irqs m ≡ₚ lines ++ present_irqs m') as Ei.
  { unfold present_irqs. cbn. pose proof (flat_map_insert slot_irqs (slots m) _ s empty_slot Hs) as Hf.
    unfold slot_irqs at 1 3 in Hf. rewrite Hp in Hf. symmetry. exact Hf. }
  assert (manager_bars m ≡ₚ resource_bars (slot_resources s) ++ manager_bars m') as Eb.
  { unfold manager_bars. cbn. pose proof (flat_map_insert slot_bars (slots m) _ s empty_slot Hs) as Hf.
    unfold slot_bars at 1 3 in Hf. rewrite Hp in Hf. symmetry. exact Hf. }
  pose proof (to_nodup _ Ht) as Hnd. rewrite Ei in Hnd. apply list.NoDup_app in Hnd as (Hn1 & Hdis & Hn2).
  pose proof (to_lines _ Ht) as Hl. rewrite Ei in Hl. apply Forall_app in Hl as [Hl1 Hl2].
  pose proof (to_bars _ Ht) as Hbars. unfold bars_ok in Hbars. rewrite Eb in Hbars. apply Forall_app in Hbars as [_ Hb2].
  assert (Forall (fun x => 0 <= x < Z.of_nat (length (irq_used m))) lines) as Hr.
  { eapply list.Forall_impl; [exact Hl1|]. intros x Hx. cbn in Hx. rewrite (mw_used _ Hm). unfold INTERRUPT_EXTERNAL_LINE_COUNT in Hx.
    change (Z.of_nat (Z.to_nat INTERRUPT_LINE_COUNT)) with 64. lia. }
  split; [done|done| | | |done|].
  - intros l Hl0. cbn [irq_used m' detached_manager]. fold lines. rewrite clear_lookup by done.
    destruct (bool_decide_reflect (l ∈ lines)) as [Hin|Hn].
    + split; [done|]. intros Hin'. by destruct (Hdis l Hin).
    + rewrite (to_used _ Ht) by done. rewrite Ei, elem_of_app. tauto.
  - cbn. rewrite (filter_insert_count _ _ s) by done. rewrite Hp, (to_count _ Ht). cbn. lia.
  - intros i s' Hs' Hps. cbn in Hs'. rewrite list_lookup_insert in Hs'. case_decide; [by simplify_eq|]. by apply (to_empty _ Ht i).
  - intros i j si sj bar bar' Hne Hsi Hsj Hpi Hpj. cbn in Hsi, Hsj. rewrite list_lookup_insert in Hsi, Hsj.
    repeat case_decide; simplify_eq; try done. by apply (to_apart _ Ht i j si sj).
Qed.

Lemma length_resource_bars r : resources_wf r -> Z.of_nat (length (resource_bars r)) = bar_count r.
Proof. intros Hr. unfold resource_bars. rewrite length_fmap, length_seqZ. pose proof (rw_bars _ Hr). lia. Qed.

Lemma resource_bars_u64 r : resources_wf r -> bars_u64 (resource_bars r).
Proof.
  intros [_ _ Hb Hs _]. apply list.Forall_forall. intros bar (i & -> & _)%list_elem_of_fmap. cbn.
  split; by apply field_at_u64.
Qed.

Lemma detach_spec index b :
  manager_bus b -> 0 <= index ->
  let s := slot_at (manager_of b) index in
  let '(ok, b') := detach_module modules index b in
  if plugged s
  then ok = true /\ manager_bus b' /\ manager_of b' = detached_manager index s (manager_of b) /\
       (exists es b0, extends b0 es b /\ es.*2 = bar_mappings (modules:=modules) index 0 (resource_bars (slot_resources s)) /\ mappings b' = mappings b0)
  else ok = false /\ b' = b.
Proof.
  intros [Hb Ht Hplug] Hi s. pose proof (bw_world b Hb) as Hw. pose proof (world_manager_wf _ Hw) as Hm.
  unfold detach_module. destruct (Z.leb_spec DEVICE_MANAGER_MAX_SLOTS index) as [Hge|Hlt].
  { assert (s = empty_slot) as ->; [|done]. unfold s, slot_at. rewrite lookup_ge_None_2; [done|]. rewrite (mw_slots _ Hm). lia. }
  fold s. destruct (plugged s) eqn:Hp.
  2:{ apply andb_false_iff in Hp as [E | E]; rewrite E; [done|]. by rewrite orb_true_r. }
  assert (slots (manager_of b) !! Z.to_nat index = Some s) as Hs.
  { unfold s, slot_at. destruct (lookup_lt_is_Some_2 (slots (manager_of b)) (Z.to_nat index)) as [s' E]; [rewrite (mw_slots _ Hm); unfold DEVICE_MANAGER_MAX_SLOTS in *; lia|].
    by rewrite E. }
  destruct (Hplug _ s Hs Hp) as [Hmod (es & Hn & Hes & Ees)]. rewrite Z2Nat.id in Ees by done.
  assert (slot_present s = true /\ slot_external s = true) as [Hpres Hext] by (by apply andb_true_iff in Hp).
  rewrite Hpres, Hext, (proj2 (Z.eqb_neq _ _) Hmod). cbn [negb orb].
  pose proof (slot_at_wf _ index Hm) as Hsw. fold s in Hsw.
  pose proof (sw_resources _ Hsw) as Hrw. destruct (group_extends b es Hn Hes) as (b0 & Hex & Hother).
  destruct (unmap_group (modules:=modules) index 0 (resource_bars (slot_resources s)) es b0 b Hb Hex Ees (resource_bars_u64 _ Hrw)) as (_ & -> & Hb0).
  rewrite Z.add_0_l, (length_resource_bars _ Hrw), Z.eqb_refl. cbn [negb].
  rewrite <- (ex_world _ _ _ Hex). set (lines := resource_irqs (slot_resources s)).
  assert (Forall (fun l => 0 <= l < INTERRUPT_EXTERNAL_LINE_COUNT) lines) as Hl.
  { apply list.Forall_forall. intros l Hin. apply (proj1 (list.Forall_forall _ _) (to_lines _ Ht)). unfold present_irqs.
    apply list_elem_of_In, in_flat_map. exists s. split; [by apply list_elem_of_In, (list_elem_of_lookup_2 _ (Z.to_nat index))|].
    apply list_elem_of_In. unfold slot_irqs. by rewrite Hpres. }
  destruct (release_irqs_spec lines (bus_world b) Hl) as [Hstep1 Em1]. set (w1 := release_irqs lines (bus_world b)) in *.
  set (w2 := match mod_destroy _ with Some destroy => _ | None => w1 end).
  assert (world_step w1 w2 /\ world_manager w2 = world_manager w1) as [Hstep2 Em2].
  { unfold w2. destruct (mod_destroy _) as [destroy|] eqn:Ed; [|done]. destruct (_ =? 0); [done|]. by apply (ml_destroy (modules:=modules) _ _ _ _ Ed). }
  set (w3 := update_manager _ w2).
  assert (world_manager w3 = detached_manager index s (manager_of b)) as Em3.
  { unfold w3. rewrite update_manager_get, Em2, Em1. done. }
  assert (world_step w2 w3) as Hstep3.
  { apply update_manager_step. intros [H1 H2 H3 [H4 H5]]. split; cbn; [by rewrite length_insert|by apply Forall_insert, empty_slot_wf|done|].
    split; [auto with u64|]. by apply lor_u64. }
  assert (world_wf w3 /\ ram_size (w_ram w3) = ram_size (bus_ram b0)) as [Hw3 Hr3].
  { destruct (Hstep1 Hw) as [Hw1 E1]. destruct (Hstep2 Hw1) as [Hw2 E2]. destruct (Hstep3 Hw2) as [Hw3 E3].
    split; [done|]. unfold bus_ram. rewrite <- (ex_world _ _ _ Hex). congruence. }
  split; [done|]. split_and!; [|done|by exists es, b0].
  split; [by apply set_world_wf|cbn [bus_world set_world]; rewrite Em3; by apply detached_tables|].
  cbn [bus_world set_world mappings]. rewrite Em3. intros i s' Hs' Hp'. cbn in Hs'. rewrite list_lookup_insert in Hs'. case_decide as Hcase; [by simplify_eq|].
  assert (i <> Z.to_nat index) as Hne.
  { intros ->. apply Hcase. split; [done|]. by eapply lookup_lt_Some. }
  destruct (Hplug i s' Hs' Hp') as [Hmod' (es' & Hn' & Hes' & Ees')]. split; [done|]. exists es'. split_and!; [done| |done].
  intros k mp Hin. cbn. rewrite Hother; [by apply Hes'|]. intros ([k' mp'] & -> & Hin'')%list_elem_of_fmap. cbn in Hin.
  pose proof (Hes _ _ Hin'') as Hk1. pose proof (Hes' _ _ Hin) as Hk2. rewrite Hk1 in Hk2. injection Hk2 as <-.
  destruct (group_entry _ _ _ _ _ Ees Hin'') as [Hpm Hb1]. destruct (group_entry _ _ _ _ _ Ees' Hin) as [_ Hb2].
  pose proof (to_apart _ Ht _ _ s' s _ _ Hne Hs' Hs Hp' Hp Hb2 Hb1) as Ha. unfold apart, disjoint_ranges in Ha. cbn in Ha.
  destruct (bw_mapping b Hb _ _ Hk1 Hpm) as [Hreg _ _ _]. unfold region_ok in Hreg. lia.
Qed.

(** ** Fixed devices *)

Lemma fixed_irqs_free_spec m lines seen :
  manager_wf m -> Forall (fun l => 0 <= l) lines -> fixed_irqs_free m lines seen = true ->
  NoDup lines /\ (forall l, l ∈ lines -> l ∉ seen) /\
  Forall (fun l => 0 <= l < INTERRUPT_EXTERNAL_LINE_COUNT /\ irq_used m !! Z.to_nat l = Some false) lines.
Proof.
  intros Hm. revert seen. induction lines as [|l lines IH]; intros seen Hpos; cbn [fixed_irqs_free].
  { intros _. split_and!; [constructor|by intros l ?%elem_of_nil|constructor]. }
  apply Forall_cons_1 in Hpos as [Hl0 Hpos]. destruct (Z.leb_spec INTERRUPT_EXTERNAL_LINE_COUNT l) as [|Hlt]; [done|]. cbn [orb].
  destruct (irq_used m !! Z.to_nat l) as [[|]|] eqn:Eu; cbn; try done.
  destruct (existsb (Z.eqb l) seen) eqn:Es; [done|]. intros Hrest. destruct (IH _ Hpos Hrest) as (Hn & Hd & Hf).
  assert (l ∉ seen) as Hns.
  { intros Hin. apply not_true_iff_false in Es. apply Es, existsb_exists. exists l. split; [by apply list_elem_of_In|apply Z.eqb_refl]. }
  split_and!.
  - constructor; [|done]. intros Hin. apply (Hd l Hin), elem_of_app. right. by apply list_elem_of_singleton.
  - intros l' [->|Hin]%elem_of_cons; [done|]. intros Hs. apply (Hd l' Hin), elem_of_app. by left.
  - by constructor.
Qed.

Lemma fixed_bars_ok d r :
  resources_wf r -> forallb (fixed_bar_valid d r) (seqZ 0 (bar_count r)) = true -> bars_ok (resource_bars r).
Proof.
  intros Hr Hall. rewrite forallb_forall in Hall. apply list.Forall_forall. intros bar (i & -> & Hi)%list_elem_of_fmap. cbn.
  specialize (Hall i ltac:(by apply list_elem_of_In)). unfold fixed_bar_valid, range_end in Hall.
  pose proof (field_at_u64 _ i (rw_bases _ Hr)) as Hb. pose proof (field_at_u64 _ i (rw_sizes _ Hr)) as Hs.
  destruct (Z.eqb_spec (field_at (bar_sizes r) i) 0) as [|Hz]; [by rewrite andb_false_r in Hall|]. cbn [orb] in Hall.
  destruct (Z.ltb_spec (UINT64_MAX - (field_at (bar_sizes r) i - 1)) (field_at (bar_bases r) i)); [by rewrite andb_false_r in Hall|].
  unfold region_ok, is_u64 in *. lia.
Qed.

Lemma publish_fixed_inv d r b :
  manager_bus b -> descriptor_wf d -> resources_wf r -> manager_bus (on_world (update_manager (fun m => (publish_fixed m d r).2)) b).
Proof.
  intros [Hb Ht Hplug] Hdw Hrw. pose proof (bw_world b Hb) as Hw. pose proof (world_manager_wf _ Hw) as Hm.
  set (m := manager_of b) in *. set (w := update_manager (fun m => (publish_fixed m d r).2) (bus_world b)).
  assert (world_manager w = (publish_fixed m d r).2) as Em by (unfold w; by rewrite update_manager_get).
  assert ((publish_fixed m d r).2 = m \/
    exists index, let s := mkSlot false false d r 0 0 0 in
      (publish_fixed m d r).2 = publish_slot index (put_slot index s (set_irq_used (mark_irqs (resource_irqs r) (irq_used m)) m)) /\
      slots (publish_fixed m d r).2 = <[Z.to_nat index := set_slot_present true s]> (slots m) /\ tables_ok (publish_fixed m d r).2) as Hcase.
  { unfold publish_fixed. destruct (negb (descriptor_valid d) || _ || _ || _) eqn:Eg; [by left|].
    destruct (Z.eqb_spec (free_slot_index m) DEVICE_MANAGER_MAX_SLOTS) as [|Hidx]; [by left|].
    destruct (free_slot_index_spec m Hm Hidx) as [Hrange Hfree].
    destruct (fixed_irqs_free m (resource_irqs r) []) eqn:Ei; [|by left]. destruct (forallb _ _) eqn:Ef; [|by left]. cbn [negb snd].
    right. exists (free_slot_index m). cbv zeta.
    destruct (fixed_irqs_free_spec m (resource_irqs r) [] Hm) as (Hn & _ & Hfl); [|done|].
    { apply list.Forall_forall. intros l (i & -> & _)%list_elem_of_fmap. apply (field_at_u64 _ i (rw_lines _ Hrw)). }
    split; [done|]. refine (publish_tables m _ (mkSlot false false d r 0 0 0) _ Hm Ht _ Hfree eq_refl Hn Hfl _ _); [lia| |done].
    by apply (fixed_bars_ok d). }
  assert (world_step (bus_world b) w) as Hstep.
  { apply update_manager_step. intros _. fold m. destruct Hcase as [->|(index & -> & _)]; [done|]. apply publish_slot_wf.
    apply put_slot_wf; [by split|]. by apply set_irq_used_wf; [rewrite length_mark|]. }
  destruct (Hstep Hw) as [Hw' Hr']. split; unfold on_world; fold w; [by apply set_world_wf| |]; cbn [bus_world set_world]; rewrite Em.
  - destruct Hcase as [->|(index & _ & _ & Ht')]; done.
  - intros i s Hs Hp. destruct Hcase as [E|(index & _ & Es & _)]; [rewrite E in Hs; by apply Hplug|].
    rewrite Es, list_lookup_insert in Hs. case_decide; [|by apply Hplug]. injection Hs as <-. done.
Qed.

(** ** Histories *)

(** The part of a slot that guest accesses and ticks leave alone. *)
Definition slot_setup (s : DeviceManagerSlot) :=
  (slot_present s, slot_external s, slot_descriptor s, slot_resources s, slot_module s, device_context s).

Record same_tables (m m' : DeviceManager) : Prop := {
  st_setup : slot_setup <$> slots m' = slot_setup <$> slots m;
  st_used : irq_used m' = irq_used m;
  st_count : manager_present_count m' = manager_present_count m;
  st_free i s s' : slots m !! i = Some s -> slots m' !! i = Some s' -> slot_present s = false -> s' = s
}.

Lemma same_tables_slot m m' i s' :
  same_tables m m' -> slots m' !! i = Some s' -> exists s, slots m !! i = Some s /\ slot_setup s' = slot_setup s.
Proof.
  intros Hs Hi. pose proof (f_equal (lookup i) (st_setup _ _ Hs)) as E. rewrite !list_lookup_fmap, Hi in E. cbn in E.
  destruct (slots m !! i) as [s|]; [|done]. injection E as E. exists s. split; [done|]. unfold slot_setup. congruence.
Qed.

Lemma same_tables_ok m m' : same_tables m m' -> tables_ok m -> tables_ok m'.
Proof.
  intros Hs Ht.
  assert (forall {A} (f : DeviceManagerSlot -> list A) g, (forall s, f s = g (slot_setup s)) -> flat_map f (slots m') = flat_map f (slots m)) as Hf.
  { intros A f g Hfg. assert (forall l, flat_map f l = flat_map g (slot_setup <$> l)) as E.
    { induction l as [|x l IH]; [done|]. cbn [flat_map fmap list_fmap]. by rewrite Hfg, IH. }
    by rewrite !E, (st_setup _ _ Hs). }
  assert (present_irqs m' = present_irqs m) as Ei.
  { apply (Hf _ slot_irqs (fun x => if x.1.1.1.1.1 then resource_irqs x.1.1.2 else [])). done. }
  assert (manager_bars m' = manager_bars m) as Eb.
  { apply (Hf _ _ (fun x => if x.1.1.1.1.1 then resource_bars x.1.1.2 else [])). done. }
  assert (length (filter slot_present (slots m')) = length (filter slot_present (slots m))) as Ec.
  { assert (forall l, length (filter slot_present l) = length (flat_map (fun s => if slot_present s then [tt] else []) l)) as E.
    { induction l as [|x l IH]; [done|]. rewrite filter_cons. cbn [flat_map]. rewrite length_app, <- IH. destruct (slot_present x) eqn:Ex; case_decide; cbn; try done; lia. }
    rewrite !E. by rewrite (Hf _ _ (fun x => if x.1.1.1.1.1 then [tt] else [])). }
  destruct Ht as [H1 H2 H3 H4 H5 H6 H7]. split.
  - by rewrite Ei.
  - by rewrite Ei.
  - intros l Hl. rewrite Ei, (st_used _ _ Hs). by apply H3.
  - by rewrite Ec, (st_count _ _ Hs).
  - intros i s' Hi Hp. destruct (same_tables_slot _ _ _ _ Hs Hi) as (s & Hsi & E).
    assert (slot_present s = false) as Hps by (unfold slot_setup in E; congruence).
    rewrite (st_free _ _ Hs i s s' Hsi Hi Hps). by apply (H5 i).
  - by rewrite Eb.
  - intros i j si sj bar bar' Hne Hi Hj Hpi Hpj.
    destruct (same_tables_slot _ _ _ _ Hs Hi) as (ti & Hti & Ei'). destruct (same_tables_slot _ _ _ _ Hs Hj) as (tj & Htj & Ej').
    unfold plugged in *. unfold slot_setup in Ei', Ej'. injection Ei' as E1 E2 _ E3 _ _. injection Ej' as E4 E5 _ E6 _ _.
    rewrite E3, E6. apply (H7 i j ti tj bar bar' Hne Hti Htj); congruence.
Qed.

(** What happens to the manager and its bus. *)
Inductive hot_step : Bus D -> Bus D -> Prop :=
  | hot_attach b p configuration : hot_step b (attach_module modules p configuration b).2
  | hot_detach b index : 0 <= index -> hot_step b (detach_module modules index b).2
  | hot_publish b d r : descriptor_wf d -> resources_wf r ->
      hot_step b (on_world (update_manager (fun m => (publish_fixed m d r).2)) b)
  | hot_guest b w : world_step (bus_world b) w -> same_tables (manager_of b) (world_manager w) -> hot_step b (set_world w b).

Lemma hot_step_inv b b' : manager_bus b -> hot_step b b' -> manager_bus b'.
Proof.
  intros Hb Hstep. revert Hb. destruct Hstep as [b0 p c|b0 index Hi|b0 d r Hd Hr|b0 w Hw Hs]; intros Hb.
  - pose proof (attach_spec p c b0 Hb) as Ha. destruct (attach_module modules p c b0) as [[index|] b1]; cbn.
    + destruct Ha as (bars & lines & context & Ha). by eapply attached_inv.
    + by eapply undone_inv.
  - pose proof (detach_spec index b0 Hb Hi) as Hd. destruct (detach_module modules index b0) as [ok b1]; cbn.
    cbv zeta in Hd. destruct (plugged _); [by destruct Hd as (_ & ? & _)|by destruct Hd as [_ ->]].
  - by apply publish_fixed_inv.
  - destruct Hb as [H1 H2 H3]. destruct (Hw (bw_world _ H1)) as [Hw' Hr]. split; cbn.
    + by apply set_world_wf.
    + by eapply same_tables_ok.
    + intros i s' Hi Hp. destruct (same_tables_slot _ _ _ _ Hs Hi) as (s & Hsi & E).
      unfold plugged, slot_setup in *. injection E as E1 E2 _ E3 E4 _. rewrite E4, E3. apply (H3 i s Hsi). unfold plugged. congruence.
Qed.

(** The callbacks that the manager puts on the bus are such guest steps. *)
Lemma module_step_guest w w' : module_step w w' -> world_step w w' /\ same_tables (world_manager w) (world_manager w').
Proof. intros [Hst Em]. split; [done|]. rewrite Em. split; try done. intros i s s' H1 H2 _. congruence. Qed.

Lemma remainder_guest w index rest :
  tables_ok (world_manager w) -> slot_module (slot_at (world_manager w) index) <> 0 ->
  same_tables (world_manager w)
    (world_manager (update_manager (put_slot index (set_tick_remainder rest (slot_at (world_manager w) index))) w)).
Proof.
  intros Ht Hmod. rewrite update_manager_get. set (m := world_manager w) in *. set (s := slot_at m index) in *.
  destruct (slots m !! Z.to_nat index) as [s0|] eqn:E.
  2:{ unfold s, slot_at in Hmod. by rewrite E in Hmod. }
  assert (s = s0) as Es by (unfold s, slot_at; by rewrite E). split; cbn; try done.
  - rewrite list_fmap_insert, list_insert_id; [done|]. rewrite list_lookup_fmap, E. cbn. by rewrite Es.
  - intros i s1 s2 H1 H2 Hp. rewrite list_lookup_insert in H2. case_decide as Hc; [|congruence].
    destruct Hc as [<- _]. rewrite E in H1. injection H1 as <-. exfalso. apply Hmod. rewrite Es.
    by rewrite (to_empty _ Ht _ _ E Hp).
Qed.

Lemma same_tables_trans m1 m2 m3 : same_tables m1 m2 -> same_tables m2 m3 -> same_tables m1 m3.
Proof.
  intros H12 H23. split.
  - by rewrite (st_setup _ _ H23), (st_setup _ _ H12).
  - by rewrite (st_used _ _ H23), (st_used _ _ H12).
  - by rewrite (st_count _ _ H23), (st_count _ _ H12).
  - intros i s1 s3 H1 H3 Hp. destruct (same_tables_slot _ _ _ _ H23 H3) as (s2 & H2 & _).
    pose proof (st_free _ _ H12 i s1 s2 H1 H2 Hp) as ->. by apply (st_free _ _ H23 i).
Qed.

Lemma module_tick_guest w index ticks :
  world_wf w -> tables_ok (world_manager w) -> is_u64 ticks ->
  world_step w (module_tick modules index w ticks) /\ same_tables (world_manager w) (world_manager (module_tick modules index w ticks)).
Proof.
  intros Hw Ht Hticks. split; [by apply tick_step|]. unfold module_tick.
  assert (same_tables (world_manager w) (world_manager w)) as Hrefl by by apply (module_step_guest w w).
  destruct (Z.eqb_spec (slot_module (slot_at (world_manager w) index)) 0) as [|Hmod]; [done|].
  destruct (mod_tick _) as [tick|] eqn:Et; [|done].
  pose proof (slot_at_wf _ index (world_manager_wf w Hw)) as Hs.
  pose proof (tick_split_spec ticks _ Hticks (sw_remainder _ Hs)) as Hsp. destruct (tick_split _ _) as [ms rest]. destruct Hsp as (_ & _ & Hms).
  pose proof (remainder_guest w index rest Ht Hmod) as Hrem. destruct (negb _); [|done]. eapply same_tables_trans; [exact Hrem|].
  apply module_step_guest. by apply (ml_tick (modules:=modules) _ _ _ _ _ Et).
Qed.

(** * Properties *)

(** C32: hot plugging keeps the machine's resources consistent.  Over any history
    of attaching and detaching modules, publishing fixed devices and guest
    activity: every interrupt line belongs to at most one device and is marked
    in use exactly when it belongs to one; the device count is right; and an
    access anywhere inside a BAR of a plugged module reaches that BAR of that
    module and nothing else. *)
Theorem hotplug_consistent b b' :
  manager_bus b -> rtc hot_step b b' ->
  let m := manager_of b' in
  NoDup (present_irqs m) /\ (forall l, 0 <= l -> irq_used m !! Z.to_nat l = Some true <-> l ∈ present_irqs m) /\
  manager_present_count m = Z.of_nat (length (filter slot_present (slots m))) /\
  forall i s j base size a width, slots m !! i = Some s -> plugged s = true ->
    resource_bars (slot_resources s) !! j = Some (base, size) ->
    base <= a -> 1 <= width -> a + width <= base + size ->
    lock_mapping_for_address b' a width = Some (mkMapping base size (bar_device modules (Z.of_nat i) (Z.of_nat j)) true).
Proof.
  intros Hb Hr. assert (manager_bus b') as [Hb' Ht Hplug]. { induction Hr as [|b1 b2 b3 Hs _ IH]; [done|]. apply IH. by eapply hot_step_inv. }
  split_and!; [apply Ht|apply Ht|apply Ht|]. intros i s j base size a width Hi Hp Hj Ha Hwd Hin.
  destruct (Hplug i s Hi Hp) as [_ (es & _ & Hes & Ees)].
  assert (forall bar bars j base size, bars !! j = Some (base, size) ->
    bar_mappings (modules:=modules) (Z.of_nat i) bar bars !! j = Some (mkMapping base size (bar_device modules (Z.of_nat i) (bar + Z.of_nat j)) true)) as Hlook.
  { clear. intros bar bars. revert bar. induction bars as [|[b0 s0] bars IH]; intros bar j base size; [done|]. destruct j as [|j]; cbn.
    - intros [= -> ->]. by rewrite Z.add_0_r.
    - intros Hj. etrans; [apply (IH (bar + 1) j base size Hj)|]. do 3 f_equal. lia. }
  specialize (Hlook 0 _ _ _ _ Hj). rewrite <- Ees, list_lookup_fmap in Hlook. rewrite Z.add_0_l in Hlook.
  destruct (es !! j) as [[k mp]|] eqn:Ek; [|done]. cbn in Hlook. injection Hlook as ->.
  pose proof (Hes k _ (list_elem_of_lookup_2 _ _ _ Ek)) as Hk. set (mp := mkMapping _ _ _ _) in *.
  assert (mapping_contains mp a width = true) as Hc by (apply mapping_contains_true; cbn; lia).
  unfold lock_mapping_for_address. destruct (find_mapping (mappings b') a width) as [m'|] eqn:Ef.
  - apply find_mapping_Some in Ef as (k' & Hk' & Hp' & Hc'). f_equal.
    assert (k' = k) as -> by exact (device_unique b' k' k m' mp a width Hb' Hk' Hk Hp' eq_refl Hwd Hc' Hc). congruence.
  - pose proof (find_mapping_None _ _ _ _ _ Ef Hk eq_refl). congruence.
Qed.

(** C33: attaching a module happens completely or not at all, and detaching
    undoes it.  When any stage fails (no slot, no address, no line, the module
    refuses, the bus refuses a window) the manager's tables and the bus are as
    before.  When it succeeds, the slot was free, the addresses are those of
    first fit, the lines were free and are now marked, and every BAR is mapped.
    Detaching a plugged module always succeeds: its mappings disappear and no
    others, its lines are free again and its slot is empty; detaching anything
    else is refused without effect. *)
Theorem attach_detach_atomic b p configuration index :
  manager_bus b -> 0 <= index ->
  (let '(result, b') := attach_module modules p configuration b in
   match result with
   | None => undone b b'
   | Some i => exists bars lines context, attached b b' p i bars lines context
   end) /\
  (let s := slot_at (manager_of b) index in
   let '(ok, b') := detach_module modules index b in
   if plugged s
   then ok = true /\ manager_of b' = detached_manager index s (manager_of b) /\
     exists es b0, extends b0 es b /\ es.*2 = bar_mappings (modules:=modules) index 0 (resource_bars (slot_resources s)) /\ mappings b' = mappings b0
   else ok = false /\ b' = b).
Proof.
  intros Hb Hi. split; [by apply attach_spec|]. pose proof (detach_spec index b Hb Hi) as Hd. cbv zeta in *.
  destruct (detach_module modules index b) as [ok b']. destruct (plugged _); [|done]. by destruct Hd as (? & _ & ? & ?).
Qed.

End hotplug.
