(* ===== verification/Counter.v ===== *)
(** The sample device module devices/sample_counter/sample_counter.c, as a
    module of the device manager.

    A created device is an address in the host's memory; [CounterSlot] is the
    place of the device contexts that holds the counters by address, with what
    the next [malloc] returns. *)

From S2P Require Import Prelude Ram Interrupt Bus DeviceAbi DeviceManager DeviceAlloc DeviceAttach DeviceHotplug.
From Stdlib Require Import ZArith Lia Bool String.
From stdpp Require Import base list numbers option relations gmap.

#[local] Open Scope Z_scope.

Definition COUNTER_VALUE_OFFSET : Z := 0.
Definition COUNTER_STEP_OFFSET : Z := 8.
Definition COUNTER_COMPARE_OFFSET : Z := 16.
Definition COUNTER_CONTROL_OFFSET : Z := 24.
Definition COUNTER_STATUS_OFFSET : Z := 32.
Definition COUNTER_MMIO_SIZE : Z := 40.
Definition COUNTER_CONTROL_ENABLE : Z := Z.shiftl 1 0.
Definition COUNTER_CONTROL_IRQ_ENABLE : Z := Z.shiftl 1 1.
Definition COUNTER_STATUS_PENDING : Z := Z.shiftl 1 0.

Record CounterDevice := mkCounter {
  counter_value : Z;
  counter_step : Z;
  counter_compare : Z;
  counter_control : Z;
  counter_status : Z;
  counter_irq : Z;
}.

Definition counter_read (c : CounterDevice) (bar offset width : Z) : option Z :=
  if negb (bar =? 0) || negb (width =? 8) then None
  else if offset =? COUNTER_VALUE_OFFSET then Some (counter_value c)
  else if offset =? COUNTER_STEP_OFFSET then Some (counter_step c)
  else if offset =? COUNTER_COMPARE_OFFSET then Some (counter_compare c)
  else if offset =? COUNTER_CONTROL_OFFSET then Some (counter_control c)
  else if offset =? COUNTER_STATUS_OFFSET then Some (counter_status c)
  else None.

Definition counter_write (c : CounterDevice) (bar offset width value : Z) : bool * CounterDevice :=
  let '(mkCounter v step compare control status irq) := c in
  if negb (bar =? 0) || negb (width =? 8) then (false, c)
  else if offset =? COUNTER_VALUE_OFFSET then (true, mkCounter value step compare control status irq)
  else if offset =? COUNTER_STEP_OFFSET then (true, mkCounter v value compare control status irq)
  else if offset =? COUNTER_COMPARE_OFFSET then (true, mkCounter v step value control status irq)
  else if offset =? COUNTER_CONTROL_OFFSET then
    (true, mkCounter v step compare (Z.land value (Z.lor COUNTER_CONTROL_ENABLE COUNTER_CONTROL_IRQ_ENABLE)) status irq)
  else if offset =? COUNTER_STATUS_OFFSET then
    (true, if has_bits value COUNTER_STATUS_PENDING
           then mkCounter v step compare control (Z.land status (not64 COUNTER_STATUS_PENDING)) irq else c)
  else (false, c).

(** The counter after [ticks] milliseconds, and whether its line is raised. *)
Definition counter_advance (c : CounterDevice) (ticks : Z) : CounterDevice * bool :=
  let '(mkCounter v step compare control status irq) := c in
  if (ticks =? 0) || negb (has_bits control COUNTER_CONTROL_ENABLE) then (c, false)
  else
    let v := wrap64 (v + wrap64 (step * ticks)) in
    if (compare =? 0) || (v <? compare) then (mkCounter v step compare control status irq, false)
    else
      let status := Z.lor status COUNTER_STATUS_PENDING in
      let control := Z.land control (not64 COUNTER_CONTROL_ENABLE) in
      (mkCounter v step compare control status irq, has_bits control COUNTER_CONTROL_IRQ_ENABLE).

Definition counter_reset (c : CounterDevice) : CounterDevice := mkCounter 0 1 0 0 0 (counter_irq c).

Class CounterSlot (D : Type) := {
  get_counters : D -> gmap Z CounterDevice;
  put_counters : gmap Z CounterDevice -> D -> D;
  counter_malloc : D -> Z
}.

Section counter_module.
Context {D : Type} {MS : ManagerSlot D} {CS : CounterSlot D}.
Implicit Types w : World D.

Definition world_counters w : gmap Z CounterDevice := get_counters (w_dev w).
Definition set_counters v w : World D := set_w_dev (put_counters v (w_dev w)) w.

Definition counter_create w (resources : VmDeviceResources) (configuration : string) : bool * Z * World D :=
  if (res_struct_size resources <? sizeof_VmDeviceResources) || negb (bar_count resources =? 1) || negb (irq_count resources =? 1)
  then (false, 0, w)
  else
    let device := counter_malloc (w_dev w) in
    if device =? 0 then (false, 0, w)
    else (true, device, set_counters (<[device := mkCounter 0 1 0 0 0 (field_at (irqs resources) 0)]> (world_counters w)) w).

Definition counter_destroy w (device : Z) : World D := set_counters (delete device (world_counters w)) w.

Definition counter_module_read w (device bar offset width : Z) : option Z * World D :=
  match world_counters w !! device with
  | Some c => (counter_read c bar offset width, w)
  | None => (None, w)
  end.

Definition counter_module_write w (device bar offset width value : Z) : bool * World D :=
  match world_counters w !! device with
  | Some c => let '(ok, c) := counter_write c bar offset width value in (ok, set_counters (<[device := c]> (world_counters w)) w)
  | None => (false, w)
  end.

Definition counter_tick w (device ticks : Z) : World D :=
  match world_counters w !! device with
  | Some c =>
      let '(c, fires) := counter_advance c ticks in
      let w := set_counters (<[device := c]> (world_counters w)) w in
      if fires then (host_raise_irq w (counter_irq c)).2 else w
  | None => w
  end.

Definition counter_module_reset w (device : Z) : World D :=
  match world_counters w !! device with
  | Some c => set_counters (<[device := counter_reset c]> (world_counters w)) w
  | None => w
  end.

Definition COUNTER_MODULE : VmDeviceModule D :=
  mkModule D VM_DEVICE_ABI_VERSION sizeof_VmDeviceModule
    (mkDescriptor VM_DEVICE_ABI_VERSION sizeof_VmDeviceDescriptor 0xFFFF 0x564D 1 1 0 1 1 [COUNTER_MMIO_SIZE; 0; 0; 0] [4096; 0; 0; 0])
    (Some counter_create) (Some counter_destroy) (Some counter_module_read) (Some counter_module_write)
    (Some counter_tick) (Some counter_module_reset).

End counter_module.

(** ** The counter keeps the manager's rules *)

Record counter_wf (c : CounterDevice) : Prop := {
  cw_registers : is_u64 (counter_value c) /\ is_u64 (counter_step c) /\ is_u64 (counter_compare c) /\ is_u64 (counter_control c) /\
    is_u64 (counter_status c);
  cw_irq : 0 <= counter_irq c
}.

Definition counters_wf (m : gmap Z CounterDevice) : Prop := map_Forall (fun _ c => counter_wf c) m.

Class CounterSlotLaws (D : Type) `{DI : DevInv D, MS : ManagerSlot D, CS : CounterSlot D} : Prop := {
  cs_wf d : dev_inv d -> counters_wf (get_counters d);
  cs_put d v : dev_inv d -> counters_wf v -> dev_inv (put_counters v d);
  cs_manager d v : get_manager (put_counters v d) = get_manager d
}.

Lemma counter_write_wf c bar offset width value : counter_wf c -> is_u64 value -> counter_wf (counter_write c bar offset width value).2.
Proof.
  intros [(H1 & H2 & H3 & H4 & H5) H6] Hv. destruct c as [v step compare control status irq]. cbn in *. unfold counter_write.
  repeat case_match; cbn [snd]; (split; [|done]); cbn; split_and!; auto with u64; by apply land_u64.
Qed.

Lemma counter_advance_wf c ticks : counter_wf c -> counter_wf (counter_advance c ticks).1 /\ counter_irq (counter_advance c ticks).1 = counter_irq c.
Proof.
  intros [(H1 & H2 & H3 & H4 & H5) H6]. destruct c as [v step compare control status irq]. cbn in *. unfold counter_advance.
  repeat case_match; cbn [fst]; (split; [|done]); (split; [|done]); cbn; split_and!; auto with u64; by apply lor_u64.
Qed.

(** The sample device does what the device interface asks of a module. *)
#[export] Instance counter_module_laws `{DI : DevInv D, MS : ManagerSlot D, CS : CounterSlot D, !CounterSlotLaws D} :
  ModuleLaws (fun _ => COUNTER_MODULE (D:=D)).
Proof.
  assert (forall (w : World D) v, (world_wf w -> counters_wf v) -> module_step w (set_counters v w)) as Hset.
  { intros w v Hv. split.
    - intros Hw. split; [|done]. specialize (Hv Hw). destruct Hw as (? & ? & ?). split_and!; [done|done|]. by apply cs_put.
    - unfold world_manager. cbn. apply cs_manager. }
  assert (forall (w : World D), module_step w w) as Hrefl by by split.
  assert (forall (w : World D), world_wf w -> counters_wf (world_counters w)) as Hwf by (intros w (_ & _ & Hd); by apply cs_wf).
  split.
  - intros _. by split; [repeat constructor|].
  - intros _ f w r c [= <-] Hr. unfold counter_create. destruct (_ || _); [done|]. destruct (_ =? 0); [done|]. cbn [snd].
    apply Hset. intros Hw. apply map_Forall_insert_2; [|by apply Hwf]. split; [by split_and!|].
    apply (field_at_u64 _ 0 (rw_lines _ Hr)).
  - intros _ f w x [= <-]. apply Hset. intros Hw. by apply map_Forall_delete, Hwf.
  - intros _ f w x bar off width [= <-] Hw Ho. unfold counter_module_read. destruct (world_counters w !! x) as [c|] eqn:E; [|done].
    split; [done|]. cbn. destruct (Hwf w Hw x c E) as [(? & ? & ? & ? & ?) _]. unfold counter_read. intros v.
    repeat case_match; intros; simplify_eq; done.
  - intros _ f w x bar off width v [= <-] Hw Ho Hv. unfold counter_module_write. destruct (world_counters w !! x) as [c|] eqn:E; [|done].
    pose proof (counter_write_wf c bar off width v (Hwf w Hw x c E) Hv) as Hc. destruct (counter_write c bar off width v) as [ok c']. cbn in *.
    apply Hset. intros _. apply map_Forall_insert_2; [done|by apply Hwf].
  - intros _ f w x ticks [= <-] _. unfold counter_tick. destruct (world_counters w !! x) as [c|] eqn:E; [|done].
    pose proof (counter_advance_wf c ticks) as Hc. destruct (counter_advance c ticks) as [c' fires]. cbn [fst] in Hc.
    set (w1 := set_counters _ w). assert (module_step w w1) as [Hst Em].
    { apply Hset. intros Hw. apply map_Forall_insert_2; [by apply Hc, (Hwf w Hw x)|by apply Hwf]. }
    destruct fires; [|done]. unfold host_raise_irq. destruct (w_router w1) as [r|] eqn:Er; [|done].
    destruct (interrupt_router_raise r (counter_irq c')) as [ok r'] eqn:Eq. cbn [snd]. split; [|done].
    intros Hw. destruct (Hst Hw) as [Hw1 Es]. split; [|done]. destruct Hw1 as (A & B & C). split_and!; [done| |done].
    cbn. intros r0 [= <-]. replace r' with (interrupt_router_raise r (counter_irq c')).2 by by rewrite Eq.
    apply raise_inv; [by apply B|]. apply (cw_irq c'). by apply Hc, (Hwf w Hw x).
  - intros _ f w x [= <-]. unfold counter_module_reset. destruct (world_counters w !! x) as [c|] eqn:E; [|done].
    apply Hset. intros Hw. apply map_Forall_insert_2; [|by apply Hwf]. destruct (Hwf w Hw x c E) as [_ Hi]. by split.
Qed.

(** * A machine with two counters *)

Record HotContexts := mkHot { hc_manager : DeviceManager; hc_counters : gmap Z CounterDevice }.

#[export] Instance hot_manager : ManagerSlot HotContexts := {
  get_manager := hc_manager;
  put_manager m d := mkHot m (hc_counters d)
}.
#[export] Instance hot_counter : CounterSlot HotContexts := {
  get_counters := hc_counters;
  put_counters v d := mkHot (hc_manager d) v;
  counter_malloc d := 1 + map_fold (fun k _ top => Z.max k top) 0 (hc_counters d)
}.
#[export] Instance hot_inv : DevInv HotContexts := fun d => manager_wf (hc_manager d) /\ counters_wf (hc_counters d).

#[export] Instance hot_manager_laws : ManagerSlotLaws HotContexts.
Proof. split; [done|by intros d []|intros d m [_ ?] ?; by split]. Qed.

#[export] Instance hot_counter_laws : CounterSlotLaws HotContexts.
Proof. split; [by intros d []|intros d v [? _] ?; by split|done]. Qed.

Definition hot_modules (p : Z) : VmDeviceModule HotContexts := COUNTER_MODULE.

#[export] Instance hot_modules_laws : ModuleLaws hot_modules.
Proof. exact counter_module_laws. Qed.

Definition hot_bus : Bus HotContexts := bus_init (mkWorld demo_ram (interrupt_router_init [0]) (mkHot device_manager_init ∅)).

Lemma hot_bus_ok : manager_bus hot_modules hot_bus.
Proof.
  split.
  - apply bus_init_wf. split; [apply demo_ram_wf|split].
    + intros r Hr. apply (router_init_inv [0]); [by repeat constructor|done|done].
    + split; [apply manager_init_wf|]. apply map_Forall_empty.
  - change (world_manager (bus_world hot_bus)) with device_manager_init.
    assert (forall (A : Type) (f : DeviceManagerSlot -> list A), f empty_slot = [] -> flat_map f (slots device_manager_init) = []) as Hf.
    { intros A f E. unfold device_manager_init. cbn [slots]. generalize (Z.to_nat DEVICE_MANAGER_MAX_SLOTS).
      intros n. induction n as [|n IH]; [done|]. cbn [replicate flat_map]. by rewrite E, IH. }
    split.
    + unfold present_irqs. rewrite Hf by done. constructor.
    + unfold present_irqs. rewrite Hf by done. constructor.
    + intros l Hl. unfold present_irqs. rewrite Hf by done. cbn [irq_used device_manager_init]. rewrite lookup_replicate. split; [by intros []|by intros ?%elem_of_nil].
    + done.
    + intros i s Hi _. by apply lookup_replicate in Hi as [-> _].
    + unfold manager_bars. rewrite Hf by done. constructor.
    + intros i j s s' bar bar' _ Hi _ Hp. apply lookup_replicate in Hi as [-> _]. done.
  - intros i s Hi Hp. cbn [bus_world hot_bus bus_init w_dev] in Hi. change (world_manager _) with device_manager_init in Hi.
    apply lookup_replicate in Hi as [-> _]. done.
Qed.

(** Two counters are attached and the first is detached. *)
Definition hot_one : Bus HotContexts := (attach_module hot_modules 1 "" hot_bus).2.
Definition hot_two : Bus HotContexts := (attach_module hot_modules 2 "" hot_one).2.
Definition hot_left : Bus HotContexts := (detach_module hot_modules 0 hot_two).2.

Lemma hot_left_steps : rtc (hot_step hot_modules) hot_bus hot_left.
Proof.
  eapply rtc_l; [apply (hot_attach hot_modules hot_bus 1 "")|].
  eapply rtc_l; [apply (hot_attach hot_modules hot_one 2 "")|].
  eapply rtc_l; [by apply (hot_detach hot_modules hot_two 0)|]. apply rtc_refl.
Qed.

Lemma hotplug_consistent_witness :
  present_irqs (world_manager (bus_world hot_left)) = [3] /\
  lock_mapping_for_address hot_left 0xFFFFFFFFF0001008 8 =
    Some (mkMapping 0xFFFFFFFFF0001000 40 (bar_device hot_modules 1 0) true).
Proof.
  split; [by vm_compute|].
  destruct (hotplug_consistent hot_modules hot_bus hot_left hot_bus_ok hot_left_steps) as (_ & _ & _ & Hbar).
  apply (Hbar 1%nat (slot_at (world_manager (bus_world hot_left)) 1) 0%nat 0xFFFFFFFFF0001000 40 0xFFFFFFFFF0001008 8).
  - by vm_compute.
  - by vm_compute.
  - by vm_compute.
  - lia.
  - lia.
  - lia.
Defined.

Lemma attach_detach_atomic_witness :
  (attach_module hot_modules 1 "" hot_bus).1 = Some 0 /\
  (exists bars lines context, attached hot_modules hot_bus hot_one 1 0 bars lines context) /\
  (detach_module hot_modules 0 hot_bus).1 = false.
Proof.
  assert ((attach_module hot_modules 1 "" hot_bus).1 = Some 0) as E by by vm_compute. split; [done|].
  pose proof (attach_detach_atomic hot_modules hot_bus 1 "" 0 hot_bus_ok ltac:(lia)) as [Ha Hd]. split.
  - unfold hot_one. destruct (attach_module hot_modules 1 "" hot_bus) as [r b']. cbn in E. subst r. exact Ha.
  - cbv zeta in Hd. destruct (detach_module hot_modules 0 hot_bus) as [ok b']. cbn [fst].
    change (plugged (slot_at (world_manager (bus_world hot_bus)) 0)) with false in Hd. apply Hd.
Defined.
