(* ===== verification/CpuArith.v ===== *)
(** What the arithmetic instructions compute: flags and conditions against
    signed and unsigned comparison, signed division, shifts and extensions
    against their mathematical meaning. *)

From S2P Require Import Prelude Ram Mmu Interrupt Bus Isa CpuCore CpuInv CpuExec CpuVector Cpu CpuSafety CpuStep CpuIsolation CpuPrecise.
From stdpp Require Import base list numbers option.
From Stdlib Require Import ZArith Lia Bool.

#[local] Open Scope Z_scope.
#[local] Open Scope exec_scope.

(** ** The sign bit *)

Lemma testbit_63 x : is_u64 x -> Z.testbit x 63 = (0x8000000000000000 <=? x).
Proof.
  intros Hx. unfold is_u64 in Hx. rewrite Z.testbit_odd, Z.shiftr_div_pow2 by lia.
  change (2 ^ 63) with 0x8000000000000000. destruct (Z.leb_spec 0x8000000000000000 x).
  - assert (x / 0x8000000000000000 = 1) as -> by (Z.to_euclidean_division_equations; lia). done.
  - rewrite Z.div_small by lia. done.
Qed.

Lemma has_sign x : is_u64 x -> has_bits x SIGN_BIT = (0x8000000000000000 <=? x).
Proof. intros Hx. rewrite <-testbit_63 by done. apply (has_bits_pow2 x 63). lia. Qed.

Lemma signed64_sign x : is_u64 x -> signed64 x = if has_bits x SIGN_BIT then x - 0x10000000000000000 else x.
Proof.
  intros Hx. rewrite has_sign by done. unfold signed64.
  destruct (Z.ltb_spec x 0x8000000000000000), (Z.leb_spec 0x8000000000000000 x); lia.
Qed.

(** Two's complement negation. *)
Lemma not_plus_one x : is_u64 x -> wrap64 (not64 x + 1) = wrap64 (- x).
Proof. intros Hx. unfold not64, Z.lnot. zlia. Qed.

Lemma magnitude_abs x : is_u64 x -> twos_complement_magnitude x = Z.abs (signed64 x).
Proof.
  intros Hx. unfold twos_complement_magnitude. rewrite not_plus_one by done.
  rewrite (signed64_sign x) by done. rewrite has_sign by done. unfold is_u64, wrap64 in *.
  destruct (Z.leb_spec 0x8000000000000000 x); [|lia]. Z.to_euclidean_division_equations. lia.
Qed.

Lemma apply_sign_signed m b :
  0 <= m <= 0x8000000000000000 -> (b = false -> m < 0x8000000000000000) ->
  signed64 (apply_twos_complement_sign m b) = if b then - m else m.
Proof.
  intros Hm Hb. unfold apply_twos_complement_sign. destruct b.
  - rewrite not_plus_one by (unfold is_u64; lia). unfold signed64, wrap64.
    destruct (Z.ltb_spec (- m mod 0x10000000000000000) 0x8000000000000000);
      Z.to_euclidean_division_equations; lia.
  - unfold signed64. destruct (Z.ltb_spec m 0x8000000000000000); [done|]. specialize (Hb eq_refl). lia.
Qed.

Lemma lxor_sign x y : is_u64 x -> is_u64 y ->
  has_bits (Z.lxor x y) SIGN_BIT = xorb (has_bits x SIGN_BIT) (has_bits y SIGN_BIT).
Proof.
  intros Hx Hy. change SIGN_BIT with (2 ^ 63). rewrite !has_bits_pow2 by lia. apply Z.lxor_spec.
Qed.

Lemma land_sign x y : is_u64 x -> is_u64 y ->
  has_bits (Z.land x y) SIGN_BIT = has_bits x SIGN_BIT && has_bits y SIGN_BIT.
Proof.
  intros Hx Hy. change SIGN_BIT with (2 ^ 63). rewrite !has_bits_pow2 by lia. apply Z.land_spec.
Qed.

Lemma not_sign x : has_bits (not64 x) SIGN_BIT = negb (has_bits x SIGN_BIT).
Proof. change SIGN_BIT with (2 ^ 63). rewrite !has_bits_pow2 by lia. apply testbit_not64. lia. Qed.

(** ** The condition flags after a comparison or an addition *)

(** The flag word that [set_zero_negative_flags] and two [or_flag]s build. *)
Lemma flag_word f (z n c v : bool) :
  let w := Z.land f CPU_FLAG_INTERRUPT_ENABLE in
  let w := if z then Z.lor w CPU_FLAG_ZERO else w in
  let w := if n then Z.lor w CPU_FLAG_NEGATIVE else w in
  let w := if c then Z.lor w CPU_FLAG_CARRY else w in
  let w := if v then Z.lor w CPU_FLAG_OVERFLOW else w in
  has_bits w CPU_FLAG_ZERO = z /\ has_bits w CPU_FLAG_NEGATIVE = n /\
  has_bits w CPU_FLAG_CARRY = c /\ has_bits w CPU_FLAG_OVERFLOW = v /\
  has_bits w CPU_FLAG_UNORDERED = false.
Proof.
  cbv zeta. change CPU_FLAG_ZERO with (2 ^ 0). change CPU_FLAG_NEGATIVE with (2 ^ 1).
  change CPU_FLAG_CARRY with (2 ^ 2). change CPU_FLAG_OVERFLOW with (2 ^ 3).
  change CPU_FLAG_UNORDERED with (2 ^ 5). change CPU_FLAG_INTERRUPT_ENABLE with (2 ^ 4).
  rewrite !has_bits_pow2 by lia.
  destruct z, n, c, v; rewrite ?Z.lor_spec, !Z.land_spec, !Z.pow2_bits_eqb by lia;
    simpl; rewrite !andb_false_r; done.
Qed.

Lemma or_flag_registers b f c : registers (or_flag b f c) = registers c.
Proof. by destruct b. Qed.

Lemma add_flags_registers l r v c : registers (set_add_flags l r v c) = registers c.
Proof. unfold set_add_flags. by rewrite !or_flag_registers. Qed.

Lemma sub_flags_registers l r v c : registers (set_sub_flags l r v c) = registers c.
Proof. unfold set_sub_flags. by rewrite !or_flag_registers. Qed.

Lemma mul_carry b v c :
  flag_set CPU_FLAG_CARRY (or_flag b CPU_FLAG_CARRY (set_zero_negative_flags v c)) = b.
Proof.
  pose proof (flag_word (flags c) (v =? 0) (has_bits v SIGN_BIT) b false) as H.
  unfold flag_set, or_flag, set_zero_negative_flags.
  destruct (v =? 0), (has_bits v SIGN_BIT), b; apply H.
Qed.

Lemma sub_flags l r v c :
  is_u64 l -> is_u64 r -> is_u64 v ->
  flag_set CPU_FLAG_ZERO (set_sub_flags l r v c) = (v =? 0) /\
  flag_set CPU_FLAG_NEGATIVE (set_sub_flags l r v c) = has_bits v SIGN_BIT /\
  flag_set CPU_FLAG_CARRY (set_sub_flags l r v c) = (r <=? l) /\
  flag_set CPU_FLAG_OVERFLOW (set_sub_flags l r v c) =
    xorb (has_bits l SIGN_BIT) (has_bits r SIGN_BIT) &&
    xorb (has_bits l SIGN_BIT) (has_bits v SIGN_BIT) /\
  flag_set CPU_FLAG_UNORDERED (set_sub_flags l r v c) = false.
Proof.
  intros Hl Hr Hv. rewrite <-!lxor_sign, <-land_sign by auto with u64.
  pose proof (flag_word (flags c) (v =? 0) (has_bits v SIGN_BIT) (r <=? l)
    (has_bits (Z.land (Z.lxor l r) (Z.lxor l v)) SIGN_BIT)) as H.
  unfold flag_set, set_sub_flags, or_flag, set_zero_negative_flags.
  destruct (v =? 0), (has_bits v SIGN_BIT), (r <=? l), (has_bits (Z.land _ _) SIGN_BIT); exact H.
Qed.

Lemma add_flags l r v c :
  is_u64 l -> is_u64 r -> is_u64 v ->
  flag_set CPU_FLAG_ZERO (set_add_flags l r v c) = (v =? 0) /\
  flag_set CPU_FLAG_NEGATIVE (set_add_flags l r v c) = has_bits v SIGN_BIT /\
  flag_set CPU_FLAG_CARRY (set_add_flags l r v c) = (v <? l) /\
  flag_set CPU_FLAG_OVERFLOW (set_add_flags l r v c) =
    negb (xorb (has_bits l SIGN_BIT) (has_bits r SIGN_BIT)) &&
    xorb (has_bits l SIGN_BIT) (has_bits v SIGN_BIT) /\
  flag_set CPU_FLAG_UNORDERED (set_add_flags l r v c) = false.
Proof.
  intros Hl Hr Hv. rewrite <-!lxor_sign, <-not_sign, <-land_sign by auto with u64.
  pose proof (flag_word (flags c) (v =? 0) (has_bits v SIGN_BIT) (v <? l)
    (has_bits (Z.land (not64 (Z.lxor l r)) (Z.lxor l v)) SIGN_BIT)) as H.
  unfold flag_set, set_add_flags, or_flag, set_zero_negative_flags.
  destruct (v =? 0), (has_bits v SIGN_BIT), (v <? l), (has_bits (Z.land _ _) SIGN_BIT); exact H.
Qed.

(** ** What a handler does once its operands are fetched *)

Section operands.
Context {D : Type} {DI : DevInv D}.
Implicit Types (s : Machine D).

Lemma pair_fetched s s1 d r :
  machine_wf s -> fetch_register_pair s = (Some (d, r), s1) ->
  machine_wf s1 /\ reg_ok d /\ reg_ok r.
Proof.
  intros Hs E. destruct (fetch_register_pair_keeps machine_wf s Hs) as [H1 H2].
  rewrite E in *. destruct (H2 _ eq_refl). by split_and!.
Qed.
End operands.

(** ** Signed order and the sign bits *)

Ltac bool_cases :=
  repeat match goal with
  | |- context [?a <=? ?b] => destruct (Z.leb_spec a b)
  | |- context [?a <? ?b] => destruct (Z.ltb_spec a b)
  | |- context [?a =? ?b] => destruct (Z.eqb_spec a b)
  | _ : context [if ?a <=? ?b then _ else _] |- _ => destruct (Z.leb_spec a b)
  | _ : context [if ?a <? ?b then _ else _] |- _ => destruct (Z.ltb_spec a b)
  end; cbn [negb andb orb xorb eqb]; try reflexivity; try lia; try (exfalso; lia).

(** The overflow flag of a subtraction corrects the sign of its result. *)
Lemma sub_signed_order l r :
  is_u64 l -> is_u64 r ->
  let v := wrap64 (l - r) in
  negb (eqb (has_bits v SIGN_BIT)
    (xorb (has_bits l SIGN_BIT) (has_bits r SIGN_BIT) &&
     xorb (has_bits l SIGN_BIT) (has_bits v SIGN_BIT))) = (signed64 l <? signed64 r).
Proof.
  intros Hl Hr v. assert (is_u64 v) by (unfold v; auto with u64). rewrite (signed64_sign l), (signed64_sign r) by done.
  rewrite !has_sign by done. unfold v, is_u64, wrap64 in *.
  repeat match goal with |- context [?a <=? ?b] => destruct (Z.leb_spec a b) end;
    cbn [xorb andb negb eqb]; symmetry; rewrite ?Z.ltb_lt, ?Z.ltb_ge;
    Z.to_euclidean_division_equations; lia.
Qed.

Lemma sub_zero l r : is_u64 l -> is_u64 r -> (wrap64 (l - r) =? 0) = (l =? r).
Proof.
  intros Hl Hr. unfold is_u64, wrap64 in *. destruct (Z.eqb_spec l r) as [->|];
    [by rewrite Z.sub_diag|]. apply Z.eqb_neq. Z.to_euclidean_division_equations. lia.
Qed.

Lemma signed64_inj l r : is_u64 l -> is_u64 r -> (signed64 l =? signed64 r) = (l =? r).
Proof.
  intros Hl Hr. unfold is_u64, signed64 in *.
  bool_cases.
Qed.

(** What each condition code asks of two compared words. *)
Definition comparison (condition l r : Z) : bool :=
  if condition =? CPU_CONDITION_EQ then l =? r
  else if condition =? CPU_CONDITION_NE then negb (l =? r)
  else if condition =? CPU_CONDITION_LT then signed64 l <? signed64 r
  else if condition =? CPU_CONDITION_LE then signed64 l <=? signed64 r
  else if condition =? CPU_CONDITION_GT then signed64 r <? signed64 l
  else if condition =? CPU_CONDITION_GE then signed64 r <=? signed64 l
  else if condition =? CPU_CONDITION_LTU then l <? r
  else if condition =? CPU_CONDITION_LEU then l <=? r
  else if condition =? CPU_CONDITION_GTU then r <? l
  else if condition =? CPU_CONDITION_GEU then r <=? l
  else (condition =? CPU_CONDITION_ALWAYS) || (condition =? CPU_CONDITION_ORDERED).

Lemma sub_conditions condition l r c :
  is_u64 l -> is_u64 r -> 0 <= condition < CPU_CONDITION_COUNT ->
  condition_matches condition (set_sub_flags l r (wrap64 (l - r)) c) = comparison condition l r.
Proof.
  intros Hl Hr Hc.
  destruct (sub_flags l r (wrap64 (l - r)) c) as (Ez & En & Ec & Eo & Eu); [auto with u64..|].
  unfold condition_matches. rewrite Ez, En, Ec, Eo, Eu, sub_zero by done.
  pose proof (sub_signed_order l r Hl Hr) as Hlt. cbv zeta in Hlt.
  pose proof (signed64_inj l r Hl Hr) as Heq.
  set (e := eqb _ _) in *. assert (e = (signed64 r <=? signed64 l)) as ->.
  { rewrite Z.leb_antisym, <-Hlt. by rewrite negb_involutive. }
  clear Hlt Ez En Ec Eo Eu.
  assert (condition = 0 \/ condition = 1 \/ condition = 2 \/ condition = 3 \/ condition = 4 \/
    condition = 5 \/ condition = 6 \/ condition = 7 \/ condition = 8 \/ condition = 9 \/
    condition = 10 \/ condition = 11 \/ condition = 12) as H.
  { change CPU_CONDITION_COUNT with 13 in Hc. lia. }
  assert (l = r <-> signed64 l = signed64 r) as Hsr
    by (rewrite <-(Z.eqb_eq (signed64 l)), Heq, Z.eqb_eq; done).
  clear Heq.
  repeat destruct H as [->|H]; [..|subst condition]; cbv [comparison];
    cbn -[signed64]; bool_cases.
Qed.

(** ** Addition, multiplication and division *)

(** A 64-bit signed value. *)
Definition fits_signed (x : Z) : bool := (-0x8000000000000000 <=? x) && (x <? 0x8000000000000000).

Lemma add_overflow l r :
  is_u64 l -> is_u64 r ->
  let v := wrap64 (l + r) in
  (v <? l) = (0x10000000000000000 <=? l + r) /\
  negb (xorb (has_bits l SIGN_BIT) (has_bits r SIGN_BIT)) &&
    xorb (has_bits l SIGN_BIT) (has_bits v SIGN_BIT) = negb (fits_signed (signed64 l + signed64 r)).
Proof.
  intros Hl Hr v. assert (is_u64 v) by (unfold v; auto with u64).
  rewrite (signed64_sign l), (signed64_sign r), !has_sign by done.
  unfold v, is_u64, wrap64, fits_signed in *. split.
  - destruct (Z.ltb_spec ((l + r) mod 0x10000000000000000) l),
      (Z.leb_spec 0x10000000000000000 (l + r)); try done;
      exfalso; Z.to_euclidean_division_equations; lia.
  - assert ((l + r) mod 0x10000000000000000 =
      if 0x10000000000000000 <=? l + r then l + r - 0x10000000000000000 else l + r) as ->
      by (destruct (Z.leb_spec 0x10000000000000000 (l + r)); Z.to_euclidean_division_equations; lia).
    bool_cases.
Qed.

Lemma sub_overflow l r :
  is_u64 l -> is_u64 r ->
  let v := wrap64 (l - r) in
  xorb (has_bits l SIGN_BIT) (has_bits r SIGN_BIT) &&
    xorb (has_bits l SIGN_BIT) (has_bits v SIGN_BIT) = negb (fits_signed (signed64 l - signed64 r)).
Proof.
  intros Hl Hr v. assert (is_u64 v) by (unfold v; auto with u64).
  rewrite (signed64_sign l), (signed64_sign r), !has_sign by done.
  unfold v, is_u64, wrap64, fits_signed in *.
  assert ((l - r) mod 0x10000000000000000 =
    if r <=? l then l - r else l - r + 0x10000000000000000) as ->
    by (destruct (Z.leb_spec r l); Z.to_euclidean_division_equations; lia).
  bool_cases.
Qed.

Lemma mul_overflow l r :
  is_u64 l -> is_u64 r ->
  negb (l =? 0) && (UINT64_MAX / l <? r) = (0x10000000000000000 <=? l * r).
Proof.
  intros Hl Hr. unfold is_u64 in *. destruct (Z.eqb_spec l 0) as [->|Hn]; [by destruct r|].
  simpl. unfold UINT64_MAX. destruct (Z.ltb_spec (0xFFFFFFFFFFFFFFFF / l) r),
    (Z.leb_spec 0x10000000000000000 (l * r)); try done; exfalso.
  - assert (0xFFFFFFFFFFFFFFFF < l * r); [|lia]. Z.to_euclidean_division_equations. nia.
  - assert (l * r <= 0xFFFFFFFFFFFFFFFF); [|lia]. Z.to_euclidean_division_equations. nia.
Qed.

Lemma signed64_range x : is_u64 x -> -0x8000000000000000 <= signed64 x < 0x8000000000000000.
Proof. unfold is_u64, signed64. intros. destruct (Z.ltb_spec x 0x8000000000000000); lia. Qed.

Lemma sign_neg x : is_u64 x -> has_bits x SIGN_BIT = (signed64 x <? 0).
Proof.
  intros Hx. rewrite has_sign by done. unfold signed64, is_u64 in *. bool_cases.
Qed.

(** Division of magnitudes with the sign put back truncates towards zero. *)
Lemma divs_quot l r :
  is_u64 l -> is_u64 r -> r <> 0 -> ~ (l = SIGN_BIT /\ r = UINT64_MAX) ->
  signed64 (apply_twos_complement_sign
    (twos_complement_magnitude l / twos_complement_magnitude r)
    (has_bits (Z.lxor l r) SIGN_BIT)) = Z.quot (signed64 l) (signed64 r).
Proof.
  intros Hl Hr H0 Hmin. rewrite !magnitude_abs, lxor_sign, !sign_neg by done.
  pose proof (signed64_range l Hl) as Rl. pose proof (signed64_range r Hr) as Rr.
  assert (signed64 r <> 0) as Hn by (unfold signed64, is_u64 in *; bool_cases).
  assert (~ (signed64 l = -0x8000000000000000 /\ signed64 r = -1)) as Hm.
  { intros [E1 E2]. apply Hmin. unfold SIGN_BIT, UINT64_MAX, signed64, is_u64 in *.
    destruct (Z.ltb_spec l 0x8000000000000000), (Z.ltb_spec r 0x8000000000000000); lia. }
  clear H0 Hmin. set (a := signed64 l) in *. set (b := signed64 r) in *. clearbody a b.
  clear Hl Hr l r. rewrite (Z.quot_div a b Hn).
  assert (0 <= Z.abs a / Z.abs b <= Z.abs a) as Hq.
  { split; [apply Z.div_pos; lia|]. apply Z.div_le_upper_bound; [lia|nia]. }
  assert (Z.abs b <> 1 -> Z.abs a / Z.abs b * 2 <= Z.abs a) as H2.
  { intros ?. pose proof (Z.mul_div_le (Z.abs a) (Z.abs b)). nia. }
  set (q := Z.abs a / Z.abs b) in *. clearbody q.
  rewrite apply_sign_signed; [| lia |].
  - destruct (Z.ltb_spec a 0), (Z.ltb_spec b 0); simpl;
      assert (a = 0 \/ a <> 0) as [->|?] by lia; nia.
  - intros E. destruct (Z.eq_dec (Z.abs b) 1); [|lia].
    destruct (Z.ltb_spec a 0), (Z.ltb_spec b 0); simpl in E; lia.
Qed.

Lemma mods_rem l r :
  is_u64 l -> is_u64 r -> r <> 0 ->
  signed64 (apply_twos_complement_sign
    (twos_complement_magnitude l mod twos_complement_magnitude r)
    (has_bits l SIGN_BIT)) = Z.rem (signed64 l) (signed64 r).
Proof.
  intros Hl Hr H0. rewrite !magnitude_abs, sign_neg by done.
  pose proof (signed64_range l Hl) as Rl. pose proof (signed64_range r Hr) as Rr.
  assert (signed64 r <> 0) as Hn by (unfold signed64, is_u64 in *; bool_cases).
  set (a := signed64 l) in *. set (b := signed64 r) in *. clearbody a b.
  rewrite (Z.rem_mod a b Hn). pose proof (Z.mod_pos_bound (Z.abs a) (Z.abs b)).
  rewrite apply_sign_signed by lia. destruct (Z.ltb_spec a 0).
  - rewrite Z.sgn_neg by done. lia.
  - destruct (Z.eq_dec a 0) as [->|]; [done|]. rewrite Z.sgn_pos by lia. lia.
Qed.

(** ** Shifts and extensions *)

Lemma shl_ones n : 0 <= n <= 64 -> shl64 UINT64_MAX n = 0x10000000000000000 - 2 ^ n.
Proof.
  intros Hn. unfold shl64, wrap64, UINT64_MAX. rewrite Z.shiftl_mul_pow2 by lia.
  assert (0 < 2 ^ n <= 2 ^ 64) by (split; [lia|apply Z.pow_le_mono_r; lia]).
  change (2 ^ 64) with 0x10000000000000000 in *.
  symmetry. apply (Z.mod_unique_pos _ _ (2 ^ n - 1)); lia.
Qed.

(** A value below [2 ^ n] has no bit in common with the ones above [n]. *)
Lemma lor_ones v n :
  0 <= n <= 64 -> 0 <= v < 2 ^ n ->
  Z.lor v (shl64 UINT64_MAX n) = v + (0x10000000000000000 - 2 ^ n).
Proof.
  intros Hn Hv. rewrite shl_ones by done. symmetry.
  assert (0x10000000000000000 - 2 ^ n = (2 ^ (64 - n) - 1) * 2 ^ n) as ->.
  { rewrite Z.mul_sub_distr_r, <-Z.pow_add_r by lia. replace (64 - n + n) with 64 by lia. lia. }
  apply Z.add_nocarry_lor. apply Z.bits_inj'. intros k Hk.
  rewrite Z.land_spec, Z.bits_0. destruct (Z.lt_ge_cases k n).
  - by rewrite Z.mul_pow2_bits_low, andb_false_r by lia.
  - destruct (Z.eq_dec v 0) as [->|]; [by rewrite Z.bits_0|].
    rewrite (Z.bits_above_log2 v k); [done|lia|]. apply Z.log2_lt_pow2; [lia|].
    eapply Z.lt_le_trans; [apply Hv|apply Z.pow_le_mono_r; lia].
Qed.

(** The arithmetic shift is the floor division of the signed value. *)
Lemma sar_floor v n :
  is_u64 v -> 0 <= n < 64 -> signed64 (arithmetic_shift_right v n) = signed64 v / 2 ^ n.
Proof.
  intros Hv Hn. unfold arithmetic_shift_right. destruct (Z.eqb_spec n 0) as [->|Hz];
    [by rewrite Z.div_1_r|].
  rewrite Z.shiftr_div_pow2 by lia. rewrite (signed64_sign v), has_sign by done.
  assert (2 ^ 64 = 2 ^ (64 - n) * 2 ^ n /\ 2 ^ 63 = 2 ^ (63 - n) * 2 ^ n) as [E64 E63]
    by (rewrite <-!Z.pow_add_r by lia; split; f_equal; lia).
  change (2 ^ 64) with 0x10000000000000000 in E64. change (2 ^ 63) with 0x8000000000000000 in E63.
  assert (0 < 2 ^ n) by lia.
  assert (2 <= 2 ^ n) by (change 2 with (2 ^ 1) at 1; apply Z.pow_le_mono_r; lia).
  unfold is_u64 in Hv. destruct (Z.leb_spec 0x8000000000000000 v).
  - assert (0x8000000000000000 / 2 ^ n <= v / 2 ^ n < 2 ^ (64 - n)) as [Hlo Hhi].
    { split; [apply Z.div_le_mono; lia|]. apply Z.div_lt_upper_bound; lia. }
    rewrite E63, Z.div_mul in Hlo by lia.
    rewrite lor_ones by (unfold REGISTER_BITS; lia). unfold REGISTER_BITS.
    replace (v - 0x10000000000000000) with (v + (- 2 ^ (64 - n)) * 2 ^ n) by lia.
    rewrite Z.div_add by lia.
    assert (2 ^ (64 - n) = 2 * 2 ^ (63 - n)) as E by (rewrite <-Z.pow_succ_r by lia; f_equal; lia).
    assert (2 ^ (63 - n) <= 2 ^ 62) as E' by (apply Z.pow_le_mono_r; lia).
    change (2 ^ 62) with 0x4000000000000000 in E'. unfold signed64.
    destruct (Z.ltb_spec (v / 2 ^ n + (0x10000000000000000 - 2 ^ (64 - n))) 0x8000000000000000); lia.
  - assert (0 <= v / 2 ^ n <= v). { split; [apply Z.div_pos; lia|apply Z.div_le_upper_bound; nia]. }
    unfold signed64. destruct (Z.ltb_spec (v / 2 ^ n) 0x8000000000000000); lia.
Qed.

(** The value of [w] bytes read as a signed number. *)
Definition signed_bytes (w v : Z) : Z := if v <? 2 ^ (8 * w - 1) then v else v - 2 ^ (8 * w).

Lemma sign_extend_signed w v :
  w = 1 \/ w = 2 \/ w = 4 -> 0 <= v < 2 ^ (8 * w) ->
  is_u64 (sign_extend v w) /\ signed64 (sign_extend v w) = signed_bytes w v.
Proof.
  intros Hw Hv. unfold sign_extend, signed_bytes.
  destruct (Z.leb_spec 8 w); [lia|].
  assert (shl64 1 (w * 8 - 1) = 2 ^ (8 * w - 1)) as -> by (by destruct Hw as [->|[->| ->]]).
  rewrite has_bits_pow2 by lia. rewrite Z.testbit_odd, Z.shiftr_div_pow2 by lia.
  replace (w * 8) with (8 * w) by lia.
  assert (2 ^ (8 * w) = 2 * 2 ^ (8 * w - 1)) as E by (rewrite <-Z.pow_succ_r by lia; f_equal; lia).
  assert (2 ^ (8 * w) <= 2 ^ 32) as E' by (apply Z.pow_le_mono_r; lia).
  change (2 ^ 32) with 0x100000000 in E'. assert (0 < 2 ^ (8 * w - 1)) by lia.
  assert (v / 2 ^ (8 * w - 1) = if v <? 2 ^ (8 * w - 1) then 0 else 1) as ->.
  { symmetry. destruct (Z.ltb_spec v (2 ^ (8 * w - 1)));
      [apply (Z.div_unique_pos _ _ _ v)|apply (Z.div_unique_pos _ _ _ (v - 2 ^ (8 * w - 1)))]; lia. }
  destruct (Z.ltb_spec v (2 ^ (8 * w - 1))); cbn [Z.odd].
  - unfold is_u64, signed64. bool_cases; lia.
  - rewrite lor_ones by lia. unfold is_u64, signed64. bool_cases; lia.
Qed.

(** The one quotient outside the signed range. *)
Lemma quot_fits l r :
  is_u64 l -> is_u64 r -> r <> 0 ->
  fits_signed (Z.quot (signed64 l) (signed64 r)) = negb ((l =? SIGN_BIT) && (r =? UINT64_MAX)).
Proof.
  intros Hl Hr H0. destruct ((l =? SIGN_BIT) && (r =? UINT64_MAX)) eqn:E.
  { apply andb_true_iff in E as [->%Z.eqb_eq ->%Z.eqb_eq]. reflexivity. }
  rewrite <-divs_quot; [|done..|by intros [-> ->]]. set (v := apply_twos_complement_sign _ _).
  assert (is_u64 v) as Hv.
  { apply apply_sign_u64. rewrite !magnitude_abs by done.
    pose proof (signed64_range l Hl). pose proof (Z.div_le_upper_bound (Z.abs (signed64 l)) (Z.abs (signed64 r)) (Z.abs (signed64 l))).
    assert (signed64 r <> 0) by (unfold signed64, is_u64 in *; bool_cases).
    pose proof (Z.div_pos (Z.abs (signed64 l)) (Z.abs (signed64 r))). unfold is_u64. nia. }
  pose proof (signed64_range v Hv). unfold fits_signed. clearbody v. simpl. bool_cases.
Qed.

Lemma shift_fetched `{DI : DevInv D} (s s1 : Machine D) d n :
  machine_wf s -> fetch_shift_operands s = (Some (d, n), s1) ->
  machine_wf s1 /\ reg_ok d /\ 0 <= n < 64.
Proof.
  intros Hs E. destruct (fetch_shift_keeps machine_wf s Hs) as [H1 H2].
  rewrite E in *. exact (conj H1 (H2 _ eq_refl)).
Qed.

(** * Properties *)

Section handlers.
Context {D : Type} {DI : DevInv D}.
Implicit Types (s : Machine D).

(** CMP followed by a conditional instruction decides the comparison the
    condition code names, signed or unsigned, on the values of the two
    registers; nothing but the flags changes. *)
Theorem cmp_conditions s s1 a b condition :
  machine_wf s -> fetch_register_pair s = (Some (a, b), s1) ->
  0 <= condition < CPU_CONDITION_COUNT ->
  exists f, execute_cmp s = (Some tt, set_cpu (set_flags f (cpu s1)) s1) /\
    (evaluate_condition (D:=D) condition (set_cpu (set_flags f (cpu s1)) s1)).1 =
      Some (comparison condition (get_register (cpu s1) a) (get_register (cpu s1) b)).
Proof.
  intros Hs E Hc. destruct (pair_fetched s s1 a b Hs E) as (Hs1 & _ & _).
  pose proof (register_u64 (cpu s1) a (mw_cpu s1 Hs1)) as Hl.
  pose proof (register_u64 (cpu s1) b (mw_cpu s1 Hs1)) as Hr.
  pose proof (sub_conditions condition _ _ (cpu s1) Hl Hr Hc) as Hm.
  set (l := get_register (cpu s1) a) in *. set (r := get_register (cpu s1) b) in *.
  exists (flags (set_sub_flags l r (wrap64 (l - r)) (cpu s1))).
  assert (forall x y z c, set_flags (flags (set_sub_flags x y z c)) c = set_sub_flags x y z c) as Hf.
  { intros. unfold set_sub_flags, or_flag, set_zero_negative_flags.
    by destruct (has_bits (Z.land _ _) _), (_ <=? _). }
  rewrite Hf. split; [unfold execute_cmp, exec_bind; by rewrite E|].
  unfold evaluate_condition. destruct (Z.leb_spec CPU_CONDITION_COUNT condition); [lia|].
  unfold read_cpu. cbn [fst cpu set_cpu]. by rewrite Hm.
Qed.

(** ADD, SUB and MUL compute modulo 2^64.  After ADD the carry says the
    unsigned sum did not fit and the overflow that the signed sum did not; after
    SUB the carry says there was no borrow and the overflow that the signed
    difference did not fit; after MUL the carry says the unsigned product did
    not fit. *)
Theorem arithmetic_results s s1 d r :
  machine_wf s -> fetch_register_pair s = (Some (d, r), s1) ->
  let x := get_register (cpu s1) d in
  let y := get_register (cpu s1) r in
  (exists sa, execute_add s = (Some tt, sa) /\
    registers (cpu sa) = arr_set (registers (cpu s1)) d (wrap64 (x + y)) /\
    flag_set CPU_FLAG_CARRY (cpu sa) = (0x10000000000000000 <=? x + y) /\
    flag_set CPU_FLAG_OVERFLOW (cpu sa) = negb (fits_signed (signed64 x + signed64 y))) /\
  (exists sb, execute_sub s = (Some tt, sb) /\
    registers (cpu sb) = arr_set (registers (cpu s1)) d (wrap64 (x - y)) /\
    flag_set CPU_FLAG_CARRY (cpu sb) = (y <=? x) /\
    flag_set CPU_FLAG_OVERFLOW (cpu sb) = negb (fits_signed (signed64 x - signed64 y))) /\
  exists sm, execute_mul s = (Some tt, sm) /\
    registers (cpu sm) = arr_set (registers (cpu s1)) d (wrap64 (x * y)) /\
    flag_set CPU_FLAG_CARRY (cpu sm) = (0x10000000000000000 <=? x * y).
Proof.
  intros Hs E x y. destruct (pair_fetched s s1 d r Hs E) as (Hs1 & _ & _).
  assert (is_u64 x) as Hx by apply register_u64, mw_cpu, Hs1.
  assert (is_u64 y) as Hy by apply register_u64, mw_cpu, Hs1.
  split; [|split]; eexists;
    (split; [unfold execute_add, execute_sub, execute_mul, exec_bind; rewrite E; reflexivity|]);
    cbn [cpu set_cpu]; cbv beta; fold x y.
  - split; [by rewrite add_flags_registers|].
    destruct (add_flags x y (wrap64 (x + y)) (set_register d (wrap64 (x + y)) (cpu s1)))
      as (_ & _ & -> & -> & _); [auto with u64..|]. apply (add_overflow x y Hx Hy).
  - split; [by rewrite sub_flags_registers|].
    destruct (sub_flags x y (wrap64 (x - y)) (set_register d (wrap64 (x - y)) (cpu s1)))
      as (_ & _ & -> & -> & _); [auto with u64..|]. split; [done|apply (sub_overflow x y Hx Hy)].
  - rewrite or_flag_registers. split; [done|]. rewrite mul_carry. by apply mul_overflow.
Qed.

(** The result [v] of a division in register [d]: the flags are those of [v]. *)
Definition quotient_stored s1 d v s2 : Prop :=
  cpu s2 = set_zero_negative_flags v (set_register d v (cpu s1)) /\ bus s2 = bus s1.

(** Signed division truncates towards zero.  DIVS leaves the quotient and
    MODS the remainder of the signed values, with DIVIDE_BY_ZERO for a zero
    divisor and, for DIVS only, ARITHMETIC_OVERFLOW for the one quotient that
    does not fit (the smallest value divided by -1); an exception leaves
    registers and memory as they were. *)
Theorem signed_division s s1 d r :
  machine_wf s -> fetch_register_pair s = (Some (d, r), s1) ->
  let x := get_register (cpu s1) d in
  let y := get_register (cpu s1) r in
  let raise e := (None, set_cpu (record_exception e 0 0 (cpu s1)) s1) in
  if y =? 0 then execute_divs s = raise CPU_EXCEPTION_DIVIDE_BY_ZERO /\
                 execute_mods s = raise CPU_EXCEPTION_DIVIDE_BY_ZERO
  else (if fits_signed (Z.quot (signed64 x) (signed64 y))
        then exists s2 v, execute_divs s = (Some tt, s2) /\ quotient_stored s1 d v s2 /\
               signed64 v = Z.quot (signed64 x) (signed64 y)
        else execute_divs s = raise CPU_EXCEPTION_ARITHMETIC_OVERFLOW) /\
       exists s2 v, execute_mods s = (Some tt, s2) /\ quotient_stored s1 d v s2 /\
         signed64 v = Z.rem (signed64 x) (signed64 y).
Proof.
  intros Hs E x y raise. destruct (pair_fetched s s1 d r Hs E) as (Hs1 & _ & _).
  assert (is_u64 x) as Hx by apply register_u64, mw_cpu, Hs1.
  assert (is_u64 y) as Hy by apply register_u64, mw_cpu, Hs1.
  unfold execute_divs, execute_mods, exec_bind. rewrite E. unfold reg, read_cpu. fold x y.
  cbv beta iota zeta. fold x y.
  destruct (Z.eqb_spec y 0) as [H0|H0]; [done|].
  rewrite (quot_fits x y Hx Hy H0). split.
  - destruct ((x =? SIGN_BIT) && (y =? UINT64_MAX)) eqn:Em; [done|].
    do 2 eexists. split; [reflexivity|]. split; [by split|].
    apply divs_quot; [done..|]. intros [-> ->]. done.
  - do 2 eexists. split; [reflexivity|]. split; [by split|]. by apply mods_rem.
Qed.

(** SAR divides the signed value by a power of two, rounding down, and
    SEXT8/16/32 leave the signed value of the low bytes of the source, ZEXT its
    unsigned value. *)
Theorem shift_and_extend s s1 d n w :
  machine_wf s ->
  (fetch_shift_operands s = (Some (d, n), s1) ->
   exists s2 v, execute_sar s = (Some tt, s2) /\ quotient_stored s1 d v s2 /\
     signed64 v = signed64 (get_register (cpu s1) d) / 2 ^ n) /\
  (fetch_register_pair s = (Some (d, n), s1) -> w = 1 \/ w = 2 \/ w = 4 ->
   let x := get_register (cpu s1) n mod 2 ^ (8 * w) in
   (exists v, execute_extend w true s = (Some tt, set_cpu (set_register d v (cpu s1)) s1) /\
      is_u64 v /\ signed64 v = signed_bytes w x) /\
   execute_extend w false s = (Some tt, set_cpu (set_register d x (cpu s1)) s1)).
Proof.
  intros Hs. split.
  - intros E. destruct (shift_fetched s s1 d n Hs E) as (Hs1 & Hd & Hn).
    unfold execute_sar, exec_bind. rewrite E. do 2 eexists. split; [reflexivity|].
    split; [by split|]. apply sar_floor; [apply register_u64, mw_cpu, Hs1|done].
  - intros E Hw x. destruct (pair_fetched s s1 d n Hs E) as (Hs1 & _ & _).
    unfold execute_extend, exec_bind. rewrite E. unfold reg, read_cpu. cbv beta iota zeta.
    assert (Z.land (get_register (cpu s1) n) (extend_mask w) = x) as ->.
    { unfold x. rewrite <-Z.land_ones by lia. by destruct Hw as [->|[->| ->]]. }
    split; [|done]. eexists. split; [reflexivity|].
    apply sign_extend_signed; [done|]. apply Z.mod_pos_bound. lia.
Qed.
End handlers.

(** ** The properties on a concrete machine *)

(** Two operand bytes at the program counter, naming registers 15 (0x6000) and 15. *)
Definition demo_operands (d r : Z) : Machine unit := demo_machine CPU_MODE_SUPERVISOR [d; r].

Lemma demo_operands_wf : machine_wf (demo_operands 15 15) /\ machine_wf (demo_operands 15 4).
Proof.
  split; apply demo_machine_wf; repeat (apply Forall_cons_2; [by vm_compute|]); apply Forall_nil_2.
Qed.

Lemma cmp_conditions_witness :
  let s := demo_operands 15 15 in
  let s1 := (fetch_register_pair s).2 in
  exists f, execute_cmp s = (Some tt, set_cpu (set_flags f (cpu s1)) s1) /\
    (evaluate_condition (D:=unit) CPU_CONDITION_LE (set_cpu (set_flags f (cpu s1)) s1)).1 = Some true.
Proof.
  destruct (cmp_conditions (demo_operands 15 15) (fetch_register_pair (demo_operands 15 15)).2 15 15
    CPU_CONDITION_LE (proj1 demo_operands_wf) ltac:(vm_compute; reflexivity)
    ltac:(split; [discriminate|reflexivity])) as (f & H1 & H2).
  exists f. split; [exact H1|]. rewrite H2. vm_compute. reflexivity.
Defined.

Lemma arithmetic_results_witness :
  let s := demo_operands 15 15 in
  exists sa, execute_add s = (Some tt, sa) /\ get_register (cpu sa) 15 = 0xC000.
Proof.
  destruct (arithmetic_results (demo_operands 15 15) (fetch_register_pair (demo_operands 15 15)).2 15 15
    (proj1 demo_operands_wf) ltac:(vm_compute; reflexivity)) as ((sa & H1 & H2 & _) & _).
  exists sa. split; [exact H1|]. unfold get_register. rewrite H2. vm_compute. reflexivity.
Defined.

Lemma signed_division_witness :
  let s := demo_operands 15 15 in
  exists s2 v, execute_divs s = (Some tt, s2) /\
    quotient_stored (fetch_register_pair s).2 15 v s2 /\ signed64 v = 1.
Proof.
  pose proof (signed_division (demo_operands 15 15) (fetch_register_pair (demo_operands 15 15)).2 15 15
    (proj1 demo_operands_wf) ltac:(vm_compute; reflexivity)) as H. cbv zeta in H.
  assert (get_register (cpu (fetch_register_pair (demo_operands 15 15)).2) 15 = 0x6000) as G
    by (vm_compute; reflexivity).
  rewrite G in H. change (0x6000 =? 0) with false in H.
  change (fits_signed (Z.quot (signed64 0x6000) (signed64 0x6000))) with true in H.
  destruct H as ((s2 & v & H1 & H2 & H3) & _).
  exists s2, v. split; [exact H1|]. split; [exact H2|exact H3].
Defined.

Lemma shift_and_extend_witness :
  let s := demo_operands 15 4 in
  exists s2 v, execute_sar s = (Some tt, s2) /\
    quotient_stored (fetch_shift_operands s).2 15 v s2 /\ signed64 v = 0x600.
Proof.
  destruct (shift_and_extend (demo_operands 15 4) (fetch_shift_operands (demo_operands 15 4)).2 15 4 1
    (proj2 demo_operands_wf)) as [H _].
  destruct (H ltac:(vm_compute; reflexivity)) as (s2 & v & H1 & H2 & H3).
  exists s2, v. split; [exact H1|]. split; [exact H2|]. rewrite H3. vm_compute. reflexivity.
Defined.
