(* ===== verification/CpuStack.v ===== *)
(** The stack discipline of the processor with the MMU off: stacked words come
    back in order, CALL and RET, and entering a handler and IRET, are inverse. *)

From S2P Require Import Prelude Ram Mmu Interrupt Bus Isa CpuCore CpuInv CpuExec CpuVector Cpu CpuSafety CpuStep CpuIsolation CpuPrecise.
From stdpp Require Import base list numbers option.
From Stdlib Require Import ZArith Lia Bool.

#[local] Open Scope Z_scope.
#[local] Open Scope exec_scope.

Lemma arr_set_twice l i v w : arr_set (arr_set l i w) i v = arr_set l i v.
Proof. apply list_insert_insert_eq. Qed.

Section stack.
Context {D : Type} {DI : DevInv D}.
Implicit Types (s : Machine D).

(** ** Physical words *)

Definition with_ram (r : RAM) s : Machine D := set_bus (set_bus_ram r (bus s)) s.

Definition store_word (a v : Z) s : Machine D :=
  with_ram (store_bytes (machine_ram s) a (int_to_bytes 8 v)) s.
Definition load_word (a : Z) s : Z := atomic_load_n (machine_ram s) a 8.

(** The word at [a] lies in RAM. *)
Definition word_in s (a : Z) : Prop := 0 <= a /\ a + 8 <= ram_size (machine_ram s).

Lemma store_word_ram a v s :
  machine_ram (store_word a v s) = store_bytes (machine_ram s) a (int_to_bytes 8 v).
Proof. done. Qed.

Lemma word_in_store s a b v : word_in s a -> word_in (store_word b v s) a.
Proof. unfold word_in. by rewrite store_word_ram, store_bytes_size. Qed.

Lemma store_word_byte s a v b :
  b < a \/ a + 8 <= b ->
  ram_byte (machine_ram (store_word a v s)) b = ram_byte (machine_ram s) b.
Proof.
  intros Hb. rewrite store_word_ram, store_bytes_byte. destruct (Z.leb_spec a b); [|done].
  rewrite lookup_ge_None_2; [done|]. rewrite length_int_to_bytes. lia.
Qed.

Lemma load_store_same s a v : is_u64 v -> load_word a (store_word a v s) = v.
Proof.
  intros Hv. unfold load_word. rewrite store_word_ram, atomic_load_store_same by lia.
  apply Z.mod_small. exact Hv.
Qed.

Lemma load_store_other s a b v :
  a + 8 <= b \/ b + 8 <= a -> load_word a (store_word b v s) = load_word a s.
Proof.
  intros Hd. unfold load_word, atomic_load_n. rewrite store_word_ram. f_equal.
  apply ram_bytes_store_disjoint. rewrite length_int_to_bytes. lia.
Qed.

Lemma word_in_range s a :
  machine_wf s -> word_in s a ->
  a <= UINT64_MAX - 7 /\ ram_range_valid (machine_ram s) a 8 = true /\
  cpu_ram_range_valid (machine_ram s) a 8 = true.
Proof.
  intros Hs [H0 H8]. pose proof (machine_ram_wf s Hs) as Hr. pose proof (proj1 Hr) as Hsz.
  unfold is_u64 in Hsz. unfold UINT64_MAX. split; [lia|].
  split; [apply ram_range_valid_intro; (done || lia)|].
  unfold cpu_ram_range_valid, SIZE_MAX, UINT64_MAX.
  destruct (Z.leb_spec a 0xFFFFFFFFFFFFFFFF); [|lia].
  apply andb_true_iff. rewrite !Z.leb_le. lia.
Qed.

Lemma physical_segments s a access e report :
  mmu_enabled (cpu s) = false -> a <= UINT64_MAX - 7 ->
  build_memory_segments a 8 access e report s = (Some [mkSegment a a 8 0], s).
Proof.
  intros Hm Ha. unfold build_memory_segments, exec_bind, read_cpu. rewrite Hm.
  destruct (Z.ltb_spec (UINT64_MAX - (8 - 1)) a); [lia|]. done.
Qed.

Lemma physical_accessible s a report :
  machine_wf s -> mmu_enabled (cpu s) = false -> word_in s a ->
  ram_write_accessible a 8 report s = (Some tt, s).
Proof.
  intros Hs Hm Hi. destruct (word_in_range s a Hs Hi) as (Ha & _ & Hc).
  unfold ram_write_accessible, exec_bind at 1. rewrite physical_segments by done.
  unfold check_segments, exec_bind, read_ram. simpl. by rewrite Hc.
Qed.

Lemma physical_write s a e report v :
  machine_wf s -> mmu_enabled (cpu s) = false -> word_in s a ->
  memory_write a 8 MMU_ACCESS_WRITE false e report v s = (Some tt, store_word a v s).
Proof.
  intros Hs Hm Hi. destruct (word_in_range s a Hs Hi) as (Ha & Hv & Hc).
  unfold memory_write, exec_bind. rewrite physical_segments by done.
  unfold check_segments, write_segments, exec_bind, exec_try, on_bus, read_ram, ram_store. simpl.
  rewrite Hc. cbn [mret Exec_ret]. unfold machine_ram in Hv.
  rewrite ram_write_spec, Hv by lia. done.
Qed.

Lemma physical_read s a e report :
  machine_wf s -> mmu_enabled (cpu s) = false -> word_in s a ->
  memory_read a 8 MMU_ACCESS_READ false e report s = (Some (load_word a s), s).
Proof.
  intros Hs Hm Hi. destruct (word_in_range s a Hs Hi) as (Ha & Hv & _).
  unfold memory_read, exec_bind. rewrite physical_segments by done.
  unfold read_segments, exec_bind, exec_try, read_segment. rewrite bool_decide_eq_false_2 by done. simpl.
  rewrite ram_read_spec, Hv by (lia || by apply machine_ram_wf). unfold mret, Exec_ret.
  do 2 f_equal. unfold shl64. rewrite Z.shiftl_0_r. apply wrap64_id.
  apply atomic_load_u64; [by apply machine_ram_wf|lia].
Qed.

Lemma store_word_wf s a v : machine_wf s -> word_in s a -> machine_wf (store_word a v s).
Proof.
  intros Hs Hi. destruct (word_in_range s a Hs Hi) as (_ & Hv & _).
  destruct (ram_store_keeps (bus s) a 8 v ltac:(lia) (bus s) (bus_like_refl _ (mw_bus s Hs))) as [Hb _].
  unfold ram_store in Hb. unfold machine_ram in Hv. rewrite ram_write_spec, Hv in Hb by lia.
  by apply machine_wf_bus.
Qed.

(** ** Pushes and pops *)

Definition sp_of s : Z := get_register (cpu s) REGISTER_SP.
Definition with_sp (v : Z) s : Machine D := set_cpu (set_register REGISTER_SP v (cpu s)) s.

Lemma sp_with s v : machine_wf s -> sp_of (with_sp v s) = v.
Proof. intros Hs. by apply register_written; [apply mw_cpu|]. Qed.

Lemma with_sp_wf s v : machine_wf s -> is_u64 v -> machine_wf (with_sp v s).
Proof. intros Hs Hv. by apply uc_register. Qed.

Lemma set_register_twice r v w c : set_register r v (set_register r w c) = set_register r v c.
Proof. unfold set_register, set_registers. simpl. by rewrite arr_set_twice. Qed.

Lemma set_register_same s : machine_wf s -> with_sp (sp_of s) s = s.
Proof.
  intros Hs. pose proof (restore_cpu (cpu s) (mw_cpu s Hs)) as H. unfold with_sp, sp_of.
  assert (set_mode (mode (cpu s)) (set_mode CPU_MODE_SUPERVISOR (cpu s)) = cpu s) as E
    by by destruct (cpu s).
  rewrite E in H. rewrite H. by destruct s.
Qed.

(** The state after a push of [v]. *)
Definition pushed (v : Z) s : Machine D := with_sp (sp_of s - 8) (store_word (sp_of s - 8) v s).

Lemma push_physical s v :
  machine_wf s -> mmu_enabled (cpu s) = false -> 8 <= sp_of s <= ram_size (machine_ram s) ->
  stack_push_u64 v s = (Some tt, pushed v s) /\ machine_wf (pushed v s).
Proof.
  intros Hs Hm Hsp. assert (word_in s (sp_of s - 8)) as Hi by (unfold word_in; lia).
  pose proof (register_u64 (cpu s) REGISTER_SP (mw_cpu s Hs)) as Hu. fold (sp_of s) in Hu.
  split.
  - unfold stack_push_u64, exec_bind, read_cpu. fold (sp_of s).
    destruct (Z.ltb_spec (sp_of s) 8); [lia|]. by rewrite physical_write.
  - apply with_sp_wf; [by apply store_word_wf|]. unfold is_u64 in *. lia.
Qed.

Lemma pop_physical s :
  machine_wf s -> mmu_enabled (cpu s) = false -> word_in s (sp_of s) ->
  stack_pop_u64 s = (Some (load_word (sp_of s) s), with_sp (sp_of s + 8) s).
Proof.
  intros Hs Hm Hi. unfold stack_pop_u64, exec_bind, read_cpu. fold (sp_of s).
  rewrite physical_read by done. unfold modify_cpu, mret, Exec_ret.
  rewrite wrap64_id; [done|]. destruct (word_in_range s _ Hs Hi) as (Ha & _).
  destruct Hi. pose proof (proj1 (machine_ram_wf s Hs)). unfold is_u64, UINT64_MAX in *. lia.
Qed.

Fixpoint push_words (vs : list Z) : Exec (Machine D) unit :=
  match vs with
  | [] => mret tt
  | v :: vs => stack_push_u64 v;; push_words vs
  end.

Fixpoint pop_words (n : nat) : Exec (Machine D) (list Z) :=
  match n with
  | O => mret []
  | S n => v ← stack_pop_u64; vs ← pop_words n; mret (v :: vs)
  end.

Lemma pop_words_snoc n s s1 s2 l v :
  pop_words n s = (Some l, s1) -> stack_pop_u64 s1 = (Some v, s2) ->
  pop_words (S n) s = (Some (l ++ [v]), s2).
Proof.
  revert s l. induction n as [|n IH]; intros s l H1 H2.
  - injection H1 as <- <-. cbn. unfold exec_bind. by rewrite H2.
  - cbn [pop_words] in H1 |- *. unfold exec_bind in H1 |- * at 1.
    destruct (stack_pop_u64 s) as [[w|] s'] eqn:Ep; [|done].
    destruct (pop_words n s') as [[k|] s''] eqn:Ek; [|done]. injection H1 as <- <-.
    specialize (IH s' k Ek H2). cbn [pop_words] in IH. unfold exec_bind at 1. by rewrite IH.
Qed.

Lemma with_sp_twice s x y : with_sp x (with_sp y s) = with_sp x s.
Proof. unfold with_sp, set_cpu. simpl. by rewrite set_register_twice. Qed.

Lemma with_sp_back s x v :
  machine_wf s -> v = sp_of s -> with_sp v (with_sp x s) = s.
Proof. intros Hs ->. by rewrite with_sp_twice, set_register_same. Qed.

Lemma load_word_ext a s s' :
  (forall b, a <= b < a + 8 -> ram_byte (machine_ram s) b = ram_byte (machine_ram s') b) ->
  load_word a s = load_word a s'.
Proof.
  intros H. unfold load_word, atomic_load_n, ram_bytes. f_equal. apply list_fmap_ext.
  intros i b Hb%lookup_seqZ. apply H. lia.
Qed.

(** ** Fetchable addresses *)

Definition fetchable s (a : Z) : Prop := is_Some (bus_fetch (bus s) a 1).

Lemma address_valid s a m report :
  mmu_enabled (cpu s) = false -> fetchable s a ->
  instruction_address_valid_for_mode a m report s = (Some tt, s).
Proof.
  intros Hm [x Hx]. unfold instruction_address_valid_for_mode. by rewrite Hm, Hx.
Qed.

Lemma fetchable_store s a b v : machine_wf s -> word_in s a -> fetchable s b -> fetchable (store_word a v s) b.
Proof.
  intros Hs Hi. pose proof (machine_ram_wf _ (store_word_wf s a v Hs Hi)) as Hr'.
  pose proof (machine_ram_wf s Hs) as Hr. unfold fetchable, bus_fetch. simpl.
  change (bus_ram (bus s)) with (machine_ram s).
  change (bus_ram (set_bus_ram _ (bus s))) with (machine_ram (store_word a v s)).
  change (bus_rom (set_bus_ram _ (bus s))) with (bus_rom (bus s)).
  assert (ram_contains (machine_ram (store_word a v s)) b 1 = ram_contains (machine_ram s) b 1) as ->
    by (unfold ram_contains; by rewrite store_word_ram, store_bytes_size).
  destruct (ram_contains (machine_ram s) b 1); [|done].
  rewrite !ram_read_spec by (done || lia). unfold ram_range_valid, ram_contains.
  rewrite store_word_ram, store_bytes_size. destruct (_ && _); [|done]. by eexists.
Qed.

(** ** Handler frames *)

Definition frame_written (user : bool) (frame ret saved sp : Z) s : Machine D :=
  let s1 := store_word (frame + 8) saved (store_word frame ret s) in
  if user then store_word (frame + 16) sp s1 else s1.

Lemma frame_physical (user : bool) frame ret saved sp s :
  machine_wf s -> mmu_enabled (cpu s) = false -> 0 <= frame ->
  frame + (if user then 24 else 16) <= ram_size (machine_ram s) ->
  write_handler_frame user frame ret saved sp s = (Some tt, frame_written user frame ret saved sp s) /\
  machine_wf (frame_written user frame ret saved sp s).
Proof.
  intros Hs Hm H0 Hend. pose proof (proj1 (machine_ram_wf s Hs)) as Hsz. unfold is_u64 in Hsz.
  assert (word_in s frame) as I0 by (unfold word_in; destruct user; lia).
  assert (word_in s (frame + 8)) as I8 by (unfold word_in; destruct user; lia).
  assert (user = true -> word_in s (frame + 16)) as I16 by (intros ->; unfold word_in; lia).
  set (s1 := store_word frame ret s). set (s2 := store_word (frame + 8) saved s1).
  assert (machine_wf s1) as W1 by by apply store_word_wf.
  assert (machine_wf s2) as W2 by by apply store_word_wf, word_in_store.
  assert (wrap64 (frame + 8) = frame + 8) as E8 by (apply wrap64_id; unfold is_u64; destruct user; lia).
  assert (user = true -> wrap64 (frame + 16) = frame + 16) as E16
    by (intros ->; apply wrap64_id; unfold is_u64; lia).
  unfold write_handler_frame, exec_bind. rewrite E8, !physical_accessible by done.
  destruct user; [rewrite E16, physical_accessible by auto|unfold mret, Exec_ret];
    rewrite physical_write by done; fold s1; rewrite physical_write by (done || by apply word_in_store);
    fold s2; (split; [|try done]).
  - rewrite physical_write; [done..|]. by apply word_in_store, word_in_store, I16.
  - apply store_word_wf; [done|]. by apply word_in_store, word_in_store, I16.
  - done.
Qed.

(** Memory after entering a handler from [s]. *)
Definition framed (ret : Z) (b : bool) s : Machine D :=
  frame_written (user_mode (mode (cpu s))) (frame_top (cpu s) - frame_size (cpu s)) ret
    (make_saved_flags (cpu s) b) (get_register (cpu s) REGISTER_SP) s.

Lemma enter_physical h ret b s :
  machine_wf s -> mmu_enabled (cpu s) = false ->
  frame_size (cpu s) <= frame_top (cpu s) <= ram_size (machine_ram s) ->
  enter_privileged_handler h ret b s =
    (Some tt, mkMachine (handler_cpu h (cpu s)) (bus (framed ret b s))) /\
  machine_wf (framed ret b s).
Proof.
  intros Hs Hm Htop. set (c := cpu s) in *. set (frame := frame_top c - frame_size c) in *.
  assert (0 <= frame /\ frame + (if user_mode (mode c) then 24 else 16) <= ram_size (machine_ram s))
    as [H0 Hend] by (unfold frame, frame_size in *; lia).
  split; [|by apply frame_physical].
  set (s0 := set_cpu (set_mode CPU_MODE_SUPERVISOR c) s).
  destruct (frame_physical (user_mode (mode c)) frame ret (make_saved_flags c b)
    (get_register c REGISTER_SP) s0) as [Hw _]; [by apply pc_mode|done..|].
  unfold enter_privileged_handler, exec_bind, read_cpu, id. fold c (frame_top c) (frame_size c).
  destruct (Z.ltb_spec (frame_top c) (frame_size c)); [lia|]. unfold modify_cpu, exec_try.
  fold c frame s0. rewrite Hw. unfold framed. fold c frame. unfold frame_written.
  by destruct (user_mode (mode c)).
Qed.
(** What IRET reads back from the saved flags. *)
Lemma saved_flags_read c b :
  cpu_wf c ->
  has_bits (make_saved_flags c b) CPU_SAVED_FLAG_USER_MODE = user_mode (mode c) /\
  has_bits (make_saved_flags c b) CPU_SAVED_FLAG_EXCEPTION_FRAME = b /\
  Z.land (make_saved_flags c b) CPU_FLAG_MASK = Z.land (flags c) CPU_FLAG_MASK.
Proof.
  intros Hc. unfold make_saved_flags. set (f := flags c).
  assert (forall k, 6 <= k -> Z.testbit CPU_FLAG_MASK k = false) as Hmask.
  { intros k Hk. apply Z.bits_above_log2; [done|]. change (Z.log2 CPU_FLAG_MASK) with 5. lia. }
  change CPU_SAVED_FLAG_USER_MODE with (2 ^ 62). change CPU_SAVED_FLAG_EXCEPTION_FRAME with (2 ^ 63).
  rewrite !has_bits_pow2 by lia. split_and!.
  1,2: destruct (user_mode (mode c)), b; rewrite ?Z.lor_spec, !Z.land_spec, Hmask, andb_false_r by lia;
    by vm_compute.
  apply Z.bits_inj'. intros k Hk. rewrite !Z.land_spec.
  destruct (Z.lt_ge_cases k 6); [|by rewrite Hmask, !andb_false_r by lia].
  assert (Z.testbit (2 ^ 62) k = false /\ Z.testbit (2 ^ 63) k = false) as [E1 E2]
    by (rewrite !Z.pow2_bits_false by lia; done).
  destruct (user_mode (mode c)), b; rewrite ?Z.lor_spec, Z.land_spec, ?E1, ?E2, ?orb_false_r, <-andb_assoc, andb_diag; done.
Qed.

(** The CPU that resumes at [ret]. *)
Definition resumed (ret : Z) (b : bool) (c : CPU) : CPU :=
  let c := set_waiting false (set_pc ret (set_flags (Z.land (flags c) CPU_FLAG_MASK) c)) in
  if b then set_exception_active false c else c.

Lemma iret_commit_resumed h ret b c :
  cpu_wf c -> is_u64 (frame_top c) -> frame_size c <= frame_top c ->
  iret_commit (mode c) (frame_top c - frame_size c) (get_register c REGISTER_SP) ret
    (make_saved_flags c b) (handler_cpu h c) = resumed ret b c.
Proof.
  intros Hc Hu Ht. destruct (saved_flags_read c b Hc) as (_ & Eb & Em).
  pose proof (restore_cpu c Hc) as Hr. unfold iret_commit. rewrite Eb, Em. clear Eb Em.
  assert (frame_top c - frame_size c + frame_size c = frame_top c) as E by lia.
  unfold handler_cpu, resumed, frame_top, frame_size in *.
  destruct c as [rs ? ? ? ? ? ? k ? ? ? ? ? ? ? m ? ? ? ? ? ? ?]. cbn [mode ksp] in *.
  destruct m; cbn [user_mode] in *; rewrite E, wrap64_id by done;
    unfold set_register, set_registers in *; simpl in *; rewrite arr_set_twice;
    injection Hr as Hr; rewrite Hr; by destruct b.
Qed.
Lemma framed_cpu ret b s : cpu (framed ret b s) = cpu s.
Proof. unfold framed, frame_written. by destruct (user_mode _). Qed.

Lemma framed_size ret b s : ram_size (machine_ram (framed ret b s)) = ram_size (machine_ram s).
Proof.
  unfold framed, frame_written. by destruct (user_mode _); rewrite !store_word_ram, !store_bytes_size.
Qed.

Lemma framed_fetchable ret b s a :
  machine_wf s -> frame_size (cpu s) <= frame_top (cpu s) <= ram_size (machine_ram s) ->
  fetchable s a -> fetchable (framed ret b s) a.
Proof.
  intros Hs Ht Hf. unfold framed, frame_written, frame_size in *.
  set (frame := frame_top (cpu s) - _). set (user := user_mode (mode (cpu s))) in *.
  assert (word_in s frame /\ word_in s (frame + 8) /\ (user = true -> word_in s (frame + 16)))
    as (I0 & I8 & I16) by (unfold word_in, frame; destruct user; lia).
  assert (machine_wf (store_word frame ret s)) as W1 by by apply store_word_wf.
  assert (word_in (store_word frame ret s) (frame + 8)) as J8 by by apply word_in_store.
  pose proof (store_word_wf _ _ (make_saved_flags (cpu s) b) W1 J8) as W2.
  destruct user; repeat (apply fetchable_store; [done|by repeat apply word_in_store; auto|]); done.
Qed.

(** The words of the frame. *)
Lemma framed_words ret b s :
  machine_wf s -> is_u64 ret ->
  let frame := frame_top (cpu s) - frame_size (cpu s) in
  load_word frame (framed ret b s) = ret /\
  load_word (frame + 8) (framed ret b s) = make_saved_flags (cpu s) b /\
  (user_mode (mode (cpu s)) = true ->
   load_word (frame + 16) (framed ret b s) = get_register (cpu s) REGISTER_SP).
Proof.
  intros Hs Hr frame. unfold framed, frame_written. fold frame.
  pose proof (saved_flags_u64 (cpu s) b (mw_cpu s Hs)) as Hf.
  pose proof (register_u64 (cpu s) REGISTER_SP (mw_cpu s Hs)) as Hsp.
  destruct (user_mode (mode (cpu s))); split_and!; intros;
    repeat (first [rewrite load_store_same by done | rewrite load_store_other by lia]); done.
Qed.

Lemma framed_bytes ret b s a :
  a < frame_top (cpu s) - frame_size (cpu s) \/ frame_top (cpu s) <= a ->
  ram_byte (machine_ram (framed ret b s)) a = ram_byte (machine_ram s) a.
Proof.
  unfold framed, frame_written, frame_size. destruct (user_mode _); intros; rewrite !store_word_byte by lia; done.
Qed.

(** IRET in a handler whose frame is intact. *)
Lemma iret_physical h ret b s :
  machine_wf s -> mmu_enabled (cpu s) = false ->
  frame_size (cpu s) <= frame_top (cpu s) <= ram_size (machine_ram s) ->
  is_u64 h -> is_u64 ret -> fetchable s ret ->
  execute_iret (mkMachine (handler_cpu h (cpu s)) (bus (framed ret b s))) =
    (Some tt, mkMachine (resumed ret b (cpu s)) (bus (framed ret b s))).
Proof.
  intros Hs Hm Ht Hh Hr Hf. set (s1 := mkMachine _ _).
  assert (machine_wf s1) as Hs1.
  { destruct (enter_physical h ret b s Hs Hm Ht) as [E _]. fold s1 in E.
    pose proof (enter_keeps machine_wf h ret b Hh Hr s Hs) as [H _]. by rewrite E in H. }
  assert (mmu_enabled (cpu s1) = false) as Hm1 by exact Hm.
  pose proof (framed_words ret b s Hs Hr) as (L0 & L8 & L16).
  pose proof (framed_fetchable ret b s ret Hs Ht Hf) as Hf1.
  destruct (saved_flags_read (cpu s) b (mw_cpu s Hs)) as (Eu & _ & _).
  pose proof (proj1 (machine_ram_wf s Hs)) as Hsz. unfold is_u64 in Hsz.
  set (frame := frame_top (cpu s) - frame_size (cpu s)) in *.
  assert (get_register (cpu s1) REGISTER_SP = frame) as Esp.
  { exact (register_written (set_mode CPU_MODE_SUPERVISOR (cpu s)) REGISTER_SP frame
      (mw_cpu _ (pc_mode s CPU_MODE_SUPERVISOR Hs)) ltac:(done)). }
  assert (forall a, word_in (framed ret b s) a -> stack_read a s1 =
    (Some (load_word a (framed ret b s)), s1)) as Hread.
  { intros a Ha. exact (physical_read s1 a CPU_EXCEPTION_STACK_FAULT true Hs1 Hm1 Ha). }
  assert (0 <= frame /\ frame + frame_size (cpu s) <= ram_size (machine_ram (framed ret b s))) as [H0 Hend]
    by (rewrite framed_size; unfold frame; lia).
  rewrite framed_size in Hend.
  assert (forall d, 0 <= d -> d + 8 <= frame_size (cpu s) -> wrap64 (frame + d) = frame + d /\
    word_in (framed ret b s) (frame + d)) as Hin.
  { intros d Hd Hd'. split; [apply wrap64_id; unfold is_u64; lia|].
    unfold word_in. rewrite framed_size. lia. }
  assert (16 <= frame_size (cpu s)) as H16 by (unfold frame_size; destruct (user_mode _); lia).
  assert ((if has_bits (make_saved_flags (cpu s) b) CPU_SAVED_FLAG_USER_MODE
           then CPU_MODE_USER else CPU_MODE_SUPERVISOR) = mode (cpu s)) as Emode
    by (rewrite Eu; by destruct (mode (cpu s))).
  unfold execute_iret, require_supervisor, exec_bind, read_cpu. change (mode (cpu s1)) with CPU_MODE_SUPERVISOR.
  cbn [user_mode]. unfold mret at 1, Exec_ret at 1, reg, read_cpu. rewrite Esp.
  destruct (Z.ltb_spec (UINT64_MAX - 8) frame); [unfold UINT64_MAX in *; lia|].
  rewrite (Hread frame) by (replace frame with (frame + 0) by lia; apply Hin; lia). rewrite L0.
  destruct (Hin 8) as [-> I8]; [lia..|]. rewrite (Hread _ I8), L8, Emode.
  assert (is_u64 (frame_top (cpu s))) as Hut by (unfold frame_top, is_u64 in *; lia).
  assert (forall usp, (user_mode (mode (cpu s)) = true -> usp = get_register (cpu s) REGISTER_SP) ->
    modify_cpu (iret_commit (mode (cpu s)) frame usp ret (make_saved_flags (cpu s) b)) s1 =
    (Some tt, mkMachine (resumed ret b (cpu s)) (bus (framed ret b s)))) as Hcommit.
  { intros usp Husp. unfold modify_cpu, set_cpu. do 2 f_equal.
    rewrite <-(iret_commit_resumed h ret b (cpu s) (mw_cpu s Hs) Hut (proj1 Ht)).
    unfold iret_commit. fold frame. destruct (user_mode (mode (cpu s))); [by rewrite Husp|done]. }
  destruct (user_mode (mode (cpu s))) eqn:Hu.
  - assert (frame_size (cpu s) = 24) as E24 by (unfold frame_size; by rewrite Hu).
    destruct (Z.ltb_spec (UINT64_MAX - 24) frame); [unfold UINT64_MAX in *; lia|].
    destruct (Hin 16) as [-> I16]; [lia..|]. rewrite (Hread _ I16), L16 by done. cbn [negb andb].
    rewrite address_valid by done. by apply Hcommit.
  - destruct (Z.ltb_spec (UINT64_MAX - 16) frame); [unfold UINT64_MAX in *; lia|]. cbn [negb andb].
    unfold mret at 1, Exec_ret at 1. rewrite address_valid by done. by apply Hcommit.
Qed.
(** RET with the return address on the stack. *)
Lemma ret_physical s :
  machine_wf s -> mmu_enabled (cpu s) = false -> word_in s (sp_of s) ->
  fetchable s (load_word (sp_of s) s) ->
  execute_ret s = (Some tt, set_cpu (set_pc (load_word (sp_of s) s)
    (set_register REGISTER_SP (sp_of s + 8) (cpu s))) s).
Proof.
  intros Hs Hm Hi Hf. unfold execute_ret, exec_bind, reg, read_cpu. fold (sp_of s).
  rewrite physical_read by done. unfold instruction_address_valid, exec_bind, read_cpu.
  rewrite address_valid by done. unfold set_reg, jump_to, modify_cpu.
  rewrite wrap64_id; [done|]. pose proof (proj1 (machine_ram_wf s Hs)). unfold word_in, is_u64 in *. lia.
Qed.

(** * Properties *)

(** C26: IRET undoes the entry into a handler.  With the MMU off and room for
    the frame in RAM, entering the handler for an exception, an interrupt or a
    system call succeeds, and IRET in the handler returns to [ret] with every
    register, the mode, the stack pointers and the flags that were interrupted;
    an exception frame also ends the exception.  Only the bytes of the frame
    are written. *)
Theorem handler_iret_roundtrip h ret b s :
  machine_wf s -> mmu_enabled (cpu s) = false ->
  frame_size (cpu s) <= frame_top (cpu s) <= ram_size (machine_ram s) ->
  is_u64 h -> is_u64 ret -> fetchable s ret ->
  exists s1 s2,
    enter_privileged_handler h ret b s = (Some tt, s1) /\ cpu s1 = handler_cpu h (cpu s) /\
    execute_iret s1 = (Some tt, s2) /\ cpu s2 = resumed ret b (cpu s) /\ bus s2 = bus s1 /\
    forall a, a < frame_top (cpu s) - frame_size (cpu s) \/ frame_top (cpu s) <= a ->
      ram_byte (machine_ram s2) a = ram_byte (machine_ram s) a.
Proof.
  intros Hs Hm Ht Hh Hr Hf. destruct (enter_physical h ret b s Hs Hm Ht) as [He _].
  pose proof (iret_physical h ret b s Hs Hm Ht Hh Hr Hf) as Hi.
  do 2 eexists. split_and!; [exact He|done|exact Hi|done|done|].
  intros a Ha. exact (framed_bytes ret b s a Ha).
Qed.

(** The stack is last-in first-out.  Words pushed with the MMU off are all
    stored, popping as many returns them in reverse order with the CPU as it was
    before, and no byte outside the words pushed is written. *)
Theorem stack_lifo vs s :
  machine_wf s -> mmu_enabled (cpu s) = false -> Forall is_u64 vs ->
  8 * Z.of_nat (length vs) <= sp_of s <= ram_size (machine_ram s) ->
  exists s1, push_words vs s = (Some tt, s1) /\
    s1 = with_sp (sp_of s - 8 * Z.of_nat (length vs)) (with_ram (machine_ram s1) s) /\
    pop_words (length vs) s1 = (Some (rev vs), with_ram (machine_ram s1) s) /\
    (forall b, b < sp_of s - 8 * Z.of_nat (length vs) \/ sp_of s <= b ->
      ram_byte (machine_ram s1) b = ram_byte (machine_ram s) b) /\
    machine_wf (with_ram (machine_ram s1) s) /\ ram_size (machine_ram s1) = ram_size (machine_ram s).
Proof.
  intros Hs Hm Hv. revert s Hs Hm. induction Hv as [|v vs Hv Hvs IH]; intros s Hs Hm Hsp.
  { assert (with_ram (machine_ram s) s = s) as E by by destruct s as [? [[]]].
    exists s. cbn [length]. change (Z.of_nat 0) with 0.
    rewrite Z.mul_0_r, Z.sub_0_r, !E, set_register_same by done. by split_and!. }
  cbn [length] in *. rewrite Nat2Z.inj_succ in *.
  destruct (push_physical s v Hs Hm) as [Hpush Hwf]; [lia|].
  assert (word_in s (sp_of s - 8)) as Hin by (unfold word_in; lia).
  assert (sp_of (pushed v s) = sp_of s - 8) as Esp by by apply sp_with, store_word_wf.
  assert (ram_size (machine_ram (pushed v s)) = ram_size (machine_ram s)) as Esz
    by (apply store_bytes_size).
  destruct (IH (pushed v s) Hwf Hm) as (s1 & Hp & Hc & Hpop & Hframe & Hwf1 & Hsz); [lia|].
  rewrite Esp in *. clear IH.
  change (with_ram (machine_ram s1) (pushed v s)) with
    (with_sp (sp_of s - 8) (with_ram (machine_ram s1) s)) in *.
  set (s2 := with_ram (machine_ram s1) s) in *.
  assert (with_sp (sp_of s) (with_sp (sp_of s - 8) s2) = s2) as Eback.
  { exact (f_equal (with_ram (machine_ram s1)) (with_sp_back s (sp_of s - 8) (sp_of s) Hs eq_refl)). }
  assert (machine_wf s2) as Hs2.
  { rewrite <-Eback. apply with_sp_wf; [done|]. apply register_u64, mw_cpu, Hs. }
  exists s1. split_and!; [| | | |exact Hs2|congruence].
  - cbn [push_words]. unfold exec_bind. by rewrite Hpush.
  - rewrite Hc at 1. rewrite with_sp_twice. f_equal. lia.
  - simpl rev. eapply pop_words_snoc; [exact Hpop|].
    assert (word_in (with_sp (sp_of s - 8) s2) (sp_of s - 8)) as Hi2.
    { unfold word_in in *. change (machine_ram (with_sp (sp_of s - 8) s2)) with (machine_ram s1). lia. }
    pose proof (sp_with s2 (sp_of s - 8) Hs2) as Esp2.
    rewrite pop_physical; [|done|done|by rewrite Esp2]. rewrite !Esp2.
    replace (sp_of s - 8 + 8) with (sp_of s) by lia. rewrite Eback. do 2 f_equal.
    rewrite (load_word_ext _ _ (store_word (sp_of s - 8) v s)); [by apply load_store_same|].
    intros b Hb. apply (Hframe b). lia.
  - intros b Hb. rewrite Hframe by lia. unfold pushed.
    change (machine_ram (with_sp (sp_of s - 8) (store_word (sp_of s - 8) v s)))
      with (machine_ram (store_word (sp_of s - 8) v s)).
    apply store_word_byte. lia.
Qed.

(** RET returns from CALL.  With the MMU off, CALL to a fetchable target
    continues there with the address of the next instruction stacked, and RET
    from that state restores the CPU to the instruction after the CALL. *)
Theorem call_ret_roundtrip s s0 target :
  machine_wf s -> fetch_u64_le s = (Some target, s0) -> mmu_enabled (cpu s0) = false ->
  fetchable s0 target -> fetchable s0 (pc (cpu s0)) -> 8 <= sp_of s0 <= ram_size (machine_ram s0) ->
  exists s1 s2,
    execute_call s = (Some tt, s1) /\ pc (cpu s1) = target /\ sp_of s1 = sp_of s0 - 8 /\
    load_word (sp_of s1) s1 = pc (cpu s0) /\
    execute_ret s1 = (Some tt, s2) /\ cpu s2 = cpu s0 /\ bus s2 = bus s1.
Proof.
  intros Hs E Hm Ht Hp Hsp. destruct (fetch_u64_keeps machine_wf s Hs) as [H0 Hu].
  rewrite E in H0, Hu. cbn [fst snd] in *. specialize (Hu _ eq_refl).
  assert (word_in s0 (sp_of s0 - 8)) as Hi by (unfold word_in; lia).
  pose proof (cw_pc _ (mw_cpu s0 H0)) as Hpc.
  destruct (push_physical s0 (pc (cpu s0)) H0 Hm Hsp) as [Hpush Hw].
  set (s1 := set_cpu (set_pc target (cpu (pushed (pc (cpu s0)) s0))) (pushed (pc (cpu s0)) s0)).
  assert (sp_of s1 = sp_of s0 - 8) as Esp by by apply (sp_with (store_word _ _ s0)), store_word_wf.
  assert (machine_wf s1) as Hs1 by by apply fc_pc.
  assert (load_word (sp_of s1) s1 = pc (cpu s0)) as El.
  { rewrite Esp. exact (load_store_same s0 (sp_of s0 - 8) (pc (cpu s0)) Hpc). }
  exists s1. eexists. split_and!; [|done|exact Esp|exact El| | |].
  - unfold execute_call, exec_bind. rewrite E. unfold instruction_address_valid, exec_bind, read_cpu.
    rewrite address_valid by done. unfold push_pc, exec_bind, read_cpu. by rewrite Hpush.
  - apply ret_physical; [done|done|rewrite Esp; exact (word_in_store s0 _ _ _ Hi)|].
    rewrite El. exact (fetchable_store s0 _ _ _ H0 Hi Hp).
  - rewrite El, Esp. replace (sp_of s0 - 8 + 8) with (sp_of s0) by lia.
    pose proof (f_equal cpu (set_register_same s0 H0)) as H. simpl in H.
    unfold s1, pushed, with_sp. simpl.
    rewrite <-H at 3. unfold set_register, set_registers. simpl. by rewrite arr_set_twice.
  - done.
Qed.
End stack.

(** ** The properties on a concrete machine *)

Lemma demo_stack_wf m : machine_wf (demo_machine m [0; 0x30; 0; 0; 0; 0; 0; 0]).
Proof. apply demo_machine_wf. repeat (apply Forall_cons_2; [by vm_compute|]). apply Forall_nil_2. Qed.

Lemma handler_iret_roundtrip_witness :
  let s := demo_machine CPU_MODE_USER [0; 0x30; 0; 0; 0; 0; 0; 0] in
  exists s1 s2, enter_privileged_handler 0x2000 0x104 true s = (Some tt, s1) /\
    execute_iret s1 = (Some tt, s2) /\ cpu s2 = resumed 0x104 true (cpu s).
Proof.
  destruct (handler_iret_roundtrip 0x2000 0x104 true
    (demo_machine CPU_MODE_USER [0; 0x30; 0; 0; 0; 0; 0; 0]) (demo_stack_wf CPU_MODE_USER) eq_refl
    ltac:(vm_compute; split; discriminate) ltac:(split; [discriminate|reflexivity])
    ltac:(split; [discriminate|reflexivity]) ltac:(vm_compute; eexists; reflexivity))
    as (s1 & s2 & H1 & _ & H2 & H3 & _).
  exists s1, s2. split; [exact H1|]. split; [exact H2|exact H3].
Defined.

Lemma stack_lifo_witness :
  let s := demo_machine CPU_MODE_SUPERVISOR [0; 0x30; 0; 0; 0; 0; 0; 0] in
  exists s1, push_words [1; 2; 3] s = (Some tt, s1) /\ (pop_words 3 s1).1 = Some [3; 2; 1].
Proof.
  destruct (stack_lifo [1; 2; 3] (demo_machine CPU_MODE_SUPERVISOR [0; 0x30; 0; 0; 0; 0; 0; 0])
    (demo_stack_wf CPU_MODE_SUPERVISOR) eq_refl
    ltac:(repeat (apply Forall_cons_2; [split; [discriminate|reflexivity]|]); apply Forall_nil_2)
    ltac:(vm_compute; split; discriminate)) as (s1 & H1 & _ & H2 & _).
  exists s1. split; [exact H1|]. exact (f_equal fst H2).
Defined.

Lemma call_ret_roundtrip_witness :
  let s := demo_machine CPU_MODE_SUPERVISOR [0; 0x30; 0; 0; 0; 0; 0; 0] in
  exists s1 s2, execute_call s = (Some tt, s1) /\ pc (cpu s1) = 0x3000 /\
    execute_ret s1 = (Some tt, s2) /\ pc (cpu s2) = 0x108.
Proof.
  destruct (call_ret_roundtrip (demo_machine CPU_MODE_SUPERVISOR [0; 0x30; 0; 0; 0; 0; 0; 0])
    (fetch_u64_le (demo_machine CPU_MODE_SUPERVISOR [0; 0x30; 0; 0; 0; 0; 0; 0])).2 0x3000
    (demo_stack_wf CPU_MODE_SUPERVISOR) ltac:(vm_compute; reflexivity) ltac:(vm_compute; reflexivity)
    ltac:(vm_compute; eexists; reflexivity) ltac:(vm_compute; eexists; reflexivity)
    ltac:(vm_compute; split; discriminate)) as (s1 & s2 & H1 & H2 & _ & _ & H3 & H4 & _).
  exists s1, s2. split; [exact H1|]. split; [exact H2|]. split; [exact H3|].
  rewrite H4. vm_compute. reflexivity.
Defined.
