(* ===== verification/CpuFloat.v ===== *)
(** What the vector and floating-point instructions compute: lane-wise integer
    arithmetic, IEEE-754 comparison through the condition codes, saturating
    conversion, and the sticky status. *)

From S2P Require Import Prelude Ram Mmu Interrupt Bus Isa CpuCore CpuInv CpuExec CpuVector Cpu CpuSafety CpuStep CpuIsolation CpuPrecise CpuArith.
From stdpp Require Import base list numbers option.
From Stdlib Require Import ZArith Lia Bool SpecFloat.

#[local] Open Scope Z_scope.
#[local] Open Scope exec_scope.

(** ** Lanes *)

Lemma put_bytes_splice bytes value (at_ : nat) :
  (at_ + length bytes <= length value)%nat ->
  put_bytes value (Z.of_nat at_) bytes =
    take at_ value ++ bytes ++ drop (at_ + length bytes) value.
Proof.
  revert value at_. induction bytes as [|b bytes IH]; intros value at_ Hlen; simpl in *.
  { by rewrite Nat.add_0_r, take_drop. }
  replace (Z.of_nat at_ + 1) with (Z.of_nat (S at_)) by lia. unfold arr_set. rewrite Nat2Z.id.
  rewrite IH by (rewrite length_insert; lia).
  rewrite (take_S_r _ _ b) by (rewrite list_lookup_insert_eq by lia; done).
  rewrite take_insert_ge, drop_insert_lt by lia. rewrite <-app_assoc. simpl.
  by replace (S (at_ + length bytes)) with (at_ + S (length bytes))%nat by lia.
Qed.

(** The lane [j] of [width] bytes. *)
Definition lane_bytes (value : list Z) (j width : nat) : list Z := take width (drop (j * width) value).

Lemma read_lane_bytes value (j w : nat) :
  Forall is_u8 value -> (w <= 8)%nat ->
  read_lane value (Z.of_nat j) (Z.of_nat w) = bytes_to_int (lane_bytes value j w).
Proof.
  intros Hv Hw. unfold read_lane, lane_bytes. rewrite <-Nat2Z.inj_mul, !Nat2Z.id.
  apply or_bytes_correct; [by apply Forall_take, Forall_drop|]. rewrite length_take. lia.
Qed.

Lemma write_lane_same value (j w : nat) v :
  ((j + 1) * w <= length value)%nat ->
  lane_bytes (write_lane value (Z.of_nat j) (Z.of_nat w) v) j w = int_to_bytes (Z.of_nat w) v.
Proof.
  intros Hl. unfold write_lane, lane_bytes. rewrite <-Nat2Z.inj_mul.
  rewrite put_bytes_splice by (rewrite length_int_to_bytes; lia).
  rewrite drop_app_length' by (rewrite length_take; lia).
  by rewrite take_app_length' by (rewrite length_int_to_bytes; lia).
Qed.

Lemma lane_bytes_ext v1 v2 j w :
  (forall i, (j * w <= i < (j + 1) * w)%nat -> v1 !! i = v2 !! i) -> lane_bytes v1 j w = lane_bytes v2 j w.
Proof.
  intros H. apply list_eq. intros i. unfold lane_bytes. destruct (decide (i < w)%nat).
  - rewrite !lookup_take_lt, !lookup_drop by done. apply H. lia.
  - by rewrite !lookup_take_ge by lia.
Qed.

Lemma write_lane_other value (i j w : nat) v :
  ((i + 1) * w <= length value)%nat -> i <> j ->
  lane_bytes (write_lane value (Z.of_nat i) (Z.of_nat w) v) j w = lane_bytes value j w.
Proof.
  intros Hl Hij. apply lane_bytes_ext. intros k Hk. unfold write_lane. rewrite <-Nat2Z.inj_mul.
  rewrite put_bytes_splice by (rewrite length_int_to_bytes; lia).
  set (b := int_to_bytes _ v). assert (length b = w) as Hb by (unfold b; rewrite length_int_to_bytes; lia).
  destruct (decide (j < i)%nat).
  - rewrite lookup_app_l by (rewrite length_take; nia). apply lookup_take_lt. nia.
  - rewrite lookup_app_r by (rewrite length_take; nia).
    rewrite lookup_app_r by (rewrite length_take; nia). rewrite lookup_drop. f_equal.
    rewrite length_take. nia.
Qed.

Lemma length_put_bytes value at_ bytes : length (put_bytes value at_ bytes) = length value.
Proof.
  revert value at_. induction bytes as [|b l IH]; intros value at_; simpl; [done|].
  by rewrite IH, length_arr_set.
Qed.

Lemma length_write_lane value j w v : length (write_lane value j w v) = length value.
Proof. apply length_put_bytes. Qed.

(** A loop that writes each lane once. *)
Lemma fold_lanes (f : Z -> Z) (w : nat) lanes value (j : nat) :
  NoDup lanes -> (forall i, i ∈ lanes -> 0 <= i /\ (i + 1) * Z.of_nat w <= Z.of_nat (length value)) ->
  lane_bytes (fold_left (fun v lane => write_lane v lane (Z.of_nat w) (f lane)) lanes value) j w =
    if decide (Z.of_nat j ∈ lanes) then int_to_bytes (Z.of_nat w) (f (Z.of_nat j))
    else lane_bytes value j w.
Proof.
  revert value. induction lanes as [|i lanes IH]; intros value Hnd Hin; cbn [fold_left].
  { rewrite decide_False; [done|]. apply not_elem_of_nil. }
  inversion Hnd as [|? ? Hi Hnd']; subst. destruct (Hin i) as [H0 Hw]; [by apply list_elem_of_here|].
  rewrite IH; [|exact Hnd'|].
  - destruct (decide (Z.of_nat j ∈ lanes)) as [Hj|Hj].
    { by rewrite decide_True by (by apply list_elem_of_further). }
    replace i with (Z.of_nat (Z.to_nat i)) in * by lia. set (n := Z.to_nat i) in *.
    destruct (decide (j = n)) as [->|Hne].
    + rewrite decide_True by apply list_elem_of_here. apply write_lane_same. lia.
    + rewrite decide_False by (rewrite elem_of_cons; intros [?|?]; [lia|done]).
      apply write_lane_other; [lia|done].
  - intros k Hk. rewrite length_write_lane. apply Hin. by apply list_elem_of_further.
Qed.

Lemma vector_integer_lanes op (w j : nat) left right :
  (w = 1 \/ w = 2 \/ w = 4 \/ w = 8)%nat -> (j < 16 / w)%nat -> vector_ok left -> vector_ok right ->
  read_lane (vector_integer_result op (Z.of_nat w) left right) (Z.of_nat j) (Z.of_nat w) =
    vector_integer op (read_lane left (Z.of_nat j) (Z.of_nat w))
      (read_lane right (Z.of_nat j) (Z.of_nat w)) mod 2 ^ (8 * Z.of_nat w).
Proof.
  intros Hw Hj Hl Hr. pose proof (vector_integer_ok op (Z.of_nat w) left right) as [_ Hok].
  assert (VECTOR_REGISTER_SIZE / Z.of_nat w = Z.of_nat (16 / w) /\
    Z.of_nat (16 / w) * Z.of_nat w = 16) as [En E16] by (by destruct Hw as [->|[->|[->| ->]]]).
  rewrite read_lane_bytes; [|done|lia]. unfold vector_integer_result. rewrite En.
  rewrite (fold_lanes (fun lane => vector_integer op (read_lane left lane (Z.of_nat w))
    (read_lane right lane (Z.of_nat w)))).
  - rewrite decide_True.
    + rewrite bytes_to_int_to_bytes. f_equal. by rewrite Z.pow_mul_r by lia.
    + apply elem_of_seqZ. lia.
  - apply NoDup_seqZ.
  - intros i Hi%elem_of_seqZ. unfold zero_vector. rewrite length_replicate. nia.
Qed.

(** ** Comparison *)

Lemma SFcompare_swap x y :
  SFcompare y x = match SFcompare x y with Some c => Some (CompOpp c) | None => None end.
Proof.
  destruct x as [[]|[]| |[] mx ex], y as [[]|[]| |[] my ey]; try done; simpl;
    rewrite (Z.compare_antisym ex ey); destruct (ex ?= ey); try done;
    rewrite (Pos.compare_cont_antisym mx my Eq); by destruct (Pos.compare_cont Eq mx my).
Qed.

Lemma SFcompare_nan x y : SFcompare x y = None <-> isnan x || isnan y = true.
Proof.
  destruct x as [[]|[]| |[] mx ex], y as [[]|[]| |[] my ey]; try done; simpl;
    split; try done; destruct (ex ?= ey); done.
Qed.

(** What each condition asks of two floating-point numbers. *)
Definition float_comparison (condition : Z) (x y : spec_float) : bool :=
  if condition =? CPU_CONDITION_EQ then SFeqb x y
  else if condition =? CPU_CONDITION_NE then negb (SFeqb x y)
  else if condition =? CPU_CONDITION_LT then SFltb x y
  else if condition =? CPU_CONDITION_LE then SFleb x y
  else if condition =? CPU_CONDITION_GT then SFltb y x
  else if condition =? CPU_CONDITION_GE then SFleb y x
  else if condition =? CPU_CONDITION_ORDERED then negb (isnan x || isnan y)
  else if condition =? CPU_CONDITION_UNORDERED then isnan x || isnan y
  else true.

Definition float_condition (condition : Z) : bool :=
  (0 <=? condition) && (condition <=? CPU_CONDITION_GE) ||
  (condition =? CPU_CONDITION_ORDERED) || (condition =? CPU_CONDITION_UNORDERED).

Lemma float_flags_word f fl k :
  0 <= k -> k <> 4 ->
  has_bits (Z.lor (Z.land f CPU_FLAG_INTERRUPT_ENABLE) fl) (2 ^ k) = has_bits fl (2 ^ k).
Proof.
  intros Hk H4. rewrite !has_bits_pow2, Z.lor_spec, Z.land_spec by done.
  change CPU_FLAG_INTERRUPT_ENABLE with (2 ^ 4). rewrite Z.pow2_bits_false by lia.
  by rewrite andb_false_r.
Qed.

Lemma float_flags_condition f condition l r c :
  float_condition condition = true ->
  condition_matches condition
    (set_flags (Z.lor (Z.land (flags c) CPU_FLAG_INTERRUPT_ENABLE) (float_compare_flags f l r).1) c) =
  float_comparison condition (float_of_bits f l) (float_of_bits f r).
Proof.
  intros Hc. set (x := float_of_bits f l). set (y := float_of_bits f r).
  assert (0 <= condition <= 6 \/ condition = 11 \/ condition = 12) as H.
  { unfold float_condition in Hc. rewrite !orb_true_iff, andb_true_iff, !Z.leb_le, !Z.eqb_eq in Hc.
    unfold CPU_CONDITION_GE, CPU_CONDITION_ORDERED, CPU_CONDITION_UNORDERED in Hc. lia. }
  unfold condition_matches, flag_set. cbn [flags set_flags].
  change CPU_FLAG_ZERO with (2 ^ 0). change CPU_FLAG_NEGATIVE with (2 ^ 1).
  change CPU_FLAG_CARRY with (2 ^ 2). change CPU_FLAG_OVERFLOW with (2 ^ 3).
  change CPU_FLAG_UNORDERED with (2 ^ 5).
  rewrite !float_flags_word by lia.
  unfold float_compare_flags. fold x y. clearbody x y.
  pose proof (SFcompare_nan x y) as Hn. pose proof (SFcompare_swap x y) as Hs.
  unfold float_comparison, SFeqb, SFltb, SFleb in *. rewrite !Hs. clear Hs.
  destruct (SFcompare x y) as [[]|]; destruct (isnan x || isnan y) eqn:E; try (by destruct Hn; auto with *);
  assert (condition = 0 \/ condition = 1 \/ condition = 2 \/ condition = 3 \/ condition = 4 \/
    condition = 5 \/ condition = 6 \/ condition = 11 \/ condition = 12) as H' by lia;
  repeat destruct H' as [->|H']; try subst condition; try reflexivity.
  all: exfalso; destruct Hn as [H1 H2]; first [discriminate (H1 eq_refl) | discriminate (H2 eq_refl)].
Qed.

(** ** Conversion to integers *)

(** The format and the width the conversion instructions use. *)
Definition int_format (f : Format) (n : Z) : Prop := f = binary32 /\ n = 31 \/ f = binary64 /\ n = 63.

(** A decoded number is normalised. *)
Lemma float_of_bits_canonical f n bits s m e :
  int_format f n -> float_of_bits f bits = S754_finite s m e ->
  Z.pos m < 2 ^ f_prec f /\ (2 ^ f_mbits f <= Z.pos m \/ e = f_emin f).
Proof.
  intros Hf. unfold float_of_bits.
  assert (0 < 2 ^ f_mbits f /\ 2 ^ f_prec f = 2 * 2 ^ f_mbits f) as [Hp E2]
    by (by destruct Hf as [[-> _]|[-> _]]).
  pose proof (Z.mod_pos_bound bits (2 ^ f_mbits f) Hp) as Hfrac.
  set (fraction := bits mod 2 ^ f_mbits f) in *. set (exponent := _ mod 2 ^ f_ebits f).
  destruct (exponent =? 0).
  - destruct fraction as [|k|k] eqn:E; try done. intros [= _ <- <-]. lia.
  - destruct (exponent =? _); [by destruct (fraction =? 0)|].
    destruct (fraction + 2 ^ f_mbits f) as [|k|k] eqn:E; try done. intros [= _ <- _]. lia.
Qed.

Definition in_int_range (n v : Z) : bool := (- 2 ^ n <=? v) && (v <? 2 ^ n).
Definition saturate (n v : Z) : Z := Z.max (- 2 ^ n) (Z.min (2 ^ n - 1) v).

(** Magnitudes on either side of the exponent [k] of the limit 2^n. *)
Lemma magnitude_bounds (m : positive) e p k :
  1 <= p -> 0 <= k -> Z.pos m < 2 ^ p ->
  let t := if 0 <=? e then Z.pos m * 2 ^ e else Z.pos m / 2 ^ (- e) in
  0 <= t /\
  (e < k -> t < 2 ^ (p - 1 + k)) /\
  (k < e -> 2 ^ (p - 1) <= Z.pos m -> 2 ^ (p - 1 + k) < t) /\
  (e = k -> t = Z.pos m * 2 ^ k).
Proof.
  intros Hp Hk Hm t. unfold t. destruct (Z.leb_spec 0 e) as [He|He].
  - assert (0 < 2 ^ e) by lia. split; [nia|]. split; [|split; [|by intros ->]].
    + intros Hlt. assert (2 ^ e <= 2 ^ (k - 1)) by (apply Z.pow_le_mono_r; lia).
      replace (p - 1 + k) with (p + (k - 1)) by lia. rewrite Z.pow_add_r by lia. nia.
    + intros Hlt Hn. assert (2 ^ (k + 1) <= 2 ^ e) by (apply Z.pow_le_mono_r; lia).
      rewrite Z.pow_add_r in * by lia. assert (0 < 2 ^ k) by lia. nia.
  - assert (0 < 2 ^ (- e)) as He2 by lia. split; [apply Z.div_pos; lia|].
    split; [|split; intros; lia]. intros _.
    assert (2 ^ 1 <= 2 ^ (- e)) as He1 by (apply Z.pow_le_mono_r; lia). change (2 ^ 1) with 2 in He1.
    apply Z.div_lt_upper_bound; [done|]. rewrite Z.pow_add_r by lia.
    assert (2 ^ p = 2 * 2 ^ (p - 1)) as E by (rewrite <-Z.pow_succ_r by lia; f_equal; lia).
    assert (1 <= 2 ^ k) as Hk1 by (apply (Z.pow_le_mono_r 2 0 k); lia).
    set (a := 2 ^ (p - 1)) in *. set (b := 2 ^ k) in *. set (c := 2 ^ (- e)) in *.
    assert (a <= a * b) by nia. assert (2 * (a * b) <= c * (a * b)) by nia. lia.
Qed.

Lemma limit_floats f n :
  int_format f n ->
  exists m k, float_of_int f (2 ^ n) = S754_finite false m k /\
    float_of_int f (- 2 ^ n) = S754_finite true m k /\
    Z.pos m = 2 ^ f_mbits f /\ n = f_prec f - 1 + k /\ 0 <= k /\ f_emin f < k /\ 1 <= f_prec f.
Proof.
  intros [[-> ->]|[-> ->]]; [exists 8388608%positive, 8|exists 4503599627370496%positive, 11];
    (split; [by vm_compute|]); (split; [by vm_compute|]); by vm_compute.
Qed.

Lemma pos_compare m m' : Pos.compare_cont Eq m m' = (Z.pos m ?= Z.pos m').
Proof. done. Qed.

(** The conversion saturates the truncated value. *)
Lemma float_to_int_finite f n bits :
  int_format f n -> isfinite (float_of_bits f bits) = true ->
  let t := truncate_float (float_of_bits f bits) in
  float_to_int f bits n = (saturate n t, negb (in_int_range n t)).
Proof.
  intros Hf Hfin t. unfold float_to_int.
  destruct (limit_floats f n Hf) as (ml & k & -> & -> & Eml & En & Hk & Hke & Hprec).
  assert (0 < 2 ^ n) as Hn by (destruct Hf as [[_ ->]|[_ ->]]; reflexivity).
  subst t. unfold saturate, in_int_range.
  destruct (float_of_bits f bits) as [s|s| |s m e] eqn:Ev; try done.
  { destruct s; simpl; f_equal; try lia; destruct (Z.leb_spec (- 2 ^ n) 0), (Z.ltb_spec 0 (2 ^ n)); lia || done. }
  destruct (float_of_bits_canonical f n bits s m e Hf Ev) as [Hm Hcan].
  destruct (magnitude_bounds m e (f_prec f) k Hprec Hk Hm) as (H0 & Hlt & Hgt & Heq).
  unfold f_mbits in *. rewrite <-En in *.
  unfold truncate_float. set (t := if 0 <=? e then _ else _) in *. clearbody t.
  unfold SFleb, SFltb. cbn [isnan SFcompare].
  assert (2 ^ n = Z.pos ml * 2 ^ k) as EN by (by rewrite Eml, <-Z.pow_add_r, <-En by lia).
  assert (0 < 2 ^ k) as Hpk by lia. rewrite <-Eml in *.
  set (N := 2 ^ n) in *. set (K := 2 ^ k) in *. clearbody N K.
  rewrite (pos_compare ml m), (pos_compare m ml), (Z.compare_antisym e k), (Z.compare_antisym (Z.pos m)).
  destruct (Z.compare_spec e k) as [He|He|He]; cbn [CompOpp].
  - specialize (Heq He). assert (Z.pos ml <= Z.pos m) as Hle by lia.
    destruct (Z.compare_spec (Z.pos m) (Z.pos ml)) as [Ec|Ec|Ec]; cbn [CompOpp]; [|lia|].
    + assert (t = N) as -> by congruence. clear - Hn. destruct s; f_equal; bool_cases.
    + assert (N < t) as Ht by (rewrite Heq, EN; apply Z.mul_lt_mono_pos_r; lia).
      clear - Hn Ht. destruct s; f_equal; bool_cases.
  - specialize (Hlt He). clear - Hn Hlt H0. destruct s; f_equal; bool_cases.
  - assert (N < t) as Ht by (apply Hgt; lia). clear - Hn Ht. destruct s; f_equal; bool_cases.
Qed.

(** ** The status bits *)

Definition div_by_zero (f : Format) (left right : Z) (op : FloatingPointOperation) : bool :=
  let l := float_of_bits f left in
  let r := float_of_bits f right in
  match op with FLOAT_DIVIDE => is_zero r && negb (is_zero l) && isfinite l | _ => false end.

Lemma or_if_bits (b : bool) x m k :
  Z.testbit (if b then Z.lor x m else x) k = Z.testbit x k || (b && Z.testbit m k).
Proof. destruct b; [apply Z.lor_spec|by rewrite orb_false_r]. Qed.

Lemma status_bits f status l r v op k :
  Z.testbit (update_float_status f status l r v op) k =
    Z.testbit status k || (isnan (float_of_bits f v) && Z.testbit CPU_FP_INVALID k)
    || (div_by_zero f l r op && Z.testbit CPU_FP_DIVIDE_BY_ZERO k)
    || (negb (div_by_zero f l r op) && isfinite (float_of_bits f l) && isfinite (float_of_bits f r)
        && isinf (float_of_bits f v) && Z.testbit CPU_FP_OVERFLOW k)
    || (negb (is_zero (float_of_bits f v)) && is_subnormal f (float_of_bits f v)
        && Z.testbit CPU_FP_UNDERFLOW k).
Proof. unfold update_float_status. cbv zeta. by rewrite !or_if_bits. Qed.

Definition int_operation (op : VectorIntegerOperation) (x y : Z) : Z :=
  match op with
  | VECTOR_INTEGER_ADD => x + y
  | VECTOR_INTEGER_SUBTRACT => x - y
  | VECTOR_INTEGER_MULTIPLY => x * y
  end.

Lemma vector_integer_mod op x y (w : nat) :
  (w <= 8)%nat ->
  vector_integer op x y mod 2 ^ (8 * Z.of_nat w) = int_operation op x y mod 2 ^ (8 * Z.of_nat w).
Proof.
  intros Hw. assert (forall a, wrap64 a mod 2 ^ (8 * Z.of_nat w) = a mod 2 ^ (8 * Z.of_nat w)) as H.
  { intros a. unfold wrap64. change 0x10000000000000000 with (2 ^ 64).
    replace 64 with (8 * Z.of_nat w + (64 - 8 * Z.of_nat w)) by lia.
    rewrite Z.pow_add_r by lia. rewrite Z.mul_comm. symmetry.
    rewrite (Z.div_mod a (2 ^ (64 - 8 * Z.of_nat w) * 2 ^ (8 * Z.of_nat w))) at 1 by lia.
    rewrite Z.add_comm, (Z.mul_comm (_ * _)), Z.mul_assoc, Z.mod_add by lia. done. }
  destruct op; apply H.
Qed.

(** * Properties *)

Section handlers.
Context {D : Type} {DI : DevInv D} `{HN : HostNan}.
Implicit Types (s : Machine D).

(** The vector integer instructions work lane by lane.  VADD, VSUB and VMUL
    on lanes of 1, 2, 4 or 8 bytes leave in each lane of the destination the
    sum, difference or product of the lanes of the operands modulo the lane's
    width; no lane affects another, and only the destination changes. *)
Theorem vector_integer_correct s s1 d l r (w : nat) op :
  machine_wf s -> fetch_vector_triple s = (Some (d, l, r), s1) ->
  (w = 1 \/ w = 2 \/ w = 4 \/ w = 8)%nat ->
  exists v, execute_vector_integer (Z.of_nat w) op s =
      (Some tt, set_cpu (set_vector d v (cpu s1)) s1) /\ vector_ok v /\
    forall j, (j < 16 / w)%nat ->
      read_lane v (Z.of_nat j) (Z.of_nat w) =
        int_operation op (read_lane (get_vector (cpu s1) l) (Z.of_nat j) (Z.of_nat w))
          (read_lane (get_vector (cpu s1) r) (Z.of_nat j) (Z.of_nat w)) mod 2 ^ (8 * Z.of_nat w).
Proof.
  intros Hs E Hw. destruct (fetch_vector_triple_keeps machine_wf s Hs) as [Hs1 Hq].
  rewrite E in Hs1, Hq. destruct (Hq _ eq_refl) as [[_ Hl] Hr]. cbn [fst snd] in *.
  eexists. split; [unfold execute_vector_integer, exec_bind; rewrite E; reflexivity|].
  split; [apply vector_integer_ok|]. intros j Hj. cbv beta.
  rewrite vector_integer_lanes by (done || by apply vector_reg_ok; [apply mw_cpu|]).
  apply vector_integer_mod. lia.
Qed.

(** FCMP and the condition codes decide the IEEE-754 comparison.  EQ, LT,
    LE, GT and GE hold exactly when the numbers compare so, which no NaN does;
    NE holds for a NaN; ORDERED and UNORDERED tell the cases apart, and an
    unordered comparison sets the invalid bit of the status. *)
Theorem fcmp_conditions f s s1 a b condition :
  fetch_vector_pair s = (Some (a, b), s1) -> float_condition condition = true ->
  let x := float_of_bits f (read_float f (get_vector (cpu s1) a) 0) in
  let y := float_of_bits f (read_float f (get_vector (cpu s1) b) 0) in
  exists s2, execute_float_compare f s = (Some tt, s2) /\
    (evaluate_condition (D:=D) condition s2).1 = Some (float_comparison condition x y) /\
    fp_status (cpu s2) = (if isnan x || isnan y then Z.lor (fp_status (cpu s1)) CPU_FP_INVALID
                          else fp_status (cpu s1)) /\
    registers (cpu s2) = registers (cpu s1).
Proof.
  intros E Hc x y. unfold execute_float_compare, exec_bind. rewrite E.
  unfold vector, read_cpu. cbv beta iota zeta.
  set (l := read_float f (get_vector (cpu s1) a) 0) in *.
  set (r := read_float f (get_vector (cpu s1) b) 0) in *.
  pose proof (float_flags_condition f condition l r (cpu s1) Hc) as Hm.
  assert ((float_compare_flags f l r).2 = isnan x || isnan y) as Ei.
  { unfold float_compare_flags. fold x y. destruct (isnan x || isnan y); [done|].
    by destruct (SFeqb x y), (SFltb x y). }
  destruct (float_compare_flags f l r) as [fl invalid]. cbn [fst snd] in *. subst invalid.
  assert ((CPU_CONDITION_COUNT <=? condition) = false) as Ecount.
  { apply Z.leb_gt. unfold float_condition, CPU_CONDITION_GE, CPU_CONDITION_ORDERED,
      CPU_CONDITION_UNORDERED in Hc. change CPU_CONDITION_COUNT with 13. lia. }
  eexists. split; [reflexivity|]. unfold evaluate_condition. rewrite Ecount. fold x y in Hm.
  clearbody x y. destruct (isnan x || isnan y); simpl; rewrite <-Hm; done.
Qed.

(** Converting to an integer saturates.  F32TOI32 and F64TOI64 truncate
    towards zero a number whose integer part fits, give the nearest bound of the
    signed type for one that does not (an infinity included) and 0 for a NaN;
    the invalid bit is set exactly when the result is not the truncation. *)
Theorem float_to_int_saturates f n bits :
  int_format f n ->
  float_to_int f bits n =
    match float_of_bits f bits with
    | S754_nan => (0, true)
    | S754_infinity negative => (if negative then - 2 ^ n else 2 ^ n - 1, true)
    | x => (saturate n (truncate_float x), negb (in_int_range n (truncate_float x)))
    end.
Proof.
  intros Hf. pose proof (float_to_int_finite f n bits Hf) as H. cbv zeta in H.
  destruct (float_of_bits f bits) as [z|neg| |z m e] eqn:E; try by apply H.
  - unfold float_to_int. rewrite E. destruct (limit_floats f n Hf) as (m & k & -> & -> & _).
    by destruct neg.
  - unfold float_to_int. by rewrite E.
Qed.

(** Scalar arithmetic and its sticky status.  The destination's first lane
    is the rounded IEEE result; the operation keeps every status bit that was
    set; it sets the invalid bit when the IEEE result is a NaN, and the divide-by-zero bit when a finite nonzero number is
    divided by zero. *)
Theorem scalar_float_status `{HL : !HostNanLaws} f op s s1 d l r :
  f = binary32 \/ f = binary64 -> fetch_vector_triple s = (Some (d, l, r), s1) ->
  let x := read_float f (get_vector (cpu s1) l) 0 in
  let y := read_float f (get_vector (cpu s1) r) 0 in
  exists s2, execute_scalar_float f op s = (Some tt, s2) /\
    vector_registers (cpu s2) = <[Z.to_nat d := write_float f zero_vector 0 (calculate_float f x y op)]>
      (vector_registers (cpu s1)) /\
    (forall k, Z.testbit (fp_status (cpu s1)) k = true -> Z.testbit (fp_status (cpu s2)) k = true) /\
    (sf_calculate f (float_of_bits f x) (float_of_bits f y) op = S754_nan ->
       has_bits (fp_status (cpu s2)) CPU_FP_INVALID = true) /\
    (div_by_zero f x y op = true -> has_bits (fp_status (cpu s2)) CPU_FP_DIVIDE_BY_ZERO = true).
Proof.
  intros Hf E x y. unfold execute_scalar_float, exec_bind. rewrite E.
  unfold vector, read_cpu. cbv beta iota zeta. fold x y.
  eexists. split; [reflexivity|]. split; [done|]. cbn [cpu set_cpu fp_status set_fp_status set_vector set_vector_registers].
  change CPU_FP_INVALID with (2 ^ 0). change CPU_FP_DIVIDE_BY_ZERO with (2 ^ 1).
  rewrite !has_bits_pow2 by lia. split_and!.
  - intros k Hk. by rewrite status_bits, Hk.
  - intros Hnan. rewrite status_bits. unfold calculate_float at 1. rewrite Hnan. cbn [bits_of_float].
    destruct (host_nan_is_nan f op x y Hf) as [_ ->]. by rewrite orb_true_r.
  - intros Hz. rewrite status_bits, Hz. simpl. by rewrite !orb_true_r.
Qed.
End handlers.

(** ** The properties on a concrete machine *)

Lemma demo_vectors_wf : machine_wf (demo_machine CPU_MODE_USER [1; 2; 3]).
Proof. apply demo_machine_wf. repeat (apply Forall_cons_2; [by vm_compute|]). apply Forall_nil_2. Qed.

Lemma vector_integer_correct_witness :
  exists v, execute_vector_integer 2 VECTOR_INTEGER_ADD (demo_machine CPU_MODE_USER [1; 2; 3]) =
    (Some tt, set_cpu (set_vector 1 v (cpu (fetch_vector_triple (demo_machine CPU_MODE_USER [1; 2; 3])).2))
      (fetch_vector_triple (demo_machine CPU_MODE_USER [1; 2; 3])).2) /\ read_lane v 7 2 = 0.
Proof.
  destruct (vector_integer_correct (demo_machine CPU_MODE_USER [1; 2; 3])
    (fetch_vector_triple (demo_machine CPU_MODE_USER [1; 2; 3])).2 1 2 3 2 VECTOR_INTEGER_ADD
    demo_vectors_wf ltac:(vm_compute; reflexivity) ltac:(right; left; reflexivity)) as (v & H1 & _ & H2).
  exists v. split; [exact H1|]. etransitivity; [apply (H2 7%nat); vm_compute; lia|].
  vm_compute. reflexivity.
Defined.

Lemma fcmp_conditions_witness :
  exists s2, execute_float_compare binary64 (demo_machine CPU_MODE_USER [1; 2; 3]) = (Some tt, s2) /\
    (evaluate_condition (D:=unit) CPU_CONDITION_GE s2).1 = Some true.
Proof.
  destruct (fcmp_conditions binary64 (demo_machine CPU_MODE_USER [1; 2; 3])
    (fetch_vector_pair (demo_machine CPU_MODE_USER [1; 2; 3])).2 1 2 CPU_CONDITION_GE
    ltac:(vm_compute; reflexivity) eq_refl) as (s2 & H1 & H2 & _).
  exists s2. split; [exact H1|]. rewrite H2. vm_compute. reflexivity.
Defined.

Lemma float_to_int_saturates_witness :
  float_to_int binary32 0x4F000000 31 = (0x7FFFFFFF, true).
Proof.
  etransitivity; [exact (float_to_int_saturates binary32 31 0x4F000000 (or_introl (conj eq_refl eq_refl)))|].
  vm_compute. reflexivity.
Defined.

#[export] Instance demo_nan_laws : HostNanLaws.
Proof. split; intros; destruct_or!; subst; by vm_compute. Qed.

(** 0 / 0 *)
Lemma scalar_float_status_witness :
  exists s2, execute_scalar_float binary64 FLOAT_DIVIDE (demo_machine CPU_MODE_USER [1; 2; 3]) =
    (Some tt, s2) /\ has_bits (fp_status (cpu s2)) CPU_FP_INVALID = true.
Proof.
  destruct (scalar_float_status binary64 FLOAT_DIVIDE (demo_machine CPU_MODE_USER [1; 2; 3])
    (fetch_vector_triple (demo_machine CPU_MODE_USER [1; 2; 3])).2 1 2 3 (or_intror eq_refl)
    ltac:(vm_compute; reflexivity)) as (s2 & H1 & _ & _ & H2 & _).
  exists s2. split; [exact H1|]. apply H2. vm_compute. reflexivity.
Defined.
