(* ===== verification/KernelList.v ===== *)
(** The kernel's intrusive lists: kernel/runtime.c.

    A [KernelListNode] is embedded in the objects a list links; [NodeMem] is the
    memory of all nodes by address, the sentinels of the lists included, so that
    a node aliases every pointer to it.  [dll m s L] says that the circular list
    with sentinel [s] visits exactly the nodes [L]. *)

From S2P Require Import Prelude.
From Stdlib Require Import ZArith Lia Bool.
From stdpp Require Import base list numbers gmap option.

#[local] Open Scope Z_scope.

Record KernelListNode := mkNode { previous : Z; next : Z }.

Abbreviation NodeMem := (gmap Z KernelListNode).

(** [sentinel] is the address of the sentinel inside the list. *)
Record KernelList := mkList { sentinel : Z; count : Z }.

Definition node_at (m : NodeMem) (a : Z) : KernelListNode := default (mkNode 0 0) (m !! a).
Definition set_previous (m : NodeMem) (a v : Z) : NodeMem := <[a := mkNode v (next (node_at m a))]> m.
Definition set_next (m : NodeMem) (a v : Z) : NodeMem := <[a := mkNode (previous (node_at m a)) v]> m.

Definition kernel_list_init (m : NodeMem) (list : KernelList) : NodeMem * KernelList :=
  let s := sentinel list in
  let m := set_previous m s s in
  let m := set_next m s s in
  (m, mkList s 0).

Definition kernel_list_empty (list : KernelList) : bool := count list =? 0.

Definition kernel_list_push_back (m : NodeMem) (list : KernelList) (node : Z) : NodeMem * KernelList :=
  if node =? 0 then (m, list)
  else
    let s := sentinel list in
    let m := set_previous m node (previous (node_at m s)) in
    let m := set_next m node s in
    let m := set_next m (previous (node_at m s)) node in
    let m := set_previous m s node in
    (m, mkList s (count list + 1)).

Definition kernel_list_remove (m : NodeMem) (list : KernelList) (node : Z) : NodeMem * KernelList :=
  let s := sentinel list in
  if (node =? 0) || (node =? s) || (previous (node_at m node) =? 0) || (next (node_at m node) =? 0) ||
     (count list =? 0)
  then (m, list)
  else
    let m := set_next m (previous (node_at m node)) (next (node_at m node)) in
    let m := set_previous m (next (node_at m node)) (previous (node_at m node)) in
    let m := set_previous m node 0 in
    let m := set_next m node 0 in
    (m, mkList s (count list - 1)).

(** [NULL] is [None]. *)
Definition kernel_list_pop_front (m : NodeMem) (list : KernelList) : option Z * (NodeMem * KernelList) :=
  if kernel_list_empty list then (None, (m, list))
  else
    let node := next (node_at m (sentinel list)) in
    (Some node, kernel_list_remove m list node).

(** ** Segments *)

Fixpoint seg (m : NodeMem) (a : Z) (L : list Z) (b : Z) : Prop :=
  match L with
  | [] => next (node_at m a) = b /\ previous (node_at m b) = a
  | x :: L => next (node_at m a) = x /\ previous (node_at m x) = a /\ seg m x L b
  end.

Definition last_of (a : Z) (L : list Z) : Z := default a (list.last L).

Record dll (m : NodeMem) (l : KernelList) (L : list Z) : Prop := {
  dll_seg : seg m (sentinel l) L (sentinel l);
  dll_distinct : NoDup (sentinel l :: L);
  dll_nonzero : Forall (fun x => x <> 0) (sentinel l :: L);
  dll_count : count l = Z.of_nat (length L);
}.

(** Nodes outside [L] are as they were. *)
Definition nodes_same (S : list Z) (m m' : NodeMem) : Prop := forall a, a ∉ S -> node_at m' a = node_at m a.

Lemma node_set_previous m a v b :
  node_at (set_previous m a v) b = if decide (a = b) then mkNode v (next (node_at m a)) else node_at m b.
Proof. unfold set_previous, node_at. rewrite lookup_insert. by case_decide. Qed.

Lemma node_set_next m a v b :
  node_at (set_next m a v) b = if decide (a = b) then mkNode (previous (node_at m a)) v else node_at m b.
Proof. unfold set_next, node_at. rewrite lookup_insert. by case_decide. Qed.

Lemma previous_set_previous m a v b : previous (node_at (set_previous m a v) b) = if decide (a = b) then v else previous (node_at m b).
Proof. rewrite node_set_previous. by case_decide. Qed.
Lemma next_set_previous m a v b : next (node_at (set_previous m a v) b) = next (node_at m b).
Proof. rewrite node_set_previous. case_decide; by subst. Qed.
Lemma previous_set_next m a v b : previous (node_at (set_next m a v) b) = previous (node_at m b).
Proof. rewrite node_set_next. case_decide; by subst. Qed.
Lemma next_set_next m a v b : next (node_at (set_next m a v) b) = if decide (a = b) then v else next (node_at m b).
Proof. rewrite node_set_next. by case_decide. Qed.

Create Rewrite HintDb nodes.
#[export] Hint Rewrite previous_set_previous next_set_previous previous_set_next next_set_next : nodes.

Lemma seg_app m a L1 x L2 b : seg m a (L1 ++ x :: L2) b <-> seg m a L1 x /\ seg m x L2 b.
Proof. revert a. induction L1 as [|y L1 IH]; intros a; cbn; [tauto|]. rewrite IH. tauto. Qed.

Lemma last_of_cons a x L : last_of a (x :: L) = last_of x L.
Proof. unfold last_of. rewrite last_cons. by destruct (list.last L). Qed.

Lemma last_of_elem a L : last_of a L = a \/ last_of a L ∈ L.
Proof.
  unfold last_of. destruct (list.last L) eqn:E; [|by left]. right. by apply last_Some_elem_of.
Qed.

Lemma seg_ends m a L b : seg m a L b -> next (node_at m (last_of a L)) = b /\ previous (node_at m b) = last_of a L.
Proof.
  revert a. induction L as [|x L IH]; intros a; cbn [seg]; [done|]. intros (_ & _ & H). rewrite last_of_cons. by apply IH.
Qed.

Lemma seg_frame m m' a L b :
  seg m a L b ->
  (forall x, x ∈ a :: L -> next (node_at m' x) = next (node_at m x)) ->
  (forall x, x ∈ L ++ [b] -> previous (node_at m' x) = previous (node_at m x)) -> seg m' a L b.
Proof.
  revert a. induction L as [|x L IH]; intros a; cbn [seg app].
  - intros [H1 H2] Hn Hp. by rewrite Hn, Hp by left.
  - intros (H1 & H2 & H3) Hn Hp. rewrite Hn, Hp by by left. split_and!; [done..|].
    apply IH; [done|intros y Hy; apply Hn; by right|intros y Hy; apply Hp; by right].
Qed.

(** The same nodes, now followed by [c]. *)
Lemma seg_retarget m m' a L b c :
  seg m a L b -> NoDup (a :: L) ->
  (forall x, x ∈ a :: L -> x <> last_of a L -> next (node_at m' x) = next (node_at m x)) ->
  (forall x, x ∈ L -> previous (node_at m' x) = previous (node_at m x)) ->
  next (node_at m' (last_of a L)) = c -> previous (node_at m' c) = last_of a L -> seg m' a L c.
Proof.
  revert a. induction L as [|x L IH]; intros a; cbn [seg]; [done|].
  intros (H1 & H2 & H3) Hd Hn Hp Hl Hc. rewrite last_of_cons in *. apply list.NoDup_cons in Hd as [Ha Hd].
  assert (a <> last_of x L) as Hne.
  { intros ->. apply Ha. destruct (last_of_elem x L) as [->|?]; [by left|by right]. }
  rewrite Hn, Hp by (done || by left). split_and!; [done..|].
  apply IH; try done; [intros y Hy; apply Hn; by right|intros y Hy; apply Hp; by right].
Qed.

Lemma last_of_in a L : last_of a L ∈ a :: L.
Proof. destruct (last_of_elem a L) as [->|?]; [by left|by right]. Qed.

Lemma node_eq n n' : previous n = previous n' -> next n = next n' -> n = n'.
Proof. destruct n, n'; cbn; congruence. Qed.

(** ** The operations *)

Lemma list_init_spec m l :
  sentinel l <> 0 ->
  let '(m', l') := kernel_list_init m l in
  dll m' l' [] /\ sentinel l' = sentinel l /\ nodes_same [sentinel l] m m'.
Proof.
  intros H0. cbn. split_and!; [|done|].
  - split; cbn; [|apply NoDup_singleton|by apply list.Forall_singleton|done].
    autorewrite with nodes. by rewrite !decide_True.
  - intros a Ha. assert (sentinel l <> a) by (intros <-; apply Ha; by left).
    apply node_eq; autorewrite with nodes; by rewrite ?decide_False.
Qed.

Lemma push_back_spec m l L n :
  dll m l L -> n ∉ sentinel l :: L -> n <> 0 ->
  let '(m', l') := kernel_list_push_back m l n in
  dll m' l' (L ++ [n]) /\ sentinel l' = sentinel l /\ nodes_same (n :: sentinel l :: L) m m'.
Proof.
  intros [Hseg Hd Hz Hc] Hn H0. unfold kernel_list_push_back. rewrite (proj2 (Z.eqb_neq n 0)) by done.
  set (s := sentinel l) in *. destruct (seg_ends _ _ _ _ Hseg) as [_ Hp].
  set (p := last_of s L) in *. pose proof (last_of_in s L) as Hin. fold p in Hin.
  assert (n <> s /\ n <> p) as [Hns Hnp].
  { split; intros ->; [apply Hn; by left|by apply Hn]. }
  autorewrite with nodes. rewrite (decide_False (P := n = s)) by done. rewrite Hp.
  set (m' := set_previous _ s n). cbv iota.
  assert (forall x, previous (node_at m' x) = if decide (s = x) then n else if decide (n = x) then p else previous (node_at m x)) as Hprev.
  { intros x. unfold m'. by autorewrite with nodes. }
  assert (forall x, next (node_at m' x) = if decide (p = x) then n else if decide (n = x) then s else next (node_at m x)) as Hnext.
  { intros x. unfold m'. by autorewrite with nodes. }
  split_and!; [|done|].
  - split; cbn.
    + apply seg_app. split.
      * eapply seg_retarget; [exact Hseg|done| | | |].
        -- intros x Hx Hxl. fold p in Hxl. rewrite Hnext, !decide_False; [done|by intros ->|by intros ->].
        -- intros x Hx. rewrite Hprev, !decide_False; [done|intros ->; apply Hn; by right|].
           intros <-. apply list.NoDup_cons in Hd as [Hs _]. done.
        -- fold p. by rewrite Hnext, decide_True.
        -- fold p. rewrite Hprev, decide_False, decide_True; done.
      * cbn. rewrite Hnext, Hprev. rewrite decide_False, !decide_True by done. done.
    + change (s :: L ++ [n]) with ((s :: L) ++ [n]). apply list.NoDup_app. split_and!; [done| |apply NoDup_singleton].
      intros x Hx ->%list_elem_of_singleton. done.
    + change (s :: L ++ [n]) with ((s :: L) ++ [n]). apply list.Forall_app. split; [done|by apply list.Forall_singleton].
    + rewrite Hc, length_app. cbn. lia.
  - intros a Ha. apply not_elem_of_cons in Ha as [Han Ha]. apply node_eq.
    + rewrite Hprev, !decide_False; [done|done|]. intros ->. apply Ha. by left.
    + rewrite Hnext, !decide_False; [done|done|]. intros ->. by apply Ha.
Qed.

Lemma remove_spec m l A x C :
  dll m l (A ++ x :: C) ->
  let '(m', l') := kernel_list_remove m l x in
  dll m' l' (A ++ C) /\ sentinel l' = sentinel l /\ node_at m' x = mkNode 0 0 /\
  nodes_same (sentinel l :: A ++ x :: C) m m'.
Proof.
  intros [Hseg Hd Hz Hc]. unfold kernel_list_remove. set (s := sentinel l) in *.
  apply seg_app in Hseg as [HA HC]. destruct (seg_ends _ _ _ _ HA) as [_ Hxp].
  set (p := last_of s A) in *. pose proof (last_of_in s A) as HpA. fold p in HpA.
  set (n := default s (head C)).
  assert (next (node_at m x) = n) as Hxn by (unfold n; destruct C; apply HC).
  assert (forall y, y ∈ s :: A -> y <> x) as HsA.
  { intros y Hy ->. change (s :: A ++ x :: C) with ((s :: A) ++ x :: C) in Hd. apply list.NoDup_app in Hd as (_ & Hd & _).
    apply (Hd x Hy). by left. }
  assert (forall y, y ∈ C -> y <> x) as HCx.
  { intros y Hy ->. change (s :: A ++ x :: C) with ((s :: A) ++ x :: C) in Hd. apply list.NoDup_app in Hd as (_ & _ & Hd).
    by apply NoDup_cons_1_1 in Hd. }
  assert (p ∈ s :: A ++ x :: C /\ x ∈ s :: A ++ x :: C /\ n ∈ s :: A ++ x :: C) as (Hpin & Hxin & Hnin).
  { rewrite !elem_of_cons, !elem_of_app, !elem_of_cons in *. split_and!; [tauto|tauto|].
    unfold n. destruct C; cbn; [by left|]. rewrite elem_of_cons. tauto. }
  pose proof (proj1 (list.Forall_forall _ _) Hz) as Hnz.
  assert (p <> x /\ n <> x /\ x <> s) as (Hpx & Hnx & Hxs).
  { split_and!; [by apply HsA| |by intros ->; apply (HsA s ltac:(by left))].
    unfold n. destruct C as [|y C]; cbn; [apply HsA; by left|apply HCx; by left]. }
  rewrite Hxp, Hxn. rewrite (proj2 (Z.eqb_neq x 0)), (proj2 (Z.eqb_neq x s)), (proj2 (Z.eqb_neq p 0)),
    (proj2 (Z.eqb_neq n 0)), (proj2 (Z.eqb_neq (count l) 0))
    by (done || (by apply Hnz) || (rewrite Hc, length_app; cbn; lia)).
  cbn [orb]. autorewrite with nodes. rewrite (decide_False (P := p = x)) by done. rewrite Hxp, Hxn.
  set (m' := set_next _ x 0). cbv iota.
  assert (forall y, previous (node_at m' y) = if decide (x = y) then 0 else if decide (n = y) then p else previous (node_at m y)) as Hprev.
  { intros y. unfold m'. by autorewrite with nodes. }
  assert (forall y, next (node_at m' y) = if decide (x = y) then 0 else if decide (p = y) then n else next (node_at m y)) as Hnext.
  { intros y. unfold m'. by autorewrite with nodes. }
  change (s :: A ++ x :: C) with ((s :: A) ++ x :: C) in *.
  apply list.NoDup_app in Hd as (HdA & HdAC & HdC). apply list.NoDup_cons in HdC as [_ HdC].
  apply list.NoDup_cons in HdA as [HsA' HdA0].
  assert (forall y, y ∈ s :: A -> y ∉ C) as Hsep by (intros y Hy HyC; apply (HdAC y Hy); by right).
  assert (seg m' s A n) as HA'.
  { eapply seg_retarget; [exact HA|by apply list.NoDup_cons| | | |]; fold p.
    - intros y Hy Hyp. rewrite Hnext, !decide_False; [done|by intros ->|]. intros <-. by apply (HsA x Hy).
    - intros y Hy. rewrite Hprev, !decide_False; [done| |].
      + intros <-. unfold n in *. destruct C as [|z C]; cbn in *; [done|]. apply (Hsep z); [by right|by left].
      + intros <-. apply (HsA x); [by right|done].
    - by rewrite Hnext, decide_False, decide_True.
    - by rewrite Hprev, decide_False, decide_True. }
  split_and!; [|done| |].
  - split; cbn.
    + destruct C as [|y C]; cbn in n; subst n; [by rewrite app_nil_r|]. apply seg_app. split; [done|].
      destruct HC as (_ & _ & HC). eapply seg_frame; [exact HC| |].
      * intros z Hz'. rewrite Hnext, !decide_False; [done| |].
        -- intros <-. by apply (Hsep p).
        -- intros <-. by apply (HCx x).
      * intros z Hz'. rewrite Hprev, !decide_False; [done| |].
        -- intros <-. apply elem_of_app in Hz' as [Hz'| ->%list_elem_of_singleton].
           ++ by apply list.NoDup_cons in HdC as [? _].
           ++ apply (Hsep s); by left.
        -- intros <-. apply elem_of_app in Hz' as [Hz'| ->%list_elem_of_singleton]; [|done].
           apply (HCx x); [by right|done].
    + change (s :: A ++ C) with ((s :: A) ++ C). apply list.NoDup_app. split_and!; [by apply list.NoDup_cons|done|done].
    + change (s :: A ++ C) with ((s :: A) ++ C). rewrite list.Forall_app in *. destruct Hz as [? Hz].
      split; [done|]. by apply Forall_cons_1 in Hz as [_ ?].
    + rewrite Hc, !length_app. cbn. lia.
  - apply node_eq; rewrite ?Hprev, ?Hnext; by rewrite decide_True.
  - intros a Ha. apply node_eq.
    + rewrite Hprev, !decide_False; [done|by intros ->|by intros ->].
    + rewrite Hnext, !decide_False; [done|by intros ->|by intros ->].
Qed.

Lemma pop_front_spec m l L :
  dll m l L ->
  match L with
  | [] => kernel_list_pop_front m l = (None, (m, l))
  | x :: C => let '(r, (m', l')) := kernel_list_pop_front m l in
      r = Some x /\ dll m' l' C /\ sentinel l' = sentinel l /\ node_at m' x = mkNode 0 0 /\
      nodes_same (sentinel l :: x :: C) m m'
  end.
Proof.
  intros Hd. unfold kernel_list_pop_front, kernel_list_empty. rewrite (dll_count _ _ _ Hd).
  destruct L as [|x C]; [done|]. cbn [length]. rewrite (proj2 (Z.eqb_neq _ 0)) by lia.
  assert (next (node_at m (sentinel l)) = x) as -> by apply (dll_seg _ _ _ Hd).
  pose proof (remove_spec m l [] x C Hd) as H. cbn [app] in H.
  destruct (kernel_list_remove m l x) as [m' l']. done.
Qed.

(** ** Many lists in one memory *)

Definition nodes_of (e : KernelList * list Z) : list Z := sentinel e.1 :: e.2.

(** Every list of the family is intact, and no node is in two of them. *)
Record lists_ok (m : NodeMem) (ls : list (KernelList * list Z)) : Prop := {
  lists_dll : forall i e, ls !! i = Some e -> dll m e.1 e.2;
  lists_apart : forall i j e e' x, i <> j -> ls !! i = Some e -> ls !! j = Some e' -> x ∈ nodes_of e -> x ∉ nodes_of e';
}.

Lemma dll_frame m m' l L S :
  dll m l L -> nodes_same S m m' -> (forall x, x ∈ sentinel l :: L -> x ∉ S) -> dll m' l L.
Proof.
  intros [H1 H2 H3 H4] Hs Hd. split; try done. eapply seg_frame; [exact H1| |].
  - intros x Hx. by rewrite Hs by by apply Hd.
  - intros x Hx. rewrite Hs; [done|]. apply Hd.
    rewrite elem_of_app, list_elem_of_singleton in Hx. rewrite elem_of_cons. tauto.
Qed.

(** One list of the family changes; its new nodes were its own or free. *)
Lemma lists_update m m' ls i e e' S :
  lists_ok m ls -> ls !! i = Some e -> dll m' e'.1 e'.2 -> nodes_same S m m' ->
  (forall x, x ∈ S -> x ∈ nodes_of e \/ forall j d, ls !! j = Some d -> x ∉ nodes_of d) ->
  (forall x, x ∈ nodes_of e' -> x ∈ S) -> lists_ok m' (<[i := e']> ls).
Proof.
  intros [H1 H2] Hi Hd Hs Hown Hsub.
  assert (forall j d x, j <> i -> ls !! j = Some d -> x ∈ nodes_of d -> x ∉ S) as Hother.
  { intros j d x Hne Hj Hx HxS. destruct (Hown x HxS) as [Hxe|Hfree]; [|by apply (Hfree j d)].
    by apply (H2 i j e d x). }
  split.
  - intros j d Hj. destruct (decide (j = i)) as [->|Hne].
    + rewrite list_lookup_insert_eq in Hj by (by eapply lookup_lt_Some). by injection Hj as <-.
    + rewrite list_lookup_insert_ne in Hj by done. eapply dll_frame; [by eapply H1|exact Hs|].
      intros x Hx. by apply (Hother j d).
  - intros j k d d' x Hjk Hj Hk Hx.
    destruct (decide (j = i)) as [->|Hji], (decide (k = i)) as [->|Hki]; [done| | |].
    + rewrite list_lookup_insert_eq in Hj by (by eapply lookup_lt_Some). injection Hj as <-.
      rewrite list_lookup_insert_ne in Hk by done. intros Hx'. by apply (Hother k d' x Hki Hk Hx'), Hsub.
    + rewrite list_lookup_insert_eq in Hk by (by eapply lookup_lt_Some). injection Hk as <-.
      rewrite list_lookup_insert_ne in Hj by done. intros Hx'. by apply (Hother j d x Hji Hj Hx), Hsub.
    + rewrite !list_lookup_insert_ne in * by done. by apply (H2 j k d d').
Qed.

(** * Properties *)

(** C14: the lists of the kernel refine queues.  In a memory that holds any
    number of lists without a common node, [kernel_list_push_back] of a node that
    is in none of them appends it to its list, [kernel_list_remove] takes a node
    out of its list wherever it is and clears its links, and
    [kernel_list_pop_front] takes the oldest node and returns [NULL] on an empty
    list; every other list, and every node outside, is untouched, and the counts
    stay the lengths. *)
Theorem kernel_lists_refine m ls i l L n :
  lists_ok m ls -> ls !! i = Some (l, L) -> n <> 0 ->
  ((forall j e, ls !! j = Some e -> n ∉ nodes_of e) ->
    let '(m', l') := kernel_list_push_back m l n in
    lists_ok m' (<[i := (l', L ++ [n])]> ls) /\ nodes_same (n :: nodes_of (l, L)) m m') /\
  (forall A C, L = A ++ n :: C ->
    let '(m', l') := kernel_list_remove m l n in
    lists_ok m' (<[i := (l', A ++ C)]> ls) /\ node_at m' n = mkNode 0 0 /\ nodes_same (nodes_of (l, L)) m m') /\
  (let '(r, (m', l')) := kernel_list_pop_front m l in
   r = head L /\ lists_ok m' (<[i := (l', tail L)]> ls) /\ nodes_same (nodes_of (l, L)) m m').
Proof.
  intros Hls Hi H0. pose proof (lists_dll _ _ Hls i _ Hi) as Hd. cbn in Hd. unfold nodes_of. cbn [fst snd]. split_and!.
  - intros Hfree. pose proof (push_back_spec m l L n Hd (Hfree i _ Hi) H0) as H.
    destruct (kernel_list_push_back m l n) as [m' l']. destruct H as (Hd' & Hs & Hsame). split; [|done].
    eapply lists_update; [done|done|exact Hd'|exact Hsame| |]; unfold nodes_of; cbn [fst snd].
    + intros x [->|Hx]%elem_of_cons; [by right|by left].
    + intros x. rewrite Hs, !elem_of_cons, elem_of_app, list_elem_of_singleton. tauto.
  - intros A C ->. pose proof (remove_spec m l A n C Hd) as H.
    destruct (kernel_list_remove m l n) as [m' l']. destruct H as (Hd' & Hs & Hn & Hsame). split_and!; [|done|done].
    eapply lists_update; [done|done|exact Hd'|exact Hsame| |]; unfold nodes_of; cbn [fst snd]; [by left|].
    intros x. rewrite Hs, !elem_of_cons, !elem_of_app, elem_of_cons. tauto.
  - pose proof (pop_front_spec m l L Hd) as H. destruct L as [|x C].
    + rewrite H. split_and!; [done| |done]. by rewrite list_insert_id.
    + destruct (kernel_list_pop_front m l) as [r [m' l']]. destruct H as (-> & Hd' & Hs & _ & Hsame).
      split_and!; [done| |done].
      eapply lists_update; [done|done|exact Hd'|exact Hsame| |]; unfold nodes_of; cbn [fst snd tail]; [by left|].
      intros y. rewrite Hs, !elem_of_cons. tauto.
Qed.

(** Two lists with two nodes and one node. *)
Definition demo_nodes : NodeMem * KernelList * KernelList :=
  let '(m, a) := kernel_list_init ∅ (mkList 100 0) in
  let '(m, b) := kernel_list_init m (mkList 200 0) in
  let '(m, a) := kernel_list_push_back m a 1 in
  let '(m, a) := kernel_list_push_back m a 2 in
  let '(m, b) := kernel_list_push_back m b 3 in
  (m, a, b).

Lemma two_lists_ok m a A b C :
  dll m a A -> dll m b C -> (forall x, x ∈ nodes_of (a, A) -> x ∉ nodes_of (b, C)) -> lists_ok m [(a, A); (b, C)].
Proof.
  intros Ha Hb Hd. split.
  - intros [|[|i]] e [= <-]; done.
  - intros [|[|i]] [|[|j]] e e' x Hij [= <-] [= <-]; try done; [apply Hd|]. intros Hx Hx'. by apply (Hd x).
Qed.

Lemma demo_lists_ok : lists_ok demo_nodes.1.1 [(demo_nodes.1.2, [1; 2]); (demo_nodes.2, [3])].
Proof.
  assert (sentinel demo_nodes.1.2 = 100 /\ sentinel demo_nodes.2 = 200) as [Ha Hb] by by vm_compute.
  apply two_lists_ok.
  - split; [by vm_compute|rewrite Ha|rewrite Ha|by vm_compute]; [apply (bool_decide_unpack _); by vm_compute|by repeat constructor].
  - split; [by vm_compute|rewrite Hb|rewrite Hb|by vm_compute]; [apply (bool_decide_unpack _); by vm_compute|by repeat constructor].
  - unfold nodes_of. cbn [fst snd]. rewrite Ha, Hb. intros x. rewrite !elem_of_cons, !elem_of_nil. lia.
Qed.

Lemma kernel_lists_refine_witness :
  (kernel_list_pop_front demo_nodes.1.1 demo_nodes.1.2).1 = Some 1 /\
  lists_ok (kernel_list_remove demo_nodes.1.1 demo_nodes.1.2 2).1
    [((kernel_list_remove demo_nodes.1.1 demo_nodes.1.2 2).2, [1]); (demo_nodes.2, [3])].
Proof.
  destruct (kernel_lists_refine demo_nodes.1.1 _ 0 demo_nodes.1.2 [1; 2] 2 demo_lists_ok eq_refl ltac:(lia))
    as (_ & Hr & Hp). split.
  - destruct (kernel_list_pop_front demo_nodes.1.1 demo_nodes.1.2) as [r [m' l']]. cbn [fst]. apply Hp.
  - specialize (Hr [1] [] eq_refl). destruct (kernel_list_remove demo_nodes.1.1 demo_nodes.1.2 2) as [m' l'].
    apply Hr.
Defined.
