(* ===== verification/KernelMem.v ===== *)
(** The kernel's view of physical memory: kernel/kernel_internal.h and the
    address conversions of kernel/pmm.c.

    [Kernel] is the part of the kernel's state its memory management shares:
    the machine's memory, the boot handoff, the allocator's static variables and
    the root of the kernel's page table.  A pointer obtained from
    [kernel_phys_to_virt] is an address of the direct map, which aliases
    physical memory; a C function that reports failure by returning 0, [NULL]
    or 1 is a computation whose result is [None]. *)

From S2P Require Import Prelude Ram.
From stdpp Require Import base list numbers gmap option.
From Stdlib Require Import ZArith Lia Bool.

#[local] Open Scope Z_scope.
#[local] Open Scope exec_scope.

Definition KERNEL_PAGE_SHIFT : Z := 12.
Definition KERNEL_PAGE_SIZE : Z := 4096.
Definition KERNEL_PAGE_MASK : Z := KERNEL_PAGE_SIZE - 1.
Definition KERNEL_PTE_ADDRESS_MASK : Z := not64 KERNEL_PAGE_MASK.

(** ** Boot information *)

Definition CVM_MEMORY_USABLE : Z := 1.

Record CvmMemoryMapEntry := mkEntry {
  entry_base : Z;
  entry_length : Z;
  entry_type : Z;
}.

(** The fields the memory management reads; [memory_map] holds the
    [memory_map_count] entries, [boot_info_address] is the pointer itself. *)
Record CvmBootInfo := mkBootInfo {
  boot_info_address : Z;
  total_size : Z;
  memory_map : list CvmMemoryMapEntry;
  boot_ram_size : Z;
  kernel_physical_base : Z;
  uart_base : Z;
}.

Record CvmBootVirtualHandoff := mkHandoff {
  kernel_virtual_base : Z;
  kernel_virtual_size : Z;
  direct_map_base : Z;
  direct_map_size : Z;
  page_table_physical_base : Z;
  page_table_physical_size : Z;
}.

Record Kernel := mkKernel {
  k_ram : RAM;
  kernel_virtual_handoff : CvmBootVirtualHandoff;
  pmm_boot_info : option CvmBootInfo;
  pmm_memory_map_index : Z;
  pmm_range_next : Z;
  pmm_range_end : Z;
  pmm_recycled_head : Z;
  pmm_free_count : Z;
  kernel_ptbr : Z;
}.

Definition set_k_ram (v : RAM) (k : Kernel) : Kernel :=
  mkKernel v (kernel_virtual_handoff k) (pmm_boot_info k) (pmm_memory_map_index k)
    (pmm_range_next k) (pmm_range_end k) (pmm_recycled_head k) (pmm_free_count k) (kernel_ptbr k).
Definition set_pmm_memory_map_index (v : Z) (k : Kernel) : Kernel :=
  mkKernel (k_ram k) (kernel_virtual_handoff k) (pmm_boot_info k) v
    (pmm_range_next k) (pmm_range_end k) (pmm_recycled_head k) (pmm_free_count k) (kernel_ptbr k).
Definition set_pmm_range (next end_ : Z) (k : Kernel) : Kernel :=
  mkKernel (k_ram k) (kernel_virtual_handoff k) (pmm_boot_info k) (pmm_memory_map_index k)
    next end_ (pmm_recycled_head k) (pmm_free_count k) (kernel_ptbr k).
Definition set_pmm_recycled_head (v : Z) (k : Kernel) : Kernel :=
  mkKernel (k_ram k) (kernel_virtual_handoff k) (pmm_boot_info k) (pmm_memory_map_index k)
    (pmm_range_next k) (pmm_range_end k) v (pmm_free_count k) (kernel_ptbr k).
Definition set_pmm_free_count (v : Z) (k : Kernel) : Kernel :=
  mkKernel (k_ram k) (kernel_virtual_handoff k) (pmm_boot_info k) (pmm_memory_map_index k)
    (pmm_range_next k) (pmm_range_end k) (pmm_recycled_head k) v (kernel_ptbr k).
Definition set_kernel_ptbr (v : Z) (k : Kernel) : Kernel :=
  mkKernel (k_ram k) (kernel_virtual_handoff k) (pmm_boot_info k) (pmm_memory_map_index k)
    (pmm_range_next k) (pmm_range_end k) (pmm_recycled_head k) (pmm_free_count k) v.

(** ** Access to physical memory *)

Definition kernel_phys_to_virt (k : Kernel) (physical_address : Z) : option Z :=
  if direct_map_size (kernel_virtual_handoff k) <=? physical_address then None
  else Some (wrap64 (direct_map_base (kernel_virtual_handoff k) + physical_address)).

Definition kernel_virt_to_phys (k : Kernel) (virtual_address : Z) : Z :=
  let base := direct_map_base (kernel_virtual_handoff k) in
  if (virtual_address <? base) ||
     (direct_map_size (kernel_virtual_handoff k) <=? virtual_address - base)
  then 0 else virtual_address - base.

(** The physical address a pointer into the direct map designates. *)
Definition direct_physical (k : Kernel) (pointer : Z) : Z :=
  wrap64 (pointer - direct_map_base (kernel_virtual_handoff k)).

Definition load64 (r : RAM) (a : Z) : Z := atomic_load_n r a 8.
Definition store64 (r : RAM) (a v : Z) : RAM := atomic_store_n r a 8 v.

(** [pointer[i]] and [pointer[i] = v] for a [uint64_t *]. *)
Definition word_read (pointer i : Z) : Exec Kernel Z :=
  k ← exec_get; mret (load64 (k_ram k) (direct_physical k (wrap64 (pointer + 8 * i)))).
Definition word_write (pointer i v : Z) : Exec Kernel unit :=
  exec_modify (fun k =>
    set_k_ram (store64 (k_ram k) (direct_physical k (wrap64 (pointer + 8 * i))) v) k).

(** [kernel_phys_to_virt] and the early return on [NULL]. *)
Definition phys_pointer (physical_address : Z) : Exec Kernel Z :=
  k ← exec_get; exec_of_option (kernel_phys_to_virt k physical_address).

(** The address of word [i] of the page a direct-map pointer was made for. *)
Lemma direct_physical_word k p i :
  is_u64 (p + 8 * i) ->
  direct_physical k
    (wrap64 (wrap64 (direct_map_base (kernel_virtual_handoff k) + p) + 8 * i)) = p + 8 * i.
Proof.
  intros Hp. unfold direct_physical, wrap64.
  rewrite Zplus_mod_idemp_l, Zminus_mod_idemp_l.
  replace (_ + p + 8 * i - _) with (p + 8 * i) by lia. by apply wrap64_id.
Qed.

Lemma virt_phys_inverse k p v :
  is_u64 p -> is_u64 (direct_map_base (kernel_virtual_handoff k)) ->
  direct_map_base (kernel_virtual_handoff k) + direct_map_size (kernel_virtual_handoff k)
    <= UINT64_MAX ->
  kernel_phys_to_virt k p = Some v -> kernel_virt_to_phys k v = p.
Proof.
  unfold kernel_phys_to_virt, kernel_virt_to_phys. intros Hp Hb Hs.
  destruct (Z.leb_spec (direct_map_size (kernel_virtual_handoff k)) p); [done|]. intros [= <-].
  rewrite wrap64_id by zlia.
  rewrite (proj2 (Z.ltb_ge _ _)), (proj2 (Z.leb_gt _ _)) by zlia. cbn [orb]. lia.
Qed.

(** ** Words and pages of memory *)

Lemma store64_bytes r a v : store64 r a v = store_bytes r a (int_to_bytes 8 v).
Proof. unfold store64, atomic_store_n. by rewrite int_to_bytes_mod. Qed.

Lemma store64_size r a v : ram_size (store64 r a v) = ram_size r.
Proof. rewrite store64_bytes. apply store_bytes_size. Qed.

Lemma store64_wf r a v : ram_wf r -> ram_wf (store64 r a v).
Proof. intros Hr. rewrite store64_bytes. apply store_bytes_wf; [done|apply int_to_bytes_u8]. Qed.

Lemma load64_u64 r a : ram_wf r -> is_u64 (load64 r a).
Proof. intros Hr. by apply atomic_load_u64. Qed.

Lemma load64_store64_same r a v : load64 (store64 r a v) a = wrap64 v.
Proof. rewrite store64_bytes. unfold load64. by rewrite atomic_load_store_same by lia. Qed.

Lemma load64_store64_disjoint r a v b :
  b + 8 <= a \/ a + 8 <= b -> load64 (store64 r a v) b = load64 r b.
Proof.
  intros H. rewrite store64_bytes. unfold load64, atomic_load_n. f_equal.
  apply ram_bytes_store_disjoint. rewrite length_int_to_bytes. lia.
Qed.

Lemma load64_ext r r' a :
  (forall b, a <= b < a + 8 -> ram_byte r' b = ram_byte r b) -> load64 r' a = load64 r a.
Proof.
  intros H. unfold load64, atomic_load_n, ram_bytes. f_equal.
  apply list_fmap_ext. intros i b Hb%lookup_seqZ. apply H. lia.
Qed.

Lemma store64_byte r a v b :
  b < a \/ a + 8 <= b -> ram_byte (store64 r a v) b = ram_byte r b.
Proof.
  intros H. rewrite store64_bytes, store_bytes_byte. destruct (Z.leb_spec a b); [|done].
  rewrite lookup_ge_None_2; [done|]. rewrite length_int_to_bytes. lia.
Qed.

(** A word a C program reads is the one [ram_read] returns. *)
Lemma ram_read_load64 r a : ram_wf r -> 0 <= a -> a + 8 <= ram_size r -> ram_read r a 8 = Some (load64 r a).
Proof. intros Hr Ha Hs. by rewrite ram_read_spec, ram_range_valid_intro by (done || lia). Qed.

Definition in_page (p b : Z) : Prop := p <= b < p + KERNEL_PAGE_SIZE.
Definition page_aligned (p : Z) : Prop := p mod KERNEL_PAGE_SIZE = 0.

(** [changes_only F r r']: [r'] differs from [r] in bytes of the pages [F]
    only. *)
Definition changes_only (F : list Z) (r r' : RAM) : Prop :=
  ram_size r' = ram_size r /\ (ram_wf r -> ram_wf r') /\
  forall b, (forall p, p ∈ F -> ~ in_page p b) -> ram_byte r' b = ram_byte r b.

#[export] Instance changes_only_preorder F : PreOrder (changes_only F).
Proof.
  split.
  - by intros r.
  - intros r1 r2 r3 (H1 & H2 & H3) (H4 & H5 & H6). split_and!; [congruence|tauto|].
    intros b Hb. by rewrite H6, H3.
Qed.

Lemma changes_only_mono F F' r r' : F ⊆ F' -> changes_only F r r' -> changes_only F' r r'.
Proof. intros HF (H1 & H2 & H3). split_and!; [done..|]. intros b Hb. apply H3. intros p Hp. apply Hb, HF, Hp. Qed.

#[export] Instance changes_only_proper :
  Proper ((≡ₚ) ==> (=) ==> (=) ==> iff) changes_only.
Proof.
  intros F F' HF r r1 -> r' r1' ->.
  split; apply changes_only_mono; intros x; by rewrite HF.
Qed.

Lemma changes_only_store F p r a v :
  p ∈ F -> p <= a -> a + 8 <= p + KERNEL_PAGE_SIZE -> changes_only F r (store64 r a v).
Proof.
  intros Hp H1 H2. split_and!; [apply store64_size|apply store64_wf|].
  intros b Hb. apply store64_byte. specialize (Hb p Hp). unfold in_page in Hb. lia.
Qed.

Lemma changes_only_load F r r' a :
  changes_only F r r' -> (forall p, p ∈ F -> a + 8 <= p \/ p + KERNEL_PAGE_SIZE <= a) ->
  load64 r' a = load64 r a.
Proof.
  intros (_ & _ & H) Hd. apply load64_ext. intros b Hb. apply H. intros p Hp.
  specialize (Hd p Hp). unfold in_page. lia.
Qed.

(** Distinct pages do not overlap. *)
Lemma pages_disjoint p q : page_aligned p -> page_aligned q -> p <> q ->
  p + KERNEL_PAGE_SIZE <= q \/ q + KERNEL_PAGE_SIZE <= p.
Proof. unfold page_aligned, KERNEL_PAGE_SIZE. intros Hp Hq Hne. zlia. Qed.

Lemma changes_only_other_page F r r' q a :
  changes_only F r r' -> Forall page_aligned F -> page_aligned q -> q ∉ F ->
  q <= a -> a + 8 <= q + KERNEL_PAGE_SIZE -> load64 r' a = load64 r a.
Proof.
  intros H HF Hq Hn H1 H2. apply (changes_only_load F); [done|]. intros p Hp.
  assert (p <> q) as Hne by (by intros ->).
  pose proof (proj1 (list.Forall_forall _ _) HF p Hp) as Ha.
  destruct (pages_disjoint p q Ha Hq Hne); lia.
Qed.

(** ** Running computations *)

Lemma exec_bind_some {S A B} (m : Exec S A) (f : A -> Exec S B) s a s' :
  m s = (Some a, s') -> exec_bind m f s = f a s'.
Proof. intros H. unfold exec_bind. by rewrite H. Qed.

Lemma exec_bind_none {S A B} (m : Exec S A) (f : A -> Exec S B) s s' :
  m s = (None, s') -> exec_bind m f s = (None, s').
Proof. intros H. unfold exec_bind. by rewrite H. Qed.

Lemma phys_pointer_some k p :
  p < direct_map_size (kernel_virtual_handoff k) ->
  phys_pointer p k = (Some (wrap64 (direct_map_base (kernel_virtual_handoff k) + p)), k).
Proof.
  intros Hp. unfold phys_pointer, exec_bind, exec_get, exec_of_option, kernel_phys_to_virt.
  by rewrite (proj2 (Z.leb_gt _ _)).
Qed.

Lemma word_read_at k p i :
  is_u64 (p + 8 * i) ->
  word_read (wrap64 (direct_map_base (kernel_virtual_handoff k) + p)) i k =
  (Some (load64 (k_ram k) (p + 8 * i)), k).
Proof.
  intros Hp. unfold word_read, exec_bind, exec_get, mret, Exec_ret.
  by rewrite direct_physical_word.
Qed.

Lemma word_write_at k p i v :
  is_u64 (p + 8 * i) ->
  word_write (wrap64 (direct_map_base (kernel_virtual_handoff k) + p)) i v k =
  (Some tt, set_k_ram (store64 (k_ram k) (p + 8 * i) v) k).
Proof. intros Hp. unfold word_write, exec_modify. by rewrite direct_physical_word. Qed.

Arguments load64 : simpl never.
Arguments store64 : simpl never.
Arguments phys_pointer : simpl never.
Arguments word_read : simpl never.
Arguments word_write : simpl never.
