(* ===== verification/Pmm.v ===== *)
(** The kernel's physical page allocator: kernel/pmm.c.

    Pages that were freed form a chain threaded through their own first words;
    pages never handed out are still described by the boot memory map.
    [pmm_inv k F] says the allocator's variables and memory represent the set
    [F] of free pages; each operation is a step of an abstract allocator on that
    set. *)

From S2P Require Import Prelude Ram KernelMem.
From Stdlib Require Import ZArith Lia Bool.
From stdpp Require Import base list numbers gmap option.

#[local] Open Scope Z_scope.
#[local] Open Scope exec_scope.

(** ** The memory map *)

Definition usable_range_bounds (base length : Z) : option (Z * Z) :=
  if (length =? 0) || (UINT64_MAX - length <? base) || (UINT64_MAX - KERNEL_PAGE_MASK <? base)
  then None
  else
    let end_ := Z.land (wrap64 (base + length)) KERNEL_PTE_ADDRESS_MASK in
    let page := Z.land (wrap64 (base + KERNEL_PAGE_MASK)) KERNEL_PTE_ADDRESS_MASK in
    let page := if page =? 0 then KERNEL_PAGE_SIZE else page in
    Some (page, end_).

Definition memory_map_entry (k : Kernel) (index : Z) : option CvmMemoryMapEntry :=
  match pmm_boot_info k with
  | None => None
  | Some info => memory_map info !! Z.to_nat index
  end.

Definition memory_map_count (info : CvmBootInfo) : Z := Z.of_nat (length (memory_map info)).

(** [while (pmm_memory_map_index < memory_map_count)]: every pass consumes an
    entry, so one more pass than there are entries is enough. *)
Fixpoint select_loop (fuel : nat) : Exec Kernel unit :=
  match fuel with
  | O => exec_fail
  | S fuel =>
      k ← exec_get;
      info ← exec_of_option (pmm_boot_info k);
      if negb (pmm_memory_map_index k <? memory_map_count info) then
        exec_modify (set_pmm_range 0 0);; exec_fail
      else
        exec_modify (set_pmm_memory_map_index (pmm_memory_map_index k + 1));;
        entry ← exec_of_option (memory_map_entry k (pmm_memory_map_index k));
        if negb (entry_type entry =? CVM_MEMORY_USABLE) then select_loop fuel
        else
          bounds ← exec_of_option (usable_range_bounds (entry_base entry) (entry_length entry));
          if bounds.1 <? bounds.2 then exec_modify (set_pmm_range bounds.1 bounds.2)
          else select_loop fuel
  end.

Definition entry_fuel (k : Kernel) : nat :=
  match pmm_boot_info k with None => 0 | Some info => S (length (memory_map info)) end.

Definition select_next_usable_range : Exec Kernel unit :=
  k ← exec_get; select_loop (entry_fuel k).

(** [while (pmm_range_next >= pmm_range_end)]: a selected range is not empty,
    so the second test of the condition fails. *)
Definition take_fresh_page : Exec Kernel Z :=
  k ← exec_get;
  (if pmm_range_end k <=? pmm_range_next k then select_next_usable_range else mret tt);;
  k ← exec_get;
  exec_modify (set_pmm_range (pmm_range_next k + KERNEL_PAGE_SIZE) (pmm_range_end k));;
  mret (pmm_range_next k).

(** The loop of [kernel_pmm_init], with the running [pmm_free_count]. *)
Fixpoint init_loop (ram_size : Z) (entries : list CvmMemoryMapEntry) (count : Z) : option Z :=
  match entries with
  | [] => Some count
  | entry :: rest =>
      if entry_type entry =? CVM_MEMORY_USABLE then
        match usable_range_bounds (entry_base entry) (entry_length entry) with
        | None => None
        | Some (first, end_) =>
            if ram_size <? end_ then None
            else
              let pages := if first <? end_ then (end_ - first) / KERNEL_PAGE_SIZE else 0 in
              if UINT64_MAX - pages <? count then None
              else init_loop ram_size rest (count + pages)
        end
      else init_loop ram_size rest count
  end.

(** On failure [pmm_free_count] keeps the partial sum; the caller stops. *)
Definition kernel_pmm_init (info : CvmBootInfo) : Exec Kernel unit :=
  exec_modify (fun k =>
    mkKernel (k_ram k) (kernel_virtual_handoff k) (Some info) 0 0 0 0 0 (kernel_ptbr k));;
  count ← exec_of_option (init_loop (boot_ram_size info) (memory_map info) 0);
  exec_modify (set_pmm_free_count count);;
  exec_guard (negb (count =? 0)).

(** ** Allocation and release *)

(** [for (i = 0; i < KERNEL_PAGE_SIZE / sizeof(uint64_t); ++i) words[i] = 0;],
    with [n] words left. *)
Fixpoint zero_words (n : nat) (words i : Z) : Exec Kernel unit :=
  match n with
  | O => mret tt
  | S n => word_write words i 0;; zero_words n words (i + 1)
  end.

Definition page_words : nat := Z.to_nat (KERNEL_PAGE_SIZE / 8).

Definition kernel_pmm_alloc_page : Exec Kernel Z :=
  k ← exec_get;
  page ← (if negb (pmm_recycled_head k =? 0) then
            link ← phys_pointer (pmm_recycled_head k);
            next ← word_read link 0;
            exec_modify (set_pmm_recycled_head next);;
            mret (pmm_recycled_head k)
          else take_fresh_page);
  exec_guard (negb (page =? 0));;
  words ← phys_pointer page;
  exec_modify (fun k => set_pmm_free_count (wrap64 (pmm_free_count k - 1)) k);;
  zero_words page_words words 0;;
  mret page.

(** The zeroing of [n] more pages of a contiguous block, from page [i]. *)
Fixpoint zero_pages (n : nat) (first i : Z) : Exec Kernel unit :=
  match n with
  | O => mret tt
  | S n =>
      words ← phys_pointer (wrap64 (first + i * KERNEL_PAGE_SIZE));
      zero_words page_words words 0;;
      zero_pages n first (i + 1)
  end.

(** The search of the recycled chain: [Some first] when a descending run of
    [page_count] pages was unlinked, [None] at the end of the chain. *)
Fixpoint chain_search (fuel : nat) (page_count before current length : Z) :
    Exec Kernel (option Z) :=
  if current =? 0 then mret None
  else match fuel with
  | O => exec_fail
  | S fuel =>
      link ← phys_pointer current;
      next ← word_read link 0;
      if length =? page_count then
        (if before =? 0 then exec_modify (set_pmm_recycled_head next)
         else before_link ← phys_pointer before; word_write before_link 0 next);;
        exec_modify (fun k => set_pmm_free_count (wrap64 (pmm_free_count k - page_count)) k);;
        zero_pages (Z.to_nat page_count) current 0;;
        mret (Some current)
      else if negb (next =? 0) && (KERNEL_PAGE_SIZE <=? current) &&
              (next =? current - KERNEL_PAGE_SIZE) then
        chain_search fuel page_count before next (length + 1)
      else chain_search fuel page_count current next (if negb (next =? 0) then 1 else 0)
  end.

(** [while (pmm_range_next < pmm_range_end)]: the tail goes to the chain. *)
Fixpoint recycle_tail (fuel : nat) : Exec Kernel unit :=
  k ← exec_get;
  if negb (pmm_range_next k <? pmm_range_end k) then mret tt
  else match fuel with
  | O => exec_fail
  | S fuel =>
      let page := pmm_range_next k in
      exec_modify (set_pmm_range (page + KERNEL_PAGE_SIZE) (pmm_range_end k));;
      link ← phys_pointer page;
      word_write link 0 (pmm_recycled_head k);;
      exec_modify (set_pmm_recycled_head page);;
      recycle_tail fuel
  end.

(** The [for (;;)] over fresh ranges; it ends after the last entry. *)
Fixpoint fresh_search (fuel : nat) (page_count : Z) : Exec Kernel Z :=
  match fuel with
  | O => exec_fail
  | S fuel =>
      k ← exec_get;
      let required := page_count * KERNEL_PAGE_SIZE in
      if (pmm_range_next k <? pmm_range_end k) &&
         (required <=? pmm_range_end k - pmm_range_next k) then
        let first := pmm_range_next k in
        exec_modify (set_pmm_range (first + required) (pmm_range_end k));;
        exec_modify (fun k => set_pmm_free_count (wrap64 (pmm_free_count k - page_count)) k);;
        zero_pages (Z.to_nat page_count) first 0;;
        mret first
      else
        recycle_tail (Z.to_nat ((pmm_range_end k - pmm_range_next k) / KERNEL_PAGE_SIZE));;
        select_next_usable_range;;
        fresh_search fuel page_count
  end.

Definition kernel_pmm_alloc_contiguous (page_count : Z) : Exec Kernel Z :=
  k ← exec_get;
  if (page_count =? 0) || (UINT64_MAX / KERNEL_PAGE_SIZE <? page_count) ||
     (pmm_free_count k <? page_count)
  then exec_fail
  else
    let current := pmm_recycled_head k in
    found ← chain_search (Z.to_nat (pmm_free_count k)) page_count 0 current
              (if negb (current =? 0) then 1 else 0);
    match found with
    | Some first => mret first
    | None => fresh_search (entry_fuel k) page_count
    end.

(** The early returns of the two release functions have no other effect. *)
Definition kernel_pmm_free_page (page : Z) : Exec Kernel unit :=
  k ← exec_get;
  info ← exec_of_option (pmm_boot_info k);
  if (page =? 0) || negb (Z.land page KERNEL_PAGE_MASK =? 0) ||
     (boot_ram_size info <? KERNEL_PAGE_SIZE) ||
     (boot_ram_size info - KERNEL_PAGE_SIZE <? page)
  then exec_fail
  else
    slot ← phys_pointer page;
    word_write slot 0 (pmm_recycled_head k);;
    exec_modify (set_pmm_recycled_head page);;
    exec_modify (fun k => set_pmm_free_count (wrap64 (pmm_free_count k + 1)) k).

Definition kernel_pmm_free_page_count (k : Kernel) : Z := pmm_free_count k.

(** [for (offset = 0; offset < size; offset += KERNEL_PAGE_SIZE)], [n] pages
    left; a page that cannot be freed does not stop the loop. *)
Fixpoint release_loop (n : nat) (base offset : Z) : Exec Kernel unit :=
  match n with
  | O => mret tt
  | S n =>
      exec_try (kernel_pmm_free_page (base + offset));;
      release_loop n base (offset + KERNEL_PAGE_SIZE)
  end.

Definition kernel_pmm_release_range (base size : Z) : Exec Kernel unit :=
  k ← exec_get;
  info ← exec_of_option (pmm_boot_info k);
  if negb (Z.land base KERNEL_PAGE_MASK =? 0) || negb (Z.land size KERNEL_PAGE_MASK =? 0) ||
     (UINT64_MAX - size <? base) || (boot_ram_size info <? base + size)
  then exec_fail
  else release_loop (Z.to_nat (size / KERNEL_PAGE_SIZE)) base 0.

(** The two reads of [*word] around the comparison are one. *)
Definition kernel_pmm_self_test : Exec Kernel unit :=
  page ← kernel_pmm_alloc_page;
  let pattern := 0xC0DEC0DE55AA33CC in
  word ← phys_pointer page;
  word_write word 0 pattern;;
  read ← word_read word 0;
  if negb (read =? pattern) then exec_try (kernel_pmm_free_page page);; exec_fail
  else
    exec_try (kernel_pmm_free_page page);;
    reused ← kernel_pmm_alloc_page;
    exec_guard (reused =? page);;
    exec_try (kernel_pmm_free_page reused);;
    k ← exec_get;
    let before := kernel_pmm_free_page_count k in
    contiguous ← kernel_pmm_alloc_contiguous 3;
    k ← exec_get;
    exec_guard (wrap64 (kernel_pmm_free_page_count k + 3) =? before);;
    exec_try (kernel_pmm_release_range contiguous (3 * KERNEL_PAGE_SIZE));;
    recycled ← kernel_pmm_alloc_contiguous 3;
    exec_guard (recycled =? contiguous);;
    exec_try (kernel_pmm_release_range recycled (3 * KERNEL_PAGE_SIZE));;
    k ← exec_get;
    exec_guard (kernel_pmm_free_page_count k =? before);;
    if negb (before =? UINT64_MAX) then
      extra ← exec_try (kernel_pmm_alloc_contiguous (before + 1));
      exec_guard (match extra with None => true | Some _ => false end)
    else mret tt.

(** ** The free pages the state represents *)

(** The pages of a page-aligned range, in ascending order. *)
Definition range_pages (first end_ : Z) : list Z :=
  (fun i => first + KERNEL_PAGE_SIZE * i) <$> seqZ 0 ((end_ - first) / KERNEL_PAGE_SIZE).

(** The non-empty page range of a usable entry. *)
Definition entry_range (entry : CvmMemoryMapEntry) : option (Z * Z) :=
  if entry_type entry =? CVM_MEMORY_USABLE then
    match usable_range_bounds (entry_base entry) (entry_length entry) with
    | Some (first, end_) => if first <? end_ then Some (first, end_) else None
    | None => None
    end
  else None.

(** The ranges of the memory map from entry [index] on, and their pages. *)
Definition map_ranges (info : CvmBootInfo) (index : Z) : list (Z * Z) :=
  omap entry_range (drop (Z.to_nat index) (memory_map info)).

Definition map_pages (info : CvmBootInfo) (index : Z) : list Z :=
  concat ((fun range => range_pages range.1 range.2) <$> map_ranges info index).

Definition fresh_pages (info : CvmBootInfo) (k : Kernel) : list Z :=
  range_pages (pmm_range_next k) (pmm_range_end k) ++ map_pages info (pmm_memory_map_index k).

(** [chain r head L]: the recycled chain from [head] visits exactly [L]. *)
Fixpoint chain (r : RAM) (head : Z) (L : list Z) : Prop :=
  match L with
  | [] => head = 0
  | p :: L => head = p /\ p <> 0 /\ chain r (load64 r p) L
  end.

Definition page_ok (info : CvmBootInfo) (p : Z) : Prop :=
  page_aligned p /\ 0 < p /\ p + KERNEL_PAGE_SIZE <= boot_ram_size info.

Definition entry_ok (info : CvmBootInfo) (entry : CvmMemoryMapEntry) : Prop :=
  entry_type entry = CVM_MEMORY_USABLE ->
  exists first end_, usable_range_bounds (entry_base entry) (entry_length entry) = Some (first, end_) /\
    end_ <= boot_ram_size info.

(** What does not change once the allocator is initialised. *)
Record pmm_static (info : CvmBootInfo) (k : Kernel) : Prop := {
  static_info : pmm_boot_info k = Some info;
  static_map : Forall (entry_ok info) (memory_map info);
  static_ram : boot_ram_size info <= ram_size (k_ram k);
  static_direct : boot_ram_size info <= direct_map_size (kernel_virtual_handoff k);
  static_wf : ram_wf (k_ram k);
}.

Record pmm_range_ok (info : CvmBootInfo) (k : Kernel) : Prop := {
  range_index : 0 <= pmm_memory_map_index k <= memory_map_count info;
  range_next_aligned : page_aligned (pmm_range_next k);
  range_end_aligned : page_aligned (pmm_range_end k);
  range_ordered : 0 <= pmm_range_next k <= pmm_range_end k;
}.

(** [pmm_inv info k F]: the allocator represents the set [F] of free pages. *)
Record pmm_inv (info : CvmBootInfo) (k : Kernel) (F : list Z) : Prop := {
  inv_static : pmm_static info k;
  inv_range : pmm_range_ok info k;
  inv_pages : Forall (page_ok info) F;
  inv_distinct : NoDup F;
  inv_count : pmm_free_count k = Z.of_nat (length F);
  inv_chain : exists L, chain (k_ram k) (pmm_recycled_head k) L /\ F ≡ₚ L ++ fresh_pages info k;
}.

#[export] Instance pmm_inv_proper info k : Proper ((≡ₚ) ==> iff) (pmm_inv info k).
Proof.
  assert (forall F F', F ≡ₚ F' -> pmm_inv info k F -> pmm_inv info k F') as H.
  { intros F F' HF [H1 H2 H3 H4 H5 (L & HL & HP)]. split; [done..| | | |].
    - by rewrite <-HF.
    - by rewrite <-HF.
    - by rewrite <-HF.
    - exists L. by rewrite <-HF. }
  intros F F' HF. split; [by apply H|by apply H; symmetry].
Qed.

(** *** Ranges *)

Lemma land_page_mask x : is_u64 x -> Z.land x KERNEL_PTE_ADDRESS_MASK = x - x mod KERNEL_PAGE_SIZE.
Proof.
  intros Hx. unfold KERNEL_PTE_ADDRESS_MASK, KERNEL_PAGE_MASK, KERNEL_PAGE_SIZE.
  rewrite land_not64 by done. change (4096 - 1) with (Z.ones 12).
  rewrite Z.ldiff_ones_r, Z.shiftl_mul_pow2, Z.shiftr_div_pow2 by lia.
  change 4096 with (2 ^ 12). rewrite Z.mod_eq by lia. lia.
Qed.

Lemma usable_bounds_aligned base length first end_ :
  usable_range_bounds base length = Some (first, end_) ->
  page_aligned first /\ page_aligned end_ /\ 0 < first /\ 0 <= end_.
Proof.
  unfold usable_range_bounds. destruct (_ || _); [done|]. intros [= <- <-].
  rewrite !land_page_mask by apply wrap64_u64. unfold page_aligned.
  pose proof (wrap64_u64 (base + length)). pose proof (wrap64_u64 (base + KERNEL_PAGE_MASK)).
  unfold is_u64 in *. set (a := wrap64 (base + length)) in *. clearbody a.
  set (b := wrap64 (base + KERNEL_PAGE_MASK)) in *. clearbody b.
  unfold KERNEL_PAGE_SIZE in *. destruct (Z.eqb_spec (b - b mod 4096) 0); zlia.
Qed.

Lemma range_pages_nil first end_ : end_ <= first -> range_pages first end_ = [].
Proof.
  intros H. unfold range_pages. rewrite seqZ_nil; [done|].
  unfold KERNEL_PAGE_SIZE. zlia.
Qed.

Lemma range_pages_cons first end_ :
  page_aligned first -> page_aligned end_ -> first < end_ ->
  range_pages first end_ = first :: range_pages (first + KERNEL_PAGE_SIZE) end_ /\
  first + KERNEL_PAGE_SIZE <= end_.
Proof.
  unfold page_aligned, range_pages, KERNEL_PAGE_SIZE. intros Hf He Hlt.
  split; [|zlia]. rewrite seqZ_cons by zlia. rewrite fmap_cons. f_equal; [lia|].
  replace (Z.pred ((end_ - first) / 4096)) with ((end_ - (first + 4096)) / 4096) by zlia.
  apply list_eq. intros i. rewrite !list_lookup_fmap.
  destruct (decide (Z.of_nat i < (end_ - (first + 4096)) / 4096)).
  - rewrite !lookup_seqZ_lt by lia. cbn. f_equal. lia.
  - rewrite !lookup_seqZ_ge by lia. done.
Qed.

Lemma elem_of_range_pages first end_ p :
  page_aligned first -> page_aligned end_ ->
  p ∈ range_pages first end_ <-> page_aligned p /\ first <= p /\ p + KERNEL_PAGE_SIZE <= end_.
Proof.
  unfold page_aligned, range_pages, KERNEL_PAGE_SIZE. intros Hf He.
  rewrite list_elem_of_fmap. split.
  - intros (i & -> & Hi%elem_of_seqZ). zlia.
  - intros (Hp & H1 & H2). exists ((p - first) / 4096). rewrite elem_of_seqZ. zlia.
Qed.

Lemma length_range_pages first end_ :
  first <= end_ -> Z.of_nat (length (range_pages first end_)) = (end_ - first) / KERNEL_PAGE_SIZE.
Proof.
  intros H. unfold range_pages. rewrite length_fmap, length_seqZ.
  rewrite Z2Nat.id; [done|]. unfold KERNEL_PAGE_SIZE. zlia.
Qed.

Lemma range_pages_app a b c :
  page_aligned a -> page_aligned b -> page_aligned c -> a <= b <= c ->
  range_pages a c = range_pages a b ++ range_pages b c.
Proof.
  intros Ha Hb Hc Hab. unfold range_pages, page_aligned, KERNEL_PAGE_SIZE in *.
  replace ((c - a) / 4096) with ((b - a) / 4096 + (c - b) / 4096) by zlia.
  rewrite seqZ_app, fmap_app by zlia. f_equal.
  apply list_eq. intros i. rewrite !list_lookup_fmap.
  destruct (decide (Z.of_nat i < (c - b) / 4096)).
  - rewrite !lookup_seqZ_lt by lia. cbn. f_equal. zlia.
  - rewrite !lookup_seqZ_ge by lia. done.
Qed.

(** *** The recycled chain *)

Lemma chain_frame G r r' h L :
  chain r h L -> changes_only G r r' -> Forall page_aligned G -> Forall page_aligned L ->
  (forall p, p ∈ L -> p ∉ G) -> chain r' h L.
Proof.
  intros HL HG Ha. revert h HL. induction L as [|p L IH]; intros h HL HA Hd; [done|].
  destruct HL as (-> & Hp & HL). apply Forall_cons_1 in HA as [Hap HA].
  split_and!; [done..|]. rewrite (changes_only_other_page G r r' p) by
    (done || (by apply Hd; left) || (unfold KERNEL_PAGE_SIZE; lia)).
  apply IH; [done..|]. intros q Hq. apply Hd. by right.
Qed.

(** The link that leaves a non-empty segment of the chain. *)
Lemma chain_app_last r h A b L :
  chain r h (A ++ b :: L) -> chain r (load64 r b) L.
Proof.
  revert h. induction A as [|a A IH]; intros h; cbn.
  - by intros (_ & _ & H).
  - intros (_ & _ & H). eapply IH, H.
Qed.

Lemma chain_head r h L : chain r h L -> h = default 0 (head L).
Proof. destruct L; [done|]. by intros (-> & _). Qed.

(** Redirecting the link of [b] replaces everything behind it. *)
Lemma chain_relink r r' h A b L L' :
  chain r h (A ++ b :: L) -> (forall p, p ∈ A -> load64 r' p = load64 r p) ->
  chain r' (load64 r' b) L' -> chain r' h (A ++ b :: L').
Proof.
  revert h. induction A as [|a A IH]; intros h; cbn.
  - intros (-> & Hb & _) _ HL'. done.
  - intros (-> & Ha & HA) Hs HL'. split_and!; [done..|].
    rewrite Hs by (by left). apply IH; [done| |done]. intros p Hp. apply Hs. by right.
Qed.

(** Unlinking the segment [M] behind [b]. *)
Lemma chain_unlink r h A b M rest next :
  chain r h (A ++ b :: M ++ rest) -> chain r next rest -> is_u64 next ->
  Forall page_aligned (A ++ b :: M ++ rest) -> NoDup (A ++ b :: M ++ rest) ->
  chain (store64 r b next) h (A ++ b :: rest).
Proof.
  intros HL Hrest Hu Ha Hd. rewrite list.Forall_forall in Ha.
  apply list.NoDup_app in Hd as (_ & HdA & Hdb). apply NoDup_cons_1_1 in Hdb.
  assert (changes_only [b] r (store64 r b next)) as Hch.
  { apply (changes_only_store _ b); [by left|lia|unfold KERNEL_PAGE_SIZE; lia]. }
  assert (Forall page_aligned [b]) as Hb. { apply Forall_singleton, Ha. set_solver. }
  eapply chain_relink; [exact HL| |].
  - intros p HpA. apply (changes_only_other_page [b] r _ p); [done..| | |lia|unfold KERNEL_PAGE_SIZE; lia].
    + apply Ha. set_solver.
    + intros ->%list_elem_of_singleton. apply (HdA b HpA). by left.
  - rewrite load64_store64_same, wrap64_id by done.
    apply (chain_frame [b] r); [done..| |].
    + apply list.Forall_forall. intros p Hp. apply Ha. set_solver.
    + intros p Hp ->%list_elem_of_singleton. apply Hdb. set_solver.
Qed.

(** *** What an operation leaves alone *)

Record pmm_same (k k' : Kernel) : Prop := {
  same_handoff : kernel_virtual_handoff k' = kernel_virtual_handoff k;
  same_info : pmm_boot_info k' = pmm_boot_info k;
  same_ptbr : kernel_ptbr k' = kernel_ptbr k;
}.

#[export] Instance pmm_same_preorder : PreOrder pmm_same.
Proof. split; [done|]. intros k1 k2 k3 [] []. split; congruence. Qed.

Lemma pmm_static_same info k k' G :
  pmm_static info k -> pmm_same k k' -> changes_only G (k_ram k) (k_ram k') -> pmm_static info k'.
Proof.
  intros [H1 H2 H3 H4 H5] [H6 H7 H8] (H9 & H10 & _).
  split; [congruence|done|congruence|congruence|auto].
Qed.

Lemma page_ok_direct info k p :
  pmm_static info k -> page_ok info p -> p < direct_map_size (kernel_virtual_handoff k).
Proof. intros [_ _ _ H _] (_ & _ & Hp). unfold KERNEL_PAGE_SIZE in *. lia. Qed.

Lemma page_ok_word info k p i :
  pmm_static info k -> page_ok info p -> 0 <= i < 512 -> is_u64 (p + 8 * i).
Proof.
  intros [_ _ H _ [Hw _]] (_ & Hp & Hp2) Hi. unfold is_u64, KERNEL_PAGE_SIZE in *. lia.
Qed.

Lemma page_ok_aligned info F : Forall (page_ok info) F -> Forall page_aligned F.
Proof. apply Forall_impl. by intros p (H & _). Qed.

(** *** Clearing pages *)

Fixpoint zero_ram (n : nat) (r : RAM) (a : Z) : RAM :=
  match n with O => r | S n => zero_ram n (store64 r a 0) (a + 8) end.

Lemma zero_ram_outside n r a :
  ram_size (zero_ram n r a) = ram_size r /\ (ram_wf r -> ram_wf (zero_ram n r a)) /\
  forall b, b < a \/ a + 8 * Z.of_nat n <= b -> ram_byte (zero_ram n r a) b = ram_byte r b.
Proof.
  revert r a. induction n as [|n IH]; intros r a; [done|]. cbn [zero_ram].
  destruct (IH (store64 r a 0) (a + 8)) as (H1 & H2 & H3). split_and!.
  - by rewrite H1, store64_size.
  - intros Hr. by apply H2, store64_wf.
  - intros b Hb. rewrite H3 by lia. apply store64_byte. lia.
Qed.

Lemma store64_zero_byte r a b : a <= b < a + 8 -> ram_byte (store64 r a 0) b = 0.
Proof.
  intros Hb. rewrite store64_bytes, store_bytes_byte, (proj2 (Z.leb_le a b)) by lia.
  change (int_to_bytes 8 0) with (replicate 8 0). by rewrite lookup_replicate_2 by lia.
Qed.

Lemma zero_ram_inside n r a b :
  a <= b < a + 8 * Z.of_nat n -> ram_byte (zero_ram n r a) b = 0.
Proof.
  revert r a. induction n as [|n IH]; intros r a Hb; [lia|]. cbn [zero_ram].
  destruct (Z.lt_ge_cases b (a + 8)).
  - destruct (zero_ram_outside n (store64 r a 0) (a + 8)) as (_ & _ & H3).
    rewrite H3 by lia. apply store64_zero_byte. lia.
  - apply IH. lia.
Qed.

Definition page_zero (r : RAM) (p : Z) : Prop := forall b, in_page p b -> ram_byte r b = 0.

Lemma zero_page_changes r p : changes_only [p] r (zero_ram page_words r p).
Proof.
  destruct (zero_ram_outside page_words r p) as (H1 & H2 & H3). split_and!; [done..|].
  intros b Hb. apply H3. specialize (Hb p ltac:(by left)).
  change (Z.of_nat page_words) with 512. unfold in_page, KERNEL_PAGE_SIZE in Hb. lia.
Qed.

Lemma zero_page_zero r p : page_zero (zero_ram page_words r p) p.
Proof. intros b Hb. apply zero_ram_inside. change (Z.of_nat page_words) with 512. exact Hb. Qed.

Lemma page_zero_load r p a : page_zero r p -> p <= a -> a + 8 <= p + KERNEL_PAGE_SIZE -> load64 r a = 0.
Proof.
  intros Hz H1 H2. rewrite (load64_ext (mkRAM ∅ 0) r a); [done|].
  intros b Hb. apply Hz. unfold in_page. lia.
Qed.

Lemma page_zero_changes G r r' p :
  page_zero r p -> changes_only G r r' -> (forall q b, q ∈ G -> in_page p b -> ~ in_page q b) ->
  page_zero r' p.
Proof. intros Hz (_ & _ & H) Hd b Hb. rewrite H; [by apply Hz|]. intros q Hq. by apply Hd. Qed.

Lemma set_k_ram_same k : set_k_ram (k_ram k) k = k.
Proof. by destruct k. Qed.

Lemma zero_words_run n k p i :
  0 <= p + 8 * i -> is_u64 (p + 8 * (i + Z.of_nat n)) ->
  zero_words n (wrap64 (direct_map_base (kernel_virtual_handoff k) + p)) i k =
  (Some tt, set_k_ram (zero_ram n (k_ram k) (p + 8 * i)) k).
Proof.
  revert k i. induction n as [|n IH]; intros k i H1 H2.
  - cbn. by rewrite set_k_ram_same.
  - cbn [zero_words]. erewrite exec_bind_some by
      (apply word_write_at; unfold is_u64 in *; lia).
    etrans; [apply (IH (set_k_ram _ k)); unfold is_u64 in *; lia|].
    cbn [zero_ram]. unfold set_k_ram; cbn. do 3 f_equal. lia.
Qed.

(** *** The memory map *)

Lemma map_ranges_step info index entry :
  0 <= index -> memory_map info !! Z.to_nat index = Some entry ->
  map_ranges info index = option_list (entry_range entry) ++ map_ranges info (index + 1).
Proof.
  intros Hi He. unfold map_ranges. rewrite (drop_S _ _ _ He).
  replace (Z.to_nat (index + 1)) with (S (Z.to_nat index)) by lia.
  cbn. by destruct (entry_range entry).
Qed.

Lemma map_ranges_end info index : memory_map_count info <= index -> map_ranges info index = [].
Proof. intros Hi. unfold map_ranges, memory_map_count in *. by rewrite drop_ge by lia. Qed.

(** The states [select_next_usable_range] can leave. *)
Definition selected (info : CvmBootInfo) (k : Kernel) (result : option unit * Kernel) : Prop :=
  exists index next end_,
    result.2 = set_pmm_range next end_ (set_pmm_memory_map_index index k) /\
    pmm_memory_map_index k <= index <= memory_map_count info /\
    match result.1 with
    | Some _ => pmm_memory_map_index k < index /\ next < end_ /\ 0 < next /\
        page_aligned next /\ page_aligned end_ /\
        map_ranges info (pmm_memory_map_index k) = (next, end_) :: map_ranges info index
    | None => next = 0 /\ end_ = 0 /\ map_ranges info (pmm_memory_map_index k) = [] /\
        map_ranges info index = []
    end.

Lemma selected_skip info k entry result :
  0 <= pmm_memory_map_index k ->
  memory_map info !! Z.to_nat (pmm_memory_map_index k) = Some entry ->
  entry_range entry = None ->
  selected info (set_pmm_memory_map_index (pmm_memory_map_index k + 1) k) result ->
  selected info k result.
Proof.
  intros Hi He Hn (index & next & end_ & H1 & H2 & H3). exists index, next, end_.
  rewrite (map_ranges_step _ _ _ Hi He), Hn. cbn [option_list app] in *. cbn in H2, H3.
  split_and!; [done|lia|lia|]. destruct result.1; intuition lia.
Qed.

Lemma select_loop_spec info fuel k :
  pmm_static info k -> 0 <= pmm_memory_map_index k <= memory_map_count info ->
  memory_map_count info - pmm_memory_map_index k < Z.of_nat fuel ->
  selected info k (select_loop fuel k).
Proof.
  revert k. induction fuel as [|fuel IH]; intros k Hk Hi Hf; [lia|].
  destruct Hk as [Hinfo Hmap Hram Hdir Hwf].
  cbn [select_loop]. unfold exec_bind, exec_get, exec_of_option. rewrite Hinfo.
  destruct (Z.ltb_spec (pmm_memory_map_index k) (memory_map_count info)) as [Hlt|Hge]; cbn [negb].
  2:{ exists (pmm_memory_map_index k), 0, 0. cbn [fst snd].
      pose proof (map_ranges_end info (pmm_memory_map_index k) Hge). split_and!; (done || lia). }
  destruct (lookup_lt_is_Some_2 (memory_map info) (Z.to_nat (pmm_memory_map_index k)))
    as [entry He]; [unfold memory_map_count in *; lia|].
  pose proof (proj1 (list.Forall_forall _ _) Hmap entry (list_elem_of_lookup_2 _ _ _ He)) as Hok.
  unfold memory_map_entry. rewrite Hinfo, He. unfold exec_modify.
  set (k1 := set_pmm_memory_map_index (pmm_memory_map_index k + 1) k).
  assert (selected info k1 (select_loop fuel k1)) as Hrest.
  { apply IH; [done|cbn; lia|cbn; lia]. }
  destruct (Z.eqb_spec (entry_type entry) CVM_MEMORY_USABLE) as [Ht|Ht]; cbn [negb].
  2:{ apply (selected_skip info k entry); [lia|done| |done].
      unfold entry_range. by rewrite (proj2 (Z.eqb_neq _ _)). }
  destruct (Hok Ht) as (first & end_ & Hb & Hend).
  assert (entry_range entry = if first <? end_ then Some (first, end_) else None) as Her.
  { unfold entry_range. by rewrite (proj2 (Z.eqb_eq _ _) Ht), Hb. }
  rewrite Hb. cbn [fst snd].
  destruct (Z.ltb_spec first end_) as [Hfe|Hfe].
  2:{ by apply (selected_skip info k entry); [lia|..]. }
  apply usable_bounds_aligned in Hb as (H1 & H2 & H3 & _).
  exists (pmm_memory_map_index k + 1), first, end_. cbn [fst snd].
  split_and!; [done|lia|lia|lia|done..|].
  by rewrite (map_ranges_step info (pmm_memory_map_index k) entry), Her by (lia || done).
Qed.

Lemma select_spec info k :
  pmm_static info k -> 0 <= pmm_memory_map_index k <= memory_map_count info ->
  selected info k (select_next_usable_range k).
Proof.
  intros Hk Hi. unfold select_next_usable_range, exec_bind, exec_get, entry_fuel.
  rewrite (static_info _ _ Hk). apply select_loop_spec; [done..|].
  unfold memory_map_count in *. lia.
Qed.

Ltac solve_range :=
  unfold page_aligned, KERNEL_PAGE_SIZE in *; split; cbn;
  unfold page_aligned, KERNEL_PAGE_SIZE in *; zlia.

Lemma take_fresh_page_spec info k :
  pmm_static info k -> pmm_range_ok info k ->
  match take_fresh_page k with
  | (Some p, k') => exists index next end_,
      k' = set_pmm_range next end_ (set_pmm_memory_map_index index k) /\
      pmm_range_ok info k' /\ fresh_pages info k = p :: fresh_pages info k'
  | (None, k') => exists index, k' = set_pmm_range 0 0 (set_pmm_memory_map_index index k) /\
      pmm_range_ok info k' /\ fresh_pages info k = [] /\ fresh_pages info k' = []
  end.
Proof.
  intros Hs [Hi Hna Hea Hle]. unfold take_fresh_page, exec_bind, exec_get, exec_modify.
  destruct (Z.leb_spec (pmm_range_end k) (pmm_range_next k)) as [Hge|Hlt].
  - unfold fresh_pages at 1 3. rewrite range_pages_nil by done. cbn [app].
    pose proof (select_spec info k Hs Hi) as (index & next & end_ & E & Hx & Hr).
    destruct (select_next_usable_range k) as [[[]|] k1]; cbn [fst snd] in *; subst k1.
    + destruct Hr as (? & Hlt & ? & Ha & Hb & Hm). unfold map_pages at 1. rewrite Hm.
      cbn [fmap list_fmap concat fst snd]. fold (map_pages info index).
      destruct (range_pages_cons next end_ Ha Hb Hlt) as [Hc Hle2].
      exists index, (next + KERNEL_PAGE_SIZE), end_. split_and!; [done| |].
      * solve_range.
      * by rewrite Hc.
    + destruct Hr as (-> & -> & Hm & He). unfold map_pages at 1. rewrite Hm.
      exists index. split_and!; [done| |done|].
      * solve_range.
      * unfold fresh_pages, map_pages; cbn. by rewrite He.
  - destruct (range_pages_cons _ _ Hna Hea Hlt) as [Hc Hle2].
    exists (pmm_memory_map_index k), (pmm_range_next k + KERNEL_PAGE_SIZE), (pmm_range_end k).
    split_and!; [by destruct k| |].
    + solve_range.
    + unfold fresh_pages; cbn. by rewrite Hc.
Qed.

(** *** Allocating one page *)

(** Writing to pages that are not free keeps the invariant. *)
Lemma pmm_inv_write info k F G r' :
  pmm_inv info k F -> changes_only G (k_ram k) r' -> Forall page_aligned G ->
  (forall p, p ∈ F -> p ∉ G) -> pmm_inv info (set_k_ram r' k) F.
Proof.
  intros [Hs Hr Hp Hd Hc (L & HL & HF)] Hw Ha Hn. split; [|by destruct Hr|done..|].
  - eapply pmm_static_same; [done|done|exact Hw].
  - exists L. split; [|done]. apply (chain_frame G (k_ram k)); [done..| |].
    + apply (page_ok_aligned info). rewrite HF, Forall_app in Hp. by destruct Hp.
    + intros p HpL. apply Hn. rewrite HF. set_solver.
Qed.

Lemma pmm_inv_page info k F p : pmm_inv info k F -> p ∈ F -> page_ok info p.
Proof. intros [_ _ Hp _ _ _]. by apply list.Forall_forall. Qed.

(** Distinct pages of memory are no more than memory holds. *)
Lemma pages_fit info F :
  NoDup F -> Forall (page_ok info) F -> KERNEL_PAGE_SIZE * Z.of_nat (length F) <= boot_ram_size info \/ F = [].
Proof.
  intros Hd Hok. destruct F as [|p F]; [by right|left].
  assert (0 <= boot_ram_size info) as HR.
  { apply Forall_cons_1 in Hok as [(_ & ? & ?) _]. unfold KERNEL_PAGE_SIZE in *. lia. }
  set (top := boot_ram_size info - boot_ram_size info mod KERNEL_PAGE_SIZE).
  assert (page_aligned top /\ 0 <= top <= boot_ram_size info) as [Ht Htb].
  { unfold top, page_aligned, KERNEL_PAGE_SIZE. zlia. }
  assert (p :: F ⊆+ range_pages 0 top) as Hsub.
  { apply NoDup_submseteq; [done|]. intros q Hq.
    destruct (proj1 (list.Forall_forall _ _) Hok q Hq) as (Ha & H0 & H1).
    apply elem_of_range_pages; [done|done|]. split_and!; [done|lia|].
    unfold top, page_aligned, KERNEL_PAGE_SIZE in *. zlia. }
  apply submseteq_length in Hsub. apply Nat2Z.inj_le in Hsub.
  rewrite length_range_pages in Hsub by lia. unfold KERNEL_PAGE_SIZE in *. zlia.
Qed.

Lemma pmm_count_bound info k F : pmm_inv info k F -> Z.of_nat (length F) <= ram_size (k_ram k).
Proof.
  intros [[_ _ Hr _ [? _]] _ Hp Hd _ _]. destruct (pages_fit info F Hd Hp) as [?| ->].
  - unfold KERNEL_PAGE_SIZE in *. lia.
  - unfold is_u64 in *. cbn. lia.
Qed.

Lemma chain_head_u64 info k F r h L :
  pmm_inv info k F -> chain r h L -> (forall p, p ∈ L -> p ∈ F) -> is_u64 h.
Proof.
  intros Hinv HL HF. destruct L as [|q L]; [by rewrite (chain_head _ _ _ HL)|].
  rewrite (chain_head _ _ _ HL). cbn.
  destruct (pmm_inv_page _ _ _ q Hinv) as (? & ? & ?); [apply HF; by left|].
  destruct (inv_static _ _ _ Hinv) as [_ _ ? _ [? _]]. unfold is_u64, KERNEL_PAGE_SIZE in *. lia.
Qed.

(** The common end of an allocation: [p] was taken from the free pages. *)
Lemma finish_alloc info k F p :
  pmm_inv info (set_pmm_free_count (Z.of_nat (length F)) k) F ->
  pmm_free_count k = Z.of_nat (S (length F)) -> page_ok info p -> p ∉ F ->
  exists k',
    (exec_guard (negb (p =? 0));;
     words ← phys_pointer p;
     exec_modify (fun k => set_pmm_free_count (wrap64 (pmm_free_count k - 1)) k);;
     zero_words page_words words 0;;
     mret p) k = (Some p, k') /\
    pmm_inv info k' F /\ changes_only [p] (k_ram k) (k_ram k') /\ page_zero (k_ram k') p /\
    pmm_same k k'.
Proof.
  intros Hinv Hc Hok Hn. pose proof (inv_static _ _ _ Hinv) as Hs.
  assert (pmm_static info k) as Hsk by by destruct Hs.
  exists (set_k_ram (zero_ram page_words (k_ram k) p)
    (set_pmm_free_count (Z.of_nat (length F)) k)).
  split_and!.
  - rewrite (proj2 (Z.eqb_neq p 0)) by (destruct Hok; lia).
    cbn [negb exec_guard]. erewrite exec_bind_some by reflexivity.
    erewrite exec_bind_some by (apply phys_pointer_some; eapply page_ok_direct; eauto).
    erewrite exec_bind_some by reflexivity. rewrite Hc.
    replace (wrap64 (Z.of_nat (S (length F)) - 1)) with (Z.of_nat (length F)).
    2:{ rewrite wrap64_id; [lia|].
        pose proof (inv_count _ _ _ Hinv). destruct Hok as (? & ? & ?), Hsk as [_ _ ? _ [? _]].
        assert (Z.of_nat (length F) <= ram_size (k_ram k)) as ?.
        { apply (pmm_count_bound info (set_pmm_free_count (Z.of_nat (length F)) k)); done. }
        unfold is_u64 in *. lia. }
    pose proof (zero_words_run page_words (set_pmm_free_count (Z.of_nat (length F)) k) p 0) as Hz.
    cbn [kernel_virtual_handoff set_pmm_free_count k_ram] in Hz.
    erewrite exec_bind_some.
    2:{ apply Hz; change (Z.of_nat page_words) with 512; destruct Hok as (? & ? & ?), Hsk as [_ _ ? _ [? _]];
        unfold is_u64, KERNEL_PAGE_SIZE in *; lia. }
    rewrite Z.mul_0_r, Z.add_0_r. reflexivity.
  - apply (pmm_inv_write info _ F [p]); [done|apply zero_page_changes| |].
    + apply Forall_singleton, Hok.
    + intros q Hq Hqp. apply list_elem_of_singleton in Hqp. by subst.
  - apply zero_page_changes.
  - apply zero_page_zero.
  - done.
Qed.

Lemma perm_cons_notin (p : Z) F F' : F ≡ₚ (p :: F') -> NoDup F -> NoDup F' /\ p ∉ F'.
Proof. intros HF Hd. rewrite HF in Hd. by inversion Hd. Qed.

Lemma alloc_page_spec info k F :
  pmm_inv info k F ->
  match kernel_pmm_alloc_page k with
  | (Some p, k') => exists F', F ≡ₚ (p :: F') /\ pmm_inv info k' F' /\
      changes_only [p] (k_ram k) (k_ram k') /\ page_zero (k_ram k') p /\ pmm_same k k'
  | (None, k') => F = [] /\ pmm_inv info k' [] /\ k_ram k' = k_ram k /\ pmm_same k k'
  end.
Proof.
  intros Hinv. pose proof Hinv as [Hs Hr Hp Hd Hc (L & HL & HF)].
  unfold kernel_pmm_alloc_page. erewrite exec_bind_some by reflexivity.
  assert (forall k1 p F', F ≡ₚ (p :: F') -> pmm_static info k1 -> pmm_range_ok info k1 ->
    pmm_free_count k1 = pmm_free_count k ->
    (exists L, chain (k_ram k1) (pmm_recycled_head k1) L /\ F' ≡ₚ L ++ fresh_pages info k1) ->
    pmm_inv info (set_pmm_free_count (Z.of_nat (length F')) k1) F' /\
    pmm_free_count k1 = Z.of_nat (S (length F')) /\ page_ok info p /\ p ∉ F') as Hfin.
  { intros k1 p F' HF' Hs1 Hr1 Hc1 HL1. destruct (perm_cons_notin _ _ _ HF' Hd) as [Hd' Hn].
    rewrite HF' in Hp. apply Forall_cons_1 in Hp as [Hpp Hp']. split_and!; [|..|done|done].
    - split; [by destruct Hs1|by destruct Hr1|done..].
    - by rewrite Hc1, Hc, HF'. }
  destruct (Z.eqb_spec (pmm_recycled_head k) 0) as [H0|H0]; cbn [negb].
  - assert (L = []) as ->. { destruct L; [done|]. destruct HL as (? & ? & _). congruence. }
    cbn [app] in HF. pose proof (take_fresh_page_spec info k Hs Hr) as Ht.
    destruct (take_fresh_page k) as [[p|] k1] eqn:E.
    + destruct Ht as (index & next & end_ & -> & Hr1 & Hfp). rewrite Hfp in HF.
      erewrite exec_bind_some by exact E.
      destruct (Hfin (set_pmm_range next end_ (set_pmm_memory_map_index index k)) p _ HF)
        as (H1 & H2 & H3 & H4); [by destruct Hs|done|done|by exists []|].
      destruct (finish_alloc _ _ _ _ H1 H2 H3 H4) as (k' & -> & ? & ? & ? & ?).
      exists (fresh_pages info (set_pmm_range next end_ (set_pmm_memory_map_index index k))).
      split_and!; first [assumption|etrans; [|eassumption]; done].
    + destruct Ht as (index & -> & Hr1 & Hfp & Hfe). rewrite Hfp in HF.
      erewrite exec_bind_none by exact E. symmetry in HF. apply Permutation_nil in HF. subst F.
      split_and!; [done| |done|done].
      split; [by destruct Hs|done..|]. exists []. by rewrite Hfe.
  - destruct L as [|p L]; [by cbn in HL|]. destruct HL as (Hh & _ & HL).
    assert (page_ok info p) as Hpp. { apply (pmm_inv_page _ _ _ _ Hinv). rewrite HF. by left. }
    pose proof (page_ok_direct _ _ _ Hs Hpp) as Hdir.
    pose proof (page_ok_word _ _ _ 0 Hs Hpp ltac:(lia)) as Hw.
    rewrite Hh. set (k1 := set_pmm_recycled_head (load64 (k_ram k) p) k).
    erewrite exec_bind_some with (s' := k1) (a := p).
    2:{ erewrite exec_bind_some by (by apply phys_pointer_some).
        erewrite exec_bind_some by (by apply word_read_at).
        rewrite Z.mul_0_r, Z.add_0_r. reflexivity. }
    destruct (Hfin k1 p (L ++ fresh_pages info k) HF) as (H1 & H2 & H3 & H4);
      [by destruct Hs|by destruct Hr|done|by exists L|].
    destruct (finish_alloc _ _ _ _ H1 H2 H3 H4) as (k' & -> & ? & ? & ? & ?).
    exists (L ++ fresh_pages info k).
    split_and!; first [assumption|etrans; [|eassumption]; done].
Qed.

(** *** Releasing pages *)

Lemma free_page_spec info k F p :
  pmm_inv info k F -> page_ok info p -> p ∉ F ->
  exists k', kernel_pmm_free_page p k = (Some tt, k') /\ pmm_inv info k' (p :: F) /\
    changes_only [p] (k_ram k) (k_ram k') /\ pmm_same k k'.
Proof.
  intros Hinv Hpp Hn. pose proof Hinv as [Hs Hr Hp Hd Hc (L & HL & HF)].
  pose proof (page_ok_direct _ _ _ Hs Hpp) as Hdir.
  pose proof (page_ok_word _ _ _ 0 Hs Hpp ltac:(lia)) as Hw. rewrite Z.add_0_r in Hw.
  assert (NoDup (p :: F)) as Hd' by (by constructor).
  assert (Forall (page_ok info) (p :: F)) as Hp' by (by constructor).
  assert (changes_only [p] (k_ram k) (store64 (k_ram k) p (pmm_recycled_head k))) as Hch.
  { apply (changes_only_store _ p); [by left|lia|unfold KERNEL_PAGE_SIZE; lia]. }
  assert (wrap64 (pmm_free_count k + 1) = Z.of_nat (length (p :: F))) as Hcount.
  { rewrite Hc. cbn [length]. rewrite wrap64_id; [lia|].
    destruct (pages_fit info (p :: F) Hd' Hp') as [Hb|]; [|done].
    destruct Hs as [_ _ ? _ [? _]]. unfold is_u64, KERNEL_PAGE_SIZE in *. cbn [length] in Hb. lia. }
  eexists. split_and!.
  - unfold kernel_pmm_free_page. erewrite exec_bind_some by reflexivity.
    unfold exec_of_option at 1. rewrite (static_info _ _ Hs).
    erewrite exec_bind_some by reflexivity.
    destruct Hpp as (Ha & H0 & H1). change KERNEL_PAGE_MASK with (2 ^ 12 - 1).
    rewrite land_low_mask, (proj2 (Z.eqb_neq p 0)) by lia.
    change (2 ^ 12) with KERNEL_PAGE_SIZE. rewrite Ha.
    rewrite (proj2 (Z.ltb_ge (boot_ram_size info) _)), (proj2 (Z.ltb_ge (_ - _) p)) by lia.
    cbn [negb orb Z.eqb]. erewrite exec_bind_some by (by apply phys_pointer_some).
    erewrite exec_bind_some by (by apply word_write_at; rewrite Z.mul_0_r, Z.add_0_r).
    rewrite Z.mul_0_r, Z.add_0_r. erewrite exec_bind_some by reflexivity.
    unfold exec_modify. cbn [pmm_free_count set_pmm_recycled_head set_k_ram]. by rewrite Hcount.
  - split; [|by destruct Hr|done|done|done|].
    + apply (pmm_static_same info k _ [p] Hs); done.
    + exists (p :: L). cbn. split; [|by rewrite HF]. split_and!; [done| |].
      * destruct Hpp. lia.
      * rewrite load64_store64_same, wrap64_id.
        -- apply (chain_frame [p] (k_ram k)); [done..| | |].
           ++ apply Forall_singleton, Hpp.
           ++ apply (page_ok_aligned info). rewrite HF, Forall_app in Hp. by destruct Hp.
           ++ intros q Hq Hqp%list_elem_of_singleton. subst. apply Hn. rewrite HF. set_solver.
        -- eapply chain_head_u64; [exact Hinv|exact HL|]. intros q Hq. rewrite HF, elem_of_app. tauto.
  - done.
  - done.
Qed.

(** *** Contiguous allocation *)

Definition page_block (first count : Z) : list Z :=
  range_pages first (first + count * KERNEL_PAGE_SIZE).

Lemma block_end_aligned first n : page_aligned first -> page_aligned (first + n * KERNEL_PAGE_SIZE).
Proof. unfold page_aligned, KERNEL_PAGE_SIZE. intros H. zlia. Qed.

Lemma block_cons first n :
  page_aligned first -> 0 < n ->
  page_block first n = first :: page_block (first + KERNEL_PAGE_SIZE) (n - 1).
Proof.
  intros Ha Hn. unfold page_block.
  destruct (range_pages_cons first (first + n * KERNEL_PAGE_SIZE)) as [-> _].
  - done.
  - by apply block_end_aligned.
  - unfold KERNEL_PAGE_SIZE. lia.
  - do 2 f_equal. unfold KERNEL_PAGE_SIZE. lia.
Qed.

Lemma length_block first n : 0 <= n -> Z.of_nat (length (page_block first n)) = n.
Proof.
  intros Hn. unfold page_block. rewrite length_range_pages by (unfold KERNEL_PAGE_SIZE; lia).
  unfold KERNEL_PAGE_SIZE. zlia.
Qed.

Fixpoint zero_block (n : nat) (r : RAM) (first : Z) : RAM :=
  match n with
  | O => r
  | S n => zero_block n (zero_ram page_words r first) (first + KERNEL_PAGE_SIZE)
  end.

Lemma zero_block_spec n r first :
  page_aligned first ->
  changes_only (page_block first (Z.of_nat n)) r (zero_block n r first) /\
  forall p, p ∈ page_block first (Z.of_nat n) -> page_zero (zero_block n r first) p.
Proof.
  revert r first. induction n as [|n IH]; intros r first Ha.
  { cbn [zero_block Z.of_nat]. unfold page_block. rewrite range_pages_nil by lia. split; [done|].
    by intros p Hp%elem_of_nil. }
  cbn [zero_block]. rewrite (block_cons first) by (done || lia).
  replace (Z.of_nat (S n) - 1) with (Z.of_nat n) by lia.
  pose proof (block_end_aligned first 1 Ha) as Ha1. rewrite Z.mul_1_l in Ha1.
  destruct (IH (zero_ram page_words r first) _ Ha1) as [H1 H2]. split.
  - etrans.
    + eapply changes_only_mono; [|apply zero_page_changes].
      intros x ->%list_elem_of_singleton. by left.
    + eapply changes_only_mono; [|exact H1]. intros x Hx. by right.
  - intros p [->|Hp]%elem_of_cons; [|by apply H2].
    eapply page_zero_changes; [apply zero_page_zero|exact H1|].
    intros q b Hq Hb. apply elem_of_range_pages in Hq as (_ & Hq & _); [|done|by apply block_end_aligned].
    unfold in_page in *. lia.
Qed.

Lemma zero_pages_run info n k first i :
  pmm_static info k -> page_aligned first -> 0 <= i -> 0 < first ->
  first + (i + Z.of_nat n) * KERNEL_PAGE_SIZE <= boot_ram_size info ->
  zero_pages n first i k =
  (Some tt, set_k_ram (zero_block n (k_ram k) (first + i * KERNEL_PAGE_SIZE)) k).
Proof.
  revert k i. induction n as [|n IH]; intros k i Hs Ha Hi H0 Hb.
  { cbn. by rewrite set_k_ram_same. }
  cbn [zero_pages]. assert (ram_size (k_ram k) <= UINT64_MAX /\ boot_ram_size info <= ram_size (k_ram k)) as [HU HR].
  { destruct Hs as [_ _ ? _ [? _]]. unfold is_u64, UINT64_MAX in *. lia. }
  unfold UINT64_MAX, KERNEL_PAGE_SIZE in *. rewrite wrap64_id by (unfold is_u64; lia).
  erewrite exec_bind_some.
  2:{ apply phys_pointer_some. destruct Hs. lia. }
  erewrite exec_bind_some.
  2:{ apply zero_words_run; [lia|]. change (Z.of_nat page_words) with 512. unfold is_u64. lia. }
  rewrite Z.mul_0_r, Z.add_0_r. etrans; [apply IH|].
  - eapply pmm_static_same; [exact Hs|done|apply zero_page_changes].
  - done.
  - lia.
  - done.
  - lia.
  - cbn [zero_block]. unfold set_k_ram; cbn. do 3 f_equal. unfold KERNEL_PAGE_SIZE. lia.
Qed.

(** The end of a contiguous allocation of the pages [page_block first n], which were
    taken from the free pages. *)
Lemma finish_contiguous {A} info k F first n (result : A) :
  pmm_inv info (set_pmm_free_count (Z.of_nat (length F)) k) F ->
  0 < n -> pmm_free_count k = Z.of_nat (length F) + n -> is_u64 (pmm_free_count k) ->
  page_aligned first -> Forall (page_ok info) (page_block first n) ->
  (forall p, p ∈ F -> p ∉ page_block first n) ->
  exists k',
    (exec_modify (fun k => set_pmm_free_count (wrap64 (pmm_free_count k - n)) k);;
     zero_pages (Z.to_nat n) first 0;;
     mret result) k = (Some result, k') /\
    pmm_inv info k' F /\ changes_only (page_block first n) (k_ram k) (k_ram k') /\
    (forall p, p ∈ page_block first n -> page_zero (k_ram k') p) /\ pmm_same k k'.
Proof.
  intros Hinv Hn Hc Hcu Ha Hok Hd. pose proof (inv_static _ _ _ Hinv) as Hs.
  destruct (zero_block_spec (Z.to_nat n) (k_ram k) first Ha) as [Hch Hz].
  rewrite Z2Nat.id in Hch, Hz by lia.
  exists (set_k_ram (zero_block (Z.to_nat n) (k_ram k) first)
    (set_pmm_free_count (Z.of_nat (length F)) k)).
  assert (0 < first /\ first + n * KERNEL_PAGE_SIZE <= boot_ram_size info) as [H0 Hend].
  { rewrite list.Forall_forall in Hok. unfold page_block in Hok.
    destruct (Hok first) as (_ & H0 & _).
    { apply elem_of_range_pages; [done|by apply block_end_aligned|].
      unfold KERNEL_PAGE_SIZE. split_and!; [done|lia|lia]. }
    destruct (Hok (first + (n - 1) * KERNEL_PAGE_SIZE)) as (_ & _ & H1).
    { apply elem_of_range_pages; [done|by apply block_end_aligned|].
      split; [by apply block_end_aligned|]. unfold KERNEL_PAGE_SIZE. lia. }
    unfold KERNEL_PAGE_SIZE in *. lia. }
  split_and!; [|..|done|done|done].
  - erewrite exec_bind_some by reflexivity. rewrite Hc.
    rewrite wrap64_id by (unfold is_u64 in *; lia).
    replace (_ + n - n) with (Z.of_nat (length F)) by lia.
    erewrite exec_bind_some.
    2:{ apply (zero_pages_run info); [done|done|lia|done|]. rewrite Z2Nat.id by lia.
        unfold KERNEL_PAGE_SIZE in *. lia. }
    rewrite Z.mul_0_l, Z.add_0_r. reflexivity.
  - apply (pmm_inv_write info _ F (page_block first n)); [done|exact Hch| |done].
    by apply (page_ok_aligned info).
Qed.

(** What a successful contiguous allocation does. *)
Definition contiguous_taken (info : CvmBootInfo) (k : Kernel) (F : list Z) (n first : Z)
    (k' : Kernel) : Prop :=
  exists F', F ≡ₚ page_block first n ++ F' /\ pmm_inv info k' F' /\
    changes_only F (k_ram k) (k_ram k') /\
    (forall p, p ∈ page_block first n -> page_zero (k_ram k') p) /\ pmm_same k k'.

(** The block was unlinked: [k1] represents the rest but for the count. *)
Lemma take_block {A} info k F n first (result : A) k1 F' :
  pmm_inv info k F -> 0 < n -> F ≡ₚ page_block first n ++ F' -> page_aligned first ->
  pmm_static info k1 -> pmm_range_ok info k1 -> pmm_free_count k1 = pmm_free_count k ->
  (exists L, chain (k_ram k1) (pmm_recycled_head k1) L /\ F' ≡ₚ L ++ fresh_pages info k1) ->
  changes_only F (k_ram k) (k_ram k1) -> pmm_same k k1 ->
  exists k',
    (exec_modify (fun k => set_pmm_free_count (wrap64 (pmm_free_count k - n)) k);;
     zero_pages (Z.to_nat n) first 0;;
     mret result) k1 = (Some result, k') /\ contiguous_taken info k F n first k'.
Proof.
  intros Hinv Hn HF Ha Hs1 Hr1 Hc1 HL1 Hch1 Hsame1.
  pose proof Hinv as [Hs _ Hp Hd Hc _].
  rewrite HF in Hp, Hd. apply Forall_app in Hp as [HpB HpF]. apply list.NoDup_app in Hd as (_ & Hdis & HdF).
  assert (pmm_free_count k = Z.of_nat (length F') + n) as Hcn.
  { rewrite Hc, HF, length_app, Nat2Z.inj_add, length_block by lia. lia. }
  destruct (finish_contiguous info k1 F' first n result) as (k' & Hrun & H1 & H2 & H3 & H4).
  - split; [by destruct Hs1|by destruct Hr1|done|done|done|done].
  - done.
  - by rewrite Hc1.
  - rewrite Hc1, Hc. pose proof (pmm_count_bound _ _ _ Hinv). destruct Hs as [_ _ _ _ [? _]].
    unfold is_u64 in *. lia.
  - done.
  - done.
  - intros p HpF' HpB'. by apply (Hdis p).
  - exists k'. split; [exact Hrun|]. exists F'. split_and!; [done|done| |done|by etrans].
    etrans; [exact Hch1|]. eapply changes_only_mono; [|exact H2]. intros p Hpb. rewrite HF.
    apply elem_of_app. by left.
Qed.

Lemma chain_search_spec info k F n L fuel A R current rest before len :
  pmm_inv info k F -> 0 < n ->
  chain (k_ram k) (pmm_recycled_head k) L -> F ≡ₚ L ++ fresh_pages info k ->
  L = A ++ R ++ rest -> before = default 0 (list.last A) ->
  current = default 0 (head rest) -> chain (k_ram k) current rest ->
  (rest <> [] -> R ++ [current] = reverse (page_block current len) /\ 0 < len <= n) ->
  (length rest <= fuel)%nat ->
  match chain_search fuel n before current len k with
  | (Some (Some first), k') => contiguous_taken info k F n first k'
  | (Some None, k') => k' = k
  | (None, _) => False
  end.
Proof.
  intros Hinv Hn HL HF. revert A R current rest before len.
  induction fuel as [|fuel IH]; intros A R current rest before len HLA Hb Hcur Hrest Hrun Hfuel.
  { destruct rest; [|cbn in Hfuel; lia]. cbn in Hcur. by subst. }
  cbn [chain_search]. destruct rest as [|c rest]; [cbn in Hcur; by subst|].
  cbn in Hcur. subst c. destruct (Hrun ltac:(done)) as [HR Hlen]. clear Hrun.
  destruct Hrest as (_ & Hc0 & Hrest). rewrite (proj2 (Z.eqb_neq current 0)) by done.
  pose proof Hinv as [Hs Hr Hp Hd Hc _].
  assert (forall p, p ∈ L -> page_ok info p) as HpL.
  { intros p Hpl. apply (pmm_inv_page _ _ _ _ Hinv). rewrite HF. apply elem_of_app. by left. }
  assert (page_ok info current) as Hcok.
  { apply HpL. rewrite HLA. rewrite !elem_of_app, elem_of_cons. tauto. }
  pose proof (page_ok_word _ _ _ 0 Hs Hcok ltac:(lia)) as Hw.
  erewrite exec_bind_some by (by apply phys_pointer_some, (page_ok_direct info)).
  erewrite exec_bind_some by (by apply word_read_at). rewrite Z.mul_0_r, Z.add_0_r.
  set (next := load64 (k_ram k) current) in *.
  pose proof (chain_head _ _ _ Hrest) as Hnext.
  destruct (Z.eqb_spec len n) as [->|Hne].
  - (* the run is long enough *)
    assert (F ≡ₚ page_block current n ++ (A ++ rest) ++ fresh_pages info k) as HF'.
    { rewrite HF, HLA. change (current :: rest) with ([current] ++ rest). rewrite (app_assoc R), HR, reverse_Permutation.
      solve_Permutation. }
    assert (page_aligned current) as Hca by apply Hcok.
    destruct (list.last A) as [b|] eqn:HlA.
    + apply last_Some in HlA as [A' ->]. cbn in Hb. subst before.
      assert (page_ok info b) as Hbok.
      { apply HpL. rewrite HLA, !elem_of_app, list_elem_of_singleton. tauto. }
      rewrite (proj2 (Z.eqb_neq b 0)) by (destruct Hbok as (_ & ? & _); lia).
      pose proof (page_ok_word _ _ _ 0 Hs Hbok ltac:(lia)) as Hwb.
      set (k1 := set_k_ram (store64 (k_ram k) b next) k).
      assert (changes_only [b] (k_ram k) (store64 (k_ram k) b next)) as Hch.
      { apply (changes_only_store _ b); [by left|lia|unfold KERNEL_PAGE_SIZE; lia]. }
      assert (NoDup L) as HdL. { rewrite HF in Hd. by apply list.NoDup_app in Hd as (? & _ & _). }
      rewrite HLA in HL, HdL.
      destruct (take_block info k F n current (Some current) k1 ((A' ++ [b]) ++ rest ++ fresh_pages info k))
        as (k' & Hk' & Ht); [done|done|by rewrite (app_assoc _ rest)|done|by eapply pmm_static_same|by destruct Hr|done| | |done|].
      * exists ((A' ++ [b]) ++ rest). split; [|by rewrite (app_assoc _ rest)].
        rewrite <-app_assoc. cbn [k_ram k1 set_k_ram pmm_recycled_head app].
        apply (chain_unlink _ _ _ _ (R ++ [current])).
        -- by rewrite <-!app_assoc in HL |- *.
        -- done.
        -- apply load64_u64, Hs.
        -- apply list.Forall_forall. intros p HpA. apply HpL. rewrite HLA, <-!app_assoc in *. exact HpA.
        -- by rewrite <-!app_assoc in HdL |- *.
      * eapply changes_only_mono; [|exact Hch]. intros p ->%list_elem_of_singleton.
        rewrite HF, HLA, !elem_of_app, list_elem_of_singleton. tauto.
      * erewrite exec_bind_some with (s' := k1) (a := tt).
        2:{ erewrite exec_bind_some by (by apply phys_pointer_some, (page_ok_direct info)).
            etrans; [by apply word_write_at|]. by rewrite Z.mul_0_r, Z.add_0_r. }
        rewrite Hk'. done.
    + apply last_None in HlA as ->. cbn in Hb. subst before. cbn [Z.eqb].
      set (k1 := set_pmm_recycled_head next k).
      destruct (take_block info k F n current (Some current) k1 (rest ++ fresh_pages info k))
        as (k' & Hk' & Ht); [done..| |by destruct Hr|done| |done|done|].
      * by destruct Hs.
      * by exists rest.
      * erewrite exec_bind_some with (s' := k1) (a := tt) by reflexivity. rewrite Hk'. done.
  - destruct rest as [|c2 rest].
    + (* end of the chain *)
      cbn in Hnext. rewrite Hnext. cbn [Z.eqb negb andb].
      destruct fuel; reflexivity.
    + assert (next = c2) as -> by done. clear Hnext.
      assert (page_ok info c2) as Hc2.
      { apply HpL. rewrite HLA, !elem_of_app, !elem_of_cons. tauto. }
      rewrite (proj2 (Z.eqb_neq c2 0)) by (destruct Hc2 as (_ & ? & _); lia). cbn [negb andb].
      destruct ((KERNEL_PAGE_SIZE <=? current) && (c2 =? current - KERNEL_PAGE_SIZE)) eqn:Hadj.
      * apply andb_prop in Hadj as [_ ->%Z.eqb_eq].
        apply (IH A (R ++ [current]) _ (current - KERNEL_PAGE_SIZE :: rest)).
        -- rewrite HLA, <-app_assoc. done.
        -- done.
        -- done.
        -- done.
        -- intros _. split; [|lia]. rewrite (block_cons (current - KERNEL_PAGE_SIZE)); [|apply Hc2|lia].
           replace (current - KERNEL_PAGE_SIZE + KERNEL_PAGE_SIZE) with current by lia.
           replace (len + 1 - 1) with len by lia. by rewrite reverse_cons, HR.
        -- cbn in Hfuel |- *. lia.
      * apply (IH (A ++ R ++ [current]) [] c2 (c2 :: rest)).
        -- rewrite HLA. by rewrite <-!app_assoc.
        -- by rewrite app_assoc, last_snoc.
        -- done.
        -- done.
        -- intros _. split; [|lia]. unfold page_block. rewrite Z.mul_1_l.
           destruct (range_pages_cons c2 (c2 + KERNEL_PAGE_SIZE)) as [-> _].
           ++ apply Hc2.
           ++ destruct Hc2 as (Hc2 & _). unfold page_aligned, KERNEL_PAGE_SIZE in *. zlia.
           ++ unfold KERNEL_PAGE_SIZE. lia.
           ++ by rewrite range_pages_nil by lia.
        -- cbn in Hfuel |- *. lia.
Qed.

(** Moving the first fresh page to the chain does not change the free pages. *)
Lemma push_fresh info k F :
  pmm_inv info k F -> pmm_range_next k < pmm_range_end k ->
  let page := pmm_range_next k in
  let k' := set_pmm_recycled_head page (set_k_ram (store64 (k_ram k) page (pmm_recycled_head k))
              (set_pmm_range (page + KERNEL_PAGE_SIZE) (pmm_range_end k) k)) in
  pmm_inv info k' F /\ page ∈ F /\ changes_only F (k_ram k) (k_ram k').
Proof.
  intros Hinv Hlt page k'. pose proof Hinv as [Hs [Hi Hna Hea Hle] Hp Hd Hc (L & HL & HF)].
  destruct (range_pages_cons _ _ Hna Hea Hlt) as [Hcons Hle2]. fold page in Hcons, Hle2.
  assert (fresh_pages info k = page :: fresh_pages info k') as Hfresh.
  { unfold fresh_pages at 1. fold page. by rewrite Hcons. }
  assert (page ∈ F) as HpF. { rewrite HF, Hfresh, elem_of_app, elem_of_cons. tauto. }
  assert (changes_only [page] (k_ram k) (k_ram k')) as Hch.
  { apply (changes_only_store _ page); [by left|lia|unfold KERNEL_PAGE_SIZE; lia]. }
  assert (page ∉ L) as HpL.
  { intros HpL. rewrite HF, Hfresh in Hd. apply list.NoDup_app in Hd as (_ & Hd & _).
    apply (Hd page HpL). by left. }
  split_and!; [|done|].
  - split; [by eapply pmm_static_same| |done..|].
    { unfold k'. unfold page in *. solve_range. }
    exists (page :: L). split.
    + cbn. split_and!; [done| |].
      * destruct (pmm_inv_page _ _ _ _ Hinv HpF) as (_ & ? & _). lia.
      * rewrite load64_store64_same, wrap64_id.
        -- apply (chain_frame [page] (k_ram k)); [done..| | |].
           ++ by apply Forall_singleton.
           ++ apply (page_ok_aligned info). rewrite HF, Forall_app in Hp. by destruct Hp.
           ++ by intros q Hq ->%list_elem_of_singleton.
        -- eapply chain_head_u64; [exact Hinv|exact HL|]. intros q Hq. rewrite HF, elem_of_app. tauto.
    + rewrite HF, Hfresh. solve_Permutation.
  - eapply changes_only_mono; [|exact Hch]. by intros q ->%list_elem_of_singleton.
Qed.

Lemma recycle_tail_spec info fuel k F :
  pmm_inv info k F ->
  (pmm_range_end k - pmm_range_next k) / KERNEL_PAGE_SIZE <= Z.of_nat fuel ->
  exists k', recycle_tail fuel k = (Some tt, k') /\ pmm_inv info k' F /\
    pmm_range_next k' = pmm_range_end k' /\ pmm_memory_map_index k' = pmm_memory_map_index k /\
    changes_only F (k_ram k) (k_ram k') /\ pmm_same k k'.
Proof.
  revert k. induction fuel as [|fuel IH]; intros k Hinv Hf;
    pose proof Hinv as [Hs [Hi Hna Hea Hle] Hp Hd Hc _];
    (destruct (Z.ltb_spec (pmm_range_next k) (pmm_range_end k)) as [Hlt|Hge];
     [|exists k; split_and!; [|done|lia|done..]; cbn [recycle_tail];
       unfold exec_bind, exec_get; by rewrite (proj2 (Z.ltb_ge _ _))]).
  { exfalso. destruct (range_pages_cons _ _ Hna Hea Hlt) as [_ ?].
    unfold KERNEL_PAGE_SIZE in *. zlia. }
  destruct (push_fresh info k F Hinv Hlt) as (Hinv1 & HpF & Hch1).
  set (page := pmm_range_next k) in *. cbn zeta in *.
  match type of Hinv1 with pmm_inv _ ?x _ => set (k1 := x) in * end.
  destruct (IH k1 Hinv1) as (k' & Hrun & H1 & H2 & H3 & H4 & H5).
  { unfold k1; cbn. unfold page, KERNEL_PAGE_SIZE in *. zlia. }
  exists k'. split_and!; [|done..|etrans; [exact Hch1|exact H4]|etrans; [|exact H5]; done].
  pose proof (pmm_inv_page _ _ _ _ Hinv HpF) as Hok.
  cbn [recycle_tail]. erewrite exec_bind_some by reflexivity. fold page.
  rewrite (proj2 (Z.ltb_lt page (pmm_range_end k))) by done. cbn [negb].
  erewrite exec_bind_some by reflexivity.
  erewrite exec_bind_some by (apply phys_pointer_some; by apply (page_ok_direct info k)).
  erewrite exec_bind_some.
  2:{ apply (word_write_at (set_pmm_range (page + KERNEL_PAGE_SIZE) (pmm_range_end k) k)).
      by apply (page_ok_word info k page 0); [| |lia]. }
  rewrite Z.mul_0_r, Z.add_0_r. erewrite exec_bind_some by reflexivity. exact Hrun.
Qed.

(** The ranges a fresh search may still take from. *)
Definition fresh_ranges (info : CvmBootInfo) (k : Kernel) : list (Z * Z) :=
  (pmm_range_next k, pmm_range_end k) :: map_ranges info (pmm_memory_map_index k).

Definition range_fits (n : Z) (range : Z * Z) : Prop := n * KERNEL_PAGE_SIZE <= range.2 - range.1.

Lemma fresh_search_spec info fuel k F n :
  pmm_inv info k F -> 0 < n ->
  memory_map_count info - pmm_memory_map_index k < Z.of_nat fuel ->
  match fresh_search fuel n k with
  | (Some first, k') => contiguous_taken info k F n first k'
  | (None, k') => pmm_inv info k' F /\ changes_only F (k_ram k) (k_ram k') /\ pmm_same k k' /\
      Forall (fun range => ~ range_fits n range) (fresh_ranges info k)
  end.
Proof.
  intros Hinv Hn. revert k Hinv. induction fuel as [|fuel IH]; intros k Hinv Hf.
  { destruct (range_index _ _ (inv_range _ _ _ Hinv)). lia. }
  pose proof Hinv as [Hs [Hi Hna Hea Hle] Hp Hd Hc (L & HL & HF)].
  cbn [fresh_search]. erewrite exec_bind_some by reflexivity.
  destruct ((_ <? _) && _) eqn:Hfit.
  - apply andb_prop in Hfit as [Hlt%Z.ltb_lt Hreq%Z.leb_le].
    set (first := pmm_range_next k) in *. erewrite exec_bind_some by reflexivity.
    set (k1 := set_pmm_range _ _ k).
    destruct (take_block info k F n first first k1 (L ++ fresh_pages info k1))
      as (k' & Hrun & Ht); [done|done| |done|by destruct Hs| |done|by exists L|done|done|].
    + rewrite HF. unfold fresh_pages, page_block. fold first.
      rewrite (range_pages_app first (first + n * KERNEL_PAGE_SIZE) (pmm_range_end k) Hna
        (block_end_aligned first n Hna) Hea) by (unfold KERNEL_PAGE_SIZE in *; lia).
      cbn [k1 set_pmm_range pmm_range_next pmm_range_end pmm_memory_map_index].
      solve_Permutation.
    + pose proof (block_end_aligned first n Hna). unfold k1. solve_range.
    + by rewrite Hrun.
  - destruct (recycle_tail_spec info (Z.to_nat ((pmm_range_end k - pmm_range_next k) / KERNEL_PAGE_SIZE)) k F Hinv)
      as (k1 & Hrun & Hinv1 & Hempty & Hidx & Hch1 & Hsame1).
    { unfold KERNEL_PAGE_SIZE. zlia. }
    erewrite exec_bind_some by exact Hrun.
    assert (~ range_fits n (pmm_range_next k, pmm_range_end k)) as Hnofit.
    { unfold range_fits. cbn [fst snd]. apply andb_false_iff in Hfit as [H%Z.ltb_ge|H%Z.leb_gt];
        unfold KERNEL_PAGE_SIZE in *; lia. }
    pose proof Hinv1 as [Hs1 Hr1 Hp1 Hd1 Hc1 (L1 & HL1 & HF1)].
    destruct (select_spec info k1 Hs1) as (index & next & end_ & E & Hx & Hr); [by destruct Hr1|].
    unfold fresh_pages, map_pages in HF1. rewrite range_pages_nil in HF1 by lia.
    unfold fresh_ranges. rewrite <-Hidx.
    destruct (select_next_usable_range k1) as [[[]|] k2] eqn:Hsel; cbn [fst snd] in *; subst k2.
    + destruct Hr as (Hidx2 & Hlt2 & H0 & Ha & Hb & Hm). erewrite exec_bind_some by exact Hsel.
      set (k2 := set_pmm_range next end_ (set_pmm_memory_map_index index k1)) in *.
      assert (pmm_inv info k2 F) as Hinv2.
      { split; [by destruct Hs1| |done..|].
        - destruct Hr1. unfold k2. solve_range.
        - exists L1. split; [done|]. rewrite HF1, Hm. done. }
      specialize (IH k2 Hinv2 ltac:(cbn; lia)).
      destruct (fresh_search fuel n k2) as [[first|] k'].
      * destruct IH as (F' & G1 & G2 & G3 & G4 & G5). exists F'. split_and!; [done|done| |done|].
        -- by etrans.
        -- etrans; [exact Hsame1|]. etrans; [|exact G5]. done.
      * destruct IH as (G1 & G2 & G3 & G4). split_and!; [done|by etrans| |].
        -- etrans; [exact Hsame1|]. etrans; [|exact G3]. done.
        -- rewrite Hm. constructor; [done|]. exact G4.
    + destruct Hr as (-> & -> & Hm & Hm2). erewrite exec_bind_none by exact Hsel. split_and!.
      * split; [by destruct Hs1| |done..|].
        -- destruct Hr1. solve_range.
        -- exists L1. split; [done|]. rewrite HF1, Hm. unfold fresh_pages, map_pages; cbn. by rewrite Hm2.
      * done.
      * etrans; [exact Hsame1|]. done.
      * rewrite Hm. by constructor.
Qed.

Lemma alloc_contiguous_spec info k F n :
  pmm_inv info k F -> 0 <= n ->
  match kernel_pmm_alloc_contiguous n k with
  | (Some first, k') => contiguous_taken info k F n first k'
  | (None, k') => pmm_inv info k' F /\ changes_only F (k_ram k) (k_ram k') /\ pmm_same k k' /\
      (0 < n -> Forall (fun range => ~ range_fits n range) (fresh_ranges info k))
  end.
Proof.
  intros Hinv Hn. unfold kernel_pmm_alloc_contiguous. erewrite exec_bind_some by reflexivity.
  destruct (_ || _ || _) eqn:Hguard.
  - cbn. split_and!; [done..|]. intros Hn0. rewrite !orb_true_iff in Hguard.
    pose proof (pmm_count_bound _ _ _ Hinv) as Hb.
    pose proof Hinv as [[_ _ _ _ [HR _]] [Hi Hna Hea Hle] _ _ Hc (L & HL & HF)].
    assert (n * KERNEL_PAGE_SIZE <= UINT64_MAX -> pmm_free_count k < n) as Hbig.
    { intros Hsmall. destruct Hguard as [[H%Z.eqb_eq|H%Z.ltb_lt]|H%Z.ltb_lt]; [lia| |done].
      unfold KERNEL_PAGE_SIZE in *. exfalso. revert H Hsmall. unfold UINT64_MAX. zlia. }
    apply list.Forall_forall. intros range Hin Hfit.
    assert (range_pages range.1 range.2 ⊆+ F) as Hsub.
    { rewrite HF. etrans; [|apply submseteq_inserts_l; reflexivity]. unfold fresh_pages, map_pages.
      apply elem_of_cons in Hin as [->|Hin]; [by apply submseteq_inserts_r|].
      apply submseteq_inserts_l. apply list_elem_of_split in Hin as (l1 & l2 & ->).
      rewrite fmap_app, fmap_cons, concat_app. cbn [concat].
      by apply submseteq_inserts_l, submseteq_inserts_r. }
    apply submseteq_length in Hsub. unfold range_fits in Hfit.
    apply Nat2Z.inj_le in Hsub. rewrite length_range_pages in Hsub by (unfold KERNEL_PAGE_SIZE in *; lia).
    rewrite <-Hc in Hsub. unfold KERNEL_PAGE_SIZE in *.
    assert (n <= pmm_free_count k) as Hnc by (clear Hbig Hguard; zlia).
    unfold is_u64, UINT64_MAX in *.
    destruct (pages_fit info F (inv_distinct _ _ _ Hinv) (inv_pages _ _ _ Hinv)) as [Hpf| ->].
    + pose proof (static_ram _ _ (inv_static _ _ _ Hinv)). unfold KERNEL_PAGE_SIZE in *. lia.
    + cbn in Hc. lia.
  - apply orb_false_iff in Hguard as [[H0%Z.eqb_neq _]%orb_false_iff Hcn%Z.ltb_ge].
    pose proof Hinv as [Hs Hr Hp Hd Hc (L & HL & HF)].
    pose proof (chain_search_spec info k F n L (Z.to_nat (pmm_free_count k)) [] []
      (pmm_recycled_head k) L 0 (if negb (pmm_recycled_head k =? 0) then 1 else 0)
      Hinv ltac:(lia) HL HF eq_refl eq_refl (chain_head _ _ _ HL) HL) as Hcs.
    specialize (Hcs ltac:(
      intros HLne; destruct L as [|q L]; [done|]; destruct HL as (-> & Hq0 & _);
      rewrite (proj2 (Z.eqb_neq q 0) Hq0); cbn [negb]; split; [|lia];
      assert (page_aligned q) as Hqa by (apply (pmm_inv_page _ _ _ _ Hinv); rewrite HF; by left);
      rewrite (block_cons q) by (done || lia); unfold page_block;
      by rewrite range_pages_nil by (unfold KERNEL_PAGE_SIZE; lia))).
    specialize (Hcs ltac:(rewrite Hc, HF, length_app; lia)).
    destruct (chain_search _ _ _ _ _ k) as [[[first|]|] k1] eqn:Hrun; [| |done].
    + erewrite exec_bind_some by exact Hrun. exact Hcs.
    + subst k1. erewrite exec_bind_some by exact Hrun. unfold entry_fuel. rewrite (static_info _ _ Hs).
      pose proof (fresh_search_spec info (S (length (memory_map info))) k F n Hinv ltac:(lia)) as Hfs.
      specialize (Hfs ltac:(destruct Hr as [? _ _ _]; unfold memory_map_count in *; lia)).
      destruct (fresh_search _ n k) as [[first|] k']; [done|]. intuition.
Qed.

Lemma release_loop_spec info n base offset k F :
  pmm_inv info k F -> page_aligned base -> page_aligned offset ->
  Forall (page_ok info) (page_block (base + offset) (Z.of_nat n)) ->
  (forall p, p ∈ page_block (base + offset) (Z.of_nat n) -> p ∉ F) ->
  exists k', release_loop n base offset k = (Some tt, k') /\
    pmm_inv info k' (page_block (base + offset) (Z.of_nat n) ++ F) /\
    changes_only (page_block (base + offset) (Z.of_nat n)) (k_ram k) (k_ram k') /\ pmm_same k k'.
Proof.
  revert k F offset. induction n as [|n IH]; intros k F offset Hinv Hb Ho Hok Hn.
  { exists k. unfold page_block. rewrite range_pages_nil by (cbn; lia). by split_and!. }
  assert (page_aligned (base + offset)) as Hbo by (unfold page_aligned, KERNEL_PAGE_SIZE in *; zlia).
  rewrite (block_cons (base + offset)) in * by (done || lia).
  replace (Z.of_nat (S n) - 1) with (Z.of_nat n) in * by lia.
  rewrite <-Z.add_assoc in *. apply Forall_cons_1 in Hok as [Hok1 Hok].
  destruct (free_page_spec info k F (base + offset) Hinv Hok1) as (k1 & Hrun & Hinv1 & Hch1 & Hs1).
  { apply Hn. by left. }
  destruct (IH k1 ((base + offset) :: F) (offset + KERNEL_PAGE_SIZE) Hinv1 Hb)
    as (k' & Hrun' & Hinv' & Hch' & Hs').
  - unfold page_aligned, KERNEL_PAGE_SIZE in *. zlia.
  - done.
  - intros p Hp [->|HpF]%elem_of_cons; [|by apply (Hn p); [by right|]].
    apply elem_of_range_pages in Hp; [| |apply block_end_aligned]; unfold page_aligned, KERNEL_PAGE_SIZE in *;
      zlia.
  - exists k'. split_and!.
    + cbn [release_loop]. erewrite exec_bind_some; [exact Hrun'|]. unfold exec_try. by rewrite Hrun.
    + rewrite <-app_comm_cons, Permutation_middle. exact Hinv'.
    + etrans.
      * eapply changes_only_mono; [|exact Hch1]. intros x ->%list_elem_of_singleton. by left.
      * eapply changes_only_mono; [|exact Hch']. intros x Hx. by right.
    + by etrans.
Qed.

Lemma release_range_spec info k F base n :
  pmm_inv info k F -> 0 < n -> page_aligned base ->
  Forall (page_ok info) (page_block base n) -> (forall p, p ∈ page_block base n -> p ∉ F) ->
  exists k', kernel_pmm_release_range base (n * KERNEL_PAGE_SIZE) k = (Some tt, k') /\
    pmm_inv info k' (page_block base n ++ F) /\
    changes_only (page_block base n) (k_ram k) (k_ram k') /\ pmm_same k k'.
Proof.
  intros Hinv Hn Hb Hok Hd. pose proof (inv_static _ _ _ Hinv) as Hs.
  assert (page_ok info base /\ page_ok info (base + (n - 1) * KERNEL_PAGE_SIZE)) as [H1 H2].
  { rewrite list.Forall_forall in Hok. split; apply Hok, elem_of_range_pages; try done;
      try (by apply block_end_aligned); split; try done; try (by apply block_end_aligned);
      unfold KERNEL_PAGE_SIZE; lia. }
  destruct (release_loop_spec info (Z.to_nat n) base 0 k F Hinv Hb) as (k' & Hrun & HR).
  - done.
  - by rewrite Z.add_0_r, Z2Nat.id by lia.
  - by rewrite Z.add_0_r, Z2Nat.id by lia.
  - rewrite Z.add_0_r, Z2Nat.id in HR by lia. exists k'. split; [|done].
    unfold kernel_pmm_release_range. erewrite exec_bind_some by reflexivity.
    unfold exec_of_option at 1. rewrite (static_info _ _ Hs). erewrite exec_bind_some by reflexivity.
    change KERNEL_PAGE_MASK with (2 ^ 12 - 1). rewrite !land_low_mask by lia.
    change (2 ^ 12) with KERNEL_PAGE_SIZE. rewrite Hb, Z.mod_mul by done.
    destruct H2 as (_ & ? & ?), H1 as (_ & ? & _), Hs as [_ _ ? _ [? _]].
    unfold is_u64, UINT64_MAX, KERNEL_PAGE_SIZE in *.
    rewrite (proj2 (Z.ltb_ge (_ - _) base)), (proj2 (Z.ltb_ge _ (base + _))) by lia.
    cbn [negb orb Z.eqb]. by rewrite Z.div_mul by done.
Qed.

(** *** The self test *)

Lemma exec_bind_inv {S A B} (m : Exec S A) (f : A -> Exec S B) s b s' :
  exec_bind m f s = (Some b, s') -> exists a s1, m s = (Some a, s1) /\ f a s1 = (Some b, s').
Proof. unfold exec_bind. destruct (m s) as [[a|] s1]; [eauto|done]. Qed.

Lemma exec_guard_inv {S} b (s s' : S) a : exec_guard b s = (Some a, s') -> b = true /\ s' = s.
Proof. destruct b; cbn; [|done]. by intros [= _ <-]. Qed.

Lemma first_in_block first n : 0 < n -> first ∈ page_block first n.
Proof.
  intros Hn. unfold page_block, range_pages. apply list_elem_of_fmap. exists 0.
  rewrite elem_of_seqZ. unfold KERNEL_PAGE_SIZE. zlia.
Qed.

(** Giving back what was just taken restores the free pages. *)
Lemma contiguous_release_neutral info k F n first k1 :
  pmm_inv info k F -> 0 < n -> kernel_pmm_alloc_contiguous n k = (Some first, k1) ->
  exists k2, kernel_pmm_release_range first (n * KERNEL_PAGE_SIZE) k1 = (Some tt, k2) /\ pmm_inv info k2 F.
Proof.
  intros Hinv Hn E. pose proof (alloc_contiguous_spec info k F n Hinv ltac:(lia)) as H. rewrite E in H.
  destruct H as (F' & HF & Hinv1 & _). pose proof Hinv as [_ _ Hp Hd _ _].
  rewrite HF in Hp, Hd. apply Forall_app in Hp as [Hp _]. apply list.NoDup_app in Hd as (_ & Hd & _).
  assert (page_aligned first) as Ha.
  { apply (proj1 (list.Forall_forall _ _) Hp). by apply first_in_block. }
  destruct (release_range_spec info k1 F' first n Hinv1 Hn Ha Hp Hd) as (k2 & Hrun & Hinv2 & _).
  exists k2. by rewrite HF.
Qed.

Lemma alloc_free_neutral info k F p k1 r' :
  pmm_inv info k F -> kernel_pmm_alloc_page k = (Some p, k1) -> changes_only [p] (k_ram k1) r' ->
  exists k2, kernel_pmm_free_page p (set_k_ram r' k1) = (Some tt, k2) /\ pmm_inv info k2 F.
Proof.
  intros Hinv E Hch. pose proof (alloc_page_spec info k F Hinv) as H. rewrite E in H.
  destruct H as (F' & HF & Hinv1 & _). destruct (perm_cons_notin _ _ _ HF (inv_distinct _ _ _ Hinv)) as [_ Hn].
  assert (page_ok info p) as Hp by (apply (pmm_inv_page _ _ _ _ Hinv); rewrite HF; by left).
  destruct (free_page_spec info (set_k_ram r' k1) F' p) as (k3 & Hrun & Hinv3 & _); [|done|done|].
  - apply (pmm_inv_write info k1 F' [p]); [done|done|by apply Forall_singleton, Hp|].
    by intros q Hq ->%list_elem_of_singleton.
  - exists k3. by rewrite HF.
Qed.

(** A self test that succeeds leaves the allocator as it was. *)
Lemma self_test_neutral info k F k' :
  pmm_inv info k F -> kernel_pmm_self_test k = (Some tt, k') ->
  pmm_inv info k' F /\ pmm_free_count k' = pmm_free_count k.
Proof.
  intros Hinv Hrun. enough (pmm_inv info k' F) as H.
  { split; [done|]. by rewrite (inv_count _ _ _ H), (inv_count _ _ _ Hinv). }
  unfold kernel_pmm_self_test in Hrun.
  apply exec_bind_inv in Hrun as (p & k1 & Ep & Hrun).
  pose proof (alloc_page_spec info k F Hinv) as Hp. rewrite Ep in Hp.
  destruct Hp as (F1 & HF1 & Hinv1 & _). pose proof (inv_static _ _ _ Hinv1) as Hst.
  assert (page_ok info p) as Hok by (apply (pmm_inv_page _ _ _ _ Hinv); rewrite HF1; by left).
  erewrite exec_bind_some in Hrun by (apply phys_pointer_some; by eapply page_ok_direct).
  pose proof (page_ok_word _ _ _ 0 Hst Hok ltac:(lia)) as Hw.
  erewrite exec_bind_some in Hrun by (by apply word_write_at).
  rewrite Z.mul_0_r, Z.add_0_r in Hrun, Hw.
  set (r1 := store64 (k_ram k1) p _) in Hrun.
  erewrite exec_bind_some in Hrun by (apply (word_read_at (set_k_ram r1 k1)); by rewrite Z.mul_0_r, Z.add_0_r).
  assert (changes_only [p] (k_ram k1) r1) as Hch.
  { apply (changes_only_store _ p); [by left|lia|unfold KERNEL_PAGE_SIZE; lia]. }
  destruct (alloc_free_neutral info k F p k1 r1 Hinv Ep Hch) as (k2 & Ef & Hinv2).
  destruct (negb _); [by apply exec_bind_inv in Hrun as (? & ? & _ & ?)|].
  apply exec_bind_inv in Hrun as (? & ? & E & Hrun). unfold exec_try in E. rewrite Ef in E.
  injection E as _ <-.
  apply exec_bind_inv in Hrun as (q & k3 & Eq & Hrun).
  apply exec_bind_inv in Hrun as (? & ? & [_ ->]%exec_guard_inv & Hrun).
  destruct (alloc_free_neutral info k2 F q k3 (k_ram k3) Hinv2 Eq) as (k4 & Ef4 & Hinv4); [done|].
  rewrite set_k_ram_same in Ef4.
  apply exec_bind_inv in Hrun as (? & ? & E & Hrun). unfold exec_try in E. rewrite Ef4 in E. injection E as _ <-.
  erewrite exec_bind_some in Hrun by reflexivity.
  apply exec_bind_inv in Hrun as (c & k5 & Ec & Hrun). erewrite exec_bind_some in Hrun by reflexivity.
  apply exec_bind_inv in Hrun as (? & ? & [_ ->]%exec_guard_inv & Hrun).
  destruct (contiguous_release_neutral info k4 F 3 c k5 Hinv4 ltac:(lia) Ec) as (k6 & Er & Hinv6).
  apply exec_bind_inv in Hrun as (? & ? & E & Hrun). unfold exec_try in E. rewrite Er in E. injection E as _ <-.
  apply exec_bind_inv in Hrun as (c2 & k7 & Ec2 & Hrun).
  apply exec_bind_inv in Hrun as (? & ? & [_ ->]%exec_guard_inv & Hrun).
  destruct (contiguous_release_neutral info k6 F 3 c2 k7 Hinv6 ltac:(lia) Ec2) as (k8 & Er8 & Hinv8).
  apply exec_bind_inv in Hrun as (? & ? & E & Hrun). unfold exec_try in E. rewrite Er8 in E. injection E as _ <-.
  erewrite exec_bind_some in Hrun by reflexivity.
  apply exec_bind_inv in Hrun as (? & ? & [_ ->]%exec_guard_inv & Hrun).
  destruct (negb _); [|by injection Hrun as <-].
  apply exec_bind_inv in Hrun as (extra & k9 & E & [Hnone ->]%exec_guard_inv).
  unfold exec_try in E. set (count := kernel_pmm_free_page_count k4 + 1) in *.
  assert (0 <= count) as Hcount.
  { unfold count, kernel_pmm_free_page_count. rewrite (inv_count _ _ _ Hinv4). lia. }
  pose proof (alloc_contiguous_spec info k8 F count Hinv8 Hcount) as Hlast.
  destruct (kernel_pmm_alloc_contiguous count k8) as [[?|] kz]; injection E as <- <-; [done|].
  by destruct Hlast.
Qed.

(** *** Initialisation *)

Lemma init_loop_spec R entries count total :
  init_loop R entries count = Some total ->
  Forall (fun entry => entry_type entry = CVM_MEMORY_USABLE ->
    exists first end_, usable_range_bounds (entry_base entry) (entry_length entry) = Some (first, end_) /\
      end_ <= R) entries /\
  total = count + Z.of_nat (length (concat ((fun range => range_pages range.1 range.2) <$> omap entry_range entries))).
Proof.
  revert count. induction entries as [|entry entries IH]; intros count; cbn [init_loop].
  { intros [= <-]. split; [done|]. cbn. lia. }
  destruct (Z.eqb_spec (entry_type entry) CVM_MEMORY_USABLE) as [Ht|Ht].
  - destruct (usable_range_bounds _ _) as [[first end_]|] eqn:Hb; [|done].
    destruct (Z.ltb_spec R end_); [done|]. destruct (_ <? count); [done|].
    intros [Hall ->]%IH. split; [constructor; [by exists first, end_|done]|].
    cbn [omap list_omap]. unfold entry_range at 2. rewrite (proj2 (Z.eqb_eq _ _) Ht), Hb.
    destruct (Z.ltb_spec first end_).
    + rewrite fmap_cons. cbn [concat fst snd].
      rewrite length_app, Nat2Z.inj_add, length_range_pages by lia. lia.
    + lia.
  - intros [Hall ->]%IH. split; [by constructor|].
    cbn [omap list_omap]. unfold entry_range at 2. by rewrite (proj2 (Z.eqb_neq _ _) Ht).
Qed.

Lemma map_pages_ok info :
  Forall (entry_ok info) (memory_map info) -> Forall (page_ok info) (map_pages info 0).
Proof.
  unfold map_pages, map_ranges. rewrite drop_0. induction 1 as [|entry entries He _ IH]; [done|].
  cbn [omap list_omap]. unfold entry_range at 1.
  destruct (Z.eqb_spec (entry_type entry) CVM_MEMORY_USABLE) as [Ht|Ht]; [|done].
  destruct (He Ht) as (first & end_ & Hb & Hend). rewrite Hb.
  destruct (first <? end_); [|done]. rewrite fmap_cons. cbn [concat fst snd].
  apply Forall_app. split; [|done]. apply usable_bounds_aligned in Hb as (Ha1 & Ha2 & H0 & _).
  apply list.Forall_forall. intros p Hp. apply elem_of_range_pages in Hp as (? & ? & ?); [|done..].
  split_and!; [done|lia|lia].
Qed.

(** What the boot loader hands over: memory at least as large as it says, seen
    through the direct map, and usable ranges that do not overlap. *)
Record boot_memory_ok (info : CvmBootInfo) (k : Kernel) : Prop := {
  boot_wf : ram_wf (k_ram k);
  boot_ram : boot_ram_size info <= ram_size (k_ram k);
  boot_direct : boot_ram_size info <= direct_map_size (kernel_virtual_handoff k);
  boot_disjoint : NoDup (map_pages info 0);
}.

Lemma init_spec info k k' :
  boot_memory_ok info k -> kernel_pmm_init info k = (Some tt, k') ->
  pmm_inv info k' (map_pages info 0) /\ k_ram k' = k_ram k /\
  pmm_free_count k' = Z.of_nat (length (map_pages info 0)) /\ 0 < pmm_free_count k'.
Proof.
  intros [H1 H2 H3 H4]. unfold kernel_pmm_init. erewrite exec_bind_some by reflexivity.
  unfold exec_of_option. destruct (init_loop _ _ 0) as [total|] eqn:Hi; [|done].
  erewrite exec_bind_some by reflexivity. erewrite exec_bind_some by reflexivity.
  destruct (Z.eqb_spec total 0); [done|]. intros [= <-].
  apply init_loop_spec in Hi as [Hall Htot].
  assert (total = Z.of_nat (length (map_pages info 0))) as ->.
  { rewrite Htot. unfold map_pages, map_ranges. by rewrite drop_0. }
  split_and!; [|done|done|cbn; lia].
  split; [split; [done..|exact H1]| |by apply map_pages_ok|done|done|].
  - split; cbn; unfold memory_map_count, page_aligned; (done || lia).
  - exists []. split; [done|]. unfold fresh_pages; cbn. by rewrite range_pages_nil.
Qed.

(** ** A client of the allocator *)

(** The kernel holds pages [own]; it may allocate, free what it holds, and write
    to what it holds. *)
Inductive pmm_step : Kernel * list Z -> Kernel * list Z -> Prop :=
  | step_alloc k own p k' :
      kernel_pmm_alloc_page k = (Some p, k') -> pmm_step (k, own) (k', p :: own)
  | step_alloc_failed k own k' :
      kernel_pmm_alloc_page k = (None, k') -> pmm_step (k, own) (k', own)
  | step_contiguous k own n first k' :
      0 <= n -> kernel_pmm_alloc_contiguous n k = (Some first, k') ->
      pmm_step (k, own) (k', page_block first n ++ own)
  | step_contiguous_failed k own n k' :
      0 <= n -> kernel_pmm_alloc_contiguous n k = (None, k') -> pmm_step (k, own) (k', own)
  | step_free k own own' p result k' :
      own ≡ₚ p :: own' -> kernel_pmm_free_page p k = (result, k') ->
      pmm_step (k, own) (k', own')
  | step_release k own own' base n result k' :
      0 < n -> page_aligned base -> own ≡ₚ page_block base n ++ own' ->
      kernel_pmm_release_range base (n * KERNEL_PAGE_SIZE) k = (result, k') ->
      pmm_step (k, own) (k', own')
  | step_write k own r' :
      changes_only own (k_ram k) r' -> pmm_step (k, own) (set_k_ram r' k, own).

(** Every usable page is either free or held, never both, never twice. *)
Definition pages_accounted (info : CvmBootInfo) (s : Kernel * list Z) : Prop :=
  exists F, pmm_inv info s.1 F /\ F ++ s.2 ≡ₚ map_pages info 0.

Lemma accounted_facts info own F :
  NoDup (map_pages info 0) -> Forall (page_ok info) (map_pages info 0) ->
  F ++ own ≡ₚ map_pages info 0 ->
  Forall (page_ok info) own /\ NoDup own /\ (forall p, p ∈ own -> p ∉ F).
Proof.
  intros Hd Hok HF. rewrite <-HF in Hd, Hok.
  apply list.NoDup_app in Hd as (_ & Hdis & Hd). apply Forall_app in Hok as [_ Hok].
  split_and!; [done..|]. intros p Hp HpF. by apply (Hdis p).
Qed.

Lemma pmm_step_accounted info s s' :
  NoDup (map_pages info 0) -> Forall (page_ok info) (map_pages info 0) ->
  pmm_step s s' -> pages_accounted info s -> pages_accounted info s'.
Proof.
  intros Hd Hok Hstep (F & Hinv & HF).
  destruct Hstep as [k own p k' E|k own k' E|k own n first k' Hn E|k own n k' Hn E|
    k own own' p result k' Hown E|k own own' base n result k' Hn Hb Hown E|k own r' Hw];
    cbn [fst snd] in *;
    destruct (accounted_facts info own F Hd Hok HF) as (Hoo & Hod & Hodis).
  - pose proof (alloc_page_spec info k F Hinv) as H. rewrite E in H.
    destruct H as (F' & HF' & Hinv' & _). exists F'. split; [done|]. cbn [fst snd].
    rewrite <-HF, HF'. solve_Permutation.
  - pose proof (alloc_page_spec info k F Hinv) as H. rewrite E in H.
    destruct H as (-> & Hinv' & _). by exists [].
  - pose proof (alloc_contiguous_spec info k F n Hinv Hn) as H. rewrite E in H.
    destruct H as (F' & HF' & Hinv' & _). exists F'. split; [done|]. cbn [fst snd].
    rewrite <-HF, HF'. solve_Permutation.
  - pose proof (alloc_contiguous_spec info k F n Hinv Hn) as H. rewrite E in H.
    destruct H as (Hinv' & _). by exists F.
  - rewrite Hown in Hoo. apply Forall_cons_1 in Hoo as [Hp _].
    destruct (free_page_spec info k F p Hinv Hp) as (k1 & E1 & Hinv1 & _).
    { apply Hodis. rewrite Hown. by left. }
    rewrite E in E1. injection E1 as _ ->. exists (p :: F). split; [done|]. cbn [fst snd].
    rewrite <-HF, Hown. solve_Permutation.
  - rewrite Hown, Forall_app in Hoo. destruct Hoo as [Hp _].
    destruct (release_range_spec info k F base n Hinv Hn Hb Hp) as (k1 & E1 & Hinv1 & _).
    { intros p Hpb. apply Hodis. rewrite Hown, elem_of_app. tauto. }
    rewrite E in E1. injection E1 as _ ->. exists (page_block base n ++ F). split; [done|]. cbn [fst snd].
    rewrite <-HF, Hown. solve_Permutation.
  - exists F. split; [|done]. apply (pmm_inv_write info k F own); [done..| |].
    + by apply (page_ok_aligned info).
    + intros p HpF Hpo. by apply (Hodis p).
Qed.

(** ** A concrete machine *)

(** 128 KiB of memory; pages 0x1000 to 0x3fff and 0x8000 to 0xcfff are usable,
    the kernel is loaded at 0x4000, the boot tables are at 0xd000. *)
Definition demo_info : CvmBootInfo :=
  mkBootInfo 0xE000 512 [mkEntry 0 0x4000 CVM_MEMORY_USABLE; mkEntry 0x4000 0x4000 2;
    mkEntry 0x8000 0x5000 CVM_MEMORY_USABLE] 0x20000 0x4000 0x10000000.

Definition demo_kernel : Kernel :=
  mkKernel (mkRAM ∅ 0x20000) (mkHandoff 0x40000000 0x4000 0x100000000 0x20000 0xD000 0x1000)
    None 0 0 0 0 0 0.

Lemma demo_boot_memory : boot_memory_ok demo_info demo_kernel.
Proof.
  split; [split; [done|apply map_Forall_empty]|done|done|].
  apply (bool_decide_unpack _). by vm_compute.
Qed.

(** To run a computation for its result only. *)
Lemma run_result {A B} (p : A * B) a : p.1 = a -> p = (a, p.2).
Proof. destruct p. by intros <-. Qed.

Definition demo_pmm : Kernel := (kernel_pmm_init demo_info demo_kernel).2.

Lemma demo_pmm_init : kernel_pmm_init demo_info demo_kernel = (Some tt, demo_pmm).
Proof. by vm_compute. Qed.

Lemma demo_pmm_inv : pmm_inv demo_info demo_pmm (map_pages demo_info 0).
Proof. exact (proj1 (init_spec _ _ _ demo_boot_memory demo_pmm_init)). Qed.

(** C11: in every state the kernel can reach from a successful
    [kernel_pmm_init] by allocating pages, allocating contiguous blocks,
    freeing or releasing what it holds and writing to what it holds, each usable
    page of the memory map is either free or held, exactly once: no page is
    handed out twice or lost, page 0 is never handed out, every page lies in
    RAM, and the free count is exact. *)
Theorem pmm_never_double_allocates info k0 k own k1 :
  boot_memory_ok info k0 -> kernel_pmm_init info k0 = (Some tt, k1) ->
  rtc pmm_step (k1, []) (k, own) ->
  exists F, pmm_inv info k F /\ F ++ own ≡ₚ map_pages info 0 /\ NoDup (F ++ own) /\
    Forall (page_ok info) own /\
    kernel_pmm_free_page_count k = Z.of_nat (length (map_pages info 0)) - Z.of_nat (length own).
Proof.
  intros Hboot Hinit Hsteps. destruct (init_spec _ _ _ Hboot Hinit) as (Hinv & _).
  pose proof (boot_disjoint _ _ Hboot) as Hd. pose proof (inv_pages _ _ _ Hinv) as Hok.
  assert (pages_accounted info (k, own)) as (F & HF & HP).
  { remember (k1, []) as s eqn:Es. remember (k, own) as s' eqn:Es'. revert Hinv Es Es'.
    assert (pages_accounted info s -> pages_accounted info s') as H.
    { induction Hsteps; eauto using pmm_step_accounted. }
    intros Hinv -> ->. apply H. exists (map_pages info 0). by rewrite app_nil_r. }
  cbn [fst snd] in *. exists F. split_and!; [done|done|by rewrite HP| |].
  - rewrite <-HP, Forall_app in Hok. by destruct Hok.
  - unfold kernel_pmm_free_page_count. rewrite (inv_count _ _ _ HF), <-HP, length_app. lia.
Qed.

Lemma pmm_never_double_allocates_witness :
  exists F, pmm_inv demo_info (kernel_pmm_alloc_contiguous 2 demo_pmm).2 F /\
    F ++ [0x1000; 0x2000] ≡ₚ map_pages demo_info 0 /\ NoDup (F ++ [0x1000; 0x2000]) /\
    Forall (page_ok demo_info) [0x1000; 0x2000] /\
    kernel_pmm_free_page_count (kernel_pmm_alloc_contiguous 2 demo_pmm).2 =
      Z.of_nat (length (map_pages demo_info 0)) - Z.of_nat (length [0x1000; 0x2000]).
Proof.
  apply (pmm_never_double_allocates demo_info demo_kernel _ [0x1000; 0x2000] demo_pmm
    demo_boot_memory demo_pmm_init).
  eapply rtc_l; [|apply rtc_refl].
  apply (step_contiguous demo_pmm [] 2 0x1000); [lia|]. apply run_result. by vm_compute.
Defined.

(** [kernel_pmm_alloc_page] succeeds exactly when a page is free; it
    returns a free page, cleared, that is no longer free, and writes to no other
    page. *)
Theorem pmm_alloc_page_correct info k F :
  pmm_inv info k F ->
  match kernel_pmm_alloc_page k with
  | (Some p, k') => exists F', F ≡ₚ p :: F' /\ pmm_inv info k' F' /\
      changes_only [p] (k_ram k) (k_ram k') /\ page_zero (k_ram k') p
  | (None, k') => F = [] /\ pmm_inv info k' [] /\ k_ram k' = k_ram k
  end.
Proof.
  intros Hinv. pose proof (alloc_page_spec info k F Hinv) as H.
  destruct (kernel_pmm_alloc_page k) as [[p|] k']; [|tauto].
  destruct H as (F' & ? & ? & ? & ? & _). by exists F'.
Qed.

Lemma pmm_alloc_page_correct_witness :
  exists F', map_pages demo_info 0 ≡ₚ 0x1000 :: F' /\
    pmm_inv demo_info (kernel_pmm_alloc_page demo_pmm).2 F' /\
    changes_only [0x1000] (k_ram demo_pmm) (k_ram (kernel_pmm_alloc_page demo_pmm).2) /\
    page_zero (k_ram (kernel_pmm_alloc_page demo_pmm).2) 0x1000.
Proof.
  assert (kernel_pmm_alloc_page demo_pmm = (Some 0x1000, (kernel_pmm_alloc_page demo_pmm).2)) as E
    by (apply run_result; by vm_compute).
  pose proof (pmm_alloc_page_correct demo_info demo_pmm _ demo_pmm_inv) as H. rewrite E in H.
  exact H.
Defined.

(** [kernel_pmm_alloc_contiguous] returns [n] consecutive free pages,
    cleared, and takes exactly them from the free pages, whether they come from
    the recycled chain or from the memory map.  When it fails the free pages are
    unchanged, and no range the memory map still offers has [n] pages.  Either
    way it writes to no page that is held. *)
Theorem pmm_alloc_contiguous_correct info k F n :
  pmm_inv info k F -> 0 <= n ->
  match kernel_pmm_alloc_contiguous n k with
  | (Some first, k') => exists F', F ≡ₚ page_block first n ++ F' /\ pmm_inv info k' F' /\
      changes_only F (k_ram k) (k_ram k') /\
      (forall p, p ∈ page_block first n -> page_zero (k_ram k') p)
  | (None, k') => pmm_inv info k' F /\ changes_only F (k_ram k) (k_ram k') /\
      (0 < n -> Forall (fun range => ~ range_fits n range) (fresh_ranges info k))
  end.
Proof.
  intros Hinv Hn. pose proof (alloc_contiguous_spec info k F n Hinv Hn) as H.
  destruct (kernel_pmm_alloc_contiguous n k) as [[first|] k']; [|tauto].
  destruct H as (F' & ? & ? & ? & ? & _). by exists F'.
Qed.

Lemma pmm_alloc_contiguous_correct_witness :
  exists F', map_pages demo_info 0 ≡ₚ page_block 0x8000 4 ++ F' /\
    pmm_inv demo_info (kernel_pmm_alloc_contiguous 4 demo_pmm).2 F' /\
    changes_only (map_pages demo_info 0) (k_ram demo_pmm)
      (k_ram (kernel_pmm_alloc_contiguous 4 demo_pmm).2) /\
    (forall p, p ∈ page_block 0x8000 4 -> page_zero (k_ram (kernel_pmm_alloc_contiguous 4 demo_pmm).2) p).
Proof.
  assert (kernel_pmm_alloc_contiguous 4 demo_pmm =
    (Some 0x8000, (kernel_pmm_alloc_contiguous 4 demo_pmm).2)) as E
    by (apply run_result; by vm_compute).
  pose proof (pmm_alloc_contiguous_correct demo_info demo_pmm _ 4 demo_pmm_inv ltac:(lia)) as H.
  rewrite E in H. exact H.
Defined.
