(* ===== verification/KernelMmu.v ===== *)
(** The kernel's page tables: kernel/mmu.c.

    [kernel_map_leaf] builds the three-level tables the hardware walks; the
    theorems relate it to the hardware's own [mmu_translate]: a mapping that was
    installed is the translation the machine performs, and no other translation
    changes.  [map_range] covers a range with the largest leaves that fit and
    [kernel_bootstrap_mmu] builds the kernel's address space.  Linker symbols and
    the CPU's MMU registers are parameters. *)

From S2P Require Import Prelude Ram Mmu KernelMem Pmm.
From Stdlib Require Import ZArith Lia Bool.
From stdpp Require Import base list numbers gmap option.

#[local] Open Scope Z_scope.
#[local] Open Scope exec_scope.

Definition KERNEL_LARGE_PAGE_SHIFT : Z := 21.
Definition KERNEL_LARGE_PAGE_SIZE : Z := Z.shiftl 1 KERNEL_LARGE_PAGE_SHIFT.
Definition KERNEL_LARGE_PAGE_MASK : Z := KERNEL_LARGE_PAGE_SIZE - 1.
Definition KERNEL_GIGA_PAGE_SHIFT : Z := 30.
Definition KERNEL_GIGA_PAGE_SIZE : Z := Z.shiftl 1 KERNEL_GIGA_PAGE_SHIFT.
Definition KERNEL_GIGA_PAGE_MASK : Z := KERNEL_GIGA_PAGE_SIZE - 1.

Definition KERNEL_PTE_VALID : Z := Z.shiftl 1 0.
Definition KERNEL_PTE_READ : Z := Z.shiftl 1 1.
Definition KERNEL_PTE_WRITE : Z := Z.shiftl 1 2.
Definition KERNEL_PTE_EXECUTE : Z := Z.shiftl 1 3.
Definition KERNEL_PTE_USER : Z := Z.shiftl 1 4.
Definition KERNEL_PTE_PERMISSION_MASK : Z :=
  Z.lor (Z.lor KERNEL_PTE_READ KERNEL_PTE_WRITE) KERNEL_PTE_EXECUTE.

Definition KERNEL_UART_ALIAS : Z := 0x3FFFF000.
Definition KERNEL_DIRECT_MAP_BASE : Z := 0x100000000.
Definition KERNEL_EXCEPTION_STACK_TOP : Z := 0x20000.

Definition kernel_page_table_root (k : Kernel) : Z := kernel_ptbr k.

(** ** Building a mapping *)

Definition table_entry_valid (entry : Z) : bool :=
  has_bits entry KERNEL_PTE_VALID &&
  (Z.land entry (Z.lor KERNEL_PTE_PERMISSION_MASK KERNEL_PTE_USER) =? 0).

(** [allocate_next_table(&table[index])]. *)
Definition allocate_next_table (table index : Z) : Exec Kernel unit :=
  entry ← word_read table index;
  if has_bits entry KERNEL_PTE_VALID then exec_guard (table_entry_valid entry)
  else
    page ← kernel_pmm_alloc_page;
    word_write table index (Z.lor page KERNEL_PTE_VALID).

Definition leaf_arguments_bad (virtual_address physical_address flags leaf_mask : Z) : bool :=
  negb (Z.land virtual_address leaf_mask =? 0) || negb (Z.land physical_address leaf_mask =? 0) ||
  (Z.land flags KERNEL_PTE_VALID =? 0) || (Z.land flags KERNEL_PTE_PERMISSION_MASK =? 0) ||
  negb (Z.land flags (not64 (Z.lor (Z.lor KERNEL_PTE_VALID KERNEL_PTE_PERMISSION_MASK)
                               KERNEL_PTE_USER)) =? 0) ||
  (has_bits flags KERNEL_PTE_WRITE && (Z.land flags KERNEL_PTE_READ =? 0)).

Definition kernel_map_leaf (root virtual_address physical_address flags leaf_shift : Z) :
    Exec Kernel unit :=
  let leaf_size := Z.shiftl 1 leaf_shift in
  let leaf_mask := leaf_size - 1 in
  if leaf_arguments_bad virtual_address physical_address flags leaf_mask then exec_fail
  else
    level2 ← phys_pointer root;
    let index2 := Z.land (Z.shiftr virtual_address 30) 0x1FF in
    if leaf_shift =? KERNEL_GIGA_PAGE_SHIFT then
      entry ← word_read level2 index2;
      if has_bits entry KERNEL_PTE_VALID then exec_fail
      else word_write level2 index2 (Z.lor physical_address flags)
    else
      allocate_next_table level2 index2;;
      entry2 ← word_read level2 index2;
      level1 ← phys_pointer (Z.land entry2 KERNEL_PTE_ADDRESS_MASK);
      let index1 := Z.land (Z.shiftr virtual_address 21) 0x1FF in
      if leaf_shift =? KERNEL_LARGE_PAGE_SHIFT then
        entry ← word_read level1 index1;
        if has_bits entry KERNEL_PTE_VALID then exec_fail
        else word_write level1 index1 (Z.lor physical_address flags)
      else
        allocate_next_table level1 index1;;
        entry1 ← word_read level1 index1;
        level0 ← phys_pointer (Z.land entry1 KERNEL_PTE_ADDRESS_MASK);
        let index0 := Z.land (Z.shiftr virtual_address 12) 0x1FF in
        word_write level0 index0
          (Z.lor (Z.land physical_address KERNEL_PTE_ADDRESS_MASK) flags).

Definition kernel_map_page (root virtual_address physical_address flags : Z) : Exec Kernel unit :=
  kernel_map_leaf root virtual_address physical_address flags KERNEL_PAGE_SHIFT.

(** The leaf [map_range] chooses at an offset. *)
Definition choose_leaf (virtual_address physical_address remaining : Z) : Z :=
  if (Z.land (Z.lor virtual_address physical_address) KERNEL_GIGA_PAGE_MASK =? 0) &&
     (KERNEL_GIGA_PAGE_SIZE <=? remaining) then KERNEL_GIGA_PAGE_SHIFT
  else if (Z.land (Z.lor virtual_address physical_address) KERNEL_LARGE_PAGE_MASK =? 0) &&
          (KERNEL_LARGE_PAGE_SIZE <=? remaining) then KERNEL_LARGE_PAGE_SHIFT
  else KERNEL_PAGE_SHIFT.

(** [while (offset < mapped_size)]: every pass maps at least a page. *)
Fixpoint map_range_loop (fuel : nat) (root virtual_page physical_page mapped_size flags offset : Z) :
    Exec Kernel unit :=
  if negb (offset <? mapped_size) then mret tt
  else match fuel with
  | O => exec_fail
  | S fuel =>
      let virtual_address := virtual_page + offset in
      let physical_address := physical_page + offset in
      let leaf_shift := choose_leaf virtual_address physical_address (mapped_size - offset) in
      kernel_map_leaf root virtual_address physical_address flags leaf_shift;;
      map_range_loop fuel root virtual_page physical_page mapped_size flags
        (offset + Z.shiftl 1 leaf_shift)
  end.

Definition map_range (root virtual_start physical_start size flags : Z) : Exec Kernel unit :=
  if negb (Z.land virtual_start KERNEL_PAGE_MASK =? Z.land physical_start KERNEL_PAGE_MASK) ||
     (UINT64_MAX - size <? virtual_start) || (UINT64_MAX - size <? physical_start)
  then exec_fail
  else
    let virtual_page := Z.land virtual_start KERNEL_PTE_ADDRESS_MASK in
    let physical_page := Z.land physical_start KERNEL_PTE_ADDRESS_MASK in
    let leading := virtual_start - virtual_page in
    if UINT64_MAX - leading - KERNEL_PAGE_MASK <? size then exec_fail
    else
      let mapped_size := Z.land (size + leading + KERNEL_PAGE_MASK) KERNEL_PTE_ADDRESS_MASK in
      map_range_loop (Z.to_nat (mapped_size / KERNEL_PAGE_SIZE)) root virtual_page physical_page
        mapped_size flags 0.

Definition kernel_symbol_physical_address (k : Kernel) (info : CvmBootInfo) (symbol : Z) : Z :=
  let virtual_base := kernel_virtual_base (kernel_virtual_handoff k) in
  if (symbol <? virtual_base) ||
     (kernel_virtual_size (kernel_virtual_handoff k) <=? symbol - virtual_base)
  then 0 else wrap64 (kernel_physical_base info + (symbol - virtual_base)).

Definition map_kernel_range (info : CvmBootInfo) (root start end_ flags : Z) : Exec Kernel unit :=
  k ← exec_get;
  let physical_start := kernel_symbol_physical_address k info start in
  if (physical_start =? 0) || (end_ <? start) then exec_fail
  else map_range root start physical_start (end_ - start) flags.

(** The section bounds the linker provides. *)
Record KernelSymbols := mkSymbols {
  kernel_text_start : Z; kernel_text_end : Z;
  kernel_rodata_start : Z; kernel_rodata_end : Z;
  kernel_data_start : Z; kernel_data_end : Z;
  kernel_bss_start : Z; kernel_bss_end : Z;
}.

Definition pte_rx : Z := Z.lor (Z.lor KERNEL_PTE_VALID KERNEL_PTE_READ) KERNEL_PTE_EXECUTE.
Definition pte_r : Z := Z.lor KERNEL_PTE_VALID KERNEL_PTE_READ.
Definition pte_rw : Z := Z.lor (Z.lor KERNEL_PTE_VALID KERNEL_PTE_READ) KERNEL_PTE_WRITE.

(** [cvm_set_ptbr], then the check that [cvm_get_mmu] and [cvm_get_ptbr] report
    it: [switch root] is the machine's answer. *)
Definition kernel_bootstrap_mmu (info : CvmBootInfo) (s : KernelSymbols) (switch : Z -> bool) :
    Exec Kernel unit :=
  root ← exec_try kernel_pmm_alloc_page;
  exec_modify (set_kernel_ptbr (default 0 root));;
  root ← exec_of_option root;
  let ram_size := Z.land (boot_ram_size info) KERNEL_PTE_ADDRESS_MASK in
  map_range root KERNEL_DIRECT_MAP_BASE 0 ram_size pte_rw;;
  map_kernel_range info root (kernel_text_start s) (kernel_text_end s) pte_rx;;
  map_kernel_range info root (kernel_rodata_start s) (kernel_rodata_end s) pte_r;;
  map_kernel_range info root (kernel_data_start s) (kernel_data_end s) pte_rw;;
  map_kernel_range info root (kernel_bss_start s) (kernel_bss_end s) pte_rw;;
  map_range root (boot_info_address info) (boot_info_address info) (total_size info) pte_r;;
  map_range root (KERNEL_EXCEPTION_STACK_TOP - KERNEL_PAGE_SIZE)
    (KERNEL_EXCEPTION_STACK_TOP - KERNEL_PAGE_SIZE) KERNEL_PAGE_SIZE pte_rw;;
  kernel_map_page root KERNEL_UART_ALIAS (uart_base info) pte_rw;;
  exec_guard (switch root);;
  k ← exec_get;
  exec_try (kernel_pmm_release_range (page_table_physical_base (kernel_virtual_handoff k))
    (page_table_physical_size (kernel_virtual_handoff k)));;
  mret tt.

(** ** The tables as a tree *)

(** The table an entry points to, by the test of the kernel. *)
Definition next_table (r : RAM) (table index : Z) : option Z :=
  let entry := load64 r (table + 8 * index) in
  if table_entry_valid entry then Some (pte_address entry) else None.

(** The table reached from [table] by a path of entry indices. *)
Fixpoint table_at (r : RAM) (table : Z) (path : list Z) : option Z :=
  match path with
  | [] => Some table
  | i :: path => next_table r table i ≫= fun t => table_at r t path
  end.

Definition is_index (i : Z) : Prop := 0 <= i < 512.

(** A path to a table: at most two entries deep. *)
Definition is_path (path : list Z) : Prop := (length path <= 2)%nat /\ Forall is_index path.

(** The tables under [root] form a tree of distinct pages, none of them free,
    and entries that point to tables carry no reserved bit. *)
Record tables_ok (info : CvmBootInfo) (r : RAM) (root : Z) (F : list Z) : Prop := {
  tables_page : forall q t, is_path q -> table_at r root q = Some t -> page_ok info t /\ t ∉ F;
  tables_distinct : forall q q' t, is_path q -> is_path q' ->
    table_at r root q = Some t -> table_at r root q' = Some t -> q = q';
  tables_reserved : forall q t i, is_path q -> is_index i -> (length q <= 1)%nat ->
    table_at r root q = Some t -> table_entry_valid (load64 r (t + 8 * i)) = true ->
    has_bits (load64 r (t + 8 * i)) MMU_PTE_RESERVED_LOW_MASK = false;
}.

Lemma table_at_snoc r root q i :
  table_at r root (q ++ [i]) = table_at r root q ≫= fun t => next_table r t i.
Proof.
  revert root. induction q as [|j q IH]; intros root; cbn.
  - by destruct (next_table r root i).
  - destruct (next_table r root j); [apply IH|done].
Qed.

Lemma table_at_app r root q l :
  table_at r root (q ++ l) = table_at r root q ≫= fun t => table_at r t l.
Proof.
  revert root. induction q as [|j q IH]; intros root; cbn; [done|].
  destruct (next_table r root j); [apply IH|done].
Qed.

(** The indices the hardware uses for an address. *)
Definition va_index (va shift : Z) : Z := Z.land (Z.shiftr va shift) 0x1FF.
Definition va_path (va : Z) : list Z := va_index va <$> mmu_shifts.

Lemma va_index_div va shift : 0 <= shift -> va_index va shift = (va / 2 ^ shift) mod 512.
Proof.
  intros Hs. unfold va_index. rewrite Z.shiftr_div_pow2 by done.
  change 0x1FF with (2 ^ 9 - 1). by rewrite land_low_mask by lia.
Qed.

Lemma va_index_ok va shift : 0 <= shift -> is_index (va_index va shift).
Proof. intros Hs. rewrite va_index_div by done. unfold is_index. apply Z.mod_pos_bound. lia. Qed.

Lemma mmu_shift_pos d shift : mmu_shifts !! d = Some shift -> 0 <= shift.
Proof. intros H%list_elem_of_lookup_2. apply mmu_shifts_elem in H. lia. Qed.

Lemma va_path_index va d i : va_path va !! d = Some i -> is_index i.
Proof.
  unfold va_path, mmu_shifts. intros H. rewrite list_lookup_fmap in H.
  destruct d as [|[|[|d]]]; cbn in H; try done; injection H as <-; by apply va_index_ok.
Qed.

Lemma va_path_take va d : (d <= 2)%nat -> is_path (take d (va_path va)).
Proof.
  intros Hd. split; [rewrite length_take; lia|]. apply Forall_take.
  apply list.Forall_forall. intros i [d' Hi]%list_elem_of_lookup. by eapply va_path_index.
Qed.

(** ** The walk of the hardware, entry by entry *)

(** The access of the walk to an entry of a table in memory. *)
Lemma walk_read info r t va shift :
  ram_wf r -> boot_ram_size info <= ram_size r -> page_ok info t -> 0 <= shift ->
  ram_read r (entry_address t va shift) MMU_TABLE_ENTRY_SIZE =
  Some (load64 r (t + 8 * va_index va shift)).
Proof.
  intros Hr Hsize (_ & H0 & H1) Hs. pose proof (va_index_ok va shift Hs) as Hi.
  unfold entry_address. fold (va_index va shift). unfold is_index, KERNEL_PAGE_SIZE in *.
  change MMU_TABLE_ENTRY_SIZE with 8. pose proof (proj1 Hr) as Hu. unfold is_u64 in Hu.
  rewrite wrap64_id by (unfold is_u64; lia). rewrite (Z.mul_comm _ 8).
  apply ram_read_load64; [done|lia|lia].
Qed.

Lemma table_valid_mmu entry :
  table_entry_valid entry = true <->
  has_bits entry MMU_PTE_VALID = true /\ Z.land entry MMU_PTE_PERMISSION_MASK = 0 /\
  has_bits entry MMU_PTE_USER = false.
Proof.
  unfold table_entry_valid. rewrite andb_true_iff, Z.eqb_eq.
  change KERNEL_PTE_VALID with MMU_PTE_VALID.
  change (Z.lor KERNEL_PTE_PERMISSION_MASK KERNEL_PTE_USER)
    with (Z.lor MMU_PTE_PERMISSION_MASK MMU_PTE_USER).
  rewrite Z.land_lor_distr_r, Z.lor_eq_0_iff. unfold has_bits at 3.
  rewrite negb_false_iff, Z.eqb_eq. tauto.
Qed.

Lemma table_valid_not_write entry :
  Z.land entry MMU_PTE_PERMISSION_MASK = 0 -> has_bits entry MMU_PTE_WRITE = false.
Proof.
  intros H. unfold has_bits. rewrite negb_false_iff, Z.eqb_eq.
  change MMU_PTE_WRITE with (Z.land MMU_PTE_PERMISSION_MASK MMU_PTE_WRITE).
  by rewrite Z.land_assoc, H.
Qed.

Lemma page_ok_root info r t :
  ram_wf r -> boot_ram_size info <= ram_size r -> page_ok info t -> mmu_root_valid r t = true.
Proof.
  intros Hr Hs (Ha & H0 & H1). unfold mmu_root_valid, physical_range_valid.
  change MMU_PAGE_MASK with (2 ^ 12 - 1). rewrite land_low_mask by lia.
  change (2 ^ 12) with KERNEL_PAGE_SIZE. rewrite Ha. cbn [Z.eqb andb].
  apply ram_contains_true; [done|]. change MMU_PAGE_SIZE with KERNEL_PAGE_SIZE.
  unfold KERNEL_PAGE_SIZE in *. lia.
Qed.

Section walk.
Context (info : CvmBootInfo) (r : RAM) (root : Z) (F : list Z).
Context (Hr : ram_wf r) (Hsize : boot_ram_size info <= ram_size r) (Ht : tables_ok info r root F).

(** Where the walk for [va] stands after [d] entries that point to tables. *)
Lemma walk_to user va access d t :
  (d <= 2)%nat -> table_at r root (take d (va_path va)) = Some t ->
  mmu_walk r user va access 0 mmu_shifts root =
  mmu_walk r user va access (Z.of_nat d) (drop d mmu_shifts) t.
Proof.
  revert t. induction d as [|d IH]; intros t Hd Hp.
  { cbn in Hp. injection Hp as ->. done. }
  destruct (lookup_lt_is_Some_2 mmu_shifts d) as [shift Hshift]; [cbn; lia|].
  assert (va_path va !! d = Some (va_index va shift)) as Hi.
  { unfold va_path. by rewrite list_lookup_fmap, Hshift. }
  rewrite (take_S_r _ _ _ Hi), table_at_snoc in Hp.
  destruct (table_at r root (take d (va_path va))) as [t0|] eqn:Hp0; [|done]. cbn in Hp.
  rewrite (IH t0) by (done || lia). rewrite (drop_S _ _ _ Hshift). cbn [mmu_walk].
  pose proof (va_path_take va d ltac:(lia)) as Hq.
  destruct (tables_page _ _ _ _ Ht _ _ Hq Hp0) as [Hok0 _].
  pose proof (mmu_shift_pos _ _ Hshift) as Hs0.
  rewrite (walk_read info) by done.
  unfold next_table in Hp. destruct (table_entry_valid _) eqn:Hv; [|done]. injection Hp as <-.
  rewrite (tables_reserved _ _ _ _ Ht _ _ _ Hq (va_index_ok va shift Hs0)) by
    (done || (rewrite length_take; lia)).
  pose proof Hv as (Hv1 & Hv2 & Hv3)%table_valid_mmu.
  rewrite Hv1, Hv2, Hv3, table_valid_not_write by done. cbn [negb orb andb Z.eqb].
  rewrite (proj2 (Z.eqb_neq (Z.of_nat d) 2)) by lia. cbn [orb].
  fold (pte_address (load64 r (t0 + 8 * va_index va shift))).
  rewrite (page_ok_root info); [|done|done|].
  - cbn [negb]. by rewrite Nat2Z.inj_succ.
  - eapply (tables_page _ _ _ _ Ht (take (S d) (va_path va))); [apply va_path_take; lia|].
    rewrite (take_S_r _ _ _ Hi), table_at_snoc, Hp0. cbn. unfold next_table. by rewrite Hv.
Qed.

(** The hardware follows an entry only to a table of the tree. *)
Lemma walk_agrees r' user va access d t :
  ram_wf r' -> ram_size r' = ram_size r -> (d <= 2)%nat ->
  table_at r root (take d (va_path va)) = Some t ->
  (forall d' t' i, (d <= d' <= 2)%nat -> table_at r root (take d' (va_path va)) = Some t' ->
     va_path va !! d' = Some i -> load64 r' (t' + 8 * i) = load64 r (t' + 8 * i)) ->
  mmu_walk r' user va access (Z.of_nat d) (drop d mmu_shifts) t =
  mmu_walk r user va access (Z.of_nat d) (drop d mmu_shifts) t.
Proof.
  intros Hr' Hsz Hd. assert (exists n, n = (2 - d)%nat) as [n Hn] by eauto. revert d t Hd Hn.
  induction n as [|n IH]; intros d t Hd Hn Hp Hsame;
    (destruct (lookup_lt_is_Some_2 mmu_shifts d) as [shift Hshift]; [cbn; lia|]);
    (assert (va_path va !! d = Some (va_index va shift)) as Hi
       by (unfold va_path; by rewrite list_lookup_fmap, Hshift));
    pose proof (mmu_shift_pos _ _ Hshift) as Hs0;
    destruct (tables_page _ _ _ _ Ht _ _ (va_path_take va d Hd) Hp) as [Hok _];
    rewrite (drop_S _ _ _ Hshift); cbn [mmu_walk];
    rewrite !(walk_read info) by (done || congruence);
    rewrite (Hsame d t _ ltac:(lia) Hp Hi);
    set (pte := load64 r (t + 8 * va_index va shift));
    unfold mmu_root_valid, physical_range_valid, ram_contains; rewrite Hsz.
  - assert (d = 2)%nat as -> by lia. cbn [Z.of_nat Pos.of_succ_nat Pos.succ Z.eqb Pos.eqb orb]. done.
  - destruct (has_bits pte MMU_PTE_VALID) eqn:Hv; [|done]. cbn [negb].
    destruct (_ || _) eqn:Hres; [done|].
    destruct (Z.eqb_spec (Z.land pte MMU_PTE_PERMISSION_MASK) 0) as [Hperm|]; [|done].
    destruct (has_bits pte MMU_PTE_USER) eqn:Hu; [by rewrite orb_true_r|].
    match goal with |- (if ?b then _ else _) = _ => destruct b; [done|] end.
    replace (Z.of_nat d + 1) with (Z.of_nat (S d)) by lia.
    apply IH; [lia|lia| |].
    + rewrite (take_S_r _ _ _ Hi), table_at_snoc, Hp. cbn. unfold next_table. fold pte.
      rewrite (proj2 (table_valid_mmu pte)) by done. done.
    + intros d' t' i Hd'. apply Hsame. lia.
Qed.
End walk.

(** ** Entries *)

Lemma pte_low_bits pa flags m :
  page_aligned pa -> 0 <= m < KERNEL_PAGE_SIZE -> Z.land (Z.lor pa flags) m = Z.land flags m.
Proof.
  intros Ha Hm. rewrite Z.land_lor_distr_l.
  assert (Z.land pa m = 0) as ->; [|done].
  rewrite <-(Z.mod_small m KERNEL_PAGE_SIZE) by done. change KERNEL_PAGE_SIZE with (2 ^ 12).
  rewrite <-Z.land_ones, (Z.land_comm m), Z.land_assoc, Z.land_ones by lia.
  change (2 ^ 12) with KERNEL_PAGE_SIZE. by rewrite Ha.
Qed.

Lemma pte_has_low pa flags m :
  page_aligned pa -> 0 <= m < KERNEL_PAGE_SIZE -> has_bits (Z.lor pa flags) m = has_bits flags m.
Proof. intros Ha Hm. unfold has_bits. by rewrite pte_low_bits. Qed.

Lemma pte_address_lor pa flags :
  page_aligned pa -> is_u64 pa -> 0 <= flags < KERNEL_PAGE_SIZE -> pte_address (Z.lor pa flags) = pa.
Proof.
  intros Ha Hu Hf. unfold pte_address. change MMU_PTE_ADDRESS_MASK with KERNEL_PTE_ADDRESS_MASK.
  unfold page_aligned in Ha.
  rewrite Z.land_lor_distr_l, !land_page_mask, Ha by (unfold is_u64, KERNEL_PAGE_SIZE in *; lia).
  rewrite (Z.mod_small flags) by done. rewrite Z.sub_diag, Z.lor_0_r. lia.
Qed.

Lemma pte_u64 pa flags : is_u64 pa -> 0 <= flags < KERNEL_PAGE_SIZE -> is_u64 (Z.lor pa flags).
Proof. intros Hp Hf. apply lor_u64; [done|]. unfold is_u64, KERNEL_PAGE_SIZE in *. lia. Qed.

Lemma zero_not_table : table_entry_valid 0 = false.
Proof. done. Qed.

(** ** Rewriting one entry of the tree *)

(** [r'] differs from [r], as far as the tables go, in entry [i0] of the table
    at [q0] only. *)
Record rewrites_entry (r r' : RAM) (root : Z) (q0 : list Z) (i0 t0 : Z) : Prop := {
  rewrites_path : is_path q0;
  rewrites_index : is_index i0;
  rewrites_table : table_at r root q0 = Some t0;
  rewrites_size : ram_size r' = ram_size r;
  rewrites_wf : ram_wf r';
  rewrites_others : forall q t j, is_path q -> is_index j -> table_at r root q = Some t ->
    (q, j) <> (q0, i0) -> load64 r' (t + 8 * j) = load64 r (t + 8 * j);
}.

Lemma rewrites_store info r r1 root F q0 i0 t0 v G :
  ram_wf r -> tables_ok info r root F -> is_path q0 -> is_index i0 -> table_at r root q0 = Some t0 ->
  changes_only G r r1 -> Forall page_aligned G ->
  (forall q t, is_path q -> table_at r root q = Some t -> t ∉ G) ->
  rewrites_entry r (store64 r1 (t0 + 8 * i0) v) root q0 i0 t0.
Proof.
  intros Hr Ht Hq0 Hi0 Ht0 Hch HG Hn. destruct (tables_page _ _ _ _ Ht _ _ Hq0 Ht0) as [(Ha0 & _) _].
  split; [done..| | |].
  - rewrite store64_size. by destruct Hch as (-> & _).
  - apply store64_wf. by apply Hch.
  - intros q t j Hq Hj Htq Hne. destruct (tables_page _ _ _ _ Ht _ _ Hq Htq) as [(Ha & _) _].
    unfold is_index in *.
    rewrite load64_store64_disjoint.
    + apply (changes_only_other_page G r r1 t); [done|done|done|by eapply Hn|lia|].
      unfold KERNEL_PAGE_SIZE; lia.
    + destruct (decide (t = t0)) as [->|Htt].
      * assert (q = q0) as -> by (by eapply (tables_distinct _ _ _ _ Ht)).
        assert (j <> i0) by congruence. lia.
      * destruct (pages_disjoint t t0 Ha Ha0 Htt); unfold KERNEL_PAGE_SIZE in *; lia.
Qed.

Lemma is_path_snoc q j : is_path (q ++ [j]) -> is_path q /\ is_index j /\ (length q <= 1)%nat.
Proof.
  intros [Hl Hf]. rewrite length_app in Hl. cbn in Hl. apply Forall_app in Hf as [Hf Hj].
  apply Forall_cons_1 in Hj as [Hj _]. split; [split; [lia|done]|]. split; [done|lia].
Qed.

Section rewriting.
Context (info : CvmBootInfo) (r r' : RAM) (root : Z) (F : list Z) (q0 : list Z) (i0 t0 : Z).
Context (Hr : ram_wf r) (Hsize : boot_ram_size info <= ram_size r) (Ht : tables_ok info r root F).
Context (Hw : rewrites_entry r r' root q0 i0 t0).

Lemma rewritten_table_at q :
  is_path q -> ~ (q0 ++ [i0] `prefix_of` q) -> table_at r' root q = table_at r root q.
Proof.
  induction q as [|j q IH] using rev_ind; intros Hq Hn; [done|].
  apply is_path_snoc in Hq as (Hq & Hj & _). rewrite !table_at_snoc.
  rewrite IH; [|done|intros Hp; by apply Hn, prefix_app_r].
  destruct (table_at r root q) as [t|] eqn:Htq; [|done]. cbn. unfold next_table.
  rewrite (rewrites_others _ _ _ _ _ _ Hw q t j) by (done || (intros [= -> ->]; by apply Hn)). done.
Qed.

Lemma rewritten_base : table_at r' root q0 = Some t0.
Proof.
  rewrite rewritten_table_at; [by apply Hw|by apply Hw|].
  intros H%prefix_length. rewrite length_app in H. cbn in H. lia.
Qed.

(** Addresses whose walk does not use the entry keep their translation. *)
Lemma rewritten_translate user va access :
  ~ (take (length q0) (va_path va) = q0 /\ va_path va !! length q0 = Some i0) ->
  mmu_translate r' root user va access = mmu_translate r root user va access.
Proof.
  intros Hn. unfold mmu_translate. destruct (_ <=? va); [done|].
  unfold mmu_root_valid at 1, physical_range_valid, ram_contains.
  rewrite (rewrites_size _ _ _ _ _ _ Hw). fold (ram_contains r root MMU_PAGE_SIZE).
  fold (physical_range_valid r root MMU_PAGE_SIZE). fold (mmu_root_valid r root).
  destruct (negb _); [done|].
  apply (walk_agrees info r root F Hr Hsize Ht r' user va access 0 root); [by apply Hw|by apply Hw|lia|done|].
  intros d t i Hd Htd Hi. apply (rewrites_others _ _ _ _ _ _ Hw (take d (va_path va))); [| |done|].
  - apply va_path_take. lia.
  - by eapply va_path_index.
  - intros [= Hq <-]. apply Hn. rewrite <-Hq, length_take.
    assert (length (va_path va) = 3%nat) as -> by done. rewrite Nat.min_l by lia. done.
Qed.

Lemma rewritten_size : boot_ram_size info <= ram_size r'.
Proof. by rewrite (rewrites_size _ _ _ _ _ _ Hw). Qed.

(** *** A leaf entry *)

Lemma rewritten_leaf_tables :
  table_entry_valid (load64 r' (t0 + 8 * i0)) = false ->
  ((length q0 <= 1)%nat -> table_entry_valid (load64 r (t0 + 8 * i0)) = false) ->
  tables_ok info r' root F.
Proof.
  intros Hnew Hold.
  assert (forall q, is_path q -> table_at r' root q = table_at r root q) as Hsame.
  { intros q Hq. destruct (decide (q0 ++ [i0] `prefix_of` q)) as [[l ->]|Hn];
      [|by apply rewritten_table_at].
    assert (length q0 <= 1)%nat as Hl.
    { destruct Hq as [Hq _]. rewrite !length_app in Hq. cbn in Hq. lia. }
    rewrite <-app_assoc.
    assert (forall r1, table_at r1 root q0 = Some t0 -> table_entry_valid (load64 r1 (t0 + 8 * i0)) = false ->
      table_at r1 root (q0 ++ [i0] ++ l) = None) as Hnone.
    { intros r1 H1 H2. rewrite (table_at_app r1). rewrite H1. cbn. unfold next_table. by rewrite H2. }
    rewrite !Hnone; [done|by apply Hw|by apply Hold|apply rewritten_base|done]. }
  split.
  - intros q t Hq. rewrite Hsame by done. by apply (tables_page _ _ _ _ Ht).
  - intros q q' t Hq Hq'. rewrite !Hsame by done. by apply (tables_distinct _ _ _ _ Ht).
  - intros q t i Hq Hi Hl. rewrite Hsame by done. intros Htq Hv.
    destruct (decide ((q, i) = (q0, i0))) as [[= -> ->]|Hne].
    + assert (t = t0) as -> by (pose proof (rewrites_table _ _ _ _ _ _ Hw); congruence). congruence.
    + rewrite (rewrites_others _ _ _ _ _ _ Hw q t i) in * by done.
      by apply (tables_reserved _ _ _ _ Ht q).
Qed.

(** *** A new table *)

Lemma rewritten_new_table p F' :
  F ≡ₚ p :: F' -> p ∉ F' -> page_ok info p -> (length q0 <= 1)%nat ->
  (forall i, is_index i -> load64 r' (p + 8 * i) = 0) ->
  load64 r' (t0 + 8 * i0) = Z.lor p KERNEL_PTE_VALID ->
  table_entry_valid (load64 r (t0 + 8 * i0)) = false ->
  tables_ok info r' root F' /\ table_at r' root (q0 ++ [i0]) = Some p.
Proof.
  intros HF HpF Hp Hl Hzero Hnew Hold. pose proof Hp as (Hpa & Hp0 & Hp1).
  assert (is_u64 p) as Hpu.
  { pose proof (proj1 Hr). unfold is_u64, KERNEL_PAGE_SIZE in *. lia. }
  assert (next_table r' t0 i0 = Some p) as Hnext.
  { unfold next_table. rewrite Hnew.
    rewrite (proj2 (table_valid_mmu _)).
    - by rewrite pte_address_lor by (done || (unfold KERNEL_PAGE_SIZE; cbn; lia)).
    - rewrite !pte_has_low, pte_low_bits by (done || (unfold KERNEL_PAGE_SIZE; cbn; lia)). done. }
  assert (table_at r' root (q0 ++ [i0]) = Some p) as Htp.
  { rewrite table_at_snoc, rewritten_base. done. }
  split; [|done].
  assert (forall q t, is_path q -> table_at r' root q = Some t ->
    (t = p /\ q = q0 ++ [i0]) \/ (table_at r root q = Some t /\ t <> p /\ q <> q0 ++ [i0])) as Hcases.
  { intros q t Hq Htq. destruct (decide (q0 ++ [i0] `prefix_of` q)) as [[l ->]|Hn].
    - left. destruct l as [|j l].
      + rewrite app_nil_r in *. split; [congruence|done].
      + exfalso. rewrite table_at_app, Htp in Htq. cbn in Htq. unfold next_table in Htq.
        rewrite Hzero in Htq; [done|]. destruct Hq as [_ Hq].
        apply Forall_app in Hq as [_ Hq]. by apply Forall_cons_1 in Hq as [? _].
    - right. rewrite rewritten_table_at in Htq by done. split_and!; [done| |by intros ->].
      intros ->. destruct (tables_page _ _ _ _ Ht _ _ Hq Htq) as [_ Hnp]. apply Hnp. rewrite HF. by left. }
  split.
  - intros q t Hq [[-> ->]|(Htq & _ & _)]%Hcases; [done| |done].
    destruct (tables_page _ _ _ _ Ht _ _ Hq Htq) as [? Hnp]. split; [done|].
    intros HtF. apply Hnp. rewrite HF. by right.
  - intros q q' t Hq Hq' H1%Hcases H2%Hcases; [|done..].
    destruct H1 as [[-> ->]|(H1 & ? & _)], H2 as [[? ->]|(H2 & ? & _)]; try done.
    by eapply (tables_distinct _ _ _ _ Ht).
  - intros q t i Hq Hi Hlq [[-> ->]|(Htq & _ & _)]%Hcases; [by rewrite Hzero| |done]. intros Hv.
    destruct (decide ((q, i) = (q0, i0))) as [[= -> ->]|Hne].
    + assert (t = t0) as -> by (pose proof (rewrites_table _ _ _ _ _ _ Hw); congruence).
      rewrite Hnew, pte_has_low by (done || (unfold KERNEL_PAGE_SIZE; cbn; lia)). done.
    + rewrite (rewrites_others _ _ _ _ _ _ Hw q t i) in * by done.
      by apply (tables_reserved _ _ _ _ Ht q).
Qed.
End rewriting.

(** ** Effect on the translation *)

Definition same_translation (r r' : RAM) (root : Z) : Prop :=
  forall user va access, mmu_translate r' root user va access = mmu_translate r root user va access.

Lemma same_translation_trans r1 r2 r3 root :
  same_translation r1 r2 root -> same_translation r2 r3 root -> same_translation r1 r3 root.
Proof. intros H1 H2 user va access. by rewrite H2, H1. Qed.

Lemma root_valid info r root F :
  ram_wf r -> boot_ram_size info <= ram_size r -> tables_ok info r root F ->
  mmu_root_valid r root = true.
Proof.
  intros Hr Hs Ht. apply (page_ok_root info); [done..|].
  apply (tables_page _ _ _ _ Ht [] root); [split; [cbn; lia|constructor]|done].
Qed.

(** The walk of an address that uses the entry continues at it. *)
Lemma walk_from_entry info r root F q0 i0 t0 user va access :
  ram_wf r -> boot_ram_size info <= ram_size r -> tables_ok info r root F -> is_path q0 ->
  table_at r root q0 = Some t0 ->
  take (length q0) (va_path va) = q0 -> va_path va !! length q0 = Some i0 ->
  va < MMU_VIRTUAL_ADDRESS_LIMIT ->
  exists shift, mmu_shifts !! length q0 = Some shift /\ va_index va shift = i0 /\
    ram_read r (entry_address t0 va shift) MMU_TABLE_ENTRY_SIZE = Some (load64 r (t0 + 8 * i0)) /\
    mmu_translate r root user va access =
    mmu_walk r user va access (Z.of_nat (length q0)) (shift :: drop (S (length q0)) mmu_shifts) t0.
Proof.
  intros Hr Hs Ht Hq Ht0 Hp Hi Hva.
  destruct (lookup_lt_is_Some_2 mmu_shifts (length q0)) as [shift Hshift].
  { destruct Hq as [Hq _]. cbn. lia. }
  assert (va_index va shift = i0) as Hidx.
  { unfold va_path in Hi. rewrite list_lookup_fmap, Hshift in Hi. by injection Hi. }
  exists shift. split_and!; [done|done| |].
  - rewrite (walk_read info), Hidx; [done..| |by eapply mmu_shift_pos].
    by apply (tables_page _ _ _ _ Ht q0).
  - unfold mmu_translate. rewrite (proj2 (Z.leb_gt _ _) Hva), (root_valid info r root F) by done.
    cbn [negb]. rewrite (walk_to info r root F Hr Hs Ht user va access (length q0) t0).
    + by rewrite (drop_S _ _ _ Hshift).
    + by destruct Hq.
    + by rewrite Hp.
Qed.

Lemma translate_high r root user va access :
  MMU_VIRTUAL_ADDRESS_LIMIT <= va ->
  mmu_translate r root user va access = inr MMU_RESULT_INVALID_VIRTUAL_ADDRESS.
Proof. intros H. unfold mmu_translate. by rewrite (proj2 (Z.leb_le _ _) H). Qed.

Lemma new_table_translation info r r' root F F' q0 i0 t0 p :
  ram_wf r -> boot_ram_size info <= ram_size r -> tables_ok info r root F ->
  rewrites_entry r r' root q0 i0 t0 -> tables_ok info r' root F' -> (length q0 <= 1)%nat ->
  table_at r' root (q0 ++ [i0]) = Some p ->
  has_bits (load64 r (t0 + 8 * i0)) KERNEL_PTE_VALID = false ->
  (forall i, is_index i -> load64 r' (p + 8 * i) = 0) ->
  same_translation r r' root.
Proof.
  intros Hr Hs Ht Hw Ht' Hl Hp Hold Hzero user va access.
  destruct (decide (take (length q0) (va_path va) = q0 /\ va_path va !! length q0 = Some i0))
    as [[Hq Hi]|Hn]; [|by eapply rewritten_translate].
  destruct (Z.le_gt_cases MMU_VIRTUAL_ADDRESS_LIMIT va); [by rewrite !translate_high|].
  destruct (walk_from_entry info r root F q0 i0 t0 user va access) as (shift & _ & _ & Hread & ->);
    [done..|by apply Hw|by apply Hw|done|done|done|].
  cbn [mmu_walk]. rewrite Hread. change MMU_PTE_VALID with KERNEL_PTE_VALID. rewrite Hold. cbn [negb].
  assert (is_path (q0 ++ [i0])) as Hpath.
  { destruct (rewrites_path _ _ _ _ _ _ Hw) as [_ Hf]. split; [rewrite length_app; cbn; lia|].
    apply Forall_app. split; [done|]. constructor; [by apply Hw|done]. }
  assert (length (q0 ++ [i0]) = S (length q0)) as Hlen by (rewrite length_app; cbn; lia).
  destruct (lookup_lt_is_Some_2 (va_path va) (S (length q0))) as [i1 Hi1]; [cbn; lia|].
  destruct (walk_from_entry info r' root F' (q0 ++ [i0]) i1 p user va access)
    as (shift1 & _ & _ & Hread1 & ->).
  - by apply Hw.
  - by rewrite (rewrites_size _ _ _ _ _ _ Hw).
  - done.
  - done.
  - done.
  - rewrite Hlen, (take_S_r _ _ _ Hi). by rewrite Hq.
  - by rewrite Hlen.
  - done.
  - cbn [mmu_walk]. rewrite Hread1, Hzero; [done|]. by eapply va_path_index.
Qed.

(** The flags [kernel_map_leaf] accepts. *)
Record flags_ok (flags : Z) : Prop := {
  flags_range : 0 <= flags < 32;
  flags_valid : has_bits flags MMU_PTE_VALID = true;
  flags_leaf : Z.land flags MMU_PTE_PERMISSION_MASK <> 0;
  flags_write : has_bits flags MMU_PTE_WRITE = true -> has_bits flags MMU_PTE_READ = true;
}.

(** What the hardware answers in a leaf of [2 ^ shift] bytes at [pa]. *)
Definition leaf_result (r : RAM) (pa flags shift : Z) (user : bool) (va : Z) (access : MmuAccess) :
    Z + MmuResult :=
  if negb (permission_granted flags user access) then inr MMU_RESULT_PERMISSION_DENIED
  else if (pa <? ram_size r) && negb (physical_range_valid r pa (2 ^ shift))
  then inr MMU_RESULT_MALFORMED_ENTRY
  else inl (pa + va mod 2 ^ shift).

Lemma permission_low pa flags user access :
  page_aligned pa -> permission_granted (Z.lor pa flags) user access = permission_granted flags user access.
Proof.
  intros Ha. unfold permission_granted.
  rewrite !pte_has_low, pte_low_bits by (done || (unfold KERNEL_PAGE_SIZE; cbn; lia)). done.
Qed.

Lemma leaf_entry_translation info r r' root F F' q0 i0 t0 pa flags shift user va access :
  ram_wf r -> boot_ram_size info <= ram_size r -> tables_ok info r root F ->
  rewrites_entry r r' root q0 i0 t0 -> tables_ok info r' root F' ->
  mmu_shifts !! length q0 = Some shift -> flags_ok flags -> is_u64 pa -> pa mod 2 ^ shift = 0 ->
  load64 r' (t0 + 8 * i0) = Z.lor pa flags ->
  mmu_translate r' root user va access =
  if decide (take (length q0) (va_path va) = q0 /\ va_path va !! length q0 = Some i0 /\
             va < MMU_VIRTUAL_ADDRESS_LIMIT)
  then leaf_result r pa flags shift user va access
  else mmu_translate r root user va access.
Proof.
  intros Hr Hs Ht Hw Ht' Hshift [Hf1 Hf2 Hf3 Hf4] Hpu Hpa Hnew.
  assert (12 <= shift < 64) as Hsr by (apply mmu_shifts_elem; by eapply list_elem_of_lookup_2).
  assert (page_aligned pa) as Ha.
  { unfold page_aligned. change KERNEL_PAGE_SIZE with (2 ^ 12). apply Z.mod_divide; [lia|].
    apply Z.divide_trans with (2 ^ shift); [|by apply Z.mod_divide; [lia|]].
    exists (2 ^ (shift - 12)). rewrite <-Z.pow_add_r by lia. f_equal. lia. }
  case_decide as Hcase.
  - destruct Hcase as (Hq & Hi & Hva).
    destruct (walk_from_entry info r' root F' q0 i0 t0 user va access) as (shift' & Hs' & _ & Hread & ->).
    + by apply Hw.
    + by rewrite (rewrites_size _ _ _ _ _ _ Hw).
    + done.
    + by apply Hw.
    + by eapply rewritten_base.
    + done.
    + done.
    + done.
    + rewrite Hshift in Hs'. injection Hs' as <-. cbn [mmu_walk]. rewrite Hread, Hnew.
      fold (pte_address (Z.lor pa flags)).
      rewrite !pte_has_low, pte_low_bits, pte_address_lor, permission_low by
        (done || (unfold KERNEL_PAGE_SIZE; cbn; lia)).
      rewrite Hf2, (proj2 (Z.eqb_neq _ _) Hf3). cbn [negb].
      assert (has_bits flags MMU_PTE_RESERVED_LOW_MASK = false) as ->.
      { assert (flags ∈ seqZ 0 32) as Hin by (apply elem_of_seqZ; lia). revert Hin.
        generalize flags. apply list.Forall_forall. by apply (bool_decide_unpack _). }
      replace (has_bits flags MMU_PTE_WRITE && negb (has_bits flags MMU_PTE_READ)) with false.
      2:{ destruct (has_bits flags MMU_PTE_WRITE); [by rewrite Hf4|done]. }
      cbn [orb]. rewrite shl64_one, has_bits_low_mask, Hpa by lia. cbn [Z.eqb negb].
      unfold leaf_result. destruct (permission_granted _ _ _); [|done]. cbn [negb].
      unfold physical_range_valid, ram_contains. rewrite (rewrites_size _ _ _ _ _ _ Hw).
      destruct ((pa <? _) && _); [done|]. rewrite land_low_mask by lia. f_equal.
      apply lor_aligned with shift; [lia|done|]. apply Z.mod_pos_bound. lia.
  - destruct (Z.le_gt_cases MMU_VIRTUAL_ADDRESS_LIMIT va); [by rewrite !translate_high|].
    eapply rewritten_translate; [done..|]. tauto.
Qed.

(** ** The kernel's operations *)

(** The kernel owns a page table rooted at [root]; [F] are the free pages. *)
Record kernel_inv (info : CvmBootInfo) (k : Kernel) (root : Z) (F : list Z) : Prop := {
  kernel_pmm : pmm_inv info k F;
  kernel_tables : tables_ok info (k_ram k) root F;
}.

Definition is_table (r : RAM) (root t : Z) : Prop :=
  exists q, is_path q /\ table_at r root q = Some t.

(** A step of the kernel's memory management: it keeps the invariant, uses up
    free pages only, and writes to tables and free pages only. *)
Record kernel_step (info : CvmBootInfo) (root : Z) (k : Kernel) (F : list Z) (k' : Kernel)
    (F' : list Z) : Prop := {
  kstep_inv : kernel_inv info k' root F';
  kstep_free : F' ⊆+ F;
  kstep_same : pmm_same k k';
  kstep_size : ram_size (k_ram k') = ram_size (k_ram k);
  kstep_bytes : forall b, (forall p, p ∈ F -> ~ in_page p b) ->
    (forall t, is_table (k_ram k) root t -> ~ in_page t b) ->
    ram_byte (k_ram k') b = ram_byte (k_ram k) b;
  kstep_tables : forall t, is_table (k_ram k') root t -> is_table (k_ram k) root t \/ t ∈ F;
}.

Lemma kernel_step_refl info root k F : kernel_inv info k root F -> kernel_step info root k F k F.
Proof. intros H. by split; [..|left]. Qed.

Lemma kernel_step_trans info root k1 F1 k2 F2 k3 F3 :
  kernel_step info root k1 F1 k2 F2 -> kernel_step info root k2 F2 k3 F3 ->
  kernel_step info root k1 F1 k3 F3.
Proof.
  intros [H1 H2 H3 H4 H5 H6] [G1 G2 G3 G4 G5 G6].
  assert (forall p, p ∈ F2 -> p ∈ F1) as Hsub.
  { intros p Hp. by eapply elem_of_submseteq. }
  split; [done|by etrans|by etrans|congruence| |].
  - intros b Hf Ht. rewrite G5, H5; [done..| |].
    + intros p Hp. apply Hf. by apply Hsub.
    + intros t Hit. destruct (H6 t Hit) as [?|?]; [by apply Ht|by apply Hf].
  - intros t Hit. destruct (G6 t Hit) as [?|?]; [by apply H6|right; by apply Hsub].
Qed.

Lemma kernel_inv_ram info k root F :
  kernel_inv info k root F -> ram_wf (k_ram k) /\ boot_ram_size info <= ram_size (k_ram k).
Proof. intros [[[_ _ H _ H'] _ _ _ _ _] _]. done. Qed.

Lemma table_access info k root F q t i :
  kernel_inv info k root F -> is_path q -> is_index i -> table_at (k_ram k) root q = Some t ->
  page_ok info t /\ (t ∉ F) /\ t < direct_map_size (kernel_virtual_handoff k) /\ is_u64 (t + 8 * i).
Proof.
  intros [Hp Ht] Hq Hi Htq. destruct (tables_page _ _ _ _ Ht _ _ Hq Htq) as [Hok Hn].
  split_and!; [done..| |].
  - by apply (page_ok_direct info); [apply Hp|].
  - by apply (page_ok_word info k); [apply Hp|..].
Qed.

Lemma table_entry_in_page t i : is_index i -> t <= t + 8 * i /\ t + 8 * i + 8 <= t + KERNEL_PAGE_SIZE.
Proof. unfold is_index, KERNEL_PAGE_SIZE. lia. Qed.

(** Writing one entry of a table. *)
Lemma write_entry_step info k root F q t i v :
  kernel_inv info k root F -> is_path q -> is_index i -> table_at (k_ram k) root q = Some t ->
  tables_ok info (store64 (k_ram k) (t + 8 * i) v) root F ->
  (forall t', is_table (store64 (k_ram k) (t + 8 * i) v) root t' -> is_table (k_ram k) root t') ->
  kernel_step info root k F (set_k_ram (store64 (k_ram k) (t + 8 * i) v) k) F.
Proof.
  intros Hinv Hq Hi Htq Hok Htab.
  destruct (table_access _ _ _ _ _ _ i Hinv Hq Hi Htq) as (Hpt & Hn & _ & _).
  destruct (table_entry_in_page t i Hi).
  assert (changes_only [t] (k_ram k) (store64 (k_ram k) (t + 8 * i) v)) as Hch.
  { apply (changes_only_store _ t); [by left|lia|lia]. }
  split.
  - split; [|done]. apply (pmm_inv_write info k F [t]); [apply Hinv|done| |].
    + apply Forall_singleton, Hpt.
    + by intros p Hp ->%list_elem_of_singleton.
  - done.
  - done.
  - apply store64_size.
  - intros b _ Hb. apply Hch. intros p ->%list_elem_of_singleton. apply Hb. by exists q.
  - intros t' Ht'. left. by apply Htab.
Qed.

Lemma word_read_table info k root F q t i :
  kernel_inv info k root F -> is_path q -> is_index i -> table_at (k_ram k) root q = Some t ->
  word_read (wrap64 (direct_map_base (kernel_virtual_handoff k) + t)) i k =
  (Some (load64 (k_ram k) (t + 8 * i)), k).
Proof.
  intros Hinv Hq Hi Htq. apply word_read_at. by eapply table_access.
Qed.

Lemma allocate_next_table_spec info k root F q t i :
  kernel_inv info k root F -> is_path q -> (length q <= 1)%nat -> is_index i ->
  table_at (k_ram k) root q = Some t ->
  match allocate_next_table (wrap64 (direct_map_base (kernel_virtual_handoff k) + t)) i k with
  | (res, k') => exists F', kernel_step info root k F k' F' /\
      same_translation (k_ram k) (k_ram k') root /\ table_at (k_ram k') root q = Some t /\
      (res = Some tt ->
       table_at (k_ram k') root (q ++ [i]) = Some (pte_address (load64 (k_ram k') (t + 8 * i))))
  end.
Proof.
  intros Hinv Hq Hl Hi Htq. unfold allocate_next_table.
  erewrite exec_bind_some by (by eapply word_read_table).
  set (entry := load64 (k_ram k) (t + 8 * i)).
  destruct (has_bits entry KERNEL_PTE_VALID) eqn:Hv.
  - assert (kernel_step info root k F k F) as Hrefl by by apply kernel_step_refl.
    destruct (table_entry_valid entry) eqn:Hte; cbn; exists F; split_and!; try done.
    intros _. rewrite table_at_snoc, Htq. cbn. unfold next_table. fold entry. by rewrite Hte.
  - pose proof Hinv as [Hpmm Htab]. destruct (kernel_inv_ram _ _ _ _ Hinv) as [Hr Hs].
    destruct (table_access _ _ _ _ _ _ i Hinv Hq Hi Htq) as (Hpt & Hnt & _ & Hwt).
    pose proof (alloc_page_spec info k F Hpmm) as Halloc.
    destruct (kernel_pmm_alloc_page k) as [[p|] k1] eqn:Ea.
    2:{ destruct Halloc as (-> & Hinv1 & Hram & Hsame). erewrite exec_bind_none by exact Ea.
        exists []. rewrite Hram. split_and!; try done.
        split; [split; [done|by rewrite Hram]|done|done|by rewrite Hram|by rewrite Hram|].
        rewrite Hram. by left. }
    destruct Halloc as (F' & HF & Hinv1 & Hch & Hzero & Hsame). erewrite exec_bind_some by exact Ea.
    assert (page_ok info p) as Hp. { eapply pmm_inv_page; [exact Hpmm|]. rewrite HF. by left. }
    assert (p ∉ F') as HpF'. { pose proof (inv_distinct _ _ _ Hpmm) as Hd. rewrite HF in Hd. by inversion Hd. }
    assert (t <> p) as Htp. { intros ->. apply Hnt. rewrite HF. by left. }
    rewrite <-(same_handoff _ _ Hsame). rewrite (word_write_at k1 t i) by done.
    set (r' := store64 (k_ram k1) (t + 8 * i) (Z.lor p KERNEL_PTE_VALID)).
    assert (rewrites_entry (k_ram k) r' root q i t) as Hw.
    { apply (rewrites_store info _ _ _ F _ _ _ _ [p]); try done.
      - apply Forall_singleton, Hp.
      - intros q' t' Hq' Ht' ->%list_elem_of_singleton.
        destruct (tables_page _ _ _ _ Htab _ _ Hq' Ht') as [_ Hn']. apply Hn'. rewrite HF. by left. }
    assert (is_u64 p) as Hpu.
    { destruct Hp as (_ & ? & ?). pose proof (proj1 Hr). unfold is_u64, KERNEL_PAGE_SIZE in *. lia. }
    assert (load64 r' (t + 8 * i) = Z.lor p KERNEL_PTE_VALID) as Hnew.
    { unfold r'. rewrite load64_store64_same. apply wrap64_id, pte_u64; [done|]. by vm_compute. }
    assert (forall j, is_index j -> load64 r' (p + 8 * j) = 0) as Hz.
    { intros j Hj. destruct (table_entry_in_page p j Hj), (table_entry_in_page t i Hi). unfold r'.
      rewrite load64_store64_disjoint.
      - by apply (page_zero_load _ p).
      - destruct (pages_disjoint p t) as [?|?]; [apply Hp|apply Hpt|done|lia|lia]. }
    assert (table_entry_valid entry = false) as Hte by (unfold table_entry_valid; by rewrite Hv).
    destruct (rewritten_new_table info (k_ram k) r' root F q i t Hr Hs Htab Hw p F')
      as [Htab' Hat]; [done..|].
    exists F'. split_and!.
    + split.
      * split; [|done]. apply (pmm_inv_write info k1 F' [t]); [done| | |].
        -- destruct (table_entry_in_page t i Hi). apply (changes_only_store _ t); [by left|lia|lia].
        -- apply Forall_singleton, Hpt.
        -- intros p' Hp' ->%list_elem_of_singleton. apply Hnt. rewrite HF. by right.
      * rewrite HF. by apply submseteq_cons.
      * by etrans.
      * cbn. unfold r'. rewrite store64_size. apply Hch.
      * intros b Hbf Hbt. cbn. unfold r'. rewrite store64_byte.
        -- apply Hch. intros p' ->%list_elem_of_singleton. apply Hbf. rewrite HF. by left.
        -- specialize (Hbt t ltac:(by exists q)). destruct (table_entry_in_page t i Hi).
           unfold in_page in Hbt. lia.
      * intros t' (q' & Hq' & Ht'). cbn in Ht'.
        destruct (decide (q ++ [i] `prefix_of` q')) as [[l ->]|Hn].
        -- right. rewrite HF. destruct l as [|j l].
           ++ rewrite app_nil_r, Hat in Ht'. injection Ht' as <-. by left.
           ++ exfalso. rewrite table_at_app, Hat in Ht'. cbn in Ht'. unfold next_table in Ht'.
              rewrite Hz in Ht'; [done|]. destruct Hq' as [_ Hq'].
              apply Forall_app in Hq' as [_ Hq']. by apply Forall_cons_1 in Hq' as [? _].
        -- left. exists q'. rewrite (rewritten_table_at _ _ _ _ _ _ Hw) in Ht' by done. done.
    + apply (new_table_translation info (k_ram k) r' root F F' q i t p); try done.
    + by apply (rewritten_base _ _ _ _ _ _ Hw).
    + intros _. cbn. fold r'. rewrite Hnew, Hat. f_equal. symmetry.
      apply pte_address_lor; [apply Hp|done|by vm_compute].
Qed.

(** *** The addresses of a leaf *)

Lemma leaf_region va va' d shift :
  mmu_shifts !! d = Some shift -> va mod 2 ^ shift = 0 ->
  0 <= va < MMU_VIRTUAL_ADDRESS_LIMIT -> 0 <= va' < MMU_VIRTUAL_ADDRESS_LIMIT ->
  take d (va_path va') = take d (va_path va) /\ va_path va' !! d = va_path va !! d <->
  va <= va' < va + 2 ^ shift.
Proof.
  unfold MMU_VIRTUAL_ADDRESS_LIMIT, va_path, mmu_shifts, MMU_GIGA_PAGE_SHIFT, MMU_LARGE_PAGE_SHIFT,
    MMU_PAGE_SHIFT. cbn [fmap list_fmap]. rewrite !va_index_div by lia.
  destruct d as [|[|[|d]]]; cbn; intros [= <-] Ha Hva Hva'.
  - assert ((va' / 2 ^ 30) mod 512 = (va / 2 ^ 30) mod 512 <-> va <= va' < va + 2 ^ 30) as <- by zlia.
    split; [intros [_ [=]]; done|]. intros ->. done.
  - assert ((va' / 2 ^ 30) mod 512 = (va / 2 ^ 30) mod 512 /\
      (va' / 2 ^ 21) mod 512 = (va / 2 ^ 21) mod 512 <-> va <= va' < va + 2 ^ 21) as <- by zlia.
    split; [intros [[=] [=]]; done|]. intros [-> ->]. done.
  - assert ((va' / 2 ^ 30) mod 512 = (va / 2 ^ 30) mod 512 /\
      (va' / 2 ^ 21) mod 512 = (va / 2 ^ 21) mod 512 /\
      (va' / 2 ^ 12) mod 512 = (va / 2 ^ 12) mod 512 <-> va <= va' < va + 2 ^ 12) as <- by zlia.
    split; [intros [[=] [=]]; done|]. intros (-> & -> & ->). done.
Qed.

(** The translation of [r'] is that of [r] with one leaf added or replaced. *)
Definition leaf_mapped (r r' : RAM) (root va pa flags shift : Z) : Prop :=
  forall user va' access, 0 <= va' ->
    mmu_translate r' root user va' access =
    if decide (va <= va' < va + 2 ^ shift) then leaf_result r pa flags shift user va' access
    else mmu_translate r root user va' access.

Lemma flags_not_table pa flags :
  flags_ok flags -> page_aligned pa -> table_entry_valid (Z.lor pa flags) = false.
Proof.
  intros [_ _ Hl _] Ha. apply not_true_iff_false. intros (_ & H & _)%table_valid_mmu.
  rewrite pte_low_bits in H by (done || (unfold KERNEL_PAGE_SIZE; cbn; lia)). done.
Qed.

Lemma write_leaf_spec info k root F va d i t pa flags shift :
  kernel_inv info k root F -> (d <= 2)%nat -> mmu_shifts !! d = Some shift ->
  va_path va !! d = Some i -> table_at (k_ram k) root (take d (va_path va)) = Some t ->
  ((d <= 1)%nat -> table_entry_valid (load64 (k_ram k) (t + 8 * i)) = false) ->
  flags_ok flags -> is_u64 pa -> pa mod 2 ^ shift = 0 -> page_aligned pa ->
  va mod 2 ^ shift = 0 -> 0 <= va < MMU_VIRTUAL_ADDRESS_LIMIT ->
  exists k', word_write (wrap64 (direct_map_base (kernel_virtual_handoff k) + t)) i (Z.lor pa flags) k =
    (Some tt, k') /\ kernel_step info root k F k' F /\
    leaf_mapped (k_ram k) (k_ram k') root va pa flags shift.
Proof.
  intros Hinv Hd Hshift Hi Htq Hold Hf Hpu Hpa Hpp Hva Hvl.
  pose proof Hinv as [Hpmm Htab]. destruct (kernel_inv_ram _ _ _ _ Hinv) as [Hr Hs].
  pose proof (va_path_take va d Hd) as Hq. pose proof (va_path_index _ _ _ Hi) as Hidx.
  assert (length (take d (va_path va)) = d) as Hlen by (rewrite length_take; cbn; lia).
  destruct (table_access _ _ _ _ _ _ i Hinv Hq Hidx Htq) as (Hpt & Hnt & _ & Hwt).
  set (r' := store64 (k_ram k) (t + 8 * i) (Z.lor pa flags)).
  assert (rewrites_entry (k_ram k) r' root (take d (va_path va)) i t) as Hw.
  { apply (rewrites_store info _ _ _ F _ _ _ _ []); try done.
    intros ? ? _ _. apply not_elem_of_nil. }
  assert (load64 r' (t + 8 * i) = Z.lor pa flags) as Hnew.
  { unfold r'. rewrite load64_store64_same. apply wrap64_id, pte_u64; [done|].
    destruct Hf as [? _ _ _]. unfold KERNEL_PAGE_SIZE. lia. }
  assert (tables_ok info r' root F) as Htab'.
  { apply (rewritten_leaf_tables info (k_ram k) r' root F _ i t Htab Hw).
    - rewrite Hnew. by apply flags_not_table.
    - by rewrite Hlen. }
  exists (set_k_ram r' k). split_and!.
  - by rewrite word_write_at.
  - apply (write_entry_step info k root F (take d (va_path va)) t i); [done..|].
    intros t' (q' & Hq' & Ht'). exists q'. split; [done|].
    destruct (decide (take d (va_path va) ++ [i] `prefix_of` q')) as [[l ->]|Hn].
    + exfalso. rewrite <-app_assoc, table_at_app in Ht'. fold r' in Ht'.
      rewrite (rewritten_base _ _ _ _ _ _ Hw) in Ht'. cbn in Ht'. unfold next_table in Ht'.
      by rewrite Hnew, flags_not_table in Ht'.
    + by rewrite <-(rewritten_table_at _ _ _ _ _ _ Hw) by done.
  - intros user va' access Hva'. cbn.
    rewrite (leaf_entry_translation info (k_ram k) r' root F F (take d (va_path va)) i t pa flags shift)
      by (done || by rewrite Hlen). rewrite Hlen.
    destruct (Z.le_gt_cases MMU_VIRTUAL_ADDRESS_LIMIT va') as [Hhigh|Hlow].
    + assert (va + 2 ^ shift <= MMU_VIRTUAL_ADDRESS_LIMIT) as Hfit.
      { clear -Hshift Hva Hvl. unfold MMU_VIRTUAL_ADDRESS_LIMIT in *.
        destruct d as [|[|[|d]]]; cbn in Hshift; injection Hshift as <- || done;
          unfold MMU_GIGA_PAGE_SHIFT, MMU_LARGE_PAGE_SHIFT, MMU_PAGE_SHIFT in *; zlia. }
      rewrite !decide_False by lia. done.
    + pose proof (leaf_region va va' d shift Hshift Hva Hvl ltac:(lia)) as Hreg.
      apply decide_ext. rewrite <-Hi. rewrite <-Hreg. tauto.
Qed.

Lemma leaf_arguments_ok va pa flags shift :
  0 <= shift -> is_u64 flags ->
  leaf_arguments_bad va pa flags (Z.shiftl 1 shift - 1) = false ->
  va mod 2 ^ shift = 0 /\ pa mod 2 ^ shift = 0 /\ flags_ok flags.
Proof.
  intros Hs Hu. unfold leaf_arguments_bad. rewrite Z.shiftl_1_l, !land_low_mask by done.
  rewrite !orb_false_iff, !negb_false_iff, !Z.eqb_eq, !Z.eqb_neq.
  intros (((((Hva & Hpa) & Hv) & Hp) & Hres) & Hw). split_and!; [done..|].
  rewrite land_not64 in Hres by done.
  change (Z.lor (Z.lor KERNEL_PTE_VALID KERNEL_PTE_PERMISSION_MASK) KERNEL_PTE_USER) with (Z.ones 5) in Hres.
  rewrite Z.ldiff_ones_r in Hres by lia. rewrite Z.shiftl_eq_0_iff in Hres by lia.
  rewrite Z.shiftr_div_pow2 in Hres by lia. split.
  - unfold is_u64 in Hu. zlia.
  - unfold has_bits. by rewrite (proj2 (Z.eqb_neq _ _)).
  - done.
  - intros Hwr. change MMU_PTE_WRITE with KERNEL_PTE_WRITE in Hwr. rewrite Hwr in Hw. cbn in Hw.
    change MMU_PTE_READ with KERNEL_PTE_READ. unfold has_bits. by rewrite Hw.
Qed.

(** The result of [kernel_map_leaf], for a leaf below the top of the virtual
    address space. *)
Definition map_leaf_result (info : CvmBootInfo) (k : Kernel) (root : Z) (F : list Z)
    (va pa flags shift : Z) (result : option unit * Kernel) : Prop :=
  exists F', kernel_step info root k F result.2 F' /\
    match result.1 with
    | Some _ => flags_ok flags /\ va mod 2 ^ shift = 0 /\ pa mod 2 ^ shift = 0 /\
        leaf_mapped (k_ram k) (k_ram result.2) root va pa flags shift
    | None => same_translation (k_ram k) (k_ram result.2) root
    end.

Lemma map_leaf_result_after info k root F k1 F1 va pa flags shift result :
  kernel_step info root k F k1 F1 -> same_translation (k_ram k) (k_ram k1) root ->
  map_leaf_result info k1 root F1 va pa flags shift result ->
  map_leaf_result info k root F va pa flags shift result.
Proof.
  intros Hstep Hsame (F' & Hstep' & H). exists F'. split; [by eapply kernel_step_trans|].
  destruct result.1; [|by eapply same_translation_trans]. destruct H as (Hf & Hva & Hpa & Hm). split_and!; [done..|].
  intros user va' access Hva'. rewrite Hm by done. rewrite Hsame. unfold leaf_result.
  unfold physical_range_valid, ram_contains. by rewrite (kstep_size _ _ _ _ _ _ Hstep).
Qed.

Lemma map_leaf_result_fail info k root F va pa flags shift :
  kernel_inv info k root F -> map_leaf_result info k root F va pa flags shift (None, k).
Proof. intros H. exists F. split; [by apply kernel_step_refl|done]. Qed.

(** The last part of every branch: the entry is free, or a page entry. *)
Lemma finish_leaf info k root F va d i t pa flags shift :
  kernel_inv info k root F -> (d <= 2)%nat -> mmu_shifts !! d = Some shift ->
  va_path va !! d = Some i -> table_at (k_ram k) root (take d (va_path va)) = Some t ->
  flags_ok flags -> is_u64 pa -> pa mod 2 ^ shift = 0 -> va mod 2 ^ shift = 0 ->
  0 <= va < MMU_VIRTUAL_ADDRESS_LIMIT ->
  let level := wrap64 (direct_map_base (kernel_virtual_handoff k) + t) in
  ((d <= 1)%nat -> map_leaf_result info k root F va pa flags shift
    ((entry ← word_read level i;
      if has_bits entry KERNEL_PTE_VALID then exec_fail else word_write level i (Z.lor pa flags)) k)) /\
  (d = 2%nat -> map_leaf_result info k root F va pa flags shift (word_write level i (Z.lor pa flags) k)).
Proof.
  intros Hinv Hd Hshift Hi Htq Hf Hpu Hpa Hva Hvl level.
  pose proof (va_path_take va d Hd) as Hq. pose proof (va_path_index _ _ _ Hi) as Hidx.
  assert (12 <= shift < 64) as Hsr by (apply mmu_shifts_elem; by eapply list_elem_of_lookup_2).
  assert (page_aligned pa) as Hpp.
  { unfold page_aligned. change KERNEL_PAGE_SIZE with (2 ^ 12). apply Z.mod_divide; [lia|].
    apply Z.divide_trans with (2 ^ shift); [|by apply Z.mod_divide; [lia|]].
    exists (2 ^ (shift - 12)). rewrite <-Z.pow_add_r by lia. f_equal. lia. }
  split.
  - intros Hd1. erewrite exec_bind_some by (by eapply word_read_table).
    destruct (has_bits _ KERNEL_PTE_VALID) eqn:Hv; [by apply map_leaf_result_fail|].
    destruct (write_leaf_spec info k root F va d i t pa flags shift) as (k' & Hrun & Hstep & Hm); try done.
    + intros _. unfold table_entry_valid. by rewrite Hv.
    + unfold level. rewrite Hrun. by exists F.
  - intros ->.
    destruct (write_leaf_spec info k root F va 2 i t pa flags shift) as (k' & Hrun & Hstep & Hm); try done.
    + lia.
    + unfold level. rewrite Hrun. by exists F.
Qed.

(** Going down one level. *)
Lemma descend info k root F va d i t pa flags shift (rest : Z -> Exec Kernel unit) :
  kernel_inv info k root F -> (d <= 1)%nat -> va_path va !! d = Some i ->
  table_at (k_ram k) root (take d (va_path va)) = Some t ->
  (forall k1 F1 t1, kernel_inv info k1 root F1 ->
     kernel_virtual_handoff k1 = kernel_virtual_handoff k ->
     table_at (k_ram k1) root (take (S d) (va_path va)) = Some t1 ->
     map_leaf_result info k1 root F1 va pa flags shift
       (rest (wrap64 (direct_map_base (kernel_virtual_handoff k1) + t1)) k1)) ->
  let level := wrap64 (direct_map_base (kernel_virtual_handoff k) + t) in
  map_leaf_result info k root F va pa flags shift
    ((allocate_next_table level i;;
      entry ← word_read level i;
      next ← phys_pointer (Z.land entry KERNEL_PTE_ADDRESS_MASK);
      rest next) k).
Proof.
  intros Hinv Hd Hi Htq Hrest level.
  pose proof (va_path_take va d ltac:(lia)) as Hq. pose proof (va_path_index _ _ _ Hi) as Hidx.
  assert (length (take d (va_path va)) <= 1)%nat as Hlen by (rewrite length_take; cbn; lia).
  pose proof (allocate_next_table_spec info k root F _ t i Hinv Hq Hlen Hidx Htq) as Ha.
  fold level in Ha. destruct (allocate_next_table level i k) as [[[]|] k1] eqn:Ea.
  - destruct Ha as (F1 & Hstep & Hsame & Htq1 & Hat). specialize (Hat eq_refl).
    pose proof (kstep_inv _ _ _ _ _ _ Hstep) as Hinv1.
    assert (kernel_virtual_handoff k1 = kernel_virtual_handoff k) as Hh by apply Hstep.
    eapply map_leaf_result_after; [exact Hstep|exact Hsame|].
    erewrite exec_bind_some by exact Ea.
    unfold level. rewrite <-Hh. erewrite exec_bind_some by (by eapply word_read_table).
    set (t1 := pte_address _) in Hat. rewrite <-(take_S_r _ _ _ Hi) in Hat.
    change (Z.land _ KERNEL_PTE_ADDRESS_MASK) with t1.
    destruct (table_access info k1 root F1 (take (S d) (va_path va)) t1 0) as (_ & _ & Hdir & _);
      [done|apply va_path_take; lia|done|done|].
    erewrite exec_bind_some by (by apply phys_pointer_some).
    by apply Hrest.
  - destruct Ha as (F1 & Hstep & Hsame & _). erewrite exec_bind_none by exact Ea. by exists F1.
Qed.

Lemma map_leaf_spec info k root F va pa flags shift :
  kernel_inv info k root F -> shift ∈ mmu_shifts -> is_u64 flags -> is_u64 pa ->
  0 <= va < MMU_VIRTUAL_ADDRESS_LIMIT ->
  map_leaf_result info k root F va pa flags shift (kernel_map_leaf root va pa flags shift k).
Proof.
  intros Hinv Hshift Hfu Hpu Hvl. pose proof (mmu_shifts_elem _ Hshift) as Hsr.
  unfold kernel_map_leaf. destruct (leaf_arguments_bad _ _ _ _) eqn:Hbad;
    [by apply map_leaf_result_fail|].
  destruct (leaf_arguments_ok va pa flags shift ltac:(lia) Hfu Hbad) as (Hva & Hpa & Hf).
  destruct (table_access info k root F [] root 0) as (_ & _ & Hdir & _);
    [done|split; [cbn; lia|constructor]|done|done|].
  erewrite exec_bind_some by (by apply phys_pointer_some).
  change (Z.land (Z.shiftr va 30) 0x1FF) with (va_index va 30).
  change (Z.land (Z.shiftr va 21) 0x1FF) with (va_index va 21).
  change (Z.land (Z.shiftr va 12) 0x1FF) with (va_index va 12).
  destruct (Z.eqb_spec shift KERNEL_GIGA_PAGE_SHIFT) as [->|Hg].
  { by apply (finish_leaf info k root F va 0 (va_index va 30) root); try done; lia. }
  apply (descend info k root F va 0 (va_index va 30) root); [done|lia|done|done|].
  intros k1 F1 t1 Hinv1 Hh1 Ht1. destruct (Z.eqb_spec shift KERNEL_LARGE_PAGE_SHIFT) as [->|Hl].
  { by apply (finish_leaf info k1 root F1 va 1 (va_index va 21) t1); try done; lia. }
  apply (descend info k1 root F1 va 1 (va_index va 21) t1); [done|lia|done|done|].
  intros k2 F2 t2 Hinv2 Hh2 Ht2.
  assert (shift = 12) as ->.
  { unfold mmu_shifts in Hshift. rewrite !elem_of_cons in Hshift.
    destruct Hshift as [->|[->|[->|[]%elem_of_nil]]]; done. }
  rewrite land_page_mask by done. change KERNEL_PAGE_SIZE with (2 ^ 12). rewrite Hpa, Z.sub_0_r.
  by apply (finish_leaf info k2 root F2 va 2 (va_index va 12) t2); try done; lia.
Qed.

(** ** Ranges *)

(** What the hardware answers in a range mapped to [pa]. *)
Definition range_result (va pa flags : Z) (user : bool) (va' : Z) (access : MmuAccess) : Z + MmuResult :=
  if permission_granted flags user access then inl (pa + (va' - va))
  else inr MMU_RESULT_PERMISSION_DENIED.

Definition range_mapped (r r' : RAM) (root va pa size flags : Z) : Prop :=
  forall user va' access, 0 <= va' ->
    mmu_translate r' root user va' access =
    if decide (va <= va' < va + size) then range_result va pa flags user va' access
    else mmu_translate r root user va' access.

(** The physical range does not straddle the end of memory. *)
Definition range_placed (r : RAM) (pa size : Z) : Prop := pa + size <= ram_size r \/ ram_size r <= pa.

Lemma leaf_result_range r pa flags shift user va va' access :
  ram_wf r -> 0 <= shift -> 0 <= pa -> va mod 2 ^ shift = 0 -> va <= va' < va + 2 ^ shift ->
  range_placed r pa (2 ^ shift) ->
  leaf_result r pa flags shift user va' access = range_result va pa flags user va' access.
Proof.
  intros Hr Hs Hpa Hva Hva' Hp. unfold leaf_result, range_result.
  destruct (permission_granted _ _ _); [|done]. cbn [negb].
  replace ((pa <? ram_size r) && negb (physical_range_valid r pa (2 ^ shift))) with false.
  - do 2 f_equal. pose proof (Z.div_mod va (2 ^ shift) ltac:(lia)) as Hd. symmetry.
    apply (Z.mod_unique va' (2 ^ shift) (va / 2 ^ shift)); [left; lia|lia].
  - symmetry. apply andb_false_iff. destruct Hp as [Hp|Hp].
    + right. apply negb_false_iff, ram_contains_true; [done|]. lia.
    + left. by apply Z.ltb_ge.
Qed.

Lemma choose_leaf_ok va pa remaining :
  page_aligned va -> page_aligned pa -> page_aligned remaining -> 0 < remaining ->
  let shift := choose_leaf va pa remaining in
  shift ∈ mmu_shifts /\ va mod 2 ^ shift = 0 /\ pa mod 2 ^ shift = 0 /\ 2 ^ shift <= remaining.
Proof.
  intros Hva Hpa Hrem Hpos shift. unfold shift, choose_leaf, mmu_shifts.
  assert (forall s, 0 <= s -> Z.land (Z.lor va pa) (2 ^ s - 1) = 0 -> va mod 2 ^ s = 0 /\ pa mod 2 ^ s = 0) as Hb.
  { intros s Hs. rewrite Z.land_lor_distr_l, Z.lor_eq_0_iff, !land_low_mask by done. done. }
  destruct ((_ =? 0) && _) eqn:H1.
  { apply andb_prop in H1 as [H1%Z.eqb_eq H2%Z.leb_le]. destruct (Hb 30 ltac:(lia) H1).
    split_and!; [by left|done|done|exact H2]. }
  clear H1. destruct ((_ =? 0) && _) eqn:H1.
  { apply andb_prop in H1 as [H1%Z.eqb_eq H2%Z.leb_le]. destruct (Hb 21 ltac:(lia) H1).
    split_and!; [by right; left|done|done|exact H2]. }
  split_and!; [by right; right; left|done|done|].
  unfold page_aligned, KERNEL_PAGE_SIZE, KERNEL_PAGE_SHIFT in *. zlia.
Qed.

Section range.
Context (info : CvmBootInfo) (root vp pp size flags : Z).
Context (Hvp : page_aligned vp) (Hpp : page_aligned pp) (Hsize : page_aligned size).
Context (Hv0 : 0 <= vp) (Hp0 : 0 <= pp) (Hvl : vp + size <= MMU_VIRTUAL_ADDRESS_LIMIT)
  (Hpu : pp + size <= UINT64_MAX + 1) (Hfu : is_u64 flags).

Lemma map_range_loop_spec fuel k F offset :
  kernel_inv info k root F -> page_aligned offset -> 0 <= offset <= size ->
  range_placed (k_ram k) pp size ->
  (size - offset) / KERNEL_PAGE_SIZE <= Z.of_nat fuel ->
  exists res k' F' done_, map_range_loop fuel root vp pp size flags offset k = (res, k') /\
    kernel_step info root k F k' F' /\ offset <= done_ <= size /\ (res = Some tt -> done_ = size) /\
    range_mapped (k_ram k) (k_ram k') root (vp + offset) (pp + offset) (done_ - offset) flags.
Proof.
  revert k F offset. induction fuel as [|fuel IH]; intros k F offset Hinv Ho Hor Hplaced Hfuel.
  { assert (offset = size) as ->.
    { unfold page_aligned, KERNEL_PAGE_SIZE in *. cbn in Hfuel. zlia. }
    exists (Some tt), k, F, size. cbn [map_range_loop]. rewrite Z.ltb_irrefl. cbn [negb].
    split_and!; [done|by apply kernel_step_refl|lia|lia|done|].
    intros user va' access _. rewrite decide_False by lia. done. }
  cbn [map_range_loop]. destruct (Z.ltb_spec offset size) as [Hlt|Hge]; cbn [negb].
  2:{ exists (Some tt), k, F, size. split_and!; [done|by apply kernel_step_refl|lia|lia|done|].
      intros user va' access _. rewrite decide_False by lia. done. }
  assert (page_aligned (vp + offset) /\ page_aligned (pp + offset) /\ page_aligned (size - offset))
    as (Ha1 & Ha2 & Ha3) by (unfold page_aligned, KERNEL_PAGE_SIZE in *; zlia).
  destruct (choose_leaf_ok (vp + offset) (pp + offset) (size - offset) Ha1 Ha2 Ha3 ltac:(lia))
    as (Hs & Hsv & Hsp & Hsr).
  set (shift := choose_leaf _ _ _) in *. pose proof (mmu_shifts_elem _ Hs) as Hs12.
  assert (2 ^ 12 <= 2 ^ shift) as Hs4k by (apply Z.pow_le_mono_r; lia).
  destruct (map_leaf_spec info k root F (vp + offset) (pp + offset) flags shift Hinv Hs Hfu)
    as (F1 & Hstep & Hres).
  { unfold is_u64, UINT64_MAX in *. lia. }
  { unfold MMU_VIRTUAL_ADDRESS_LIMIT in *. lia. }
  destruct (kernel_map_leaf root (vp + offset) (pp + offset) flags shift k) as [[[]|] k1] eqn:Erun;
    cbn [fst snd] in *.
  2:{ exists None, k1, F1, offset. erewrite exec_bind_none by exact Erun.
      split_and!; [done|done|lia|lia|done|]. intros user va' access _.
      rewrite Hres, decide_False by lia. done. }
  destruct Hres as (_ & _ & _ & Hm). erewrite exec_bind_some by exact Erun.
  rewrite Z.shiftl_1_l.
  assert (ram_size (k_ram k1) = ram_size (k_ram k)) as Hsz by apply Hstep.
  destruct (IH k1 F1 (offset + 2 ^ shift)) as (res & k' & F' & o & Hrun & Hstep' & Hor' & Hdone & Hmap).
  - apply Hstep.
  - unfold page_aligned in Ho |- *. change KERNEL_PAGE_SIZE with (2 ^ 12) in *. rewrite Zplus_mod, Ho.
    replace shift with (12 + (shift - 12)) by lia. rewrite Z.pow_add_r, Z.mul_comm, Z.mod_mul by lia. done.
  - lia.
  - unfold range_placed in *. by rewrite Hsz.
  - change KERNEL_PAGE_SIZE with (2 ^ 12) in *. zlia.
  - exists res, k', F', o. split_and!; [done|by eapply kernel_step_trans|lia|lia|done|].
    intros user va' access Hva'. rewrite Hmap by done.
    destruct (decide (vp + (offset + 2 ^ shift) <= va' < _)) as [Hin|Hout].
    + rewrite decide_True by lia. unfold range_result. destruct (permission_granted _ _ _); [|done].
      f_equal. lia.
    + rewrite Hm by done. destruct (decide (vp + offset <= va' < vp + offset + 2 ^ shift)).
      * rewrite decide_True by lia. apply leaf_result_range; [|lia|lia|done|lia|].
        -- apply (kernel_inv_ram info k root F Hinv).
        -- unfold range_placed in *. lia.
      * rewrite decide_False by lia. done.
Qed.
End range.

(** The pages a request covers, as [map_range] rounds it. *)
Record Mapping := mkMapping { map_va : Z; map_pa : Z; map_size : Z; map_flags : Z }.

Definition rounded (vs ps size flags : Z) : Mapping :=
  let vp := vs - vs mod KERNEL_PAGE_SIZE in
  let top := vs mod KERNEL_PAGE_SIZE + size + KERNEL_PAGE_MASK in
  mkMapping vp (ps - ps mod KERNEL_PAGE_SIZE) (top - top mod KERNEL_PAGE_SIZE) flags.

Definition mapping_fits (r : RAM) (m : Mapping) : Prop :=
  map_va m + map_size m <= MMU_VIRTUAL_ADDRESS_LIMIT /\ range_placed r (map_pa m) (map_size m).

Definition mapped_as (r r' : RAM) (root : Z) (m : Mapping) : Prop :=
  range_mapped r r' root (map_va m) (map_pa m) (map_size m) (map_flags m).

(** [map_range] maps the whole rounded range, or a part from its start when it
    fails. *)
Lemma map_range_spec info k root F vs ps size flags :
  kernel_inv info k root F -> is_u64 vs -> is_u64 ps -> is_u64 size -> is_u64 flags ->
  let m := rounded vs ps size flags in
  mapping_fits (k_ram k) m ->
  exists res k' F' done_, map_range root vs ps size flags k = (res, k') /\
    kernel_step info root k F k' F' /\ 0 <= done_ <= map_size m /\
    (res = Some tt -> done_ = map_size m) /\
    mapped_as (k_ram k) (k_ram k') root (mkMapping (map_va m) (map_pa m) done_ flags).
Proof.
  intros Hinv Hvu Hpu Hsu Hfu m [Hlim Hplaced].
  assert (exists done_, 0 <= done_ <= map_size m /\ done_ = 0) as (z & Hz & Hz0).
  { exists 0. split; [|done]. unfold m, rounded, KERNEL_PAGE_MASK, KERNEL_PAGE_SIZE, is_u64 in *. cbn. zlia. }
  assert (exists res k' F' done_, (None, k) = (res, k') /\
    kernel_step info root k F k' F' /\ 0 <= done_ <= map_size m /\ (res = Some tt -> done_ = map_size m) /\
    mapped_as (k_ram k) (k_ram k') root (mkMapping (map_va m) (map_pa m) done_ flags)) as Hfail.
  { exists None, k, F, z. split; [done|]. split; [by apply kernel_step_refl|]. split; [done|]. split; [done|].
    intros user va' access _. cbn. rewrite decide_False by lia. done. }
  unfold map_range. destruct (_ || _ || _) eqn:Hguard; [exact Hfail|].
  rewrite !orb_false_iff, !Z.ltb_ge, negb_false_iff, Z.eqb_eq in Hguard.
  destruct Hguard as ((Hlow & Hvo) & Hpo). change KERNEL_PAGE_MASK with (2 ^ 12 - 1) in Hlow.
  rewrite !land_low_mask in Hlow by lia. change (2 ^ 12) with KERNEL_PAGE_SIZE in Hlow.
  rewrite (land_page_mask vs), (land_page_mask ps) by done.
  replace (vs - (vs - vs mod KERNEL_PAGE_SIZE)) with (vs mod KERNEL_PAGE_SIZE) by lia.
  destruct (Z.ltb_spec (UINT64_MAX - vs mod KERNEL_PAGE_SIZE - KERNEL_PAGE_MASK) size) as [|Hso];
    [exact Hfail|].
  rewrite land_page_mask.
  2:{ unfold is_u64, UINT64_MAX, KERNEL_PAGE_MASK, KERNEL_PAGE_SIZE in *. zlia. }
  replace (size + vs mod KERNEL_PAGE_SIZE + KERNEL_PAGE_MASK)
    with (vs mod KERNEL_PAGE_SIZE + size + KERNEL_PAGE_MASK) by lia.
  destruct (map_range_loop_spec info root (map_va m) (map_pa m) (map_size m) flags)
    with (fuel := Z.to_nat (map_size m / KERNEL_PAGE_SIZE)) (k := k) (F := F) (offset := 0)
    as (res & k' & F' & o & Hrun & Hstep & Ho & Hdone & Hmap); try done.
  1-3: unfold m, rounded, page_aligned, KERNEL_PAGE_SIZE in *; cbn; zlia.
  1-3: unfold m, rounded, page_aligned, KERNEL_PAGE_MASK, KERNEL_PAGE_SIZE, is_u64, UINT64_MAX in *; cbn; zlia.
  - lia.
  - rewrite Z.sub_0_r, Z2Nat.id; [lia|]. unfold KERNEL_PAGE_SIZE in *. zlia.
  - exists res, k', F', o. split; [exact Hrun|]. split; [done|]. split; [lia|]. split; [done|].
    by rewrite !Z.add_0_r, Z.sub_0_r in Hmap.
Qed.

(** ** The kernel's address space *)

(** The translation a sequence of mappings describes, latest first. *)
Fixpoint layout_translate (ms : list Mapping) (user : bool) (va : Z) (access : MmuAccess) : Z + MmuResult :=
  match ms with
  | [] => inr (if MMU_VIRTUAL_ADDRESS_LIMIT <=? va then MMU_RESULT_INVALID_VIRTUAL_ADDRESS
               else MMU_RESULT_NOT_PRESENT)
  | m :: ms =>
      if decide (map_va m <= va < map_va m + map_size m)
      then range_result (map_va m) (map_pa m) (map_flags m) user va access
      else layout_translate ms user va access
  end.

Definition has_layout (r : RAM) (root : Z) (ms : list Mapping) : Prop :=
  forall user va access, 0 <= va -> mmu_translate r root user va access = layout_translate ms user va access.

Lemma layout_extend r r' root ms m :
  has_layout r root ms -> mapped_as r r' root m -> has_layout r' root (m :: ms).
Proof. intros H Hm user va access Hva. cbn. rewrite (Hm user va access Hva). case_decide; auto. Qed.

(** A cleared page is an empty root table. *)
Lemma empty_root info r root F :
  ram_wf r -> boot_ram_size info <= ram_size r -> page_ok info root -> root ∉ F -> page_zero r root ->
  tables_ok info r root F /\ has_layout r root [].
Proof.
  intros Hr Hs Hok Hn Hz.
  assert (forall i, is_index i -> load64 r (root + 8 * i) = 0) as Hz8.
  { intros i Hi. destruct (table_entry_in_page root i Hi). by apply (page_zero_load _ root). }
  assert (forall q t, is_path q -> table_at r root q = Some t -> q = [] /\ t = root) as Honly.
  { intros [|i q] t Hq; cbn; [by intros [= <-]|]. unfold next_table. rewrite Hz8; [done|].
    destruct Hq as [_ Hq]. by apply Forall_cons_1 in Hq as [? _]. }
  assert (tables_ok info r root F) as Ht.
  { split.
    - intros q t Hq [-> ->]%Honly; done.
    - intros q q' t Hq Hq' [-> ->]%Honly [-> _]%Honly; done.
    - intros q t i Hq Hi _ [-> ->]%Honly; [|done]. by rewrite Hz8. }
  split; [done|]. intros user va access Hva. cbn.
  destruct (Z.leb_spec MMU_VIRTUAL_ADDRESS_LIMIT va) as [Hh|Hl]; [by apply translate_high|].
  destruct (walk_from_entry info r root F [] (va_index va 30) root user va access)
    as (shift & _ & _ & Hread & ->); try done.
  { split; [cbn; lia|constructor]. }
  cbn [mmu_walk length]. rewrite Hread, Hz8; [done|]. by apply va_index_ok.
Qed.

(** Writes outside the tables do not matter to them. *)
Lemma untouched_tables info r r' root F F' G :
  ram_wf r -> boot_ram_size info <= ram_size r -> tables_ok info r root F ->
  changes_only G r r' -> Forall page_aligned G ->
  (forall t, is_table r root t -> (t ∉ G) /\ t ∉ F') ->
  tables_ok info r' root F' /\ same_translation r r' root /\
  (forall t, is_table r' root t -> is_table r root t).
Proof.
  intros Hr Hs Ht Hch HG Hn.
  assert (forall q t i, is_path q -> is_index i -> table_at r root q = Some t ->
    load64 r' (t + 8 * i) = load64 r (t + 8 * i)) as Hload.
  { intros q t i Hq Hi Htq. destruct (table_entry_in_page t i Hi).
    apply (changes_only_other_page G r r' t); [done|done| | |done|done].
    - apply (tables_page _ _ _ _ Ht q t Hq Htq).
    - apply Hn. by exists q. }
  assert (forall q, is_path q -> table_at r' root q = table_at r root q) as Hsame.
  { induction q as [|j q IH] using rev_ind; [done|]. intros (Hq & Hj & _)%is_path_snoc.
    rewrite !table_at_snoc, IH by done. destruct (table_at r root q) as [t|] eqn:E; [|done].
    cbn. unfold next_table. by rewrite (Hload q t j). }
  split_and!.
  - split.
    + intros q t Hq. rewrite Hsame by done. intros Htq. split; [by apply (tables_page _ _ _ _ Ht q)|].
      apply Hn. by exists q.
    + intros q q' t Hq Hq'. rewrite !Hsame by done. by apply (tables_distinct _ _ _ _ Ht).
    + intros q t i Hq Hi Hl. rewrite Hsame by done. intros Htq. rewrite (Hload q t i) by done.
      by apply (tables_reserved _ _ _ _ Ht q).
  - intros user va access. unfold mmu_translate. destruct (_ <=? va); [done|].
    unfold mmu_root_valid at 1, physical_range_valid, ram_contains. rewrite (proj1 Hch).
    fold (ram_contains r root MMU_PAGE_SIZE). fold (physical_range_valid r root MMU_PAGE_SIZE).
    fold (mmu_root_valid r root). destruct (negb _); [done|].
    apply (walk_agrees info r root F Hr Hs Ht r' user va access 0 root); [by apply Hch|apply Hch|lia|done|].
    intros d t i Hd Htd Hi. apply (Hload (take d (va_path va))); [apply va_path_take; lia| |done].
    by eapply va_path_index.
  - intros t (q & Hq & Htq). exists q. by rewrite Hsame in Htq.
Qed.

(** The mappings of [kernel_bootstrap_mmu], in the order it makes them. *)
Definition boot_requests (info : CvmBootInfo) (s : KernelSymbols) (k : Kernel) : list (Z * Z * Z * Z) :=
  let symbol start end_ flags := (start, kernel_symbol_physical_address k info start, end_ - start, flags) in
  [(KERNEL_DIRECT_MAP_BASE, 0, Z.land (boot_ram_size info) KERNEL_PTE_ADDRESS_MASK, pte_rw);
   symbol (kernel_text_start s) (kernel_text_end s) pte_rx;
   symbol (kernel_rodata_start s) (kernel_rodata_end s) pte_r;
   symbol (kernel_data_start s) (kernel_data_end s) pte_rw;
   symbol (kernel_bss_start s) (kernel_bss_end s) pte_rw;
   (boot_info_address info, boot_info_address info, total_size info, pte_r);
   (KERNEL_EXCEPTION_STACK_TOP - KERNEL_PAGE_SIZE, KERNEL_EXCEPTION_STACK_TOP - KERNEL_PAGE_SIZE,
    KERNEL_PAGE_SIZE, pte_rw);
   (KERNEL_UART_ALIAS, uart_base info, KERNEL_PAGE_SIZE, pte_rw)].

Definition request_mapping (q : Z * Z * Z * Z) : Mapping :=
  let '(vs, ps, size, flags) := q in rounded vs ps size flags.

(** The addresses are 64-bit and the rounded range lies below the top of the
    virtual address space and on one side of the end of memory.  ([end - start]
    is only mapped when it is not negative.) *)
Definition request_ok (r : RAM) (q : Z * Z * Z * Z) : Prop :=
  let '(vs, ps, size, flags) := q in
  is_u64 vs /\ is_u64 ps /\ is_u64 size /\ is_u64 flags /\ mapping_fits r (request_mapping q).

Lemma request_ok_size r r' q : ram_size r' = ram_size r -> request_ok r q -> request_ok r' q.
Proof.
  destruct q as [[[vs ps] size] flags]. unfold request_ok, mapping_fits, range_placed. by intros ->.
Qed.

(** A state of the construction: [ms] have been mapped so far. *)
Record building (info : CvmBootInfo) (root : Z) (k0 : Kernel) (F0 : list Z) (ms : list Mapping)
    (k : Kernel) (F : list Z) : Prop := {
  building_step : kernel_step info root k0 F0 k F;
  building_layout : has_layout (k_ram k) root ms;
}.

Lemma build_step info root k0 F0 ms k F (m : Exec Kernel unit) A (rest : Exec Kernel A) a k' q :
  building info root k0 F0 ms k F ->
  (forall k1, m k = (Some tt, k1) -> exists F1, kernel_step info root k F k1 F1 /\
     mapped_as (k_ram k) (k_ram k1) root (request_mapping q)) ->
  (m;; rest) k = (Some a, k') ->
  exists k1 F1, building info root k0 F0 (request_mapping q :: ms) k1 F1 /\ rest k1 = (Some a, k').
Proof.
  intros [Hstep Hlay] Hm Hrun. unfold exec_bind in Hrun.
  destruct (m k) as [[[]|] k1] eqn:E; [|done]. destruct (Hm k1 eq_refl) as (F1 & Hs1 & Hmap).
  exists k1, F1. split; [|done]. split; [by eapply kernel_step_trans|by eapply layout_extend].
Qed.

Lemma build_range info root k F vs ps size flags k1 :
  kernel_inv info k root F -> request_ok (k_ram k) (vs, ps, size, flags) ->
  map_range root vs ps size flags k = (Some tt, k1) ->
  exists F1, kernel_step info root k F k1 F1 /\
    mapped_as (k_ram k) (k_ram k1) root (request_mapping (vs, ps, size, flags)).
Proof.
  intros Hinv (Hv & Hp & Hs & Hf & Hfit) Hrun.
  destruct (map_range_spec info k root F vs ps size flags Hinv Hv Hp Hs Hf Hfit)
    as (res & k' & F' & o & Hrun' & Hstep & _ & Hdone & Hmap).
  rewrite Hrun in Hrun'. injection Hrun' as <- <-. exists F'. split; [done|].
  by rewrite (Hdone eq_refl) in Hmap.
Qed.

Lemma build_kernel_range info root k F start end_ flags k1 :
  kernel_inv info k root F ->
  request_ok (k_ram k) (start, kernel_symbol_physical_address k info start, end_ - start, flags) ->
  map_kernel_range info root start end_ flags k = (Some tt, k1) ->
  exists F1, kernel_step info root k F k1 F1 /\
    mapped_as (k_ram k) (k_ram k1) root
      (request_mapping (start, kernel_symbol_physical_address k info start, end_ - start, flags)).
Proof.
  intros Hinv Hok. unfold map_kernel_range. erewrite exec_bind_some by reflexivity.
  destruct (_ || _); [done|]. by apply build_range.
Qed.

Lemma build_page info root k F va pa flags k1 :
  kernel_inv info k root F -> request_ok (k_ram k) (va, pa, KERNEL_PAGE_SIZE, flags) -> page_aligned va ->
  kernel_map_page root va pa flags k = (Some tt, k1) ->
  exists F1, kernel_step info root k F k1 F1 /\
    mapped_as (k_ram k) (k_ram k1) root (request_mapping (va, pa, KERNEL_PAGE_SIZE, flags)).
Proof.
  intros Hinv (Hv & Hp & _ & Hf & Hlim & Hplaced) Ha Hrun.
  cbn [request_mapping rounded map_va map_pa map_size] in Hlim, Hplaced.
  assert (forall x, 0 <= x < KERNEL_PAGE_SIZE -> x = 0 ->
    x + KERNEL_PAGE_SIZE + KERNEL_PAGE_MASK - (x + KERNEL_PAGE_SIZE + KERNEL_PAGE_MASK) mod KERNEL_PAGE_SIZE
      = KERNEL_PAGE_SIZE) as Htop by (intros x Hx ->; by vm_compute).
  unfold page_aligned in Ha. rewrite Ha, Htop in Hlim, Hplaced by (done || (unfold KERNEL_PAGE_SIZE; lia)).
  destruct (map_leaf_spec info k root F va pa flags 12 Hinv) as (F1 & Hstep & Hres); try done.
  { unfold mmu_shifts. by right; right; left. }
  { unfold is_u64, KERNEL_PAGE_SIZE, MMU_VIRTUAL_ADDRESS_LIMIT in *. lia. }
  unfold kernel_map_page in Hrun. change KERNEL_PAGE_SHIFT with 12 in Hrun. rewrite Hrun in *.
  cbn [fst snd] in *. destruct Hres as (_ & Hva & Hpa & Hm). exists F1. split; [done|].
  change (2 ^ 12) with KERNEL_PAGE_SIZE in *.
  intros user va' access Hva'. cbn [request_mapping rounded map_va map_pa map_size map_flags].
  rewrite Hm, Ha, Hpa, Htop, !Z.sub_0_r by (done || (unfold KERNEL_PAGE_SIZE; lia)).
  rewrite Hpa, Z.sub_0_r in Hplaced. change (2 ^ 12) with KERNEL_PAGE_SIZE.
  case_decide; [|done]. apply leaf_result_range; [by eapply kernel_inv_ram|lia|unfold is_u64 in *; lia|done|done|done].
Qed.

(** What the boot loader and the linker provide to [kernel_bootstrap_mmu]: the
    requested ranges fit, and the boot page tables ([n] pages) are memory the
    allocator does not know yet. *)
Record boot_layout_ok (info : CvmBootInfo) (s : KernelSymbols) (k : Kernel) (F : list Z) (n : Z) : Prop := {
  layout_requests : Forall (request_ok (k_ram k)) (boot_requests info s k);
  layout_boot_size : 0 < n /\ page_table_physical_size (kernel_virtual_handoff k) = n * KERNEL_PAGE_SIZE;
  layout_boot_base : page_aligned (page_table_physical_base (kernel_virtual_handoff k));
  layout_boot_pages : Forall (fun p => page_ok info p /\ p ∉ F)
    (page_block (page_table_physical_base (kernel_virtual_handoff k)) n);
}.

(** The end of the bootstrap: the boot page tables become free pages. *)
Lemma release_boot_tables info root k0 F0 ms k F n :
  building info root k0 F0 ms k F -> 0 < n ->
  (forall t, is_table (k_ram k0) root t -> t ∈ root :: F0) -> root ∉ F0 ->
  let base := page_table_physical_base (kernel_virtual_handoff k0) in
  page_table_physical_size (kernel_virtual_handoff k0) = n * KERNEL_PAGE_SIZE -> page_aligned base ->
  Forall (fun p => page_ok info p /\ p ∉ root :: F0) (page_block base n) ->
  exists k', kernel_pmm_release_range base (n * KERNEL_PAGE_SIZE) k = (Some tt, k') /\
    kernel_inv info k' root (page_block base n ++ F) /\ has_layout (k_ram k') root ms /\ pmm_same k k'.
Proof.
  intros [Hstep Hlay] Hn Htab Hroot base Hsize Hbase Hblock.
  pose proof (kstep_inv _ _ _ _ _ _ Hstep) as Hinv.
  destruct (kernel_inv_ram _ _ _ _ Hinv) as [Hr Hs].
  assert (forall p, p ∈ F -> p ∈ F0) as Hsub.
  { intros p Hp. eapply elem_of_submseteq; [exact Hp|apply Hstep]. }
  rewrite list.Forall_forall in Hblock.
  assert (Forall (page_ok info) (page_block base n)) as Hok.
  { apply list.Forall_forall. intros p Hp. by apply Hblock. }
  destruct (release_range_spec info k F base n) as (k' & Hrun & Hinv' & Hch & Hsame); [apply Hinv|done..| |].
  { intros p Hp HpF. apply (Hblock p Hp). right. by apply Hsub. }
  assert (forall t, is_table (k_ram k) root t -> (t ∉ page_block base n) /\ t ∉ page_block base n ++ F) as Hsep.
  { intros t Ht. assert (t ∉ page_block base n) as Hb.
    { intros Hb. apply (Hblock t Hb). destruct (kstep_tables _ _ _ _ _ _ Hstep t Ht); [by apply Htab|by right]. }
    split; [done|]. intros [?|HF]%elem_of_app; [done|]. destruct Ht as (q & Hq & Htq).
    by apply (tables_page _ _ _ _ (kernel_tables _ _ _ _ Hinv) q t Hq Htq). }
  destruct (untouched_tables info (k_ram k) (k_ram k') root F (page_block base n ++ F) (page_block base n)) as (Ht' & Htr & _);
    [done|done|apply Hinv|done|by apply (page_ok_aligned info)|done|].
  exists k'. split_and!; [done|by split| |done].
  intros user va access Hva. rewrite Htr. by apply Hlay.
Qed.

Section bootstrap.
Context (info : CvmBootInfo) (s : KernelSymbols) (k : Kernel) (root : Z) (k2 : Kernel) (F1 : list Z).
Context (Hreq : Forall (request_ok (k_ram k)) (boot_requests info s k)).
Context (Hh : kernel_virtual_handoff k2 = kernel_virtual_handoff k).
Context (Hsz : ram_size (k_ram k2) = ram_size (k_ram k)).

Lemma building_ready ms k3 F3 :
  building info root k2 F1 ms k3 F3 ->
  kernel_inv info k3 root F3 /\ kernel_virtual_handoff k3 = kernel_virtual_handoff k /\
  forall q, q ∈ boot_requests info s k -> request_ok (k_ram k3) q.
Proof.
  intros [Hst _]. split; [apply Hst|].
  split; [by rewrite (same_handoff _ _ (kstep_same _ _ _ _ _ _ Hst))|].
  intros q Hq. eapply request_ok_size; [|by apply (proj1 (list.Forall_forall _ _) Hreq)].
  by rewrite (kstep_size _ _ _ _ _ _ Hst).
Qed.

Lemma boot_range ms k3 F3 A (rest : Exec Kernel A) a kz vs ps size flags :
  building info root k2 F1 ms k3 F3 -> (vs, ps, size, flags) ∈ boot_requests info s k ->
  (map_range root vs ps size flags;; rest) k3 = (Some a, kz) ->
  exists k4 F4, building info root k2 F1 (request_mapping (vs, ps, size, flags) :: ms) k4 F4 /\
    rest k4 = (Some a, kz).
Proof.
  intros B Hq E. destruct (building_ready _ _ _ B) as (Hi3 & _ & Hok3).
  eapply build_step; [exact B| |exact E]. intros k4. apply build_range; [done|by apply Hok3].
Qed.

Lemma boot_kernel ms k3 F3 A (rest : Exec Kernel A) a kz start end_ flags :
  let q := (start, kernel_symbol_physical_address k info start, end_ - start, flags) in
  building info root k2 F1 ms k3 F3 -> q ∈ boot_requests info s k ->
  (map_kernel_range info root start end_ flags;; rest) k3 = (Some a, kz) ->
  exists k4 F4, building info root k2 F1 (request_mapping q :: ms) k4 F4 /\ rest k4 = (Some a, kz).
Proof.
  intros q B Hq E. destruct (building_ready _ _ _ B) as (Hi3 & Hh3 & Hok3).
  assert (kernel_symbol_physical_address k info start = kernel_symbol_physical_address k3 info start) as Hsym.
  { unfold kernel_symbol_physical_address. by rewrite Hh3. }
  eapply build_step; [exact B| |exact E]. intros k4. unfold q in *. rewrite Hsym in *.
  apply build_kernel_range; [done|by apply Hok3].
Qed.

Lemma boot_uart ms k3 F3 A (rest : Exec Kernel A) a kz :
  let q := (KERNEL_UART_ALIAS, uart_base info, KERNEL_PAGE_SIZE, pte_rw) in
  building info root k2 F1 ms k3 F3 ->
  (kernel_map_page root KERNEL_UART_ALIAS (uart_base info) pte_rw;; rest) k3 = (Some a, kz) ->
  exists k4 F4, building info root k2 F1 (request_mapping q :: ms) k4 F4 /\ rest k4 = (Some a, kz).
Proof.
  intros q B E. destruct (building_ready _ _ _ B) as (Hi3 & _ & Hok3).
  eapply build_step; [exact B| |exact E]. intros k4.
  apply build_page; [done|apply Hok3; by do 7 right; left|by vm_compute].
Qed.

(** All the mappings of the bootstrap, from an empty root table. *)
Lemma boot_maps A (rest : Exec Kernel A) a kz :
  building info root k2 F1 [] k2 F1 ->
  (map_range root KERNEL_DIRECT_MAP_BASE 0 (Z.land (boot_ram_size info) KERNEL_PTE_ADDRESS_MASK) pte_rw;;
   map_kernel_range info root (kernel_text_start s) (kernel_text_end s) pte_rx;;
   map_kernel_range info root (kernel_rodata_start s) (kernel_rodata_end s) pte_r;;
   map_kernel_range info root (kernel_data_start s) (kernel_data_end s) pte_rw;;
   map_kernel_range info root (kernel_bss_start s) (kernel_bss_end s) pte_rw;;
   map_range root (boot_info_address info) (boot_info_address info) (total_size info) pte_r;;
   map_range root (KERNEL_EXCEPTION_STACK_TOP - KERNEL_PAGE_SIZE)
     (KERNEL_EXCEPTION_STACK_TOP - KERNEL_PAGE_SIZE) KERNEL_PAGE_SIZE pte_rw;;
   kernel_map_page root KERNEL_UART_ALIAS (uart_base info) pte_rw;;
   rest) k2 = (Some a, kz) ->
  exists k' F', building info root k2 F1 (reverse (request_mapping <$> boot_requests info s k)) k' F' /\
    rest k' = (Some a, kz).
Proof.
  intros B0 Hrun.
  edestruct boot_range as (k3 & F3 & B3 & Hrun3); [exact B0| |exact Hrun|]; [by left|].
  edestruct boot_kernel as (k4 & F4 & B4 & Hrun4); [exact B3| |exact Hrun3|]; [by do 1 right; left|].
  edestruct boot_kernel as (k5 & F5 & B5 & Hrun5); [exact B4| |exact Hrun4|]; [by do 2 right; left|].
  edestruct boot_kernel as (k6 & F6 & B6 & Hrun6); [exact B5| |exact Hrun5|]; [by do 3 right; left|].
  edestruct boot_kernel as (k7 & F7 & B7 & Hrun7); [exact B6| |exact Hrun6|]; [by do 4 right; left|].
  edestruct boot_range as (k8 & F8 & B8 & Hrun8); [exact B7| |exact Hrun7|]; [by do 5 right; left|].
  edestruct boot_range as (k9 & F9 & B9 & Hrun9); [exact B8| |exact Hrun8|]; [by do 6 right; left|].
  edestruct boot_uart as (k10 & F10 & B10 & Hrun10); [exact B9|exact Hrun9|].
  by exists k10, F10.
Qed.
End bootstrap.

Lemma bootstrap_spec info s switch k F n k' :
  pmm_inv info k F -> boot_layout_ok info s k F n ->
  kernel_bootstrap_mmu info s switch k = (Some tt, k') ->
  exists F', kernel_inv info k' (kernel_ptbr k') F' /\
    has_layout (k_ram k') (kernel_ptbr k') (reverse (request_mapping <$> boot_requests info s k)).
Proof.
  intros Hpmm [Hreq [Hn Hbs] Hbb Hbp] Hrun. unfold kernel_bootstrap_mmu in Hrun.
  pose proof (alloc_page_spec info k F Hpmm) as Halloc.
  unfold exec_bind at 1, exec_try at 1 in Hrun.
  destruct (kernel_pmm_alloc_page k) as [[root|] k1] eqn:Ea; [|done].
  destruct Halloc as (F1 & HF & Hinv1 & Hch & Hzero & Hsame).
  erewrite exec_bind_some in Hrun by reflexivity. erewrite exec_bind_some in Hrun by reflexivity.
  cbn [default] in Hrun. set (k2 := set_kernel_ptbr root k1) in *.
  assert (pmm_inv info k2 F1) as Hinv2 by by destruct Hinv1 as [[] [] ? ? ? ?].
  assert (page_ok info root) as Hrok by (eapply pmm_inv_page; [exact Hpmm|rewrite HF; by left]).
  assert (root ∉ F1) as HrF.
  { pose proof (inv_distinct _ _ _ Hpmm) as Hd. rewrite HF in Hd. by inversion Hd. }
  pose proof (inv_static _ _ _ Hinv1) as Hst1.
  destruct (empty_root info (k_ram k2) root F1) as [Htab Hlay0]; [apply Hst1|apply Hst1|done..|].
  assert (kernel_virtual_handoff k2 = kernel_virtual_handoff k) as Hh2 by apply Hsame.
  destruct (boot_maps info s k root k2 F1 Hreq Hh2 ltac:(apply Hch) _ _ _ _
    ltac:(split; [by apply kernel_step_refl|done]) Hrun) as (k3 & F3 & B3 & Hrun3).
  destruct (building_ready info s k root k2 F1 Hreq Hh2 ltac:(apply Hch) _ _ _ B3) as (_ & Hh3 & _).
  destruct (switch root) eqn:Hsw; [|done]. erewrite exec_bind_some in Hrun3 by reflexivity.
  erewrite exec_bind_some in Hrun3 by reflexivity. rewrite Hh3, Hbs in Hrun3.
  destruct (release_boot_tables info root k2 F1 _ k3 F3 n B3 Hn) as (kz & Hrel & Hinvz & Hlayz & Hsamez).
  - intros t (q & Hq & Htq). destruct q as [|i q]; [injection Htq as <-; by left|].
    exfalso. cbn in Htq. unfold next_table in Htq. destruct Hq as [_ Hq]. apply Forall_cons_1 in Hq as [Hi _].
    destruct (table_entry_in_page root i Hi). by rewrite (page_zero_load _ root) in Htq.
  - done.
  - by rewrite Hh2.
  - by rewrite Hh2.
  - rewrite Hh2. eapply Forall_impl; [|exact Hbp]. intros p [? Hp]. by rewrite HF in Hp.
  - rewrite Hh2 in Hrel, Hinvz. erewrite exec_bind_some in Hrun3 by (unfold exec_try; by rewrite Hrel).
    injection Hrun3 as <-.
    assert (kernel_ptbr kz = root) as ->.
    { rewrite (same_ptbr _ _ Hsamez), (same_ptbr _ _ (kstep_same _ _ _ _ _ _ (building_step _ _ _ _ _ _ _ B3))). done. }
    eexists. by split.
Qed.

(** ** A concrete bootstrap *)

Definition demo_symbols : KernelSymbols :=
  mkSymbols 0x40000000 0x40001000 0x40001000 0x40002000 0x40002000 0x40003000 0x40003000 0x40004000.

Lemma mapping_fits_dec r m :
  (map_va m + map_size m <=? MMU_VIRTUAL_ADDRESS_LIMIT) &&
  ((map_pa m + map_size m <=? ram_size r) || (ram_size r <=? map_pa m)) = true -> mapping_fits r m.
Proof.
  rewrite andb_true_iff, orb_true_iff, !Z.leb_le. done.
Qed.

Lemma demo_layout_ok :
  boot_layout_ok demo_info demo_symbols demo_pmm (map_pages demo_info 0) 1.
Proof.
  split.
  - repeat (constructor; [unfold request_ok; split_and!; try done; by apply mapping_fits_dec; vm_compute|]).
    constructor.
  - done.
  - done.
  - apply Forall_singleton. split; [by vm_compute|].
    apply (bool_decide_unpack _). by vm_compute.
Qed.

(** A machine whose tables have an empty root at 0x1000. *)
Definition demo_mapped : Kernel := (kernel_pmm_alloc_page demo_pmm).2.
Definition demo_free : list Z := drop 1 (map_pages demo_info 0).

Lemma demo_kernel_inv : kernel_inv demo_info demo_mapped 0x1000 demo_free.
Proof.
  unfold demo_mapped. pose proof (alloc_page_spec demo_info demo_pmm _ demo_pmm_inv) as H.
  rewrite (run_result (kernel_pmm_alloc_page demo_pmm) (Some 0x1000)) in H by by vm_compute.
  destruct H as (F' & HF & Hinv & _ & Hz & _).
  assert (F' ≡ₚ demo_free) as HF'.
  { apply (Permutation.Permutation_cons_inv (a := 0x1000)). rewrite <-HF. by vm_compute. }
  rewrite HF' in Hinv. split; [done|].
  apply empty_root; [apply Hinv|apply Hinv|by vm_compute| |done].
  apply (bool_decide_unpack _). by vm_compute.
Qed.

(** A page table built with [kernel_map_leaf] is the one the hardware
    walks.  When it succeeds, [mmu_translate] of the result answers for the
    addresses of the leaf as the requested block and flags say (permission,
    address), exactly as before for every other address; when it fails, no
    translation changes, although tables may have been allocated.  The tables
    stay a tree of pages that are not free, and nothing but tables and free pages
    is written. *)
Theorem kernel_map_leaf_correct info k root F va pa flags shift :
  kernel_inv info k root F -> shift ∈ mmu_shifts -> is_u64 flags -> is_u64 pa ->
  0 <= va < MMU_VIRTUAL_ADDRESS_LIMIT ->
  let result := kernel_map_leaf root va pa flags shift k in
  exists F', kernel_step info root k F result.2 F' /\
    match result.1 with
    | Some _ => forall user va' access, 0 <= va' ->
        mmu_translate (k_ram result.2) root user va' access =
        if decide (va <= va' < va + 2 ^ shift) then leaf_result (k_ram k) pa flags shift user va' access
        else mmu_translate (k_ram k) root user va' access
    | None => forall user va' access,
        mmu_translate (k_ram result.2) root user va' access = mmu_translate (k_ram k) root user va' access
    end.
Proof.
  intros Hinv Hs Hf Hp Hv result.
  destruct (map_leaf_spec info k root F va pa flags shift Hinv Hs Hf Hp Hv) as (F' & Hstep & Hres).
  exists F'. split; [done|]. fold result in Hres. destruct result.1; [by apply Hres|done].
Qed.

Lemma kernel_map_leaf_correct_witness :
  (kernel_map_leaf 0x1000 0x5000 0x4000 pte_rx 12 demo_mapped).1 = Some tt /\
  exists F', kernel_step demo_info 0x1000 demo_mapped demo_free
    (kernel_map_leaf 0x1000 0x5000 0x4000 pte_rx 12 demo_mapped).2 F'.
Proof.
  split; [by vm_compute|].
  destruct (kernel_map_leaf_correct demo_info demo_mapped 0x1000 demo_free 0x5000 0x4000 pte_rx 12
    demo_kernel_inv ltac:(right; right; left) ltac:(by vm_compute) ltac:(by vm_compute)
    ltac:(by vm_compute)) as (F' & Hstep & _).
  exists F'. exact Hstep.
Defined.

(** [map_range] maps the page-rounded range, with leaves of any size, to
    the rounded physical range: every address of it translates to the physical
    address at the same offset, with the permissions of the flags, and every
    other address as before.  When it fails, the same holds of an initial part of
    the range. *)
Theorem map_range_correct info k root F vs ps size flags :
  kernel_inv info k root F -> is_u64 vs -> is_u64 ps -> is_u64 size -> is_u64 flags ->
  let m := rounded vs ps size flags in
  mapping_fits (k_ram k) m ->
  let result := map_range root vs ps size flags k in
  exists F' done_, kernel_step info root k F result.2 F' /\ 0 <= done_ <= map_size m /\
    (result.1 = Some tt -> done_ = map_size m) /\
    forall user va access, 0 <= va ->
      mmu_translate (k_ram result.2) root user va access =
      if decide (map_va m <= va < map_va m + done_)
      then if permission_granted flags user access then inl (map_pa m + (va - map_va m))
           else inr MMU_RESULT_PERMISSION_DENIED
      else mmu_translate (k_ram k) root user va access.
Proof.
  intros Hinv Hv Hp Hs Hf m Hfit result.
  destruct (map_range_spec info k root F vs ps size flags Hinv Hv Hp Hs Hf Hfit)
    as (res & k' & F' & o & Hrun & Hstep & Ho & Hdone & Hmap).
  unfold result. rewrite Hrun. by exists F', o.
Qed.

Lemma map_range_correct_witness :
  (map_range 0x1000 0x5000 0x4000 0x2000 pte_rw demo_mapped).1 = Some tt /\
  exists F' done_, kernel_step demo_info 0x1000 demo_mapped demo_free
    (map_range 0x1000 0x5000 0x4000 0x2000 pte_rw demo_mapped).2 F' /\ 0 <= done_ <= 0x2000.
Proof.
  split; [by vm_compute|].
  destruct (map_range_correct demo_info demo_mapped 0x1000 demo_free 0x5000 0x4000 0x2000 pte_rw
    demo_kernel_inv ltac:(by vm_compute) ltac:(by vm_compute) ltac:(by vm_compute) ltac:(by vm_compute)
    ltac:(apply mapping_fits_dec; by vm_compute)) as (F' & o & Hstep & Ho & _).
  exists F', o. split; [exact Hstep|exact Ho].
Defined.

(** The flags the bootstrap uses. *)
Definition kernel_flags (flags : Z) : Prop := flags = pte_rw \/ flags = pte_rx \/ flags = pte_r.

Lemma layout_protected ms va :
  Forall (fun m => kernel_flags (map_flags m)) ms ->
  (forall access pa, layout_translate ms true va access <> inl pa) /\
  ~ (exists pa pa', layout_translate ms false va MMU_ACCESS_WRITE = inl pa /\
                    layout_translate ms false va MMU_ACCESS_EXECUTE = inl pa').
Proof.
  induction 1 as [|m ms Hm _ IH]; cbn; [split; [done|]; by intros (? & ? & ? & _)|].
  case_decide; [|done]. unfold range_result.
  destruct Hm as [-> |[-> | ->]]; (split; [by intros []|]; by intros (? & ? & ? & ?)).
Qed.

(** C10: after a successful [kernel_bootstrap_mmu] the hardware translates
    every address as the list of mappings says (the latest first), with 4 KiB,
    2 MiB and 1 GiB leaves alike; so no address is accessible in user mode and
    none is both writable and executable. *)
Theorem kernel_bootstrap_mmu_correct info s switch k F n k' :
  pmm_inv info k F -> boot_layout_ok info s k F n ->
  kernel_bootstrap_mmu info s switch k = (Some tt, k') ->
  let translate := mmu_translate (k_ram k') (kernel_ptbr k') in
  (forall user va access, 0 <= va ->
     translate user va access =
     layout_translate (reverse (request_mapping <$> boot_requests info s k)) user va access) /\
  (forall va access pa, 0 <= va -> translate true va access <> inl pa) /\
  (forall va pa pa', 0 <= va -> translate false va MMU_ACCESS_WRITE = inl pa ->
     translate false va MMU_ACCESS_EXECUTE <> inl pa').
Proof.
  intros Hpmm Hlay Hrun translate.
  destruct (bootstrap_spec info s switch k F n k' Hpmm Hlay Hrun) as (F' & _ & Hl).
  pose proof (fun va => layout_protected (reverse (request_mapping <$> boot_requests info s k)) va) as Hprot.
  assert (Forall (fun m => kernel_flags (map_flags m))
    (reverse (request_mapping <$> boot_requests info s k))) as Hflags.
  { apply Forall_reverse, Forall_fmap. repeat (constructor; [unfold kernel_flags; cbn; tauto|]). constructor. }
  split_and!; [done| |].
  - intros va access pa Hva. unfold translate. rewrite (Hl _ _ _ Hva). by apply Hprot.
  - intros va pa pa' Hva Hw He. unfold translate in *. rewrite (Hl _ _ _ Hva) in Hw. rewrite (Hl _ _ _ Hva) in He.
    apply (proj2 (Hprot va Hflags)). by exists pa, pa'.
Qed.

Lemma kernel_bootstrap_mmu_correct_witness :
  let k' := (kernel_bootstrap_mmu demo_info demo_symbols (fun _ => true) demo_pmm).2 in
  kernel_ptbr k' = 0x1000 /\
  forall va access pa, 0 <= va -> mmu_translate (k_ram k') (kernel_ptbr k') true va access <> inl pa.
Proof.
  split; [by vm_compute|].
  apply (kernel_bootstrap_mmu_correct demo_info demo_symbols (fun _ => true) demo_pmm
    (map_pages demo_info 0) 1 _ demo_pmm_inv demo_layout_ok).
  apply run_result. by vm_compute.
Defined.
