(* ===== verification/Heap.v ===== *)
(** The kernel heap: kernel/heap.c.

    A first-fit allocator over a window of virtual memory that grows page by
    page: every page is taken from the page allocator and entered in the kernel's
    page table.  [heap_mem] is the window as the kernel sees it, byte-addressed
    by virtual address; a page that was never written reads as zero, as a freshly
    mapped page does.  Headers ([KernelHeapBlock], six words) lie in the window,
    linked in both directions.  The spin lock makes each operation atomic. *)

From S2P Require Import Prelude Ram Mmu KernelMem Pmm KernelMmu.
From Stdlib Require Import ZArith Lia Bool.
From stdpp Require Import base list numbers gmap option.

#[local] Open Scope Z_scope.
#[local] Open Scope exec_scope.

Definition KERNEL_HEAP_ALIGNMENT : Z := 16.
Definition KERNEL_HEAP_GUARD_SIZE : Z := 0x200000.
Definition KERNEL_HEAP_MAX_SIZE : Z := 0x04000000.
Definition KERNEL_HEAP_MAGIC : Z := 0x434F4C424D56434B.
Definition KERNEL_HEAP_FREE : Z := 1.
Definition KERNEL_DEMAND_TEST_ADDRESS : Z := 0x0000007FFFFFE000.
Definition KERNEL_SIZE_MAX : Z := UINT64_MAX.

(** [sizeof(KernelHeapBlock)] and the offsets of its fields. *)
Definition HEADER_SIZE : Z := 48.
Definition magic_offset : Z := 0.
Definition size_offset : Z := 8.
Definition previous_offset : Z := 16.
Definition next_offset : Z := 24.
Definition flags_offset : Z := 32.
Definition reserved_offset : Z := 40.

Record Heap := mkHeap {
  h_kernel : Kernel;
  heap_mem : RAM;
  heap_base : Z;
  heap_limit : Z;
  heap_mapped_size : Z;
  heap_first : Z;
  heap_last : Z;
}.

Definition set_h_kernel (v : Kernel) (h : Heap) : Heap :=
  mkHeap v (heap_mem h) (heap_base h) (heap_limit h) (heap_mapped_size h) (heap_first h) (heap_last h).
Definition set_heap_mem (v : RAM) (h : Heap) : Heap :=
  mkHeap (h_kernel h) v (heap_base h) (heap_limit h) (heap_mapped_size h) (heap_first h) (heap_last h).
Definition set_heap_mapped_size (v : Z) (h : Heap) : Heap :=
  mkHeap (h_kernel h) (heap_mem h) (heap_base h) (heap_limit h) v (heap_first h) (heap_last h).
Definition set_heap_first (v : Z) (h : Heap) : Heap :=
  mkHeap (h_kernel h) (heap_mem h) (heap_base h) (heap_limit h) (heap_mapped_size h) v (heap_last h).
Definition set_heap_last (v : Z) (h : Heap) : Heap :=
  mkHeap (h_kernel h) (heap_mem h) (heap_base h) (heap_limit h) (heap_mapped_size h) (heap_first h) v.

(** [block->field]. *)
Definition get_field (block offset : Z) : Exec Heap Z :=
  h ← exec_get; mret (load64 (heap_mem h) (block + offset)).
Definition put_field (block offset v : Z) : Exec Heap unit :=
  exec_modify (fun h => set_heap_mem (store64 (heap_mem h) (block + offset) v) h).

(** A call of the page allocator or of the page-table code. *)
Definition on_kernel {A} (m : Exec Kernel A) : Exec Heap (option A) := fun h =>
  let '(result, k) := m (h_kernel h) in (Some result, set_h_kernel k h).

Definition heap_align_size (size : Z) : option Z :=
  if (size =? 0) || (KERNEL_SIZE_MAX - (KERNEL_HEAP_ALIGNMENT - 1) <? size) then None
  else Some (Z.land (size + (KERNEL_HEAP_ALIGNMENT - 1)) (not64 (KERNEL_HEAP_ALIGNMENT - 1))).

(** [for (i = 0; i < size; ++i) bytes[i] = 0;], with [n] bytes left. *)
Fixpoint heap_zero_loop (n : nat) (pointer : Z) (m : RAM) : RAM :=
  match n with
  | O => m
  | S n => heap_zero_loop n (pointer + 1) (ram_set_byte m pointer 0)
  end.

Definition heap_zero (pointer size : Z) : Exec Heap unit :=
  exec_modify (fun h => set_heap_mem (heap_zero_loop (Z.to_nat size) pointer (heap_mem h)) h).

Definition heap_block_free (flags : Z) : bool := has_bits flags KERNEL_HEAP_FREE.

(** ** Growing the window *)

(** [while (added < needed)]; every pass adds a page or leaves the loop. *)
Fixpoint append_loop (fuel : nat) (old_size needed added : Z) : Exec Heap Z :=
  if negb (added <? needed) then mret added
  else match fuel with
  | O => mret added
  | S fuel =>
      physical ← on_kernel kernel_pmm_alloc_page;
      match physical with
      | None => mret added
      | Some physical =>
          h ← exec_get;
          mapped ← on_kernel (kernel_map_page (kernel_page_table_root (h_kernel h))
                                (wrap64 (heap_base h + old_size + added)) physical pte_rw);
          match mapped with
          | None => on_kernel (kernel_pmm_free_page physical);; mret added
          | Some _ =>
              let added := added + KERNEL_PAGE_SIZE in
              exec_modify (set_heap_mapped_size (old_size + added));;
              append_loop fuel old_size needed added
          end
      end
  end.

Definition heap_append_pages (minimum_payload : Z) : Exec Heap bool :=
  if KERNEL_SIZE_MAX - HEADER_SIZE <? minimum_payload then mret false
  else
    let needed := minimum_payload + HEADER_SIZE in
    if KERNEL_SIZE_MAX - KERNEL_PAGE_MASK <? needed then mret false
    else
      let needed := Z.land (needed + KERNEL_PAGE_MASK) (not64 KERNEL_PAGE_MASK) in
      h ← exec_get;
      let old_size := heap_mapped_size h in
      if (heap_limit h - heap_base h <=? old_size) ||
         (heap_limit h - heap_base h - old_size <? needed)
      then mret false
      else
        added ← append_loop (Z.to_nat (needed / KERNEL_PAGE_SIZE)) old_size needed 0;
        if added =? 0 then mret false
        else
          h ← exec_get;
          last_flags ← get_field (heap_last h) flags_offset;
          (if negb (heap_last h =? 0) && heap_block_free last_flags then
             size ← get_field (heap_last h) size_offset;
             put_field (heap_last h) size_offset (size + added)
           else
             let block := heap_base h + old_size in
             put_field block magic_offset KERNEL_HEAP_MAGIC;;
             put_field block size_offset (added - HEADER_SIZE);;
             put_field block previous_offset (heap_last h);;
             put_field block next_offset 0;;
             put_field block flags_offset KERNEL_HEAP_FREE;;
             put_field block reserved_offset 0;;
             (if negb (heap_last h =? 0) then put_field (heap_last h) next_offset block
              else exec_modify (set_heap_first block));;
             exec_modify (set_heap_last block));;
          mret (needed <=? added).

(** ** Splitting and merging *)

Definition heap_split (block size : Z) : Exec Heap unit :=
  block_size ← get_field block size_offset;
  if block_size <? size + HEADER_SIZE + KERNEL_HEAP_ALIGNMENT then mret tt
  else
    let tail := block + HEADER_SIZE + size in
    next ← get_field block next_offset;
    put_field tail magic_offset KERNEL_HEAP_MAGIC;;
    put_field tail size_offset (block_size - size - HEADER_SIZE);;
    put_field tail previous_offset block;;
    put_field tail next_offset next;;
    put_field tail flags_offset KERNEL_HEAP_FREE;;
    put_field tail reserved_offset 0;;
    (if negb (next =? 0) then put_field next previous_offset tail
     else exec_modify (set_heap_last tail));;
    put_field block next_offset tail;;
    put_field block size_offset size.

Definition heap_merge_next (block : Z) : Exec Heap unit :=
  next ← get_field block next_offset;
  next_flags ← get_field next flags_offset;
  if (next =? 0) || negb (heap_block_free next_flags) then mret tt
  else
    size ← get_field block size_offset;
    next_size ← get_field next size_offset;
    put_field block size_offset (size + (HEADER_SIZE + next_size));;
    next_next ← get_field next next_offset;
    put_field block next_offset next_next;;
    (if negb (next_next =? 0) then put_field next_next previous_offset block
     else exec_modify (set_heap_last block));;
    put_field next magic_offset 0.

(** ** The operations *)

(** [None] is the return of 1. *)
Definition kernel_heap_init : Exec Heap unit :=
  h ← exec_get;
  let handoff := kernel_virtual_handoff (h_kernel h) in
  if UINT64_MAX - direct_map_size handoff <? direct_map_base handoff then exec_fail
  else
    let direct_end := direct_map_base handoff + direct_map_size handoff in
    if UINT64_MAX - KERNEL_HEAP_GUARD_SIZE - (KERNEL_PAGE_SIZE - 1) <? direct_end then exec_fail
    else
      let selected := direct_end + KERNEL_HEAP_GUARD_SIZE in
      let selected := Z.land (selected + KERNEL_PAGE_SIZE - 1) KERNEL_PTE_ADDRESS_MASK in
      if (KERNEL_DEMAND_TEST_ADDRESS <=? selected) ||
         (KERNEL_DEMAND_TEST_ADDRESS - selected <? KERNEL_HEAP_MAX_SIZE)
      then exec_fail
      else
        exec_modify (fun h =>
          mkHeap (h_kernel h) (heap_mem h) selected (selected + KERNEL_HEAP_MAX_SIZE) 0 0 0);;
        grown ← heap_append_pages KERNEL_PAGE_SIZE;
        exec_guard grown.

(** The inner loop of [kernel_malloc]: the first free block that is large
    enough. *)
Fixpoint find_block (fuel : nat) (block aligned : Z) : Exec Heap (option Z) :=
  if block =? 0 then mret None
  else match fuel with
  | O => mret None
  | S fuel =>
      magic ← get_field block magic_offset;
      flags ← get_field block flags_offset;
      size ← get_field block size_offset;
      if (magic =? KERNEL_HEAP_MAGIC) && heap_block_free flags && (aligned <=? size)
      then mret (Some block)
      else
        next ← get_field block next_offset;
        find_block fuel next aligned
  end.

Definition block_fuel (h : Heap) : nat := Z.to_nat (heap_mapped_size h / HEADER_SIZE).

(** The [for (;;)]: a window that grew enough satisfies the next search. *)
Fixpoint malloc_loop (passes : nat) (aligned : Z) : Exec Heap Z :=
  match passes with
  | O => exec_fail
  | S passes =>
      h ← exec_get;
      found ← find_block (block_fuel h) (heap_first h) aligned;
      match found with
      | Some block =>
          heap_split block aligned;;
          flags ← get_field block flags_offset;
          put_field block flags_offset (Z.land flags (not64 KERNEL_HEAP_FREE));;
          mret (block + HEADER_SIZE)
      | None =>
          grown ← heap_append_pages aligned;
          if negb grown then exec_fail else malloc_loop passes aligned
      end
  end.

Definition kernel_malloc (size : Z) : Exec Heap Z :=
  aligned ← exec_of_option (heap_align_size size);
  h ← exec_get;
  if heap_first h =? 0 then exec_fail else malloc_loop 2 aligned.

Definition kernel_calloc (count size : Z) : Exec Heap Z :=
  if (count =? 0) || (size =? 0) || (KERNEL_SIZE_MAX / size <? count) then exec_fail
  else
    let total := count * size in
    pointer ← kernel_malloc total;
    heap_zero pointer total;;
    mret pointer.

(** The early returns have no effect; [tt] is returned in every case. *)
Definition kernel_free (pointer : Z) : Exec Heap unit :=
  h ← exec_get;
  if (pointer =? 0) || (heap_first h =? 0) then mret tt
  else if (pointer <? heap_base h + HEADER_SIZE) ||
          (heap_base h + heap_mapped_size h <=? pointer) ||
          negb (Z.land pointer (KERNEL_HEAP_ALIGNMENT - 1) =? 0)
  then mret tt
  else
    let block := pointer - HEADER_SIZE in
    magic ← get_field block magic_offset;
    flags ← get_field block flags_offset;
    if negb (magic =? KERNEL_HEAP_MAGIC) || heap_block_free flags then mret tt
    else
      put_field block flags_offset (Z.lor flags KERNEL_HEAP_FREE);;
      heap_merge_next block;;
      previous ← get_field block previous_offset;
      previous_flags ← get_field previous flags_offset;
      if negb (previous =? 0) && heap_block_free previous_flags then heap_merge_next previous
      else mret tt.

(** The loop of [kernel_heap_validate]; [true] is the return of 0. *)
Fixpoint validate_loop (fuel : nat) (h : Heap) (block previous expected blocks : Z) : bool :=
  let m := heap_mem h in
  let heap_end := heap_base h + heap_mapped_size h in
  if block =? 0 then (previous =? heap_last h) && (expected =? heap_end)
  else match fuel with
  | O => false
  | S fuel =>
      let payload := block + HEADER_SIZE in
      let size := load64 m (block + size_offset) in
      let next := load64 m (block + next_offset) in
      let blocks := blocks + 1 in
      if (heap_mapped_size h / HEADER_SIZE <? blocks) ||
         negb (block =? expected) ||
         negb (load64 m (block + magic_offset) =? KERNEL_HEAP_MAGIC) ||
         negb (load64 m (block + previous_offset) =? previous) ||
         negb (load64 m (block + reserved_offset) =? 0) ||
         negb (Z.land size (KERNEL_HEAP_ALIGNMENT - 1) =? 0) ||
         (heap_end <? payload) || (heap_end - payload <? size) ||
         (negb (next =? 0) && heap_block_free (load64 m (block + flags_offset)) &&
          heap_block_free (load64 m (next + flags_offset)))
      then false
      else validate_loop fuel h next block (payload + size) blocks
  end.

Definition kernel_heap_validate (h : Heap) : bool :=
  if (heap_first h =? 0) || (heap_last h =? 0) || (heap_mapped_size h =? 0) then false
  else validate_loop (S (block_fuel h)) h (heap_first h) 0 (heap_base h) 0.

(** ** The self test *)

Definition heap_store8 (pointer v : Z) : Exec Heap unit :=
  exec_modify (fun h => set_heap_mem (ram_set_byte (heap_mem h) pointer (v mod 256)) h).

(** [for (i = ...; i < n; ++i) bytes[i] = value(i);], [n] bytes left. *)
Fixpoint fill_loop (n : nat) (bytes i : Z) (value : Z -> Z) : Exec Heap unit :=
  match n with
  | O => mret tt
  | S n => heap_store8 (bytes + i) (value i);; fill_loop n bytes (i + 1) value
  end.

(** [for (...) if (bytes[i] != value(i)) return 1;] *)
Fixpoint compare_loop (n : nat) (bytes i : Z) (value : Z -> Z) : Exec Heap unit :=
  match n with
  | O => mret tt
  | S n =>
      h ← exec_get;
      exec_guard (ram_byte (heap_mem h) (bytes + i) =? value i mod 256);;
      compare_loop n bytes (i + 1) value
  end.

(** [for (i = 0; i < 17; ++i) if (zeroed[i] != 0) return 1;] *)
Fixpoint zero_check_loop (n : nat) (words i : Z) : Exec Heap unit :=
  match n with
  | O => mret tt
  | S n =>
      h ← exec_get;
      exec_guard (load64 (heap_mem h) (words + 8 * i) =? 0);;
      zero_check_loop n words (i + 1)
  end.

Definition kernel_heap_self_test : Exec Heap unit :=
  small ← exec_try (kernel_malloc 1);
  reusable ← exec_try (kernel_malloc 31);
  medium ← exec_try (kernel_malloc 1000);
  large ← exec_try (kernel_malloc 5000);
  match small, reusable, medium, large with
  | Some small, Some reusable, Some medium, Some large =>
      if negb (Z.land small (KERNEL_HEAP_ALIGNMENT - 1) =? 0) ||
         negb (Z.land large (KERNEL_HEAP_ALIGNMENT - 1) =? 0)
      then exec_fail
      else
        heap_store8 small 0x11;;
        fill_loop (Z.to_nat 1000) medium 0 (fun i => i);;
        fill_loop (Z.to_nat 5000) large 0 (fun i => Z.lxor i 0xA5);;
        compare_loop (Z.to_nat 1000) medium 0 (fun i => i);;
        compare_loop (Z.to_nat 5000) large 0 (fun i => Z.lxor i 0xA5);;
        kernel_free reusable;;
        reused ← exec_try (kernel_malloc 24);
        match reused with
        | None => exec_fail
        | Some reused =>
            exec_guard (reused =? reusable);;
            zeroed ← kernel_calloc 17 8;
            zero_check_loop (Z.to_nat 17) zeroed 0;;
            overflow ← exec_try (kernel_calloc KERNEL_SIZE_MAX 2);
            match overflow with
            | Some _ => exec_fail
            | None =>
                kernel_free zeroed;;
                kernel_free reused;;
                kernel_free small;;
                kernel_free medium;;
                kernel_free large;;
                h ← exec_get;
                exec_guard (kernel_heap_validate h);;
                merged ← kernel_malloc 9000;
                kernel_free merged;;
                h ← exec_get;
                exec_guard (kernel_heap_validate h)
            end
        end
  | _, _, _, _ => exec_fail
  end.

(** ** The blocks of the window *)

Record Block := mkBlock { b_addr : Z; b_size : Z; b_free : bool }.

#[export] Instance Block_eq_dec : EqDecision Block.
Proof. solve_decision. Defined.

Definition b_end (x : Block) : Z := b_addr x + HEADER_SIZE + b_size x.
Definition next_addr (B : list Block) (n : Z) : Z := match B with [] => n | x :: _ => b_addr x end.
Definition last_addr (B : list Block) (p : Z) : Z := default p (b_addr <$> list.last B).

(** The blocks cover the window from [a] to [e] without gaps; sizes are
    multiples of the alignment. *)
Fixpoint tiled (a : Z) (B : list Block) (e : Z) : Prop :=
  match B with
  | [] => a = e
  | x :: B => b_addr x = a /\ 0 <= b_size x /\ b_size x mod KERNEL_HEAP_ALIGNMENT = 0 /\ tiled (b_end x) B e
  end.

(** The header of [x] in memory. *)
Record header_ok (m : RAM) (previous : Z) (x : Block) (next : Z) : Prop := {
  header_magic : load64 m (b_addr x + magic_offset) = KERNEL_HEAP_MAGIC;
  header_size : load64 m (b_addr x + size_offset) = b_size x;
  header_previous : load64 m (b_addr x + previous_offset) = previous;
  header_next : load64 m (b_addr x + next_offset) = next;
  header_flags : load64 m (b_addr x + flags_offset) = if b_free x then KERNEL_HEAP_FREE else 0;
  header_reserved : load64 m (b_addr x + reserved_offset) = 0;
}.

(** The headers of [B] are linked in both directions, between the neighbours
    [previous] and [next]. *)
Fixpoint linked (m : RAM) (previous : Z) (B : list Block) (next : Z) : Prop :=
  match B with
  | [] => True
  | x :: B => header_ok m previous x (next_addr B next) /\ linked m (b_addr x) B next
  end.

Fixpoint coalesced (B : list Block) : bool :=
  match B with
  | x :: (y :: _) as B => negb (b_free x && b_free y) && coalesced B
  | _ => true
  end.

Record heap_ok (h : Heap) (B : list Block) : Prop := {
  ok_wf : ram_wf (heap_mem h);
  ok_base : 0 < heap_base h /\ heap_base h mod KERNEL_HEAP_ALIGNMENT = 0;
  ok_limit : heap_base h + heap_mapped_size h <= heap_limit h /\ heap_limit h <= MMU_VIRTUAL_ADDRESS_LIMIT;
  ok_tiled : tiled (heap_base h) B (heap_base h + heap_mapped_size h);
  ok_linked : linked (heap_mem h) 0 B 0;
  ok_first : heap_first h = next_addr B 0;
  ok_last : heap_last h = last_addr B 0;
}.

(** *** Lists of blocks *)

Lemma next_addr_app A C n : next_addr (A ++ C) n = next_addr A (next_addr C n).
Proof. by destruct A. Qed.

Lemma last_addr_snoc A x p : last_addr (A ++ [x]) p = b_addr x.
Proof. unfold last_addr. by rewrite last_snoc. Qed.

Lemma last_addr_app_cons A x C p : last_addr (A ++ x :: C) p = last_addr (x :: C) p.
Proof.
  unfold last_addr. rewrite last_app. destruct (list.last (x :: C)) eqn:E; [done|].
  apply last_None in E. done.
Qed.

Lemma last_addr_cons x C p : last_addr (x :: C) p = last_addr C (b_addr x).
Proof. unfold last_addr. rewrite last_cons. by destruct (list.last C). Qed.

Lemma tiled_app a A C e : tiled a (A ++ C) e <-> exists b, tiled a A b /\ tiled b C e.
Proof.
  revert a. induction A as [|x A IH]; intros a; cbn.
  - split; [by exists a|]. by intros (b & -> & H).
  - rewrite IH. split.
    + intros (? & ? & ? & b & ? & ?). exists b. by split_and!.
    + intros (b & (? & ? & ? & ?) & ?). split_and!; [done..|]. by exists b.
Qed.

Lemma linked_app m p A C n :
  linked m p (A ++ C) n <-> linked m p A (next_addr C n) /\ linked m (last_addr A p) C n.
Proof.
  revert p. induction A as [|x A IH]; intros p; cbn; [tauto|].
  rewrite IH, last_addr_cons, next_addr_app. tauto.
Qed.

Lemma tiled_le a B e : tiled a B e -> a <= e.
Proof.
  revert a. induction B as [|x B IH]; intros a; cbn; [lia|]. intros (<- & Hs & _ & Ht%IH).
  unfold b_end, HEADER_SIZE in *. lia.
Qed.

Lemma tiled_bounds a B e x : tiled a B e -> x ∈ B -> a <= b_addr x /\ b_end x <= e /\ 0 <= b_size x.
Proof.
  revert a. induction B as [|y B IH]; intros a; cbn; [by intros _ ?%elem_of_nil|].
  intros (Ha & Hs & _ & Ht) [->|Hin]%elem_of_cons.
  - apply tiled_le in Ht. lia.
  - destruct (IH _ Ht Hin) as (? & ? & ?). unfold b_end, HEADER_SIZE in *. lia.
Qed.

(** Blocks on the two sides of a block. *)
Lemma tiled_sides a A x C e :
  tiled a (A ++ x :: C) e ->
  (forall y, y ∈ A -> b_end y <= b_addr x) /\ (forall y, y ∈ C -> b_end x <= b_addr y) /\
  a <= b_addr x /\ b_end x <= e /\ 0 <= b_size x /\ b_size x mod KERNEL_HEAP_ALIGNMENT = 0 /\
  tiled a A (b_addr x) /\ tiled (b_end x) C e.
Proof.
  intros (b & HA & <- & Hs & Hm & HC)%tiled_app. split_and!; try done.
  - intros y Hy. by apply (tiled_bounds _ _ _ _ HA).
  - intros y Hy. by apply (tiled_bounds _ _ _ _ HC).
  - by eapply tiled_le.
  - by eapply tiled_le.
Qed.

(** A memory that agrees on the headers. *)
Lemma linked_frame m m' p B n :
  linked m p B n ->
  (forall x o, x ∈ B -> 0 <= o -> o + 8 <= HEADER_SIZE -> load64 m' (b_addr x + o) = load64 m (b_addr x + o)) ->
  linked m' p B n.
Proof.
  revert p. induction B as [|x B IH]; intros p; cbn; [done|]. intros [[H1 H2 H3 H4 H5 H6] Hl] Hsame.
  split; [|apply IH; [done|]; intros y o Hy; apply Hsame; by right].
  unfold magic_offset, size_offset, previous_offset, next_offset, flags_offset, reserved_offset, HEADER_SIZE in *.
  split; unfold magic_offset, size_offset, previous_offset, next_offset, flags_offset, reserved_offset;
    (rewrite Hsame; [done|by left|lia|lia]).
Qed.

Lemma linked_frame_store m p B n a v :
  linked m p B n -> (forall x, x ∈ B -> a + 8 <= b_addr x \/ b_addr x + HEADER_SIZE <= a) ->
  linked (store64 m a v) p B n.
Proof.
  intros Hl Hd. eapply linked_frame; [exact Hl|]. intros x o Hx H0 H1.
  apply load64_store64_disjoint. specialize (Hd x Hx). lia.
Qed.

(** Only the first block knows the address of the previous one. *)
Lemma linked_previous m p p' y B n a v :
  linked m p (y :: B) n -> a = b_addr y + previous_offset -> is_u64 p' -> v = p' ->
  (forall x, x ∈ B -> b_end y <= b_addr x) -> 0 <= b_size y ->
  linked (store64 m a v) p' (y :: B) n.
Proof.
  intros [[H1 H2 H3 H4 H5 H6] Hl] -> Hu -> Hd Hs. unfold b_end in Hd. split.
  - unfold magic_offset, size_offset, previous_offset, next_offset, flags_offset, reserved_offset in *.
    split; unfold magic_offset, size_offset, previous_offset, next_offset, flags_offset, reserved_offset;
      try (rewrite load64_store64_disjoint; [done|lia]).
    rewrite load64_store64_same. by apply wrap64_id.
  - apply linked_frame_store; [done|]. intros x Hx. specialize (Hd x Hx).
    unfold previous_offset, HEADER_SIZE in *. lia.
Qed.

(** *** What an operation may write *)

(** The contents of the blocks in use are unchanged. *)
Definition keeps_used (B : list Block) (m m' : RAM) : Prop :=
  forall y b, y ∈ B -> b_free y = false -> b_addr y + HEADER_SIZE <= b < b_end y ->
    ram_byte m' b = ram_byte m b.

#[export] Instance keeps_used_preorder B : PreOrder (keeps_used B).
Proof.
  split; [done|]. intros m1 m2 m3 H1 H2 y b Hy Hf Hb. by rewrite (H2 y b Hy Hf Hb), (H1 y b Hy Hf Hb).
Qed.

Lemma blocks_separate a B e x y :
  tiled a B e -> x ∈ B -> y ∈ B -> x = y \/ b_end x <= b_addr y \/ b_end y <= b_addr x.
Proof.
  intros Ht [A [C ->]]%list_elem_of_split Hy. destruct (tiled_sides _ _ _ _ _ Ht) as (HA & HC & _).
  apply elem_of_app in Hy as [Hy|[->|Hy]%elem_of_cons]; auto.
Qed.

Lemma keeps_store_header a B e z o m v :
  tiled a B e -> z ∈ B -> 0 <= o -> o + 8 <= HEADER_SIZE ->
  keeps_used B m (store64 m (b_addr z + o) v).
Proof.
  intros Ht Hz H0 H1 y b Hy _ Hb. apply store64_byte.
  pose proof (proj2 (proj2 (tiled_bounds _ _ _ _ Ht Hz))).
  destruct (blocks_separate _ _ _ z y Ht Hz Hy) as [->|[?|?]]; unfold b_end, HEADER_SIZE in *; lia.
Qed.

Lemma keeps_store_free a B e x p m v :
  tiled a B e -> x ∈ B -> b_free x = true -> b_addr x <= p -> p + 8 <= b_end x ->
  keeps_used B m (store64 m p v).
Proof.
  intros Ht Hx Hf H0 H1 y b Hy Hfy Hb. apply store64_byte.
  destruct (blocks_separate _ _ _ x y Ht Hx Hy) as [->|[?|?]]; [congruence|..]; unfold b_end, HEADER_SIZE in *; lia.
Qed.

Ltac unfold_offsets :=
  unfold magic_offset, size_offset, previous_offset, next_offset, flags_offset, reserved_offset,
    HEADER_SIZE in *.

(** Evaluate the loads of a header after a sequence of stores. *)
Ltac header_loads :=
  repeat match goal with
  | |- context [load64 (store64 ?m ?a ?v) ?b] =>
      first [ rewrite (load64_store64_disjoint m a v b) by (cbn; lia)
            | replace b with a by (cbn; lia); rewrite (load64_store64_same m a v) ]
  end.

Lemma heap_ok_parts h A x C :
  heap_ok h (A ++ x :: C) ->
  linked (heap_mem h) 0 A (b_addr x) /\
  header_ok (heap_mem h) (last_addr A 0) x (next_addr C 0) /\
  linked (heap_mem h) (b_addr x) C 0.
Proof. intros [_ _ _ _ [HA [Hx HC]]%linked_app _ _]. done. Qed.

(** Addresses inside the window are 64-bit words. *)
Lemma window_u64 h B a : heap_ok h B -> heap_base h <= a <= heap_base h + heap_mapped_size h -> is_u64 a.
Proof.
  intros [_ [? _] [? ?] _ _ _ _] Ha. unfold is_u64, MMU_VIRTUAL_ADDRESS_LIMIT in *. lia.
Qed.

Lemma set_heap_mem_twice m m' h : set_heap_mem m (set_heap_mem m' h) = set_heap_mem m h.
Proof. done. Qed.

Lemma put_flags_ok h A x C (f : bool) :
  heap_ok h (A ++ x :: C) ->
  let h' := set_heap_mem (store64 (heap_mem h) (b_addr x + flags_offset)
              (if f then KERNEL_HEAP_FREE else 0)) h in
  heap_ok h' (A ++ mkBlock (b_addr x) (b_size x) f :: C).
Proof.
  intros Hok h'. destruct (heap_ok_parts _ _ _ _ Hok) as (HlA & Hx & HlC).
  pose proof Hok as [Hwf Hb Hl Ht _ Hf Hla].
  destruct (tiled_sides _ _ _ _ _ Ht) as (HA & HC & Ha & He & Hs & Hm & HtA & HtC).
  split; cbn [h' heap_mem heap_base heap_mapped_size heap_limit heap_first heap_last set_heap_mem].
  - by apply store64_wf.
  - done.
  - done.
  - apply tiled_app. exists (b_addr x). by split.
  - apply linked_app. split; [|split].
    + apply linked_frame_store; [done|]. intros y Hy. specialize (HA y Hy).
      pose proof (proj2 (proj2 (tiled_bounds _ _ _ _ HtA Hy))). unfold b_end in *. unfold_offsets. lia.
    + destruct Hx as [H1 H2 H3 H4 H5 H6]. unfold_offsets.
      split; unfold_offsets; cbn [b_addr b_size b_free]; header_loads; try done. by destruct f.
    + apply linked_frame_store; [done|]. intros y Hy. specialize (HC y Hy). unfold b_end in *. unfold_offsets. lia.
  - rewrite Hf. by rewrite !next_addr_app.
  - rewrite Hla, !last_addr_app_cons, !last_addr_cons. done.
Qed.

(** *** Splitting *)

Definition split_blocks (x : Block) (size : Z) : list Block :=
  if b_size x <? size + HEADER_SIZE + KERNEL_HEAP_ALIGNMENT then [x]
  else [mkBlock (b_addr x) size (b_free x);
        mkBlock (b_addr x + HEADER_SIZE + size) (b_size x - size - HEADER_SIZE) true].

(** The stores that write a complete header. *)
Definition write_header (m : RAM) (x : Block) (previous next : Z) : RAM :=
  store64 (store64 (store64 (store64 (store64 (store64 m
    (b_addr x + magic_offset) KERNEL_HEAP_MAGIC) (b_addr x + size_offset) (b_size x))
    (b_addr x + previous_offset) previous) (b_addr x + next_offset) next)
    (b_addr x + flags_offset) KERNEL_HEAP_FREE) (b_addr x + reserved_offset) 0.

Lemma write_header_ok m x previous next :
  b_free x = true -> is_u64 (b_size x) -> is_u64 previous -> is_u64 next ->
  header_ok (write_header m x previous next) previous x next.
Proof.
  intros Hf Hs Hp Hn. unfold write_header. unfold_offsets.
  split; unfold_offsets; header_loads; rewrite ?Hf; by rewrite ?wrap64_id by (done || by vm_compute).
Qed.

Lemma write_header_other m x previous next b :
  b + 8 <= b_addr x \/ b_addr x + HEADER_SIZE <= b ->
  load64 (write_header m x previous next) b = load64 m b.
Proof. intros H. unfold write_header. unfold_offsets. header_loads. done. Qed.

Lemma write_header_linked m x previous next p B n :
  linked m p B n -> (forall y, y ∈ B -> b_end y <= b_addr x \/ b_addr x + HEADER_SIZE <= b_addr y) ->
  (forall y, y ∈ B -> 0 <= b_size y) ->
  linked (write_header m x previous next) p B n.
Proof.
  intros Hl Hd Hs. eapply linked_frame; [exact Hl|]. intros y o Hy H0 H1. apply write_header_other.
  specialize (Hd y Hy). specialize (Hs y Hy). unfold b_end in *. lia.
Qed.

Lemma write_header_wf m x previous next : ram_wf m -> ram_wf (write_header m x previous next).
Proof. intros H. unfold write_header. by do 6 apply store64_wf. Qed.

Lemma write_header_keeps a B e x z m previous next :
  tiled a B e -> z ∈ B -> b_free z = true -> b_addr z <= b_addr x -> b_addr x + HEADER_SIZE <= b_end z ->
  keeps_used B m (write_header m x previous next).
Proof.
  intros Ht Hz Hf H0 H1. unfold write_header. unfold_offsets.
  repeat (etrans; [|eapply (keeps_store_free a B e z); [done|done|done|lia|lia]]). done.
Qed.

(** [if (next != NULL) next->previous = t; else heap_last = t;] where the blocks
    [C] follow. *)
Definition relink (m : RAM) (C : list Block) (t : Z) : RAM :=
  match C with [] => m | y :: _ => store64 m (b_addr y + previous_offset) t end.
Definition relink_last (last : Z) (C : list Block) (t : Z) : Z :=
  match C with [] => t | _ => last end.

Lemma relink_run h C t a e :
  tiled a C e -> 0 < a ->
  (if negb (next_addr C 0 =? 0) then put_field (next_addr C 0) previous_offset t
   else exec_modify (set_heap_last t)) h =
  (Some tt, set_heap_last (relink_last (heap_last h) C t) (set_heap_mem (relink (heap_mem h) C t) h)).
Proof.
  intros Ht Ha. destruct C as [|y C]; cbn; [by destruct h|].
  destruct Ht as (-> & _). rewrite (proj2 (Z.eqb_neq a 0)) by lia. by destruct h.
Qed.

Lemma relink_linked m p C t a e :
  linked m p C 0 -> tiled a C e -> is_u64 t -> linked (relink m C t) t C 0.
Proof.
  intros Hl Ht Hu. destruct C as [|y C]; [done|].
  destruct (tiled_sides _ [] _ _ _ Ht) as (_ & HC & _ & _ & Hs & _). by apply (linked_previous m p).
Qed.

Lemma relink_other m C t a e b : tiled a C e -> b + 8 <= a -> load64 (relink m C t) b = load64 m b.
Proof.
  intros Ht Hb. destruct C as [|y C]; [done|]. destruct Ht as (<- & _).
  apply load64_store64_disjoint. unfold_offsets. lia.
Qed.

Lemma relink_linked_before m C t a e p A n :
  tiled a C e -> linked m p A n -> (forall y, y ∈ A -> b_addr y + HEADER_SIZE <= a) ->
  linked (relink m C t) p A n.
Proof.
  intros Ht Hl Hd. eapply linked_frame; [exact Hl|]. intros y o Hy H0 H1.
  eapply relink_other; [exact Ht|]. specialize (Hd y Hy). lia.
Qed.

Lemma relink_header m C t a e p x n :
  tiled a C e -> header_ok m p x n -> b_addr x + HEADER_SIZE <= a -> header_ok (relink m C t) p x n.
Proof.
  intros Ht [G1 G2 G3 G4 G5 G6] Hd. unfold_offsets.
  split; unfold_offsets; rewrite (relink_other _ _ _ _ _ _ Ht) by lia; done.
Qed.

Lemma relink_wf m C t : ram_wf m -> ram_wf (relink m C t).
Proof. intros H. destruct C; [done|by apply store64_wf]. Qed.

Lemma relink_keeps a B e m C t : tiled a B e -> (forall y, y ∈ C -> y ∈ B) -> keeps_used B m (relink m C t).
Proof.
  intros Ht Hs. destruct C as [|y C]; [done|].
  apply (keeps_store_header _ _ _ y _ _ _ Ht); [apply Hs; by left|by vm_compute..].
Qed.

Lemma next_addr_u64 h B C a :
  heap_ok h B -> tiled a C (heap_base h + heap_mapped_size h) -> heap_base h <= a -> is_u64 (next_addr C 0).
Proof.
  intros Hok Ht Ha. destruct C as [|y C]; [done|].
  destruct (tiled_bounds _ _ _ y Ht ltac:(by left)) as (? & ? & ?).
  apply (window_u64 _ _ _ Hok). cbn. unfold b_end, HEADER_SIZE in *. lia.
Qed.

(** Stores into the header of [x] do not touch the blocks around it. *)
Lemma linked_around m p A n x o v :
  linked m p A n -> (forall y, y ∈ A -> b_end y <= b_addr x /\ 0 <= b_size y \/ b_addr x + HEADER_SIZE <= b_addr y) ->
  0 <= o -> o + 8 <= HEADER_SIZE -> linked (store64 m (b_addr x + o) v) p A n.
Proof.
  intros Hl Hd H0 H1. apply linked_frame_store; [done|]. intros y Hy. specialize (Hd y Hy).
  unfold b_end, HEADER_SIZE in *. lia.
Qed.

Lemma split_ok h A x C size :
  heap_ok h (A ++ x :: C) -> b_free x = true -> 0 < size <= b_size x -> size mod KERNEL_HEAP_ALIGNMENT = 0 ->
  exists h', heap_split (b_addr x) size h = (Some tt, h') /\
    heap_ok h' (A ++ split_blocks x size ++ C) /\ keeps_used (A ++ x :: C) (heap_mem h) (heap_mem h') /\
    h' = set_heap_last (heap_last h') (set_heap_mem (heap_mem h') h).
Proof.
  intros Hok Hfree Hsize Hal. destruct (heap_ok_parts _ _ _ _ Hok) as (HlA & Hx & HlC).
  pose proof Hok as [Hwf Hb Hl Ht _ Hf Hla].
  destruct (tiled_sides _ _ _ _ _ Ht) as (HA & HC & Ha & He & Hs & Hm & HtA & HtC).
  assert (x ∈ A ++ x :: C) as Hin by (rewrite elem_of_app, elem_of_cons; tauto).
  unfold heap_split. erewrite exec_bind_some by reflexivity.
  rewrite (header_size _ _ _ _ Hx). unfold split_blocks.
  destruct (Z.ltb_spec (b_size x) (size + HEADER_SIZE + KERNEL_HEAP_ALIGNMENT)) as [Hsmall|Hbig].
  { exists h. split_and!; [done|done|done|]. by destruct h. }
  erewrite exec_bind_some by reflexivity. rewrite (header_next _ _ _ _ Hx).
  do 6 erewrite exec_bind_some by reflexivity. cbn [heap_mem set_heap_mem].
  set (t := b_addr x + HEADER_SIZE + size).
  set (tail := mkBlock t (b_size x - size - HEADER_SIZE) true).
  assert (b_addr tail = t /\ t = b_addr x + HEADER_SIZE + size /\ t + HEADER_SIZE <= b_end x)
    as (Hta & Htd & Hgap).
  { split_and!; [done|done|]. unfold t, b_end, HEADER_SIZE, KERNEL_HEAP_ALIGNMENT in *. lia. }
  assert (is_u64 t /\ is_u64 (b_size tail) /\ is_u64 size /\ is_u64 (b_addr x) /\ is_u64 (next_addr C 0))
    as (Htu & Hsu & Hzu & Hxu & Hnu).
  { assert (is_u64 (b_end x)) by (apply (window_u64 _ _ _ Hok); unfold b_end, HEADER_SIZE in *; lia).
    assert (is_u64 (next_addr C 0)) by (apply (next_addr_u64 h _ C (b_end x) Hok HtC);
      unfold b_end, HEADER_SIZE in *; lia).
    unfold t, tail, b_end, is_u64, HEADER_SIZE, KERNEL_HEAP_ALIGNMENT in *. cbn. split_and!; lia. }
  change (store64 (store64 (store64 (store64 (store64 (store64 (heap_mem h) (t + magic_offset) KERNEL_HEAP_MAGIC)
    (t + size_offset) (b_size x - size - HEADER_SIZE)) (t + previous_offset) (b_addr x))
    (t + next_offset) (next_addr C 0)) (t + flags_offset) KERNEL_HEAP_FREE) (t + reserved_offset) 0)
    with (write_header (heap_mem h) tail (b_addr x) (next_addr C 0)).
  set (m1 := write_header (heap_mem h) tail (b_addr x) (next_addr C 0)).
  rewrite !set_heap_mem_twice.
  erewrite exec_bind_some by (apply relink_run with (a := b_end x) (e := heap_base h + heap_mapped_size h);
    [done|unfold b_end, HEADER_SIZE in *; lia]).
  erewrite exec_bind_some by reflexivity.
  assert (header_ok m1 (last_addr A 0) x (next_addr C 0)) as Hx1.
  { destruct Hx as [G1 G2 G3 G4 G5 G6].
    split; unfold m1; rewrite write_header_other by (rewrite Hta, Htd; unfold_offsets; lia); done. }
  assert (header_ok m1 (b_addr x) tail (next_addr C 0)) as Ht1 by by apply write_header_ok.
  assert (linked m1 0 A (b_addr x)) as HA1.
  { apply write_header_linked; [done|intros y Hy; left|intros y Hy; by apply (tiled_bounds _ _ _ _ HtA Hy)].
    specialize (HA y Hy). unfold HEADER_SIZE in *. lia. }
  assert (linked m1 (b_addr x) C 0) as HC1.
  { apply write_header_linked; [done|intros y Hy; right|intros y Hy; by apply (tiled_bounds _ _ _ _ HtC Hy)].
    specialize (HC y Hy). lia. }
  assert (keeps_used (A ++ x :: C) (heap_mem h) m1) as Hk1.
  { apply (write_header_keeps _ _ _ _ x _ _ _ Ht Hin Hfree); unfold HEADER_SIZE in *; lia. }
  set (m2 := relink m1 C t).
  assert (header_ok m2 (last_addr A 0) x (next_addr C 0)) as Hx2.
  { apply (relink_header _ _ _ _ _ _ _ _ HtC Hx1). unfold b_end, HEADER_SIZE in *. lia. }
  assert (header_ok m2 (b_addr x) tail (next_addr C 0)) as Ht2.
  { apply (relink_header _ _ _ _ _ _ _ _ HtC Ht1). lia. }
  eexists. split; [reflexivity|]. cbn [heap_mem set_heap_mem set_heap_last heap_last].
  fold m2. set (m3 := store64 (store64 m2 (b_addr x + next_offset) t) (b_addr x + size_offset) size).
  split_and!; [|..|done].
  - split; cbn [heap_mem heap_base heap_mapped_size heap_limit heap_first heap_last set_heap_mem set_heap_last].
    + apply store64_wf, store64_wf, relink_wf, write_header_wf, Hwf.
    + done.
    + done.
    + apply tiled_app. exists (b_addr x). split; [done|]. cbn. unfold b_end in *; cbn.
      split_and!; try done; try (unfold HEADER_SIZE, KERNEL_HEAP_ALIGNMENT in *; zlia).
      by replace (t + HEADER_SIZE + (b_size x - size - HEADER_SIZE))
        with (b_addr x + HEADER_SIZE + b_size x) by lia.
    + apply linked_app. split; [|split; [|split]].
      * do 2 (apply linked_around; [|intros y Hy; left; split; [by apply HA|by apply (tiled_bounds _ _ _ _ HtA Hy)]
          |by vm_compute..]).
        eapply relink_linked_before; [exact HtC|done|]. intros y Hy. specialize (HA y Hy).
        pose proof (proj2 (proj2 (tiled_bounds _ _ _ _ HtA Hy))). unfold b_end, HEADER_SIZE in *. lia.
      * destruct Hx2 as [G1 G2 G3 G4 G5 G6]. unfold m3. unfold_offsets.
        split; unfold_offsets; cbn [b_addr b_size b_free next_addr]; header_loads; rewrite ?wrap64_id by done; done.
      * destruct Ht2 as [G1 G2 G3 G4 G5 G6]. unfold m3. unfold b_end in *. unfold_offsets.
        split; unfold_offsets; header_loads; done.
      * do 2 (apply linked_around; [|intros y Hy; right; specialize (HC y Hy); unfold b_end, HEADER_SIZE in *; lia
          |by vm_compute..]).
        by eapply relink_linked.
    + rewrite Hf. by rewrite !next_addr_app.
    + destruct C as [|y C]; cbn [relink_last app].
      * by rewrite last_addr_app_cons, !last_addr_cons.
      * rewrite Hla. by rewrite !last_addr_app_cons, !last_addr_cons.
  - etrans; [exact Hk1|]. transitivity m2.
    + apply (relink_keeps _ _ _ _ _ _ Ht). intros y Hy. rewrite elem_of_app, elem_of_cons. tauto.
    + transitivity (store64 m2 (b_addr x + next_offset) t);
        by apply (keeps_store_header _ _ _ x _ _ _ Ht); [|by vm_compute..].
Qed.

(** *** Merging *)

Definition merge_blocks (x : Block) (C : list Block) : list Block :=
  match C with
  | y :: C =>
      if b_free y then mkBlock (b_addr x) (b_size x + (HEADER_SIZE + b_size y)) (b_free x) :: C
      else x :: y :: C
  | [] => [x]
  end.

Lemma merge_free_ok h A x y C :
  heap_ok h (A ++ x :: y :: C) -> b_free y = true ->
  let m := store64 (relink (store64 (store64 (heap_mem h) (b_addr x + size_offset)
             (b_size x + (HEADER_SIZE + b_size y))) (b_addr x + next_offset) (next_addr C 0))
             C (b_addr x)) (b_addr y + magic_offset) 0 in
  heap_merge_next (b_addr x) h = (Some tt, set_heap_last (relink_last (heap_last h) C (b_addr x)) (set_heap_mem m h)) /\
  heap_ok (set_heap_last (relink_last (heap_last h) C (b_addr x)) (set_heap_mem m h))
    (A ++ merge_blocks x (y :: C)) /\
  keeps_used (A ++ x :: y :: C) (heap_mem h) m.
Proof.
  intros Hok Hfy m. destruct (heap_ok_parts _ _ _ _ Hok) as (HlA & Hx & [Hy HlC]).
  pose proof Hok as [Hwf Hb Hl Ht _ Hf Hla].
  destruct (tiled_sides _ _ _ _ _ Ht) as (HA & HC & Ha & He & Hs & Hm & HtA & HtC).
  pose proof HtC as (Hya & Hys & Hym & HtC'). unfold b_end in Hya.
  assert (tiled (b_addr y) (y :: C) (heap_base h + heap_mapped_size h)) as HtC2 by by split_and!.
  destruct (tiled_sides _ [] _ _ _ HtC2) as (_ & HCy & _ & Hye & _). unfold b_end in HCy, Hye.
  assert (is_u64 (b_size x + (HEADER_SIZE + b_size y)) /\ is_u64 (b_addr x) /\ is_u64 (next_addr C 0))
    as (Hsu & Hxu & Hnu).
  { assert (is_u64 (b_end y)) by (apply (window_u64 _ _ _ Hok); unfold b_end, HEADER_SIZE in *; lia).
    assert (is_u64 (next_addr C 0)) by (apply (next_addr_u64 h _ C (b_end y) Hok HtC');
      unfold b_end, HEADER_SIZE in *; lia).
    unfold b_end, is_u64, HEADER_SIZE in *. split_and!; lia. }
  assert (0 < b_addr y /\ b_addr y = b_addr x + HEADER_SIZE + b_size x) as [Hy0 Hyx]
    by (unfold HEADER_SIZE in *; lia).
  split_and!.
  - unfold heap_merge_next. do 2 erewrite exec_bind_some by reflexivity.
    rewrite (header_next _ _ _ _ Hx). cbn [next_addr]. rewrite (header_flags _ _ _ _ Hy), Hfy.
    rewrite (proj2 (Z.eqb_neq (b_addr y) 0)) by lia. cbn [orb negb heap_block_free].
    change (heap_block_free KERNEL_HEAP_FREE) with true. cbn [negb].
    do 2 erewrite exec_bind_some by reflexivity.
    rewrite (header_size _ _ _ _ Hx), (header_size _ _ _ _ Hy).
    erewrite exec_bind_some by reflexivity. erewrite exec_bind_some by reflexivity.
    cbn [heap_mem set_heap_mem].
    rewrite (load64_store64_disjoint _ _ _ (b_addr y + next_offset)) by (rewrite Hyx; unfold_offsets; lia).
    rewrite (header_next _ _ _ _ Hy). erewrite exec_bind_some by reflexivity. rewrite set_heap_mem_twice.
    erewrite exec_bind_some by (apply relink_run with (a := b_end y) (e := heap_base h + heap_mapped_size h);
      [done|unfold b_end, HEADER_SIZE in *; lia]).
    reflexivity.
  - unfold merge_blocks. rewrite Hfy.
    split; cbn [heap_mem heap_base heap_mapped_size heap_limit heap_first heap_last set_heap_mem set_heap_last].
    + by apply store64_wf, relink_wf, store64_wf, store64_wf.
    + done.
    + done.
    + apply tiled_app. exists (b_addr x). split; [done|]. cbn. unfold b_end in *; cbn.
      split_and!; try done; try (unfold HEADER_SIZE, KERNEL_HEAP_ALIGNMENT in *; zlia).
      by replace (b_addr x + HEADER_SIZE + (b_size x + (HEADER_SIZE + b_size y)))
        with (b_addr y + HEADER_SIZE + b_size y) by lia.
    + apply linked_app. split; [|split].
      * apply linked_around; [|intros z Hz; left; split; [|by apply (tiled_bounds _ _ _ _ HtA Hz)]|by vm_compute..].
        2:{ specialize (HA z Hz). unfold HEADER_SIZE in *. lia. }
        eapply relink_linked_before; [exact HtC'| |].
        2:{ intros z Hz. specialize (HA z Hz). pose proof (proj2 (proj2 (tiled_bounds _ _ _ _ HtA Hz))).
            unfold b_end, HEADER_SIZE in *. lia. }
        do 2 (apply linked_around; [|intros z Hz; left; split; [by apply HA|by apply (tiled_bounds _ _ _ _ HtA Hz)]
          |by vm_compute..]). done.
      * assert (forall o, 0 <= o -> o + 8 <= HEADER_SIZE ->
          load64 m (b_addr x + o) = load64 (store64 (store64 (heap_mem h) (b_addr x + size_offset)
             (b_size x + (HEADER_SIZE + b_size y))) (b_addr x + next_offset) (next_addr C 0)) (b_addr x + o)) as Hmx.
        { intros o H0 H1. unfold m.
          rewrite load64_store64_disjoint by (rewrite Hyx; unfold_offsets; lia).
          apply (relink_other _ _ _ _ _ _ HtC'). unfold b_end, HEADER_SIZE in *. lia. }
        destruct Hx as [G1 G2 G3 G4 G5 G6]. unfold_offsets.
        split; unfold_offsets; cbn [b_addr b_size b_free]; rewrite Hmx by lia;
          header_loads; rewrite ?wrap64_id by done; done.
      * apply linked_around; [|intros z Hz; right; specialize (HCy z Hz); unfold HEADER_SIZE in *; lia|by vm_compute..].
        eapply relink_linked; [|exact HtC'|done].
        do 2 (apply linked_around; [|intros z Hz; right; specialize (HCy z Hz); unfold HEADER_SIZE in *; lia
          |by vm_compute..]). done.
    + rewrite Hf. by rewrite !next_addr_app.
    + destruct C as [|z C]; cbn [relink_last app].
      * by rewrite last_addr_app_cons, last_addr_cons.
      * rewrite Hla. by rewrite !last_addr_app_cons, !last_addr_cons.
  - assert (x ∈ A ++ x :: y :: C) as Hin by (rewrite elem_of_app, elem_of_cons; tauto).
    assert (y ∈ A ++ x :: y :: C) as Hiny by (rewrite elem_of_app, !elem_of_cons; tauto).
    unfold m. etrans; [|by apply (keeps_store_header _ _ _ y _ _ _ Ht)].
    etrans; [|apply (relink_keeps _ _ _ _ _ _ Ht); intros z Hz; rewrite elem_of_app, !elem_of_cons; tauto].
    etrans; [|by apply (keeps_store_header _ _ _ x _ _ _ Ht)].
    by apply (keeps_store_header _ _ _ x _ _ _ Ht).
Qed.

Lemma merge_ok h A x C :
  heap_ok h (A ++ x :: C) ->
  exists h', heap_merge_next (b_addr x) h = (Some tt, h') /\ heap_ok h' (A ++ merge_blocks x C) /\
    keeps_used (A ++ x :: C) (heap_mem h) (heap_mem h') /\
    h' = set_heap_last (heap_last h') (set_heap_mem (heap_mem h') h).
Proof.
  intros Hok. destruct (heap_ok_parts _ _ _ _ Hok) as (_ & Hx & HlC).
  destruct C as [|y C].
  { exists h. split_and!; [|done|done|by destruct h]. unfold heap_merge_next.
    do 2 erewrite exec_bind_some by reflexivity. by rewrite (header_next _ _ _ _ Hx). }
  destruct (b_free y) eqn:Hfy.
  - destruct (merge_free_ok h A x y C Hok Hfy) as (H1 & H2 & H3). eexists. by split_and!.
  - exists h. unfold merge_blocks. rewrite Hfy. split_and!; [|done|done|by destruct h].
    unfold heap_merge_next. do 2 erewrite exec_bind_some by reflexivity.
    rewrite (header_next _ _ _ _ Hx). cbn [next_addr]. destruct HlC as [Hy _].
    rewrite (header_flags _ _ _ _ Hy), Hfy. by destruct (b_addr y =? 0).
Qed.
