(* ===== verification/HeapProof.v ===== *)
(** Correctness of the kernel heap of Heap.v: the first-fit search, growth of
    the window, and the operations of the interface against a list of blocks. *)

From S2P Require Import Prelude Ram Mmu KernelMem Pmm KernelMmu Heap.
From Stdlib Require Import ZArith Lia Bool.
From stdpp Require Import base list numbers gmap option.

#[local] Open Scope Z_scope.
#[local] Open Scope exec_scope.

(** ** The search *)

Definition fits (aligned : Z) (x : Block) : bool := b_free x && (aligned <=? b_size x).

(** The first block that fits, with the blocks before and behind it. *)
Fixpoint first_fit (aligned : Z) (B : list Block) : option (list Block * Block * list Block) :=
  match B with
  | [] => None
  | x :: B =>
      if fits aligned x then Some ([], x, B)
      else match first_fit aligned B with
           | Some (A, y, C) => Some (x :: A, y, C)
           | None => None
           end
  end.

Lemma first_fit_some aligned B A x C :
  first_fit aligned B = Some (A, x, C) ->
  B = A ++ x :: C /\ b_free x = true /\ aligned <= b_size x /\ Forall (fun y => fits aligned y = false) A.
Proof.
  revert A x C. induction B as [|y B IH]; intros A x C; cbn [first_fit]; [done|].
  destruct (fits aligned y) eqn:E.
  - intros [= <- <- <-]. unfold fits in E. apply andb_true_iff in E as [E1 E2%Z.leb_le]. done.
  - destruct (first_fit aligned B) as [[[A' z] C']|]; [|done]. intros [= <- <- <-].
    destruct (IH A' z C' eq_refl) as (-> & ? & ? & ?). split_and!; [done..|by constructor].
Qed.

Lemma first_fit_none aligned B : first_fit aligned B = None <-> Forall (fun y => fits aligned y = false) B.
Proof.
  induction B as [|y B IH]; cbn [first_fit]; [by split; [constructor|]|].
  rewrite list.Forall_cons, <- IH. destruct (fits aligned y); [by split; [|intros []]|].
  destruct (first_fit aligned B) as [[[? ?] ?]|]; [by split; [|intros []]|done].
Qed.

Lemma tiled_length a B e : tiled a B e -> HEADER_SIZE * Z.of_nat (length B) <= e - a.
Proof.
  revert a. induction B as [|x B IH]; intros a; cbn [tiled length]; [lia|].
  intros (<- & Hs & _ & Ht%IH). unfold b_end, HEADER_SIZE in *. lia.
Qed.

Lemma block_fuel_enough h B : heap_ok h B -> (length B <= block_fuel h)%nat.
Proof.
  intros [_ _ _ Ht%tiled_length _ _ _]. unfold block_fuel, HEADER_SIZE in *. zlia.
Qed.

Lemma find_linked fuel h p C a e aligned :
  linked (heap_mem h) p C 0 -> tiled a C e -> 0 < a -> (length C <= fuel)%nat ->
  find_block fuel (next_addr C 0) aligned h =
  (Some ((fun r => b_addr r.1.2) <$> first_fit aligned C), h).
Proof.
  revert fuel p a. induction C as [|x C IH]; intros fuel p a; [by destruct fuel|].
  intros [Hx Hl] (Hxa & Hs & _ & Ht) Ha Hf. destruct fuel as [|fuel]; [cbn in Hf; lia|].
  cbn [find_block next_addr]. rewrite (proj2 (Z.eqb_neq (b_addr x) 0)) by lia.
  do 3 erewrite exec_bind_some by reflexivity.
  rewrite (header_magic _ _ _ _ Hx), (header_size _ _ _ _ Hx), (header_flags _ _ _ _ Hx), Z.eqb_refl.
  cbn [first_fit]. unfold fits.
  replace (heap_block_free (if b_free x then KERNEL_HEAP_FREE else 0)) with (b_free x) by by destruct (b_free x).
  cbn [andb]. destruct (_ && _); [done|]. erewrite exec_bind_some by reflexivity.
  rewrite (header_next _ _ _ _ Hx).
  rewrite (IH fuel (b_addr x) (b_end x)) by (done || (cbn in Hf; lia) || (unfold b_end, HEADER_SIZE; lia)).
  by destruct (first_fit aligned C) as [[[? ?] ?]|].
Qed.

Lemma find_block_spec h B aligned :
  heap_ok h B ->
  find_block (block_fuel h) (heap_first h) aligned h =
  (Some ((fun r => b_addr r.1.2) <$> first_fit aligned B), h).
Proof.
  intros Hok. pose proof Hok as [_ [Hb _] _ Ht Hl Hf _]. rewrite Hf.
  by eapply find_linked; [exact Hl|exact Ht|lia|apply block_fuel_enough].
Qed.

(** ** The pages behind the window *)

(** [backed info k root F base size P]: the window of [size] bytes at [base] is
    mapped, readable and writable, to the distinct pages [P], which are neither
    free nor page tables. *)
Record backed (info : CvmBootInfo) (k : Kernel) (root : Z) (F : list Z) (base size : Z) (P : list Z) : Prop := {
  backed_inv : kernel_inv info k root F;
  backed_root : kernel_ptbr k = root;
  backed_size : size = KERNEL_PAGE_SIZE * Z.of_nat (length P);
  backed_pages : Forall (page_ok info) P;
  backed_distinct : NoDup P;
  backed_owned : forall p, p ∈ P -> (p ∉ F) /\ ~ is_table (k_ram k) root p;
  backed_map : forall i p o access, P !! i = Some p -> 0 <= o < KERNEL_PAGE_SIZE ->
    permission_granted pte_rw false access = true ->
    mmu_translate (k_ram k) root false (base + KERNEL_PAGE_SIZE * Z.of_nat i + o) access = inl (p + o);
}.

(** The bytes of the pages [P] did not change. *)
Definition pages_same (P : list Z) (r r' : RAM) : Prop :=
  forall p b, p ∈ P -> in_page p b -> ram_byte r' b = ram_byte r b.

#[export] Instance pages_same_preorder P : PreOrder (pages_same P).
Proof.
  split; [done|]. intros r1 r2 r3 H1 H2 p b Hp Hb. by rewrite (H2 p b Hp Hb), (H1 p b Hp Hb).
Qed.

Lemma backed_kernel_inv info k root F p :
  kernel_inv info k root F -> is_table (k_ram k) root p -> p ∉ F.
Proof. intros [_ Ht] (q & Hq & Htq). by apply (tables_page _ _ _ _ Ht q). Qed.

(** A change of free or allocated pages that are no tables. *)
Lemma untouched_inv info k root F k' F' G :
  kernel_inv info k root F -> pmm_inv info k' F' -> changes_only G (k_ram k) (k_ram k') ->
  Forall page_aligned G -> (forall t, is_table (k_ram k) root t -> (t ∉ G) /\ t ∉ F') ->
  kernel_inv info k' root F' /\ same_translation (k_ram k) (k_ram k') root /\
  (forall t, is_table (k_ram k') root t -> is_table (k_ram k) root t).
Proof.
  intros Hinv Hp Hch HG Hn. destruct (kernel_inv_ram _ _ _ _ Hinv) as [Hr Hs].
  destruct (untouched_tables info (k_ram k) (k_ram k') root F F' G) as (Ht & Htr & Hit);
    [done|done|apply Hinv|done|done|done|]. by split_and!.
Qed.

Lemma page_in_other p q b : page_aligned p -> page_aligned q -> in_page p b -> in_page q b -> p = q.
Proof.
  intros Hp Hq H1 H2. destruct (decide (p = q)) as [|Hne]; [done|].
  destruct (pages_disjoint p q Hp Hq Hne); unfold in_page in *; lia.
Qed.

(** A page that is neither free nor a table keeps its contents. *)
Lemma step_owned info root k F k' F' q :
  kernel_inv info k root F -> kernel_step info root k F k' F' -> page_ok info q -> q ∉ F ->
  ~ is_table (k_ram k) root q ->
  (q ∉ F') /\ ~ is_table (k_ram k') root q /\ forall b, in_page q b -> ram_byte (k_ram k') b = ram_byte (k_ram k) b.
Proof.
  intros Hinv [_ Hsub _ _ Hb Ht] [Hqa _] Hq Hnt. split_and!.
  - intros HqF. apply Hq. by eapply elem_of_submseteq.
  - intros H. by destruct (Ht q H).
  - intros b Hqb. apply Hb.
    + intros p Hp Hpb. apply Hq. rewrite (page_in_other q p b); [done|done| |done|done].
      by apply (proj1 (list.Forall_forall _ _) (inv_pages _ _ _ (kernel_pmm _ _ _ _ Hinv)) p Hp).
    + intros t Hit Htb. apply Hnt. rewrite (page_in_other q t b); [done|done| |done|done].
      destruct Hit as (l & Hl & Htl). by apply (tables_page _ _ _ _ (kernel_tables _ _ _ _ Hinv) l t Hl Htl).
Qed.

Lemma same_owned G k k' P :
  changes_only G (k_ram k) (k_ram k') -> Forall page_aligned G -> Forall page_aligned P ->
  (forall p, p ∈ P -> p ∉ G) -> pages_same P (k_ram k) (k_ram k').
Proof.
  intros (_ & _ & H) HG HP Hd p b Hp Hb. apply H. intros q Hq Hqb. apply (Hd p Hp).
  rewrite list.Forall_forall in HG, HP. by rewrite (page_in_other p q b (HP p Hp) (HG q Hq) Hb Hqb).
Qed.

(** Changes of other pages leave the window as it is. *)
Lemma backed_frame info k root F base size P k' F' G :
  backed info k root F base size P -> pmm_inv info k' F' -> pmm_same k k' ->
  changes_only G (k_ram k) (k_ram k') -> Forall page_aligned G ->
  (forall t, is_table (k_ram k) root t -> (t ∉ G) /\ t ∉ F') -> (forall p, p ∈ P -> (p ∉ G) /\ p ∉ F') ->
  backed info k' root F' base size P /\ pages_same P (k_ram k) (k_ram k') /\
  (forall t, is_table (k_ram k') root t -> is_table (k_ram k) root t).
Proof.
  intros [Hinv Hroot Hsize Hpages Hd Hown Hmap] Hp Hs Hch HG Ht HP.
  destruct (untouched_inv info k root F k' F' G Hinv Hp Hch HG Ht) as (Hinv' & Htr & Hit).
  split_and!; [|apply (same_owned G); [done|done|by eapply page_ok_aligned|intros q Hq; by apply HP]|done].
  split; try done.
  - by rewrite (same_ptbr _ _ Hs).
  - intros p Hin. split; [by apply HP|]. intros Htp. by apply (Hown p Hin), Hit.
  - intros i p o access Hi Ho Ha. rewrite Htr. by apply Hmap.
Qed.

Lemma backed_alloc info k root F base size P :
  backed info k root F base size P ->
  match kernel_pmm_alloc_page k with
  | (Some p, k') => exists F', F ≡ₚ (p :: F') /\ backed info k' root F' base size P /\ page_ok info p /\
      (p ∉ P) /\ (p ∉ F') /\ ~ is_table (k_ram k') root p /\ pages_same P (k_ram k) (k_ram k') /\
      page_zero (k_ram k') p
  | (None, k') => F = [] /\ backed info k' root [] base size P /\ pages_same P (k_ram k) (k_ram k')
  end.
Proof.
  intros Hb. pose proof Hb as [Hinv _ _ Hpages _ Hown _].
  pose proof (alloc_page_spec info k F (kernel_pmm _ _ _ _ Hinv)) as H.
  destruct (kernel_pmm_alloc_page k) as [[p|] k'].
  - destruct H as (F' & HF & Hp' & Hch & Hz & Hs).
    assert (p ∈ F) as HpF by (rewrite HF; by left).
    assert (forall q, q ∉ F -> (q ∉ [p]) /\ q ∉ F') as Hout.
    { intros q Hq. rewrite HF in Hq. apply not_elem_of_cons in Hq as [? ?]. split; [|done].
      by intros ->%list_elem_of_singleton. }
    assert (p ∉ F') as HpF'.
    { pose proof (inv_distinct _ _ _ (kernel_pmm _ _ _ _ Hinv)) as Hnd. rewrite HF in Hnd.
      by apply NoDup_cons_1_1 in Hnd. }
    pose proof (proj1 (list.Forall_forall _ _) (inv_pages _ _ _ (kernel_pmm _ _ _ _ Hinv)) p HpF) as Hpok.
    destruct (backed_frame info k root F base size P k' F' [p] Hb Hp' Hs Hch) as (Hb' & Hsame & Hit).
    { apply Forall_singleton, Hpok. }
    { intros t Ht. apply Hout. by eapply backed_kernel_inv. }
    { intros q Hq. apply Hout, Hown, Hq. }
    exists F'. split_and!; try done.
    + intros HpP. by destruct (Hown p HpP).
    + intros Ht%Hit. by eapply (backed_kernel_inv info k root F p).
  - destruct H as (-> & Hp' & Hram & Hs). split; [done|].
    destruct (backed_frame info k root [] base size P k' [] [] Hb Hp' Hs) as (Hb' & Hsame & _); try done.
    { by rewrite Hram. }
    { intros t Ht. by split; apply not_elem_of_nil. }
    { intros t Ht. by split; apply not_elem_of_nil. }
Qed.

Lemma backed_free_page info k root F base size P p :
  backed info k root F base size P -> page_ok info p -> p ∉ P -> p ∉ F -> ~ is_table (k_ram k) root p ->
  exists k', kernel_pmm_free_page p k = (Some tt, k') /\ backed info k' root (p :: F) base size P /\
    pages_same P (k_ram k) (k_ram k').
Proof.
  intros Hb Hp HpP HpF Hpt. pose proof Hb as [Hinv _ _ _ _ Hown _].
  destruct (free_page_spec info k F p (kernel_pmm _ _ _ _ Hinv) Hp HpF) as (k' & Hrun & Hp' & Hch & Hs).
  exists k'. split; [done|].
  destruct (backed_frame info k root F base size P k' (p :: F) [p] Hb Hp' Hs Hch) as (Hb' & Hsame & _); [..|done].
  - apply Forall_singleton, Hp.
  - intros t Ht. assert (t <> p) by by intros ->.
    rewrite list_elem_of_singleton, elem_of_cons. pose proof (backed_kernel_inv _ _ _ _ _ Hinv Ht). tauto.
  - intros q Hq. assert (q <> p) by by intros ->. rewrite list_elem_of_singleton, elem_of_cons.
    destruct (Hown q Hq). tauto.
Qed.

Lemma backed_map_page info k root F base size P p :
  backed info k root F base size P -> page_aligned base -> 0 < base ->
  base + size + KERNEL_PAGE_SIZE <= MMU_VIRTUAL_ADDRESS_LIMIT ->
  page_ok info p -> p ∉ P -> p ∉ F -> ~ is_table (k_ram k) root p ->
  match kernel_map_page root (base + size) p pte_rw k with
  | (Some _, k') => exists F', backed info k' root F' base (size + KERNEL_PAGE_SIZE) (P ++ [p]) /\
      pages_same (P ++ [p]) (k_ram k) (k_ram k')
  | (None, k') => exists F', backed info k' root F' base size P /\ pages_same P (k_ram k) (k_ram k') /\
      (p ∉ F') /\ ~ is_table (k_ram k') root p
  end.
Proof.
  intros Hb Hba Hb0 Hlim Hp HpP HpF Hpt. pose proof Hb as [Hinv Hroot Hsize Hpages Hd Hown Hmap].
  destruct (kernel_inv_ram _ _ _ _ Hinv) as [Hr Hram].
  assert (is_u64 p) as Hpu.
  { pose proof (page_ok_word info k p 0 (inv_static _ _ _ (kernel_pmm _ _ _ _ Hinv)) Hp ltac:(lia)) as H.
    by rewrite Z.add_0_r in H. }
  destruct (map_leaf_spec info k root F (base + size) p pte_rw 12 Hinv) as (F' & Hstep & Hres).
  { unfold mmu_shifts. by right; right; left. }
  { done. }
  { done. }
  { unfold KERNEL_PAGE_SIZE in *. lia. }
  change (kernel_map_page root (base + size) p pte_rw k) with (kernel_map_leaf root (base + size) p pte_rw 12 k).
  set (result := kernel_map_leaf root (base + size) p pte_rw 12 k) in *. clearbody result.
  destruct result as [o k']. cbn [fst snd] in *.
  assert (forall q, q ∈ P ++ [p] -> page_ok info q /\ (q ∉ F) /\ ~ is_table (k_ram k) root q) as Hall.
  { rewrite list.Forall_forall in Hpages. intros q [Hq| ->%list_elem_of_singleton]%elem_of_app; [|done].
    split; [by apply Hpages|by apply Hown]. }
  assert (forall q, q ∈ P ++ [p] -> (q ∉ F') /\ ~ is_table (k_ram k') root q) as Hown'.
  { intros q Hq. destruct (Hall q Hq) as (H1 & H2 & H3).
    destruct (step_owned info root k F k' F' q Hinv Hstep H1 H2 H3) as (? & ? & _). done. }
  assert (pages_same (P ++ [p]) (k_ram k) (k_ram k')) as Hsame.
  { intros q b Hq. destruct (Hall q Hq) as (H1 & H2 & H3).
    by apply (step_owned info root k F k' F' q Hinv Hstep H1 H2 H3). }
  destruct o as [[]|].
  - destruct Hres as (_ & _ & _ & Hm). exists F'. split; [|done]. split.
    + apply Hstep.
    + by rewrite (same_ptbr _ _ (kstep_same _ _ _ _ _ _ Hstep)).
    + rewrite length_app. cbn. lia.
    + apply list.Forall_forall. intros q Hq. by apply Hall.
    + apply list.NoDup_app. split_and!; [done| |apply NoDup_singleton]. by intros q Hq ->%list_elem_of_singleton.
    + done.
    + intros i q o access Hi Ho Hacc. rewrite Hm by (unfold KERNEL_PAGE_SIZE in *; lia).
      pose proof (lookup_lt_Some _ _ _ Hi) as Hil. rewrite length_app in Hil. cbn in Hil.
      destruct (decide (i < length P)%nat) as [Hlt|Hge].
      * rewrite decide_False by (change (2 ^ 12) with KERNEL_PAGE_SIZE; unfold KERNEL_PAGE_SIZE in *; lia).
        rewrite lookup_app_l in Hi by done. by apply Hmap.
      * assert (i = length P) as -> by lia. rewrite list_lookup_middle in Hi by done. injection Hi as <-.
        rewrite decide_True by (change (2 ^ 12) with KERNEL_PAGE_SIZE; lia).
        rewrite <- Hsize. rewrite leaf_result_range with (va := base + size);
          [|done|lia|destruct Hp as (_ & Hp & _); lia| | |].
        -- unfold range_result. rewrite Hacc. f_equal. lia.
        -- change (2 ^ 12) with KERNEL_PAGE_SIZE. unfold page_aligned, KERNEL_PAGE_SIZE in *. zlia.
        -- change (2 ^ 12) with KERNEL_PAGE_SIZE. lia.
        -- left. change (2 ^ 12) with KERNEL_PAGE_SIZE. destruct Hp as (_ & _ & Hp). lia.
  - exists F'. assert (p ∈ P ++ [p]) as Hin by (apply elem_of_app; right; by left).
    destruct (Hown' p Hin) as [H1 H2]. split_and!; [|..|done|done].
    + split; try done.
      * apply Hstep.
      * by rewrite (same_ptbr _ _ (kstep_same _ _ _ _ _ _ Hstep)).
      * intros q Hq. apply Hown', elem_of_app. by left.
      * intros i q o access Hi Ho Hacc. rewrite Hres. by apply Hmap.
    + intros q b Hq. apply Hsame, elem_of_app. by left.
Qed.

(** ** Growing the window *)

Lemma pages_same_weaken P Q r r' : pages_same (P ++ Q) r r' -> pages_same P r r'.
Proof. intros H p b Hp. apply H, elem_of_app. by left. Qed.

Lemma on_kernel_run {A} (m : Exec Kernel A) h r k' :
  m (h_kernel h) = (r, k') -> on_kernel m h = (Some r, set_h_kernel k' h).
Proof. intros H. unfold on_kernel. by rewrite H. Qed.

Lemma append_loop_spec info root old needed fuel h F P added :
  backed info (h_kernel h) root F (heap_base h) (old + added) P ->
  page_aligned (heap_base h) -> 0 < heap_base h -> heap_mapped_size h = old + added ->
  heap_base h + old + needed <= MMU_VIRTUAL_ADDRESS_LIMIT -> 0 <= added <= needed ->
  page_aligned added -> page_aligned needed -> needed - added <= KERNEL_PAGE_SIZE * Z.of_nat fuel ->
  exists added' k' F' P',
    append_loop fuel old needed added h = (Some added', set_heap_mapped_size (old + added') (set_h_kernel k' h)) /\
    added <= added' <= needed /\ page_aligned added' /\
    backed info k' root F' (heap_base h) (old + added') (P ++ P') /\
    pages_same P (k_ram (h_kernel h)) (k_ram k').
Proof.
  revert h F P added. induction fuel as [|fuel IH]; intros h F P added Hb Hba Hb0 Hms Hlim Had Haa Hna Hf;
    cbn [append_loop]; destruct (Z.ltb_spec added needed) as [Hlt|Hge]; cbn [negb]; try lia.
  1, 3: exists added, (h_kernel h), F, []; rewrite app_nil_r; split_and!; try done; try lia;
    rewrite <- Hms; by destruct h.
  assert (added + KERNEL_PAGE_SIZE <= needed) as Hroom by (unfold page_aligned, KERNEL_PAGE_SIZE in *; zlia).
  pose proof (backed_alloc info _ root F _ _ P Hb) as Halloc.
  destruct (kernel_pmm_alloc_page (h_kernel h)) as [[p|] k1] eqn:E1;
    erewrite exec_bind_some by (by apply on_kernel_run).
  2:{ destruct Halloc as (-> & Hb1 & Hs1). exists added, k1, [], []. rewrite app_nil_r.
      split_and!; try done; try lia. rewrite <- Hms; by destruct h. }
  destruct Halloc as (F1 & HF & Hb1 & Hp & HpP & HpF & Hpt & Hs1 & _).
  erewrite exec_bind_some by reflexivity.
  assert (0 <= old + added) as Hpos. { pose proof (backed_size _ _ _ _ _ _ _ Hb). unfold KERNEL_PAGE_SIZE in *. lia. }
  cbn [h_kernel heap_base set_h_kernel].
  rewrite wrap64_id by (unfold is_u64, KERNEL_PAGE_SIZE, MMU_VIRTUAL_ADDRESS_LIMIT in *; lia).
  unfold kernel_page_table_root. rewrite (backed_root _ _ _ _ _ _ _ Hb1), <- Z.add_assoc.
  pose proof (backed_map_page info k1 root F1 (heap_base h) (old + added) P p Hb1 Hba Hb0 ltac:(lia) Hp HpP HpF Hpt) as Hmap.
  destruct (kernel_map_page root (heap_base h + (old + added)) p pte_rw k1) as [[[]|] k2] eqn:E2;
    erewrite exec_bind_some by (apply on_kernel_run; exact E2).
  - destruct Hmap as (F2 & Hb2 & Hs2). erewrite exec_bind_some by reflexivity.
    rewrite <- Z.add_assoc in Hb2.
    destruct (IH (set_heap_mapped_size (old + (added + KERNEL_PAGE_SIZE)) (set_h_kernel k2 (set_h_kernel k1 h)))
      F2 (P ++ [p]) (added + KERNEL_PAGE_SIZE)) as (a' & k' & F' & P' & Hrun & Ha & Hal & Hb' & Hs'); try done.
    { unfold KERNEL_PAGE_SIZE in *; lia. }
    { unfold page_aligned, KERNEL_PAGE_SIZE in *; zlia. }
    { unfold KERNEL_PAGE_SIZE in *; lia. }
    exists a', k', F', ([p] ++ P'). rewrite app_assoc. split_and!; try done.
    + unfold KERNEL_PAGE_SIZE in *; lia.
    + lia.
    + etrans; [exact Hs1|]. etrans; [by eapply pages_same_weaken|by eapply pages_same_weaken].
  - destruct Hmap as (F2 & Hb2 & Hs2 & HpF2 & Hpt2).
    destruct (backed_free_page info k2 root F2 _ _ P p Hb2 Hp HpP HpF2 Hpt2) as (k3 & Hrun & Hb3 & Hs3).
    erewrite exec_bind_some by (apply on_kernel_run; exact Hrun).
    exists added, k3, (p :: F2), []. rewrite app_nil_r. split_and!; try done; try lia.
    + rewrite <- Hms; by destruct h.
    + etrans; [exact Hs1|]. by etrans.
Qed.

(** The blocks after [added] bytes were appended to the window that ended at
    [a]. *)
Inductive grown (B : list Block) (a added : Z) : list Block -> Prop :=
  | grown_not : added = 0 -> grown B a added B
  | grown_last A x : 0 < added -> B = A ++ [x] -> b_free x = true ->
      grown B a added (A ++ [mkBlock (b_addr x) (b_size x + added) true])
  | grown_new : 0 < added -> (forall A x, B = A ++ [x] -> b_free x = false) ->
      grown B a added (B ++ [mkBlock a (added - HEADER_SIZE) true]).

Lemma extend_last_ok h A x added :
  heap_ok h (A ++ [x]) -> b_free x = true -> 0 < added -> added mod KERNEL_HEAP_ALIGNMENT = 0 ->
  heap_base h + heap_mapped_size h + added <= heap_limit h ->
  heap_ok (set_heap_mem (store64 (heap_mem h) (b_addr x + size_offset) (b_size x + added))
             (set_heap_mapped_size (heap_mapped_size h + added) h))
    (A ++ [mkBlock (b_addr x) (b_size x + added) true]).
Proof.
  intros Hok Hfree Ha Hal Hlim. destruct (heap_ok_parts _ _ _ _ Hok) as (HlA & Hx & _).
  pose proof Hok as [Hwf Hb Hl Ht _ Hf Hla].
  destruct (tiled_sides _ _ _ _ _ Ht) as (HA & _ & Hxa & He & Hs & Hm & HtA & HtC). cbn in HtC.
  split; cbn [heap_mem heap_base heap_mapped_size heap_limit heap_first heap_last set_heap_mem set_heap_mapped_size].
  - by apply store64_wf.
  - done.
  - split; [lia|apply Hl].
  - apply tiled_app. exists (b_addr x). split; [done|]. cbn. unfold b_end, KERNEL_HEAP_ALIGNMENT in *. cbn.
    split_and!; [done|lia|zlia|lia].
  - apply linked_app. split; [|split; [|done]].
    + apply linked_around; [done|intros y Hy; left; split; [by apply HA|by apply (tiled_bounds _ _ _ _ HtA Hy)]
        |by vm_compute..].
    + destruct Hx as [G1 G2 G3 G4 G5 G6]. rewrite Hfree in G5. unfold b_end in *. unfold_offsets.
      split; unfold_offsets; cbn [b_addr b_size b_free]; header_loads; try done.
      apply wrap64_id. unfold is_u64, MMU_VIRTUAL_ADDRESS_LIMIT in *. lia.
  - rewrite Hf. by rewrite !next_addr_app.
  - by rewrite Hla, !last_addr_snoc.
Qed.

(** The stores that append the block [z]. *)
Definition append_block (m : RAM) (B : list Block) (z : Block) : RAM :=
  let m := write_header m z (last_addr B 0) 0 in
  match list.last B with None => m | Some y => store64 m (b_addr y + next_offset) (b_addr z) end.

Lemma append_linked m a B z :
  tiled a B (b_addr z) -> linked m 0 B 0 -> 0 < a -> is_u64 (b_addr z) -> is_u64 (b_size z) -> b_free z = true ->
  linked (append_block m B z) 0 (B ++ [z]) 0.
Proof.
  intros Ht Hl Ha Hz Hs Hf. pose proof (tiled_le _ _ _ Ht). unfold append_block.
  assert (linked (write_header m z (last_addr B 0) 0) 0 B 0) as Hl1.
  { apply write_header_linked; [done|intros y Hy; left; by apply (tiled_bounds _ _ _ _ Ht Hy)
      |intros y Hy; by apply (tiled_bounds _ _ _ _ Ht Hy)]. }
  assert (is_u64 (last_addr B 0)) as Hlu.
  { unfold last_addr. destruct (list.last B) as [y|] eqn:E; [|done]. cbn. apply last_Some_elem_of in E.
    destruct (tiled_bounds _ _ _ _ Ht E) as (? & ? & ?). unfold b_end, HEADER_SIZE, is_u64 in *. lia. }
  pose proof (write_header_ok m z (last_addr B 0) 0 Hf Hs Hlu ltac:(done)) as Hz1.
  destruct B as [|y A _] using rev_ind; [by cbn in *|].
  rewrite last_snoc, last_addr_snoc in *. apply linked_app in Hl1 as [HlA [[G1 G2 G3 G4 G5 G6] _]].
  destruct (tiled_sides _ _ _ _ _ Ht) as (HA & _ & _ & Hye & Hys & _ & HtA & _).
  apply linked_app. rewrite last_addr_snoc. split; [|split; [|done]].
  - apply linked_app. split; [|split; [|done]].
    + apply linked_around; [done|intros x Hx; left; split; [by apply HA|by apply (tiled_bounds _ _ _ _ HtA Hx)]
        |by vm_compute..].
    + unfold b_end in *. unfold_offsets. split; unfold_offsets; cbn [next_addr]; header_loads; try done. by apply wrap64_id.
  - destruct Hz1 as [K1 K2 K3 K4 K5 K6]. unfold b_end in *. unfold_offsets.
    split; unfold_offsets; cbn [next_addr]; header_loads; done.
Qed.

Lemma keeps_store_outside a B e p m v : tiled a B e -> e <= p -> keeps_used B m (store64 m p v).
Proof.
  intros Ht He y b Hy _ Hb. apply store64_byte. destruct (tiled_bounds _ _ _ _ Ht Hy) as (? & ? & ?). lia.
Qed.

Lemma append_block_keeps m a B z : tiled a B (b_addr z) -> keeps_used B m (append_block m B z).
Proof.
  intros Ht. unfold append_block. transitivity (write_header m z (last_addr B 0) 0).
  - unfold write_header. unfold_offsets.
    repeat (etrans; [|eapply (keeps_store_outside a B (b_addr z)); [done|lia]]). done.
  - destruct (list.last B) as [y|] eqn:E; [|done].
    apply (keeps_store_header _ _ _ y _ _ _ Ht); [by apply last_Some_elem_of|by vm_compute..].
Qed.

Lemma append_block_ok h B added :
  heap_ok h B -> HEADER_SIZE <= added -> added mod KERNEL_HEAP_ALIGNMENT = 0 ->
  heap_base h + heap_mapped_size h + added <= heap_limit h ->
  let z := mkBlock (heap_base h + heap_mapped_size h) (added - HEADER_SIZE) true in
  heap_ok (mkHeap (h_kernel h) (append_block (heap_mem h) B z) (heap_base h) (heap_limit h)
             (heap_mapped_size h + added) (next_addr B (b_addr z)) (b_addr z)) (B ++ [z]).
Proof.
  intros Hok Ha Hal Hlim z. pose proof Hok as [Hwf Hb Hl Ht Hlk Hf Hla]. pose proof (tiled_le _ _ _ Ht).
  split; cbn [heap_mem heap_base heap_mapped_size heap_limit heap_first heap_last].
  - unfold append_block. destruct (list.last B); [apply store64_wf|]; by apply write_header_wf.
  - done.
  - split; [lia|apply Hl].
  - apply tiled_app. exists (b_addr z). split; [done|]. cbn. unfold b_end, KERNEL_HEAP_ALIGNMENT, HEADER_SIZE in *.
    cbn. split_and!; [done|lia|zlia|lia].
  - unfold MMU_VIRTUAL_ADDRESS_LIMIT, HEADER_SIZE in *.
    apply (append_linked _ (heap_base h)); [done|done|lia|unfold is_u64; cbn; lia|unfold is_u64, HEADER_SIZE; cbn; lia|done].
  - by rewrite next_addr_app.
  - by rewrite last_addr_snoc.
Qed.

(** The statements of [heap_append_pages] behind its loop. *)
Definition append_link (old_size added : Z) : Exec Heap unit :=
  h ← exec_get;
  last_flags ← get_field (heap_last h) flags_offset;
  if negb (heap_last h =? 0) && heap_block_free last_flags then
    size ← get_field (heap_last h) size_offset;
    put_field (heap_last h) size_offset (size + added)
  else
    let block := heap_base h + old_size in
    put_field block magic_offset KERNEL_HEAP_MAGIC;;
    put_field block size_offset (added - HEADER_SIZE);;
    put_field block previous_offset (heap_last h);;
    put_field block next_offset 0;;
    put_field block flags_offset KERNEL_HEAP_FREE;;
    put_field block reserved_offset 0;;
    (if negb (heap_last h =? 0) then put_field (heap_last h) next_offset block
     else exec_modify (set_heap_first block));;
    exec_modify (set_heap_last block).

Lemma append_new_run h B old added :
  heap_ok h B -> (forall A x, B = A ++ [x] -> b_free x = false) -> old = heap_mapped_size h ->
  let h1 := set_heap_mapped_size (old + added) h in
  let z := mkBlock (heap_base h + old) (added - HEADER_SIZE) true in
  append_link old added h1 =
  (Some tt, mkHeap (h_kernel h) (append_block (heap_mem h) B z) (heap_base h) (heap_limit h)
              (old + added) (next_addr B (b_addr z)) (b_addr z)).
Proof.
  intros Hok Hfree -> h1 z. pose proof Hok as [_ [Hb _] _ Ht Hlk Hf Hla]. unfold append_link.
  do 2 erewrite exec_bind_some by reflexivity. cbn [h1 heap_last set_heap_mapped_size heap_mem].
  destruct B as [|y A _] using rev_ind.
  - cbn in Hla, Hf. rewrite Hla. done.
  - rewrite Hla, last_addr_snoc. apply linked_app in Hlk as [_ [Hy _]].
    destruct (tiled_sides _ _ _ _ _ Ht) as (_ & _ & Hyb & _).
    rewrite (proj2 (Z.eqb_neq (b_addr y) 0)) by lia. cbn [negb andb].
    rewrite (header_flags _ _ _ _ Hy), (Hfree A y eq_refl). cbn [andb heap_block_free].
    change (heap_block_free 0) with false. cbn [negb].
    do 7 erewrite exec_bind_some by reflexivity.
    unfold append_block. rewrite last_snoc, last_addr_snoc, !next_addr_app in *. cbn [next_addr] in *. cbn.
    rewrite <- Hf. reflexivity.
Qed.

Lemma append_link_spec h B old added :
  heap_ok h B -> old = heap_mapped_size h -> HEADER_SIZE <= added -> added mod KERNEL_HEAP_ALIGNMENT = 0 ->
  heap_base h + old + added <= heap_limit h ->
  exists h' B', append_link old added (set_heap_mapped_size (old + added) h) = (Some tt, h') /\
    heap_ok h' B' /\ grown B (heap_base h + old) added B' /\ keeps_used B (heap_mem h) (heap_mem h') /\
    h_kernel h' = h_kernel h /\ heap_base h' = heap_base h /\ heap_limit h' = heap_limit h /\
    heap_mapped_size h' = old + added.
Proof.
  intros Hok -> Ha Hal Hlim.
  destruct (list.last B) as [x|] eqn:E; [destruct (b_free x) eqn:Hfree|].
  - apply last_Some in E as [A ->]. destruct (heap_ok_parts _ _ _ _ Hok) as (_ & Hx & _).
    pose proof Hok as [_ [Hb _] _ Ht _ _ Hla].
    destruct (tiled_sides _ _ _ _ _ Ht) as (_ & _ & Hyb & _). rewrite last_addr_snoc in Hla.
    eexists _, _. split; [|split; [apply (extend_last_ok h A x added); [done|done|unfold HEADER_SIZE in *; lia|done|done]|]].
    + unfold append_link. do 2 erewrite exec_bind_some by reflexivity.
      cbn [heap_last set_heap_mapped_size heap_mem]. rewrite Hla, (header_flags _ _ _ _ Hx), Hfree.
      rewrite (proj2 (Z.eqb_neq (b_addr x) 0)) by lia. cbn [negb andb].
      change (heap_block_free KERNEL_HEAP_FREE) with true. cbv iota.
      erewrite exec_bind_some by reflexivity. cbn [heap_mem set_heap_mapped_size].
      by rewrite (header_size _ _ _ _ Hx).
    + split_and!; try done.
      * eapply grown_last; [unfold HEADER_SIZE in *; lia|done|done].
      * apply (keeps_store_header _ _ _ x _ _ _ Ht); [apply elem_of_app; right; by left|by vm_compute..].
  - assert (forall A y, B = A ++ [y] -> b_free y = false) as Hn.
    { intros A y ->. rewrite last_snoc in E. by injection E as ->. }
    eexists _, _. split; [by apply append_new_run|]. split; [by apply append_block_ok|].
    split_and!; try done; [apply grown_new; [unfold HEADER_SIZE in *; lia|done]|].
    by apply (append_block_keeps _ (heap_base h)), Hok.
  - apply last_None in E as ->. assert (forall A y, [] = A ++ [y] -> b_free y = false) as Hn.
    { intros A y H. by destruct A. }
    eexists _, _. split; [by apply append_new_run|]. split; [by apply append_block_ok|].
    split_and!; try done; [apply grown_new; [unfold HEADER_SIZE in *; lia|done]|].
    by intros y b ?%elem_of_nil.
Qed.

(** The result of an attempt to grow the window by [minimum_payload] bytes. *)
Record append_result (info : CvmBootInfo) (root : Z) (h : Heap) (B : list Block) (P : list Z)
    (minimum_payload : Z) (r : bool) (h' : Heap) (B' : list Block) (F' P' : list Z) : Prop := {
  append_ok : heap_ok h' B';
  append_grown : exists added, grown B (heap_base h + heap_mapped_size h) added B' /\
    (r = true -> minimum_payload + HEADER_SIZE <= added) /\ (added = 0 \/ HEADER_SIZE < added);
  append_keeps : keeps_used B (heap_mem h) (heap_mem h');
  append_backed : backed info (h_kernel h') root F' (heap_base h') (heap_mapped_size h') (P ++ P');
  append_pages : pages_same P (k_ram (h_kernel h)) (k_ram (h_kernel h'));
  append_base : heap_base h' = heap_base h /\ heap_limit h' = heap_limit h;
}.

Lemma append_nothing info root h B F P n :
  heap_ok h B -> backed info (h_kernel h) root F (heap_base h) (heap_mapped_size h) P ->
  append_result info root h B P n false h B F [].
Proof.
  intros Hok Hb. split; try done; [exists 0; split_and!; [by apply grown_not|done|by left]|]. by rewrite app_nil_r.
Qed.

Lemma heap_append_pages_spec info root h B F P n :
  heap_ok h B -> backed info (h_kernel h) root F (heap_base h) (heap_mapped_size h) P ->
  page_aligned (heap_base h) -> is_u64 n ->
  exists r h' B' F' P', heap_append_pages n h = (Some r, h') /\
    append_result info root h B P n r h' B' F' P'.
Proof.
  intros Hok Hb Hba Hn. unfold heap_append_pages.
  assert (exists B' F' P', append_result info root h B P n false h B' F' P') as (B0 & F0 & P0 & Hno).
  { exists B, F, []. by apply append_nothing. }
  destruct (Z.ltb_spec (KERNEL_SIZE_MAX - HEADER_SIZE) n) as [|H1]; [by exists false, h, B0, F0, P0|].
  destruct (Z.ltb_spec (KERNEL_SIZE_MAX - KERNEL_PAGE_MASK) (n + HEADER_SIZE)) as [|H2];
    [by exists false, h, B0, F0, P0|].
  change (not64 KERNEL_PAGE_MASK) with KERNEL_PTE_ADDRESS_MASK.
  assert (is_u64 (n + HEADER_SIZE + KERNEL_PAGE_MASK)) as Hu.
  { unfold is_u64, KERNEL_SIZE_MAX, UINT64_MAX, KERNEL_PAGE_MASK, KERNEL_PAGE_SIZE, HEADER_SIZE in *. lia. }
  rewrite land_page_mask by done. set (needed := n + HEADER_SIZE + KERNEL_PAGE_MASK - _).
  assert (n + HEADER_SIZE <= needed /\ page_aligned needed /\ 0 < needed) as (Hneed & Hna & Hn0).
  { unfold needed, page_aligned, is_u64, KERNEL_PAGE_MASK, KERNEL_PAGE_SIZE, HEADER_SIZE in *. zlia. }
  clearbody needed. erewrite exec_bind_some by reflexivity.
  destruct (Z.leb_spec (heap_limit h - heap_base h) (heap_mapped_size h)) as [|H3]; cbn [orb];
    [by exists false, h, B0, F0, P0|].
  destruct (Z.ltb_spec (heap_limit h - heap_base h - heap_mapped_size h) needed) as [|H4];
    [by exists false, h, B0, F0, P0|]. clear B0 F0 P0 Hno.
  pose proof Hok as [_ [Hb0 _] [_ Hlim] _ _ _ _].
  destruct (append_loop_spec info root (heap_mapped_size h) needed (Z.to_nat (needed / KERNEL_PAGE_SIZE)) h F P 0)
    as (added & k' & F' & P' & Hrun & Had & Hal & Hb' & Hs'); rewrite ?Z.add_0_r; try done; try lia.
  { unfold page_aligned, KERNEL_PAGE_SIZE in *. zlia. }
  erewrite exec_bind_some by exact Hrun.
  assert (heap_ok (set_h_kernel k' h) B) as Hok' by (by destruct Hok).
  destruct (Z.eqb_spec added 0) as [->|Hne].
  { eexists false, _, B, F', P'. split; [reflexivity|]. rewrite Z.add_0_r in *.
    replace (set_heap_mapped_size (heap_mapped_size h) (set_h_kernel k' h)) with (set_h_kernel k' h) by by destruct h.
    split; try done. exists 0. split_and!; [by apply grown_not|done|by left]. }
  destruct (append_link_spec (set_h_kernel k' h) B (heap_mapped_size h) added Hok' eq_refl)
    as (h' & B' & Hlink & Hok2 & Hgr & Hk & Hhk & Hhb & Hhl & Hhm);
    [unfold page_aligned, KERNEL_PAGE_SIZE, HEADER_SIZE in *; zlia
    |unfold page_aligned, KERNEL_PAGE_SIZE, KERNEL_HEAP_ALIGNMENT in *; zlia|cbn; lia|].
  exists (needed <=? added), h', B', F', P'. split.
  - unfold append_link in Hlink. unfold exec_bind in Hlink |- *. cbn [exec_get get_field exec_bind mret Exec_ret] in Hlink |- *.
    by rewrite Hlink.
  - split; [done| |done| | |done].
    + exists added. split_and!; [done|intros H%Z.leb_le; lia|].
      right. unfold page_aligned, KERNEL_PAGE_SIZE, HEADER_SIZE in *. zlia.
    + by rewrite Hhk, Hhb, Hhm.
    + by rewrite Hhk.
Qed.

(** ** The invariant of the heap *)

(** The blocks in use. *)
Definition used (B : list Block) : list Block := filter (fun x => b_free x = false) B.

Record heap_inv (info : CvmBootInfo) (root : Z) (h : Heap) (B : list Block) (F P : list Z) : Prop := {
  hinv_ok : heap_ok h B;
  hinv_coalesced : coalesced B = true;
  hinv_sizes : Forall (fun x => 0 < b_size x) B;
  hinv_some : B <> [];
  hinv_aligned : page_aligned (heap_base h);
  hinv_backed : backed info (h_kernel h) root F (heap_base h) (heap_mapped_size h) P;
}.

Lemma used_app A C : used (A ++ C) = used A ++ used C.
Proof. apply list.filter_app. Qed.

Lemma used_free x B : b_free x = true -> used (x :: B) = used B.
Proof. intros H. unfold used. rewrite filter_cons_False; [done|]. by rewrite H. Qed.

Lemma used_used x B : b_free x = false -> used (x :: B) = x :: used B.
Proof. intros H. unfold used. by rewrite filter_cons_True. Qed.

Lemma elem_of_used x B : x ∈ used B <-> x ∈ B /\ b_free x = false.
Proof. unfold used. rewrite list_elem_of_filter. tauto. Qed.

Lemma coalesced_split A x C : coalesced (A ++ x :: C) = coalesced (A ++ [x]) && coalesced (x :: C).
Proof.
  induction A as [|y A IH]; [done|]. destruct A as [|z A].
  - cbn [app coalesced]. by rewrite andb_true_r.
  - cbn [app coalesced] in *. rewrite IH. by rewrite andb_assoc.
Qed.

Lemma coalesced_snoc A w x : coalesced (A ++ [w; x]) = coalesced (A ++ [w]) && negb (b_free w && b_free x).
Proof. rewrite coalesced_split. cbn [coalesced]. by rewrite andb_true_r. Qed.

Lemma coalesced_snoc_used A x : b_free x = false -> coalesced (A ++ [x]) = coalesced A.
Proof.
  intros Hx. destruct A as [|w A _] using rev_ind; [done|].
  rewrite <- app_assoc. cbn [app]. rewrite coalesced_snoc, Hx, andb_false_r. apply andb_true_r.
Qed.

Lemma coalesced_cons_used x C : b_free x = false -> coalesced (x :: C) = coalesced C.
Proof. intros Hx. destruct C; [done|]. cbn [coalesced]. by rewrite Hx. Qed.

(** Only whether the neighbouring blocks are free matters. *)
Lemma coalesced_same A x y C : b_free x = b_free y -> coalesced (A ++ x :: C) = coalesced (A ++ y :: C).
Proof.
  intros H. rewrite coalesced_split, (coalesced_split A y). f_equal.
  - destruct A as [|w A _] using rev_ind; [done|]. rewrite <- !app_assoc. cbn [app].
    by rewrite !coalesced_snoc, H.
  - destruct C; [done|]. cbn [coalesced]. by rewrite H.
Qed.

Lemma coalesced_use A x C a :
  coalesced (A ++ x :: C) = true -> b_free x = true ->
  coalesced (A ++ mkBlock (b_addr x) a false :: C) = true.
Proof.
  rewrite coalesced_split. intros [HA HC]%andb_true_iff Hx. rewrite coalesced_split.
  rewrite coalesced_snoc_used, coalesced_cons_used by done. apply andb_true_iff. split.
  - destruct A as [|w A _] using rev_ind; [done|]. rewrite <- app_assoc in HA. cbn [app] in HA.
    rewrite coalesced_snoc in HA. by apply andb_true_iff in HA as [-> _].
  - destruct C as [|y C]; [done|].
    change (negb (b_free x && b_free y) && coalesced (y :: C) = true) in HC. apply andb_true_iff in HC as [_ HC]. exact HC.
Qed.

Lemma grown_used B a added B' : grown B a added B' -> used B' = used B.
Proof.
  intros [|A x _ -> Hx|_ _]; [done|rewrite !used_app|rewrite used_app]; [|apply app_nil_r].
  by rewrite !used_free by done.
Qed.

Lemma grown_coalesced B a added B' : grown B a added B' -> coalesced B = true -> coalesced B' = true.
Proof.
  intros Hg H. destruct Hg as [|A x _ -> Hx|_ Hn]; [done| |].
  - by rewrite (coalesced_same A _ x).
  - destruct B as [|w A _] using rev_ind; [done|]. rewrite <- app_assoc. cbn [app].
    by rewrite coalesced_snoc, (Hn A w eq_refl), H.
Qed.

Lemma grown_sizes B a added B' :
  grown B a added B' -> Forall (fun x => 0 < b_size x) B -> added = 0 \/ HEADER_SIZE < added ->
  Forall (fun x => 0 < b_size x) B'.
Proof.
  intros Hg HB Ha. destruct Hg as [|A x H0 -> Hx|H0 Hn]; [done|..]; rewrite list.Forall_app, list.Forall_singleton in *.
  - destruct HB as [HA HB]. split; [done|]. cbn. lia.
  - split; [done|]. cbn. lia.
Qed.

(** A window that grew enough has a block that fits. *)
Lemma grown_fits B a added B' n :
  grown B a added B' -> 0 < n -> n + HEADER_SIZE <= added -> Forall (fun x => 0 < b_size x) B ->
  first_fit n B' <> None.
Proof.
  intros Hg Hn Ha HB H%first_fit_none.
  destruct Hg as [|A x _ -> Hx|_ _]; [unfold HEADER_SIZE in *; lia|..];
    rewrite list.Forall_app, list.Forall_singleton in H; destruct H as [_ H];
    unfold fits in H; cbn in H; apply Z.leb_gt in H; [|lia].
  rewrite list.Forall_app, list.Forall_singleton in HB. unfold HEADER_SIZE in *. lia.
Qed.

(** ** [kernel_malloc] *)

(** The block handed out of a free block [x], and what is left of it. *)
Definition taken (x : Block) (aligned : Z) : Block :=
  mkBlock (b_addr x)
    (if b_size x <? aligned + HEADER_SIZE + KERNEL_HEAP_ALIGNMENT then b_size x else aligned) false.
Definition rest (x : Block) (aligned : Z) : list Block :=
  if b_size x <? aligned + HEADER_SIZE + KERNEL_HEAP_ALIGNMENT then []
  else [mkBlock (b_addr x + HEADER_SIZE + aligned) (b_size x - aligned - HEADER_SIZE) true].

Lemma take_ok h A x C aligned :
  heap_ok h (A ++ x :: C) -> b_free x = true -> 0 < aligned <= b_size x -> aligned mod KERNEL_HEAP_ALIGNMENT = 0 ->
  exists h', (heap_split (b_addr x) aligned;;
     flags ← get_field (b_addr x) flags_offset;
     put_field (b_addr x) flags_offset (Z.land flags (not64 KERNEL_HEAP_FREE));;
     mret (b_addr x + HEADER_SIZE)) h = (Some (b_addr x + HEADER_SIZE), h') /\
    heap_ok h' (A ++ taken x aligned :: rest x aligned ++ C) /\
    keeps_used (A ++ x :: C) (heap_mem h) (heap_mem h') /\
    h' = set_heap_last (heap_last h') (set_heap_mem (heap_mem h') h).
Proof.
  intros Hok Hx Ha Hal. destruct (split_ok h A x C aligned Hok Hx Ha Hal) as (h1 & Hrun & Hok1 & Hk1 & He1).
  set (y := mkBlock (b_addr x) (b_size (taken x aligned)) true).
  assert (split_blocks x aligned ++ C = y :: rest x aligned ++ C) as Hs.
  { unfold split_blocks, y, taken, rest. destruct (_ <? _); cbn; [|by rewrite Hx].
    f_equal. destruct x; cbn in *. by rewrite Hx. }
  rewrite Hs in Hok1. destruct (heap_ok_parts _ _ _ _ Hok1) as (_ & Hy & _).
  erewrite exec_bind_some by exact Hrun. erewrite exec_bind_some by reflexivity.
  change (b_addr x) with (b_addr y). rewrite (header_flags _ _ _ _ Hy). cbn [y b_free].
  change (Z.land KERNEL_HEAP_FREE (not64 KERNEL_HEAP_FREE)) with 0.
  eexists. split; [reflexivity|]. split; [exact (put_flags_ok h1 A y _ false Hok1)|].
  cbn [heap_mem set_heap_mem heap_last]. split; [|by rewrite He1].
  etrans; [exact Hk1|]. pose proof Hok as [_ _ _ Ht _ _ _].
  apply (keeps_store_header _ _ _ x _ _ _ Ht); [apply elem_of_app; right; by left|by vm_compute..].
Qed.

Lemma taken_coalesced A x C aligned :
  coalesced (A ++ x :: C) = true -> b_free x = true ->
  coalesced (A ++ taken x aligned :: rest x aligned ++ C) = true.
Proof.
  intros H Hx. unfold rest. destruct (_ <? _); [by apply coalesced_use|].
  pose proof (coalesced_use A x C (b_size (taken x aligned)) H Hx) as H1.
  rewrite coalesced_split in H1 |- *. rewrite !coalesced_cons_used in * by done.
  apply andb_true_iff in H1 as [H1 H2]. apply andb_true_iff. split; [exact H1|].
  rewrite coalesced_split in H. apply andb_true_iff in H as [_ H].
  destruct C as [|y C]; [done|].
  change (negb (b_free x && b_free y) && coalesced (y :: C) = true) in H. rewrite Hx in H.
  change (negb (true && b_free y) && coalesced (y :: C) = true). by rewrite H.
Qed.

Lemma taken_sizes A x C aligned :
  Forall (fun x => 0 < b_size x) (A ++ x :: C) -> 0 < aligned ->
  Forall (fun x => 0 < b_size x) (A ++ taken x aligned :: rest x aligned ++ C).
Proof.
  rewrite !list.Forall_app, !list.Forall_cons, list.Forall_app. intros (HA & Hx & HC) Ha.
  unfold taken, rest. cbn [b_size].
  destruct (Z.ltb_spec (b_size x) (aligned + HEADER_SIZE + KERNEL_HEAP_ALIGNMENT)); split_and!; try done.
  rewrite list.Forall_singleton. unfold KERNEL_HEAP_ALIGNMENT in *. cbn. lia.
Qed.

Lemma heap_align_size_spec size aligned :
  is_u64 size -> heap_align_size size = Some aligned ->
  0 < aligned /\ size <= aligned < size + KERNEL_HEAP_ALIGNMENT /\ aligned mod KERNEL_HEAP_ALIGNMENT = 0 /\
  is_u64 aligned.
Proof.
  intros Hs. unfold heap_align_size. destruct (Z.eqb_spec size 0); [done|]. cbn [orb].
  destruct (Z.ltb_spec (KERNEL_SIZE_MAX - (KERNEL_HEAP_ALIGNMENT - 1)) size) as [|Hlim]; [done|].
  intros [= <-]. unfold KERNEL_SIZE_MAX, UINT64_MAX, KERNEL_HEAP_ALIGNMENT, is_u64 in *.
  rewrite land_not64 by (unfold is_u64; lia). change (16 - 1) with (Z.ones 4).
  rewrite Z.ldiff_ones_r, Z.shiftl_mul_pow2, Z.shiftr_div_pow2 by lia.
  change (Z.ones 4) with 15. change (2 ^ 4) with 16. zlia.
Qed.

(** What [kernel_malloc] may do to the heap when it has to give up: grow the
    window. *)
Record heap_step (info : CvmBootInfo) (root : Z) (h : Heap) (B : list Block) (P : list Z)
    (h' : Heap) (B' : list Block) (F' P' : list Z) : Prop := {
  hstep_inv : heap_inv info root h' B' F' (P ++ P');
  hstep_keeps : keeps_used B (heap_mem h) (heap_mem h');
  hstep_pages : pages_same P (k_ram (h_kernel h)) (k_ram (h_kernel h'));
  hstep_window : heap_base h' = heap_base h /\ heap_limit h' = heap_limit h;
}.

Lemma append_step info root h B F P n r h' B' F' P' :
  heap_inv info root h B F P -> append_result info root h B P n r h' B' F' P' -> 0 < n ->
  heap_step info root h B P h' B' F' P' /\ used B' = used B /\ (r = true -> first_fit n B' <> None).
Proof.
  intros [Hok Hc Hs Hne Hal Hb] [Hok' (added & Hg & Hr & Ha) Hk Hb' Hp [Hhb Hhl]] Hn. split_and!.
  - split; [|done..]. split; try done.
    + by eapply grown_coalesced.
    + by eapply grown_sizes.
    + destruct Hg as [|A x ? -> ?|? ?]; [done|by destruct A..|by destruct B].
    + by rewrite Hhb.
  - by eapply grown_used.
  - intros Ht. by eapply grown_fits; [exact Hg|done|apply Hr|].
Qed.

(** Taking the first block that fits. *)
Lemma malloc_found info root h B F P A x C aligned passes :
  heap_inv info root h B F P -> first_fit aligned B = Some (A, x, C) -> 0 < aligned ->
  aligned mod KERNEL_HEAP_ALIGNMENT = 0 ->
  exists h', malloc_loop (S passes) aligned h = (Some (b_addr x + HEADER_SIZE), h') /\
    heap_step info root h B P h' (A ++ taken x aligned :: rest x aligned ++ C) F [] /\
    used (A ++ taken x aligned :: rest x aligned ++ C) ≡ₚ (taken x aligned :: used B) /\
    aligned <= b_size (taken x aligned) /\ h_kernel h' = h_kernel h.
Proof.
  intros [Hok Hc Hs Hne Hal Hb] Hff Ha Hm. destruct (first_fit_some _ _ _ _ _ Hff) as (-> & Hx & Hsz & _).
  cbn [malloc_loop]. erewrite exec_bind_some by reflexivity.
  erewrite exec_bind_some by (by apply find_block_spec). rewrite Hff. cbn [fmap option_fmap option_map fst snd].
  destruct (take_ok h A x C aligned Hok Hx ltac:(lia) Hm) as (h' & Hrun & Hok' & Hk & He).
  exists h'. split; [exact Hrun|]. split_and!.
  - split; rewrite ?app_nil_r; [|done|by rewrite He|by rewrite He].
    split; try done; [by apply taken_coalesced|by apply taken_sizes|by destruct A|by rewrite He|by rewrite He].
  - rewrite !used_app, (used_used (taken x aligned)), used_app, (used_free x) by done.
    replace (used (rest x aligned)) with (@nil Block) by (unfold rest; by destruct (_ <? _)).
    cbn [app]. symmetry. apply Permutation_middle.
  - unfold taken. cbn [b_size]. by destruct (_ <? _).
  - by rewrite He.
Qed.

Lemma heap_step_refl info root h B F P : heap_inv info root h B F P -> heap_step info root h B P h B F [].
Proof. intros H. split; [by rewrite app_nil_r|done..]. Qed.

Lemma keeps_used_sub B B' m m' : (forall x, x ∈ used B -> x ∈ used B') -> keeps_used B' m m' -> keeps_used B m m'.
Proof.
  intros Hs H y b Hy Hf. assert (y ∈ used B) as Hu by by apply elem_of_used.
  apply H; [by apply elem_of_used, Hs|done].
Qed.

Lemma heap_step_trans info root h1 B1 P1 h2 B2 F2 P2 h3 B3 F3 P3 :
  heap_step info root h1 B1 P1 h2 B2 F2 P2 -> heap_step info root h2 B2 (P1 ++ P2) h3 B3 F3 P3 ->
  (forall x, x ∈ used B1 -> x ∈ used B2) -> heap_step info root h1 B1 P1 h3 B3 F3 (P2 ++ P3).
Proof.
  intros [H1 H2 H3 [H4 H5]] [G1 G2 G3 [G4 G5]] Hs. split.
  - by rewrite app_assoc.
  - etrans; [exact H2|]. by eapply keeps_used_sub.
  - etrans; [exact H3|]. by eapply pages_same_weaken.
  - split; congruence.
Qed.

Lemma tiled_aligned a B e x :
  tiled a B e -> a mod KERNEL_HEAP_ALIGNMENT = 0 -> x ∈ B -> b_addr x mod KERNEL_HEAP_ALIGNMENT = 0.
Proof.
  revert a. induction B as [|y B IH]; intros a; cbn [tiled]; [by intros _ _ ?%elem_of_nil|].
  intros (<- & Hs & Hm & Ht) Ha [->|Hx]%elem_of_cons; [done|].
  apply (IH _ Ht); [|done]. unfold b_end, HEADER_SIZE, KERNEL_HEAP_ALIGNMENT in *. zlia.
Qed.

(** The pointer of a block. *)
Definition payload (x : Block) : Z := b_addr x + HEADER_SIZE.

Lemma payload_aligned h B x : heap_ok h B -> x ∈ B -> payload x mod KERNEL_HEAP_ALIGNMENT = 0.
Proof.
  intros [_ [_ Hb] _ Ht _ _ _] Hx. pose proof (tiled_aligned _ _ _ _ Ht Hb Hx).
  unfold payload, HEADER_SIZE, KERNEL_HEAP_ALIGNMENT in *. zlia.
Qed.

(** The result of [kernel_malloc]. *)
Definition malloc_result (info : CvmBootInfo) (root : Z) (h : Heap) (B : list Block) (P : list Z)
    (size : Z) (result : option Z * Heap) : Prop :=
  exists B' F' P', heap_step info root h B P result.2 B' F' P' /\
  match result.1 with
  | Some p => exists x, p = payload x /\ b_free x = false /\ size <= b_size x /\ used B' ≡ₚ (x :: used B)
  | None => used B' = used B /\
      forall aligned, heap_align_size size = Some aligned -> Forall (fun y => fits aligned y = false) B
  end.

Lemma malloc_loop_spec info root h B F P size aligned :
  heap_inv info root h B F P -> is_u64 size -> heap_align_size size = Some aligned ->
  malloc_result info root h B P size (malloc_loop 2 aligned h).
Proof.
  intros Hinv Hs Ha. destruct (heap_align_size_spec _ _ Hs Ha) as (Ha0 & Has & Ham & Hau).
  destruct (first_fit aligned B) as [[[A x] C]|] eqn:Hff.
  - destruct (malloc_found info root h B F P A x C aligned 1 Hinv Hff Ha0 Ham) as (h' & Hrun & Hst & Hu & Hsz & _).
    rewrite Hrun. eexists _, F, []. split; [exact Hst|]. exists (taken x aligned). split_and!; try done. lia.
  - pose proof Hinv as [Hok _ _ _ Hal Hb].
    destruct (heap_append_pages_spec info root h B F P aligned Hok Hb Hal Hau) as (r & h1 & B1 & F1 & P1 & Happ & Hres).
    destruct (append_step info root h B F P aligned r h1 B1 F1 P1 Hinv Hres Ha0) as (Hst1 & Hu1 & Hfit).
    change (malloc_loop 2 aligned) with
      (h ← exec_get; found ← find_block (block_fuel h) (heap_first h) aligned;
       match found with
       | Some block => heap_split block aligned;; flags ← get_field block flags_offset;
           put_field block flags_offset (Z.land flags (not64 KERNEL_HEAP_FREE));; mret (block + HEADER_SIZE)
       | None => grown ← heap_append_pages aligned; if negb grown then exec_fail else malloc_loop 1 aligned
       end).
    erewrite exec_bind_some by reflexivity. erewrite exec_bind_some by (by apply find_block_spec).
    rewrite Hff. cbn [fmap option_fmap option_map]. erewrite exec_bind_some by exact Happ.
    destruct r; cbn [negb].
    + destruct (first_fit aligned B1) as [[[A x] C]|] eqn:Hff1; [|by destruct (Hfit eq_refl)].
      destruct (malloc_found info root h1 B1 F1 (P ++ P1) A x C aligned 0 (hstep_inv _ _ _ _ _ _ _ _ _ Hst1) Hff1 Ha0 Ham)
        as (h' & Hrun & Hst & Hu & Hsz & _).
      rewrite Hrun. eexists _, F1, _. split.
      * eapply heap_step_trans; [exact Hst1|exact Hst|]. by rewrite Hu1.
      * exists (taken x aligned). rewrite <- Hu1. split_and!; try done. lia.
    + exists B1, F1, P1. split; [done|]. split; [done|]. rewrite Ha. intros ? [= <-]. by apply first_fit_none.
Qed.

Lemma malloc_spec info root h B F P size :
  heap_inv info root h B F P -> is_u64 size -> malloc_result info root h B P size (kernel_malloc size h).
Proof.
  intros Hinv Hs. unfold kernel_malloc. destruct (heap_align_size size) as [aligned|] eqn:Ha.
  - erewrite exec_bind_some by reflexivity. erewrite exec_bind_some by reflexivity.
    assert (heap_first h <> 0) as Hne.
    { pose proof Hinv as [[_ [Hb _] _ Ht _ Hf _] _ _ Hne _ _]. rewrite Hf. destruct B as [|x B]; [done|].
      cbn. destruct Ht as (-> & _). lia. }
    rewrite (proj2 (Z.eqb_neq _ _) Hne). by eapply malloc_loop_spec.
  - erewrite exec_bind_none by reflexivity. exists B, F, []. split; [by apply heap_step_refl|].
    split; [done|]. by rewrite Ha.
Qed.

(** ** [kernel_free] *)

Lemma coalesced_tail x C : coalesced (x :: C) = true -> coalesced C = true.
Proof.
  destruct C as [|y C]; [done|]. intros H.
  change (negb (b_free x && b_free y) && coalesced (y :: C) = true) in H. by apply andb_true_iff in H as [_ H].
Qed.

Lemma merge_shape x C :
  coalesced C = true -> Forall (fun x => 0 < b_size x) (x :: C) -> b_free x = true ->
  exists y D, merge_blocks x C = y :: D /\ b_addr y = b_addr x /\ b_free y = true /\ used D = used C /\
    coalesced (y :: D) = true /\ Forall (fun x => 0 < b_size x) (y :: D).
Proof.
  intros Hc Hs Hf. rewrite list.Forall_cons in Hs. destruct Hs as [Hx HC]. destruct C as [|z C].
  { exists x, []. split_and!; try done. by apply list.Forall_singleton. }
  cbn [merge_blocks]. destruct (b_free z) eqn:Hz.
  - eexists _, C. split; [reflexivity|]. rewrite list.Forall_cons in HC. destruct HC as [Hz0 HC].
    split_and!; [done|done|by rewrite used_free| |].
    + destruct C as [|w C]; [done|].
      change (negb (b_free z && b_free w) && coalesced (w :: C) = true) in Hc. rewrite Hz in Hc.
      change (negb (b_free x && b_free w) && coalesced (w :: C) = true). by rewrite Hf.
    + apply list.Forall_cons. split; [|done]. unfold HEADER_SIZE. cbn. lia.
  - exists x, (z :: C). split_and!; try done; [|by apply list.Forall_cons].
    change (negb (b_free x && b_free z) && coalesced (z :: C) = true). by rewrite Hz, andb_false_r.
Qed.

(** The merge with the previous block. *)
Lemma merge_previous_spec info root h A y D F P :
  heap_ok h (A ++ y :: D) -> coalesced A = true -> coalesced (y :: D) = true ->
  Forall (fun x => 0 < b_size x) (A ++ y :: D) -> page_aligned (heap_base h) ->
  backed info (h_kernel h) root F (heap_base h) (heap_mapped_size h) P ->
  b_free y = true ->
  exists h' B', (previous ← get_field (b_addr y) previous_offset;
     previous_flags ← get_field previous flags_offset;
     if negb (previous =? 0) && heap_block_free previous_flags then heap_merge_next previous else mret tt) h =
    (Some tt, h') /\ heap_inv info root h' B' F P /\ used B' = used (A ++ D) /\
    keeps_used (A ++ D) (heap_mem h) (heap_mem h') /\ h_kernel h' = h_kernel h /\
    heap_base h' = heap_base h /\ heap_limit h' = heap_limit h /\ heap_mapped_size h' = heap_mapped_size h.
Proof.
  intros Hok HcA HcD Hs Hal Hb Hy.
  destruct (heap_ok_parts _ _ _ _ Hok) as (HlA & Hyh & _).
  assert (used (A ++ y :: D) = used (A ++ D)) as Hu by by rewrite !used_app, used_free.
  do 2 erewrite exec_bind_some by reflexivity. rewrite (header_previous _ _ _ _ Hyh).
  destruct A as [|w A _] using rev_ind.
  { cbn [last_addr list.last fmap option_fmap option_map default]. exists h, (y :: D). by split_and!. }
  rewrite last_addr_snoc in *. apply linked_app in HlA as [_ [Hw _]]. rewrite (header_flags _ _ _ _ Hw).
  pose proof Hok as [_ [Hb0 _] _ Ht _ _ _]. rewrite <- app_assoc in Ht, Hok. cbn [app] in Ht, Hok.
  destruct (tiled_sides _ _ _ _ _ Ht) as (_ & _ & Hwb & _).
  rewrite (proj2 (Z.eqb_neq (b_addr w) 0)) by lia. cbn [negb andb].
  destruct (b_free w) eqn:Hwf.
  - change (heap_block_free KERNEL_HEAP_FREE) with true. cbv iota.
    destruct (merge_ok h A w (y :: D) Hok) as (h' & Hrun & Hok' & Hk & He).
    cbn [merge_blocks] in Hok'. rewrite Hy, Hwf in Hok'.
    set (z := mkBlock (b_addr w) (b_size w + (HEADER_SIZE + b_size y)) true) in *.
    exists h', (A ++ z :: D). split; [exact Hrun|].
    rewrite !list.Forall_app, list.Forall_singleton, list.Forall_cons in Hs. destruct Hs as ((HsA & Hsw) & Hsy & HsD).
    assert (used (A ++ z :: D) = used ((A ++ [w]) ++ D)) as Huz.
    { rewrite <- app_assoc. cbn [app]. by rewrite !used_app, !used_free. }
    split_and!; try (by rewrite He); [|done|].
    + split; try (by rewrite He); [done| | |by destruct A].
      * rewrite coalesced_split. apply andb_true_iff. split.
        -- change (A ++ [z]) with (A ++ z :: []). by rewrite (coalesced_same A z w).
        -- change (z :: D) with ([] ++ z :: D). by rewrite (coalesced_same [] z y).
      * rewrite list.Forall_app, list.Forall_cons. split_and!; try done. unfold z, HEADER_SIZE; cbn [b_size]; cbn in Hsw, Hsy; lia.
    + eapply keeps_used_sub; [|exact Hk]. intros v. rewrite <- app_assoc. cbn [app].
      by rewrite !used_app, !used_free.
  - change (heap_block_free 0) with false. cbv iota. rewrite <- app_assoc in *. cbn [app] in *.
    exists h, (A ++ w :: y :: D). split_and!; try done; [|by rewrite Hu, <- app_assoc].
    split; try done; [|by destruct A].
    rewrite coalesced_split, coalesced_cons_used, HcD by done. by rewrite HcA.
Qed.

Lemma free_spec info root h B F P x :
  heap_inv info root h B F P -> x ∈ used B ->
  exists h' B', kernel_free (payload x) h = (Some tt, h') /\ heap_inv info root h' B' F P /\
    used B ≡ₚ (x :: used B') /\ keeps_used B' (heap_mem h) (heap_mem h') /\ h_kernel h' = h_kernel h /\
    heap_base h' = heap_base h /\ heap_limit h' = heap_limit h /\ heap_mapped_size h' = heap_mapped_size h.
Proof.
  intros Hinv [Hx Hf]%elem_of_used. pose proof Hinv as [Hok Hc Hs Hne Hal Hb].
  pose proof (payload_aligned _ _ _ Hok Hx) as Hpa.
  pose proof (proj1 (list.Forall_forall _ _) Hs x Hx) as Hxs. cbn in Hxs.
  apply list_elem_of_split in Hx as (A & C & ->).
  destruct (heap_ok_parts _ _ _ _ Hok) as (_ & Hxh & _). pose proof Hok as [_ [Hb0 _] _ Ht _ Hfi _].
  destruct (tiled_sides _ _ _ _ _ Ht) as (_ & _ & Hxa & Hxe & _ & _ & _ & _).
  assert (heap_first h <> 0) as Hfirst.
  { rewrite Hfi. destruct A; cbn; [lia|]. destruct Ht as (-> & _). lia. }
  unfold kernel_free. erewrite exec_bind_some by reflexivity.
  rewrite (proj2 (Z.eqb_neq (payload x) 0)), (proj2 (Z.eqb_neq (heap_first h) 0))
    by (done || (unfold payload, HEADER_SIZE; lia)). cbn [orb].
  unfold b_end in Hxe.
  rewrite (proj2 (Z.ltb_ge (payload x) _)), (proj2 (Z.leb_gt _ (payload x))) by (unfold payload, HEADER_SIZE in *; lia).
  change (KERNEL_HEAP_ALIGNMENT - 1) with (Z.ones 4). rewrite Z.land_ones by lia.
  change (2 ^ 4) with KERNEL_HEAP_ALIGNMENT. rewrite Hpa. cbn [orb Z.eqb negb].
  unfold payload. rewrite Z.add_simpl_r. do 2 erewrite exec_bind_some by reflexivity.
  rewrite (header_magic _ _ _ _ Hxh), (header_flags _ _ _ _ Hxh), Hf, Z.eqb_refl. cbn [negb orb].
  change (heap_block_free 0) with false. cbv iota. change (Z.lor 0 KERNEL_HEAP_FREE) with KERNEL_HEAP_FREE.
  erewrite exec_bind_some by reflexivity.
  set (x1 := mkBlock (b_addr x) (b_size x) true).
  pose proof (put_flags_ok h A x C true Hok) as Hok1. cbv zeta iota in Hok1. fold x1 in Hok1.
  set (h1 := set_heap_mem _ h) in *.
  destruct (merge_ok h1 A x1 C Hok1) as (h2 & Hrun2 & Hok2 & Hk2 & He2).
  change (b_addr x) with (b_addr x1) at 1. erewrite exec_bind_some by exact Hrun2.
  rewrite coalesced_split in Hc. apply andb_true_iff in Hc as [HcA HcC].
  rewrite coalesced_snoc_used in HcA by done. apply coalesced_tail in HcC as HcC'.
  rewrite list.Forall_app in Hs. destruct Hs as [HsA HsC].
  destruct (merge_shape x1 C HcC') as (y & D & Hm & Hya & Hyf & HuD & HcD & HsD).
  { rewrite list.Forall_cons in *. done. }
  { done. }
  rewrite Hm in Hok2. change (b_addr x) with (b_addr x1). rewrite <- Hya.
  destruct (merge_previous_spec info root h2 A y D F P) as (h' & B' & Hrun & Hinv' & Hu & Hk & Hrest);
    try done; [by apply list.Forall_app|by rewrite He2|by rewrite He2|].
  exists h', B'. split; [exact Hrun|]. rewrite He2 in Hrest.
  assert (used (A ++ D) = used (A ++ C)) as HAD by by rewrite !used_app, HuD.
  split_and!; try done; try apply Hrest.
  - rewrite Hu, HAD, !used_app, used_used by done. symmetry. apply Permutation_middle.
  - apply (keeps_used_sub _ (A ++ x1 :: C)).
    { intros v. by rewrite Hu, HAD, !used_app, (used_free x1). }
    transitivity (heap_mem h1).
    { apply (keeps_store_header _ _ _ x1 _ _ _ (ok_tiled _ _ Hok1)); [apply elem_of_app; right; by left|by vm_compute..]. }
    etrans; [exact Hk2|]. eapply keeps_used_sub; [|exact Hk].
    intros v. by rewrite HAD, !used_app, (used_free x1).
Qed.

(** ** [kernel_heap_validate] *)

Lemma validate_suffix fuel h p C a blocks :
  linked (heap_mem h) p C 0 -> tiled a C (heap_base h + heap_mapped_size h) -> coalesced C = true -> 0 < a ->
  (length C <= fuel)%nat -> blocks + Z.of_nat (length C) <= heap_mapped_size h / HEADER_SIZE ->
  last_addr C p = heap_last h ->
  validate_loop fuel h (next_addr C 0) p a blocks = true.
Proof.
  revert fuel p a blocks. induction C as [|x C IH]; intros fuel p a blocks Hl Ht Hc Ha Hf Hbl Hlast.
  { cbn in Ht, Hlast |- *. destruct fuel; cbn; by rewrite Hlast, Ht, !Z.eqb_refl. }
  destruct fuel as [|fuel]; [cbn in Hf; lia|].
  destruct Hl as [Hx Hl]. destruct Ht as (Hxa & Hs & Hm & Ht). pose proof (tiled_le _ _ _ Ht) as Hle.
  rewrite last_addr_cons in Hlast. cbn [validate_loop next_addr].
  rewrite (proj2 (Z.eqb_neq (b_addr x) 0)) by lia.
  rewrite (header_magic _ _ _ _ Hx), (header_size _ _ _ _ Hx), (header_previous _ _ _ _ Hx),
    (header_next _ _ _ _ Hx), (header_flags _ _ _ _ Hx), (header_reserved _ _ _ _ Hx), Hxa, !Z.eqb_refl.
  change (KERNEL_HEAP_ALIGNMENT - 1) with (Z.ones 4). rewrite Z.land_ones by lia.
  change (2 ^ 4) with KERNEL_HEAP_ALIGNMENT. rewrite Hm, Z.eqb_refl.
  unfold b_end in Hle. cbn [length] in Hbl.
  rewrite (proj2 (Z.ltb_ge _ (blocks + 1))), !(proj2 (Z.ltb_ge _ _)) by lia. cbn [orb negb].
  replace (negb (next_addr C 0 =? 0) && heap_block_free (if b_free x then KERNEL_HEAP_FREE else 0) &&
    heap_block_free (load64 (heap_mem h) (next_addr C 0 + flags_offset))) with false.
  - rewrite <- Hxa at 1. rewrite <- Hxa.
    apply IH; [done|exact Ht|by eapply coalesced_tail|unfold b_end, HEADER_SIZE; lia|cbn in Hf; lia|lia|done].
  - destruct C as [|y C]; [done|]. cbn [next_addr]. destruct Hl as [Hy _]. rewrite (header_flags _ _ _ _ Hy).
    change (negb (b_free x && b_free y) && coalesced (y :: C) = true) in Hc.
    apply andb_true_iff in Hc as [Hc _]. destruct (b_free x), (b_free y); try done; by rewrite ?andb_false_r.
Qed.

Lemma validate_ok info root h B F P : heap_inv info root h B F P -> kernel_heap_validate h = true.
Proof.
  intros [Hok Hc _ Hne _ _]. pose proof (block_fuel_enough _ _ Hok) as Hfuel.
  pose proof Hok as [_ [Hb _] _ Ht Hl Hf Hla]. pose proof (tiled_length _ _ _ Ht) as Hlen.
  assert (b_addr <$> list.last B <> None) as Hlast by (destruct B; [done|]; rewrite last_cons; by destruct (list.last B)).
  assert (heap_first h <> 0 /\ heap_last h <> 0 /\ heap_mapped_size h <> 0) as (H1 & H2 & H3).
  { split_and!.
    - rewrite Hf. destruct B as [|x B]; [done|]. destruct Ht as (Hxa & _). cbn. lia.
    - rewrite Hla. unfold last_addr. destruct (list.last B) as [x|] eqn:E; [|done]. cbn.
      apply last_Some_elem_of in E. destruct (tiled_bounds _ _ _ _ Ht E). lia.
    - destruct B; [done|]. cbn [length] in Hlen. unfold HEADER_SIZE in Hlen. lia. }
  unfold kernel_heap_validate.
  rewrite (proj2 (Z.eqb_neq _ _) H1), (proj2 (Z.eqb_neq _ _) H2), (proj2 (Z.eqb_neq _ _) H3). cbn [orb].
  rewrite Hf. apply validate_suffix; try done; try lia.
  unfold block_fuel, HEADER_SIZE in *. zlia.
Qed.

(** ** Writes of a client and [kernel_calloc] *)

(** A write into the payload of a block in use. *)
Lemma write_payload_inv info root h B F P m x :
  heap_inv info root h B F P -> x ∈ used B -> ram_wf m ->
  (forall b, ~ (payload x <= b < b_end x) -> ram_byte m b = ram_byte (heap_mem h) b) ->
  heap_inv info root (set_heap_mem m h) B F P.
Proof.
  intros [Hok Hc Hs Hne Hal Hb] [Hx Hxf]%elem_of_used Hwf Hm. split; try done.
  destruct Hok as [_ H1 H2 H3 H4 H5 H6]. split; try done.
  eapply linked_frame; [exact H4|]. intros y o Hy H0 Ho. apply load64_ext. intros b Hyb. apply Hm.
  pose proof (tiled_bounds _ _ _ _ H3 Hy) as (_ & _ & Hys). pose proof (tiled_bounds _ _ _ _ H3 Hx) as (_ & _ & Hxs).
  destruct (blocks_separate _ _ _ x y H3 Hx Hy) as [->|[?|?]]; unfold payload, b_end, HEADER_SIZE in *; lia.
Qed.

Lemma zero_loop_byte n p m b :
  ram_byte (heap_zero_loop n p m) b = if bool_decide (p <= b < p + Z.of_nat n) then 0 else ram_byte m b.
Proof.
  revert p m. induction n as [|n IH]; intros p m; cbn [heap_zero_loop].
  { rewrite bool_decide_eq_false_2 by lia. done. }
  rewrite IH. destruct (decide (p + 1 <= b < p + 1 + Z.of_nat n)) as [Hin|Hout].
  - by rewrite !bool_decide_eq_true_2 by lia.
  - rewrite (bool_decide_eq_false_2 _ Hout). destruct (decide (b = p)) as [->|Hne].
    + rewrite bool_decide_eq_true_2 by lia. by rewrite ram_byte_set, Z.eqb_refl.
    + rewrite bool_decide_eq_false_2 by lia. by rewrite ram_byte_set, (proj2 (Z.eqb_neq b p)).
Qed.

Lemma zero_loop_wf n p m : ram_wf m -> ram_wf (heap_zero_loop n p m).
Proof.
  revert p m. induction n as [|n IH]; intros p m Hm; [done|]. apply IH.
  apply (store_bytes_wf m p [0]); [done|]. by apply list.Forall_singleton.
Qed.

Lemma used_nodup a B e : tiled a B e -> NoDup (used B).
Proof.
  intros Ht. apply list.NoDup_filter. revert a Ht. induction B as [|x B IH]; intros a; [constructor|].
  intros (_ & Hs & _ & Ht). constructor; [|by eapply IH].
  intros Hx. destruct (tiled_bounds _ _ _ _ Ht Hx). unfold b_end, HEADER_SIZE in *. lia.
Qed.

(** The result of [kernel_calloc]: that of [kernel_malloc], with a cleared
    block. *)
Definition calloc_result (info : CvmBootInfo) (root : Z) (h : Heap) (B : list Block) (P : list Z)
    (count size : Z) (result : option Z * Heap) : Prop :=
  exists B' F' P', heap_step info root h B P result.2 B' F' P' /\
  match result.1 with
  | Some p => exists x, p = payload x /\ b_free x = false /\ 0 < count * size <= b_size x /\
      used B' ≡ₚ (x :: used B) /\
      forall b, p <= b < p + count * size -> ram_byte (heap_mem result.2) b = 0
  | None => used B' = used B
  end.

Lemma calloc_spec info root h B F P count size :
  heap_inv info root h B F P -> is_u64 count -> is_u64 size ->
  calloc_result info root h B P count size (kernel_calloc count size h).
Proof.
  intros Hinv Hc Hs. unfold kernel_calloc.
  destruct (Z.eqb_spec count 0), (Z.eqb_spec size 0), (Z.ltb_spec (KERNEL_SIZE_MAX / size) count) as [|Hmax]; cbn [orb];
    try (exists B, F, []; by split; [apply heap_step_refl|]).
  assert (is_u64 (count * size) /\ 0 < count * size) as [Hu H0].
  { unfold is_u64, KERNEL_SIZE_MAX, UINT64_MAX in *.
    pose proof (Z.mul_div_le 18446744073709551615 size ltac:(lia)). nia. }
  destruct (malloc_spec info root h B F P (count * size) Hinv Hu) as (B' & F' & P' & Hst & Hres).
  destruct (kernel_malloc (count * size) h) as [[p|] h1] eqn:E; cbn [fst snd] in *.
  - destruct Hres as (x & -> & Hxf & Hxs & Hus). erewrite exec_bind_some by exact E.
    erewrite exec_bind_some by reflexivity. set (m := heap_zero_loop _ _ _).
    assert (x ∈ used B') as Hx by (rewrite Hus; by left).
    assert (forall b, ~ (payload x <= b < b_end x) -> ram_byte m b = ram_byte (heap_mem h1) b) as Hout.
    { intros b Hb. unfold m. rewrite zero_loop_byte, bool_decide_eq_false_2; [done|].
      unfold payload, b_end in *. lia. }
    destruct Hst as [Hi Hk Hp Hw]. exists B', F', P'. split.
    + split; [|etrans; [exact Hk|]|done|done].
      * eapply (write_payload_inv _ _ _ _ _ _ _ x); [exact Hi|done|by apply zero_loop_wf; destruct Hi as [[]]|done].
      * intros y b Hy Hyf Hb. apply Hout. intros Hxb.
        assert (y ∈ used B') as Hy' by (rewrite Hus; right; by apply elem_of_used).
        assert (x <> y) as Hne.
        { intros ->. assert (NoDup (used B')) as Hnd by (by eapply used_nodup, ok_tiled, Hi).
          rewrite Hus in Hnd. apply NoDup_cons_1_1 in Hnd. by apply Hnd, elem_of_used. }
        apply elem_of_used in Hx as [Hx _]. apply elem_of_used in Hy' as [Hy' _].
        destruct Hi as [Hok _ _ _ _ _].
        destruct (blocks_separate _ _ _ x y (ok_tiled _ _ Hok) Hx Hy') as [?|[?|?]]; [done|..];
          unfold payload, b_end, HEADER_SIZE in *; lia.
    + exists x. split_and!; try done. intros b Hb. cbn. unfold m.
      rewrite zero_loop_byte, bool_decide_eq_true_2; [done|]. lia.
  - erewrite exec_bind_none by exact E. exists B', F', P'. split; [done|]. by apply Hres.
Qed.

(** ** [kernel_heap_init] *)

Lemma heap_init_spec info h root F h' :
  kernel_inv info (h_kernel h) root F -> kernel_ptbr (h_kernel h) = root -> ram_wf (heap_mem h) ->
  0 <= direct_map_base (kernel_virtual_handoff (h_kernel h)) ->
  0 <= direct_map_size (kernel_virtual_handoff (h_kernel h)) ->
  kernel_heap_init h = (Some tt, h') ->
  exists B F' P', heap_inv info root h' B F' P' /\ used B = [] /\
    heap_limit h' = heap_base h' + KERNEL_HEAP_MAX_SIZE /\
    direct_map_base (kernel_virtual_handoff (h_kernel h)) + direct_map_size (kernel_virtual_handoff (h_kernel h))
      + KERNEL_HEAP_GUARD_SIZE <= heap_base h' /\ heap_limit h' <= KERNEL_DEMAND_TEST_ADDRESS.
Proof.
  intros Hk Hroot Hwf Hb0 Hs0. unfold kernel_heap_init. erewrite exec_bind_some by reflexivity.
  set (base := direct_map_base _) in *. set (size := direct_map_size _) in *.
  destruct (Z.ltb_spec (UINT64_MAX - size) base) as [|H1]; [done|].
  destruct (Z.ltb_spec (UINT64_MAX - KERNEL_HEAP_GUARD_SIZE - (KERNEL_PAGE_SIZE - 1)) (base + size)) as [|H2]; [done|].
  set (top := base + size + KERNEL_HEAP_GUARD_SIZE + KERNEL_PAGE_SIZE - 1).
  assert (is_u64 top) as Htop.
  { unfold top, is_u64, UINT64_MAX, KERNEL_HEAP_GUARD_SIZE, KERNEL_PAGE_SIZE in *. lia. }
  rewrite (land_page_mask top Htop). set (sel := top - top mod KERNEL_PAGE_SIZE).
  assert (page_aligned sel /\ base + size + KERNEL_HEAP_GUARD_SIZE <= sel) as [Hsa Hsb].
  { unfold sel, top, page_aligned, KERNEL_HEAP_GUARD_SIZE, KERNEL_PAGE_SIZE in *. zlia. }
  clearbody sel. clear Htop. clearbody top.
  destruct (Z.leb_spec KERNEL_DEMAND_TEST_ADDRESS sel) as [|H3]; [done|]. cbn [orb].
  destruct (Z.ltb_spec (KERNEL_DEMAND_TEST_ADDRESS - sel) KERNEL_HEAP_MAX_SIZE) as [|H4]; [done|].
  erewrite exec_bind_some by reflexivity.
  set (h0 := mkHeap _ _ _ _ _ _ _).
  unfold KERNEL_DEMAND_TEST_ADDRESS, KERNEL_HEAP_MAX_SIZE, KERNEL_HEAP_GUARD_SIZE in *.
  assert (heap_ok h0 []) as Hok.
  { split; try done; cbn.
    - unfold page_aligned, KERNEL_PAGE_SIZE, KERNEL_HEAP_ALIGNMENT in *. split; [lia|zlia].
    - unfold MMU_VIRTUAL_ADDRESS_LIMIT. lia.
    - lia. }
  assert (backed info (h_kernel h0) root F (heap_base h0) (heap_mapped_size h0) []) as Hb.
  { split; try done; [constructor|by intros p ?%elem_of_nil]. }
  destruct (heap_append_pages_spec info root h0 [] F [] KERNEL_PAGE_SIZE Hok Hb) as (r & h1 & B & F' & P' & Hrun & Hres);
    [done|done|].
  erewrite exec_bind_some by exact Hrun. destruct r; [|done]. intros [= <-].
  destruct Hres as [Hok' (added & Hg & Hr & Ha) Hkp Hb' Hp [Hhb Hhl]]. specialize (Hr eq_refl).
  exists B, F', P'. split_and!; [|by apply grown_used in Hg|by rewrite Hhl, Hhb|by rewrite Hhb|rewrite Hhl; cbn; lia].
  split; try done.
  - by eapply grown_coalesced.
  - by eapply grown_sizes.
  - destruct Hg as [|A x ? He ?|? ?]; [unfold HEADER_SIZE, KERNEL_PAGE_SIZE in *; lia|by destruct A|done].
  - by rewrite Hhb.
Qed.

(** ** Clients *)

(** What a client of the heap does: call the allocator, and write bytes inside
    what it holds.  [live] lists the pointers it holds with the sizes it asked
    for. *)
Inductive heap_run (h0 : Heap) : Heap -> list (Z * Z) -> Prop :=
  | run_init h : kernel_heap_init h0 = (Some tt, h) -> heap_run h0 h []
  | run_malloc h live size r h' : heap_run h0 h live -> is_u64 size -> 0 < size ->
      kernel_malloc size h = (r, h') ->
      heap_run h0 h' (match r with Some p => (p, size) :: live | None => live end)
  | run_calloc h live count size r h' : heap_run h0 h live -> is_u64 count -> is_u64 size ->
      kernel_calloc count size h = (r, h') ->
      heap_run h0 h' (match r with Some p => (p, count * size) :: live | None => live end)
  | run_free h live p n live' h' : heap_run h0 h live -> live ≡ₚ ((p, n) :: live') ->
      kernel_free p h = (Some tt, h') -> heap_run h0 h' live'
  | run_store h live p n a v : heap_run h0 h live -> (p, n) ∈ live -> p <= a < p + n -> is_u8 v ->
      heap_run h0 (set_heap_mem (ram_set_byte (heap_mem h) a v) h) live.

(** The pointers a client holds are the blocks in use. *)
Definition holds (B : list Block) (live : list (Z * Z)) : Prop :=
  exists L : list (Block * Z), live ≡ₚ ((fun e => (payload e.1, e.2)) <$> L) /\ L.*1 ≡ₚ used B /\
    Forall (fun e => 0 < e.2 <= b_size e.1) L.

Lemma holds_add B B' live x n :
  holds B live -> used B' ≡ₚ (x :: used B) -> 0 < n <= b_size x -> holds B' ((payload x, n) :: live).
Proof.
  intros (L & H1 & H2 & H3) Hu Hn. exists ((x, n) :: L). rewrite !fmap_cons. cbn [fst snd].
  split_and!; [by rewrite H1|by rewrite H2, Hu|by constructor].
Qed.

Lemma holds_used B live p n : holds B live -> (p, n) ∈ live -> exists x, x ∈ used B /\ p = payload x /\ 0 < n <= b_size x.
Proof.
  intros (L & H1 & H2 & H3) Hin. rewrite H1, list_elem_of_fmap in Hin. destruct Hin as ([x n'] & [= -> ->] & Hin).
  exists x. split_and!; try done.
  - rewrite <- H2. apply list_elem_of_fmap. by exists (x, n').
  - by apply (proj1 (list.Forall_forall _ _) H3 (x, n')).
  - by apply (proj1 (list.Forall_forall _ _) H3 (x, n')).
Qed.

Lemma payload_inj a B e x y : tiled a B e -> x ∈ B -> y ∈ B -> payload x = payload y -> x = y.
Proof.
  intros Ht Hx Hy Hp. destruct (tiled_bounds _ _ _ _ Ht Hx) as (_ & _ & ?). destruct (tiled_bounds _ _ _ _ Ht Hy) as (_ & _ & ?).
  destruct (blocks_separate _ _ _ _ _ Ht Hx Hy) as [?|[?|?]]; [done|..]; unfold payload, b_end, HEADER_SIZE in *; lia.
Qed.

Lemma holds_remove a e B B' live p n live' x :
  tiled a B e -> holds B live -> live ≡ₚ ((p, n) :: live') -> x ∈ used B -> p = payload x ->
  used B ≡ₚ (x :: used B') -> holds B' live'.
Proof.
  intros Ht (L & H1 & H2 & H3) Hl Hx -> Hu.
  assert ((payload x, n) ∈ (fun e => (payload e.1, e.2)) <$> L) as Hin by (rewrite <- H1, Hl; by left).
  apply list_elem_of_fmap in Hin as ([y n'] & [= Hxy ->] & Hin).
  assert (y ∈ used B) as Hy by (rewrite <- H2; apply list_elem_of_fmap; by exists (y, n')).
  assert (x = y) as <-.
  { apply elem_of_used in Hx as [Hx _], Hy as [Hy _]. by eapply payload_inj. }
  apply elem_of_Permutation in Hin as [L' HL]. exists L'. split_and!.
  - apply (Permutation.Permutation_cons_inv (a := (payload x, n'))). by rewrite <- Hl, H1, HL.
  - apply (Permutation.Permutation_cons_inv (a := x)). by rewrite <- Hu, <- H2, HL.
  - rewrite HL in H3. by apply Forall_cons_1 in H3 as [_ H3].
Qed.

(** What [kernel_heap_init] finds: the tables of the kernel, in use. *)
Record heap_start (info : CvmBootInfo) (root : Z) (F : list Z) (h : Heap) : Prop := {
  start_kernel : kernel_inv info (h_kernel h) root F;
  start_root : kernel_ptbr (h_kernel h) = root;
  start_wf : ram_wf (heap_mem h);
  start_direct_base : 0 <= direct_map_base (kernel_virtual_handoff (h_kernel h));
  start_direct_size : 0 <= direct_map_size (kernel_virtual_handoff (h_kernel h));
}.

Lemma run_inv info root F0 h0 h live :
  heap_start info root F0 h0 -> heap_run h0 h live ->
  exists B F P, heap_inv info root h B F P /\ holds B live.
Proof.
  intros [Hk Hr Hwf Hdb Hds]. induction 1 as [h Hinit|h live size r h' _ (B & F & P & Hinv & Hl) Hs H0 Hm
    |h live count size r h' _ (B & F & P & Hinv & Hl) Hc Hs Hm
    |h live p n live' h' _ (B & F & P & Hinv & Hl) Hp Hm
    |h live p n a v _ (B & F & P & Hinv & Hl) Hp Ha Hv].
  - destruct (heap_init_spec info h0 root F0 h Hk Hr Hwf Hdb Hds Hinit) as (B & F & P & Hinv & Hu & _).
    exists B, F, P. split; [done|]. exists []. by rewrite Hu.
  - destruct (malloc_spec info root h B F P size Hinv Hs) as (B' & F' & P' & Hst & Hres). rewrite Hm in *. cbn in *.
    exists B', F', (P ++ P'). split; [apply Hst|]. destruct r as [p|].
    + destruct Hres as (x & -> & _ & Hx & Hu). eapply holds_add; [done..|lia].
    + destruct Hres as [Hu _]. destruct Hl as (L & HL). exists L. by rewrite Hu.
  - destruct (calloc_spec info root h B F P count size Hinv Hc Hs) as (B' & F' & P' & Hst & Hres). rewrite Hm in *. cbn in *.
    exists B', F', (P ++ P'). split; [apply Hst|]. destruct r as [p|].
    + destruct Hres as (x & -> & _ & Hx & Hu & _). by eapply holds_add.
    + destruct Hl as (L & HL). exists L. by rewrite Hres.
  - destruct (holds_used B live p n Hl) as (x & Hx & -> & _); [rewrite Hp; by left|].
    destruct (free_spec info root h B F P x Hinv Hx) as (h1 & B' & Hrun & Hinv' & Hu & _).
    rewrite Hrun in Hm. injection Hm as <-. exists B', F, P. split; [done|].
    by eapply holds_remove; [apply Hinv|done..].
  - destruct (holds_used B live p n Hl Hp) as (x & Hx & -> & Hn). exists B, F, P. split; [|done].
    eapply write_payload_inv; [done|done| |].
    + apply (store_bytes_wf _ a [v]); [apply Hinv|by apply list.Forall_singleton].
    + intros b Hb. rewrite ram_byte_set, (proj2 (Z.eqb_neq b a)); [done|]. unfold payload, b_end in *. lia.
Qed.

(** Two entries of a list without duplicate blocks. *)
Lemma holds_disjoint a e B live i j p n q k :
  tiled a B e -> holds B live -> i <> j -> live !! i = Some (p, n) -> live !! j = Some (q, k) ->
  p + n <= q \/ q + k <= p.
Proof.
  intros Ht (L & H1 & H2 & H3) Hij Hi Hj.
  assert (NoDup (payload <$> L.*1)) as Hnd.
  { rewrite H2. apply NoDup_fmap_2_strong; [|by eapply used_nodup].
    intros x y [Hx _]%elem_of_used [Hy _]%elem_of_used. by eapply payload_inj. }
  assert (live.*1 ≡ₚ payload <$> L.*1) as Hp by (by rewrite H1, <- !list_fmap_compose).
  rewrite <- Hp in Hnd.
  assert (p <> q) as Hne.
  { intros ->. apply Hij. eapply (NoDup_lookup _ _ _ q Hnd); rewrite list_lookup_fmap; by rewrite ?Hi, ?Hj. }
  destruct (holds_used B live p n) as (x & [Hx _]%elem_of_used & -> & Hn); [by exists L|by eapply list_elem_of_lookup_2|].
  destruct (holds_used B live q k) as (y & [Hy _]%elem_of_used & -> & Hk); [by exists L|by eapply list_elem_of_lookup_2|].
  destruct (blocks_separate _ _ _ _ _ Ht Hx Hy) as [->|[?|?]]; [done|..]; unfold payload, b_end, HEADER_SIZE in *; lia.
Qed.

(** *** The self test as a client *)

Lemma exec_try_inv {S A} (m : Exec S A) s r s' : exec_try m s = (Some r, s') -> m s = (r, s').
Proof. unfold exec_try. destruct (m s). by intros [= <- <-]. Qed.

(** [client h0 live m live']: [m], run by the client that holds [live], leaves
    it with [live'] when it succeeds. *)
Definition client {A} (h0 : Heap) (live : list (Z * Z)) (m : Exec Heap A) (live' : A -> list (Z * Z)) : Prop :=
  forall h a h', heap_run h0 h live -> m h = (Some a, h') -> heap_run h0 h' (live' a).

Section client_rules.
Context (h0 : Heap).

Lemma client_bind {A C} L (m : Exec Heap A) (f : A -> Exec Heap C) L1 L2 :
  client h0 L m L1 -> (forall a, client h0 (L1 a) (f a) L2) -> client h0 L (exec_bind m f) L2.
Proof.
  intros Hm Hf h c h' Hr (a & h1 & E1 & E2)%exec_bind_inv. eapply Hf; [|exact E2]. by eapply Hm.
Qed.

Lemma client_fail {A} L L' : client h0 L (@exec_fail Heap A) L'.
Proof. by intros h a h' _. Qed.

Lemma client_guard L b : client h0 L (exec_guard b) (fun _ => L).
Proof. intros h [] h' Hr [_ ->]%exec_guard_inv. done. Qed.

Lemma client_get L : client h0 L exec_get (fun _ => L).
Proof. by intros h a h' Hr [= <- <-]. Qed.

Lemma client_try_malloc L size :
  is_u64 size -> 0 < size ->
  client h0 L (exec_try (kernel_malloc size)) (fun r => match r with Some p => (p, size) :: L | None => L end).
Proof. intros Hs H0 h r h' Hr E%exec_try_inv. by eapply run_malloc. Qed.

Lemma client_malloc L size :
  is_u64 size -> 0 < size -> client h0 L (kernel_malloc size) (fun p => (p, size) :: L).
Proof. intros Hs H0 h p h' Hr E. by apply (run_malloc h0 h L size (Some p) h'). Qed.

Lemma client_calloc L count size :
  is_u64 count -> is_u64 size -> client h0 L (kernel_calloc count size) (fun p => (p, count * size) :: L).
Proof. intros Hc Hs h p h' Hr E. by apply (run_calloc h0 h L count size (Some p) h'). Qed.

Lemma client_overflow L count size :
  (forall h, kernel_calloc count size h = (None, h)) -> client h0 L (exec_try (kernel_calloc count size)) (fun _ => L).
Proof. intros Hn h r h' Hr E%exec_try_inv. rewrite Hn in E. by injection E as _ <-. Qed.

Lemma client_free L p n L' : L ≡ₚ ((p, n) :: L') -> client h0 L (kernel_free p) (fun _ => L').
Proof. intros HL h [] h' Hr E. by eapply run_free. Qed.

Lemma client_store L p n a v :
  (p, n) ∈ L -> p <= a < p + n -> client h0 L (heap_store8 a v) (fun _ => L).
Proof.
  intros Hin Ha h [] h' Hr [= <-]. apply (run_store h0 h L p n); [done..|].
  unfold is_u8. apply Z.mod_pos_bound. lia.
Qed.

Lemma client_fill L n bytes size i value :
  (bytes, size) ∈ L -> 0 <= i -> i + Z.of_nat n <= size -> client h0 L (fill_loop n bytes i value) (fun _ => L).
Proof.
  revert i. induction n as [|n IH]; intros i Hin Hi Hn; [by intros h [] h' Hr [= <-]|].
  cbn [fill_loop]. eapply client_bind; [apply (client_store L bytes size); [done|lia]|].
  intros []. apply IH; [done|lia..].
Qed.

Lemma client_compare L n bytes i value : client h0 L (compare_loop n bytes i value) (fun _ => L).
Proof.
  revert i. induction n as [|n IH]; intros i; [by intros h [] h' Hr [= <-]|]. cbn [compare_loop].
  eapply client_bind; [apply client_get|]. intros h. eapply client_bind; [apply client_guard|]. intros []. apply IH.
Qed.

Lemma client_zero_check L n words i : client h0 L (zero_check_loop n words i) (fun _ => L).
Proof.
  revert i. induction n as [|n IH]; intros i; [by intros h [] h' Hr [= <-]|]. cbn [zero_check_loop].
  eapply client_bind; [apply client_get|]. intros h. eapply client_bind; [apply client_guard|]. intros []. apply IH.
Qed.

End client_rules.

(** The next statement of a client. *)
Ltac client_step :=
  eapply client_bind;
    [first [ apply client_guard | apply client_get | apply client_compare | apply client_zero_check
           | apply client_try_malloc; [done|lia] | apply client_malloc; [done|lia] | apply client_calloc; done
           | apply client_overflow; done
           | eapply client_free; reflexivity ]
    | intros ?; cbv beta iota ].

Lemma self_test_client h0 live : client h0 live kernel_heap_self_test (fun _ => live).
Proof.
  unfold kernel_heap_self_test. do 4 client_step.
  destruct a as [small|], a0 as [reusable|], a1 as [medium|], a2 as [large|]; try apply client_fail.
  destruct (_ || _); [apply client_fail|].
  eapply client_bind; [apply (client_store h0 _ small 1); [rewrite !elem_of_cons; tauto|lia]|intros []; cbv beta].
  eapply client_bind; [apply (client_fill h0 _ _ medium 1000); [rewrite !elem_of_cons; tauto|lia|lia]|intros []; cbv beta].
  eapply client_bind; [apply (client_fill h0 _ _ large 5000); [rewrite !elem_of_cons; tauto|lia|lia]|intros []; cbv beta].
  do 2 client_step.
  eapply client_bind;
    [apply (client_free h0 _ reusable 31 ((small, 1) :: (medium, 1000) :: (large, 5000) :: live)); solve_Permutation|].
  intros []. cbv beta. client_step. destruct a1 as [reused|]; [|apply client_fail]. do 4 client_step.
  destruct a4 as [|]; [apply client_fail|]. do 10 client_step. apply client_guard.
Qed.

(** ** A concrete heap *)

Definition demo_heap_start : Heap :=
  mkHeap (set_kernel_ptbr 0x1000 demo_mapped) (mkRAM ∅ 0) 0 0 0 0 0.
Definition demo_heap : Heap := (kernel_heap_init demo_heap_start).2.

(** The page-table base register is no part of the invariant. *)
Lemma kernel_inv_ptbr info k root F v : kernel_inv info k root F -> kernel_inv info (set_kernel_ptbr v k) root F.
Proof.
  intros [[[H1 H2 H3 H4 H5] [H6 H7 H8 H9] H10 H11 H12 H13] Ht]. split; [|done]. by split.
Qed.

Lemma demo_heap_start_ok : heap_start demo_info 0x1000 demo_free demo_heap_start.
Proof.
  split; [apply kernel_inv_ptbr, demo_kernel_inv|reflexivity|by split; [vm_compute|intros i x ?]|by vm_compute..].
Qed.

Lemma demo_heap_init : kernel_heap_init demo_heap_start = (Some tt, demo_heap).
Proof. unfold demo_heap. apply run_result. by vm_compute. Qed.

Lemma demo_heap_inv : exists B F P, heap_inv demo_info 0x1000 demo_heap B F P /\ used B = [].
Proof.
  pose proof demo_heap_start_ok as [H1 H2 H3 H4 H5].
  destruct (heap_init_spec _ _ _ _ _ H1 H2 H3 H4 H5 demo_heap_init) as (B & F & P & Hinv & Hu & _). by exists B, F, P.
Qed.

(** C13: [kernel_malloc] in any heap whose blocks are [B].  The heap keeps its
    shape (headers, links, no two neighbouring free blocks, every byte of the
    window mapped to a page of its own), the contents of the blocks in use do
    not change, and a block that fits is found whenever there is one: the first
    in address order.  A pointer that is returned is aligned to 16 bytes and has
    room for the request; its block is new, the other blocks in use stay.
    [NULL] is returned only when no free block fits, and then no block in use
    was gained or lost. *)
Theorem kernel_malloc_correct info root h B F P size :
  heap_inv info root h B F P -> is_u64 size ->
  let result := kernel_malloc size h in
  (exists B' F' P', heap_step info root h B P result.2 B' F' P' /\
    match result.1 with
    | Some p => exists x, p = payload x /\ p mod KERNEL_HEAP_ALIGNMENT = 0 /\ size <= b_size x /\
        used B' ≡ₚ (x :: used B)
    | None => used B' = used B /\
        forall aligned, heap_align_size size = Some aligned -> Forall (fun y => fits aligned y = false) B
    end) /\
  (forall aligned A x C, heap_align_size size = Some aligned -> first_fit aligned B = Some (A, x, C) ->
    result.1 = Some (payload x)).
Proof.
  intros Hinv Hs result. split.
  - destruct (malloc_spec info root h B F P size Hinv Hs) as (B' & F' & P' & Hst & Hres).
    exists B', F', P'. fold result in Hst, Hres. split; [done|]. destruct result.1; [|done].
    destruct Hres as (x & -> & Hx & Hsz & Hu). exists x. split_and!; try done.
    apply (payload_aligned result.2 B'); [apply Hst|]. eapply elem_of_used. rewrite Hu. by left.
  - intros aligned A x C Ha Hff. destruct (heap_align_size_spec _ _ Hs Ha) as (Ha0 & _ & Ham & _).
    destruct (malloc_found info root h B F P A x C aligned 1 Hinv Hff Ha0 Ham) as (h' & Hrun & _).
    unfold result, kernel_malloc. erewrite exec_bind_some by (rewrite Ha; reflexivity).
    erewrite exec_bind_some by reflexivity. rewrite (proj2 (Z.eqb_neq _ _)); [by rewrite Hrun|].
    pose proof Hinv as [[_ [Hb _] _ Ht _ Hf _] _ _ Hne _ _]. rewrite Hf. destruct B as [|y B]; [done|].
    destruct Ht as (Hy & _). cbn. lia.
Qed.

Lemma kernel_malloc_correct_witness :
  exists B F P, heap_inv demo_info 0x1000 demo_heap B F P /\
  (kernel_malloc 5000 demo_heap).1 = Some (heap_base demo_heap + 48) /\
  exists B' F' P', heap_step demo_info 0x1000 demo_heap B P (kernel_malloc 5000 demo_heap).2 B' F' P'.
Proof.
  destruct demo_heap_inv as (B & F & P & Hinv & _). exists B, F, P. split; [exact Hinv|].
  split; [by vm_compute|].
  destruct (kernel_malloc_correct demo_info 0x1000 demo_heap B F P 5000 Hinv ltac:(done)) as [(B' & F' & P' & Hst & _) _].
  exists B', F', P'. exact Hst.
Defined.

(** [kernel_calloc] returns [NULL] when the product overflows or is zero;
    otherwise what it returns is a new block whose first [count * size] bytes are
    zero, whatever the block contained before, and the blocks in use before keep
    their contents. *)
Theorem kernel_calloc_correct info root h B F P count size :
  heap_inv info root h B F P -> is_u64 count -> is_u64 size ->
  let result := kernel_calloc count size h in
  (UINT64_MAX < count * size \/ count * size = 0 -> result = (None, h)) /\
  exists B' F' P', heap_step info root h B P result.2 B' F' P' /\
    match result.1 with
    | Some p => exists x, p = payload x /\ 0 < count * size <= b_size x /\ used B' ≡ₚ (x :: used B) /\
        forall b, p <= b < p + count * size -> ram_byte (heap_mem result.2) b = 0
    | None => used B' = used B
    end.
Proof.
  intros Hinv Hc Hs result. split.
  - intros Hbad. unfold result, kernel_calloc.
    destruct (Z.eqb_spec count 0), (Z.eqb_spec size 0), (Z.ltb_spec (KERNEL_SIZE_MAX / size) count) as [|Hmax]; try done.
    exfalso. unfold is_u64, KERNEL_SIZE_MAX, UINT64_MAX in *.
    pose proof (Z.mul_div_le 18446744073709551615 size ltac:(lia)). nia.
  - destruct (calloc_spec info root h B F P count size Hinv Hc Hs) as (B' & F' & P' & Hst & Hres).
    exists B', F', P'. fold result in Hst, Hres. split; [done|]. destruct result.1; [|done].
    destruct Hres as (x & Hp & _ & Hx & Hu & Hz). by exists x.
Qed.

Lemma kernel_calloc_correct_witness :
  exists B F P, heap_inv demo_info 0x1000 demo_heap B F P /\
  (kernel_calloc 17 8 demo_heap).1 = Some (heap_base demo_heap + 48) /\
  exists B' F' P', heap_step demo_info 0x1000 demo_heap B P (kernel_calloc 17 8 demo_heap).2 B' F' P'.
Proof.
  destruct demo_heap_inv as (B & F & P & Hinv & _). exists B, F, P. split; [exact Hinv|].
  split; [by vm_compute|].
  destruct (kernel_calloc_correct demo_info 0x1000 demo_heap B F P 17 8 Hinv ltac:(done) ltac:(done))
    as [_ (B' & F' & P' & Hst & _)]. exists B', F', P'. exact Hst.
Defined.

(** [kernel_free] of a pointer that is in use takes exactly its block out of
    use and merges it with free neighbours, so that the heap keeps its shape; the
    contents of every other block in use are unchanged, no page is given back and
    [kernel_heap_validate] accepts the result.  Freeing the same pointer again,
    or [NULL], has no effect when the block is still a block of the heap. *)
Theorem kernel_free_correct info root h B F P x :
  heap_inv info root h B F P -> x ∈ used B ->
  exists h' B', kernel_free (payload x) h = (Some tt, h') /\ heap_inv info root h' B' F P /\
    used B ≡ₚ (x :: used B') /\ keeps_used B' (heap_mem h) (heap_mem h') /\
    h_kernel h' = h_kernel h /\ kernel_heap_validate h' = true /\ kernel_free 0 h' = (Some tt, h') /\
    (forall y, y ∈ B' -> b_free y = true -> kernel_free (payload y) h' = (Some tt, h')).
Proof.
  intros Hinv Hx. destruct (free_spec info root h B F P x Hinv Hx) as (h' & B' & Hrun & Hinv' & Hu & Hk & Hhk & _).
  exists h', B'. split_and!; try done; [by eapply validate_ok|].
  intros y Hy Hf. apply list_elem_of_split in Hy as (A & C & ->).
  destruct (heap_ok_parts _ _ _ _ (hinv_ok _ _ _ _ _ _ Hinv')) as (_ & Hyh & _).
  unfold kernel_free. erewrite exec_bind_some by reflexivity.
  destruct (_ || _); [done|]. destruct (_ || _); [done|].
  unfold payload. rewrite Z.add_simpl_r. do 2 erewrite exec_bind_some by reflexivity.
  rewrite (header_flags _ _ _ _ Hyh), Hf. by rewrite orb_true_r.
Qed.

Lemma kernel_free_correct_witness :
  exists h' B' F' P' x, (kernel_malloc 5000 demo_heap).1 = Some (payload x) /\
    kernel_free (payload x) (kernel_malloc 5000 demo_heap).2 = (Some tt, h') /\
    heap_inv demo_info 0x1000 h' B' F' P' /\ used B' = [].
Proof.
  destruct demo_heap_inv as (B & F & P & Hinv & Hu).
  destruct (malloc_spec demo_info 0x1000 demo_heap B F P 5000 Hinv ltac:(done)) as (B1 & F1 & P1 & Hst & Hres).
  assert ((kernel_malloc 5000 demo_heap).1 = Some (heap_base demo_heap + 48)) as E by by vm_compute.
  rewrite E in Hres. destruct Hres as (x & Hp & Hxf & _ & Hused). rewrite Hu in Hused.
  destruct (kernel_free_correct demo_info 0x1000 (kernel_malloc 5000 demo_heap).2 B1 F1 (P ++ P1) x
    (hstep_inv _ _ _ _ _ _ _ _ _ Hst)) as (h' & B' & Hrun & Hinv' & Hu' & _).
  { rewrite Hused. by left. }
  exists h', B', F1, (P ++ P1), x. rewrite E, Hp. split_and!; [done|exact Hrun|exact Hinv'|].
  rewrite Hused in Hu'. apply Permutation.Permutation_cons_inv in Hu'. by apply Permutation_nil_l in Hu'.
Defined.

(** C12: after any sequence of allocations, releases and writes of a client that
    stays inside what it asked for, the heap is well formed
    ([kernel_heap_validate] returns 0), and the allocations that are live are
    aligned, lie in the window, do not overlap, and every byte of them is mapped
    readable and writable by the hardware's walk of the kernel's tables, bytes
    on different pages of the window to different physical pages. *)
Theorem heap_clients_isolated info root F0 h0 h live :
  heap_start info root F0 h0 -> heap_run h0 h live ->
  kernel_heap_validate h = true /\
  (forall p n, (p, n) ∈ live -> p mod KERNEL_HEAP_ALIGNMENT = 0 /\
     heap_base h + HEADER_SIZE <= p /\ p + n <= heap_base h + heap_mapped_size h /\ 0 < n) /\
  (forall i j p n q k, i <> j -> live !! i = Some (p, n) -> live !! j = Some (q, k) -> p + n <= q \/ q + k <= p) /\
  exists F P, backed info (h_kernel h) root F (heap_base h) (heap_mapped_size h) P.
Proof.
  intros Hstart Hrun. destruct (run_inv info root F0 h0 h live Hstart Hrun) as (B & F & P & Hinv & Hl).
  pose proof (ok_tiled _ _ (hinv_ok _ _ _ _ _ _ Hinv)) as Ht. split_and!.
  - by eapply validate_ok.
  - intros p n Hin. destruct (holds_used B live p n Hl Hin) as (x & [Hx _]%elem_of_used & -> & Hn).
    pose proof (tiled_bounds _ _ _ _ Ht Hx) as (? & ? & ?). split_and!.
    + eapply payload_aligned; [apply Hinv|done].
    + unfold payload. lia.
    + unfold payload, b_end in *. lia.
    + lia.
  - intros i j p n q k. by eapply holds_disjoint.
  - exists F, P. apply Hinv.
Qed.

Lemma heap_clients_isolated_witness :
  exists h live, heap_run demo_heap_start h live /\ length live = 2%nat /\ kernel_heap_validate h = true.
Proof.
  set (h1 := (kernel_malloc 5000 demo_heap).2). set (h2 := (kernel_calloc 17 8 h1).2).
  assert (heap_run demo_heap_start h2
    [(heap_base demo_heap + 5104, 17 * 8); (heap_base demo_heap + 48, 5000)]) as Hrun.
  { apply (run_calloc demo_heap_start h1 [(heap_base demo_heap + 48, 5000)] 17 8
      (Some (heap_base demo_heap + 5104)) h2); [|done|done|].
    - apply (run_malloc demo_heap_start demo_heap [] 5000 (Some (heap_base demo_heap + 48)) h1);
        [exact (run_init demo_heap_start demo_heap demo_heap_init)|done|lia|].
      unfold h1. apply run_result. by vm_compute.
    - unfold h2. apply run_result. by vm_compute. }
  exists h2, [(heap_base demo_heap + 5104, 17 * 8); (heap_base demo_heap + 48, 5000)].
  split; [exact Hrun|]. split; [reflexivity|].
  exact (proj1 (heap_clients_isolated demo_info 0x1000 demo_free demo_heap_start h2 _ demo_heap_start_ok Hrun)).
Defined.

(** [kernel_heap_self_test], run in any reachable state of the heap, is a
    well-behaved client: when it reports success, everything it allocated was
    given back, what other clients hold is what they held before, and
    [kernel_heap_validate] accepts the heap. *)
Theorem heap_self_test_neutral info root F0 h0 h live h' :
  heap_start info root F0 h0 -> heap_run h0 h live -> kernel_heap_self_test h = (Some tt, h') ->
  heap_run h0 h' live /\ kernel_heap_validate h' = true.
Proof.
  intros Hstart Hrun Htest. pose proof (self_test_client h0 live h tt h' Hrun Htest) as Hrun'. split; [done|].
  destruct (run_inv info root F0 h0 h' live Hstart Hrun') as (B & F & P & Hinv & _). by eapply validate_ok.
Qed.

Lemma heap_self_test_neutral_witness :
  heap_run demo_heap_start (kernel_heap_self_test demo_heap).2 [].
Proof.
  apply (heap_self_test_neutral demo_info 0x1000 demo_free demo_heap_start demo_heap [] (kernel_heap_self_test demo_heap).2
    demo_heap_start_ok (run_init demo_heap_start demo_heap demo_heap_init)).
  apply run_result. by vm_compute.
Defined.
