(* ===== verification/KernelRuntime.v ===== *)
(** The byte queues and bitmaps of the kernel: kernel/runtime.c.

    Both keep their storage in memory obtained from the kernel heap; an
    operation reads and writes [heap_mem] at the addresses of that storage.  The
    spin locks make each operation atomic.  The theorems are about clients of the
    heap: an operation stays inside the storage it was given. *)

From S2P Require Import Prelude Ram Ring KernelMem Pmm KernelMmu Heap HeapProof.
From Stdlib Require Import ZArith Lia Bool.
From stdpp Require Import base list numbers gmap option.

#[local] Open Scope Z_scope.

(** ** Byte queues *)

Record KernelByteQueue := mkQueue {
  q_storage : Z;
  q_capacity : Z;
  q_head : Z;
  q_length : Z;
}.

Definition kernel_byte_queue_init (capacity : Z) (h : Heap) : option KernelByteQueue * Heap :=
  if capacity =? 0 then (None, h)
  else match kernel_malloc capacity h with
  | (None, h) => (None, h)
  | (Some storage, h) => (Some (mkQueue storage capacity 0 0), h)
  end.

Definition kernel_byte_queue_destroy (q : KernelByteQueue) (h : Heap) : KernelByteQueue * Heap :=
  (mkQueue 0 0 0 0, (kernel_free (q_storage q) h).2).

Definition kernel_byte_queue_push (q : KernelByteQueue) (value : Z) (h : Heap) : bool * KernelByteQueue * Heap :=
  if q_storage q =? 0 then (false, q, h)
  else if q_length q =? q_capacity q then (false, q, h)
  else
    let tail := wrap64 (q_head q + q_length q) mod q_capacity q in
    (true, mkQueue (q_storage q) (q_capacity q) (q_head q) (q_length q + 1),
     set_heap_mem (ram_set_byte (heap_mem h) (q_storage q + tail) value) h).

Definition kernel_byte_queue_pop (q : KernelByteQueue) (h : Heap) : option Z * KernelByteQueue :=
  if q_storage q =? 0 then (None, q)
  else if q_length q =? 0 then (None, q)
  else
    (Some (ram_byte (heap_mem h) (q_storage q + q_head q)),
     mkQueue (q_storage q) (q_capacity q) (wrap64 (q_head q + 1) mod q_capacity q) (q_length q - 1)).

Definition kernel_byte_queue_size (q : KernelByteQueue) : Z := q_length q.

(** ** Bitmaps *)

Record KernelBitmap := mkBitmap {
  bm_words : Z;
  bm_bit_count : Z;
  bm_word_count : Z;
}.

Definition kernel_bitmap_init (bit_count : Z) (h : Heap) : option KernelBitmap * Heap :=
  if (bit_count =? 0) || (KERNEL_SIZE_MAX - 63 <? bit_count) then (None, h)
  else
    let words := (bit_count + 63) / 64 in
    match kernel_calloc words 8 h with
    | (None, h) => (None, h)
    | (Some storage, h) => (Some (mkBitmap storage bit_count words), h)
    end.

Definition kernel_bitmap_destroy (b : KernelBitmap) (h : Heap) : KernelBitmap * Heap :=
  (mkBitmap 0 0 0, (kernel_free (bm_words b) h).2).

(** [&bitmap->words[bit / 64]] *)
Definition word_address (b : KernelBitmap) (bit : Z) : Z := bm_words b + 8 * (bit / 64).

Definition bitmap_change (b : KernelBitmap) (bit : Z) (set : bool) (h : Heap) : bool * Heap :=
  if (bm_words b =? 0) || (bm_bit_count b <=? bit) then (false, h)
  else
    let mask := bit64 (Z.land bit 63) in
    let word := load64 (heap_mem h) (word_address b bit) in
    (true, set_heap_mem (store64 (heap_mem h) (word_address b bit)
             (if set then Z.lor word mask else Z.land word (not64 mask))) h).

Definition kernel_bitmap_test (b : KernelBitmap) (bit : Z) (h : Heap) : bool :=
  if (bm_words b =? 0) || (bm_bit_count b <=? bit) then false
  else has_bits (load64 (heap_mem h) (word_address b bit)) (bit64 (Z.land bit 63)).

Definition kernel_bitmap_set (b : KernelBitmap) (bit : Z) : Heap -> bool * Heap := bitmap_change b bit true.
Definition kernel_bitmap_clear (b : KernelBitmap) (bit : Z) : Heap -> bool * Heap := bitmap_change b bit false.

(** [for (candidate = ...; candidate < bit_count; ++candidate)], [n] bits left. *)
Fixpoint find_clear_loop (n : nat) (b : KernelBitmap) (candidate : Z) (h : Heap) : option Z * Heap :=
  match n with
  | O => (None, h)
  | S n =>
      let mask := bit64 (Z.land candidate 63) in
      let word := load64 (heap_mem h) (word_address b candidate) in
      if negb (has_bits word mask) then
        (Some candidate, set_heap_mem (store64 (heap_mem h) (word_address b candidate) (Z.lor word mask)) h)
      else find_clear_loop n b (candidate + 1) h
  end.

Definition kernel_bitmap_find_clear_and_set (b : KernelBitmap) (h : Heap) : option Z * Heap :=
  if bm_words b =? 0 then (None, h) else find_clear_loop (Z.to_nat (bm_bit_count b)) b 0 h.

(** ** What they represent *)

(** The bytes of a queue, oldest first. *)
Definition queue_bytes (q : KernelByteQueue) (h : Heap) : list Z :=
  ring (ram_bytes (heap_mem h) (q_storage q) (q_capacity q)) (q_head q) (q_length q).

Record queue_ok (q : KernelByteQueue) : Prop := {
  queue_storage : q_storage q <> 0;
  queue_capacity : is_u64 (q_capacity q);
  queue_head : 0 <= q_head q < q_capacity q;
  queue_length : 0 <= q_length q <= q_capacity q;
  queue_small : q_capacity q <= 2 ^ 63;
}.

Lemma ram_bytes_capacity m a n : 0 <= n -> capacity (ram_bytes m a n) = n.
Proof. intros Hn. unfold capacity. rewrite length_ram_bytes. lia. Qed.

Lemma ram_bytes_get m a n i : 0 <= i < n -> slot_get (ram_bytes m a n) i = ram_byte m (a + i).
Proof.
  intros Hi. unfold slot_get, ram_bytes. apply list_lookup_total_correct.
  rewrite list_lookup_fmap, lookup_seqZ_lt by lia. cbn. do 2 f_equal. lia.
Qed.

Lemma ram_bytes_set m a n i v :
  0 <= i < n -> ram_bytes (ram_set_byte m (a + i) v) a n = slot_set (ram_bytes m a n) i v.
Proof.
  intros Hi. apply list_eq. intros j. unfold slot_set, ram_bytes.
  destruct (decide (Z.of_nat j < n)) as [Hj|Hj].
  - rewrite list_lookup_fmap, lookup_seqZ_lt by lia. cbn. rewrite ram_byte_set.
    destruct (Z.eqb_spec (a + Z.of_nat j) (a + i)) as [He|Hne].
    + assert (j = Z.to_nat i) as -> by lia. rewrite list_lookup_insert_eq; [done|].
      rewrite length_fmap, length_seqZ. lia.
    + rewrite list_lookup_insert_ne, list_lookup_fmap, lookup_seqZ_lt by lia. done.
  - rewrite !lookup_ge_None_2; [done| |]; rewrite ?length_insert, length_fmap, length_seqZ; lia.
Qed.

Lemma queue_ring q h : queue_ok q -> ring_ok (ram_bytes (heap_mem h) (q_storage q) (q_capacity q)) (q_head q) (q_length q).
Proof. intros [_ Hu Hh Hl _]. split; rewrite ram_bytes_capacity by (unfold is_u64 in *; lia); done. Qed.

(** A byte queue of the kernel is a bounded queue.  A push on a queue with
    room appends the byte, on a full queue it is refused and nothing changes; a
    pop returns the oldest byte, or reports that there is none; and for a client
    of the heap that holds the queue's storage, every push is a write inside that
    storage, so that the heap and everything else that is allocated stay as
    [heap_clients_isolated] says. *)
Theorem byte_queue_fifo h0 h live q v :
  heap_run h0 h live -> (q_storage q, q_capacity q) ∈ live -> queue_ok q -> is_u8 v ->
  (let '(ok, q', h') := kernel_byte_queue_push q v h in
   heap_run h0 h' live /\ queue_ok q' /\ q_storage q' = q_storage q /\ q_capacity q' = q_capacity q /\
   ok = (kernel_byte_queue_size q <? q_capacity q) /\
   queue_bytes q' h' = if ok then queue_bytes q h ++ [v] else queue_bytes q h) /\
  (let '(r, q') := kernel_byte_queue_pop q h in
   queue_ok q' /\ q_storage q' = q_storage q /\ q_capacity q' = q_capacity q /\
   r = head (queue_bytes q h) /\ queue_bytes q' h = tail (queue_bytes q h)).
Proof.
  intros Hrun Hin Hq Hv. pose proof (queue_ring q h Hq) as Hring. pose proof Hq as [Hs Hu Hh Hl Hsm].
  assert (0 <= q_capacity q) as Hc0 by (unfold is_u64 in *; lia). split.
  - unfold kernel_byte_queue_push, kernel_byte_queue_size. rewrite (proj2 (Z.eqb_neq _ _) Hs).
    destruct (Z.eqb_spec (q_length q) (q_capacity q)) as [Hf|Hne].
    + split_and!; try done. symmetry. apply Z.ltb_ge. lia.
    + rewrite wrap64_id by (unfold is_u64 in *; lia).
      pose proof (Z.mod_pos_bound (q_head q + q_length q) (q_capacity q) ltac:(lia)) as Ht.
      split_and!; cbn [q_storage q_capacity]; try done.
      * apply (run_store h0 h live (q_storage q) (q_capacity q)); [done|done|lia|done].
      * split; cbn; try done; lia.
      * symmetry. apply Z.ltb_lt. lia.
      * unfold queue_bytes. cbn [q_storage q_capacity q_head q_length heap_mem set_heap_mem].
        rewrite ram_bytes_set by done.
        destruct (ring_push_store _ _ _ v Hring) as [Hp _]; [rewrite ram_bytes_capacity by done; lia|].
        by rewrite ram_bytes_capacity in Hp by done.
  - unfold kernel_byte_queue_pop. rewrite (proj2 (Z.eqb_neq _ _) Hs).
    destruct (Z.eqb_spec (q_length q) 0) as [H0|Hne].
    + unfold queue_bytes. rewrite H0. by split_and!.
    + rewrite wrap64_id by (unfold is_u64 in *; lia).
      destruct (ring_pop_head _ _ _ Hring) as [Hp Hok]; [lia|].
      rewrite ram_bytes_capacity in Hp, Hok by done. rewrite ram_bytes_get in Hp by done.
      pose proof (Z.mod_pos_bound (q_head q + 1) (q_capacity q) ltac:(lia)) as Ht.
      change (queue_bytes q h) with (ring (ram_bytes (heap_mem h) (q_storage q) (q_capacity q)) (q_head q) (q_length q)).
      rewrite Hp. split_and!; try done. split; cbn; try done; lia.
Qed.

(** What a client holds is never at address 0, and is smaller than the
    window. *)
Lemma held_storage info root F0 h0 h live p n :
  heap_start info root F0 h0 -> heap_run h0 h live -> (p, n) ∈ live -> p <> 0 /\ n <= 2 ^ 63.
Proof.
  intros Hstart Hrun Hin. destruct (run_inv info root F0 h0 h live Hstart Hrun) as (B & F & P & Hinv & Hl).
  destruct (holds_used B live p n Hl Hin) as (x & [Hx _]%elem_of_used & -> & Hn).
  pose proof (hinv_ok _ _ _ _ _ _ Hinv) as [_ [Hb _] [Hlim Hmax] Ht _ _ _].
  destruct (tiled_bounds _ _ _ _ Ht Hx) as (? & ? & _).
  unfold payload, b_end, HEADER_SIZE, Mmu.MMU_VIRTUAL_ADDRESS_LIMIT in *. lia.
Qed.

(** A new queue is empty. *)
Lemma queue_init_spec info root F0 h0 h live n q h' :
  heap_start info root F0 h0 -> heap_run h0 h live -> is_u64 n -> kernel_byte_queue_init n h = (Some q, h') ->
  heap_run h0 h' ((q_storage q, q_capacity q) :: live) /\ queue_ok q /\ q_capacity q = n /\ queue_bytes q h' = [].
Proof.
  intros Hstart Hrun Hn. unfold kernel_byte_queue_init. destruct (Z.eqb_spec n 0) as [|H0]; [done|].
  destruct (kernel_malloc n h) as [[p|] h1] eqn:E; [|done]. intros [= <- <-]. cbn [q_storage q_capacity].
  assert (0 < n) by (unfold is_u64 in Hn; lia).
  pose proof (run_malloc h0 h live n (Some p) h1 Hrun Hn ltac:(done) E) as Hrun'.
  destruct (held_storage info root F0 h0 h1 _ p n Hstart Hrun' ltac:(by left)) as [Hp Hmax].
  split_and!; try done. split; cbn; try done; lia.
Qed.

Definition bit_of (b : KernelBitmap) (h : Heap) (i : Z) : bool :=
  Z.testbit (load64 (heap_mem h) (word_address b i)) (i mod 64).

Record bitmap_ok (b : KernelBitmap) : Prop := {
  bitmap_words : bm_words b <> 0;
  bitmap_bits : 0 < bm_bit_count b;
  bitmap_word_count : bm_word_count b = (bm_bit_count b + 63) / 64;
}.

Lemma land_63 i : Z.land i 63 = i mod 64.
Proof. change 63 with (Z.ones 6). by rewrite Z.land_ones by lia. Qed.

Lemma word_has_bit b h i : 0 <= i -> has_bits (load64 (heap_mem h) (word_address b i)) (bit64 (Z.land i 63)) = bit_of b h i.
Proof. intros Hi. rewrite land_63. apply has_bits_bit64. zlia. Qed.

(** A store into the word of bit [i]. *)
Lemma bit_store b h i (v : Z) j :
  0 <= i -> 0 <= j -> is_u64 v ->
  bit_of b (set_heap_mem (store64 (heap_mem h) (word_address b i) v) h) j =
  if decide (j / 64 = i / 64) then Z.testbit v (j mod 64) else bit_of b h j.
Proof.
  intros Hi Hj Hv. unfold bit_of, word_address. cbn [heap_mem set_heap_mem]. case_decide as He.
  - by rewrite He, load64_store64_same, wrap64_id.
  - rewrite load64_store64_disjoint; [done|]. lia.
Qed.

Lemma same_word_bit i j : 0 <= i -> 0 <= j -> j / 64 = i / 64 -> (i mod 64 =? j mod 64) = (i =? j).
Proof. intros Hi Hj He. destruct (Z.eqb_spec i j) as [->|Hne]; [apply Z.eqb_refl|]. apply Z.eqb_neq. zlia. Qed.

Lemma set_bit_store b h i j :
  ram_wf (heap_mem h) -> 0 <= i -> 0 <= j ->
  bit_of b (set_heap_mem (store64 (heap_mem h) (word_address b i)
    (Z.lor (load64 (heap_mem h) (word_address b i)) (bit64 (Z.land i 63)))) h) j = bit_of b h j || (i =? j).
Proof.
  intros Hwf Hi Hj. pose proof (load64_u64 (heap_mem h) (word_address b i) Hwf). rewrite land_63.
  rewrite bit_store by auto with u64. case_decide as He.
  - rewrite testbit_set_bit by zlia. rewrite same_word_bit by done. unfold bit_of, word_address. by rewrite He.
  - destruct (Z.eqb_spec i j) as [->|]; [done|]. by rewrite orb_false_r.
Qed.

Lemma clear_bit_store b h i j :
  ram_wf (heap_mem h) -> 0 <= i -> 0 <= j ->
  bit_of b (set_heap_mem (store64 (heap_mem h) (word_address b i)
    (Z.land (load64 (heap_mem h) (word_address b i)) (not64 (bit64 (Z.land i 63))))) h) j = bit_of b h j && negb (i =? j).
Proof.
  intros Hwf Hi Hj. pose proof (load64_u64 (heap_mem h) (word_address b i) Hwf). rewrite land_63.
  rewrite bit_store by (auto with u64 || (apply land_u64; auto with u64)). case_decide as He.
  - rewrite testbit_clear_bit by (done || zlia). rewrite same_word_bit by done. unfold bit_of, word_address. by rewrite He.
  - destruct (Z.eqb_spec i j) as [->|]; [done|]. by rewrite andb_true_r.
Qed.

(** A word inside storage a client holds. *)
Lemma run_store_bytes h0 h live p n a l :
  heap_run h0 h live -> (p, n) ∈ live -> p <= a -> a + Z.of_nat (length l) <= p + n -> Forall is_u8 l ->
  heap_run h0 (set_heap_mem (store_bytes (heap_mem h) a l) h) live.
Proof.
  intros Hrun Hin. revert h a Hrun. induction l as [|v l IH]; intros h a Hrun Ha Hl Hv; cbn [store_bytes].
  { by destruct h. }
  apply Forall_cons_1 in Hv as [Hv Hvl]. cbn [length] in Hl.
  apply (IH (set_heap_mem (ram_set_byte (heap_mem h) a v) h)); [|lia|lia|done].
  apply (run_store h0 h live p n); [done|done|lia|done].
Qed.

Lemma run_store64 h0 h live b i v :
  heap_run h0 h live -> (bm_words b, bm_word_count b * 8) ∈ live -> bitmap_ok b -> 0 <= i < bm_bit_count b ->
  heap_run h0 (set_heap_mem (store64 (heap_mem h) (word_address b i) v) h) live.
Proof.
  intros Hrun Hin [_ _ Hw] Hi. rewrite store64_bytes.
  eapply run_store_bytes; [done|exact Hin| | |apply int_to_bytes_u8].
  - unfold word_address. zlia.
  - rewrite length_int_to_bytes. unfold word_address. rewrite Hw. zlia.
Qed.

Lemma find_clear_spec n b c h :
  ram_wf (heap_mem h) -> 0 <= c ->
  match find_clear_loop n b c h with
  | (Some i, h') => c <= i < c + Z.of_nat n /\ bit_of b h i = false /\ (forall j, c <= j < i -> bit_of b h j = true) /\
      h' = set_heap_mem (store64 (heap_mem h) (word_address b i)
             (Z.lor (load64 (heap_mem h) (word_address b i)) (bit64 (Z.land i 63)))) h
  | (None, h') => h' = h /\ forall j, c <= j < c + Z.of_nat n -> bit_of b h j = true
  end.
Proof.
  revert c. induction n as [|n IH]; intros c Hwf Hc; cbn [find_clear_loop].
  { split; [done|]. lia. }
  rewrite word_has_bit by done. destruct (bit_of b h c) eqn:Hb; cbn [negb].
  - specialize (IH (c + 1) Hwf ltac:(lia)). destruct (find_clear_loop n b (c + 1) h) as [[i|] h'].
    + destruct IH as (Hi & Hbi & Hbelow & Hh'). split_and!; try done; try lia.
      intros j Hj. destruct (decide (j = c)) as [->|]; [done|]. apply Hbelow. lia.
    + destruct IH as [-> Hall]. split; [done|]. intros j Hj. destruct (decide (j = c)) as [->|]; [done|]. apply Hall. lia.
  - split_and!; try done; lia.
Qed.

Lemma find_clear_and_set_spec h0 h live b :
  heap_run h0 h live -> ram_wf (heap_mem h) -> (bm_words b, bm_word_count b * 8) ∈ live -> bitmap_ok b ->
  match kernel_bitmap_find_clear_and_set b h with
  | (Some c, h') => 0 <= c < bm_bit_count b /\ bit_of b h c = false /\ (forall j, 0 <= j < c -> bit_of b h j = true) /\
      heap_run h0 h' live /\ forall j, 0 <= j -> bit_of b h' j = bit_of b h j || (c =? j)
  | (None, h') => h' = h /\ forall j, 0 <= j < bm_bit_count b -> bit_of b h j = true
  end.
Proof.
  intros Hrun Hwf Hin Hb. pose proof Hb as [Hw Hbits _]. unfold kernel_bitmap_find_clear_and_set.
  rewrite (proj2 (Z.eqb_neq _ _) Hw).
  pose proof (find_clear_spec (Z.to_nat (bm_bit_count b)) b 0 h Hwf ltac:(lia)) as Hf.
  destruct (find_clear_loop _ b 0 h) as [[c|] h'].
  - destruct Hf as (Hc & Hbc & Hbelow & ->). split_and!; try done; try lia.
    + apply run_store64; [done..|lia].
    + intros j Hj. apply set_bit_store; [done|lia|done].
  - destruct Hf as [-> Hall]. split; [done|]. intros j Hj. apply Hall. lia.
Qed.

(** A new bitmap is empty. *)
Lemma bitmap_init_spec info root F0 h0 h live n b h' :
  heap_start info root F0 h0 -> heap_run h0 h live -> is_u64 n -> kernel_bitmap_init n h = (Some b, h') ->
  heap_run h0 h' ((bm_words b, bm_word_count b * 8) :: live) /\ bitmap_ok b /\ bm_bit_count b = n /\
  forall j, 0 <= j < n -> bit_of b h' j = false.
Proof.
  intros Hstart Hrun Hn. unfold kernel_bitmap_init. destruct (Z.eqb_spec n 0); [done|]. cbn [orb].
  destruct (Z.ltb_spec (KERNEL_SIZE_MAX - 63) n) as [|Hmax]; [done|].
  destruct (kernel_calloc ((n + 63) / 64) 8 h) as [[p|] h1] eqn:E; [|done]. intros [= <- <-]. cbn [bm_words bm_word_count bm_bit_count].
  assert (is_u64 ((n + 63) / 64)) as Hu by (unfold is_u64, KERNEL_SIZE_MAX, UINT64_MAX in *; zlia).
  pose proof (run_calloc h0 h live _ 8 (Some p) h1 Hrun Hu ltac:(done) E) as Hrun'.
  destruct (run_inv info root F0 h0 h live Hstart Hrun) as (B & F & P & Hinv & _).
  destruct (calloc_spec info root h B F P _ 8 Hinv Hu ltac:(done)) as (B' & F' & P' & Hst & Hres). rewrite E in Hst, Hres.
  cbn [fst snd] in *. destruct Hres as (x & -> & _ & Hsz & Hus & Hz).
  assert (payload x <> 0) as Hp0.
  { assert (x ∈ used B') as Hx by (rewrite Hus; by left). apply elem_of_used in Hx as [Hx _].
    pose proof (hstep_inv _ _ _ _ _ _ _ _ _ Hst) as Hinv'. pose proof (hinv_ok _ _ _ _ _ _ Hinv') as [_ [Hb _] _ Ht _ _ _].
    destruct (tiled_bounds _ _ _ _ Ht Hx) as (? & _). unfold payload, HEADER_SIZE. lia. }
  split_and!; [done| |done|].
  - split; cbn; try done. unfold is_u64 in Hn. lia.
  - intros j Hj. unfold bit_of, word_address. cbn [bm_words].
    replace (load64 (heap_mem h1) (payload x + 8 * (j / 64))) with 0; [by rewrite Z.bits_0|].
    symmetry. rewrite (load64_ext (mkRAM ∅ 0)); [done|]. intros a Ha. apply Hz. zlia.
Qed.

(** A kernel bitmap is a set of numbers below [bit_count].  Set and clear
    change the one bit they name and refuse numbers out of range; test reports
    it; [kernel_bitmap_find_clear_and_set] takes the least number that is not in
    the set and adds exactly it, and fails, without effect, only when the set is
    full.  For a client of the heap that holds the words, all of it stays inside
    them. *)
Theorem bitmap_is_a_set info root F0 h0 h live b i :
  heap_start info root F0 h0 -> heap_run h0 h live -> (bm_words b, bm_word_count b * 8) ∈ live -> bitmap_ok b -> 0 <= i ->
  let inside := i <? bm_bit_count b in
  kernel_bitmap_test b i h = inside && bit_of b h i /\
  (let '(ok, h') := kernel_bitmap_set b i h in
   ok = inside /\ heap_run h0 h' live /\
   forall j, 0 <= j -> bit_of b h' j = bit_of b h j || (inside && (i =? j))) /\
  (let '(ok, h') := kernel_bitmap_clear b i h in
   ok = inside /\ heap_run h0 h' live /\
   forall j, 0 <= j -> bit_of b h' j = bit_of b h j && negb (inside && (i =? j))) /\
  (match kernel_bitmap_find_clear_and_set b h with
   | (Some c, h') => 0 <= c < bm_bit_count b /\ bit_of b h c = false /\ (forall j, 0 <= j < c -> bit_of b h j = true) /\
       heap_run h0 h' live /\ forall j, 0 <= j -> bit_of b h' j = bit_of b h j || (c =? j)
   | (None, h') => h' = h /\ forall j, 0 <= j < bm_bit_count b -> bit_of b h j = true
   end).
Proof.
  intros Hstart Hrun Hin Hb Hi inside. pose proof Hb as [Hw Hbits _].
  destruct (run_inv info root F0 h0 h live Hstart Hrun) as (B & F & P & Hinv & _).
  pose proof (ok_wf _ _ (hinv_ok _ _ _ _ _ _ Hinv)) as Hwf.
  pose proof (find_clear_and_set_spec h0 h live b Hrun Hwf Hin Hb) as Hfind.
  unfold kernel_bitmap_test, kernel_bitmap_set, kernel_bitmap_clear, bitmap_change.
  rewrite (proj2 (Z.eqb_neq _ _) Hw). cbn [orb]. unfold inside. rewrite word_has_bit by done.
  destruct (Z.leb_spec (bm_bit_count b) i) as [Hout|Hlt].
  - rewrite (proj2 (Z.ltb_ge i _)) by lia. cbn [andb negb]. split_and!; try done.
    + intros j _. by rewrite orb_false_r.
    + intros j _. by rewrite andb_true_r.
  - rewrite (proj2 (Z.ltb_lt i _)) by lia. cbn [andb negb]. split_and!; try done.
    + by apply run_store64.
    + intros j Hj. by apply set_bit_store.
    + by apply run_store64.
    + intros j Hj. by apply clear_bit_store.
Qed.

(** ** Concrete storage *)

Definition demo_queue : KernelByteQueue * Heap :=
  let '(q, h) := kernel_byte_queue_init 4 demo_heap in (default (mkQueue 0 0 0 0) q, h).
Definition demo_bitmap : KernelBitmap * Heap :=
  let '(b, h) := kernel_bitmap_init 130 demo_heap in (default (mkBitmap 0 0 0) b, h).

Lemma demo_queue_init : kernel_byte_queue_init 4 demo_heap = (Some demo_queue.1, demo_queue.2).
Proof.
  unfold demo_queue. rewrite (run_result (kernel_byte_queue_init 4 demo_heap) (Some (mkQueue (heap_base demo_heap + 48) 4 0 0)))
    by by vm_compute. done.
Qed.

Lemma byte_queue_fifo_witness :
  queue_bytes (kernel_byte_queue_push demo_queue.1 7 demo_queue.2).1.2
    (kernel_byte_queue_push demo_queue.1 7 demo_queue.2).2 = [7].
Proof.
  destruct (queue_init_spec demo_info 0x1000 demo_free demo_heap_start demo_heap [] 4 demo_queue.1 demo_queue.2
    demo_heap_start_ok (run_init demo_heap_start demo_heap demo_heap_init) ltac:(done) demo_queue_init) as (Hrun & Hq & _).
  destruct (byte_queue_fifo demo_heap_start demo_queue.2 _ demo_queue.1 7 Hrun ltac:(by left) Hq ltac:(done)) as [H _].
  destruct (kernel_byte_queue_push demo_queue.1 7 demo_queue.2) as [[ok q'] h']. cbn [fst snd].
  destruct H as (_ & _ & _ & _ & Hok & ->). rewrite Hok. by vm_compute.
Defined.

Lemma demo_bitmap_init : kernel_bitmap_init 130 demo_heap = (Some demo_bitmap.1, demo_bitmap.2).
Proof.
  unfold demo_bitmap. rewrite (run_result (kernel_bitmap_init 130 demo_heap) (Some (mkBitmap (heap_base demo_heap + 48) 130 3)))
    by by vm_compute. done.
Qed.

Lemma bitmap_is_a_set_witness :
  (kernel_bitmap_set demo_bitmap.1 129 demo_bitmap.2).1 = true /\
  kernel_bitmap_test demo_bitmap.1 129 demo_bitmap.2 = false.
Proof.
  destruct (bitmap_init_spec demo_info 0x1000 demo_free demo_heap_start demo_heap [] 130 demo_bitmap.1 demo_bitmap.2
    demo_heap_start_ok (run_init demo_heap_start demo_heap demo_heap_init) ltac:(done) demo_bitmap_init) as (Hrun & Hb & Hn & Hz).
  destruct (bitmap_is_a_set demo_info 0x1000 demo_free demo_heap_start demo_bitmap.2 _ demo_bitmap.1 129
    demo_heap_start_ok Hrun ltac:(by left) Hb ltac:(lia)) as (Ht & Hs & _).
  destruct (kernel_bitmap_set demo_bitmap.1 129 demo_bitmap.2) as [ok h']. destruct Hs as [-> _].
  rewrite Ht, Hn, Hz by lia. split; reflexivity.
Defined.
